(* ===== verification/_CoqProject ===== *)
-Q . S2P
Prelude.v
DList.v
SList.v
Nginx.v
MsgId.v
MsgIdText.v
MsgIdFacts.v
Msg.v
MsgRef.v
Groups.v
GroupFacts.v
ChanHead.v
ChanHeadFacts.v
ChanHeadRead.v
Ipc.v
IpcFacts.v
RbTree.v
RbTreeFacts.v
Spool.v
SpoolWf.v
SpoolRange.v
SpoolDeliver.v
SpoolMissed.v
SpoolRun.v
Rwlock.v
Scan.v
ChannelId.v
Crc16.v
ClusterSlots.v
ClusterSlotsFacts.v
ClusterNodes.v
WsFrame.v
WsFrameFacts.v
Websocket.v
WebsocketFacts.v
WebsocketSafety.v
MultiGet.v
MultiGetFacts.v
MultiRead.v
Reaper.v
ReaperFacts.v
ChanLife.v
ChanLifeFacts.v
ChanLifeStore.v
HttpSub.v
HttpStream.v
HttpFrame.v
EventSource.v
HttpSafety.v
HttpDecode.v
Worker.v
IpcSend.v
InternalSub.v
ChanReady.v
ChanRequest.v
IpcHandlers.v
IpcLedger.v
IpcLedgerFacts.v
IpcLedgerOps.v
IpcLedgerSubs.v
IpcLedgerHeads.v
IpcLedgerRequests.v
IpcLedgerHandlers.v
IpcSystem.v
IpcPools.v
IpcRuns.v
ReuseQueue.v
BufChain.v
Output.v
NchanList.v
TimeQueue.v
ThingCache.v
RedisChannels.v
RedisChannelsFacts.v
RedisChannelsRuns.v
RedisChannelsNodes.v
RedisChannelsReady.v
