(* ===== verification/Prelude.v ===== *)
(** * A verification development for the nchan pub/sub module

    nchan is an nginx module: publishers post messages to channels, subscribers
    (WebSocket, EventSource, long polling, chunked and multipart HTTP) receive
    them.  A channel is owned by one worker process, chosen by a hash of its
    id; the other workers relay to it through alerts on pipes.  Messages and
    counters are in shared memory.  Subscribers wait in pools by the message id
    they have reached; an id is a second and a tag within that second, and one
    such tag for each channel when several are read as one.  Channels may be
    accounted to groups with limits, and may be backed by a Redis server or
    cluster.

    ** How the program is modelled

    The development is a shallow embedding of the C code.  A function of the
    source is a Rocq function of the same name; a loop is a [Fixpoint], on the
    list it walks or on a bound; a large function is split at its blocks.  The
    result of a routine that may stop the worker has type [outcome] (below): a
    value, [Crash] for a failed [assert] or an access through a pointer to no
    live object, or [NoFuel] when a bound is exhausted.  Pointers are addresses
    in finite maps ([gmap positive _]), so that aliasing, double frees and uses
    after a free are expressible; the address that an allocation returns is an
    argument, [None] when it fails.  Integers keep their width through
    [wrapu]/[wraps] wherever the code can reach the limit.  Callbacks into
    other components are parameters or are recorded in order in a trace.
    Nothing is assumed by axiom.

    What is outside of the repository is a type class whose laws state the
    documented behaviour that is relied on, with an instance that satisfies
    them and on which the examples are evaluated: [NgxString] (string routines
    of nginx, Nginx.v), [NgxRbtree] (its red-black trees, RbTree.v),
    [SubscriberFn] (the methods of a subscriber, Spool.v), [NgxSocket],
    [NgxPool], [Inflate] and [NgxUtf8] (sockets, memory pools, zlib and
    character decoding, for WebSockets), [NgxTime] (dates, HttpStream.v), and [Sizeof] (sizes of C structures).
    [NodeOrder] (RbTreeFacts.v) is what a tree asks of the comparison it is
    given, which Spool and ClusterSlots provide; [ChannelStore] (ChanLife.v) is
    what the life of a channel asks of the message buffers and the groups, with
    its laws in ChanLifeFacts.v, which ChanLifeStore.v proves of ChanHead.
    [StoreEnv] (Worker.v) is what the handlers of alerts use of the pools, queues,
    buffers, groups and Redis, with its laws in IpcLedger.v, which IpcPools.v
    proves of a small environment.  The handlers are written in a monad of their
    own (Worker.v): a result names the resource that was gone through after it was
    freed.

    ** The parts

    Shared: Prelude (this file: outcomes, machine integers, lemmas on lists),
    Nginx (strings, decimal numbers), DList (memory of linked lists).

    - Static lists, src/src/util/nchan_slist.c: SList.  Refinement of sequences
      under any run of the operations but the transfer of a list to another.
    - Message ids, util/nchan_msg.c, nchan_output.c, store/spool.c: MsgId
      (tags, ownership of tag arrays, comparison, update, text), MsgIdText
      (what is printed is parsed back), MsgIdFacts (copies, positions, order).
    - Messages, util/nchan_msg.c, store/memory/memstore.c: Msg (structure,
      reservations, layout in shared memory), MsgRef (reservation counts are
      exact over all runs of what holds messages and lets them go; no message is
      freed while it is held).
    - Groups, store/memory/groups.c: Groups, GroupFacts (what becomes of
      queued updates: applied, or dropped by a deletion that comes first; deleting
      reaches every channel; what the limits let through).
    - The buffer of a channel, store/memory/memstore.c: ChanHead (push, find,
      collect garbage, publish), ChanHeadFacts (publishing keeps the buffer an
      ordered chain), ChanHeadRead (a read is exact, a reader that follows the
      ids sees every message).
    - Reading several channels as one, store/memory/memstore.c and
      subscribers/memstore_multi.c: MultiGet, MultiGetFacts (the oldest answer
      is chosen, in any order of arrival, and everything is released), MultiRead
      (reading on is a sorted merge of the channels).
    - Reapers, util/nchan_reaper.c: Reaper, ReaperFacts (one tick, for each way of
      scanning, with callbacks that leave the reaper and other things alone).
    - The life of channel heads, store/memory/memstore.c and
      subscribers/memstore_multi.c: ChanLife (the garbage collection queue and the
      churner, subscribers, multiplexed heads), ChanLifeFacts (garbage collection
      is safe and complete), ChanLifeStore (the buffers of ChanHead as its store).
    - Alerts between workers, store/memory/ipc.c: Ipc, IpcFacts (a queue: order,
      no loss, progress).
    - What the alerts do, store/memory/ipc-handlers.c, the parts of memstore.c that
      they call, subscribers/internal.c, memstore_ipc.c and getmsg_proxy.c: Worker
      (the state of all the workers, shared memory, the alerts and their data),
      IpcSend (requests), InternalSub (internal subscribers), ChanReady (finding,
      creating and readying channel heads), ChanRequest (publishing, deleting,
      reading), IpcHandlers (the handlers).  IpcLedger counts what is held for an
      exchange against what memory says; IpcLedgerFacts, IpcLedgerOps,
      IpcLedgerSubs, IpcLedgerHeads, IpcLedgerRequests and IpcLedgerHandlers prove
      of each routine how it moves the two, by triples that compose; IpcSystem
      puts the workers together and concludes (nothing shared is let go before
      its last holder; only two handlers can go through what was freed; where the
      lookups find what they are for, everything is given back).  IpcPools and IpcRuns: an environment and runs in it.
    - Trees, util/nchan_rbtree.c: RbTree, RbTreeFacts.
    - Subscriber pools, store/spool.c: Spool; SpoolWf (structural invariant),
      SpoolRange (which pools a message concerns), SpoolDeliver (invariant of
      delivery), SpoolMissed (subscribers of a message that is gone), SpoolRun
      (over runs of subscriptions, publications, timers and departures with ids of
      one channel, every subscriber gets the messages after its id once and in
      order, and exactly which arrival aborts the worker).
    - Read-write lock, store/ngx_rwlock.c: Rwlock, a step relation over the
      loads and stores of interleaved workers (mutual exclusion, no lost
      release).
    - Scanning, util/nchan_util.c: Scan.  Channel ids, util/nchan_channel_id.c:
      ChannelId (several ids in one are taken apart again).
    - Redis Cluster, store/redis/redis_nodeset.c and redis_nodeset_parser.c:
      Crc16 (the table-driven checksum is the CRC; the slot of a channel is that
      of its keys), ClusterSlots and ClusterSlotsFacts (the index of slot ranges
      is exact), ClusterNodes (the CLUSTER NODES reply is parsed to what it was
      printed from, but for the failed flag of lines flagged fail?).
    - Channels of the Redis store, store/redis/rdsstore.c and redis_nodeset.c:
      RedisChannels (heads, the lists of nodes that go through them, the commands
      that hold them, what becomes of them when nodes come and go),
      RedisChannelsFacts (the invariant, one step at a time),
      RedisChannelsRuns (operations on one head), RedisChannelsNodes
      (connections that end, nodes that are ready: loops over the heads of a
      node), RedisChannelsReady (the nodeset is ready; runs of all of these, with
      [op_ok] as the conditions under which nothing aborts; the code does not ensure
      them, and runs that abort show that each is needed).  The answers of a connection are a queue of its
      commands; the bounds of the loops are the number of heads.
    - WebSockets, subscribers/websocket.c: WsFrame and WsFrameFacts (frames,
      masking with vector instructions, UTF-8), Websocket (the life of a
      subscriber), WebsocketFacts (frames are read whole when none of the pieces
      they arrive in ends inside the payload of a ping or pong), WebsocketSafety
      (no input makes the reader fail, provided at most one publication is refused
      at once; two refusals do).
    - Subscribers over HTTP, subscribers/longpoll.c, eventsource.c, http-chunked.c,
      http-multipart-mixed.c, http-raw-stream.c, common.c and the responses of
      util/nchan_output.c: HttpSub (the structure, long polling), HttpStream (the
      streaming protocols), HttpFrame (what writing a response leaves alone),
      EventSource (a client of the protocol gets the messages, but for texts with a
      carriage return and files with newlines before white space), HttpSafety (the
      life of a subscriber, in the orders of events it is safe in, and what fails
      in others), HttpDecode (clients of the
      other streams).
    - Output to clients, util/nchan_output.c and what it keeps for a request:
      ReuseQueue (util/nchan_reuse_queue.c, queues whose elements are used again),
      BufChain (util/nchan_bufchainpool.c, links, files and the chain of a
      response), Output (messages reserved while nginx has not sent everything:
      what is pending is alive, except messages that two paths send without
      reserving them, and all is let go afterwards, whatever the output
      filter does; [filter_laws] is what it is relied on for).
    - Containers: NchanList (util/nchan_list.c), TimeQueue
      (util/nchan_timequeue.c, when the commands to Redis in flight were sent),
      ThingCache (util/nchan_thingcache.c, the cache of file descriptors); each
      refines its plain counterpart and gives all of its memory back.

    The parts meet where the code does: ChanHead stores the messages of Msg
    under the ids of MsgId and accounts them to Groups; Spool asks a store for
    messages, and its theorems are proved for a store that answers with the
    first message after the id, which is what ChanHeadRead proves of a buffer; MultiRead asks several such stores; the slot of Crc16 is that
    of the ids ChannelId builds; ClusterSlots indexes the ranges ClusterNodes
    parses; Websocket publishes the payloads of WsFrame; Output
    holds the messages of MsgRef in a queue of ReuseQueue and flushes the pools of
    BufChain, whose files are opened again through ThingCache; RedisChannels
    lists its heads in the lists of SList and a Reaper, and finds their nodes
    through ClusterSlots.

    ** Bounds and fuel

    Loops over a list or a string recurse on it.  A loop over a pointer
    structure has a bound that is computed from the structure ([buffer_fuel] of
    ChanHead, the depth of trees, the bytes that have arrived in Websocket), and
    the theorems state that the result is a value, hence that the bound
    suffices.  Chains of derived messages have length two, which [msg_reserve]
    and [msg_release] are given as their bound.  Fixed bounds of the code (255
    tags, 32 alerts, 32 spools, 512 lines) are its own.

    Theorems that exhibit a defect state it as it is: a run of the modelled code
    that loses, leaks, never returns or touches freed memory.

    ** Not modelled

    The output filters of nginx themselves, the
    configuration and request dispatch of the module, the alerts of the
    benchmark and of Redis statistics, workers that die or are replaced, the messages
    of the Redis store (its scripts run in the server), how its nodes connect and
    its nodesets change their status, the WebSocket handshake, zlib, and code that
    only calls nginx,
    zlib or hiredis.  Time is an argument.  Memory orders weaker than
    sequential consistency are not considered. *)

From stdpp Require Export prelude list gmap.
From Stdlib Require Export ZArith Lia.

(** * Outcomes of C code

    A C routine returns, or aborts the worker process (a failed [assert], or
    an access through a pointer that designates no live object).  Loops whose
    termination depends on the shape of a pointer structure are run with a
    bound and report [NoFuel] when it is exhausted. *)

Inductive outcome (A : Type) : Type :=
  | Ret (a : A)
  | Crash
  | NoFuel.
Arguments Ret {A} _.
Arguments Crash {A}.
Arguments NoFuel {A}.

Global Instance outcome_ret : MRet outcome := fun A a => Ret a.
Global Instance outcome_bind : MBind outcome := fun A B f m =>
  match m with
  | Ret a => f a
  | Crash => Crash
  | NoFuel => NoFuel
  end.
Global Instance outcome_eq_dec `{EqDecision A} : EqDecision (outcome A).
Proof. solve_decision. Defined.

Global Instance Ret_inj A : Inj (=) (=) (@Ret A).
Proof. by intros x y [= ->]. Qed.

(** [assert(cond)]. *)
Definition c_assert (b : bool) : outcome unit := if b then Ret () else Crash.

Lemma bind_Ret {A B} (a : A) (f : A -> outcome B) : (Ret a ≫= f) = f a.
Proof. reflexivity. Qed.

Lemma c_assert_bind {A} b (k : outcome A) : b = true -> (c_assert b;; k) = k.
Proof. by intros ->. Qed.

Lemma bind_Ret_inv {A B} (m : outcome A) (f : A -> outcome B) b :
  (m ≫= f) = Ret b -> exists a, m = Ret a /\ f a = Ret b.
Proof. destruct m; simpl; intros H; try discriminate. eauto. Qed.

Lemma bind_assoc {A B C} (m : outcome A) (f : A -> outcome B) (g : B -> outcome C) :
  (m ≫= f) ≫= g = m ≫= (fun a => f a ≫= g).
Proof. by destruct m. Qed.

(** * Machine integers *)

Open Scope Z_scope.

(** Reduction to [w] bits, unsigned and two's complement. *)
Definition wrapu (w z : Z) : Z := z `mod` 2 ^ w.
Definition wraps (w z : Z) : Z := (z + 2 ^ (w - 1)) `mod` 2 ^ w - 2 ^ (w - 1).

Notation u8 := (wrapu 8).
Notation u16 := (wrapu 16).
Notation u32 := (wrapu 32).
Notation u64 := (wrapu 64).
Notation s8 := (wraps 8).
Notation s16 := (wraps 16).
Notation s32 := (wraps 32).
Notation s64 := (wraps 64).

Definition in_u (w z : Z) : Prop := 0 <= z < 2 ^ w.
Definition in_s (w z : Z) : Prop := - 2 ^ (w - 1) <= z < 2 ^ (w - 1).

Lemma wrapu_small w z : in_u w z -> wrapu w z = z.
Proof. intros H. apply Z.mod_small, H. Qed.

Lemma wraps_small w z : 0 < w -> in_s w z -> wraps w z = z.
Proof.
  unfold wraps, in_s. intros Hw H.
  assert (2 ^ w = 2 * 2 ^ (w - 1)) as E.
  { replace w with (Z.succ (w - 1)) at 1 by lia. rewrite Z.pow_succ_r; lia. }
  rewrite Z.mod_small; lia.
Qed.

Lemma wrapu_range w z : 0 <= w -> in_u w (wrapu w z).
Proof. intros. unfold in_u, wrapu. apply Z.mod_pos_bound. lia. Qed.

Lemma wraps_range w z : 0 < w -> in_s w (wraps w z).
Proof.
  unfold wraps, in_s. intros Hw.
  assert (2 ^ w = 2 * 2 ^ (w - 1)) as E.
  { replace w with (Z.succ (w - 1)) at 1 by lia. rewrite Z.pow_succ_r; lia. }
  pose proof (Z.mod_pos_bound (z + 2 ^ (w - 1)) (2 ^ w)). lia.
Qed.

(** Incrementing a counter modulo a power of two commutes with reading it
    modulo a smaller one. *)
Lemma wrapu_mod w k z : 0 <= k <= w -> wrapu w z `mod` 2 ^ k = z `mod` 2 ^ k.
Proof.
  intros. unfold wrapu. symmetry. apply Znumtheory.Zmod_div_mod; try lia.
  exists (2 ^ (w - k)). rewrite <- Z.pow_add_r by lia. f_equal. lia.
Qed.

Lemma wraps_add w a b : wraps w (wraps w a + b) = wraps w (a + b).
Proof.
  unfold wraps. f_equal.
  replace ((a + 2 ^ (w - 1)) `mod` 2 ^ w - 2 ^ (w - 1) + b + 2 ^ (w - 1))
    with ((a + 2 ^ (w - 1)) `mod` 2 ^ w + b) by ring.
  rewrite Zplus_mod_idemp_l. f_equal. ring.
Qed.

(** * Return codes of nginx *)

Definition NGX_OK : Z := 0.
Definition NGX_ERROR : Z := -1.
Definition NGX_AGAIN : Z := -2.
Definition NGX_DONE : Z := -4.
Definition NGX_DECLINED : Z := -5.
Definition NGX_ABORT : Z := -6.

(** * List lemmas shared by the components *)

(** First (last) element of a list, or a default pointer. *)
Definition hd_or {A} (xs : list A) (d : option A) : option A :=
  match xs with [] => d | x :: _ => Some x end.

Definition last_or {A} (d : option A) (xs : list A) : option A :=
  match last xs with Some x => Some x | None => d end.

Lemma hd_or_None {A} (xs : list A) : hd_or xs None = head xs.
Proof. by destruct xs. Qed.

Lemma last_or_None {A} (xs : list A) : last_or None xs = last xs.
Proof. unfold last_or. by destruct (last xs). Qed.

Lemma last_or_snoc {A} d (xs : list A) x : last_or d (xs ++ [x]) = Some x.
Proof. unfold last_or. by rewrite last_snoc. Qed.

Lemma last_or_cons {A} d (x : A) xs : last_or d (x :: xs) = last_or (Some x) xs.
Proof. unfold last_or. rewrite last_cons. by destruct (last xs). Qed.

Lemma hd_or_app {A} (xs ys : list A) d : hd_or (xs ++ ys) d = hd_or xs (hd_or ys d).
Proof. by destruct xs. Qed.

Lemma last_or_app {A} (xs ys : list A) d : last_or d (xs ++ ys) = last_or (last_or d xs) ys.
Proof.
  unfold last_or. rewrite last_app. by destruct (last ys), (last xs).
Qed.

Lemma hd_or_elem {A} (xs : list A) x : hd_or xs None = Some x -> x ∈ xs.
Proof. destruct xs; simpl; intros; simplify_eq; set_solver. Qed.

Lemma last_elem {A} (xs : list A) x : last xs = Some x -> x ∈ xs.
Proof. intros [l ->]%last_Some. set_solver. Qed.

(** Case analysis on the last element. *)
Lemma list_snoc_cases {A} (xs : list A) : xs = [] \/ exists ys y, xs = ys ++ [y].
Proof. destruct xs using rev_ind; eauto. Qed.

(** Filtering. *)
Lemma filter_none {A} (P : A -> Prop) `{!forall x, Decision (P x)} (l : list A) :
  (forall a, a ∈ l -> ~ P a) -> filter P l = [].
Proof.
  induction l as [|x l IH]; intros N; [done|]. rewrite filter_cons_False; [apply IH|]; intros; apply N;
    rewrite elem_of_cons; auto.
Qed.

Lemma filter_all {A} (P : A -> Prop) `{!forall x, Decision (P x)} (l : list A) :
  (forall a, a ∈ l -> P a) -> filter P l = l.
Proof.
  induction l as [|x l IH]; intros N; [done|]. rewrite filter_cons_True by (apply N; by apply elem_of_cons; left).
  rewrite IH; [done|]. intros. apply N. by apply elem_of_cons; right.
Qed.

Lemma filter_ext_in {A} (P Q : A -> Prop) `{!forall x, Decision (P x)} `{!forall x, Decision (Q x)} (l : list A) :
  (forall a, a ∈ l -> P a <-> Q a) -> filter P l = filter Q l.
Proof.
  induction l as [|x l IH]; intros E; [done|]. rewrite !filter_cons.
  rewrite IH by (intros; apply E; by apply elem_of_cons; right).
  specialize (E x ltac:(by apply elem_of_cons; left)).
  destruct (decide (P x)), (decide (Q x)); tauto || done.
Qed.

Lemma NoDup_fmap_filter {A B} (f : A -> B) (P : A -> Prop) `{!forall x, Decision (P x)} (l : list A) :
  NoDup (f <$> l) -> NoDup (f <$> filter P l).
Proof.
  induction l as [|x l IH]; [done|]. rewrite fmap_cons. intros [N ND]%NoDup_cons. rewrite filter_cons.
  destruct (decide (P x)); [|auto]. rewrite fmap_cons. apply NoDup_cons. split; [|auto].
  intros (y & E & [_ Hy]%list_elem_of_filter)%list_elem_of_fmap. apply N, list_elem_of_fmap. eauto.
Qed.

Lemma Forall2_impl_in {A B} (P Q : A -> B -> Prop) l k :
  Forall2 P l k -> (forall x y, x ∈ l -> P x y -> Q x y) -> Forall2 Q l k.
Proof.
  induction 1 as [|x y l k Hxy F IH]; intros I; constructor.
  - apply I; [by apply elem_of_cons; left|done].
  - apply IH. intros a b Ha. apply I. by apply elem_of_cons; right.
Qed.

(** * Hints *)

Create HintDb nchan.
#[export] Hint Rewrite @bind_Ret @last_or_snoc @last_or_cons @hd_or_app @last_or_app
  @hd_or_None @last_or_None : nchan.

Ltac inv_outcome :=
  repeat match goal with
  | H : Ret _ = Ret _ |- _ => injection H as H
  | H : Crash = Ret _ |- _ => discriminate H
  | H : NoFuel = Ret _ |- _ => discriminate H
  | H : (_ ≫= _) = Ret _ |- _ => apply bind_Ret_inv in H; destruct H as (? & ? & H)
  end; simplify_eq.
