(* ===== verification/DList.v ===== *)
(** * Memory of intrusive list links

    nchan keeps its queues as doubly linked lists threaded through the queued
    objects: every routine reaches a link by adding a byte offset to the
    object's address ([nchan_slist_t.offset], [nchan_reuse_queue_t] and
    [nchan_reaper_t]'s [prev_ptr_offset]/[next_ptr_offset], or the two fields
    of [nchan_list_el_t]).  The memory of those links maps an object and an
    offset to a pointer; reading or writing a link of an object that is not
    live aborts. [dseg] is the shape a segment of such a list has in memory. *)

From S2P Require Import Prelude.

(** Objects; [None] is [NULL]. *)
Notation loc := positive.
Notation ptr := (option positive).
Notation mem := (gmap (positive * Z) (option positive)).

(** Reading and writing the link at [x + o]. *)
Definition load (h : mem) (x : loc) (o : Z) : outcome ptr :=
  match h !! (x, o) with Some v => Ret v | None => Crash end.

Definition store (h : mem) (x : loc) (o : Z) (v : ptr) : outcome mem :=
  match h !! (x, o) with Some _ => Ret (<[(x, o) := v]> h) | None => Crash end.

(** Dereferencing a possibly null pointer. *)
Definition load_ptr (h : mem) (p : ptr) (o : Z) : outcome ptr :=
  match p with Some x => load h x o | None => Crash end.

Definition store_ptr (h : mem) (p : ptr) (o : Z) (v : ptr) : outcome mem :=
  match p with Some x => store h x o v | None => Crash end.

Section segments.
(** Offsets of the links to the previous and to the next object. *)
Context (po no : Z).

(** [x] is live: both its links can be accessed. *)
Definition live (h : mem) (x : loc) : Prop :=
  is_Some (h !! (x, po)) /\ is_Some (h !! (x, no)).

(** A new object, its links holding whatever [malloc] left there. *)
Definition alloc (h : mem) (x : loc) (g1 g2 : ptr) : mem :=
  <[(x, po) := g1]> (<[(x, no) := g2]> h).

Definition dealloc (h : mem) (x : loc) : mem := delete (x, po) (delete (x, no) h).

(** The objects [xs] are linked in that order: the first one's previous link
    is [p], the last one's next link is [n]. *)
Fixpoint dseg (h : mem) (p : ptr) (xs : list loc) (n : ptr) : Prop :=
  match xs with
  | [] => True
  | x :: ys =>
      h !! (x, po) = Some p /\ h !! (x, no) = Some (hd_or ys n) /\
      dseg h (Some x) ys n
  end.

Lemma dseg_cons h p x ys n :
  dseg h p (x :: ys) n <->
  h !! (x, po) = Some p /\ h !! (x, no) = Some (hd_or ys n) /\ dseg h (Some x) ys n.
Proof. reflexivity. Qed.

Lemma dseg_app h p xs ys n :
  dseg h p (xs ++ ys) n <-> dseg h p xs (hd_or ys n) /\ dseg h (last_or p xs) ys n.
Proof.
  revert p. induction xs as [|x xs IH]; intros p; simpl.
  - unfold last_or; simpl. tauto.
  - rewrite IH, hd_or_app, last_or_cons. tauto.
Qed.

Lemma dseg_frame h h' p xs n :
  (forall x, x ∈ xs -> h' !! (x, po) = h !! (x, po) /\ h' !! (x, no) = h !! (x, no)) ->
  dseg h p xs n -> dseg h' p xs n.
Proof.
  revert p. induction xs as [|x xs IH]; intros p F; simpl; [done|].
  intros (E1 & E2 & S). destruct (F x) as [-> ->]; [set_solver|].
  split_and!; auto. apply IH; auto. intros y Hy. apply F. set_solver.
Qed.

Lemma dseg_live h p xs n x : dseg h p xs n -> x ∈ xs -> live h x.
Proof.
  revert p. induction xs as [|y ys IH]; intros p; simpl; [set_solver|].
  intros (E1 & E2 & S) [->|Hx]%elem_of_cons; [|eauto].
  split; eauto.
Qed.

Lemma dseg_lookup h p xs1 x xs2 n :
  dseg h p (xs1 ++ x :: xs2) n ->
  h !! (x, po) = Some (last_or p xs1) /\ h !! (x, no) = Some (hd_or xs2 n).
Proof. intros (_ & S)%dseg_app. simpl in S. tauto. Qed.

Lemma dseg_insert_other h p xs n y o v :
  y ∉ xs -> dseg h p xs n -> dseg (<[(y, o) := v]> h) p xs n.
Proof.
  intros Hy. apply dseg_frame. intros x Hx.
  by rewrite !lookup_insert_ne by set_solver.
Qed.

Lemma dseg_dealloc_other h p xs n y :
  y ∉ xs -> dseg h p xs n -> dseg (dealloc h y) p xs n.
Proof.
  intros Hy. apply dseg_frame. intros x Hx. unfold dealloc.
  by rewrite !lookup_delete_ne by set_solver.
Qed.

Context (Hpn : po <> no).

(** Overwriting the outer links of a segment. *)
Lemma dseg_set_next h p xs y n n' :
  NoDup (xs ++ [y]) -> dseg h p (xs ++ [y]) n ->
  dseg (<[(y, no) := n']> h) p (xs ++ [y]) n'.
Proof.
  intros ND (S1 & S2)%dseg_app. apply dseg_app. simpl in *. split.
  - eapply dseg_frame, S1. intros x Hx.
    assert (x <> y) by (apply NoDup_app in ND; set_solver).
    by rewrite !lookup_insert_ne by congruence.
  - rewrite lookup_insert_ne, lookup_insert_eq by congruence. tauto.
Qed.

Lemma dseg_set_prev h p p' x xs n :
  NoDup (x :: xs) -> dseg h p (x :: xs) n ->
  dseg (<[(x, po) := p']> h) p' (x :: xs) n.
Proof.
  intros ND (E1 & E2 & S). simpl.
  rewrite lookup_insert_eq, lookup_insert_ne by congruence. split_and!; auto.
  eapply dseg_frame, S. intros y Hy.
  assert (x <> y) by (apply NoDup_cons in ND; set_solver).
  by rewrite !lookup_insert_ne by congruence.
Qed.

(** A whole list. *)
Definition dlist (h : mem) (xs : list loc) : Prop :=
  NoDup xs /\ dseg h None xs None.

(** Taking [x] out of a list: both neighbours are made to skip it. *)
Lemma dseg_remove h xs1 x xs2 h' :
  NoDup (xs1 ++ x :: xs2) -> dseg h None (xs1 ++ x :: xs2) None ->
  (forall y, last xs1 = Some y -> h' !! (y, no) = Some (head xs2)) ->
  (forall y, head xs2 = Some y -> h' !! (y, po) = Some (last xs1)) ->
  (forall y o, (y, o) <> (x, po) -> (y, o) <> (x, no) ->
     (o = no -> last xs1 <> Some y) -> (o = po -> head xs2 <> Some y) ->
     h' !! (y, o) = h !! (y, o)) ->
  dseg h' None (xs1 ++ xs2) None.
Proof.
  intros ND S E1 E2 F. apply NoDup_app in ND as (ND1 & D & ND2).
  apply NoDup_cons in ND2 as [Nx ND2].
  apply dseg_app in S as [S1 S2]. simpl in S2. destruct S2 as (P1 & P2 & S2).
  assert (forall z, z ∈ xs1 -> z <> x /\ head xs2 <> Some z) as D1.
  { intros z Hz. specialize (D z Hz). apply not_elem_of_cons in D as [? D].
    split; [done|]. intros E. apply D, hd_or_elem. by rewrite hd_or_None. }
  assert (forall z, z ∈ xs2 -> z <> x /\ last xs1 <> Some z) as D2.
  { intros z Hz. split; [congruence|]. intros E%last_elem%D. set_solver. }
  apply dseg_app. split.
  - destruct (list_snoc_cases xs1) as [->|(ys & y & ->)]; [done|].
    rewrite last_snoc in E1, F. specialize (E1 y eq_refl).
    apply dseg_app in S1 as [S1 S1']. simpl in S1'. destruct S1' as (Q1 & Q2 & _).
    apply NoDup_app in ND1 as (ND1 & D3 & _).
    apply dseg_app. split.
    + eapply dseg_frame, S1. intros z Hz. destruct (D1 z); [set_solver|].
      assert (z <> y) by (intros ->; apply (D3 y); set_solver).
      split; apply F; congruence.
    + simpl. rewrite E1, hd_or_None. split_and!; auto. destruct (D1 y); [set_solver|].
      rewrite F; congruence.
  - destruct xs2 as [|y ys]; [done|]. simpl in E2, F. specialize (E2 y eq_refl).
    simpl in S2. destruct S2 as (Q1 & Q2 & S2). apply NoDup_cons in ND2 as [Ny ND2].
    simpl. rewrite E2, last_or_None. destruct (D2 y); [set_solver|]. split_and!; auto.
    + rewrite F; congruence.
    + eapply dseg_frame, S2. intros z Hz. destruct (D2 z); [set_solver|].
      split; apply F; congruence.
Qed.

(** Putting [x] at the end: the last object is made to point to it. *)
Lemma dlist_snoc h xs x h' :
  dlist h xs -> x ∉ xs ->
  h' !! (x, po) = Some (last xs) -> h' !! (x, no) = Some None ->
  (forall y, last xs = Some y -> h' !! (y, no) = Some (Some x)) ->
  (forall y o, y <> x -> (o = no -> last xs <> Some y) -> h' !! (y, o) = h !! (y, o)) ->
  dlist h' (xs ++ [x]).
Proof.
  intros [ND S] Nx E1 E2 E3 F. split.
  { apply NoDup_app. split_and!; [done| |apply NoDup_singleton]. intros y Hy ->%list_elem_of_singleton. done. }
  apply dseg_app. split; [|simpl; by rewrite E1, E2, last_or_None].
  destruct (list_snoc_cases xs) as [->|(ys & y & ->)]; [done|]. rewrite last_snoc in *.
  apply dseg_app in S as [S1 S2]. simpl in S2. destruct S2 as (Q1 & Q2 & _).
  apply NoDup_app in ND as (_ & D & _). apply dseg_app. simpl. split.
  - eapply dseg_frame, S1. intros z Hz. assert (z <> y) by (intros ->; apply (D y Hz); set_solver).
    split; apply F; try congruence; intros ->; apply Nx; set_solver.
  - rewrite (E3 y eq_refl), F by (set_solver || congruence). done.
Qed.
End segments.

Arguments alloc _ _ !_ _ _ _ / : assert.

Lemma load_Some h x o v : h !! (x, o) = Some v -> load h x o = Ret v.
Proof. unfold load. by intros ->. Qed.

Lemma store_live h x o v : is_Some (h !! (x, o)) -> store h x o v = Ret (<[(x, o) := v]> h).
Proof. unfold store. by intros [? ->]. Qed.

(** Stores never create or destroy an object. *)
Lemma store_dom h x o v h' : store h x o v = Ret h' -> dom h' = dom h.
Proof.
  unfold store. destruct (h !! (x, o)) eqn:E; intros; simplify_eq.
  apply dom_insert_lookup_L. eauto.
Qed.

Lemma live_dom po no h h' x : dom h' = dom h -> live po no h x -> live po no h' x.
Proof.
  unfold live. rewrite <- !elem_of_dom. by intros ->.
Qed.

(** [if(prev) prev->next = next; if(next) next->prev = prev;], the two writes by
    which every queue takes an object out. *)
Definition unlink (po no : Z) (h : mem) (prev next : ptr) : outcome mem :=
  h1 ← match prev with Some p => store h p no next | None => Ret h end;
  match next with Some q => store h1 q po prev | None => Ret h1 end.

Lemma unlink_spec po no h xs1 x xs2 :
  po <> no -> dlist po no h (xs1 ++ x :: xs2) ->
  exists h', unlink po no h (last xs1) (head xs2) = Ret h' /\
    dlist po no h' (xs1 ++ xs2) /\ dom h' = dom h /\
    (forall y o, y ∉ xs1 ++ xs2 -> h' !! (y, o) = h !! (y, o)).
Proof.
  intros Hpn [ND S].
  pose proof ND as (ND1 & D & [Nx ND2]%NoDup_cons)%NoDup_app.
  assert (forall z, last xs1 = Some z -> live po no h z /\ z <> x /\ z ∈ xs1) as L1.
  { intros z Hz%last_elem. split_and!; [eapply dseg_live; [done|set_solver]| |done].
    intros ->. apply (D x Hz). set_solver. }
  assert (forall z, head xs2 = Some z -> live po no h z /\ z <> x /\ z ∈ xs2) as L2.
  { intros z Hz. assert (z ∈ xs2) by (apply hd_or_elem; by rewrite hd_or_None).
    split_and!; [eapply dseg_live; [done|set_solver]|congruence|done]. }
  set (h1 := match last xs1 with Some p => <[(p, no) := head xs2]> h | None => h end).
  set (h2 := match head xs2 with Some q => <[(q, po) := last xs1]> h1 | None => h1 end).
  assert (dom h1 = dom h) as D1.
  { subst h1. destruct (last xs1) as [p|]; [|done].
    destruct (L1 p) as [[]]; [done|]. by apply dom_insert_lookup_L. }
  assert (dom h2 = dom h) as D2.
  { subst h2. rewrite <- D1. destruct (head xs2) as [q|]; [|done].
    destruct (L2 q) as [Lq]; [done|]. apply (live_dom _ _ _ _ _ D1) in Lq as [].
    by apply dom_insert_lookup_L. }
  exists h2. split_and!; [| |done|].
  - unfold unlink.
    replace (match last xs1 with Some p => store h p no (head xs2) | None => Ret h end) with (Ret h1);
      [rewrite bind_Ret|].
    2:{ subst h1. destruct (last xs1) as [p|]; [|done]. destruct (L1 p) as [[]]; [done|].
        by rewrite store_live. }
    subst h2. destruct (head xs2) as [q|]; [|done]. destruct (L2 q) as [Lq]; [done|].
    apply (live_dom _ _ _ _ _ D1) in Lq as []. by rewrite store_live.
  - split; [apply NoDup_app; set_solver|].
    eapply (dseg_remove _ _ Hpn _ _ x _ _ ND S).
    + intros y Hy. subst h2 h1. rewrite Hy. destruct (head xs2) as [q|];
        rewrite ?lookup_insert_ne by congruence; by rewrite lookup_insert_eq.
    + intros y Hy. subst h2. rewrite Hy. by rewrite lookup_insert_eq.
    + intros y o ?? Q1 Q2. subst h2 h1.
      destruct (head xs2) as [q|], (last xs1) as [p|];
        rewrite ?lookup_insert_ne by (intros ?; simplify_eq; naive_solver); done.
  - intros y o Hy. apply not_elem_of_app in Hy as [Hy1 Hy2]. subst h2 h1.
    destruct (head xs2) as [q|], (last xs1) as [p|];
      rewrite ?lookup_insert_ne by (intros ?; simplify_eq; naive_solver); done.
Qed.

(** Collects [dom h' = dom h] from the successful stores of a computation. *)
Ltac stores_dom :=
  repeat match goal with
  | H : store _ _ _ _ = Ret _ |- _ => apply store_dom in H
  | H : unlink _ _ _ _ _ = Ret _ |- _ => unfold unlink in H
  | H : (let (_, _) := ?x in _) = Ret _ |- _ => destruct x
  | H : (match ?x with _ => _ end) = Ret _ |- _ => destruct x eqn:?
  | _ => progress inv_outcome
  end; try congruence.

#[export] Hint Unfold live : nchan.

(** ** Lists along one link *)

(** Links of a singly linked list, ending in [n]. *)

Fixpoint sseg (o : Z) (h : mem) (xs : list loc) (n : ptr) : Prop :=
  match xs with
  | [] => True
  | x :: ys => h !! (x, o) = Some (hd_or ys n) /\ sseg o h ys n
  end.

Section sseg.
Context (o : Z).

Lemma sseg_frame h h' xs n : (forall x, x ∈ xs -> h' !! (x, o) = h !! (x, o)) -> sseg o h xs n -> sseg o h' xs n.
Proof.
  induction xs as [|x xs IH]; intros F; simpl; [done|]. intros (E & S). split; [rewrite F by set_solver; done|].
  apply IH; [|done]. intros y Hy. apply F. set_solver.
Qed.

Lemma sseg_insert_other h xs n y o' v : (y ∈ xs -> o' <> o) -> sseg o h xs n -> sseg o (<[(y, o') := v]> h) xs n.
Proof. intros N. apply sseg_frame. intros x Hx. rewrite lookup_insert_ne; [done|]. intros [= -> ->]. by apply N. Qed.

Lemma sseg_app h xs ys n : sseg o h (xs ++ ys) n <-> sseg o h xs (hd_or ys n) /\ sseg o h ys n.
Proof. induction xs as [|x xs IH]; simpl; [tauto|]. rewrite IH, hd_or_app. tauto. Qed.

Lemma sseg_set_end h xs y n n' : NoDup (xs ++ [y]) -> sseg o h (xs ++ [y]) n -> sseg o (<[(y, o) := n']> h) (xs ++ [y]) n'.
Proof.
  intros ND (S1 & S2)%sseg_app. apply sseg_app. split.
  - apply sseg_insert_other; [|done]. intros Hy. apply NoDup_app in ND as (_ & D & _). exfalso. apply (D y Hy). set_solver.
  - simpl. by rewrite lookup_insert_eq.
Qed.

Lemma sseg_live h xs n x : sseg o h xs n -> x ∈ xs -> is_Some (h !! (x, o)).
Proof. induction xs as [|y ys IH]; simpl; [set_solver|]. intros (E & S) [->|Hx]%elem_of_cons; eauto. Qed.

Lemma sseg_length h xs n : NoDup xs -> sseg o h xs n -> (length xs <= base.size h)%nat.
Proof.
  intros ND C. rewrite <- size_dom. assert (list_to_set ((fun x => (x, o)) <$> xs) ⊆ dom h) as I.
  { intros k. rewrite elem_of_list_to_set, list_elem_of_fmap. intros (x & -> & Hx).
    apply elem_of_dom, (sseg_live h xs n x C Hx). }
  apply subseteq_size in I. rewrite size_list_to_set in I; [by rewrite length_fmap in I|].
  by apply NoDup_fmap_2; [intros ?? [= ->]|].
Qed.

Lemma sseg_unique h xs ys : sseg o h xs None -> sseg o h ys None -> head xs = head ys -> xs = ys.
Proof.
  revert ys. induction xs as [|x xs IH]; intros [|y ys] S1 S2 [=]; [done|]. subst y. simpl in *. destruct S1 as [E1 S1], S2 as [E2 S2].
  f_equal. apply IH; [done..|]. rewrite !hd_or_None in *. congruence.
Qed.

End sseg.

(** Freeing an object takes its two links out of memory, and nothing else. *)
Lemma dealloc_mem po no h x y o : is_Some (dealloc po no h x !! (y, o)) <->
  is_Some (h !! (y, o)) /\ ~ (y = x /\ (o = po \/ o = no)).
Proof.
  unfold dealloc. destruct (decide ((y, o) = (x, po))) as [[= -> ->]|N1]; [rewrite lookup_delete_eq; split; [by intros []|naive_solver]|].
  rewrite lookup_delete_ne by congruence. destruct (decide ((y, o) = (x, no))) as [[= -> ->]|N2]; [rewrite lookup_delete_eq; split; [by intros []|naive_solver]|].
  rewrite lookup_delete_ne by congruence. split; [|tauto]. intros H. split; [done|]. intros [-> [-> | ->]]; congruence.
Qed.

Lemma alloc_mem po no h x g1 g2 y o : is_Some (alloc po no h x g1 g2 !! (y, o)) <->
  is_Some (h !! (y, o)) \/ y = x /\ (o = po \/ o = no).
Proof.
  unfold alloc. rewrite !lookup_insert_is_Some'. split; [intros [[= <- <-]|[[= <- <-]|?]]; auto|].
  intros [?|[-> [-> | ->]]]; auto.
Qed.

Lemma dseg_sseg po no h p xs e : dseg po no h p xs e -> sseg no h xs e.
Proof. revert p. induction xs as [|x xs IH]; intros p; simpl; [done|]. intros (_ & E & S). eauto. Qed.
