(* ===== verification/SList.v ===== *)
(** * [util/nchan_slist.c]: non-allocating doubly linked lists

    The list descriptor [nchan_slist_t], its operations over the link memory
    of [DList], the abstract sequence they implement ([rep]) and the
    simulation between runs of the C operations and runs on sequences. *)

From S2P Require Import Prelude DList.

Record nchan_slist_offsets_t := Offsets { prev : Z; next : Z }.

Record nchan_slist_t := SL {
  head : ptr;
  tail : ptr;
  n : Z;  (* ngx_uint_t *)
  offset : nchan_slist_offsets_t;
}.

Definition nchan_slist_reset (l : nchan_slist_t) : nchan_slist_t :=
  {| head := None; tail := None; n := 0; offset := offset l |}.

Definition nchan_slist_init (l : nchan_slist_t) (offset_prev offset_next : Z) : nchan_slist_t :=
  nchan_slist_reset
    {| head := head l; tail := tail l; n := n l;
       offset := {| prev := offset_prev; next := offset_next |} |}.

Definition nchan_slist_first (l : nchan_slist_t) : ptr := head l.
Definition nchan_slist_last (l : nchan_slist_t) : ptr := tail l.

Definition nchan_slist_next (h : mem) (l : nchan_slist_t) (el : loc) : outcome ptr :=
  load h el (next (offset l)).
Definition nchan_slist_prev (h : mem) (l : nchan_slist_t) (el : loc) : outcome ptr :=
  load h el (prev (offset l)).

Definition nchan_slist_append (h : mem) (l : nchan_slist_t) (el : loc) :
    outcome (mem * nchan_slist_t) :=
  let hd := match head l with None => Some el | Some _ => head l end in
  h1 ← match tail l with
       | None => store h el (prev (offset l)) None
       | Some t =>
           h' ← store h el (prev (offset l)) (Some t);
           store h' t (next (offset l)) (Some el)
       end;
  h2 ← store h1 el (next (offset l)) None;
  Ret (h2, {| head := hd; tail := Some el; n := u64 (n l + 1); offset := offset l |}).

Definition nchan_slist_prepend (h : mem) (l : nchan_slist_t) (el : loc) :
    outcome (mem * nchan_slist_t) :=
  let tl := match tail l with None => Some el | Some _ => tail l end in
  h1 ← match head l with
       | None => store h el (next (offset l)) None
       | Some hd =>
           h' ← store h el (next (offset l)) (Some hd);
           store h' hd (prev (offset l)) (Some el)
       end;
  h2 ← store h1 el (prev (offset l)) None;
  Ret (h2, {| head := Some el; tail := tl; n := u64 (n l + 1); offset := offset l |}).

Definition nchan_slist_remove (h : mem) (l : nchan_slist_t) (el : loc) :
    outcome (mem * nchan_slist_t) :=
  el_prev ← load h el (prev (offset l));
  el_next ← load h el (next (offset l));
  let hd := if decide (head l = Some el) then el_next else head l in
  let tl := if decide (tail l = Some el) then el_prev else tail l in
  h2 ← unlink (prev (offset l)) (next (offset l)) h el_prev el_next;
  h3 ← store h2 el (prev (offset l)) None;
  h4 ← store h3 el (next (offset l)) None;
  Ret (h4, {| head := hd; tail := tl; n := u64 (n l - 1); offset := offset l |}).

(** [dst_tail_next_ptr] is computed from [src->tail], as in the source. *)
Definition nchan_slist_transfer (h : mem) (dst src : nchan_slist_t) :
    outcome (mem * nchan_slist_t * nchan_slist_t) :=
  c_assert (bool_decide (prev (offset dst) = prev (offset src)));;
  c_assert (bool_decide (next (offset dst) = next (offset src)));;
  if decide (n src = 0) then
    c_assert (bool_decide (head src = None));;
    c_assert (bool_decide (tail src = None));;
    Ret (h, dst, src)
  else
    h1 ← store_ptr h (head src) (prev (offset src)) (tail dst);
    h2 ← match tail dst with
         | Some _ => store_ptr h1 (tail src) (next (offset dst)) (head src)
         | None => Ret h1
         end;
    Ret (h2,
      {| head := match head dst with None => head src | Some _ => head dst end;
         tail := tail src; n := u64 (n dst + n src); offset := offset dst |},
      {| head := None; tail := None; n := 0; offset := offset src |}).

Definition nchan_slist_shift (h : mem) (l : nchan_slist_t) :
    outcome (mem * nchan_slist_t * ptr) :=
  match head l with
  | Some hd => '(h', l') ← nchan_slist_remove h l hd; Ret (h', l', Some hd)
  | None => Ret (h, l, None)
  end.

Definition nchan_slist_pop (h : mem) (l : nchan_slist_t) :
    outcome (mem * nchan_slist_t * ptr) :=
  match tail l with
  | Some tl => '(h', l') ← nchan_slist_remove h l tl; Ret (h', l', Some tl)
  | None => Ret (h, l, None)
  end.

Definition nchan_slist_is_empty (l : nchan_slist_t) : outcome bool :=
  if decide (n l = 0) then
    c_assert (bool_decide (head l = None));; c_assert (bool_decide (tail l = None));; Ret true
  else
    c_assert (bool_decide (head l <> None));; c_assert (bool_decide (tail l <> None));; Ret false.

(** ** What a list stands for *)

Definition rep (h : mem) (l : nchan_slist_t) (xs : list loc) : Prop :=
  prev (offset l) <> next (offset l) /\
  dlist (prev (offset l)) (next (offset l)) h xs /\
  head l = list.head xs /\ tail l = last xs /\ n l = u64 (Z.of_nat (length xs)).

Notation el_live l h x := (live (prev (offset l)) (next (offset l)) h x).

Lemma u64_succ z : u64 (u64 z + 1) = u64 (z + 1).
Proof. unfold wrapu. by rewrite Zplus_mod_idemp_l. Qed.

Lemma u64_pred z : u64 (u64 z - 1) = u64 (z - 1).
Proof. unfold wrapu. by rewrite Zminus_mod_idemp_l. Qed.

Lemma rep_init h l po no : po <> no -> rep h (nchan_slist_init l po no) [].
Proof. intros. split_and!; [done|split; [constructor|done]|done..]. Qed.

Lemma rep_live h l xs x : rep h l xs -> x ∈ xs -> el_live l h x.
Proof. intros (_ & [_ S] & _) Hx. eapply dseg_live; eauto. Qed.

(** Storing to a link of a live object. *)
Ltac do_store :=
  rewrite store_live by (rewrite ?lookup_insert_is_Some; unfold live in *; naive_solver);
  rewrite bind_Ret.

Lemma append_dom h l el h' l' : nchan_slist_append h l el = Ret (h', l') -> dom h' = dom h.
Proof. unfold nchan_slist_append. intros H. stores_dom. Qed.

Lemma prepend_dom h l el h' l' : nchan_slist_prepend h l el = Ret (h', l') -> dom h' = dom h.
Proof. unfold nchan_slist_prepend. intros H. stores_dom. Qed.

Lemma remove_dom h l el h' l' : nchan_slist_remove h l el = Ret (h', l') -> dom h' = dom h.
Proof. unfold nchan_slist_remove. intros H. stores_dom. Qed.

Lemma append_rep h l xs el :
  rep h l xs -> el_live l h el -> el ∉ xs ->
  exists h' l', nchan_slist_append h l el = Ret (h', l') /\
    rep h' l' (xs ++ [el]) /\ offset l' = offset l.
Proof.
  intros R L Hel. pose proof R as (Hpn & [ND S] & Hh & Ht & Hn).
  unfold nchan_slist_append. rewrite Ht.
  destruct (list_snoc_cases xs) as [->|(ys & y & ->)].
  - simpl. do_store. do_store. rewrite Hh; simpl. eexists _, _. split_and!; try done.
    split_and!; simpl; try done; [|by rewrite Hn].
    split; [repeat constructor; set_solver|]. simpl.
    rewrite lookup_insert_ne, lookup_insert_eq by congruence.
    by rewrite lookup_insert_eq.
  - rewrite last_snoc. simpl.
    assert (el_live l h y) as Ly by (eapply rep_live; [done|set_solver]).
    assert (y <> el) by set_solver.
    do_store. rewrite (store_live _ y) by (rewrite ?lookup_insert_is_Some; unfold live in *; naive_solver).
    rewrite bind_Ret. do_store. eexists _, _. split_and!; try done.
    split_and!; simpl; try done.
    + split; [apply NoDup_app; set_solver by eauto using NoDup_singleton|].
      apply dseg_app. split.
      { apply dseg_insert_other; [done|]. simpl.
        eapply (dseg_set_next _ _ Hpn); [done|]. apply dseg_insert_other; [set_solver|done]. }
      rewrite last_or_snoc. simpl.
      rewrite !(lookup_insert_ne _ (el, next _)), (lookup_insert_ne _ (y, next _)) by congruence.
      by rewrite !lookup_insert_eq.
    + rewrite Hh. by destruct ys.
    + by rewrite last_snoc.
    + rewrite Hn, u64_succ. f_equal. rewrite !length_app; simpl; lia.
Qed.

Lemma prepend_rep h l xs el :
  rep h l xs -> el_live l h el -> el ∉ xs ->
  exists h' l', nchan_slist_prepend h l el = Ret (h', l') /\
    rep h' l' (el :: xs) /\ offset l' = offset l.
Proof.
  intros R L Hel. pose proof R as (Hpn & [ND S] & Hh & Ht & Hn).
  unfold nchan_slist_prepend. rewrite Hh.
  destruct xs as [|y ys]; simpl.
  - do_store. do_store. rewrite Ht; simpl. eexists _, _. split_and!; try done.
    split_and!; simpl; try done; [|by rewrite Hn].
    split; [repeat constructor; set_solver|]. simpl.
    rewrite lookup_insert_eq, lookup_insert_ne by congruence. by rewrite lookup_insert_eq.
  - assert (el_live l h y) as Ly by (eapply rep_live; [done|set_solver]).
    assert (y <> el) by set_solver.
    do_store. rewrite (store_live _ y) by (rewrite ?lookup_insert_is_Some; unfold live in *; naive_solver).
    rewrite bind_Ret. do_store. eexists _, _. split_and!; try done.
    split_and!; simpl; try done.
    + split; [by constructor|].
      apply dseg_cons. cbn [hd_or]. split_and!.
      * by rewrite lookup_insert_eq.
      * rewrite !lookup_insert_ne by congruence. by rewrite lookup_insert_eq.
      * apply (dseg_insert_other _ _ _ _ (y :: ys)); [done|].
        apply (dseg_set_prev _ _ Hpn _ None); [done|]. by apply dseg_insert_other.
    + rewrite Ht. destruct (list_snoc_cases ys) as [->|(zs & z & ->)]; [done|].
      by rewrite last_cons, last_snoc.
    + rewrite Hn, u64_succ. f_equal. simpl. lia.
Qed.

Lemma remove_rep h l xs1 el xs2 :
  rep h l (xs1 ++ el :: xs2) ->
  exists h' l', nchan_slist_remove h l el = Ret (h', l') /\
    rep h' l' (xs1 ++ xs2) /\ offset l' = offset l.
Proof.
  intros R. pose proof R as (Hpn & [ND S] & Hh & Ht & Hn).
  pose proof (dseg_lookup _ _ _ _ _ _ _ _ S) as [E1 E2].
  rewrite last_or_None in E1. rewrite hd_or_None in E2.
  assert (el_live l h el) as L by (eapply rep_live; [done|set_solver]).
  pose proof ND as (ND1 & D & [Nx ND2]%NoDup_cons)%NoDup_app.
  unfold nchan_slist_remove.
  rewrite (load_Some _ _ _ _ E1), (load_Some _ _ _ _ E2), !bind_Ret.
  destruct (unlink_spec _ _ h xs1 el xs2 Hpn) as (h2 & -> & [ND' S'] & D2 & _); [done|].
  rewrite bind_Ret. apply (live_dom _ _ _ _ _ D2) in L. do_store. do_store.
  eexists _, _. split_and!; [reflexivity| |done]. split_and!; simpl; [done| | | |].
  - split; [done|]. assert (el ∉ xs1 ++ xs2) by set_solver.
    by do 2 (apply dseg_insert_other; [done|]).
  - rewrite Hh. destruct xs1 as [|z zs]; simpl.
    + by rewrite decide_True.
    + rewrite decide_False; [done|]. intros ?; simplify_eq. apply (D el); set_solver.
  - rewrite Ht. destruct (list_snoc_cases xs2) as [->|(zs & z & ->)].
    + rewrite last_snoc, decide_True, app_nil_r by done. done.
    + rewrite last_app_cons, last_app. simpl. rewrite last_snoc.
      rewrite last_cons, last_snoc. rewrite decide_False; [done|]. set_solver.
  - rewrite Hn, u64_pred. f_equal. rewrite !length_app; simpl; lia.
Qed.

(** ** Simulation between the C operations and sequences *)

Inductive slist_op :=
  | Append (el : loc)
  | Prepend (el : loc)
  | Remove (el : loc)
  | Shift
  | Pop.

Definition op_el (op : slist_op) : option loc :=
  match op with Append el | Prepend el | Remove el => Some el | Shift | Pop => None end.

(** One call, with the pointer it returns. *)
Definition exec_op (h : mem) (l : nchan_slist_t) (op : slist_op) :
    outcome (mem * nchan_slist_t * ptr) :=
  match op with
  | Append el => '(h', l') ← nchan_slist_append h l el; Ret (h', l', None)
  | Prepend el => '(h', l') ← nchan_slist_prepend h l el; Ret (h', l', None)
  | Remove el => '(h', l') ← nchan_slist_remove h l el; Ret (h', l', None)
  | Shift => nchan_slist_shift h l
  | Pop => nchan_slist_pop h l
  end.

Fixpoint exec (h : mem) (l : nchan_slist_t) (ops : list slist_op) :
    outcome (mem * nchan_slist_t * list ptr) :=
  match ops with
  | [] => Ret (h, l, [])
  | op :: ops' =>
      '(h1, l1, r) ← exec_op h l op;
      '(h2, l2, rs) ← exec h1 l1 ops';
      Ret (h2, l2, r :: rs)
  end.

(** The same calls on a sequence; [None] is a call outside the contract
    (inserting an object that is already in the list, removing one that is
    not). *)
Definition spec_op (xs : list loc) (op : slist_op) : option (list loc * ptr) :=
  match op with
  | Append el => if decide (el ∈ xs) then None else Some (xs ++ [el], None)
  | Prepend el => if decide (el ∈ xs) then None else Some (el :: xs, None)
  | Remove el => if decide (el ∈ xs) then Some (filter (.≠ el) xs, None) else None
  | Shift => Some (tl xs, list.head xs)
  | Pop => Some (removelast xs, last xs)
  end.

Fixpoint spec (xs : list loc) (ops : list slist_op) : option (list loc * list ptr) :=
  match ops with
  | [] => Some (xs, [])
  | op :: ops' =>
      '(xs1, r) ← spec_op xs op;
      '(xs2, rs) ← spec xs1 ops';
      Some (xs2, r :: rs)
  end.

Lemma filter_ne_split xs1 (el : loc) xs2 :
  NoDup (xs1 ++ el :: xs2) -> filter (.≠ el) (xs1 ++ el :: xs2) = xs1 ++ xs2.
Proof.
  intros (ND1 & D & [Nx ND2]%NoDup_cons)%NoDup_app.
  rewrite filter_app, filter_cons_False by auto.
  assert (forall ys : list loc, el ∉ ys -> filter (.≠ el) ys = ys) as F.
  { induction ys as [|y ys IH]; intros Hy; [done|].
    rewrite filter_cons_True by set_solver. f_equal. apply IH. set_solver. }
  f_equal; apply F; set_solver.
Qed.

Lemma exec_op_spec h l xs op xs' r :
  rep h l xs -> (forall el, op_el op = Some el -> el_live l h el) ->
  spec_op xs op = Some (xs', r) ->
  exists h' l', exec_op h l op = Ret (h', l', r) /\
    rep h' l' xs' /\ dom h' = dom h /\ offset l' = offset l.
Proof.
  intros R L E. destruct op as [el|el|el| |]; simpl in *.
  - case_decide; simplify_eq.
    destruct (append_rep h l xs el) as (h' & l' & Eq & R' & O); auto.
    rewrite Eq. eexists _, _. eauto using append_dom.
  - case_decide; simplify_eq.
    destruct (prepend_rep h l xs el) as (h' & l' & Eq & R' & O); auto.
    rewrite Eq. eexists _, _. eauto using prepend_dom.
  - case_decide as Hin; simplify_eq. apply list_elem_of_split in Hin as (xs1 & xs2 & ->).
    rewrite filter_ne_split by apply R.
    destruct (remove_rep h l xs1 el xs2) as (h' & l' & Eq & R' & O); auto.
    rewrite Eq. eexists _, _. eauto using remove_dom.
  - simplify_eq. unfold nchan_slist_shift. pose proof R as (_ & _ & -> & _).
    destruct xs as [|x xs]; simpl; [eauto 10|].
    destruct (remove_rep h l [] x xs) as (h' & l' & Eq & R' & O); auto.
    rewrite Eq. eexists _, _. eauto using remove_dom.
  - simplify_eq. unfold nchan_slist_pop. pose proof R as (_ & _ & _ & -> & _).
    destruct (list_snoc_cases xs) as [->|(ys & y & ->)]; simpl; [eauto 10|].
    rewrite last_snoc, removelast_last.
    destruct (remove_rep h l ys y []) as (h' & l' & Eq & R' & O); auto.
    rewrite Eq. rewrite app_nil_r in R'. eexists _, _. eauto using remove_dom.
Qed.

(** C37.  Every sequence of [nchan_slist_append], [_prepend], [_remove],
    [_shift] and [_pop] calls on live objects that respects the contract
    behaves like the same calls on a sequence of objects: it never reaches a
    dead object, returns the same pointers, and leaves a well-linked list of
    exactly the resulting sequence. *)
Theorem slist_refines_sequence h l xs ops ys rs :
  rep h l xs ->
  Forall (fun op => forall el, op_el op = Some el -> el_live l h el) ops ->
  spec xs ops = Some (ys, rs) ->
  exists h' l', exec h l ops = Ret (h', l', rs) /\ rep h' l' ys.
Proof.
  revert h l xs rs. induction ops as [|op ops IH]; intros h l xs rs R L E; simpl in *.
  - simplify_eq. eauto.
  - apply Forall_cons in L as [L1 L2].
    destruct (spec_op xs op) as [[xs1 r]|] eqn:E1; simplify_eq/=.
    destruct (spec xs1 ops) as [[xs2 rs']|] eqn:E2; simplify_eq/=.
    destruct (exec_op_spec h l xs op xs1 r) as (h1 & l1 & -> & R1 & D1 & O1); auto.
    rewrite bind_Ret. destruct (IH h1 l1 xs1 rs') as (h2 & l2 & -> & R2); auto.
    + eapply Forall_impl; [exact L2|]. intros op' Hop el Hel. rewrite O1. eauto using live_dom.
    + rewrite bind_Ret. eauto.
Qed.

Definition three_objects : mem :=
  alloc 0 8 (alloc 0 8 (alloc 0 8 ∅ 1 None None) 2 None None) 3 None None.

Lemma slist_refines_sequence_witness :
  exists h' l', exec three_objects (nchan_slist_init (SL None None 0 (Offsets 0 0)) 0 8)
      [Append 1%positive; Append 2%positive; Prepend 3%positive; Remove 1%positive; Pop]
    = Ret (h', l', [None; None; None; None; Some 2%positive]) /\ rep h' l' [3%positive].
Proof.
  apply (slist_refines_sequence _ _ []).
  - apply rep_init. lia.
  - repeat (constructor; [intros el E; simplify_eq/=; try (split; eexists; reflexivity)|]).
    constructor.
  - vm_compute. reflexivity.
Defined.

(** ** [nchan_slist_transfer] *)

Lemma transfer_to_empty h dst src xs :
  rep h dst [] -> rep h src xs -> offset dst = offset src ->
  Z.of_nat (length xs) < 2 ^ 64 ->
  exists h' dst' src', nchan_slist_transfer h dst src = Ret (h', dst', src') /\
    rep h' dst' xs /\ rep h' src' [].
Proof.
  intros (Hpn & _ & Hh & Ht & Hn) (Hpn' & [ND S] & Hh' & Ht' & Hn') O Hlen.
  unfold nchan_slist_transfer. rewrite O. rewrite (bool_decide_eq_true_2 (prev _ = _)), (bool_decide_eq_true_2 (next _ = _)) by done.
  simpl.
  rewrite wrapu_small in Hn' by (unfold in_u; lia).
  destruct xs as [|x xs]; cbn [length list.head] in *.
  - rewrite decide_True by done. rewrite Hh', Ht'. simpl. eexists _, _, _. split; [done|].
    split; (split_and!; [congruence|split; [constructor|exact I]|by rewrite ?Hh, ?Ht..]).
  - rewrite decide_False by lia. rewrite Hh', Ht, Hh. simpl.
    destruct S as (S1 & S2 & S3).
    rewrite store_live by eauto. rewrite bind_Ret. simpl.
    rewrite insert_id by done. eexists _, _, _. split; [reflexivity|]. split.
    + split_and!; simpl; try congruence; [by split|].
      rewrite Hn, Hn'. reflexivity.
    + split_and!; simpl; try done. split; [constructor|done].
Qed.

(** Moving a non-empty list behind a non-empty one does not concatenate
    them: the code computes [dst_tail_next_ptr] from [src->tail], so the last
    transferred object is linked back to the first transferred one (a cycle),
    while the old tail of [dst] still ends the chain, although the count of
    [dst] includes the transferred objects. *)
Theorem transfer_nonempty_makes_cycle h dst src xs x ys y :
  rep h dst (xs ++ [x]) -> rep h src (y :: ys) -> offset dst = offset src ->
  (forall z, z ∈ xs ++ [x] -> z ∉ y :: ys) -> Z.of_nat (length (y :: ys)) < 2 ^ 64 ->
  exists h' dst' src' z, nchan_slist_transfer h dst src = Ret (h', dst', src') /\
    last (y :: ys) = Some z /\ nchan_slist_last dst' = Some z /\
    nchan_slist_next h' dst' x = Ret None /\
    nchan_slist_next h' dst' z = Ret (Some y) /\
    ~ rep h' dst' ((xs ++ [x]) ++ (y :: ys)).
Proof.
  intros (Hpn & [ND S] & Hh & Ht & Hn) (_ & [ND' S'] & Hh' & Ht' & Hn') O Hdis Hlen.
  unfold nchan_slist_transfer. rewrite O. rewrite (bool_decide_eq_true_2 (prev _ = _)), (bool_decide_eq_true_2 (next _ = _)) by done.
  simpl.
  rewrite wrapu_small in Hn' by (unfold in_u; lia). simpl in Hn'.
  rewrite decide_False by lia. rewrite Ht, last_snoc, Hh'. simpl.
  rewrite Ht'. destruct (list_snoc_cases (y :: ys)) as [?|(zs & z & Ez)]; [done|].
  rewrite Ez, last_snoc. simpl.
  assert (live (prev (offset src)) (next (offset src)) h y) as [L1 L2]
    by (eapply dseg_live; [done|set_solver]).
  assert (live (prev (offset src)) (next (offset src)) h z) as [L3 L4]
    by (eapply dseg_live; [done|rewrite Ez; set_solver]).
  rewrite store_live by done. rewrite bind_Ret.
  rewrite store_live by (apply lookup_insert_is_Some; destruct (decide ((y, prev (offset src)) = (z, next (offset src)))); auto). rewrite bind_Ret.
  assert (x <> y) by set_solver.
  assert (x <> z) by (intros ->; apply (Hdis z); [set_solver|rewrite Ez; set_solver]).
  rewrite O in S, Hpn. apply dseg_app in S as [_ (_ & Sx & _)]. simpl in Sx.
  eexists _, _, _, z. split_and!; [reflexivity|done|done| | |].
  - unfold nchan_slist_next; simpl. rewrite ?O. apply load_Some.
    rewrite !lookup_insert_ne by congruence. done.
  - unfold nchan_slist_next; simpl. rewrite ?O. apply load_Some. by rewrite lookup_insert_eq.
  - intros (_ & [_ Sb] & _). simpl in Sb. rewrite ?O, <- app_assoc in Sb.
    apply (dseg_lookup _ _ _ _ xs x) in Sb as [_ Sb]. simpl in Sb.
    rewrite !lookup_insert_ne in Sb by congruence. rewrite <- ?Ez in Sb. simpl in Sb. congruence.
Qed.

Lemma transfer_nonempty_makes_cycle_witness :
  exists h dst src h' dst' src' z,
    rep h dst [1%positive] /\ rep h src [2%positive] /\
    nchan_slist_transfer h dst src = Ret (h', dst', src') /\
    last [2%positive] = Some z /\ nchan_slist_last dst' = Some z /\
    nchan_slist_next h' dst' 1%positive = Ret None /\
    nchan_slist_next h' dst' z = Ret (Some 2%positive) /\
    ~ rep h' dst' (([] ++ [1%positive]) ++ [2%positive]).
Proof.
  assert (rep three_objects (SL (Some 1%positive) (Some 1%positive) 1 (Offsets 0 8)) [1%positive]) as R1
    by (split_and!; [done|split; [by apply NoDup_singleton|vm_compute; auto]|done..]).
  assert (rep three_objects (SL (Some 2%positive) (Some 2%positive) 1 (Offsets 0 8)) [2%positive]) as R2
    by (split_and!; [done|split; [by apply NoDup_singleton|vm_compute; auto]|done..]).
  exists three_objects, (SL (Some 1%positive) (Some 1%positive) 1 (Offsets 0 8)),
    (SL (Some 2%positive) (Some 2%positive) 1 (Offsets 0 8)).
  destruct (transfer_nonempty_makes_cycle three_objects _ _ [] 1%positive [] 2%positive R1 R2)
    as (h' & dst' & src' & z & H); [done|set_solver|done|].
  exists h', dst', src', z. auto.
Defined.
