(* ===== verification/Nginx.v ===== *)
(** * What the code relies on from nginx

    nginx itself is not part of the repository: its string routines are
    operations of a type class, with the documented behaviour the code relies
    on as laws.  [ngx_reference] is an implementation of the class, used to
    evaluate the model on concrete inputs. *)

From S2P Require Import Prelude.
From Stdlib Require Import Ascii.
From Stdlib Require Strings.String.
Export String.StringSyntax.

(** Strings are sequences of octets. *)
Notation bytes := (list Z) (only parsing).

Definition byte_of (c : ascii) : Z := Z.of_N (N_of_ascii c).
Definition bytes_of (s : String.string) : bytes := map byte_of (String.list_ascii_of_string s).
Arguments bytes_of _%_string_scope.

(** Characters the parsers look at. *)
Notation ch_nl := 10 (only parsing).
Notation ch_cr := 13 (only parsing).
Notation ch_space := 32 (only parsing).
Notation ch_star := 42 (only parsing).
Notation ch_comma := 44 (only parsing).
Notation ch_dash := 45 (only parsing).
Notation ch_dot := 46 (only parsing).
Notation ch_slash := 47 (only parsing).
Notation ch_0 := 48 (only parsing).
Notation ch_9 := 57 (only parsing).
Notation ch_colon := 58 (only parsing).
Notation ch_at := 64 (only parsing).
Notation ch_lbracket := 91 (only parsing).
Notation ch_rbracket := 93 (only parsing).
Notation ch_m := 109 (only parsing).
Notation ch_rbrace := 125 (only parsing).

Definition is_digit (c : Z) : bool := (ch_0 <=? c) && (c <=? ch_9).

(** ** Decimal numerals, as printed by [%i], [%li], [%d] *)

Fixpoint dec_fuel (f : nat) (n : Z) (acc : bytes) : bytes :=
  match f with
  | O => acc
  | S f' =>
      let acc' := (ch_0 + n `mod` 10) :: acc in
      if n `div` 10 =? 0 then acc' else dec_fuel f' (n `div` 10) acc'
  end.

Definition dec (n : Z) : bytes :=
  let m := Z.abs n in
  let ds := dec_fuel (S (Z.to_nat (Z.log2 m))) m [] in
  if n <? 0 then ch_dash :: ds else ds.

(** Value of a digit sequence, most significant first. *)
Definition undec (s : bytes) (v : Z) : Z := fold_left (fun v c => 10 * v + (c - ch_0)) s v.

Lemma dec_fuel_spec f n acc :
  0 <= n -> n < 2 ^ Z.of_nat f -> (f <> O)%nat ->
  exists ds, dec_fuel f n acc = ds ++ acc /\ ds <> [] /\
    Forall (fun c => is_digit c = true) ds /\ (forall v, undec ds v = v * 10 ^ Z.of_nat (length ds) + n) /\
    (n < 10 -> length ds = 1%nat).
Proof.
  revert n acc. induction f as [|f IH]; intros n acc Hn Hf Hf0; [done|].
  cbn [dec_fuel]. pose proof (Z.mod_pos_bound n 10). pose proof (Z.div_mod n 10).
  assert (is_digit (ch_0 + n `mod` 10) = true) as Hd
    by (unfold is_digit; apply andb_true_iff; split; apply Z.leb_le; lia).
  destruct (Z.eqb_spec (n `div` 10) 0).
  - exists [ch_0 + n `mod` 10]. split_and!; auto. intros v. unfold undec; simpl. lia.
  - assert (0 <= n `div` 10) by (apply Z.div_pos; lia).
    assert (n `div` 10 < 2 ^ Z.of_nat f).
    { apply Z.div_lt_upper_bound; [lia|]. rewrite Nat2Z.inj_succ, Z.pow_succ_r in Hf; lia. }
    destruct (IH (n `div` 10) ((ch_0 + n `mod` 10) :: acc)) as (ds & -> & Hne & HF & Hv & _);
      [done|done| |].
    { intros ->. simpl in *. lia. }
    exists (ds ++ [ch_0 + n `mod` 10]). split_and!.
    + by rewrite <- app_assoc.
    + by destruct ds.
    + apply Forall_app; auto.
    + intros v. unfold undec in *. rewrite fold_left_app, Hv. simpl.
      rewrite length_app. simpl. rewrite Nat2Z.inj_add, Z.pow_add_r by lia. simpl. lia.
    + intros. exfalso. apply n0. by apply Z.div_small.
Qed.

Lemma dec_spec n :
  0 <= n -> dec n <> [] /\ Forall (fun c => is_digit c = true) (dec n) /\
    forall v, undec (dec n) v = v * 10 ^ Z.of_nat (length (dec n)) + n.
Proof.
  intros Hn. unfold dec. rewrite Z.abs_eq by done.
  destruct (Z.ltb_spec n 0); [lia|].
  destruct (dec_fuel_spec (S (Z.to_nat (Z.log2 n))) n []) as (ds & -> & ? & ? & Hv & _); [done| |done|].
  - rewrite Nat2Z.inj_succ, Z2Nat.id by apply Z.log2_nonneg.
    destruct (Z.eq_dec n 0) as [->|]; [done|]. apply Z.log2_spec. lia.
  - by rewrite app_nil_r.
Qed.

Lemma dec_neg n : n < 0 -> dec n = ch_dash :: dec (- n).
Proof.
  intros. unfold dec. rewrite Z.abs_neq, Z.abs_eq by lia.
  destruct (Z.ltb_spec n 0), (Z.ltb_spec (- n) 0); try lia. done.
Qed.

(** ** nginx string routines *)

Definition NGX_MAX_INT_T_VALUE : Z := 9223372036854775807.

(** [ngx_strlchr(p, last, c)]: position of the first [c], if any. *)
Definition first_pos (c : Z) (s : bytes) (r : option nat) : Prop :=
  match r with
  | Some i => s !! i = Some c /\ forall j, (j < i)%nat -> s !! j <> Some c
  | None => c ∉ s
  end.

Class NgxString := {
  ngx_atoi : bytes -> Z;
  ngx_strlchr : bytes -> Z -> option nat;
  ngx_atoi_dec n : 0 <= n <= NGX_MAX_INT_T_VALUE -> ngx_atoi (dec n) = n;
  ngx_atoi_empty : ngx_atoi [] = NGX_ERROR;
  ngx_atoi_nondigit s c : c ∈ s -> is_digit c = false -> ngx_atoi s = NGX_ERROR;
  ngx_atoi_range s : NGX_ERROR <= ngx_atoi s <= NGX_MAX_INT_T_VALUE;
  ngx_strlchr_first s c : first_pos c s (ngx_strlchr s c);
}.

(** A first position is unique. *)
Lemma first_pos_app c s1 s2 r :
  c ∉ s1 -> first_pos c (s1 ++ c :: s2) r -> r = Some (length s1).
Proof.
  intros N. destruct r as [i|]; simpl; [|set_solver].
  intros [E M]. f_equal. destruct (decide (i = length s1)) as [|Hne]; [done|].
  exfalso. destruct (decide (i < length s1)%nat) as [Hlt|].
  - rewrite lookup_app_l in E by done. apply N. by apply list_elem_of_lookup_2 in E.
  - apply (M (length s1)); [lia|]. by rewrite list_lookup_middle.
Qed.

Lemma first_pos_absent c s r : c ∉ s -> first_pos c s r -> r = None.
Proof.
  intros N. destruct r as [i|]; simpl; [|done]. intros [E _].
  exfalso. apply N. by apply list_elem_of_lookup_2 in E.
Qed.

(** *** A reference implementation *)

Fixpoint strchr_ref (s : bytes) (c : Z) : option nat :=
  match s with
  | [] => None
  | x :: s' => if x =? c then Some O else S <$> strchr_ref s' c
  end.

Lemma strchr_ref_first s c : first_pos c s (strchr_ref s c).
Proof.
  induction s as [|x s IH]; simpl; [set_solver|].
  destruct (Z.eqb_spec x c) as [->|Hx]; simpl.
  - split; [done|]. lia.
  - destruct (strchr_ref s c) as [i|]; simpl in *; [|set_solver].
    destruct IH as [E M]. split; [done|]. intros [|j] Hj; simpl; [congruence|].
    apply M. lia.
Qed.

Definition atoi_ref (s : bytes) : Z :=
  if forallb is_digit s then
    match s with
    | [] => NGX_ERROR
    | _ => let v := undec s 0 in if v <=? NGX_MAX_INT_T_VALUE then v else NGX_ERROR
    end
  else NGX_ERROR.

Lemma undec_nonneg s v : 0 <= v -> forallb is_digit s = true -> 0 <= undec s v.
Proof.
  revert v. induction s as [|c s IH]; intros v Hv; unfold undec in *; simpl; [done|].
  intros [Hc Hs]%andb_true_iff. apply IH; [|done].
  unfold is_digit in Hc. apply andb_true_iff in Hc as [?%Z.leb_le ?%Z.leb_le]. lia.
Qed.

#[export] Program Instance ngx_reference : NgxString :=
  {| ngx_atoi := atoi_ref; ngx_strlchr := strchr_ref |}.
Next Obligation.
  intros n [Hn Hm]. destruct (dec_spec n Hn) as (Hne & HF & Hv). unfold atoi_ref.
  replace (forallb is_digit (dec n)) with true.
  - destruct (dec n) eqn:E; [done|]. rewrite <- E in *. rewrite Hv.
    destruct (Z.leb_spec (0 * 10 ^ Z.of_nat (length (dec n)) + n) NGX_MAX_INT_T_VALUE); lia.
  - symmetry. apply forallb_forall. intros c Hc. rewrite Forall_forall in HF.
    apply HF. by apply list_elem_of_In.
Qed.
Next Obligation. done. Qed.
Next Obligation.
  intros s c Hc Hd. unfold atoi_ref. destruct (forallb is_digit s) eqn:E; [|done].
  rewrite forallb_forall in E. rewrite E in Hd by (by apply list_elem_of_In). done.
Qed.
Next Obligation.
  intros s. unfold atoi_ref, NGX_ERROR. destruct (forallb is_digit s) eqn:E; [|done].
  destruct s as [|c s]; [done|]. pose proof (undec_nonneg (c :: s) 0 ltac:(lia) E).
  destruct (Z.leb_spec (undec (c :: s) 0) NGX_MAX_INT_T_VALUE); [lia|done].
Qed.
Next Obligation. intros. apply strchr_ref_first. Qed.
