(* ===== verification/MsgId.v ===== *)
(** * Message ids ([util/nchan_msg.c], [util/nchan_output.c], [store/spool.c])

    A message id is a second and one 16-bit tag per multiplexed channel.  Up to
    four tags are stored inline, more of them in an array of [int16_t] reached
    through a pointer; the arrays live in a [tag_heap], which remembers whether
    a block may be passed to [free]. *)

From S2P Require Import Prelude Nginx.

Definition NCHAN_OLDEST_MSGID_TIME : Z := 0.
Definition NCHAN_NEWEST_MSGID_TIME : Z := -1.
Definition NCHAN_NTH_MSGID_TIME : Z := -2.
Definition NCHAN_MULTITAG_MAX : Z := 255.
Definition NCHAN_FIXED_MULTITAG_MAX : Z := 4.

(** ** Tag arrays *)

Record tag_block := TB { malloced : bool; cells : list Z }.
Notation tag_heap := (gmap positive tag_block).

(** [union nchan_msg_multitag]. *)
Inductive nchan_msg_multitag :=
  | fixed (t : list Z)            (* int16_t fixed[4] *)
  | allocd (p : option positive). (* int16_t *allocd *)

Record nchan_msg_id_t := MsgId {
  time : Z;
  tag : nchan_msg_multitag;
  tagactive : Z;  (* int16_t *)
  tagcount : Z;   (* int16_t *)
}.

Record nchan_msg_tiny_id_t := TinyId { tiny_time : Z; tiny_tag : Z }.

Definition NCHAN_ZERO_MSGID : nchan_msg_id_t := MsgId 0 (fixed [0; 0; 0; 0]) 0 0.
Definition NCHAN_OLDEST_MSGID : nchan_msg_id_t :=
  MsgId NCHAN_OLDEST_MSGID_TIME (fixed [0; 0; 0; 0]) 0 1.
Definition NCHAN_NEWEST_MSGID : nchan_msg_id_t :=
  MsgId NCHAN_NEWEST_MSGID_TIME (fixed [0; 0; 0; 0]) 0 1.
Definition NCHAN_NTH_MSGID : nchan_msg_id_t :=
  MsgId NCHAN_NTH_MSGID_TIME (fixed [0; 0; 0; 0]) 0 1.

(** [memcpy] into a block, [free] and [malloc]. *)
Definition block_write (th : tag_heap) (p : option positive) (vs : list Z) : outcome tag_heap :=
  match p with
  | Some p =>
      match th !! p with
      | Some b =>
          if decide (length vs <= length (cells b))%nat then
            Ret (<[p := TB (malloced b) (vs ++ drop (length vs) (cells b))]> th)
          else Crash
      | None => Crash
      end
  | None => Crash
  end.

Definition block_free (th : tag_heap) (p : option positive) : outcome tag_heap :=
  match p with
  | None => Ret th
  | Some p =>
      match th !! p with
      | Some b => if malloced b then Ret (delete p th) else Crash
      | None => Crash
      end
  end.

Definition block_alloc (th : tag_heap) (p : positive) (k : nat) : tag_heap :=
  <[p := TB true (replicate k 0)]> th.

(** [tagcount <= NCHAN_FIXED_MULTITAG_MAX ? id->tag.fixed : id->tag.allocd]. *)
Definition id_array (th : tag_heap) (id : nchan_msg_id_t) : outcome (list Z) :=
  if tagcount id <=? NCHAN_FIXED_MULTITAG_MAX then
    match tag id with fixed t => Ret t | allocd _ => Crash end
  else
    match tag id with
    | allocd (Some p) => match th !! p with Some b => Ret (cells b) | None => Crash end
    | _ => Crash
    end.

(** Its first [tagcount] tags. *)
Definition id_tags (th : tag_heap) (id : nchan_msg_id_t) : outcome (list Z) :=
  ts ← id_array th id;
  if decide (Z.to_nat (tagcount id) <= length ts)%nat
  then Ret (take (Z.to_nat (tagcount id)) ts) else Crash.

(** Overwriting the first tags of that array. *)
Definition set_id_tags (th : tag_heap) (id : nchan_msg_id_t) (vs : list Z) :
    outcome (tag_heap * nchan_msg_id_t) :=
  if tagcount id <=? NCHAN_FIXED_MULTITAG_MAX then
    match tag id with
    | fixed t =>
        if decide (length vs <= length t)%nat then
          Ret (th, MsgId (time id) (fixed (vs ++ drop (length vs) t)) (tagactive id) (tagcount id))
        else Crash
    | allocd _ => Crash
    end
  else
    match tag id with
    | allocd p => th' ← block_write th p vs; Ret (th', id)
    | fixed _ => Crash
    end.

Definition nth_tag (ts : list Z) (i : Z) : outcome Z :=
  if i <? 0 then Crash else match ts !! Z.to_nat i with Some v => Ret v | None => Crash end.

(** [id->tag.fixed[0]]. *)
Definition fixed0 (id : nchan_msg_id_t) : outcome Z :=
  match tag id with fixed (v :: _) => Ret v | _ => Crash end.

Definition set_fixed0 (id : nchan_msg_id_t) (v : Z) : nchan_msg_multitag :=
  match tag id with
  | fixed (_ :: t) => fixed (v :: t)
  | _ => fixed [v; 0; 0; 0]  (* the other bytes of the union are not read *)
  end.

(** ** Operations *)

Definition nchan_msgid_tagcount_match (id : nchan_msg_id_t) (count : Z) : bool :=
  if (time id =? NCHAN_OLDEST_MSGID_TIME) || (time id =? NCHAN_NEWEST_MSGID_TIME)
     || (time id =? NCHAN_NTH_MSGID_TIME)
  then (tagcount id =? 1) && (tagactive id =? 0)
  else (tagcount id =? count) && (0 <=? tagactive id) && (tagactive id <? count).

(** The loop index is a [uint8_t]. *)
Definition nchan_expand_msg_id_multi_tag (th : tag_heap) (id : nchan_msg_id_t)
    (in_n out_n : Z) (fill : Z) : outcome (tag_heap * nchan_msg_id_t) :=
  c_assert ((in_n <? tagcount id) && (out_n <? tagcount id));;
  ts ← id_tags th id;
  v ← nth_tag ts in_n;
  if 255 <? tagcount id then NoFuel
  else set_id_tags th id (imap (fun i _ => if Z.of_nat i =? out_n then v else fill) ts).

Definition nchan_expand_tiny_msgid (t : nchan_msg_tiny_id_t) (id : nchan_msg_id_t) : nchan_msg_id_t :=
  MsgId (tiny_time t) (set_fixed0 id (tiny_tag t)) 1 1.

Definition nchan_shrink_normal_msgid (id : nchan_msg_id_t) : outcome nchan_msg_tiny_id_t :=
  c_assert (tagcount id <=? 1);;
  v ← fixed0 id;
  Ret (TinyId (time id) v).

(** [new] is what [ngx_alloc] returned. *)
Definition nchan_copy_new_msg_id (th : tag_heap) (src : nchan_msg_id_t) (new : option positive) :
    outcome (tag_heap * nchan_msg_id_t * Z) :=
  if NCHAN_FIXED_MULTITAG_MAX <? tagcount src then
    let dst p := MsgId (time src) (allocd p) (tagactive src) (tagcount src) in
    match new with
    | None => Ret (th, dst None, NGX_ERROR)
    | Some p =>
        ts ← id_tags th src;
        th' ← block_write (block_alloc th p (Z.to_nat (tagcount src))) (Some p) ts;
        Ret (th', dst (Some p), NGX_OK)
    end
  else Ret (th, src, NGX_OK).

Definition nchan_copy_msg_id (th : tag_heap) (dst src : nchan_msg_id_t)
    (largetags : option positive) (new : option positive) :
    outcome (tag_heap * nchan_msg_id_t * Z) :=
  let src_n := u16 (tagcount src) in
  '(th1, dst_n) ←
    (if (NCHAN_FIXED_MULTITAG_MAX <? u16 (tagcount dst)) && negb (u16 (tagcount dst) =? src_n) then
       match tag dst with
       | allocd p => th' ← block_free th p; Ret (th', NCHAN_FIXED_MULTITAG_MAX)
       | fixed _ => Crash
       end
     else Ret (th, u16 (tagcount dst)));
  let dst' t := MsgId (time src) t (tagactive src) (tagcount src) in
  if src_n <=? NCHAN_FIXED_MULTITAG_MAX then Ret (th1, dst' (tag src), NGX_OK)
  else
    ts ← id_tags th1 src;
    if negb (dst_n =? src_n) then
      match largetags, new with
      | Some p, _ =>
          th2 ← block_write th1 (Some p) ts; Ret (th2, dst' (allocd (Some p)), NGX_OK)
      | None, Some p =>
          th2 ← block_write (block_alloc th1 p (Z.to_nat src_n)) (Some p) ts;
          Ret (th2, dst' (allocd (Some p)), NGX_OK)
      | None, None => Ret (th1, dst' (tag dst), NGX_ERROR)
      end
    else
      match tag dst with
      | allocd p => th2 ← block_write th1 p ts; Ret (th2, dst' (tag dst), NGX_OK)
      | fixed _ => Crash
      end.

Definition nchan_free_msg_id (th : tag_heap) (id : nchan_msg_id_t) :
    outcome (tag_heap * nchan_msg_id_t * Z) :=
  if NCHAN_FIXED_MULTITAG_MAX <? tagcount id then
    match tag id with
    | allocd p =>
        th' ← block_free th p;
        Ret (th', MsgId (time id) (allocd None) (tagactive id) (tagcount id), NGX_OK)
    | fixed _ => Crash
    end
  else Ret (th, id, NGX_OK).

(** [verify_msg_id]'s error messages. *)
Inductive verify_err :=
  | more_than_one_tag
  | only_first_message_ok
  | times_dont_match
  | tags_dont_match
  | multitag_mismatch.

(** The loop that looks for the only tag that is not -1 among the [k] tags from
    [j] on; [i] is -1 until one is found. *)
Fixpoint single_set_tag (ts : list Z) (k : nat) (j i : Z) : outcome (Z + verify_err) :=
  match k with
  | O => Ret (inl i)
  | S k' =>
      t ← nth_tag ts j;
      if negb (t =? -1) then
        if negb (i =? -1) then Ret (inr more_than_one_tag) else single_set_tag ts k' (j + 1) j
      else single_set_tag ts k' (j + 1) i
  end.

Fixpoint multitag_mismatched (ts1 ts2 : list Z) (k : nat) (i : Z) : outcome bool :=
  match k with
  | O => Ret false
  | S k' =>
      t2 ← nth_tag ts2 i;
      if negb (t2 =? -1) then
        t1 ← nth_tag ts1 i;
        if negb (t1 =? t2) then Ret true else multitag_mismatched ts1 ts2 k' (i + 1)
      else multitag_mismatched ts1 ts2 k' (i + 1)
  end.

Definition verify_msg_id (th : tag_heap) (id1 id2 msgid : nchan_msg_id_t) :
    outcome (unit + verify_err) :=
  if (0 <? time id1) && (0 <? time id2) then
    if negb (time id1 =? time id2) then
      if 1 <? tagcount id2 then
        tags2 ← id_array th id2;
        r ← single_set_tag tags2 (Z.to_nat (tagcount id2)) 0 (-1);
        match r with
        | inr e => Ret (inr e)
        | inl i =>
            msgidtags ← id_array th msgid;
            v ← nth_tag msgidtags i;
            if negb (v =? 0) then Ret (inr only_first_message_ok) else Ret (inl ())
        end
      else Ret (inr times_dont_match)
    else
      tags1 ← id_array th id1;
      tags2 ← id_array th id2;
      if tagcount id1 =? 1 then
        t1 ← nth_tag tags1 0;
        t2 ← nth_tag tags2 0;
        if negb (t1 =? t2) then Ret (inr tags_dont_match) else Ret (inl ())
      else
        b ← multitag_mismatched tags1 tags2 (Z.to_nat (tagcount id1)) 0;
        if (b : bool) then Ret (inr multitag_mismatch) else Ret (inl ())
  else Ret (inl ()).

(** The merging loop of [nchan_update_multi_msgid], with its debug assertion
    on the active tag; [i] is the index of the first of the two lists. *)
Fixpoint merge_tags (old new : list Z) (active i : Z) : outcome (list Z) :=
  match old with
  | [] => Ret []
  | o :: old' =>
      match new with
      | [] => Crash
      | v :: new' =>
          c_assert (if (active =? i) && negb (v =? -1) && negb (o =? -1) then o <? v else true);;
          rest ← merge_tags old' new' active (i + 1);
          Ret ((if negb (v =? -1) then v else o) :: rest)
      end
  end.

(** Growing the tag array of [oldid] to [newcount] tags.  The new array's
    address is stored into the union before the old tags are copied, so tags
    that were inline are read back as the 16-bit words of that address
    ([ptr_words]). *)
Definition grow_tags (ptr_words : positive -> list Z) (th : tag_heap) (oldid : nchan_msg_id_t)
    (newcount : Z) (largetags new : option positive) : outcome (tag_heap * nchan_msg_id_t) :=
  '(th1, p) ←
    (match largetags, new with
     | Some p, _ => Ret (th, p)
     | None, Some p => Ret (block_alloc th p (Z.to_nat newcount), p)
     | None, None => Crash
     end);
  oldtags ← (if NCHAN_FIXED_MULTITAG_MAX <? tagcount oldid then id_tags th oldid
             else Ret (take (Z.to_nat (tagcount oldid)) (ptr_words p)));
  let vs := oldtags ++ replicate (Z.to_nat (newcount - tagcount oldid)) (-1) in
  th2 ← block_write th1 (Some p) vs;
  th3 ← (if NCHAN_FIXED_MULTITAG_MAX <? tagcount oldid
         then match tag oldid with allocd q => block_free th2 q | fixed _ => Crash end
         else Ret th2);
  Ret (th3, MsgId (time oldid) (allocd (Some p)) (tagactive oldid) newcount).

Definition nchan_update_multi_msgid (ptr_words : positive -> list Z) (th : tag_heap)
    (oldid newid : nchan_msg_id_t) (largetags new : option positive) : outcome (tag_heap * nchan_msg_id_t) :=
  if tagcount newid =? 1 then Ret (th, newid)
  else
    let newcount := u16 (tagcount newid) in
    let oldcount := u16 (tagcount oldid) in
    '(th1, oldid1) ←
      (if (NCHAN_FIXED_MULTITAG_MAX <? newcount) && (oldcount <? newcount)
       then grow_tags ptr_words th oldid newcount largetags new
       else Ret (th, oldid));
    if negb (time oldid1 =? time newid) then
      '(th2, oldid2, _) ← nchan_copy_msg_id th1 oldid1 newid None new;
      Ret (th2, oldid2)
    else
      c_assert (newcount =? oldcount);;
      oldtags ← id_tags th1 oldid1;
      newtags ← id_tags th1 newid;
      merged ← merge_tags oldtags newtags (tagactive newid) 0;
      '(th2, oldid2) ← set_id_tags th1 oldid1 merged;
      Ret (th2, MsgId (time oldid2) (tag oldid2) (tagactive newid) (tagcount oldid2)).

Definition nchan_extract_from_multi_msgid (th : tag_heap) (src : nchan_msg_id_t) (n : Z)
    (dst : nchan_msg_id_t) : outcome (nchan_msg_id_t * Z) :=
  let count := u8 (tagcount src) in
  if (time src =? NCHAN_OLDEST_MSGID_TIME) || (time src =? NCHAN_NEWEST_MSGID_TIME) then
    Ret (MsgId (time src) (set_fixed0 dst 0) 0 1, NGX_OK)
  else if time src =? NCHAN_NTH_MSGID_TIME then
    v ← fixed0 src; Ret (MsgId (time src) (set_fixed0 dst v) 0 1, NGX_OK)
  else if count <=? n then Ret (dst, NGX_ERROR)
  else
    tags ← id_tags th (MsgId (time src) (tag src) (tagactive src) count);
    v ← nth_tag tags n;
    if v =? -1 then Ret (MsgId (time src - 1) (set_fixed0 dst 32767) 0 1, NGX_OK)
    else Ret (MsgId (time src) (set_fixed0 dst v) 0 1, NGX_OK).

(** Comparisons. *)
Definition cmpZ (x y : Z) : Z := if x <? y then -1 else if y <? x then 1 else 0.

Definition nchan_compare_msgid_tags (th : tag_heap) (id1 id2 : nchan_msg_id_t) : outcome Z :=
  let active := u8 (tagactive id2) in
  tags1 ← id_array th id1;
  tags2 ← id_array th id2;
  c_assert (time id1 =? time id2);;
  c_assert (Z.of_nat (length (filter (fun t => 0 <= t) (take (Z.to_nat (tagcount id2)) tags2))) =? 1);;
  if (time id1 =? 0) && (time id2 =? 0) then Ret 0
  else
    t1 ← (if active <? tagcount id1 then nth_tag tags1 active else Ret (-1));
    t2 ← nth_tag tags2 active;
    Ret (cmpZ t1 t2).

Definition nchan_compare_msgids (th : tag_heap) (id1 id2 : nchan_msg_id_t) : outcome Z :=
  c_assert (tagcount id1 =? tagcount id2);;
  if time id1 <? time id2 then Ret (-1)
  else if time id2 <? time id1 then Ret 1
  else if tagcount id1 =? 1 then
    t1 ← fixed0 id1; t2 ← fixed0 id2; Ret (cmpZ t1 t2)
  else nchan_compare_msgid_tags th id1 id2.

(** [msg_ids_equal] of [store/spool.c]. *)
Definition msg_ids_equal (th : tag_heap) (id1 id2 : nchan_msg_id_t) : outcome bool :=
  if negb (time id1 =? time id2) || negb (tagcount id1 =? tagcount id2) then Ret false
  else tags1 ← id_tags th id1; tags2 ← id_tags th id2; Ret (bool_decide (tags1 = tags2)).

(** [spool_rbtree_compare] of [store/spool.c]: missing tags count as -1. *)
Fixpoint compare_tags_loop (ts1 ts2 : list Z) (max1 max2 : Z) (k : nat) (i : Z) : outcome Z :=
  match k with
  | O => Ret 0
  | S k' =>
      tag1 ← (if i <? max1 then nth_tag ts1 i else Ret (-1));
      tag2 ← (if i <? max2 then nth_tag ts2 i else Ret (-1));
      if tag2 <? tag1 then Ret 1
      else if tag1 <? tag2 then Ret (-1)
      else compare_tags_loop ts1 ts2 max1 max2 k' (i + 1)
  end.

Definition spool_rbtree_compare (th : tag_heap) (id1 id2 : nchan_msg_id_t) : outcome Z :=
  if time id2 <? time id1 then Ret 1
  else if time id1 <? time id2 then Ret (-1)
  else
    let max1 := u16 (tagcount id1) in
    let max2 := u16 (tagcount id2) in
    ts1 ← id_array th id1;
    ts2 ← id_array th id2;
    compare_tags_loop ts1 ts2 max1 max2 (Z.to_nat (if max2 <? max1 then max1 else max2)) 0.

Definition spool_rbtree_bucketer (id : nchan_msg_id_t) : Z := u32 (time id).

(** ** Printing ([util/nchan_output.c]) *)

(** The loop of [msgtag_to_strptr]; every tag is followed by a comma. *)
Fixpoint print_tags (ts : list Z) (active i : Z) : outcome bytes :=
  match ts with
  | [] => Ret []
  | t :: ts' =>
      c_assert (-2 <=? t);;
      s ← (if negb (t =? -1) then
             Ret (if negb (active =? i) then dec t ++ [ch_comma]
                  else [ch_lbracket] ++ dec t ++ [ch_rbracket; ch_comma])
           else c_assert (negb (active =? i));; Ret [ch_dash; ch_comma]);
      rest ← print_tags ts' active (i + 1);
      Ret (s ++ rest)
  end.

Definition msgtag_to_strptr (th : tag_heap) (id : nchan_msg_id_t) : outcome bytes :=
  let max := u8 (tagcount id) in
  ts ← id_tags th (MsgId (time id) (tag id) (tagactive id) max);
  if max =? 1 then t ← nth_tag ts 0; Ret (dec t)
  else
    s ← print_tags ts (tagactive id) 0;
    (* cur[-1]='\0': the last comma is overwritten *)
    match s with [] => Crash | _ => Ret (removelast s) end.

Definition msgtag_to_str (th : tag_heap) (id : nchan_msg_id_t) : outcome bytes :=
  msgtag_to_strptr th id.

Definition msgid_to_str (th : tag_heap) (id : nchan_msg_id_t) : outcome bytes :=
  s ← msgtag_to_strptr th id; Ret (dec (time id) ++ [ch_colon] ++ s).

(** ** Parsing ([util/nchan_msg.c]) *)

Record parse_state := PS {
  ps_i : Z;               (* int16_t i *)
  ps_sign : Z;            (* int8_t sign *)
  ps_val : Z;             (* int16_t val *)
  ps_open : Z;            (* brace_open_total *)
  ps_close : Z;           (* brace_close_total *)
  ps_active : Z;          (* tagactive *)
  ps_tags : list Z;       (* static int16_t tags[NCHAN_MULTITAG_MAX] *)
}.

(** [tags[i]=(val == 0 && sign == -1) ? -1 : val * sign; i++]. *)
Definition parse_store_tag (st : parse_state) : parse_state :=
  let t := if (ps_val st =? 0) && (ps_sign st =? -1) then -1
           else s16 (ps_val st * ps_sign st) in
  PS (ps_i st + 1) (ps_sign st) (ps_val st) (ps_open st) (ps_close st) (ps_active st)
     (<[Z.to_nat (ps_i st) := t]> (ps_tags st)).

(** One character; [inr] is [return NGX_ERROR]. *)
Definition parse_tag_char (st : parse_state) (c : Z) : parse_state + parse_state :=
  if c =? ch_dash then
    inl (PS (ps_i st) (-1) (ps_val st) (ps_open st) (ps_close st) (ps_active st) (ps_tags st))
  else if is_digit c then
    inl (PS (ps_i st) (ps_sign st) (s16 (10 * ps_val st + (c - ch_0)))
            (ps_open st) (ps_close st) (ps_active st) (ps_tags st))
  else if c =? ch_lbracket then
    let st' := PS (ps_i st) (ps_sign st) (ps_val st) (ps_open st + 1) (ps_close st)
                  (ps_active st) (ps_tags st) in
    if 1 <? ps_open st' then inr st'
    else inl (PS (ps_i st) (ps_sign st) (ps_val st) (ps_open st') (ps_close st)
                 (ps_i st) (ps_tags st))
  else if c =? ch_rbracket then
    let st' := PS (ps_i st) (ps_sign st) (ps_val st) (ps_open st) (ps_close st + 1)
                  (ps_active st) (ps_tags st) in
    if (1 <? ps_close st') || negb (ps_open st' - ps_close st' =? 0) then inr st' else inl st'
  else if c =? ch_comma then
    let st' := parse_store_tag st in
    inl (PS (ps_i st') 1 0 (ps_open st') (ps_close st') (ps_active st') (ps_tags st'))
  else inl st.

Fixpoint parse_tag_loop (s : bytes) (st : parse_state) : parse_state + parse_state :=
  if ps_i st <? NCHAN_MULTITAG_MAX then
    match s with
    | [] => inl (parse_store_tag st)
    | c :: s' =>
        match parse_tag_char st c with
        | inl st' => parse_tag_loop s' st'
        | inr st' => inr st'
        end
    end
  else inl st.

(** [while (i < expected_tag_count) { tags[i] = -1; i++; }] *)
Definition fill_tags (st : parse_state) (expected : Z) : outcome parse_state :=
  if ps_i st <? expected then
    if Z.of_nat (length (ps_tags st)) <? expected then Crash
    else Ret (PS expected (ps_sign st) (ps_val st) (ps_open st) (ps_close st) (ps_active st)
      (take (Z.to_nat (ps_i st)) (ps_tags st)
       ++ replicate (Z.to_nat (expected - ps_i st)) (-1)
       ++ drop (Z.to_nat expected) (ps_tags st)))
  else Ret st.

(** [s] is [None] when [first] and [last] are [NULL]; [sp] is the block of the
    function's static array. *)
Definition nchan_parse_msg_tag (th : tag_heap) (sp : positive) (s : option bytes)
    (mid : nchan_msg_id_t) (expected_tag_count : Z) : outcome (tag_heap * nchan_msg_id_t * Z) :=
  match th !! sp with
  | None => Crash
  | Some b =>
      let st0 := PS 0 1 0 0 0 NGX_ERROR (cells b) in
      let back st := <[sp := TB (malloced b) (ps_tags st)]> th in
      match (match s with Some s => parse_tag_loop s st0 | None => inl st0 end) with
      | inr st => Ret (back st, mid, NGX_ERROR)
      | inl st =>
          let mid1 := if ps_i st =? 0
                      then MsgId (time mid) (tag mid) (-1) (tagcount mid) else mid in
          if (ps_active st =? NGX_ERROR) && negb (ps_i st =? 1) then
            Ret (back st, mid1, NGX_ERROR)
          else
            let active := if ps_active st =? NGX_ERROR then 0 else s16 (ps_active st) in
            st' ← fill_tags st expected_tag_count;
            Ret (back st',
              MsgId (time mid)
                (if ps_i st' <=? NCHAN_FIXED_MULTITAG_MAX then fixed (take 4 (ps_tags st'))
                 else allocd (Some sp))
                active (ps_i st'), NGX_OK)
      end
  end.

Definition nchan_parse_compound_msgid `{NgxString} (th : tag_heap) (sp : positive)
    (id : nchan_msg_id_t) (str : bytes) (expected_tag_count : Z) :
    outcome (tag_heap * nchan_msg_id_t * Z) :=
  match ngx_strlchr str ch_colon with
  | Some split =>
      let t := ngx_atoi (take split str) in
      if negb (t =? NGX_ERROR) then
        nchan_parse_msg_tag th sp (Some (drop (S split) str))
          (MsgId t (tag id) (tagactive id) (tagcount id)) expected_tag_count
      else Ret (th, id, NGX_ERROR)
  | None => Ret (th, id, NGX_DECLINED)
  end.

Definition set_default_id (subscriber_first_message : Z) : nchan_msg_id_t :=
  if subscriber_first_message =? 1 then NCHAN_OLDEST_MSGID
  else if subscriber_first_message =? 0 then NCHAN_NEWEST_MSGID
  else MsgId NCHAN_NTH_MSGID_TIME (set_fixed0 NCHAN_NTH_MSGID (s16 subscriber_first_message)) 0 1.

(** The parts of the request and of the location's configuration that
    [nchan_subscriber_get_msg_id] looks at. *)
Record msgid_request := {
  if_modified_since : option bytes;
  if_none_match : option bytes;
  msg_in_etag_only : bool;
  last_message_id : list (option bytes);  (* values of the nchan_subscriber_message_id variables *)
  subscriber_first_message : Z;
  channel_id_count : Z;
}.

Section get_msg_id.
Context `{NgxString}.
(** [ngx_http_parse_time] and [ngx_unescape_uri] (through
    [nchan_urldecode_str]) are nginx's. *)
Context (ngx_http_parse_time : bytes -> Z) (urldecode : bytes -> bytes).

(** The loop over the alternative message id variables: the first one that is
    not declined decides.  [None] is a [NULL] result. *)
Fixpoint alt_msg_id (th : tag_heap) (sp : positive) (id : nchan_msg_id_t) (cvs : list (option bytes))
    (count first : Z) : outcome (tag_heap * nchan_msg_id_t * bool) :=
  match cvs with
  | [] => Ret (th, set_default_id first, true)
  | Some (c :: str) :: cvs' =>
      '(th', id', rc) ← nchan_parse_compound_msgid th sp id (urldecode (c :: str)) count;
      if rc =? NGX_OK then Ret (th', id', true)
      else if rc =? NGX_ERROR then Ret (th', id', false)
      else alt_msg_id th' sp id' cvs' count first
  | _ :: cvs' => alt_msg_id th sp id cvs' count first
  end.

(** [id] is the function's static variable; the flag is [false] when the
    function returns [NULL]. *)
Definition nchan_subscriber_get_msg_id (th : tag_heap) (sp : positive) (id : nchan_msg_id_t)
    (r : msgid_request) : outcome (tag_heap * nchan_msg_id_t * bool) :=
  let default := set_default_id (subscriber_first_message r) in
  match if_modified_since r with
  | Some ims =>
      if negb (msg_in_etag_only r) then
        let t := ngx_http_parse_time ims in
        if t <=? 0 then Ret (th, default, true)
        else
          '(th', id', rc) ← nchan_parse_msg_tag th sp (if_none_match r)
             (MsgId t (tag id) (tagactive id) (tagcount id)) (channel_id_count r);
          Ret (th', id', negb (rc =? NGX_ERROR))
      else
        match if_none_match r with
        | Some etag =>
            '(th', id', rc) ← nchan_parse_compound_msgid th sp id etag (channel_id_count r);
            if rc =? NGX_OK then Ret (th', id', true)
            else if rc =? NGX_ERROR then Ret (th', id', false)
            else Ret (th', default, true)
        | None =>
            alt_msg_id th sp id (last_message_id r) (channel_id_count r) (subscriber_first_message r)
        end
  | None =>
      match if_none_match r with
      | Some etag =>
          '(th', id', rc) ← nchan_parse_compound_msgid th sp id etag (channel_id_count r);
          if rc =? NGX_OK then Ret (th', id', true)
          else if rc =? NGX_ERROR then Ret (th', id', false)
          else Ret (th', default, true)
      | None =>
          alt_msg_id th sp id (last_message_id r) (channel_id_count r) (subscriber_first_message r)
      end
  end.
End get_msg_id.
