(* ===== verification/MsgIdText.v ===== *)
(** * Printing and parsing message ids

    The text form of an id ([msgid_to_str]) is what subscribers send back to
    resume; [nchan_parse_compound_msgid] must recover exactly the id that was
    printed. *)

From S2P Require Import Prelude Nginx MsgId.

Definition with_val (st : parse_state) (sign v : Z) : parse_state :=
  PS (ps_i st) sign v (ps_open st) (ps_close st) (ps_active st) (ps_tags st).

Lemma undec_ge s v : 0 <= v -> Forall (fun c => is_digit c = true) s -> v <= undec s v.
Proof.
  revert v. induction s as [|c s IH]; intros v Hv HF; unfold undec in *; simpl; [lia|].
  apply Forall_cons in HF as [Hc HF].
  unfold is_digit in Hc. apply andb_true_iff in Hc as [?%Z.leb_le ?%Z.leb_le].
  transitivity (10 * v + (c - ch_0)); [lia|]. apply IH; [lia|done].
Qed.

Lemma parse_digits ds rest st :
  Forall (fun c => is_digit c = true) ds -> 0 <= ps_val st ->
  undec ds (ps_val st) <= 32767 -> ps_i st < NCHAN_MULTITAG_MAX ->
  parse_tag_loop (ds ++ rest) st =
  parse_tag_loop rest (with_val st (ps_sign st) (undec ds (ps_val st))).
Proof.
  revert st. induction ds as [|c ds IH]; intros st HF Hv Hu Hi.
  - unfold undec; simpl. by destruct st.
  - apply Forall_cons in HF as [Hc HF]. simpl.
    rewrite (proj2 (Z.ltb_lt _ _)) by done.
    pose proof Hc as Hc'. unfold is_digit in Hc'.
    apply andb_true_iff in Hc' as [?%Z.leb_le ?%Z.leb_le].
    unfold parse_tag_char. rewrite (proj2 (Z.eqb_neq c ch_dash)), Hc by lia.
    assert (0 <= 10 * ps_val st + (c - ch_0)) by lia.
    pose proof (undec_ge ds (10 * ps_val st + (c - ch_0)) ltac:(lia) HF).
    unfold undec in Hu. simpl in Hu. fold (undec ds (10 * ps_val st + (c - ch_0))) in Hu.
    rewrite wraps_small by (unfold in_s; lia).
    rewrite IH; simpl; auto.
Qed.

(** Reading back one printed number. *)
Lemma parse_dec t rest st :
  ps_val st = 0 -> ps_sign st = 1 -> ps_i st < NCHAN_MULTITAG_MAX -> -32767 <= t <= 32767 ->
  parse_tag_loop (dec t ++ rest) st =
  parse_tag_loop rest (with_val st (if t <? 0 then -1 else 1) (Z.abs t)).
Proof.
  intros Hv Hs Hi Ht. destruct (Z.ltb_spec t 0).
  - rewrite dec_neg by done. simpl. rewrite (proj2 (Z.ltb_lt _ _)) by done.
    unfold parse_tag_char. simpl.
    destruct (dec_spec (- t) ltac:(lia)) as (_ & HF & Hu).
    rewrite parse_digits; simpl; rewrite ?Hv, ?Hu; auto; try lia.
    unfold with_val; simpl. do 2 f_equal. lia.
  - destruct (dec_spec t ltac:(lia)) as (_ & HF & Hu).
    rewrite parse_digits; rewrite ?Hv, ?Hu; auto; try lia.
    unfold with_val; simpl. rewrite Hs. do 2 f_equal. lia.
Qed.

Lemma store_value t : -32767 <= t <= 32767 ->
  (if (Z.abs t =? 0) && ((if t <? 0 then -1 else 1) =? -1) then -1
   else s16 (Z.abs t * (if t <? 0 then -1 else 1))) = t.
Proof.
  intros Ht. destruct (Z.ltb_spec t 0).
  - rewrite (proj2 (Z.eqb_neq (Z.abs t) 0)) by lia. simpl.
    rewrite wraps_small; [lia|done|unfold in_s; lia].
  - rewrite andb_false_r. rewrite wraps_small; [lia|done|unfold in_s; lia].
Qed.

(** The text of one tag, without the comma. *)
Definition tag_text (t active i : Z) : bytes :=
  if t =? -1 then [ch_dash]
  else if active =? i then [ch_lbracket] ++ dec t ++ [ch_rbracket] else dec t.

Lemma print_tags_cons t ts active i s :
  print_tags (t :: ts) active i = Ret s ->
  exists rest, print_tags ts active (i + 1) = Ret rest /\
    s = tag_text t active i ++ [ch_comma] ++ rest /\ (active = i -> t <> -1).
Proof.
  cbn [print_tags]. unfold tag_text. intros H. inv_outcome.
  exists x1. split; [done|]. destruct (Z.eqb_spec t (-1)) as [->|]; simpl in *.
  - destruct (Z.eqb_spec active i); simpl in *; inv_outcome. done.
  - destruct (Z.eqb_spec active i); simpl in *; inv_outcome; split; try done.
    + simpl. by rewrite <- !app_assoc.
    + by rewrite <- app_assoc.
Qed.

Definition braces (active i : Z) : Z := if active <? i then 1 else 0.
Definition seen_active (active i : Z) : Z := if active <? i then active else NGX_ERROR.

(** The parser's state between two tags. *)
Definition at_tag (active i : Z) (tgs : list Z) : parse_state :=
  PS i 1 0 (braces active i) (braces active i) (seen_active active i) tgs.

(** After the text of the [i]-th tag, storing it and moving on gives the state
    of the next tag. *)
Lemma parse_one_tag t active i tgs rest :
  0 <= i < NCHAN_MULTITAG_MAX -> 0 <= active -> -1 <= t <= 32767 -> (active = i -> t <> -1) ->
  exists st, parse_tag_loop (tag_text t active i ++ rest) (at_tag active i tgs)
             = parse_tag_loop rest st /\
    ps_i st = i /\ ps_i (parse_store_tag st) = i + 1 /\
    ps_open st = braces active (i + 1) /\ ps_close st = braces active (i + 1) /\
    ps_active st = seen_active active (i + 1) /\
    ps_tags (parse_store_tag st) = <[Z.to_nat i := t]> tgs.
Proof.
  intros Hi Ha Ht Hact. unfold tag_text, braces, seen_active, at_tag.
  destruct (Z.eqb_spec t (-1)) as [->|Hne].
  - assert (active <> i) by (intros ->; by apply Hact).
    simpl. rewrite (proj2 (Z.ltb_lt _ _)) by lia.
    eexists. split; [unfold parse_tag_char; simpl; reflexivity|]. simpl.
    unfold braces, seen_active.
    destruct (Z.ltb_spec active i), (Z.ltb_spec active (i + 1)); try lia; split_and!; done.
  - destruct (Z.eqb_spec active i) as [->|Hai].
    + simpl. rewrite (proj2 (Z.ltb_lt i NCHAN_MULTITAG_MAX)) by lia.
      unfold parse_tag_char at 1, braces, seen_active. simpl.
      rewrite Z.ltb_irrefl. simpl. rewrite <- app_assoc.
      rewrite parse_dec; simpl; try done; try lia.
      rewrite (proj2 (Z.ltb_lt i NCHAN_MULTITAG_MAX)) by lia.
      unfold parse_tag_char, with_val; simpl.
      eexists. split; [reflexivity|]. simpl.
      rewrite (proj2 (Z.ltb_lt i (i + 1))) by lia.
      split_and!; try done. f_equal. apply store_value. lia.
    + rewrite parse_dec; simpl; try done; try lia.
      eexists. split; [reflexivity|]. simpl. unfold braces, seen_active.
      assert ((active <? i + 1) = (active <? i)) as ->
        by (destruct (Z.ltb_spec active (i + 1)), (Z.ltb_spec active i); lia).
      split_and!; try done. f_equal. apply store_value. lia.
Qed.

Lemma take_S_insert (l : list Z) i x :
  (i < length l)%nat -> take (S i) (<[i := x]> l) = take i l ++ [x].
Proof.
  intros Hi. rewrite (take_S_r _ _ x) by (by apply list_lookup_insert_eq).
  f_equal. by rewrite take_insert_ge by lia.
Qed.

Lemma parse_printed ts active i tgs s :
  ts <> [] -> print_tags ts active i = Ret s ->
  Forall (fun t => -1 <= t <= 32767) ts -> 0 <= i ->
  i + Z.of_nat (length ts) <= NCHAN_MULTITAG_MAX -> Z.of_nat (length tgs) = NCHAN_MULTITAG_MAX ->
  0 <= active < i + Z.of_nat (length ts) ->
  exists st, parse_tag_loop (removelast s) (at_tag active i tgs) = inl st /\
    ps_i st = i + Z.of_nat (length ts) /\ ps_active st = active /\
    ps_tags st = take (Z.to_nat i) tgs ++ ts ++ drop (Z.to_nat i + length ts) tgs.
Proof.
  revert i tgs s. induction ts as [|t ts IH]; intros i tgs s Hne Hp HF Hi Hlen Htgs Hact; [done|].
  apply Forall_cons in HF as [Ht HF].
  apply print_tags_cons in Hp as (rest & Hp & -> & Hta).
  assert (0 <= i < NCHAN_MULTITAG_MAX) as Hi' by (simpl in Hlen; lia).
  destruct ts as [|t' ts].
  - simpl in Hp. inv_outcome. rewrite app_nil_r, removelast_last.
    destruct (parse_one_tag t active i tgs []) as (st & E & Ei & Ei' & _ & _ & Ea & Et);
      [lia|lia|lia|done|].
    rewrite app_nil_r in E. rewrite E. cbn [parse_tag_loop]. rewrite Ei.
    rewrite (proj2 (Z.ltb_lt _ _)) by lia.
    eexists. split; [done|]. split_and!; [done| |].
    + simpl. rewrite Ea. unfold seen_active. simpl in Hact.
      by rewrite (proj2 (Z.ltb_lt _ _)) by lia.
    + rewrite Et. rewrite insert_take_drop by lia. simpl. by rewrite Nat.add_1_r.
  - pose proof (print_tags_cons _ _ _ _ _ Hp) as (rest' & _ & Erest & _).
    replace (removelast (tag_text t active i ++ [ch_comma] ++ rest))
      with (tag_text t active i ++ ch_comma :: removelast rest).
    2:{ rewrite app_assoc, removelast_app by (rewrite Erest; by destruct (tag_text t' active (i + 1))).
        by rewrite <- app_assoc. }
    destruct (parse_one_tag t active i tgs (ch_comma :: removelast rest))
      as (st & E & Ei & Ei' & Eo & Ec & Ea & Et); [lia|lia|lia|done|].
    rewrite E. simpl parse_tag_loop. rewrite Ei, (proj2 (Z.ltb_lt _ _)) by lia.
    unfold parse_tag_char. simpl.
    destruct (IH (i + 1) (<[Z.to_nat i := t]> tgs) rest) as (st' & E' & Hi'' & Ha' & Ht');
      try done; try lia.
    { simpl in *. lia. }
    { by rewrite length_insert. }
    { simpl in *. lia. }
    exists st'. split_and!.
    + rewrite <- E'. f_equal. unfold at_tag, parse_store_tag in *. simpl in *.
      rewrite Ei in Et. by rewrite Eo, Ec, Ea, Et.
    + simpl in *. lia.
    + done.
    + rewrite Ht'. replace (Z.to_nat (i + 1)) with (S (Z.to_nat i)) by lia.
      rewrite take_S_insert by lia. simpl.
      rewrite drop_insert_lt by lia. rewrite <- app_assoc. simpl.
      by replace (Z.to_nat i + S (S (length ts)))%nat with (S (Z.to_nat i + S (length ts))) by lia.
Qed.

(** An id that the publisher side can produce: its tags are non-negative or
    -1, the active one is set. *)
Definition printable (th : tag_heap) (id : nchan_msg_id_t) (ts : list Z) : Prop :=
  id_tags th id = Ret ts /\ 1 <= tagcount id <= NCHAN_MULTITAG_MAX /\
  0 <= time id <= NGX_MAX_INT_T_VALUE /\
  Forall (fun t => -1 <= t <= 32767) ts /\
  0 <= tagactive id < tagcount id /\ (exists t, ts !! Z.to_nat (tagactive id) = Some t /\ 0 <= t).

Lemma id_tags_length th id ts :
  0 <= tagcount id -> id_tags th id = Ret ts -> Z.of_nat (length ts) = tagcount id.
Proof.
  unfold id_tags. intros Hc H. inv_outcome. case_decide; inv_outcome.
  rewrite length_take. lia.
Qed.

Lemma print_tags_total ts active i :
  0 <= i -> Forall (fun t => -1 <= t <= 32767) ts ->
  (forall t, i <= active -> ts !! Z.to_nat (active - i) = Some t -> 0 <= t) ->
  exists s, print_tags ts active i = Ret s.
Proof.
  revert i. induction ts as [|t ts IH]; intros i Hi HF Hact; [eauto|].
  apply Forall_cons in HF as [Ht HF]. simpl.
  rewrite (proj2 (Z.leb_le (-2) t)) by lia. simpl.
  destruct (IH (i + 1)) as [s Es]; [lia|done| |].
  { intros t' Ha Hl. apply (Hact t'); [lia|].
    replace (Z.to_nat (active - i)) with (S (Z.to_nat (active - (i + 1)))) by lia. done. }
  rewrite Es. destruct (Z.eqb_spec t (-1)); simpl; [|eauto].
  destruct (Z.eqb_spec active i); simpl; [|eauto].
  specialize (Hact t). rewrite e0, Z.sub_diag in Hact. simpl in Hact.
  exfalso. specialize (Hact ltac:(lia) eq_refl). lia.
Qed.

Lemma dec_no_colon n : 0 <= n -> ch_colon ∉ dec n.
Proof.
  intros Hn Hc. destruct (dec_spec n Hn) as (_ & HF & _).
  rewrite Forall_forall in HF. by apply HF in Hc.
Qed.

(** The tags are printed to a text that the parser reads back. *)
Lemma tags_print_then_parse th id ts cells :
  printable th id ts -> Z.of_nat (length cells) = NCHAN_MULTITAG_MAX ->
  exists s st, msgtag_to_strptr th id = Ret s /\
    parse_tag_loop s (PS 0 1 0 0 0 NGX_ERROR cells) = inl st /\
    ps_i st = tagcount id /\
    (if ps_active st =? NGX_ERROR then 0 else s16 (ps_active st)) = tagactive id /\
    (ps_active st = NGX_ERROR -> tagcount id = 1) /\
    ps_tags st = ts ++ drop (length ts) cells.
Proof.
  intros (Hts & Hc & Htime & HF & Hact & t0 & Ht0 & Ht0') Hb.
  pose proof (id_tags_length th id ts ltac:(lia) Hts) as Hlen.
  assert (u8 (tagcount id) = tagcount id) as Hu by (apply wrapu_small; unfold in_u, NCHAN_MULTITAG_MAX in *; lia).
  unfold msgtag_to_strptr. rewrite Hu.
  replace (MsgId (time id) (tag id) (tagactive id) (tagcount id)) with id by by destruct id.
  rewrite Hts, bind_Ret. destruct (Z.eqb_spec (tagcount id) 1) as [E1|E1].
  - destruct ts as [|t [|]]; simpl in Hlen; try lia. simpl.
    apply Forall_cons in HF as [Ht _].
    pose proof (parse_dec t [] (PS 0 1 0 0 0 NGX_ERROR cells) eq_refl eq_refl eq_refl) as E.
    rewrite app_nil_r in E. exists (dec t). eexists. split; [done|].
    rewrite E by lia. cbn [parse_tag_loop with_val ps_i]. split; [reflexivity|].
    unfold parse_store_tag. cbn [with_val ps_i ps_val ps_sign ps_active ps_tags ps_open ps_close].
    rewrite store_value by lia.
    split_and!; simpl; try lia. destruct cells; [simpl in Hb; done|done].
  - destruct (print_tags_total ts (tagactive id) 0) as [s Es]; [done|done| |].
    { intros t _. rewrite Z.sub_0_r, Ht0. by intros [= <-]. }
    rewrite Es, bind_Ret.
    destruct ts as [|t ts]; [simpl in Hlen; lia|].
    destruct (parse_printed (t :: ts) (tagactive id) 0 cells s) as (st & E & Ei & Ea & Et);
      try done; try lia.
    assert (s <> []) as Hs by (apply print_tags_cons in Es as (? & _ & -> & _); by destruct (tag_text t (tagactive id) 0)).
    exists (removelast s), st. split; [by destruct s|].
    assert (at_tag (tagactive id) 0 cells = PS 0 1 0 0 0 NGX_ERROR cells) as Hat.
    { unfold at_tag, braces, seen_active. by rewrite (proj2 (Z.ltb_ge _ _)) by lia. }
    rewrite <- Hat. split_and!; [done|lia| | |done].
    + rewrite Ea, (proj2 (Z.eqb_neq _ _)) by (unfold NGX_ERROR; lia).
      apply wraps_small; [done|unfold in_s, NCHAN_MULTITAG_MAX in *; lia].
    + rewrite Ea. unfold NGX_ERROR. lia.
Qed.

(** Reading the tags the parser has stored. *)
Lemma stored_tags_read th sp m ts cells tags t a c :
  length ts = Z.to_nat c -> 1 <= c <= NCHAN_MULTITAG_MAX -> tags = ts ++ drop (length ts) cells ->
  Z.of_nat (length cells) = NCHAN_MULTITAG_MAX ->
  id_tags (<[sp := TB m tags]> th)
    (MsgId t (if c <=? NCHAN_FIXED_MULTITAG_MAX then fixed (take 4 tags) else allocd (Some sp)) a c) = Ret ts.
Proof.
  intros Hl Hc Et Hb. assert (take (Z.to_nat c) tags = ts) as Htk by (rewrite Et; apply take_app_length'; lia).
  assert (length tags = length cells) as Hlb.
  { rewrite Et, length_app, length_drop. unfold NCHAN_MULTITAG_MAX in *. lia. }
  unfold id_tags, id_array. simpl. unfold NCHAN_MULTITAG_MAX, NCHAN_FIXED_MULTITAG_MAX in *.
  destruct (Z.leb_spec c 4); simpl.
  - rewrite decide_True by (rewrite length_take; lia). rewrite take_take.
    by rewrite Nat.min_l by lia; rewrite Htk.
  - rewrite lookup_insert_eq. simpl. rewrite decide_True by lia. by rewrite Htk.
Qed.

(** C16.  Printing an id and parsing the text gives the id back: same second, same
    active channel, same number of tags and the same tags, for every number of
    channels from 1 to 255 and whatever the id being overwritten and the static
    tag buffer held before. *)
Theorem msgid_text_roundtrip `{NgxString} th sp b id ts id0 :
  printable th id ts -> th !! sp = Some b -> Z.of_nat (length (cells b)) = NCHAN_MULTITAG_MAX ->
  exists s th' id', msgid_to_str th id = Ret s /\
    nchan_parse_compound_msgid th sp id0 s (tagcount id) = Ret (th', id', NGX_OK) /\
    time id' = time id /\ tagactive id' = tagactive id /\ tagcount id' = tagcount id /\
    id_tags th' id' = Ret ts.
Proof.
  intros P Hsp Hb. destruct (tags_print_then_parse th id ts (cells b) P Hb) as (s & st & Es & Ep & Ei & Ea & Ea' & Et).
  destruct P as (Hts & Hc & Htime & _).
  pose proof (id_tags_length th id ts ltac:(lia) Hts) as Hlen.
  exists (dec (time id) ++ [ch_colon] ++ s).
  unfold msgid_to_str. rewrite Es, bind_Ret. unfold nchan_parse_compound_msgid.
  pose proof (ngx_strlchr_first (dec (time id) ++ ch_colon :: s) ch_colon) as Hf.
  apply first_pos_app in Hf; [|apply dec_no_colon; lia]. simpl app. rewrite Hf.
  rewrite take_app_length, ngx_atoi_dec by lia.
  rewrite (proj2 (Z.eqb_neq _ _)) by (unfold NGX_ERROR; lia). simpl negb. cbv iota.
  replace (drop (S (length (dec (time id)))) (dec (time id) ++ ch_colon :: s)) with s.
  2:{ replace (dec (time id) ++ ch_colon :: s) with ((dec (time id) ++ [ch_colon]) ++ s)
        by by rewrite <- app_assoc.
      symmetry. apply drop_app_length'. rewrite length_app. simpl. lia. }
  unfold nchan_parse_msg_tag. rewrite Hsp, Ep, Ei.
  replace ((ps_active st =? NGX_ERROR) && negb (tagcount id =? 1)) with false.
  2:{ destruct (Z.eqb_spec (ps_active st) NGX_ERROR) as [E|]; [|done].
      rewrite (Ea' E). done. }
  unfold fill_tags. rewrite Ei, Z.ltb_irrefl, bind_Ret.
  eexists _, _. split; [reflexivity|]. split; [reflexivity|]. simpl. split_and!; try done.
  rewrite Ei. apply (stored_tags_read th sp (malloced b) ts (cells b)); (done || lia).
Qed.

Definition roundtrip_heap : tag_heap := {[ 1%positive := TB false (replicate 255 7) ]}.

Lemma msgid_text_roundtrip_witness :
  exists s th' id',
    let id := MsgId 1712345678 (fixed [3; -1; 41; 0]) 2 3 in
    msgid_to_str roundtrip_heap id = Ret s /\
    nchan_parse_compound_msgid roundtrip_heap 1 NCHAN_ZERO_MSGID s (tagcount id)
      = Ret (th', id', NGX_OK) /\
    time id' = time id /\ tagactive id' = tagactive id /\ tagcount id' = tagcount id /\
    id_tags th' id' = Ret [3; -1; 41].
Proof.
  apply (msgid_text_roundtrip _ _ (TB false (replicate 255 7))); [|done|done].
  split_and!; try done; try (vm_compute; congruence).
  - repeat constructor; lia.
  - exists 41. split; [done|lia].
Defined.

(** A conditional request that carries a valid [If-Modified-Since] date but
    no [If-None-Match] tag is refused (the id is [NULL]) unless ids travel in the
    etag only: with no tags parsed, the branch that should only reject a
    multitag without an active tag also catches the empty one, and the code
    that fills the missing tags with -1 is never reached. *)
Theorem ims_without_etag_rejected `{NgxString} parse_time urldecode th sp b id r ims :
  th !! sp = Some b -> if_modified_since r = Some ims -> if_none_match r = None ->
  msg_in_etag_only r = false -> 0 < parse_time ims ->
  exists th' id', nchan_subscriber_get_msg_id parse_time urldecode th sp id r = Ret (th', id', false).
Proof.
  intros Hsp Hi Hn He Ht. unfold nchan_subscriber_get_msg_id. rewrite Hi, Hn, He. simpl.
  rewrite (proj2 (Z.leb_gt _ _)) by done.
  unfold nchan_parse_msg_tag. rewrite Hsp. simpl. eauto.
Qed.

Lemma ims_without_etag_rejected_witness :
  exists th' id', nchan_subscriber_get_msg_id (fun _ => 1712345678) (fun s => s)
    roundtrip_heap 1 NCHAN_ZERO_MSGID
    {| if_modified_since := Some (bytes_of "Fri, 05 Apr 2024 19:34:38 GMT"); if_none_match := None;
       msg_in_etag_only := false; last_message_id := []; subscriber_first_message := 1;
       channel_id_count := 1 |} = Ret (th', id', false).
Proof.
  eapply (ims_without_etag_rejected _ _ _ _ (TB false (replicate 255 7)) _ _
    (bytes_of "Fri, 05 Apr 2024 19:34:38 GMT")); try reflexivity; try done.
Defined.
