(* ===== verification/MsgIdFacts.v ===== *)
(** * Facts about message ids

    Ownership of tag arrays by copies, the effect of updating a subscriber's
    position with a delivered message, the single-channel position of a
    multiplexed id, and the order used by comparisons and by the spool tree. *)

From S2P Require Import Prelude Nginx MsgId.

Arguments id_array : simpl never.
Arguments id_tags : simpl never.

(** ** Reading ids *)

Lemma id_tags_fixed th t a c ts :
  c <= NCHAN_FIXED_MULTITAG_MAX -> (Z.to_nat c <= length ts)%nat ->
  id_tags th (MsgId t (fixed ts) a c) = Ret (take (Z.to_nat c) ts).
Proof.
  intros Hc Hl. unfold id_tags, id_array. simpl.
  rewrite (proj2 (Z.leb_le _ _)) by done. rewrite bind_Ret. by rewrite decide_True.
Qed.

Lemma id_tags_allocd th t p a c b :
  NCHAN_FIXED_MULTITAG_MAX < c -> th !! p = Some b -> (Z.to_nat c <= length (cells b))%nat ->
  id_tags th (MsgId t (allocd (Some p)) a c) = Ret (take (Z.to_nat c) (cells b)).
Proof.
  intros Hc Hb Hl. unfold id_tags, id_array. simpl.
  rewrite (proj2 (Z.leb_gt _ _)) by done. rewrite Hb, bind_Ret. by rewrite decide_True.
Qed.

(** Which union member holds the tags of a readable id. *)
Lemma id_tags_inv th id ts :
  id_tags th id = Ret ts ->
  (tagcount id <= NCHAN_FIXED_MULTITAG_MAX /\
    exists l, tag id = fixed l /\ ts = take (Z.to_nat (tagcount id)) l /\ (Z.to_nat (tagcount id) <= length l)%nat) \/
  (NCHAN_FIXED_MULTITAG_MAX < tagcount id /\
    exists p b, tag id = allocd (Some p) /\ th !! p = Some b /\
      ts = take (Z.to_nat (tagcount id)) (cells b) /\ (Z.to_nat (tagcount id) <= length (cells b))%nat).
Proof.
  unfold id_tags, id_array. intros H.
  destruct (Z.leb_spec (tagcount id) NCHAN_FIXED_MULTITAG_MAX).
  - left. split; [done|]. destruct (tag id) as [l|]; simpl in H; [|done].
    case_decide; inv_outcome. eauto.
  - right. split; [done|]. destruct (tag id) as [|[p|]]; simpl in H; try done.
    destruct (th !! p) as [b|] eqn:E; simpl in H; [|done]. case_decide; inv_outcome. eauto 10.
Qed.

Lemma block_write_all th p k vs :
  length vs = k -> block_write (block_alloc th p k) (Some p) vs = Ret (<[p := TB true vs]> th).
Proof.
  intros <-. unfold block_write, block_alloc. rewrite lookup_insert_eq. simpl.
  rewrite length_replicate, decide_True by done.
  by rewrite drop_ge, app_nil_r, insert_insert_eq by (by rewrite length_replicate).
Qed.

(** ** Copies own their tags *)

(** [nchan_copy_new_msg_id] makes an independent copy: the copy reads as the
    same id, the source is untouched, and freeing the copy gives back exactly
    the memory that was there before the copy, whatever the number of tags. *)
Theorem copy_new_then_free th src ts p :
  id_tags th src = Ret ts -> 0 <= tagcount src -> th !! p = None ->
  exists th' dst, nchan_copy_new_msg_id th src (Some p) = Ret (th', dst, NGX_OK) /\
    id_tags th' dst = Ret ts /\ id_tags th' src = Ret ts /\
    msg_ids_equal th' dst src = Ret true /\ tagactive dst = tagactive src /\
    exists dst', nchan_free_msg_id th' dst = Ret (th, dst', NGX_OK).
Proof.
  intros H Hc Hp. unfold nchan_copy_new_msg_id.
  assert (length ts = Z.to_nat (tagcount src)) as Hlen.
  { destruct (id_tags_inv _ _ _ H) as [(_ & ? & _ & -> & ?)|(_ & ? & ? & _ & _ & -> & ?)];
      rewrite length_take; lia. }
  destruct (id_tags_inv _ _ _ H) as [(Hle & l & Et & -> & Hl)|(Hgt & q & b & Et & Hq & Ets & Hl)].
  - rewrite (proj2 (Z.ltb_ge _ _)) by done. exists th, src. split_and!; try done.
    + unfold msg_ids_equal. rewrite !Z.eqb_refl. simpl. rewrite H. simpl.
      by rewrite bool_decide_eq_true_2.
    + unfold nchan_free_msg_id. rewrite (proj2 (Z.ltb_ge _ _)) by done. eauto.
  - rewrite (proj2 (Z.ltb_lt _ _)) by done. rewrite H, bind_Ret.
    rewrite block_write_all by done. rewrite bind_Ret.
    set (th' := <[p := TB true ts]> th).
    assert (id_tags th' (MsgId (time src) (allocd (Some p)) (tagactive src) (tagcount src)) = Ret ts) as Hd.
    { rewrite (id_tags_allocd _ _ _ _ _ (TB true ts)); simpl; [|done| |lia].
      - by rewrite take_ge by lia.
      - apply lookup_insert_eq. }
    assert (id_tags th' src = Ret ts) as Hs.
    { destruct src as [t0 tg a c]; simpl in *. subst tg.
      rewrite (id_tags_allocd _ _ _ _ _ b); [by subst ts|done| |done].
      subst th'. rewrite lookup_insert_ne by congruence. done. }
    eexists _, _. split_and!; try done.
    + unfold msg_ids_equal. simpl. rewrite !Z.eqb_refl. simpl. rewrite Hd, Hs. simpl.
      by rewrite bool_decide_eq_true_2.
    + unfold nchan_free_msg_id. simpl. rewrite (proj2 (Z.ltb_lt _ _)) by done.
      unfold block_free, th'. rewrite lookup_insert_eq. simpl.
      rewrite delete_insert_id by done. eauto.
Qed.

Lemma copy_new_then_free_witness :
  exists th' dst,
    let th := {[ 1%positive := TB true [5; -1; 2; 0; 9] ]} in
    let src := MsgId 100 (allocd (Some 1%positive)) 0 5 in
    nchan_copy_new_msg_id th src (Some 2%positive) = Ret (th', dst, NGX_OK) /\
    id_tags th' dst = Ret [5; -1; 2; 0; 9] /\ id_tags th' src = Ret [5; -1; 2; 0; 9] /\
    msg_ids_equal th' dst src = Ret true /\ tagactive dst = tagactive src /\
    exists dst', nchan_free_msg_id th' dst = Ret (th, dst', NGX_OK).
Proof. apply copy_new_then_free; [reflexivity|simpl; lia|reflexivity]. Defined.

(** ** Positions in a channel

    Within one channel messages are ordered by second, then by tag. *)

Definition lex_lt (x y : Z * Z) : Prop := x.1 < y.1 \/ (x.1 = y.1 /\ x.2 < y.2).
Definition lex_le (x y : Z * Z) : Prop := x = y \/ lex_lt x y.

Lemma lex_lt_trans x y z : lex_lt x y -> lex_lt y z -> lex_lt x z.
Proof. unfold lex_lt. lia. Qed.

Lemma lex_lt_irrefl x : ~ lex_lt x x.
Proof. unfold lex_lt. lia. Qed.

Lemma lex_trichotomy a b : lex_lt a b \/ a = b \/ lex_lt b a.
Proof.
  destruct a as [x y], b as [x' y']. unfold lex_lt; simpl.
  destruct (Z.lt_trichotomy x x') as [|[->|]], (Z.lt_trichotomy y y') as [|[->|]];
    first [left; lia | right; left; reflexivity | right; right; lia].
Qed.

(** The position of channel [i] in a multiplexed id: a tag of -1 means that no
    message of that second was seen. *)
Definition position (t : Z) (ts : list Z) (i : nat) : Z * Z :=
  match ts !! i with
  | Some v => if v =? -1 then (t - 1, 32767) else (t, v)
  | None => (t - 1, 32767)
  end.

Lemma nth_tag_lookup ts i v : ts !! i = Some v -> nth_tag ts (Z.of_nat i) = Ret v.
Proof.
  intros H. unfold nth_tag. rewrite (proj2 (Z.ltb_ge _ _)) by lia. by rewrite Nat2Z.id, H.
Qed.

Lemma id_tags_count th id ts : 0 <= tagcount id -> id_tags th id = Ret ts -> length ts = Z.to_nat (tagcount id).
Proof.
  intros Hc H. destruct (id_tags_inv _ _ _ H) as [(_ & ? & _ & -> & ?)|(_ & ? & ? & _ & _ & -> & ?)];
    rewrite length_take; lia.
Qed.

Lemma fixed0_set id v t a c : fixed0 (MsgId t (set_fixed0 id v) a c) = Ret v.
Proof. unfold fixed0, set_fixed0; simpl. by destruct (tag id) as [[|? ?]|]. Qed.

Lemma extract_spec th src ts n v dst :
  id_tags th src = Ret ts -> 1 <= tagcount src <= 255 -> 0 < time src ->
  ts !! n = Some v ->
  exists id', nchan_extract_from_multi_msgid th src (Z.of_nat n) dst = Ret (id', NGX_OK) /\
    fixed0 id' = Ret (position (time src) ts n).2 /\ time id' = (position (time src) ts n).1 /\
    tagcount id' = 1 /\ tagactive id' = 0.
Proof.
  intros Hts Hc Ht Hn. unfold nchan_extract_from_multi_msgid.
  rewrite wrapu_small by (unfold in_u; lia).
  rewrite (proj2 (Z.eqb_neq (time src) NCHAN_OLDEST_MSGID_TIME)),
    (proj2 (Z.eqb_neq (time src) NCHAN_NEWEST_MSGID_TIME)),
    (proj2 (Z.eqb_neq (time src) NCHAN_NTH_MSGID_TIME))
    by (unfold NCHAN_OLDEST_MSGID_TIME, NCHAN_NEWEST_MSGID_TIME, NCHAN_NTH_MSGID_TIME; lia).
  simpl. assert (Hcl : length ts = Z.to_nat (tagcount src)) by (apply (id_tags_count th); [lia|done]). apply lookup_lt_Some in Hn as Hlt.
  rewrite (proj2 (Z.leb_gt _ _)) by lia.
  replace (MsgId (time src) (tag src) (tagactive src) (tagcount src)) with src by by destruct src.
  rewrite Hts, bind_Ret, (nth_tag_lookup _ _ _ Hn), bind_Ret.
  unfold position. rewrite Hn. destruct (v =? -1); eexists; split_and!; try done; apply fixed0_set.
Qed.

(** C31.  What [nchan_extract_from_multi_msgid] asks of channel [n] is exact: a
    message of that channel follows the extracted id if and only if it is newer
    than what the multiplexed id says was seen, including when nothing of that
    second was seen and the extracted id points at the last conceivable message
    of the second before. *)
Theorem extract_exact th src ts n v dst :
  id_tags th src = Ret ts -> 1 <= tagcount src <= 255 -> 0 < time src -> ts !! n = Some v ->
  exists id' k', nchan_extract_from_multi_msgid th src (Z.of_nat n) dst = Ret (id', NGX_OK) /\
    fixed0 id' = Ret k' /\
    forall t k, 0 <= k <= 32767 ->
      (lex_lt (time id', k') (t, k) <-> time src < t \/ (t = time src /\ v < k)).
Proof.
  intros Hts Hc Ht Hn. destruct (extract_spec th src ts n v dst) as (id' & E & F & T & _); auto.
  exists id', (position (time src) ts n).2. split_and!; [done|done|].
  intros t k Hk. rewrite T. unfold position, lex_lt. rewrite Hn.
  destruct (Z.eqb_spec v (-1)); simpl; lia.
Qed.

Lemma extract_exact_witness :
  exists id' k',
    nchan_extract_from_multi_msgid ∅ (MsgId 50 (fixed [4; -1; 0; 0]) 0 2) (Z.of_nat 1) NCHAN_ZERO_MSGID
      = Ret (id', NGX_OK) /\ fixed0 id' = Ret k' /\
    forall t k, 0 <= k <= 32767 -> (lex_lt (time id', k') (t, k) <-> 50 < t \/ (t = 50 /\ -1 < k)).
Proof.
  apply (extract_exact ∅ (MsgId 50 (fixed [4; -1; 0; 0]) 0 2) [4; -1]);
    [reflexivity|simpl; lia|simpl; lia|reflexivity].
Defined.

(** ** Updating a subscriber's position *)

Definition merge1 (o v : Z) : Z := if v =? -1 then o else v.

Lemma merge_tags_spec os ns active i :
  length os = length ns ->
  (forall j o v, os !! j = Some o -> ns !! j = Some v -> active = i + Z.of_nat j ->
     v <> -1 -> o <> -1 -> o < v) ->
  merge_tags os ns active i = Ret (zip_with merge1 os ns).
Proof.
  revert ns i. induction os as [|o os IH]; intros [|v ns] i Hl Ha; simplify_eq/=; [done|].
  replace (if (active =? i) && negb (v =? -1) && negb (o =? -1) then o <? v else true) with true.
  2:{ destruct (Z.eqb_spec active i), (Z.eqb_spec v (-1)), (Z.eqb_spec o (-1)); simpl; try done.
      symmetry. apply Z.ltb_lt. apply (Ha O o v); simpl; auto; lia. }
  simpl. rewrite (IH ns (i + 1)); [|done|].
  - rewrite bind_Ret. unfold merge1 at 2. by destruct (v =? -1).
  - intros j o' v' Ho Hv Hact. apply (Ha (S j)); auto. lia.
Qed.

Lemma set_id_tags_spec th id ts vs :
  id_tags th id = Ret ts -> 1 <= tagcount id -> length vs = length ts ->
  exists th' id', set_id_tags th id vs = Ret (th', id') /\ id_tags th' id' = Ret vs /\
    time id' = time id /\ tagcount id' = tagcount id /\ tag id' = (match tag id with allocd p => allocd p | _ => tag id' end).
Proof.
  intros H Hc Hl. assert (Hn : length ts = Z.to_nat (tagcount id)) by (apply (id_tags_count th); [lia|done]). unfold set_id_tags.
  destruct (id_tags_inv _ _ _ H) as [(Hle & l & Et & -> & Hl')|(Hgt & q & b & Et & Hq & -> & Hl')].
  - rewrite (proj2 (Z.leb_le _ _)), Et by done. rewrite decide_True by lia.
    eexists _, _. split_and!; try done.
    rewrite id_tags_fixed; [|done|].
    + by rewrite take_app_length' by lia.
    + rewrite length_app, length_drop. lia.
  - rewrite (proj2 (Z.leb_gt _ _)), Et by done. unfold block_write. rewrite Hq.
    rewrite decide_True by lia. rewrite bind_Ret.
    eexists _, _. split_and!; try done.
    destruct id as [t0 tg a c]; simpl in *. subst tg.
    rewrite (id_tags_allocd _ _ _ _ _ (TB (malloced b) (vs ++ drop (length vs) (cells b))));
      simpl; [|done|apply lookup_insert_eq|rewrite length_app, length_drop; lia].
    by rewrite take_app_length' by lia.
Qed.

Lemma copy_same_count th dst src ds ts largetags new :
  id_tags th dst = Ret ds -> id_tags th src = Ret ts -> 1 <= tagcount src <= 255 ->
  tagcount dst = tagcount src ->
  exists th' dst', nchan_copy_msg_id th dst src largetags new = Ret (th', dst', NGX_OK) /\
    id_tags th' dst' = Ret ts /\ time dst' = time src /\ tagactive dst' = tagactive src /\
    tagcount dst' = tagcount src.
Proof.
  intros Hd Hs Hc Ec. unfold nchan_copy_msg_id. rewrite Ec, Z.eqb_refl, andb_false_r, bind_Ret.
  rewrite (wrapu_small 16) by (unfold in_u; lia).
  assert (Hn : length ts = Z.to_nat (tagcount src)) by (apply (id_tags_count th); [lia|done]).
  destruct (id_tags_inv _ _ _ Hs) as [(Hle & l & Et & -> & Hl')|(Hgt & q & b & Et & Hq & Ets & Hl')].
  - rewrite (proj2 (Z.leb_le _ _)) by done. eexists _, _. split_and!; try done.
  - rewrite (proj2 (Z.leb_gt _ _)) by done. rewrite Hs, bind_Ret, Z.eqb_refl. simpl.
    destruct (id_tags_inv _ _ _ Hd) as [(Hle & _)|(_ & q' & b' & Et' & Hq' & -> & Hl'')]; [lia|].
    rewrite Et'. unfold block_write. rewrite Hq', decide_True by lia. rewrite bind_Ret.
    eexists _, _. split_and!; try done.
    rewrite (id_tags_allocd _ _ _ _ _ (TB (malloced b') (ts ++ drop (length ts) (cells b'))));
      simpl; [|done|apply lookup_insert_eq|rewrite length_app, length_drop; lia].
    by rewrite take_app_length' by lia.
Qed.

Lemma update_spec pw th old new os ns largetags p :
  id_tags th old = Ret os -> id_tags th new = Ret ns ->
  2 <= tagcount new <= 255 -> tagcount old = tagcount new ->
  (time old = time new -> forall o v, os !! Z.to_nat (tagactive new) = Some o ->
     ns !! Z.to_nat (tagactive new) = Some v -> v <> -1 -> o <> -1 -> o < v) ->
  exists th' id' rs, nchan_update_multi_msgid pw th old new largetags p = Ret (th', id') /\
    id_tags th' id' = Ret rs /\ time id' = time new /\ tagactive id' = tagactive new /\
    tagcount id' = tagcount new /\
    rs = if time old =? time new then zip_with merge1 os ns else ns.
Proof.
  intros Ho Hn Hc Ec Hact. unfold nchan_update_multi_msgid.
  rewrite (proj2 (Z.eqb_neq (tagcount new) 1)) by lia.
  rewrite Ec, Z.ltb_irrefl, andb_false_r, bind_Ret.
  destruct (Z.eqb_spec (time old) (time new)) as [Et|Et]; simpl.
  - rewrite Z.eqb_refl. simpl. rewrite Ho, Hn, !bind_Ret.
    assert (length os = Z.to_nat (tagcount old)) by (apply (id_tags_count th); [lia|done]).
    assert (length ns = Z.to_nat (tagcount new)) by (apply (id_tags_count th); [lia|done]).
    rewrite merge_tags_spec; [|lia|].
    2:{ intros j o v Hj Hj' Ha. apply (Hact Et).
        - by replace (Z.to_nat (tagactive new)) with j by lia.
        - by replace (Z.to_nat (tagactive new)) with j by lia. }
    rewrite bind_Ret.
    destruct (set_id_tags_spec th old os (zip_with merge1 os ns)) as (th' & id' & -> & Hi & Hti & Hci & _);
      [done|lia|rewrite length_zip_with; lia|].
    rewrite bind_Ret. eexists _, _, _. split; [done|]. simpl. split_and!; try done; try congruence.
  - destruct (copy_same_count th old new os ns None p) as (th' & id' & -> & Hi & Ht & Ha & Hc');
      auto; [lia|]. rewrite bind_Ret. eauto 10.
Qed.

(** C30.  Delivering a message of a multiplexed channel never moves a
    subscriber's position in any of the channels back, and puts it exactly at
    the message in every channel the message's id carries a tag for. *)
Theorem update_never_moves_back pw th old new os ns largetags p :
  id_tags th old = Ret os -> id_tags th new = Ret ns ->
  2 <= tagcount new <= 255 -> tagcount old = tagcount new ->
  time old <= time new ->
  Forall (fun t => -1 <= t <= 32767) os -> Forall (fun t => -1 <= t <= 32767) ns ->
  (time old = time new -> forall j o v, os !! j = Some o -> ns !! j = Some v ->
     v <> -1 -> o <> -1 -> o < v) ->
  exists th' id' rs, nchan_update_multi_msgid pw th old new largetags p = Ret (th', id') /\
    id_tags th' id' = Ret rs /\ tagactive id' = tagactive new /\
    forall i, (i < length os)%nat ->
      lex_le (position (time old) os i) (position (time id') rs i) /\
      (forall v, ns !! i = Some v -> v <> -1 -> position (time id') rs i = (time new, v)).
Proof.
  intros Ho Hn Hc Ec Ht Fo Fn Hnew.
  destruct (update_spec pw th old new os ns largetags p) as (th' & id' & rs & E & Er & Et & Ea & Ecn & Ers); eauto.
  exists th', id', rs. split_and!; auto. intros i Hi.
  assert (length os = Z.to_nat (tagcount old)) by (apply (id_tags_count th); [lia|done]).
    assert (length ns = Z.to_nat (tagcount new)) by (apply (id_tags_count th); [lia|done]).
  destruct (lookup_lt_is_Some_2 os i) as [o Eo]; [lia|].
  destruct (lookup_lt_is_Some_2 ns i) as [v Ev]; [lia|].
  rewrite Forall_forall in Fo, Fn.
  assert (-1 <= o <= 32767) by (eapply Fo, list_elem_of_lookup_2; eauto).
  assert (-1 <= v <= 32767) by (eapply Fn, list_elem_of_lookup_2; eauto).
  assert (exists r, rs !! i = Some r /\ r = if time old =? time new then merge1 o v else v) as (r & Erl & Er').
  { destruct (time old =? time new); subst rs; [|eauto].
    rewrite lookup_zip_with, Eo. simpl. rewrite Ev. simpl. eauto. }
  unfold position. rewrite Et, Eo, Erl. split.
  - unfold lex_le, lex_lt, merge1 in *. destruct (Z.eqb_spec (time old) (time new)) as [E1|E1].
    + specialize (Hnew E1 i o v Eo Ev).
      destruct (Z.eqb_spec v (-1)) as [Ev1|Ev1]; subst r; rewrite E1; [by left|].
      rewrite (proj2 (Z.eqb_neq v (-1))) by done.
      right. destruct (Z.eqb_spec o (-1)); simpl; lia.
    + subst r. destruct (Z.eqb_spec v (-1)), (Z.eqb_spec o (-1)); simpl; try (right; lia).
      destruct (decide (time old = time new - 1 /\ o = 32767)) as [[-> ->]|]; [by left|right; lia].
  - intros v' Ev' Hv'. rewrite Ev in Ev'. injection Ev' as <-. unfold merge1 in Er'.
    rewrite (proj2 (Z.eqb_neq v (-1))) in Er' by done.
    assert (r = v) as -> by (by destruct (time old =? time new)).
    by rewrite (proj2 (Z.eqb_neq v (-1))).
Qed.

Lemma update_never_moves_back_witness :
  exists th' id' rs,
    nchan_update_multi_msgid (fun _ => [0; 0; 0; 0]) ∅ (MsgId 50 (fixed [4; -1; 0; 0]) 0 2)
      (MsgId 50 (fixed [-1; 3; 0; 0]) 1 2) None None = Ret (th', id') /\
    id_tags th' id' = Ret rs /\ tagactive id' = 1 /\
    forall i, (i < length [4; -1]%Z)%nat ->
      lex_le (position 50 [4; -1] i) (position (time id') rs i) /\
      (forall v, [-1; 3] !! i = Some v -> v <> -1 -> position (time id') rs i = (50, v)).
Proof.
  apply (update_never_moves_back _ ∅ (MsgId 50 (fixed [4; -1; 0; 0]) 0 2)
    (MsgId 50 (fixed [-1; 3; 0; 0]) 1 2) [4; -1] [-1; 3]);
    try reflexivity; try (simpl; lia); try (repeat constructor; lia).
  intros _ [|[|[|j]]] o v Ho Hv Hv' Ho'; simplify_eq/=.
Defined.

(** ** The order of the spool tree *)

(** Lexicographic comparison of lists of the same length. *)
Fixpoint lexcmp (xs ys : list Z) : Z :=
  match xs, ys with
  | x :: xs', y :: ys' => if y <? x then 1 else if x <? y then -1 else lexcmp xs' ys'
  | _, _ => 0
  end.

Lemma lexcmp_antisym xs ys : lexcmp ys xs = - lexcmp xs ys.
Proof.
  revert ys. induction xs as [|x xs IH]; intros [|y ys]; simpl; try done.
  destruct (Z.ltb_spec y x), (Z.ltb_spec x y); try lia. apply IH.
Qed.

Lemma lexcmp_0 xs ys : length xs = length ys -> lexcmp xs ys = 0 <-> xs = ys.
Proof.
  revert ys. induction xs as [|x xs IH]; intros [|y ys] Hl; simplify_eq/=; try done.
  destruct (Z.ltb_spec y x), (Z.ltb_spec x y); try lia; try (split; [lia|intros; simplify_eq; lia]).
  rewrite IH by done. split; [intros ->; f_equal; lia|intros; by simplify_eq].
Qed.

Lemma lexcmp_trans xs ys zs :
  length xs = length ys -> length ys = length zs ->
  lexcmp xs ys = -1 -> lexcmp ys zs = -1 -> lexcmp xs zs = -1.
Proof.
  revert ys zs. induction xs as [|x xs IH]; intros [|y ys] [|z zs] L1 L2; simplify_eq/=; try done.
  destruct (Z.ltb_spec y x), (Z.ltb_spec x y), (Z.ltb_spec z y), (Z.ltb_spec y z),
    (Z.ltb_spec z x), (Z.ltb_spec x z); try lia. by apply IH.
Qed.

Definition pad_tags (k : nat) (ts : list Z) : list Z := take k ts ++ replicate (k - length ts) (-1).

(** What the comparison looks at: the second, and the tags completed with -1. *)
Definition spool_key (t : Z) (ts : list Z) : list Z := t :: pad_tags 255 ts.

Lemma pad_tags_length k ts : length (pad_tags k ts) = k.
Proof. unfold pad_tags. rewrite length_app, length_take, length_replicate. lia. Qed.

Lemma pad_tags_cons k t ts : pad_tags (S k) (t :: ts) = t :: pad_tags k ts.
Proof. reflexivity. Qed.

Lemma pad_tags_nil k : pad_tags k [] = replicate k (-1).
Proof. unfold pad_tags. by rewrite take_nil, Nat.sub_0_r. Qed.

Lemma lexcmp_same xs : lexcmp xs xs = 0.
Proof. by apply lexcmp_0. Qed.

Lemma pad_tags_step k us :
  pad_tags (S k) us = default (-1) (us !! O) :: pad_tags k (drop 1 us).
Proof. destruct us as [|u us]; [by rewrite drop_nil, !pad_tags_nil|by rewrite pad_tags_cons]. Qed.

Lemma pad_tags_more k m ts us :
  (length ts <= k)%nat -> (length us <= k)%nat ->
  lexcmp (pad_tags (k + m) ts) (pad_tags (k + m) us) = lexcmp (pad_tags k ts) (pad_tags k us).
Proof.
  revert ts us. induction k as [|k IH]; intros ts us Ht Hu.
  - destruct ts, us; simpl in *; try lia. by rewrite !lexcmp_same.
  - change (S k + m)%nat with (S (k + m)). rewrite !pad_tags_step. simpl lexcmp.
    do 2 (destruct (_ <? _); [done|]). apply IH; rewrite length_drop; lia.
Qed.

(** The read of one tag, out of range or not. *)
Lemma read_or_missing ts n i :
  (n <= length ts)%nat ->
  (if Z.of_nat i <? Z.of_nat n then nth_tag ts (Z.of_nat i) else Ret (-1))
  = Ret (default (-1) (take n ts !! i)).
Proof.
  intros H. destruct (Z.ltb_spec (Z.of_nat i) (Z.of_nat n)).
  - destruct (lookup_lt_is_Some_2 ts i) as [v Ev]; [lia|].
    rewrite (nth_tag_lookup _ _ _ Ev), lookup_take_lt, Ev by lia. done.
  - by rewrite lookup_take_ge by lia.
Qed.

Lemma compare_tags_loop_spec ts1 ts2 n1 n2 k i :
  (n1 <= length ts1)%nat -> (n2 <= length ts2)%nat ->
  compare_tags_loop ts1 ts2 (Z.of_nat n1) (Z.of_nat n2) k (Z.of_nat i)
  = Ret (lexcmp (pad_tags k (drop i (take n1 ts1))) (pad_tags k (drop i (take n2 ts2)))).
Proof.
  intros H1 H2. revert i. induction k as [|k IH]; intros i; [done|].
  simpl compare_tags_loop. rewrite !read_or_missing, !bind_Ret by done.
  rewrite !pad_tags_step, !lookup_drop, !Nat.add_0_r, !drop_drop. simpl.
  do 2 (destruct (_ <? _); [done|]).
  replace (Z.of_nat i + 1) with (Z.of_nat (S i)) by lia. rewrite IH. by rewrite Nat.add_1_r.
Qed.

Lemma id_tags_array th id ts :
  id_tags th id = Ret ts -> exists a, id_array th id = Ret a /\
    ts = take (Z.to_nat (tagcount id)) a /\ (Z.to_nat (tagcount id) <= length a)%nat.
Proof. unfold id_tags. intros H. inv_outcome. case_decide; inv_outcome. eauto. Qed.

Lemma spool_rbtree_compare_spec th id1 id2 ts1 ts2 :
  id_tags th id1 = Ret ts1 -> id_tags th id2 = Ret ts2 ->
  0 <= tagcount id1 <= 255 -> 0 <= tagcount id2 <= 255 ->
  spool_rbtree_compare th id1 id2 = Ret (lexcmp (spool_key (time id1) ts1) (spool_key (time id2) ts2)).
Proof.
  intros H1 H2 C1 C2. unfold spool_rbtree_compare, spool_key. simpl.
  do 2 (destruct (_ <? _); [done|]).
  destruct (id_tags_array _ _ _ H1) as (a1 & -> & -> & L1).
  destruct (id_tags_array _ _ _ H2) as (a2 & -> & -> & L2).
  rewrite !bind_Ret, !wrapu_small by (unfold in_u; lia).
  set (n1 := Z.to_nat (tagcount id1)) in *. set (n2 := Z.to_nat (tagcount id2)) in *.
  replace (tagcount id1) with (Z.of_nat n1) by lia. replace (tagcount id2) with (Z.of_nat n2) by lia.
  rewrite (compare_tags_loop_spec _ _ _ _ _ O) by done. rewrite !drop_0. f_equal.
  set (k := Z.to_nat _). assert (n1 <= k /\ n2 <= k /\ k <= 255)%nat as (K1 & K2 & K3).
  { subst k. destruct (Z.ltb_spec (Z.of_nat n2) (Z.of_nat n1)); lia. }
  replace 255%nat with (k + (255 - k))%nat by lia.
  rewrite pad_tags_more by (rewrite length_take; lia). done.
Qed.

(** [spool_rbtree_compare] is a total order on readable ids of at most 255
    tags: it is antisymmetric and transitive, always returns -1, 0 or 1, and
    for ids with the same number of tags it returns 0 exactly on the ids
    [msg_ids_equal] identifies. *)
Theorem spool_compare_total_order th a b c ta tb tc :
  id_tags th a = Ret ta -> id_tags th b = Ret tb -> id_tags th c = Ret tc ->
  0 <= tagcount a <= 255 -> 0 <= tagcount b <= 255 -> 0 <= tagcount c <= 255 ->
  (exists r, spool_rbtree_compare th a b = Ret r /\ spool_rbtree_compare th b a = Ret (- r) /\ -1 <= r <= 1) /\
  (spool_rbtree_compare th a b = Ret (-1) -> spool_rbtree_compare th b c = Ret (-1) ->
   spool_rbtree_compare th a c = Ret (-1)) /\
  (tagcount a = tagcount b ->
   spool_rbtree_compare th a b = Ret 0 <-> msg_ids_equal th a b = Ret true).
Proof.
  intros Ha Hb Hc Ca Cb Cc.
  rewrite !(spool_rbtree_compare_spec th a b ta tb), !(spool_rbtree_compare_spec th b a tb ta),
    !(spool_rbtree_compare_spec th a c ta tc), !(spool_rbtree_compare_spec th b c tb tc) by done.
  assert (forall t u, length (spool_key t u) = 256%nat) as Hlen.
  { intros. unfold spool_key. simpl. by rewrite pad_tags_length. }
  split_and!.
  - eexists. split; [done|]. rewrite lexcmp_antisym. split; [done|].
    generalize (spool_key (time a) ta) (spool_key (time b) tb).
    induction l as [|x l IH]; intros [|y l']; simpl; try lia.
    do 2 (destruct (_ <? _); [lia|]). apply IH.
  - intros E1 E2. apply (inj Ret) in E1, E2. f_equal.
    apply (lexcmp_trans _ (spool_key (time b) tb)); rewrite ?Hlen; done.
  - intros E. unfold msg_ids_equal. rewrite E, Z.eqb_refl, orb_false_r, Ha, Hb, !bind_Ret.
    assert (length ta = length tb) as L.
    { rewrite (id_tags_count th a ta), (id_tags_count th b tb), E by (done || lia). done. }
    assert (length tb <= 255)%nat by (rewrite (id_tags_count th b tb) by (done || lia); lia).
    destruct (Z.eqb_spec (time a) (time b)) as [Et|Et]; cbn [negb].
    + split.
      * intros H0%(inj Ret). apply lexcmp_0 in H0; [|by rewrite !Hlen]. unfold spool_key, pad_tags in H0.
        injection H0 as _ H0. rewrite !take_ge, L in H0 by lia.
        apply app_inj_1 in H0 as [-> _]; [|done]. by rewrite bool_decide_eq_true_2.
      * intros [= H0%bool_decide_eq_true]. subst tb. rewrite Et. by rewrite lexcmp_same.
    + split; [|done]. intros H0%(inj Ret). apply lexcmp_0 in H0; [|by rewrite !Hlen].
      unfold spool_key in H0. by injection H0.
Qed.

Lemma spool_compare_total_order_witness :
  (exists r, spool_rbtree_compare ∅ (MsgId 7 (fixed [1; -1; 0; 0]) 0 2) (MsgId 7 (fixed [1; 2; 0; 0]) 1 2) = Ret r /\
     spool_rbtree_compare ∅ (MsgId 7 (fixed [1; 2; 0; 0]) 1 2) (MsgId 7 (fixed [1; -1; 0; 0]) 0 2) = Ret (- r) /\
     -1 <= r <= 1) /\
  spool_rbtree_compare ∅ (MsgId 7 (fixed [1; -1; 0; 0]) 0 2) (MsgId 8 (fixed [0; 0; 0; 0]) 0 1) = Ret (-1).
Proof.
  destruct (spool_compare_total_order ∅ (MsgId 7 (fixed [1; -1; 0; 0]) 0 2) (MsgId 7 (fixed [1; 2; 0; 0]) 1 2)
    (MsgId 8 (fixed [0; 0; 0; 0]) 0 1) [1; -1] [1; 2] [0]) as (H1 & H2 & _);
    try reflexivity; try (simpl; lia).
  split; [exact H1|]. apply H2; reflexivity.
Defined.
