(* ===== verification/Msg.v ===== *)
(** * Messages ([util/nchan_msg.c], [store/memory/memstore.c])

    The message structure, its reservations and derived messages, the layout
    of a message in shared memory, and when the store may free one. *)

From S2P Require Import Prelude Nginx MsgId MsgIdFacts.

(** ** Data *)

Inductive nchan_msg_storage_t :=
  | NCHAN_MSG_SHARED
  | NCHAN_MSG_HEAP
  | NCHAN_MSG_POOL
  | NCHAN_MSG_STACK.
Global Instance nchan_msg_storage_eq_dec : EqDecision nchan_msg_storage_t.
Proof. solve_decision. Defined.

(** [ngx_file_t]: its name, and whether a descriptor is open. *)
Record ngx_file_t := File { file_name : bytes; fd_open : bool }.

(** [ngx_buf_t]: its flags, its content in memory and the file it refers to. *)
Record ngx_buf_t := Buf {
  in_memory : bool;            (* temporary, memory or mmap *)
  in_file : bool;
  buf_content : bytes;         (* pos .. last *)
  buf_file_size : Z;           (* file_last - file_pos *)
  buf_file : option ngx_file_t;
  last_buf : bool;
}.

Definition ngx_buf_in_memory_only (b : ngx_buf_t) : bool := in_memory b && negb (in_file b).
Definition ngx_buf_size (b : ngx_buf_t) : Z :=
  if in_memory b then Z.of_nat (length (buf_content b)) else buf_file_size b.

Inductive nchan_msg_compression_type_t :=
  | NCHAN_MSG_COMPRESSION_INVALID
  | NCHAN_MSG_NO_COMPRESSION
  | NCHAN_MSG_COMPRESSION_WEBSOCKET_PERMESSAGE_DEFLATE.

Record nchan_compressed_msg_t := Compressed { c_buf : ngx_buf_t; compression : nchan_msg_compression_type_t }.

Record nchan_msg_t := Msg {
  id : nchan_msg_id_t;
  prev_id : nchan_msg_id_t;
  content_type : option bytes;
  eventsource_event : option bytes;
  buf : ngx_buf_t;
  expires : Z;
  refcount : Z;                      (* ngx_atomic_int_t *)
  parent : option positive;
  compressed : option nchan_compressed_msg_t;
  storage : nchan_msg_storage_t;
}.

Definition MSG_REFCOUNT_INVALID : Z := -9000.

Definition set_refcount (m : nchan_msg_t) (r : Z) : nchan_msg_t :=
  Msg (id m) (prev_id m) (content_type m) (eventsource_event m) (buf m) (expires m) r
      (parent m) (compressed m) (storage m).
Definition set_id (m : nchan_msg_t) (i : nchan_msg_id_t) : nchan_msg_t :=
  Msg i (prev_id m) (content_type m) (eventsource_event m) (buf m) (expires m) (refcount m)
      (parent m) (compressed m) (storage m).
Definition set_prev_id (m : nchan_msg_t) (i : nchan_msg_id_t) : nchan_msg_t :=
  Msg (id m) i (content_type m) (eventsource_event m) (buf m) (expires m) (refcount m)
      (parent m) (compressed m) (storage m).
Definition set_expires (m : nchan_msg_t) (e : Z) : nchan_msg_t :=
  Msg (id m) (prev_id m) (content_type m) (eventsource_event m) (buf m) e (refcount m)
      (parent m) (compressed m) (storage m).

(** ** Reservations *)

(** Messages by address. *)
Notation msgs := (gmap positive nchan_msg_t).

Definition msg_refcount_valid (m : nchan_msg_t) : bool := 0 <=? refcount m.

(** An atomic compare-and-set from 0; the flag says whether it took place. *)
Definition msg_refcount_invalidate_if_zero (m : nchan_msg_t) : nchan_msg_t * bool :=
  if refcount m =? 0 then (set_refcount m MSG_REFCOUNT_INVALID, true) else (m, false).

Definition msg_refcount_invalidate (m : nchan_msg_t) : nchan_msg_t := set_refcount m MSG_REFCOUNT_INVALID.

(** [fuel] bounds the chain of parents. *)
Fixpoint msg_reserve (fuel : nat) (ms : msgs) (p : positive) : outcome (msgs * Z) :=
  match fuel with
  | O => NoFuel
  | S fuel' =>
      match ms !! p with
      | None => Crash
      | Some m =>
          match parent m with
          | Some q =>
              c_assert (negb (bool_decide (storage m = NCHAN_MSG_SHARED)));;
              msg_reserve fuel' (<[p := set_refcount m (s64 (refcount m + 1))]> ms) q
          | None =>
              let m' := set_refcount m (s64 (refcount m + 1)) in
              c_assert (0 <=? refcount m');;
              Ret (<[p := m']> ms, NGX_OK)
          end
      end
  end.

Fixpoint msg_release (fuel : nat) (th : tag_heap) (ms : msgs) (p : positive) :
    outcome (tag_heap * msgs * Z) :=
  match fuel with
  | O => NoFuel
  | S fuel' =>
      match ms !! p with
      | None => Crash
      | Some m =>
          match parent m with
          | Some q =>
              c_assert (negb (bool_decide (storage m = NCHAN_MSG_SHARED)));;
              let m' := set_refcount m (s64 (refcount m - 1)) in
              c_assert (0 <=? refcount m');;
              '(th', ms') ←
                (if refcount m' =? 0 then
                   match storage m with
                   | NCHAN_MSG_POOL =>
                       '(th', i, _) ← nchan_free_msg_id th (id m');
                       Ret (th', <[p := set_id m' i]> ms)
                   | NCHAN_MSG_HEAP =>
                       '(th', i, _) ← nchan_free_msg_id th (id m');
                       Ret (th', delete p ms)
                   | _ => Ret (th, <[p := m']> ms)
                   end
                 else Ret (th, <[p := m']> ms));
              msg_release fuel' th' ms' q
          | None =>
              c_assert (0 <? refcount m);;
              Ret (th, <[p := set_refcount m (s64 (refcount m - 1))]> ms, NGX_OK)
          end
      end
  end.

(** ** Derived messages *)

Definition get_shared_msg (ms : msgs) (p : positive) : outcome positive :=
  match ms !! p with
  | None => Crash
  | Some m =>
      match storage m with
      | NCHAN_MSG_SHARED => c_assert (bool_decide (parent m = None));; Ret p
      | _ =>
          match parent m with
          | None => Crash
          | Some q =>
              match ms !! q with
              | None => Crash
              | Some mq => c_assert (bool_decide (storage mq = NCHAN_MSG_SHARED));; Ret q
              end
          end
      end
  end.

(** [new] is the address of the new structure, [None] when its allocation failed. *)
Definition msg_derive_init (ms : msgs) (par : positive) (new : option positive)
    (st : nchan_msg_storage_t) : outcome (msgs * option positive) :=
  shared ← get_shared_msg ms par;
  match new with
  | None => Ret (ms, None)
  | Some p =>
      match ms !! shared with
      | None => Crash
      | Some m =>
          let i := MsgId (time (id m)) (tag (id m)) (tagactive (id m)) 1 in
          Ret (<[p := Msg i (prev_id m) (content_type m) (eventsource_event m) (buf m) (expires m) 0
                        (Some shared) (compressed m) st]> ms, Some p)
      end
  end.

(** The id of the message at [p], replaced. *)
Definition write_id (ms : msgs) (p : positive) (i : nchan_msg_id_t) : outcome msgs :=
  match ms !! p with Some m => Ret (<[p := set_id m i]> ms) | None => Crash end.

Definition msg_id_at (ms : msgs) (p : positive) : outcome nchan_msg_id_t :=
  match ms !! p with Some m => Ret (id m) | None => Crash end.

(** [newtags] is what the allocation of the tag array returns, when there is one. *)
Definition nchan_msg_derive_alloc (th : tag_heap) (ms : msgs) (par : positive)
    (new newtags : option positive) : outcome (tag_heap * msgs * option positive) :=
  '(ms1, r) ← msg_derive_init ms par new NCHAN_MSG_HEAP;
  match r with
  | None => Ret (th, ms1, None)
  | Some p =>
      pid ← msg_id_at ms1 par;
      '(th', i, rc) ← nchan_copy_new_msg_id th pid newtags;
      ms2 ← write_id ms1 p i;
      if rc =? NGX_OK then Ret (th', ms2, Some p) else Ret (th', delete p ms2, None)
  end.

Definition nchan_msg_derive_palloc (th : tag_heap) (ms : msgs) (par : positive)
    (new newtags : option positive) : outcome (tag_heap * msgs * option positive) :=
  '(ms1, r) ← msg_derive_init ms par new NCHAN_MSG_POOL;
  match r with
  | None => Ret (th, ms1, None)
  | Some p =>
      pid ← msg_id_at ms1 par;
      '(th', i, rc) ← nchan_copy_new_msg_id th pid newtags;
      ms2 ← write_id ms1 p i;
      if rc =? NGX_OK then Ret (th', ms2, Some p) else Ret (th', ms2, None)
  end.

Definition nchan_msg_derive_stack (th : tag_heap) (ms : msgs) (par : positive)
    (child : option positive) (largetags newtags : option positive) :
    outcome (tag_heap * msgs * option positive) :=
  '(ms1, r) ← msg_derive_init ms par child NCHAN_MSG_STACK;
  match r with
  | None => Ret (th, ms1, None)
  | Some p =>
      pid ← msg_id_at ms1 par;
      own ← msg_id_at ms1 p;
      '(th', i, rc) ← nchan_copy_msg_id th own pid largetags newtags;
      ms2 ← write_id ms1 p i;
      if rc =? NGX_OK then Ret (th', ms2, Some p) else Ret (th', ms2, None)
  end.

(** [update_subscriber_last_msg_id]: an id that does not follow the
    subscriber's is logged, and taken all the same.  The result says whether
    the warning was logged. *)
Definition update_subscriber_last_msg_id (ptr_words : positive -> list Z) (th : tag_heap)
    (last_msgid : nchan_msg_id_t) (m : option nchan_msg_t) (new : option positive) :
    outcome (tag_heap * nchan_msg_id_t * bool) :=
  match m with
  | None => Ret (th, last_msgid, false)
  | Some m =>
      v ← verify_msg_id th last_msgid (prev_id m) (id m);
      '(th', i) ← nchan_update_multi_msgid ptr_words th last_msgid (id m) None new;
      Ret (th', i, match v with inl _ => false | inr _ => true end)
  end.

(** ** Freeing stored messages ([store/memory/memstore.c]) *)

Definition nchan_memstore_store_msg_ready_to_reap_generic (now : Z) (m : nchan_msg_t)
    (respect_expire force : bool) : nchan_msg_t * Z :=
  if negb force then
    if respect_expire && (now <? expires m) then (m, NGX_DECLINED)
    else
      let '(m', ok) := msg_refcount_invalidate_if_zero m in
      if (ok : bool) then (m', NGX_OK) else (m', NGX_DECLINED)
  else
    let '(m', ok) := msg_refcount_invalidate_if_zero m in
    if (ok : bool) then (m', NGX_OK) else (msg_refcount_invalidate m', NGX_OK).

Definition nchan_memstore_store_msg_ready_to_reap (now : Z) (m : nchan_msg_t) (force : bool) :=
  nchan_memstore_store_msg_ready_to_reap_generic now m false force.

Definition nchan_memstore_store_msg_ready_to_reap_wait_util_expired (now : Z) (m : nchan_msg_t) (force : bool) :=
  nchan_memstore_store_msg_ready_to_reap_generic now m true force.

(** The files a reaped message leaves behind are closed and deleted. *)
Definition buf_files (b : ngx_buf_t) : list bytes :=
  match buf_file b with Some f => [file_name f] | None => [] end.

Definition memstore_reap_message (th : tag_heap) (ms : msgs) (p : positive) :
    outcome (tag_heap * msgs * list bytes) :=
  match ms !! p with
  | None => Crash
  | Some m =>
      c_assert (negb (msg_refcount_valid m));;
      let deleted := buf_files (buf m) ++
        match compressed m with Some c => buf_files (c_buf c) | None => [] end in
      '(th1, _, _) ← nchan_free_msg_id th (id m);
      '(th2, _, _) ← nchan_free_msg_id th1 (prev_id m);
      Ret (th2, delete p ms, deleted)
  end.

(** ** Size and layout in shared memory *)

Section layout.
(** The sizes of the C structures. *)
Context (sizeof_msg sizeof_str sizeof_file sizeof_compressed : Z).

Definition memstore_buf_memsize (b : ngx_buf_t) : Z :=
  let sz := if ngx_buf_in_memory_only b then ngx_buf_size b else 0 in
  match buf_file b with
  | Some f => if in_file b then sizeof_file + Z.of_nat (length (file_name f)) + 1 else sz
  | None => sz
  end.

Definition memstore_msg_memsize (m : nchan_msg_t) : Z :=
  let str s := match s with Some s => Z.of_nat (length s) + sizeof_str | None => 0 end in
  let compressed_sz :=
    match compressed m with
    | Some c => sizeof_compressed + memstore_buf_memsize (c_buf c)
    | None => 0
    end in
  sizeof_msg + (memstore_buf_memsize (buf m) + str (content_type m) + str (eventsource_event m) + compressed_sz).

(** Copies into the block advance [cur]; the new string or buffer, and the new
    value of [cur]. *)
Definition copy_preallocated_str_to_cur (src : bytes) (cur : Z) : bytes * Z :=
  (src, cur + Z.of_nat (length src)).

Definition copy_buf_contents (b : ngx_buf_t) (rest : Z) : ngx_buf_t * Z :=
  let '(file, rest1) :=
    match buf_file b with
    | Some f =>
        let '(name, r) := copy_preallocated_str_to_cur (file_name f) (rest + sizeof_file) in
        (Some (File name false), r + 1)
    | None => (None, rest)
    end in
  let body := if ngx_buf_in_memory_only b then ngx_buf_size b else 0 in
  let '(content, rest2) :=
    if 0 <? body then copy_preallocated_str_to_cur (buf_content b) rest1 else (buf_content b, rest1) in
  (Buf (in_memory b) (in_file b) content (buf_file_size b) file (last_buf b), rest2).

Definition set_last_buf (b : ngx_buf_t) : ngx_buf_t :=
  Buf (in_memory b) (in_file b) (buf_content b) (buf_file_size b) (buf_file b) true.

Definition copy_optional_str (s : option bytes) (cur : Z) : option bytes * Z :=
  match s with
  | Some s => let '(s', c) := copy_preallocated_str_to_cur s (cur + sizeof_str) in (Some s', c)
  | None => (None, cur)
  end.

(** [ok] says whether [shm_alloc] succeeded.  The second component of the
    result is the number of bytes written to the block, whose size is
    [memstore_msg_memsize]. *)
Definition create_shm_msg (m : nchan_msg_t) (ok : bool) : outcome (option (nchan_msg_t * Z)) :=
  if negb ok then Ret None
  else
    c_assert (tagcount (id m) =? 1);;
    let cur := sizeof_msg in
    let '(ct, cur) := copy_optional_str (content_type m) cur in
    let '(ev, cur) := copy_optional_str (eventsource_event m) cur in
    let '(b, cur) := copy_buf_contents (buf m) cur in
    let '(comp, cur) :=
      match compressed m with
      | Some c =>
          let '(cb, cur) := copy_buf_contents (c_buf c) (cur + sizeof_compressed) in
          (Some (Compressed (set_last_buf cb) (compression c)), cur)
      | None => (None, cur)
      end in
    Ret (Some (Msg (id m) (prev_id m) ct ev (set_last_buf b) (expires m) (refcount m) None comp
                   NCHAN_MSG_SHARED, cur)).

(** A file is attached exactly to the buffers that are marked as in a file. *)
Definition buf_file_consistent (b : ngx_buf_t) : Prop := is_Some (buf_file b) <-> in_file b = true.

Lemma copy_buf_contents_size b rest :
  buf_file_consistent b ->
  (copy_buf_contents b rest).2 = rest + memstore_buf_memsize b.
Proof.
  intros C. unfold copy_buf_contents, memstore_buf_memsize, copy_preallocated_str_to_cur.
  unfold ngx_buf_in_memory_only, ngx_buf_size, buf_file_consistent in *.
  destruct (buf_file b) as [f|], (in_file b) eqn:E, (in_memory b); simpl;
    try (exfalso; by apply C); try (destruct C as [C1 C2]; by specialize (C2 eq_refl); destruct C2);
    try (destruct C as [C1 C2]; by specialize (C1 (ex_intro _ f eq_refl)));
    rewrite ?Z.ltb_irrefl; simpl; try lia.
  destruct (Z.ltb_spec 0 (Z.of_nat (length (buf_content b)))); simpl; lia.
Qed.

(** The shared-memory copy of a message fills the block it was allocated
    exactly, whatever parts the message has, as long as only the buffers that
    are in a file have one attached. *)
Theorem create_shm_msg_fills_block m :
  tagcount (id m) = 1 -> buf_file_consistent (buf m) ->
  (forall c, compressed m = Some c -> buf_file_consistent (c_buf c)) ->
  exists m', create_shm_msg m true = Ret (Some (m', memstore_msg_memsize m)) /\
    id m' = id m /\ content_type m' = content_type m /\ eventsource_event m' = eventsource_event m /\
    buf_content (buf m') = buf_content (buf m) /\ storage m' = NCHAN_MSG_SHARED /\ parent m' = None.
Proof.
  intros Hc Hb Hcomp. unfold create_shm_msg, memstore_msg_memsize. rewrite Hc. simpl.
  pose proof (fun r => copy_buf_contents_size (buf m) r Hb) as Sz.
  assert (forall r, buf_content (copy_buf_contents (buf m) r).1 = buf_content (buf m)) as Cn.
  { intros r. unfold copy_buf_contents. by destruct (buf_file (buf m)), (0 <? _). }
  assert (forall s cur, copy_optional_str s cur =
    (s, cur + match s with Some s => Z.of_nat (length s) + sizeof_str | None => 0 end)) as Cs.
  { intros [s|] cur; unfold copy_optional_str; simpl; f_equal; lia. }
  rewrite !Cs. simpl.
  match goal with |- context [copy_buf_contents (buf m) ?r] =>
    specialize (Sz r); specialize (Cn r); destruct (copy_buf_contents (buf m) r) as [b cur] end.
  simpl in Sz, Cn. subst cur.
  destruct (compressed m) as [c|] eqn:E.
  - pose proof (fun r => copy_buf_contents_size (c_buf c) r (Hcomp c eq_refl)) as Sz.
    match goal with |- context [copy_buf_contents (c_buf c) ?r] =>
      specialize (Sz r); destruct (copy_buf_contents (c_buf c) r) as [cb cur] end.
    simpl in Sz. subst cur. eexists. split; [do 3 f_equal; lia|]. by split_and!.
  - eexists. split; [do 3 f_equal; lia|]. by split_and!.
Qed.
End layout.

(** A memory buffer that still has a file attached is written past the end
    of the block: the size counts the file only for buffers marked as in a
    file, the copy writes it whenever there is one. *)
Theorem create_shm_msg_overruns sm ss sf sc m f :
  tagcount (id m) = 1 -> compressed m = None -> 0 <= sf ->
  in_file (buf m) = false -> buf_file (buf m) = Some f ->
  exists m' written, create_shm_msg sm ss sf sc m true = Ret (Some (m', written)) /\
    written - memstore_msg_memsize sm ss sf sc m = sf + Z.of_nat (length (file_name f)) + 1.
Proof.
  intros Hc Hn Hs Hi Hf. unfold create_shm_msg, memstore_msg_memsize, memstore_buf_memsize, copy_optional_str,
    copy_buf_contents, copy_preallocated_str_to_cur, ngx_buf_in_memory_only, ngx_buf_size.
  rewrite Hc, Hn, Hi, Hf. simpl.
  destruct (content_type m), (eventsource_event m), (in_memory (buf m)); simpl;
    try (destruct (Z.ltb_spec 0 (Z.of_nat (length (buf_content (buf m)))))); simpl;
    eexists _, _; (split; [reflexivity|lia]).
Qed.

Definition example_buf : ngx_buf_t := Buf true false (bytes_of "hi") 0 None false.
Definition example_msg : nchan_msg_t :=
  Msg (MsgId 100 (fixed [0; 0; 0; 0]) 0 1) NCHAN_ZERO_MSGID (Some (bytes_of "text/plain")) None
      example_buf 160 0 None None NCHAN_MSG_POOL.

Lemma create_shm_msg_fills_block_witness :
  exists m', create_shm_msg 200 16 64 96 example_msg true = Ret (Some (m', 228)) /\
    id m' = id example_msg /\ content_type m' = content_type example_msg /\
    eventsource_event m' = None /\ buf_content (buf m') = bytes_of "hi" /\
    storage m' = NCHAN_MSG_SHARED /\ parent m' = None.
Proof.
  apply (create_shm_msg_fills_block 200 16 64 96 example_msg); [reflexivity| |discriminate].
  split; [intros [? [=]]|discriminate].
Defined.

Lemma create_shm_msg_overruns_witness :
  exists m' written,
    create_shm_msg 200 16 64 96 (Msg (id example_msg) NCHAN_ZERO_MSGID None None
      (Buf true false (bytes_of "hi") 0 (Some (File (bytes_of "/tmp/1") false)) false) 160 0 None None NCHAN_MSG_POOL) true
      = Ret (Some (m', written)) /\
    written - memstore_msg_memsize 200 16 64 96 (Msg (id example_msg) NCHAN_ZERO_MSGID None None
      (Buf true false (bytes_of "hi") 0 (Some (File (bytes_of "/tmp/1") false)) false) 160 0 None None NCHAN_MSG_POOL)
    = 64 + 6 + 1.
Proof.
  apply (create_shm_msg_overruns 200 16 64 96 (Msg (id example_msg) NCHAN_ZERO_MSGID None None
      (Buf true false (bytes_of "hi") 0 (Some (File (bytes_of "/tmp/1") false)) false) 160 0 None None NCHAN_MSG_POOL)
      (File (bytes_of "/tmp/1") false)); (reflexivity || lia).
Defined.
