(* ===== verification/MsgRef.v ===== *)
(** * Message reservations

    A message may be freed by the store only when nobody holds it.  Holders
    reserve a shared message either directly or through a message derived from
    it, from any code path; the runs considered here are all sequences of
    reservations, releases, derivations and reaping attempts in which a client
    releases only what it holds and touches only live messages. *)

From S2P Require Import Prelude Nginx MsgId MsgIdFacts Msg.

(** A hold: the message that was reserved, and the shared message it stands for. *)
Notation hold := (positive * positive)%type.

Record msg_state := MS { tags : tag_heap; store : msgs; holds : list hold }.

Inductive msg_op :=
  | Publish (p : positive) (m : nchan_msg_t)
  | Reserve (p : positive)
  | Release (p : positive)
  | DeriveAlloc (par : positive) (new newtags : option positive)
  | DerivePalloc (par : positive) (new newtags : option positive)
  | Reap (p : positive) (now : Z).

Definition root (ms : msgs) (p : positive) : positive :=
  match ms !! p with
  | Some m => match parent m with Some q => q | None => p end
  | None => p
  end.

Fixpoint drop_hold (x : hold) (l : list hold) : list hold :=
  match l with
  | [] => []
  | y :: l' => if decide (x = y) then l' else y :: drop_hold x l'
  end.

(** The parent of a derived message is a shared one: chains have length two. *)
Definition run_op (s : msg_state) (o : msg_op) : outcome msg_state :=
  match o with
  | Publish p m => Ret (MS (tags s) (<[p := m]> (store s)) (holds s))
  | Reserve p =>
      '(ms, _) ← msg_reserve 2 (store s) p;
      Ret (MS (tags s) ms ((p, root (store s) p) :: holds s))
  | Release p =>
      '(th, ms, _) ← msg_release 2 (tags s) (store s) p;
      Ret (MS th ms (drop_hold (p, root (store s) p) (holds s)))
  | DeriveAlloc par new newtags =>
      '(th, ms, _) ← nchan_msg_derive_alloc (tags s) (store s) par new newtags;
      Ret (MS th ms (holds s))
  | DerivePalloc par new newtags =>
      '(th, ms, _) ← nchan_msg_derive_palloc (tags s) (store s) par new newtags;
      Ret (MS th ms (holds s))
  | Reap p now =>
      match store s !! p with
      | None => Crash
      | Some m =>
          let '(m', rc) := nchan_memstore_store_msg_ready_to_reap now m false in
          if rc =? NGX_OK then
            '(th, ms, _) ← memstore_reap_message (tags s) (<[p := m']> (store s)) p;
            Ret (MS th ms (holds s))
          else Ret (MS (tags s) (<[p := m']> (store s)) (holds s))
      end
  end.

Definition derivable (s : msg_state) (par : positive) (new newtags : option positive) : Prop :=
  (exists m ts, store s !! par = Some m /\ is_Some (store s !! root (store s) par) /\
     id_tags (tags s) (id m) = Ret ts /\ 0 <= tagcount (id m)) /\
  (forall p, new = Some p -> store s !! p = None /\
     forall q m, store s !! q = Some m -> parent m <> Some p) /\
  (forall b, newtags = Some b -> tags s !! b = None).

(** What a client may do. *)
Definition permitted (s : msg_state) (o : msg_op) : Prop :=
  match o with
  | Publish p m =>
      store s !! p = None /\ (forall q m', store s !! q = Some m' -> parent m' <> Some p) /\
      parent m = None /\ storage m = NCHAN_MSG_SHARED /\ refcount m = 0 /\
      tagcount (id m) = 1 /\ tagcount (prev_id m) = 1
  | Reserve p => is_Some (store s !! p) /\ is_Some (store s !! root (store s) p) /\
      Z.of_nat (length (holds s)) < 2 ^ 63 - 1
  | Release p => (p, root (store s) p) ∈ holds s
  | DeriveAlloc par new newtags => derivable s par new newtags
  | DerivePalloc par new newtags => derivable s par new newtags
  | Reap p now => exists m, store s !! p = Some m /\ parent m = None
  end.

Inductive msg_run : msg_state -> list msg_op -> msg_state -> Prop :=
  | msg_run_nil s : msg_run s [] s
  | msg_run_cons s o s' os s'' :
      permitted s o -> run_op s o = Ret s' -> msg_run s' os s'' -> msg_run s (o :: os) s''.

(** ** Counting holds *)

Definition held_by (p : positive) (hs : list hold) : Z :=
  Z.of_nat (length (filter (fun h => h.1 = p) hs)).
Definition held_root (p : positive) (hs : list hold) : Z :=
  Z.of_nat (length (filter (fun h => h.2 = p) hs)).

Lemma drop_hold_perm x l : x ∈ l -> l ≡ₚ x :: drop_hold x l.
Proof.
  induction l as [|y l IH]; [set_solver|]. intros H. simpl. case_decide; subst; [done|].
  assert (x ∈ l) as Hx by set_solver. rewrite (IH Hx) at 1. apply Permutation_swap.
Qed.

Lemma held_perm p l l' : l ≡ₚ l' -> held_by p l = held_by p l' /\ held_root p l = held_root p l'.
Proof. intros E. unfold held_by, held_root. by rewrite E. Qed.

Lemma held_by_cons p x l : held_by p (x :: l) = held_by p l + (if decide (x.1 = p) then 1 else 0).
Proof. unfold held_by. rewrite filter_cons. case_decide; simpl; lia. Qed.

Lemma held_root_cons p x l : held_root p (x :: l) = held_root p l + (if decide (x.2 = p) then 1 else 0).
Proof. unfold held_root. rewrite filter_cons. case_decide; simpl; lia. Qed.

Lemma held_bounds p l : 0 <= held_by p l <= Z.of_nat (length l) /\ 0 <= held_root p l <= Z.of_nat (length l).
Proof.
  unfold held_by, held_root.
  pose proof (length_filter (fun h : hold => h.1 = p) l).
  pose proof (length_filter (fun h : hold => h.2 = p) l). lia.
Qed.

(** ** The invariant *)

(** [p] owns the tag array [b], which it will free. *)
Definition owns (ms : msgs) (p b : positive) : Prop :=
  exists m, ms !! p = Some m /\ is_Some (parent m) /\ NCHAN_FIXED_MULTITAG_MAX < tagcount (id m) /\
    tag (id m) = allocd (Some b).

Definition msg_shape (ms : msgs) (m : nchan_msg_t) : Prop :=
  match parent m with
  | None => storage m = NCHAN_MSG_SHARED /\ tagcount (id m) = 1 /\ tagcount (prev_id m) = 1
  | Some q => (storage m = NCHAN_MSG_HEAP \/ storage m = NCHAN_MSG_POOL) /\
      (NCHAN_FIXED_MULTITAG_MAX < tagcount (id m) -> exists o, tag (id m) = allocd o) /\
      (forall mq, ms !! q = Some mq -> parent mq = None)
  end.

Record shape_inv (th : tag_heap) (ms : msgs) : Prop := {
  inv_msgs : forall p m, ms !! p = Some m -> msg_shape ms m;
  inv_blocks : forall p b, owns ms p b -> exists blk, th !! b = Some blk /\ malloced blk = true;
  inv_unique : forall p p' b, owns ms p b -> owns ms p' b -> p = p';
}.

(** The number of holds a reference count stands for. *)
Definition held (hs : list hold) (p : positive) (m : nchan_msg_t) : Z :=
  match parent m with None => held_root p hs | Some _ => held_by p hs end.

Record msg_inv (s : msg_state) : Prop := {
  inv_shape : shape_inv (tags s) (store s);
  inv_counts : forall p m, store s !! p = Some m -> refcount m = held (holds s) p m;
  inv_holds : forall p r, (p, r) ∈ holds s ->
    is_Some (store s !! p) /\ is_Some (store s !! r) /\ r = root (store s) p;
  inv_bound : Z.of_nat (length (holds s)) < 2 ^ 63;
}.

Lemma owns_insert ms p m m0 x b :
  ms !! p = Some m -> parent m0 = parent m -> id m0 = id m ->
  owns (<[p := m0]> ms) x b -> owns ms x b.
Proof.
  intros Hp E1 E2 (m' & Hm & H). destruct (decide (x = p)) as [->|].
  - rewrite lookup_insert_eq in Hm. simplify_eq. exists m. by rewrite <- E1, <- E2.
  - rewrite lookup_insert_ne in Hm by done. by exists m'.
Qed.

Lemma shape_set_refcount th ms p m r :
  shape_inv th ms -> ms !! p = Some m -> shape_inv th (<[p := set_refcount m r]> ms).
Proof.
  intros [I1 I2 I3] Hp.
  assert (forall x b, owns (<[p := set_refcount m r]> ms) x b -> owns ms x b) as Ho.
  { intros x b. by apply (owns_insert _ _ m). }
  split.
  - intros x mx Hx. assert (exists my, ms !! x = Some my /\ mx = set_refcount my (refcount mx)) as (my & Hy & ->).
    { destruct (decide (x = p)) as [->|]; [rewrite lookup_insert_eq in Hx; simplify_eq; eauto|].
      rewrite lookup_insert_ne in Hx by done. exists mx. split; [done|]. by destruct mx. }
    specialize (I1 x my Hy). unfold msg_shape in *. simpl. destruct (parent my) as [q|]; [|done].
    destruct I1 as (A & B & C). split_and!; auto. intros mq Hq.
    destruct (decide (q = p)) as [->|]; [rewrite lookup_insert_eq in Hq; simplify_eq; simpl; auto|].
    rewrite lookup_insert_ne in Hq by done. auto.
  - intros x b H%Ho. eauto.
  - intros x x' b H%Ho H'%Ho. eauto.
Qed.

Lemma root_set_refcount ms p m r x :
  ms !! p = Some m -> root (<[p := set_refcount m r]> ms) x = root ms x.
Proof.
  intros Hp. unfold root. destruct (decide (x = p)) as [->|].
  - by rewrite lookup_insert_eq, Hp.
  - by rewrite lookup_insert_ne.
Qed.

(** ** Reserving *)

Lemma reserve_shared ms p m :
  ms !! p = Some m -> parent m = None -> 0 <= refcount m < 2 ^ 63 - 1 ->
  msg_reserve 2 ms p = Ret (<[p := set_refcount m (refcount m + 1)]> ms, NGX_OK).
Proof.
  intros Hp E Hr. simpl. rewrite Hp, E, wraps_small by (unfold in_s; lia).
  unfold c_assert. by rewrite (proj2 (Z.leb_le _ _)) by lia.
Qed.

Lemma reserve_derived ms p q m mq :
  ms !! p = Some m -> parent m = Some q -> storage m <> NCHAN_MSG_SHARED ->
  ms !! q = Some mq -> parent mq = None ->
  0 <= refcount m < 2 ^ 63 - 1 -> 0 <= refcount mq < 2 ^ 63 - 1 ->
  msg_reserve 2 ms p =
    Ret (<[q := set_refcount mq (refcount mq + 1)]> (<[p := set_refcount m (refcount m + 1)]> ms), NGX_OK).
Proof.
  intros Hp E S Hq Eq Hr Hrq. assert (p <> q) by congruence.
  cbn [msg_reserve]. rewrite Hp, E, bool_decide_eq_false_2 by done.
  cbn [c_assert negb mbind outcome_bind msg_reserve].
  rewrite lookup_insert_ne, Hq, Eq, !wraps_small by (done || (unfold in_s; lia)).
  unfold c_assert. cbn [refcount set_refcount]. by rewrite (proj2 (Z.leb_le _ _)) by lia.
Qed.

Lemma shape_parent th ms p m q mq :
  shape_inv th ms -> ms !! p = Some m -> parent m = Some q -> ms !! q = Some mq ->
  parent mq = None /\ storage m <> NCHAN_MSG_SHARED.
Proof.
  intros I Hp E Hq. pose proof (inv_msgs _ _ I p m Hp) as S. unfold msg_shape in S. rewrite E in S.
  destruct S as ([S|S] & _ & S'); split; eauto; congruence.
Qed.

Lemma held_range s p m : msg_inv s -> store s !! p = Some m -> 0 <= refcount m <= Z.of_nat (length (holds s)).
Proof.
  intros I Hp. rewrite (inv_counts _ I _ _ Hp). unfold held.
  destruct (held_bounds p (holds s)). by destruct (parent m).
Qed.

Lemma reserve_step s p :
  msg_inv s -> permitted s (Reserve p) -> exists s', run_op s (Reserve p) = Ret s' /\ msg_inv s'.
Proof.
  intros I ([m Hp] & [mr Hr] & Hb). pose proof (held_range s p m I Hp) as Rp.
  pose proof (held_range s _ _ I Hr) as Rr. unfold root in Hr. rewrite Hp in Hr.
  assert (forall th ms', shape_inv th ms' ->
    (forall x mx, ms' !! x = Some mx -> refcount mx = held ((p, root (store s) p) :: holds s) x mx) ->
    (forall x, root ms' x = root (store s) x) -> (forall x, is_Some (store s !! x) -> is_Some (ms' !! x)) ->
    msg_inv (MS th ms' ((p, root (store s) p) :: holds s))) as Done.
  { intros th ms' Sh Cn Rt Dm. split; simpl; auto; [|lia].
    intros x r [E|H]%elem_of_cons.
    - injection E as -> ->. split_and!; auto. apply Dm. unfold root. rewrite Hp. eauto.
    - destruct (inv_holds _ I _ _ H) as (? & ? & ->). split_and!; auto. }
  unfold run_op. destruct (parent m) as [q|] eqn:E.
  - destruct (shape_parent _ _ p m q mr (inv_shape _ I) Hp E Hr) as [Eq Sq].
    assert (p <> q) by congruence.
    rewrite (reserve_derived _ p q m mr) by (done || lia).
    eexists. split; [reflexivity|]. apply Done.
    + apply shape_set_refcount; [|by rewrite lookup_insert_ne].
      apply shape_set_refcount; [apply I|done].
    + intros x mx Hx. unfold root. rewrite Hp, E. unfold held.
      rewrite held_by_cons, held_root_cons. simpl.
      destruct (decide (x = q)) as [->|Nq]; [|rewrite lookup_insert_ne in Hx by done;
        destruct (decide (x = p)) as [->|Np]; [|rewrite lookup_insert_ne in Hx by done]];
        rewrite ?lookup_insert_eq in Hx; simplify_eq/=.
      * rewrite Eq, decide_True, (inv_counts _ I _ _ Hr) by done. unfold held. by rewrite Eq.
      * rewrite E, decide_True, (inv_counts _ I _ _ Hp) by done. unfold held. by rewrite E.
      * rewrite (inv_counts _ I _ _ Hx). unfold held. rewrite !decide_False by congruence.
        by rewrite !Z.add_0_r.
    + intros x. rewrite !(root_set_refcount _ _ _ _ _) by (done || by rewrite lookup_insert_ne). done.
    + intros x Hx. by apply lookup_insert_is_Some', or_intror, lookup_insert_is_Some', or_intror.
  - rewrite (reserve_shared _ p m) by (done || lia).
    eexists. split; [reflexivity|]. apply Done.
    + apply shape_set_refcount; [apply I|done].
    + intros x mx Hx. unfold root. rewrite Hp, E. unfold held.
      rewrite held_by_cons, held_root_cons. simpl.
      destruct (decide (x = p)) as [->|Np]; [|rewrite lookup_insert_ne in Hx by done];
        rewrite ?lookup_insert_eq in Hx; simplify_eq/=.
      * rewrite E, decide_True, (inv_counts _ I _ _ Hp) by done. unfold held. by rewrite E.
      * rewrite (inv_counts _ I _ _ Hx). unfold held. rewrite !decide_False by congruence.
        by rewrite !Z.add_0_r.
    + intros x. by rewrite root_set_refcount.
    + intros x Hx. by apply lookup_insert_is_Some', or_intror.
Qed.

(** ** Releasing *)

Lemma shape_delete th th' ms p :
  shape_inv th ms ->
  (forall x b, x <> p -> owns ms x b -> exists blk, th' !! b = Some blk /\ malloced blk = true) ->
  shape_inv th' (delete p ms).
Proof.
  intros [I1 I2 I3] Hb.
  assert (forall x b, owns (delete p ms) x b -> x <> p /\ owns ms x b) as Ho.
  { intros x b (m & Hm & H). apply lookup_delete_Some in Hm as [? Hm]. split; [done|]. by exists m. }
  split.
  - intros x m [_ Hx]%lookup_delete_Some. specialize (I1 x m Hx). unfold msg_shape in *.
    destruct (parent m) as [q|]; [|done]. destruct I1 as (A & B & C). split_and!; auto.
    intros mq [_ Hq]%lookup_delete_Some. auto.
  - intros x b [? H]%Ho. eauto.
  - intros x x' b [_ H]%Ho [_ H']%Ho. eauto.
Qed.

(** Freeing the id of a derived message leaves every other message its tags. *)
Lemma free_derived th ms p m q :
  shape_inv th ms -> ms !! p = Some m -> parent m = Some q ->
  exists th' i, nchan_free_msg_id th (id m) = Ret (th', i, NGX_OK) /\
    tagcount i = tagcount (id m) /\ (NCHAN_FIXED_MULTITAG_MAX < tagcount i -> tag i = allocd None) /\
    (forall x b, x <> p -> owns ms x b -> exists blk, th' !! b = Some blk /\ malloced blk = true).
Proof.
  intros I Hp E. pose proof (inv_msgs _ _ I _ _ Hp) as S. unfold msg_shape in S. rewrite E in S.
  destruct S as (_ & St & _). unfold nchan_free_msg_id.
  destruct (Z.ltb_spec NCHAN_FIXED_MULTITAG_MAX (tagcount (id m))) as [Hlt|Hge].
  - destruct (St Hlt) as [[b|] Eb].
    + assert (owns ms p b) as Ob by (exists m; eauto).
      destruct (inv_blocks _ _ I _ _ Ob) as (blk & Hblk & Hm). rewrite Eb. unfold block_free.
      rewrite Hblk, Hm. eexists _, _. split; [reflexivity|]. split_and!; try done.
      intros x b' Hx Ox. destruct (inv_blocks _ _ I _ _ Ox) as (blk' & Hb' & ?).
      exists blk'. split; [|done]. rewrite lookup_delete_ne; [done|].
      intros <-. apply Hx. by apply (inv_unique _ _ I _ _ b).
    + rewrite Eb. eexists _, _. split; [reflexivity|]. split_and!; try done.
      intros x b Hx Ox. by apply (inv_blocks _ _ I x).
  - eexists _, _. split; [reflexivity|]. split_and!; try done; [lia|].
    intros x b Hx Ox. by apply (inv_blocks _ _ I x).
Qed.

(** A derived message that lost its last hold. *)
Lemma shape_drop_tags th th' ms p m m' q i :
  shape_inv th ms -> ms !! p = Some m -> parent m = Some q ->
  parent m' = parent m -> storage m' = storage m -> id m' = i ->
  (NCHAN_FIXED_MULTITAG_MAX < tagcount i -> tag i = allocd None) ->
  (forall x b, x <> p -> owns ms x b -> exists blk, th' !! b = Some blk /\ malloced blk = true) ->
  shape_inv th' (<[p := m']> ms).
Proof.
  intros [I1 I2 I3] Hp E Ep Es Ei Ht Hb.
  assert (forall x b, owns (<[p := m']> ms) x b -> x <> p /\ owns ms x b) as Ho.
  { intros x b (mx & Hm & H). destruct (decide (x = p)) as [->|].
    - rewrite lookup_insert_eq in Hm. simplify_eq. destruct H as (_ & H & H').
      rewrite (Ht H) in H'. discriminate.
    - rewrite lookup_insert_ne in Hm by done. split; [done|]. by exists mx. }
  assert (forall x mx, (<[p := m']> ms) !! x = Some mx -> exists my, ms !! x = Some my /\ parent mx = parent my) as Hl.
  { intros x mx Hx. destruct (decide (x = p)) as [->|].
    - rewrite lookup_insert_eq in Hx. simplify_eq. eauto.
    - rewrite lookup_insert_ne in Hx by done. eauto. }
  split.
  - intros x mx Hx. assert (forall q0 mq, (<[p := m']> ms) !! q0 = Some mq ->
      (forall m1, ms !! q0 = Some m1 -> parent m1 = None) -> parent mq = None) as Hpar.
    { intros q0 mq Hq Hs. destruct (Hl _ _ Hq) as (my & Hy & ->). eauto. }
    destruct (decide (x = p)) as [->|].
    + rewrite lookup_insert_eq in Hx. simplify_eq. specialize (I1 p m Hp). unfold msg_shape in *.
      rewrite Ep, E in *. destruct I1 as (A & B & C). rewrite Es. split_and!; eauto.
    + rewrite lookup_insert_ne in Hx by done. specialize (I1 x mx Hx). unfold msg_shape in *.
      destruct (parent mx) as [q0|]; [|done]. destruct I1 as (A & B & C). split_and!; eauto.
  - intros x b [? H]%Ho. eauto.
  - intros x x' b [_ H]%Ho [_ H']%Ho. eauto.
Qed.

(** What releasing does to a derived message, before its parent is released. *)
Lemma release_child th ms p m q :
  shape_inv th ms -> ms !! p = Some m -> parent m = Some q -> 0 < refcount m < 2 ^ 63 ->
  exists th' ms', shape_inv th' ms' /\
    (forall x, x <> p -> ms' !! x = ms !! x) /\
    (forall m', ms' !! p = Some m' -> parent m' = Some q /\ refcount m' = refcount m - 1) /\
    (1 < refcount m -> is_Some (ms' !! p)) /\
    msg_release 2 th ms p = msg_release 1 th' ms' q.
Proof.
  intros I Hp E Hr. pose proof (inv_msgs _ _ I _ _ Hp) as S. unfold msg_shape in S. rewrite E in S.
  destruct S as (St & _ & _).
  assert (negb (bool_decide (storage m = NCHAN_MSG_SHARED)) = true) as Ns
    by (rewrite bool_decide_eq_false_2 by (destruct St; congruence); done).
  cbn [msg_release]. rewrite Hp, E, Ns, wraps_small by (unfold in_s; lia).
  cbn [c_assert mbind outcome_bind refcount set_refcount id].
  rewrite (proj2 (Z.leb_le _ _)) by lia. cbn [c_assert mbind outcome_bind].
  destruct (Z.eqb_spec (refcount m - 1) 0) as [E0|E0].
  - destruct (free_derived th ms p m q I Hp E) as (th' & i & -> & Hc & Ht & Hb).
    destruct St as [St|St]; rewrite St; cbn [mbind outcome_bind].
    + exists th', (delete p ms). split_and!; [by eapply shape_delete| | |lia|reflexivity].
      * intros x Hx. by rewrite lookup_delete_ne.
      * intros m' Hm'. by rewrite lookup_delete_eq in Hm'.
    + exists th', (<[p := set_id (set_refcount m (refcount m - 1)) i]> ms).
      split_and!; [by eapply (shape_drop_tags th th' ms p m)| | |lia|reflexivity].
      * intros x Hx. by rewrite lookup_insert_ne.
      * intros m' Hm'. rewrite lookup_insert_eq in Hm'. by simplify_eq/=.
  - exists th, (<[p := set_refcount m (refcount m - 1)]> ms).
    split_and!; [by apply shape_set_refcount| | | |reflexivity].
    + intros x Hx. by rewrite lookup_insert_ne.
    + intros m' Hm'. rewrite lookup_insert_eq in Hm'. by simplify_eq/=.
    + intros _. rewrite lookup_insert_eq. eauto.
Qed.

Lemma release_root th ms p m :
  ms !! p = Some m -> parent m = None -> 0 < refcount m < 2 ^ 63 -> forall k,
  msg_release (S k) th ms p = Ret (th, <[p := set_refcount m (refcount m - 1)]> ms, NGX_OK).
Proof.
  intros Hp E Hr k. simpl. rewrite Hp, E, wraps_small by (unfold in_s; lia).
  by rewrite (proj2 (Z.ltb_lt _ _)) by lia.
Qed.

Lemma held_by_pos p r l : (p, r) ∈ l -> 0 < held_by p l /\ 0 < held_root r l.
Proof.
  intros H. rewrite (proj1 (held_perm p _ _ (drop_hold_perm _ _ H))),
    (proj2 (held_perm r _ _ (drop_hold_perm _ _ H))), held_by_cons, held_root_cons.
  simpl. rewrite !decide_True by done.
  pose proof (held_bounds p (drop_hold (p, r) l)). pose proof (held_bounds r (drop_hold (p, r) l)). lia.
Qed.

Lemma held_by_0 p r l : held_by p l = 0 -> (p, r) ∉ l.
Proof. intros H Hl. apply held_by_pos in Hl. lia. Qed.

Lemma held_drop hs p r x m :
  (p, r) ∈ hs ->
  held hs x m = held (drop_hold (p, r) hs) x m +
    match parent m with None => if decide (r = x) then 1 else 0 | Some _ => if decide (p = x) then 1 else 0 end.
Proof.
  intros H. unfold held. pose proof (held_perm x _ _ (drop_hold_perm _ _ H)) as [-> ->].
  rewrite held_by_cons, held_root_cons. simpl. by destruct (parent m).
Qed.

(** The shared message behind a hold has no parent. *)
Lemma root_shared s p r m : msg_inv s -> (p, r) ∈ holds s -> store s !! r = Some m -> parent m = None.
Proof.
  intros I H Hr. destruct (inv_holds _ I _ _ H) as ([mp Hp] & _ & E).
  unfold root in E. rewrite Hp in E. destruct (parent mp) as [q|] eqn:Eq.
  - subst q. by destruct (shape_parent _ _ p mp r m (inv_shape _ I) Hp Eq Hr).
  - subst r. congruence.
Qed.

Lemma release_step s p :
  msg_inv s -> permitted s (Release p) -> exists s', run_op s (Release p) = Ret s' /\ msg_inv s'.
Proof.
  simpl permitted. intros I H. remember (root (store s) p) as r0 eqn:Er0. destruct (inv_holds _ I _ _ H) as ([m Hp] & [mr Hr] & _).
  pose proof (inv_bound _ I) as B. pose proof (held_range s p m I Hp) as Rp.
  pose proof (held_range s _ _ I Hr) as Rr. destruct (held_by_pos _ _ _ H) as [Pp Pr].
  pose proof (inv_counts _ I _ _ Hp) as Cp. pose proof (inv_counts _ I _ _ Hr) as Cr.
  pose proof (root_shared _ _ _ _ I H Hr) as Er. unfold held in Cp, Cr. rewrite Er in Cr.
  set (hs := drop_hold (p, r0) (holds s)).
  assert (Z.of_nat (length hs) < 2 ^ 63) as Bh.
  { pose proof (Permutation_length (drop_hold_perm _ _ H)) as E. simpl in E. fold hs in E. lia. }
  assert (forall x r, (x, r) ∈ hs -> (x, r) ∈ holds s) as Sub.
  { intros x r Hx. rewrite (drop_hold_perm _ _ H). by right. }
  assert (forall th ms', shape_inv th ms' ->
    (forall x mx, ms' !! x = Some mx -> refcount mx = held hs x mx) ->
    (forall x r, (x, r) ∈ hs -> is_Some (ms' !! x) /\ is_Some (ms' !! r) /\ root ms' x = root (store s) x) ->
    msg_inv (MS th ms' hs)) as Done.
  { intros th ms' Sh Cn Hs. split; simpl; auto. intros x r Hx. destruct (Hs _ _ Hx) as (? & ? & ->).
    destruct (inv_holds _ I _ _ (Sub _ _ Hx)) as (_ & _ & ?). auto. }
  unfold run_op. rewrite <- Er0. fold hs. unfold root in Er0. rewrite Hp in Er0. destruct (parent m) as [q|] eqn:E.
  - subst r0. assert (p <> q) by congruence.
    destruct (release_child (tags s) (store s) p m q) as (th' & ms' & Sh & O1 & O2 & O3 & ->); auto;
      [apply I|lia|].
    assert (ms' !! q = Some mr) as Hq by (by rewrite O1).
    rewrite (release_root _ _ _ _ Hq Er) by lia. cbn [mbind outcome_bind].
    eexists. split; [reflexivity|]. apply Done.
    + by apply shape_set_refcount.
    + intros x mx Hx. destruct (decide (x = q)) as [->|Nq].
      { rewrite lookup_insert_eq in Hx. simplify_eq/=. unfold held at 1. simpl. rewrite Er, Cr.
        fold (held (holds s) q mr). pose proof (held_drop (holds s) p q q mr H) as D. fold hs in D.
        unfold held in *. rewrite Er in *. rewrite decide_True in D by done. lia. }
      rewrite lookup_insert_ne in Hx by done. destruct (decide (x = p)) as [->|Np].
      * destruct (O2 _ Hx) as [Em ->]. pose proof (held_drop (holds s) p q p mx H) as D. fold hs in D.
        unfold held in *. rewrite Em in *. rewrite decide_True in D by done. lia.
      * rewrite O1 in Hx by done. rewrite (inv_counts _ I _ _ Hx).
        pose proof (held_drop (holds s) p q x mx H) as D. fold hs in D.
        rewrite !decide_False in D by done. destruct (parent mx); lia.
    + intros x r Hx. destruct (inv_holds _ I _ _ (Sub _ _ Hx)) as ([mx Hmx] & [my Hmy] & Ex).
      assert (r <> p) by (intros ->; pose proof (root_shared _ _ _ _ I (Sub _ _ Hx) Hmy); congruence).
      assert (x = p -> is_Some (ms' !! p)) as Lp.
      { intros ->. apply O3. pose proof (held_drop (holds s) p q p m H) as D. fold hs in D.
        unfold held in D. rewrite E, decide_True in D by done. destruct (held_by_pos _ _ _ Hx). lia. }
      split_and!.
      * apply lookup_insert_is_Some'. destruct (decide (x = p)) as [->|]; [auto|rewrite O1 by done; eauto].
      * apply lookup_insert_is_Some'. rewrite O1 by done. eauto.
      * rewrite root_set_refcount by done. unfold root. destruct (decide (x = p)) as [->|].
        -- destruct (Lp eq_refl) as [m' Hm']. rewrite Hm', Hp, E. by destruct (O2 _ Hm') as [-> _].
        -- by rewrite O1.
  - subst r0. rewrite Hp in Hr. injection Hr as <-.
    rewrite (release_root _ _ _ _ Hp E) by lia. cbn [mbind outcome_bind].
    eexists. split; [reflexivity|]. apply Done.
    + apply shape_set_refcount; [apply I|done].
    + intros x mx Hx. pose proof (held_drop (holds s) p p x mx H) as D. fold hs in D.
      destruct (decide (x = p)) as [->|Np].
      * rewrite lookup_insert_eq in Hx. simplify_eq/=. unfold held in *. simpl in *.
        rewrite E in *. rewrite decide_True in D by done. lia.
      * rewrite lookup_insert_ne in Hx by done. rewrite (inv_counts _ I _ _ Hx).
        rewrite !decide_False in D by done. destruct (parent mx); lia.
    + intros x r Hx. destruct (inv_holds _ I _ _ (Sub _ _ Hx)) as (? & ? & Ex).
      rewrite root_set_refcount by done. split_and!; auto; by apply lookup_insert_is_Some', or_intror.
Qed.

(** ** Creating and reaping messages *)

Lemma inv_add s th p m :
  msg_inv s -> store s !! p = None -> shape_inv th (<[p := m]> (store s)) -> refcount m = 0 ->
  msg_inv (MS th (<[p := m]> (store s)) (holds s)).
Proof.
  intros I Hp Sh Hr.
  assert (forall x r, (x, r) ∈ holds s -> x <> p /\ r <> p) as Ne.
  { intros x r H. destruct (inv_holds _ I _ _ H) as ([? ?] & [? ?] & _). split; congruence. }
  assert (forall l, (forall x r, (x, r) ∈ l -> x <> p /\ r <> p) -> held_by p l = 0 /\ held_root p l = 0) as Z0.
  { induction l as [|[x r] l IH]; [done|]. intros H. rewrite held_by_cons, held_root_cons. simpl.
    destruct (H x r) as [? ?]; [set_solver|]. rewrite !decide_False by done.
    destruct IH as [-> ->]; [|done]. intros. apply H. set_solver. }
  destruct (Z0 _ Ne) as [Z1 Z2]. split; simpl; [done| | |apply I].
  - intros x mx Hx. destruct (decide (x = p)) as [->|].
    + rewrite lookup_insert_eq in Hx. simplify_eq. rewrite Hr. unfold held. by destruct (parent mx).
    + rewrite lookup_insert_ne in Hx by done. by apply I.
  - intros x r H. destruct (inv_holds _ I _ _ H) as (? & ? & E). destruct (Ne _ _ H).
    unfold root in *. rewrite !lookup_insert_ne by done. auto.
Qed.

Lemma shape_add th th' ms p m :
  shape_inv th ms -> ms !! p = None -> (forall q m', ms !! q = Some m' -> parent m' <> Some p) ->
  msg_shape ms m -> parent m <> Some p ->
  (forall b, owns (<[p := m]> ms) p b -> th !! b = None /\ exists blk, th' !! b = Some blk /\ malloced blk = true) ->
  (forall b blk, th !! b = Some blk -> th' !! b = Some blk) ->
  shape_inv th' (<[p := m]> ms).
Proof.
  intros [I1 I2 I3] Hp Hq Sm Pm Ob Sub.
  assert (forall x b, owns (<[p := m]> ms) x b -> x <> p -> owns ms x b) as Ho.
  { intros x b (mx & Hm & H) Hx. rewrite lookup_insert_ne in Hm by done. by exists mx. }
  assert (forall mx, parent mx <> Some p -> msg_shape ms mx -> msg_shape (<[p := m]> ms) mx) as Hs.
  { intros mx Hmx. unfold msg_shape. destruct (parent mx) as [q|]; [|done]. intros (A & B & C).
    split_and!; auto. intros mq. rewrite lookup_insert_ne by congruence. auto. }
  split.
  - intros x mx Hx. destruct (decide (x = p)) as [->|].
    + rewrite lookup_insert_eq in Hx. simplify_eq. auto.
    + rewrite lookup_insert_ne in Hx by done. eauto.
  - intros x b H. destruct (decide (x = p)) as [->|]; [by apply Ob|].
    destruct (I2 x b) as (blk & Hb & ?); eauto.
  - assert (forall x b, x <> p -> owns (<[p := m]> ms) p b -> owns (<[p := m]> ms) x b -> False) as Dj.
    { intros x b Nx Op Ox. destruct (Ob _ Op) as [Nb _]. destruct (I2 x b) as (? & ? & _); [eauto|congruence]. }
    intros x x' b H H'. destruct (decide (x = p)) as [->|], (decide (x' = p)) as [->|]; eauto; exfalso; eauto.
Qed.

Lemma publish_step s p m :
  msg_inv s -> permitted s (Publish p m) -> exists s', run_op s (Publish p m) = Ret s' /\ msg_inv s'.
Proof.
  intros I (Hp & Hq & E & St & Hr & Hc & Hpc). eexists. split; [reflexivity|].
  apply inv_add; auto. apply (shape_add (tags s)); auto; [apply I| |congruence|].
  - unfold msg_shape. rewrite E. auto.
  - intros b (m' & Hm' & [? ?] & _). rewrite lookup_insert_eq in Hm'. simplify_eq.
Qed.

Lemma reap_step s p now :
  msg_inv s -> permitted s (Reap p now) -> exists s', run_op s (Reap p now) = Ret s' /\ msg_inv s'.
Proof.
  intros I (m & Hp & E). unfold run_op. rewrite Hp.
  unfold nchan_memstore_store_msg_ready_to_reap, nchan_memstore_store_msg_ready_to_reap_generic,
    msg_refcount_invalidate_if_zero. simpl negb. cbv iota. simpl andb. cbv iota.
  pose proof (inv_counts _ I _ _ Hp) as C. unfold held in C. rewrite E in C.
  destruct (Z.eqb_spec (refcount m) 0) as [R|R]; simpl.
  - pose proof (inv_msgs _ _ (inv_shape _ I) _ _ Hp) as S. unfold msg_shape in S. rewrite E in S.
    destruct S as (_ & T1 & T2).
    unfold memstore_reap_message. rewrite lookup_insert_eq. simpl.
    unfold nchan_free_msg_id. simpl. rewrite T1, T2. simpl. rewrite delete_insert_eq.
    eexists. split; [reflexivity|].
    assert (forall x r, (x, r) ∈ holds s -> x <> p /\ r <> p) as Ne.
    { intros x r H. destruct (held_by_pos _ _ _ H) as [_ P].
      assert (r <> p) by (intros ->; lia). split; [|done]. intros ->.
      destruct (inv_holds _ I _ _ H) as (_ & _ & Er). unfold root in Er. rewrite Hp, E in Er. congruence. }
    split; simpl.
    + apply (shape_delete (tags s)); [apply I|]. intros x b _. apply I.
    + intros x mx [_ Hx]%lookup_delete_Some. by apply I.
    + intros x r H. destruct (inv_holds _ I _ _ H) as (? & ? & Er). destruct (Ne _ _ H).
      unfold root in *. rewrite !lookup_delete_ne by done. auto.
    + apply I.
  - eexists. split; [reflexivity|]. rewrite insert_id by done. by destruct s.
Qed.

Lemma get_shared_root th ms p m :
  shape_inv th ms -> ms !! p = Some m -> is_Some (ms !! root ms p) ->
  get_shared_msg ms p = Ret (root ms p) /\
  exists mr, ms !! root ms p = Some mr /\ parent mr = None /\ tagcount (id mr) = 1.
Proof.
  intros I Hp [mr Hr]. unfold get_shared_msg, root in *. rewrite Hp in *.
  pose proof (inv_msgs _ _ I _ _ Hp) as S. unfold msg_shape in S.
  destruct (parent m) as [q|] eqn:E.
  - destruct S as (St & _ & Sq). specialize (Sq _ Hr). rewrite Hr.
    pose proof (inv_msgs _ _ I _ _ Hr) as Sr. unfold msg_shape in Sr. rewrite Sq in Sr.
    destruct Sr as (Sr & ? & _). rewrite (bool_decide_eq_true_2 _ Sr).
    split; [by destruct St as [-> | ->]|eauto].
  - destruct S as (-> & ? & _). split; [done|eauto].
Qed.

(** The copy of the parent's id that a derived message gets. *)
Lemma copy_new_cases th i ts o :
  id_tags th i = Ret ts -> 0 <= tagcount i -> (forall b, o = Some b -> th !! b = None) ->
  exists th' i' rc, nchan_copy_new_msg_id th i o = Ret (th', i', rc) /\
    (forall b blk, th !! b = Some blk -> th' !! b = Some blk) /\
    (NCHAN_FIXED_MULTITAG_MAX < tagcount i' -> tag i' = allocd o) /\
    (NCHAN_FIXED_MULTITAG_MAX < tagcount i' -> forall b, o = Some b -> exists blk, th' !! b = Some blk /\ malloced blk = true).
Proof.
  intros Ht Hc Ho. unfold nchan_copy_new_msg_id.
  destruct (Z.ltb_spec NCHAN_FIXED_MULTITAG_MAX (tagcount i)).
  - destruct o as [b|].
    + rewrite Ht, bind_Ret, block_write_all by (by eapply id_tags_count). rewrite bind_Ret.
      eexists _, _, _. split; [reflexivity|]. split_and!; try done.
      * intros b' blk Hb. rewrite lookup_insert_ne; [done|]. intros <-. by rewrite Ho in Hb.
      * intros _ b' [= <-]. rewrite lookup_insert_eq. eauto.
    + eexists _, _, _. split; [reflexivity|]. by split_and!.
  - eexists _, _, _. split; [reflexivity|]. split_and!; try done; lia.
Qed.

Lemma derive_step s st par new newtags :
  msg_inv s -> derivable s par new newtags -> st = NCHAN_MSG_HEAP \/ st = NCHAN_MSG_POOL ->
  exists s', msg_inv s' /\
   (msg_derive_init (store s) par new st = Ret (store s, None) /\ s' = s \/
    exists p ms1 pid th i rc, msg_derive_init (store s) par new st = Ret (ms1, Some p) /\
      msg_id_at ms1 par = Ret pid /\ nchan_copy_new_msg_id (tags s) pid newtags = Ret (th, i, rc) /\
      write_id ms1 p i = Ret (store s') /\ s' = MS th (store s') (holds s) /\
      store s !! p = None /\ delete p (store s') = store s /\ msg_inv (MS th (store s) (holds s))).
Proof.
  intros I ((m & ts & Hp & Hr & Ht & Hc) & Hn & Hb) Hst.
  destruct (get_shared_root _ _ _ _ (inv_shape _ I) Hp Hr) as (Eg & mr & Hmr & Er & Ec).
  unfold msg_derive_init. rewrite Eg, bind_Ret, Hmr.
  destruct new as [p|]; [|exists s; eauto]. destruct (Hn p eq_refl) as [Np Pp].
  destruct (copy_new_cases (tags s) (id m) ts newtags Ht Hc Hb) as (th & i & rc & E & Sub & Tg & Blk).
  set (m1 := Msg _ _ _ _ _ _ _ _ _ _). assert (par <> p) by congruence.
  assert (msg_inv (MS th (store s) (holds s))) as I'.
  { destruct I as [[J1 J2 J3] K1 K2 K3]. split; simpl; auto. split; auto.
    intros x b O. destruct (J2 x b O) as (blk & ? & ?). eauto. }
  exists (MS th (<[p := set_id m1 i]> (store s)) (holds s)). split.
  - apply (inv_add s th p); [done|done| |done]. apply (shape_add (tags s)); auto; [apply I| | |].
    + unfold msg_shape, m1. simpl. split_and!; auto; [|intros; congruence].
      intros Hlt. rewrite (Tg Hlt). eauto.
    + unfold m1. simpl. congruence.
    + intros b (m' & Hm' & _ & Hlt & Eb). rewrite lookup_insert_eq in Hm'. simplify_eq/=.
      rewrite (Tg Hlt) in Eb. simplify_eq. eauto.
  - right. eexists p, _, _, _, _, _. split; [reflexivity|]. unfold msg_id_at, write_id.
    rewrite lookup_insert_ne, Hp, lookup_insert_eq, insert_insert_eq by done. simpl.
    split_and!; [reflexivity|exact E|done|done|done|by rewrite delete_insert_id|done].
Qed.

Lemma run_op_ok s o : msg_inv s -> permitted s o -> exists s', run_op s o = Ret s' /\ msg_inv s'.
Proof.
  intros I P. destruct o as [p m|p|p|par new newtags|par new newtags|p now].
  - by apply publish_step.
  - by apply reserve_step.
  - by apply release_step.
  - destruct (derive_step s NCHAN_MSG_HEAP par new newtags I P (or_introl eq_refl))
      as (s' & I' & [[E ->]|(p & ms1 & pid & th & i & rc & E1 & E2 & E3 & E4 & Es & Hp & Hd & I2)]);
      unfold run_op, nchan_msg_derive_alloc.
    + rewrite E. cbn. eexists. split; [reflexivity|]. by destruct s.
    + rewrite E1, bind_Ret, E2, bind_Ret, E3, bind_Ret, E4, bind_Ret.
      destruct (rc =? NGX_OK); (eexists; split; [reflexivity|]); [by rewrite <- Es|by rewrite Hd].
  - destruct (derive_step s NCHAN_MSG_POOL par new newtags I P (or_intror eq_refl))
      as (s' & I' & [[E ->]|(p & ms1 & pid & th & i & rc & E1 & E2 & E3 & E4 & Es & Hp & Hd & I2)]);
      unfold run_op, nchan_msg_derive_palloc.
    + rewrite E. cbn. eexists. split; [reflexivity|]. by destruct s.
    + rewrite E1, bind_Ret, E2, bind_Ret, E3, bind_Ret, E4, bind_Ret.
      destruct (rc =? NGX_OK); (eexists; split; [reflexivity|]); by rewrite <- Es.
  - by apply reap_step.
Qed.

Lemma msg_run_inv s os s' : msg_inv s -> msg_run s os s' -> msg_inv s'.
Proof.
  intros I R. induction R as [|s o s1 os s2 P E R IH]; [done|].
  destruct (run_op_ok s o I P) as (s1' & E' & I'). rewrite E in E'. simplify_eq. auto.
Qed.

Lemma msg_inv_empty th : msg_inv (MS th ∅ []).
Proof.
  assert (forall p m, (∅ : msgs) !! p = Some m -> False) as N
    by (intros p m H; by rewrite lookup_empty in H).
  split; simpl; [split| | |lia]; unfold owns; try (intros; naive_solver).
  intros p r H. by apply not_elem_of_nil in H.
Qed.

Lemma held_root_0 p l : held_root p l = 0 <-> forall h, h ∈ l -> h.2 <> p.
Proof.
  induction l as [|[x r] l IH]; [set_solver|]. rewrite held_root_cons. simpl.
  destruct (held_bounds p l) as [_ [? _]]. case_decide; subst.
  - split; [lia|]. intros H'. destruct (H' (x, p)); set_solver.
  - rewrite Z.add_0_r, IH. split; [|set_solver]. intros H' h [->|Hh]%elem_of_cons; auto.
Qed.

(** C11.  Reservations are counted exactly.  After any permitted sequence of
    publications, reservations, releases, derivations and reaping attempts,
    the reference count of a shared message is the number of holds on it and on
    the messages derived from it; the store finds it ready to be freed exactly
    when there are none; and no further permitted operation fails an assertion
    or touches freed memory. *)
Theorem reservations_exact th os s :
  msg_run (MS th ∅ []) os s ->
  (forall p m, store s !! p = Some m -> parent m = None -> refcount m = held_root p (holds s) /\
     forall now, (nchan_memstore_store_msg_ready_to_reap now m false).2 = NGX_OK <->
       forall h, h ∈ holds s -> h.2 <> p) /\
  (forall o, permitted s o -> exists s', run_op s o = Ret s').
Proof.
  intros R. pose proof (msg_run_inv _ _ _ (msg_inv_empty th) R) as I. split.
  - intros p m Hp E. pose proof (inv_counts _ I _ _ Hp) as C. unfold held in C. rewrite E in C.
    split; [done|]. intros now. rewrite <- held_root_0, <- C.
    unfold nchan_memstore_store_msg_ready_to_reap, nchan_memstore_store_msg_ready_to_reap_generic,
      msg_refcount_invalidate_if_zero. simpl.
    destruct (Z.eqb_spec (refcount m) 0); simpl; split; try done.
  - intros o P. destruct (run_op_ok s o I P) as (s' & ? & _). eauto.
Qed.

Definition example_shared : nchan_msg_t :=
  Msg (MsgId 100 (fixed [0; 0; 0; 0]) 0 1) (MsgId 0 (fixed [0; 0; 0; 0]) 0 1) None None
      example_buf 160 0 None None NCHAN_MSG_SHARED.

Definition example_derived_state : msg_state :=
  MS ∅ (<[1%positive := set_refcount example_shared 1]>
        {[2%positive := Msg (MsgId 100 (fixed [0; 0; 0; 0]) 0 1) (prev_id example_shared) None None
            example_buf 160 1 (Some 1%positive) None NCHAN_MSG_HEAP]}) [(2%positive, 1%positive)].

Lemma reservations_exact_witness :
  msg_run (MS ∅ ∅ []) [Publish 1 example_shared; DeriveAlloc 1 (Some 2%positive) None; Reserve 2]
    example_derived_state /\
  (forall now, (nchan_memstore_store_msg_ready_to_reap now (set_refcount example_shared 1) false).2 = NGX_OK <->
     forall h, h ∈ [(2%positive, 1%positive)] -> h.2 <> 1%positive).
Proof.
  assert (msg_run (MS ∅ ∅ []) [Publish 1 example_shared; DeriveAlloc 1 (Some 2%positive) None; Reserve 2]
    example_derived_state) as R.
  { eapply msg_run_cons; [| reflexivity |].
    { split; [reflexivity|]. split; [intros q m' Hq; simpl in Hq; by rewrite lookup_empty in Hq|].
      repeat split. }
    eapply msg_run_cons; [| reflexivity |].
    { split; [exists example_shared, [0]; split_and!; try reflexivity; [eexists; reflexivity|simpl; lia]|].
      split; [|discriminate]. intros p [= <-]. split; [reflexivity|].
      intros q m Hq. simpl in Hq. destruct (decide (q = 1%positive)) as [->|].
      - rewrite lookup_insert_eq in Hq. injection Hq as <-. discriminate.
      - rewrite lookup_insert_ne, lookup_empty in Hq by done. discriminate. }
    eapply msg_run_cons; [| reflexivity |].
    { split; [eexists; reflexivity|]. split; [eexists; reflexivity|simpl; lia]. }
    apply msg_run_nil. }
  split; [exact R|].
  destruct (reservations_exact ∅ _ _ R) as [H _].
  destruct (H 1%positive (set_refcount example_shared 1)) as [_ H']; [reflexivity|reflexivity|exact H'].
Defined.
