(* ===== verification/Groups.v ===== *)
(** * Channel groups ([store/memory/groups.c], group limits of [store/memory/memstore.c])

    Every worker has a table of group nodes by name.  The group itself, with
    its counters and limits, is in shared memory; the worker that owns the name
    creates it, the others ask for it and queue what they want to do with it
    until it arrives.  Callbacks are data: what a queued callback does is
    [run_callback]. *)

From S2P Require Import Prelude Nginx MsgId Msg DList.

(** The sizes of the C structures a message consists of. *)
Class Sizeof := {
  sizeof_nchan_msg_t : Z;
  sizeof_ngx_str_t : Z;
  sizeof_ngx_file_t : Z;
  sizeof_nchan_compressed_msg_t : Z;
}.

Definition msg_memsize `{Sizeof} (m : nchan_msg_t) : Z :=
  memstore_msg_memsize sizeof_nchan_msg_t sizeof_ngx_str_t sizeof_ngx_file_t sizeof_nchan_compressed_msg_t m.

(** ** Data *)

Record nchan_group_limits_t := Limits {
  limit_channels : Z;
  limit_subscribers : Z;
  limit_messages : Z;
  limit_messages_shmem_bytes : Z;
  limit_messages_file_bytes : Z;
}.

Record nchan_group_t := Group {
  group_name : bytes;
  channels : Z;
  multiplexed_channels : Z;
  subscribers : Z;
  messages : Z;
  messages_shmem_bytes : Z;
  messages_file_bytes : Z;
  limit : nchan_group_limits_t;
}.

Definition new_group (name : bytes) : nchan_group_t := Group name 0 0 0 0 0 0 (Limits 0 0 0 0 0).

(** What a queued callback will do. *)
Inductive group_callback_t :=
  | group_add_channel_callback (multi self_owned : bool) (n : Z)
  | group_add_message_callback (mem_sz file_sz n : Z)
  | group_add_subscribers_callback (n : Z)
  | set_group_limits_callback (limits : nchan_group_limits_t) (cb : option positive)
  | group_delete_callback (owned : bool) (k : positive)
  | client_callback (k : positive).

Record group_tree_node_t := GTN {
  group : option positive;               (* nchan_group_t *, NULL until it is known *)
  when_ready : list group_callback_t;    (* when_ready_head .. when_ready_tail *)
  owned_chanhead_head : ptr;
  getting_group : Z;
}.

(** Messages to other workers. *)
Inductive group_ipc :=
  | ipc_get_group (name : bytes)
  | ipc_broadcast_group (g : positive)
  | ipc_broadcast_group_delete (g : positive).

Record groups_t := GW {
  shm : gmap positive nchan_group_t;
  nodes : gmap bytes group_tree_node_t;
  sent : list group_ipc;
  called : list (positive * Z * option positive);   (* client callbacks run *)
  ch_links : mem;                                   (* groupnode_prev, groupnode_next *)
  deleted_channels : list loc;                      (* nchan_store_memory.delete_channel *)
}.

Definition OFF_PREV : Z := 0.
Definition OFF_NEXT : Z := 8.

Definition upd_shm (w : groups_t) (p : positive) (f : nchan_group_t -> nchan_group_t) : groups_t :=
  GW (alter f p (shm w)) (nodes w) (sent w) (called w) (ch_links w) (deleted_channels w).
Definition upd_node (w : groups_t) (n : bytes) (gtn : group_tree_node_t) : groups_t :=
  GW (shm w) (<[n := gtn]> (nodes w)) (sent w) (called w) (ch_links w) (deleted_channels w).
Definition send (w : groups_t) (m : group_ipc) : groups_t :=
  GW (shm w) (nodes w) (sent w ++ [m]) (called w) (ch_links w) (deleted_channels w).
Definition call (w : groups_t) (k : positive) (rc : Z) (g : option positive) : groups_t :=
  GW (shm w) (nodes w) (sent w) (called w ++ [(k, rc, g)]) (ch_links w) (deleted_channels w).
Definition call_opt (w : groups_t) (cb : option positive) (rc : Z) (g : option positive) : groups_t :=
  match cb with Some k => call w k rc g | None => w end.
Definition set_links (w : groups_t) (h : mem) : groups_t :=
  GW (shm w) (nodes w) (sent w) (called w) h (deleted_channels w).
Definition delete_channel (w : groups_t) (ch : loc) : groups_t :=
  GW (shm w) (nodes w) (sent w) (called w) (ch_links w) (deleted_channels w ++ [ch]).

(** ** Counters *)

Definition group_add_channel_internal (g : nchan_group_t) (multi self_owned : bool) (n : Z) : nchan_group_t :=
  if multi then
    Group (group_name g) (channels g) (s64 (multiplexed_channels g + n)) (subscribers g) (messages g)
          (messages_shmem_bytes g) (messages_file_bytes g) (limit g)
  else if self_owned then
    Group (group_name g) (s64 (channels g + n)) (multiplexed_channels g) (subscribers g) (messages g)
          (messages_shmem_bytes g) (messages_file_bytes g) (limit g)
  else g.

Definition group_add_message_internal (g : nchan_group_t) (mem_sz file_sz n : Z) : nchan_group_t :=
  Group (group_name g) (channels g) (multiplexed_channels g) (subscribers g) (s64 (messages g + n))
        (s64 (messages_shmem_bytes g + n * mem_sz))
        (if 0 <? file_sz then s64 (messages_file_bytes g + n * file_sz) else messages_file_bytes g)
        (limit g).

Definition group_add_subscribers_internal (g : nchan_group_t) (n : Z) : nchan_group_t :=
  Group (group_name g) (channels g) (multiplexed_channels g) (s64 (subscribers g + n)) (messages g)
        (messages_shmem_bytes g) (messages_file_bytes g) (limit g).

(** [APPLY_GROUP_LIMIT_IF_SET], for every limit. *)
Definition apply_limits (l : nchan_group_limits_t) (g : nchan_group_t) : nchan_group_t :=
  let pick new old := if new =? -1 then old else new in
  let o := limit g in
  Group (group_name g) (channels g) (multiplexed_channels g) (subscribers g) (messages g)
        (messages_shmem_bytes g) (messages_file_bytes g)
        (Limits (pick (limit_channels l) (limit_channels o)) (pick (limit_subscribers l) (limit_subscribers o))
                (pick (limit_messages l) (limit_messages o))
                (pick (limit_messages_shmem_bytes l) (limit_messages_shmem_bytes o))
                (pick (limit_messages_file_bytes l) (limit_messages_file_bytes o))).

Section worker.
Context `{Sizeof}.
(** The owner of a name ([memstore_str_owner], a hash), this worker's slot and
    the cached time. *)
Context (memstore_str_owner : bytes -> Z) (memstore_slot : Z) (ngx_time : Z).

(** ** Channels of the group owned by this worker *)

(** [multi] tells whether the channel is multiplexed. *)
Definition memstore_group_associate_own_channel (w : groups_t) (name : bytes) (ch : loc)
    (owner : Z) (multi : bool) : outcome groups_t :=
  match nodes w !! name with
  | None => Crash
  | Some gtn =>
      c_assert (owner =? memstore_slot);;
      if negb multi then
        h1 ← store (ch_links w) ch OFF_NEXT (owned_chanhead_head gtn);
        h2 ← match owned_chanhead_head gtn with
             | Some hd => store h1 hd OFF_PREV (Some ch)
             | None => Ret h1
             end;
        Ret (upd_node (set_links w h2) name
               (GTN (group gtn) (when_ready gtn) (Some ch) (getting_group gtn)))
      else Ret w
  end.

Definition memstore_group_dissociate_own_channel (w : groups_t) (name : bytes) (ch : loc)
    (owner : Z) (multi : bool) : outcome groups_t :=
  match nodes w !! name with
  | None => Crash
  | Some gtn =>
      c_assert (owner =? memstore_slot);;
      '(h, hd) ←
        (if negb multi then
           let h := ch_links w in
           prev ← load h ch OFF_PREV;
           next ← load h ch OFF_NEXT;
           let hd := if decide (owned_chanhead_head gtn = Some ch) then next else owned_chanhead_head gtn in
           h1 ← match prev with
                | Some p => pn ← load h p OFF_NEXT; c_assert (bool_decide (pn = Some ch));; store h p OFF_NEXT next
                | None => Ret h
                end;
           h2 ← match next with
                | Some q => qp ← load h1 q OFF_PREV; c_assert (bool_decide (qp = Some ch));; store h1 q OFF_PREV prev
                | None => Ret h1
                end;
           h3 ← store h2 ch OFF_PREV None;
           h4 ← store h3 ch OFF_NEXT None;
           Ret (h4, hd)
         else Ret (ch_links w, owned_chanhead_head gtn));
      c_assert (negb (bool_decide (hd = Some ch)));;
      Ret (upd_node (set_links w h) name (GTN (group gtn) (when_ready gtn) hd (getting_group gtn)))
  end.

(** ** Callbacks *)

Definition account (w : groups_t) (g : option positive) (f : nchan_group_t -> nchan_group_t) : groups_t :=
  match g with Some p => upd_shm w p f | None => w end.

(** A callback called without a group. *)
Definition run_callback_null (w : groups_t) (cb : group_callback_t) : groups_t :=
  match cb with
  | group_add_channel_callback _ _ _ | group_add_message_callback _ _ _
  | group_add_subscribers_callback _ => w
  | set_group_limits_callback _ cb => call_opt w cb NGX_ERROR None
  | group_delete_callback _ k | client_callback k => call w k NGX_ERROR None
  end.

(** The loop of [memstore_group_receive_delete]; [fuel] bounds the number of
    channels. *)
Fixpoint delete_owned (fuel : nat) (w : groups_t) (name : bytes) : outcome groups_t :=
  match fuel with
  | O => NoFuel
  | S fuel' =>
      match nodes w !! name with
      | None => Crash
      | Some gtn =>
          match owned_chanhead_head gtn with
          | None => Ret w
          | Some cur =>
              w1 ← memstore_group_dissociate_own_channel w name cur memstore_slot false;
              delete_owned fuel' (delete_channel w1 cur) name
          end
      end
  end.

Definition memstore_group_receive_delete (fuel : nat) (w : groups_t) (shm_group : positive) : outcome groups_t :=
  match shm w !! shm_group with
  | None => Crash
  | Some g =>
      match nodes w !! group_name g with
      | None => Ret w
      | Some gtn =>
          let w1 := foldl run_callback_null w (when_ready gtn) in
          let w2 := upd_node w1 (group_name g) (GTN (group gtn) [] (owned_chanhead_head gtn) (getting_group gtn)) in
          delete_owned fuel w2 (group_name g)
      end
  end.

(** A callback called with the group at [p]. *)
Definition run_callback (fuel : nat) (w : groups_t) (p : positive) (cb : group_callback_t) : outcome groups_t :=
  match cb with
  | group_add_channel_callback multi self_owned n =>
      Ret (upd_shm w p (fun g => group_add_channel_internal g multi self_owned n))
  | group_add_message_callback mem_sz file_sz n =>
      Ret (upd_shm w p (fun g => group_add_message_internal g mem_sz file_sz n))
  | group_add_subscribers_callback n =>
      Ret (upd_shm w p (fun g => group_add_subscribers_internal g n))
  | set_group_limits_callback limits cb => Ret (call_opt (upd_shm w p (apply_limits limits)) cb NGX_OK (Some p))
  | group_delete_callback owned k =>
      w1 ← (if (owned : bool) then memstore_group_receive_delete fuel w p else Ret w);
      Ret (call (send w1 (ipc_broadcast_group_delete p)) k NGX_OK (Some p))
  | client_callback k => Ret (call w k NGX_OK (Some p))
  end.

Fixpoint run_callbacks (fuel : nat) (w : groups_t) (p : positive) (cbs : list group_callback_t) : outcome groups_t :=
  match cbs with
  | [] => Ret w
  | cb :: cbs' => w1 ← run_callback fuel w p cb; run_callbacks fuel w1 p cbs'
  end.

Definition MAX_GETGROUP_WAIT_TIME_BEFORE_RETRY : Z := 5.

Definition add_whenready_callback (w : groups_t) (name : bytes) (gtn : group_tree_node_t)
    (cb : group_callback_t) : groups_t :=
  let q := when_ready gtn ++ [cb] in
  if MAX_GETGROUP_WAIT_TIME_BEFORE_RETRY <? ngx_time - getting_group gtn then
    send (upd_node w name (GTN (group gtn) q (owned_chanhead_head gtn) ngx_time)) (ipc_get_group name)
  else upd_node w name (GTN (group gtn) q (owned_chanhead_head gtn) (getting_group gtn)).

(** Now if the group is known, later otherwise. *)
Definition with_group (fuel : nat) (w : groups_t) (name : bytes) (cb : group_callback_t) : outcome groups_t :=
  match nodes w !! name with
  | None => Crash
  | Some gtn =>
      match group gtn with
      | Some p => run_callback fuel w p cb
      | None => Ret (add_whenready_callback w name gtn cb)
      end
  end.

(** ** Nodes *)

Definition group_create_node (w : groups_t) (name : bytes) (g : option positive) : groups_t :=
  upd_node w name (GTN g [] None 0).

(** [new] is what the allocation in shared memory returned. *)
Definition group_owner_create_node (w : groups_t) (name : bytes) (new : option positive) : groups_t * bool :=
  match new with
  | None => (w, false)
  | Some p =>
      let w1 := GW (<[p := new_group name]> (shm w)) (nodes w) (sent w) (called w) (ch_links w) (deleted_channels w) in
      (send (group_create_node w1 name (Some p)) (ipc_broadcast_group p), true)
  end.

(** The flag is [false] for a [NULL] result. *)
Definition memstore_groupnode_get (w : groups_t) (name : bytes) (new : option positive) : groups_t * bool :=
  match nodes w !! name with
  | Some _ => (w, true)
  | None =>
      if memstore_str_owner name =? memstore_slot then group_owner_create_node w name new
      else
        (send (upd_node (group_create_node w name None) name (GTN None [] None 1)) (ipc_get_group name), true)
  end.

Definition memstore_group_owner_find (w : groups_t) (name : bytes) (new : option positive) :
    outcome (groups_t * option positive * bool) :=
  c_assert (memstore_str_owner name =? memstore_slot);;
  match nodes w !! name with
  | Some gtn => Ret (w, group gtn, false)
  | None =>
      let '(w1, ok) := group_owner_create_node w name new in
      Ret (w1, if (ok : bool) then match nodes w1 !! name with Some gtn => group gtn | None => None end else None, true)
  end.

Definition memstore_group_find_from_groupnode (fuel : nat) (w : groups_t) (name : option bytes)
    (k : positive) : outcome (groups_t * Z) :=
  match name with
  | None => Ret (call w k NGX_ERROR None, NGX_ERROR)
  | Some name => w1 ← with_group fuel w name (client_callback k); Ret (w1, NGX_OK)
  end.

Definition memstore_group_find (fuel : nat) (w : groups_t) (name : bytes) (new : option positive)
    (k : positive) : outcome (groups_t * Z) :=
  let '(w1, ok) := memstore_groupnode_get w name new in
  memstore_group_find_from_groupnode fuel w1 (if (ok : bool) then Some name else None) k.

Definition memstore_group_receive (fuel : nat) (w : groups_t) (p : positive) : outcome groups_t :=
  match shm w !! p with
  | None => Crash
  | Some g =>
      let name := group_name g in
      c_assert (negb (memstore_str_owner name =? memstore_slot));;
      match nodes w !! name with
      | Some gtn =>
          let w1 := upd_node w name (GTN (Some p) (when_ready gtn) (owned_chanhead_head gtn) 0) in
          w2 ← run_callbacks fuel w1 p (when_ready gtn);
          match nodes w2 !! name with
          | Some gtn2 => Ret (upd_node w2 name (GTN (group gtn2) [] (owned_chanhead_head gtn2) (getting_group gtn2)))
          | None => Crash
          end
      | None => Ret (group_create_node w name (Some p))
      end
  end.

Definition memstore_group_delete (fuel : nat) (w : groups_t) (name : bytes) (new : option positive)
    (k : positive) : outcome (groups_t * Z) :=
  let '(w1, ok) := memstore_groupnode_get w name new in
  if (ok : bool) then
    w2 ← with_group fuel w1 name (group_delete_callback (memstore_str_owner name =? memstore_slot) k);
    Ret (w2, NGX_OK)
  else Ret (call w1 k NGX_ERROR None, NGX_ERROR).

(** ** Accounting operations *)

Definition memstore_group_add_channel_generic (fuel : nat) (w : groups_t) (name : bytes) (owner : Z)
    (multi : bool) (n : Z) : outcome groups_t :=
  with_group fuel w name (group_add_channel_callback multi (owner =? memstore_slot) n).
Definition memstore_group_add_channel fuel w name owner multi :=
  memstore_group_add_channel_generic fuel w name owner multi 1.
Definition memstore_group_remove_channel fuel w name owner multi :=
  memstore_group_add_channel_generic fuel w name owner multi (-1).

Definition memstore_group_add_message_generic (fuel : nat) (w : groups_t) (name : bytes) (m : nchan_msg_t)
    (n : Z) : outcome groups_t :=
  with_group fuel w name
    (group_add_message_callback (msg_memsize m) (if ngx_buf_in_memory_only (buf m) then 0 else ngx_buf_size (buf m)) n).
Definition memstore_group_add_message fuel w name m := memstore_group_add_message_generic fuel w name m 1.
Definition memstore_group_remove_message fuel w name m := memstore_group_add_message_generic fuel w name m (-1).

Definition memstore_group_add_subscribers (fuel : nat) (w : groups_t) (name : bytes) (count : Z) : outcome groups_t :=
  with_group fuel w name (group_add_subscribers_callback count).

(** [cb] is the client's callback, if any; without one there may be nothing to do. *)
Definition no_limit_set (l : nchan_group_limits_t) : bool :=
  forallb (fun x => x =? -1) [limit_channels l; limit_subscribers l; limit_messages l;
    limit_messages_shmem_bytes l; limit_messages_file_bytes l].

Definition nchan_store_set_group_limits (fuel : nat) (w : groups_t) (name : bytes) (new : option positive)
    (enable_accounting : bool) (limits : nchan_group_limits_t) (cb : option positive) : outcome (groups_t * Z) :=
  if negb enable_accounting then Ret (call_opt w cb NGX_ERROR None, NGX_OK)
  else if bool_decide (cb = None) && no_limit_set limits then Ret (w, NGX_OK)
  else
    let '(w1, ok) := memstore_groupnode_get w name new in
    if (ok : bool) then w2 ← with_group fuel w1 name (set_group_limits_callback limits cb); Ret (w2, NGX_OK)
    else Ret (call_opt w1 cb NGX_ERROR None, NGX_ERROR).

Definition nchan_store_get_group (fuel : nat) (w : groups_t) (name : bytes) (new : option positive)
    (enable_accounting : bool) (k : positive) : outcome (groups_t * Z) :=
  if enable_accounting then memstore_group_find fuel w name new k
  else Ret (call w k NGX_ERROR None, NGX_ERROR).

Definition nchan_store_delete_group (fuel : nat) (w : groups_t) (name : bytes) (new : option positive)
    (enable_accounting : bool) (k : positive) : outcome (groups_t * Z) :=
  if negb enable_accounting then Ret (call w k NGX_ERROR None, NGX_OK)
  else memstore_group_delete fuel w name new k.
End worker.

(** ** Limits *)

Inductive publish_error :=
  | limit_number_of_messages
  | limit_memory_used
  | limit_disk_space
  | limit_number_of_channels.

Inductive publish_verdict :=
  | publish_go                              (* nchan_store_publish_message_generic *)
  | publish_find_channel                    (* decided by group_publish_accounting_channelcheck *)
  | publish_forbidden (err : publish_error)
  | publish_no_group.

(** [n] is the number of channels the message is published to, [local] tells
    whether this worker has the channel. *)
Definition group_publish_accounting_check `{Sizeof} (g : option nchan_group_t) (m : nchan_msg_t)
    (n : Z) (local : bool) : publish_verdict :=
  match g with
  | None => publish_no_group
  | Some g =>
      let l := limit g in
      if negb ((limit_messages l =? 0) || (messages g <? limit_messages l)) then
        publish_forbidden limit_number_of_messages
      else if negb (limit_messages_shmem_bytes l =? 0) &&
              negb (messages_shmem_bytes g + n * msg_memsize m <=? limit_messages_shmem_bytes l) then
        publish_forbidden limit_memory_used
      else if negb (limit_messages_file_bytes l =? 0) &&
              negb (messages_file_bytes g + ngx_buf_size (buf m) <=? limit_messages_file_bytes l) then
        publish_forbidden limit_disk_space
      else if negb (limit_channels l =? 0) then
        if channels g + 1 =? limit_channels l then
          if local then publish_go else publish_find_channel
        else if limit_channels l <=? channels g then publish_forbidden limit_number_of_channels
        else publish_go
      else publish_go
  end.

Definition group_publish_accounting_channelcheck (exists_ : bool) : publish_verdict :=
  if exists_ then publish_go else publish_forbidden limit_number_of_channels.

(** Both steps: [exists_] is the answer to [nchan_store_find_channel]. *)
Definition publish_decision `{Sizeof} (g : option nchan_group_t) (m : nchan_msg_t) (n : Z)
    (local exists_ : bool) : publish_verdict :=
  match group_publish_accounting_check g m n local with
  | publish_find_channel => group_publish_accounting_channelcheck exists_
  | v => v
  end.

Inductive subscribe_verdict :=
  | subscribe_authorized
  | subscribe_find_channel
  | subscribe_forbidden.

(** A subscriber that died meanwhile is let go without an answer. *)
Definition group_subscribe_channel_limit_check (g : option nchan_group_t) : subscribe_verdict :=
  match g with
  | None => subscribe_forbidden
  | Some g =>
      let l := limit_channels (limit g) in
      if (l =? 0) || (channels g <? l) then subscribe_authorized
      else if negb (l =? 0) && (channels g =? l) then subscribe_find_channel
      else subscribe_forbidden
  end.

Definition group_subscribe_channel_limit_reached (exists_ : bool) : subscribe_verdict :=
  if exists_ then subscribe_authorized else subscribe_forbidden.

Definition subscribe_decision (g : option nchan_group_t) (exists_ : bool) : subscribe_verdict :=
  match group_subscribe_channel_limit_check g with
  | subscribe_find_channel => group_subscribe_channel_limit_reached exists_
  | v => v
  end.

(** Whether the subscriber is added to the channel's spooler or answered 403. *)
Definition group_subscribe_accounting_check (g : option nchan_group_t) : bool :=
  match g with
  | None => false
  | Some g => (limit_subscribers (limit g) =? 0) || (subscribers g <? limit_subscribers (limit g))
  end.
