(* ===== verification/GroupFacts.v ===== *)
(** * Facts about channel groups

    Where the accounting updates go while a worker waits for a group (applied,
    queued, or dropped by a deletion that comes first), deleting a group deletes
    every channel of it that the worker owns, and what the limits let through. *)

From S2P Require Import Prelude Nginx MsgId Msg DList Groups.

(** ** Accounting *)

Definition counters (g : nchan_group_t) : list Z :=
  [channels g; multiplexed_channels g; subscribers g; messages g; messages_shmem_bytes g; messages_file_bytes g].

(** What a callback adds to each counter. *)
Definition delta (cb : group_callback_t) : list Z :=
  match cb with
  | group_add_channel_callback multi self n =>
      [if multi then 0 else if self then n else 0; if multi then n else 0; 0; 0; 0; 0]
  | group_add_message_callback mem_sz file_sz n =>
      [0; 0; 0; n; n * mem_sz; if 0 <? file_sz then n * file_sz else 0]
  | group_add_subscribers_callback n => [0; 0; n; 0; 0; 0]
  | _ => [0; 0; 0; 0; 0; 0]
  end.

Definition add_list : list Z -> list Z -> list Z := zip_with Z.add.
Definition wrap_list : list Z -> list Z := fmap (wraps 64).

(** What a callback does to the group in shared memory. *)
Definition apply_update (cb : group_callback_t) (g : nchan_group_t) : nchan_group_t :=
  match cb with
  | group_add_channel_callback multi self n => group_add_channel_internal g multi self n
  | group_add_message_callback mem_sz file_sz n => group_add_message_internal g mem_sz file_sz n
  | group_add_subscribers_callback n => group_add_subscribers_internal g n
  | set_group_limits_callback limits _ => apply_limits limits g
  | _ => g
  end.

Definition in_range (g : nchan_group_t) : Prop := Forall (in_s 64) (counters g).

Lemma s64_in x : in_s 64 x -> s64 (x + 0) = x.
Proof. intros. rewrite Z.add_0_r. apply wraps_small; [lia|done]. Qed.

Lemma delta_length cb : length (delta cb) = 6%nat.
Proof. by destruct cb. Qed.

Lemma apply_update_counters cb g :
  in_range g ->
  counters (apply_update cb g) = wrap_list (add_list (counters g) (delta cb)) /\ in_range (apply_update cb g) /\
  group_name (apply_update cb g) = group_name g.
Proof.
  intros R. unfold in_range in *.
  assert (counters (apply_update cb g) = wrap_list (add_list (counters g) (delta cb))) as E.
  { unfold counters in *. rewrite !Forall_cons in R. destruct R as (R1 & R2 & R3 & R4 & R5 & R6 & _).
    destruct cb as [multi self n|mem_sz file_sz n|n| | |]; simpl;
      unfold group_add_channel_internal, group_add_message_internal;
      repeat case_match; simpl; by rewrite ?s64_in by done. }
  split_and!; [done| |].
  - rewrite E. apply Forall_fmap, Forall_true. intros x. apply wraps_range. lia.
  - destruct cb as [multi self n|mem_sz file_sz n|n| | |]; try done.
    unfold group_add_channel_internal. by destruct multi, self.
Qed.

Lemma wrap_add_wrap a b : wrap_list (add_list (wrap_list a) b) = wrap_list (add_list a b).
Proof.
  unfold wrap_list, add_list. revert b. induction a as [|x a IH]; intros [|y b]; simpl; try done.
  by rewrite wraps_add, IH.
Qed.

Lemma add_list_assoc a b c : add_list (add_list a b) c = add_list a (add_list b c).
Proof.
  unfold add_list. revert b c. induction a as [|x a IH]; intros [|y b] [|z c]; simpl; try done.
  by rewrite IH, Z.add_assoc.
Qed.

Lemma add_list_comm a b : add_list a b = add_list b a.
Proof.
  unfold add_list. revert b. induction a as [|x a IH]; intros [|y b]; simpl; try done. by rewrite IH, Z.add_comm.
Qed.

Lemma wrap_list_id l : Forall (in_s 64) l -> wrap_list l = l.
Proof.
  unfold wrap_list. induction 1 as [|x l Hx _ IH]; [done|]. rewrite fmap_cons, IH. by rewrite wraps_small.
Qed.

Definition zeros : list Z := [0; 0; 0; 0; 0; 0].
Arguments add_list : simpl never.
Arguments wrap_list : simpl never.

Definition total (cbs : list group_callback_t) : list Z := foldr (fun cb acc => add_list (delta cb) acc) zeros cbs.

Lemma add_zeros_r d : length d = 6%nat -> add_list d zeros = d.
Proof. do 7 (destruct d; try done). unfold add_list; simpl; intros _. by rewrite !Z.add_0_r. Qed.

Lemma add_list_length a b : length a = 6%nat -> length b = 6%nat -> length (add_list a b) = 6%nat.
Proof. intros E1 E2. unfold add_list. by rewrite length_zip_with, E1, E2. Qed.

Lemma total_length cbs : length (total cbs) = 6%nat.
Proof. induction cbs as [|cb cbs IH]; [done|]. by apply add_list_length; [apply delta_length|]. Qed.

Lemma total_one cb : total [cb] = delta cb.
Proof. apply add_zeros_r, delta_length. Qed.

Lemma total_app cbs1 cbs2 : total (cbs1 ++ cbs2) = add_list (total cbs1) (total cbs2).
Proof.
  induction cbs1 as [|c cbs1 IH]; simpl.
  - by rewrite add_list_comm, add_zeros_r by (by apply total_length).
  - by rewrite IH, add_list_assoc.
Qed.

(** ** Deleting a group *)

Lemma off_ne : OFF_PREV <> OFF_NEXT.
Proof. discriminate. Qed.

(** The checks of [memstore_group_dissociate_own_channel] pass on a list, so it
    performs the two writes of [unlink]. *)
Lemma checked_unlink h xs1 ch xs2 :
  dlist OFF_PREV OFF_NEXT h (xs1 ++ ch :: xs2) ->
  (h1 ← match last xs1 with
        | Some p => pn ← load h p OFF_NEXT; c_assert (bool_decide (pn = Some ch));; store h p OFF_NEXT (head xs2)
        | None => Ret h
        end;
   match head xs2 with
   | Some q => qp ← load h1 q OFF_PREV; c_assert (bool_decide (qp = Some ch));; store h1 q OFF_PREV (last xs1)
   | None => Ret h1
   end) = unlink OFF_PREV OFF_NEXT h (last xs1) (head xs2).
Proof.
  intros [ND S]. unfold unlink.
  assert (forall p, last xs1 = Some p -> h !! (p, OFF_NEXT) = Some (Some ch)) as L1.
  { intros p [ys ->]%last_Some. rewrite <- app_assoc in S. apply dseg_lookup in S as [_ S]. exact S. }
  assert (forall q, head xs2 = Some q -> h !! (q, OFF_PREV) = Some (Some ch)) as L2.
  { intros q Hq. destruct xs2 as [|q' xs2]; simplify_eq/=.
    replace (xs1 ++ ch :: q :: xs2) with ((xs1 ++ [ch]) ++ q :: xs2) in S by (by rewrite <- app_assoc).
    apply dseg_lookup in S as [S _]. by rewrite last_or_snoc in S. }
  destruct (last xs1) as [p|], (head xs2) as [q|]; simpl; unfold load, store.
  all: try rewrite (L1 p eq_refl); simpl; try rewrite (L2 q eq_refl); simpl; try done.
  all: rewrite bool_decide_eq_true_2 by done; simpl; try done.
  rewrite lookup_insert_ne, (L2 q eq_refl) by (intros [=]). simpl. by rewrite bool_decide_eq_true_2.
Qed.

Section deletion.
Context `{Sizeof}.
Context (slot : Z) (name : bytes).

Lemma dissociate_spec w gtn xs1 ch xs2 :
  nodes w !! name = Some gtn -> dlist OFF_PREV OFF_NEXT (ch_links w) (xs1 ++ ch :: xs2) ->
  owned_chanhead_head gtn = head (xs1 ++ ch :: xs2) ->
  exists h', memstore_group_dissociate_own_channel slot w name ch slot false =
    Ret (upd_node (set_links w h') name (GTN (group gtn) (when_ready gtn) (head (xs1 ++ xs2)) (getting_group gtn))) /\
    dlist OFF_PREV OFF_NEXT h' (xs1 ++ xs2).
Proof.
  intros Hn D Hh. unfold memstore_group_dissociate_own_channel. rewrite Hn, Z.eqb_refl. simpl.
  pose proof D as [ND S]. destruct (dseg_lookup _ _ _ _ _ _ _ _ S) as [E1 E2].
  rewrite last_or_None in E1. rewrite hd_or_None in E2.
  rewrite (load_Some _ _ _ _ E1), bind_Ret, (load_Some _ _ _ _ E2), bind_Ret.
  rewrite <- bind_assoc, checked_unlink by done.
  destruct (unlink_spec OFF_PREV OFF_NEXT (ch_links w) xs1 ch xs2 off_ne D) as (h' & -> & [ND' S'] & Dm & _).
  rewrite bind_Ret. assert (ch ∉ xs1 ++ xs2) as Nc.
  { apply NoDup_app in ND as (? & N1 & [N2 ?]%NoDup_cons). intros [Hc|Hc]%elem_of_app; [|done].
    apply (N1 ch Hc). by left. }
  assert (is_Some (h' !! (ch, OFF_PREV)) /\ is_Some (h' !! (ch, OFF_NEXT))) as [Lp Ln].
  { apply (live_dom OFF_PREV OFF_NEXT (ch_links w)); [done|]. split; eauto. }
  rewrite store_live by done. rewrite bind_Ret, store_live
    by (by apply lookup_insert_is_Some', or_intror). rewrite bind_Ret.
  assert ((if decide (owned_chanhead_head gtn = Some ch) then head xs2 else owned_chanhead_head gtn)
    = head (xs1 ++ xs2)) as Eh.
  { rewrite Hh. destruct xs1 as [|x xs1]; simpl; [by rewrite decide_True|].
    rewrite decide_False; [done|]. intros [= ->]. apply Nc. by left. }
  rewrite Eh, bind_Ret, bool_decide_eq_false_2; [eexists; split; [reflexivity|]|].
  - split; [done|]. by repeat apply dseg_insert_other.
  - rewrite <- hd_or_None. intros Hc%hd_or_elem. done.
Qed.

Lemma associate_spec w gtn xs ch :
  nodes w !! name = Some gtn -> dlist OFF_PREV OFF_NEXT (ch_links w) xs ->
  owned_chanhead_head gtn = head xs -> ch ∉ xs ->
  ch_links w !! (ch, OFF_PREV) = Some None -> is_Some (ch_links w !! (ch, OFF_NEXT)) ->
  exists h', memstore_group_associate_own_channel slot w name ch slot false =
    Ret (upd_node (set_links w h') name (GTN (group gtn) (when_ready gtn) (Some ch) (getting_group gtn))) /\
    dlist OFF_PREV OFF_NEXT h' (ch :: xs).
Proof.
  intros Hn [ND S] Hh Nc Hp Hx. unfold memstore_group_associate_own_channel.
  rewrite Hn, Z.eqb_refl. simpl. rewrite store_live by done. rewrite bind_Ret, Hh.
  apply (dseg_insert_other _ _ _ _ _ _ ch OFF_NEXT (head xs) Nc) in S.
  destruct xs as [|x xs]; simpl.
  - eexists. split; [reflexivity|]. split; [by constructor|]. simpl.
    rewrite lookup_insert_eq, lookup_insert_ne by done. by rewrite Hp.
  - destruct (dseg_live _ _ _ _ _ _ x S) as [Lx _]; [by left|]. rewrite store_live by done. rewrite bind_Ret.
    eexists. split; [reflexivity|]. assert (ch <> x) by set_solver. split; [by constructor|]. simpl hd_or.
    apply (dseg_set_prev _ _ off_ne _ _ (Some ch)) in S; [|done]. apply dseg_cons. split_and!; [| |exact S].
    + by rewrite !lookup_insert_ne by (intros ?; simplify_eq).
    + rewrite lookup_insert_ne by (intros ?; simplify_eq). by rewrite lookup_insert_eq.
Qed.

Lemma delete_owned_spec xs fuel w gtn :
  (length xs < fuel)%nat -> nodes w !! name = Some gtn -> dlist OFF_PREV OFF_NEXT (ch_links w) xs ->
  owned_chanhead_head gtn = head xs ->
  exists w', delete_owned slot fuel w name = Ret w' /\ deleted_channels w' = deleted_channels w ++ xs /\
    shm w' = shm w /\ called w' = called w /\
    nodes w' !! name = Some (GTN (group gtn) (when_ready gtn) None (getting_group gtn)).
Proof.
  revert fuel w gtn. induction xs as [|x xs IH]; intros fuel w gtn Hf Hn D Hh;
    (destruct fuel as [|fuel]; [simpl in Hf; lia|]); simpl delete_owned; rewrite Hn, Hh; simpl.
  - exists w. rewrite app_nil_r. split_and!; try done. rewrite Hn. f_equal. destruct gtn; simpl in *; by subst.
  - destruct (dissociate_spec w gtn [] x xs Hn D Hh) as (h' & -> & D'). rewrite bind_Ret. simpl in D'.
    edestruct (IH fuel (delete_channel (upd_node (set_links w h') name
      (GTN (group gtn) (when_ready gtn) (head ([] ++ xs)) (getting_group gtn))) x))
      as (w' & E & Ed & Es & Ec & En); [simpl in Hf; lia|simpl; apply lookup_insert_eq|exact D'|done|].
    exists w'. rewrite E. split_and!; auto. rewrite Ed. simpl. by rewrite <- app_assoc.
Qed.

Lemma run_null_frame cbs w :
  let w' := foldl run_callback_null w cbs in
  shm w' = shm w /\ nodes w' = nodes w /\ ch_links w' = ch_links w /\ deleted_channels w' = deleted_channels w.
Proof.
  revert w. induction cbs as [|cb cbs IH]; intros w; [done|]. simpl.
  specialize (IH (run_callback_null w cb)). simpl in IH. destruct IH as (-> & -> & -> & ->).
  destruct cb as [| | |? [|]| |]; done.
Qed.
End deletion.

(** ** Which updates are applied *)

(** Where the updates are while one worker waits for the group: the abstract
    account of a run. *)
Record tally_t := Tally {
  arrived : bool;                          (* this worker knows the group *)
  waiting : list group_callback_t;         (* queued until it does *)
  applied : list group_callback_t;
  dropped : list group_callback_t;
}.

Section accounting.
Context `{Sizeof}.
Context (owner : bytes -> Z) (slot : Z) (name : bytes) (p : positive) (fuel : nat).

(** What happens around one group: this worker updates it, the group arrives,
    its deletion arrives, or another worker updates it in shared memory. *)
Inductive group_op :=
  | Update (now : Z) (cb : group_callback_t)
  | Receive
  | Delete
  | OtherUpdate (cb : group_callback_t).

Definition run_group_op (w : groups_t) (o : group_op) : outcome groups_t :=
  match o with
  | Update now cb => with_group slot now fuel w name cb
  | Receive => memstore_group_receive owner slot fuel w p
  | Delete => memstore_group_receive_delete slot fuel w p
  | OtherUpdate cb => Ret (upd_shm w p (apply_update cb))
  end.

Fixpoint run_group_ops (w : groups_t) (os : list group_op) : outcome groups_t :=
  match os with
  | [] => Ret w
  | o :: os' => w' ← run_group_op w o; run_group_ops w' os'
  end.

Definition update_of (o : group_op) : list group_callback_t :=
  match o with Update _ cb | OtherUpdate cb => [cb] | Receive | Delete => [] end.
Definition updates_of (os : list group_op) : list group_callback_t := os ≫= update_of.

(** A worker that does not own the group does not queue the owner's deletion. *)
Definition of_other (cb : group_callback_t) : Prop :=
  match cb with group_delete_callback owned _ => owned = false | _ => True end.

Definition tally_step (a : tally_t) (o : group_op) : tally_t :=
  match o with
  | Update _ cb =>
      if arrived a then Tally true (waiting a) (applied a ++ [cb]) (dropped a)
      else Tally false (waiting a ++ [cb]) (applied a) (dropped a)
  | Receive => Tally true [] (applied a ++ waiting a) (dropped a)
  | Delete => Tally (arrived a) [] (applied a) (dropped a ++ waiting a)
  | OtherUpdate cb => Tally (arrived a) (waiting a) (applied a ++ [cb]) (dropped a)
  end.

Definition tally : tally_t -> list group_op -> tally_t := foldl tally_step.
Definition tally_init : tally_t := Tally false [] [] [].

Lemma tally_all a os :
  applied (tally a os) ++ waiting (tally a os) ++ dropped (tally a os)
    ≡ₚ (applied a ++ waiting a ++ dropped a) ++ updates_of os.
Proof.
  revert a. induction os as [|o os IH]; intros a; simpl; [by rewrite app_nil_r|].
  unfold tally in IH. rewrite IH. unfold updates_of. simpl. rewrite !app_assoc. apply Permutation_app; [|done]. rewrite <- !app_assoc.
  destruct a as [here q ap dr], o as [now cb| | |cb]; [destruct here| | |]; simpl; solve_Permutation.
Qed.

Lemma tally_arrived a os : arrived a = true \/ Receive ∈ os -> arrived (tally a os) = true.
Proof.
  revert a. induction os as [|o os IH]; intros a; simpl; [by intros [?|?%not_elem_of_nil]|].
  intros K. apply IH. destruct K as [K|[<-|K]%elem_of_cons]; [left|by left|by right].
  destruct o; simpl; by rewrite ?K.
Qed.

Lemma tally_settled a os :
  (arrived a = true -> waiting a = []) -> arrived (tally a os) = true -> waiting (tally a os) = [].
Proof.
  revert a. induction os as [|o os IH]; intros a K; [done|]. simpl. apply IH.
  destruct o; simpl; auto. by destruct (arrived a).
Qed.

(** Only a deletion that comes before the group drops anything. *)
Lemma tally_dropped a os :
  (arrived a = true -> waiting a = []) -> dropped (tally a os) <> dropped a ->
  arrived a = false /\ exists os1 os2, os = os1 ++ Delete :: os2 /\ Receive ∉ os1.
Proof.
  revert a. induction os as [|o os IH]; intros a K D; [done|]. simpl in D.
  assert (dropped (tally_step a o) = dropped a -> o <> Receive -> (arrived (tally_step a o) = false -> arrived a = false) ->
    arrived a = false /\ exists os1 os2, o :: os = os1 ++ Delete :: os2 /\ Receive ∉ os1) as Later.
  { intros Eo No Ar. destruct (IH (tally_step a o)) as (A & os1 & os2 & -> & N).
    - destruct o; simpl; auto. by destruct (arrived a).
    - by rewrite Eo.
    - split; [auto|]. exists (o :: os1), os2. split; [done|]. by intros [?|?]%elem_of_cons. }
  destruct o as [now cb| | |cb]; simpl in Later.
  - destruct (arrived a) eqn:Ea; by apply Later.
  - destruct (IH (tally_step a Receive)) as [A _]; [done|done|]. done.
  - destruct (arrived a) eqn:Ea.
    + apply Later; [by rewrite K, app_nil_r|done|done].
    + split; [done|]. exists [], os. split; [done|]. apply not_elem_of_nil.
  - by apply Later.
Qed.

Record tally_inv (g0 : list Z) (a : tally_t) (w : groups_t) : Prop := {
  tally_world : exists gtn g xs, nodes w !! name = Some gtn /\ shm w !! p = Some g /\ group_name g = name /\
    in_range g /\ Forall of_other (waiting a) /\ when_ready gtn = waiting a /\
    group gtn = (if arrived a then Some p else None) /\ (arrived a = true -> waiting a = []) /\
    dlist OFF_PREV OFF_NEXT (ch_links w) xs /\ owned_chanhead_head gtn = head xs /\ (length xs < fuel)%nat /\
    counters g = wrap_list (add_list g0 (total (applied a)));
}.

(** Running a callback with the group. *)
Lemma run_update w cb g :
  of_other cb -> shm w !! p = Some g ->
  exists w', run_callback slot fuel w p cb = Ret w' /\ nodes w' = nodes w /\ ch_links w' = ch_links w /\
    shm w' !! p = Some (apply_update cb g).
Proof.
  intros Ho Hg. assert (forall f, alter f p (shm w) !! p = Some (f g)) as A
    by (intros f; by rewrite lookup_alter_eq, Hg).
  destruct cb as [multi self n|mem_sz file_sz n|n|limits [k|]|owned k|k]; simpl in Ho; subst; simpl;
    (eexists; split; [reflexivity|]); simpl; rewrite ?A; done.
Qed.

Lemma run_updates cbs w g :
  Forall of_other cbs -> shm w !! p = Some g -> in_range g ->
  exists w' g', run_callbacks slot fuel w p cbs = Ret w' /\ nodes w' = nodes w /\ ch_links w' = ch_links w /\
    shm w' !! p = Some g' /\ group_name g' = group_name g /\ in_range g' /\
    counters g' = wrap_list (add_list (counters g) (total cbs)).
Proof.
  intros F. revert w g. induction F as [|cb cbs U F IH]; intros w g Hg R.
  - exists w, g. split_and!; try done. simpl. rewrite add_zeros_r by done. symmetry. by apply wrap_list_id.
  - cbn [run_callbacks]. destruct (run_update w cb g U Hg) as (w1 & -> & En1 & El1 & Eg1). rewrite bind_Ret.
    destruct (apply_update_counters cb g R) as (E & R' & N).
    destruct (IH w1 (apply_update cb g)) as (w' & g' & Ew & En & El & Eg & Egn & Er & Ec); [done|done|].
    exists w', g'. split_and!; try congruence. by rewrite Ec, E, wrap_add_wrap, add_list_assoc.
Qed.

Lemma tally_step_ok g0 a w o :
  tally_inv g0 a w -> owner name <> slot -> Forall of_other (update_of o) ->
  exists w', run_group_op w o = Ret w' /\ tally_inv g0 (tally_step a o) w'.
Proof.
  intros [(gtn & g & xs & Hn & Hg & Nm & R & F & Q & G & K & D & Hh & Hf & E)] Ho U.
  assert (forall cb here q w1, update_of o = [cb] -> here = arrived a -> q = waiting a ->
    nodes w1 = nodes w -> ch_links w1 = ch_links w -> shm w1 !! p = Some (apply_update cb g) ->
    tally_inv g0 (Tally here q (applied a ++ [cb]) (dropped a)) w1) as Direct.
  { intros cb here q w1 Ecb -> -> En El Es. destruct (apply_update_counters cb g R) as (Ec & R' & N').
    split. exists gtn, (apply_update cb g), xs. simpl. rewrite En, El. split_and!; try done; [congruence|].
    by rewrite Ec, E, wrap_add_wrap, total_app, total_one, add_list_assoc. }
  destruct o as [now cb| | |cb]; simpl run_group_op; simpl tally_step; simpl update_of in *.
  - apply Forall_cons in U as [U _]. unfold with_group. rewrite Hn, G. destruct (arrived a) eqn:Ea.
    + destruct (run_update w cb g U Hg) as (w1 & -> & En1 & El1 & Eg1). exists w1. split; [done|].
      by apply (Direct cb).
    + unfold add_whenready_callback. case_match; (eexists; split; [reflexivity|]); split; simpl.
      all: eexists _, g, xs; rewrite lookup_insert_eq; split_and!; simpl; try done.
      all: try (by apply Forall_app; split; [|by apply Forall_singleton]).
      all: by rewrite Q.
  - unfold memstore_group_receive. rewrite Hg, Nm, (proj2 (Z.eqb_neq _ _)) by done. simpl negb.
    cbn [c_assert mbind outcome_bind]. rewrite Hn.
    destruct (run_updates (when_ready gtn) (upd_node w name (GTN (Some p) (when_ready gtn) (owned_chanhead_head gtn) 0)) g)
      as (w' & g' & -> & En & El & Eg & Egn & Er & Ec); [by rewrite Q|done|done|].
    rewrite bind_Ret, En. simpl. rewrite lookup_insert_eq. eexists. split; [reflexivity|]. split.
    eexists _, g', xs. simpl. rewrite lookup_insert_eq, El. split_and!; simpl; try done; [congruence|].
    by rewrite Ec, E, Q, wrap_add_wrap, total_app, add_list_assoc.
  - unfold memstore_group_receive_delete. rewrite Hg, Nm, Hn.
    pose proof (run_null_frame (when_ready gtn) w) as Fr. simpl in Fr.
    set (w1 := foldl run_callback_null w (when_ready gtn)) in *. destruct Fr as (F1 & F2 & F3 & F4).
    edestruct (delete_owned_spec slot name xs fuel
      (upd_node w1 name (GTN (group gtn) [] (owned_chanhead_head gtn) (getting_group gtn))))
      as (w' & -> & Ed & Es & _ & En); [done|simpl; apply lookup_insert_eq|simpl; by rewrite F3|done|].
    eexists. split; [reflexivity|]. split. eexists _, g, []. rewrite En, Es. simpl. rewrite F1.
    split_and!; simpl; try done; [|lia]. split; [constructor|done].
  - eexists. split; [reflexivity|]. apply (Direct cb); try done. simpl. by rewrite lookup_alter_eq, Hg.
Qed.

Lemma tally_run g0 os a w :
  tally_inv g0 a w -> owner name <> slot -> Forall of_other (updates_of os) ->
  exists w', run_group_ops w os = Ret w' /\ tally_inv g0 (tally a os) w'.
Proof.
  revert a w. induction os as [|o os IH]; intros a w I Ho U; [by exists w|].
  apply Forall_app in U as [U1 U2]. destruct (tally_step_ok g0 a w o I Ho U1) as (w1 & E1 & I1).
  simpl. rewrite E1, bind_Ret. by apply IH.
Qed.
End accounting.

(** C22.  Where the updates of a group go while a worker waits for it: in any
    order of this worker's updates, of the updates other workers make directly,
    of arrivals of the group and of deletions of it, each counter is its
    initial value plus what the applied updates add, modulo its 64 bits; every
    update is applied, still queued or dropped, exactly one of the three; once
    the group has arrived none is queued; and updates are dropped only by a
    deletion that reaches the worker before the group does. *)
Theorem group_updates_accounted `{Sizeof} owner slot name p fuel w gtn g xs os :
  nodes w !! name = Some gtn -> group gtn = None -> when_ready gtn = [] ->
  shm w !! p = Some g -> group_name g = name -> in_range g -> owner name <> slot ->
  dlist OFF_PREV OFF_NEXT (ch_links w) xs -> owned_chanhead_head gtn = head xs -> (length xs < fuel)%nat ->
  Forall of_other (updates_of os) ->
  let t := tally tally_init os in
  (exists w' g' gtn', run_group_ops owner slot name p fuel w os = Ret w' /\ shm w' !! p = Some g' /\
     counters g' = wrap_list (add_list (counters g) (total (applied t))) /\
     nodes w' !! name = Some gtn' /\ when_ready gtn' = waiting t) /\
  applied t ++ waiting t ++ dropped t ≡ₚ updates_of os /\
  (Receive ∈ os -> waiting t = []) /\
  (dropped t <> [] -> exists os1 os2, os = os1 ++ Delete :: os2 /\ Receive ∉ os1).
Proof.
  intros Hn Hg Hw Hs Nm R Ho D Hh Hf U t. subst t. split_and!.
  - destruct (tally_run owner slot name p fuel (counters g) os tally_init w) as (w' & E & I); auto.
    { split. exists gtn, g, xs. split_and!; auto. simpl.
      rewrite add_zeros_r by done. symmetry. by apply wrap_list_id. }
    destruct I as [(gtn' & g' & xs' & A1 & A2 & A3 & A4 & A5 & A6 & A7 & A8 & A9 & A10 & A11 & A12)]. eauto 10.
  - by rewrite tally_all.
  - intros Rc. apply tally_settled; [done|]. apply tally_arrived. by right.
  - intros Nd. by destruct (tally_dropped tally_init os) as (_ & ?).
Qed.

Definition example_group : nchan_group_t := new_group (bytes_of "g").
Definition example_waiting : groups_t :=
  GW {[1%positive := example_group]} {[bytes_of "g" := GTN None [] None 1]} [] [] ∅ [].
Definition example_updates : list group_op :=
  [Update 100 (group_add_channel_callback false true 1); OtherUpdate (group_add_subscribers_callback 2);
   Update 101 (client_callback 7); Update 101 (group_add_message_callback 300 0 1); Receive; Delete;
   Update 102 (group_add_subscribers_callback (-1))].

Global Instance example_sizes : Sizeof := {| sizeof_nchan_msg_t := 200; sizeof_ngx_str_t := 16;
  sizeof_ngx_file_t := 64; sizeof_nchan_compressed_msg_t := 96 |}.

Lemma group_updates_accounted_witness :
  let t := tally tally_init example_updates in
  (exists w' g' gtn', run_group_ops (fun _ => 3) 1 (bytes_of "g") 1 1 example_waiting example_updates = Ret w' /\
     shm w' !! 1%positive = Some g' /\
     counters g' = wrap_list (add_list (counters example_group) (total (applied t))) /\
     nodes w' !! bytes_of "g" = Some gtn' /\ when_ready gtn' = waiting t) /\
  applied t ++ waiting t ++ dropped t ≡ₚ updates_of example_updates /\
  (Receive ∈ example_updates -> waiting t = []) /\
  (dropped t <> [] -> exists os1 os2, example_updates = os1 ++ Delete :: os2 /\ Receive ∉ os1).
Proof.
  apply (group_updates_accounted (fun _ => 3) 1 (bytes_of "g") 1 1 example_waiting (GTN None [] None 1) example_group []);
    try reflexivity.
  - repeat constructor; unfold in_s; simpl; lia.
  - discriminate.
  - split; [constructor|done].
  - simpl. lia.
  - repeat constructor.
Defined.

(** A deletion that comes first drops what is queued: five subscribers are
    never counted. *)
Example deletion_drops_updates :
  let os := [Update 100 (group_add_subscribers_callback 5); Delete; Receive] in
  dropped (tally tally_init os) = [group_add_subscribers_callback 5] /\
  exists w' g', run_group_ops (fun _ => 3) 1 (bytes_of "g") 1 1 example_waiting os = Ret w' /\
    shm w' !! 1%positive = Some g' /\ subscribers g' = 0.
Proof.
  split; [done|]. eexists _, _. split; [vm_compute; reflexivity|]. split; vm_compute; reflexivity.
Qed.

(** When the deletion of a group reaches a worker, every channel of the
    group that this worker owns is deleted, each exactly once and the most
    recently associated first; the worker keeps no owned channel and no queued
    callback, and the counters of the group are not touched. *)
Theorem group_delete_reaches_all `{Sizeof} slot w p g gtn xs fuel :
  shm w !! p = Some g -> nodes w !! group_name g = Some gtn ->
  dlist OFF_PREV OFF_NEXT (ch_links w) xs -> owned_chanhead_head gtn = head xs -> (length xs < fuel)%nat ->
  exists w', memstore_group_receive_delete slot fuel w p = Ret w' /\
    deleted_channels w' = deleted_channels w ++ xs /\ shm w' = shm w /\
    nodes w' !! group_name g = Some (GTN (group gtn) [] None (getting_group gtn)).
Proof.
  intros Hs Hn D Hh Hf. unfold memstore_group_receive_delete. rewrite Hs, Hn.
  pose proof (run_null_frame (when_ready gtn) w) as F. simpl in F.
  set (w1 := foldl run_callback_null w (when_ready gtn)) in *. destruct F as (F1 & F2 & F3 & F4).
  edestruct (delete_owned_spec slot (group_name g) xs fuel
    (upd_node w1 (group_name g) (GTN (group gtn) [] (owned_chanhead_head gtn) (getting_group gtn))))
    as (w' & E & Ed & Es & _ & En); [done|simpl; apply lookup_insert_eq|simpl; by rewrite F3|done|].
  exists w'. rewrite E. split_and!; auto; [by rewrite Ed; simpl; rewrite F4|by rewrite Es].
Qed.

Definition example_links : mem :=
  <[(1%positive, OFF_PREV) := None]> (<[(1%positive, OFF_NEXT) := Some 2%positive]>
  (<[(2%positive, OFF_PREV) := Some 1%positive]> {[(2%positive, OFF_NEXT) := None]})).

Definition example_deleting : groups_t :=
  GW {[1%positive := example_group]} {[bytes_of "g" := GTN (Some 1%positive) [] (Some 1%positive) 0]} [] []
     example_links [].

Lemma group_delete_reaches_all_witness :
  exists w', memstore_group_receive_delete 1 3 example_deleting 1 = Ret w' /\
    deleted_channels w' = deleted_channels example_deleting ++ [1%positive; 2%positive] /\
    shm w' = shm example_deleting /\
    nodes w' !! group_name example_group = Some (GTN (Some 1%positive) [] None 0).
Proof.
  apply (group_delete_reaches_all 1 example_deleting 1 example_group
    (GTN (Some 1%positive) [] (Some 1%positive) 0) [1%positive; 2%positive] 3); try reflexivity.
  - split; [repeat constructor; set_solver|]. simpl. repeat split; reflexivity.
  - simpl. lia.
Defined.

(** ** Limits *)

(** The channel limit of a group is applied differently to publishers and
    subscribers.  With one free channel left a publisher cannot create the last
    channel, which a subscriber can; and once the limit is reached a publisher
    cannot publish even to a channel that exists, while a subscriber can
    subscribe to it. *)
Theorem publisher_channel_limit `{Sizeof} g m n local :
  limit_messages (limit g) = 0 -> limit_messages_shmem_bytes (limit g) = 0 ->
  limit_messages_file_bytes (limit g) = 0 -> 0 < limit_channels (limit g) ->
  (channels g = limit_channels (limit g) - 1 ->
     publish_decision (Some g) m n false false = publish_forbidden limit_number_of_channels /\
     subscribe_decision (Some g) false = subscribe_authorized) /\
  (channels g = limit_channels (limit g) ->
     publish_decision (Some g) m n local true = publish_forbidden limit_number_of_channels /\
     subscribe_decision (Some g) true = subscribe_authorized).
Proof.
  intros L1 L2 L3 L4. unfold publish_decision, group_publish_accounting_check, subscribe_decision,
    group_subscribe_channel_limit_check. rewrite L1, L2, L3. simpl.
  rewrite (proj2 (Z.eqb_neq (limit_channels (limit g)) 0)) by lia. simpl. split; intros ->.
  - rewrite Z.sub_add, Z.eqb_refl, (proj2 (Z.ltb_lt _ _)) by lia. done.
  - rewrite (proj2 (Z.eqb_neq (_ + 1) _)), Z.leb_refl, Z.ltb_irrefl, Z.eqb_refl by lia. done.
Qed.

Lemma publisher_channel_limit_witness :
  publish_decision (Some (Group (bytes_of "g") 2 0 0 0 0 0 (Limits 3 0 0 0 0))) example_msg 1 false false
    = publish_forbidden limit_number_of_channels /\
  subscribe_decision (Some (Group (bytes_of "g") 2 0 0 0 0 0 (Limits 3 0 0 0 0))) false = subscribe_authorized.
Proof.
  apply (publisher_channel_limit (Group (bytes_of "g") 2 0 0 0 0 0 (Limits 3 0 0 0 0)) example_msg 1 true);
    simpl; lia.
Defined.

(** What the limits guarantee: a message that is let through keeps the
    group within its limit on the number of messages and on the shared memory
    they use, when the counters are those at the time of the check. *)
Theorem publish_respects_limits `{Sizeof} g m n local exists_ :
  publish_decision (Some g) m n local exists_ = publish_go ->
  (limit_messages (limit g) <> 0 -> messages g + 1 <= limit_messages (limit g)) /\
  (limit_messages_shmem_bytes (limit g) <> 0 ->
     messages_shmem_bytes g + n * msg_memsize m <= limit_messages_shmem_bytes (limit g)) /\
  (limit_channels (limit g) <> 0 -> channels g < limit_channels (limit g) /\
     (local = false -> exists_ = false -> channels g + 1 < limit_channels (limit g))).
Proof.
  unfold publish_decision, group_publish_accounting_check.
  destruct (Z.eqb_spec (limit_messages (limit g)) 0), (Z.ltb_spec (messages g) (limit_messages (limit g)));
    simpl; try done;
  destruct (Z.eqb_spec (limit_messages_shmem_bytes (limit g)) 0),
    (Z.leb_spec (messages_shmem_bytes g + n * msg_memsize m) (limit_messages_shmem_bytes (limit g))); simpl; try done;
  destruct (Z.eqb_spec (limit_messages_file_bytes (limit g)) 0),
    (Z.leb_spec (messages_file_bytes g + ngx_buf_size (buf m)) (limit_messages_file_bytes (limit g))); simpl; try done;
  destruct (Z.eqb_spec (limit_channels (limit g)) 0); simpl; try lia;
  destruct (Z.eqb_spec (channels g + 1) (limit_channels (limit g)));
  try destruct local; try destruct exists_; simpl; try done;
  try destruct (Z.leb_spec (limit_channels (limit g)) (channels g)); try done; intros _; split_and!; try lia; done.
Qed.

Lemma publish_respects_limits_witness :
  let g := Group (bytes_of "g") 1 0 0 4 0 0 (Limits 3 0 5 0 0) in
  (limit_messages (limit g) <> 0 -> messages g + 1 <= limit_messages (limit g)) /\
  (limit_messages_shmem_bytes (limit g) <> 0 ->
     messages_shmem_bytes g + 1 * msg_memsize example_msg <= limit_messages_shmem_bytes (limit g)) /\
  (limit_channels (limit g) <> 0 -> channels g < limit_channels (limit g) /\
     (false = false -> false = false -> channels g + 1 < limit_channels (limit g))).
Proof.
  apply (publish_respects_limits (Group (bytes_of "g") 1 0 0 4 0 0 (Limits 3 0 5 0 0)) example_msg 1 false false).
  reflexivity.
Defined.
