(* ===== verification/ChanHead.v ===== *)
(** * Channels of the memory store ([store/memory/memstore.c])

    A channel head keeps the buffered messages of a channel in a doubly linked
    list of [store_message_t], oldest first, and its bookkeeping: counters in
    shared memory, reservations, and its place in the garbage collection and
    churn queues.  Every [store_message_t] has a message of its own. *)

From S2P Require Import Prelude Nginx MsgId Msg DList Groups.

(** ** Data *)

Inductive chanhead_pubsub_status_t :=
  | INACTIVE | NOTREADY | WAITING | STUBBED | READY | DELETED.
Global Instance chanhead_status_eq_dec : EqDecision chanhead_pubsub_status_t.
Proof. solve_decision. Defined.

(** [store_channel_head_shm_t]; the counters are [ngx_atomic_t]. *)
Record store_channel_head_shm_t := Shared {
  shared_sub_count : Z;
  shared_internal_sub_count : Z;
  total_message_count : Z;
  stored_message_count : Z;
  last_seen : Z;
  outside_refcount : Z;
}.

(** What the code looks at of the location's configuration. *)
Record loc_conf := LocConf {
  redis_enabled : bool;
  redis_distributed : bool;    (* storage_mode >= REDIS_MODE_DISTRIBUTED *)
  conf_max_messages : Z;       (* nchan_loc_conf_max_messages *)
  conf_message_timeout : Z;    (* nchan_loc_conf_message_timeout *)
}.

Record memstore_channel_head_t := CH {
  owner : Z;
  slot : Z;
  status : chanhead_pubsub_status_t;
  sub_count : Z;
  internal_sub_count : Z;
  last_subscribed_local : Z;
  reserved : Z;                          (* uint16_t *)
  multi : bool;
  shared : option store_channel_head_shm_t;
  max_messages : Z;                      (* ngx_uint_t *)
  msg_first : ptr;
  msg_last : ptr;
  latest_msgid : nchan_msg_id_t;
  foreign_owner_ipc_sub : bool;          (* not NULL *)
  redis_idle_cache_ttl : Z;
  stub : bool;
  shutting_down : bool;
  msg_buffer_complete : bool;
  cf : loc_conf;
  groupnode : option bytes;
  delta_fakesubs : Z;
  gc_start_time : Z;
  gc_queued_times : Z;
  in_gc_queue : bool;
  churn_start_time : Z;
  in_churn_queue : bool;
}.

(** The worker's store: the links and messages of the [store_message_t]s, the
    groups, and the messages handed to the two message reapers. *)
Record memstore := MemStore {
  links : mem;
  smsgs : gmap positive nchan_msg_t;
  groups : groups_t;
  msg_reaper : list positive;
  nobuffer_msg_reaper : list positive;
}.

Definition SM_PREV : Z := 8.
Definition SM_NEXT : Z := 16.

Definition set_buffer (ch : memstore_channel_head_t) (first last : ptr) (sh : option store_channel_head_shm_t) :=
  CH (owner ch) (slot ch) (status ch) (sub_count ch) (internal_sub_count ch) (last_subscribed_local ch)
     (reserved ch) (multi ch) sh (max_messages ch) first last (latest_msgid ch) (foreign_owner_ipc_sub ch)
     (redis_idle_cache_ttl ch) (stub ch) (shutting_down ch) (msg_buffer_complete ch) (cf ch) (groupnode ch)
     (delta_fakesubs ch) (gc_start_time ch) (gc_queued_times ch) (in_gc_queue ch) (churn_start_time ch) (in_churn_queue ch).

Definition set_publish (ch : memstore_channel_head_t) (max : Z) (latest : nchan_msg_id_t) :=
  CH (owner ch) (slot ch) (status ch) (sub_count ch) (internal_sub_count ch) (last_subscribed_local ch)
     (reserved ch) (multi ch) (shared ch) max (msg_first ch) (msg_last ch) latest (foreign_owner_ipc_sub ch)
     (redis_idle_cache_ttl ch) (stub ch) (shutting_down ch) (msg_buffer_complete ch) (cf ch) (groupnode ch)
     (delta_fakesubs ch) (gc_start_time ch) (gc_queued_times ch) (in_gc_queue ch) (churn_start_time ch) (in_churn_queue ch).

Definition add_counts (sh : store_channel_head_shm_t) (stored total : Z) : store_channel_head_shm_t :=
  Shared (shared_sub_count sh) (shared_internal_sub_count sh) (u64 (total_message_count sh + total))
         (u64 (stored_message_count sh + stored)) (last_seen sh) (outside_refcount sh).

Definition set_links (w : memstore) (h : mem) : memstore :=
  MemStore h (smsgs w) (groups w) (msg_reaper w) (nobuffer_msg_reaper w).
Definition set_groups (w : memstore) (g : groups_t) : memstore :=
  MemStore (links w) (smsgs w) g (msg_reaper w) (nobuffer_msg_reaper w).
Definition msg_reaper_add (w : memstore) (p : positive) : memstore :=
  MemStore (links w) (smsgs w) (groups w) (msg_reaper w ++ [p]) (nobuffer_msg_reaper w).
Definition nobuffer_msg_reaper_add (w : memstore) (p : positive) : memstore :=
  MemStore (links w) (smsgs w) (groups w) (msg_reaper w) (nobuffer_msg_reaper w ++ [p]).
Definition put_msg (w : memstore) (p : positive) (m : nchan_msg_t) : memstore :=
  MemStore (links w) (<[p := m]> (smsgs w)) (groups w) (msg_reaper w) (nobuffer_msg_reaper w).

Definition get_msg (w : memstore) (p : positive) : outcome nchan_msg_t :=
  match smsgs w !! p with Some m => Ret m | None => Crash end.
Definition get_msg_ptr (w : memstore) (p : ptr) : outcome nchan_msg_t :=
  match p with Some p => get_msg w p | None => Crash end.
Definition get_shared (ch : memstore_channel_head_t) : outcome store_channel_head_shm_t :=
  match shared ch with Some s => Ret s | None => Crash end.

Inductive nchan_msg_status_t :=
  | MSG_ERROR | MSG_CHANNEL_NOTREADY | MSG_INVALID | MSG_PENDING | MSG_NOTFOUND | MSG_FOUND
  | MSG_EXPECTED | MSG_EXPIRED.

Definition NCHAN_NOBUFFER_MSG_EXPIRE_SEC : Z := 10.
Definition NCHAN_CHANHEAD_EXPIRE_SEC : Z := 5.
Definition NCHAN_MESSAGE_RECEIVED : Z := 9000.
Definition NCHAN_MESSAGE_QUEUED : Z := 9001.
Definition NGX_HTTP_INTERNAL_SERVER_ERROR : Z := 500.

Section channel.
Context `{Sizeof}.
(** This worker, and the cached time. *)
Context (memstore_slot : Z) (ngx_time : Z).

(** ** The message buffer *)

(** Group accounting for a message entering or leaving the buffer. *)
Definition group_message (w : memstore) (g : option bytes) (m : nchan_msg_t) (n : Z) : outcome memstore :=
  match g with
  | None => Ret w
  | Some name => g' ← memstore_group_add_message_generic memstore_slot ngx_time 0 (groups w) name m n;
                 Ret (set_groups w g')
  end.

Definition chanhead_delete_message (w : memstore) (ch : memstore_channel_head_t) (msg : positive) :
    outcome (memstore * memstore_channel_head_t) :=
  next ← load (links w) msg SM_NEXT;
  prev ← load (links w) msg SM_PREV;
  let first := if decide (msg_first ch = Some msg) then next else msg_first ch in
  let last := if decide (msg_last ch = Some msg) then prev else msg_last ch in
  h1 ← match next with Some n => store (links w) n SM_PREV prev | None => Ret (links w) end;
  match prev with
  | Some _ => Crash    (* assert(0) *)
  | None =>
      sh ← get_shared ch;
      m ← get_msg w msg;
      w1 ← group_message (set_links w h1) (groupnode ch) m (-1);
      Ret (msg_reaper_add w1 msg, set_buffer ch first last (Some (add_counts sh (-1) 0)))
  end.

(** The two loops of [chanhead_messages_gc_custom]; [fuel] bounds the number
    of buffered messages. *)
Fixpoint gc_too_many (fuel : nat) (w : memstore) (ch : memstore_channel_head_t) (cur : ptr) (max : Z) :
    outcome (memstore * memstore_channel_head_t * ptr) :=
  match fuel with
  | O => NoFuel
  | S fuel' =>
      match cur with
      | None => Ret (w, ch, None)
      | Some c =>
          if max <? 0 then Ret (w, ch, cur)
          else
            sh ← get_shared ch;
            if max <? stored_message_count sh then
              next ← load (links w) c SM_NEXT;
              '(w1, ch1) ← chanhead_delete_message w ch c;
              gc_too_many fuel' w1 ch1 next max
            else Ret (w, ch, cur)
      end
  end.

Fixpoint gc_expired (fuel : nat) (w : memstore) (ch : memstore_channel_head_t) (cur : ptr) :
    outcome (memstore * memstore_channel_head_t) :=
  match fuel with
  | O => NoFuel
  | S fuel' =>
      match cur with
      | None => Ret (w, ch)
      | Some c =>
          m ← get_msg w c;
          if expires m <? ngx_time then
            next ← load (links w) c SM_NEXT;
            '(w1, ch1) ← chanhead_delete_message w ch c;
            gc_expired fuel' w1 ch1 next
          else Ret (w, ch)
      end
  end.

(** Enough for every list of distinct messages. *)
Definition buffer_fuel (w : memstore) : nat := S (size (smsgs w)).

(** [max_messages] is an [ngx_int_t]. *)
Definition chanhead_messages_gc_custom (w : memstore) (ch : memstore_channel_head_t) (max : Z) :
    outcome (memstore * memstore_channel_head_t) :=
  if negb (owner ch =? memstore_slot) then
    c_assert (bool_decide (msg_first ch = None));;
    c_assert (bool_decide (msg_last ch = None));;
    Ret (w, ch)
  else
    '(w1, ch1, cur) ← gc_too_many (buffer_fuel w) w ch (msg_first ch) max;
    gc_expired (buffer_fuel w) w1 ch1 cur.

Definition memstore_chanhead_messages_gc (w : memstore) (ch : memstore_channel_head_t) :=
  chanhead_messages_gc_custom w ch (s64 (max_messages ch)).

Definition chanhead_messages_delete (w : memstore) (ch : memstore_channel_head_t) :=
  chanhead_messages_gc_custom w ch 0.

Definition chanhead_push_message (w : memstore) (ch : memstore_channel_head_t) (msg : positive) :
    outcome (memstore * memstore_channel_head_t * Z) :=
  h1 ← store (links w) msg SM_NEXT None;
  h2 ← store h1 msg SM_PREV (msg_last ch);
  m ← get_msg w msg;
  c_assert (tagcount (id m) =? 1);;
  '(h3, prev_id') ←
    (match msg_last ch with
     | Some p => h3 ← store h2 p SM_NEXT (Some msg); pm ← get_msg w p; Ret (h3, id pm)
     | None => Ret (h2, MsgId 0 (set_fixed0 (prev_id m) 0) (tagactive (prev_id m)) 1)
     end);
  let time' := if time (id m) =? 0 then ngx_time else time (id m) in
  last_id ← match msg_last ch with Some p => pm ← get_msg w p; Ret (Some (id pm)) | None => Ret None end;
  tag' ←
    (match last_id with
     | Some li =>
         if time li =? time' then t ← fixed0 li; Ret (set_fixed0 (id m) (s16 (t + 1)))
         else if negb (redis_enabled (cf ch)) || negb (redis_distributed (cf ch)) then Ret (set_fixed0 (id m) 0)
         else Ret (tag (id m))
     | None =>
         if negb (redis_enabled (cf ch)) || negb (redis_distributed (cf ch)) then Ret (set_fixed0 (id m) 0)
         else Ret (tag (id m))
     end);
  let m' := set_prev_id (set_id m (MsgId time' tag' (tagactive (id m)) (tagcount (id m)))) prev_id' in
  sh ← get_shared ch;
  let first := match msg_first ch with None => Some msg | f => f end in
  w1 ← group_message (put_msg (set_links w h3) msg m') (groupnode ch) m' 1;
  let ch1 := set_buffer ch first (Some msg) (Some (add_counts sh 1 1)) in
  '(w2, ch2) ← memstore_chanhead_messages_gc w1 ch1;
  Ret (w2, ch2, if decide (msg_last ch2 = Some msg) then NGX_OK else NGX_ERROR).

(** ** Reading the buffer *)

(** The search of the [n]th message from one end. *)
Fixpoint nth_walk (fuel : nat) (w : memstore) (cur prev : ptr) (n : Z) (off : Z) : outcome ptr :=
  match fuel with
  | O => NoFuel
  | S fuel' =>
      match cur with
      | None => Ret prev
      | Some c =>
          if 1 <? n then next ← load (links w) c off; nth_walk fuel' w next cur (n - 1) off
          else Ret cur
      end
  end.

(** The backward search for the last message that is not newer than the id. *)
Fixpoint find_walk (fuel : nat) (w : memstore) (cur : ptr) (mid_time mid_tag : Z) :
    outcome (nchan_msg_status_t * ptr) :=
  match fuel with
  | O => NoFuel
  | S fuel' =>
      match cur with
      | None => Ret (MSG_NOTFOUND, None)
      | Some c =>
          m ← get_msg w c;
          t ← fixed0 (id m);
          if (time (id m) <? mid_time) || ((mid_time =? time (id m)) && (t <=? mid_tag)) then
            next ← load (links w) c SM_NEXT;
            match next with
            | Some n => Ret (MSG_FOUND, Some n)
            | None => Ret (MSG_EXPECTED, None)
            end
          else prev ← load (links w) c SM_PREV; find_walk fuel' w prev mid_time mid_tag
      end
  end.

Definition chanhead_find_next_message (w : memstore) (ch : option memstore_channel_head_t)
    (msgid : nchan_msg_id_t) :
    outcome (memstore * option memstore_channel_head_t * nchan_msg_status_t * ptr) :=
  match ch with
  | None => Ret (w, None, MSG_NOTFOUND, None)
  | Some ch =>
      c_assert (msg_buffer_complete ch);;
      c_assert (owner ch =? memstore_slot);;
      '(w1, ch1) ← memstore_chanhead_messages_gc w ch;
      match msg_last ch1 with
      | None =>
          Ret (w1, Some ch1,
               if (time msgid =? NCHAN_OLDEST_MSGID_TIME) || (max_messages ch1 =? 0) then MSG_EXPECTED
               else MSG_NOTFOUND, None)
      | Some last =>
          if time msgid =? NCHAN_NEWEST_MSGID_TIME then Ret (w1, Some ch1, MSG_EXPECTED, None)
          else
            mid_tag ← fixed0 msgid;
            if time msgid =? NCHAN_NTH_MSGID_TIME then
              let direction := if 0 <? mid_tag then 1 else -1 in
              c_assert (negb (mid_tag =? 0));;
              cur ← nth_walk (buffer_fuel w1) w1
                      (if 0 <? direction then msg_first ch1 else msg_last ch1) None (mid_tag * direction)
                      (if 0 <? direction then SM_NEXT else SM_PREV);
              match cur with
              | Some c => Ret (w1, Some ch1, MSG_FOUND, Some c)
              | None => Ret (w1, Some ch1, MSG_EXPECTED, None)
              end
            else
              first ← get_msg_ptr w1 (msg_first ch1);
              c_assert ((tagcount msgid =? 1) && (tagcount (id first) =? 1));;
              ft ← fixed0 (id first);
              if (time msgid <? time (id first)) || ((time msgid =? time (id first)) && (mid_tag <? ft)) then
                Ret (w1, Some ch1, MSG_FOUND, msg_first ch1)
              else
                '(st, r) ← find_walk (buffer_fuel w1) w1 (Some last) (time msgid) mid_tag;
                Ret (w1, Some ch1, st, r)
      end
  end.

(** ** Publishing *)

Definition fill_message_timedata (m : nchan_msg_t) (timeout : Z) : nchan_msg_t :=
  let m1 := if time (id m) =? 0
            then set_id m (MsgId ngx_time (tag (id m)) (tagactive (id m)) (tagcount (id m))) else m in
  if expires m1 =? 0 then set_expires m1 (time (id m1) + timeout) else m1.

(** [new] is the address of the new [store_message_t]: [None] when the message
    or the link could not be allocated; [in_shm] when the message already is a
    shared one. *)
Definition create_shared_message (w : memstore) (m : nchan_msg_t) (in_shm : bool) (new : option positive) :
    outcome (memstore * option positive) :=
  match new with
  | None => Ret (w, None)
  | Some p =>
      r ← (if in_shm then Ret (Some (m, 0))
           else create_shm_msg sizeof_nchan_msg_t sizeof_ngx_str_t sizeof_ngx_file_t
                  sizeof_nchan_compressed_msg_t m true);
      match r with
      | None => Ret (w, None)
      | Some (m', _) =>
          Ret (put_msg (set_links w (<[(p, SM_PREV) := None]> (<[(p, SM_NEXT) := None]> (links w)))) p m', Some p)
      end
  end.

(** What [nchan_store_chanhead_publish_message_generic] hands to the spooler:
    the message published, and the channel's information for the callback. *)
Record nchan_channel_t := ChannelInfo {
  info_messages : Z;
  info_subscribers : Z;
  info_last_seen : Z;
  info_last_published_msg_id : nchan_msg_id_t;
}.

Definition chanhead_copy_channel_info (ch : memstore_channel_head_t) : outcome nchan_channel_t :=
  c_assert (owner ch =? memstore_slot);;
  sh ← get_shared ch;
  Ret (ChannelInfo (stored_message_count sh) (shared_sub_count sh) (last_seen sh) (latest_msgid ch)).

Inductive publish_result :=
  | publish_error (status : Z)                                  (* the callback gets an error *)
  | published (smsg : positive) (m : nchan_msg_t) (info : nchan_channel_t).

(** On the channel's owner, up to the call of [nchan_memstore_publish_generic]. *)
Definition nchan_store_chanhead_publish_message_generic (th : tag_heap) (w : memstore)
    (ch : memstore_channel_head_t) (m : nchan_msg_t) (in_shm : bool) (lcf : loc_conf)
    (new newtags : option positive) :
    outcome (tag_heap * memstore * memstore_channel_head_t * publish_result) :=
  c_assert (tagcount (id m) =? 1);;
  c_assert (negb (redis_enabled lcf) || negb (redis_distributed lcf));;
  c_assert (owner ch =? memstore_slot);;
  _ ← get_shared ch;
  let m1 := fill_message_timedata m (conf_message_timeout lcf) in
  let ch1 := set_publish ch (conf_max_messages lcf) (latest_msgid ch) in
  '(w2, ch2) ← memstore_chanhead_messages_gc w ch1;
  '(w3, link) ← create_shared_message w2 m1 in_shm new;
  match link with
  | None => Ret (th, w3, ch2, publish_error NGX_HTTP_INTERNAL_SERVER_ERROR)
  | Some p =>
      r ←
        (if max_messages ch2 =? 0 then
           pm ← get_msg w3 p;
           let pm1 := set_prev_id (set_expires pm (ngx_time + NCHAN_NOBUFFER_MSG_EXPIRE_SEC))
                        (MsgId 0 (set_fixed0 (prev_id pm) 0) (tagactive (prev_id pm)) 1) in
           tag' ← (if time (latest_msgid ch2) =? time (id pm1)
                   then t ← fixed0 (latest_msgid ch2); Ret (set_fixed0 (id pm1) (s16 (t + 1)))
                   else Ret (tag (id pm1)));
           let pm2 := set_id pm1 (MsgId (time (id pm1)) tag' (tagactive (id pm1)) (tagcount (id pm1))) in
           Ret (nobuffer_msg_reaper_add (put_msg w3 p pm2) p, ch2, true)
         else
           '(w4, ch4, rc) ← chanhead_push_message w3 ch2 p;
           Ret (w4, ch4, rc =? NGX_OK));
      let '(w4, ch4, ok) := r in
      if negb ok then Ret (th, w4, ch4, publish_error NGX_HTTP_INTERNAL_SERVER_ERROR)
      else
        pm ← get_msg w4 p;
        '(th', latest, _) ← nchan_copy_msg_id th (latest_msgid ch4) (id pm) None newtags;
        let ch5 := set_publish ch4 (max_messages ch4) latest in
        info ← chanhead_copy_channel_info ch5;
        t1 ← fixed0 (id pm);
        t0 ← fixed0 (prev_id pm);
        c_assert (negb (time (id pm) =? time (prev_id pm)) || negb (t1 =? t0));;
        Ret (th', w4, ch5, published p pm info)
  end.
End channel.
