(* ===== verification/ChanHeadFacts.v ===== *)
(** * The message buffer of a channel

    The linked list of a channel head represents a list of messages; collecting
    garbage drops a prefix of it, publishing appends to it with an id above all
    others, and a read returns the first message after the reader's position. *)

From Stdlib Require Import Sorted.
From S2P Require Import Prelude Nginx MsgId MsgIdFacts Msg DList Groups GroupFacts ChanHead.

(** ** Representation *)

Definition tag0 (m : nchan_msg_t) : Z := match tag (id m) with fixed (v :: _) => v | _ => 0 end.
Definition pos (m : nchan_msg_t) : Z * Z := (time (id m), tag0 m).

(** A message of a single channel. *)
Definition plain_id (i : nchan_msg_id_t) : Prop := tagcount i = 1 /\ exists v t, tag i = fixed (v :: t).
Definition plain (m : nchan_msg_t) : Prop := plain_id (id m).

Definition has_groupnode (w : memstore) (ch : memstore_channel_head_t) : Prop :=
  match groupnode ch with None => True | Some name => is_Some (nodes (groups w) !! name) end.

Notation entry := (positive * nchan_msg_t)%type.

Record buffer (w : memstore) (ch : memstore_channel_head_t) (xs : list entry) : Prop := {
  buf_dlist : dlist SM_PREV SM_NEXT (links w) (xs.*1);
  buf_first : msg_first ch = head (xs.*1);
  buf_last : msg_last ch = last (xs.*1);
  buf_count : exists sh, shared ch = Some sh /\ stored_message_count sh = Z.of_nat (length xs);
  buf_bound : Z.of_nat (length xs) < 2 ^ 63;
  buf_msgs : forall p m, (p, m) ∈ xs -> smsgs w !! p = Some m;
  buf_plain : Forall (fun e => plain e.2) xs;
  buf_group : has_groupnode w ch;
}.

(** Only the buffer of the channel changed. *)
Definition ch_frame (ch ch' : memstore_channel_head_t) : Prop :=
  ch' = set_buffer ch (msg_first ch') (msg_last ch') (shared ch').

Definition w_frame (w w' : memstore) : Prop :=
  smsgs w' = smsgs w /\ nobuffer_msg_reaper w' = nobuffer_msg_reaper w /\ dom (links w') = dom (links w).

Lemma ch_frame_refl ch : ch_frame ch ch.
Proof. by destruct ch. Qed.

Lemma ch_frame_trans ch1 ch2 ch3 : ch_frame ch1 ch2 -> ch_frame ch2 ch3 -> ch_frame ch1 ch3.
Proof. unfold ch_frame. intros E1 E2. rewrite E2, E1. by destruct ch1. Qed.

Lemma ch_frame_fields ch ch' :
  ch_frame ch ch' -> owner ch' = owner ch /\ max_messages ch' = max_messages ch /\
    latest_msgid ch' = latest_msgid ch /\ cf ch' = cf ch /\ msg_buffer_complete ch' = msg_buffer_complete ch.
Proof. unfold ch_frame. intros E. by rewrite E. Qed.

Lemma w_frame_refl w : w_frame w w.
Proof. done. Qed.

Lemma w_frame_trans w1 w2 w3 : w_frame w1 w2 -> w_frame w2 w3 -> w_frame w1 w3.
Proof. unfold w_frame. intros (-> & -> & ->) (-> & -> & ->). done. Qed.

#[export] Hint Resolve ch_frame_refl ch_frame_trans w_frame_refl w_frame_trans : nchan.

Lemma sm_off_ne : SM_PREV <> SM_NEXT.
Proof. discriminate. Qed.

Lemma first_next w ch p m xs : buffer w ch ((p, m) :: xs) -> load (links w) p SM_NEXT = Ret (head (xs.*1)).
Proof.
  intros B. destruct (buf_dlist _ _ _ B) as [_ (_ & E2 & _)]. simpl in E2.
  rewrite (load_Some _ _ _ _ E2). by rewrite <- hd_or_None.
Qed.

(** Fuel for the loops over the buffer. *)
Lemma buffer_size w ch xs : buffer w ch xs -> (length xs < buffer_fuel w)%nat.
Proof.
  intros B. unfold buffer_fuel. destruct (buf_dlist _ _ _ B) as [ND _].
  assert (list_to_set (xs.*1) ⊆ dom (smsgs w)) as Sub.
  { intros p Hp. apply elem_of_list_to_set, list_elem_of_fmap in Hp as ([q m] & -> & Hm).
    apply elem_of_dom. exists m. by apply (buf_msgs _ _ _ B). }
  apply subseteq_size in Sub. rewrite size_list_to_set, length_fmap, size_dom in Sub by done. lia.
Qed.

Section facts.
Context `{Sizeof}.
Context (me now : Z).

(** Group accounting always succeeds and touches only the groups. *)
Lemma group_message_ok w g m n :
  match g with None => True | Some name => is_Some (nodes (groups w) !! name) end ->
  exists w', group_message me now w g m n = Ret w' /\
    links w' = links w /\ smsgs w' = smsgs w /\ msg_reaper w' = msg_reaper w /\
    nobuffer_msg_reaper w' = nobuffer_msg_reaper w /\
    match g with None => True | Some name => is_Some (nodes (groups w') !! name) end.
Proof.
  unfold group_message. destruct g as [name|]; [|eauto 10]. intros [gtn Hn].
  unfold memstore_group_add_message_generic, with_group. rewrite Hn.
  destruct (group gtn) as [q|]; simpl.
  - eexists. split; [reflexivity|]. simpl. rewrite Hn. eauto 10.
  - eexists. split; [reflexivity|]. simpl. split_and!; try done. unfold add_whenready_callback.
    case_match; simpl; rewrite lookup_insert_eq; eauto.
Qed.

(** ** Collecting garbage *)

Lemma delete_first w ch p m xs :
  buffer w ch ((p, m) :: xs) ->
  exists w' ch', chanhead_delete_message me now w ch p = Ret (w', ch') /\ buffer w' ch' xs /\
    msg_reaper w' = msg_reaper w ++ [p] /\ w_frame w w' /\ ch_frame ch ch'.
Proof.
  intros B. pose proof (buf_dlist _ _ _ B) as D. rewrite fmap_cons in D. cbn [fst] in D.
  pose proof D as [ND (E1 & E2 & S)%dseg_cons]. rewrite hd_or_None in E2.
  destruct (buf_count _ _ _ B) as (sh & Esh & Ec). simpl in Ec.
  pose proof (buf_bound _ _ _ B) as Bd. simpl in Bd.
  unfold chanhead_delete_message. rewrite (load_Some _ _ _ _ E2), bind_Ret, (load_Some _ _ _ _ E1), bind_Ret.
  destruct (unlink_spec SM_PREV SM_NEXT (links w) [] p (xs.*1) sm_off_ne D) as (h & U & D' & Dm & _).
  unfold unlink in U. cbn [last] in U. rewrite bind_Ret in U. rewrite U, bind_Ret. unfold get_shared, get_msg. rewrite Esh, bind_Ret.
  rewrite (buf_msgs _ _ _ B p m) by (by left). rewrite bind_Ret.
  destruct (group_message_ok (set_links w h) (groupnode ch) m (-1)) as (w' & Eg & L & Sm & R & Nb & Gn);
    [apply B|]. rewrite Eg, bind_Ret.
  eexists _, _. split; [reflexivity|].
  assert (u64 (stored_message_count sh + -1) = Z.of_nat (length xs)) as Ec'
    by (rewrite wrapu_small; unfold in_u; lia).
  split_and!.
  - split; simpl.
    + by rewrite L.
    + rewrite (buf_first _ _ _ B), fmap_cons. simpl. by rewrite decide_True.
    + rewrite (buf_last _ _ _ B), fmap_cons, last_cons. cbn [fst].
      destruct (last (xs.*1)) as [y|] eqn:El; [|by rewrite decide_True].
      rewrite decide_False; [done|]. intros [= ->]. apply NoDup_cons in ND as [Np _]. by apply Np, last_elem.
    + eexists. split; [reflexivity|]. done.
    + lia.
    + intros q n Hq. rewrite Sm. simpl. apply (buf_msgs _ _ _ B). by right.
    + by apply (Forall_cons_1 _ _ _ (buf_plain _ _ _ B)).
    + exact Gn.
  - simpl. by rewrite R.
  - unfold w_frame. simpl. by rewrite Sm, Nb, L.
  - unfold ch_frame. simpl. done.
Qed.

(** What garbage collection keeps. *)
Definition keep_count (max : Z) (xs : list entry) : list entry :=
  if max <? 0 then xs else drop (length xs - Z.to_nat max) xs.

Fixpoint keep_fresh (xs : list entry) : list entry :=
  match xs with
  | [] => []
  | (p, m) :: xs' => if expires m <? now then keep_fresh xs' else xs
  end.

Definition gc_list (max : Z) (xs : list entry) : list entry := keep_fresh (keep_count max xs).

Lemma gc_too_many_spec max xs fuel w ch :
  buffer w ch xs -> (length xs < fuel)%nat ->
  exists w' ch', gc_too_many me now fuel w ch (head (xs.*1)) max = Ret (w', ch', head ((keep_count max xs).*1)) /\
    buffer w' ch' (keep_count max xs) /\ w_frame w w' /\ ch_frame ch ch' /\
    exists gone, xs = gone ++ keep_count max xs /\ msg_reaper w' = msg_reaper w ++ gone.*1.
Proof.
  revert fuel w ch. induction xs as [|[p m] xs IH]; intros [|fuel] w ch B Hf; simpl in Hf; try lia.
  - assert (keep_count max [] = []) as Ek by (unfold keep_count; by case_match).
    rewrite Ek. simpl. eexists _, _. split; [reflexivity|]. split_and!; auto with nchan.
    exists []. simpl. by rewrite app_nil_r.
  - simpl. assert (forall xs, max < 0 -> keep_count max xs = xs) as Kn.
    { intros. unfold keep_count. by rewrite (proj2 (Z.ltb_lt _ _)). }
    destruct (Z.ltb_spec max 0) as [Hm|Hm].
    + rewrite !Kn by done. eexists _, _. split; [reflexivity|]. split_and!; auto with nchan.
      exists []. simpl. by rewrite app_nil_r.
    + destruct (buf_count _ _ _ B) as (sh & Esh & Ec). unfold get_shared. rewrite Esh, bind_Ret, Ec.
      destruct (Z.ltb_spec max (Z.of_nat (length ((p, m) :: xs)))) as [Hlt|Hge]; simpl length in *.
      * rewrite (first_next _ _ _ _ _ B), bind_Ret. destruct (delete_first _ _ _ _ _ B) as (w1 & ch1 & -> & B1 & R1 & F1 & G1).
        rewrite bind_Ret. destruct (IH fuel w1 ch1 B1) as (w2 & ch2 & -> & B2 & F2 & G2 & gone & Eg & R2); [lia|].
        assert (keep_count max ((p, m) :: xs) = keep_count max xs) as Ek.
        { unfold keep_count. rewrite (proj2 (Z.ltb_ge _ _)) by done. simpl.
          replace (S (length xs) - Z.to_nat max)%nat with (S (length xs - Z.to_nat max)) by lia. done. }
        rewrite Ek. eexists _, _. split; [reflexivity|]. split_and!; eauto with nchan.
        exists ((p, m) :: gone). simpl. split; [by f_equal|]. by rewrite R2, R1, <- app_assoc.
      * assert (keep_count max ((p, m) :: xs) = (p, m) :: xs) as Ek.
        { unfold keep_count. rewrite (proj2 (Z.ltb_ge _ _)) by done. simpl length.
          replace (S (length xs) - Z.to_nat max)%nat with O by lia. done. }
        rewrite Ek. eexists _, _. split; [reflexivity|]. split_and!; auto with nchan.
        exists []. simpl. by rewrite app_nil_r.
Qed.

Lemma gc_expired_spec xs fuel w ch :
  buffer w ch xs -> (length xs < fuel)%nat ->
  exists w' ch', gc_expired me now fuel w ch (head (xs.*1)) = Ret (w', ch') /\
    buffer w' ch' (keep_fresh xs) /\ w_frame w w' /\ ch_frame ch ch' /\
    exists gone, xs = gone ++ keep_fresh xs /\ msg_reaper w' = msg_reaper w ++ gone.*1.
Proof.
  revert fuel w ch. induction xs as [|[p m] xs IH]; intros [|fuel] w ch B Hf; simpl in Hf; try lia; simpl.
  - eexists _, _. split; [reflexivity|]. split_and!; auto with nchan. exists []. simpl. by rewrite app_nil_r.
  - unfold get_msg. rewrite (buf_msgs _ _ _ B p m) by (by left). rewrite bind_Ret.
    destruct (expires m <? now).
    + rewrite (first_next _ _ _ _ _ B), bind_Ret. destruct (delete_first _ _ _ _ _ B) as (w1 & ch1 & -> & B1 & R1 & F1 & G1).
      rewrite bind_Ret. destruct (IH fuel w1 ch1 B1) as (w2 & ch2 & -> & B2 & F2 & G2 & gone & Eg & R2); [lia|].
      eexists _, _. split; [reflexivity|]. split_and!; eauto with nchan.
      exists ((p, m) :: gone). simpl. split; [by f_equal|]. by rewrite R2, R1, <- app_assoc.
    + eexists _, _. split; [reflexivity|]. split_and!; auto with nchan. exists []. simpl. by rewrite app_nil_r.
Qed.

Lemma gc_custom_spec max xs w ch :
  buffer w ch xs -> owner ch = me ->
  exists w' ch', chanhead_messages_gc_custom me now w ch max = Ret (w', ch') /\
    buffer w' ch' (gc_list max xs) /\ w_frame w w' /\ ch_frame ch ch' /\
    exists gone, xs = gone ++ gc_list max xs /\ msg_reaper w' = msg_reaper w ++ gone.*1.
Proof.
  intros B Ho. unfold chanhead_messages_gc_custom. rewrite Ho, Z.eqb_refl. simpl negb. cbv iota.
  rewrite (buf_first _ _ _ B). pose proof (buffer_size _ _ _ B) as Sz.
  destruct (gc_too_many_spec max xs (buffer_fuel w) w ch B Sz) as (w1 & ch1 & -> & B1 & F1 & G1 & gone1 & E1 & R1).
  rewrite bind_Ret.
  destruct (gc_expired_spec (keep_count max xs) (buffer_fuel w) w1 ch1 B1)
    as (w2 & ch2 & -> & B2 & F2 & G2 & gone2 & E2 & R2).
  { apply (f_equal length) in E1. rewrite length_app in E1. lia. }
  eexists _, _. split; [reflexivity|]. unfold gc_list. split_and!; eauto with nchan.
  exists (gone1 ++ gone2). rewrite fmap_app. split; [by rewrite <- app_assoc, <- E2|].
  by rewrite R2, R1, <- app_assoc.
Qed.

(** ** Appending *)

Lemma link_last h ys p :
  dlist SM_PREV SM_NEXT h ys -> p ∉ ys -> live SM_PREV SM_NEXT h p ->
  exists h2 h3, (h1 ← store h p SM_NEXT None; store h1 p SM_PREV (last ys)) = Ret h2 /\
    match last ys with Some q => store h2 q SM_NEXT (Some p) | None => Ret h2 end = Ret h3 /\
    dlist SM_PREV SM_NEXT h3 (ys ++ [p]) /\ dom h3 = dom h.
Proof.
  intros [ND S] Np [Lp Ln]. rewrite store_live by done. rewrite bind_Ret.
  rewrite store_live by (by apply lookup_insert_is_Some', or_intror).
  set (h2 := <[(p, SM_PREV) := last ys]> (<[(p, SM_NEXT) := None]> h)).
  assert (dom h2 = dom h) as D2.
  { unfold h2. rewrite dom_insert_lookup_L by (by apply lookup_insert_is_Some', or_intror).
    by rewrite dom_insert_lookup_L. }
  assert (dseg SM_PREV SM_NEXT h2 None ys None) as S2 by (by repeat apply dseg_insert_other).
  assert (h2 !! (p, SM_PREV) = Some (last ys) /\ h2 !! (p, SM_NEXT) = Some None) as [P1 P2].
  { unfold h2. rewrite lookup_insert_eq, lookup_insert_ne by (intros ?; simplify_eq). by rewrite lookup_insert_eq. }
  destruct (list_snoc_cases ys) as [->|(zs & z & ->)].
  - eexists _, _. split_and!; [reflexivity|reflexivity| |done]. split; [by constructor|]. simpl. by rewrite P1, P2.
  - rewrite last_snoc in *. destruct (dseg_live _ _ _ _ _ _ z S2) as [_ Lz]; [set_solver|].
    eexists _, _. split_and!; [reflexivity|by apply store_live| |].
    + split.
      { apply NoDup_app. split_and!; [done| |apply NoDup_singleton].
        intros x Hx ->%list_elem_of_singleton. done. }
      apply dseg_app. split.
      * simpl. by apply (dseg_set_next _ _ sm_off_ne _ _ _ _ None).
      * rewrite last_or_snoc. simpl.
        rewrite !lookup_insert_ne, P1, P2 by (intros ?; simplify_eq; set_solver). done.
    + rewrite dom_insert_lookup_L by done. done.
Qed.

(** The id and message a published message gets. *)
Definition pushed_time (m : nchan_msg_t) : Z := if time (id m) =? 0 then now else time (id m).

Definition pushed_tag (keep_tag : bool) (last_m : option nchan_msg_t) (m : nchan_msg_t) : nchan_msg_multitag :=
  match last_m with
  | Some lm =>
      if time (id lm) =? pushed_time m then set_fixed0 (id m) (s16 (tag0 lm + 1))
      else if keep_tag then tag (id m) else set_fixed0 (id m) 0
  | None => if keep_tag then tag (id m) else set_fixed0 (id m) 0
  end.

Definition pushed (keep_tag : bool) (last_m : option nchan_msg_t) (m : nchan_msg_t) : nchan_msg_t :=
  set_prev_id (set_id m (MsgId (pushed_time m) (pushed_tag keep_tag last_m m) (tagactive (id m)) (tagcount (id m))))
    (match last_m with
     | Some lm => id lm
     | None => MsgId 0 (set_fixed0 (prev_id m) 0) (tagactive (prev_id m)) 1
     end).

Definition keeps_tag (ch : memstore_channel_head_t) : bool := redis_enabled (cf ch) && redis_distributed (cf ch).

Lemma plain_fixed0 m : plain m -> fixed0 (id m) = Ret (tag0 m).
Proof. unfold fixed0, tag0. by intros (_ & v & t & ->). Qed.

Lemma set_fixed0_cons i v : exists t, set_fixed0 i v = fixed (v :: t).
Proof. unfold set_fixed0. destruct (tag i) as [[|? ?]|]; eauto. Qed.

Lemma pushed_plain k lm m : plain m -> plain (pushed k lm m).
Proof.
  intros (C & v & t & E). split; [done|]. simpl. unfold pushed_tag.
  repeat case_match; eauto; edestruct set_fixed0_cons as [? ->]; eauto.
Qed.

Lemma push_spec w ch xs p m :
  buffer w ch xs -> owner ch = me -> p ∉ xs.*1 -> smsgs w !! p = Some m -> plain m ->
  live SM_PREV SM_NEXT (links w) p -> Z.of_nat (length xs) + 1 < 2 ^ 63 ->
  let m' := pushed (keeps_tag ch) (snd <$> last xs) m in
  let ys := gc_list (s64 (max_messages ch)) (xs ++ [(p, m')]) in
  exists w' ch', chanhead_push_message me now w ch p =
      Ret (w', ch', if decide (last (ys.*1) = Some p) then NGX_OK else NGX_ERROR) /\
    buffer w' ch' ys /\ ch_frame ch ch' /\ smsgs w' = <[p := m']> (smsgs w) /\
    nobuffer_msg_reaper w' = nobuffer_msg_reaper w /\ dom (links w') = dom (links w).
Proof.
  intros B Ho Np Hp Pm Lv Hb m' ys.
  destruct (link_last (links w) (xs.*1) p (buf_dlist _ _ _ B) Np Lv) as (h2 & h3 & E2 & E3 & D3 & Dm).
  unfold chanhead_push_message. rewrite (buf_last _ _ _ B).
  rewrite <- bind_assoc, E2, bind_Ret. unfold get_msg. rewrite Hp, bind_Ret.
  destruct Pm as [Tc Ptag]. rewrite Tc, Z.eqb_refl. cbn [c_assert mbind outcome_bind].
  assert (match last (xs.*1) with Some q => exists lm, last xs = Some (q, lm) /\ smsgs w !! q = Some lm /\ plain lm
          | None => last xs = None end) as Hlast.
  { rewrite fmap_last. destruct (last xs) as [[q lm]|] eqn:El; simpl; [|done].
    exists lm. apply last_elem in El. split_and!; [done|by apply (buf_msgs _ _ _ B)|].
    by apply (proj1 (Forall_forall _ _) (buf_plain _ _ _ B) _ El). }
  destruct (buf_count _ _ _ B) as (sh & Esh & Ec). unfold get_shared.
  destruct (group_message_ok (put_msg (set_links w h3) p m') (groupnode ch) m' 1)
    as (w1 & Eg & L1 & S1 & _ & N1 & G1); [apply B|]. simpl in L1, S1, N1.
  set (ch1 := set_buffer ch (match msg_first ch with None => Some p | f => f end) (Some p) (Some (add_counts sh 1 1))).
  assert (buffer w1 ch1 (xs ++ [(p, m')])) as B1.
  { split; simpl.
    - rewrite L1, fmap_app. exact D3.
    - rewrite (buf_first _ _ _ B), fmap_app. by destruct xs.
    - rewrite fmap_app. change ([(p, m')].*1) with [p]. by rewrite last_snoc.
    - eexists. split; [reflexivity|]. simpl. rewrite Ec, length_app. simpl. rewrite wrapu_small; unfold in_u; lia.
    - rewrite length_app. simpl. lia.
    - intros q n [Hq|Hq]%elem_of_app; rewrite S1.
      + rewrite lookup_insert_ne; [by apply (buf_msgs _ _ _ B)|]. intros ->. apply Np.
        by apply (list_elem_of_fmap_2 fst xs (q, n)).
      + apply list_elem_of_singleton in Hq as [= -> ->]. apply lookup_insert_eq.
    - apply Forall_app. split; [apply B|]. constructor; [|done]. by apply pushed_plain.
    - exact G1. }
  destruct (gc_custom_spec (s64 (max_messages ch1)) _ w1 ch1 B1 Ho) as (w2 & ch2 & Egc & B2 & F2 & Fc & _).
  assert (exists h p', match last (xs.*1) with
      | Some q => h3 ← store h2 q SM_NEXT (Some p);
                  pm ← match smsgs w !! q with Some m0 => Ret m0 | None => Crash end; Ret (h3, id pm)
      | None => Ret (h2, MsgId 0 (set_fixed0 (prev_id m) 0) (tagactive (prev_id m)) 1)
      end = Ret (h, p') /\ h = h3 /\ p' = prev_id m') as (h & p' & -> & -> & ->).
  { destruct (last (xs.*1)) as [q|]; simpl in *.
    - destruct Hlast as (lm & El & Hq & _). rewrite E3, Hq. subst m'. rewrite El. simpl. eauto.
    - simplify_eq. subst m'. rewrite Hlast. simpl. eauto. }
  cbn [mbind outcome_bind].
  assert (exists li, match last (xs.*1) with
      | Some q => pm ← match smsgs w !! q with Some m0 => Ret m0 | None => Crash end; Ret (Some (id pm))
      | None => Ret None end = Ret li /\
      match li with
      | Some li =>
          if time li =? (if time (id m) =? 0 then now else time (id m))
          then t ← fixed0 li; Ret (set_fixed0 (id m) (s16 (t + 1)))
          else if negb (redis_enabled (cf ch)) || negb (redis_distributed (cf ch)) then Ret (set_fixed0 (id m) 0)
          else Ret (tag (id m))
      | None =>
          if negb (redis_enabled (cf ch)) || negb (redis_distributed (cf ch)) then Ret (set_fixed0 (id m) 0)
          else Ret (tag (id m))
      end = Ret (tag (id m'))) as (li & -> & Etag).
  { destruct (last (xs.*1)) as [q|]; simpl in *.
    - destruct Hlast as (lm & El & Hq & Plm). rewrite Hq. simpl. eexists. split; [reflexivity|].
      subst m'. rewrite El. simpl. unfold pushed_time, keeps_tag.
      rewrite (plain_fixed0 _ Plm). simpl. destruct (time (id lm) =? _); [done|].
      by destruct (redis_enabled (cf ch)), (redis_distributed (cf ch)).
    - eexists. split; [reflexivity|]. subst m'. rewrite Hlast. simpl. unfold keeps_tag.
      by destruct (redis_enabled (cf ch)), (redis_distributed (cf ch)). }
  cbn [mbind outcome_bind]. rewrite Etag. cbn [mbind outcome_bind]. rewrite Esh. cbn [mbind outcome_bind].
  fold (pushed_time m).
  replace (set_prev_id (set_id m (MsgId (pushed_time m) (tag (id m')) (tagactive (id m)) 1)) (prev_id m'))
    with m' by (subst m'; unfold pushed; simpl; by rewrite Tc).
  rewrite Eg. cbn [mbind outcome_bind]. fold ch1. unfold memstore_chanhead_messages_gc. rewrite Egc.
  cbn [mbind outcome_bind]. destruct F2 as (F2a & F2b & F2c). eexists _, _. split_and!.
  - by rewrite (buf_last _ _ _ B2).
  - exact B2.
  - eapply ch_frame_trans; [|exact Fc]. by destruct ch.
  - by rewrite F2a, S1.
  - by rewrite F2b, N1.
  - by rewrite F2c, L1.
Qed.
End facts.

(** ** Order *)

Definition before (e f : entry) : Prop := lex_lt (pos e.2) (pos f.2).
Definition ordered (xs : list entry) : Prop := StronglySorted before xs.

(** Every message names the one before it. *)
Definition chained (xs : list entry) : Prop :=
  forall i e f, xs !! i = Some e -> xs !! S i = Some f -> prev_id f.2 = id e.2.

Lemma ordered_app xs ys : ordered (xs ++ ys) -> ordered xs /\ ordered ys.
Proof.
  unfold ordered. induction xs as [|x xs IH]; simpl; [split; [constructor|done]|].
  intros [S F]%StronglySorted_inv. apply Forall_app in F as [F1 F2]. destruct (IH S) as [? ?].
  split; [by constructor|done].
Qed.

Lemma ordered_snoc xs e :
  ordered xs -> (forall l, last xs = Some l -> before l e) -> ordered (xs ++ [e]).
Proof.
  unfold ordered. induction xs as [|x xs IH]; intros O L; simpl; [by repeat constructor|].
  apply StronglySorted_inv in O as [O F]. constructor.
  - apply IH; [done|]. intros l Hl. apply L. rewrite last_cons. by rewrite Hl.
  - apply Forall_app. split; [done|]. constructor; [|done].
    destruct (last xs) as [l|] eqn:El.
    + apply (lex_lt_trans _ (pos l.2)).
      * apply last_elem in El. by apply (proj1 (Forall_forall _ _) F).
      * apply L. by rewrite last_cons, El.
    + apply L. by rewrite last_cons, El.
Qed.

Lemma chained_suffix xs ys : chained (xs ++ ys) -> chained ys.
Proof.
  intros C i e f He Hf. apply (C (length xs + i)%nat).
  - by rewrite lookup_app_r, Nat.add_sub' by lia.
  - rewrite lookup_app_r by lia. by replace (S (length xs + i) - length xs)%nat with (S i) by lia.
Qed.

Lemma chained_snoc xs e :
  chained xs -> (forall l, last xs = Some l -> prev_id e.2 = id l.2) -> chained (xs ++ [e]).
Proof.
  intros C L i a b Ha Hb. destruct (decide (S i < length xs)%nat) as [Hi|Hi].
  - rewrite lookup_app_l in Ha, Hb by lia. eauto.
  - apply lookup_lt_Some in Hb as Hl. rewrite length_app in Hl. simpl in Hl.
    assert (S i = length xs) as E by lia. rewrite E, lookup_app_r, Nat.sub_diag in Hb by lia.
    simplify_eq/=. rewrite lookup_app_l in Ha by lia. apply L.
    rewrite last_lookup. by replace (pred (length xs)) with i by lia.
Qed.

Lemma keep_fresh_suffix now xs : exists gone, xs = gone ++ keep_fresh now xs.
Proof.
  induction xs as [|[p m] xs [gone IH]]; simpl; [by exists []|].
  destruct (expires m <? now); [exists ((p, m) :: gone); simpl; by f_equal|by exists []].
Qed.

Lemma gc_suffix now max xs : exists gone, xs = gone ++ gc_list now max xs.
Proof.
  unfold gc_list. destruct (keep_fresh_suffix now (keep_count max xs)) as [g E].
  unfold keep_count in *. destruct (max <? 0); [eauto|].
  exists (take (length xs - Z.to_nat max) xs ++ g). by rewrite <- app_assoc, <- E, take_drop.
Qed.

Lemma gc_length now max xs : 0 <= max -> Z.of_nat (length (gc_list now max xs)) <= max.
Proof.
  intros Hm. unfold gc_list. destruct (keep_fresh_suffix now (keep_count max xs)) as [g E].
  apply (f_equal length) in E. rewrite length_app in E. unfold keep_count in *.
  rewrite (proj2 (Z.ltb_ge _ _)) in * by done. rewrite length_drop in E. lia.
Qed.

(** A message that has not expired stays when at least one may. *)
Lemma gc_keeps_last now max xs e :
  max <> 0 -> now <= expires e.2 -> last (gc_list now max (xs ++ [e])) = Some e.
Proof.
  intros Hm He. unfold gc_list.
  assert (exists ys, keep_count max (xs ++ [e]) = ys ++ [e]) as [ys ->].
  { unfold keep_count. destruct (Z.ltb_spec max 0); [eauto|]. rewrite length_app. simpl.
    exists (drop (length xs + 1 - Z.to_nat max) xs). rewrite drop_app_le by lia. done. }
  induction ys as [|[p m] ys IH]; simpl.
  - destruct e as [p m]. simpl in He. by rewrite (proj2 (Z.ltb_ge _ _)).
  - destruct (expires m <? now); [done|]. by rewrite app_comm_cons, last_snoc.
Qed.

Lemma pushed_after now k lm m :
  time (id lm) <= pushed_time now m -> tag0 lm < 32767 -> 0 <= tag0 lm ->
  lex_lt (pos lm) (pos (pushed now k (Some lm) m)).
Proof.
  intros Ht Hg Hg0. unfold pos, lex_lt. simpl.
  destruct (Z.eqb_spec (time (id lm)) (pushed_time now m)) as [E|E]; [|left; lia].
  right. split; [done|].
  assert (tag0 (pushed now k (Some lm) m) = s16 (tag0 lm + 1)) as ->.
  { unfold tag0 at 1. simpl. unfold pushed_tag. rewrite (proj2 (Z.eqb_eq _ _) E).
    by destruct (set_fixed0_cons (id m) (s16 (tag0 lm + 1))) as [t ->]. }
  rewrite wraps_small by (unfold in_s; lia). lia.
Qed.

(** ** Publishing *)

(** A new store message, not linked anywhere. *)
Lemma buffer_new w ch xs p m :
  buffer w ch xs -> smsgs w !! p = None ->
  buffer (put_msg (set_links w (<[(p, SM_PREV) := None]> (<[(p, SM_NEXT) := None]> (links w)))) p m) ch xs.
Proof.
  intros B Hp. assert (p ∉ xs.*1) as Np.
  { intros ([q n] & -> & Hq)%list_elem_of_fmap. simpl in Hp. by rewrite (buf_msgs _ _ _ B q n Hq) in Hp. }
  destruct (buf_dlist _ _ _ B) as [ND S]. split; simpl; try apply B.
  - split; [done|]. by repeat apply dseg_insert_other.
  - intros q n Hq. rewrite lookup_insert_ne; [by apply (buf_msgs _ _ _ B)|].
    intros <-. by rewrite (buf_msgs _ _ _ B _ _ Hq) in Hp.
Qed.

(** The shared copy has the same ids, times and text. *)
Definition same_content (m m' : nchan_msg_t) : Prop :=
  buf_content (buf m') = buf_content (buf m) /\ content_type m' = content_type m /\
  eventsource_event m' = eventsource_event m.

Lemma create_shm_msg_same sm ss sf sc m :
  tagcount (id m) = 1 ->
  exists m' k, create_shm_msg sm ss sf sc m true = Ret (Some (m', k)) /\ id m' = id m /\ prev_id m' = prev_id m /\
    expires m' = expires m /\ same_content m m'.
Proof.
  intros Hc. unfold create_shm_msg, same_content. rewrite Hc. simpl.
  unfold copy_optional_str, copy_buf_contents, copy_preallocated_str_to_cur.
  destruct (content_type m), (eventsource_event m), (compressed m) as [c|], (buf_file (buf m)); simpl;
    repeat (destruct (0 <? _)); simpl; try (destruct (buf_file (c_buf c))); simpl;
    try (destruct (0 <? _)); simpl; eexists _, _; (split; [reflexivity|]); by split_and!.
Qed.

Lemma create_shared_spec `{Sizeof} w m in_shm p :
  tagcount (id m) = 1 ->
  exists m2, create_shared_message w m in_shm (Some p) =
      Ret (put_msg (set_links w (<[(p, SM_PREV) := None]> (<[(p, SM_NEXT) := None]> (links w)))) p m2, Some p) /\
    id m2 = id m /\ prev_id m2 = prev_id m /\ expires m2 = expires m /\ same_content m m2.
Proof.
  intros Hc. unfold create_shared_message. destruct in_shm; simpl.
  - eexists. split; [reflexivity|]. by split_and!.
  - destruct (create_shm_msg_same sizeof_nchan_msg_t sizeof_ngx_str_t sizeof_ngx_file_t
      sizeof_nchan_compressed_msg_t m Hc) as (m' & k & -> & ?). simpl. eauto.
Qed.

Lemma copy_plain_id th dst src new :
  tagcount dst = 1 -> tagcount src = 1 -> nchan_copy_msg_id th dst src None new = Ret (th, src, NGX_OK).
Proof.
  intros E1 E2. unfold nchan_copy_msg_id. rewrite E1, E2. simpl. destruct src; simpl in *. by subst.
Qed.

Lemma fill_timedata_spec now m timeout :
  let m1 := fill_message_timedata now m timeout in
  time (id m1) = pushed_time now m /\ tag (id m1) = tag (id m) /\ tagcount (id m1) = tagcount (id m) /\
  expires m1 = (if expires m =? 0 then pushed_time now m + timeout else expires m) /\
  prev_id m1 = prev_id m /\ same_content m m1.
Proof.
  unfold fill_message_timedata, pushed_time, same_content.
  destruct (time (id m) =? 0); simpl; destruct (expires m =? 0); simpl; split_and!; done.
Qed.

Lemma pushed_time_idem now m m2 : time (id m2) = pushed_time now m -> pushed_time now m2 = pushed_time now m.
Proof. intros E. unfold pushed_time in *. rewrite E. by repeat case_match. Qed.

Section publishing.
Context `{Sizeof}.
Context (me now : Z).

(** What publishing a message to a buffered channel requires of its
    environment: the clock has not gone back, and the last message's tag
    leaves room for another one in the same second. *)
Record publishable (w : memstore) (ch : memstore_channel_head_t) (xs : list entry) (m : nchan_msg_t)
    (lcf : loc_conf) (p : positive) : Prop := {
  pub_owner : owner ch = me;
  pub_plain : plain m;
  pub_redis : redis_enabled lcf && redis_distributed lcf = false;
  pub_max : 0 < conf_max_messages lcf < 2 ^ 63;
  pub_room : Z.of_nat (length xs) + 1 < 2 ^ 63;
  pub_new : smsgs w !! p = None;
  pub_time : 0 < pushed_time now m;
  pub_expires : now <= (if expires m =? 0 then pushed_time now m + conf_message_timeout lcf else expires m);
  pub_clock : forall l, last xs = Some l -> time (id l.2) <= pushed_time now m /\ 0 <= tag0 l.2 < 32767;
  pub_latest : tagcount (latest_msgid ch) = 1;
}.

(** The order in the buffer after the new message is appended. *)
Lemma append_ordered k xs ys m2 p :
  ordered xs -> chained xs -> (exists gone, xs = gone ++ ys) ->
  (forall l, last xs = Some l -> time (id l.2) <= pushed_time now m2 /\ 0 <= tag0 l.2 < 32767) ->
  let m' := pushed now k (snd <$> last ys) m2 in
  ordered (ys ++ [(p, m')]) /\ chained (ys ++ [(p, m')]).
Proof.
  intros O C [gone E] L m'. subst xs. apply ordered_app in O as [_ O]. apply chained_suffix in C.
  assert (forall l, last ys = Some l -> last (gone ++ ys) = Some l) as El.
  { intros l Hl. by rewrite last_app, Hl. }
  split.
  - apply ordered_snoc; [done|]. intros l Hl. destruct (L l (El l Hl)) as [? ?]. subst m'. rewrite Hl.
    unfold before. simpl. apply pushed_after; lia.
  - apply chained_snoc; [done|]. intros l Hl. subst m'. by rewrite Hl.
Qed.

Lemma pushed_differs k (ys : list entry) m2 p :
  0 < pushed_time now m2 -> Forall (fun e => plain e.2) ys ->
  ordered (ys ++ [(p, pushed now k (snd <$> last ys) m2)]) -> plain m2 ->
  let m' := pushed now k (snd <$> last ys) m2 in
  exists t0, fixed0 (id m') = Ret (tag0 m') /\ fixed0 (prev_id m') = Ret t0 /\
    negb (time (id m') =? time (prev_id m')) || negb (tag0 m' =? t0) = true.
Proof.
  intros Ht Fp O Pm m'. assert (plain m') as Pm' by (by apply pushed_plain).
  rewrite (plain_fixed0 _ Pm'). destruct (list_snoc_cases ys) as [->|(zs & l & ->)].
  - exists 0. subst m'. simpl. split_and!; [done| |].
    + apply (fixed0_set (prev_id m2)).
    + rewrite (proj2 (Z.eqb_neq _ _)) by lia. done.
  - exists (tag0 l.2). subst m'. rewrite last_snoc in *. cbn [fmap option_fmap option_map snd] in *.
    apply Forall_app in Fp as [_ Fl]. apply Forall_cons in Fl as [Fl _]. split_and!; [done| |].
    + simpl. by apply plain_fixed0.
    + rewrite <- app_assoc in O. apply ordered_app in O as [_ O]. simpl in O.
      apply StronglySorted_inv in O as [_ O]. apply Forall_cons in O as [O _].
      unfold before, lex_lt, pos in O. cbn [fst snd] in O.
      set (m' := pushed now k (Some l.2) m2) in *.
      replace (prev_id m') with (id l.2) by done.
      destruct (Z.eqb_spec (time (id m')) (time (id l.2))); [|done].
      rewrite (proj2 (Z.eqb_neq (tag0 m') _)) by lia. done.
Qed.

(** The message that is stored for a publication. *)
Lemma stored_new w m in_shm timeout p :
  plain m -> now <= (if expires m =? 0 then pushed_time now m + timeout else expires m) ->
  exists m2, create_shared_message w (fill_message_timedata now m timeout) in_shm (Some p) =
      Ret (put_msg (set_links w (<[(p, SM_PREV) := None]> (<[(p, SM_NEXT) := None]> (links w)))) p m2, Some p) /\
    plain m2 /\ pushed_time now m2 = pushed_time now m /\ now <= expires m2 /\ same_content m m2.
Proof.
  intros Pp Pe. destruct (fill_timedata_spec now m timeout) as (T1 & T2 & T3 & T4 & T5 & T6).
  set (m1 := fill_message_timedata now m timeout) in *.
  destruct (create_shared_spec w m1 in_shm p) as (m2 & -> & I1 & I2 & I3 & I4); [by destruct Pp; congruence|].
  exists m2. split; [done|]. split_and!.
  - destruct Pp as (? & v & t & Ev). unfold plain, plain_id. rewrite I1, T2, T3. eauto.
  - apply pushed_time_idem. congruence.
  - by rewrite I3, T4.
  - destruct I4 as (J1 & J2 & J3), T6 as (K1 & K2 & K3). split_and!; congruence.
Qed.

(** Garbage collection before a publication. *)
Lemma publish_gc w ch xs max latest :
  buffer w ch xs -> owner ch = me -> 0 < max < 2 ^ 63 ->
  exists w2 ch2, memstore_chanhead_messages_gc me now w (set_publish ch max latest) = Ret (w2, ch2) /\
    let xs1 := gc_list now max xs in
    buffer w2 ch2 xs1 /\ smsgs w2 = smsgs w /\ owner ch2 = me /\ max_messages ch2 = max /\ latest_msgid ch2 = latest /\
    exists gone, xs = gone ++ xs1.
Proof.
  intros B Po Hmax. assert (buffer w (set_publish ch max latest) xs) as B1 by (destruct B; by split).
  unfold memstore_chanhead_messages_gc. simpl max_messages. rewrite (wraps_small 64) by (done || unfold in_s; lia).
  destruct (gc_custom_spec me now max xs w (set_publish ch max latest) B1 Po)
    as (w2 & ch2 & -> & B2 & (F1 & F2 & F3) & G2 & gone & Eg & _).
  destruct (ch_frame_fields _ _ G2) as (H1 & H2 & H3 & _). simpl in H1, H2, H3.
  exists w2, ch2. split; [done|]. split_and!; try done; [congruence|by exists gone].
Qed.

(** What is left after the new message is appended. *)
Lemma pushed_kept max xs gone xs1 p m' :
  xs = gone ++ xs1 -> ordered (xs1 ++ [(p, m')]) -> chained (xs1 ++ [(p, m')]) -> now <= expires m' -> 0 < max ->
  let ys := gc_list now max (xs1 ++ [(p, m')]) in
  ordered ys /\ chained ys /\ last ys = Some (p, m') /\ (exists gone', xs ++ [(p, m')] = gone' ++ ys) /\
  Z.of_nat (length ys) <= max.
Proof.
  intros -> O C He Hm ys. destruct (gc_suffix now max (xs1 ++ [(p, m')])) as [gone' Eg]. fold ys in Eg.
  split_and!.
  - rewrite Eg in O. by apply ordered_app in O as [_ ?].
  - rewrite Eg in C. by apply chained_suffix in C.
  - apply gc_keeps_last; [lia|done].
  - exists (gone ++ gone'). by rewrite <- !app_assoc, <- Eg.
  - apply gc_length. lia.
Qed.

(** C1.  Publishing keeps a channel's buffer well formed.  When the clock has not
    gone back and the second's tags are not exhausted, the owner appends the
    message with an id above every buffered one and its [prev_id] naming its
    predecessor, evicts only from the old end down to the configured length,
    keeps the message count exact, records the new id as the latest, and leaves
    the text of the message alone. *)
Theorem publish_keeps_order th w ch xs m in_shm lcf p :
  buffer w ch xs -> ordered xs -> chained xs -> publishable w ch xs m lcf p ->
  exists w' ch' m' info ys,
    nchan_store_chanhead_publish_message_generic me now th w ch m in_shm lcf (Some p) None
      = Ret (th, w', ch', published p m' info) /\
    buffer w' ch' ys /\ ordered ys /\ chained ys /\
    last ys = Some (p, m') /\ (exists gone, xs ++ [(p, m')] = gone ++ ys) /\
    Z.of_nat (length ys) <= conf_max_messages lcf /\ info_messages info = Z.of_nat (length ys) /\
    latest_msgid ch' = id m' /\ same_content m m'.
Proof.
  intros B O C [Po Pp Pr Pm Pl Pn Pt Pe Pc Pla].
  unfold nchan_store_chanhead_publish_message_generic.
  pose proof Pp as [Tc _]. rewrite Tc, Po, !Z.eqb_refl.
  replace (negb (redis_enabled lcf) || negb (redis_distributed lcf)) with true
    by (by destruct (redis_enabled lcf), (redis_distributed lcf)).
  cbn [c_assert mbind outcome_bind].
  destruct (buf_count _ _ _ B) as (sh & Esh & _). unfold get_shared at 1. rewrite Esh. cbn [mbind outcome_bind].
  destruct (publish_gc w ch xs (conf_max_messages lcf) (latest_msgid ch) B Po Pm)
    as (w2 & ch2 & -> & B2 & F1 & H1 & H2 & H3 & gone & Eg).
  set (xs1 := gc_list now (conf_max_messages lcf) xs) in *.
  destruct (stored_new w2 m in_shm (conf_message_timeout lcf) p Pp Pe) as (m2 & Em2 & P2 & Ept & I3 & I4).
  cbn [mbind outcome_bind]. rewrite Em2, H2, (proj2 (Z.eqb_neq (conf_max_messages lcf) 0)) by lia. cbn [mbind outcome_bind].
  assert (smsgs w2 !! p = None) as Pn2 by (by rewrite F1).
  pose proof (buffer_new w2 ch2 xs1 p m2 B2 Pn2) as B3. set (w3 := put_msg _ p m2) in *.
  assert (p ∉ xs1.*1) as Np.
  { intros ([q n] & -> & Hq)%list_elem_of_fmap. simpl in Pn2. by rewrite (buf_msgs _ _ _ B2 q n Hq) in Pn2. }
  destruct (push_spec me now w3 ch2 xs1 p m2 B3 H1 Np) as (w4 & ch4 & -> & B4 & G4 & S4 & _ & _);
    [apply lookup_insert_eq|done
    |split; simpl; apply lookup_insert_is_Some'; [by left|right; apply lookup_insert_is_Some'; by left]
    |apply (f_equal length) in Eg; rewrite length_app in Eg; lia|].
  destruct (append_ordered (keeps_tag ch2) xs xs1 m2 p O C) as [O' C']; [by exists gone|by rewrite Ept|].
  destruct (pushed_differs (keeps_tag ch2) xs1 m2 p) as (t0 & X1 & X2 & X3); [by rewrite Ept|apply B2|done|done|].
  set (m' := pushed now (keeps_tag ch2) (snd <$> last xs1) m2) in *.
  destruct (ch_frame_fields _ _ G4) as (H4 & H5 & H6 & _). rewrite H2, (wraps_small 64) in * by (done || unfold in_s; lia).
  destruct (pushed_kept (conf_max_messages lcf) xs gone xs1 p m' Eg O' C' I3 ltac:(lia)) as (K1 & K2 & Ly & K3 & K4).
  set (ys := gc_list now (conf_max_messages lcf) (xs1 ++ [(p, m')])) in *.
  rewrite decide_True by (rewrite fmap_last, Ly; done). cbn [Z.eqb negb mbind outcome_bind].
  unfold get_msg. rewrite S4, lookup_insert_eq. cbn [mbind outcome_bind].
  rewrite copy_plain_id by (congruence || by destruct P2).
  cbn [mbind outcome_bind]. unfold chanhead_copy_channel_info.
  destruct (buf_count _ _ _ B4) as (sh4 & Esh4 & Ec4).
  replace (owner (set_publish ch4 (max_messages ch4) (id m'))) with me by (simpl; congruence).
  rewrite Z.eqb_refl. unfold get_shared. cbn [shared set_publish]. rewrite Esh4. cbn [c_assert mbind outcome_bind].
  rewrite X1, X2. cbn [mbind outcome_bind]. rewrite X3, ?Z.eqb_refl. cbn [negb c_assert mbind outcome_bind].
  eexists _, _, _, _, ys. split; [reflexivity|]. split_and!; try done. destruct B4. by split.
Qed.
End publishing.
