(* ===== verification/ChanHeadRead.v ===== *)
(** * Reading a channel's buffer

    A read finds the first message after the reader's position; a reader that
    follows the ids it is given sees every buffered message once, in order. *)

From Stdlib Require Import Sorted.
From S2P Require Import Prelude Nginx MsgId MsgIdFacts Msg DList Groups GroupFacts ChanHead ChanHeadFacts.

Global Instance lex_lt_dec : RelDecision lex_lt.
Proof. intros x y. unfold lex_lt. apply _. Defined.

(** The messages after a position. *)
Definition after (mid : Z * Z) (xs : list entry) : list entry := filter (fun e => lex_lt mid (pos e.2)) xs.

Definition id_pos (i : nchan_msg_id_t) : Z * Z := (time i, match tag i with fixed (v :: _) => v | _ => 0 end).

Lemma plain_id_fixed0 i : plain_id i -> fixed0 i = Ret (id_pos i).2.
Proof. unfold fixed0, id_pos. by intros (_ & v & t & ->). Qed.

Lemma after_split mid ys zs :
  Forall (fun e => ~ lex_lt mid (pos e.2)) ys -> Forall (fun e => lex_lt mid (pos e.2)) zs ->
  after mid (ys ++ zs) = zs.
Proof.
  intros F1 F2. unfold after. rewrite filter_app.
  replace (filter (fun e => lex_lt mid (pos e.2)) ys) with (@nil entry).
  - simpl. induction F2 as [|e zs He _ IH]; [done|]. rewrite filter_cons_True by done. by rewrite IH.
  - symmetry. induction F1 as [|e ys He _ IH]; [done|]. by rewrite filter_cons_False.
Qed.

Lemma not_after_spec mid m :
  (time (id m) <? mid.1) || ((mid.1 =? time (id m)) && (tag0 m <=? mid.2)) = bool_decide (~ lex_lt mid (pos m)).
Proof.
  unfold lex_lt, pos. simpl. destruct (Z.ltb_spec (time (id m)) mid.1), (Z.eqb_spec mid.1 (time (id m))),
    (Z.leb_spec (tag0 m) mid.2); simpl; symmetry;
    rewrite ?bool_decide_eq_true, ?bool_decide_eq_false; lia.
Qed.

Lemma ordered_not_after mid ys e :
  ordered (ys ++ [e]) -> ~ lex_lt mid (pos e.2) -> Forall (fun e => ~ lex_lt mid (pos e.2)) (ys ++ [e]).
Proof.
  intros O He. apply Forall_app. split; [|by constructor].
  induction ys as [|y ys IH]; [constructor|]. simpl in O. apply StronglySorted_inv in O as [O F].
  constructor; [|by apply IH]. apply Forall_app in F as [_ F]. apply Forall_cons in F as [F _].
  intros Hy. apply He. by apply (lex_lt_trans _ (pos y.2)).
Qed.

(** ** The backward search *)

Lemma find_walk_spec w ch mid ys zs fuel :
  buffer w ch (ys ++ zs) -> ordered (ys ++ zs) -> Forall (fun e => lex_lt mid (pos e.2)) zs ->
  (length ys < fuel)%nat ->
  find_walk fuel w (last (ys.*1)) mid.1 mid.2 =
    Ret (if bool_decide (Exists (fun e => ~ lex_lt mid (pos e.2)) ys)
         then match after mid (ys ++ zs) with (p, _) :: _ => (MSG_FOUND, Some p) | [] => (MSG_EXPECTED, None) end
         else (MSG_NOTFOUND, None)).
Proof.
  intros B O. revert zs B O fuel. induction ys as [|[p m] ys IH] using rev_ind; intros zs B O [|fuel] Fz Hf;
    try (simpl in Hf; lia).
  - done.
  - rewrite length_app in Hf. simpl in Hf. rewrite fmap_app. change ([(p, m)].*1) with [p]. rewrite last_snoc.
    cbn [find_walk]. unfold get_msg. rewrite (buf_msgs _ _ _ B p m) by set_solver. cbn [mbind outcome_bind].
    assert (plain m) as Pm.
    { pose proof (buf_plain _ _ _ B) as F. rewrite !Forall_app in F. destruct F as [[_ F] _].
      by apply Forall_cons in F as [F _]. }
    rewrite (plain_fixed0 _ Pm). cbn [mbind outcome_bind]. rewrite not_after_spec.
    destruct (buf_dlist _ _ _ B) as [_ S]. rewrite <- app_assoc, fmap_app in S. simpl in S.
    apply dseg_lookup in S as [Sp Sn]. rewrite last_or_None in Sp. rewrite hd_or_None in Sn.
    destruct (bool_decide (~ lex_lt mid (pos m))) eqn:Eb.
    + apply bool_decide_eq_true in Eb. rewrite (load_Some _ _ _ _ Sn). cbn [mbind outcome_bind].
      rewrite bool_decide_eq_true_2 by (apply Exists_app; right; by left).
      rewrite after_split; [|by apply ordered_not_after; [apply ordered_app in O as [? _]|]|done].
      destruct zs as [|[q n] zs]; done.
    + apply bool_decide_eq_false in Eb. apply dec_stable in Eb. rewrite (load_Some _ _ _ _ Sp).
      cbn [mbind outcome_bind]. rewrite <- app_assoc in B, O.
      rewrite (IH ((p, m) :: zs)); [|done|done|by constructor|lia].
      rewrite <- app_assoc. f_equal.
      rewrite (bool_decide_ext _ (Exists (fun e => ~ lex_lt mid (pos e.2)) (ys ++ [(p, m)]))); [done|].
      rewrite Exists_app, Exists_cons, Exists_nil. simpl. tauto.
Qed.

(** ** Walking to the nth message *)

Lemma nth_walk_forward w xs p prev n fuel :
  dseg SM_PREV SM_NEXT (links w) p xs None -> (length xs < fuel)%nat -> 1 <= n ->
  nth_walk fuel w (head xs) prev n SM_NEXT = Ret (last_or prev (take (Z.to_nat n) xs)).
Proof.
  revert p prev n fuel. induction xs as [|x xs IH]; intros p prev n [|fuel] S Hf Hn; simpl in Hf; try lia; simpl.
  - rewrite take_nil. done.
  - destruct S as (_ & E & S). destruct (Z.ltb_spec 1 n).
    + rewrite (load_Some _ _ _ _ E), bind_Ret, hd_or_None, (IH (Some x)) by (done || lia).
      replace (Z.to_nat n) with (Datatypes.S (Z.to_nat (n - 1))) by lia. simpl. by rewrite last_or_cons.
    + assert (n = 1) as -> by lia. simpl. done.
Qed.

Lemma nth_walk_backward w xs nx prev n fuel :
  dseg SM_PREV SM_NEXT (links w) None xs nx -> (length xs < fuel)%nat -> 1 <= n ->
  nth_walk fuel w (last xs) prev n SM_PREV = Ret (last_or prev (take (Z.to_nat n) (reverse xs))).
Proof.
  revert nx prev n fuel. induction xs as [|x xs IH] using rev_ind; intros nx prev n [|fuel] S Hf Hn; simpl in Hf;
    try lia.
  - by rewrite reverse_nil, take_nil.
  - rewrite length_app in Hf. simpl in Hf. apply dseg_app in S as [S1 S2]. destruct S2 as (E & _).
    rewrite last_snoc, reverse_app. simpl. destruct (Z.ltb_spec 1 n).
    + rewrite (load_Some _ _ _ _ E), bind_Ret, last_or_None. rewrite (IH (Some x)) by (done || lia).
      replace (Z.to_nat n) with (Datatypes.S (Z.to_nat (n - 1))) by lia. simpl. by rewrite last_or_cons.
    + assert (n = 1) as -> by lia. simpl. done.
Qed.

Section reading.
Context `{Sizeof}.
Context (me now : Z).

Definition visible (ch : memstore_channel_head_t) (xs : list entry) : list entry :=
  gc_list now (s64 (max_messages ch)) xs.

Lemma ordered_visible ch xs : ordered xs -> ordered (visible ch xs).
Proof.
  intros O. unfold visible. destruct (gc_suffix now (s64 (max_messages ch)) xs) as [gone E]. rewrite E in O.
  by apply ordered_app in O as [_ ?].
Qed.

(** What a read answers for a reader at [msgid], given what is left after
    garbage collection. *)
Definition read_answer (ch : memstore_channel_head_t) (msgid : nchan_msg_id_t) (ys : list entry) :
    nchan_msg_status_t * ptr :=
  match ys with
  | [] => (if (time msgid =? NCHAN_OLDEST_MSGID_TIME) || (max_messages ch =? 0) then MSG_EXPECTED else MSG_NOTFOUND, None)
  | _ => match after (id_pos msgid) ys with (p, _) :: _ => (MSG_FOUND, Some p) | [] => (MSG_EXPECTED, None) end
  end.

(** The part of the read that comes after collecting garbage. *)
Definition search_buffer (w : memstore) (ch : memstore_channel_head_t) (msgid : nchan_msg_id_t) :
    outcome (memstore * option memstore_channel_head_t * nchan_msg_status_t * ptr) :=
  match msg_last ch with
  | None =>
      Ret (w, Some ch,
           if (time msgid =? NCHAN_OLDEST_MSGID_TIME) || (max_messages ch =? 0) then MSG_EXPECTED
           else MSG_NOTFOUND, None)
  | Some last =>
      if time msgid =? NCHAN_NEWEST_MSGID_TIME then Ret (w, Some ch, MSG_EXPECTED, None)
      else
        mid_tag ← fixed0 msgid;
        if time msgid =? NCHAN_NTH_MSGID_TIME then
          let direction := if 0 <? mid_tag then 1 else -1 in
          c_assert (negb (mid_tag =? 0));;
          cur ← nth_walk (buffer_fuel w) w
                  (if 0 <? direction then msg_first ch else msg_last ch) None (mid_tag * direction)
                  (if 0 <? direction then SM_NEXT else SM_PREV);
          match cur with
          | Some c => Ret (w, Some ch, MSG_FOUND, Some c)
          | None => Ret (w, Some ch, MSG_EXPECTED, None)
          end
        else
          first ← get_msg_ptr w (msg_first ch);
          c_assert ((tagcount msgid =? 1) && (tagcount (id first) =? 1));;
          ft ← fixed0 (id first);
          if (time msgid <? time (id first)) || ((time msgid =? time (id first)) && (mid_tag <? ft)) then
            Ret (w, Some ch, MSG_FOUND, msg_first ch)
          else
            '(st, r) ← find_walk (buffer_fuel w) w (Some last) (time msgid) mid_tag;
            Ret (w, Some ch, st, r)
  end.

Lemma find_next_after_gc w ch xs msgid :
  buffer w ch xs -> owner ch = me -> msg_buffer_complete ch = true ->
  exists w' ch', memstore_chanhead_messages_gc me now w ch = Ret (w', ch') /\
    buffer w' ch' (visible ch xs) /\ ch_frame ch ch' /\ w_frame w w' /\
    chanhead_find_next_message me now w (Some ch) msgid =
      search_buffer w' ch' msgid.
Proof.
  intros B Ho Hc. destruct (gc_custom_spec me now (s64 (max_messages ch)) xs w ch B Ho)
    as (w' & ch' & E & B' & F & G & _).
  exists w', ch'. unfold memstore_chanhead_messages_gc at 1. rewrite E. split_and!; auto.
  unfold chanhead_find_next_message, memstore_chanhead_messages_gc.
  rewrite Hc, Ho, Z.eqb_refl. cbn [c_assert mbind outcome_bind]. rewrite E. done.
Qed.

(** Searching an ordered buffer. *)
Lemma search_exact w' ch' ch ys msgid :
  buffer w' ch' ys -> ordered ys -> max_messages ch' = max_messages ch ->
  plain_id msgid -> time msgid <> NCHAN_NEWEST_MSGID_TIME -> time msgid <> NCHAN_NTH_MSGID_TIME ->
  search_buffer w' ch' msgid = Ret (w', Some ch', (read_answer ch msgid ys).1, (read_answer ch msgid ys).2).
Proof.
  intros B' O Em Hi T1 T2. pose proof (buffer_size _ _ _ B') as Sz. unfold search_buffer.
  rewrite (buf_last _ _ _ B'), (buf_first _ _ _ B'), Em.
  destruct ys as [|[p m] ys]; [done|].
  rewrite fmap_last. destruct (last ((p, m) :: ys)) as [[q n]|] eqn:El; [|by apply last_None in El].
  change (fst <$> Some (q, n)) with (Some q).
  rewrite (proj2 (Z.eqb_neq _ _) T1), (plain_id_fixed0 _ Hi). cbn [mbind outcome_bind].
  rewrite (proj2 (Z.eqb_neq _ _) T2). change (head (((p, m) :: ys).*1)) with (Some p).
  unfold get_msg_ptr, get_msg. rewrite (buf_msgs _ _ _ B' p m) by (by left). cbn [mbind outcome_bind].
  pose proof (Forall_cons_1 _ _ _ (buf_plain _ _ _ B')) as [Pm _]. simpl in Pm.
  destruct Hi as [Ht _]. destruct Pm as [Hm Pm']. rewrite Ht, Hm, !Z.eqb_refl.
  cbn [c_assert andb mbind outcome_bind]. rewrite (plain_fixed0 m) by done. cbn [mbind outcome_bind].
  unfold read_answer.
  replace ((time msgid <? time (id m)) || ((time msgid =? time (id m)) && ((id_pos msgid).2 <? tag0 m)))
    with (bool_decide (lex_lt (id_pos msgid) (pos m))).
  2:{ unfold lex_lt, pos, id_pos. simpl. symmetry.
      destruct (Z.ltb_spec (time msgid) (time (id m))), (Z.eqb_spec (time msgid) (time (id m)));
      match goal with |- context [?a <? ?b] => destruct (Z.ltb_spec a b) | _ => idtac end; simpl; symmetry;
      rewrite ?bool_decide_eq_true, ?bool_decide_eq_false; lia. }
  destruct (bool_decide (lex_lt (id_pos msgid) (pos m))) eqn:Eb.
  - apply bool_decide_eq_true in Eb. unfold after. by rewrite filter_cons_True.
  - apply bool_decide_eq_false in Eb.
    assert (Some q = last (((p, m) :: ys).*1)) as Eq by (by rewrite fmap_last, El).
    rewrite Eq. change (time msgid) with (id_pos msgid).1.
    rewrite (find_walk_spec w' ch' (id_pos msgid) ((p, m) :: ys) []) by (rewrite ?app_nil_r; done || constructor).
    rewrite app_nil_r, bool_decide_eq_true_2 by (by left). cbn [mbind outcome_bind].
    by destruct (after (id_pos msgid) ((p, m) :: ys)) as [|[? ?] ?].
Qed.

(** C2.  A read is exact.  Once garbage has been collected,
    [chanhead_find_next_message] answers with the first buffered message whose
    id is above the reader's, says that it is expected when there is none, and
    never misses one because of where it looks; the buffer is otherwise left
    alone. *)
Theorem find_next_exact w ch xs msgid :
  buffer w ch xs -> ordered xs -> owner ch = me -> msg_buffer_complete ch = true ->
  plain_id msgid -> time msgid <> NCHAN_NEWEST_MSGID_TIME -> time msgid <> NCHAN_NTH_MSGID_TIME ->
  exists w' ch', chanhead_find_next_message me now w (Some ch) msgid =
      Ret (w', Some ch', (read_answer ch msgid (visible ch xs)).1, (read_answer ch msgid (visible ch xs)).2) /\
    buffer w' ch' (visible ch xs) /\ ch_frame ch ch' /\ w_frame w w'.
Proof.
  intros B O Ho Hc Hi T1 T2.
  destruct (find_next_after_gc w ch xs msgid B Ho Hc) as (w' & ch' & _ & B' & G & F & ->).
  exists w', ch'. split; [|done]. destruct (ch_frame_fields _ _ G) as (_ & Em & _).
  apply search_exact; auto. by apply ordered_visible.
Qed.

(** A read of the [n]th message counts from the oldest for a positive [n] and
    from the newest for a negative one, and stops at the other end when there
    are fewer messages. *)
Theorem find_nth_exact w ch xs msgid :
  buffer w ch xs -> owner ch = me -> msg_buffer_complete ch = true -> visible ch xs <> [] ->
  plain_id msgid -> time msgid = NCHAN_NTH_MSGID_TIME -> (id_pos msgid).2 <> 0 ->
  let n := (id_pos msgid).2 in
  let ps := (visible ch xs).*1 in
  exists w' ch', chanhead_find_next_message me now w (Some ch) msgid =
      Ret (w', Some ch', MSG_FOUND,
           if 0 <? n then last (take (Z.to_nat n) ps) else last (take (Z.to_nat (- n)) (reverse ps))) /\
    buffer w' ch' (visible ch xs).
Proof.
  intros B Ho Hc Hne Hi T N n ps.
  destruct (find_next_after_gc w ch xs msgid B Ho Hc) as (w' & ch' & _ & B' & G & F & ->).
  exists w', ch'. split; [|done]. pose proof (buffer_size _ _ _ B') as Sz.
  assert (ps <> []) as Hps by (subst ps; by destruct (visible ch xs)).
  assert (length ps < buffer_fuel w')%nat as Hlen by (subst ps; by rewrite length_fmap).
  destruct (buf_dlist _ _ _ B') as [_ S].
  unfold search_buffer. rewrite (buf_last _ _ _ B'), (buf_first _ _ _ B'). fold ps in S |- *.
  destruct (last ps) as [q|] eqn:El; [|by apply last_None in El].
  rewrite T. cbn [Z.eqb NCHAN_NTH_MSGID_TIME NCHAN_NEWEST_MSGID_TIME Pos.eqb].
  rewrite (plain_id_fixed0 _ Hi). fold n. cbn [mbind outcome_bind].
  rewrite (proj2 (Z.eqb_neq n 0)) by done. cbn [c_assert negb mbind outcome_bind]. rewrite <- El.
  destruct (Z.ltb_spec 0 n); cbn [Z.ltb Z.compare].
  - rewrite (nth_walk_forward w' ps None None (n * 1)) by (done || lia). rewrite bind_Ret, last_or_None, Z.mul_1_r.
    destruct (last (take (Z.to_nat n) ps)) eqn:E; [done|]. apply last_None in E.
    destruct ps; [done|]. by replace (Z.to_nat n) with (Datatypes.S (Z.to_nat (n - 1))) in E by lia.
  - rewrite (nth_walk_backward w' ps None None (n * -1)) by (done || lia). rewrite bind_Ret, last_or_None.
    replace (n * -1) with (- n) by lia.
    destruct (last (take (Z.to_nat (- n)) (reverse ps))) eqn:E; [done|]. apply last_None in E.
    destruct (reverse ps) eqn:Er; [apply (f_equal reverse) in Er; by rewrite reverse_involutive in Er|].
    by replace (Z.to_nat (- n)) with (Datatypes.S (Z.to_nat (- n - 1))) in E by lia.
Qed.

(** ** Reading everything *)

(** A reader that asks again from the id of the message it was given. *)
Fixpoint drain (fuel : nat) (w : memstore) (ch : memstore_channel_head_t) (msgid : nchan_msg_id_t) :
    outcome (list positive) :=
  match fuel with
  | O => NoFuel
  | S fuel' =>
      '(w1, ch1, st, r) ← chanhead_find_next_message me now w (Some ch) msgid;
      match ch1, r with
      | Some ch1, Some p => m ← get_msg w1 p; rest ← drain fuel' w1 ch1 (id m); Ret (p :: rest)
      | _, _ => Ret []
      end
  end.

Lemma keep_fresh_idem xs : keep_fresh now (keep_fresh now xs) = keep_fresh now xs.
Proof.
  induction xs as [|[p m] xs IH]; [done|]. simpl. destruct (expires m <? now) eqn:E; [done|]. simpl. by rewrite E.
Qed.

Lemma gc_idem max xs : gc_list now max (gc_list now max xs) = gc_list now max xs.
Proof.
  unfold gc_list at 1. destruct (Z.ltb_spec max 0) as [Hm|Hm].
  - unfold gc_list, keep_count. rewrite (proj2 (Z.ltb_lt _ _)) by done. apply keep_fresh_idem.
  - pose proof (gc_length now max xs Hm) as L.
    assert (keep_count max (gc_list now max xs) = gc_list now max xs) as ->.
    { unfold keep_count at 1. rewrite (proj2 (Z.ltb_ge _ _)) by done.
      replace (length (gc_list now max xs) - Z.to_nat max)%nat with O by lia. done. }
    apply keep_fresh_idem.
Qed.

Lemma after_member mid ys p m rest :
  ordered ys -> after mid ys = (p, m) :: rest -> after (pos m) ys = rest /\ (p, m) ∈ ys.
Proof.
  intros O E. assert ((p, m) ∈ ys) as Hin.
  { assert ((p, m) ∈ after mid ys) as H' by (rewrite E; by left). apply list_elem_of_filter in H' as [_ ?]. done. }
  split; [|done]. assert (exists pre, ys = pre ++ (p, m) :: rest) as [pre Ey].
  { clear Hin. induction ys as [|e ys IH]; [done|]. pose proof O as O'. apply StronglySorted_inv in O as [O F].
    unfold after in E. rewrite filter_cons in E. case_decide as D.
    - injection E as -> E. exists []. simpl. f_equal. rewrite <- E. symmetry.
      apply (after_split mid []); [constructor|]. eapply Forall_impl; [exact F|].
      intros f Hf. by apply (lex_lt_trans _ (pos m)).
    - destruct (IH O E) as [pre ->]. by exists (e :: pre). }
  subst ys. rewrite cons_middle, app_assoc. rewrite cons_middle, app_assoc in O. apply after_split.
  - apply ordered_not_after; [by apply ordered_app in O as [? _]|apply lex_lt_irrefl].
  - rewrite <- app_assoc in O. apply ordered_app in O as [_ O]. by apply StronglySorted_inv in O as [_ ?].
Qed.

Lemma drain_from w ch ys msgid fuel :
  buffer w ch ys -> visible ch ys = ys -> ordered ys -> owner ch = me -> msg_buffer_complete ch = true ->
  plain_id msgid -> 0 <= time msgid -> Forall (fun e => 0 < time (id e.2)) ys ->
  (length (after (id_pos msgid) ys) < fuel)%nat ->
  drain fuel w ch msgid = Ret ((after (id_pos msgid) ys).*1).
Proof.
  revert w ch msgid. induction fuel as [|fuel IH]; intros w ch msgid B V O Ho Hc Hi Ht Tp Hf; [lia|].
  cbn [drain]. destruct (find_next_after_gc w ch ys msgid B Ho Hc) as (w' & ch' & _ & B' & G & F & ->).
  rewrite V in *. rewrite (search_exact w' ch' ch ys msgid) by
    (done || unfold NCHAN_NEWEST_MSGID_TIME, NCHAN_NTH_MSGID_TIME; lia || apply (ch_frame_fields _ _ G)).
  cbn [mbind outcome_bind]. unfold read_answer.
  destruct ys as [|y ys0]; [by case_match|]. remember (y :: ys0) as ys eqn:Ey.
  destruct (after (id_pos msgid) ys) as [|[p m] rest] eqn:Ea; [done|]. simpl in Hf.
  destruct (after_member _ _ _ _ _ O Ea) as [Er Hin].
  cbn [fst snd]. unfold get_msg. rewrite (buf_msgs _ _ _ B' p m Hin). cbn [mbind outcome_bind].
  assert (plain m) as Pm by (by apply (proj1 (Forall_forall _ _) (buf_plain _ _ _ B') _ Hin)).
  assert (id_pos (id m) = pos m) as Ep by done.
  assert (0 < time (id m)) as Hm by (by apply (proj1 (Forall_forall _ _) Tp _ Hin)).
  destruct (ch_frame_fields _ _ G) as (G1 & G2 & _ & _ & G3).
  rewrite (IH w' ch' (id m)); [rewrite Ep, Er; done|done| |done|congruence|congruence|exact Pm|lia|done|].
  - unfold visible in *. by rewrite G2.
  - rewrite Ep, Er. lia.
Qed.

(** C3.  A reader that starts before the oldest message and always asks for what
    follows the last message it was given receives every buffered message
    exactly once, in order. *)
Theorem drain_reads_everything w ch xs fuel :
  buffer w ch xs -> ordered xs -> owner ch = me -> msg_buffer_complete ch = true ->
  Forall (fun e => 0 < time (id e.2)) xs -> (length xs < fuel)%nat ->
  exists w' ch', memstore_chanhead_messages_gc me now w ch = Ret (w', ch') /\
    drain fuel w' ch' NCHAN_OLDEST_MSGID = Ret ((visible ch xs).*1).
Proof.
  intros B O Ho Hc Tp Hf.
  destruct (find_next_after_gc w ch xs NCHAN_OLDEST_MSGID B Ho Hc) as (w' & ch' & E & B' & G & F & _).
  exists w', ch'. split; [done|]. destruct (ch_frame_fields _ _ G) as (G1 & G2 & _ & _ & G3).
  destruct (gc_suffix now (s64 (max_messages ch)) xs) as [gone Eg]. fold (visible ch xs) in Eg.
  assert (Forall (fun e => 0 < time (id e.2)) (visible ch xs)) as Tv
    by (rewrite Eg in Tp; by apply Forall_app in Tp as [_ ?]).
  assert (after (id_pos NCHAN_OLDEST_MSGID) (visible ch xs) = visible ch xs) as Ea.
  { apply (after_split _ []); [constructor|]. eapply Forall_impl; [exact Tv|]. intros e He. left. exact He. }
  rewrite (drain_from w' ch' (visible ch xs)); [by rewrite Ea|done| |by apply ordered_visible|congruence|congruence| |
    simpl; unfold NCHAN_OLDEST_MSGID_TIME; lia|done|].
  - unfold visible at 1 2. rewrite G2. apply gc_idem.
  - split; [done|]. eauto.
  - rewrite Ea. apply (f_equal length) in Eg. rewrite length_app in Eg. lia.
Qed.
End reading.

(** ** Where the order breaks *)

Section limits.
Context `{Sizeof}.
Context (me now : Z).

(** A reader at or after the newest message is told to wait. *)
Lemma find_next_waits w ch ys p m msgid :
  buffer w ch ys -> owner ch = me -> msg_buffer_complete ch = true -> plain_id msgid -> 0 < time msgid ->
  visible now ch ys = ys -> last ys = Some (p, m) -> ~ lex_lt (id_pos msgid) (pos m) ->
  (forall e, head ys = Some e -> ~ lex_lt (id_pos msgid) (pos e.2)) ->
  exists w' ch', chanhead_find_next_message me now w (Some ch) msgid = Ret (w', Some ch', MSG_EXPECTED, None).
Proof.
  intros B Ho Hc Hi Ht V Hl Hm Hh.
  destruct (find_next_after_gc me now w ch ys msgid B Ho Hc) as (w' & ch' & _ & B' & G & F & ->).
  exists w', ch'. rewrite V in B'. unfold search_buffer. rewrite (buf_last _ _ _ B'), (buf_first _ _ _ B'), fmap_last, Hl.
  change (fst <$> Some (p, m)) with (Some p).
  rewrite (proj2 (Z.eqb_neq (time msgid) NCHAN_NEWEST_MSGID_TIME)),
    (proj2 (Z.eqb_neq (time msgid) NCHAN_NTH_MSGID_TIME))
    by (unfold NCHAN_NEWEST_MSGID_TIME, NCHAN_NTH_MSGID_TIME; lia).
  rewrite (plain_id_fixed0 _ Hi). cbn [mbind outcome_bind].
  destruct ys as [|[q n] ys]; [done|]. change (head (((q, n) :: ys).*1)) with (Some q).
  unfold get_msg_ptr, get_msg. rewrite (buf_msgs _ _ _ B' q n) by (by left). cbn [mbind outcome_bind].
  pose proof (Forall_cons_1 _ _ _ (buf_plain _ _ _ B')) as [Pn _]. simpl in Pn. pose proof Pn as [Tn _].
  destruct Hi as [Ti _]. rewrite Ti, Tn. cbn [Z.eqb Pos.eqb andb c_assert mbind outcome_bind].
  rewrite (plain_fixed0 _ Pn). cbn [mbind outcome_bind].
  specialize (Hh _ eq_refl). simpl in Hh. unfold lex_lt, pos, id_pos in Hh, Hm. simpl in Hh, Hm.
  replace ((time msgid <? time (id n)) || ((time msgid =? time (id n)) && ((id_pos msgid).2 <? tag0 n))) with false.
  2:{ unfold id_pos. simpl. symmetry. apply orb_false_iff. split; [apply Z.ltb_ge; lia|].
      apply andb_false_iff. destruct (Z.eqb_spec (time msgid) (time (id n))); [right; apply Z.ltb_ge; lia|by left]. }
  assert ((p, m) ∈ (q, n) :: ys) as Hin by (by apply last_elem).
  unfold buffer_fuel. cbn [find_walk]. unfold get_msg. rewrite (buf_msgs _ _ _ B' p m Hin). cbn [mbind outcome_bind].
  rewrite (plain_fixed0 m) by (by apply (proj1 (Forall_forall _ _) (buf_plain _ _ _ B') _ Hin)).
  cbn [mbind outcome_bind].
  pose proof (not_after_spec (id_pos msgid) m) as Na. change (id_pos msgid).1 with (time msgid) in Na. rewrite Na.
  rewrite bool_decide_eq_true_2 by (unfold lex_lt, pos, id_pos; simpl; lia).
  assert (links w' !! (p, SM_NEXT) = Some None) as ->%load_Some; [|done].
  destruct (buf_dlist _ _ _ B') as [_ S]. destruct (last_Some ((q, n) :: ys) (p, m)) as [Hs _].
  destruct (Hs Hl) as [zs Ez]. rewrite Ez, fmap_app in S. change ([(p, m)].*1) with [p] in S.
  by apply dseg_lookup in S as [_ ?].
Qed.

Lemma visible_after_push ch ch' xs :
  ch_frame ch ch' ->
  visible now ch' (gc_list now (s64 (max_messages ch)) xs) = gc_list now (s64 (max_messages ch)) xs.
Proof. intros G. destruct (ch_frame_fields _ _ G) as (_ & E & _). unfold visible. rewrite E. apply gc_idem. Qed.

(** The 16-bit tag of a message overflows after tag 32767 in one
    second: the next message of the second gets tag -32768, which sorts before
    every other message of the second, and a reader that is at the previous
    message is told to wait instead of being given it. *)
Theorem tag_overflow_hides_message w ch xs p m q lm :
  buffer w ch xs -> ordered xs -> owner ch = me -> msg_buffer_complete ch = true ->
  p ∉ xs.*1 -> smsgs w !! p = Some m -> plain m -> live SM_PREV SM_NEXT (links w) p ->
  Z.of_nat (length xs) + 1 < 2 ^ 63 -> s64 (max_messages ch) <> 0 -> now <= expires m ->
  last xs = Some (q, lm) -> tag0 lm = 32767 -> time (id lm) = pushed_time now m -> 0 < time (id lm) ->
  exists w' ch' m', chanhead_push_message me now w ch p = Ret (w', ch', NGX_OK) /\
    smsgs w' !! p = Some m' /\ pos m' = (time (id lm), -32768) /\
    exists w2 ch2, chanhead_find_next_message me now w' (Some ch') (id lm) = Ret (w2, Some ch2, MSG_EXPECTED, None).
Proof.
  intros B O Ho Hc Np Hp Pm Lv Hb Hmax He Hl Ht Htime Hpos.
  destruct (push_spec me now w ch xs p m B Ho Np Hp Pm Lv Hb) as (w' & ch' & E & B' & G & S & _).
  rewrite Hl in *. change (snd <$> Some (q, lm)) with (Some lm) in *.
  set (m' := pushed now (keeps_tag ch) (Some lm) m) in *.
  set (ys := gc_list now (s64 (max_messages ch)) (xs ++ [(p, m')])) in *.
  assert (last ys = Some (p, m')) as Ly by (by apply gc_keeps_last).
  rewrite decide_True in E by (by rewrite fmap_last, Ly).
  assert (pos m' = (time (id lm), -32768)) as Epos.
  { unfold pos, tag0. simpl. unfold pushed_tag. rewrite Htime, Z.eqb_refl.
    destruct (set_fixed0_cons (id m) (s16 (tag0 lm + 1))) as [t ->]. by rewrite Ht. }
  exists w', ch', m'. split_and!; [done|by rewrite S, lookup_insert_eq|done|].
  destruct (ch_frame_fields _ _ G) as (G1 & G2 & _ & _ & G3).
  assert (plain lm) as Pl by (by apply (proj1 (Forall_forall _ _) (buf_plain _ _ _ B) _ (last_elem _ _ Hl))).
  apply (find_next_waits w' ch' ys p m'); auto; try congruence.
  - by apply visible_after_push.
  - change (id_pos (id lm)) with (pos lm). rewrite Epos. unfold lex_lt, pos. simpl. lia.
  - intros e He'. change (id_pos (id lm)) with (pos lm).
    destruct (gc_suffix now (s64 (max_messages ch)) (xs ++ [(p, m')])) as [gone Eg]. fold ys in Eg.
    assert (e ∈ ys) as Hin by (destruct ys; simplify_eq/=; by left).
    assert (e ∈ xs ++ [(p, m')]) as [Hx|Hx]%elem_of_app by (rewrite Eg; set_solver).
    + apply last_Some in Hl as [zs ->]. pose proof (ordered_not_after (pos lm) zs (q, lm) O (lex_lt_irrefl _)) as F.
      by apply (proj1 (Forall_forall _ _) F).
    + apply list_elem_of_singleton in Hx as ->. cbn [snd]. rewrite Epos. unfold lex_lt, pos. simpl. lia.
Qed.

(** After the messages of the current second were deleted, the next message
    of the second gets the id that the first of them had, and a reader at that
    id is told to wait: tags continue from the buffer's last message and not
    from the last published one. *)
Theorem push_after_delete_reuses_id w ch p m old :
  buffer w ch [] -> owner ch = me -> msg_buffer_complete ch = true -> keeps_tag ch = false ->
  smsgs w !! p = Some m -> plain m -> live SM_PREV SM_NEXT (links w) p -> s64 (max_messages ch) <> 0 ->
  now <= expires m -> time (id m) = 0 -> 0 < now -> plain_id old -> id_pos old = (now, 0) ->
  exists w' ch' m', chanhead_push_message me now w ch p = Ret (w', ch', NGX_OK) /\
    smsgs w' !! p = Some m' /\ pos m' = id_pos old /\
    exists w2 ch2, chanhead_find_next_message me now w' (Some ch') old = Ret (w2, Some ch2, MSG_EXPECTED, None).
Proof.
  intros B Ho Hc Hk Hp Pm Lv Hmax He Ht Hn Po Eold.
  destruct (push_spec me now w ch [] p m B Ho) as (w' & ch' & E & B' & G & S & _); auto; [set_solver|simpl; lia|].
  change (snd <$> last []) with (@None nchan_msg_t) in *.
  set (m' := pushed now (keeps_tag ch) None m) in *.
  set (ys := gc_list now (s64 (max_messages ch)) ([] ++ [(p, m')])) in *.
  assert (last ys = Some (p, m')) as Ly by (by apply gc_keeps_last).
  rewrite decide_True in E by (by rewrite fmap_last, Ly).
  assert (pos m' = (now, 0)) as Epos.
  { unfold pos, tag0. simpl. unfold pushed_tag, pushed_time. rewrite Hk, Ht. simpl.
    by destruct (set_fixed0_cons (id m) 0) as [t ->]. }
  exists w', ch', m'. split_and!; [done|by rewrite S, lookup_insert_eq|congruence|].
  destruct (ch_frame_fields _ _ G) as (G1 & G2 & _ & _ & G3).
  assert (time old = now) as Et by (by injection Eold).
  apply (find_next_waits w' ch' ys p m'); auto; try congruence.
  - by apply visible_after_push.
  - rewrite Eold, Epos. apply lex_lt_irrefl.
  - intros e He'. destruct (gc_suffix now (s64 (max_messages ch)) ([] ++ [(p, m')])) as [gone Eg]. fold ys in Eg.
    assert (e ∈ ys) as Hin by (destruct ys; simplify_eq/=; by left).
    assert (e ∈ [(p, m')]) as ->%list_elem_of_singleton by (change [(p, m')] with ([] ++ [(p, m')]); rewrite Eg; set_solver).
    simpl. rewrite Eold, Epos. apply lex_lt_irrefl.
Qed.
End limits.

(** ** Witnesses *)

Definition example_conf : loc_conf := LocConf false false 3 60.

(** A channel of worker 1 with the given buffer ends and message count. *)
Definition example_channel (first last : ptr) (n : Z) : memstore_channel_head_t :=
  CH 1 1 READY 0 0 0 0 false (Some (Shared 0 0 n n 0 0)) 3 first last
     (MsgId 100 (fixed [0; 0; 0; 0]) 0 1) false 0 false false true example_conf None 0 0 0 false 0 false.

Definition example_message (t g e : Z) : nchan_msg_t :=
  Msg (MsgId t (fixed [g; 0; 0; 0]) 0 1) (MsgId 0 (fixed [0; 0; 0; 0]) 0 1) None None example_buf e 0 None None
      NCHAN_MSG_SHARED.

Definition no_groups : groups_t := GW ∅ ∅ [] [] ∅ [].

(** Message 1 is buffered, message 2 exists and is not linked. *)
Definition example_memory (m1 m2 : nchan_msg_t) : memstore :=
  MemStore (<[(1%positive, SM_PREV) := None]> (<[(1%positive, SM_NEXT) := None]>
            (<[(2%positive, SM_PREV) := None]> {[(2%positive, SM_NEXT) := None]})))
           (<[1%positive := m1]> {[2%positive := m2]}) no_groups [] [].

Lemma example_buffer1 m1 m2 :
  plain m1 -> buffer (example_memory m1 m2) (example_channel (Some 1%positive) (Some 1%positive) 1) [(1%positive, m1)].
Proof.
  intros P. split; try reflexivity; simpl.
  - split; [apply NoDup_singleton|]. by repeat split.
  - eexists. split; reflexivity.
  - intros p m Hp. apply list_elem_of_singleton in Hp. injection Hp as -> ->. reflexivity.
  - by constructor.
Qed.

Lemma example_buffer0 m1 m2 : buffer (example_memory m1 m2) (example_channel None None 0) [].
Proof.
  split; try reflexivity; simpl; [split; [constructor|done]|eexists; split; reflexivity| |constructor].
  intros p m Hp. by apply not_elem_of_nil in Hp.
Qed.

Lemma example_ordered e : ordered [e].
Proof. repeat constructor. Qed.

Lemma example_chained e : chained [e].
Proof. intros i a b Ha Hb. apply lookup_lt_Some in Hb. simpl in Hb. lia. Qed.

Lemma example_plain t g e : plain (example_message t g e).
Proof. split; [done|]. simpl. eauto. Qed.

(** A new message, not linked anywhere, with the time left to the store. *)
Definition example_new : nchan_msg_t := example_message 0 0 0.

Lemma publish_keeps_order_witness :
  exists w' ch' m' info ys,
    nchan_store_chanhead_publish_message_generic 1 100 ∅ (example_memory (example_message 100 0 160) example_new)
      (example_channel (Some 1%positive) (Some 1%positive) 1) example_new false example_conf (Some 3%positive) None
      = Ret (∅, w', ch', published 3 m' info) /\
    buffer w' ch' ys /\ ordered ys /\ chained ys /\ last ys = Some (3%positive, m') /\
    (exists gone, [(1%positive, example_message 100 0 160)] ++ [(3%positive, m')] = gone ++ ys) /\
    Z.of_nat (length ys) <= conf_max_messages example_conf /\ info_messages info = Z.of_nat (length ys) /\
    latest_msgid ch' = id m' /\ same_content example_new m'.
Proof.
  apply (publish_keeps_order 1 100 ∅ (example_memory (example_message 100 0 160) example_new)
    (example_channel (Some 1%positive) (Some 1%positive) 1) [(1%positive, example_message 100 0 160)]
    example_new false example_conf 3).
  - apply example_buffer1, example_plain.
  - apply example_ordered.
  - apply example_chained.
  - split; try reflexivity; try (simpl; lia); try apply example_plain.
    + vm_compute. discriminate.
    + intros l [= <-]. vm_compute. split_and!; (done || discriminate).
Defined.

Lemma find_next_exact_witness :
  exists w' ch', chanhead_find_next_message 1 100 (example_memory (example_message 100 0 160) example_new)
      (Some (example_channel (Some 1%positive) (Some 1%positive) 1)) (MsgId 99 (fixed [7; 0; 0; 0]) 0 1)
      = Ret (w', Some ch', MSG_FOUND, Some 1%positive).
Proof.
  destruct (find_next_exact 1 100 (example_memory (example_message 100 0 160) example_new)
    (example_channel (Some 1%positive) (Some 1%positive) 1) [(1%positive, example_message 100 0 160)]
    (MsgId 99 (fixed [7; 0; 0; 0]) 0 1)) as (w' & ch' & E & _).
  - apply example_buffer1, example_plain.
  - apply example_ordered.
  - reflexivity.
  - reflexivity.
  - split; [reflexivity|]. eexists _, _. reflexivity.
  - discriminate.
  - discriminate.
  - exists w', ch'. exact E.
Defined.

Lemma find_nth_exact_witness :
  exists w' ch', chanhead_find_next_message 1 100 (example_memory (example_message 100 0 160) example_new)
      (Some (example_channel (Some 1%positive) (Some 1%positive) 1)) (MsgId (-2) (fixed [-3; 0; 0; 0]) 0 1)
      = Ret (w', Some ch', MSG_FOUND, Some 1%positive).
Proof.
  destruct (find_nth_exact 1 100 (example_memory (example_message 100 0 160) example_new)
    (example_channel (Some 1%positive) (Some 1%positive) 1) [(1%positive, example_message 100 0 160)]
    (MsgId (-2) (fixed [-3; 0; 0; 0]) 0 1)) as (w' & ch' & E & _).
  - apply example_buffer1, example_plain.
  - reflexivity.
  - reflexivity.
  - vm_compute. discriminate.
  - split; [reflexivity|]. eexists _, _. reflexivity.
  - reflexivity.
  - discriminate.
  - exists w', ch'. exact E.
Defined.

Lemma drain_reads_everything_witness :
  exists w' ch', memstore_chanhead_messages_gc 1 100 (example_memory (example_message 100 0 160) example_new)
      (example_channel (Some 1%positive) (Some 1%positive) 1) = Ret (w', ch') /\
    drain 1 100 5 w' ch' NCHAN_OLDEST_MSGID = Ret [1%positive].
Proof.
  apply (drain_reads_everything 1 100 (example_memory (example_message 100 0 160) example_new)
    (example_channel (Some 1%positive) (Some 1%positive) 1) [(1%positive, example_message 100 0 160)] 5).
  - apply example_buffer1, example_plain.
  - apply example_ordered.
  - reflexivity.
  - reflexivity.
  - repeat constructor.
  - simpl. lia.
Defined.

Lemma tag_overflow_hides_message_witness :
  exists w' ch' m', chanhead_push_message 1 100 (example_memory (example_message 100 32767 160) (example_message 0 0 160))
      (example_channel (Some 1%positive) (Some 1%positive) 1) 2 = Ret (w', ch', NGX_OK) /\
    smsgs w' !! 2%positive = Some m' /\ pos m' = (100, -32768) /\
    exists w2 ch2, chanhead_find_next_message 1 100 w' (Some ch') (MsgId 100 (fixed [32767; 0; 0; 0]) 0 1)
      = Ret (w2, Some ch2, MSG_EXPECTED, None).
Proof.
  apply (tag_overflow_hides_message 1 100 (example_memory (example_message 100 32767 160) (example_message 0 0 160))
    (example_channel (Some 1%positive) (Some 1%positive) 1) [(1%positive, example_message 100 32767 160)] 2
    (example_message 0 0 160) 1 (example_message 100 32767 160)); try reflexivity; try (simpl; lia).
  - apply example_buffer1, example_plain.
  - apply example_ordered.
  - simpl. intros Hp. apply list_elem_of_singleton in Hp. discriminate.
  - apply example_plain.
  - split; eexists; reflexivity.
  - vm_compute. discriminate.
Defined.

Lemma push_after_delete_reuses_id_witness :
  exists w' ch' m', chanhead_push_message 1 100 (example_memory example_new (example_message 0 0 160))
      (example_channel None None 0) 2 = Ret (w', ch', NGX_OK) /\
    smsgs w' !! 2%positive = Some m' /\ pos m' = id_pos (MsgId 100 (fixed [0; 0; 0; 0]) 0 1) /\
    exists w2 ch2, chanhead_find_next_message 1 100 w' (Some ch') (MsgId 100 (fixed [0; 0; 0; 0]) 0 1)
      = Ret (w2, Some ch2, MSG_EXPECTED, None).
Proof.
  apply (push_after_delete_reuses_id 1 100 (example_memory example_new (example_message 0 0 160))
    (example_channel None None 0) 2 (example_message 0 0 160)); try reflexivity; try (simpl; lia).
  - apply example_buffer0.
  - apply example_plain.
  - split; eexists; reflexivity.
  - vm_compute. discriminate.
  - split; [reflexivity|]. eexists _, _. reflexivity.
Defined.
