(* ===== verification/Ipc.v ===== *)
(** * Messages between workers ([store/memory/ipc.c])

    Alerts for another worker go to a ring buffer of 32, then to a linked list
    of overflowing ones, and from the ring to a non-blocking pipe.  The other
    worker reads the pipe and calls its handler. *)

From S2P Require Import Prelude DList.

Definition IPC_DATA_SIZE : Z := 64.
Definition IPC_WRITEBUF_SIZE : Z := 32.

Record ipc_alert_t := Alert {
  data : list Z;
  time_sent : Z;
  src_slot : Z;            (* int16_t *)
  worker_generation : Z;   (* uint16_t *)
  code : Z;                (* uint8_t *)
}.

Definition zero_alert : ipc_alert_t := Alert (replicate 64 0) 0 0 0 0.

Record ipc_writebuf_overflow_t := Overflow { of_alert : ipc_alert_t; of_next : ptr }.

Record ipc_writebuf_t := WB {
  n : Z;                   (* uint16_t *)
  first : Z;               (* uint16_t *)
  overflow_n : Z;          (* int32_t *)
  overflow_first : ptr;
  overflow_last : ptr;
  alerts : list ipc_alert_t;
}.

(** A pipe that takes [capacity] alerts before it would block. *)
Record pipe_t := Pipe { capacity : nat; in_pipe : list ipc_alert_t }.

(** The writing side of [ipc_process_t], with the heap of its overflow list.
    [timer_set]: the write event will be handled later by a timer;
    [write_event]: when the pipe becomes writable. *)
Record ipc_process_t := Proc {
  active : bool;
  wbuf : ipc_writebuf_t;
  heap : gmap positive ipc_writebuf_overflow_t;
  pipe : pipe_t;
  timer_set : bool;
  write_event : bool;
}.

(** [ipc_init], for one process. *)
Definition ipc_init : ipc_writebuf_t := WB 0 0 0 None None (replicate 32 zero_alert).

Definition set_wb (p : ipc_process_t) (wb : ipc_writebuf_t) : ipc_process_t :=
  Proc (active p) wb (heap p) (pipe p) (timer_set p) (write_event p).
Definition set_heap (p : ipc_process_t) (h : gmap positive ipc_writebuf_overflow_t) : ipc_process_t :=
  Proc (active p) (wbuf p) h (pipe p) (timer_set p) (write_event p).
Definition set_pipe (p : ipc_process_t) (q : pipe_t) : ipc_process_t :=
  Proc (active p) (wbuf p) (heap p) q (timer_set p) (write_event p).
Definition set_timer (p : ipc_process_t) : ipc_process_t :=
  Proc (active p) (wbuf p) (heap p) (pipe p) true (write_event p).
Definition set_write_event (p : ipc_process_t) : ipc_process_t :=
  Proc (active p) (wbuf p) (heap p) (pipe p) (timer_set p) true.

(** [alerts[i % IPC_WRITEBUF_SIZE]]. *)
Definition ring_get (wb : ipc_writebuf_t) (i : Z) : outcome ipc_alert_t :=
  match alerts wb !! Z.to_nat (i `mod` IPC_WRITEBUF_SIZE) with Some a => Ret a | None => Crash end.
Definition ring_set (l : list ipc_alert_t) (i : Z) (a : ipc_alert_t) : list ipc_alert_t :=
  <[Z.to_nat (i `mod` IPC_WRITEBUF_SIZE) := a]> l.

(** ** Writing *)

Definition ipc_write_alert_fd (q : pipe_t) (a : ipc_alert_t) : pipe_t * Z :=
  if decide (length (in_pipe q) < capacity q)%nat
  then (Pipe (capacity q) (in_pipe q ++ [a]), NGX_OK) else (q, NGX_AGAIN).

(** The first loop of [ipc_write_handler], over the [k] alerts from [i] on: the
    index it stops at, and whether the write was aborted. *)
Fixpoint write_loop (k : nat) (wb : ipc_writebuf_t) (q : pipe_t) (i : Z) : outcome (pipe_t * Z * bool) :=
  match k with
  | O => Ret (q, i, false)
  | S k' =>
      a ← ring_get wb i;
      let '(q', rc) := ipc_write_alert_fd q a in
      if negb (rc =? NGX_OK) then Ret (q', i, true) else write_loop k' wb q' (i + 1)
  end.

(** The loop that moves overflowing alerts into the ring. *)
Fixpoint refill_loop (k : nat) (p : ipc_process_t) (i : Z) : outcome ipc_process_t :=
  match k with
  | O => Ret p
  | S k' =>
      let wb := wbuf p in
      match overflow_first wb with
      | None => Crash
      | Some nd =>
          match heap p !! nd with
          | None => Crash
          | Some o =>
              let l := ring_set (alerts wb) i (of_alert o) in
              let on := s32 (overflow_n wb - 1) in
              c_assert (0 <=? on);;
              let h := delete nd (heap p) in
              match of_next o with
              | None => Ret (set_heap (set_wb p (WB (u16 (n wb + 1)) (first wb) on None None l)) h)
              | Some nx =>
                  refill_loop k' (set_heap (set_wb p (WB (u16 (n wb + 1)) (first wb) on (Some nx) (overflow_last wb) l)) h) (i + 1)
              end
          end
      end
  end.

(** [ready] is [memstore_ready()].  The handler calls itself as long as it
    makes progress; [fuel] bounds that. *)
Fixpoint ipc_write_handler (fuel : nat) (ready : bool) (p : ipc_process_t) : outcome ipc_process_t :=
  match fuel with
  | O => NoFuel
  | S fuel' =>
      if negb ready then Ret (set_timer p)
      else
        let wb := wbuf p in
        let last := first wb + n wb in
        '(q, i, aborted) ← write_loop (Z.to_nat (n wb)) wb (pipe p) (first wb);
        let wb1 :=
          if i =? last then WB 0 0 (overflow_n wb) (overflow_first wb) (overflow_last wb) (alerts wb)
          else WB (u16 (n wb - (i - first wb))) (u16 i) (overflow_n wb) (overflow_first wb) (overflow_last wb) (alerts wb) in
        let p1 := set_pipe (set_wb p wb1) q in
        if (0 <? overflow_n wb1) && (0 <? i - first wb) then
          p2 ← refill_loop (Z.to_nat (IPC_WRITEBUF_SIZE - n wb1)) p1 (first wb1 + n wb1);
          if negb aborted then ipc_write_handler fuel' ready p2
          else Ret (set_write_event p2)
        else if (aborted : bool) then Ret (set_write_event p1) else Ret p1
  end.

(** Enough for the handler to stop by itself. *)
Definition handler_fuel (p : ipc_process_t) : nat := S (size (heap p)).

(** Writing the fields of an alert over what was there. *)
Definition fill_alert (old : ipc_alert_t) (payload : list Z) (now slot gen cd : Z) : ipc_alert_t :=
  Alert (payload ++ drop (length payload) (data old)) now (s16 slot) (u16 gen) (u8 cd).

(** [new] is the overflow node [ngx_alloc] returned, [garbage] what it contains. *)
Definition ipc_alert (ready : bool) (p : ipc_process_t) (payload : list Z) (now slot gen cd : Z)
    (new : option positive) (garbage : ipc_alert_t) : outcome (ipc_process_t * Z) :=
  c_assert (Z.of_nat (length payload) <=? IPC_DATA_SIZE);;
  c_assert (active p);;
  let wb := wbuf p in
  if n wb <? IPC_WRITEBUF_SIZE then
    let i := first wb + n wb in
    old ← ring_get wb i;
    let wb' := WB (u16 (n wb + 1)) (first wb) (overflow_n wb) (overflow_first wb) (overflow_last wb)
                  (ring_set (alerts wb) i (fill_alert old payload now slot gen cd)) in
    let p' := set_wb p wb' in
    p'' ← ipc_write_handler (handler_fuel p') ready p';
    Ret (p'', NGX_OK)
  else
    match new with
    | None => Ret (p, NGX_ERROR)
    | Some nd =>
        let a := fill_alert garbage payload now slot gen cd in
        h ← (match overflow_last wb with
             | Some l =>
                 match heap p !! l with
                 | Some o => Ret (<[nd := Overflow a None]> (<[l := Overflow (of_alert o) (Some nd)]> (heap p)))
                 | None => Crash
                 end
             | None => Ret (<[nd := Overflow a None]> (heap p))
             end);
        let wb' := WB (n wb) (first wb) (s32 (overflow_n wb + 1))
                      (match overflow_first wb with None => Some nd | f => f end) (Some nd) (alerts wb) in
        let p' := set_heap (set_wb p wb') h in
        p'' ← ipc_write_handler (handler_fuel p') ready p';
        Ret (p'', NGX_OK)
    end.

(** ** Reading *)

(** The read loop until the pipe is empty: the alerts the handler was called
    with.  Alerts for a previous generation of workers are dropped. *)
Fixpoint read_loop (q : list ipc_alert_t) (generation : Z) : list ipc_alert_t :=
  match q with
  | [] => []
  | a :: q' => if worker_generation a <? generation then read_loop q' generation else a :: read_loop q' generation
  end.

Definition ipc_read_handler (q : pipe_t) (generation : Z) : pipe_t * list ipc_alert_t :=
  (Pipe (capacity q) [], read_loop (in_pipe q) generation).

(** ** Broadcasting *)

(** One process per slot; [workers] are the slots of the workers, [news] and
    [ready] are as for [ipc_alert]. *)
Fixpoint ipc_broadcast_alert (workers : list Z) (me : Z) (ready : bool) (procs : gmap Z ipc_process_t)
    (payload : list Z) (now gen cd : Z) (news : Z -> option positive) (garbage : ipc_alert_t) :
    outcome (gmap Z ipc_process_t * Z) :=
  match workers with
  | [] => Ret (procs, NGX_OK)
  | s :: workers' =>
      if me =? s then ipc_broadcast_alert workers' me ready procs payload now gen cd news garbage
      else
        match procs !! s with
        | None => Crash
        | Some p =>
            '(p', rc) ← ipc_alert ready p payload now me gen cd (news s) garbage;
            '(procs', ret) ← ipc_broadcast_alert workers' me ready (<[s := p']> procs) payload now gen cd news garbage;
            Ret (procs', if rc =? NGX_OK then ret else NGX_ERROR)
        end
  end.
