(* ===== verification/IpcFacts.v ===== *)
(** * Delivery of alerts between workers

    The ring buffer, the overflow list and the pipe together are a queue:
    alerts come out in the order they were sent, none is lost or repeated, and
    the writer always has either nothing left to write or an event that will
    make it try again. *)

From S2P Require Import Prelude DList Ipc.

(** ** The ring *)

(** [k] alerts from index [i] on. *)
Fixpoint ring_from (l : list ipc_alert_t) (k : nat) (i : Z) : list ipc_alert_t :=
  match k with
  | O => []
  | S k' => default zero_alert (l !! Z.to_nat (i `mod` IPC_WRITEBUF_SIZE)) :: ring_from l k' (i + 1)
  end.

Lemma ring_from_length l k i : length (ring_from l k i) = k.
Proof. revert i. induction k as [|k IH]; intros i; simpl; [done|by rewrite IH]. Qed.

Lemma ring_from_app l k1 k2 i : ring_from l (k1 + k2) i = ring_from l k1 i ++ ring_from l k2 (i + Z.of_nat k1).
Proof.
  revert i. induction k1 as [|k1 IH]; intros i; simpl; [by rewrite Z.add_0_r|].
  rewrite IH. do 3 f_equal. lia.
Qed.

Lemma ring_from_mod l k i j :
  i `mod` IPC_WRITEBUF_SIZE = j `mod` IPC_WRITEBUF_SIZE -> ring_from l k i = ring_from l k j.
Proof.
  revert i j. induction k as [|k IH]; intros i j E; simpl; [done|]. rewrite E. f_equal. apply IH.
  rewrite (Z.add_mod i), (Z.add_mod j) by done. by rewrite E.
Qed.

Lemma ring_index i : (Z.to_nat (i `mod` IPC_WRITEBUF_SIZE) < 32)%nat.
Proof.
  pose proof (Z.mod_pos_bound i IPC_WRITEBUF_SIZE ltac:(done)). unfold IPC_WRITEBUF_SIZE in *. lia.
Qed.

Lemma ring_index_ne i j :
  0 < j - i < IPC_WRITEBUF_SIZE -> Z.to_nat (j `mod` IPC_WRITEBUF_SIZE) <> Z.to_nat (i `mod` IPC_WRITEBUF_SIZE).
Proof.
  intros H E. pose proof (Z.mod_pos_bound i IPC_WRITEBUF_SIZE ltac:(done)).
  pose proof (Z.mod_pos_bound j IPC_WRITEBUF_SIZE ltac:(done)).
  assert ((j - i) `mod` IPC_WRITEBUF_SIZE = 0) as Em by (rewrite Zminus_mod; replace (j `mod` _) with (i `mod` IPC_WRITEBUF_SIZE) by lia; by rewrite Z.sub_diag).
  rewrite Z.mod_small in Em by lia. lia.
Qed.

(** Writing just past the end of the ring's contents. *)
Lemma ring_from_set l k i j a :
  j - i = Z.of_nat k -> (k <= 32)%nat -> forall m, (m <= k)%nat -> (k - m < 32)%nat ->
  (0 < m)%nat -> ring_from (ring_set l j a) (k - m) (i + Z.of_nat m) = ring_from l (k - m) (i + Z.of_nat m).
Proof.
  intros E Hk m Hm Hlt Hpos. remember (k - m)%nat as d eqn:Ed. revert m Hm Hlt Hpos Ed.
  induction d as [|d IH]; intros m Hm Hlt Hpos Ed; simpl; [done|].
  unfold ring_set. rewrite list_lookup_insert_ne by (apply ring_index_ne; unfold IPC_WRITEBUF_SIZE; lia).
  f_equal. replace (i + Z.of_nat m + 1) with (i + Z.of_nat (S m)) by lia. apply IH; lia.
Qed.

Lemma ring_append l k i a :
  length l = 32%nat -> (k < 32)%nat ->
  ring_from (ring_set l (i + Z.of_nat k) a) (S k) i = ring_from l k i ++ [a].
Proof.
  intros Hl Hk. replace (S k) with (k + 1)%nat by lia. rewrite ring_from_app. simpl.
  unfold ring_set at 2. rewrite list_lookup_insert_eq by (rewrite Hl; apply ring_index). simpl. f_equal.
  destruct k as [|k]; [done|]. simpl. f_equal.
  - unfold ring_set. by rewrite list_lookup_insert_ne by (apply ring_index_ne; unfold IPC_WRITEBUF_SIZE; lia).
  - pose proof (ring_from_set l (S k) i (i + Z.of_nat (S k)) a ltac:(lia) ltac:(lia) 1 ltac:(lia) ltac:(lia) ltac:(lia)) as E.
    replace (S k - 1)%nat with k in E by lia. exact E.
Qed.

Lemma ring_get_ok wb i :
  length (alerts wb) = 32%nat ->
  ring_get wb i = Ret (default zero_alert (alerts wb !! Z.to_nat (i `mod` IPC_WRITEBUF_SIZE))).
Proof.
  intros Hl. unfold ring_get. destruct (lookup_lt_is_Some_2 (alerts wb) (Z.to_nat (i `mod` IPC_WRITEBUF_SIZE))) as [a ->];
    [rewrite Hl; apply ring_index|done].
Qed.

(** ** The overflow list *)

Fixpoint oseg (h : gmap positive ipc_writebuf_overflow_t) (p : ptr) (xs : list (positive * ipc_alert_t)) : Prop :=
  match xs with
  | [] => p = None
  | (x, a) :: ys => p = Some x /\ exists nx, h !! x = Some (Overflow a nx) /\ oseg h nx ys
  end.

Lemma oseg_frame h h' p xs :
  (forall x, x ∈ xs.*1 -> h' !! x = h !! x) -> oseg h p xs -> oseg h' p xs.
Proof.
  revert p. induction xs as [|[x a] xs IH]; intros p F; simpl; [done|].
  intros (-> & nx & E & S). split; [done|]. exists nx. rewrite F by (by left). split; [done|].
  apply IH; [|done]. intros y Hy. apply F. by right.
Qed.

Lemma oseg_append h p xs a x :
  oseg h p xs -> NoDup (xs.*1) -> x ∉ xs.*1 ->
  exists h', (match last (xs.*1) with
      | Some l => match h !! l with
                  | Some o => Ret (<[x := Overflow a None]> (<[l := Overflow (of_alert o) (Some x)]> h))
                  | None => Crash
                  end
      | None => Ret (<[x := Overflow a None]> h)
      end) = Ret h' /\ oseg h' (match p with None => Some x | f => f end) (xs ++ [(x, a)]).
Proof.
  revert p h. induction xs as [|[y b] xs IH]; intros p h S ND Nx; simpl in S.
  - subst p. simpl. eexists. split; [reflexivity|]. split; [done|]. eexists. rewrite lookup_insert_eq. done.
  - destruct S as (-> & nx & E & S). apply NoDup_cons in ND as [Ny ND]. apply not_elem_of_cons in Nx as [Nxy Nx].
    destruct xs as [|[z c] xs].
    + simpl in *. rewrite E. eexists. split; [reflexivity|]. split; [done|]. subst nx.
      rewrite lookup_insert_ne, lookup_insert_eq by done. eexists. split; [done|]. split; [done|].
      eexists. by rewrite lookup_insert_eq.
    + destruct (IH nx h S ND Nx) as (h' & E' & S'). destruct S as (-> & _).
      change (last (((y, b) :: (z, c) :: xs).*1)) with (last (((z, c) :: xs).*1)).
      exists h'. split; [exact E'|]. split; [done|]. exists (Some z). split; [|exact S'].
      assert (exists l, last (((z, c) :: xs).*1) = Some l) as [l El].
      { destruct (last (((z, c) :: xs).*1)) eqn:El; [eauto|]. by apply last_None in El. }
      rewrite El in E'. assert (l <> y) by (intros ->; by apply Ny, last_elem).
      destruct (h !! l) as [o|]; [|done]. injection E' as <-. by rewrite !lookup_insert_ne by done.
Qed.

(** ** The queue *)

(** [xs] are the overflowing alerts with their nodes. *)
Record wf (p : ipc_process_t) (xs : list (positive * ipc_alert_t)) : Prop := {
  wf_ring : length (alerts (wbuf p)) = 32%nat;
  wf_n : 0 <= n (wbuf p) <= 32;
  wf_first : in_u 16 (first (wbuf p));
  wf_count : overflow_n (wbuf p) = Z.of_nat (length xs);
  wf_bound : Z.of_nat (length xs) < 2 ^ 31 - 1;
  wf_full : xs <> [] -> n (wbuf p) = 32;
  wf_list : oseg (heap p) (overflow_first (wbuf p)) xs;
  wf_last : overflow_last (wbuf p) = last (xs.*1);
  wf_nodup : NoDup (xs.*1);
}.

Definition ring (p : ipc_process_t) : list ipc_alert_t :=
  ring_from (alerts (wbuf p)) (Z.to_nat (n (wbuf p))) (first (wbuf p)).

(** What was sent and is not in the pipe yet. *)
Definition pending (p : ipc_process_t) (xs : list (positive * ipc_alert_t)) : list ipc_alert_t := ring p ++ xs.*2.

Lemma write_loop_spec wb k q i :
  length (alerts wb) = 32%nat ->
  let m := (k `min` (capacity q - length (in_pipe q)))%nat in
  write_loop k wb q i =
    Ret (Pipe (capacity q) (in_pipe q ++ ring_from (alerts wb) m i), i + Z.of_nat m, bool_decide (m < k)%nat).
Proof.
  intros Hl. revert q i. induction k as [|k IH]; intros q i; simpl.
  - rewrite Z.add_0_r, app_nil_r. by destruct q.
  - rewrite ring_get_ok, bind_Ret by done. unfold ipc_write_alert_fd.
    case_decide as D; simpl.
    + rewrite IH. simpl. rewrite length_app. simpl.
      set (m := (k `min` (capacity q - (length (in_pipe q) + 1)))%nat).
      replace (capacity q - length (in_pipe q))%nat with (S (capacity q - (length (in_pipe q) + 1)))%nat by lia.
      fold m. rewrite <- app_assoc. simpl. do 2 f_equal; [f_equal; lia|]. apply bool_decide_ext. lia.
    + replace (capacity q - length (in_pipe q))%nat with O by lia. simpl.
      rewrite Z.add_0_r, app_nil_r. by destruct q.
Qed.

Lemma refill_spec k p xs i :
  length (alerts (wbuf p)) = 32%nat -> 0 <= n (wbuf p) -> n (wbuf p) + Z.of_nat k = 32 ->
  i = first (wbuf p) + n (wbuf p) -> in_u 16 (first (wbuf p)) ->
  overflow_n (wbuf p) = Z.of_nat (length xs) -> Z.of_nat (length xs) < 2 ^ 31 - 1 ->
  oseg (heap p) (overflow_first (wbuf p)) xs -> overflow_last (wbuf p) = last (xs.*1) -> NoDup (xs.*1) -> xs <> [] ->
  exists p', refill_loop k p i = Ret p' /\ wf p' (drop k xs) /\ ring p' = ring p ++ (take k xs).*2 /\
    pipe p' = pipe p /\ active p' = active p.
Proof.
  revert p xs i. induction k as [|k IH]; intros p xs i Hl Hn Hk -> Hf Hc Hb Ho Hla ND Hne.
  - exists p. split; [done|]. rewrite drop_0, take_0, app_nil_r. split; [|done]. split; auto; lia.
  - destruct xs as [|[x a] xs]; [done|]. destruct Ho as (Eo & nx & Ex & Ho). simpl length in *.
    apply NoDup_cons in ND as [Nx ND]. simpl refill_loop. rewrite Eo, Ex, Hc, wraps_small by (unfold in_s; lia).
    rewrite (proj2 (Z.leb_le _ _)) by lia. cbn [c_assert mbind outcome_bind of_next of_alert].
    rewrite wrapu_small by (unfold in_u; lia).
    set (p1 := set_heap (set_wb p (WB (n (wbuf p) + 1) (first (wbuf p)) (Z.of_nat (S (length xs)) - 1) nx
      (match nx with None => None | _ => overflow_last (wbuf p) end)
      (ring_set (alerts (wbuf p)) (first (wbuf p) + n (wbuf p)) a))) (delete x (heap p))).
    assert (ring p1 = ring p ++ [a]) as Er.
    { unfold ring, p1. simpl. replace (Z.to_nat (n (wbuf p) + 1)) with (S (Z.to_nat (n (wbuf p)))) by lia.
      pose proof (ring_append (alerts (wbuf p)) (Z.to_nat (n (wbuf p))) (first (wbuf p)) a Hl) as Ha.
      rewrite Z2Nat.id in Ha by lia. apply Ha. lia. }
    assert (oseg (delete x (heap p)) nx xs) as Ho'.
    { eapply oseg_frame, Ho. intros y Hy. rewrite lookup_delete_ne; [done|]. intros ->. done. }
    assert (length (alerts (wbuf p1)) = 32%nat) as Hl1 by (unfold p1, ring_set; simpl; by rewrite length_insert).
    destruct nx as [nx|].
    + destruct xs as [|[y b] xs]; [simpl in Ho; congruence|].
      destruct (IH p1 ((y, b) :: xs) (first (wbuf p) + n (wbuf p) + 1)) as (p' & E & W & R & P & A);
        [done|simpl; lia|simpl; lia|simpl; lia|done|simpl; lia|simpl in *; lia|done|done|done|done|].
      exists p'. unfold p1 in E. rewrite E. split; [done|]. split; [exact W|]. rewrite R, Er, <- app_assoc. done.
    + destruct xs as [|[y b] xs]; [|destruct Ho as [? _]; congruence].
      exists p1. split; [done|]. replace (drop (S k) [(x, a)]) with (@nil (positive * ipc_alert_t)) by (simpl; by rewrite drop_nil).
      replace (take (S k) [(x, a)]) with [(x, a)] by (simpl; by rewrite take_nil).
      split; [|done]. split; simpl; try done; try lia.
Qed.

(** The state after the write loop wrote [m] alerts. *)
Lemma after_write p xs m :
  wf p xs -> (m <= Z.to_nat (n (wbuf p)))%nat ->
  let wb := wbuf p in
  let wb1 := if first wb + Z.of_nat m =? first wb + n wb
             then WB 0 0 (overflow_n wb) (overflow_first wb) (overflow_last wb) (alerts wb)
             else WB (u16 (n wb - (first wb + Z.of_nat m - first wb))) (u16 (first wb + Z.of_nat m))
                     (overflow_n wb) (overflow_first wb) (overflow_last wb) (alerts wb) in
  n wb1 = n wb - Z.of_nat m /\ in_u 16 (first wb1) /\ overflow_n wb1 = overflow_n wb /\
  overflow_first wb1 = overflow_first wb /\ overflow_last wb1 = overflow_last wb /\ alerts wb1 = alerts wb /\
  ring_from (alerts wb1) (Z.to_nat (n wb1)) (first wb1) = drop m (ring p).
Proof.
  intros W Hm wb wb1. pose proof (wf_n _ _ W) as Hn. fold wb in Hn, Hm.
  assert (ring p = ring_from (alerts wb) m (first wb) ++
    ring_from (alerts wb) (Z.to_nat (n wb) - m) (first wb + Z.of_nat m)) as Er.
  { unfold ring. fold wb. rewrite <- ring_from_app. f_equal. lia. }
  rewrite Er, drop_app_length' by (by rewrite ring_from_length). subst wb1.
  destruct (Z.eqb_spec (first wb + Z.of_nat m) (first wb + n wb)) as [E|E]; cbn [n first overflow_n overflow_first overflow_last alerts].
  - split_and!; try done; try lia. by replace (Z.to_nat (n wb) - m)%nat with O by lia.
  - assert (u16 (n wb - (first wb + Z.of_nat m - first wb)) = n wb - Z.of_nat m) as ->
      by (rewrite wrapu_small; unfold in_u; lia).
    split_and!; try done; [by apply wrapu_range|].
    replace (Z.to_nat (n wb - Z.of_nat m)) with (Z.to_nat (n wb) - m)%nat by lia.
    apply ring_from_mod. apply (wrapu_mod 16 5). lia.
Qed.

(** One run of [ipc_write_handler]. *)
Definition handled (ready : bool) (p : ipc_process_t) (xs : list (positive * ipc_alert_t)) (p' : ipc_process_t)
    (xs' : list (positive * ipc_alert_t)) : Prop :=
  wf p' xs' /\ active p' = active p /\ capacity (pipe p') = capacity (pipe p) /\
  in_pipe (pipe p') ++ pending p' xs' = in_pipe (pipe p) ++ pending p xs /\
  (length (in_pipe (pipe p)) <= length (in_pipe (pipe p')))%nat /\
  (if ready then pending p' xs' = [] \/
     ((capacity (pipe p) <= length (in_pipe (pipe p')))%nat /\ write_event p' = true)
   else timer_set p' = true).

Lemma write_handler_spec ready fuel p xs :
  wf p xs -> (length xs < fuel)%nat ->
  exists p' xs', ipc_write_handler fuel ready p = Ret p' /\ handled ready p xs p' xs'.
Proof.
  revert p xs. induction fuel as [|fuel IH]; intros p xs W Hf; [lia|]. cbn [ipc_write_handler].
  destruct ready; cbn [negb]; [|exists (set_timer p), xs; split; [done|]; split; [destruct W; by split|done]].
  rewrite write_loop_spec by apply W. cbn [mbind outcome_bind].
  set (N := Z.to_nat (n (wbuf p))). set (m := (N `min` (capacity (pipe p) - length (in_pipe (pipe p))))%nat).
  destruct (after_write p xs m W ltac:(lia)) as (A1 & A2 & A3 & A4 & A5 & A6 & A7).
  cbn zeta in *. set (wb1 := if _ =? _ then _ else _) in *.
  pose proof (wf_n _ _ W) as Hn. pose proof (wf_count _ _ W) as Hc. pose proof (wf_bound _ _ W) as Hb.
  set (q := Pipe (capacity (pipe p)) (in_pipe (pipe p) ++ ring_from (alerts (wbuf p)) m (first (wbuf p)))).
  assert (ring p = ring_from (alerts (wbuf p)) m (first (wbuf p)) ++ drop m (ring p)) as Er.
  { unfold ring. fold N. replace N with (m + (N - m))%nat at 1 2 by lia. rewrite ring_from_app.
    by rewrite drop_app_length' by (by rewrite ring_from_length). }
  assert (ring (set_pipe (set_wb p wb1) q) = drop m (ring p)) as Er1 by exact A7.
  assert (length (ring p) = N) as Lr by (by apply ring_from_length).
  assert ((m < N)%nat -> (capacity (pipe p) <= length (in_pipe q))%nat) as Full.
  { intros Hlt. unfold q. simpl. rewrite length_app, ring_from_length. lia. }
  assert (length (in_pipe (pipe p)) <= length (in_pipe q))%nat as Lq by (unfold q; simpl; rewrite length_app; lia).
  assert (in_pipe q ++ drop m (ring p) ++ xs.*2 = in_pipe (pipe p) ++ pending p xs) as Eq.
  { unfold q, pending. simpl. rewrite Er at 2. by rewrite <- !app_assoc. }
  replace (first (wbuf p) + Z.of_nat m - first (wbuf p)) with (Z.of_nat m) by lia.
  rewrite A3, Hc. destruct ((0 <? Z.of_nat (length xs)) && (0 <? Z.of_nat m)) eqn:Eb.
  - apply andb_true_iff in Eb as [Hx%Z.ltb_lt Hm%Z.ltb_lt].
    assert (xs <> []) as Hne by (destruct xs; [simpl in Hx; lia|done]).
    pose proof (wf_full _ _ W Hne) as HN.
    destruct (refill_spec (Z.to_nat (IPC_WRITEBUF_SIZE - n wb1)) (set_pipe (set_wb p wb1) q) xs (first wb1 + n wb1))
      as (p2 & -> & W2 & R2 & P2 & Ac2); simpl; try done; try (unfold IPC_WRITEBUF_SIZE; lia); try congruence; try apply W.
    { rewrite A6. apply W. } { rewrite A4. apply W. } { rewrite A5. apply W. }
    cbn [mbind outcome_bind]. set (k := Z.to_nat (IPC_WRITEBUF_SIZE - n wb1)) in *.
    assert (in_pipe (pipe p2) ++ pending p2 (drop k xs) = in_pipe (pipe p) ++ pending p xs) as E2.
    { rewrite <- Eq, P2. unfold pending. rewrite R2, Er1. simpl. rewrite <- !app_assoc. do 2 f_equal.
      by rewrite <- fmap_app, take_drop. }
    destruct (bool_decide (m < N)%nat) eqn:Ea; cbn [negb].
    + apply bool_decide_eq_true in Ea. exists (set_write_event p2), (drop k xs). split; [done|].
      split; [destruct W2; by split|]. simpl. rewrite P2. split_and!; try done; [by rewrite <- P2|].
      right. split; [by apply Full|done].
    + apply bool_decide_eq_false in Ea. destruct (IH p2 (drop k xs) W2) as (p' & xs' & -> & W' & H1 & H2 & H3 & H4 & H5).
      { rewrite length_drop. assert (0 < k)%nat by (unfold k, IPC_WRITEBUF_SIZE; lia). lia. }
      exists p', xs'. split; [done|]. rewrite P2 in *. simpl in *. split_and!; try done; try congruence; lia.
  - assert (wf (set_pipe (set_wb p wb1) q) xs) as W1.
    { split; simpl; rewrite ?A3, ?A4, ?A5, ?A6, ?A1; try apply W; try done; [lia|].
      intros Hne. pose proof (wf_full _ _ W Hne). assert (m = O) as ->; [|lia].
      destruct xs; [done|]. simpl length in Eb. apply andb_false_iff in Eb as [Eb%Z.ltb_ge|Eb%Z.ltb_ge]; lia. }
    assert (in_pipe q ++ pending (set_pipe (set_wb p wb1) q) xs = in_pipe (pipe p) ++ pending p xs) as E1
      by (unfold pending at 1; by rewrite Er1).
    destruct (bool_decide (m < N)%nat) eqn:Ea.
    + apply bool_decide_eq_true in Ea. exists (set_write_event (set_pipe (set_wb p wb1) q)), xs. split; [done|].
      split; [destruct W1; by split|]. split_and!; try done.
      right. split; [by apply Full|done].
    + apply bool_decide_eq_false in Ea. exists (set_pipe (set_wb p wb1) q), xs. split; [done|].
      split; [done|]. split_and!; try done.
      * left. unfold pending. rewrite Er1, drop_ge by lia. destruct xs as [|x xs]; [done|].
        pose proof (wf_full _ _ W ltac:(done)). simpl length in Eb.
        apply andb_false_iff in Eb as [Eb%Z.ltb_ge|Eb%Z.ltb_ge]; lia.
Qed.

Lemma handler_fuel_enough p xs : wf p xs -> (length xs < handler_fuel p)%nat.
Proof.
  intros W. unfold handler_fuel. assert (list_to_set (xs.*1) ⊆ dom (heap p)) as Sub.
  { pose proof (wf_list _ _ W) as S. revert S. generalize (overflow_first (wbuf p)).
    induction xs as [|[x a] xs IH]; intros f S; simpl; [set_solver|].
    destruct W as [? ? ? ? ? ? ? ? ND]. apply NoDup_cons in ND as [Nx ND].
    destruct S as (-> & nx & Ex & S).
    assert (forall f, oseg (heap p) f xs -> list_to_set xs.*1 ⊆ dom (heap p)) as IH'.
    { clear -Ex. induction xs as [|[y b] ys IH]; intros f S; simpl; [set_solver|].
      destruct S as (-> & ny & Ey & S). apply union_subseteq. split; [|by eapply IH].
      apply singleton_subseteq_l, elem_of_dom. eauto. }
    apply union_subseteq. split; [apply singleton_subseteq_l, elem_of_dom; eauto|by eapply IH']. }
  apply subseteq_size in Sub. rewrite size_list_to_set, length_fmap, size_dom in Sub by apply W. lia.
Qed.

(** ** Sending *)

(** What the receiver can rely on: the fields and the bytes that were passed. *)
Definition carries (a : ipc_alert_t) (payload : list Z) (now slot gen cd : Z) : Prop :=
  take (length payload) (data a) = payload /\ time_sent a = now /\ src_slot a = s16 slot /\
  worker_generation a = u16 gen /\ code a = u8 cd.

Lemma fill_alert_carries old payload now slot gen cd :
  carries (fill_alert old payload now slot gen cd) payload now slot gen cd.
Proof. split_and!; try done. simpl. by rewrite take_app_length. Qed.

Lemma overflow_nodes p xs x : wf p xs -> heap p !! x = None -> x ∉ xs.*1.
Proof.
  intros W Hx. pose proof (wf_list _ _ W) as S. revert S. generalize (overflow_first (wbuf p)).
  clear W. induction xs as [|[y a] xs IH]; intros f S; [set_solver|]. destruct S as (-> & nx & Ey & S).
  apply not_elem_of_cons. split; [simpl; congruence|]. eapply IH; eauto.
Qed.

Lemma ipc_alert_spec ready p xs payload now slot gen cd new garbage :
  wf p xs -> active p = true -> Z.of_nat (length payload) <= 64 -> heap p !! new = None ->
  Z.of_nat (length xs) + 2 < 2 ^ 31 ->
  exists p' xs' a, ipc_alert ready p payload now slot gen cd (Some new) garbage = Ret (p', NGX_OK) /\
    carries a payload now slot gen cd /\ wf p' xs' /\ active p' = true /\
    capacity (pipe p') = capacity (pipe p) /\
    in_pipe (pipe p') ++ pending p' xs' = (in_pipe (pipe p) ++ pending p xs) ++ [a].
Proof.
  intros W Ha Hp Hnew Hx. unfold ipc_alert. rewrite (proj2 (Z.leb_le _ _)), Ha by (unfold IPC_DATA_SIZE; lia).
  cbn [c_assert mbind outcome_bind]. pose proof (wf_n _ _ W) as Hn. pose proof (wf_ring _ _ W) as Hr.
  assert (forall p1 xs1 a, wf p1 xs1 -> active p1 = true -> pipe p1 = pipe p ->
    pending p1 xs1 = pending p xs ++ [a] -> carries a payload now slot gen cd ->
    exists p' xs' a, (p'' ← ipc_write_handler (handler_fuel p1) ready p1; Ret (p'', NGX_OK)) = Ret (p', NGX_OK) /\
      carries a payload now slot gen cd /\ wf p' xs' /\ active p' = true /\
      capacity (pipe p') = capacity (pipe p) /\
      in_pipe (pipe p') ++ pending p' xs' = (in_pipe (pipe p) ++ pending p xs) ++ [a]) as Done.
  { intros p1 xs1 a W1 A1 P1 E1 C1.
    destruct (write_handler_spec ready (handler_fuel p1) p1 xs1 W1 (handler_fuel_enough _ _ W1))
      as (p' & xs' & -> & W' & H1 & H2 & H3 & _). exists p', xs', a.
    split_and!; try done; [by rewrite H1|by rewrite H2, P1|]. rewrite H3, E1, P1. by rewrite app_assoc. }
  destruct (Z.ltb_spec (n (wbuf p)) IPC_WRITEBUF_SIZE) as [Hlt|Hge]; unfold IPC_WRITEBUF_SIZE in *.
  - rewrite ring_get_ok by done. cbn [mbind outcome_bind].
    assert (xs = []) as -> by (destruct xs; [done|]; pose proof (wf_full _ _ W ltac:(done)); lia).
    eapply (Done _ []); [|done|done| |apply fill_alert_carries].
    + split; simpl; try apply W; try done; [unfold ring_set; by rewrite length_insert|rewrite wrapu_small; unfold in_u; lia].
    + unfold pending, ring. simpl. rewrite !app_nil_r, wrapu_small by (unfold in_u; lia).
      replace (Z.to_nat (n (wbuf p) + 1)) with (S (Z.to_nat (n (wbuf p)))) by lia.
      match goal with |- context [ring_set _ _ ?a] =>
        pose proof (ring_append (alerts (wbuf p)) (Z.to_nat (n (wbuf p))) (first (wbuf p)) a Hr) as Hap end.
      rewrite Z2Nat.id in Hap by lia. apply Hap. lia.
  - destruct (oseg_append (heap p) (overflow_first (wbuf p)) xs (fill_alert garbage payload now slot gen cd) new)
      as (h' & Eh & S'); [apply W|apply W|by eapply overflow_nodes|].
    rewrite (wf_last _ _ W), Eh. cbn [mbind outcome_bind].
    eapply (Done _ (xs ++ [(new, fill_alert garbage payload now slot gen cd)])); [|done|done| |apply fill_alert_carries].
    + split; cbn [wbuf heap set_heap set_wb n first overflow_n overflow_first overflow_last alerts]; try apply W; try done.
      * rewrite (wf_count _ _ W), length_app, wraps_small by (unfold in_s; lia). simpl. lia.
      * rewrite length_app. simpl. lia.
      * intros _. lia.
      * by destruct (overflow_first (wbuf p)).
      * rewrite fmap_app. change ([(new, fill_alert garbage payload now slot gen cd)].*1) with [new].
        by rewrite last_snoc.
      * rewrite fmap_app. apply NoDup_app. split_and!; [apply W| |apply NoDup_singleton].
        intros y Hy ->%list_elem_of_singleton. by eapply overflow_nodes.
    + unfold pending. rewrite fmap_app. by rewrite app_assoc.
Qed.

(** ** A writer and a reader *)

Inductive link_op :=
  | Send (ready : bool) (payload : list Z) (now slot gen cd : Z)
  | WriteEvent (ready : bool)
  | ReadEvent.

(** [got]: the alerts the reader's handler was called with. *)
Record link := Link { writer : ipc_process_t; got : list ipc_alert_t }.

Definition run_link_op (generation : Z) (s : link) (o : link_op) : outcome link :=
  match o with
  | Send ready payload now slot gen cd =>
      '(p, _) ← ipc_alert ready (writer s) payload now slot gen cd (Some (fresh (dom (heap (writer s))))) zero_alert;
      Ret (Link p (got s))
  | WriteEvent ready => p ← ipc_write_handler (handler_fuel (writer s)) ready (writer s); Ret (Link p (got s))
  | ReadEvent =>
      let '(q, l) := ipc_read_handler (pipe (writer s)) generation in Ret (Link (set_pipe (writer s) q) (got s ++ l))
  end.

Fixpoint run_link (generation : Z) (s : link) (os : list link_op) : outcome link :=
  match os with
  | [] => Ret s
  | o :: os' => s' ← run_link_op generation s o; run_link generation s' os'
  end.

(** The alerts that a run sends, in order. *)
Definition is_send (o : link_op) : bool := match o with Send _ _ _ _ _ _ => true | _ => false end.
Definition sends (os : list link_op) : list link_op := filter (fun o => is_send o) os.

Definition sent_as (o : link_op) (a : ipc_alert_t) : Prop :=
  match o with Send _ payload now slot gen cd => carries a payload now slot gen cd | _ => False end.

Definition payload_fits (o : link_op) : Prop :=
  match o with Send _ payload _ _ _ _ => Z.of_nat (length payload) <= 64 | _ => True end.

Lemma read_loop_app l1 l2 g : read_loop (l1 ++ l2) g = read_loop l1 g ++ read_loop l2 g.
Proof. induction l1 as [|a l1 IH]; simpl; [done|]. case_match; simpl; by rewrite IH. Qed.

(** [sent] are all the alerts sent so far, [read] those taken from the pipe. *)
Record link_inv (generation : Z) (cap : nat) (s : link) (sent : list ipc_alert_t) : Prop := {
  link_ok : exists xs read, wf (writer s) xs /\ got s = read_loop read generation /\
    sent = read ++ in_pipe (pipe (writer s)) ++ pending (writer s) xs;
  link_active : active (writer s) = true;
  link_capacity : capacity (pipe (writer s)) = cap;
}.

Lemma link_step g cap s sent o :
  link_inv g cap s sent -> payload_fits o -> Z.of_nat (length sent) + 2 < 2 ^ 31 ->
  exists s' new, run_link_op g s o = Ret s' /\ link_inv g cap s' (sent ++ new) /\ Forall2 sent_as (sends [o]) new.
Proof.
  intros [(xs & read & W & G & E) A C] Hp Hb.
  assert (Z.of_nat (length xs) + 2 < 2 ^ 31) as Hx.
  { rewrite E in Hb. unfold pending in Hb. rewrite !length_app, length_fmap in Hb. lia. }
  destruct o as [ready payload now slot gen cd|ready|]; cbn [run_link_op].
  - destruct (ipc_alert_spec ready (writer s) xs payload now slot gen cd (fresh (dom (heap (writer s)))) zero_alert)
      as (p' & xs' & a & -> & Ca & W' & A' & C' & E'); auto.
    { apply not_elem_of_dom, is_fresh. }
    cbn [mbind outcome_bind]. eexists _, [a]. split; [reflexivity|].
    split; [|change (Forall2 sent_as [Send ready payload now slot gen cd] [a]); constructor; [exact Ca|constructor]].
    split; simpl; [|done|congruence]. exists xs', read. split_and!; try done. by rewrite E, E', <- !app_assoc.
  - destruct (write_handler_spec ready (handler_fuel (writer s)) (writer s) xs W (handler_fuel_enough _ _ W))
      as (p' & xs' & -> & W' & A' & C' & E' & _).
    cbn [mbind outcome_bind]. eexists _, []. split; [reflexivity|]. split; [|constructor].
    split; simpl; [|congruence|congruence]. exists xs', read. split_and!; try done. by rewrite app_nil_r, E, E'.
  - eexists _, []. split; [reflexivity|]. split; [|constructor].
    split; simpl; try done. exists xs, (read ++ in_pipe (pipe (writer s))). split_and!.
    + destruct W; by split.
    + by rewrite G, read_loop_app.
    + rewrite app_nil_r, E. simpl. by rewrite <- app_assoc.
Qed.

Lemma link_run g cap os s sent :
  link_inv g cap s sent -> Forall payload_fits os -> Z.of_nat (length sent + length os) + 2 < 2 ^ 31 ->
  exists s' new, run_link g s os = Ret s' /\ link_inv g cap s' (sent ++ new) /\ Forall2 sent_as (sends os) new.
Proof.
  revert s sent. induction os as [|o os IH]; intros s sent I F Hb.
  - exists s, []. rewrite app_nil_r. by split_and!.
  - apply Forall_cons in F as [Fo F]. simpl length in Hb.
    destruct (link_step g cap s sent o I Fo) as (s1 & new1 & E1 & I1 & F1); [lia|].
    assert (length new1 <= 1)%nat as L1.
    { apply Forall2_length in F1. rewrite <- F1. pose proof (length_filter (fun o => is_send o) [o]) as L. exact L. }
    destruct (IH s1 (sent ++ new1) I1 F) as (s2 & new2 & E2 & I2 & F2); [rewrite length_app; lia|].
    exists s2, (new1 ++ new2). simpl. rewrite E1. cbn [mbind outcome_bind]. split; [done|].
    rewrite app_assoc. split; [done|].
    replace (sends (o :: os)) with (sends [o] ++ sends os).
    + by apply Forall2_app.
    + unfold sends. by rewrite <- filter_app.
Qed.

Definition new_link (cap : nat) : link := Link (Proc true ipc_init ∅ (Pipe cap []) false false) [].

Lemma new_link_inv g cap : link_inv g cap (new_link cap) [].
Proof.
  split; try done. exists [], []. split_and!; try done.
  split; simpl; try done; try lia. constructor.
Qed.

(** C9.  Alerts are delivered first in, first out.  Whatever the order of sends,
    write events and reads, and however full the pipe, the alerts the reader
    has handled followed by those still on their way are exactly the alerts
    sent, in order, none lost, repeated or altered, except those of an earlier
    generation of workers, which the reader drops; and no assertion fails. *)
Theorem alerts_fifo g cap os :
  Forall payload_fits os -> Z.of_nat (length os) + 2 < 2 ^ 31 ->
  exists s sent xs, run_link g (new_link cap) os = Ret s /\ Forall2 sent_as (sends os) sent /\
    read_loop sent g = got s ++ read_loop (in_pipe (pipe (writer s)) ++ pending (writer s) xs) g /\
    wf (writer s) xs.
Proof.
  intros F Hb. destruct (link_run g cap os (new_link cap) [] (new_link_inv g cap) F) as (s & new & E & I & F2);
    [simpl; lia|]. destruct I as [(xs & read & W & G & Es) _ _].
  exists s, new, xs. split_and!; try done. simpl in Es. by rewrite Es, read_loop_app, G.
Qed.

(** ** Progress *)

(** The reader empties the pipe, then the writer is told it can write. *)
Definition round : list link_op := [ReadEvent; WriteEvent true].

Lemma link_round g cap s sent k :
  link_inv g (S cap) s sent ->
  (forall xs, wf (writer s) xs -> length (pending (writer s) xs) <= S k)%nat ->
  exists s' xs', run_link g s round = Ret s' /\ link_inv g (S cap) s' sent /\ wf (writer s') xs' /\
    (length (pending (writer s') xs') <= k)%nat.
Proof.
  intros [(xs & read & W & G & E) A C] Hk. cbn [run_link round run_link_op ipc_read_handler mbind outcome_bind writer].
  set (p1 := set_pipe (writer s) (Pipe (capacity (pipe (writer s))) [])).
  assert (wf p1 xs) as W1 by (destruct W; by split).
  destruct (write_handler_spec true (handler_fuel p1) p1 xs W1 (handler_fuel_enough _ _ W1))
    as (p' & xs' & -> & W' & A' & C' & E' & L & D). cbn [mbind outcome_bind].
  assert (pending p1 xs = pending (writer s) xs) as Ep by done. rewrite Ep in E'. simpl in E'.
  eexists _, xs'. split; [reflexivity|]. simpl. split_and!; [|done|].
  - split; simpl; [|by rewrite A'|by rewrite C'].
    exists xs', (read ++ in_pipe (pipe (writer s))). split_and!; [done|by rewrite G, read_loop_app|].
    by rewrite E, E', app_assoc.
  - specialize (Hk xs W). apply (f_equal length) in E'. rewrite length_app in E'.
    destruct D as [->|[D _]]; simpl; [lia|]. simpl in D. rewrite C in D. lia.
Qed.

Fixpoint rounds (k : nat) : list link_op := match k with O => [ReadEvent] | S k' => round ++ rounds k' end.

Lemma run_link_app g s os1 os2 : run_link g s (os1 ++ os2) = s' ← run_link g s os1; run_link g s' os2.
Proof.
  revert s. induction os1 as [|o os1 IH]; intros s; [done|]. simpl.
  destruct (run_link_op g s o); simpl; [apply IH|done|done].
Qed.

(** The queue's contents do not depend on how the overflow list is described. *)
Lemma oseg_unique h p xs ys : oseg h p xs -> oseg h p ys -> xs = ys.
Proof.
  revert p ys. induction xs as [|[x a] xs IH]; intros p [|[y b] ys] S1 S2; simpl in *.
  - done.
  - destruct S2 as [? _]. congruence.
  - destruct S1 as [? _]. congruence.
  - destruct S1 as (-> & nx & E1 & S1), S2 as ([= ->] & ny & E2 & S2). rewrite E1 in E2.
    injection E2 as -> ->. f_equal. by eapply IH.
Qed.

Lemma rounds_deliver g cap k s sent :
  link_inv g (S cap) s sent -> (forall xs, wf (writer s) xs -> length (pending (writer s) xs) <= k)%nat ->
  exists s', run_link g s (rounds k) = Ret s' /\ got s' = read_loop sent g.
Proof.
  revert s. induction k as [|k IH]; intros s I Hk.
  - destruct I as [(xs & read & W & G & E) A C]. eexists. split; [reflexivity|]. simpl.
    specialize (Hk xs W). destruct (pending (writer s) xs); [|simpl in Hk; lia].
    by rewrite E, app_nil_r, read_loop_app, G.
  - destruct (link_round g cap s sent k I Hk) as (s1 & xs1 & E1 & I1 & W1 & L1).
    cbn [rounds]. rewrite run_link_app, E1. cbn [mbind outcome_bind]. apply IH; [done|].
    intros xs W. by rewrite (oseg_unique _ _ _ _ (wf_list _ _ W) (wf_list _ _ W1)).
Qed.

(** C32.  Every alert is eventually delivered.  However many alerts were sent and
    however small the pipe, once the reader reads and the writer is woken up
    as many times as there are alerts, the reader has handled all of them, in
    order. *)
Theorem alerts_delivered g cap os :
  Forall payload_fits os -> Z.of_nat (length os) + 2 < 2 ^ 31 ->
  exists s s' sent, run_link g (new_link (S cap)) os = Ret s /\ Forall2 sent_as (sends os) sent /\
    run_link g s (rounds (length sent)) = Ret s' /\ got s' = read_loop sent g.
Proof.
  intros F Hb. destruct (link_run g (S cap) os (new_link (S cap)) [] (new_link_inv g (S cap)) F)
    as (s & new & E & I & F2); [simpl; lia|]. simpl in I.
  destruct (rounds_deliver g cap (length new) s new I) as (s' & E' & G').
  - destruct I as [(xs & read & W & G & Es) _ _]. intros ys Wy.
    rewrite (oseg_unique _ _ _ _ (wf_list _ _ Wy) (wf_list _ _ W)). rewrite Es, !length_app. lia.
  - by exists s, s', new.
Qed.

Lemma alerts_fifo_witness :
  exists s sent xs,
    run_link 1 (new_link 2) [Send true [7] 10 0 1 3; Send true [8] 10 0 1 3; Send true [9] 10 0 1 4; ReadEvent] = Ret s /\
    Forall2 sent_as (sends [Send true [7] 10 0 1 3; Send true [8] 10 0 1 3; Send true [9] 10 0 1 4; ReadEvent]) sent /\
    read_loop sent 1 = got s ++ read_loop (in_pipe (pipe (writer s)) ++ pending (writer s) xs) 1 /\
    wf (writer s) xs.
Proof. apply alerts_fifo; [repeat constructor; simpl; lia|simpl; lia]. Defined.

Lemma alerts_delivered_witness :
  exists s s' sent,
    run_link 1 (new_link 1) [Send true [7] 10 0 1 3; Send true [8] 10 0 1 3; Send false [9] 10 0 1 4] = Ret s /\
    Forall2 sent_as (sends [Send true [7] 10 0 1 3; Send true [8] 10 0 1 3; Send false [9] 10 0 1 4]) sent /\
    run_link 1 s (rounds (length sent)) = Ret s' /\ got s' = read_loop sent 1.
Proof. apply alerts_delivered; [repeat constructor; simpl; lia|simpl; lia]. Defined.
