(* ===== verification/RbTree.v ===== *)
(** * Trees of nodes with an id ([util/nchan_rbtree.c])

    [rbtree_seed_t] wraps an nginx red-black tree: the nodes are ordered by a
    32-bit hash of their id and, among equal hashes, by a comparison of the
    ids.  The rebalancing and the deletion of nginx ([ngx_rbtree_insert],
    [ngx_rbtree_delete]) are operations of the class [NgxRbtree], of which
    only the documented effect on the sequence of nodes is used. *)

From S2P Require Import Prelude.

(** ** Trees *)

Inductive rbtree (A : Type) :=
  | Sentinel
  | Node (key : Z) (left : rbtree A) (data : A) (right : rbtree A).
Arguments Sentinel {A}.
Arguments Node {A} _ _ _ _.

(** The nodes from left to right, children first, and parents first. *)
Fixpoint inorder {A} (t : rbtree A) : list (Z * A) :=
  match t with
  | Sentinel => []
  | Node k l d r => inorder l ++ (k, d) :: inorder r
  end.

Fixpoint postorder {A} (t : rbtree A) : list A :=
  match t with
  | Sentinel => []
  | Node _ l d r => postorder l ++ postorder r ++ [d]
  end.

Fixpoint preorder {A} (t : rbtree A) : list A :=
  match t with
  | Sentinel => []
  | Node _ l d r => d :: preorder l ++ preorder r
  end.

Lemma postorder_perm {A} (t : rbtree A) : postorder t ≡ₚ (inorder t).*2.
Proof.
  induction t as [|k l IHl d r IHr]; simpl; [done|].
  rewrite fmap_app, fmap_cons, IHl, IHr. simpl. by rewrite <- Permutation_cons_append.
Qed.

Lemma preorder_perm {A} (t : rbtree A) : preorder t ≡ₚ (inorder t).*2.
Proof.
  induction t as [|k l IHl d r IHr]; simpl; [done|].
  rewrite fmap_app, fmap_cons, IHl, IHr. simpl. by rewrite Permutation_middle.
Qed.

(** What nginx does to the tree once [tree->insert] has attached a red leaf,
    and how it deletes a node: rotations keep the order of the nodes. *)
Class NgxRbtree (A : Type) := {
  ngx_rebalance : rbtree A -> rbtree A;
  ngx_rbtree_delete : rbtree A -> A -> rbtree A;
  ngx_rebalance_inorder t : inorder (ngx_rebalance t) = inorder t;
  ngx_rbtree_delete_inorder t l1 k a l2 :
    inorder t = l1 ++ (k, a) :: l2 -> a ∉ l1.*2 ->
    inorder (ngx_rbtree_delete t a) = l1 ++ l2;
}.

(** *** An implementation without balancing *)

Fixpoint tree_join {A} (l r : rbtree A) : rbtree A :=
  match l with
  | Sentinel => r
  | Node k l1 d l2 => Node k l1 d (tree_join l2 r)
  end.

Fixpoint tree_delete {A} `{EqDecision A} (t : rbtree A) (a : A) : rbtree A :=
  match t with
  | Sentinel => Sentinel
  | Node k l d r =>
      if decide (a ∈ (inorder l).*2) then Node k (tree_delete l a) d r
      else if decide (d = a) then tree_join l r
      else Node k l d (tree_delete r a)
  end.

Lemma tree_join_inorder {A} (l r : rbtree A) : inorder (tree_join l r) = inorder l ++ inorder r.
Proof. induction l as [|k l1 _ d l2 IH]; simpl; [done|]. by rewrite IH, <- app_assoc. Qed.

(** A first occurrence is unique. *)
Lemma split_unique {A} (l1 l2 l1' l2' : list (Z * A)) k k' a :
  l1 ++ (k, a) :: l2 = l1' ++ (k', a) :: l2' -> a ∉ l1.*2 -> a ∉ l1'.*2 ->
  l1 = l1' /\ l2 = l2'.
Proof.
  revert l1'. induction l1 as [|[k1 b] l1 IH]; intros [|[k2 b'] l1'] E N1 N2; simplify_eq/=;
    set_solver.
Qed.

Lemma tree_delete_inorder {A} `{EqDecision A} (t : rbtree A) l1 k a l2 :
  inorder t = l1 ++ (k, a) :: l2 -> a ∉ l1.*2 -> inorder (tree_delete t a) = l1 ++ l2.
Proof.
  revert l1 l2 k. induction t as [|k0 l IHl d r IHr]; intros l1 l2 k E N; simpl in *.
  { by destruct l1. }
  destruct (decide (a ∈ (inorder l).*2)) as [Hd|Hd]; [|destruct (decide (d = a)) as [->|Hda]]; simpl.
  - apply list_elem_of_fmap in Hd as ([k1 a'] & -> & Hin). simpl in *.
    assert (exists m1 k2 m2, inorder l = m1 ++ (k2, a') :: m2 /\ a' ∉ m1.*2) as (m1 & k2 & m2 & El & Nm).
    { clear -Hin EqDecision0. induction (inorder l) as [|[k3 b] m IH]; [set_solver|].
      destruct (decide (b = a')) as [->|Hb]; [exists [], k3, m; split; [done|set_solver]|].
      destruct IH as (m1 & k2 & m2 & -> & Nm); [set_solver|].
      exists ((k3, b) :: m1), k2, m2. split; [done|]. set_solver. }
    rewrite (IHl _ _ _ El Nm). rewrite El, <- app_assoc in E. simpl in E.
    edestruct (split_unique m1 (m2 ++ (k0, d) :: inorder r) l1 l2) as [-> <-]; eauto.
    by rewrite <- app_assoc.
  - rewrite tree_join_inorder.
    edestruct (split_unique (inorder l) (inorder r) l1 l2) as [-> ->]; eauto.
  - assert (exists m1, l1 = inorder l ++ (k0, d) :: m1 /\ inorder r = m1 ++ (k, a) :: l2)
      as (m1 & -> & Er).
    { clear -E N Hd Hda. revert l1 E N. induction (inorder l) as [|[k1 b] m IH]; intros l1 E N; simpl in *.
      - destruct l1 as [|p l1]; simplify_eq/=. eauto.
      - destruct l1 as [|p l1]; simplify_eq/=; [set_solver|].
        destruct (IH ltac:(set_solver) l1) as (m1 & -> & ->); [done|set_solver|eauto]. }
    rewrite (IHr _ _ _ Er); [by rewrite <- app_assoc|set_solver].
Qed.

Definition rbtree_reference {A} `{EqDecision A} : NgxRbtree A :=
  {| ngx_rebalance := fun t => t;
     ngx_rbtree_delete := tree_delete;
     ngx_rebalance_inorder := fun _ => eq_refl;
     ngx_rbtree_delete_inorder := tree_delete_inorder |}.

(** ** Operations *)

(** The tree and the two counters, unsigned. *)
Record rbtree_seed_t (A : Type) := Seed {
  tree : rbtree A;
  active_nodes : Z;
  allocd_nodes : Z;
}.
Arguments Seed {A} _ _ _.
Arguments tree {A} _.
Arguments active_nodes {A} _.
Arguments allocd_nodes {A} _.

Inductive rbtree_walk_direction_t :=
  | RBTREE_WALK_LEFT | RBTREE_WALK_RIGHT | RBTREE_WALK_LEFT_RIGHT | RBTREE_WALK_STOP.
Global Instance walk_direction_eq_dec : EqDecision rbtree_walk_direction_t.
Proof. solve_decision. Defined.

Section operations.
Context {A ID : Type} `{NgxRbtree A}.
(** [seed->id], [seed->hash] and [seed->compare]. *)
Context (node_id : A -> outcome ID) (hash : ID -> Z) (compare : ID -> ID -> outcome Z).

Definition rbtree_init : rbtree_seed_t A := Seed Sentinel 0 0.

Fixpoint rbtree_find_node_generic (node : rbtree A) (id : ID) (h : Z) : outcome (option A) :=
  match node with
  | Sentinel => Ret None
  | Node key l d r =>
      if h <? key then rbtree_find_node_generic l id h
      else if key <? h then rbtree_find_node_generic r id h
      else
        id' ← node_id d;
        rc ← compare id id';
        if rc =? 0 then Ret (Some d)
        else if rc <? 0 then rbtree_find_node_generic l id h
        else rbtree_find_node_generic r id h
  end.

Definition rbtree_find_node (seed : rbtree_seed_t A) (id : ID) : outcome (option A) :=
  rbtree_find_node_generic (tree seed) id (hash id).

(** [temp] is not the sentinel: the descent stops at the sentinel below it. *)
Fixpoint rbtree_insert_generic (temp : rbtree A) (key : Z) (node : A) : outcome (rbtree A) :=
  match temp with
  | Sentinel => Ret (Node key Sentinel node Sentinel)
  | Node k l d r =>
      go_left ←
        (if negb (key =? k) then Ret (key <? k)
         else
           id ← node_id node;
           id' ← node_id d;
           rc ← compare id id';
           Ret (rc <? 0));
      if (go_left : bool) then
        l' ← rbtree_insert_generic l key node; Ret (Node k l' d r)
      else
        r' ← rbtree_insert_generic r key node; Ret (Node k l d r')
  end.

(** The node was allocated with [rbtree_create_node]; its address is new. *)
Definition rbtree_create_node (seed : rbtree_seed_t A) : rbtree_seed_t A :=
  Seed (tree seed) (active_nodes seed) (u64 (allocd_nodes seed + 1)).

Definition rbtree_destroy_node (seed : rbtree_seed_t A) : rbtree_seed_t A :=
  Seed (tree seed) (active_nodes seed) (u64 (allocd_nodes seed - 1)).

Definition rbtree_insert_node (seed : rbtree_seed_t A) (node : A) : outcome (rbtree_seed_t A) :=
  id ← node_id node;
  t ← (match tree seed with
       | Sentinel => Ret (Node (hash id) Sentinel node Sentinel)
       | root => t ← rbtree_insert_generic root (hash id) node; Ret (ngx_rebalance t)
       end);
  Ret (Seed t (u64 (active_nodes seed + 1)) (allocd_nodes seed)).

Definition rbtree_remove_node (seed : rbtree_seed_t A) (node : A) : rbtree_seed_t A :=
  Seed (ngx_rbtree_delete (tree seed) node) (u64 (active_nodes seed - 1)) (allocd_nodes seed).
End operations.

(** *** Walks

    A callback transforms a state [S] of its own; the callbacks of
    [rbtree_walk] and of the conditional walk leave the tree alone. *)

Section walks.
Context {A S : Type}.

Fixpoint rbtree_walk_real (node : rbtree A) (callback : A -> S -> outcome S) (s : S) : outcome S :=
  match node with
  | Sentinel => Ret s
  | Node _ l d r =>
      s1 ← rbtree_walk_real l callback s;
      s2 ← rbtree_walk_real r callback s1;
      callback d s2
  end.

Definition rbtree_walk_ordered_incr_real (node : rbtree A) (callback : A -> S -> outcome S) (s : S) : outcome S :=
  match node with
  | Sentinel => Ret s
  | Node _ l d r =>
      s1 ← rbtree_walk_real l callback s;
      s2 ← callback d s1;
      rbtree_walk_real r callback s2
  end.

Definition rbtree_walk_ordered_decr_real (node : rbtree A) (callback : A -> S -> outcome S) (s : S) : outcome S :=
  match node with
  | Sentinel => Ret s
  | Node _ l d r =>
      s1 ← rbtree_walk_real r callback s;
      s2 ← callback d s1;
      rbtree_walk_real l callback s2
  end.

Definition rbtree_walk (seed : rbtree_seed_t A) := rbtree_walk_real (tree seed).
Definition rbtree_walk_incr (seed : rbtree_seed_t A) := rbtree_walk_ordered_incr_real (tree seed).
Definition rbtree_walk_decr (seed : rbtree_seed_t A) := rbtree_walk_ordered_decr_real (tree seed).

Fixpoint rbtree_conditional_walk_real (node : rbtree A)
    (callback : A -> S -> outcome (rbtree_walk_direction_t * S)) (s : S) : outcome S :=
  match node with
  | Sentinel => Ret s
  | Node _ l d r =>
      '(direction, s1) ← callback d s;
      match direction with
      | RBTREE_WALK_LEFT => rbtree_conditional_walk_real l callback s1
      | RBTREE_WALK_RIGHT => rbtree_conditional_walk_real r callback s1
      | RBTREE_WALK_LEFT_RIGHT =>
          s2 ← rbtree_conditional_walk_real l callback s1;
          rbtree_conditional_walk_real r callback s2
      | RBTREE_WALK_STOP => Ret s1
      end
  end.

Definition rbtree_conditional_walk (seed : rbtree_seed_t A) := rbtree_conditional_walk_real (tree seed).
End walks.

(** *** A walk whose callback may change the tree

    The nodes the filter [include] lets through are first copied to an array:
    32 slots on the stack, or one slot per active node from the heap. *)

Record rbtree_walk_writesafe_data_t (A S : Type) := WriteSafe {
  els : list A;        (* the [n] slots written so far *)
  els_size : Z;
  filter_state : S;
}.
Arguments WriteSafe {A S} _ _ _.
Arguments els {A S} _.
Arguments els_size {A S} _.
Arguments filter_state {A S} _.

Section writesafe.
Context {A S : Type}.

Definition rbtree_walk_writesafe_callback (include : A -> S -> outcome (bool * S)) (node_data : A)
    (d : rbtree_walk_writesafe_data_t A S) : outcome (rbtree_walk_writesafe_data_t A S) :=
  '(yes, s) ← include node_data (filter_state d);
  if (yes : bool) then
    c_assert (Z.of_nat (length (els d)) <? els_size d);;
    Ret (WriteSafe (els d ++ [node_data]) (els_size d) s)
  else Ret (WriteSafe (els d) (els_size d) s).

(** [for(i=0; i<d.n; i++) callback(seed, d.els[i], data)] *)
Fixpoint run_writesafe (callback : A -> S -> outcome S) (xs : list A) (s : S) : outcome S :=
  match xs with
  | [] => Ret s
  | x :: xs' => s' ← callback x s; run_writesafe callback xs' s'
  end.

(** [seed_of] reads the tree from the state the callback changes. *)
Definition rbtree_walk_writesafe (seed_of : S -> rbtree_seed_t A) (include : A -> S -> outcome (bool * S))
    (callback : A -> S -> outcome S) (s : S) : outcome S :=
  let n := active_nodes (seed_of s) in
  d ← rbtree_walk (seed_of s) (rbtree_walk_writesafe_callback include)
        (WriteSafe [] (if 32 <? n then n else 32) s);
  run_writesafe callback (els d) (filter_state d).

(** [rbtree_empty]: until the root is the sentinel, call back, remove and free. *)
Fixpoint rbtree_empty `{NgxRbtree A} (fuel : nat) (callback : option (A -> S -> outcome S))
    (seed : rbtree_seed_t A) (s : S) (n : Z) : outcome (rbtree_seed_t A * S * Z) :=
  match tree seed with
  | Sentinel => Ret (seed, s, n)
  | Node _ _ d _ =>
      match fuel with
      | O => NoFuel
      | Datatypes.S fuel' =>
          s' ← match callback with Some cb => cb d s | None => Ret s end;
          rbtree_empty fuel' callback (rbtree_destroy_node (rbtree_remove_node seed d)) s' (u32 (n + 1))
      end
  end.
End writesafe.
