(* ===== verification/RbTreeFacts.v ===== *)
(** * Facts about the trees of [util/nchan_rbtree.c]

    Finding and inserting are exact on trees ordered by hash and id; the
    conditional walk reaches every node of a range; the write-safe walk stays
    within its array; the "ordered" walks are not. *)

From stdpp Require Import sorting.
From S2P Require Import Prelude RbTree.
Open Scope Z_scope.

(** ** Ordered trees *)

Lemma sorted_lookup {A} (R : relation A) l i j x y :
  StronglySorted R l -> l !! i = Some x -> l !! j = Some y -> (i < j)%nat -> R x y.
Proof.
  intros S Hi Hj Hlt. revert i j Hi Hj Hlt. induction S as [|z l S IH F]; intros [|i] [|j] Hi Hj Hlt;
    simplify_eq/=; try lia.
  - rewrite Forall_forall in F. apply F. by eapply list_elem_of_lookup_2.
  - eapply IH; eauto. lia.
Qed.

(** The comparison of ids is a total preorder on the ids that can be read.
    This is what a user of the tree promises it. *)
Class NodeOrder {ID : Type} (compare : ID -> ID -> outcome Z) (ok : ID -> Prop) := {
  cmp : ID -> ID -> Z;
  compare_ok x y : ok x -> ok y -> compare x y = Ret (cmp x y);
  cmp_antisym x y : cmp y x = - cmp x y;
  cmp_trans x y z : cmp x y <= 0 -> cmp y z <= 0 -> cmp x z <= 0;
}.
Arguments cmp {ID} compare ok {_} _ _.

Section ordered.
Context {A ID : Type} (node_id : A -> outcome ID) (hash : ID -> Z) (compare : ID -> ID -> outcome Z).
Context (ok : ID -> Prop) `{NO : !NodeOrder compare ok}.

(** The order of the tree: by hash, then by id. *)
Definition idcmp (x y : ID) : Z :=
  if hash x <? hash y then -1 else if hash y <? hash x then 1 else cmp compare ok x y.

Lemma idcmp_antisym x y : idcmp y x = - idcmp x y.
Proof.
  unfold idcmp. destruct (Z.ltb_spec (hash x) (hash y)), (Z.ltb_spec (hash y) (hash x)); try lia.
  apply cmp_antisym.
Qed.

Lemma idcmp_trans x y z : idcmp x y <= 0 -> idcmp y z <= 0 -> idcmp x z <= 0.
Proof.
  unfold idcmp. pose proof (cmp_trans (compare := compare) (ok := ok) x y z).
  destruct (Z.ltb_spec (hash x) (hash y)), (Z.ltb_spec (hash y) (hash x)),
    (Z.ltb_spec (hash y) (hash z)), (Z.ltb_spec (hash z) (hash y)),
    (Z.ltb_spec (hash x) (hash z)), (Z.ltb_spec (hash z) (hash x)); intros; try lia; auto.
Qed.

Lemma idcmp_trans_lt_l x y z : idcmp x y < 0 -> idcmp y z <= 0 -> idcmp x z < 0.
Proof.
  intros H1 H2. pose proof (idcmp_trans x y z ltac:(lia) H2).
  destruct (Z.eq_dec (idcmp x z) 0) as [E|]; [|lia].
  pose proof (idcmp_trans y z x H2) as H3. rewrite (idcmp_antisym x z), (idcmp_antisym x y) in H3. lia.
Qed.

Lemma idcmp_trans_lt_r x y z : idcmp x y <= 0 -> idcmp y z < 0 -> idcmp x z < 0.
Proof.
  intros H1 H2. pose proof (idcmp_trans x y z H1 ltac:(lia)).
  destruct (Z.eq_dec (idcmp x z) 0) as [E|]; [|lia].
  pose proof (idcmp_trans z x y) as H3. rewrite (idcmp_antisym x z), (idcmp_antisym y z) in H3. lia.
Qed.

(** A node carries a readable id and is filed under its hash. *)
Definition node_ok (n : Z * A) (x : ID) : Prop :=
  node_id n.2 = Ret x /\ ok x /\ n.1 = hash x.

(** The nodes have the ids [ids], in increasing order. *)
Definition ordered (t : rbtree A) (ids : list ID) : Prop :=
  Forall2 node_ok (inorder t) ids /\ StronglySorted (fun x y => idcmp x y < 0) ids.

Lemma ordered_node k l d r ids :
  ordered (Node k l d r) ids ->
  exists ids1 x ids2, ids = ids1 ++ x :: ids2 /\ node_ok (k, d) x /\ ordered l ids1 /\ ordered r ids2 /\
    (forall y, y ∈ ids1 -> idcmp y x < 0) /\ (forall y, y ∈ ids2 -> idcmp x y < 0).
Proof.
  intros [F S]. simpl in F. apply Forall2_app_inv_l in F as (ids1 & rest & F1 & F2 & ->).
  apply Forall2_cons_inv_l in F2 as (x & ids2 & Hx & F2 & ->).
  apply StronglySorted_app in S as (S12 & S1 & S2).
  apply StronglySorted_inv in S2 as [S2 Sx]. rewrite Forall_forall in Sx.
  exists ids1, x, ids2. split_and!; auto; try done. intros y Hy. apply S12; set_solver.
Qed.

(** Which way the descent goes at a node. *)
Lemma find_step k l d r x id :
  node_ok (k, d) x -> ok id ->
  rbtree_find_node_generic node_id compare (Node k l d r) id (hash id)
  = if idcmp id x =? 0 then Ret (Some d)
    else if idcmp id x <? 0 then rbtree_find_node_generic node_id compare l id (hash id)
    else rbtree_find_node_generic node_id compare r id (hash id).
Proof.
  intros (Hd & Hx & Hk) Hok. simpl in Hd, Hk. subst k. cbn [rbtree_find_node_generic].
  unfold idcmp. destruct (hash id <? hash x); [done|]. destruct (hash x <? hash id); [done|].
  by rewrite Hd, bind_Ret, (compare_ok _ _ Hok Hx), bind_Ret.
Qed.

(** An id on one side of a node is not equal to an id on the other side. *)
Lemma idcmp_side_l id x w : 0 <= idcmp id x -> idcmp w x < 0 -> idcmp id w <> 0.
Proof.
  intros H1 H2 E. pose proof (idcmp_trans_lt_r id w x ltac:(lia) H2). lia.
Qed.
Lemma idcmp_side_r id x w : idcmp id x <= 0 -> idcmp x w < 0 -> idcmp id w <> 0.
Proof. intros H1 H2 E. pose proof (idcmp_trans_lt_r id x w H1 H2). lia. Qed.

(** What [rbtree_find_node] answers. *)
Lemma find_spec t ids id :
  ordered t ids -> ok id ->
  (exists a x, rbtree_find_node_generic node_id compare t id (hash id) = Ret (Some a) /\
     (hash x, a) ∈ inorder t /\ node_id a = Ret x /\ ok x /\ x ∈ ids /\ idcmp id x = 0) \/
  (rbtree_find_node_generic node_id compare t id (hash id) = Ret None /\ forall x, x ∈ ids -> idcmp id x <> 0).
Proof.
  intros O Hok. revert ids O. induction t as [|k l IHl d r IHr]; intros ids O.
  { right. split; [done|]. intros x Hx. destruct O as [F _]. inversion F; subst. by apply elem_of_nil in Hx. }
  apply ordered_node in O as (ids1 & x & ids2 & -> & Hn & Ol & Or & L1 & L2).
  rewrite (find_step _ _ _ _ _ _ Hn Hok). pose proof Hn as (Hd & Hx & Hk). simpl in Hd, Hk. subst k.
  destruct (Z.eqb_spec (idcmp id x) 0) as [E|E].
  { left. exists d, x. simpl. split_and!; auto; rewrite elem_of_app, elem_of_cons; auto. }
  destruct (Z.ltb_spec (idcmp id x) 0) as [Hlt|Hgt].
  - destruct (IHl _ Ol) as [(a & y & -> & Ha & Hy & Oy & Iy & Cy)|[-> N]].
    + left. exists a, y. simpl. split_and!; auto; rewrite elem_of_app; auto.
    + right. split; [done|]. intros w [Hw|[->|Hw]%elem_of_cons]%elem_of_app; auto.
      apply (idcmp_side_r id x); [lia|auto].
  - destruct (IHr _ Or) as [(a & y & -> & Ha & Hy & Oy & Iy & Cy)|[-> N]].
    + left. exists a, y. simpl. split_and!; auto; rewrite elem_of_app, elem_of_cons; auto.
    + right. split; [done|]. intros w [Hw|[->|Hw]%elem_of_cons]%elem_of_app; auto.
      apply (idcmp_side_l id x); [lia|auto].
Qed.

(** With strictly increasing ids, the found node is the only one. *)
Lemma ordered_unique t ids id a b x y :
  ordered t ids -> (hash x, a) ∈ inorder t -> node_id a = Ret x -> (hash y, b) ∈ inorder t ->
  node_id b = Ret y -> idcmp id x = 0 -> idcmp id y = 0 -> a = b.
Proof.
  intros [F S] Ha Ea Hb Eb Cx Cy.
  assert (idcmp x y = 0) as Exy.
  { pose proof (idcmp_trans x id y) as T1. pose proof (idcmp_trans y id x) as T2.
    rewrite (idcmp_antisym id x), (idcmp_antisym id y), (idcmp_antisym x y) in *. lia. }
  apply list_elem_of_lookup in Ha as [i Hi], Hb as [j Hj].
  destruct (Forall2_lookup_l _ _ _ _ _ F Hi) as (x' & Hxi & Nx & _).
  destruct (Forall2_lookup_l _ _ _ _ _ F Hj) as (y' & Hyj & Ny & _).
  simpl in *. rewrite Ea in Nx. rewrite Eb in Ny. inv_outcome.
  destruct (Nat.lt_trichotomy i j) as [Hlt|[->|Hlt]]; [|congruence|].
  - pose proof (sorted_lookup _ _ _ _ _ _ S Hxi Hyj Hlt). simpl in *. lia.
  - pose proof (sorted_lookup _ _ _ _ _ _ S Hyj Hxi Hlt) as T. simpl in T.
    rewrite idcmp_antisym in T. lia.
Qed.
(** An id sits between the smaller and the larger ones. *)
Lemma ordered_build t t' l1 l2 ids1 ids2 n id :
  ordered t (ids1 ++ ids2) -> inorder t = l1 ++ l2 -> length l1 = length ids1 ->
  inorder t' = l1 ++ (hash id, n) :: l2 -> node_id n = Ret id -> ok id ->
  (forall x, x ∈ ids1 -> idcmp x id < 0) -> (forall x, x ∈ ids2 -> idcmp id x < 0) ->
  ordered t' (ids1 ++ id :: ids2).
Proof.
  intros [F S] E L E' Hn Hok L1 L2. unfold ordered. rewrite E'. rewrite E in F.
  apply Forall2_app_inv in F as [F1 F2]; [|done]. split.
  - apply Forall2_app; [done|]. constructor; [by split_and!|done].
  - apply StronglySorted_app in S as (S12 & S1 & S2). apply StronglySorted_app. split_and!; auto.
    + intros x y Hx [->|Hy]%elem_of_cons; auto.
    + constructor; [done|]. rewrite Forall_forall. auto.
Qed.

Lemma insert_spec t ids n id :
  ordered t ids -> node_id n = Ret id -> ok id -> (forall x, x ∈ ids -> idcmp id x <> 0) ->
  exists t' l1 l2 ids1 ids2,
    rbtree_insert_generic node_id compare t (hash id) n = Ret t' /\
    inorder t = l1 ++ l2 /\ ids = ids1 ++ ids2 /\ length l1 = length ids1 /\
    inorder t' = l1 ++ (hash id, n) :: l2 /\
    (forall x, x ∈ ids1 -> idcmp x id < 0) /\ (forall x, x ∈ ids2 -> idcmp id x < 0).
Proof.
  intros O Hn Hok. revert ids O. induction t as [|k l IHl d r IHr]; intros ids O N.
  { destruct O as [F _]. inversion F; subst.
    exists (Node (hash id) Sentinel n Sentinel), [], [], [], []. split_and!; auto; by intros ? ?%elem_of_nil. }
  apply ordered_node in O as (ids1 & x & ids2 & -> & (Hd & Hx & Hk) & Ol & Or & L1 & L2).
  simpl in Hd, Hk. subst k.
  assert (rbtree_insert_generic node_id compare (Node (hash x) l d r) (hash id) n =
    if idcmp id x <? 0
    then l' ← rbtree_insert_generic node_id compare l (hash id) n; Ret (Node (hash x) l' d r)
    else r' ← rbtree_insert_generic node_id compare r (hash id) n; Ret (Node (hash x) l d r')) as ->.
  { cbn [rbtree_insert_generic]. rewrite Hn, Hd, !bind_Ret, (compare_ok _ _ Hok Hx), bind_Ret.
    unfold idcmp. destruct (Z.eqb_spec (hash id) (hash x)) as [E|E]; cbn [negb].
    - rewrite E, !Z.ltb_irrefl. done.
    - destruct (Z.ltb_spec (hash id) (hash x)), (Z.ltb_spec (hash x) (hash id)); try lia; done. }
  assert (idcmp id x <> 0) as Nx by (apply N; rewrite elem_of_app, elem_of_cons; auto).
  destruct (Z.ltb_spec (idcmp id x) 0).
  - destruct (IHl _ Ol) as (t' & m1 & m2 & i1 & i2 & -> & E & -> & Len & E' & M1 & M2).
    { intros y Hy. apply N. rewrite elem_of_app; auto. }
    exists (Node (hash x) t' d r), m1, (m2 ++ (hash x, d) :: inorder r), i1, (i2 ++ x :: ids2).
    simpl. rewrite E, E', <- !app_assoc. split_and!; auto.
    intros y [Hy|[->|Hy]%elem_of_cons]%elem_of_app; auto.
    apply (idcmp_trans_lt_l id x y); [done|]. specialize (L2 _ Hy). lia.
  - destruct (IHr _ Or) as (t' & m1 & m2 & i1 & i2 & -> & E & -> & Len & E' & M1 & M2).
    { intros y Hy. apply N. rewrite elem_of_app, elem_of_cons; auto. }
    assert (idcmp x id < 0) as Hlt by (rewrite (idcmp_antisym id x); lia).
    exists (Node (hash x) l d t'), (inorder l ++ (hash x, d) :: m1), m2, (ids1 ++ x :: i1), i2.
    simpl. rewrite E, E', <- !app_assoc. split_and!; auto.
    + rewrite !length_app. simpl. rewrite Len, (Forall2_length _ _ _ (proj1 Ol)). done.
    + intros y [Hy|[->|Hy]%elem_of_cons]%elem_of_app; auto.
      apply (idcmp_trans_lt_l y x id); [auto|lia].
Qed.

Context `{NR : !NgxRbtree A}.

(** Inserting a node with a new id. *)
Lemma insert_node_spec seed ids n id :
  ordered (tree seed) ids -> node_id n = Ret id -> ok id -> (forall x, x ∈ ids -> idcmp id x <> 0) ->
  exists seed' ids1 ids2,
    rbtree_insert_node node_id hash compare seed n = Ret seed' /\ ids = ids1 ++ ids2 /\
    ordered (tree seed') (ids1 ++ id :: ids2) /\
    inorder (tree seed') ≡ₚ (hash id, n) :: inorder (tree seed) /\
    active_nodes seed' = u64 (active_nodes seed + 1) /\ allocd_nodes seed' = allocd_nodes seed.
Proof.
  intros O Hn Hok N.
  destruct (insert_spec _ _ _ _ O Hn Hok N) as (t' & l1 & l2 & ids1 & ids2 & E & El & -> & Len & E' & L1 & L2).
  unfold rbtree_insert_node. rewrite Hn, bind_Ret.
  set (t'' := match tree seed with Sentinel => t' | _ => ngx_rebalance t' end).
  assert (inorder t'' = inorder t') as Eb.
  { subst t''. destruct (tree seed); [done|apply ngx_rebalance_inorder]. }
  exists (Seed t'' (u64 (active_nodes seed + 1)) (allocd_nodes seed)), ids1, ids2. split_and!; auto.
  - destruct (tree seed) eqn:Et; [|by rewrite E].
    simpl in E. injection E as <-. by subst t''.
  - eapply ordered_build; eauto. simpl. by rewrite Eb, E'.
  - simpl. rewrite Eb, E', El. symmetry. apply Permutation_middle.
Qed.

(** Removing a node. *)
Lemma remove_node_spec seed ids n :
  ordered (tree seed) ids -> n ∈ (inorder (tree seed)).*2 -> NoDup (inorder (tree seed)).*2 ->
  exists ids1 x ids2 l1 l2,
    ids = ids1 ++ x :: ids2 /\ node_id n = Ret x /\ ok x /\
    inorder (tree seed) = l1 ++ (hash x, n) :: l2 /\
    inorder (tree (rbtree_remove_node seed n)) = l1 ++ l2 /\
    ordered (tree (rbtree_remove_node seed n)) (ids1 ++ ids2).
Proof.
  intros [F S] Hn ND. apply list_elem_of_fmap in Hn as ([k n'] & -> & Hin). cbn [snd] in *.
  apply list_elem_of_split in Hin as (l1 & l2 & E).
  rewrite E in F. apply Forall2_app_inv_l in F as (ids1 & rest & F1 & F2 & ->).
  apply Forall2_cons_inv_l in F2 as (x & ids2 & (Hx & Ox & Hk) & F2 & ->). cbn [fst snd] in *. subst k.
  assert (n' ∉ l1.*2) as Nl.
  { rewrite E, fmap_app, fmap_cons in ND. apply NoDup_app in ND as (_ & ND & _).
    intros Hn. apply (ND _ Hn). rewrite elem_of_cons. auto. }
  pose proof (ngx_rbtree_delete_inorder _ _ _ _ _ E Nl) as Ed.
  exists ids1, x, ids2, l1, l2. split_and!; auto.
  unfold ordered. simpl. rewrite Ed. split; [by apply Forall2_app|].
  apply StronglySorted_app in S as (S12 & S1 & S2). apply StronglySorted_inv in S2 as [S2 _].
  apply StronglySorted_app. split_and!; auto. intros a b Ha Hb. apply S12; [done|]. by apply elem_of_cons; right.
Qed.
End ordered.

(** ** Inserting and finding *)

Section insert_find.
Context {A ID : Type} (node_id : A -> outcome ID) (hash : ID -> Z) (compare : ID -> ID -> outcome Z).
Context (ok : ID -> Prop) `{NO : !NodeOrder compare ok} `{NR : !NgxRbtree A}.
Notation find := (rbtree_find_node node_id hash compare).

(** A node is found exactly when its id equals the one looked for. *)
Lemma find_iff seed ids id a :
  ordered node_id hash compare ok (tree seed) ids -> ok id ->
  find seed id = Ret (Some a) <->
  exists x, (hash x, a) ∈ inorder (tree seed) /\ node_id a = Ret x /\ idcmp hash compare ok id x = 0.
Proof.
  intros O Hok. unfold rbtree_find_node. split.
  - intros E. destruct (find_spec _ _ _ _ _ _ _ O Hok) as [(b & x & E' & Hin & Hx & _ & _ & C)|[E' _]];
      rewrite E' in E; inv_outcome. eauto.
  - intros (x & Hin & Hx & C).
    destruct (find_spec _ _ _ _ _ _ _ O Hok) as [(b & y & -> & Hin' & Hy & _ & _ & C')|[_ N]].
    + f_equal. f_equal. eapply ordered_unique; eauto.
    + exfalso. pose proof O as [F _]. apply list_elem_of_lookup in Hin as [i Hi].
      destruct (Forall2_lookup_l _ _ _ _ _ F Hi) as (y & Hyi & Ny & _). simpl in Ny.
      rewrite Hx in Ny. inv_outcome. apply (N y); [by eapply list_elem_of_lookup_2|done].
Qed.

Lemma find_total seed ids id :
  ordered node_id hash compare ok (tree seed) ids -> ok id -> exists r, find seed id = Ret r.
Proof.
  intros O Hok. unfold rbtree_find_node.
  destruct (find_spec _ _ _ _ _ _ _ O Hok) as [(a & x & -> & _)|[-> _]]; eauto.
Qed.

Lemma find_none seed ids id x :
  ordered node_id hash compare ok (tree seed) ids -> ok id -> find seed id = Ret None -> x ∈ ids ->
  idcmp hash compare ok id x <> 0.
Proof.
  intros O Hok E Hx. unfold rbtree_find_node in E.
  destruct (find_spec _ _ _ _ _ _ _ O Hok) as [(b & y & E' & _)|[_ N]]; [by rewrite E' in E|auto].
Qed.

(** Once a node whose id is not in an ordered tree has been inserted, the
    tree is ordered, the node is found under its id, and what is found under
    any other id is what was found before, whatever rebalancing nginx does. *)
Theorem rbtree_insert_then_find seed ids n id :
  ordered node_id hash compare ok (tree seed) ids -> node_id n = Ret id -> ok id -> find seed id = Ret None ->
  exists seed' ids',
    rbtree_insert_node node_id hash compare seed n = Ret seed' /\
    ordered node_id hash compare ok (tree seed') ids' /\ find seed' id = Ret (Some n) /\
    forall id', ok id' -> idcmp hash compare ok id' id <> 0 -> find seed' id' = find seed id'.
Proof.
  intros O Hn Hok E.
  destruct (insert_node_spec node_id hash compare ok _ _ _ _ O Hn Hok (fun x => find_none _ _ _ x O Hok E))
    as (seed' & i1 & i2 & Ei & -> & O' & P & _).
  exists seed', (i1 ++ id :: i2). split_and!; auto.
  - eapply find_iff; eauto. exists id. rewrite P, elem_of_cons. split_and!; auto.
    pose proof (idcmp_antisym hash compare ok id id). lia.
  - intros id' Hok' N. destruct (find_total _ _ id' O Hok') as [r Er]. rewrite Er.
    destruct (find_total _ _ id' O' Hok') as [r' Er']. rewrite Er'. f_equal.
    destruct r' as [b|].
    + apply (find_iff _ _ _ _ O' Hok') in Er' as (x & Hin & Hx & C).
      rewrite P, elem_of_cons in Hin. destruct Hin as [[= Hh ->]|Hin].
      { rewrite Hn in Hx. inv_outcome. }
      assert (find seed id' = Ret (Some b)) as Eb by (eapply find_iff; eauto).
      rewrite Er in Eb. by inv_outcome.
    + destruct r as [a|]; [|done].
      apply (find_iff _ _ _ _ O Hok') in Er as (x & Hin & Hx & C).
      assert (find seed' id' = Ret (Some a)) as Ea.
      { eapply find_iff; eauto. exists x. rewrite P, elem_of_cons. auto. }
      rewrite Er' in Ea. inv_outcome.
Qed.
End insert_find.

(** Integers under their own order, hashed to zero: the tree degenerates to a
    search tree. *)
#[export] Program Instance z_node_order : NodeOrder (fun x y : Z => Ret (x - y)) (fun _ => True) :=
  {| cmp := Z.sub |}.
Next Obligation. done. Qed.
Next Obligation. intros. simpl. lia. Qed.
Next Obligation. intros ??? H1 H2. simpl in *. lia. Qed.

Definition example_seed : rbtree_seed_t Z :=
  Seed (Node 0 (Node 0 Sentinel 1 Sentinel) 3 (Node 0 Sentinel 5 Sentinel)) 3 3.

Lemma example_seed_ordered : ordered Ret (fun _ : Z => 0) (fun x y => Ret (x - y)) (fun _ => True) (tree example_seed) [1; 3; 5].
Proof. split; simpl; repeat constructor; unfold idcmp; simpl; lia. Qed.

Lemma rbtree_insert_then_find_witness :
  let N := @rbtree_reference Z _ in
  exists seed' ids',
    rbtree_insert_node Ret (fun _ : Z => 0) (fun x y => Ret (x - y)) example_seed 4 = Ret seed' /\
    ordered Ret (fun _ : Z => 0) (fun x y => Ret (x - y)) (fun _ => True) (tree seed') ids' /\
    rbtree_find_node Ret (fun _ : Z => 0) (fun x y => Ret (x - y)) seed' 4 = Ret (Some 4) /\
    forall id', True -> idcmp (fun _ : Z => 0) (fun x y => Ret (x - y)) (fun _ => True) id' 4 <> 0 ->
      rbtree_find_node Ret (fun _ : Z => 0) (fun x y => Ret (x - y)) seed' id'
      = rbtree_find_node Ret (fun _ : Z => 0) (fun x y => Ret (x - y)) example_seed id'.
Proof.
  intros N. apply (rbtree_insert_then_find Ret (fun _ => 0) (fun x y => Ret (x - y)) (fun _ => True)
    example_seed [1; 3; 5] 4 4); [exact example_seed_ordered|reflexivity|exact I|reflexivity].
Defined.

(** ** Walks *)

Section walk_facts.
Context {A S : Type}.

(** Callbacks that always return. *)
Fixpoint fold_ret (step : A -> S -> S) (xs : list A) (s : S) : S :=
  match xs with [] => s | x :: xs' => fold_ret step xs' (step x s) end.

Lemma fold_ret_app step xs ys s : fold_ret step (xs ++ ys) s = fold_ret step ys (fold_ret step xs s).
Proof. revert s. induction xs; simpl; auto. Qed.

(** [rbtree_walk] calls back on every node once, children before parents. *)
Lemma walk_real_postorder t (cb : A -> S -> outcome S) step s :
  (forall a s, a ∈ postorder t -> cb a s = Ret (step a s)) ->
  rbtree_walk_real t cb s = Ret (fold_ret step (postorder t) s).
Proof.
  revert s. induction t as [|k l IHl d r IHr]; intros s H; simpl; [done|].
  rewrite IHl, bind_Ret, IHr, bind_Ret, !fold_ret_app.
  - simpl. apply H. simpl. set_solver.
  - intros. apply H. simpl. set_solver.
  - intros. apply H. simpl. set_solver.
Qed.

Definition direction_rank (d : rbtree_walk_direction_t) : Z :=
  match d with
  | RBTREE_WALK_RIGHT => 0
  | RBTREE_WALK_LEFT_RIGHT => 1
  | RBTREE_WALK_LEFT => 2
  | RBTREE_WALK_STOP => 3
  end.

(** What the conditional walk reaches when [dir] is what the callback answers
    (after changing the state where it answers [LEFT_RIGHT]). *)
Fixpoint reached (dir : A -> rbtree_walk_direction_t) (t : rbtree A) : list A :=
  match t with
  | Sentinel => []
  | Node _ l d r =>
      match dir d with
      | RBTREE_WALK_LEFT => reached dir l
      | RBTREE_WALK_RIGHT => reached dir r
      | RBTREE_WALK_LEFT_RIGHT => d :: reached dir l ++ reached dir r
      | RBTREE_WALK_STOP => []
      end
  end.

Lemma conditional_walk_reached dir (I : S -> Prop) t (cb : A -> S -> outcome (rbtree_walk_direction_t * S)) step s :
  (forall a s, a ∈ (inorder t).*2 -> I s -> I (step a s) /\
     cb a s = Ret (dir a, if decide (dir a = RBTREE_WALK_LEFT_RIGHT) then step a s else s)) -> I s ->
  rbtree_conditional_walk_real t cb s = Ret (fold_ret step (reached dir t) s) /\ I (fold_ret step (reached dir t) s).
Proof.
  revert s. induction t as [|k l IHl d r IHr]; intros s Hcb Is; simpl; [done|].
  simpl in Hcb. rewrite fmap_app, fmap_cons in Hcb. cbn [snd] in Hcb.
  destruct (Hcb d s) as (Id & ->); [by rewrite elem_of_app, elem_of_cons; auto|done|]. rewrite bind_Ret.
  assert (forall s, I s -> _) as Rl by (intros s' Is'; apply (IHl s'); [intros; apply Hcb; auto; rewrite elem_of_app; auto|exact Is']).
  assert (forall s, I s -> _) as Rr by (intros s' Is'; apply (IHr s'); [intros; apply Hcb; auto; rewrite elem_of_app, elem_of_cons; auto|exact Is']).
  destruct (dir d) eqn:Ed; cbn [fold_ret]; rewrite ?decide_False, ?decide_True by done; auto.
  destruct (Rl _ Id) as [-> I1]. rewrite bind_Ret, fold_ret_app. by apply Rr.
Qed.
End walk_facts.

(** *** The write-safe walk *)

Section writesafe_facts.
Context {A S : Type}.

(** Copying the nodes a filter lets through. *)
Lemma writesafe_copy t (include : A -> S -> outcome (bool * S)) yes step (xs : list A) size s :
  (forall a s, a ∈ postorder t -> include a s = Ret (yes a, if (yes a : bool) then step a s else s)) ->
  Z.of_nat (length xs) + Z.of_nat (length (filter (fun a => yes a = true) (postorder t))) <= size ->
  rbtree_walk_real t (rbtree_walk_writesafe_callback include) (WriteSafe xs size s)
  = Ret (WriteSafe (xs ++ filter (fun a => yes a = true) (postorder t)) size
           (fold_ret (fun a s => if (yes a : bool) then step a s else s) (postorder t) s)).
Proof.
  revert xs s. induction t as [|k l IHl d r IHr]; intros xs s Hi Hsz.
  { simpl. by rewrite app_nil_r. }
  cbn [postorder] in *. rewrite !filter_app, !length_app in Hsz.
  cbn [rbtree_walk_real]. rewrite IHl; [|intros; apply Hi; set_solver|lia]. rewrite bind_Ret.
  rewrite IHr; [|intros; apply Hi; set_solver|rewrite length_app; lia]. rewrite bind_Ret.
  unfold rbtree_walk_writesafe_callback. cbn [els els_size filter_state].
  rewrite Hi by set_solver. rewrite bind_Ret, !filter_app, !fold_ret_app, !app_assoc.
  rewrite filter_cons, filter_nil in Hsz. rewrite filter_cons, filter_nil. cbn [fold_ret].
  destruct (yes d) eqn:Ed; cbn [c_assert].
  - rewrite decide_True in Hsz by done. simpl in Hsz.
    replace (_ <? size) with true; [done|]. symmetry. rewrite !length_app. apply Z.ltb_lt. lia.
  - by rewrite !app_nil_r.
Qed.

(** The write-safe walk never writes past its array, when the counter of
    active nodes is right: the nodes that the filter lets through are all
    copied first, and then called back on exactly once each, in the order of
    the tree at the start, whatever the callback does to the tree. *)
Theorem writesafe_walk_exact (seed_of : S -> rbtree_seed_t A) include yes step callback s :
  active_nodes (seed_of s) = Z.of_nat (length (postorder (tree (seed_of s)))) ->
  (forall a s0, a ∈ postorder (tree (seed_of s)) ->
     include a s0 = Ret (yes a, if (yes a : bool) then step a s0 else s0)) ->
  rbtree_walk_writesafe seed_of include callback s
  = run_writesafe callback (filter (fun a => yes a = true) (postorder (tree (seed_of s))))
      (fold_ret (fun a s => if (yes a : bool) then step a s else s) (postorder (tree (seed_of s))) s).
Proof.
  intros Hn Hi. unfold rbtree_walk_writesafe, rbtree_walk.
  pose proof (length_filter (fun a => yes a = true) (postorder (tree (seed_of s)))).
  rewrite (writesafe_copy _ _ yes step); [done|done|]. simpl.
  destruct (Z.ltb_spec 32 (active_nodes (seed_of s))); lia.
Qed.
End writesafe_facts.

Lemma writesafe_walk_exact_witness :
  rbtree_walk_writesafe (fun _ : list Z => example_seed)
    (fun a s => Ret (negb (a =? 5), if negb (a =? 5) then a :: s else s)) (fun a s => Ret (10 * a :: s)) []
  = Ret [30; 10; 3; 1].
Proof.
  rewrite (writesafe_walk_exact (fun _ : list Z => example_seed) _ (fun a => negb (a =? 5)) cons);
    [reflexivity|reflexivity|reflexivity].
Defined.

(** *** The "ordered" walks *)

(** Integers collected by a walk, last visited first. *)
Definition visited (walk : rbtree_seed_t Z -> (Z -> list Z -> outcome (list Z)) -> list Z -> outcome (list Z))
    (seed : rbtree_seed_t Z) : outcome (list Z) :=
  xs ← walk seed (fun a s => Ret (a :: s)) []; Ret (rev xs).

Lemma walk_real_collect t s :
  rbtree_walk_real t (fun a s => Ret (a :: s)) s = Ret (rev (postorder t) ++ s) :> outcome (list Z).
Proof.
  rewrite (walk_real_postorder _ _ cons) by done. f_equal.
  generalize (postorder t). intros xs. revert s. induction xs as [|x xs IH]; intros s; simpl; [done|].
  by rewrite IH, <- app_assoc.
Qed.

(** [rbtree_walk_incr] and [rbtree_walk_decr] call back on every node
    once and put the root between its two subtrees, but walk the subtrees in
    postorder: below the root the order is not that of the ids, as the ordered
    tree of the four nodes 1, 2, 3, 4 shows. *)
Theorem walk_incr_is_postorder_below_root key l d r n m :
  visited (@rbtree_walk_incr Z _) (Seed (Node key l d r) n m) = Ret (postorder l ++ d :: postorder r) /\
  visited (@rbtree_walk_decr Z _) (Seed (Node key l d r) n m) = Ret (postorder r ++ d :: postorder l) /\
  exists t, StronglySorted Z.lt (inorder t).*2 /\
    visited (@rbtree_walk_incr Z _) (Seed t 4 4) = Ret [1; 3; 2; 4] /\
    visited (@rbtree_walk_decr Z _) (Seed t 4 4) = Ret [4; 1; 3; 2].
Proof.
  split_and!.
  - unfold visited, rbtree_walk_incr. cbn [rbtree_walk_ordered_incr_real tree].
    rewrite walk_real_collect, !bind_Ret, walk_real_collect, bind_Ret. f_equal.
    rewrite rev_app_distr. cbn [rev]. rewrite rev_app_distr. simpl. by rewrite !rev_involutive, <- app_assoc.
  - unfold visited, rbtree_walk_decr. cbn [rbtree_walk_ordered_decr_real tree].
    rewrite walk_real_collect, !bind_Ret, walk_real_collect, bind_Ret. f_equal.
    rewrite rev_app_distr. cbn [rev]. rewrite rev_app_distr. simpl. by rewrite !rev_involutive, <- app_assoc.
  - exists (Node 0 (Node 0 (Node 0 Sentinel 1 Sentinel) 2 (Node 0 Sentinel 3 Sentinel)) 4 Sentinel).
    split_and!; try reflexivity. simpl. repeat constructor.
Qed.
