(* ===== verification/Spool.v ===== *)
(** * Subscriber pools ([store/spool.c], [store/spool.h])

    The subscribers of a channel wait in pools ("spools"), one for each message
    id they have reached; a red-black tree finds the pool of an id, and the
    pool of those that wait for the next message is kept apart.  When a message
    is published, the pools in the range it closes are answered and moved on;
    when a subscriber arrives, its pool fetches the message that follows.

    Spools, subscribers and fetch records are reached by address.  The doubly
    linked list of the subscribers of a spool is the sequence of its
    [spooled_subscriber_t], from [first] on.  What the spooler calls through
    function pointers (the store's [get_message], the methods of a subscriber,
    the handlers of the channel) are parameters; every call is logged. *)

From S2P Require Import Prelude Nginx MsgId Msg ChanHead RbTree.

(** ** Data *)

Definition NCHAN_SPOOL_FETCHMSG_MAX_TIMES : Z := 20.
Definition SPOOLER_RESPOND_SPOOLARRAY_SIZE : Z := 32.
Definition NGX_HTTP_NO_CONTENT : Z := 204.

(** [ssub_addr] identifies the allocation. *)
Record spooled_subscriber_t := SSub {
  ssub_addr : positive;
  ssub_sub : positive;
}.
Global Instance ssub_eq_dec : EqDecision spooled_subscriber_t.
Proof. solve_decision. Defined.

(** [spooled_subscriber_cleanup_t]: the data of the dequeue callback. *)
Record spooled_subscriber_cleanup_t := Cleanup {
  cleanup_ssub : positive;
  cleanup_spool : positive;
}.

(** What the spooler sees of a [subscriber_t]. *)
Record subscriber_t := Sub {
  sub_internal : bool;                                  (* type == INTERNAL *)
  last_msgid : nchan_msg_id_t;
  dequeue_callback : option spooled_subscriber_cleanup_t;
  dequeue_after_response : bool;
}.

Record subscriber_pool_t := Pool {
  sp_id : nchan_msg_id_t;
  sp_msg : option nchan_msg_t;
  msg_status : nchan_msg_status_t;
  first : list spooled_subscriber_t;
  fetchmsg_prev_msec : Z;
  fetchmsg_current_count : Z;
  fetchmsg_timer_set : bool;
  sp_sub_count : Z;              (* ngx_uint_t *)
  non_internal_sub_count : Z;    (* ngx_uint_t *)
  sp_reserved : Z;               (* uint8_t *)
}.

Inductive spooler_fetching_strategy_t :=
  | NCHAN_SPOOL_FETCH | NCHAN_SPOOL_FETCH_IGNORE_MSG_NOTFOUND | NCHAN_SPOOL_PASSTHROUGH.
Global Instance fetching_strategy_eq_dec : EqDecision spooler_fetching_strategy_t.
Proof. solve_decision. Defined.
Global Instance msg_status_eq_dec : EqDecision nchan_msg_status_t.
Proof. solve_decision. Defined.

(** A fetch under way; [fetch_spooler] is false once the spooler has stopped. *)
Record fetchmsg_data_t := Fetch {
  fetch_spooler : bool;
  fetch_msgid : nchan_msg_id_t;
}.

Inductive response :=
  | RespondMessage (m : nchan_msg_t)
  | RespondStatus (code : Z)
  | Notify (code : Z).

(** Calls to the outside. *)
Inductive spool_event :=
  | Responded (sub : positive) (r : response)
  | HandlerAdd (sub : positive)
  | HandlerDequeue (sub : positive)
  | HandlerBulkDequeue (internal : bool) (count : Z)
  | HandlerUse
  | GetMessageStart
  | GetMessageFinish
  | GetMessage (id : nchan_msg_id_t) (data : positive)
  | SubEnqueueEvent (sub : positive)
  | SubDequeueEvent (sub : positive).

(** Which of the optional handlers are not NULL. *)
Record channel_spooler_handlers_t := Handlers {
  h_dequeue : bool;
  h_bulk_dequeue : bool;
  h_use : bool;
  h_get_message_start : bool;
  h_get_message_finish : bool;
}.

(** The spooler and what it reaches.  [next_addr] is the next address an
    allocation returns. *)
Record channel_spooler_t := Spooler {
  spoolseed : rbtree_seed_t positive;
  spools : gmap positive subscriber_pool_t;
  subscribers : gmap positive subscriber_t;
  fetches : gmap positive fetchmsg_data_t;
  fetchmsg_cb_data_list : list positive;
  tags : tag_heap;
  prev_msg_id : nchan_msg_id_t;
  channel_status : chanhead_pubsub_status_t;
  channel_buffer_complete : bool;
  fetching_strategy : spooler_fetching_strategy_t;
  publish_events : bool;
  running : bool;
  want_to_stop : bool;
  next_addr : positive;
  log : list spool_event;
}.

(** The address of the member [current_msg_spool]. *)
Definition current_msg_spool : positive := 1%positive.
Definition latest_msg_id : nchan_msg_id_t := NCHAN_NEWEST_MSGID.
Definition oldest_msg_id : nchan_msg_id_t := NCHAN_OLDEST_MSGID.

(** *** Updates *)

Definition upd_seed (w : channel_spooler_t) (x : rbtree_seed_t positive) : channel_spooler_t :=
  Spooler x (spools w) (subscribers w) (fetches w) (fetchmsg_cb_data_list w) (tags w) (prev_msg_id w)
    (channel_status w) (channel_buffer_complete w) (fetching_strategy w) (publish_events w) (running w)
    (want_to_stop w) (next_addr w) (log w).
Definition upd_spools (w : channel_spooler_t) (x : gmap positive subscriber_pool_t) : channel_spooler_t :=
  Spooler (spoolseed w) x (subscribers w) (fetches w) (fetchmsg_cb_data_list w) (tags w) (prev_msg_id w)
    (channel_status w) (channel_buffer_complete w) (fetching_strategy w) (publish_events w) (running w)
    (want_to_stop w) (next_addr w) (log w).
Definition upd_subs (w : channel_spooler_t) (x : gmap positive subscriber_t) : channel_spooler_t :=
  Spooler (spoolseed w) (spools w) x (fetches w) (fetchmsg_cb_data_list w) (tags w) (prev_msg_id w)
    (channel_status w) (channel_buffer_complete w) (fetching_strategy w) (publish_events w) (running w)
    (want_to_stop w) (next_addr w) (log w).
Definition upd_fetches (w : channel_spooler_t) (x : gmap positive fetchmsg_data_t) (l : list positive) : channel_spooler_t :=
  Spooler (spoolseed w) (spools w) (subscribers w) x l (tags w) (prev_msg_id w)
    (channel_status w) (channel_buffer_complete w) (fetching_strategy w) (publish_events w) (running w)
    (want_to_stop w) (next_addr w) (log w).
Definition upd_tags (w : channel_spooler_t) (x : tag_heap) : channel_spooler_t :=
  Spooler (spoolseed w) (spools w) (subscribers w) (fetches w) (fetchmsg_cb_data_list w) x (prev_msg_id w)
    (channel_status w) (channel_buffer_complete w) (fetching_strategy w) (publish_events w) (running w)
    (want_to_stop w) (next_addr w) (log w).
Definition upd_prev (w : channel_spooler_t) (x : nchan_msg_id_t) : channel_spooler_t :=
  Spooler (spoolseed w) (spools w) (subscribers w) (fetches w) (fetchmsg_cb_data_list w) (tags w) x
    (channel_status w) (channel_buffer_complete w) (fetching_strategy w) (publish_events w) (running w)
    (want_to_stop w) (next_addr w) (log w).
Definition upd_flags (w : channel_spooler_t) (running' want' : bool) : channel_spooler_t :=
  Spooler (spoolseed w) (spools w) (subscribers w) (fetches w) (fetchmsg_cb_data_list w) (tags w) (prev_msg_id w)
    (channel_status w) (channel_buffer_complete w) (fetching_strategy w) (publish_events w) running'
    want' (next_addr w) (log w).
Definition emit (w : channel_spooler_t) (es : list spool_event) : channel_spooler_t :=
  Spooler (spoolseed w) (spools w) (subscribers w) (fetches w) (fetchmsg_cb_data_list w) (tags w) (prev_msg_id w)
    (channel_status w) (channel_buffer_complete w) (fetching_strategy w) (publish_events w) (running w)
    (want_to_stop w) (next_addr w) (log w ++ es).

(** [ngx_alloc]: a new address. *)
Definition ngx_alloc (w : channel_spooler_t) : positive * channel_spooler_t :=
  (next_addr w,
   Spooler (spoolseed w) (spools w) (subscribers w) (fetches w) (fetchmsg_cb_data_list w) (tags w) (prev_msg_id w)
    (channel_status w) (channel_buffer_complete w) (fetching_strategy w) (publish_events w) (running w)
    (want_to_stop w) (Pos.succ (next_addr w)) (log w)).

Definition put_spool (w : channel_spooler_t) (p : positive) (s : subscriber_pool_t) : channel_spooler_t :=
  upd_spools w (<[p := s]> (spools w)).
Definition get_pool (w : channel_spooler_t) (p : positive) : outcome subscriber_pool_t :=
  match spools w !! p with Some s => Ret s | None => Crash end.
Definition get_sub (w : channel_spooler_t) (s : positive) : outcome subscriber_t :=
  match subscribers w !! s with Some x => Ret x | None => Crash end.
Definition get_fetch (w : channel_spooler_t) (d : positive) : outcome fetchmsg_data_t :=
  match fetches w !! d with Some x => Ret x | None => Crash end.

Definition set_status (s : subscriber_pool_t) (x : nchan_msg_status_t) : subscriber_pool_t :=
  Pool (sp_id s) (sp_msg s) x (first s) (fetchmsg_prev_msec s) (fetchmsg_current_count s)
       (fetchmsg_timer_set s) (sp_sub_count s) (non_internal_sub_count s) (sp_reserved s).
Definition set_msg (s : subscriber_pool_t) (m : option nchan_msg_t) (x : nchan_msg_status_t) : subscriber_pool_t :=
  Pool (sp_id s) m x (first s) (fetchmsg_prev_msec s) (fetchmsg_current_count s)
       (fetchmsg_timer_set s) (sp_sub_count s) (non_internal_sub_count s) (sp_reserved s).
Definition set_pool_id (s : subscriber_pool_t) (i : nchan_msg_id_t) : subscriber_pool_t :=
  Pool i (sp_msg s) (msg_status s) (first s) (fetchmsg_prev_msec s) (fetchmsg_current_count s)
       (fetchmsg_timer_set s) (sp_sub_count s) (non_internal_sub_count s) (sp_reserved s).
Definition set_subs (s : subscriber_pool_t) (l : list spooled_subscriber_t) (n ni : Z) : subscriber_pool_t :=
  Pool (sp_id s) (sp_msg s) (msg_status s) l (fetchmsg_prev_msec s) (fetchmsg_current_count s)
       (fetchmsg_timer_set s) n ni (sp_reserved s).
Definition set_fetch (s : subscriber_pool_t) (msec count : Z) (timer : bool) : subscriber_pool_t :=
  Pool (sp_id s) (sp_msg s) (msg_status s) (first s) msec count timer
       (sp_sub_count s) (non_internal_sub_count s) (sp_reserved s).
Definition set_reserved (s : subscriber_pool_t) (r : Z) : subscriber_pool_t :=
  Pool (sp_id s) (sp_msg s) (msg_status s) (first s) (fetchmsg_prev_msec s) (fetchmsg_current_count s)
       (fetchmsg_timer_set s) (sp_sub_count s) (non_internal_sub_count s) r.

(** The id of the spool of a tree node ([spool_rbtree_node_id]). *)
Definition spool_rbtree_node_id (w : channel_spooler_t) (p : positive) : outcome nchan_msg_id_t :=
  s ← get_pool w p; Ret (sp_id s).

(** Reaching the tree node of a spool that is not in the tree is an error. *)
Definition tree_remove `{NgxRbtree positive} (w : channel_spooler_t) (p : positive) : outcome channel_spooler_t :=
  if decide (p ∈ (inorder (tree (spoolseed w))).*2)
  then Ret (upd_seed w (rbtree_remove_node (spoolseed w) p)) else Crash.

Definition tree_insert `{NgxRbtree positive} (w : channel_spooler_t) (p : positive) : outcome channel_spooler_t :=
  seed ← rbtree_insert_node (spool_rbtree_node_id w) spool_rbtree_bucketer (spool_rbtree_compare (tags w))
           (spoolseed w) p;
  Ret (upd_seed w seed).

(** ** Operations *)

(** What a subscriber does: whether [enqueue] succeeds, and whether it takes
    itself out of the pool ([dequeue]) when it is given a response. *)
Class SubscriberFn := {
  sub_enqueue : subscriber_t -> Z;
  sub_leaves : subscriber_t -> response -> bool;
}.

Section spooler.
Context `{NgxRbtree positive} `{SubscriberFn}.
Context (handlers : channel_spooler_handlers_t).
(** [ngx_timeofday()->msec]; the 16-bit words of an address (see [grow_tags]). *)
Context (now_msec : Z) (ptr_words : positive -> list Z).
(** [store->get_message]: the answer with which it calls back at once, if it
    does; otherwise the callback comes later. *)
Context (get_message : nchan_msg_id_t -> option (nchan_msg_status_t * option nchan_msg_t)).

Definition find_spool (w : channel_spooler_t) (id : nchan_msg_id_t) :
    outcome (channel_spooler_t * option positive) :=
  if (time id =? NCHAN_NEWEST_MSGID_TIME) || bool_decide (fetching_strategy w = NCHAN_SPOOL_PASSTHROUGH) then
    s ← get_pool w current_msg_spool;
    Ret (put_spool w current_msg_spool (set_status s MSG_EXPECTED), Some current_msg_spool)
  else
    r ← rbtree_find_node (spool_rbtree_node_id w) spool_rbtree_bucketer (spool_rbtree_compare (tags w))
          (spoolseed w) id;
    Ret (w, r).

Definition spool_reserve (w : channel_spooler_t) (p : positive) : outcome channel_spooler_t :=
  s ← get_pool w p; Ret (put_spool w p (set_reserved s (u8 (sp_reserved s + 1)))).

Definition init_spool (w : channel_spooler_t) (p : positive) (id : nchan_msg_id_t) : outcome channel_spooler_t :=
  let (new, w1) := ngx_alloc w in
  '(th, id', _) ← nchan_copy_new_msg_id (tags w1) id (Some new);
  Ret (put_spool (upd_tags w1 th) p (Pool id' None MSG_INVALID [] 0 0 false 0 0 0)).

Definition get_spool (w : channel_spooler_t) (id : nchan_msg_id_t) : outcome (channel_spooler_t * positive) :=
  if (time id =? NCHAN_NEWEST_MSGID_TIME) || bool_decide (fetching_strategy w = NCHAN_SPOOL_PASSTHROUGH) then
    s ← get_pool w current_msg_spool;
    Ret (put_spool w current_msg_spool (set_status s MSG_EXPECTED), current_msg_spool)
  else
    r ← rbtree_find_node (spool_rbtree_node_id w) spool_rbtree_bucketer (spool_rbtree_compare (tags w))
          (spoolseed w) id;
    match r with
    | None =>
        let (p, w1) := ngx_alloc w in
        w2 ← init_spool (upd_seed w1 (rbtree_create_node (spoolseed w1))) p id;
        w3 ← tree_insert w2 p;
        Ret (w3, p)
    | Some p =>
        s ← get_pool w p;
        c_assert (time (sp_id s) =? time id);;
        Ret (w, p)
    end.

(** *** Subscribers of a spool *)

Definition spool_bubbleup_dequeue_handler (w : channel_spooler_t) (sub : positive) (internal : bool) :
    channel_spooler_t :=
  if h_dequeue handlers then emit w [HandlerDequeue sub]
  else if h_bulk_dequeue handlers then emit w [HandlerBulkDequeue internal 1]
  else w.

Definition spool_remove_subscriber (w : channel_spooler_t) (self : positive) (ssub : spooled_subscriber_t) :
    outcome channel_spooler_t :=
  s ← get_pool w self;
  sub ← get_sub w (ssub_sub ssub);
  if decide (ssub ∈ first s) then
    c_assert (0 <? sp_sub_count s);;
    Ret (put_spool w self
           (set_subs s (filter (fun x => x <> ssub) (first s)) (u64 (sp_sub_count s - 1))
              (if sub_internal sub then non_internal_sub_count s else u64 (non_internal_sub_count s - 1))))
  else Crash.

(** The [spooled_subscriber_t] at an address. *)
Definition find_ssub (l : list spooled_subscriber_t) (a : positive) : option spooled_subscriber_t :=
  snd <$> list_find (fun x => ssub_addr x = a) l.

Definition set_callback (x : subscriber_t) (c : option spooled_subscriber_cleanup_t) : subscriber_t :=
  Sub (sub_internal x) (last_msgid x) c (dequeue_after_response x).
Definition set_last_msgid (x : subscriber_t) (i : nchan_msg_id_t) : subscriber_t :=
  Sub (sub_internal x) i (dequeue_callback x) (dequeue_after_response x).

Definition spool_sub_dequeue_callback (w : channel_spooler_t) (sub : positive) (d : spooled_subscriber_cleanup_t) :
    outcome channel_spooler_t :=
  s ← get_pool w (cleanup_spool d);
  x ← get_sub w sub;
  match find_ssub (first s) (cleanup_ssub d) with
  | Some ssub =>
      c_assert (bool_decide (sub = ssub_sub ssub));;
      w1 ← spool_remove_subscriber w (cleanup_spool d) ssub;
      let w2 := spool_bubbleup_dequeue_handler w1 sub (sub_internal x) in
      Ret (if negb (sub_internal x) && publish_events w2 then emit w2 [SubDequeueEvent sub] else w2)
  | None => Crash
  end.

(** [sub->fn->dequeue(sub)]: the callback runs once. *)
Definition sub_dequeue (w : channel_spooler_t) (sub : positive) : outcome channel_spooler_t :=
  x ← get_sub w sub;
  match dequeue_callback x with
  | Some d =>
      w1 ← spool_sub_dequeue_callback w sub d;
      x1 ← get_sub w1 sub;
      Ret (upd_subs w1 (<[sub := set_callback x1 None]> (subscribers w1)))
  | None => Ret w
  end.

(** [respond_message], [respond_status] and [notify] of a subscriber. *)
Definition sub_respond (w : channel_spooler_t) (sub : positive) (r : response) : outcome channel_spooler_t :=
  x ← get_sub w sub;
  let w1 := emit w [Responded sub r] in
  if sub_leaves x r then sub_dequeue w1 sub else Ret w1.

Definition spool_add_subscriber (w : channel_spooler_t) (self sub : positive) (enqueue : bool) :
    outcome (channel_spooler_t * Z) :=
  let (a, w1) := ngx_alloc w in
  s ← get_pool w1 self;
  x ← get_sub w1 sub;
  let ssub := SSub a sub in
  let w2 := put_spool w1 self
    (set_subs s (ssub :: first s) (u64 (sp_sub_count s + 1))
       (if sub_internal x then non_internal_sub_count s else u64 (non_internal_sub_count s + 1))) in
  let set_dequeue_callback w :=
    upd_subs w (<[sub := set_callback x (Some (Cleanup a self))]> (subscribers w)) in
  if (enqueue : bool) then
    let rc := sub_enqueue x in
    if negb (rc =? NGX_OK) then
      s2 ← get_pool w2 self;
      Ret (put_spool w2 self
             (set_subs s2 (first s) (u64 (sp_sub_count s2 - 1))
                (if sub_internal x then non_internal_sub_count s2 else u64 (non_internal_sub_count s2 - 1))), rc)
    else
      let w3 := if negb (sub_internal x) && publish_events w2 then emit w2 [SubEnqueueEvent sub] else w2 in
      Ret (set_dequeue_callback w3, NGX_OK)
  else Ret (set_dequeue_callback w2, NGX_OK).

(** The loop saves the next subscriber before it answers one. *)
Fixpoint respond_loop (w : channel_spooler_t) (nsubs : list spooled_subscriber_t) (r : response) :
    outcome channel_spooler_t :=
  match nsubs with
  | [] => Ret w
  | nsub :: nnext => w1 ← sub_respond w (ssub_sub nsub) r; respond_loop w1 nnext r
  end.

Definition spool_respond_general (w : channel_spooler_t) (self : positive) (msg : option nchan_msg_t)
    (code : Z) (notice : bool) : outcome channel_spooler_t :=
  s ← get_pool w self;
  respond_loop w (first s)
    (match msg with
     | Some m => RespondMessage m
     | None => if notice then Notify code else RespondStatus code
     end).

(** [fuel] bounds the number of subscribers moved. *)
Fixpoint transfer_loop (fuel : nat) (w : channel_spooler_t) (spool newspool : positive) (update : bool) (count : Z) :
    outcome (channel_spooler_t * Z) :=
  match fuel with
  | O => NoFuel
  | S fuel' =>
      s ← get_pool w spool;
      match first s with
      | [] => Ret (w, count)
      | cur :: _ =>
          let sub := ssub_sub cur in
          w1 ← spool_remove_subscriber w spool cur;
          new ← get_pool w1 newspool;
          x ← get_sub w1 sub;
          let w2 := if (update : bool)
                    then upd_subs w1 (<[sub := set_last_msgid x (sp_id new)]> (subscribers w1)) else w1 in
          '(w3, rc) ← spool_add_subscriber w2 newspool sub false;
          transfer_loop fuel' w3 spool newspool update (if rc =? NGX_OK then count + 1 else count)
      end
  end.

Definition spool_transfer_subscribers (w : channel_spooler_t) (spool newspool : positive) (update : bool) :
    outcome (channel_spooler_t * Z) :=
  s ← get_pool w spool;
  transfer_loop (S (length (first s))) w spool newspool update 0.

(** *** Destroying a spool *)

Definition remove_spool (w : channel_spooler_t) (p : positive) : outcome channel_spooler_t :=
  s ← get_pool w p;
  c_assert (sp_reserved s =? 0);;
  c_assert (running w);;
  let s1 := set_fetch s (fetchmsg_prev_msec s) (fetchmsg_current_count s) false in
  '(th, id', _) ← nchan_free_msg_id (tags w) (sp_id s1);
  tree_remove (put_spool (upd_tags w th) p (set_pool_id s1 id')) p.

Fixpoint dequeue_loop (w : channel_spooler_t) (ssubs : list spooled_subscriber_t) : outcome channel_spooler_t :=
  match ssubs with
  | [] => Ret w
  | ssub :: ssub_next => w1 ← sub_dequeue w (ssub_sub ssub); dequeue_loop w1 ssub_next
  end.

(** [rbtree_destroy_node]: the node and the spool in it are freed. *)
Definition destroy_node (w : channel_spooler_t) (p : positive) : channel_spooler_t :=
  upd_spools (upd_seed w (rbtree_destroy_node (spoolseed w))) (delete p (spools w)).

Definition destroy_spool (w : channel_spooler_t) (p : positive) : outcome channel_spooler_t :=
  w1 ← remove_spool w p;
  s ← get_pool w1 p;
  w2 ← dequeue_loop w1 (first s);
  s2 ← get_pool w2 p;
  c_assert (sp_sub_count s2 =? 0);;
  c_assert (bool_decide (first s2 = []));;
  Ret (destroy_node w2 p).

Definition spool_release (w : channel_spooler_t) (p : positive) : outcome channel_spooler_t :=
  s ← get_pool w p;
  let s1 := set_reserved s (u8 (sp_reserved s - 1)) in
  let w1 := put_spool w p s1 in
  let immortal_spool := time (sp_id s1) =? NCHAN_NEWEST_MSGID_TIME in
  if negb immortal_spool && (sp_reserved s1 =? 0) && (sp_sub_count s1 =? 0) then destroy_spool w1 p
  else Ret w1.

(** *** Moving on and fetching

    [spool_fetch_msg], [spool_nextmsg] and [spool_fetch_msg_callback] call each
    other: the last two take [spool_fetch_msg] as an argument. *)

Definition moved_on (fetch : channel_spooler_t -> positive -> outcome (channel_spooler_t * Z))
    (w : channel_spooler_t) (newspool : positive) : outcome channel_spooler_t :=
  new ← get_pool w newspool;
  let w1 := if (0 <? non_internal_sub_count new) && h_use handlers then emit w [HandlerUse] else w in
  if 0 <? sp_sub_count new then
    match msg_status new with
    | MSG_CHANNEL_NOTREADY =>
        '(w2, _) ← fetch (put_spool w1 newspool (set_status new MSG_INVALID)) newspool; Ret w2
    | MSG_INVALID => '(w2, _) ← fetch w1 newspool; Ret w2
    | MSG_EXPECTED => spool_respond_general w1 newspool None NGX_HTTP_NO_CONTENT false
    | _ => Ret w1
    end
  else Ret w1.

Definition spool_nextmsg (fetch : channel_spooler_t -> positive -> outcome (channel_spooler_t * Z))
    (w : channel_spooler_t) (spool : positive) (new_last_id : nchan_msg_id_t) : outcome channel_spooler_t :=
  s ← get_pool w spool;
  let immortal_spool := time (sp_id s) =? NCHAN_NEWEST_MSGID_TIME in
  let passthrough := bool_decide (fetching_strategy w = NCHAN_SPOOL_PASSTHROUGH) in
  if passthrough && immortal_spool then Ret w
  else
    let new_last_id := if passthrough then latest_msg_id else new_last_id in
    (* int16_t largetags[NCHAN_MULTITAG_MAX], on the stack *)
    let (largetags, w0) := ngx_alloc w in
    let (a1, w1) := ngx_alloc w0 in
    let th := <[largetags := TB false (replicate (Z.to_nat NCHAN_MULTITAG_MAX) 0)]> (tags w1) in
    '(th1, id1, _) ← nchan_copy_msg_id th NCHAN_ZERO_MSGID (sp_id s) (Some largetags) None;
    '(th2, new_id) ← nchan_update_multi_msgid ptr_words th1 id1 new_last_id (Some largetags) (Some a1);
    let w2 := upd_tags w1 th2 in
    same ← msg_ids_equal th2 (sp_id s) new_id;
    if (same : bool) then Crash   (* assert(0) *)
    else
      '(w3, newspool) ←
        (if negb immortal_spool then find_spool w2 new_id
         else '(w3, p) ← get_spool w2 new_id; Ret (w3, Some p));
      '(w4, newspool) ←
        (match newspool with
         | Some newspool =>
             c_assert (bool_decide (spool <> newspool));;
             '(w4, _) ← spool_transfer_subscribers w3 spool newspool false;
             s4 ← get_pool w4 spool;
             w5 ← (if negb immortal_spool && (sp_reserved s4 =? 0) then destroy_spool w4 spool else Ret w4);
             Ret (w5, newspool)
         | None =>
             c_assert (negb immortal_spool);;
             w4 ← tree_remove w3 spool;
             s4 ← get_pool w4 spool;
             let (a2, w5) := ngx_alloc w4 in
             '(th5, id', _) ← nchan_copy_msg_id (tags w5) (sp_id s4) new_id None (Some a2);
             w6 ← tree_insert (put_spool (upd_tags w5 th5) spool (set_pool_id s4 id')) spool;
             s6 ← get_pool w6 spool;
             Ret (put_spool w6 spool (set_msg s6 None MSG_INVALID), spool)
         end);
      w5 ← moved_on fetch w4 newspool;
      Ret (upd_tags w5 (delete largetags (tags w5))).

(** The answer that a message was missed: its subscribers start over from the
    oldest message, or wait for the next one if that was what they wanted. *)
Definition spool_missed (fetch : channel_spooler_t -> positive -> outcome (channel_spooler_t * Z))
    (w : channel_spooler_t) (spool : positive) (findmsg_status : nchan_msg_status_t) : outcome channel_spooler_t :=
  s ← get_pool w spool;
  w1 ← spool_respond_general (put_spool w spool (set_status s findmsg_status)) spool None NGX_HTTP_NO_CONTENT false;
  '(w2, nuspool) ← get_spool w1 oldest_msg_id;
  if decide (spool <> nuspool) then
    '(w3, _) ← spool_transfer_subscribers w2 spool nuspool true;
    s3 ← get_pool w3 spool;
    w4 ← (if sp_reserved s3 =? 0 then destroy_spool w3 spool else Ret w3);
    '(w5, _) ← fetch w4 nuspool;
    Ret w5
  else
    s2 ← get_pool w2 spool;
    is_oldest ← (if tagcount (sp_id s2) =? 1
                 then c ← nchan_compare_msgids (tags w2) (sp_id s2) oldest_msg_id; Ret (c =? 0) else Ret false);
    if (is_oldest : bool) then
      '(w3, nuspool) ← get_spool w2 latest_msg_id;
      c_assert (bool_decide (spool <> nuspool));;
      '(w4, _) ← spool_transfer_subscribers w3 spool nuspool true;
      s4 ← get_pool w4 spool;
      if sp_reserved s4 =? 0 then destroy_spool w4 spool else Ret w4
    else if decide (spool = current_msg_spool) then
      Ret (put_spool w2 spool (set_status s2 MSG_EXPECTED))
    else Crash.   (* assert(0) *)

Definition spool_fetch_msg_callback (fetch : channel_spooler_t -> positive -> outcome (channel_spooler_t * Z))
    (w : channel_spooler_t) (code : nchan_msg_status_t) (msg : option nchan_msg_t) (data : positive) :
    outcome (channel_spooler_t * Z) :=
  d ← get_fetch w data;
  (* assert(spl->fetching_strategy != NCHAN_SPOOL_PASSTHROUGH), where spl is data->spooler *)
  c_assert (fetch_spooler d);;
  c_assert (negb (bool_decide (fetching_strategy w = NCHAN_SPOOL_PASSTHROUGH)));;
  let w1 := upd_fetches w (fetches w) (filter (fun x => x <> data) (fetchmsg_cb_data_list w)) in
  let w2 := if h_get_message_finish handlers then emit w1 [GetMessageFinish] else w1 in
  '(w3, found) ← find_spool w2 (fetch_msgid d);
  let free_data w :=
    '(th, _, _) ← nchan_free_msg_id (tags w) (fetch_msgid d);
    Ret (upd_fetches (upd_tags w th) (delete data (fetches w)) (fetchmsg_cb_data_list w)) in
  match found with
  | None => w4 ← free_data w3; Ret (w4, NGX_ERROR)
  | Some spool =>
      s ← get_pool w3 spool;
      let prev_status := msg_status s in
      w4 ←
        (match code with
         | MSG_FOUND =>
             match msg with
             | None => Crash   (* assert(msg != NULL) *)
             | Some m =>
                 w4 ← spool_respond_general (put_spool w3 spool (set_msg s msg MSG_FOUND)) spool msg 0 false;
                 spool_nextmsg fetch w4 spool (id m)
             end
         | MSG_EXPECTED =>
             if time (sp_id s) =? NCHAN_NTH_MSGID_TIME then spool_nextmsg fetch w3 spool latest_msg_id
             else
               w4 ← spool_respond_general (put_spool w3 spool (set_status s MSG_EXPECTED)) spool None
                      NGX_HTTP_NO_CONTENT false;
               c_assert (bool_decide (msg = None));;
               s4 ← get_pool w4 spool;
               Ret (put_spool w4 spool (set_msg s4 None (msg_status s4)))
         | MSG_CHANNEL_NOTREADY => Ret (put_spool w3 spool (set_msg s None code))
         | MSG_NOTFOUND =>
             if decide (fetching_strategy w = NCHAN_SPOOL_FETCH_IGNORE_MSG_NOTFOUND)
             then Ret (put_spool w3 spool (set_status s prev_status))
             else spool_missed fetch w3 spool code
         | MSG_EXPIRED => spool_missed fetch w3 spool code
         | MSG_PENDING => Ret w3
         | MSG_ERROR => spool_respond_general w3 spool None NGX_HTTP_INTERNAL_SERVER_ERROR false
         | MSG_INVALID => Crash   (* assert(0) *)
         end);
      w5 ← free_data w4;
      Ret (w5, NGX_OK)
  end.

(** [fuel] bounds the nesting of fetches that are answered at once. *)
Fixpoint spool_fetch_msg (fuel : nat) (w : channel_spooler_t) (spool : positive) : outcome (channel_spooler_t * Z) :=
  match fuel with
  | O => NoFuel
  | S fuel' =>
      s ← get_pool w spool;
      if (fetchmsg_prev_msec s =? now_msec) && (NCHAN_SPOOL_FETCHMSG_MAX_TIMES <? fetchmsg_current_count s) then
        (* stack overflow protector: ngx_add_timer(&spool->fetchmsg_ev, 0) *)
        Ret (put_spool w spool (set_fetch s (fetchmsg_prev_msec s) 0 true), NGX_DONE)
      else
        let s1 := if fetchmsg_prev_msec s =? now_msec
                  then set_fetch s (fetchmsg_prev_msec s) (fetchmsg_current_count s + 1) (fetchmsg_timer_set s)
                  else set_fetch s now_msec 0 (fetchmsg_timer_set s) in
        if negb (bool_decide (channel_status w = READY)) || negb (channel_buffer_complete w) then
          Ret (put_spool w spool (set_status s1 MSG_CHANNEL_NOTREADY), NGX_DECLINED)
        else
          let (data, w1) := ngx_alloc (put_spool w spool s1) in
          let (new, w2) := ngx_alloc w1 in
          '(th, msgid, _) ← nchan_copy_new_msg_id (tags w2) (sp_id s1) (Some new);
          let w3 := upd_fetches (upd_tags w2 th) (<[data := Fetch true msgid]> (fetches w2))
                      (data :: fetchmsg_cb_data_list w2) in
          c_assert (bool_decide (sp_msg s1 = None));;
          c_assert (bool_decide (msg_status s1 = MSG_INVALID));;
          let w4 := put_spool w3 spool (set_status s1 MSG_PENDING) in
          let w5 := if h_get_message_start handlers then emit w4 [GetMessageStart] else w4 in
          if decide (fetching_strategy w5 = NCHAN_SPOOL_PASSTHROUGH) then
            '(w6, _) ← spool_fetch_msg_callback (spool_fetch_msg fuel') w5 MSG_EXPECTED None data;
            Ret (w6, NGX_OK)
          else
            let w6 := emit w5 [GetMessage (sp_id s1) data] in
            match get_message (sp_id s1) with
            | Some (code, msg) =>
                '(w7, _) ← spool_fetch_msg_callback (spool_fetch_msg fuel') w6 code msg data;
                Ret (w7, NGX_OK)
            | None => Ret (w6, NGX_OK)
            end
  end.

Definition fetchmsg_ev_handler (fuel : nat) (w : channel_spooler_t) (spool : positive) : outcome channel_spooler_t :=
  s ← get_pool w spool;
  let s1 := set_fetch s (fetchmsg_prev_msec s) (fetchmsg_current_count s) false in  (* the timer has fired *)
  let w1 := put_spool w spool s1 in
  if decide (msg_status s1 = MSG_INVALID) then '(w2, _) ← spool_fetch_msg fuel w1 spool; Ret w2 else Ret w1.

(** ** The spooler *)

Definition spooler_add_subscriber (fuel : nat) (w : channel_spooler_t) (sub : positive) :
    outcome (channel_spooler_t * Z) :=
  if want_to_stop w then Ret (w, NGX_ERROR)
  else
    x ← get_sub w sub;
    '(w1, spool) ← get_spool w (last_msgid x);
    s ← get_pool w1 spool;
    c_assert (if decide (fetching_strategy w1 = NCHAN_SPOOL_PASSTHROUGH)
              then time (sp_id s) =? NCHAN_NEWEST_MSGID_TIME else true);;
    '(w2, rc) ← spool_add_subscriber w1 spool sub true;
    if negb (rc =? NGX_OK) then Ret (w2, rc)
    else
      let w3 := emit w2 [HandlerAdd sub] in
      s3 ← get_pool w3 spool;
      w4 ←
        (match msg_status s3 with
         | MSG_FOUND =>
             c_assert (negb (bool_decide (sp_msg s3 = None)));;
             spool_respond_general w3 spool (sp_msg s3) 0 false
         | MSG_INVALID =>
             c_assert (bool_decide (sp_msg s3 = None));;
             '(w4, _) ← spool_fetch_msg fuel w3 spool; Ret w4
         | MSG_CHANNEL_NOTREADY | MSG_PENDING => Ret w3
         | MSG_EXPECTED => sub_respond w3 sub (RespondStatus NGX_HTTP_NO_CONTENT)
         | MSG_EXPIRED | MSG_NOTFOUND | MSG_ERROR => Crash   (* assert(0) *)
         end);
      Ret (if h_use handlers && negb (sub_internal x) then emit w4 [HandlerUse] else w4, NGX_OK).

(** *** The spools a message concerns *)

Record spooler_respond_data_t := RespondData {
  rd_min : nchan_msg_id_t;
  rd_max : nchan_msg_id_t;
  rd_multi : Z;                  (* uint8_t *)
  rd_n : Z;
  rd_spools : list positive;     (* the slots written, at most 32 *)
  rd_overflow : list positive;   (* head first *)
}.

Definition compare_msgid_onetag_range (min max id : nchan_msg_id_t) : outcome rbtree_walk_direction_t :=
  c_assert (tagcount min =? tagcount max);;
  c_assert (tagcount max =? tagcount id);;
  c_assert (tagcount id =? 1);;
  tmin ← fixed0 min;
  tmax ← fixed0 max;
  tid ← fixed0 id;
  if (time min <? time id) || ((time min =? time id) && (tmin <=? tid)) then
    if (time id <? time max) || ((time max =? time id) && (tid <? tmax)) then Ret RBTREE_WALK_LEFT_RIGHT
    else Ret RBTREE_WALK_LEFT
  else Ret RBTREE_WALK_RIGHT.

Definition compare_msgid_time (min max cur : nchan_msg_id_t) : Z :=
  if time min <=? time cur then (if time cur <=? time max then 0 else 1) else -1.

Definition spoolcollector_addspool (data : spooler_respond_data_t) (spool : positive) : spooler_respond_data_t :=
  if rd_n data <? SPOOLER_RESPOND_SPOOLARRAY_SIZE then
    RespondData (rd_min data) (rd_max data) (rd_multi data) (rd_n data + 1)
      (take (Z.to_nat (rd_n data)) (rd_spools data) ++ [spool]) (rd_overflow data)
  else
    RespondData (rd_min data) (rd_max data) (rd_multi data) (rd_n data + 1)
      (rd_spools data) (spool :: rd_overflow data).

Definition spoolcollector_unwind_nextspool (data : spooler_respond_data_t) :
    outcome (option positive * spooler_respond_data_t) :=
  if SPOOLER_RESPOND_SPOOLARRAY_SIZE <? rd_n data then
    match rd_overflow data with
    | spool :: rest =>
        Ret (Some spool, RespondData (rd_min data) (rd_max data) (rd_multi data) (rd_n data - 1)
                           (rd_spools data) rest)
    | [] => Crash
    end
  else if 0 <? rd_n data then
    match rd_spools data !! Z.to_nat (rd_n data - 1) with
    | Some spool =>
        Ret (Some spool, RespondData (rd_min data) (rd_max data) (rd_multi data) (rd_n data - 1)
                           (rd_spools data) (rd_overflow data))
    | None => Crash
    end
  else Ret (None, data).

Definition collect_spool_range_callback (w : channel_spooler_t) (spool : positive) (data : spooler_respond_data_t) :
    outcome (rbtree_walk_direction_t * spooler_respond_data_t) :=
  s ← get_pool w spool;
  let id := sp_id s in
  if rd_multi data <=? 1 then
    dir ← compare_msgid_onetag_range (rd_min data) (rd_max data) id;
    Ret (dir, if decide (dir = RBTREE_WALK_LEFT_RIGHT) then spoolcollector_addspool data spool else data)
  else
    let tc := compare_msgid_time (rd_min data) (rd_max data) id in
    if tc <? 0 then Ret (RBTREE_WALK_RIGHT, data)
    else if 0 <? tc then Ret (RBTREE_WALK_LEFT, data)
    else
      let timmin := time (rd_min data) in
      let timmax := time (rd_max data) in
      let timcur := time id in
      let below := c ← nchan_compare_msgid_tags (tags w) id (rd_max data); Ret (c <? 0) in
      let above := c ← nchan_compare_msgid_tags (tags w) id (rd_min data); Ret (0 <=? c) in
      yes ←
        (if (timmin <? timcur) && (timcur <? timmax) then Ret true
         else if (timcur =? timmax) && (timcur =? timmin) then
           b ← below; if (b : bool) then above else Ret false
         else
           b ← (if timcur =? timmax then below else Ret false);
           if (b : bool) then Ret true
           else
             a ← (if timcur =? timmin then above else Ret false);
             if (a : bool) then Ret true else Ret ((timmin <? timcur) && (timcur <? timmax)));
      Ret (RBTREE_WALK_LEFT_RIGHT, if (yes : bool) then spoolcollector_addspool data spool else data).

(** [spool->id.tag.allocd != msg->id.tag.allocd], for ids with allocated tags. *)
Definition tags_not_shared (w : channel_spooler_t) (spool : positive) (m : nchan_msg_t) : outcome unit :=
  if NCHAN_FIXED_MULTITAG_MAX <? tagcount (id m) then
    s ← get_pool w spool;
    c_assert (match tag (sp_id s), tag (id m) with
              | allocd a, allocd b => negb (bool_decide (a = b))
              | _, _ => true
              end)
  else Ret ().

(** [while((spool = spoolcollector_unwind_nextspool(&srdata)) != NULL)]. *)
Fixpoint unwind_loop (fuel n : nat) (w : channel_spooler_t) (data : spooler_respond_data_t) (m : nchan_msg_t) :
    outcome channel_spooler_t :=
  match n with
  | O => NoFuel
  | S n' =>
      '(spool, data') ← spoolcollector_unwind_nextspool data;
      match spool with
      | None => Ret w
      | Some spool =>
          tags_not_shared w spool m;;
          w1 ← spool_respond_general w spool (Some m) 0 false;
          tags_not_shared w1 spool m;;
          w2 ← spool_nextmsg (spool_fetch_msg fuel) w1 spool (id m);
          unwind_loop fuel n' w2 data' m
      end
  end.

Definition spooler_respond_message (fuel : nat) (w : channel_spooler_t) (m : nchan_msg_t) : outcome channel_spooler_t :=
  w1 ←
    (if decide (fetching_strategy w <> NCHAN_SPOOL_PASSTHROUGH) then
       srdata ← rbtree_conditional_walk (spoolseed w) (collect_spool_range_callback w)
                  (RespondData (prev_id m) (id m) (u8 (tagcount (id m))) 0 [] []);
       unwind_loop fuel (S (Z.to_nat (rd_n srdata))) w srdata m
     else Ret w);
  '(w2, spool) ← get_spool w1 latest_msg_id;
  s ← get_pool w2 spool;
  w3 ←
    (if (0 <? sp_sub_count s) && channel_buffer_complete w2 then
       w3 ← spool_respond_general w2 spool (Some m) 0 false;
       spool_nextmsg (spool_fetch_msg fuel) w3 spool (id m)
     else Ret w2);
  let (new, w4) := ngx_alloc w3 in
  '(th, prev, _) ← nchan_copy_msg_id (tags w4) (prev_msg_id w4) (id m) None (Some new);
  Ret (upd_prev (upd_tags w4 th) prev).

Definition spooler_respond_status (w : channel_spooler_t) (id : nchan_msg_id_t) (status_code : Z) :
    outcome channel_spooler_t :=
  '(w1, found) ← find_spool w id;
  match found with
  | Some spool =>
      s ← get_pool w1 spool;
      let w2 := if status_code =? NGX_HTTP_NO_CONTENT then put_spool w1 spool (set_status s MSG_EXPECTED) else w1 in
      w3 ← spool_respond_general w2 spool None status_code false;
      destroy_spool w3 spool
  | None => Ret w1
  end.

Definition spooler_respond_generic (w : channel_spooler_t) (msg : option nchan_msg_t) (code : Z) (notice : bool) :
    outcome channel_spooler_t :=
  w1 ← rbtree_walk (spoolseed w) (fun spool w => spool_respond_general w spool msg code notice) w;
  spool_respond_general w1 current_msg_spool msg code notice.

Definition spooler_broadcast_status (w : channel_spooler_t) (code : Z) := spooler_respond_generic w None code false.
Definition spooler_broadcast_notice (w : channel_spooler_t) (code : Z) := spooler_respond_generic w None code true.

Definition set_dequeue_after_response (x : subscriber_t) : subscriber_t :=
  Sub (sub_internal x) (last_msgid x) (dequeue_callback x) true.

Fixpoint dequeue_all_loop (w : channel_spooler_t) (xs : list spooled_subscriber_t) : outcome channel_spooler_t :=
  match xs with
  | [] => Ret w
  | cur :: next =>
      x ← get_sub w (ssub_sub cur);
      dequeue_all_loop (upd_subs w (<[ssub_sub cur := set_dequeue_after_response x]> (subscribers w))) next
  end.

Definition spooler_spool_dequeue_all (spool : positive) (w : channel_spooler_t) : outcome channel_spooler_t :=
  s ← get_pool w spool; dequeue_all_loop w (first s).

Definition spooler_prepare_to_stop (w : channel_spooler_t) : outcome channel_spooler_t :=
  w1 ← rbtree_walk (spoolseed w) spooler_spool_dequeue_all w;
  Ret (upd_flags w1 (running w1) true).

(** *** Fetching for many spools *)

Definition its_time_for_a_spooling_filter (spool : positive) (w : channel_spooler_t) : outcome (bool * channel_spooler_t) :=
  s ← get_pool w spool;
  match msg_status s with
  | MSG_CHANNEL_NOTREADY | MSG_INVALID => w1 ← spool_reserve w spool; Ret (true, w1)
  | _ => Ret (false, w)
  end.

(** [assert(rc == NGX_OK || rc == NGX_DONE || NGX_DECLINED)] always holds:
    [NGX_DECLINED] is not zero. *)
Definition its_time_for_a_spooling (fuel : nat) (spool : positive) (w : channel_spooler_t) : outcome channel_spooler_t :=
  s ← get_pool w spool;
  w1 ← (match msg_status s with
        | MSG_CHANNEL_NOTREADY | MSG_INVALID =>
            '(w1, rc) ← spool_fetch_msg fuel (put_spool w spool (set_status s MSG_INVALID)) spool;
            c_assert ((rc =? NGX_OK) || (rc =? NGX_DONE) || negb (NGX_DECLINED =? 0));;
            Ret w1
        | _ => Ret w
        end);
  spool_release w1 spool.

Definition spooler_channel_status_changed (fuel : nat) (w : channel_spooler_t) : outcome channel_spooler_t :=
  match channel_status w with
  | READY =>
      rbtree_walk_writesafe spoolseed its_time_for_a_spooling_filter (its_time_for_a_spooling fuel) w
  | _ => Ret w
  end.

Definition spooler_catch_up_filter (spool : positive) (w : channel_spooler_t) : outcome (bool * channel_spooler_t) :=
  s ← get_pool w spool;
  match msg_status s with
  | MSG_EXPECTED | MSG_PENDING => Ret (true, w)
  | _ => Ret (false, w)
  end.

Definition spooler_catch_up_callback (fuel : nat) (spool : positive) (w : channel_spooler_t) : outcome channel_spooler_t :=
  s ← get_pool w spool;
  '(w1, _) ← spool_fetch_msg fuel (put_spool w spool (set_status s MSG_INVALID)) spool;
  Ret w1.

Definition spooler_catch_up (fuel : nat) (w : channel_spooler_t) : outcome channel_spooler_t :=
  rbtree_walk_writesafe spoolseed spooler_catch_up_filter (spooler_catch_up_callback fuel) w.

(** *** Starting and stopping *)

Definition start_spooler (w : channel_spooler_t) (strategy : spooler_fetching_strategy_t) : outcome channel_spooler_t :=
  if running w then Crash   (* assert(0) *)
  else
    let zeroed := Spooler rbtree_init (delete current_msg_spool (spools w)) (subscribers w) (fetches w) [] (tags w)
      NCHAN_ZERO_MSGID (channel_status w) (channel_buffer_complete w) strategy true true false (next_addr w) (log w) in
    w1 ← init_spool zeroed current_msg_spool latest_msg_id;
    s ← get_pool w1 current_msg_spool;
    Ret (put_spool w1 current_msg_spool (set_status s MSG_EXPECTED)).

(** [for(cur = tree->root; cur != NULL && cur != sentinel; cur = tree->root)]. *)
Fixpoint stop_loop (fuel : nat) (w : channel_spooler_t) (dequeue_subscribers : bool) : outcome channel_spooler_t :=
  match tree (spoolseed w) with
  | Sentinel => Ret w
  | Node _ _ spool _ =>
      match fuel with
      | O => NoFuel
      | S fuel' =>
          w1 ← (if (dequeue_subscribers : bool) then destroy_spool w spool
                else w1 ← remove_spool w spool; Ret (destroy_node w1 spool));
          stop_loop fuel' w1 dequeue_subscribers
      end
  end.

(** [for(dcur = spl->fetchmsg_cb_data_list; ...) dcur->spooler = NULL]. *)
Fixpoint forget_fetches (fs : gmap positive fetchmsg_data_t) (l : list positive) : outcome (gmap positive fetchmsg_data_t) :=
  match l with
  | [] => Ret fs
  | d :: l' =>
      match fs !! d with
      | Some f => forget_fetches (<[d := Fetch false (fetch_msgid f)]> fs) l'
      | None => Crash
      end
  end.

Definition stop_spooler (w : channel_spooler_t) (dequeue_subscribers : bool) : outcome channel_spooler_t :=
  w1 ←
    (if running w then
       w1 ← stop_loop (length (inorder (tree (spoolseed w)))) w dequeue_subscribers;
       fs ← forget_fetches (fetches w1) (fetchmsg_cb_data_list w1);
       Ret (upd_fetches w1 fs (fetchmsg_cb_data_list w1))
     else Ret w);
  '(th, prev, _) ← nchan_free_msg_id (tags w1) (prev_msg_id w1);
  Ret (upd_flags (upd_prev (upd_tags w1 th) prev) false (want_to_stop w1)).
End spooler.
