(* ===== verification/SpoolWf.v ===== *)
(** * Well-formed spoolers

    The structural invariant of a channel's spooler with single-tag ids, and
    what the operations on spools and their subscribers do to it: answering,
    transferring, finding, creating, renaming and destroying a spool. *)

From stdpp Require Import sorting.
From S2P Require Import Prelude Nginx MsgId MsgIdFacts Msg ChanHead RbTree RbTreeFacts Spool.
Open Scope Z_scope.

(** ** Ids with one tag *)

Definition single (id : nchan_msg_id_t) : Prop :=
  tagcount id = 1 /\ exists v a b c, tag id = fixed [v; a; b; c].

Definition tag0 (id : nchan_msg_id_t) : Z :=
  match tag id with fixed (v :: _) => v | _ => 0 end.

(** Where a reader of a channel is: second, and tag within the second. *)
Definition pos (id : nchan_msg_id_t) : Z * Z := (time id, tag0 id).

(** Ids a spool of the tree may have: not one of the negative pseudo times. *)
Definition tree_id (id : nchan_msg_id_t) : Prop := single id /\ 0 <= time id < 2 ^ 32.

Definition mcmp (x y : nchan_msg_id_t) : Z := lexcmp [time x; tag0 x] [time y; tag0 y].

Lemma single_array th id : single id -> exists a b c, id_array th id = Ret [tag0 id; a; b; c].
Proof.
  intros (E & v & a & b & c & Et). unfold id_array, tag0. rewrite E, Et. simpl. eauto.
Qed.

Lemma single_fixed0 id : single id -> fixed0 id = Ret (tag0 id).
Proof. intros (E & v & a & b & c & Et). unfold fixed0, tag0. by rewrite Et. Qed.

Lemma single_compare th x y : single x -> single y -> spool_rbtree_compare th x y = Ret (mcmp x y).
Proof.
  intros Sx Sy. unfold spool_rbtree_compare, mcmp. simpl lexcmp.
  destruct (time y <? time x); [done|]. destruct (time x <? time y); [done|].
  destruct (single_array th x Sx) as (a & b & c & ->), (single_array th y Sy) as (a' & b' & c' & ->).
  rewrite !bind_Ret, (proj1 Sx), (proj1 Sy). simpl.
  destruct (tag0 y <? tag0 x); [done|]. by destruct (tag0 x <? tag0 y).
Qed.

Lemma mcmp_range x y : -1 <= mcmp x y <= 1.
Proof. unfold mcmp. simpl. repeat (destruct (_ <? _); [lia|]). lia. Qed.

#[export] Program Instance spool_order th : NodeOrder (spool_rbtree_compare th) tree_id := {| cmp := mcmp |}.
Next Obligation. intros th x y [Sx _] [Sy _]. by apply single_compare. Qed.
Next Obligation. intros. unfold mcmp. apply lexcmp_antisym. Qed.
Next Obligation.
  intros _ x y z. unfold mcmp. simpl.
  destruct (Z.ltb_spec (time y) (time x)), (Z.ltb_spec (time x) (time y)),
    (Z.ltb_spec (time z) (time y)), (Z.ltb_spec (time y) (time z)),
    (Z.ltb_spec (time z) (time x)), (Z.ltb_spec (time x) (time z)); try lia;
  destruct (Z.ltb_spec (tag0 y) (tag0 x)), (Z.ltb_spec (tag0 x) (tag0 y)),
    (Z.ltb_spec (tag0 z) (tag0 y)), (Z.ltb_spec (tag0 y) (tag0 z)),
    (Z.ltb_spec (tag0 z) (tag0 x)), (Z.ltb_spec (tag0 x) (tag0 z)); lia.
Qed.

Notation spool_idcmp th := (idcmp spool_rbtree_bucketer (spool_rbtree_compare th) tree_id).

(** On such ids the tree is ordered by position. *)
Lemma idcmp_pos th x y :
  tree_id x -> tree_id y ->
  (spool_idcmp th x y < 0 <-> lex_lt (pos x) (pos y)) /\ (spool_idcmp th x y = 0 <-> pos x = pos y).
Proof.
  intros [_ Rx] [_ Ry]. unfold idcmp, spool_rbtree_bucketer. rewrite !wrapu_small by done.
  simpl. unfold mcmp, lex_lt, pos. simpl.
  destruct (Z.ltb_spec (time x) (time y)), (Z.ltb_spec (time y) (time x)); try lia.
  - split; split; intros; simplify_eq; try lia.
  - split; split; intros; simplify_eq; try lia.
  - destruct (Z.ltb_spec (tag0 y) (tag0 x)), (Z.ltb_spec (tag0 x) (tag0 y));
      split; split; intros; simplify_eq; try lia. f_equal; lia.
Qed.

Global Instance lex_lt_dec a b : Decision (lex_lt a b).
Proof. unfold lex_lt. apply _. Defined.

(** Copying, updating and comparing them leaves the tag arrays alone. *)
Lemma single_copy_new th id new : single id -> nchan_copy_new_msg_id th id new = Ret (th, id, NGX_OK).
Proof. intros [E _]. unfold nchan_copy_new_msg_id. by rewrite E. Qed.

Lemma copy_msg_id_single th dst src lt new :
  tagcount dst <= 1 -> 0 <= tagcount dst -> single src ->
  nchan_copy_msg_id th dst src lt new = Ret (th, src, NGX_OK).
Proof.
  intros Hd Hd' [Es (v & a & b & c & Et)]. unfold nchan_copy_msg_id. rewrite Es.
  rewrite (wrapu_small 16 (tagcount dst)) by (unfold in_u; lia).
  destruct (Z.ltb_spec NCHAN_FIXED_MULTITAG_MAX (tagcount dst)); [unfold NCHAN_FIXED_MULTITAG_MAX in *; lia|].
  simpl. by destruct src; simpl in *; subst.
Qed.

Lemma single_free th id : single id -> nchan_free_msg_id th id = Ret (th, id, NGX_OK).
Proof. intros [E _]. unfold nchan_free_msg_id. by rewrite E. Qed.

Lemma single_update pw th x y lt new : single y -> nchan_update_multi_msgid pw th x y lt new = Ret (th, y).
Proof. intros [E _]. unfold nchan_update_multi_msgid. by rewrite E. Qed.

Lemma single_equal th x y : single x -> single y -> msg_ids_equal th x y = Ret (bool_decide (pos x = pos y)).
Proof.
  intros Sx Sy. unfold msg_ids_equal, id_tags, pos. pose proof Sx as [Ex _]. pose proof Sy as [Ey _].
  destruct (single_array th x Sx) as (a & b & c & ->), (single_array th y Sy) as (a' & b' & c' & ->).
  rewrite Ex, Ey, orb_false_r, !bind_Ret. destruct (Z.eqb_spec (time x) (time y)) as [Et|Et]; simpl.
  - f_equal. apply bool_decide_ext. rewrite Et. split; intros [= ->]; done.
  - f_equal. symmetry. apply bool_decide_eq_false. intros [=]. done.
Qed.

(** ** The invariant *)

Definition nodes (w : channel_spooler_t) : list positive := (inorder (tree (spoolseed w))).*2.

Definition tree_ordered (w : channel_spooler_t) (ids : list nchan_msg_id_t) : Prop :=
  ordered (spool_rbtree_node_id w) spool_rbtree_bucketer (spool_rbtree_compare (tags w)) tree_id
    (tree (spoolseed w)) ids.

(** The subscribers of a spool and the data of their dequeue callbacks refer
    to each other, and are counted. *)
Record pool_ok (w : channel_spooler_t) (p : positive) (s : subscriber_pool_t) : Prop := {
  po_reserved : sp_reserved s = 0;
  po_count : sp_sub_count s = Z.of_nat (length (first s));
  po_addrs : NoDup (ssub_addr <$> first s);
  po_fresh : forall x, x ∈ first s -> (ssub_addr x < next_addr w)%positive;
  po_subs : forall x, x ∈ first s -> exists sub, subscribers w !! ssub_sub x = Some sub /\
    dequeue_callback sub = Some (Cleanup (ssub_addr x) p);
}.

Record wf (w : channel_spooler_t) : Prop := {
  wf_tree : exists ids, tree_ordered w ids;
  wf_nodup : NoDup (nodes w);
  wf_dom : forall p, is_Some (spools w !! p) <-> p = current_msg_spool \/ p ∈ nodes w;
  wf_cur : current_msg_spool ∉ nodes w;
  wf_cur_id : forall s, spools w !! current_msg_spool = Some s -> sp_id s = latest_msg_id;
  wf_pool : forall p s, spools w !! p = Some s -> pool_ok w p s;
  wf_fresh : forall p, is_Some (spools w !! p) -> (p < next_addr w)%positive;
  wf_strategy : fetching_strategy w = NCHAN_SPOOL_FETCH;
  wf_ready : channel_status w = READY /\ channel_buffer_complete w = true;
  wf_running : running w = true /\ want_to_stop w = false;
  wf_size : Z.of_nat (size (subscribers w)) < 2 ^ 64;
}.

(** What only grows or stays. *)
Record same_config (w w' : channel_spooler_t) : Prop := {
  sc_status : channel_status w' = channel_status w;
  sc_complete : channel_buffer_complete w' = channel_buffer_complete w;
  sc_strategy : fetching_strategy w' = fetching_strategy w;
  sc_running : running w' = running w;
  sc_want : want_to_stop w' = want_to_stop w;
  sc_subs : dom (subscribers w') = dom (subscribers w);
  sc_prev : prev_msg_id w' = prev_msg_id w;
  sc_addr : (next_addr w <= next_addr w')%positive;
}.

Lemma same_config_refl w : same_config w w.
Proof. split; auto; lia. Qed.

Lemma same_config_trans w1 w2 w3 : same_config w1 w2 -> same_config w2 w3 -> same_config w1 w3.
Proof. intros [] []. split; try congruence. lia. Qed.

Lemma dom_size {A} (m m' : gmap positive A) : dom m' = dom m -> size m' = size m.
Proof. intros E. by rewrite <- !size_dom, E. Qed.

(** A subscriber waits in one spool only. *)
Lemma sub_unique w p q s s' x y :
  wf w -> spools w !! p = Some s -> spools w !! q = Some s' -> x ∈ first s -> y ∈ first s' ->
  ssub_sub x = ssub_sub y -> p = q /\ x = y.
Proof.
  intros W Hp Hq Hx Hy E. destruct (po_subs _ _ _ (wf_pool _ W _ _ Hp) _ Hx) as (a & Ea & Ca).
  destruct (po_subs _ _ _ (wf_pool _ W _ _ Hq) _ Hy) as (b & Eb & Cb).
  rewrite E in Ea. rewrite Ea in Eb. injection Eb as <-. rewrite Ca in Cb. injection Cb as E1 E2.
  split; [done|]. destruct x, y; simpl in *; congruence.
Qed.

Lemma first_nodup w p s : wf w -> spools w !! p = Some s -> NoDup (first s) /\ NoDup (ssub_sub <$> first s).
Proof.
  intros W Hp. pose proof (po_addrs _ _ _ (wf_pool _ W _ _ Hp)) as ND.
  assert (NoDup (first s)) as N1 by (by apply NoDup_fmap_1 in ND). split; [done|].
  apply NoDup_fmap_2_strong; [|done]. intros x y Hx Hy E.
  by destruct (sub_unique w p p s s x y W Hp Hp Hx Hy E).
Qed.

(** Counters do not wrap: there are fewer than 2^64 subscribers. *)
Lemma subs_bound w p s ts :
  wf w -> spools w !! p = Some s -> NoDup (ts ++ (ssub_sub <$> first s)) ->
  (forall t, t ∈ ts -> is_Some (subscribers w !! t)) ->
  Z.of_nat (length ts + length (first s)) < 2 ^ 64.
Proof.
  intros W Hp ND Ht. pose proof (wf_size _ W) as B.
  enough (length ts + length (first s) <= size (subscribers w))%nat by lia.
  rewrite <- (length_fmap ssub_sub), <- length_app, <- size_dom,
    <- (size_list_to_set (C := gset positive) _ ND).
  apply subseteq_size. intros x [Hx|Hx]%elem_of_list_to_set%elem_of_app; apply elem_of_dom; [auto|].
  apply list_elem_of_fmap in Hx as (y & -> & Hy).
  destruct (po_subs _ _ _ (wf_pool _ W _ _ Hp) _ Hy) as (sub & E & _). eauto.
Qed.

Lemma first_length w p s : wf w -> spools w !! p = Some s -> Z.of_nat (length (first s)) < 2 ^ 64.
Proof.
  intros W Hp. destruct (first_nodup w p s W Hp) as [_ ND].
  apply (subs_bound w p s [] W Hp); [done|]. by intros t ?%elem_of_nil.
Qed.

(** The order of the tree depends on the ids of its spools only. *)
Lemma tree_ordered_frame w w' ids :
  tree (spoolseed w') = tree (spoolseed w) ->
  (forall p, p ∈ nodes w -> sp_id <$> spools w' !! p = sp_id <$> spools w !! p) ->
  tree_ordered w ids -> tree_ordered w' ids.
Proof.
  intros Et Ei [F S]. unfold tree_ordered, ordered. rewrite Et. split; [|exact S].
  apply (Forall2_impl_in _ _ _ _ F). intros [k p] y Hin (Hy & Hok & Hk).
  split_and!; auto. cbn [snd] in *. unfold spool_rbtree_node_id, get_pool in *.
  assert (p ∈ nodes w) as Hp by (apply list_elem_of_fmap; exists (k, p); done).
  specialize (Ei p Hp). destruct (spools w !! p), (spools w' !! p); simplify_eq/=; inv_outcome.
  by rewrite Ei.
Qed.

(** Changing one spool, but not its id, and the subscribers it has. *)
Lemma wf_put w p s s' (subs' : gmap positive subscriber_t) es :
  let w' := emit (upd_subs (put_spool w p s') subs') es in
  wf w -> spools w !! p = Some s -> sp_id s' = sp_id s -> pool_ok w' p s' ->
  dom subs' = dom (subscribers w) ->
  (forall q sq x, q <> p -> spools w !! q = Some sq -> x ∈ first sq ->
     subs' !! ssub_sub x = subscribers w !! ssub_sub x) ->
  wf w'.
Proof.
  intros w' W Hp Hid Hok Hd Hs. destruct W. split; simpl; auto.
  - destruct wf_tree0 as [ids O]. exists ids. revert O. apply tree_ordered_frame; [done|].
    intros q Hq. simpl. destruct (decide (p = q)) as [<-|]; [|by rewrite lookup_insert_ne].
    by rewrite lookup_insert_eq, Hp; simpl; rewrite Hid.
  - intros q. change (is_Some (<[p := s']> (spools w) !! q) <-> q = current_msg_spool \/ q ∈ nodes w).
    rewrite <- wf_dom0. destruct (decide (p = q)) as [<-|]; [|by rewrite lookup_insert_ne].
    rewrite lookup_insert_eq, Hp. split; eauto.
  - intros s0. destruct (decide (p = current_msg_spool)) as [->|].
    + rewrite lookup_insert_eq. intros [= <-]. rewrite Hid. auto.
    + rewrite lookup_insert_ne by done. auto.
  - intros q sq. destruct (decide (p = q)) as [<-|Hq].
    + rewrite lookup_insert_eq. by intros [= <-].
    + rewrite lookup_insert_ne by done. intros Hsq. pose proof (wf_pool0 q sq Hsq) as []. split; auto.
      intros x Hx. destruct (po_subs0 x Hx) as (sub & E & C). exists sub. split; [|done]. simpl.
      by rewrite (Hs q sq x).
  - intros q. destruct (decide (p = q)) as [<-|]; [|by rewrite lookup_insert_ne; auto].
    intros _. apply wf_fresh0. eauto.
  - by rewrite (dom_size _ _ Hd).
Qed.

(** ** Answering and leaving *)

(** The messages a subscriber was sent. *)
Definition received (t : positive) (l : list spool_event) : list nchan_msg_t :=
  omap (fun e => match e with
                 | Responded t' (RespondMessage m) => if decide (t' = t) then Some m else None
                 | _ => None
                 end) l.

Lemma received_app t l k : received t (l ++ k) = received t l ++ received t k.
Proof. apply omap_app. Qed.

Definition silent (es : list spool_event) : Prop := forall t, received t es = [].

(** Only spools, subscribers and the log change. *)
Record only_subs (w w' : channel_spooler_t) : Prop := {
  os_seed : spoolseed w' = spoolseed w;
  os_fetches : fetches w' = fetches w;
  os_tags : tags w' = tags w;
  os_list : fetchmsg_cb_data_list w' = fetchmsg_cb_data_list w;
  os_config : same_config w w';
}.

Lemma only_subs_refl w : only_subs w w.
Proof. split; auto using same_config_refl. Qed.

Lemma only_subs_trans w1 w2 w3 : only_subs w1 w2 -> only_subs w2 w3 -> only_subs w1 w3.
Proof. intros [] []. split; try congruence. by eapply same_config_trans. Qed.

Section respond.
Context `{NgxRbtree positive} `{SubscriberFn} (handlers : channel_spooler_handlers_t).

Lemma u64_pred_nat (n : nat) : (0 < n)%nat -> Z.of_nat n < 2 ^ 64 -> u64 (Z.of_nat n - 1) = Z.of_nat (n - 1).
Proof. intros. rewrite wrapu_small; [lia|unfold in_u; lia]. Qed.

Lemma filter_ne_length (x : spooled_subscriber_t) l :
  NoDup l -> x ∈ l -> length (filter (fun y => y <> x) l) = (length l - 1)%nat.
Proof.
  intros ND Hx. apply list_elem_of_split in Hx as (l1 & l2 & ->).
  apply NoDup_app in ND as (_ & D & [N2 _]%NoDup_cons).
  rewrite filter_app, filter_cons_False, length_app, length_app by auto. simpl.
  rewrite (filter_all _ l1), (filter_all _ l2); [lia|by intros y Hy ->|].
  intros y Hy ->. apply (D x Hy). by apply elem_of_cons; left.
Qed.

Lemma find_ssub_in (l : list spooled_subscriber_t) x :
  NoDup (ssub_addr <$> l) -> x ∈ l -> find_ssub l (ssub_addr x) = Some x.
Proof.
  intros ND Hx. unfold find_ssub.
  destruct (list_find (fun y => ssub_addr y = ssub_addr x) l) as [[i y]|] eqn:E; simpl.
  - apply list_find_Some in E as (Hi & Ey & _). apply list_elem_of_lookup in Hx as [j Hj].
    enough (i = j) by (subst; congruence).
    eapply (NoDup_lookup _ _ _ (ssub_addr x) ND); rewrite list_lookup_fmap; [by rewrite Hi; simpl; rewrite Ey|by rewrite Hj].
  - apply list_find_None in E. rewrite Forall_forall in E. by destruct (E x Hx).
Qed.

(** A subscriber takes itself out of its spool. *)
Lemma sub_dequeue_spec w p s x :
  wf w -> spools w !! p = Some s -> x ∈ first s ->
  exists w' ni, sub_dequeue handlers w (ssub_sub x) = Ret w' /\ wf w' /\ only_subs w w' /\
    spools w' = <[p := set_subs s (filter (fun y => y <> x) (first s))
                         (Z.of_nat (length (filter (fun y => y <> x) (first s)))) ni]> (spools w) /\
    (forall t, t <> ssub_sub x -> subscribers w' !! t = subscribers w !! t) /\
    (exists es, log w' = log w ++ es /\ silent es).
Proof.
  intros W Hp Hx. pose proof (wf_pool _ W _ _ Hp) as K.
  destruct (po_subs _ _ _ K _ Hx) as (sub & Esub & Cb).
  destruct (first_nodup _ _ _ W Hp) as [ND NDs].
  pose proof (first_length _ _ _ W Hp) as Hlen.
  assert (0 < length (first s))%nat as Hpos by (destruct (first s); [by apply elem_of_nil in Hx|simpl; lia]).
  set (l' := filter (fun y => y <> x) (first s)).
  assert (u64 (sp_sub_count s - 1) = Z.of_nat (length l')) as Ecount.
  { rewrite (po_count _ _ _ K), u64_pred_nat by lia. subst l'. by rewrite filter_ne_length. }
  set (ni := if sub_internal sub then non_internal_sub_count s else u64 (non_internal_sub_count s - 1)).
  set (s' := set_subs s l' (Z.of_nat (length l')) ni).
  set (subs' := <[ssub_sub x := set_callback sub None]> (subscribers w)).
  set (es := (if h_dequeue handlers then [HandlerDequeue (ssub_sub x)]
              else if h_bulk_dequeue handlers then [HandlerBulkDequeue (sub_internal sub) 1] else [])
             ++ (if negb (sub_internal sub) && publish_events w then [SubDequeueEvent (ssub_sub x)] else [])).
  exists (emit (upd_subs (put_spool w p s') subs') es), ni. split_and!.
  - unfold sub_dequeue, get_sub. rewrite Esub, bind_Ret, Cb.
    unfold spool_sub_dequeue_callback, get_pool, get_sub. cbn [cleanup_spool cleanup_ssub].
    rewrite Hp, Esub, !bind_Ret, find_ssub_in by (done || apply K).
    rewrite bool_decide_eq_true_2 by done. cbn [c_assert]. rewrite bind_Ret.
    unfold spool_remove_subscriber, get_pool, get_sub. rewrite Hp, Esub, !bind_Ret, decide_True by done.
    rewrite (proj2 (Z.ltb_lt _ _)) by (rewrite (po_count _ _ _ K); lia). cbn [c_assert]. rewrite !bind_Ret.
    fold l'. rewrite Ecount. fold ni. fold s'. unfold spool_bubbleup_dequeue_handler. subst es.
    destruct (h_dequeue handlers), (h_bulk_dequeue handlers), (negb (sub_internal sub)), (publish_events w) eqn:Ev;
      simpl; rewrite ?Ev; simpl; rewrite ?Ev; unfold emit, upd_subs, put_spool, upd_spools; simpl;
      rewrite Esub; simpl; rewrite ?app_nil_r, <- ?app_assoc; reflexivity.
  - apply (wf_put w p s); auto.
    + destruct K. split; simpl; auto.
      * by apply NoDup_fmap_filter.
      * intros y [_ Hy]%list_elem_of_filter. auto.
      * intros y [Ny Hy]%list_elem_of_filter. destruct (po_subs0 y Hy) as (sy & Ey & Cy).
        exists sy. split; [|done]. subst subs'. rewrite lookup_insert_ne; [done|]. intros E.
        apply Ny. by destruct (sub_unique w p p s s y x W Hp Hp Hy Hx (eq_sym E)).
    + subst subs'. apply dom_insert_lookup_L. eauto.
    + intros q sq y Hq Hsq Hy. subst subs'. rewrite lookup_insert_ne; [done|]. intros E.
      by destruct (sub_unique w p q s sq x y W Hp Hsq Hx Hy E).
  - do 2 (split; simpl; auto; try lia). subst subs'. apply dom_insert_lookup_L. eauto.
  - done.
  - intros t Ht. simpl. subst subs'. by rewrite lookup_insert_ne.
  - exists es. split; [done|]. intros t. subst es. rewrite received_app.
    destruct (h_dequeue handlers), (h_bulk_dequeue handlers), (_ && _); done.
Qed.

Lemma wf_emit w es : wf w -> wf (emit w es).
Proof.
  intros []. split; auto. intros p s Hs. destruct (wf_pool0 p s Hs). by split.
Qed.

Lemma set_subs_id w p s :
  pool_ok w p s -> set_subs s (first s) (Z.of_nat (length (first s))) (non_internal_sub_count s) = s.
Proof. intros K. rewrite <- (po_count _ _ _ K). by destruct s. Qed.

(** What a response adds to what a subscriber received. *)
Definition sent (r : response) : list nchan_msg_t :=
  match r with RespondMessage m => [m] | _ => [] end.

Lemma received_responded t t' r :
  received t [Responded t' r] = if decide (t' = t) then sent r else [].
Proof. destruct r; simpl; by destruct (decide (t' = t)). Qed.

(** The subscribers of [xs] were answered [r], and nobody else anything. *)
Definition answered (w w' : channel_spooler_t) (xs : list positive) (r : response) : Prop :=
  forall t, received t (log w') = received t (log w) ++ (if decide (t ∈ xs) then sent r else []).

Lemma sub_respond_spec w p s x r :
  wf w -> spools w !! p = Some s -> x ∈ first s ->
  exists w' l ni, sub_respond handlers w (ssub_sub x) r = Ret w' /\ wf w' /\ only_subs w w' /\
    spools w' = <[p := set_subs s l (Z.of_nat (length l)) ni]> (spools w) /\
    (forall y, y ∈ l -> y ∈ first s) /\ (forall y, y ∈ first s -> y <> x -> y ∈ l) /\
    (forall t, t <> ssub_sub x -> subscribers w' !! t = subscribers w !! t) /\
    answered w w' [ssub_sub x] r.
Proof.
  intros W Hp Hx. pose proof (wf_pool _ W _ _ Hp) as K.
  destruct (po_subs _ _ _ K _ Hx) as (sub & Esub & Cb).
  unfold sub_respond, get_sub. rewrite Esub, bind_Ret.
  set (w1 := emit w [Responded (ssub_sub x) r]).
  assert (answered w w1 [ssub_sub x] r) as A1.
  { intros t. unfold w1. simpl log. rewrite received_app, received_responded. f_equal.
    destruct (decide (ssub_sub x = t)), (decide (t ∈ [ssub_sub x])); set_solver. }
  assert (only_subs w w1) as O1 by (do 2 (split; simpl; auto; try lia)).
  destruct (sub_leaves sub r).
  - destruct (sub_dequeue_spec w1 p s x (wf_emit _ _ W) Hp Hx) as (w' & ni & -> & W' & O' & Es & Et & es & El & Si).
    exists w', (filter (fun y => y <> x) (first s)), ni. split_and!; auto.
    + by eapply only_subs_trans.
    + by intros y [_ Hy]%list_elem_of_filter.
    + intros y Hy Ny. by apply list_elem_of_filter.
    + intros t. rewrite El, received_app, Si, app_nil_r. apply A1.
  - exists w1, (first s), (non_internal_sub_count s). split_and!; auto.
    + by apply wf_emit.
    + simpl. rewrite insert_id; [done|]. by rewrite (set_subs_id _ _ _ K).
Qed.

(** Every subscriber of a spool is answered once. *)
Lemma respond_loop_spec r xs w p s :
  wf w -> spools w !! p = Some s -> (forall x, x ∈ xs -> x ∈ first s) -> NoDup xs ->
  exists w' l ni, respond_loop handlers w xs r = Ret w' /\ wf w' /\ only_subs w w' /\
    spools w' = <[p := set_subs s l (Z.of_nat (length l)) ni]> (spools w) /\
    (forall y, y ∈ l -> y ∈ first s) /\
    (forall t, t ∉ ssub_sub <$> xs -> subscribers w' !! t = subscribers w !! t) /\
    answered w w' (ssub_sub <$> xs) r.
Proof.
  revert w s. induction xs as [|x xs IH]; intros w s W Hp Hxs ND.
  { exists w, (first s), (non_internal_sub_count s). pose proof (wf_pool _ W _ _ Hp) as K.
    split_and!; auto.
    - apply only_subs_refl.
    - rewrite insert_id; [done|]. by rewrite (set_subs_id _ _ _ K).
    - intros t. rewrite decide_False by (simpl; apply not_elem_of_nil). by rewrite app_nil_r. }
  apply NoDup_cons in ND as [Nx ND].
  assert (x ∈ first s) as Hx by (apply Hxs; by apply elem_of_cons; left).
  destruct (sub_respond_spec w p s x r W Hp Hx) as (w1 & l1 & ni1 & E1 & W1 & O1 & Es1 & L1 & L1' & T1 & A1).
  assert (spools w1 !! p = Some (set_subs s l1 (Z.of_nat (length l1)) ni1)) as Hp1
    by (by rewrite Es1, lookup_insert_eq).
  destruct (IH w1 _ W1 Hp1) as (w2 & l2 & ni2 & E2 & W2 & O2 & Es2 & L2 & T2 & A2); [|done|].
  { intros y Hy. apply L1'; [apply Hxs; by apply elem_of_cons; right|congruence]. }
  exists w2, l2, ni2. split_and!; auto.
  - simpl. by rewrite E1, bind_Ret.
  - by eapply only_subs_trans.
  - rewrite Es2, Es1, insert_insert_eq. done.
  - intros t Ht. simpl in Ht. rewrite T2, T1; set_solver.
  - intros t. rewrite (A2 t), (A1 t), <- app_assoc. f_equal.
    assert (x ∈ first s -> ssub_sub x ∉ ssub_sub <$> xs) as Hd.
    { intros _ (y & E & Hy)%list_elem_of_fmap. assert (x = y) as ->; [|done].
      eapply (sub_unique w p p s s); eauto. apply Hxs. by apply elem_of_cons; right. }
    specialize (Hd Hx). rewrite fmap_cons.
    destruct (decide (t ∈ [ssub_sub x])), (decide (t ∈ ssub_sub <$> xs)),
      (decide (t ∈ ssub_sub x :: (ssub_sub <$> xs))); rewrite ?app_nil_r; set_solver.
Qed.

Lemma respond_general_spec w p s msg code notice :
  wf w -> spools w !! p = Some s ->
  exists w' l ni, spool_respond_general handlers w p msg code notice = Ret w' /\ wf w' /\ only_subs w w' /\
    spools w' = <[p := set_subs s l (Z.of_nat (length l)) ni]> (spools w) /\
    (forall y, y ∈ l -> y ∈ first s) /\
    (forall t, t ∉ ssub_sub <$> first s -> subscribers w' !! t = subscribers w !! t) /\
    answered w w' (ssub_sub <$> first s) (match msg with
                                          | Some m => RespondMessage m
                                          | None => if notice then Notify code else RespondStatus code
                                          end).
Proof.
  intros W Hp. unfold spool_respond_general, get_pool. rewrite Hp, bind_Ret.
  apply respond_loop_spec; auto. apply (first_nodup _ _ _ W Hp).
Qed.

(** *** Adding and moving subscribers *)

Lemma get_pool_Some w p s : spools w !! p = Some s -> get_pool w p = Ret s.
Proof. unfold get_pool. by intros ->. Qed.
Lemma get_sub_Some w t x : subscribers w !! t = Some x -> get_sub w t = Ret x.
Proof. unfold get_sub. by intros ->. Qed.

Definition nowhere (w : channel_spooler_t) (t : positive) : Prop :=
  forall p s x, spools w !! p = Some s -> x ∈ first s -> ssub_sub x <> t.

Lemma wf_alloc w : wf w -> wf (ngx_alloc w).2.
Proof.
  intros []. split; auto.
  - intros p s Hs. destruct (wf_pool0 p s Hs). split; auto.
    intros x Hx. specialize (po_fresh0 x Hx). simpl. lia.
  - intros p Hp. specialize (wf_fresh0 p Hp). simpl. lia.
Qed.

(** The state in which a subscriber has been put at the head of a spool. *)
Definition add_state (w : channel_spooler_t) (q : positive) (sq : subscriber_pool_t) (t : positive) (sub : subscriber_t)
    (es : list spool_event) : channel_spooler_t :=
  let w1 := (ngx_alloc w).2 in
  emit (upd_subs
    (put_spool w1 q
       (set_subs sq (SSub (next_addr w) t :: first sq) (Z.of_nat (S (length (first sq))))
          (if sub_internal sub then non_internal_sub_count sq else u64 (non_internal_sub_count sq + 1))))
    (<[t := set_callback sub (Some (Cleanup (next_addr w) q))]> (subscribers w))) es.

Lemma add_state_wf w q sq t sub es :
  wf w -> spools w !! q = Some sq -> subscribers w !! t = Some sub -> nowhere w t ->
  wf (add_state w q sq t sub es).
Proof.
  intros W Hq Ht Nt. pose proof (wf_pool _ W _ _ Hq) as K.
  apply (wf_put _ q sq); auto; [by apply wf_alloc| | |].
  - destruct K. split; cbn [first set_subs sp_reserved sp_sub_count]; auto.
    + rewrite fmap_cons. apply NoDup_cons. split; [|done]. cbn [ssub_addr].
      intros (y & E & Hy)%list_elem_of_fmap. specialize (po_fresh0 y Hy). lia.
    + intros x [->|Hx]%elem_of_cons; cbn; [lia|]. specialize (po_fresh0 x Hx). lia.
    + intros x [->|Hx]%elem_of_cons; cbn.
      * rewrite lookup_insert_eq. eauto.
      * rewrite lookup_insert_ne; [auto|]. intros E. exact (Nt q sq x Hq Hx (eq_sym E)).
  - apply dom_insert_lookup_L. eauto.
  - intros q' sq' x Hq' Hsq' Hx. cbn. rewrite lookup_insert_ne; [done|]. intros E.
    exact (Nt q' sq' x Hsq' Hx (eq_sym E)).
Qed.

Lemma add_count w q sq t :
  wf w -> spools w !! q = Some sq -> is_Some (subscribers w !! t) -> nowhere w t ->
  u64 (sp_sub_count sq + 1) = Z.of_nat (S (length (first sq))).
Proof.
  intros W Hq Ht Nt. rewrite (po_count _ _ _ (wf_pool _ W _ _ Hq)), wrapu_small; [lia|].
  pose proof (subs_bound w q sq [t] W Hq) as B. simpl in B. unfold in_u.
  enough (Z.of_nat (S (length (first sq))) < 2 ^ 64) by lia. apply B.
  - apply NoDup_cons. split; [|apply (first_nodup _ _ _ W Hq)].
    intros (y & E & Hy)%list_elem_of_fmap. exact (Nt q sq y Hq Hy (eq_sym E)).
  - by intros t' ->%list_elem_of_singleton.
Qed.

(** A subscriber joins a spool; [enqueue] is false when it is only moved. *)
Lemma add_subscriber_spec w q sq t sub enq :
  wf w -> spools w !! q = Some sq -> subscribers w !! t = Some sub -> nowhere w t ->
  (enq = true -> sub_enqueue sub = NGX_OK) ->
  exists es, spool_add_subscriber w q t enq = Ret (add_state w q sq t sub es, NGX_OK) /\ silent es /\
    (enq = false -> es = []) /\ wf (add_state w q sq t sub es).
Proof.
  intros W Hq Ht Nt He.
  exists (if enq && (negb (sub_internal sub) && publish_events w) then [SubEnqueueEvent t] else []).
  split_and!.
  - unfold spool_add_subscriber, get_pool, get_sub. simpl. rewrite Hq, Ht, !bind_Ret.
    rewrite (add_count w q sq t W Hq (ex_intro _ _ Ht) Nt).
    destruct enq; [rewrite He by done|]; cbn; unfold add_state.
    + destruct (negb (sub_internal sub)), (publish_events w) eqn:Ev; unfold emit, upd_subs, put_spool, upd_spools;
        cbn; rewrite ?Ev, ?app_nil_r; reflexivity.
    + unfold emit. cbn. by rewrite app_nil_r.
  - by destruct enq, (negb (sub_internal sub)), (publish_events w).
  - by intros ->.
  - by apply add_state_wf.
Qed.

Lemma remove_subscriber_spec w p s x :
  wf w -> spools w !! p = Some s -> x ∈ first s ->
  exists ni sub, subscribers w !! ssub_sub x = Some sub /\
    let s' := set_subs s (filter (fun y => y <> x) (first s))
                (Z.of_nat (length (filter (fun y => y <> x) (first s)))) ni in
    spool_remove_subscriber w p x = Ret (put_spool w p s') /\ wf (put_spool w p s') /\
    nowhere (put_spool w p s') (ssub_sub x).
Proof.
  intros W Hp Hx. pose proof (wf_pool _ W _ _ Hp) as K.
  destruct (po_subs _ _ _ K _ Hx) as (sub & Esub & Cb).
  destruct (first_nodup _ _ _ W Hp) as [ND NDs]. pose proof (first_length _ _ _ W Hp) as Hlen.
  assert (0 < length (first s))%nat as Hpos by (destruct (first s); [by apply elem_of_nil in Hx|simpl; lia]).
  exists (if sub_internal sub then non_internal_sub_count s else u64 (non_internal_sub_count s - 1)), sub.
  split; [done|]. intros s'. split_and!.
  - unfold spool_remove_subscriber, get_pool, get_sub. rewrite Hp, Esub, !bind_Ret, decide_True by done.
    rewrite (po_count _ _ _ K), (proj2 (Z.ltb_lt _ _)), u64_pred_nat by lia. cbn [c_assert]. rewrite bind_Ret.
    by rewrite <- (filter_ne_length x (first s)).
  - assert (wf (emit (upd_subs (put_spool w p s') (subscribers w)) [])) as W'.
    { apply (wf_put w p s); auto. destruct K. split; simpl; auto.
      - by apply NoDup_fmap_filter.
      - intros y [_ Hy]%list_elem_of_filter. auto.
      - intros y [_ Hy]%list_elem_of_filter. destruct (po_subs0 y Hy) as (sy & Ey & Cy). eauto. }
    destruct W'. split; auto. intros q sq Hsq. destruct (wf_pool0 q sq Hsq). by split.
  - intros q sq y. simpl. destruct (decide (p = q)) as [<-|Hq].
    + rewrite lookup_insert_eq. intros [= <-] [Ny Hy]%list_elem_of_filter E. apply Ny.
      by destruct (sub_unique w p p s s y x W Hp Hp Hy Hx E).
    + rewrite lookup_insert_ne by done. intros Hsq Hy E. apply Hq.
      by destruct (sub_unique w q p sq s y x W Hsq Hp Hy Hx E).
Qed.

(** [set_last_msgid] of a subscriber. *)
Lemma wf_set_last w t sub i :
  wf w -> subscribers w !! t = Some sub -> wf (upd_subs w (<[t := set_last_msgid sub i]> (subscribers w))).
Proof.
  intros W Ht. pose proof W as []. split; auto.
  - intros p s Hs. destruct (wf_pool0 p s Hs). split; auto. intros x Hx.
    destruct (po_subs0 x Hx) as (sx & Ex & Cx). simpl. destruct (decide (t = ssub_sub x)) as [->|].
    + rewrite lookup_insert_eq. rewrite Ht in Ex. injection Ex as ->. eexists. split; [done|]. by destruct sx.
    + rewrite lookup_insert_ne by done. eauto.
  - simpl. rewrite (dom_size (subscribers w)); [done|]. apply dom_insert_lookup_L. eauto.
Qed.

(** All subscribers of one spool are moved to another. *)
Lemma transfer_loop_spec fuel w p q s sq upd c :
  p <> q -> wf w -> spools w !! p = Some s -> spools w !! q = Some sq -> (length (first s) < fuel)%nat ->
  exists w' c' l ni ni', transfer_loop fuel w p q upd c = Ret (w', c') /\ wf w' /\ only_subs w w' /\
    spools w' = <[p := set_subs s [] 0 ni]> (<[q := set_subs sq l (Z.of_nat (length l)) ni']> (spools w)) /\
    (forall t, t ∈ ssub_sub <$> l <-> t ∈ ssub_sub <$> first s \/ t ∈ ssub_sub <$> first sq) /\ log w' = log w.
Proof.
  intros Hpq. revert w s sq c. induction fuel as [|fuel IH]; intros w s sq c W Hp Hq Hf; [lia|].
  cbn [transfer_loop]. rewrite (get_pool_Some _ _ _ Hp), bind_Ret.
  destruct (first s) as [|cur rest] eqn:Ef.
  { exists w, c, (first sq), (non_internal_sub_count s), (non_internal_sub_count sq).
    pose proof (wf_pool _ W _ _ Hp) as K. pose proof (wf_pool _ W _ _ Hq) as K'. split_and!; auto.
    - apply only_subs_refl.
    - rewrite (set_subs_id _ _ _ K'), (insert_id _ q) by done.
      pose proof (set_subs_id _ _ _ K) as E. rewrite Ef in E.
      change (set_subs s [] 0 (non_internal_sub_count s) = s) in E. rewrite E. by rewrite insert_id.
    - intros t. simpl. split; [auto|]. intros [?%elem_of_nil|]; [done|auto]. }
  assert (cur ∈ first s) as Hcur by (rewrite Ef; by apply elem_of_cons; left).
  destruct (remove_subscriber_spec w p s cur W Hp Hcur) as (ni & sub & Esub & -> & W1 & N1).
  set (l1 := filter (fun y => y <> cur) (first s)) in *.
  set (w1 := put_spool w p (set_subs s l1 (Z.of_nat (length l1)) ni)) in *. rewrite bind_Ret.
  assert (spools w1 !! q = Some sq) as Hq1 by (simpl; by rewrite lookup_insert_ne).
  rewrite (get_pool_Some _ _ _ Hq1), bind_Ret, (get_sub_Some w1 _ _ Esub), bind_Ret.
  set (sub' := if (upd : bool) then set_last_msgid sub (sp_id sq) else sub).
  set (w2 := if (upd : bool) then upd_subs w1 (<[ssub_sub cur := set_last_msgid sub (sp_id sq)]> (subscribers w1)) else w1).
  assert (wf w2 /\ subscribers w2 !! ssub_sub cur = Some sub' /\ only_subs w w2 /\ spools w2 = spools w1 /\
    log w2 = log w) as (W2 & Es2 & O2 & Ew2 & El2).
  { subst w2 sub'. destruct upd; split_and!; auto.
    - by apply (wf_set_last w1).
    - simpl. by rewrite lookup_insert_eq.
    - do 2 (split; simpl; auto; try lia). apply dom_insert_lookup_L. eauto.
    - do 2 (split; simpl; auto; try lia). }
  assert (nowhere w2 (ssub_sub cur)) as N2.
  { intros p' s' x. rewrite Ew2. apply N1. }
  assert (spools w2 !! q = Some sq) as Hq2 by (by rewrite Ew2).
  destruct (add_subscriber_spec w2 q sq (ssub_sub cur) sub' false W2 Hq2 Es2 N2 ltac:(done))
    as (es & -> & _ & Ees & W3). rewrite bind_Ret. specialize (Ees eq_refl). subst es.
  set (w3 := add_state w2 q sq (ssub_sub cur) sub' []) in *.
  assert (only_subs w w3) as O3.
  { eapply only_subs_trans; [exact O2|]. do 2 (split; simpl; auto; try lia). apply dom_insert_lookup_L. eauto. }
  destruct (first_nodup _ _ _ W Hp) as [ND _].
  assert (length l1 < fuel)%nat as Hlen.
  { subst l1. rewrite filter_ne_length by done. rewrite Ef. simpl in *. lia. }
  set (s1 := set_subs s l1 (Z.of_nat (length l1)) ni) in *.
  assert (spools w3 !! p = Some s1) as Hp3.
  { simpl. rewrite lookup_insert_ne by done. rewrite Ew2. simpl. by rewrite lookup_insert_eq. }
  assert (exists ni2, spools w3 !! q = Some (set_subs sq (SSub (next_addr w2) (ssub_sub cur) :: first sq)
            (Z.of_nat (S (length (first sq)))) ni2) /\ spools w3 = <[q := set_subs sq (SSub (next_addr w2) (ssub_sub cur) :: first sq)
            (Z.of_nat (S (length (first sq)))) ni2]> (<[p := s1]> (spools w))) as (ni2 & Hq3 & Ew3).
  { eexists. simpl. rewrite lookup_insert_eq. split; [done|]. by rewrite Ew2. }
  destruct (IH w3 s1 _ (c + 1) W3 Hp3 Hq3 Hlen) as (w4 & c4 & l & na & nb & E4 & W4 & O4 & Ew4 & El & Elog).
  exists w4, c4, l, na, nb. split_and!; auto.
  - by eapply only_subs_trans.
  - rewrite Ew4, Ew3, insert_insert_eq, (insert_insert_ne (spools w) q p) by done.
    rewrite insert_insert_eq. done.
  - intros t. rewrite El. subst s1. cbn [first set_subs]. rewrite !fmap_cons, !elem_of_cons. cbn [ssub_sub].
    assert (t ∈ ssub_sub <$> l1 <-> t ∈ ssub_sub <$> rest) as ->.
    { rewrite !list_elem_of_fmap. pose proof ND as ND'. rewrite Ef in ND'. apply NoDup_cons in ND' as [Nc _].
      split; intros (y & -> & Hy); exists y; split; auto.
      - apply list_elem_of_filter in Hy as [Ny Hy]. rewrite Ef in Hy.
        by apply elem_of_cons in Hy as [->|Hy].
      - apply list_elem_of_filter. rewrite Ef. split; [|by apply elem_of_cons; right]. by intros ->. }
    tauto.
  - rewrite Elog. simpl. rewrite El2. by rewrite app_nil_r.
Qed.

Lemma transfer_spec w p q s sq upd :
  p <> q -> wf w -> spools w !! p = Some s -> spools w !! q = Some sq ->
  exists w' c' l ni ni', spool_transfer_subscribers w p q upd = Ret (w', c') /\ wf w' /\ only_subs w w' /\
    spools w' = <[p := set_subs s [] 0 ni]> (<[q := set_subs sq l (Z.of_nat (length l)) ni']> (spools w)) /\
    (forall t, t ∈ ssub_sub <$> l <-> t ∈ ssub_sub <$> first s \/ t ∈ ssub_sub <$> first sq) /\ log w' = log w.
Proof.
  intros Hpq W Hp Hq. unfold spool_transfer_subscribers. rewrite (get_pool_Some _ _ _ Hp), bind_Ret.
  apply transfer_loop_spec; auto.
Qed.

(** ** Finding, creating, renaming and destroying spools *)

Lemma node_id_Ret w p x : spool_rbtree_node_id w p = Ret x <-> exists s, spools w !! p = Some s /\ x = sp_id s.
Proof.
  unfold spool_rbtree_node_id, get_pool. destruct (spools w !! p) as [s|]; simpl.
  - split; [intros [= <-]; eauto|]. by intros (? & [= <-] & ->).
  - split; [done|]. by intros (? & ? & _).
Qed.

Lemma node_lookup w p : wf w -> p ∈ nodes w -> exists s, spools w !! p = Some s /\ tree_id (sp_id s).
Proof.
  intros W Hp. destruct (wf_tree _ W) as [ids [F _]].
  apply list_elem_of_fmap in Hp as ([k p'] & -> & Hin). apply list_elem_of_lookup in Hin as [i Hi].
  destruct (Forall2_lookup_l _ _ _ _ _ F Hi) as (x & _ & Hx & Ok & _). cbn [snd] in *.
  apply node_id_Ret in Hx as (s & Hs & ->). eauto.
Qed.

Lemma node_in_ids w ids p s :
  tree_ordered w ids -> p ∈ nodes w -> spools w !! p = Some s -> sp_id s ∈ ids.
Proof.
  intros [F _] Hp Hs. apply list_elem_of_fmap in Hp as ([k p'] & -> & Hin).
  apply list_elem_of_lookup in Hin as [i Hi].
  destruct (Forall2_lookup_l _ _ _ _ _ F Hi) as (x & Hx & Ex & _). cbn [snd] in *.
  apply node_id_Ret in Ex as (s' & Hs' & ->). rewrite Hs in Hs'. injection Hs' as <-. by eapply list_elem_of_lookup_2.
Qed.

Lemma ids_ok w ids x : tree_ordered w ids -> x ∈ ids -> tree_id x.
Proof.
  intros [F _] Hx. apply list_elem_of_lookup in Hx as [i Hi].
  destruct (Forall2_lookup_r _ _ _ _ _ F Hi) as (n & _ & _ & Ok & _). done.
Qed.

Lemma find_node_spec w id :
  wf w -> tree_id id ->
  exists r, rbtree_find_node (spool_rbtree_node_id w) spool_rbtree_bucketer (spool_rbtree_compare (tags w))
              (spoolseed w) id = Ret r /\
    match r with
    | Some p => p ∈ nodes w /\ exists s, spools w !! p = Some s /\ pos (sp_id s) = pos id
    | None => forall p s, p ∈ nodes w -> spools w !! p = Some s -> pos (sp_id s) <> pos id
    end.
Proof.
  intros W Hid. destruct (wf_tree _ W) as [ids O]. unfold rbtree_find_node.
  destruct (find_spec _ _ _ _ _ _ _ O Hid) as [(p & x & -> & Hin & Hx & Ok & _ & C)|[-> N]]; eexists; split; eauto.
  - split; [apply list_elem_of_fmap; by exists (spool_rbtree_bucketer x, p)|].
    apply node_id_Ret in Hx as (s & Hs & ->). exists s. split; [done|]. symmetry. by apply (idcmp_pos (tags w)).
  - intros p s Hp Hs E. apply (N (sp_id s)); [by eapply node_in_ids|].
    apply (idcmp_pos (tags w)); [done| |done].
    destruct (node_lookup w p W Hp) as (s' & Hs' & Ok). rewrite Hs in Hs'. by injection Hs' as <-.
Qed.

(** Two spools of the tree have different ids. *)
Lemma node_pos_inj w p q s s' :
  wf w -> p ∈ nodes w -> q ∈ nodes w -> spools w !! p = Some s -> spools w !! q = Some s' ->
  pos (sp_id s) = pos (sp_id s') -> p = q.
Proof.
  intros W Hp Hq Hs Hs' E. destruct (wf_tree _ W) as [ids O].
  destruct (node_lookup w p W Hp) as (a & Ea & Oa), (node_lookup w q W Hq) as (b & Eb & Ob).
  rewrite Hs in Ea. rewrite Hs' in Eb. injection Ea as <-. injection Eb as <-.
  assert (forall p s, p ∈ nodes w -> spools w !! p = Some s -> (spool_rbtree_bucketer (sp_id s), p) ∈ inorder (tree (spoolseed w)))
    as Hin.
  { intros r sr Hr Hsr. pose proof O as [F _].
    apply list_elem_of_fmap in Hr as ([k r'] & -> & Hr). cbn [snd] in *. pose proof Hr as Hr'.
    apply list_elem_of_lookup in Hr' as [i Hi].
    destruct (Forall2_lookup_l _ _ _ _ _ F Hi) as (x & _ & Ex & _ & Kx). cbn [fst snd] in *.
    apply node_id_Ret in Ex as (s'' & Hs'' & ->). rewrite Hsr in Hs''. injection Hs'' as <-. by subst k. }
  eapply (ordered_unique _ _ _ _ _ _ (sp_id s) _ _ (sp_id s) (sp_id s') O); eauto.
  - apply node_id_Ret; eauto.
  - apply node_id_Ret; eauto.
  - by apply (idcmp_pos (tags w)).
  - by apply (idcmp_pos (tags w)).
Qed.

(** Filing a spool under its id. *)
Lemma tree_insert_spec v ids p s :
  tree_ordered v ids -> spools v !! p = Some s -> tree_id (sp_id s) ->
  (forall x, x ∈ ids -> pos (sp_id s) <> pos x) ->
  exists seed', tree_insert v p = Ret (upd_seed v seed') /\ (exists ids', tree_ordered (upd_seed v seed') ids') /\
    nodes (upd_seed v seed') ≡ₚ p :: nodes v.
Proof.
  intros O Hp Hid N.
  destruct (insert_node_spec (spool_rbtree_node_id v) spool_rbtree_bucketer (spool_rbtree_compare (tags v)) tree_id
    (spoolseed v) ids p (sp_id s) O) as (seed' & i1 & i2 & E & _ & O' & P & _).
  - apply node_id_Ret; eauto.
  - done.
  - intros x Hx C. apply (idcmp_pos (tags v)) in C; [by apply (N x)|done|by eapply ids_ok].
  - exists seed'. unfold tree_insert. rewrite E, bind_Ret. split_and!; eauto.
    unfold nodes. simpl. by rewrite P.
Qed.

Lemma tree_remove_spec w p s :
  wf w -> p ∈ nodes w -> spools w !! p = Some s ->
  exists w1, tree_remove w p = Ret w1 /\ w1 = upd_seed w (rbtree_remove_node (spoolseed w) p) /\
    (exists ids, tree_ordered w1 ids /\ forall x, x ∈ ids -> pos x <> pos (sp_id s)) /\
    nodes w ≡ₚ p :: nodes w1.
Proof.
  intros W Hp Hs. unfold tree_remove. rewrite decide_True by done. eexists. split; [done|]. split; [done|].
  destruct (wf_tree _ W) as [ids O].
  destruct (remove_node_spec _ _ _ _ _ _ _ O Hp (wf_nodup _ W)) as (i1 & x & i2 & l1 & l2 & E & Ex & Ox & E1 & E2 & O2).
  assert (nodes w ≡ₚ p :: nodes (upd_seed w (rbtree_remove_node (spoolseed w) p))) as P.
  { unfold nodes. cbn [spoolseed upd_seed]. rewrite E1, E2, !fmap_app, fmap_cons. simpl.
    by rewrite Permutation_middle. }
  split; [|done]. exists (i1 ++ i2). split; [done|]. intros y Hy Epos.
  assert (tree_id y) as Oy by (eapply ids_ok; [exact O|]; rewrite E; set_solver).
  apply node_id_Ret in Ex as (s' & Hs' & ->). rewrite Hs in Hs'. injection Hs' as <-.
  destruct O as [_ S]. rewrite E in S. apply StronglySorted_app in S as (S12 & _ & S2). apply StronglySorted_inv in S2 as [_ S2].
  rewrite Forall_forall in S2. apply elem_of_app in Hy as [Hy|Hy].
  - specialize (S12 _ _ Hy ltac:(by apply elem_of_cons; left)). cbn beta in S12.
    apply (idcmp_pos (tags w)) in S12; [|done..]. rewrite Epos in S12. by apply lex_lt_irrefl in S12.
  - specialize (S2 _ Hy). cbn beta in S2. apply (idcmp_pos (tags w)) in S2; [|done..].
    rewrite Epos in S2. by apply lex_lt_irrefl in S2.
Qed.

Lemma pool_ok_mono w w' p s s' :
  pool_ok w p s -> subscribers w' = subscribers w -> (next_addr w <= next_addr w')%positive ->
  sp_reserved s' = sp_reserved s -> sp_sub_count s' = sp_sub_count s -> first s' = first s -> pool_ok w' p s'.
Proof.
  intros [] Es Ea E1 E2 E3. split; rewrite ?E1, ?E2, ?E3, ?Es; auto.
  intros x Hx. specialize (po_fresh0 x Hx). lia.
Qed.

(** Spools other than the ones of a wf state appear or disappear together with
    their tree nodes. *)
Lemma wf_retree w v :
  wf w -> subscribers v = subscribers w -> same_config w v ->
  (exists ids, tree_ordered v ids) -> NoDup (nodes v) -> current_msg_spool ∉ nodes v ->
  (forall p, is_Some (spools v !! p) <-> p = current_msg_spool \/ p ∈ nodes v) ->
  spools v !! current_msg_spool = spools w !! current_msg_spool ->
  (forall p s, spools v !! p = Some s -> pool_ok v p s) ->
  (forall p, is_Some (spools v !! p) -> (p < next_addr v)%positive) -> wf v.
Proof.
  intros [] Es [] O ND Nc D Ec K F.
  split; rewrite ?sc_status0, ?sc_complete0, ?sc_running0, ?sc_want0, ?Ec, ?Es; auto; congruence.
Qed.

(** [destroy_spool], once the subscribers have left. *)
Lemma destroy_spool_spec w p s :
  wf w -> p ∈ nodes w -> spools w !! p = Some s -> first s = [] ->
  exists w', destroy_spool handlers w p = Ret w' /\ wf w' /\ spools w' = delete p (spools w) /\
    subscribers w' = subscribers w /\ log w' = log w /\ same_config w w' /\ nodes w ≡ₚ p :: nodes w'.
Proof.
  intros W Hp Hs Hf. destruct (node_lookup w p W Hp) as (s' & Hs' & Hid).
  rewrite Hs in Hs'. injection Hs' as <-. pose proof (wf_pool _ W _ _ Hs) as K.
  set (s1 := set_pool_id (set_fetch s (fetchmsg_prev_msec s) (fetchmsg_current_count s) false) (sp_id s)).
  set (w1 := put_spool (upd_tags w (tags w)) p s1).
  assert (wf w1) as W1.
  { enough (wf (emit (upd_subs (put_spool w p s1) (subscribers w)) [])) as [].
    - split; auto. intros q sq Hsq. destruct (wf_pool0 q sq Hsq). by split.
    - apply (wf_put w p s); auto. by apply (pool_ok_mono w _ p s). }
  assert (spools w1 !! p = Some s1) as Hs1 by (simpl; by rewrite lookup_insert_eq).
  destruct (tree_remove_spec w1 p s1 W1 Hp Hs1) as (w2 & E2 & Ew2 & (ids & O2 & _) & P2).
  assert (remove_spool w p = Ret w2) as Er.
  { unfold remove_spool. rewrite (get_pool_Some _ _ _ Hs), bind_Ret, (po_reserved _ _ _ K), (proj1 (wf_running _ W)).
    cbn [c_assert Z.eqb]. rewrite !bind_Ret. cbn [sp_id set_fetch].
    rewrite (single_free _ _ (proj1 Hid)), bind_Ret. exact E2. }
  assert (spools w2 !! p = Some s1) as Hs2 by (by rewrite Ew2).
  exists (destroy_node w2 p). split.
  { unfold destroy_spool. rewrite Er, bind_Ret, (get_pool_Some _ _ _ Hs2), bind_Ret.
    change (first s1) with (first s). rewrite Hf. simpl dequeue_loop. rewrite bind_Ret, (get_pool_Some _ _ _ Hs2), bind_Ret.
    change (sp_sub_count s1) with (sp_sub_count s). change (first s1) with (first s).
    rewrite (po_count _ _ _ K), Hf. done. }
  assert (nodes (destroy_node w2 p) = nodes w2) as En by done.
  assert (spools (destroy_node w2 p) = delete p (spools w)) as Esp.
  { rewrite Ew2. simpl. apply delete_insert_eq. }
  assert (NoDup (nodes w2) /\ p ∉ nodes w2) as [ND2 Np].
  { pose proof (wf_nodup _ W1) as ND. rewrite P2 in ND. apply NoDup_cons in ND. tauto. }
  assert (same_config w (destroy_node w2 p)) as C by (rewrite Ew2; split; simpl; auto; lia).
  split_and!; auto; [|by rewrite Ew2|by rewrite Ew2].
  assert (current_msg_spool <> p) as Ncp by (intros <-; exact (wf_cur _ W Hp)).
  apply (wf_retree w); auto.
  - by rewrite Ew2.
  - exists ids. revert O2. apply tree_ordered_frame; [done|]. intros q Hq. f_equal.
    rewrite Esp, Ew2. simpl. rewrite lookup_delete_ne, lookup_insert_ne by (intros <-; done). done.
  - rewrite En. intros Hc. apply (wf_cur _ W). change (nodes w) with (nodes w1). rewrite P2. by apply elem_of_cons; right.
  - intros q. rewrite Esp, En. destruct (decide (p = q)) as [<-|Hq].
    + rewrite lookup_delete_eq. split; [by intros []|]. by intros [->|].
    + rewrite lookup_delete_ne, (wf_dom _ W) by done. change (nodes w) with (nodes w1). rewrite P2, elem_of_cons.
      split; [intros [?|[?|?]]|intros [?|?]]; auto. congruence.
  - rewrite Esp. by rewrite lookup_delete_ne.
  - intros q sq. rewrite Esp. intros [Hq Hsq]%lookup_delete_Some.
    apply (pool_ok_mono w _ q sq); auto using wf_pool; rewrite Ew2; [done|simpl; lia].
  - intros q. rewrite Esp. intros [x [Hq Hsq]%lookup_delete_Some].
    pose proof (wf_fresh _ W q (ex_intro _ _ Hsq)). rewrite Ew2. simpl. lia.
Qed.

(** [get_spool] for an id of the tree: an existing spool, or a new one. *)
Lemma get_spool_spec w id :
  wf w -> tree_id id ->
  exists w' p sp, get_spool w id = Ret (w', p) /\ wf w' /\ p ∈ nodes w' /\ spools w' !! p = Some sp /\
    pos (sp_id sp) = pos id /\ subscribers w' = subscribers w /\ log w' = log w /\ same_config w w' /\
    (w' = w \/ spools w !! p = None /\ sp = Pool id None MSG_INVALID [] 0 0 false 0 0 0 /\
               spools w' = <[p := sp]> (spools w)).
Proof.
  intros W Hid. unfold get_spool.
  destruct (Z.eqb_spec (time id) NCHAN_NEWEST_MSGID_TIME) as [E|_].
  { destruct Hid as [_ Ht]. rewrite E in Ht. unfold NCHAN_NEWEST_MSGID_TIME in Ht. lia. }
  rewrite bool_decide_eq_false_2 by (by rewrite (wf_strategy _ W)). cbn [orb].
  destruct (find_node_spec w id W Hid) as (r & -> & Hr). rewrite bind_Ret. destruct r as [p|].
  { destruct Hr as (Hp & s & Hs & Epos). rewrite (get_pool_Some _ _ _ Hs), bind_Ret.
    assert (time (sp_id s) = time id) as -> by (by injection Epos). rewrite Z.eqb_refl. cbn [c_assert].
    rewrite bind_Ret. exists w, p, s. split_and!; auto using same_config_refl. }
  set (p := next_addr w). set (sp := Pool id None MSG_INVALID [] 0 0 false 0 0 0).
  assert (spools w !! p = None) as Hp.
  { destruct (spools w !! p) eqn:E; [|done]. pose proof (wf_fresh _ W p (ex_intro _ _ E)). subst p. lia. }
  assert (p ∉ nodes w /\ current_msg_spool <> p) as [Np Ncp].
  { assert (~ (p = current_msg_spool \/ p ∈ nodes w)) as N; [|split; [auto|intros <-; auto]].
    rewrite <- (wf_dom _ W), Hp. by intros []. }
  cbn beta iota delta [ngx_alloc init_spool].
  rewrite (single_copy_new _ _ _ (proj1 Hid)), !bind_Ret. fold p sp.
  match goal with |- context [tree_insert ?x p] => set (v := x) end.
  destruct (wf_tree _ W) as [ids O].
  assert (tree_ordered v ids) as Ov.
  { revert O. apply tree_ordered_frame; [done|]. intros q Hq. simpl.
    rewrite lookup_insert_ne by (intros <-; done). done. }
  destruct (tree_insert_spec v ids p sp Ov) as (seed' & E & [ids' O'] & P).
  - simpl. by rewrite lookup_insert_eq.
  - done.
  - intros x Hx Ex. simpl in Ex. pose proof O as [F _].
    apply list_elem_of_lookup in Hx as [i Hi].
    destruct (Forall2_lookup_r _ _ _ _ _ F Hi) as ([k q] & Hq & Eq & _). cbn [snd] in Eq.
    apply node_id_Ret in Eq as (sq & Hsq & ->). apply (Hr q sq); auto.
    apply list_elem_of_fmap. exists (k, q). split; [done|]. by eapply list_elem_of_lookup_2.
  - rewrite E. cbn [mbind outcome_bind]. set (v' := upd_seed v seed') in *.
    assert (nodes v = nodes w) as Env by done. rewrite Env in P.
    assert (spools v' = <[p := sp]> (spools w)) as Ev by done.
    exists v', p, sp. split; [done|].
    assert (same_config w v') as C by (split; simpl; auto; lia).
    assert (wf v') as Wv.
    { apply (wf_retree w); auto.
      - by exists ids'.
      - rewrite P. apply NoDup_cons. split; [done|apply (wf_nodup _ W)].
      - rewrite P. intros [E'|E']%elem_of_cons; [done|by apply (wf_cur _ W)].
      - intros q. rewrite Ev, P, elem_of_cons. destruct (decide (p = q)) as [<-|Hq].
        + rewrite lookup_insert_eq. split; eauto.
        + rewrite lookup_insert_ne, (wf_dom _ W) by done. split; [intros [|]|intros [|[|]]]; auto. congruence.
      - rewrite Ev. by rewrite lookup_insert_ne.
      - intros q sq. rewrite Ev. destruct (decide (p = q)) as [<-|Hq].
        + rewrite lookup_insert_eq. intros [= <-]. split; simpl; try done; try constructor; by intros x ?%elem_of_nil.
        + rewrite lookup_insert_ne by done. intros Hsq.
          apply (pool_ok_mono w _ q sq); auto using wf_pool. simpl. lia.
      - intros q. rewrite Ev. destruct (decide (p = q)) as [<-|Hq]; [intros _; simpl; lia|].
        rewrite lookup_insert_ne by done. intros Hq'. pose proof (wf_fresh _ W q Hq'). simpl. lia. }
    split_and!; auto.
    + rewrite P. by apply elem_of_cons; left.
    + rewrite Ev. by rewrite lookup_insert_eq.
Qed.

(** The last part of [spool_nextmsg]: a spool is filed under a new id. *)
Lemma rename_spec w p s new_id :
  wf w -> p ∈ nodes w -> spools w !! p = Some s -> tree_id new_id ->
  (forall q sq, q ∈ nodes w -> spools w !! q = Some sq -> pos (sp_id sq) <> pos new_id) ->
  exists w1 w2, tree_remove w p = Ret w1 /\ spools w1 !! p = Some s /\
    (let w5 := (ngx_alloc w1).2 in
     tree_insert (put_spool (upd_tags w5 (tags w5)) p (set_pool_id s new_id)) p = Ret w2) /\
    wf w2 /\ nodes w2 ≡ₚ nodes w /\ spools w2 = <[p := set_pool_id s new_id]> (spools w) /\
    subscribers w2 = subscribers w /\ log w2 = log w /\ same_config w w2 /\ tags w1 = tags w.
Proof.
  intros W Hp Hs Hid N. destruct (tree_remove_spec w p s W Hp Hs) as (w1 & E1 & Ew1 & (ids & O1 & Ni) & P1).
  exists w1. pose proof (wf_nodup _ W) as ND. rewrite P1 in ND. apply NoDup_cons in ND as [Np ND].
  set (v := put_spool (upd_tags (ngx_alloc w1).2 (tags w1)) p (set_pool_id s new_id)).
  assert (tree_ordered v ids) as Ov.
  { revert O1. apply tree_ordered_frame; [done|]. intros q Hq. simpl.
    rewrite lookup_insert_ne by (intros <-; done). done. }
  destruct (tree_insert_spec v ids p (set_pool_id s new_id) Ov) as (seed' & E2 & [ids' O2] & P2).
  - simpl. by rewrite lookup_insert_eq.
  - done.
  - intros x Hx Ex. simpl in Ex. pose proof O1 as [F _]. apply list_elem_of_lookup in Hx as [i Hi].
    destruct (Forall2_lookup_r _ _ _ _ _ F Hi) as ([k q] & Hq & Eq & _). cbn [snd] in Eq.
    apply node_id_Ret in Eq as (sq & Hsq & ->).
    assert (q ∈ nodes w1) as Hq1.
    { apply list_elem_of_fmap. exists (k, q). split; [done|]. by eapply list_elem_of_lookup_2. }
    apply (N q sq); [rewrite P1; by apply elem_of_cons; right| |done]. by rewrite Ew1 in Hsq.
  - set (v' := upd_seed v seed') in *. exists v'.
    assert (nodes v = nodes w1) as Env by done. rewrite Env in P2.
    assert (nodes v' ≡ₚ nodes w) as P by (by rewrite P2, P1).
    assert (spools v' = <[p := set_pool_id s new_id]> (spools w)) as Ev by (by subst v' v; rewrite Ew1).
    assert (same_config w v') as C by (subst v' v; rewrite Ew1; split; simpl; auto; lia).
    assert (subscribers v' = subscribers w) as Es by (by subst v' v; rewrite Ew1).
    assert (current_msg_spool <> p) as Ncp by (intros <-; exact (wf_cur _ W Hp)).
    split_and!; auto; try (by rewrite Ew1); [|by subst v' v; rewrite Ew1].
    apply (wf_retree w); auto.
    + by exists ids'.
    + rewrite P. apply (wf_nodup _ W).
    + rewrite P. apply (wf_cur _ W).
    + intros q. rewrite Ev, P, <- (wf_dom _ W). destruct (decide (p = q)) as [<-|Hq].
      * rewrite lookup_insert_eq, Hs. split; eauto.
      * by rewrite lookup_insert_ne.
    + rewrite Ev. by rewrite lookup_insert_ne.
    + intros q sq. rewrite Ev. destruct (decide (p = q)) as [<-|Hq].
      * rewrite lookup_insert_eq. intros [= <-].
        apply (pool_ok_mono w _ p s); auto using wf_pool. apply C.
      * rewrite lookup_insert_ne by done. intros Hsq.
        apply (pool_ok_mono w _ q sq); auto using wf_pool. apply C.
    + intros q Hq. pose proof (sc_addr _ _ C). enough (q < next_addr w)%positive by lia. apply (wf_fresh _ W).
      rewrite Ev in Hq. destruct (decide (p = q)) as [<-|Hpq]; [eauto|]. by rewrite lookup_insert_ne in Hq.
Qed.
End respond.
