(* ===== verification/SpoolRange.v ===== *)
(** * The spools a message concerns ([store/spool.c])

    [spooler_respond_message] collects the spools whose id lies between the
    previous message and the new one with a conditional walk of the tree, keeps
    the first 32 in an array and the others in a list, and takes them back in
    reverse order. *)

From stdpp Require Import sorting.
From S2P Require Import Prelude Nginx MsgId MsgIdFacts Msg ChanHead RbTree RbTreeFacts Spool SpoolWf.
Open Scope Z_scope.

(** ** The collector *)

(** The collected spools, first one first. *)
Definition collected (d : spooler_respond_data_t) (xs : list positive) : Prop :=
  rd_n d = Z.of_nat (length xs) /\
  take (Nat.min 32 (length xs)) (rd_spools d) = take 32 xs /\
  rd_overflow d = rev (drop 32 xs).

Lemma collected_add d xs p : collected d xs -> collected (spoolcollector_addspool d p) (xs ++ [p]).
Proof.
  intros (En & Es & Eo). unfold collected, spoolcollector_addspool, SPOOLER_RESPOND_SPOOLARRAY_SIZE.
  rewrite length_app. simpl length. rewrite En. destruct (Z.ltb_spec (Z.of_nat (length xs)) 32);
    cbn [rd_n rd_spools rd_overflow].
  - rewrite Nat2Z.id. rewrite Nat.min_r, (take_ge xs 32) in Es by lia. rewrite (drop_ge xs 32) in Eo by lia.
    rewrite Es, Nat.min_r by lia. split_and!; [lia| |].
    + rewrite !take_ge by (rewrite length_app; simpl; lia). done.
    + rewrite Eo, drop_ge by (rewrite length_app; simpl; lia). done.
  - rewrite Nat.min_l in Es by lia. rewrite Nat.min_l by lia. split_and!; [lia| |].
    + by rewrite take_app_le by lia.
    + rewrite drop_app_le by lia. by rewrite rev_app_distr, Eo.
Qed.

Lemma collected_unwind_nil d : collected d [] -> spoolcollector_unwind_nextspool d = Ret (None, d).
Proof. intros (En & _). unfold spoolcollector_unwind_nextspool. by rewrite En. Qed.

Lemma collected_unwind d xs p :
  collected d (xs ++ [p]) ->
  exists d', spoolcollector_unwind_nextspool d = Ret (Some p, d') /\ collected d' xs.
Proof.
  intros (En & Es & Eo). unfold spoolcollector_unwind_nextspool, SPOOLER_RESPOND_SPOOLARRAY_SIZE.
  rewrite length_app in En, Es. simpl length in En, Es. rewrite En.
  destruct (Z.ltb_spec 32 (Z.of_nat (length xs + 1))).
  - rewrite drop_app_le, rev_app_distr in Eo by lia. simpl in Eo. rewrite Eo. eexists. split; [done|].
    unfold collected. cbn [rd_n rd_spools rd_overflow]. split_and!; [lia| |done].
    rewrite Nat.min_l in * by lia. by rewrite take_app_le in Es by lia.
  - rewrite (proj2 (Z.ltb_lt _ _)) by lia.
    rewrite Nat.min_r, (take_ge (xs ++ [p])) in Es by (rewrite ?length_app; simpl; lia).
    replace (Z.to_nat (Z.of_nat (length xs + 1) - 1)) with (length xs) by lia.
    assert (rd_spools d !! length xs = Some p) as ->.
    { rewrite <- (lookup_take_lt _ (length xs + 1)) by lia. rewrite Es. by apply list_lookup_middle. }
    eexists. split; [done|]. unfold collected. cbn [rd_n rd_spools rd_overflow]. split_and!; [lia| |].
    + rewrite Nat.min_r, (take_ge xs) by lia.
      replace (take (length xs) (rd_spools d)) with (take (length xs) (take (length xs + 1) (rd_spools d)))
        by (rewrite take_take; f_equal; lia).
      by rewrite Es, take_app_length.
    + rewrite Eo, !drop_ge by (rewrite ?length_app; simpl; lia). done.
Qed.

(** ** The walk *)

Definition in_range (min max x : Z * Z) : Prop := ~ lex_lt x min /\ lex_lt x max.
Global Instance in_range_dec min max x : Decision (in_range min max x).
Proof. unfold in_range. apply _. Defined.

(** The answer of [compare_msgid_onetag_range]. *)
Definition range_direction (min max x : Z * Z) : rbtree_walk_direction_t :=
  if decide (lex_lt x min) then RBTREE_WALK_RIGHT
  else if decide (lex_lt x max) then RBTREE_WALK_LEFT_RIGHT else RBTREE_WALK_LEFT.

Lemma onetag_range_spec min max i :
  single min -> single max -> single i ->
  compare_msgid_onetag_range min max i = Ret (range_direction (pos min) (pos max) (pos i)).
Proof.
  intros Smin Smax Si. unfold compare_msgid_onetag_range.
  rewrite !(proj1 Smin), !(proj1 Smax), !(proj1 Si), !single_fixed0 by done. cbn [c_assert Z.eqb].
  cbn [Z.eqb Pos.eqb c_assert]. rewrite !bind_Ret. unfold range_direction, lex_lt, pos. simpl.
  destruct (Z.ltb_spec (time min) (time i)), (Z.eqb_spec (time min) (time i)), (Z.leb_spec (tag0 min) (tag0 i)),
    (Z.ltb_spec (time i) (time max)), (Z.eqb_spec (time max) (time i)), (Z.ltb_spec (tag0 i) (tag0 max));
    simpl; repeat case_decide; try lia; done.
Qed.

Lemma range_direction_mono min max x y :
  lex_lt x y -> direction_rank (range_direction min max x) <= direction_rank (range_direction min max y).
Proof.
  intros L. unfold range_direction. repeat case_decide; simpl; try lia; exfalso; eauto using lex_lt_trans.
Qed.

Lemma range_direction_in min max x :
  range_direction min max x = RBTREE_WALK_LEFT_RIGHT <-> in_range min max x.
Proof. unfold range_direction, in_range. repeat case_decide; split; try done; tauto. Qed.

(** Where the spool at an address is, and whether it is one of readers of the
    nth message. *)
Definition spool_pos (w : channel_spooler_t) (p : positive) : Z * Z :=
  match spools w !! p with Some s => pos (sp_id s) | None => (0, 0) end.
Definition nth_spool (w : channel_spooler_t) (p : positive) : bool := (spool_pos w p).1 =? NCHAN_NTH_MSGID_TIME.

(** *** What the walk reaches *)

Section shown.
Context {A : Type} (nth : A -> bool).

(** The nodes of which [nth] does not hold, and that are not in the left subtree
    of one of which it does. *)
Fixpoint shown (t : rbtree A) : list A :=
  match t with
  | Sentinel => []
  | Node _ l d r => if nth d then shown r else d :: shown l ++ shown r
  end.

Lemma shown_in t a : a ∈ shown t -> a ∈ (inorder t).*2 /\ nth a = false.
Proof.
  induction t as [|k l IHl d r IHr]; simpl; [by intros ?%elem_of_nil|]. rewrite fmap_app, fmap_cons. cbn [snd].
  destruct (nth d) eqn:E; set_solver.
Qed.

Lemma shown_all t : (forall a, a ∈ (inorder t).*2 -> nth a = false) -> shown t = preorder t.
Proof.
  induction t as [|k l IHl d r IHr]; simpl; [done|]. rewrite fmap_app, fmap_cons. cbn [snd]. intros Hn.
  rewrite Hn, IHl, IHr; set_solver.
Qed.

End shown.

Section reach.
Context {A : Type} (dir : A -> rbtree_walk_direction_t) (nth : A -> bool).
Notation shown := (shown nth).
Notation reached := (reached dir).

(** Nodes turn the walk towards those that are wanted, [nth] ones to the right. *)
Lemma reached_shown t :
  (forall a, a ∈ (inorder t).*2 -> dir a <> RBTREE_WALK_STOP /\ (nth a = true -> dir a = RBTREE_WALK_RIGHT)) ->
  StronglySorted (fun a b => nth a = false -> nth b = false -> direction_rank (dir a) <= direction_rank (dir b))
    (inorder t).*2 ->
  reached t = filter (fun a => dir a = RBTREE_WALK_LEFT_RIGHT) (shown t).
Proof.
  induction t as [|k l IHl d r IHr]; [done|]. cbn [inorder reached shown]. rewrite fmap_app, fmap_cons. cbn [snd].
  intros Hd So. apply StronglySorted_app in So as (H12 & Sl & Sr). apply StronglySorted_inv in Sr as [Sr Sd].
  rewrite Forall_forall in Sd. rewrite IHl, IHr; try done; [|set_solver|set_solver]. clear IHl IHr.
  destruct (Hd d ltac:(set_solver)) as [Ns Nr]. destruct (nth d) eqn:En; [by rewrite Nr|].
  assert (forall t', (forall a, a ∈ shown t' -> dir a <> RBTREE_WALK_LEFT_RIGHT) ->
    filter (fun a => dir a = RBTREE_WALK_LEFT_RIGHT) (shown t') = []) as Hskip by (intros t' Hn; by apply filter_none).
  rewrite filter_cons, filter_app. destruct (dir d) eqn:Ed; try done; cbn -[filter].
  - rewrite (Hskip r), app_nil_r; [done|]. intros a [Ha Na]%shown_in E.
    pose proof (Sd _ Ha eq_refl Na) as T. rewrite E in T. by apply T.
  - rewrite (Hskip l); [done|]. intros a [Ha Na]%shown_in E.
    pose proof (H12 a d Ha ltac:(rewrite elem_of_cons; auto) Na En) as T. rewrite E, Ed in T. by apply T.
Qed.
End reach.

(** *** The spools of a published message *)

(** The ids of spools of one channel: those of its messages, and the pseudo ids
    of the nth message. *)
Definition spool_id (i : nchan_msg_id_t) : Prop :=
  single i /\ (0 <= time i < 2 ^ 32 \/ time i = NCHAN_NTH_MSGID_TIME).

#[local] Program Instance spool_id_order th : NodeOrder (spool_rbtree_compare th) spool_id := {| cmp := mcmp |}.
Next Obligation. intros th x y [Sx _] [Sy _]. by apply single_compare. Qed.
Next Obligation. intros. apply (cmp_antisym (NodeOrder := spool_order ∅)). Qed.
Next Obligation. intros. by eapply (cmp_trans (NodeOrder := spool_order ∅)). Qed.

(** The tree as insertion makes it. *)
Definition filed (w : channel_spooler_t) (ids : list nchan_msg_id_t) : Prop :=
  ordered (spool_rbtree_node_id w) spool_rbtree_bucketer (spool_rbtree_compare (tags w)) spool_id (tree (spoolseed w)) ids.

Lemma filed_node w ids p :
  filed w ids -> p ∈ nodes w -> exists s, spools w !! p = Some s /\ spool_id (sp_id s).
Proof.
  intros [F _] ([k p'] & -> & Hin)%list_elem_of_fmap. apply list_elem_of_lookup in Hin as [i Hi].
  destruct (Forall2_lookup_l _ _ _ _ _ F Hi) as (x & _ & Hx & Ok & _). apply node_id_Ret in Hx as (s & Hs & ->). eauto.
Qed.

Lemma wf_filed w : wf w -> exists ids, filed w ids /\ forall p, p ∈ nodes w -> nth_spool w p = false.
Proof.
  intros W. destruct (wf_tree _ W) as [ids [F S]]. exists ids. split.
  - split; [|exact S]. eapply Forall2_impl; [exact F|]. intros x y (? & [? ?] & ?). split_and!; auto. split; auto.
  - intros p Hp. destruct (node_lookup w p W Hp) as (s & Hs & [_ R]). unfold nth_spool, spool_pos. rewrite Hs.
    apply Z.eqb_neq. unfold NCHAN_NTH_MSGID_TIME, pos. simpl. lia.
Qed.

Lemma filed_sorted w ids :
  filed w ids ->
  StronglySorted (fun p q => nth_spool w p = false -> nth_spool w q = false -> lex_lt (spool_pos w p) (spool_pos w q)) (nodes w).
Proof.
  intros [F S]. unfold nodes. revert F S. generalize (inorder (tree (spoolseed w))) as l. intros l F.
  induction F as [|[k p] x l ids (Hx & [Sx Ok] & _) F IH]; intros S; [constructor|].
  apply StronglySorted_inv in S as [S Fx]. rewrite fmap_cons. constructor; [by apply IH|].
  rewrite Forall_forall in Fx. apply Forall_forall. intros q ([k' q'] & -> & Hq)%list_elem_of_fmap.
  apply list_elem_of_lookup in Hq as [i Hi]. destruct (Forall2_lookup_l _ _ _ _ _ F Hi) as (y & Hy & (Ey & [Sy Oky] & _)).
  cbn [snd] in *. apply node_id_Ret in Hx as (s & Hs & ->), Ey as (s' & Hs' & ->).
  unfold nth_spool, spool_pos. rewrite Hs, Hs'. intros Nx%Z.eqb_neq Ny%Z.eqb_neq.
  destruct Ok as [Ok|?]; [|done]. destruct Oky as [Oky|?]; [|done].
  apply (idcmp_pos (tags w)); [by split|by split|]. apply Fx. by eapply list_elem_of_lookup_2.
Qed.

(** The walk visits the tree in preorder and turns away from the spools out of range. *)
Lemma collect_reached w m ids :
  filed w ids -> single (prev_id m) -> single (id m) -> 0 <= time (prev_id m) ->
  exists d rs, rbtree_conditional_walk (spoolseed w) (collect_spool_range_callback w)
      (RespondData (prev_id m) (id m) (u8 (tagcount (id m))) 0 [] []) = Ret d /\ collected d rs /\
    rs = filter (fun p => in_range (pos (prev_id m)) (pos (id m)) (spool_pos w p))
           (shown (nth_spool w) (tree (spoolseed w))).
Proof.
  intros O S1 S2 Tm. set (dir p := range_direction (pos (prev_id m)) (pos (id m)) (spool_pos w p)).
  set (ok d := rd_min d = prev_id m /\ rd_max d = id m /\ rd_multi d = 1).
  destruct (conditional_walk_reached dir ok (tree (spoolseed w)) (collect_spool_range_callback w)
    (fun p d => spoolcollector_addspool d p)
    (RespondData (prev_id m) (id m) (u8 (tagcount (id m))) 0 [] [])) as [E _].
  - intros p d Hp (E1 & E2 & E3).
    split; [unfold spoolcollector_addspool; destruct (_ <? _); done|].
    destruct (filed_node w ids p O Hp) as (s & Hs & [Ss _]).
    unfold collect_spool_range_callback. rewrite (get_pool_Some _ _ _ Hs), bind_Ret, E1, E2, E3. cbn [Z.leb Z.compare Pos.compare Pos.compare_cont].
    rewrite onetag_range_spec, bind_Ret by done. unfold dir, spool_pos. by rewrite Hs.
  - subst ok. simpl. by rewrite (proj1 S2).
  - unfold rbtree_conditional_walk. rewrite E. eexists _, _. split; [done|]. split.
    + assert (forall xs ys d, collected d ys ->
        collected (fold_ret (fun p d => spoolcollector_addspool d p) xs d) (ys ++ xs)) as Fold.
      { induction xs as [|x xs IH]; intros ys d C; simpl; [by rewrite app_nil_r|].
        rewrite cons_middle, app_assoc. apply IH. by apply collected_add. }
      apply (Fold _ []). by split_and!.
    + rewrite (reached_shown dir (nth_spool w)).
      * apply filter_ext_in. intros p _. apply range_direction_in.
      * intros p _. split; [unfold dir, range_direction; repeat case_decide; done|]. intros Ep%Z.eqb_eq.
        unfold dir, range_direction. rewrite decide_True; [done|]. left. rewrite Ep. unfold NCHAN_NTH_MSGID_TIME, pos. simpl. lia.
      * pose proof (filed_sorted w ids O) as Sn. unfold nodes in Sn. revert Sn.
        generalize ((inorder (tree (spoolseed w))).*2). intros l Sn. induction Sn as [|p l Sn IH F]; constructor; [done|].
        eapply Forall_impl; [exact F|]. intros q L Np Nq. apply range_direction_mono. by apply L.
Qed.

Lemma shown_nodes w :
  (forall p, p ∈ nodes w -> nth_spool w p = false) -> shown (nth_spool w) (tree (spoolseed w)) ≡ₚ nodes w.
Proof. intros N. rewrite (shown_all (nth_spool w)); [apply preorder_perm|exact N]. Qed.

(** With spools of messages only. *)
Lemma collect_range w m :
  wf w -> single (prev_id m) -> single (id m) -> 0 <= time (prev_id m) ->
  exists d rs, rbtree_conditional_walk (spoolseed w) (collect_spool_range_callback w)
      (RespondData (prev_id m) (id m) (u8 (tagcount (id m))) 0 [] []) = Ret d /\ collected d rs /\
    rs ≡ₚ filter (fun p => in_range (pos (prev_id m)) (pos (id m)) (spool_pos w p)) (nodes w).
Proof.
  intros W S1 S2 Tm. destruct (wf_filed w W) as (ids & O & N).
  destruct (collect_reached w m ids O S1 S2 Tm) as (d & rs & E & C & ->). exists d. eexists. split; [exact E|]. split; [exact C|].
  by rewrite (shown_nodes w N).
Qed.

(** C29.  When a message of one channel arrives, with a previous message that is
    not a pseudo id, the walk of the spool tree collects, each once and whatever
    their number (the overflow of the 32-slot array included), the spools whose
    id is at or after the previous message and before the new one, except those
    in the left subtree of a spool of readers of the nth message, which it never
    reaches ([nth_spool_hides_others] loses one); so all of them, when the tree
    has no such spool. *)
Theorem collect_range_exact w m ids :
  filed w ids -> single (prev_id m) -> single (id m) -> 0 <= time (prev_id m) ->
  exists d rs, rbtree_conditional_walk (spoolseed w) (collect_spool_range_callback w)
      (RespondData (prev_id m) (id m) (u8 (tagcount (id m))) 0 [] []) = Ret d /\ collected d rs /\
    let between p := in_range (pos (prev_id m)) (pos (id m)) (spool_pos w p) in
    rs = filter between (shown (nth_spool w) (tree (spoolseed w))) /\
    ((forall p, p ∈ nodes w -> nth_spool w p = false) -> rs ≡ₚ filter between (nodes w)).
Proof.
  intros O S1 S2 Tm. destruct (collect_reached w m ids O S1 S2 Tm) as (d & rs & E & C & ->).
  exists d. eexists. split; [exact E|]. split; [exact C|]. split; [done|]. intros N. by rewrite (shown_nodes w N).
Qed.

(** *** Examples *)

#[export] Instance spool_tree : NgxRbtree positive := rbtree_reference.

(** A channel that is ready, with no subscribers yet. *)
Definition idle_spooler (subs : gmap positive subscriber_t) : channel_spooler_t :=
  Spooler (Seed Sentinel 0 0) ∅ subs ∅ [] ∅ NCHAN_ZERO_MSGID READY true NCHAN_SPOOL_FETCH true false false 2%positive [].

Definition id_at (t v : Z) : nchan_msg_id_t := MsgId t (fixed [v; 0; 0; 0]) 0 1.
Definition example_published : nchan_msg_t :=
  set_prev_id (set_id example_msg (id_at 6 0)) (id_at 4 0).

(** A started spooler with spools for the given ids, in order of creation. *)
Definition with_spools (ids : list nchan_msg_id_t) : outcome channel_spooler_t :=
  w ← start_spooler (idle_spooler ∅) NCHAN_SPOOL_FETCH;
  foldl (fun w i => w ← w; '(w, _) ← get_spool w i; Ret w) (Ret w) ids.

(** How many spools a message concerns. *)
Definition concerned (w : outcome channel_spooler_t) (m : nchan_msg_t) : outcome Z :=
  w ← w;
  d ← rbtree_conditional_walk (spoolseed w) (collect_spool_range_callback w)
        (RespondData (prev_id m) (id m) (u8 (tagcount (id m))) 0 [] []);
  Ret (rd_n d).

(** The pseudo ids are filed under the 32-bit value of a negative time,
    after all others, but compare as older than every message: the walk turns
    right at the spool of readers of the nth message and misses the spools to
    its left.  With the spool of the nth message created first, the spool
    waiting at 4:0 is not answered when message 6:0 is published; created in
    the other order, it is. *)
Theorem nth_spool_hides_others :
  concerned (with_spools [NCHAN_NTH_MSGID; id_at 4 0]) example_published = Ret 0 /\
  concerned (with_spools [id_at 4 0; NCHAN_NTH_MSGID]) example_published = Ret 1.
Proof. split; vm_compute; reflexivity. Qed.

(** In the first of these trees the spool at 4:0 is in the left subtree of the
    one of the nth message, and nothing is collected for message 6:0. *)
Lemma collect_range_exact_witness :
  exists w, with_spools [NCHAN_NTH_MSGID; id_at 4 0] = Ret w /\
  exists d, rbtree_conditional_walk (spoolseed w) (collect_spool_range_callback w)
      (RespondData (id_at 4 0) (id_at 6 0) 1 0 [] []) = Ret d /\ collected d [] /\
    filter (fun p => in_range (4, 0) (6, 0) (spool_pos w p)) (nodes w) <> [].
Proof.
  destruct (with_spools [NCHAN_NTH_MSGID; id_at 4 0]) as [w| |] eqn:E; vm_compute in E; try discriminate E.
  injection E as <-. eexists. split; [reflexivity|].
  match goal with |- context [nodes ?x] => set (w := x) end.
  assert (filed w [id_at 4 0; NCHAN_NTH_MSGID]) as O.
  { split.
    - apply Forall2_cons_2; [|apply Forall2_cons_2; [|constructor]]; (split; [reflexivity|split; [|reflexivity]]);
        (split; [split; [done|simpl; eauto 10]|]); [left; simpl; lia|by right].
    - repeat constructor. }
  assert (single (id_at 4 0) /\ single (id_at 6 0)) as [S1 S2] by (split; split; simpl; eauto 10).
  destruct (collect_range_exact w example_published _ O S1 S2 ltac:(done)) as (d & rs & Ed & C & Er & _).
  exists d. split; [exact Ed|]. vm_compute in Er. subst rs. split; [exact C|]. by vm_compute.
Defined.
