(* ===== verification/SpoolDeliver.v ===== *)
(** * Delivery of messages by a spooler

    A channel whose store answers [get_message] at once: every subscriber is
    sent the messages published after its id, each once and in order, however
    subscriptions, publications, timers and departures are interleaved. *)

From stdpp Require Import sorting.
From S2P Require Import Prelude Nginx MsgId MsgIdFacts Msg ChanHead RbTree RbTreeFacts Spool SpoolWf.
Open Scope Z_scope.

(** ** The published messages *)

(** The messages newer than a position. *)
Definition after (P : list nchan_msg_t) (x : Z * Z) : list nchan_msg_t :=
  filter (fun m => lex_lt x (pos (id m))) P.

(** The position of the newest message. *)
Definition last_pos (P : list nchan_msg_t) : Z * Z :=
  match last P with Some m => pos (id m) | None => (0, 0) end.

(** Ids increase, and come after the oldest pseudo id. *)
Record history (P : list nchan_msg_t) : Prop := {
  hi_ids : forall m, m ∈ P -> tree_id (id m) /\ lex_lt (0, 0) (pos (id m));
  hi_sorted : StronglySorted (fun m m' => lex_lt (pos (id m)) (pos (id m'))) P;
}.

(** What the store answers for an id, as [chanhead_find_next_message] does. *)
Definition answer (P : list nchan_msg_t) (i : nchan_msg_id_t) : option (nchan_msg_status_t * option nchan_msg_t) :=
  Some (match P with
        | [] => (if time i =? NCHAN_OLDEST_MSGID_TIME then MSG_EXPECTED else MSG_NOTFOUND, None)
        | _ => match after P (pos i) with
               | m :: _ => (MSG_FOUND, Some m)
               | [] => (MSG_EXPECTED, None)
               end
        end).

Lemma after_in P x m : m ∈ after P x <-> m ∈ P /\ lex_lt x (pos (id m)).
Proof. unfold after. rewrite list_elem_of_filter. tauto. Qed.

Lemma after_app P m x : after (P ++ [m]) x = after P x ++ (if decide (lex_lt x (pos (id m))) then [m] else []).
Proof. unfold after. by rewrite filter_app. Qed.

(** The messages after a position are its first one and those after that. *)
Lemma after_cons P x m rest : history P -> after P x = m :: rest -> after P (pos (id m)) = rest.
Proof.
  intros [_ S] E. revert E. induction P as [|m0 P IH]; [done|].
  apply StronglySorted_inv in S as [S F]. rewrite Forall_forall in F.
  unfold after. rewrite !filter_cons. destruct (decide (lex_lt x (pos (id m0)))) as [L|L].
  - intros [= <- <-]. rewrite decide_False by apply lex_lt_irrefl.
    apply filter_ext_in. intros m' Hm'. specialize (F _ Hm'). cbn beta in F.
    split; [|done]. intros _. by eapply lex_lt_trans.
  - intros E. assert (m ∈ P) as Hm by (assert (m ∈ after P x) as [? _]%after_in; [unfold after; rewrite E; by apply elem_of_cons; left|done]).
    specialize (F _ Hm). cbn beta in F. rewrite decide_False.
    + by apply IH.
    + intros L'. eapply lex_lt_irrefl, lex_lt_trans; eauto.
Qed.

Lemma after_le P x y : lex_le x y -> forall m, m ∈ after P y -> m ∈ after P x.
Proof.
  intros [->|L] m; [done|]. rewrite !after_in. intros [? ?]. split; [done|]. by eapply lex_lt_trans.
Qed.

Lemma last_pos_max P m : history P -> m ∈ P -> lex_le (pos (id m)) (last_pos P).
Proof.
  intros [_ S] Hm. unfold last_pos. destruct (list_snoc_cases P) as [->|(P' & m' & ->)].
  { by apply elem_of_nil in Hm. }
  rewrite last_snoc. apply elem_of_app in Hm as [Hm| ->%list_elem_of_singleton]; [right|by left].
  apply StronglySorted_app in S as (S & _). apply S; [done|]. by apply list_elem_of_singleton.
Qed.

Lemma lex_le_lt a b c : lex_le a b -> lex_lt b c -> lex_lt a c.
Proof. intros [->|L] L'; [done|]. by eapply lex_lt_trans. Qed.
Lemma lex_le_trans a b c : lex_le a b -> lex_le b c -> lex_le a c.
Proof. intros [->|L] [->|L']; [by left|by right|by right|right]. by eapply lex_lt_trans. Qed.
Lemma lex_le_or a b : lex_le a b \/ lex_lt b a.
Proof. destruct (lex_trichotomy a b) as [?|[?|?]]; unfold lex_le; auto. Qed.

Lemma last_pos_in P : P <> [] -> exists m, m ∈ P /\ pos (id m) = last_pos P.
Proof.
  intros N. unfold last_pos. destruct (list_snoc_cases P) as [->|(P' & m' & ->)]; [done|].
  rewrite last_snoc. exists m'. split; [|done]. apply elem_of_app. right. by apply list_elem_of_singleton.
Qed.

(** Nothing is newer than the last message. *)
Lemma after_nil P x : history P -> lex_le (last_pos P) x -> after P x = [].
Proof.
  intros Hi L. apply filter_none. intros m Hm Lm.
  eapply lex_lt_irrefl, lex_le_lt; [|exact Lm]. eapply lex_le_trans; [by apply last_pos_max|done].
Qed.

Lemma after_nil_inv P x : P <> [] -> after P x = [] -> lex_le (last_pos P) x.
Proof.
  intros N E. destruct (lex_le_or (last_pos P) x) as [|L]; [done|]. destruct (last_pos_in P N) as (m & Hm & Em).
  assert (m ∈ after P x) as H by (apply after_in; by rewrite Em). rewrite E in H. by apply elem_of_nil in H.
Qed.

(** ** The invariant of delivery *)

Section invariant.
(** The published messages, those the readers of the newest spool have
    received, and where each subscriber started. *)
Context (P Pc : list nchan_msg_t) (start : gmap positive (Z * Z)).

(** The subscribers of a spool at [x] have received what lies between their
    start and [x]. *)
Definition members_at (lg : list spool_event) (l : list spooled_subscriber_t) (x : Z * Z) : Prop :=
  forall e, e ∈ l -> exists a, start !! ssub_sub e = Some a /\
    after P a = received (ssub_sub e) lg ++ after P x /\
    (a = x \/ lex_lt a x /\ exists m, m ∈ P /\ pos (id m) = x).

Definition members_cur (lg : list spool_event) (l : list spooled_subscriber_t) : Prop :=
  forall e, e ∈ l -> exists a, start !! ssub_sub e = Some a /\
    after Pc a = received (ssub_sub e) lg /\ lex_le a (last_pos Pc).

(** A spool of the tree waits for a message that does not exist yet, or has
    nobody to serve, or is about to be served by its timer. *)
Definition settled (s : subscriber_pool_t) : Prop :=
  sp_msg s = None /\
  (msg_status s = MSG_EXPECTED /\ after P (pos (sp_id s)) = [] \/
   msg_status s = MSG_INVALID /\ (fetchmsg_timer_set s = true \/ first s = [])).

(** While nothing is published, a spool of the tree waits for the first message,
    or nobody came into it. *)
Definition from_start (s : subscriber_pool_t) : Prop :=
  time (sp_id s) = NCHAN_OLDEST_MSGID_TIME /\ ~ lex_lt (pos (sp_id s)) (0, 0).
Definition idle (s : subscriber_pool_t) : Prop :=
  first s = [] /\ msg_status s = MSG_INVALID /\ fetchmsg_current_count s = 0 /\ fetchmsg_timer_set s = false.

(** Nothing is claimed of the spool [E]; the spools of [X] need not be settled. *)
Record sem (X : list positive) (E : option positive) (sp : gmap positive subscriber_pool_t) (lg : list spool_event) : Prop := {
  sem_pool : forall p s, sp !! p = Some s -> p <> current_msg_spool -> E <> Some p ->
    members_at lg (first s) (pos (sp_id s)) /\ (msg_status s = MSG_FOUND \/ sp_msg s = None) /\
    (p ∈ X \/ settled s);
  sem_cur : forall s, sp !! current_msg_spool = Some s -> E <> Some current_msg_spool ->
    msg_status s = MSG_EXPECTED /\ sp_msg s = None /\ members_cur lg (first s);
  sem_prefix : forall t a, start !! t = Some a -> received t lg `prefix_of` after P a;
  sem_fresh : forall t, start !! t = None -> received t lg = [];
  sem_empty : P = [] -> forall p s, sp !! p = Some s -> p <> current_msg_spool -> E <> Some p ->
    from_start s \/ idle s;
}.

Lemma sem_weaken X p sp lg : sem X None sp lg -> sem X (Some p) sp lg.
Proof. intros []. split; auto. intros EP q s Hq Nc _. by apply (sem_empty0 EP q). Qed.

Lemma sem_forget X p sp lg : sem (p :: X) None sp lg -> sem X (Some p) sp lg.
Proof.
  intros []. split; auto.
  - intros q s Hq Nc Ne. by destruct (sem_pool0 q s Hq Nc) as (? & ? & [[->|]%elem_of_cons|]); auto.
  - intros EP q s Hq Nc _. by apply (sem_empty0 EP q).
Qed.

(** The excepted spool is settled, or at least coherent. *)
Lemma sem_restore X p s sp lg :
  sem X (Some p) sp lg -> p <> current_msg_spool -> sp !! p = Some s ->
  members_at lg (first s) (pos (sp_id s)) -> (msg_status s = MSG_FOUND \/ sp_msg s = None) ->
  p ∈ X \/ settled s -> (P = [] -> from_start s \/ idle s) -> sem X None sp lg.
Proof.
  intros [] Np Hp M F St Em. split; auto.
  - intros q sq Hq Nq _. destruct (decide (q = p)) as [->|]; [|apply sem_pool0; congruence].
    rewrite Hp in Hq. by injection Hq as <-.
  - intros sc Hc _. apply sem_cur0; congruence.
  - intros EP q sq Hq Nq _. destruct (decide (q = p)) as [->|]; [|apply (sem_empty0 EP q); congruence].
    rewrite Hp in Hq. injection Hq as <-. auto.
Qed.

(** The excepted spool may be replaced. *)
Lemma sem_put X p s s' sp lg :
  sem X (Some p) sp lg -> sp !! p = Some s -> sem X (Some p) (<[p := s']> sp) lg.
Proof.
  intros [] Hp. split; auto.
  - intros q sq Hq Nc Ne. rewrite lookup_insert_ne in Hq by congruence. auto.
  - intros sq Hq Ne. rewrite lookup_insert_ne in Hq by congruence. auto.
  - intros EP q sq Hq Nc Ne. rewrite lookup_insert_ne in Hq by congruence. by apply (sem_empty0 EP q).
Qed.

Lemma sem_delete X p sp lg : sem X (Some p) sp lg -> p <> current_msg_spool -> sem X None (delete p sp) lg.
Proof.
  intros [] Np. split; auto.
  - intros q sq [Hq Hsq]%lookup_delete_Some Nc _. apply sem_pool0; auto; congruence.
  - intros s [_ Hs]%lookup_delete_Some _. apply sem_cur0; auto; congruence.
  - intros EP q sq [Hq Hsq]%lookup_delete_Some Nc _. apply (sem_empty0 EP q); auto; congruence.
Qed.

(** The log matters through what was received. *)
Definition same_received (lg lg' : list spool_event) : Prop := forall t, received t lg' = received t lg.

Lemma members_at_log lg lg' l x : same_received lg lg' -> members_at lg l x -> members_at lg' l x.
Proof. intros R M e He. destruct (M e He) as (a & Ha & E & D). exists a. by rewrite R. Qed.

Lemma sem_log X E sp lg lg' : same_received lg lg' -> sem X E sp lg -> sem X E sp lg'.
Proof.
  intros R []. split; auto.
  - intros p s Hp Nc Ne. destruct (sem_pool0 p s Hp Nc Ne) as (M & ? & ?). split_and!; auto.
    by eapply members_at_log.
  - intros s Hs Ne. destruct (sem_cur0 s Hs Ne) as (? & ? & M). split_and!; auto.
    intros e He. destruct (M e He) as (a & ? & ? & ?). exists a. by rewrite R.
  - intros t a Ha. rewrite R. auto.
  - intros t Ht. rewrite R. auto.
Qed.

Lemma members_at_sub lg l l' x : (forall e, e ∈ l' -> ssub_sub e ∈ ssub_sub <$> l) -> members_at lg l x -> members_at lg l' x.
Proof.
  intros I M e He. specialize (I e He). apply list_elem_of_fmap in I as (e' & E & He').
  rewrite E. by apply M.
Qed.
End invariant.

(** ** Steps inside an operation *)

(** Spools before a position, and the newest one, are left alone. *)
Record keeps (w w' : channel_spooler_t) (x : Z * Z) : Prop := {
  kp_pool : forall q sq, q <> current_msg_spool -> spools w !! q = Some sq -> lex_lt (pos (sp_id sq)) x ->
    spools w' !! q = Some sq;
  kp_cur : spools w' !! current_msg_spool = spools w !! current_msg_spool;
  kp_config : same_config w w';
}.

Lemma keeps_refl w x : keeps w w x.
Proof. split; auto using same_config_refl. Qed.

Lemma keeps_trans w1 w2 w3 x : keeps w1 w2 x -> keeps w2 w3 x -> keeps w1 w3 x.
Proof. intros [] []. split; eauto using same_config_trans. congruence. Qed.

Lemma keeps_le w w' x y : lex_le x y -> keeps w w' y -> keeps w w' x.
Proof.
  intros L []. split; auto. intros q sq Nq Hq Lq. apply kp_pool0; auto.
  destruct L as [->|L]; [done|]. by eapply lex_lt_trans.
Qed.

(** Replacing a spool that is at [x] or later. *)
Lemma keeps_put w w' p s s' x :
  spools w !! p = Some s -> p <> current_msg_spool -> lex_le x (pos (sp_id s)) ->
  spools w' = <[p := s']> (spools w) -> same_config w w' -> keeps w w' x.
Proof.
  intros Hp Np L E C. split; auto; rewrite E.
  - intros q sq Nq Hq Lq. rewrite lookup_insert_ne; [done|]. intros <-.
    rewrite Hp in Hq. injection Hq as <-. eapply lex_lt_irrefl, lex_le_lt; eauto.
  - by rewrite lookup_insert_ne.
Qed.

(** Changing what is not structure. *)
Lemma wf_set_pool w p s s' :
  wf w -> spools w !! p = Some s -> sp_id s' = sp_id s -> first s' = first s ->
  sp_sub_count s' = sp_sub_count s -> sp_reserved s' = sp_reserved s -> wf (put_spool w p s').
Proof.
  intros W Hp E1 E2 E3 E4. enough (wf (emit (upd_subs (put_spool w p s') (subscribers w)) [])) as W'.
  - split; try apply W'. intros q sq Hsq. destruct (wf_pool _ W' q sq Hsq). by split.
  - apply (wf_put w p s); auto. by apply (pool_ok_mono w _ p s); auto using wf_pool.
Qed.

(** What is not part of the structure: the tag arrays, the fetches, addresses. *)
Lemma wf_aux w w' :
  wf w -> spoolseed w' = spoolseed w -> spools w' = spools w -> subscribers w' = subscribers w ->
  same_config w w' -> wf w'.
Proof.
  intros W E1 E2 E3 C. apply (wf_retree w); auto; rewrite ?E2; unfold nodes; rewrite ?E1.
  - destruct (wf_tree _ W) as [ids O]. exists ids. revert O. apply tree_ordered_frame; [by rewrite E1|].
    intros p _. by rewrite E2.
  - apply (wf_nodup _ W).
  - apply (wf_cur _ W).
  - intros p. apply (wf_dom _ W).
  - done.
  - intros p s Hs. apply (pool_ok_mono w _ p s); auto using wf_pool. apply C.
  - intros p Hp. pose proof (wf_fresh _ W p Hp). pose proof (sc_addr _ _ C). lia.
Qed.

Lemma node_not_current w q : wf w -> q ∈ nodes w -> q <> current_msg_spool.
Proof. intros W Hq ->. by apply (wf_cur _ W). Qed.

Lemma node_iff w q s : wf w -> spools w !! q = Some s -> q <> current_msg_spool -> q ∈ nodes w.
Proof. intros W Hq N. destruct (proj1 (wf_dom _ W q) (ex_intro _ _ Hq)); [done|done]. Qed.

Lemma count_pos w q s : wf w -> spools w !! q = Some s -> (0 <? sp_sub_count s) = negb (bool_decide (first s = [])).
Proof.
  intros W Hq. rewrite (po_count _ _ _ (wf_pool _ W _ _ Hq)). by destruct (first s).
Qed.

Lemma answered_silent w w' xs r : answered w w' xs r -> sent r = [] -> same_received (log w) (log w').
Proof. intros A E t. rewrite (A t), E. by destruct (decide _); rewrite app_nil_r. Qed.

Lemma same_received_silent lg es : silent es -> same_received lg (lg ++ es).
Proof. intros S t. by rewrite received_app, S, app_nil_r. Qed.

Section deliver.
Context `{NgxRbtree positive} `{SubscriberFn} (handlers : channel_spooler_handlers_t).
Context (P Pc : list nchan_msg_t) (start : gmap positive (Z * Z)) (Hist : history P).
Notation sem' X E w := (sem P Pc start X E (spools w) (log w)).
Notation members w l x := (members_at P start (log w) l x).

(** Answering the subscribers of the excepted spool. *)
Lemma sem_answered X p w w' s l ni r :
  wf w -> spools w !! p = Some s ->
  spools w' = <[p := set_subs s l (Z.of_nat (length l)) ni]> (spools w) ->
  answered w w' (ssub_sub <$> first s) r -> sem' X (Some p) w ->
  (forall e, e ∈ first s -> exists a, start !! ssub_sub e = Some a /\
     received (ssub_sub e) (log w) ++ sent r `prefix_of` after P a) ->
  sem' X (Some p) w'.
Proof.
  intros W Hp E A S Hpre. rewrite E. apply (sem_put P Pc start X p s); [|done]. destruct S.
  assert (forall q sq e, q <> p -> spools w !! q = Some sq -> e ∈ first sq ->
    received (ssub_sub e) (log w') = received (ssub_sub e) (log w)) as R.
  { intros q sq e Nq Hq He. rewrite (A (ssub_sub e)), decide_False, app_nil_r; [done|].
    intros (e' & Ee & He')%list_elem_of_fmap. by destruct (sub_unique w q p sq s e e' W Hq Hp He He' Ee). }
  split; auto.
  - intros q sq Hq Nc Ne. destruct (sem_pool0 q sq Hq Nc Ne) as (M & F & X'). split_and!; auto.
    intros e He. destruct (M e He) as (a & Ha & Ea & Da). exists a. rewrite (R q sq e); auto. congruence.
  - intros sc Hc Ne. destruct (sem_cur0 sc Hc Ne) as (F1 & F2 & M). split_and!; auto.
    intros e He. destruct (M e He) as (a & Ha & Ea & Da). exists a.
    rewrite (R current_msg_spool sc e); auto. congruence.
  - intros t a Ha. rewrite (A t). case_decide as Ht; [|rewrite app_nil_r; auto].
    apply list_elem_of_fmap in Ht as (e & -> & He). destruct (Hpre e He) as (a' & Ha' & Pr). congruence.
  - intros t Ht. rewrite (A t), decide_False, app_nil_r; auto.
    intros (e & -> & He)%list_elem_of_fmap. destruct (Hpre e He) as (a' & Ha' & _). congruence.
Qed.

(** Fetching for a spool whose subscribers are at its id; [k] bounds the
    number of messages they have not seen. *)
Definition fetch_spec (fetch : channel_spooler_t -> positive -> outcome (channel_spooler_t * Z)) (k : nat) : Prop :=
  forall w q sq X, wf w -> q ∈ nodes w -> spools w !! q = Some sq -> msg_status sq = MSG_INVALID -> sp_msg sq = None ->
    members w (first sq) (pos (sp_id sq)) -> sem' X (Some q) w ->
    (length (after P (pos (sp_id sq))) < k)%nat -> (P = [] -> from_start sq) ->
    exists w' rc, fetch w q = Ret (w', rc) /\ wf w' /\ sem' X None w' /\ keeps w w' (pos (sp_id sq)).

Lemma moved_on_ok fetch k w q sq X :
  fetch_spec fetch k -> wf w -> q ∈ nodes w -> spools w !! q = Some sq ->
  members w (first sq) (pos (sp_id sq)) -> (msg_status sq = MSG_FOUND \/ sp_msg sq = None) ->
  (q ∈ X \/ sp_msg sq = None /\ (msg_status sq = MSG_INVALID \/
                                  msg_status sq = MSG_EXPECTED /\ after P (pos (sp_id sq)) = [])) ->
  sem' X (Some q) w -> (length (after P (pos (sp_id sq))) < k)%nat -> P <> [] ->
  exists w', moved_on handlers fetch w q = Ret w' /\ wf w' /\ sem' X None w' /\ keeps w w' (pos (sp_id sq)).
Proof.
  intros F W Hn Hq M Fm Hst S Hk NP. pose proof (node_not_current _ _ W Hn) as Nc.
  unfold moved_on. rewrite (get_pool_Some _ _ _ Hq), bind_Ret.
  set (w1 := if (0 <? non_internal_sub_count sq) && h_use handlers then emit w [HandlerUse] else w).
  assert (wf w1 /\ spools w1 = spools w /\ same_received (log w) (log w1) /\ same_config w w1 /\ nodes w1 = nodes w)
    as (W1 & E1 & R1 & C1 & N1).
  { subst w1. destruct (_ && _); split_and!; auto using wf_emit, same_config_refl; try done.
    by apply same_received_silent. }
  assert (sem' X (Some q) w1) as S1 by (rewrite E1; by eapply sem_log).
  assert (members w1 (first sq) (pos (sp_id sq))) as M1 by (by eapply members_at_log).
  assert (spools w1 !! q = Some sq) as Hq1 by (by rewrite E1).
  assert (keeps w w1 (pos (sp_id sq))) as K1 by (split; auto; rewrite E1; auto).
  assert (forall s', spools w1 !! q = Some s' -> first s' = first sq -> sp_id s' = sp_id sq -> sp_msg s' = sp_msg sq ->
    msg_status s' = msg_status sq -> q ∈ X \/ settled P s' -> exists w', Ret w1 = Ret w' /\ wf w' /\ sem' X None w' /\
    keeps w w' (pos (sp_id sq))) as Done.
  { intros s' Hs' E2 E3 E4 E5 Hset. exists w1. split_and!; auto.
    apply (sem_restore P Pc start X q s'); auto; [by rewrite E2, E3|by rewrite E4, E5|done]. }
  rewrite (count_pos w q sq W Hq). case_bool_decide as Ef; cbn [negb].
  { apply (Done sq); auto. destruct Hst as [?|[? [?|[? ?]]]]; [by left|right|right]; split; auto. }
  assert (forall s', sp_id s' = sp_id sq -> first s' = first sq -> sp_sub_count s' = sp_sub_count sq ->
    sp_reserved s' = sp_reserved sq -> msg_status s' = MSG_INVALID -> sp_msg s' = None ->
    exists w', ('(w2, _) ← fetch (put_spool w1 q s') q; Ret w2) = Ret w' /\ wf w' /\ sem' X None w' /\
      keeps w w' (pos (sp_id sq))) as Fetch.
  { intros s' I1 I2 I3 I4 I5 I6.
    destruct (F (put_spool w1 q s') q s' X) as (w2 & rc & -> & W2 & S2 & K2); auto.
    - by apply (wf_set_pool w1 q sq).
    - change (q ∈ nodes w1). by rewrite N1.
    - simpl. by rewrite lookup_insert_eq.
    - rewrite I1, I2. done.
    - cbn [spools put_spool upd_spools log]. by apply (sem_put P Pc start X q sq).
    - by rewrite I1.
    - done.
    - exists w2. rewrite bind_Ret. split_and!; auto. rewrite I1 in K2.
      eapply keeps_trans; [exact K1|]. eapply keeps_trans; [|exact K2].
      eapply (keeps_put w1 _ q sq s'); auto; [by left|]. split; auto. simpl. lia. }
  destruct (msg_status sq) eqn:Est.
  - apply (Done sq); auto. destruct Hst as [?|[_ [?|[? ?]]]]; [by left|done|done].
  - apply (Fetch (set_status sq MSG_INVALID)); auto. simpl. by destruct Fm.
  - rewrite <- (insert_id (spools w1) q sq Hq1) in *. assert (w1 = put_spool w1 q sq) as Ew.
    { unfold put_spool, upd_spools. rewrite insert_id by done. by destruct w1. }
    rewrite Ew. apply (Fetch sq); auto. by destruct Fm.
  - apply (Done sq); auto. destruct Hst as [?|[_ [?|[? ?]]]]; [by left|done|done].
  - apply (Done sq); auto. destruct Hst as [?|[_ [?|[? ?]]]]; [by left|done|done].
  - apply (Done sq); auto. destruct Hst as [?|[_ [?|[? ?]]]]; [by left|done|done].
  - destruct (respond_general_spec handlers w1 q sq None NGX_HTTP_NO_CONTENT false W1 Hq1)
      as (w2 & l & ni & -> & W2 & O2 & Esp & L2 & _ & A2).
    exists w2. split; [done|]. split; [done|].
    pose proof (answered_silent _ _ _ _ A2 eq_refl) as R2.
    assert (sem' X (Some q) w2) as S2.
    { rewrite Esp. apply (sem_put P Pc start X q sq); auto. by eapply sem_log. }
    split.
    + apply (sem_restore P Pc start X q (set_subs sq l (Z.of_nat (length l)) ni)); auto.
      * by rewrite Esp, lookup_insert_eq.
      * eapply members_at_log; [exact R2|]. eapply members_at_sub; [|exact M1]. intros e He.
        apply list_elem_of_fmap. exists e. auto.
      * right. by destruct Fm.
      * destruct Hst as [?|[? [?|[? ?]]]]; [by left|done|]. right. split; [done|]. left. auto.
      * done.
    + eapply keeps_trans; [exact K1|]. eapply (keeps_put w1 _ q sq); eauto; [by left|]. apply O2.
  - apply (Done sq); auto. destruct Hst as [?|[_ [?|[? ?]]]]; [by left|done|done].
Qed.

(** As [keeps], for spools other than [p]. *)
Record keeps_but (w w' : channel_spooler_t) (p : positive) (x : Z * Z) : Prop := {
  kb_pool : forall q sq, q <> current_msg_spool -> q <> p -> spools w !! q = Some sq ->
    lex_lt (pos (sp_id sq)) x -> spools w' !! q = Some sq;
  kb_cur : p <> current_msg_spool -> spools w' !! current_msg_spool = spools w !! current_msg_spool;
  kb_config : same_config w w';
}.

Lemma keeps_but_then w1 w2 w3 p x : keeps_but w1 w2 p x -> keeps w2 w3 x -> keeps_but w1 w3 p x.
Proof. intros [] []. split; eauto using same_config_trans. intros. rewrite <- kb_cur0 by done. done. Qed.

Lemma not_newest i : tree_id i -> time i =? NCHAN_NEWEST_MSGID_TIME = false.
Proof. intros [_ R]. apply Z.eqb_neq. unfold NCHAN_NEWEST_MSGID_TIME. lia. Qed.

Lemma not_passthrough w : wf w -> bool_decide (fetching_strategy w = NCHAN_SPOOL_PASSTHROUGH) = false.
Proof. intros W. apply bool_decide_eq_false. by rewrite (wf_strategy _ W). Qed.

Lemma settled_cases s : settled P s ->
  sp_msg s = None /\ (msg_status s = MSG_INVALID \/ msg_status s = MSG_EXPECTED /\ after P (pos (sp_id s)) = []).
Proof. intros [? [[? ?]|[? ?]]]; auto. Qed.

(** The two ways a spool of the tree moves on to the id of a message. *)
Lemma join_existing fetch k w p q s sq m X :
  fetch_spec fetch k -> wf w -> p ∈ nodes w -> q ∈ nodes w -> p <> q -> spools w !! p = Some s -> spools w !! q = Some sq ->
  pos (sp_id sq) = pos (id m) -> members w (first s) (pos (id m)) -> sem' X (Some p) w ->
  (length (after P (pos (id m))) < k)%nat -> P <> [] ->
  exists w4 c w5 w6 s4, spool_transfer_subscribers w p q false = Ret (w4, c) /\
    spools w4 !! p = Some s4 /\ sp_reserved s4 = 0 /\ destroy_spool handlers w4 p = Ret w5 /\
    moved_on handlers fetch w5 q = Ret w6 /\ wf w6 /\ sem' X None w6 /\ keeps_but w w6 p (pos (id m)).
Proof.
  intros F W Hp Hq Npq Hs Hsq Epos M S Hk NP.
  pose proof (node_not_current _ _ W Hp) as Ncp. pose proof (node_not_current _ _ W Hq) as Ncq.
  destruct (transfer_spec w p q s sq false Npq W Hs Hsq)
    as (w4 & c & l & ni & ni' & E4 & W4 & O4 & Sp4 & Hl & Lg4).
  set (s4 := set_subs s [] 0 ni) in *. set (sq4 := set_subs sq l (Z.of_nat (length l)) ni') in *.
  assert (spools w4 !! p = Some s4) as Hp4 by (by rewrite Sp4, lookup_insert_eq).
  assert (p ∈ nodes w4) as Hn4 by (unfold nodes; rewrite (os_seed _ _ O4); exact Hp).
  destruct (destroy_spool_spec handlers w4 p s4 W4 Hn4 Hp4 eq_refl) as (w5 & E5 & W5 & Sp5 & _ & Lg5 & C5 & N5).
  assert (spools w5 = <[q := sq4]> (delete p (spools w))) as Sp5'.
  { rewrite Sp5, Sp4, delete_insert_eq, <- delete_insert_ne by done. done. }
  assert (q ∈ nodes w5) as Hq5.
  { assert (q ∈ nodes w4) as T by (unfold nodes; rewrite (os_seed _ _ O4); exact Hq).
    rewrite N5 in T. by apply elem_of_cons in T as [->|]. }
  destruct (sem_pool _ _ _ _ _ _ _ S q sq Hsq Ncq ltac:(congruence)) as (Mq & Fq & Stq).
  assert (same_received (log w) (log w5)) as R5 by (intros t; by rewrite Lg5, Lg4).
  assert (members w5 (first sq4) (pos (sp_id sq4))) as M5.
  { eapply members_at_log; [exact R5|]. cbn [first set_subs sq4 sp_id]. rewrite Epos in *.
    intros e He. assert (ssub_sub e ∈ ssub_sub <$> l) as T by (apply list_elem_of_fmap; eauto).
    apply Hl in T as [T|T]; apply list_elem_of_fmap in T as (e' & -> & He'); auto. }
  assert (sem' X (Some q) w5) as S5.
  { rewrite Sp5'. eapply sem_log; [exact R5|]. apply (sem_put P Pc start X q sq); [|by rewrite lookup_delete_ne].
    apply sem_weaken. by apply sem_delete. }
  destruct (moved_on_ok fetch k w5 q sq4 X F W5 Hq5) as (w6 & E6 & W6 & S6 & K6); auto.
  - by rewrite Sp5', lookup_insert_eq.
  - destruct Stq as [?|St]; [by left|right]. by apply settled_cases in St.
  - cbn [sp_id set_subs sq4]. by rewrite Epos.
  - exists w4, c, w5, w6, s4. split_and!; auto.
    + apply (po_reserved _ _ _ (wf_pool _ W _ _ Hs)).
    + cbn [sp_id set_subs sq4] in K6. rewrite Epos in K6. eapply keeps_but_then; [|exact K6]. split.
      * intros r sr Ncr Nr Hr Lr. rewrite Sp5'. rewrite lookup_insert_ne, lookup_delete_ne by
          (try done; intros <-; rewrite Hsq in Hr; injection Hr as <-; rewrite Epos in Lr; by apply lex_lt_irrefl in Lr).
        done.
      * intros _. rewrite Sp5', lookup_insert_ne, lookup_delete_ne by done. done.
      * eapply same_config_trans; [apply O4|done].
Qed.

Lemma move_itself fetch k w p s m X :
  fetch_spec fetch k -> wf w -> p ∈ nodes w -> spools w !! p = Some s -> m ∈ P ->
  (forall q sq, q ∈ nodes w -> spools w !! q = Some sq -> pos (sp_id sq) <> pos (id m)) ->
  members w (first s) (pos (id m)) -> sem' X (Some p) w -> (length (after P (pos (id m))) < k)%nat ->
  exists w1 w2 w6, tree_remove w p = Ret w1 /\ spools w1 !! p = Some s /\ tags w1 = tags w /\
    (let w5 := (ngx_alloc w1).2 in
     tree_insert (put_spool (upd_tags w5 (tags w5)) p (set_pool_id s (id m))) p = Ret w2) /\
    spools w2 !! p = Some (set_pool_id s (id m)) /\
    moved_on handlers fetch (put_spool w2 p (set_msg (set_pool_id s (id m)) None MSG_INVALID)) p = Ret w6 /\
    wf w6 /\ sem' X None w6 /\ keeps_but w w6 p (pos (id m)).
Proof.
  intros F W Hp Hs Hm N M S Hk. pose proof (node_not_current _ _ W Hp) as Ncp.
  destruct (hi_ids _ Hist m Hm) as [Tid _].
  destruct (rename_spec w p s (id m) W Hp Hs Tid N) as (w1 & w2 & E1 & Hp1 & E2 & W2 & N2 & Sp2 & _ & Lg2 & C2 & T1).
  assert (spools w2 !! p = Some (set_pool_id s (id m))) as Hp2 by (by rewrite Sp2, lookup_insert_eq).
  set (s7 := set_msg (set_pool_id s (id m)) None MSG_INVALID). set (w7 := put_spool w2 p s7).
  assert (wf w7) as W7 by (by apply (wf_set_pool w2 p (set_pool_id s (id m)))).
  assert (spools w7 = <[p := s7]> (spools w)) as Sp7.
  { subst w7. cbn [spools put_spool upd_spools]. by rewrite Sp2, insert_insert_eq. }
  assert (P <> []) as NP by (intros ->; by apply elem_of_nil in Hm).
  destruct (moved_on_ok fetch k w7 p s7 X F W7) as (w6 & E6 & W6 & S6 & K6); auto.
  - change (p ∈ nodes w2). by rewrite N2.
  - by rewrite Sp7, lookup_insert_eq.
  - intros e He. cbn [sp_id set_msg set_pool_id s7]. change (log w7) with (log w2). rewrite Lg2. by apply M.
  - rewrite Sp7. change (log w7) with (log w2). rewrite Lg2. by apply (sem_put P Pc start X p s).
  - exists w1, w2, w6. split_and!; auto. eapply keeps_but_then; [|exact K6]. split.
    + intros r sr Ncr Nr Hr Lr. by rewrite Sp7, lookup_insert_ne.
    + intros _. by rewrite Sp7, lookup_insert_ne.
    + eapply same_config_trans; [exact C2|]. split; auto. simpl. lia.
Qed.

Context (now_msec : Z) (ptr_words : positive -> list Z).

(** The state in which [spool_nextmsg] looks for the next spool. *)
Definition next_state (w : channel_spooler_t) : channel_spooler_t :=
  let w1 := (ngx_alloc (ngx_alloc w).2).2 in
  upd_tags w1 (<[next_addr w := TB false (replicate (Z.to_nat NCHAN_MULTITAG_MAX) 0)]> (tags w1)).

Lemma next_state_same w :
  spoolseed (next_state w) = spoolseed w /\ spools (next_state w) = spools w /\
  subscribers (next_state w) = subscribers w /\ log (next_state w) = log w /\ same_config w (next_state w).
Proof. split_and!; try done. split; auto. simpl. lia. Qed.

Lemma next_state_wf w : wf w -> wf (next_state w).
Proof. intros W. destruct (next_state_same w) as (? & ? & ? & ? & ?). by apply (wf_aux w). Qed.

(** What [spool_nextmsg] does before it looks for the next spool. *)
Lemma nextmsg_start fetch w p s i :
  wf w -> spools w !! p = Some s -> single (sp_id s) -> single i -> pos (sp_id s) <> pos i ->
  spool_nextmsg handlers ptr_words fetch w p i =
  (let immortal_spool := time (sp_id s) =? NCHAN_NEWEST_MSGID_TIME in
   '(w3, newspool) ←
     (if negb immortal_spool then find_spool (next_state w) i
      else '(w3, p) ← get_spool (next_state w) i; Ret (w3, Some p));
   '(w4, newspool) ←
     (match newspool with
      | Some newspool =>
          c_assert (bool_decide (p <> newspool));;
          '(w4, _) ← spool_transfer_subscribers w3 p newspool false;
          s4 ← get_pool w4 p;
          w5 ← (if negb immortal_spool && (sp_reserved s4 =? 0) then destroy_spool handlers w4 p else Ret w4);
          Ret (w5, newspool)
      | None =>
          c_assert (negb immortal_spool);;
          w4 ← tree_remove w3 p;
          s4 ← get_pool w4 p;
          let (a2, w5) := ngx_alloc w4 in
          '(th5, id', _) ← nchan_copy_msg_id (tags w5) (sp_id s4) i None (Some a2);
          w6 ← tree_insert (put_spool (upd_tags w5 th5) p (set_pool_id s4 id')) p;
          s6 ← get_pool w6 p;
          Ret (put_spool w6 p (set_msg s6 None MSG_INVALID), p)
      end);
   w5 ← moved_on handlers fetch w4 newspool;
   Ret (upd_tags w5 (delete (next_addr w) (tags w5)))).
Proof.
  intros W Hp Ss Si N. unfold spool_nextmsg. rewrite (get_pool_Some _ _ _ Hp), bind_Ret.
  rewrite (not_passthrough _ W). cbn [andb]. rewrite (surjective_pairing (ngx_alloc w)). cbn beta iota.
  rewrite (surjective_pairing (ngx_alloc (ngx_alloc w).2)). cbn beta iota.
  rewrite copy_msg_id_single by (done || simpl; lia). rewrite bind_Ret.
  rewrite single_update by done. rewrite bind_Ret, single_equal by done.
  rewrite bool_decide_eq_false_2 by done. rewrite bind_Ret. reflexivity.
Qed.

Lemma nextmsg_tree_ok fetch k w p s m X :
  fetch_spec fetch k -> wf w -> p ∈ nodes w -> spools w !! p = Some s -> m ∈ P ->
  lex_lt (pos (sp_id s)) (pos (id m)) -> members w (first s) (pos (id m)) -> sem' X (Some p) w ->
  (length (after P (pos (id m))) < k)%nat ->
  exists w', spool_nextmsg handlers ptr_words fetch w p (id m) = Ret w' /\ wf w' /\ sem' X None w' /\
    keeps_but w w' p (pos (id m)).
Proof.
  intros F W Hp Hs Hm L M S Hk. destruct (node_lookup w p W Hp) as (s' & Hs' & Tid).
  rewrite Hs in Hs'. injection Hs' as <-. destruct (hi_ids _ Hist m Hm) as [Tm _].
  assert (pos (sp_id s) <> pos (id m)) as Npos by (intros E; rewrite E in L; by apply lex_lt_irrefl in L).
  rewrite (nextmsg_start fetch w p s (id m) W Hs (proj1 Tid) (proj1 Tm) Npos), (not_newest _ Tid).
  cbn zeta. cbn [negb andb].
  destruct (next_state_same w) as (E1 & E2 & E3 & E4 & E5). pose proof (next_state_wf w W) as W0.
  set (w0 := next_state w) in *.
  assert (p ∈ nodes w0) as Hp0 by (unfold nodes; rewrite E1; exact Hp).
  assert (spools w0 !! p = Some s) as Hs0 by (by rewrite E2).
  assert (members w0 (first s) (pos (id m))) as M0 by (rewrite E4; exact M).
  assert (sem' X (Some p) w0) as S0 by (rewrite E2, E4; exact S).
  unfold find_spool. rewrite (not_newest _ Tm), (not_passthrough _ W0).
  cbn [orb]. destruct (find_node_spec w0 (id m) W0 Tm) as (r & -> & Hr). rewrite !bind_Ret.
  assert (forall w6, wf w6 -> sem' X None w6 -> keeps_but w0 w6 p (pos (id m)) ->
    exists w', (let w5 := w6 in Ret (upd_tags w5 (delete (next_addr w) (tags w5)))) = Ret w' /\ wf w' /\ sem' X None w' /\
      keeps_but w w' p (pos (id m))) as Fin.
  { intros w6 W6 S6 [K1 K2 K3]. eexists. split; [reflexivity|]. split_and!.
    - apply (wf_aux w6); auto. split; auto. simpl. lia.
    - exact S6.
    - split; [intros; apply K1; auto; by rewrite E2|intros; rewrite <- E2; by apply K2|].
      eapply same_config_trans; [exact E5|]. eapply same_config_trans; [exact K3|]. split; auto. simpl. lia. }
  destruct r as [q|].
  - destruct Hr as (Hq & sq & Hsq & Epos).
    assert (p <> q) as Npq by (intros <-; congruence).
    assert (P <> []) as NP by (intros ->; by apply elem_of_nil in Hm).
    destruct (join_existing fetch k w0 p q s sq m X) as (w4 & c & w5 & w6 & s4 & -> & Hp4 & R4 & E6 & E7 & W6 & S6 & K6); auto.
    rewrite bool_decide_eq_true_2 by done. cbn [c_assert]. rewrite !bind_Ret, (get_pool_Some _ _ _ Hp4), bind_Ret, R4.
    cbn [Z.eqb]. rewrite E6, !bind_Ret, E7, bind_Ret. by apply Fin.
  - destruct (move_itself fetch k w0 p s m X) as (w1 & w2 & w6 & -> & Hp1 & T1 & E6 & Hp2 & E7 & W6 & S6 & K6); auto.
    cbn [c_assert]. rewrite !bind_Ret, (get_pool_Some _ _ _ Hp1), bind_Ret.
    rewrite (surjective_pairing (ngx_alloc w1)). cbn beta iota.
    destruct Tid as [[Tc _] _]. rewrite copy_msg_id_single by (rewrite ?Tc; try lia; apply Tm). rewrite bind_Ret.
    cbn zeta in E6. rewrite E6, bind_Ret, (get_pool_Some _ _ _ Hp2), !bind_Ret, E7, bind_Ret. by apply Fin.
Qed.

(** *** Fetching *)

Lemma answer_cases i :
  (P = [] -> time i = NCHAN_OLDEST_MSGID_TIME) ->
  (exists m rest, answer P i = Some (MSG_FOUND, Some m) /\ after P (pos i) = m :: rest) \/
  (answer P i = Some (MSG_EXPECTED, None) /\ after P (pos i) = []).
Proof.
  intros Hz. unfold answer. destruct P as [|m0 P'].
  - right. by rewrite (Hz eq_refl).
  - destruct (after (m0 :: P') (pos i)) as [|m rest]; [by right|left]. eauto.
Qed.

(** The subscribers of a spool after they were sent the next message. *)
Lemma members_sent w w' l l' x m rest :
  members w l x -> after P x = m :: rest -> answered w w' (ssub_sub <$> l) (RespondMessage m) ->
  (forall e, e ∈ l' -> e ∈ l) -> members w' l' (pos (id m)).
Proof.
  intros M E A I e He. specialize (I e He). destruct (M e I) as (a & Ha & Ea & D). exists a.
  assert (m ∈ P /\ lex_lt x (pos (id m))) as [Hm L].
  { apply after_in. rewrite E. by apply elem_of_cons; left. }
  split; [done|]. split.
  - rewrite (A (ssub_sub e)), decide_True by (apply list_elem_of_fmap; eauto).
    rewrite Ea, E, (after_cons P x m rest Hist E). by rewrite <- app_assoc.
  - right. split; [|eauto]. destruct D as [->|[L' _]]; [done|]. by eapply lex_lt_trans.
Qed.

Lemma members_prefix w l x m rest :
  members w l x -> after P x = m :: rest ->
  forall e, e ∈ l -> exists a, start !! ssub_sub e = Some a /\ received (ssub_sub e) (log w) ++ [m] `prefix_of` after P a.
Proof.
  intros M E e He. destruct (M e He) as (a & Ha & Ea & _). exists a. split; [done|]. rewrite Ea, E.
  exists rest. by rewrite <- app_assoc.
Qed.

Lemma members_prefix_nil w l x :
  members w l x -> forall e, e ∈ l -> exists a, start !! ssub_sub e = Some a /\
    received (ssub_sub e) (log w) ++ [] `prefix_of` after P a.
Proof.
  intros M e He. destruct (M e He) as (a & Ha & Ea & _). exists a. split; [done|]. rewrite Ea, app_nil_r.
  by apply prefix_app_r.
Qed.

Lemma sem_aux X E w w' : spools w' = spools w -> log w' = log w -> sem' X E w -> sem' X E w'.
Proof. by intros -> ->. Qed.

(** The state in which [spool_fetch_msg_callback] looks for the spool: it finds
    the one that asked. *)
Definition callback_state (w : channel_spooler_t) (data : positive) : channel_spooler_t :=
  let w1 := upd_fetches w (fetches w) (filter (fun x => x <> data) (fetchmsg_cb_data_list w)) in
  if h_get_message_finish handlers then emit w1 [GetMessageFinish] else w1.

Lemma callback_state_same w data :
  wf w -> wf (callback_state w data) /\ spools (callback_state w data) = spools w /\
    same_received (log w) (log (callback_state w data)) /\ same_config w (callback_state w data) /\
    nodes (callback_state w data) = nodes w.
Proof.
  intros W. assert (wf (upd_fetches w (fetches w) (filter (fun x => x <> data) (fetchmsg_cb_data_list w)))) as W1.
  { apply (wf_aux w); auto. split; auto. simpl. lia. }
  unfold callback_state. destruct (h_get_message_finish handlers); split_and!; auto using wf_emit; try done;
    first [by apply same_received_silent | by split; auto; simpl; lia].
Qed.

Lemma find_spool_node w p s :
  wf w -> p ∈ nodes w -> spools w !! p = Some s -> tree_id (sp_id s) -> find_spool w (sp_id s) = Ret (w, Some p).
Proof.
  intros W Hp Hs Tid. unfold find_spool. rewrite (not_newest _ Tid), (not_passthrough _ W). cbn [orb].
  destruct (find_node_spec w (sp_id s) W Tid) as (r & -> & Hr). rewrite !bind_Ret. destruct r as [q|].
  - destruct Hr as (Hq & sq & Hsq & Epos). do 3 f_equal. by apply (node_pos_inj w q p sq s).
  - exfalso. by apply (Hr p s).
Qed.

(** [answer] calls back. *)
Lemma callback_ok fetch k w p s data code msg X :
  fetch_spec fetch k -> wf w -> p ∈ nodes w -> spools w !! p = Some s -> sp_msg s = None ->
  fetches w !! data = Some (Fetch true (sp_id s)) -> members w (first s) (pos (sp_id s)) -> sem' X (Some p) w ->
  (length (after P (pos (sp_id s))) < S k)%nat -> (P = [] -> from_start s) -> answer P (sp_id s) = Some (code, msg) ->
  exists w' rc, spool_fetch_msg_callback handlers ptr_words fetch w code msg data = Ret (w', rc) /\ wf w' /\
    sem' X None w' /\ keeps w w' (pos (sp_id s)).
Proof.
  intros F W Hp Hs Hmsg Hd M S Hk Fs Ha. pose proof (node_not_current _ _ W Hp) as Ncp.
  destruct (node_lookup w p W Hp) as (s' & Hs' & Tid). rewrite Hs in Hs'. injection Hs' as <-.
  unfold spool_fetch_msg_callback, get_fetch. rewrite Hd, bind_Ret. cbn [fetch_spooler fetch_msgid c_assert].
  rewrite bind_Ret, (not_passthrough _ W). cbn [negb c_assert]. rewrite bind_Ret. cbn zeta.
  fold (callback_state w data). destruct (callback_state_same w data W) as (W2 & E2 & R2 & C2 & N2).
  set (w2 := callback_state w data) in *.
  assert (spools w2 !! p = Some s) as Hs2 by (by rewrite E2).
  rewrite (find_spool_node w2 p s) by (rewrite ?N2; done). rewrite bind_Ret.
  rewrite (get_pool_Some _ _ _ Hs2), bind_Ret. cbn zeta.
  assert (members w2 (first s) (pos (sp_id s))) as M2 by (by eapply members_at_log).
  assert (sem' X (Some p) w2) as S2 by (rewrite E2; by eapply sem_log).
  assert (forall w4, wf w4 -> sem' X None w4 -> keeps_but w2 w4 p (pos (sp_id s)) ->
    exists w' rc, (w5 ← ('(th, _, _) ← nchan_free_msg_id (tags w4) (sp_id s);
      Ret (upd_fetches (upd_tags w4 th) (delete data (fetches w4)) (fetchmsg_cb_data_list w4)));
      Ret (w5, NGX_OK)) = Ret (w', rc) /\
      wf w' /\ sem' X None w' /\ keeps w w' (pos (sp_id s))) as Fin.
  { intros w4 W4 S4 [K1 K2 K3]. rewrite (single_free _ _ (proj1 Tid)), !bind_Ret. do 2 eexists. split; [reflexivity|].
    split_and!.
    - apply (wf_aux w4); auto. split; auto. simpl. lia.
    - exact S4.
    - split.
      + intros q sq Nq Hq Lq. apply K1; auto; [|by rewrite E2]. intros ->. rewrite Hs in Hq. injection Hq as <-.
        by apply lex_lt_irrefl in Lq.
      + rewrite <- E2. by apply K2.
      + eapply same_config_trans; [exact C2|]. eapply same_config_trans; [exact K3|]. split; auto. simpl. lia. }
  destruct (answer_cases (sp_id s)) as [(m & rest & Em & Ea)|[Em Ea]].
  { intros EP. by apply Fs. }
  - rewrite Ha in Em. injection Em as -> ->.
    set (s3 := set_msg s (Some m) MSG_FOUND). set (w3 := put_spool w2 p s3).
    assert (wf w3) as W3 by (by apply (wf_set_pool w2 p s)).
    assert (spools w3 !! p = Some s3) as Hs3 by (simpl; by rewrite lookup_insert_eq).
    assert (sem' X (Some p) w3) as S3 by (by apply (sem_put P Pc start X p s)).
    destruct (respond_general_spec handlers w3 p s3 (Some m) 0 false W3 Hs3)
      as (w4 & l & ni & -> & W4 & O4 & Sp4 & L4 & _ & A4). rewrite bind_Ret.
    set (s4 := set_subs s3 l (Z.of_nat (length l)) ni) in *.
    assert (sem' X (Some p) w4) as S4.
    { eapply (sem_answered X p w3 w4 s3 l ni); eauto. by eapply members_prefix. }
    assert (m ∈ P /\ lex_lt (pos (sp_id s)) (pos (id m))) as [Hm L].
    { apply after_in. rewrite Ea. by apply elem_of_cons; left. }
    destruct (nextmsg_tree_ok fetch k w4 p s4 m X F W4) as (w5 & -> & W5 & S5 & K5); auto.
    + unfold nodes. rewrite (os_seed _ _ O4). change (p ∈ nodes w2). by rewrite N2.
    + by rewrite Sp4, lookup_insert_eq.
    + by eapply members_sent.
    + rewrite (after_cons P _ m rest Hist Ea). rewrite Ea in Hk. simpl in Hk. lia.
    + rewrite bind_Ret. apply Fin; auto. destruct K5 as [K1 K2 K3]. split.
      * intros q sq Nc Nq Hq Lq. apply K1; auto; [|by eapply lex_lt_trans].
        rewrite Sp4. cbn [spools put_spool upd_spools w3]. by rewrite !lookup_insert_ne.
      * intros _. rewrite K2 by done. rewrite Sp4. cbn [spools put_spool upd_spools w3]. by rewrite !lookup_insert_ne.
      * apply (same_config_trans w2 w3); [by split; auto; simpl; lia|].
        eapply same_config_trans; [apply (os_config _ _ O4)|done].
  - rewrite Ha in Em. injection Em as -> ->.
    destruct (Z.eqb_spec (time (sp_id s)) NCHAN_NTH_MSGID_TIME) as [E|_].
    { destruct Tid as [_ Rt]. rewrite E in Rt. unfold NCHAN_NTH_MSGID_TIME in Rt. lia. }
    set (s3 := set_status s MSG_EXPECTED). set (w3 := put_spool w2 p s3).
    assert (wf w3) as W3 by (by apply (wf_set_pool w2 p s)).
    assert (spools w3 !! p = Some s3) as Hs3 by (simpl; by rewrite lookup_insert_eq).
    assert (sem' X (Some p) w3) as S3 by (by apply (sem_put P Pc start X p s)).
    destruct (respond_general_spec handlers w3 p s3 None NGX_HTTP_NO_CONTENT false W3 Hs3)
      as (w4 & l & ni & -> & W4 & O4 & Sp4 & L4 & _ & A4). rewrite bind_Ret.
    set (s4 := set_subs s3 l (Z.of_nat (length l)) ni) in *.
    assert (spools w4 !! p = Some s4) as Hs4 by (by rewrite Sp4, lookup_insert_eq).
    pose proof (answered_silent _ _ _ _ A4 eq_refl) as R4.
    rewrite bool_decide_eq_true_2 by done. cbn [c_assert]. rewrite bind_Ret, (get_pool_Some _ _ _ Hs4), !bind_Ret.
    set (s5 := set_msg s4 None (msg_status s4)). apply Fin.
    + by apply (wf_set_pool w4 p s4).
    + apply (sem_restore P Pc start X p s5).
      * cbn [spools put_spool upd_spools log]. rewrite Sp4. apply (sem_put P Pc start X p s4); [|by rewrite lookup_insert_eq].
        apply (sem_put P Pc start X p s3); auto. by eapply sem_log.
      * done.
      * cbn [spools put_spool upd_spools]. by rewrite lookup_insert_eq.
      * cbn [log put_spool upd_spools]. eapply members_at_log; [exact R4|]. eapply members_at_sub; [|exact M2].
        intros e He. apply list_elem_of_fmap. eauto.
      * by right.
      * right. split; [done|]. by left.
      * intros EP. left. by apply Fs.
    + split.
      * intros q sq Nc Nq Hq Lq. cbn [spools put_spool upd_spools]. rewrite Sp4. cbn [spools put_spool upd_spools w3].
        by rewrite !lookup_insert_ne.
      * intros _. cbn [spools put_spool upd_spools]. rewrite Sp4. cbn [spools put_spool upd_spools w3].
        by rewrite !lookup_insert_ne.
      * apply (same_config_trans w2 w3); [by split; auto; simpl; lia|].
        eapply same_config_trans; [apply (os_config _ _ O4)|]. split; auto. simpl. lia.
Qed.

(** The stack overflow protector of [spool_fetch_msg]. *)
Definition throttled (s : subscriber_pool_t) : bool :=
  (fetchmsg_prev_msec s =? now_msec) && (NCHAN_SPOOL_FETCHMSG_MAX_TIMES <? fetchmsg_current_count s).

(** Otherwise the store is asked, and its answer given to the callback. *)
Lemma fetch_asks fuel w p s code msg :
  wf w -> p ∈ nodes w -> spools w !! p = Some s -> msg_status s = MSG_INVALID -> sp_msg s = None ->
  throttled s = false -> answer P (sp_id s) = Some (code, msg) ->
  exists w6 s4 data,
    spool_fetch_msg handlers now_msec ptr_words (answer P) (S fuel) w p =
      ('(w7, _) ← spool_fetch_msg_callback handlers ptr_words (spool_fetch_msg handlers now_msec ptr_words (answer P) fuel)
                    w6 code msg data; Ret (w7, NGX_OK)) /\
    wf w6 /\ nodes w6 = nodes w /\ spools w6 = <[p := s4]> (spools w) /\ sp_id s4 = sp_id s /\ first s4 = first s /\
    sp_msg s4 = None /\ fetches w6 !! data = Some (Fetch true (sp_id s)) /\ same_received (log w) (log w6) /\
    same_config w w6.
Proof.
  intros W Hp Hs Hst Hmsg Th Ea. destruct (node_lookup w p W Hp) as (s' & Hs' & Tid).
  rewrite Hs in Hs'. injection Hs' as <-. unfold throttled in Th.
  cbn [spool_fetch_msg]. rewrite (get_pool_Some _ _ _ Hs), bind_Ret, Th.
  cbn zeta. set (s1 := if fetchmsg_prev_msec s =? now_msec then _ else _).
  assert (sp_id s1 = sp_id s /\ first s1 = first s /\ sp_sub_count s1 = sp_sub_count s /\ sp_reserved s1 = sp_reserved s /\
    sp_msg s1 = None /\ msg_status s1 = MSG_INVALID) as (I1 & I2 & I3 & I4 & I5 & I6)
    by (subst s1; destruct (_ =? _); done).
  destruct (wf_ready _ W) as [-> ->]. rewrite bool_decide_eq_true_2 by done. cbn [negb orb].
  rewrite (surjective_pairing (ngx_alloc (put_spool w p s1))). cbn beta iota.
  rewrite (surjective_pairing (ngx_alloc (ngx_alloc (put_spool w p s1)).2)). cbn beta iota.
  rewrite I1, (single_copy_new _ _ _ (proj1 Tid)), bind_Ret, I5, I6, !bool_decide_eq_true_2 by done.
  cbn [c_assert]. rewrite !bind_Ret.
  set (data := (ngx_alloc (put_spool w p s1)).1).
  set (w2 := (ngx_alloc (ngx_alloc (put_spool w p s1)).2).2).
  set (w3 := upd_fetches (upd_tags w2 (tags w2)) (<[data := Fetch true (sp_id s)]> (fetches w2))
               (data :: fetchmsg_cb_data_list w2)).
  set (s4 := set_status s1 MSG_PENDING). set (w4 := put_spool w3 p s4).
  set (w5 := if h_get_message_start handlers then emit w4 [GetMessageStart] else w4).
  assert (wf w4) as W4.
  { apply (wf_set_pool w3 p s1); auto.
    - apply (wf_aux (put_spool w p s1)); auto; [by apply (wf_set_pool w p s)|]. split; auto. simpl. lia.
    - simpl. by rewrite lookup_insert_eq. }
  assert (wf w5 /\ spools w5 = spools w4 /\ same_received (log w) (log w5) /\ same_config w4 w5 /\ nodes w5 = nodes w /\
    fetches w5 = fetches w4 /\ fetching_strategy w5 = fetching_strategy w) as (W5 & E5 & R5 & C5 & N5 & F5 & St5).
  { subst w5. destruct (h_get_message_start handlers); split_and!; auto using wf_emit; try done;
      first [by apply same_received_silent | by split; auto; simpl; lia]. }
  rewrite St5, (wf_strategy _ W). destruct (decide _) as [E|_]; [discriminate E|]. rewrite Ea.
  set (w6 := emit w5 [GetMessage (sp_id s) data]). exists w6, s4, data. split_and!; auto.
  - by apply wf_emit.
  - cbn [spools emit w6]. rewrite E5. cbn [spools put_spool upd_spools w4 w3 upd_fetches upd_tags w2]. simpl.
    by rewrite insert_insert_eq.
  - cbn [fetches emit w6]. rewrite F5. cbn [fetches put_spool upd_spools w4 w3 upd_fetches]. by rewrite lookup_insert_eq.
  - intros t. cbn [log emit w6]. rewrite received_app, (R5 t). simpl. by rewrite app_nil_r.
  - apply (same_config_trans w w4); [split; auto; simpl; lia|].
    eapply same_config_trans; [exact C5|]. split; auto. simpl. lia.
Qed.

Lemma fetch_throttled fuel w p s :
  spools w !! p = Some s -> throttled s = true ->
  spool_fetch_msg handlers now_msec ptr_words (answer P) (S fuel) w p =
    Ret (put_spool w p (set_fetch s (fetchmsg_prev_msec s) 0 true), NGX_DONE).
Proof. unfold throttled. intros Hs Th. cbn [spool_fetch_msg]. rewrite (get_pool_Some _ _ _ Hs), bind_Ret. by rewrite Th. Qed.

Lemma fetch_ok fuel :
  fetch_spec (spool_fetch_msg handlers now_msec ptr_words (answer P) fuel) fuel.
Proof.
  induction fuel as [|fuel IH]; intros w p s X W Hp Hs Hst Hmsg M S Hk Fs; [lia|].
  pose proof (node_not_current _ _ W Hp) as Ncp. destruct (throttled s) eqn:Th.
  { rewrite (fetch_throttled fuel w p s Hs Th).
    set (s1 := set_fetch s (fetchmsg_prev_msec s) 0 true). exists (put_spool w p s1), NGX_DONE. split; [done|].
    split; [by apply (wf_set_pool w p s)|]. split.
    - apply (sem_restore P Pc start X p s1); auto.
      + by apply (sem_put P Pc start X p s).
      + cbn [spools put_spool upd_spools]. by rewrite lookup_insert_eq.
      + right. split; [done|]. right. auto.
    - eapply (keeps_put w _ p s); auto; [by left|]. split; auto. simpl. lia. }
  destruct (answer P (sp_id s)) as [[code msg]|] eqn:Ea; [|by unfold answer in Ea].
  destruct (fetch_asks fuel w p s code msg W Hp Hs Hst Hmsg Th Ea)
    as (w6 & s4 & data & -> & W6 & N6 & E6 & I1 & I2 & I3 & D6 & R6 & C6).
  destruct (callback_ok (spool_fetch_msg handlers now_msec ptr_words (answer P) fuel) fuel w6 p s4 data code msg X)
    as (w7 & rc & -> & W7 & S7 & K7); rewrite ?I1, ?I2, ?E6; auto.
  - by rewrite N6.
  - by rewrite lookup_insert_eq.
  - by eapply members_at_log.
  - eapply sem_log; [exact R6|]. by apply (sem_put P Pc start X p s).
  - unfold from_start. by rewrite I1.
  - exists w7, NGX_OK. rewrite bind_Ret. split_and!; auto. rewrite I1 in K7.
    eapply keeps_trans; [|exact K7]. eapply (keeps_put w _ p s s4); auto. by left.
Qed.

(** *** The readers of the newest spool *)

(** Once nobody waits in the newest spool, it can be what it should. *)
Lemma sem_restore_cur X s sp lg :
  sem P Pc start X (Some current_msg_spool) sp lg -> sp !! current_msg_spool = Some s ->
  msg_status s = MSG_EXPECTED -> sp_msg s = None -> members_cur Pc start lg (first s) ->
  sem P Pc start X None sp lg.
Proof.
  intros [] Hs E1 E2 M. split; auto.
  - intros p sp' Hp Nc _. apply sem_pool0; congruence.
  - intros s' Hs' _. rewrite Hs in Hs'. by injection Hs' as <-.
  - intros EP p s' Hp Nc _. apply (sem_empty0 EP p); congruence.
Qed.

(** A new spool without subscribers. *)
Lemma sem_new X E p s sp lg :
  sem P Pc start X E sp lg -> p <> current_msg_spool -> first s = [] -> sp_msg s = None ->
  msg_status s = MSG_INVALID -> (P = [] -> from_start s \/ idle s) ->
  sem P Pc start X E (<[p := s]> sp) lg.
Proof.
  intros [] Np Ef Em Es Ez. split; auto.
  - intros q sq Hq Nc Ne. destruct (decide (p = q)) as [<-|Npq].
    + rewrite lookup_insert_eq in Hq. injection Hq as <-. rewrite Ef. split_and!; auto.
      * by intros e ?%elem_of_nil.
      * right. split; [done|]. right. auto.
    + rewrite lookup_insert_ne in Hq by done. auto.
  - intros sq Hq Ne. rewrite lookup_insert_ne in Hq by done. auto.
  - intros EP q sq Hq Nc Ne. destruct (decide (p = q)) as [<-|Npq].
    + rewrite lookup_insert_eq in Hq. injection Hq as <-. auto.
    + rewrite lookup_insert_ne in Hq by done. by apply (sem_empty0 EP q).
Qed.

(** The newest spool, after its subscribers were sent [m]. *)
Lemma nextmsg_cur_ok fetch k w s m X :
  fetch_spec fetch k -> wf w -> spools w !! current_msg_spool = Some s -> m ∈ P ->
  msg_status s = MSG_EXPECTED -> sp_msg s = None ->
  members w (first s) (pos (id m)) -> sem' X (Some current_msg_spool) w ->
  (length (after P (pos (id m))) < k)%nat ->
  exists w', spool_nextmsg handlers ptr_words fetch w current_msg_spool (id m) = Ret w' /\ wf w' /\ sem' X None w' /\
    same_config w w'.
Proof.
  intros F W Hs Hm E1 E2 M S Hk. destruct (hi_ids _ Hist m Hm) as [Tm _].
  pose proof (wf_cur_id _ W _ Hs) as Hid.
  assert (single (sp_id s)) as Ss by (rewrite Hid; split; [done|]; unfold latest_msg_id; simpl; eauto 10).
  assert (pos (sp_id s) <> pos (id m)) as Npos.
  { rewrite Hid. destruct Tm as [_ Rt]. intros E. injection E as Et _. rewrite <- Et in Rt.
    unfold NCHAN_NEWEST_MSGID_TIME in Rt. lia. }
  rewrite (nextmsg_start fetch w _ s (id m) W Hs Ss (proj1 Tm) Npos). rewrite Hid. cbn zeta. cbn [time latest_msg_id NCHAN_NEWEST_MSGID].
  rewrite Z.eqb_refl. cbn [negb andb].
  destruct (next_state_same w) as (N1 & N2 & N3 & N4 & N5). pose proof (next_state_wf w W) as W0.
  set (w0 := next_state w) in *.
  destruct (get_spool_spec w0 (id m) W0 Tm) as (w3 & q & sq & -> & W3 & Hq & Hsq & Epos & Es3 & Lg3 & C3 & Hcase).
  rewrite !bind_Ret. pose proof (node_not_current _ _ W3 Hq) as Ncq.
  assert (P <> []) as NP by (intros ->; by apply elem_of_nil in Hm).
  assert (sem' X (Some current_msg_spool) w3 /\ spools w3 !! current_msg_spool = Some s) as [S3 Hs3].
  { rewrite Lg3, N4. destruct Hcase as [->|(Hn & -> & ->)].
    - by rewrite N2.
    - rewrite N2, lookup_insert_ne by done. split; [|done]. by apply sem_new. }
  rewrite bool_decide_eq_true_2 by done. cbn [c_assert]. rewrite bind_Ret.
  destruct (transfer_spec w3 current_msg_spool q s sq false (not_eq_sym Ncq) W3 Hs3 Hsq)
    as (w4 & c & l & ni & ni' & -> & W4 & O4 & Sp4 & Hl & Lg4). rewrite bind_Ret.
  set (s4 := set_subs s [] 0 ni) in *. set (sq4 := set_subs sq l (Z.of_nat (length l)) ni') in *.
  assert (spools w4 !! current_msg_spool = Some s4) as Hs4 by (by rewrite Sp4, lookup_insert_eq).
  rewrite (get_pool_Some _ _ _ Hs4), !bind_Ret.
  destruct (sem_pool _ _ _ _ _ _ _ S3 q sq Hsq Ncq ltac:(congruence)) as (Mq & Fq & Stq).
  assert (same_received (log w) (log w4)) as R4 by (intros t; by rewrite Lg4, Lg3, N4).
  destruct (moved_on_ok fetch k w4 q sq4 X F W4) as (w6 & E6 & W6 & S6 & K6); auto.
  - unfold nodes. rewrite (os_seed _ _ O4). exact Hq.
  - rewrite Sp4, lookup_insert_ne by done. by rewrite lookup_insert_eq.
  - eapply members_at_log; [intros t; by rewrite Lg4|]. cbn [first set_subs sq4 sp_id]. rewrite Epos in *.
    assert (members w3 (first s) (pos (id m))) as M3 by (rewrite Lg3, N4; exact M).
    intros e He. assert (ssub_sub e ∈ ssub_sub <$> l) as T by (apply list_elem_of_fmap; eauto).
    apply Hl in T as [T|T]; apply list_elem_of_fmap in T as (e' & -> & He'); auto.
  - destruct Stq as [?|St]; [by left|right]. by apply settled_cases in St.
  - rewrite Sp4, Lg4. rewrite insert_insert_ne by done. apply (sem_put P Pc start X q sq); [|by rewrite lookup_insert_ne].
    apply sem_weaken. apply (sem_restore_cur X s4); auto.
    + by apply (sem_put P Pc start X current_msg_spool s).
    + by rewrite lookup_insert_eq.
    + by intros e ?%elem_of_nil.
  - cbn [sp_id set_subs sq4]. by rewrite Epos.
  - rewrite E6, bind_Ret. eexists. split; [reflexivity|]. split_and!.
    + apply (wf_aux w6); auto. split; auto. simpl. lia.
    + exact S6.
    + eapply same_config_trans; [exact N5|]. eapply same_config_trans; [exact C3|].
      eapply same_config_trans; [apply O4|]. eapply same_config_trans; [apply K6|]. split; auto. simpl. lia.
Qed.
End deliver.
