(* ===== verification/SpoolMissed.v ===== *)
(** * Readers of messages that are gone

    On a channel without messages, a subscriber that asks for what follows a
    message is told that it is not found, and [spool_missed] moves it to the
    spool of the oldest message, which is then fetched whatever its state. *)

From stdpp Require Import sorting.
From S2P Require Import Prelude Nginx MsgId MsgIdFacts Msg ChanHead RbTree RbTreeFacts Spool SpoolWf SpoolDeliver.
Open Scope Z_scope.

(** A spool of the oldest message that waits for the first one (whether or not
    somebody is still in it), and would be fetched now. *)
Definition oldest_waits (now : Z) (w : channel_spooler_t) : Prop :=
  exists q s, spools w !! q = Some s /\ q <> current_msg_spool /\ pos (sp_id s) = (0, 0) /\
    msg_status s = MSG_EXPECTED /\ throttled now s = false.

Section missed.
Context `{NgxRbtree positive} `{SubscriberFn} (handlers : channel_spooler_handlers_t).
Context (now : Z) (ptr_words : positive -> list Z) (start : gmap positive (Z * Z)).
Notation sem' X E w := (sem [] [] start X E (spools w) (log w)).
Notation fetch := (spool_fetch_msg handlers now ptr_words (answer [])).

Lemma empty_history : history [].
Proof. split; [by intros m ?%elem_of_nil|constructor]. Qed.

Lemma oldest_tree : tree_id oldest_msg_id.
Proof. split; [|vm_compute; by split]. split; [done|]. unfold oldest_msg_id. simpl. eauto 10. Qed.

(** A spool that waits is not to be fetched. *)
Lemma fetch_waiting fuel w q s :
  wf w -> q ∈ nodes w -> spools w !! q = Some s -> msg_status s = MSG_EXPECTED -> throttled now s = false ->
  fetch (S fuel) w q = Crash.
Proof.
  intros W Hq Hs Est Th. destruct (node_lookup w q W Hq) as (s' & Hs' & Tid). rewrite Hs in Hs'. injection Hs' as <-.
  unfold throttled in Th. cbn [spool_fetch_msg]. rewrite (get_pool_Some _ _ _ Hs), bind_Ret, Th. cbn zeta.
  set (s1 := if fetchmsg_prev_msec s =? now then _ else _).
  assert (sp_id s1 = sp_id s /\ msg_status s1 = MSG_EXPECTED) as [I1 I2] by (subst s1; destruct (_ =? _); done).
  destruct (wf_ready _ W) as [-> ->]. rewrite bool_decide_eq_true_2 by done. cbn [negb orb].
  rewrite (surjective_pairing (ngx_alloc (put_spool w q s1))). cbn beta iota.
  rewrite (surjective_pairing (ngx_alloc (ngx_alloc (put_spool w q s1)).2)). cbn beta iota.
  rewrite I1, (single_copy_new _ _ _ (proj1 Tid)), bind_Ret, I2, (bool_decide_eq_false_2 (MSG_EXPECTED = MSG_INVALID)) by done.
  by destruct (bool_decide (sp_msg s1 = None)).
Qed.

(** The spool of the oldest message is fetched, with whoever waits in it. *)
Lemma fetch_oldest fuel w q s :
  wf w -> q ∈ nodes w -> spools w !! q = Some s -> from_start s -> members_at [] start (log w) (first s) (pos (sp_id s)) ->
  sp_msg s = None -> msg_status s = MSG_INVALID \/ msg_status s = MSG_EXPECTED -> sem' [] (Some q) w ->
  (msg_status s = MSG_EXPECTED /\ throttled now s = false -> fetch (S fuel) w q = Crash) /\
  (~ (msg_status s = MSG_EXPECTED /\ throttled now s = false) ->
   exists w' rc, fetch (S fuel) w q = Ret (w', rc) /\ wf w' /\ sem' [] None w' /\ same_config w w').
Proof.
  intros W Hq Hs Fs M Em St S. pose proof (node_not_current _ _ W Hq) as Nc. split.
  - intros [Est Th]. by apply (fetch_waiting fuel w q s).
  - intros N. destruct St as [Est|Est].
    + destruct (fetch_ok handlers [] [] start empty_history now ptr_words (Datatypes.S fuel) w q s [])
        as (w' & rc & E & W' & S' & K'); auto; [simpl; lia|]. exists w', rc. split_and!; auto. apply K'.
    + destruct (throttled now s) eqn:Th; [|by destruct N].
      rewrite (fetch_throttled handlers [] now ptr_words fuel w q s Hs Th).
      set (s1 := set_fetch s (fetchmsg_prev_msec s) 0 true). exists (put_spool w q s1), NGX_DONE. split_and!; auto.
      * by apply (wf_set_pool w q s).
      * apply (sem_restore [] [] start [] q s1); auto.
        -- by apply (sem_put [] [] start [] q s).
        -- cbn [spools put_spool upd_spools]. by rewrite lookup_insert_eq.
        -- right. split; [done|]. left. split; [done|]. reflexivity.
      * split; auto. simpl. lia.
Qed.

(** The spool that [spool_missed] moves the subscribers of [p] to, with them in
    it and [p] gone. *)
Lemma missed_moves w p s :
  wf w -> p ∈ nodes w -> spools w !! p = Some s -> time (sp_id s) <> NCHAN_OLDEST_MSGID_TIME ->
  members_at [] start (log w) (first s) (0, 0) -> sem' [] (Some p) w ->
  exists w4 q sq, wf w4 /\ q ∈ nodes w4 /\ spools w4 !! q = Some sq /\ from_start sq /\ same_config w w4 /\
    members_at [] start (log w4) (first sq) (pos (sp_id sq)) /\ sp_msg sq = None /\
    (msg_status sq = MSG_INVALID \/ msg_status sq = MSG_EXPECTED) /\ sem' [] (Some q) w4 /\
    (oldest_waits now w <-> msg_status sq = MSG_EXPECTED /\ throttled now sq = false) /\
    forall fetch' : channel_spooler_t -> positive -> outcome (channel_spooler_t * Z),
      spool_missed handlers fetch' w p MSG_NOTFOUND = ('(w5, _) ← fetch' w4 q; Ret w5).
Proof.
  intros W Hp Hs Nt M S. pose proof (node_not_current _ _ W Hp) as Ncp.
  set (s0 := set_status s MSG_NOTFOUND). set (w0 := put_spool w p s0).
  assert (wf w0) as W0 by (by apply (wf_set_pool w p s)).
  assert (spools w0 !! p = Some s0) as Hs0 by (simpl; by rewrite lookup_insert_eq).
  destruct (respond_general_spec handlers w0 p s0 None NGX_HTTP_NO_CONTENT false W0 Hs0)
    as (w1 & l & ni & E1 & W1 & O1 & Sp1 & L1 & _ & A1).
  set (s1 := set_subs s0 l (Z.of_nat (length l)) ni) in *. pose proof (answered_silent _ _ _ _ A1 eq_refl) as R1.
  assert (spools w1 = <[p := s1]> (spools w)) as Sp1'.
  { rewrite Sp1. cbn [spools put_spool upd_spools w0]. by rewrite insert_insert_eq. }
  assert (spools w1 !! p = Some s1) as Hs1 by (by rewrite Sp1', lookup_insert_eq).
  assert (sem' [] (Some p) w1) as S1.
  { rewrite Sp1'. apply (sem_put [] [] start [] p s); auto. by eapply sem_log. }
  destruct (get_spool_spec w1 oldest_msg_id W1 oldest_tree)
    as (w2 & q & sq & E2 & W2 & Hq & Hsq & Epos & _ & Lg2 & C2 & D2).
  pose proof (node_not_current _ _ W2 Hq) as Ncq.
  assert (p <> q /\ spools w2 !! p = Some s1 /\ p ∈ nodes w2 /\ sem' [] (Some p) w2) as (Npq & Hs2 & Hp2 & S2).
  { assert (spools w2 !! p = Some s1) as Hs2.
    { destruct D2 as [->|(Hn & _ & ->)]; [done|]. rewrite lookup_insert_ne; [done|]. intros ->. congruence. }
    split_and!; auto.
    - intros <-. rewrite Hs2 in Hsq. injection Hsq as <-. apply Nt. by injection Epos.
    - by eapply node_iff.
    - rewrite Lg2. destruct D2 as [->|(Hn & -> & ->)]; [done|]. apply sem_new; auto. intros _. by right. }
  destruct (transfer_spec w2 p q s1 sq true Npq W2 Hs2 Hsq) as (w3 & c & l' & ni3 & ni3' & E3 & W3 & O3 & Sp3 & Hl & Lg3).
  set (s3 := set_subs s1 [] 0 ni3) in *. set (sq3 := set_subs sq l' (Z.of_nat (length l')) ni3') in *.
  assert (spools w3 !! p = Some s3) as Hs3 by (by rewrite Sp3, lookup_insert_eq).
  assert (nodes w3 = nodes w2) as N3 by (unfold nodes; by rewrite (os_seed _ _ O3)).
  destruct (destroy_spool_spec handlers w3 p s3 W3 ltac:(by rewrite N3) Hs3 eq_refl)
    as (w4 & E4 & W4 & Sp4 & _ & Lg4 & C4 & P4).
  assert (spools w4 = <[q := sq3]> (delete p (spools w2))) as Sp4'.
  { by rewrite Sp4, Sp3, delete_insert_eq, <- delete_insert_ne. }
  assert (same_received (log w) (log w4)) as R4 by (intros t; by rewrite Lg4, Lg3, Lg2, R1).
  destruct (sem_pool _ _ _ _ _ _ _ S2 q sq Hsq Ncq ltac:(congruence)) as (Mq & _ & [?%elem_of_nil|St]); [done|].
  apply settled_cases in St as [Em St].
  exists w4, q, sq3. split_and!; auto.
  - assert (q ∈ nodes w3) as T by (by rewrite N3). rewrite P4 in T. by apply elem_of_cons in T as [->|].
  - by rewrite Sp4', lookup_insert_eq.
  - unfold from_start. cbn [sp_id set_subs sq3]. rewrite Epos. split; [by injection Epos|]. by apply lex_lt_irrefl.
  - apply (same_config_trans w w0); [split; auto; simpl; lia|]. eapply same_config_trans; [apply O1|].
    eapply same_config_trans; [exact C2|]. by eapply same_config_trans; [apply O3|].
  - cbn [sp_id set_subs sq3 first]. rewrite Epos in *. intros e He.
    assert (ssub_sub e ∈ ssub_sub <$> l') as T by (apply list_elem_of_fmap; eauto).
    apply Hl in T as [T|T]; apply list_elem_of_fmap in T as (e' & -> & He').
    + destruct (M e' (L1 _ He')) as (a & ? & ? & ?). exists a. by rewrite R4.
    + destruct (Mq e' He') as (a & ? & Ea & ?). exists a. rewrite R4. by rewrite Lg2, R1 in Ea.
  - destruct St as [?|[? _]]; auto.
  - rewrite Sp4'. eapply sem_log; [intros t; by rewrite Lg4, Lg3|].
    apply (sem_put [] [] start [] q sq); [|by rewrite lookup_delete_ne]. apply sem_weaken. by apply sem_delete.
  - assert (forall r, r <> p -> spools w1 !! r = spools w !! r) as K1 by (intros; by rewrite Sp1', lookup_insert_ne).
    change (msg_status sq3) with (msg_status sq). change (throttled now sq3) with (throttled now sq). split.
    + intros (r & sr & Hr & Ncr & Er & Est & Th).
      assert (r <> p) as Nr by (intros ->; rewrite Hs in Hr; injection Hr as <-; apply Nt; by injection Er).
      assert (spools w2 !! r = Some sr) as Hr2.
      { rewrite <- K1 in Hr by done. destruct D2 as [->|(Hn & _ & ->)]; [done|]. rewrite lookup_insert_ne; [done|].
        intros ->. congruence. }
      assert (r = q) as -> by (apply (node_pos_inj w2 r q sr sq); eauto using node_iff; by rewrite Er, Epos).
      rewrite Hsq in Hr2. injection Hr2 as <-. done.
    + intros [Est Th]. exists q, sq. split_and!; auto. destruct D2 as [->|(_ & -> & _)]; [|done]. by rewrite <- K1.
  - intros fetch'. unfold spool_missed. rewrite (get_pool_Some _ _ _ Hs), bind_Ret.
    fold s0 w0. rewrite E1, bind_Ret, E2, bind_Ret, decide_True by done. rewrite E3, bind_Ret.
    rewrite (get_pool_Some _ _ _ Hs3), bind_Ret. change (sp_reserved s3) with (sp_reserved s).
    rewrite (po_reserved _ _ _ (wf_pool _ W _ _ Hs)). cbn [Z.eqb]. by rewrite E4, bind_Ret.
Qed.

Lemma oldest_waits_put w w' p s s' :
  spools w !! p = Some s -> time (sp_id s) <> NCHAN_OLDEST_MSGID_TIME -> sp_id s' = sp_id s ->
  spools w' = <[p := s']> (spools w) -> oldest_waits now w' <-> oldest_waits now w.
Proof.
  intros Hp Nt Ei E. unfold oldest_waits. rewrite E.
  enough (forall q sq, pos (sp_id sq) = (0, 0) -> <[p := s']> (spools w) !! q = Some sq <-> spools w !! q = Some sq) as K.
  { split; intros (q & sq & Hq & ? & Eq & ? & ?); exists q, sq; split_and!; auto; by apply K. }
  intros q sq Eq. destruct (decide (p = q)) as [<-|]; [|by rewrite lookup_insert_ne].
  rewrite lookup_insert_eq, Hp. split; intros [= <-]; destruct Nt; [rewrite <- Ei|]; by injection Eq.
Qed.

Lemma oldest_waits_new w w' p s :
  spools w !! p = None -> msg_status s = MSG_INVALID -> spools w' = <[p := s]> (spools w) ->
  oldest_waits now w' <-> oldest_waits now w.
Proof.
  intros Hp Es E. unfold oldest_waits. rewrite E. split; intros (q & sq & Hq & R); exists q, sq; split; auto.
  - destruct (decide (p = q)) as [<-|]; [|by rewrite lookup_insert_ne in Hq].
    rewrite lookup_insert_eq in Hq. injection Hq as <-. destruct R as (_ & _ & ? & _). congruence.
  - rewrite lookup_insert_ne; [done|]. intros <-. congruence.
Qed.

(** A spool of what follows a message that is gone is fetched: the worker
    aborts just when a spool of the oldest message waits. *)
Lemma fetch_missed fuel w p s :
  wf w -> p ∈ nodes w -> spools w !! p = Some s -> msg_status s = MSG_INVALID -> sp_msg s = None ->
  fetchmsg_current_count s = 0 -> time (sp_id s) <> NCHAN_OLDEST_MSGID_TIME ->
  members_at [] start (log w) (first s) (0, 0) -> sem' [] (Some p) w ->
  (oldest_waits now w -> fetch (S (S fuel)) w p = Crash) /\
  (~ oldest_waits now w ->
   exists w' rc, fetch (S (S fuel)) w p = Ret (w', rc) /\ wf w' /\ sem' [] None w' /\ same_config w w').
Proof.
  intros W Hp Hs Est Em Ec Nt M S.
  assert (throttled now s = false) as Th by (unfold throttled; rewrite Ec; apply andb_false_r).
  assert (answer [] (sp_id s) = Some (MSG_NOTFOUND, None)) as Ea by (unfold answer; by rewrite (proj2 (Z.eqb_neq _ _) Nt)).
  destruct (fetch_asks handlers [] now ptr_words (Datatypes.S fuel) w p s _ _ W Hp Hs Est Em Th Ea)
    as (w6 & s4 & data & -> & W6 & N6 & E6 & I1 & I2 & I3 & D6 & R6 & C6).
  assert (spools w6 !! p = Some s4) as Hs6 by (by rewrite E6, lookup_insert_eq).
  destruct (node_lookup w p W Hp) as (s' & Hs' & Tid). rewrite Hs in Hs'. injection Hs' as <-.
  unfold spool_fetch_msg_callback, get_fetch. rewrite D6, bind_Ret. cbn [fetch_spooler fetch_msgid c_assert].
  rewrite bind_Ret, (not_passthrough _ W6). cbn [negb c_assert]. rewrite bind_Ret. cbn zeta.
  fold (callback_state handlers w6 data). destruct (callback_state_same handlers w6 data W6) as (W2 & E2 & R2 & C2 & N2).
  set (w2 := callback_state handlers w6 data) in *.
  assert (p ∈ nodes w2) as Hp2 by (by rewrite N2, N6).
  assert (spools w2 !! p = Some s4) as Hs2 by (by rewrite E2).
  pose proof (find_spool_node w2 p s4 W2 Hp2 Hs2 ltac:(by rewrite I1)) as Ef. rewrite I1 in Ef.
  rewrite Ef, bind_Ret, (get_pool_Some _ _ _ Hs2), bind_Ret. cbn zeta.
  rewrite (wf_strategy _ W6), decide_False by done.
  assert (same_received (log w) (log w2)) as R by (intros t; by rewrite R2, R6).
  assert (sem' [] (Some p) w2) as S2.
  { rewrite E2, E6. eapply sem_log; [exact R|]. by apply (sem_put [] [] start [] p s). }
  assert (members_at [] start (log w2) (first s4) (0, 0)) as M2 by (rewrite I2; by eapply members_at_log).
  destruct (missed_moves w2 p s4 W2 Hp2 Hs2 ltac:(by rewrite I1) M2 S2)
    as (w4 & q & sq & W4 & Hq & Hsq & Fs & C4 & M4 & Em4 & St4 & S4 & Ow & ->).
  assert (oldest_waits now w2 <-> oldest_waits now w) as Ow2.
  { apply (oldest_waits_put w w2 p s s4); auto. by rewrite E2. }
  destruct (fetch_oldest fuel w4 q sq W4 Hq Hsq Fs M4 Em4 St4 S4) as [Cr Rt]. split.
  - intros O. rewrite Cr; [done|]. apply Ow, Ow2, O.
  - intros NO. destruct Rt as (w5 & rc & -> & W5 & S5 & C5); [by rewrite <- Ow, Ow2|].
    rewrite !bind_Ret, (single_free _ _ (proj1 Tid)), !bind_Ret. do 2 eexists. split; [reflexivity|]. split_and!.
    + apply (wf_aux w5); auto. split; auto. simpl. lia.
    + exact S5.
    + eapply same_config_trans; [exact C6|]. eapply same_config_trans; [exact C2|]. eapply same_config_trans; [exact C4|].
      eapply same_config_trans; [exact C5|]. split; auto. simpl. lia.
Qed.
End missed.
