(* ===== verification/SpoolRun.v ===== *)
(** * Runs of a spooler

    Subscriptions, publications, timers and departures in any order, on a
    channel whose store answers at once: the operations never abort, and every
    subscriber gets the messages after its id once, in order, to the last. *)

From stdpp Require Import sorting.
From S2P Require Import Prelude Nginx MsgId MsgIdFacts Msg ChanHead RbTree RbTreeFacts Spool SpoolWf SpoolRange SpoolDeliver SpoolMissed.
Open Scope Z_scope.

(** ** Changes of viewpoint *)

Lemma sem_cur_irrelevant P Pc Pc' start X sp lg :
  sem P Pc start X (Some current_msg_spool) sp lg -> sem P Pc' start X (Some current_msg_spool) sp lg.
Proof. intros []. split; auto. intros s _ N. done. Qed.

Lemma sem_except P Pc start X X' p sp lg :
  (forall q, q ∈ X -> q = p \/ q ∈ X') -> sem P Pc start X None sp lg -> sem P Pc start X' (Some p) sp lg.
Proof.
  intros I []. split; auto.
  - intros q s Hq Nc Ne. destruct (sem_pool q s Hq Nc) as (? & ? & [Hx|]); auto.
    destruct (I q Hx) as [->|]; [done|auto].
  - intros EP q s Hq Nc _. by apply (sem_empty EP q).
Qed.

(** A subscriber that has not been seen yet may start anywhere. *)
Lemma sem_start P Pc start X E sp lg t a :
  start !! t = None -> sem P Pc start X E sp lg -> sem P Pc (<[t := a]> start) X E sp lg.
Proof.
  intros Ht []. assert (forall e b, start !! ssub_sub e = Some b -> <[t := a]> start !! ssub_sub e = Some b) as K.
  { intros e b Hb. rewrite lookup_insert_ne by congruence. done. }
  split; auto.
  - intros p s Hp Nc Ne. destruct (sem_pool p s Hp Nc Ne) as (M & ? & ?). split_and!; auto.
    intros e He. destruct (M e He) as (b & Hb & D). exists b. auto.
  - intros s Hs Ne. destruct (sem_cur s Hs Ne) as (? & ? & M). split_and!; auto.
    intros e He. destruct (M e He) as (b & Hb & D). exists b. auto.
  - intros t' b. destruct (decide (t = t')) as [<-|]; [|rewrite lookup_insert_ne by done; auto].
    intros _. rewrite sem_fresh by done. apply prefix_nil.
  - intros t'. destruct (decide (t = t')) as [<-|]; [by rewrite lookup_insert_eq|].
    rewrite lookup_insert_ne by done. auto.
Qed.

Lemma after_snoc_newer P m x : lex_lt x (pos (id m)) -> after (P ++ [m]) x = after P x ++ [m].
Proof. intros L. by rewrite after_app, decide_True. Qed.
Lemma after_snoc_older P m x : ~ lex_lt x (pos (id m)) -> after (P ++ [m]) x = after P x.
Proof. intros L. by rewrite after_app, decide_False, app_nil_r. Qed.

Lemma history_last P m m' : history (P ++ [m]) -> m' ∈ P -> lex_lt (pos (id m')) (pos (id m)).
Proof.
  intros [_ S] Hm'. apply StronglySorted_app in S as (S & _). apply S; [done|]. by apply list_elem_of_singleton.
Qed.

Lemma history_prefix P m : history (P ++ [m]) -> history P.
Proof.
  intros [I S]. split; [intros m' Hm'; apply I; by apply elem_of_app; left|].
  by apply StronglySorted_app in S as (_ & S & _).
Qed.

Lemma last_pos_lt P m : history (P ++ [m]) -> lex_lt (last_pos P) (pos (id m)).
Proof.
  intros Hi. destruct P as [|m0 P'] eqn:E.
  - apply (hi_ids _ Hi m). by apply list_elem_of_singleton.
  - rewrite <- E in *. destruct (last_pos_in P) as (m' & Hm' & <-); [by rewrite E|]. by eapply history_last.
Qed.

Lemma last_time P : history P -> 0 <= (last_pos P).1.
Proof.
  intros Hi. destruct P as [|m0 P'] eqn:E; [done|]. rewrite <- E in *.
  destruct (last_pos_in P) as (m & Hm & <-); [by rewrite E|]. apply (hi_ids _ Hi m Hm).
Qed.

(** A message is published: the spools between the last one and it have to be
    served. *)
Lemma sem_extend P start X m sp lg :
  history (P ++ [m]) -> sem P P start [] None sp lg ->
  (forall p s, sp !! p = Some s -> p <> current_msg_spool -> lex_lt (pos (sp_id s)) (pos (id m)) ->
     ~ lex_lt (pos (sp_id s)) (last_pos P) -> p ∈ X) ->
  sem (P ++ [m]) P start X None sp lg.
Proof.
  intros Hi S HX. pose proof S as []. split; auto.
  - intros p s Hp Nc Ne. destruct (sem_pool p s Hp Nc Ne) as (M & Fm & [?%elem_of_nil|St]); [done|]. split_and!; auto.
    + intros e He. destruct (M e He) as (a & Ha & Ea & D). exists a. split; [done|].
      destruct (decide (lex_lt (pos (sp_id s)) (pos (id m)))) as [L|L].
      * assert (lex_lt a (pos (id m))) as La by (destruct D as [->|[D _]]; [done|by eapply lex_lt_trans]).
        rewrite !after_snoc_newer, Ea by done. rewrite <- app_assoc. split; [done|].
        destruct D as [|(? & m' & ? & ?)]; [by left|right]. split; [done|]. exists m'.
        rewrite elem_of_app. auto.
      * destruct D as [->|(La & m' & Hm' & Em')].
        -- rewrite !after_snoc_older by done. split; [done|by left].
        -- exfalso. apply L. rewrite <- Em'. by eapply history_last.
    + destruct St as (Em & [[Es Ea]|[Es D]]).
      * destruct (decide (lex_lt (pos (sp_id s)) (pos (id m)))) as [L|L].
        -- left. apply (HX p s); auto. intros Lp. destruct P as [|m0 P'] eqn:EP.
           ++ destruct (sem_empty eq_refl p s Hp Nc ltac:(done)) as [[_ N]|(_ & Ei & _)]; [done|congruence].
           ++ eapply lex_lt_irrefl, lex_le_lt; [|exact Lp]. by apply after_nil_inv.
        -- right. split; [done|]. left. by rewrite after_snoc_older.
      * right. split; [done|]. right. auto.
  - intros t a Ha. rewrite after_app. by apply prefix_app_r, sem_prefix.
  - intros E. by apply app_eq_nil in E as [_ ?].
Qed.

Section run.
Context `{NgxRbtree positive} `{SubscriberFn} (handlers : channel_spooler_handlers_t).
Context (ptr_words : positive -> list Z).
Notation sem' P Pc start X E w := (sem P Pc start X E (spools w) (log w)).

(** ** Publishing *)

(** The collected spools are answered and moved on one by one. *)
Lemma unwind_ok now P Pc start fuel m rs n w d :
  history P -> m ∈ P -> after P (pos (id m)) = [] -> (0 < fuel)%nat ->
  collected d rs -> (length rs < n)%nat -> NoDup rs -> wf w -> sem' P Pc start rs None w ->
  (forall p, p ∈ rs -> exists s, spools w !! p = Some s /\ p <> current_msg_spool /\
     lex_lt (pos (sp_id s)) (pos (id m)) /\ after P (pos (sp_id s)) = [m]) ->
  exists w', unwind_loop handlers now ptr_words (answer P) fuel n w d m = Ret w' /\ wf w' /\
    sem' P Pc start [] None w' /\ same_config w w' /\ spools w' !! current_msg_spool = spools w !! current_msg_spool.
Proof.
  intros Hi Hm Ha Hf. revert n w d. induction rs as [|p rs IH] using rev_ind; intros n w d C Hn ND W S Hrs.
  { destruct n as [|n]; [simpl in Hn; lia|]. cbn [unwind_loop]. rewrite (collected_unwind_nil d C), bind_Ret.
    exists w. split_and!; auto using same_config_refl. }
  destruct n as [|n]; [lia|]. cbn [unwind_loop].
  destruct (collected_unwind d rs p C) as (d' & -> & C'). rewrite bind_Ret.
  rewrite length_app in Hn. simpl in Hn.
  destruct (Hrs p) as (s & Hs & Ncp & L & Ea); [apply elem_of_app; right; by apply list_elem_of_singleton|].
  pose proof (node_iff w p s W Hs Ncp) as Hp. destruct (hi_ids _ Hi m Hm) as [[[Tm _] _] _].
  assert (forall w p, tags_not_shared w p m = Ret ()) as TN by (intros; unfold tags_not_shared; by rewrite Tm).
  rewrite TN, bind_Ret.
  assert (sem' P Pc start rs (Some p) w) as S1.
  { eapply sem_except; [|exact S]. intros q [?| ->%list_elem_of_singleton]%elem_of_app; auto. }
  assert (members_at P start (log w) (first s) (pos (sp_id s))) as M1 by (by apply (sem_pool _ _ _ _ _ _ _ S p s)).
  destruct (respond_general_spec handlers w p s (Some m) 0 false W Hs)
    as (w1 & l & ni & -> & W1 & O1 & Sp1 & L1 & _ & A1). rewrite bind_Ret, TN, bind_Ret.
  set (s1 := set_subs s l (Z.of_nat (length l)) ni) in *.
  destruct (nextmsg_tree_ok handlers P Pc start Hi ptr_words
    (spool_fetch_msg handlers now ptr_words (answer P) fuel) fuel w1 p s1 m rs) as (w2 & -> & W2 & S2 & [K1 K2 K3]); auto.
  - by apply fetch_ok.
  - unfold nodes. rewrite (os_seed _ _ O1). exact Hp.
  - by rewrite Sp1, lookup_insert_eq.
  - by eapply members_sent.
  - eapply (sem_answered P Pc start rs p w w1 s l ni); eauto. by eapply members_prefix.
  - rewrite Ha. done.
  - rewrite bind_Ret. apply NoDup_app in ND as (ND & D & _).
    destruct (IH n w2 d' C') as (w3 & -> & W3 & S3 & C3 & Cu3); auto; [lia| |].
    + intros q Hq. destruct (Hrs q) as (sq & Hsq & Ncq & Lq & Eq); [by apply elem_of_app; left|].
      assert (q <> p) as Nqp by (intros ->; apply (D p Hq); by apply list_elem_of_singleton).
      exists sq. split_and!; auto. apply K1; auto. by rewrite Sp1, lookup_insert_ne.
    + exists w3. split_and!; auto.
      * eapply same_config_trans; [apply O1|]. by eapply same_config_trans.
      * rewrite Cu3, K2 by done. by rewrite Sp1, lookup_insert_ne.
Qed.

(** The readers of the newest spool and the new message. *)
Lemma members_cur_sent P start lg lg' m l l' :
  history (P ++ [m]) -> members_cur P start lg l ->
  (forall e, e ∈ l -> received (ssub_sub e) lg' = received (ssub_sub e) lg ++ [m]) -> (forall e, e ∈ l' -> e ∈ l) ->
  members_at (P ++ [m]) start lg' l' (pos (id m)).
Proof.
  intros Hi M R I e He. specialize (I e He). destruct (M e I) as (a & Ha & Ea & La).
  assert (lex_lt a (pos (id m))) as L by (eapply lex_le_lt; [exact La|by apply last_pos_lt]).
  exists a. split; [done|]. split.
  - rewrite after_snoc_newer, Ea, R by done.
    rewrite (after_nil (P ++ [m]) (pos (id m)) Hi), app_nil_r; [done|]. left. unfold last_pos. by rewrite last_snoc.
  - right. split; [done|]. exists m. split; [|done]. apply elem_of_app. right. by apply list_elem_of_singleton.
Qed.

Lemma publish_newest now P start m w fuel :
  history (P ++ [m]) -> (0 < fuel)%nat -> wf w -> sem' (P ++ [m]) P start [] None w ->
  exists w', (forall k : channel_spooler_t -> outcome channel_spooler_t,
     ('(w2, spool) ← get_spool w latest_msg_id;
      s ← get_pool w2 spool;
      w3 ← (if (0 <? sp_sub_count s) && channel_buffer_complete w2 then
              w3 ← spool_respond_general handlers w2 spool (Some m) 0 false;
              spool_nextmsg handlers ptr_words (spool_fetch_msg handlers now ptr_words (answer (P ++ [m])) fuel)
                w3 spool (id m)
            else Ret w2);
      k w3) = k w') /\ wf w' /\ sem' (P ++ [m]) (P ++ [m]) start [] None w' /\ same_config w w'.
Proof.
  intros Hi Hf W S.
  assert (is_Some (spools w !! current_msg_spool)) as [s Hs] by (apply (wf_dom _ W); auto).
  destruct (sem_cur _ _ _ _ _ _ _ S s Hs ltac:(done)) as (E1 & E2 & M).
  set (s1 := set_status s MSG_EXPECTED). set (w1 := put_spool w current_msg_spool s1).
  assert (wf w1) as W1 by (by apply (wf_set_pool w _ s)).
  assert (spools w1 !! current_msg_spool = Some s1) as Hs1 by (simpl; by rewrite lookup_insert_eq).
  assert (get_spool w latest_msg_id = Ret (w1, current_msg_spool)) as Eg.
  { unfold get_spool. cbn [time latest_msg_id NCHAN_NEWEST_MSGID]. rewrite Z.eqb_refl. cbn [orb].
    by rewrite (get_pool_Some _ _ _ Hs), bind_Ret. }
  setoid_rewrite Eg. setoid_rewrite bind_Ret. setoid_rewrite (get_pool_Some _ _ _ Hs1). setoid_rewrite bind_Ret.
  rewrite (proj2 (wf_ready _ W1)), andb_true_r, (count_pos w1 _ s1 W1 Hs1).
  assert (sem' (P ++ [m]) (P ++ [m]) start [] (Some current_msg_spool) w1) as S1.
  { eapply sem_cur_irrelevant. apply (sem_put _ P start [] _ s); auto. by apply sem_weaken. }
  assert (same_config w w1) as C1 by (split; auto; simpl; lia).
  case_bool_decide as Ef; cbn [negb].
  { exists w1. split_and!; auto. apply (sem_restore_cur _ _ _ _ s1); auto. rewrite Ef. by intros e ?%elem_of_nil. }
  destruct (respond_general_spec handlers w1 _ s1 (Some m) 0 false W1 Hs1)
    as (w2 & l & ni & E2' & W2 & O2 & Sp2 & L2 & _ & A2).
  set (s2 := set_subs s1 l (Z.of_nat (length l)) ni) in *.
  assert (m ∈ P ++ [m]) as Hm by (apply elem_of_app; right; by apply list_elem_of_singleton).
  assert (forall e, e ∈ first s -> received (ssub_sub e) (log w2) = received (ssub_sub e) (log w1) ++ [m]) as R2.
  { intros e He. rewrite (A2 (ssub_sub e)), decide_True; [done|]. apply list_elem_of_fmap. eauto. }
  assert (after (P ++ [m]) (pos (id m)) = []) as Ea.
  { apply after_nil; [done|]. left. unfold last_pos. by rewrite last_snoc. }
  destruct (nextmsg_cur_ok handlers (P ++ [m]) (P ++ [m]) start Hi ptr_words
    (spool_fetch_msg handlers now ptr_words (answer (P ++ [m])) fuel) fuel w2 s2 m []) as (w3 & E3 & W3 & S3 & C3); auto.
  - by apply fetch_ok.
  - by rewrite Sp2, lookup_insert_eq.
  - eapply (members_cur_sent P start (log w1)); eauto.
  - eapply (sem_answered (P ++ [m]) (P ++ [m]) start [] current_msg_spool w1 w2 s1 l ni); eauto.
    intros e He. destruct (M e He) as (a & Ha & Eaa & La). exists a. split; [done|].
    change (log w1) with (log w). rewrite <- Eaa. rewrite after_snoc_newer; [done|].
    eapply lex_le_lt; [exact La|]. by apply last_pos_lt.
  - by rewrite Ea.
  - exists w3. split; [intros k; by rewrite E2', bind_Ret, E3, bind_Ret|]. split_and!; auto.
    eapply same_config_trans; [exact C1|].
    eapply same_config_trans; [apply O2|done].
Qed.

Lemma wf_upd_prev w x : wf w -> wf (upd_prev w x).
Proof. intros W. split; try apply W. intros p s Hs. destruct (wf_pool _ W p s Hs). by split. Qed.

Definition prev_ok (w : channel_spooler_t) : Prop := 0 <= tagcount (prev_msg_id w) <= 1.

Lemma publish_ok now P start m w :
  history (P ++ [m]) -> single (prev_id m) -> pos (prev_id m) = last_pos P ->
  wf w -> sem' P P start [] None w -> prev_ok w ->
  exists w', spooler_respond_message handlers now ptr_words (answer (P ++ [m])) (S (length (P ++ [m]))) w m = Ret w' /\
    wf w' /\ sem' (P ++ [m]) (P ++ [m]) start [] None w' /\ prev_ok w'.
Proof.
  intros Hi Sp Ep W S Pk. unfold spooler_respond_message. set (fuel := Datatypes.S (length (P ++ [m]))).
  assert (m ∈ P ++ [m]) as Hm by (apply elem_of_app; right; by apply list_elem_of_singleton).
  destruct (hi_ids _ Hi m Hm) as [[Sm _] _].
  rewrite decide_True by (by rewrite (wf_strategy _ W)).
  assert (0 <= time (prev_id m)) as Tp.
  { change (time (prev_id m)) with (pos (prev_id m)).1. rewrite Ep. eapply last_time, history_prefix, Hi. }
  destruct (collect_range w m W Sp Sm Tp) as (d & rs & -> & Cd & Prs). rewrite bind_Ret.
  assert (forall p, p ∈ rs <-> in_range (last_pos P) (pos (id m)) (spool_pos w p) /\ p ∈ nodes w) as Hrs.
  { intros p. rewrite Prs, list_elem_of_filter, Ep. done. }
  assert (after (P ++ [m]) (pos (id m)) = []) as Ea.
  { apply after_nil; [done|]. left. unfold last_pos. by rewrite last_snoc. }
  destruct (unwind_ok now (P ++ [m]) P start fuel m rs (Datatypes.S (Z.to_nat (rd_n d))) w d) as (w1 & -> & W1 & S1 & C1 & Cu1); auto.
  - subst fuel. lia.
  - destruct Cd as [-> _]. rewrite Nat2Z.id. lia.
  - rewrite Prs. apply NoDup_filter, (wf_nodup _ W).
  - apply (sem_extend P); auto. intros p s Hp Nc L NL. apply Hrs. unfold spool_pos, in_range. rewrite Hp.
    split; [done|]. by eapply node_iff.
  - intros p Hp. apply Hrs in Hp as [[NL L] Hp]. destruct (node_lookup w p W Hp) as (s & Hs & _).
    unfold spool_pos in *. rewrite Hs in *. exists s. split_and!; auto; [by eapply node_not_current|].
    rewrite after_snoc_newer by done. rewrite after_nil; [done|by eapply history_prefix|].
    destruct (lex_le_or (last_pos P) (pos (sp_id s))); [done|]. done.
  - rewrite bind_Ret. destruct (publish_newest now P start m w1 fuel Hi ltac:(subst fuel; lia) W1 S1) as (w3 & E3 & W3 & S3 & C3).
    assert (prev_ok w3) as Pk3.
    { unfold prev_ok. rewrite (sc_prev _ _ C3), (sc_prev _ _ C1). done. }
    rewrite E3. rewrite (surjective_pairing (ngx_alloc w3)). cbn beta iota.
    change (prev_msg_id (ngx_alloc w3).2) with (prev_msg_id w3).
    rewrite copy_msg_id_single by (done || apply Pk3). rewrite bind_Ret. eexists. split; [reflexivity|]. split_and!.
    + apply wf_upd_prev, (wf_aux w3); auto. split; auto. simpl. lia.
    + exact S3.
    + unfold prev_ok. simpl. rewrite (proj1 Sm). lia.
Qed.

(** ** Subscribing *)

Lemma u64_pred_succ z : 0 <= z < 2 ^ 64 -> u64 (u64 (z + 1) - 1) = z.
Proof.
  intros Hz. unfold wrapu. rewrite Zminus_mod_idemp_l. replace (z + 1 - 1) with z by lia. by rewrite Z.mod_small.
Qed.

(** The subscriber refuses to be enqueued: the spool is as before. *)
Lemma add_subscriber_refused w q sq t sub :
  wf w -> spools w !! q = Some sq -> subscribers w !! t = Some sub -> sub_enqueue sub <> NGX_OK ->
  exists w' ni, spool_add_subscriber w q t true = Ret (w', sub_enqueue sub) /\ wf w' /\ log w' = log w /\
    spools w' = <[q := set_subs sq (first sq) (sp_sub_count sq) ni]> (spools w) /\ same_config w w'.
Proof.
  intros W Hq Ht He. unfold spool_add_subscriber. rewrite (surjective_pairing (ngx_alloc w)). cbn beta iota.
  set (w1 := (ngx_alloc w).2). pose proof (wf_alloc _ W : wf w1) as W1.
  assert (spools w1 !! q = Some sq) as Hq1 by done.
  rewrite (get_pool_Some _ _ _ Hq1), bind_Ret, (get_sub_Some w1 t sub Ht), bind_Ret. cbn zeta.
  rewrite (proj2 (Z.eqb_neq _ _) He). cbn [negb].
  match goal with |- context [get_pool ?x q] => set (w2 := x) end.
  match eval unfold w2 in w2 with put_spool _ _ ?x => set (s2 := x) in * end.
  assert (spools w2 !! q = Some s2) as Hq2 by (simpl; by rewrite lookup_insert_eq).
  rewrite (get_pool_Some _ _ _ Hq2), bind_Ret.
  assert (u64 (sp_sub_count s2 - 1) = sp_sub_count sq) as ->.
  { cbn [sp_sub_count set_subs s2]. apply u64_pred_succ. rewrite (po_count _ _ _ (wf_pool _ W _ _ Hq)).
    pose proof (first_length w q sq W Hq). lia. }
  eexists _, _. split; [reflexivity|]. split_and!.
  - assert (spools w2 = <[q := s2]> (spools w1)) as E2 by done.
    match goal with |- wf (put_spool w2 q ?x) => set (s3 := x) end.
    pose proof (wf_set_pool w1 q sq s3 W1 Hq1 eq_refl eq_refl eq_refl eq_refl) as W3.
    apply (wf_aux (put_spool w1 q s3)); auto.
    + cbn [spools put_spool upd_spools w2]. by rewrite insert_insert_eq.
    + split; auto. simpl. lia.
  - done.
  - cbn [spools put_spool upd_spools w2]. rewrite insert_insert_eq. reflexivity.
  - split; auto. simpl. lia.
Qed.

(** While nothing is published, an id with a time is the id of a message that is
    gone. *)
Definition missed (P : list nchan_msg_t) (i : nchan_msg_id_t) : bool :=
  bool_decide (P = []) && negb (time i =? NCHAN_NEWEST_MSGID_TIME) && negb (time i =? NCHAN_OLDEST_MSGID_TIME).

(** Where a subscriber starts reading; when its message is gone, at the oldest. *)
Definition start_of (P : list nchan_msg_t) (i : nchan_msg_id_t) : Z * Z :=
  if time i =? NCHAN_NEWEST_MSGID_TIME then last_pos P
  else if missed P i then (0, 0) else pos i.

(** Counters do not matter to the invariant, and subscribers may leave. *)
Lemma sem_retouch P Pc start X p s s' sp lg :
  sem P Pc start X None sp lg -> sp !! p = Some s -> sp_id s' = sp_id s -> (forall e, e ∈ first s' -> e ∈ first s) ->
  sp_msg s' = sp_msg s -> msg_status s' = msg_status s -> fetchmsg_timer_set s' = fetchmsg_timer_set s ->
  fetchmsg_current_count s' = fetchmsg_current_count s ->
  sem P Pc start X None (<[p := s']> sp) lg.
Proof.
  intros S Hp E1 E2 E3 E4 E5 E6.
  assert (first s = [] -> first s' = []) as En.
  { intros Ef. destruct (first s') as [|e l']; [done|]. specialize (E2 e ltac:(by apply elem_of_cons; left)).
    rewrite Ef in E2. by apply elem_of_nil in E2. }
  assert (sem P Pc start X (Some p) (<[p := s']> sp) lg) as S1.
  { apply (sem_put P Pc start X p s); [by apply sem_weaken|done]. }
  destruct (decide (p = current_msg_spool)) as [->|Nc].
  - destruct (sem_cur _ _ _ _ _ _ _ S s Hp ltac:(done)) as (? & ? & M).
    eapply sem_restore_cur; [exact S1|by rewrite lookup_insert_eq| | |]; try congruence. intros e He. by apply M, E2.
  - destruct (sem_pool _ _ _ _ _ _ _ S p s Hp Nc ltac:(done)) as (M & F & St).
    eapply sem_restore; [exact S1|done|by rewrite lookup_insert_eq| | | |].
    + rewrite E1. intros e He. by apply M, E2.
    + by rewrite E3, E4.
    + destruct St as [?|(Em & St)]; [by left|right]. split; [congruence|]. rewrite E1, E4, E5.
      destruct St as [?|[? [?|Ef]]]; auto.
    + intros EP. destruct (sem_empty _ _ _ _ _ _ _ S EP p s Hp Nc ltac:(done)) as [[F1 F2]|(F1 & F2 & F3 & F4)].
      * left. split; by rewrite E1.
      * right. split_and!; [auto|congruence..].
Qed.

(** A status for one subscriber of a spool that is settled or newest. *)
Lemma sub_status_ok P Pc start w p s x c :
  wf w -> spools w !! p = Some s -> x ∈ first s -> sem' P Pc start [] None w ->
  exists w', sub_respond handlers w (ssub_sub x) (RespondStatus c) = Ret w' /\ wf w' /\ sem' P Pc start [] None w' /\
    same_config w w'.
Proof.
  intros W Hp Hx S.
  destruct (sub_respond_spec handlers w p s x (RespondStatus c) W Hp Hx)
    as (w' & l & ni & E & W' & O' & Sp' & L & _ & _ & A). exists w'. split_and!; auto; [|apply O'].
  rewrite Sp'. eapply sem_log; [exact (answered_silent _ _ _ _ A eq_refl)|]. by apply (sem_retouch P Pc start [] p s).
Qed.

(** A new subscriber in the spool it asked for. *)
Lemma sem_added P start w p s t sub es X :
  let w' := add_state w p s t sub es in
  silent es -> spools w !! p = Some s -> sem' P P start X None w -> X = [] ->
  start !! t = Some (if decide (p = current_msg_spool) then last_pos P else pos (sp_id s)) ->
  received t (log w) = [] -> history P -> sem' P P start [] (Some p) w' /\
    (exists s', spools w' !! p = Some s' /\ first s' = SSub (next_addr w) t :: first s /\ sp_id s' = sp_id s /\
       sp_msg s' = sp_msg s /\ msg_status s' = msg_status s /\ fetchmsg_timer_set s' = fetchmsg_timer_set s /\
       if decide (p = current_msg_spool) then members_cur P start (log w') (first s')
       else members_at P start (log w') (first s') (pos (sp_id s))).
Proof.
  intros w' Si Hp S -> Ht Rt Hi.
  assert (same_received (log w) (log w')) as R by (by apply same_received_silent).
  split.
  - eapply sem_log; [exact R|]. apply (sem_put P P start [] p s); auto. by apply sem_weaken.
  - eexists. split; [simpl; by rewrite lookup_insert_eq|]. cbn [first set_subs sp_id sp_msg msg_status fetchmsg_timer_set].
    split_and!; auto. case_decide as Ec.
    + subst p. destruct (sem_cur _ _ _ _ _ _ _ S s Hp ltac:(done)) as (_ & _ & M).
      intros e [->|He]%elem_of_cons.
      * exists (last_pos P). cbn [ssub_sub]. rewrite R, Rt. split_and!; auto; [|by left].
        apply after_nil; [done|by left].
      * destruct (M e He) as (a & ? & ? & ?). exists a. by rewrite R.
    + destruct (sem_pool _ _ _ _ _ _ _ S p s Hp Ec ltac:(done)) as (M & _ & _).
      intros e [->|He]%elem_of_cons.
      * exists (pos (sp_id s)). cbn [ssub_sub]. rewrite R, Rt. split_and!; auto.
      * destruct (M e He) as (a & ? & ? & ?). exists a. by rewrite R.
Qed.

Lemma after_length P x : (length (after P x) <= length P)%nat.
Proof. unfold after. apply length_filter. Qed.

Lemma nowhere_free w t sub :
  wf w -> subscribers w !! t = Some sub -> dequeue_callback sub = None -> nowhere w t.
Proof.
  intros W Ht Hc p s x Hp Hx <-. destruct (po_subs _ _ _ (wf_pool _ W _ _ Hp) _ Hx) as (sub' & E & Cb). congruence.
Qed.

(** What follows the choice of a spool in [spooler_add_subscriber]. *)
Lemma join_ok now P start w p s t sub fuel :
  history P -> wf w -> sem' P P start [] None w -> spools w !! p = Some s -> subscribers w !! t = Some sub ->
  nowhere w t -> start !! t = Some (if decide (p = current_msg_spool) then last_pos P else pos (sp_id s)) ->
  received t (log w) = [] -> sub_enqueue sub = NGX_OK -> (length P < fuel)%nat ->
  (p <> current_msg_spool -> P = [] -> from_start s) ->
  exists w' es, spool_add_subscriber w p t true = Ret (add_state w p s t sub es, NGX_OK) /\
    (let w3 := emit (add_state w p s t sub es) [HandlerAdd t] in
     s3 ← get_pool w3 p;
     match msg_status s3 with
     | MSG_FOUND =>
         c_assert (negb (bool_decide (sp_msg s3 = None)));;
         spool_respond_general handlers w3 p (sp_msg s3) 0 false
     | MSG_INVALID =>
         c_assert (bool_decide (sp_msg s3 = None));;
         '(w4, _) ← spool_fetch_msg handlers now ptr_words (answer P) fuel w3 p; Ret w4
     | MSG_CHANNEL_NOTREADY | MSG_PENDING => Ret w3
     | MSG_EXPECTED => sub_respond handlers w3 t (RespondStatus NGX_HTTP_NO_CONTENT)
     | MSG_EXPIRED | MSG_NOTFOUND | MSG_ERROR => Crash
     end) = Ret w' /\ wf w' /\ sem' P P start [] None w' /\ same_config w w'.
Proof.
  intros Hi W S Hp Ht Nt St Rt En Hf Fs.
  destruct (add_subscriber_spec w p s t sub true W Hp Ht Nt ltac:(done)) as (es & -> & Si & _ & W2).
  destruct (sem_added P start w p s t sub es [] Si Hp S eq_refl St Rt Hi) as (S2 & s' & Hs' & Ef & Ei & Em & Es & _ & M).
  set (w2 := add_state w p s t sub es) in *. set (w3 := emit w2 [HandlerAdd t]).
  assert (wf w3) as W3 by (by apply wf_emit).
  assert (same_received (log w2) (log w3)) as R3 by (by apply same_received_silent).
  assert (sem' P P start [] (Some p) w3) as S3 by (by eapply sem_log).
  assert (same_config w w3) as C3.
  { split; auto; [simpl; rewrite dom_insert_L; apply elem_of_dom_2 in Ht; set_solver|simpl; lia]. }
  assert (spools w3 !! p = Some s') as Hs3 by done.
  assert (SSub (next_addr w) t ∈ first s') as Hin by (rewrite Ef; by apply elem_of_cons; left).
  assert (msg_status s' = MSG_EXPECTED -> sem' P P start [] None w3 ->
    exists w', sub_respond handlers w3 t (RespondStatus NGX_HTTP_NO_CONTENT) = Ret w' /\ wf w' /\
      sem' P P start [] None w' /\ same_config w w') as Exp.
  { intros _ S4. destruct (sub_status_ok P P start w3 p s' _ NGX_HTTP_NO_CONTENT W3 Hs3 Hin S4) as (w4 & E & W4 & S5 & C4).
    exists w4. split_and!; auto. by eapply same_config_trans. }
  assert (get_pool w3 p = Ret s') as Eg by (by apply get_pool_Some).
  case_decide as Ec.
  - subst p. destruct (sem_cur _ _ _ _ _ _ _ S s Hp ltac:(done)) as (E1 & E2 & _).
    destruct Exp as (w4 & E & W4 & S4 & C4); [congruence| |].
    { apply (sem_restore_cur _ _ _ _ s'); auto; try congruence. intros e He. destruct (M e He) as (a & ? & ? & ?).
      exists a. by rewrite R3. }
    exists w4, es. split; [done|]. cbn zeta. fold w2 w3. by rewrite Eg, bind_Ret, Es, E1.
  - destruct (sem_pool _ _ _ _ _ _ _ S p s Hp Ec ltac:(done)) as (_ & _ & [?%elem_of_nil|(Emm & St')]); [done|].
    assert (members_at P start (log w3) (first s') (pos (sp_id s'))) as M3 by (rewrite Ei; by eapply members_at_log).
    destruct St' as [[E1 Ea]|[E1 _]].
    + destruct Exp as (w4 & E & W4 & S4 & C4); [congruence| |].
      { apply (sem_restore P P start [] p s'); auto; [right; congruence|right; split; [congruence|]|].
        - left. split; congruence.
        - intros EP. left. unfold from_start. rewrite Ei. by apply Fs. }
      exists w4, es. split; [done|]. cbn zeta. fold w2 w3. by rewrite Eg, bind_Ret, Es, E1.
    + destruct (fetch_ok handlers P P start Hi now ptr_words fuel w3 p s' [] W3) as (w4 & rc & E & W4 & S4 & K4); auto;
        try congruence.
      * unfold w3, nodes. cbn. by eapply node_iff.
      * pose proof (after_length P (pos (sp_id s'))). lia.
      * unfold from_start. rewrite Ei. by apply Fs.
      * exists w4, es. split; [done|]. cbn zeta. fold w2 w3. rewrite Eg, bind_Ret, Es, E1, Em, Emm.
        rewrite bool_decide_eq_true_2 by done. cbn [c_assert]. rewrite bind_Ret, E, bind_Ret. split_and!; auto.
        eapply same_config_trans; [exact C3|apply K4].
Qed.

(** As [join_ok], for the id of a message that is gone. *)
Lemma join_missed now start w p s t sub fuel :
  wf w -> sem' [] [] start [] None w -> spools w !! p = Some s -> p <> current_msg_spool ->
  time (sp_id s) <> NCHAN_OLDEST_MSGID_TIME -> subscribers w !! t = Some sub -> nowhere w t ->
  start !! t = Some (0, 0) -> received t (log w) = [] -> sub_enqueue sub = NGX_OK ->
  exists es, spool_add_subscriber w p t true = Ret (add_state w p s t sub es, NGX_OK) /\
    let w3 := emit (add_state w p s t sub es) [HandlerAdd t] in
    exists s3, get_pool w3 p = Ret s3 /\ msg_status s3 = MSG_INVALID /\ sp_msg s3 = None /\
    let fetched := spool_fetch_msg handlers now ptr_words (answer []) (S (S fuel)) w3 p in
    (oldest_waits now w -> fetched = Crash) /\
    (~ oldest_waits now w ->
     exists w' rc, fetched = Ret (w', rc) /\ wf w' /\ sem' [] [] start [] None w' /\ same_config w w').
Proof.
  intros W S Hp Nc Nt Ht Nw St Rt En.
  destruct (sem_pool _ _ _ _ _ _ _ S p s Hp Nc ltac:(done)) as (_ & _ & [?%elem_of_nil|[Em _]]); [done|].
  destruct (sem_empty _ _ _ _ _ _ _ S eq_refl p s Hp Nc ltac:(done)) as [[? _]|(Ef & Es & Ec & _)]; [done|].
  destruct (add_subscriber_spec w p s t sub true W Hp Ht Nw ltac:(done)) as (es & -> & Si & _ & W2).
  set (w2 := add_state w p s t sub es) in *. exists es. split; [done|]. cbn zeta. set (w3 := emit w2 [HandlerAdd t]).
  assert (wf w3) as W3 by (by apply wf_emit).
  assert (same_received (log w) (log w3)) as R3.
  { intros t'. unfold w3, w2. cbn [log emit add_state]. rewrite !received_app, Si. simpl. by rewrite !app_nil_r. }
  assert (is_Some (spools w3 !! p)) as [s3 Hs3] by (unfold w3, w2; simpl; rewrite lookup_insert_eq; eauto).
  assert (spools w3 = <[p := s3]> (spools w) /\ sp_id s3 = sp_id s /\ first s3 = [SSub (next_addr w) t] /\
    msg_status s3 = MSG_INVALID /\ sp_msg s3 = None /\ fetchmsg_current_count s3 = 0) as (Sp3 & I1 & I2 & I3 & I4 & I5).
  { revert Hs3. unfold w3, w2. simpl. rewrite lookup_insert_eq. intros [= <-]. cbn. by rewrite Ef. }
  exists s3. split; [by apply get_pool_Some|]. do 2 (split; [done|]).
  assert (p ∈ nodes w3) as Hn by (unfold w3, nodes; cbn; by eapply node_iff).
  destruct (fetch_missed handlers now ptr_words start fuel w3 p s3 W3 Hn Hs3 I3 I4 I5) as [Cr Rt3].
  - by rewrite I1.
  - rewrite I2. intros e ->%list_elem_of_singleton. exists (0, 0). cbn [ssub_sub]. rewrite R3, Rt. split_and!; auto.
  - rewrite Sp3. eapply sem_log; [exact R3|]. apply (sem_put [] [] start [] p s); auto. by apply sem_weaken.
  - assert (oldest_waits now w3 <-> oldest_waits now w) as Ow by (by apply (oldest_waits_put now w w3 p s s3)).
    cbn zeta. fold w2. fold w3. split; [intros O; by apply Cr, Ow|]. intros NO. destruct Rt3 as (w' & rc & -> & W' & S' & C'); [by rewrite Ow|].
    exists w', rc. split_and!; auto. eapply same_config_trans; [|exact C'].
    split; auto; [|simpl; lia]. simpl. rewrite dom_insert_L. apply elem_of_dom_2 in Ht. set_solver.
Qed.

(** An id a client may ask for: the newest, or one of a single channel within
    the order of the spools. *)
Definition asks (P : list nchan_msg_t) (i : nchan_msg_id_t) : Prop :=
  time i = NCHAN_NEWEST_MSGID_TIME \/
  tree_id i /\ (P = [] -> time i = NCHAN_OLDEST_MSGID_TIME -> 0 <= tag0 i).

(** [get_spool] for such an id. *)
Lemma asked_spool now P start w i :
  wf w -> sem' P P start [] None w -> asks P i ->
  exists w1 p s, get_spool w i = Ret (w1, p) /\ wf w1 /\ spools w1 !! p = Some s /\ sem' P P start [] None w1 /\
    subscribers w1 = subscribers w /\ log w1 = log w /\ same_config w w1 /\
    (p = current_msg_spool /\ time i = NCHAN_NEWEST_MSGID_TIME \/
     p <> current_msg_spool /\ time i <> NCHAN_NEWEST_MSGID_TIME /\ pos (sp_id s) = pos i /\
     (oldest_waits now w1 <-> oldest_waits now w)).
Proof.
  intros W S [E|[Ti Hz]].
  - destruct (proj2 (wf_dom _ W current_msg_spool) ltac:(by left)) as [s Hs].
    set (s1 := set_status s MSG_EXPECTED). exists (put_spool w current_msg_spool s1), current_msg_spool, s1.
    destruct (sem_cur _ _ _ _ _ _ _ S s Hs ltac:(done)) as (E1 & _). split_and!.
    + unfold get_spool. by rewrite (proj2 (Z.eqb_eq _ _) E), (get_pool_Some _ _ _ Hs), bind_Ret.
    + by apply (wf_set_pool w _ s).
    + simpl. by rewrite lookup_insert_eq.
    + by apply (sem_retouch P P start [] _ s); auto.
    + done.
    + done.
    + split; auto. simpl. lia.
    + by left.
  - destruct (get_spool_spec w i W Ti) as (w1 & p & s & Eg & W1 & Hp & Hs & Ep & Es & El & C & D).
    pose proof (node_not_current _ _ W1 Hp) as Nc. exists w1, p, s. split_and!; auto.
    + rewrite El. destruct D as [->|(Hn & -> & ->)]; [done|]. apply sem_new; auto. intros _. by right.
    + right. split_and!; auto; [apply Z.eqb_neq, not_newest, Ti|].
      destruct D as [->|(Hn & -> & Sp)]; [reflexivity|]. by apply (oldest_waits_new now w w1 p (Pool i None MSG_INVALID [] 0 0 false 0 0 0)).
Qed.

(** When the arrival of a subscriber aborts the worker: it is told that the
    message it follows is not found while a spool waits for the first message. *)
Definition arrival_aborts (now : Z) (P : list nchan_msg_t) (w : channel_spooler_t) (sub : subscriber_t) : Prop :=
  sub_enqueue sub = NGX_OK /\ missed P (last_msgid sub) = true /\ oldest_waits now w.

Lemma bind_assoc3 {A B C} (x : outcome A) (f : A -> outcome B) (g : B -> outcome C) :
  x ≫= (fun a => f a ≫= g) = (x ≫= f) ≫= g.
Proof. by destruct x. Qed.

Lemma subscribe_ok now P start w t sub :
  history P -> wf w -> sem' P P start [] None w -> subscribers w !! t = Some sub -> dequeue_callback sub = None ->
  start !! t = None -> asks P (last_msgid sub) ->
  let r := spooler_add_subscriber handlers now ptr_words (answer P) (S (S (length P))) w t in
  (arrival_aborts now P w sub -> r = Crash) /\
  (~ arrival_aborts now P w sub -> exists w', r = Ret (w', sub_enqueue sub) /\ wf w' /\ same_config w w' /\
    sem' P P (if decide (sub_enqueue sub = NGX_OK) then <[t := start_of P (last_msgid sub)]> start else start) [] None w').
Proof.
  intros Hi W S Ht Cb Ns As r. subst r. unfold spooler_add_subscriber. rewrite (proj2 (wf_running _ W)).
  rewrite (get_sub_Some w t sub Ht), bind_Ret.
  destruct (asked_spool now P start w _ W S As) as (w1 & p & s & -> & W1 & Hp & S1 & Es & El & C1 & D).
  rewrite bind_Ret, (get_pool_Some _ _ _ Hp), bind_Ret, decide_False by (by rewrite (wf_strategy _ W1)).
  cbn [c_assert]. rewrite bind_Ret. assert (subscribers w1 !! t = Some sub) as Ht1 by (by rewrite Es).
  pose proof (nowhere_free w1 t sub W1 Ht1 Cb) as Nt. unfold arrival_aborts.
  destruct (decide (sub_enqueue sub = NGX_OK)) as [En|En].
  2: { destruct (add_subscriber_refused w1 p s t sub W1 Hp Ht1 En) as (w2 & ni & -> & W2 & El2 & Sp2 & C2).
    split; [by intros (? & _)|]. intros _.
    rewrite bind_Ret, (proj2 (Z.eqb_neq _ _) En). cbn [negb]. exists w2. split_and!; auto.
    - by eapply same_config_trans.
    - rewrite El2, Sp2. by apply (sem_retouch P P start [] p s). }
  assert (received t (log w1) = []) as Rt by (by apply (sem_fresh _ _ _ _ _ _ _ S1)).
  set (start' := <[t := start_of P (last_msgid sub)]> start).
  assert (sem' P P start' [] None w1) as S2 by (by apply sem_start).
  assert (start' !! t = Some (start_of P (last_msgid sub))) as St by apply lookup_insert_eq.
  assert (forall w2, wf w2 -> same_config w1 w2 -> sem' P P start' [] None w2 ->
    exists w', Ret (if h_use handlers && negb (sub_internal sub) then emit w2 [HandlerUse] else w2, NGX_OK) =
      Ret (w', NGX_OK) /\ wf w' /\ same_config w w' /\ sem' P P start' [] None w') as Fin.
  { intros w2 W2 C2 S3. eexists. split; [reflexivity|].
    assert (same_config w w2) as C3 by (by eapply same_config_trans).
    destruct (_ && _); split_and!; auto using wf_emit.
    - eapply same_config_trans; [exact C3|]. split; auto; simpl; lia.
    - eapply sem_log; [|exact S3]. by apply same_received_silent. }
  destruct (missed P (last_msgid sub)) eqn:Em.
  - destruct P as [|m0 P']; [|done]. unfold missed in Em. apply andb_true_iff in Em as [[_ Em1]%andb_true_iff Em2].
    apply negb_true_iff, Z.eqb_neq in Em1, Em2. destruct D as [[_ ?]|(Nc & _ & Ep & Ow)]; [done|].
    assert (start_of [] (last_msgid sub) = (0, 0)) as E0.
    { unfold start_of, missed. by rewrite (proj2 (Z.eqb_neq _ _) Em1), (proj2 (Z.eqb_neq _ _) Em2). }
    rewrite E0 in St.
    destruct (join_missed now start' w1 p s t sub 0 W1 S2 Hp Nc) as (es & -> & s3 & E3 & I1 & I2 & Cr & Rt3); auto.
    { intros E. apply Em2. rewrite <- E. by injection Ep. }
    rewrite bind_Ret, En. cbn [Z.eqb negb NGX_OK]. cbn zeta. rewrite E3, bind_Ret, I1, I2.
    rewrite bool_decide_eq_true_2 by done. cbn [c_assert]. rewrite !bind_Ret. cbn [length]. split.
    + intros (_ & _ & O). by rewrite Cr by (by apply Ow).
    + intros N. destruct Rt3 as (w2 & rc & -> & W2 & S3 & C2); [intros O; apply N; split_and!; auto; by apply Ow|].
      rewrite !bind_Ret. by apply Fin.
  - split; [by intros (_ & ? & _)|]. intros _.
    destruct (join_ok now P start' w1 p s t sub (Datatypes.S (Datatypes.S (length P))))
      as (w2 & es & -> & E2 & W2 & S3 & C2); auto.
    + rewrite St. f_equal. unfold start_of. rewrite Em.
      destruct D as [[-> E]|(Nc & E & Ep & _)]; [by rewrite decide_True, (proj2 (Z.eqb_eq _ _) E)|].
      by rewrite decide_False, (proj2 (Z.eqb_neq _ _) E).
    + intros Nc ->. destruct D as [[? _]|(_ & E & Ep & _)]; [done|].
      unfold missed in Em. rewrite (proj2 (Z.eqb_neq _ _) E) in Em. cbn in Em. apply negb_false_iff, Z.eqb_eq in Em.
      destruct As as [?|[_ Hz]]; [done|]. specialize (Hz eq_refl Em). unfold from_start. rewrite Ep.
      split; [injection Ep as -> _; exact Em|]. unfold pos, lex_lt. cbn. rewrite Em. unfold NCHAN_OLDEST_MSGID_TIME. lia.
    + rewrite bind_Ret, En. cbn [Z.eqb negb NGX_OK]. cbn zeta in E2 |- *.
      rewrite bind_assoc3, E2, bind_Ret. by apply Fin.
Qed.

(** ** Timers and departures *)

Lemma timer_ok now P start w p s :
  history P -> wf w -> sem' P P start [] None w -> spools w !! p = Some s -> p <> current_msg_spool ->
  fetchmsg_timer_set s = true ->
  exists w', fetchmsg_ev_handler handlers now ptr_words (answer P) (S (length P)) w p = Ret w' /\ wf w' /\
    sem' P P start [] None w' /\ same_config w w'.
Proof.
  intros Hi W S Hp Nc Tm.
  assert (P = [] -> from_start s) as Fs.
  { intros EP. destruct (sem_empty _ _ _ _ _ _ _ S EP p s Hp Nc ltac:(done)) as [?|(_ & _ & _ & ?)]; [done|congruence]. }
  unfold fetchmsg_ev_handler. rewrite (get_pool_Some _ _ _ Hp), bind_Ret. cbn zeta.
  set (s1 := set_fetch s _ _ false). set (w1 := put_spool w p s1).
  assert (wf w1) as W1 by (by apply (wf_set_pool w p s)).
  assert (spools w1 !! p = Some s1) as Hp1 by (simpl; by rewrite lookup_insert_eq).
  assert (same_config w w1) as C1 by (split; auto; simpl; lia).
  assert (sem' P P start [] (Some p) w1) as S1 by (apply (sem_put P P start [] p s); auto; by apply sem_weaken).
  destruct (sem_pool _ _ _ _ _ _ _ S p s Hp Nc ltac:(done)) as (M & F & [?%elem_of_nil|(Em & St)]); [done|].
  destruct (decide (msg_status s1 = MSG_INVALID)) as [E|E]; change (msg_status s1) with (msg_status s) in E.
  - destruct (fetch_ok handlers P P start Hi now ptr_words (Datatypes.S (length P)) w1 p s1 [] W1)
      as (w2 & rc & -> & W2 & S2 & K2); auto.
    + by eapply node_iff.
    + pose proof (after_length P (pos (sp_id s1))). lia.
    + rewrite bind_Ret. exists w2. split_and!; auto. eapply same_config_trans; [exact C1|apply K2].
  - exists w1. split_and!; auto. apply (sem_restore P P start [] p s1); auto.
    right. split; [done|]. destruct St as [St|[? _]]; [by left|done].
Qed.

Lemma leave_ok P start w p s x :
  wf w -> sem' P P start [] None w -> spools w !! p = Some s -> x ∈ first s ->
  exists w', sub_dequeue handlers w (ssub_sub x) = Ret w' /\ wf w' /\ sem' P P start [] None w' /\ same_config w w'.
Proof.
  intros W S Hp Hx. destruct (sub_dequeue_spec handlers w p s x W Hp Hx) as (w' & ni & E & W' & O' & Sp' & _ & es & El & Si).
  exists w'. split_and!; auto; [|apply O'].
  rewrite El, Sp'. eapply sem_log; [by apply same_received_silent|]. apply (sem_retouch P P start [] p s); auto.
  intros e [_ ?]%list_elem_of_filter. done.
Qed.

(** ** Runs *)

(** The messages published so far, where each subscriber started, and the
    spooler of the channel. *)
Record run_state := Run {
  published : list nchan_msg_t;
  started_at : gmap positive (Z * Z);
  spooler : channel_spooler_t;
}.

(** What happens to a spooler, with the time of day in milliseconds. *)
Inductive spool_op :=
  | Subscribe (now : Z) (t : positive)
  | Publish (now : Z) (m : nchan_msg_t)
  | FetchTimer (now : Z) (spool : positive)
  | Leave (t : positive).

Definition exec (o : spool_op) (st : run_state) : outcome run_state :=
  let P := published st in
  match o with
  | Subscribe now t =>
      x ← get_sub (spooler st) t;
      '(w, rc) ← spooler_add_subscriber handlers now ptr_words (answer P) (S (S (length P))) (spooler st) t;
      Ret (Run P (if decide (rc = NGX_OK) then <[t := start_of P (last_msgid x)]> (started_at st) else started_at st) w)
  | Publish now m =>
      w ← spooler_respond_message handlers now ptr_words (answer (P ++ [m])) (S (length (P ++ [m]))) (spooler st) m;
      Ret (Run (P ++ [m]) (started_at st) w)
  | FetchTimer now p =>
      w ← fetchmsg_ev_handler handlers now ptr_words (answer P) (S (length P)) (spooler st) p;
      Ret (Run P (started_at st) w)
  | Leave t => w ← sub_dequeue handlers (spooler st) t; Ret (Run P (started_at st) w)
  end.

(** When it may happen: a subscriber comes once, with an id it may ask for;
    messages carry increasing ids and the id of the message before; timers fire
    after they were set; who leaves was waiting. *)
Definition permitted (o : spool_op) (st : run_state) : Prop :=
  let P := published st in
  match o with
  | Subscribe _ t => exists x, subscribers (spooler st) !! t = Some x /\ dequeue_callback x = None /\
      started_at st !! t = None /\ asks P (last_msgid x)
  | Publish _ m => history (P ++ [m]) /\ single (prev_id m) /\ pos (prev_id m) = last_pos P
  | FetchTimer _ p => exists s, spools (spooler st) !! p = Some s /\ p <> current_msg_spool /\ fetchmsg_timer_set s = true
  | Leave t => exists p s x, spools (spooler st) !! p = Some s /\ x ∈ first s /\ ssub_sub x = t
  end.

(** When it aborts the worker. *)
Definition aborts (o : spool_op) (st : run_state) : Prop :=
  match o with
  | Subscribe now t =>
      exists x, subscribers (spooler st) !! t = Some x /\ arrival_aborts now (published st) (spooler st) x
  | _ => False
  end.

Inductive step (st st' : run_state) : Prop :=
  | step_op o : permitted o st -> exec o st = Ret st' -> step st st'.

(** A spooler that has just been started, with the subscribers that may come. *)
Definition newly_started (w : channel_spooler_t) : Prop :=
  exists subs next, Z.of_nat (size subs) < 2 ^ 64 /\ (1 < next)%positive /\
    start_spooler (Spooler (Seed Sentinel 0 0) ∅ subs ∅ [] ∅ NCHAN_ZERO_MSGID READY true NCHAN_SPOOL_FETCH true false
      false next []) NCHAN_SPOOL_FETCH = Ret w.

Record run_ok (st : run_state) : Prop := {
  ro_history : history (published st);
  ro_wf : wf (spooler st);
  ro_prev : prev_ok (spooler st);
  ro_sem : sem' (published st) (published st) (started_at st) [] None (spooler st);
}.

(** The newest spool is the only one. *)
Definition newest_spool : subscriber_pool_t := Pool latest_msg_id None MSG_EXPECTED [] 0 0 false 0 0 0.

Lemma started_ok w : newly_started w -> run_ok (Run [] ∅ w).
Proof.
  intros (subs & next & Sz & Nx & E). injection E as <-.
  match goal with |- run_ok (Run [] ∅ ?w) => set (w2 := w) end.
  assert (forall p s, spools w2 !! p = Some s <-> p = current_msg_spool /\ s = newest_spool) as Only.
  { intros p s. assert (spools w2 = {[current_msg_spool := newest_spool]}) as -> by reflexivity.
    rewrite lookup_singleton_Some. split; intros [? ?]; split; congruence. }
  assert (spools w2 !! current_msg_spool = Some newest_spool) as Cur by (by apply Only).
  split; cbn [published spooler started_at].
  - split; [by intros m ?%elem_of_nil|constructor].
  - split; try done.
    + exists []. split; constructor.
    + constructor.
    + intros p. split; [|intros [->|?%elem_of_nil]; [eauto|done]]. intros [s Hs]. left. by apply Only in Hs as [-> _].
    + by intros ?%elem_of_nil.
    + intros s [_ ->]%Only. done.
    + intros p s [-> ->]%Only. split; simpl; auto; [constructor| |]; by intros x ?%elem_of_nil.
    + intros p [s [-> _]%Only]. change (next_addr w2) with (Pos.succ next). unfold current_msg_spool. lia.
  - done.
  - split; try done.
    + intros p s [-> _]%Only. done.
    + intros s [_ ->]%Only _. split_and!; auto. by intros e ?%elem_of_nil.
    + intros _ p s [-> _]%Only. done.
Qed.

Lemma exec_ok o st :
  run_ok st -> permitted o st ->
  (aborts o st -> exec o st = Crash) /\ (~ aborts o st -> exists st', exec o st = Ret st' /\ run_ok st').
Proof.
  intros [Hi W Pk S] Pm. split.
  { destruct o as [now t|?|?|?]; try done. intros (x & Hx & Ab). destruct Pm as (x' & Hx' & Cb & Ns & As).
    rewrite Hx in Hx'. injection Hx' as <-. cbn [exec]. cbn zeta. rewrite (get_sub_Some _ t x Hx), bind_Ret.
    destruct (subscribe_ok now _ _ _ t x Hi W S Hx Cb Ns As) as [Cr _]. by rewrite Cr. }
  intros Nab. revert Pm. destruct st as [P start w]. cbn [published started_at spooler] in *.
  destruct o as [now t|now m|now p|t]; cbn [permitted exec published started_at spooler]; cbn zeta.
  - intros (x & Hx & Cb & Ns & As). rewrite (get_sub_Some w t x Hx), bind_Ret.
    destruct (subscribe_ok now P start w t x Hi W S Hx Cb Ns As) as [_ Rt].
    destruct Rt as (w' & -> & W' & C' & S'); [intros Ab; apply Nab; by exists x|]. rewrite bind_Ret.
    eexists. split; [done|]. split; auto. unfold prev_ok in *. cbn. by rewrite (sc_prev _ _ C').
  - intros (Hi' & Sp & Ep). destruct (publish_ok now P start m w Hi' Sp Ep W S Pk) as (w' & -> & W' & S' & Pk').
    rewrite bind_Ret. eexists. by split.
  - intros (s & Hs & Nc & Tm). destruct (timer_ok now P start w p s Hi W S Hs Nc Tm) as (w' & -> & W' & S' & C').
    rewrite bind_Ret. eexists. split; [done|]. split; auto. unfold prev_ok in *. cbn. by rewrite (sc_prev _ _ C').
  - intros (p & s & x & Hs & Hx & <-). destruct (leave_ok P start w p s x W S Hs Hx) as (w' & -> & W' & S' & C').
    rewrite bind_Ret. eexists. split; [done|]. split; auto. unfold prev_ok in *. cbn. by rewrite (sc_prev _ _ C').
Qed.

Lemma runs_ok st st' : run_ok st -> rtc step st st' -> run_ok st'.
Proof.
  intros K R. induction R as [|st1 st2 st3 [o Pm E] R IH]; [done|]. apply IH.
  destruct (exec_ok o st1 K Pm) as [Cr Rt]. destruct Rt as (st' & E' & K'); [intros Ab; by rewrite Cr in E|congruence].
Qed.

(** C6.  Subscriptions, publications, timers and departures come in any order on
    a started channel whose store answers at once; a subscriber may ask for the
    newest message or for any id of this channel (nth-message ids, stopping the
    spooler and later answers are not among the operations).  Then the one thing
    that aborts the worker is a subscriber that asks for what follows a message
    that is gone, while nothing is published and a spool of the oldest message
    was already fetched ([oldest_waits]; it need not have a subscriber left):
    that always aborts it.  Everything else returns: no assertion fails, no
    lookup fails, and the fuel of a fetch, one more than the number of messages
    (two more for a subscription), is enough. *)
Theorem spooler_aborts_exactly w0 st o :
  newly_started w0 -> rtc step (Run [] ∅ w0) st -> permitted o st ->
  (aborts o st -> exec o st = Crash) /\ (~ aborts o st -> exists st', exec o st = Ret st').
Proof.
  intros N R Pm. destruct (exec_ok o st) as [Cr Rt]; [by eapply runs_ok; [apply started_ok|]|done|].
  split; [done|]. intros Na. destruct (Rt Na) as (st' & E & _). by exists st'.
Qed.

(** C5.  Subscribers receive the messages published after their position, each
    once and in order: at any time what a subscriber was sent is an initial
    part of them; and a subscriber that still waits was sent all of them,
    unless its spool has a fetch timer pending, in which case what it misses
    is exactly what comes after the id of that spool. *)
Theorem spooler_delivers w0 st :
  newly_started w0 -> rtc step (Run [] ∅ w0) st ->
  (forall t a, started_at st !! t = Some a -> received t (log (spooler st)) `prefix_of` after (published st) a) /\
  (forall p s e, spools (spooler st) !! p = Some s -> e ∈ first s ->
     exists a, started_at st !! ssub_sub e = Some a /\
       (received (ssub_sub e) (log (spooler st)) = after (published st) a \/
        fetchmsg_timer_set s = true /\
        received (ssub_sub e) (log (spooler st)) ++ after (published st) (pos (sp_id s)) = after (published st) a)).
Proof.
  intros N R. destruct (runs_ok _ _ (started_ok _ N) R) as [Hi W _ S]. split; [apply S|].
  intros p s e Hp He. destruct (decide (p = current_msg_spool)) as [->|Nc].
  - destruct (sem_cur _ _ _ _ _ _ _ S s Hp ltac:(done)) as (_ & _ & M). destruct (M e He) as (a & Ha & E & _).
    exists a. auto.
  - destruct (sem_pool _ _ _ _ _ _ _ S p s Hp Nc ltac:(done)) as (M & _ & [?%elem_of_nil|(_ & St)]); [done|].
    destruct (M e He) as (a & Ha & E & _). exists a. split; [done|].
    destruct St as [[_ En]|[_ [T|En]]]; [left; by rewrite E, En, app_nil_r|by right|].
    rewrite En in He. by apply elem_of_nil in He.
Qed.
End run.

(** *** A run *)

(** Subscribers that stay. *)
#[export] Instance staying_subscriber : SubscriberFn := {| sub_enqueue _ := NGX_OK; sub_leaves _ _ := false |}.

Definition no_handlers : channel_spooler_handlers_t := Handlers false false false false false.
Definition three_subscribers : gmap positive subscriber_t :=
  list_to_map [(10%positive, Sub false oldest_msg_id None false); (11%positive, Sub false latest_msg_id None false);
               (12%positive, Sub false (id_at 6 0) None false)].
Definition first_message : nchan_msg_t := set_prev_id (set_id example_msg (id_at 6 0)) oldest_msg_id.
Definition second_message : nchan_msg_t := set_prev_id (set_id example_msg (id_at 7 0)) (id_at 6 0).

Definition exec' := exec no_handlers (fun _ => []).
Definition step' := step no_handlers (fun _ => []).
Definition exec_all (ops : list spool_op) (st : outcome run_state) : outcome run_state :=
  foldl (fun st o => st ← st; exec' o st) st ops.

Definition example_start : channel_spooler_t :=
  match start_spooler (idle_spooler three_subscribers) NCHAN_SPOOL_FETCH with Ret w => w | _ => idle_spooler ∅ end.
Definition example_ops : list spool_op :=
  [Subscribe 1 10; Subscribe 1 11; Publish 2 first_message; Publish 3 second_message; Subscribe 4 12].

(** The state after the first [n] of them. *)
Definition example_state (n : nat) : run_state :=
  match exec_all (take n example_ops) (Ret (Run [] ∅ example_start)) with
  | Ret st => st
  | _ => Run [] ∅ example_start
  end.

Lemma example_history : history [first_message; second_message].
Proof.
  assert (forall t, 0 <= t < 2 ^ 32 -> tree_id (id_at t 0)) as T.
  { intros t Ht. split; [|done]. split; [done|]. simpl. eauto 10. }
  split.
  - intros m [->|[->|?%elem_of_nil]%elem_of_cons]%elem_of_cons; [| |done];
      (split; [apply (T _); lia|unfold lex_lt, pos; simpl; lia]).
  - repeat constructor; unfold lex_lt, pos; simpl; lia.
Qed.

Lemma example_started : newly_started example_start.
Proof. exists three_subscribers, 2%positive. split_and!; [vm_compute; reflexivity|lia|reflexivity]. Qed.

Lemma example_permitted n o : (n < 5)%nat -> example_ops !! n = Some o -> permitted o (example_state n).
Proof.
  pose proof example_history as Hi.
  assert (history [first_message]) as Hi1 by (apply (history_prefix [first_message] second_message Hi)).
  intros Hn Ho. destruct n as [|[|[|[|[|n]]]]]; [injection Ho as <-..|lia].
  - eexists. split; [vm_compute; reflexivity|]. split_and!; [done|by vm_compute|].
    right. split; [split; [split; [done|simpl; eauto 10]|simpl; lia]|done].
  - eexists. split; [vm_compute; reflexivity|]. split_and!; [done|by vm_compute|by left].
  - split_and!; [exact Hi1|split; [done|simpl; eauto 10]|done].
  - split_and!; [exact Hi|split; [done|simpl; eauto 10]|done].
  - eexists. split; [vm_compute; reflexivity|]. split_and!; [done|by vm_compute|].
    right. split; [split; [split; [done|simpl; eauto 10]|simpl; lia]|by vm_compute].
Qed.

Lemma example_run n : (n <= 5)%nat -> rtc step' (Run [] ∅ example_start) (example_state n).
Proof.
  induction n as [|n IH]; intros Hn; [apply rtc_refl|].
  destruct (lookup_lt_is_Some_2 example_ops n) as [o Ho]; [simpl; lia|].
  eapply rtc_r; [apply IH; lia|]. exists o; [apply example_permitted; [lia|done]|].
  destruct n as [|[|[|[|[|n]]]]]; [injection Ho as <-; vm_compute; reflexivity..|lia].
Qed.

Example example_received :
  let lg := log (spooler (example_state 5)) in
  received 10 lg = [first_message; second_message] /\ received 11 lg = [first_message; second_message] /\
  received 12 lg = [second_message].
Proof. vm_compute. auto. Qed.

(** The third subscriber asks for what follows a message. While nothing is
    published that message is gone. *)
Lemma example_early : permitted (Subscribe 4 12) (example_state 1).
Proof.
  eexists. split; [vm_compute; reflexivity|]. split_and!; [done|by vm_compute|].
  right. split; [split; [split; [done|simpl; eauto 10]|simpl; lia]|done].
Qed.

Lemma example_early_aborts : aborts (Subscribe 4 12) (example_state 1).
Proof.
  eexists. split; [vm_compute; reflexivity|]. split_and!; [done|by vm_compute|].
  exists 3%positive. eexists. split; [vm_compute; reflexivity|]. by split_and!.
Qed.

Lemma example_later_not : ~ aborts (Subscribe 4 12) (example_state 4).
Proof. intros (x & _ & _ & M & _). vm_compute in M. discriminate M. Qed.

(** After two messages it is served; when only the first subscriber came before,
    it aborts the worker. *)
Lemma spooler_aborts_exactly_witness :
  (exists st', exec no_handlers (fun _ => []) (Subscribe 4 12) (example_state 4) = Ret st') /\
  exec no_handlers (fun _ => []) (Subscribe 4 12) (example_state 1) = Crash.
Proof.
  split.
  - exact (proj2 (spooler_aborts_exactly no_handlers (fun _ => []) example_start (example_state 4) (Subscribe 4 12)
      example_started (example_run 4 ltac:(lia)) (example_permitted 4 (Subscribe 4 12) ltac:(lia) eq_refl)) example_later_not).
  - exact (proj1 (spooler_aborts_exactly no_handlers (fun _ => []) example_start (example_state 1) (Subscribe 4 12)
      example_started (example_run 1 ltac:(lia)) example_early) example_early_aborts).
Defined.

Lemma spooler_delivers_witness :
  started_at (example_state 5) !! 12%positive = Some (6, 0) /\
  received 12 (log (spooler (example_state 5))) `prefix_of` after (published (example_state 5)) (6, 0).
Proof.
  assert (started_at (example_state 5) !! 12%positive = Some (6, 0)) as E by (vm_compute; reflexivity).
  split; [exact E|].
  exact (proj1 (spooler_delivers no_handlers (fun _ => []) example_start (example_state 5) example_started
    (example_run 5 ltac:(lia))) 12%positive (6, 0) E).
Defined.

(** ** Where the spooler aborts *)

(** Subscribers arrive one after the other while nothing is published. *)
Definition arrive (fuel : nat) (ts : list positive) : outcome channel_spooler_t :=
  foldl (fun w t => w ← w;
           '(w, _) ← spooler_add_subscriber no_handlers 1 (fun _ => []) (answer []) fuel w t; Ret w)
    (Ret example_start) ts.

(** On an empty channel with a subscriber waiting from the oldest message, a
    subscriber that asks for what follows a message that is gone aborts the
    worker: the answer "not found" sends it to the spool of the oldest message,
    whose fetch asserts that the spool was never asked for.  Either of them
    alone is served. *)
Theorem missed_message_aborts fuel :
  arrive (S (S fuel)) [10; 12]%positive = Crash /\
  (exists w, arrive (S (S fuel)) [10%positive] = Ret w) /\ (exists w, arrive (S (S fuel)) [12%positive] = Ret w).
Proof. split_and!; [|eexists|eexists]; vm_compute; reflexivity. Qed.

(** A spooler whose store answers later, stopped while a fetch is under way. *)
Definition stopped_during_fetch : outcome channel_spooler_t :=
  '(w, _) ← spooler_add_subscriber no_handlers 1 (fun _ => []) (fun _ => None) 1 example_start 10;
  stop_spooler no_handlers w true.

(** The answer of the store to a fetch of a spooler that has stopped is a
    NULL dereference, whatever the answer is: the assertion on the strategy
    comes before the test for a deleted channel. *)
Theorem answer_after_stop_aborts fetch code msg :
  exists w data, stopped_during_fetch = Ret w /\ fetch_spooler <$> fetches w !! data = Some false /\
    spool_fetch_msg_callback no_handlers (fun _ => []) fetch w code msg data = Crash.
Proof.
  assert (match stopped_during_fetch with Ret w => fetch_spooler <$> fetches w !! 6%positive | _ => None end = Some false)
    as E by (vm_compute; reflexivity).
  destruct stopped_during_fetch as [w| |]; try discriminate E. exists w, 6%positive. split_and!; auto.
  unfold spool_fetch_msg_callback, get_fetch. destruct (fetches w !! 6%positive) as [d|]; [|discriminate E].
  rewrite bind_Ret. injection E as ->. reflexivity.
Qed.
