(* ===== verification/Rwlock.v ===== *)
(** * The read-write lock of the shared memory ([store/ngx_rwlock.c])

    Worker processes share a counter [lock] (the number of readers, or -1 for a
    writer) and a mutex that protects it, taken with compare-and-swap.  Every
    load and store of the shared words is a step of its own, and the steps of
    the workers interleave in any order.  Waiting (pauses, [ngx_sched_yield],
    logging) does nothing to the shared words and is left out: a worker that
    waits tests again. *)

From S2P Require Import Prelude.

Definition NGX_RWLOCK_WRITE : Z := -1.

Record ngx_rwlock_t := Rwlock {
  lock : Z;        (* ngx_atomic_int_t *)
  mutex : Z;       (* ngx_atomic_t *)
  write_pid : Z;
}.

(** [ngx_rwlock_init]. *)
Definition ngx_rwlock_init : ngx_rwlock_t := Rwlock 0 0 0.

Inductive rwlock_op := ReserveRead | ReleaseRead | ReserveWrite | ReleaseWrite.

(** Where a worker is.  [Test] and [TestAgain] are the reads of the condition
    before the mutex is taken (that of [ngx_rwlock_release_read] reads the word
    twice), [Retest] and [RetestAgain] those after; [LoadLock] and [StoreLock]
    are the two halves of [lock++] and [lock--]. *)
Inductive pc :=
  | Idle | Reading | Writing
  | Test (o : rwlock_op) | TestAgain
  | MutexTest (o : rwlock_op) | MutexCas (o : rwlock_op)
  | Retest (o : rwlock_op) | RetestAgain
  | LoadLock (o : rwlock_op) | StoreLock (o : rwlock_op) (v : Z)
  | StorePid (o : rwlock_op) (v : Z)
  | Unlock (o : rwlock_op) (done : bool).

(** What follows when the condition of an operation does not hold: reserving
    tries again, releasing returns. *)
Definition rwlock_retry (o : rwlock_op) : pc :=
  match o with
  | ReserveRead | ReserveWrite => Test o
  | ReleaseRead | ReleaseWrite => Idle
  end.

(** What the caller has when the operation has returned. *)
Definition rwlock_return (o : rwlock_op) : pc :=
  match o with
  | ReserveRead => Reading
  | ReserveWrite => Writing
  | ReleaseRead | ReleaseWrite => Idle
  end.

(** [rwl_lock_mutex]: [if( *mutex == 0 && ngx_atomic_cmp_set(mutex, 0, ngx_pid))]. *)
Definition rwl_lock_mutex (ngx_pid : Z) (o : rwlock_op) (swap : bool) (l : ngx_rwlock_t) : ngx_rwlock_t * pc :=
  if swap then
    if mutex l =? 0 then (Rwlock (lock l) ngx_pid (write_pid l), Retest o) else (l, MutexTest o)
  else (l, if mutex l =? 0 then MutexCas o else MutexTest o).

(** [rwl_unlock_mutex]: [ngx_atomic_cmp_set(&lock->mutex, ngx_pid, 0)]. *)
Definition rwl_unlock_mutex (ngx_pid : Z) (l : ngx_rwlock_t) : ngx_rwlock_t :=
  if mutex l =? ngx_pid then Rwlock (lock l) 0 (write_pid l) else l.

(** [NGX_RWLOCK_MUTEX_COND(lock, lock->lock != NGX_RWLOCK_WRITE, lock->lock++)]. *)
Definition ngx_rwlock_reserve_read (l : ngx_rwlock_t) (c : pc) : ngx_rwlock_t * pc :=
  let o := ReserveRead in
  match c with
  | Test _ => (l, if negb (lock l =? NGX_RWLOCK_WRITE) then MutexTest o else rwlock_retry o)
  | Retest _ => (l, if negb (lock l =? NGX_RWLOCK_WRITE) then LoadLock o else Unlock o false)
  | LoadLock _ => (l, StoreLock o (s64 (lock l + 1)))
  | StoreLock _ v => (Rwlock v (mutex l) (write_pid l), Unlock o true)
  | c => (l, c)
  end.

(** [NGX_RWLOCK_MUTEX_COND(lock, lock->lock != NGX_RWLOCK_WRITE && lock->lock != 0, lock->lock--)]. *)
Definition ngx_rwlock_release_read (l : ngx_rwlock_t) (c : pc) : ngx_rwlock_t * pc :=
  let o := ReleaseRead in
  match c with
  | Test _ => (l, if negb (lock l =? NGX_RWLOCK_WRITE) then TestAgain else rwlock_retry o)
  | TestAgain => (l, if negb (lock l =? 0) then MutexTest o else rwlock_retry o)
  | Retest _ => (l, if negb (lock l =? NGX_RWLOCK_WRITE) then RetestAgain else Unlock o false)
  | RetestAgain => (l, if negb (lock l =? 0) then LoadLock o else Unlock o false)
  | LoadLock _ => (l, StoreLock o (s64 (lock l - 1)))
  | StoreLock _ v => (Rwlock v (mutex l) (write_pid l), Unlock o true)
  | c => (l, c)
  end.

(** [ngx_rwlock_write_check], called in a loop by [ngx_rwlock_reserve_write]. *)
Definition ngx_rwlock_write_check (ngx_pid : Z) (l : ngx_rwlock_t) (c : pc) : ngx_rwlock_t * pc :=
  let o := ReserveWrite in
  match c with
  | Test _ => (l, if lock l =? 0 then MutexTest o else rwlock_retry o)
  | Retest _ => (l, if lock l =? 0 then StoreLock o NGX_RWLOCK_WRITE else Unlock o false)
  | StoreLock _ v => (Rwlock v (mutex l) (write_pid l), StorePid o ngx_pid)
  | StorePid _ v => (Rwlock (lock l) (mutex l) v, Unlock o true)
  | c => (l, c)
  end.

Definition ngx_rwlock_release_write (l : ngx_rwlock_t) (c : pc) : ngx_rwlock_t * pc :=
  let o := ReleaseWrite in
  match c with
  | Test _ => (l, if lock l =? NGX_RWLOCK_WRITE then MutexTest o else rwlock_retry o)
  | Retest _ => (l, if lock l =? NGX_RWLOCK_WRITE then StoreLock o 0 else Unlock o false)
  | StoreLock _ v => (Rwlock v (mutex l) (write_pid l), StorePid o 0)
  | StorePid _ v => (Rwlock (lock l) (mutex l) v, Unlock o true)
  | c => (l, c)
  end.

Definition op_step (ngx_pid : Z) (o : rwlock_op) : ngx_rwlock_t -> pc -> ngx_rwlock_t * pc :=
  match o with
  | ReserveRead => ngx_rwlock_reserve_read
  | ReleaseRead => ngx_rwlock_release_read
  | ReserveWrite => ngx_rwlock_write_check ngx_pid
  | ReleaseWrite => ngx_rwlock_release_write
  end.

(** A step of a worker inside an operation. *)
Definition rwlock_step (ngx_pid : Z) (l : ngx_rwlock_t) (c : pc) : ngx_rwlock_t * pc :=
  match c with
  | Idle | Reading | Writing => (l, c)
  | MutexTest o => rwl_lock_mutex ngx_pid o false l
  | MutexCas o => rwl_lock_mutex ngx_pid o true l
  | Unlock o ok => (rwl_unlock_mutex ngx_pid l, if ok then rwlock_return o else rwlock_retry o)
  | TestAgain | RetestAgain => op_step ngx_pid ReleaseRead l c
  | Test o | Retest o | LoadLock o | StoreLock o _ | StorePid o _ => op_step ngx_pid o l c
  end.

(** ** Workers *)

(** Workers are numbered; process ids are positive and distinct. *)
Definition pid (i : nat) : Z := Z.of_nat i + 1.

Definition workers : Type := ngx_rwlock_t * list pc.

(** A worker calls an operation when it has what it gives back. *)
Definition may_call (c : pc) (o : rwlock_op) : bool :=
  match c, o with
  | Idle, (ReserveRead | ReserveWrite) | Reading, ReleaseRead | Writing, ReleaseWrite => true
  | _, _ => false
  end.

Inductive worker_step : workers -> workers -> Prop :=
  | step_call l ps i c o : ps !! i = Some c -> may_call c o = true -> worker_step (l, ps) (l, <[i := Test o]> ps)
  | step_run l ps i c : ps !! i = Some c ->
      worker_step (l, ps) ((rwlock_step (pid i) l c).1, <[i := (rwlock_step (pid i) l c).2]> ps).

Definition at_rest (n : nat) : workers := (ngx_rwlock_init, replicate n Idle).

(** ** The invariant *)

(** Inside the mutex. *)
Definition in_cs (c : pc) : bool :=
  match c with
  | Retest _ | RetestAgain | LoadLock _ | StoreLock _ _ | StorePid _ _ | Unlock _ _ => true
  | _ => false
  end.

(** Counted as a reader (a writer) by [lock]. *)
Definition holds_read (c : pc) : bool :=
  match c with
  | Reading | TestAgain | RetestAgain | Unlock ReserveRead true | Unlock ReleaseRead false => true
  | Test ReleaseRead | MutexTest ReleaseRead | MutexCas ReleaseRead | Retest ReleaseRead | LoadLock ReleaseRead
  | StoreLock ReleaseRead _ => true
  | _ => false
  end.
Definition holds_write (c : pc) : bool :=
  match c with
  | Writing | StorePid ReserveWrite _ | Unlock ReserveWrite true | Unlock ReleaseWrite false => true
  | Test ReleaseWrite | MutexTest ReleaseWrite | MutexCas ReleaseWrite | Retest ReleaseWrite
  | StoreLock ReleaseWrite _ => true
  | _ => false
  end.

(** What a worker inside the mutex knows of the counter. *)
Definition knows (l : Z) (c : pc) : Prop :=
  match c with
  | RetestAgain => l <> NGX_RWLOCK_WRITE
  | LoadLock ReserveRead => l <> NGX_RWLOCK_WRITE
  | LoadLock ReleaseRead => l <> NGX_RWLOCK_WRITE /\ l <> 0
  | StoreLock ReserveRead v => l <> NGX_RWLOCK_WRITE /\ v = s64 (l + 1)
  | StoreLock ReleaseRead v => l <> NGX_RWLOCK_WRITE /\ l <> 0 /\ v = s64 (l - 1)
  | StoreLock ReserveWrite v => l = 0 /\ v = NGX_RWLOCK_WRITE
  | StoreLock ReleaseWrite v => l = NGX_RWLOCK_WRITE /\ v = 0
  | LoadLock _ => False
  | Unlock (ReleaseRead | ReleaseWrite) ok => ok = true
  | StorePid o _ => o = ReserveWrite \/ o = ReleaseWrite
  | _ => True
  end.

Definition count (f : pc -> bool) (ps : list pc) : Z := Z.of_nat (length (filter (fun c => f c = true) ps)).

Lemma count_insert f ps i c c' :
  ps !! i = Some c -> count f (<[i := c']> ps) = count f ps - Z.b2z (f c) + Z.b2z (f c').
Proof.
  intros Hi. unfold count. pose proof (lookup_lt_Some _ _ _ Hi) as L.
  rewrite (insert_take_drop _ _ _ L). rewrite <- (take_drop_middle _ _ _ Hi) at 3.
  rewrite !filter_app, !filter_cons, !length_app.
  destruct (f c), (f c'); simpl; lia.
Qed.

Lemma rw_count_pos f ps i c : ps !! i = Some c -> f c = true -> 0 < count f ps.
Proof.
  intros Hi E. unfold count. assert (c ∈ filter (fun c => f c = true) ps) as H.
  { apply list_elem_of_filter. split; [done|by eapply list_elem_of_lookup_2]. }
  destruct (filter _ ps); [by apply elem_of_nil in H|simpl; lia].
Qed.

Lemma count_two f ps i j c d :
  f Idle = false -> ps !! i = Some c -> ps !! j = Some d -> i <> j -> f c = true -> f d = true -> 1 < count f ps.
Proof.
  intros EI Hi Hj N Ec Ed. pose proof (count_insert f ps i c Idle Hi) as E. rewrite Ec, EI in E. simpl in E.
  assert (0 < count f (<[i := Idle]> ps)); [|lia]. apply (rw_count_pos f _ j d); [|done]. by rewrite list_lookup_insert_ne.
Qed.

Lemma count_nonneg f ps : 0 <= count f ps <= Z.of_nat (length ps).
Proof. unfold count. pose proof (length_filter (fun c => f c = true) ps). lia. Qed.

Record rwlock_inv (s : workers) : Prop := {
  ri_mutex : forall i c, s.2 !! i = Some c -> in_cs c = true <-> mutex s.1 = pid i;
  ri_lock : count holds_write s.2 = 0 /\ lock s.1 = count holds_read s.2 \/
            count holds_write s.2 = 1 /\ count holds_read s.2 = 0 /\ lock s.1 = NGX_RWLOCK_WRITE;
  ri_knows : forall i c, s.2 !! i = Some c -> knows (lock s.1) c;
  ri_size : Z.of_nat (length s.2) < 2 ^ 63;
}.

Lemma pid_inj i j : pid i = pid j -> i = j.
Proof. unfold pid. lia. Qed.

Lemma s64_small z : - 2 ^ 63 <= z < 2 ^ 63 -> s64 z = z.
Proof. intros. apply wraps_small; [lia|]. unfold in_s. simpl. lia. Qed.

(** A step of a worker outside the mutex, or that does not store the counter. *)
Lemma inv_update l ps l' i c c' :
  rwlock_inv (l, ps) -> ps !! i = Some c ->
  (mutex l' = mutex l /\ in_cs c' = in_cs c \/
   mutex l = 0 /\ mutex l' = pid i /\ in_cs c' = true \/
   mutex l = pid i /\ mutex l' = 0 /\ in_cs c' = false) ->
  (lock l' = lock l \/ mutex l = pid i) ->
  (count holds_write ps - Z.b2z (holds_write c) + Z.b2z (holds_write c') = 0 /\
     lock l' = count holds_read ps - Z.b2z (holds_read c) + Z.b2z (holds_read c') \/
   count holds_write ps - Z.b2z (holds_write c) + Z.b2z (holds_write c') = 1 /\
     count holds_read ps - Z.b2z (holds_read c) + Z.b2z (holds_read c') = 0 /\ lock l' = NGX_RWLOCK_WRITE) ->
  knows (lock l') c' -> rwlock_inv (l', <[i := c']> ps).
Proof.
  intros [M L K Sz] Hi Hm Hl Hc Hk. cbn [fst snd] in *. split; cbn [fst snd].
  - intros j d. rewrite list_lookup_insert_Some. intros [(-> & -> & _)|[Nj Hj]].
    + specialize (M j c Hi). destruct Hm as [[-> ->]|[(_ & -> & ->)|(E & -> & ->)]]; [done|done|].
      split; [done|]. intros E'. unfold pid in E'. lia.
    + specialize (M j d Hj). destruct Hm as [[-> _]|[(E & -> & _)|(E & -> & _)]]; [done| |].
      * rewrite M, E. unfold pid. lia.
      * rewrite M, E. split; [intros ->%pid_inj; done|]. unfold pid. lia.
  - rewrite !(count_insert _ _ _ _ c' Hi). exact Hc.
  - intros j d. rewrite list_lookup_insert_Some. intros [(-> & -> & _)|[Nj Hj]]; [done|].
    specialize (K j d Hj). specialize (M j d Hj). destruct Hl as [->|E]; [done|].
    assert (in_cs d = false) as F.
    { destruct (in_cs d); [|done]. exfalso. apply Nj, pid_inj. rewrite <- E. by apply M. }
    by destruct d.
  - by rewrite length_insert.
Qed.

(** What the counter is while some worker reads or writes. *)
Lemma reader_lock l ps i c :
  rwlock_inv (l, ps) -> ps !! i = Some c -> holds_read c = true -> 0 < lock l < 2 ^ 63 /\ count holds_write ps = 0.
Proof.
  intros [_ L _ Sz] Hi E. cbn [fst snd] in *. pose proof (rw_count_pos _ _ _ _ Hi E). pose proof (count_nonneg holds_read ps). lia.
Qed.
Lemma writer_lock l ps i c :
  rwlock_inv (l, ps) -> ps !! i = Some c -> holds_write c = true ->
  lock l = NGX_RWLOCK_WRITE /\ count holds_read ps = 0 /\ count holds_write ps = 1.
Proof.
  intros [_ L _ _] Hi E. cbn [fst snd] in *. pose proof (rw_count_pos _ _ _ _ Hi E). lia.
Qed.

(** With a worker that is not a reader, there are fewer readers than workers. *)
Lemma room l ps i c :
  rwlock_inv (l, ps) -> ps !! i = Some c -> holds_read c = false -> lock l <> NGX_RWLOCK_WRITE ->
  0 <= lock l < 2 ^ 63 - 1 /\ lock l = count holds_read ps /\ count holds_write ps = 0.
Proof.
  intros [_ L _ Sz] Hi E N. cbn [fst snd] in *.
  pose proof (count_insert holds_read ps i c Reading Hi) as C. rewrite E in C. cbn [Z.b2z holds_read] in C.
  pose proof (count_nonneg holds_read (<[i := Reading]> ps)) as B. rewrite length_insert in B.
  pose proof (count_nonneg holds_read ps). lia.
Qed.

Lemma knows_nothing l c : in_cs c = false -> knows l c.
Proof. by destruct c. Qed.

(** A step that only moves the program counter. *)
Lemma inv_move l ps i c c' :
  rwlock_inv (l, ps) -> ps !! i = Some c -> in_cs c' = in_cs c -> holds_read c' = holds_read c ->
  holds_write c' = holds_write c -> knows (lock l) c' -> rwlock_inv (l, <[i := c']> ps).
Proof.
  intros I Hi Ec Er Ew K. apply (inv_update l ps l i c c'); auto.
  rewrite Er, Ew. destruct I as [_ L _ _]. cbn [fst snd] in L. lia.
Qed.

Lemma call_inv l ps i c o :
  rwlock_inv (l, ps) -> ps !! i = Some c -> may_call c o = true -> rwlock_inv (l, <[i := Test o]> ps).
Proof. intros I Hi Hc. apply (inv_move l ps i c); auto; by destruct c, o. Qed.

Lemma cs_mutex l ps i c : rwlock_inv (l, ps) -> ps !! i = Some c -> in_cs c = true -> mutex l = pid i.
Proof. intros [M _ _ _] Hi E. by apply (M i c Hi). Qed.

(** The facts that apply to the current step. *)
Ltac rwlock_facts :=
  cbn [rwlock_step op_step rwl_lock_mutex rwl_unlock_mutex ngx_rwlock_reserve_read ngx_rwlock_release_read
       ngx_rwlock_write_check ngx_rwlock_release_write holds_read holds_write in_cs knows fst snd negb Z.b2z
       rwlock_retry rwlock_return lock mutex write_pid] in *;
  repeat match goal with
    | H : ?x = ?x -> _ |- _ => specialize (H eq_refl)
    | H : _ /\ _ |- _ => destruct H
    | H : true = false -> _ |- _ => clear H
    | H : false = true -> _ |- _ => clear H
    end.

Lemma run_inv l ps i c :
  rwlock_inv (l, ps) -> ps !! i = Some c ->
  rwlock_inv ((rwlock_step (pid i) l c).1, <[i := (rwlock_step (pid i) l c).2]> ps).
Proof.
  intros I Hi.
  pose proof (fun c' => inv_move l ps i c c' I Hi) as Mv. pose proof (fun l' c' => inv_update l ps l' i c c' I Hi) as Up.
  pose proof (ri_lock _ I) as L. pose proof (ri_knows _ I i c Hi) as K. cbn [fst snd] in L, K.
  pose proof (reader_lock l ps i c I Hi) as Rd. pose proof (writer_lock l ps i c I Hi) as Wr.
  pose proof (room l ps i c I Hi) as Rm. pose proof (cs_mutex l ps i c I Hi) as Mx.
  unfold NGX_RWLOCK_WRITE, rwl_unlock_mutex in *.
  destruct c as [| | |o| |o|o|o| |o|o v|o v|o ok]; try destruct o; rwlock_facts; try (by rewrite list_insert_id).
  all: unfold NGX_RWLOCK_WRITE, rwl_unlock_mutex in *; try destruct ok; rwlock_facts; try discriminate;
    destruct (Z.eqb_spec (lock l) (-1)), (Z.eqb_spec (lock l) 0), (Z.eqb_spec (mutex l) 0), (Z.eqb_spec (mutex l) (pid i));
    rwlock_facts; try lia.
  all: first [apply Mv; cbn; auto; fail
             |apply Up; cbn [lock mutex holds_read holds_write in_cs knows Z.b2z]; unfold NGX_RWLOCK_WRITE; auto;
              rewrite ?s64_small in * by lia; subst; auto; lia].
Qed.

Lemma rest_inv n : Z.of_nat n < 2 ^ 63 -> rwlock_inv (at_rest n).
Proof.
  intros Hn. split; cbn [at_rest fst snd].
  - intros i c [-> _]%lookup_replicate. cbn. split; [done|]. unfold pid. lia.
  - left. unfold count. rewrite !filter_none; [done|..]; intros c [-> _]%elem_of_replicate; done.
  - intros i c [-> _]%lookup_replicate. done.
  - by rewrite length_replicate.
Qed.

Lemma reachable_inv n s : Z.of_nat n < 2 ^ 63 -> rtc worker_step (at_rest n) s -> rwlock_inv s.
Proof.
  intros Hn R. remember (at_rest n) as s0 eqn:E. assert (rwlock_inv s0) as I by (subst; by apply rest_inv). clear E.
  induction R as [|s1 s2 s3 St R IH]; [done|]. apply IH. destruct St; [by eapply call_inv|by apply run_inv].
Qed.

(** C20.  Mutual exclusion: however the loads, stores and compare-and-swaps of any
    number of workers interleave, a worker that holds the lock for writing is
    the only one that holds it; and the counter says how many hold it. *)
Theorem rwlock_excludes n s i j :
  Z.of_nat n < 2 ^ 63 -> rtc worker_step (at_rest n) s -> i <> j -> s.2 !! i = Some Writing ->
  s.2 !! j <> Some Reading /\ s.2 !! j <> Some Writing /\ lock s.1 = NGX_RWLOCK_WRITE.
Proof.
  intros Hn R N Hi. pose proof (reachable_inv n s Hn R) as I. destruct s as [l ps]. cbn [fst snd] in *.
  destruct (writer_lock l ps i Writing I Hi eq_refl) as (El & Er & Ew). split_and!; [| |done]; intros Hj.
  - pose proof (rw_count_pos holds_read ps j Reading Hj eq_refl). lia.
  - pose proof (count_two holds_write ps i j Writing Writing eq_refl Hi Hj N eq_refl eq_refl). lia.
Qed.

(** Releasing is never lost: the reader that releases finds the counter
    positive at each of its tests, the writer finds its mark, so each release
    reaches the store and undoes one reservation. *)
Theorem rwlock_release_not_lost n s i c :
  Z.of_nat n < 2 ^ 63 -> rtc worker_step (at_rest n) s -> s.2 !! i = Some c ->
  c ∈ [Test ReleaseRead; TestAgain; Retest ReleaseRead; RetestAgain; Test ReleaseWrite; Retest ReleaseWrite] ->
  (rwlock_step (pid i) s.1 c).2 <> Idle /\ forall o, (rwlock_step (pid i) s.1 c).2 <> Unlock o false.
Proof.
  intros Hn R Hi Hc. pose proof (reachable_inv n s Hn R) as I. destruct s as [l ps]. cbn [fst snd] in *.
  pose proof (reader_lock l ps i c I Hi) as Rd. pose proof (writer_lock l ps i c I Hi) as Wr.
  unfold NGX_RWLOCK_WRITE in *.
  repeat (apply elem_of_cons in Hc as [->|Hc]; [cbn in *; unfold NGX_RWLOCK_WRITE in *;
    destruct (Z.eqb_spec (lock l) (-1)), (Z.eqb_spec (lock l) 0); cbn; split; try done;
    try specialize (Rd eq_refl); try specialize (Wr eq_refl); lia|]).
  by apply elem_of_nil in Hc.
Qed.

(** *** Two workers *)

(** Worker 0 reserves for reading and worker 1 waits to write. *)
Definition schedule (ops : list (nat * option rwlock_op)) (s : workers) : workers :=
  foldl (fun s x => match s.2 !! x.1, x.2 with
                    | Some c, Some o => if may_call c o then (s.1, <[x.1 := Test o]> s.2) else s
                    | Some c, None => ((rwlock_step (pid x.1) s.1 c).1, <[x.1 := (rwlock_step (pid x.1) s.1 c).2]> s.2)
                    | None, _ => s
                    end) s ops.

Lemma schedule_reachable ops s : rtc worker_step s (schedule ops s).
Proof.
  revert s. induction ops as [|[i o] ops IH]; intros [l ps]; [apply rtc_refl|]. cbn [schedule foldl fst snd].
  destruct (ps !! i) as [c|] eqn:Hi; [|apply IH]. destruct o as [o|].
  - destruct (may_call c o) eqn:Hc; [|apply IH]. eapply rtc_l; [by eapply step_call|apply IH].
  - eapply rtc_l; [by apply (step_run l ps i c)|apply IH].
Qed.

Definition write_then_wait : list (nat * option rwlock_op) :=
  [(0%nat, Some ReserveWrite)] ++ replicate 7 (0%nat, None) ++ [(1%nat, Some ReserveRead)] ++ replicate 5 (1%nat, None).

Lemma rwlock_excludes_witness :
  (schedule write_then_wait (at_rest 2)).2 = [Writing; Test ReserveRead] /\
  (schedule write_then_wait (at_rest 2)).2 !! 1%nat <> Some Reading.
Proof.
  split; [vm_compute; reflexivity|].
  apply (rwlock_excludes 2 (schedule write_then_wait (at_rest 2)) 0 1); [done|apply schedule_reachable|done|].
  vm_compute. reflexivity.
Defined.

Lemma rwlock_release_not_lost_witness :
  let s := schedule (write_then_wait ++ [(0%nat, Some ReleaseWrite)]) (at_rest 2) in
  s.2 !! 0%nat = Some (Test ReleaseWrite) /\ (rwlock_step 1 s.1 (Test ReleaseWrite)).2 <> Idle.
Proof.
  split; [vm_compute; reflexivity|].
  apply (rwlock_release_not_lost 2 (schedule (write_then_wait ++ [(0%nat, Some ReleaseWrite)]) (at_rest 2)) 0 (Test ReleaseWrite));
    [done|apply schedule_reachable|vm_compute; reflexivity|].
  apply list_elem_of_In. simpl. auto 10.
Defined.
