(* ===== verification/Scan.v ===== *)
(** * Scanning strings ([util/nchan_util.c])

    The hand-written string routines the parsers use.  A string is the sequence
    of its bytes; a cursor into it is the sequence of the bytes from the cursor
    on.  C strings do not contain the byte 0. *)

From S2P Require Import Prelude Nginx.
Open Scope Z_scope.

(** ** The C library *)

(** [memchr] and [strchr]: the position of a byte. *)
Definition memchr (s : bytes) (c : Z) : option nat := strchr_ref s c.

Lemma memchr_Some s c i : memchr s c = Some i <-> s !! i = Some c /\ forall j, (j < i)%nat -> s !! j <> Some c.
Proof.
  pose proof (strchr_ref_first s c) as F. unfold memchr. split; [intros E; by rewrite E in F|].
  intros [Hi N]. destruct (strchr_ref s c) as [j|]; simpl in F.
  - destruct F as [Hj M]. f_equal. destruct (Nat.lt_trichotomy i j) as [L|[?|L]]; [|done|].
    + by destruct (M i L).
    + by destruct (N j L).
  - destruct F. by eapply list_elem_of_lookup_2.
Qed.

Lemma memchr_None s c : memchr s c = None <-> c ∉ s.
Proof.
  pose proof (strchr_ref_first s c) as F. unfold memchr. split; [intros E; by rewrite E in F|].
  intros N. by apply (first_pos_absent c s).
Qed.

Lemma memchr_app s1 s2 c : c ∉ s1 -> memchr (s1 ++ c :: s2) c = Some (length s1).
Proof. intros N. eapply first_pos_app; [done|apply strchr_ref_first]. Qed.

Lemma memchr_split s c k : memchr s c = Some k -> exists s1 s2, s = s1 ++ c :: s2 /\ c ∉ s1 /\ length s1 = k.
Proof.
  intros [Hk Before]%memchr_Some. exists (take k s), (drop (S k) s).
  split; [symmetry; by apply take_drop_middle|]. split.
  - intros (j & Hj & L)%elem_of_take. by apply (Before j).
  - rewrite length_take. pose proof (lookup_lt_Some _ _ _ Hk). lia.
Qed.

(** Cutting a string at a byte. *)
Lemma drop_cut (s1 s2 : bytes) c : drop (S (length s1)) (s1 ++ c :: s2) = s2.
Proof. rewrite cons_middle, app_assoc. apply drop_app_length'. rewrite length_app. simpl. lia. Qed.

(** [memcmp(a, b, len) == 0] and [strncmp] without byte 0: a prefix. *)
Fixpoint starts_with (s p : bytes) {struct p} : bool :=
  match p, s with
  | [], _ => true
  | c :: p', d :: s' => (d =? c) && starts_with s' p'
  | _ :: _, [] => false
  end.

Lemma starts_with_spec s p : starts_with s p = true <-> p `prefix_of` s.
Proof.
  revert s. induction p as [|c p IH]; intros s; simpl.
  { split; [intros _; apply prefix_nil|]. by destruct s. }
  destruct s as [|d s]; simpl.
  - split; [done|]. by intros [k E].
  - rewrite andb_true_iff, Z.eqb_eq, IH. split.
    + intros [-> P]. by apply prefix_cons.
    + intros P. split; [symmetry; by eapply prefix_cons_inv_1|by eapply prefix_cons_inv_2].
Qed.

(** [strstr]: the position of a substring. *)
Fixpoint strstr (s p : bytes) : option nat :=
  if starts_with s p then Some O
  else match s with [] => None | _ :: s' => S <$> strstr s' p end.

(** ** Routines *)

(** The loop of [memrchr], from the end. *)
Fixpoint memrchr_loop (s : bytes) (c : Z) (n : nat) : option nat :=
  match n with
  | O => None
  | S n' => if decide (s !! n' = Some c) then Some n' else memrchr_loop s c n'
  end.
Definition memrchr (s : bytes) (c : Z) : option nat := memrchr_loop s c (length s).

(** Strings as values: [str1 == str2] as pointers implies equal contents. *)
Definition nchan_ngx_str_match (str1 str2 : bytes) : bool :=
  if negb (Nat.eqb (length str1) (length str2)) then false
  else if Nat.eqb (length str1) 0 then true
  else starts_with str1 str2.

Definition nchan_ngx_str_nonzero_match (str1 str2 : bytes) : bool :=
  if Nat.eqb (length str1) 0 then false else nchan_ngx_str_match str1 str2.

Definition nchan_cstr_startswith (cstr match' : bytes) : bool := starts_with cstr match'.

Definition nchan_str_startswith (str match' : bytes) : bool :=
  if (length str <? length match')%nat then false else starts_with (take (length match') str) match'.

(** The string after the match, or the string itself. *)
Definition nchan_str_after (str match' : bytes) : bytes * bool :=
  if nchan_str_startswith str match' then (drop (length match') str, true) else (str, false).

(** [for(len = str->len; len >= sz; cur++, len--)]. *)
Fixpoint nchan_ngx_str_char_substr (str substr : bytes) : bool :=
  if (length str <? length substr)%nat then false
  else if starts_with str substr then true
  else match str with [] => false | _ :: cur => nchan_ngx_str_char_substr cur substr end.

(** The token before [chr] (of the whole of [max_len = length s] bytes if there
    is none), and the cursor after it.  With [max_len = 0] one byte past the end
    is read, which is the final 0. *)
Definition nchan_scan_split_by_chr (s : bytes) (chr : Z) : option bytes * bytes :=
  match memchr s chr with
  | Some k => (Some (take k s), drop (S k) s)
  | None => match s with [] => (None, s) | _ => (Some s, []) end
  end.

Definition nchan_scan_until_chr_on_line (line : bytes) (chr : Z) : bytes * bytes :=
  match memchr line chr with
  | None => (line, [])
  | Some k => (take k line, drop (S k) line)
  end.

Definition nchan_strcpy (src : bytes) (maxlen : Z) : bytes :=
  let len := if (maxlen <? Z.of_nat (length src)) && (0 <? maxlen) then Z.to_nat maxlen else length src in
  take len src.

(** [for(cur = *s1; cur < last; cur++)], for [n] more positions: where the
    delimiter starts. *)
Fixpoint strsplit_loop (s delim : bytes) (n : nat) {struct n} : option nat :=
  match n with
  | O => None
  | S n' => if starts_with s delim then Some O
            else match s with [] => None | _ :: s' => S <$> strsplit_loop s' delim n' end
  end.

(** The token before the delimiter, and the new cursor; [None] for NULL.
    [last = last_char - delim_sz] is where the search stops, exclusive. *)
Definition nchan_strsplit (s1 delim : bytes) : option bytes * bytes :=
  let cur_to_last := Z.of_nat (length s1) - Z.of_nat (length delim) in
  match strsplit_loop s1 delim (Z.to_nat cur_to_last) with
  | Some k => (Some (take k s1), drop (k + length delim) s1)
  | None => if 0 <=? cur_to_last then (Some s1, []) else (None, [])
  end.

(** The loop of [nchan_get_rest_of_line_in_cstr]: [cur] is a position, or NULL.
    The result is the rest of the line and the return value. *)
Fixpoint rest_of_line_loop (fuel : nat) (cstr line_start : bytes) (cur : option nat) : outcome (option bytes * Z) :=
  match fuel with
  | O => NoFuel
  | S fuel' =>
      match cur with
      | None => Ret (None, 0)
      | Some cur =>
          if (cur <? length cstr)%nat then
            match strstr cstr line_start with
            | None => Ret (Some [], 0)
            | Some first =>
                if (first =? 0)%nat || bool_decide (cstr !! (first - 1)%nat = Some ch_nl) then
                  let last :=
                    match memchr (drop first cstr) ch_nl with
                    | None => length cstr
                    | Some k =>
                        let last := (first + k)%nat in
                        if (first <? last)%nat && bool_decide (cstr !! (last - 1)%nat = Some ch_cr)
                        then (last - 1)%nat else last
                    end in
                  let start := (first + length line_start)%nat in
                  Ret (Some (take (last - start) (drop start cstr)), 1)
                else
                  rest_of_line_loop fuel' cstr line_start
                    (match memchr (drop cur cstr) ch_nl with Some k => Some (cur + k)%nat | None => None end)
            end
          else Ret (None, 0)
      end
  end.

Definition nchan_get_rest_of_line_in_cstr (fuel : nat) (cstr line_start : bytes) : outcome (option bytes * Z) :=
  rest_of_line_loop fuel cstr line_start (Some O).

Definition nchan_cstr_match_line (fuel : nat) (cstr line : bytes) : outcome Z :=
  '(rest, rc) ← nchan_get_rest_of_line_in_cstr fuel cstr line;
  Ret (if negb (rc =? 0) then match rest with Some [] => 1 | _ => 0 end else 0).

(** [htonl] on a little-endian machine reverses the bytes of a word. *)
Definition htonl (x : Z) : Z :=
  Z.lor (Z.shiftl (Z.land x 255) 24)
    (Z.lor (Z.shiftl (Z.land (Z.shiftr x 8) 255) 16)
      (Z.lor (Z.shiftl (Z.land (Z.shiftr x 16) 255) 8) (Z.land (Z.shiftr x 24) 255))).

Definition flip_uint64_if_little_endian (value : Z) : Z :=
  let high_part := htonl (u32 (Z.shiftr value 32)) in
  let low_part := htonl (u32 (Z.land value 4294967295)) in
  Z.lor (Z.shiftl low_part 32) high_part.

Definition nchan_htonll := flip_uint64_if_little_endian.
Definition nchan_ntohll := flip_uint64_if_little_endian.

(** ** Facts *)

(** The rest of a line is found when the searched word occurs first at the start
    of a line. *)
Definition at_line_start (cstr : bytes) (i : nat) : Prop := i = O \/ cstr !! (i - 1)%nat = Some ch_nl.

Lemma rest_of_line_stuck fuel cstr line_start first cur :
  strstr cstr line_start = Some first -> ~ at_line_start cstr first -> cstr !! cur = Some ch_nl ->
  rest_of_line_loop fuel cstr line_start (Some cur) = NoFuel.
Proof.
  intros Ef N Hc. induction fuel as [|fuel IH]; [done|]. cbn [rest_of_line_loop].
  pose proof (lookup_lt_Some _ _ _ Hc) as L. rewrite (proj2 (Nat.ltb_lt _ _) L), Ef.
  unfold at_line_start in N.
  destruct (Nat.eqb_spec first 0) as [->|]; [tauto|]. rewrite bool_decide_eq_false_2 by tauto. cbn [orb].
  assert (memchr (drop cur cstr) ch_nl = Some O) as ->.
  { apply memchr_Some. split; [by rewrite lookup_drop, Nat.add_0_r|lia]. }
  by rewrite Nat.add_0_r.
Qed.

(** When the first occurrence of the searched word is not at the start of a
    line and some line ends after the start of the string,
    [nchan_get_rest_of_line_in_cstr] never returns: its search starts over from
    the whole string, and [strchr] finds the same newline again. *)
Theorem rest_of_line_never_returns cstr line_start first k :
  strstr cstr line_start = Some first -> ~ at_line_start cstr first -> cstr !! k = Some ch_nl ->
  forall fuel, nchan_get_rest_of_line_in_cstr fuel cstr line_start = NoFuel.
Proof.
  intros Ef N Hk [|fuel]; [done|]. unfold nchan_get_rest_of_line_in_cstr. cbn [rest_of_line_loop].
  pose proof (lookup_lt_Some _ _ _ Hk) as L.
  rewrite (proj2 (Nat.ltb_lt 0 (length cstr))) by lia. rewrite Ef. unfold at_line_start in N.
  destruct (Nat.eqb_spec first 0) as [->|]; [tauto|]. rewrite bool_decide_eq_false_2 by tauto. cbn [orb].
  rewrite drop_0. destruct (memchr cstr ch_nl) as [i|] eqn:E.
  - apply memchr_Some in E as [Hi _]. eapply rest_of_line_stuck; eauto.
  - apply memchr_None in E. destruct E. by eapply list_elem_of_lookup_2.
Qed.

(** The reply of a Redis server that loads a dataset asynchronously, searched
    for a line "loading:1" while a node connects. *)
Definition async_loading_info : bytes :=
  bytes_of "loading:0" ++ [ch_cr; ch_nl] ++ bytes_of "async_loading:1" ++ [ch_cr; ch_nl].

Lemma rest_of_line_never_returns_witness :
  nchan_get_rest_of_line_in_cstr 1000 async_loading_info (bytes_of "loading:1") = NoFuel.
Proof.
  apply (rest_of_line_never_returns _ _ 17 10); [vm_compute; reflexivity| |vm_compute; reflexivity].
  intros [E|E]; [discriminate E|vm_compute in E; discriminate E].
Defined.

(** At the start of a line one round is enough. *)
Lemma rest_of_line_returns cstr line_start :
  (forall first, strstr cstr line_start = Some first -> at_line_start cstr first) ->
  exists r, nchan_get_rest_of_line_in_cstr 1 cstr line_start = Ret r.
Proof.
  intros A. unfold nchan_get_rest_of_line_in_cstr. cbn [rest_of_line_loop].
  destruct (0 <? length cstr)%nat; [|eauto]. destruct (strstr cstr line_start) as [f|]; [|eauto].
  destruct (A f eq_refl) as [->|E]; [cbn [Nat.eqb orb]; eauto|]. rewrite bool_decide_eq_true_2 by done.
  rewrite orb_true_r. eauto.
Qed.
