(* ===== verification/ChannelId.v ===== *)
(** * Channel ids ([util/nchan_channel_id.c], [parse_multi_id] of [store/memory/memstore.c])

    A request names one or several channels.  Several are packed in one id that
    starts with "m/" and a separator and ends every "group/id" with a separator;
    the store takes it apart again.  The values of the configured expressions
    ([ngx_http_complex_value], [ngx_http_get_variable]) and the configuration of
    the location are arguments; allocations from the request's pool succeed. *)

From S2P Require Import Prelude Nginx Scan.
Open Scope Z_scope.

Definition NCHAN_MULTITAG_MAX : Z := 255.
Definition NCHAN_MULTI_SEP_CHR : Z := 0.

(** What the request and its location say. *)
Record chid_conf := ChidConf {
  pub_chid : list bytes;
  sub_chid : list bytes;
  pubsub_chid : list bytes;
  push_channel_id : option bytes;     (* the legacy variable, if set *)
  channel_group : bytes;
  channel_id_split_delimiter : bytes;
  max_channel_id_length : Z;
  redis_enabled : bool;
}.

(** [id->len > (unsigned )cf->max_channel_id_length]. *)
Definition validate_id (id : bytes) (cf : chid_conf) : Z :=
  if u32 (max_channel_id_length cf) <? Z.of_nat (length id) then NGX_ERROR else NGX_OK.

Definition nchan_channel_id_is_multi (id : bytes) : bool :=
  match id with
  | a :: b :: c :: _ => (a =? ch_m) && (b =? ch_slash) && (c =? NCHAN_MULTI_SEP_CHR)
  | _ => false
  end.

(** ** Building *)

(** [while ((cur_last = nchan_strsplit(&cur, delim, last)) != NULL)]: the ids
    found, after the [n_out] there are; [None] when they are too many. *)
Fixpoint split_loop (fuel : nat) (cur delim : bytes) (n_out : Z) : outcome (option (list bytes)) :=
  match fuel with
  | O => NoFuel
  | S fuel' =>
      match nchan_strsplit cur delim with
      | (None, _) => Ret (Some [])
      | (Some token, cur') =>
          if NCHAN_MULTITAG_MAX <=? n_out then Ret None
          else
            r ← split_loop fuel' cur' delim (n_out + 1);
            Ret (match r with Some ids => Some (token :: ids) | None => None end)
      end
  end.

(** [for(i=0; i < n && n_out < NCHAN_MULTITAG_MAX; i++)]: the ids, or the code
    with which the request is refused. *)
Fixpoint collect_ids (idcf : list bytes) (cf : chid_conf) (n_out : Z) : outcome (list bytes + Z) :=
  match idcf with
  | [] => Ret (inl [])
  | id :: idcf' =>
      if negb (n_out <? NCHAN_MULTITAG_MAX) then Ret (inl [])
      else if negb (validate_id id cf =? NGX_OK) then Ret (inr NGX_DECLINED)
      else
        ids ←
          (if (0 <? length (channel_id_split_delimiter cf))%nat
           then split_loop (S (S (length id))) id (channel_id_split_delimiter cf) n_out
           else Ret (if NCHAN_MULTITAG_MAX <=? n_out then None else Some [id]));
        match ids with
        | None => Ret (inr NGX_DECLINED)
        | Some ids =>
            rest ← collect_ids idcf' cf (n_out + Z.of_nat (length ids));
            Ret (match rest with inl more => inl (ids ++ more) | inr rc => inr rc end)
        end
  end.

(** [sz]: the length of the id to be built. *)
Definition multi_id_size (group : bytes) (ids : list bytes) : Z :=
  let sz := foldl (fun sz id => u64 (sz + Z.of_nat (length id) + 1 + Z.of_nat (length group))) 0 ids in
  let n_out := Z.of_nat (length ids) in
  if 1 <? n_out then u64 (sz + 3 + n_out) else sz.

(** What is written to the allocated block. *)
Definition multi_id_bytes (group : bytes) (ids : list bytes) : bytes :=
  let several := (1 <? length ids)%nat in
  (if several then [ch_m; ch_slash; NCHAN_MULTI_SEP_CHR] else []) ++
  concat ((fun id => group ++ [ch_slash] ++ id ++ (if several then [NCHAN_MULTI_SEP_CHR] else [])) <$> ids).

(** The block has [multi_id_size] bytes: writing more, or less than the length
    that is announced, is an error. *)
Definition nchan_process_multi_channel_id (idcf : list bytes) (cf : chid_conf) : outcome (option bytes * Z) :=
  r ← collect_ids idcf cf 0;
  match r with
  | inr rc => Ret (None, rc)
  | inl ids =>
      let written := multi_id_bytes (channel_group cf) ids in
      c_assert (multi_id_size (channel_group cf) ids =? Z.of_nat (length written));;
      Ret (Some written, NGX_OK)
  end.

Definition nchan_process_legacy_channel_id (cf : chid_conf) : outcome (option bytes * Z) :=
  match push_channel_id cf with
  | None | Some [] => Ret (None, NGX_ABORT)
  | Some tmpid =>
      if negb (validate_id tmpid cf =? NGX_OK) then Ret (None, NGX_DECLINED)
      else Ret (Some (channel_group cf ++ [ch_slash] ++ tmpid), NGX_OK)
  end.

Definition nchan_get_group_from_channel_id (id : bytes) : outcome bytes :=
  let cur := if nchan_channel_id_is_multi id then drop 3 id else id in
  match memchr cur ch_slash with
  | Some end_ => Ret (take end_ cur)
  | None => Crash   (* assert(end) *)
  end.

(** The byte written as the octal escape 31. *)
Notation ch_em := 25 (only parsing).

(** [while((cur = memchr(id_cur.data, '}', id_cur.len)) != NULL)]. *)
Definition hide_curlybraces (id : bytes) : bytes := (fun c => if c =? ch_rbrace then ch_em else c) <$> id.

Inductive pub_or_sub_t := PUB | SUB.

(** [chid_conf]: the values that name the channels of a request. *)
Definition configured (cf : chid_conf) (what : pub_or_sub_t) : list bytes :=
  let conf := match what with PUB => pub_chid cf | SUB => sub_chid cf end in
  match conf with [] => pubsub_chid cf | _ => conf end.

Definition nchan_get_channel_id (cf : chid_conf) (what : pub_or_sub_t) (fail_hard : bool) : outcome (option bytes * Z) :=
  let group := channel_group cf in
  '(id, rc) ←
    (if bool_decide (group = [ch_m]) then Ret (None, NGX_DECLINED)
     else if match memchr group ch_slash with Some _ => true | None => false end then Ret (None, NGX_DECLINED)
     else
       let conf := configured cf what in
       '(id, rc) ← (match conf with
                    | [] => nchan_process_legacy_channel_id cf
                    | _ => nchan_process_multi_channel_id conf cf
                    end);
       match id with
       | Some id' =>
           if redis_enabled cf then
             match memchr id' ch_em with
             | Some _ => Ret (None, NGX_DECLINED)
             | None => Ret (Some (hide_curlybraces id'), rc)
             end
           else Ret (id, rc)
       | None => Ret (id, rc)
       end);
  if fail_hard && bool_decide (id = None) then
    c_assert (negb (rc =? NGX_OK));; Ret (id, rc)     (* and respond with the status of rc *)
  else Ret (id, rc).

(** ** Taking apart *)

(** [while((sep = ngx_strlchr(cur, last, NCHAN_MULTI_SEP_CHR)) != NULL)]. *)
Fixpoint multi_ids (fuel : nat) (cur : bytes) : outcome (list bytes) :=
  match fuel with
  | O => NoFuel
  | S fuel' =>
      match memchr cur NCHAN_MULTI_SEP_CHR with
      | None => Ret []
      | Some k => ids ← multi_ids fuel' (drop (S k) cur); Ret (take k cur :: ids)
      end
  end.

Definition parse_multi_id (id : bytes) : outcome (list bytes) :=
  if nchan_channel_id_is_multi id then multi_ids (S (length id)) (drop 3 id) else Ret [].

Definition count_channel_id (id : bytes) : outcome Z :=
  if nchan_channel_id_is_multi id then
    ids ← multi_ids (S (length id)) (drop 3 id); Ret (Z.of_nat (length ids))
  else Ret 1.

(** ** Splitting *)

Lemma strsplit_loop_bound s delim n k : strsplit_loop s delim n = Some k -> (k < n)%nat /\ starts_with (drop k s) delim = true.
Proof.
  revert s k. induction n as [|n IH]; intros s k; [done|]. cbn [strsplit_loop].
  destruct (starts_with s delim) eqn:E; [intros [= <-]; split; [lia|by rewrite drop_0]|].
  destruct s as [|c s]; [done|]. destruct (strsplit_loop s delim n) as [j|] eqn:Ej; [|done].
  intros [= <-]. destruct (IH _ _ Ej) as [? B]. split; [lia|exact B].
Qed.

Lemma starts_with_length s p : starts_with s p = true -> (length p <= length s)%nat.
Proof. intros P%starts_with_spec. by apply prefix_length. Qed.

(** Each token shortens what is left. *)
Lemma strsplit_shorter cur delim token cur' :
  delim <> [] -> nchan_strsplit cur delim = (Some token, cur') ->
  (length cur' < length cur)%nat /\ (length token <= length cur)%nat.
Proof.
  intros Nd. unfold nchan_strsplit.
  assert (0 < length delim)%nat as Ld by (destruct delim; [done|simpl; lia]).
  destruct (strsplit_loop _ _ _) as [k|] eqn:E.
  - intros [= <- <-]. apply strsplit_loop_bound in E as [Hk S]. apply starts_with_length in S.
    rewrite length_drop in S. rewrite length_drop, length_take. lia.
  - destruct (Z.leb_spec 0 (Z.of_nat (length cur) - Z.of_nat (length delim))); [|done].
    intros [= <- <-]. simpl. lia.
Qed.

(** The loop returns: one round for each byte and a last one are enough. *)
Lemma split_loop_spec fuel cur delim n_out :
  delim <> [] -> (length cur < fuel)%nat -> 0 <= n_out ->
  exists r, split_loop fuel cur delim n_out = Ret r /\
    forall ids, r = Some ids -> n_out + Z.of_nat (length ids) <= Z.max n_out NCHAN_MULTITAG_MAX /\
      Forall (fun id => (length id <= length cur)%nat) ids.
Proof.
  intros Nd. revert cur n_out. induction fuel as [|fuel IH]; intros cur n_out Hf Hn; [lia|]. cbn [split_loop].
  destruct (nchan_strsplit cur delim) as [[token|] cur'] eqn:E.
  - apply strsplit_shorter in E as [L1 L2]; [|done].
    destruct (Z.leb_spec NCHAN_MULTITAG_MAX n_out); [eexists; split; [done|]; by intros ids [= ]|].
    destruct (IH cur' (n_out + 1) ltac:(lia) ltac:(lia)) as (r & -> & Hr). rewrite bind_Ret.
    eexists. split; [done|]. intros ids. destruct r as [ids'|]; [|done]. intros [= <-].
    destruct (Hr ids' eq_refl) as [B F]. simpl. split; [lia|]. constructor; [done|].
    eapply Forall_impl; [exact F|]. simpl. lia.
  - eexists. split; [done|]. intros ids [= <-]. split; [simpl; lia|constructor].
Qed.

Lemma collect_ids_spec idcf cf n_out :
  0 <= n_out <= NCHAN_MULTITAG_MAX ->
  exists r, collect_ids idcf cf n_out = Ret r /\
    match r with
    | inl ids => n_out + Z.of_nat (length ids) <= NCHAN_MULTITAG_MAX /\
        Forall (fun id => Z.of_nat (length id) < 2 ^ 32) ids
    | inr rc => rc = NGX_DECLINED
    end.
Proof.
  revert n_out. induction idcf as [|id idcf IH]; intros n_out Hn; cbn [collect_ids].
  { eexists. split; [done|]. split; [simpl; lia|constructor]. }
  destruct (Z.ltb_spec n_out NCHAN_MULTITAG_MAX); cbn [negb].
  2:{ eexists. split; [done|]. split; [simpl; lia|constructor]. }
  destruct (validate_id id cf =? NGX_OK) eqn:V; cbn [negb]; [|by eexists].
  assert (Z.of_nat (length id) < 2 ^ 32) as Lid.
  { unfold validate_id in V. destruct (Z.ltb_spec (u32 (max_channel_id_length cf)) (Z.of_nat (length id))); [done|].
    pose proof (wrapu_range 32 (max_channel_id_length cf) ltac:(lia)) as R. unfold in_u in R. lia. }
  assert (exists r, (if (0 <? length (channel_id_split_delimiter cf))%nat
      then split_loop (S (S (length id))) id (channel_id_split_delimiter cf) n_out
      else Ret (if NCHAN_MULTITAG_MAX <=? n_out then None else Some [id])) = Ret r /\
    forall ids, r = Some ids -> n_out + Z.of_nat (length ids) <= NCHAN_MULTITAG_MAX /\
      Forall (fun id => Z.of_nat (length id) < 2 ^ 32) ids) as (r & -> & Hr).
  { destruct (Nat.ltb_spec 0 (length (channel_id_split_delimiter cf))).
    - destruct (split_loop_spec (S (S (length id))) id (channel_id_split_delimiter cf) n_out) as (r & -> & Hr).
      + intros Ed. rewrite Ed in *. simpl in *. lia.
      + lia.
      + lia.
      + exists r. split; [done|]. intros ids Ei. destruct (Hr ids Ei) as [B F]. split; [lia|].
        eapply Forall_impl; [exact F|]. simpl. lia.
    - eexists. split; [done|]. intros ids. destruct (Z.leb_spec NCHAN_MULTITAG_MAX n_out); [done|].
      intros [= <-]. split; [simpl; lia|by repeat constructor]. }
  rewrite bind_Ret. destruct r as [ids|]; [|by eexists]. destruct (Hr ids eq_refl) as [B F].
  destruct (IH (n_out + Z.of_nat (length ids)) ltac:(lia)) as (r & -> & Hr'). rewrite bind_Ret.
  eexists. split; [done|]. destruct r as [more|]; [|done]. destruct Hr' as [B' F'].
  rewrite length_app, Nat2Z.inj_add. split; [lia|]. by apply Forall_app.
Qed.

(** ** The block is filled exactly *)

Definition names (group : bytes) (ids : list bytes) : list bytes := (fun id => group ++ [ch_slash] ++ id) <$> ids.

Lemma u64_idemp_add a b : u64 (u64 a + b) = u64 (a + b).
Proof. unfold wrapu. apply Zplus_mod_idemp_l. Qed.

Definition total (group : bytes) (ids : list bytes) : Z :=
  foldr (fun id sz => Z.of_nat (length id) + 1 + Z.of_nat (length group) + sz) 0 ids.

Lemma size_fold group ids s :
  foldl (fun sz id => u64 (sz + Z.of_nat (length id) + 1 + Z.of_nat (length group))) (u64 s) ids =
  u64 (s + total group ids).
Proof.
  revert s. induction ids as [|id ids IH]; intros s; simpl; [f_equal; lia|].
  rewrite <- !Z.add_assoc, u64_idemp_add, IH. f_equal. lia.
Qed.

Lemma multi_id_bytes_length group ids :
  Z.of_nat (length (multi_id_bytes group ids)) =
  total group ids + (if (1 <? Z.of_nat (length ids)) then 3 + Z.of_nat (length ids) else 0).
Proof.
  unfold multi_id_bytes. rewrite length_app.
  assert (forall several : bool, Z.of_nat (length (concat ((fun id => group ++ [ch_slash] ++ id ++
      (if several then [NCHAN_MULTI_SEP_CHR] else [])) <$> ids))) =
    total group ids + (if several then Z.of_nat (length ids) else 0)) as C.
  { intros several. induction ids as [|id ids IH]; [by destruct several|].
    rewrite fmap_cons, concat_cons, !length_app, Nat2Z.inj_add, IH. simpl.
    destruct several; simpl; lia. }
  rewrite Nat2Z.inj_add, C. destruct (Nat.ltb_spec 1 (length ids)), (Z.ltb_spec 1 (Z.of_nat (length ids))); simpl; lia.
Qed.

Lemma multi_id_size_spec group ids : multi_id_size group ids = u64 (Z.of_nat (length (multi_id_bytes group ids))).
Proof.
  rewrite multi_id_bytes_length. unfold multi_id_size. pose proof (size_fold group ids 0) as E.
  change (u64 0) with 0 in E. rewrite E. destruct (1 <? Z.of_nat (length ids)); [|f_equal; lia].
  rewrite <- !Z.add_assoc, u64_idemp_add. reflexivity.
Qed.

Lemma total_bound group ids :
  Z.of_nat (length ids) <= NCHAN_MULTITAG_MAX -> Forall (fun id => Z.of_nat (length id) < 2 ^ 32) ids ->
  Z.of_nat (length group) < 2 ^ 32 -> 0 <= total group ids <= 255 * 2 ^ 34.
Proof.
  intros Hn F Hg. assert (0 <= total group ids <= Z.of_nat (length ids) * 2 ^ 34) as B.
  { clear Hn. induction F as [|id ids Hid F IH]; [simpl; lia|]. cbn [total foldr length]. fold (total group ids). lia. }
  unfold NCHAN_MULTITAG_MAX in Hn. lia.
Qed.

Lemma process_multi_spec idcf cf :
  Z.of_nat (length (channel_group cf)) < 2 ^ 32 ->
  exists r, collect_ids idcf cf 0 = Ret r /\ nchan_process_multi_channel_id idcf cf =
    Ret (match r with inl ids => (Some (multi_id_bytes (channel_group cf) ids), NGX_OK) | inr rc => (None, rc) end) /\
    match r with inl ids => Z.of_nat (length ids) <= NCHAN_MULTITAG_MAX | inr rc => rc = NGX_DECLINED end.
Proof.
  intros Hg. destruct (collect_ids_spec idcf cf 0) as (r & E & Hr); [unfold NCHAN_MULTITAG_MAX; lia|].
  exists r. split; [done|]. unfold nchan_process_multi_channel_id. rewrite E, bind_Ret. destruct r as [ids|rc]; [|done].
  destruct Hr as [B F]. rewrite Z.add_0_l in B. pose proof (total_bound (channel_group cf) ids B F Hg) as Tb.
  rewrite multi_id_size_spec, wrapu_small; [by rewrite Z.eqb_refl|].
  unfold in_u. rewrite multi_id_bytes_length. unfold NCHAN_MULTITAG_MAX in B.
  destruct (1 <? Z.of_nat (length ids)); lia.
Qed.

(** An id with [NGX_OK], or a refusal. *)
Definition answers (x : outcome (option bytes * Z)) : Prop :=
  exists id rc, x = Ret (id, rc) /\ (id = None -> rc = NGX_DECLINED \/ rc = NGX_ABORT) /\ (id <> None -> rc = NGX_OK).

Lemma answers_id id : answers (Ret (Some id, NGX_OK)).
Proof. by exists (Some id), NGX_OK. Qed.
Lemma answers_declined : answers (Ret (None, NGX_DECLINED)).
Proof. exists None, NGX_DECLINED. by split_and!; [|left|]. Qed.
Lemma answers_abort : answers (Ret (None, NGX_ABORT)).
Proof. exists None, NGX_ABORT. by split_and!; [|right|]. Qed.
#[local] Hint Resolve answers_id answers_declined answers_abort : core.

Lemma answers_legacy cf : answers (nchan_process_legacy_channel_id cf).
Proof.
  unfold nchan_process_legacy_channel_id. destruct (push_channel_id cf) as [[|]|]; auto. destruct (negb _); auto.
Qed.

Lemma answers_multi idcf cf :
  Z.of_nat (length (channel_group cf)) < 2 ^ 32 -> answers (nchan_process_multi_channel_id idcf cf).
Proof. intros Hg. destruct (process_multi_spec idcf cf Hg) as ([ids|rc] & _ & -> & Hr); [auto|subst rc; auto]. Qed.

(** C33.  [nchan_get_channel_id] always answers: no assertion fails, the loops
    end, and the block allocated for the id is filled exactly.  A request
    without an id is refused with a code that is not [NGX_OK]. *)
Theorem channel_id_total cf what fail_hard :
  Z.of_nat (length (channel_group cf)) < 2 ^ 32 -> answers (nchan_get_channel_id cf what fail_hard).
Proof.
  intros Hg.
  assert (forall x, answers x -> answers ('(id, rc) ← x;
    if fail_hard && bool_decide (id = None) then c_assert (negb (rc =? NGX_OK));; Ret (id, rc) else Ret (id, rc))) as Fin.
  { intros x (id & rc & -> & H1 & H2). rewrite bind_Ret. destruct (fail_hard && _) eqn:E; [|by exists id, rc].
    apply andb_true_iff in E as [_ E%bool_decide_eq_true]. destruct (H1 E) as [-> | ->]; by exists id; eexists. }
  unfold nchan_get_channel_id. apply Fin. case_bool_decide; [auto|]. destruct (memchr _ _); [auto|].
  cbn zeta.
  assert (answers (match configured cf what with
                   | [] => nchan_process_legacy_channel_id cf
                   | _ => nchan_process_multi_channel_id (configured cf what) cf
                   end)) as A by (destruct (configured cf what); auto using answers_legacy, answers_multi).
  destruct A as (id & rc & E & H1 & H2). rewrite E, bind_Ret.
  destruct id as [id|]; [|by exists None, rc]. rewrite H2 in * by done.
  destruct (redis_enabled cf); [|auto]. destruct (memchr id ch_em); auto.
Qed.

(** ** Round trip *)

Lemma multi_ids_spec ids fuel :
  Forall (fun id => NCHAN_MULTI_SEP_CHR ∉ id) ids -> (length ids < fuel)%nat ->
  multi_ids fuel (concat ((fun id => id ++ [NCHAN_MULTI_SEP_CHR]) <$> ids)) = Ret ids.
Proof.
  intros F. revert fuel. induction F as [|id ids N F IH]; intros [|fuel] Hf; simpl in Hf; try lia; [done|].
  cbn [multi_ids]. rewrite fmap_cons, concat_cons, <- app_assoc. cbn [app].
  rewrite memchr_app, drop_cut, IH, take_app_length by (done || lia). done.
Qed.

Lemma names_sep group ids :
  NCHAN_MULTI_SEP_CHR ∉ group -> Forall (fun id => NCHAN_MULTI_SEP_CHR ∉ id) ids ->
  Forall (fun id => NCHAN_MULTI_SEP_CHR ∉ id) (names group ids).
Proof.
  intros Ng F. apply Forall_fmap. eapply Forall_impl; [exact F|]. intros id N. simpl.
  rewrite elem_of_app, elem_of_cons. intros [?|[E|?]]; [done|discriminate E|done].
Qed.

Lemma multi_bytes_several group ids :
  (1 < length ids)%nat -> multi_id_bytes group ids =
    [ch_m; ch_slash; NCHAN_MULTI_SEP_CHR] ++ concat ((fun id => id ++ [NCHAN_MULTI_SEP_CHR]) <$> names group ids).
Proof.
  intros L. unfold multi_id_bytes, names. rewrite (proj2 (Nat.ltb_lt _ _) L), <- list_fmap_compose. f_equal. f_equal.
  apply list_fmap_ext. intros _ id _. cbn [compose]. by rewrite <- !app_assoc.
Qed.

Lemma not_multi group id : group <> [ch_m] -> ch_slash ∉ group -> nchan_channel_id_is_multi (group ++ [ch_slash] ++ id) = false.
Proof.
  intros Nm Ns. destruct group as [|a [|b [|c g]]]; simpl.
  - destruct id as [|? [|? ?]]; reflexivity.
  - destruct id as [|? ?]; [done|]. destruct (Z.eqb_spec a ch_m) as [->|]; [done|done].
  - destruct (Z.eqb_spec b ch_slash) as [->|]; [|by rewrite andb_false_r]. exfalso. apply Ns. set_solver.
  - destruct (Z.eqb_spec b ch_slash) as [->|]; [|by rewrite andb_false_r]. exfalso. apply Ns. set_solver.
Qed.

(** What the store reads in the id of several channels, and of one. *)
Lemma several_parsed group ids :
  (1 < length ids)%nat -> ch_slash ∉ group -> NCHAN_MULTI_SEP_CHR ∉ group ->
  Forall (fun id => NCHAN_MULTI_SEP_CHR ∉ id) ids ->
  let id := multi_id_bytes group ids in
  nchan_get_group_from_channel_id id = Ret group /\ count_channel_id id = Ret (Z.of_nat (length ids)) /\
  parse_multi_id id = Ret (names group ids).
Proof.
  intros L Ns Nz F id. pose proof (multi_bytes_several group ids L) as E. fold id in E.
  assert (nchan_channel_id_is_multi id = true) as M by (by rewrite E).
  assert (multi_ids (S (length id)) (drop 3 id) = Ret (names group ids)) as P.
  { rewrite E at 2. cbn [app drop]. apply multi_ids_spec; [by apply names_sep|].
    pose proof (multi_id_bytes_length group ids) as B. fold id in B.
    assert (0 <= total group ids) by (clear; unfold total; induction ids; simpl; lia).
    unfold names. rewrite length_fmap. destruct (1 <? Z.of_nat (length ids)) eqn:C; [lia|]. apply Z.ltb_ge in C. lia. }
  unfold parse_multi_id, count_channel_id, nchan_get_group_from_channel_id. rewrite M, P, bind_Ret. split_and!; [|by unfold names; rewrite length_fmap|done].
  rewrite E. cbn [app drop]. rewrite drop_0. destruct ids as [|x ids]; [simpl in L; lia|]. unfold names.
  rewrite !fmap_cons, concat_cons. cbn beta. rewrite <- !app_assoc. cbn [app].
  by rewrite memchr_app, take_app_length.
Qed.

Lemma one_parsed group x :
  group <> [ch_m] -> ch_slash ∉ group ->
  let id := multi_id_bytes group [x] in
  id = group ++ [ch_slash] ++ x /\ nchan_get_group_from_channel_id id = Ret group /\ count_channel_id id = Ret 1 /\
  parse_multi_id id = Ret [].
Proof.
  intros Nm Ns id. assert (id = group ++ [ch_slash] ++ x) as E.
  { unfold id, multi_id_bytes. simpl. by rewrite !app_nil_r. }
  split; [done|]. unfold parse_multi_id, count_channel_id, nchan_get_group_from_channel_id.
  rewrite E, not_multi by done. cbn [app]. by rewrite memchr_app, take_app_length.
Qed.

(** C21.  Taking a channel id apart gives back what it was built from: the store
    finds the names "group/id" of the channels of the request, in order, their
    number, and the group.  Neither the group nor the ids may contain the
    separator, and the group passed the checks of [nchan_get_channel_id]. *)
Theorem channel_id_roundtrip cf what ids :
  Z.of_nat (length (channel_group cf)) < 2 ^ 32 ->
  channel_group cf <> [ch_m] -> ch_slash ∉ channel_group cf -> NCHAN_MULTI_SEP_CHR ∉ channel_group cf ->
  configured cf what <> [] -> collect_ids (configured cf what) cf 0 = Ret (inl ids) -> ids <> [] ->
  Forall (fun id => NCHAN_MULTI_SEP_CHR ∉ id) ids -> redis_enabled cf = false ->
  exists id, nchan_get_channel_id cf what true = Ret (Some id, NGX_OK) /\
    nchan_get_group_from_channel_id id = Ret (channel_group cf) /\
    count_channel_id id = Ret (Z.of_nat (length ids)) /\ Z.of_nat (length ids) <= NCHAN_MULTITAG_MAX /\
    (if (1 <? length ids)%nat then parse_multi_id id = Ret (names (channel_group cf) ids)
     else names (channel_group cf) ids = [id] /\ parse_multi_id id = Ret []).
Proof.
  intros Hg Nm Ns Nz Nc Ec Ni F Nr. set (group := channel_group cf) in *.
  destruct (process_multi_spec (configured cf what) cf Hg) as (r & E & Ep & Hr). rewrite Ec in E. injection E as <-.
  fold group in Ep. set (id := multi_id_bytes group ids) in *. exists id. split.
  - unfold nchan_get_channel_id. fold group. rewrite bool_decide_eq_false_2 by done.
    rewrite (proj2 (memchr_None _ _) Ns). cbn zeta.
    replace (match configured cf what with [] => nchan_process_legacy_channel_id cf
             | _ => nchan_process_multi_channel_id (configured cf what) cf end)
      with (nchan_process_multi_channel_id (configured cf what) cf) by by destruct (configured cf what).
    by rewrite Ep, !bind_Ret, Nr.
  - destruct (Nat.ltb_spec 1 (length ids)) as [L|L].
    + destruct (several_parsed group ids L Ns Nz F) as (? & ? & ?). auto.
    + destruct ids as [|x [|? ?]]; [done| |simpl in L; lia].
      destruct (one_parsed group x Nm Ns) as (Ex & ? & ? & ?). subst id.
      split_and!; auto. unfold names. simpl. by rewrite Ex.
Qed.

Definition two_channels (delim : bytes) (value : bytes) : chid_conf :=
  ChidConf [] [] [value] None (bytes_of "group") delim 1024 false.

(** A byte that does not occur. *)
Lemma byte_absent c (s : bytes) : forallb (fun x => negb (x =? c)) s = true -> c ∉ s.
Proof.
  intros B H. apply list_elem_of_In in H. rewrite forallb_forall in B. specialize (B c H). by rewrite Z.eqb_refl in B.
Qed.

Lemma channel_id_roundtrip_witness :
  exists id, nchan_get_channel_id (two_channels (bytes_of ",") (bytes_of "a,bc")) SUB true = Ret (Some id, NGX_OK) /\
    parse_multi_id id = Ret [bytes_of "group/a"; bytes_of "group/bc"].
Proof.
  destruct (channel_id_roundtrip (two_channels (bytes_of ",") (bytes_of "a,bc")) SUB [bytes_of "a"; bytes_of "bc"])
    as (id & E & _ & _ & _ & P); try (vm_compute; reflexivity); try discriminate.
  - apply byte_absent. vm_compute. reflexivity.
  - apply byte_absent. vm_compute. reflexivity.
  - repeat constructor; apply byte_absent; vm_compute; reflexivity.
  - exists id. split; [exact E|exact P].
Defined.

Lemma channel_id_total_witness :
  answers (nchan_get_channel_id (two_channels (bytes_of ",") (bytes_of "a,bc")) SUB true).
Proof. apply channel_id_total. vm_compute. reflexivity. Defined.

(** ** What splitting finds *)

(** The parts of a string between the occurrences of a byte. *)
Fixpoint split_on (d : Z) (s : bytes) : list bytes :=
  match s with
  | [] => [[]]
  | c :: s' =>
      if c =? d then [] :: split_on d s'
      else match split_on d s' with [] => [[c]] | t :: ts => (c :: t) :: ts end
  end.

Lemma split_on_cons d s : exists t ts, split_on d s = t :: ts.
Proof. destruct s as [|c s]; simpl; [eauto|]. destruct (c =? d); [eauto|]. destruct (split_on d s); eauto. Qed.

Lemma split_on_cut d s1 s2 : d ∉ s1 -> split_on d (s1 ++ d :: s2) = s1 :: split_on d s2.
Proof.
  induction s1 as [|c s1 IH]; intros N; simpl; [by rewrite Z.eqb_refl|].
  apply not_elem_of_cons in N as [Nc N]. destruct (Z.eqb_spec c d); [congruence|]. by rewrite IH.
Qed.

Lemma split_on_absent d s : d ∉ s -> split_on d s = [s].
Proof.
  induction s as [|c s IH]; intros N; simpl; [done|]. apply not_elem_of_cons in N as [Nc N].
  destruct (Z.eqb_spec c d); [congruence|]. by rewrite IH.
Qed.

Lemma split_on_length d s : (length (split_on d s) <= S (length s))%nat.
Proof. induction s as [|c s IH]; simpl; [lia|]. destruct (c =? d); [simpl; lia|]. destruct (split_on d s); simpl in *; lia. Qed.

(** The search for a delimiter of one byte. *)
Lemma strsplit_loop_byte s d n :
  strsplit_loop s [d] n = match memchr (take n s) d with Some k => Some k | None => None end.
Proof.
  revert s. induction n as [|n IH]; intros s; [by rewrite take_0|]. cbn [strsplit_loop].
  destruct s as [|c s]; [done|]. cbn [starts_with take]. rewrite andb_true_r. unfold memchr in *. cbn [strchr_ref].
  destruct (c =? d); [done|]. rewrite IH. by destruct (strchr_ref (take n s) d).
Qed.

Lemma strsplit_byte s1 s2 d : d ∉ s1 -> s2 <> [] -> nchan_strsplit (s1 ++ d :: s2) [d] = (Some s1, s2).
Proof.
  intros N Ne. unfold nchan_strsplit. rewrite strsplit_loop_byte, length_app. cbn [length].
  assert (0 < length s2)%nat by (destruct s2; [done|simpl; lia]).
  replace (Z.to_nat _) with (length s1 + length s2)%nat by lia.
  rewrite (take_app_add s1 (d :: s2)). destruct s2 as [|c s2]; [done|]. cbn [length take].
  rewrite memchr_app, Nat.add_1_r, drop_cut, take_app_length by done. done.
Qed.

Lemma strsplit_rest s d : s <> [] -> d ∉ s -> nchan_strsplit s [d] = (Some s, []).
Proof.
  intros Ne N. unfold nchan_strsplit. rewrite strsplit_loop_byte, (proj2 (memchr_None _ _)).
  - destruct (Z.leb_spec 0 (Z.of_nat (length s) - Z.of_nat (length [d]))); [done|]. destruct s; [done|simpl in *; lia].
  - intros (j & Hj & _)%elem_of_take. apply N. by eapply list_elem_of_lookup_2.
Qed.

(** With a delimiter of one byte that the string does not end with, the loop
    over [nchan_strsplit] is the splitting one expects: the parts between the
    delimiters, empty ones included, as long as there are not too many. *)
Theorem split_loop_is_split_on fuel s d n_out :
  (length s < fuel)%nat -> last s <> None -> last s <> Some d -> 0 <= n_out ->
  n_out + Z.of_nat (length (split_on d s)) <= NCHAN_MULTITAG_MAX ->
  split_loop fuel s [d] n_out = Ret (Some (split_on d s)).
Proof.
  revert s n_out. induction fuel as [|fuel IH]; intros s n_out Hf Ne Nl Hn Hb; [lia|]. cbn [split_loop].
  assert (s <> []) as Ns by (by intros ->).
  destruct (split_on_cons d s) as (t & ts & Es). assert (n_out < NCHAN_MULTITAG_MAX) as Lt by (rewrite Es in Hb; simpl in Hb; lia).
  destruct (memchr s d) as [k|] eqn:E.
  - apply memchr_split in E as (s1 & s2 & -> & N1 & _).
    assert (s2 <> []) as N2 by (intros E2; rewrite E2, last_snoc in Nl; done).
    rewrite split_on_cut in * by done. rewrite strsplit_byte by done.
    destruct (Z.leb_spec NCHAN_MULTITAG_MAX n_out); [lia|]. rewrite length_app in Hf. cbn [length] in Hf, Hb.
    rewrite IH; [done|lia| | |lia|lia].
    + by rewrite last_is_Some || (destruct s2 using rev_ind; [done|by rewrite last_snoc]).
    + intros E2. apply Nl. rewrite last_app. rewrite last_cons, E2. done.
  - apply memchr_None in E. rewrite strsplit_rest, split_on_absent in * by done.
    destruct (Z.leb_spec NCHAN_MULTITAG_MAX n_out); [lia|]. destruct fuel; [destruct s; simpl in *; [done|lia]|]. done.
Qed.

Lemma split_loop_is_split_on_witness :
  split_loop 10 (bytes_of "a,,bc") [ch_comma] 0 = Ret (Some [bytes_of "a"; []; bytes_of "bc"]).
Proof.
  apply (split_loop_is_split_on 10 (bytes_of "a,,bc") ch_comma 0); vm_compute; first [discriminate | lia | reflexivity].
Defined.

Lemma strsplit_short s delim : (length s < length delim)%nat -> nchan_strsplit s delim = (None, []).
Proof.
  intros L. unfold nchan_strsplit. rewrite Z2Nat.nonpos by lia. cbn [strsplit_loop].
  by destruct (Z.leb_spec 0 (Z.of_nat (length s) - Z.of_nat (length delim))); [lia|].
Qed.

(** The end of the string is split differently: what follows the last
    delimiter is dropped when it is shorter than the delimiter, and a delimiter
    at the very end becomes part of the last id. *)
Theorem split_end_differs s delim :
  ((length s < length delim)%nat -> nchan_strsplit s delim = (None, [])) /\
  split_loop 10 (bytes_of "a--b") (bytes_of "--") 0 = Ret (Some [bytes_of "a"]) /\
  split_loop 10 (bytes_of "a,b,") (bytes_of ",") 0 = Ret (Some [bytes_of "a"; bytes_of "b,"]).
Proof.
  split; [apply strsplit_short|]. split; vm_compute; reflexivity.
Qed.

Lemma split_end_differs_witness : nchan_strsplit (bytes_of "b") (bytes_of "--") = (None, []).
Proof. apply (split_end_differs (bytes_of "b") (bytes_of "--")). vm_compute. lia. Defined.

(** When ids are split at a delimiter, a request with an empty id is given
    the empty channel id, with [NGX_OK]; the group of that id cannot be found,
    which is asserted when a channel is created under group accounting. *)
Theorem empty_id_has_no_group group delim max :
  group <> [ch_m] -> ch_slash ∉ group -> delim <> [] -> 0 <= max < 2 ^ 32 ->
  nchan_get_channel_id (ChidConf [] [] [[]] None group delim max false) SUB true = Ret (Some [], NGX_OK) /\
  nchan_get_group_from_channel_id [] = Crash.
Proof.
  intros Nm Ns Nd Hm. split; [|reflexivity]. unfold nchan_get_channel_id. cbn [channel_group].
  rewrite bool_decide_eq_false_2 by done. rewrite (proj2 (memchr_None _ _) Ns).
  cbn [configured sub_chid pubsub_chid]. unfold nchan_process_multi_channel_id. cbn [collect_ids negb].
  unfold validate_id. cbn [max_channel_id_length channel_id_split_delimiter].
  rewrite wrapu_small by done. destruct (Z.ltb_spec max (Z.of_nat (length (@nil Z)))); [simpl in *; lia|].
  destruct delim as [|c delim]; [done|]. cbn [length Nat.ltb Nat.leb split_loop].
  rewrite strsplit_short by (simpl; lia). reflexivity.
Qed.

Lemma empty_id_has_no_group_witness :
  nchan_get_channel_id (ChidConf [] [] [[]] None (bytes_of "group") (bytes_of ",") 1024 false) SUB true = Ret (Some [], NGX_OK).
Proof.
  apply (empty_id_has_no_group (bytes_of "group") (bytes_of ",") 1024); try discriminate; [|lia].
  apply byte_absent. vm_compute. reflexivity.
Defined.
