(* ===== verification/Crc16.v ===== *)
(** * The hash slots of Redis Cluster ([redis_crc16], [redis_keyslot_from_channel_id])

    A channel is served by the cluster node that owns the slot of its keys,
    a CRC of "channel:" and the channel id.  The checksum runs through a table;
    the reference is the bit by bit division by x^16 + x^12 + x^5 + 1. *)

From S2P Require Import Prelude Nginx Scan ChannelId.
Open Scope Z_scope.

Definition crc16tab : list Z :=
  [ 0; 4129; 8258; 12387; 16516; 20645; 24774; 28903;
   33032; 37161; 41290; 45419; 49548; 53677; 57806; 61935;
   4657; 528; 12915; 8786; 21173; 17044; 29431; 25302;
   37689; 33560; 45947; 41818; 54205; 50076; 62463; 58334;
   9314; 13379; 1056; 5121; 25830; 29895; 17572; 21637;
   42346; 46411; 34088; 38153; 58862; 62927; 50604; 54669;
   13907; 9842; 5649; 1584; 30423; 26358; 22165; 18100;
   46939; 42874; 38681; 34616; 63455; 59390; 55197; 51132;
   18628; 22757; 26758; 30887; 2112; 6241; 10242; 14371;
   51660; 55789; 59790; 63919; 35144; 39273; 43274; 47403;
   23285; 19156; 31415; 27286; 6769; 2640; 14899; 10770;
   56317; 52188; 64447; 60318; 39801; 35672; 47931; 43802;
   27814; 31879; 19684; 23749; 11298; 15363; 3168; 7233;
   60846; 64911; 52716; 56781; 44330; 48395; 36200; 40265;
   32407; 28342; 24277; 20212; 15891; 11826; 7761; 3696;
   65439; 61374; 57309; 53244; 48923; 44858; 40793; 36728;
   37256; 33193; 45514; 41451; 53516; 49453; 61774; 57711;
   4224; 161; 12482; 8419; 20484; 16421; 28742; 24679;
   33721; 37784; 41979; 46042; 49981; 54044; 58239; 62302;
   689; 4752; 8947; 13010; 16949; 21012; 25207; 29270;
   46570; 42443; 38312; 34185; 62830; 58703; 54572; 50445;
   13538; 9411; 5280; 1153; 29798; 25671; 21540; 17413;
   42971; 47098; 34713; 38840; 59231; 63358; 50973; 55100;
   9939; 14066; 1681; 5808; 26199; 30326; 17941; 22068;
   55628; 51565; 63758; 59695; 39368; 35305; 47498; 43435;
   22596; 18533; 30726; 26663; 6336; 2273; 14466; 10403;
   52093; 56156; 60223; 64286; 35833; 39896; 43963; 48026;
   19061; 23124; 27191; 31254; 2801; 6864; 10931; 14994;
   64814; 60687; 56684; 52557; 48554; 44427; 40424; 36297;
   31782; 27655; 23652; 19525; 15522; 11395; 7392; 3265;
   61215; 65342; 53085; 57212; 44955; 49082; 36825; 40952;
   28183; 32310; 20053; 24180; 11923; 16050; 3793; 7920].

(** [crc = (crc<<8) ^ crc16tab[((crc>>8) ^ *buf++)&0x00FF]]; [char] is signed,
    the arithmetic is that of [int], and [crc] keeps 16 bits. *)
Definition crc16_step (crc b : Z) : Z :=
  u16 (Z.lxor (Z.shiftl crc 8)
         (nth (Z.to_nat (Z.land (Z.lxor (Z.shiftr crc 8) (s8 b)) 255)) crc16tab 0)).

Definition redis_crc16 (crc : Z) (buf : bytes) : Z := fold_left crc16_step buf crc.

Definition key_prefix : bytes := bytes_of "channel:".

(** [prefix_crc] is computed while it is 0, that is once. *)
Definition redis_keyslot_from_channel_id (chid : bytes) : Z :=
  let prefix_crc := redis_crc16 0 key_prefix in
  redis_crc16 prefix_crc chid `mod` 16384.

(** The slot that [nodeset_node_find_by_key] looks up. *)
Definition keyslot_of_key (key : bytes) : Z :=
  let hashable :=
    match memchr key 123 with
    | Some k =>
        let start := drop (S k) key in
        match memchr start ch_rbrace with
        | Some end_ => if (1 <? end_)%nat then take end_ start else key
        | None => key
        end
    | None => key
    end in
  redis_crc16 0 hashable `mod` 16384.

(** ** The reference *)

(** One step of the division: shift, and subtract the polynomial when a bit
    falls out. *)
Definition crc_bit (c : Z) : Z :=
  Z.lxor (Z.land (Z.shiftl c 1) 65535) (if Z.testbit c 15 then 4129 else 0).

Definition crc_byte (crc b : Z) : Z := Nat.iter 8 crc_bit (Z.lxor crc (Z.shiftl b 8)).
Definition crc_reference (crc : Z) (buf : bytes) : Z := fold_left crc_byte buf crc.

Lemma crc_bit_linear a b : crc_bit (Z.lxor a b) = Z.lxor (crc_bit a) (crc_bit b).
Proof.
  unfold crc_bit. rewrite Z.shiftl_lxor, Z.lxor_spec.
  assert (forall x y z, Z.land (Z.lxor x y) z = Z.lxor (Z.land x z) (Z.land y z)) as D.
  { intros x y z. apply Z.bits_inj'. intros n _. rewrite !Z.land_spec, !Z.lxor_spec, !Z.land_spec.
    destruct (Z.testbit x n), (Z.testbit y n), (Z.testbit z n); reflexivity. }
  rewrite D. set (p := Z.land (Z.shiftl a 1) 65535). set (q := Z.land (Z.shiftl b 1) 65535).
  apply Z.bits_inj'. intros n _.
  destruct (Z.testbit a 15), (Z.testbit b 15); cbn [xorb]; rewrite !Z.lxor_spec, ?Z.bits_0;
    destruct (Z.testbit p n), (Z.testbit q n), (Z.testbit 4129 n); reflexivity.
Qed.

Lemma iter_linear n a b : Nat.iter n crc_bit (Z.lxor a b) = Z.lxor (Nat.iter n crc_bit a) (Nat.iter n crc_bit b).
Proof. induction n as [|n IH]; [done|]. simpl. by rewrite IH, crc_bit_linear. Qed.

(** The table holds the remainders of the bytes, and the low byte of the
    register only moves up. *)
Definition all_bytes : list Z := seqZ 0 256.

Lemma table_high : forallb (fun h => Nat.iter 8 crc_bit (Z.shiftl h 8) =? nth (Z.to_nat h) crc16tab 0) all_bytes = true.
Proof. vm_compute. reflexivity. Qed.
Lemma table_low : forallb (fun l => Nat.iter 8 crc_bit l =? Z.shiftl l 8) all_bytes = true.
Proof. vm_compute. reflexivity. Qed.
Lemma table_width : forallb (fun x => (0 <=? x) && (x <? 65536)) crc16tab = true.
Proof. vm_compute. reflexivity. Qed.
Lemma signed_byte : forallb (fun b => Z.land (s8 b) 255 =? b) all_bytes = true.
Proof. vm_compute. reflexivity. Qed.

Lemma for_bytes (f : Z -> bool) b : forallb f all_bytes = true -> 0 <= b < 256 -> f b = true.
Proof. intros F Hb. rewrite forallb_forall in F. apply F, list_elem_of_In, elem_of_seqZ. lia. Qed.

Lemma land_255 x : Z.land x 255 = x `mod` 256.
Proof. change 255 with (Z.ones 8). by rewrite Z.land_ones. Qed.

Lemma land_low_lt x : 0 <= Z.land x 255 < 256.
Proof. rewrite land_255. apply Z.mod_pos_bound. lia. Qed.

(** The byte that meets the top of the register. *)
Lemma index_byte crc b :
  0 <= crc < 65536 -> 0 <= b < 256 -> Z.land (Z.lxor (Z.shiftr crc 8) (s8 b)) 255 = Z.lxor (Z.shiftr crc 8) b.
Proof.
  intros Hc Hb. pose proof (for_bytes _ b signed_byte Hb) as E. apply Z.eqb_eq in E.
  assert (Z.shiftr crc 8 = Z.land (Z.shiftr crc 8) 255) as Eh.
  { rewrite land_255, Z.mod_small; [done|]. rewrite Z.shiftr_div_pow2 by lia. split; [apply Z.div_pos; lia|].
    apply Z.div_lt_upper_bound; lia. }
  rewrite <- E at 2. rewrite Eh at 2. apply Z.bits_inj'. intros n _.
  rewrite Z.land_spec, !Z.lxor_spec, !Z.land_spec.
  destruct (Z.testbit (Z.shiftr crc 8) n), (Z.testbit (s8 b) n), (Z.testbit 255 n); reflexivity.
Qed.

Lemma u16_land x : u16 x = Z.land x 65535.
Proof. change 65535 with (Z.ones 16). by rewrite Z.land_ones. Qed.

Lemma crc16_step_spec crc b :
  0 <= crc < 65536 -> 0 <= b < 256 -> crc16_step crc b = crc_byte crc b /\ 0 <= crc16_step crc b < 65536.
Proof.
  intros Hc Hb. unfold crc16_step. split; [|apply (wrapu_range 16); lia]. rewrite (index_byte crc b Hc Hb).
  set (h := Z.lxor (Z.shiftr crc 8) b). set (l := Z.land crc 255).
  assert (0 <= h < 256) as Hh by (unfold h; rewrite <- (index_byte crc b Hc Hb); apply land_low_lt).
  assert (0 <= l < 256) as Hl by apply land_low_lt.
  assert (Z.lxor crc (Z.shiftl b 8) = Z.lxor (Z.shiftl h 8) l) as Ex.
  { unfold h, l. rewrite Z.shiftl_lxor. apply Z.bits_inj'. intros n Hn. rewrite !Z.lxor_spec, Z.land_spec.
    rewrite !Z.shiftl_spec by done. destruct (Z.ltb_spec n 8) as [L|L].
    - rewrite !(Z.testbit_neg_r _ (n - 8)) by lia. change 255 with (Z.ones 8). rewrite Z.ones_spec_low by lia.
      by rewrite andb_true_r, xorb_false_r, xorb_false_l.
    - rewrite Z.shiftr_spec by lia. replace (n - 8 + 8) with n by lia. change 255 with (Z.ones 8).
      rewrite Z.ones_spec_high by lia. by rewrite andb_false_r, xorb_false_r. }
  unfold crc_byte. rewrite Ex, iter_linear.
  pose proof (for_bytes _ h table_high Hh) as Th. pose proof (for_bytes _ l table_low Hl) as Tl.
  apply Z.eqb_eq in Th, Tl. rewrite Th, Tl, u16_land.
  assert (nth (Z.to_nat h) crc16tab 0 = Z.land (nth (Z.to_nat h) crc16tab 0) 65535) as Et.
  { rewrite <- u16_land, wrapu_small; [done|]. pose proof table_width as F. rewrite forallb_forall in F.
    specialize (F _ (nth_In crc16tab 0 (n := Z.to_nat h) ltac:(change (length crc16tab) with 256%nat; lia))).
    apply andb_true_iff in F as [?%Z.leb_le ?%Z.ltb_lt]. unfold in_u. lia. }
  rewrite Z.lxor_comm. rewrite Et at 2. unfold l. apply Z.bits_inj'. intros n Hn.
  rewrite Z.land_spec, !Z.lxor_spec, !Z.land_spec, !Z.shiftl_spec by done. rewrite Z.land_spec.
  change 65535 with (Z.ones 16). change 255 with (Z.ones 8).
  destruct (Z.ltb_spec n 8) as [L|L].
  - rewrite !(Z.testbit_neg_r _ (n - 8)) by lia. destruct (Z.testbit (nth _ _ _) n), (Z.testbit (Z.ones 16) n); reflexivity.
  - destruct (Z.ltb_spec n 16) as [L'|L'].
    + rewrite (Z.ones_spec_low 16), (Z.ones_spec_low 8) by lia. by rewrite !andb_true_r.
    + rewrite (Z.ones_spec_high 16), (Z.ones_spec_high 8) by lia. by rewrite !andb_false_r.
Qed.

Lemma redis_crc16_spec crc buf :
  0 <= crc < 65536 -> Forall (fun b => 0 <= b < 256) buf ->
  redis_crc16 crc buf = crc_reference crc buf /\ 0 <= redis_crc16 crc buf < 65536.
Proof.
  intros Hc F. revert crc Hc. induction F as [|b buf Hb F IH]; intros crc Hc; [done|].
  destruct (crc16_step_spec crc b Hc Hb) as [E R]. 
  change (redis_crc16 crc (b :: buf)) with (redis_crc16 (crc16_step crc b) buf).
  change (crc_reference crc (b :: buf)) with (crc_reference (crc_byte crc b) buf). rewrite <- E. exact (IH _ R).
Qed.

(** The table-driven checksum is the CRC-16 of the polynomial 0x1021, bit by
    bit, from any register and for any bytes. *)
Theorem redis_crc16_is_crc crc buf :
  0 <= crc < 65536 -> Forall (fun b => 0 <= b < 256) buf ->
  redis_crc16 crc buf = crc_reference crc buf /\ 0 <= redis_crc16 crc buf < 65536.
Proof. apply redis_crc16_spec. Qed.

Lemma redis_crc16_is_crc_witness : redis_crc16 0 (bytes_of "123456789") = 12739 /\ crc_reference 0 (bytes_of "123456789") = 12739.
Proof.
  assert (redis_crc16 0 (bytes_of "123456789") = 12739) as E by (vm_compute; reflexivity). split; [exact E|].
  destruct (redis_crc16_is_crc 0 (bytes_of "123456789")) as [E' _]; [lia| |by rewrite <- E', E].
  repeat (constructor; [vm_compute; split; [discriminate|reflexivity]|]). constructor.
Defined.

(** ** Channels and the keys of their data *)

Lemma hide_no_rbrace id : ch_rbrace ∉ hide_curlybraces id.
Proof.
  unfold hide_curlybraces. intros (c & E & _)%list_elem_of_fmap. destruct (Z.eqb_spec c ch_rbrace); [discriminate E|congruence].
Qed.

(** A channel id for Redis has no closing brace. *)
Lemma redis_id_no_rbrace cf what fail_hard id rc :
  redis_enabled cf = true -> nchan_get_channel_id cf what fail_hard = Ret (Some id, rc) -> ch_rbrace ∉ id.
Proof.
  intros Er. unfold nchan_get_channel_id. intros H. apply bind_Ret_inv in H as ([id' rc'] & E & H).
  assert (id' = Some id) as ->.
  { destruct (fail_hard && _); [|congruence]. apply bind_Ret_inv in H as (_ & _ & H). congruence. }
  clear H. destruct (bool_decide _); [discriminate E|]. destruct (memchr _ _); [discriminate E|].
  apply bind_Ret_inv in E as ([id'' rc''] & _ & E). destruct id'' as [id''|]; [|discriminate E]. rewrite Er in E.
  destruct (memchr id'' ch_em); [discriminate E|]. injection E as <- _. apply hide_no_rbrace.
Qed.

Lemma crc16_app crc a b : redis_crc16 crc (a ++ b) = redis_crc16 (redis_crc16 crc a) b.
Proof. apply fold_left_app. Qed.

(** The slot by which the node of a channel is found is the slot of the keys
    that hold its data, "<namespace>{channel:<id>}...": the channel ids given
    to requests have no closing brace, so the hash tag ends where it should. *)
Theorem channel_slot_is_key_slot cf what fail_hard id rc ns rest :
  redis_enabled cf = true -> nchan_get_channel_id cf what fail_hard = Ret (Some id, rc) -> 123 ∉ ns ->
  keyslot_of_key (ns ++ [123] ++ key_prefix ++ id ++ [ch_rbrace] ++ rest) = redis_keyslot_from_channel_id id /\
  0 <= redis_keyslot_from_channel_id id < 16384.
Proof.
  intros Er Eid Nns. pose proof (redis_id_no_rbrace cf what fail_hard id rc Er Eid) as N.
  split; [|apply Z.mod_pos_bound; lia]. unfold keyslot_of_key. cbn [app]. rewrite memchr_app, drop_cut by done.
  rewrite app_assoc, memchr_app, length_app.
  2:{ intros [H|H]%elem_of_app; [|done]. revert H. apply byte_absent. vm_compute. reflexivity. }
  rewrite (proj2 (Nat.ltb_lt _ _)) by (change (length key_prefix) with 8%nat; lia).
  rewrite <- length_app, take_app_length, crc16_app. reflexivity.
Qed.

Definition redis_request : chid_conf :=
  ChidConf [] [] [bytes_of "a}b"] None (bytes_of "g") [] 1024 true.

Lemma channel_slot_is_key_slot_witness :
  exists id, nchan_get_channel_id redis_request SUB true = Ret (Some id, NGX_OK) /\
    keyslot_of_key ([] ++ [123] ++ key_prefix ++ id ++ [ch_rbrace] ++ bytes_of ":messages") = redis_keyslot_from_channel_id id.
Proof.
  eexists. assert (nchan_get_channel_id redis_request SUB true = Ret (Some ([103; 47; 97; 25; 98]), NGX_OK)) as E
    by (vm_compute; reflexivity).
  split; [exact E|]. apply (channel_slot_is_key_slot redis_request SUB true _ NGX_OK); [reflexivity|exact E|].
  intros H. by apply elem_of_nil in H.
Defined.

(** A hash tag of one byte is not recognised: [end - start > 1]. *)
Lemma one_byte_tag_ignored :
  keyslot_of_key (bytes_of "{a}x") <> redis_crc16 0 (bytes_of "a") `mod` 16384 /\
  keyslot_of_key (bytes_of "{ab}x") = redis_crc16 0 (bytes_of "ab") `mod` 16384.
Proof. split; vm_compute; [discriminate|reflexivity]. Qed.
