(* ===== verification/ClusterSlots.v ===== *)
(** * The slot index of a Redis Cluster ([store/redis/redis_nodeset.c])

    The ranges of hash slots of the masters are indexed in one tree, compared by
    position; a lookup finds a range that overlaps the one asked for.  Ranges
    are set from a line of the CLUSTER NODES reply, parsed elsewhere: here the
    parsed ranges are an argument ([None] when parsing failed). *)

From stdpp Require Import sorting.
From S2P Require Import Prelude Nginx RbTree Crc16.
Open Scope Z_scope.

(** ** Data *)

(** [unsigned min:16, max:16]. *)
Record redis_slot_range_t := SlotRange { rmin : Z; rmax : Z }.
Global Instance slot_range_eq_dec : EqDecision redis_slot_range_t.
Proof. solve_decision. Defined.

(** [sn_addr] identifies the tree node. *)
Record redis_nodeset_slot_range_node_t := RangeNode {
  sn_addr : positive;
  sn_range : redis_slot_range_t;
  sn_node : positive;
}.
Global Instance range_node_eq_dec : EqDecision redis_nodeset_slot_range_node_t.
Proof. solve_decision. Defined.

Inductive redis_node_role_t := REDIS_NODE_ROLE_ANY | REDIS_NODE_ROLE_UNKNOWN | REDIS_NODE_ROLE_MASTER | REDIS_NODE_ROLE_SLAVE.
Global Instance node_role_eq_dec : EqDecision redis_node_role_t.
Proof. solve_decision. Defined.

Definition REDIS_NODE_READY : Z := 100.

(** [node->cluster.slot_range.range] is [None] when NULL. *)
Record redis_node_t := RNode {
  n_state : Z;
  n_role : redis_node_role_t;
  n_cluster_enabled : bool;
  slot_range : option (list redis_slot_range_t);
  slot_range_n : Z;
  slot_range_indexed : bool;
}.

(** The nodes are listed in order. *)
Record redis_nodeset_t := Nodeset {
  cluster_enabled : bool;
  keyslots : rbtree_seed_t redis_nodeset_slot_range_node_t;
  node_list : list positive;
  nodes : gmap positive redis_node_t;
  next_addr : positive;
}.

Definition upd_keyslots (ns : redis_nodeset_t) (x : rbtree_seed_t redis_nodeset_slot_range_node_t) : redis_nodeset_t :=
  Nodeset (cluster_enabled ns) x (node_list ns) (nodes ns) (next_addr ns).
Definition put_node (ns : redis_nodeset_t) (p : positive) (n : redis_node_t) : redis_nodeset_t :=
  Nodeset (cluster_enabled ns) (keyslots ns) (node_list ns) (<[p := n]> (nodes ns)) (next_addr ns).
Definition get_node (ns : redis_nodeset_t) (p : positive) : outcome redis_node_t :=
  match nodes ns !! p with Some n => Ret n | None => Crash end.
Definition set_ranges (n : redis_node_t) (r : option (list redis_slot_range_t)) (k : Z) (indexed : bool) : redis_node_t :=
  RNode (n_state n) (n_role n) (n_cluster_enabled n) r k indexed.

(** [range[i]]. *)
Definition nth_range (n : redis_node_t) (i : nat) : outcome redis_slot_range_t :=
  match slot_range n with
  | Some l => match l !! i with Some r => Ret r | None => Crash end
  | None => Crash
  end.

(** ** Operations *)

Definition rbtree_cluster_keyslots_node_id (d : redis_nodeset_slot_range_node_t) : outcome redis_slot_range_t := Ret (sn_range d).
Definition rbtree_cluster_keyslots_bucketer (r : redis_slot_range_t) : Z := 1.
Definition rbtree_cluster_keyslots_compare (r1 r2 : redis_slot_range_t) : outcome Z :=
  Ret (if rmax r1 <? rmin r2 then -1 else if rmax r2 <? rmin r1 then 1 else 0).

Definition keyslot_ranges_overlap (r1 r2 : redis_slot_range_t) : outcome bool :=
  c ← rbtree_cluster_keyslots_compare r1 r2; Ret (c =? 0).

Definition find_keyslots (ns : redis_nodeset_t) (range : redis_slot_range_t) : outcome (option redis_nodeset_slot_range_node_t) :=
  rbtree_find_node rbtree_cluster_keyslots_node_id rbtree_cluster_keyslots_bucketer rbtree_cluster_keyslots_compare
    (keyslots ns) range.

Definition nodeset_node_find_by_range (ns : redis_nodeset_t) (range : redis_slot_range_t) : outcome (option positive) :=
  found ← find_keyslots ns range;
  match found with
  | Some d => ok ← keyslot_ranges_overlap range (sn_range d); c_assert ok;; Ret (Some (sn_node d))
  | None => Ret None
  end.

(** [slot] is a [uint16_t]. *)
Definition nodeset_node_find_by_slot (ns : redis_nodeset_t) (slot : Z) : outcome (option positive) :=
  nodeset_node_find_by_range ns (SlotRange slot slot).

Fixpoint ready_master (ns : redis_nodeset_t) (l : list positive) : outcome (option positive) :=
  match l with
  | [] => Ret None
  | cur :: next =>
      n ← get_node ns cur;
      if (REDIS_NODE_READY <=? n_state n) && bool_decide (n_role n = REDIS_NODE_ROLE_MASTER) then Ret (Some cur)
      else ready_master ns next
  end.
Definition nodeset_node_find_any_ready_master (ns : redis_nodeset_t) : outcome (option positive) := ready_master ns (node_list ns).

Definition nodeset_node_find_by_channel_id (ns : redis_nodeset_t) (channel_id : bytes) : outcome (option positive) :=
  if negb (cluster_enabled ns) then nodeset_node_find_any_ready_master ns
  else nodeset_node_find_by_slot ns (redis_keyslot_from_channel_id channel_id).

Definition nodeset_node_find_by_key (ns : redis_nodeset_t) (key : bytes) : outcome (option positive) :=
  if negb (cluster_enabled ns) then nodeset_node_find_any_ready_master ns
  else nodeset_node_find_by_slot ns (keyslot_of_key key).

(** [for(i=0; i<node->cluster.slot_range.n; i++)], from [i] for [k] more rounds. *)
Fixpoint in_keyspace_loop (n : redis_node_t) (slot : Z) (k i : nat) : outcome bool :=
  match k with
  | O => Ret false
  | S k' =>
      r ← nth_range n i;
      yes ← keyslot_ranges_overlap r (SlotRange slot slot);
      if (yes : bool) then Ret true else in_keyspace_loop n slot k' (S i)
  end.
Definition node_channel_in_keyspace (ns : redis_nodeset_t) (node : positive) (channel_id : bytes) : outcome bool :=
  n ← get_node ns node;
  if negb (n_cluster_enabled n) then Ret true
  else in_keyspace_loop n (redis_keyslot_from_channel_id channel_id) (Z.to_nat (slot_range_n n)) 0.

Section tree.
Context `{NgxRbtree redis_nodeset_slot_range_node_t}.

Fixpoint overlap_loop (ns : redis_nodeset_t) (n : redis_node_t) (k i : nat) : outcome (option positive) :=
  match k with
  | O => Ret None
  | S k' =>
      r ← nth_range n i;
      found ← nodeset_node_find_by_range ns r;
      match found with Some p => Ret (Some p) | None => overlap_loop ns n k' (S i) end
  end.

(** Inserting never fails ([rbtree_insert_node] returns [NGX_OK]), so the
    branch that undoes the insertion is never taken. *)
Fixpoint index_loop (ns : redis_nodeset_t) (node : positive) (n : redis_node_t) (k i : nat) : outcome redis_nodeset_t :=
  match k with
  | O => Ret ns
  | S k' =>
      r ← nth_range n i;
      let d := RangeNode (next_addr ns) r node in
      seed ← rbtree_insert_node rbtree_cluster_keyslots_node_id rbtree_cluster_keyslots_bucketer
               rbtree_cluster_keyslots_compare (rbtree_create_node (keyslots ns)) d;
      index_loop (Nodeset (cluster_enabled ns) seed (node_list ns) (nodes ns) (Pos.succ (next_addr ns))) node n k' (S i)
  end.

Definition nodeset_cluster_node_index_keyslot_ranges (ns : redis_nodeset_t) (node : positive) : outcome (redis_nodeset_t * Z) :=
  n ← get_node ns node;
  if slot_range_indexed n then Ret (ns, 0)
  else
    let k := Z.to_nat (slot_range_n n) in
    overlap ← overlap_loop ns n k 0;
    match overlap with
    | Some _ => Ret (ns, 0)
    | None =>
        ns1 ← index_loop ns node n k 0;
        Ret (put_node ns1 node (set_ranges n (slot_range n) (slot_range_n n) true), 1)
    end.

Fixpoint unindex_loop (ns : redis_nodeset_t) (n : redis_node_t) (k i : nat) : outcome redis_nodeset_t :=
  match k with
  | O => Ret ns
  | S k' =>
      r ← nth_range n i;
      found ← find_keyslots ns r;
      match found with
      | Some d => unindex_loop (upd_keyslots ns (rbtree_destroy_node (rbtree_remove_node (keyslots ns) d))) n k' (S i)
      | None => Crash   (* raise(SIGABRT) *)
      end
  end.

Definition nodeset_cluster_node_unindex_keyslot_ranges (ns : redis_nodeset_t) (node : positive) : outcome (redis_nodeset_t * Z) :=
  n ← get_node ns node;
  if negb (slot_range_indexed n) then Ret (ns, 1)
  else
    ns1 ← unindex_loop ns n (Z.to_nat (slot_range_n n)) 0;
    Ret (put_node ns1 node (set_ranges n (slot_range n) (slot_range_n n) false), 1).

Definition node_unset_cluster_slots (ns : redis_nodeset_t) (node : positive) : outcome (redis_nodeset_t * Z) :=
  n ← get_node ns node;
  '(ns1, success) ←
    (if slot_range_indexed n then nodeset_cluster_node_unindex_keyslot_ranges ns node else Ret (ns, 1));
  n1 ← get_node ns1 node;
  Ret (put_node ns1 node (set_ranges n1 None 0 (slot_range_indexed n1)), success).

(** [parsed] is what [parse_cluster_node_slots] makes of a line that announces
    [count] ranges. *)
Definition node_set_cluster_slots (ns : redis_nodeset_t) (node : positive) (count : Z)
    (parsed : option (list redis_slot_range_t)) : outcome (redis_nodeset_t * Z) :=
  '(ns0, _) ← node_unset_cluster_slots ns node;
  n0 ← get_node ns0 node;
  let fail ns :=
    n ← get_node ns node; Ret (put_node ns node (set_ranges n None (slot_range_n n) (slot_range_indexed n)), 0) in
  if count =? 0 then fail ns0
  else
    match parsed with
    | None => fail (put_node ns0 node (set_ranges n0 None count (slot_range_indexed n0)))
    | Some ranges =>
        let n1 := set_ranges n0 (Some ranges) count (slot_range_indexed n0) in
        let ns1 := put_node ns0 node n1 in
        conflict_node ← overlap_loop ns1 n1 (Z.to_nat count) 0;
        match conflict_node with
        | Some _ => fail ns1
        | None =>
            '(ns2, ok) ← nodeset_cluster_node_index_keyslot_ranges ns1 node;
            if ok =? 0 then fail ns2 else Ret (ns2, 1)
        end
    end.
End tree.

(** [while(range.min <= 16383)]; the fields have 16 bits. *)
Fixpoint space_complete_loop (fuel : nat) (ns : redis_nodeset_t) (min_node_state : Z) (range : redis_slot_range_t) : outcome Z :=
  match fuel with
  | O => NoFuel
  | S fuel' =>
      if rmin range <=? 16383 then
        found ← find_keyslots ns range;
        match found with
        | None => Ret 0
        | Some rangenode =>
            n ← get_node ns (sn_node rangenode);
            if n_state n <? min_node_state then Ret 0
            else if negb (bool_decide (n_role n = REDIS_NODE_ROLE_MASTER)) then Ret 0
            else
              let next := u16 (rmax (sn_range rangenode) + 1) in
              space_complete_loop fuel' ns min_node_state (SlotRange next next)
        end
      else Ret 1
  end.
Definition nodeset_cluster_keyslot_space_complete (fuel : nat) (ns : redis_nodeset_t) (min_node_state : Z) : outcome Z :=
  space_complete_loop fuel ns min_node_state (SlotRange 0 0).
