(* ===== verification/ClusterSlotsFacts.v ===== *)
(** * The slot index is exact

    Setting and unsetting the ranges of nodes, in any order, keeps in the tree
    the ranges of the indexed nodes and nothing else; a slot is found exactly
    when one of them owns it, and the test that all slots are covered is
    decided. *)

From stdpp Require Import sorting.
From S2P Require Import Prelude Nginx RbTree Crc16 ClusterSlots.
Open Scope Z_scope.

(** ** Ranges in a tree *)

Definition before (r r' : redis_slot_range_t) : Prop := rmax r < rmin r'.
Definition overlaps (r r' : redis_slot_range_t) : Prop := rmin r' <= rmax r /\ rmin r <= rmax r'.
Definition valid (r : redis_slot_range_t) : Prop := 0 <= rmin r <= rmax r /\ rmax r < 65536.

Lemma overlaps_sym r r' : overlaps r r' <-> overlaps r' r.
Proof. unfold overlaps. lia. Qed.

Notation data t := ((inorder t).*2).

(** The nodes of a tree lie one after the other. *)
Record ordered (t : rbtree redis_nodeset_slot_range_node_t) : Prop := {
  or_key : Forall (fun n => n.1 = 1) (inorder t);
  or_valid : forall d, d ∈ data t -> valid (sn_range d);
  or_sorted : StronglySorted (fun d d' => before (sn_range d) (sn_range d')) (data t);
}.

Lemma slots_ordered_node k l d r :
  ordered (Node k l d r) -> k = 1 /\ valid (sn_range d) /\ ordered l /\ ordered r /\
    (forall x, x ∈ data l -> before (sn_range x) (sn_range d)) /\ (forall x, x ∈ data r -> before (sn_range d) (sn_range x)).
Proof.
  intros [K V S]. cbn [inorder] in *. rewrite fmap_app, fmap_cons in V, S. cbn [snd] in V, S.
  apply Forall_app in K as [K1 K2]. apply Forall_cons in K2 as [Kd K2].
  apply StronglySorted_app in S as (S12 & S1 & S2). apply StronglySorted_inv in S2 as [S2 Sd]. rewrite Forall_forall in Sd.
  split_and!; auto.
  - apply V. set_solver.
  - split; auto. intros x Hx. apply V. set_solver.
  - split; auto. intros x Hx. apply V. set_solver.
  - intros x Hx. apply S12; [done|]. set_solver.
Qed.

(** Two nodes that overlap are one. *)
Lemma slots_ordered_unique t d d' : ordered t -> d ∈ data t -> d' ∈ data t -> overlaps (sn_range d) (sn_range d') -> d = d'.
Proof.
  intros [_ _ S] Hd Hd' O. induction S as [|x l S IH F]; [by apply elem_of_nil in Hd|]. rewrite Forall_forall in F.
  unfold overlaps, before in *.
  apply elem_of_cons in Hd as [->|Hd], Hd' as [->|Hd']; auto; [specialize (F _ Hd')|specialize (F _ Hd)]; lia.
Qed.

Lemma ordered_nodup t : ordered t -> NoDup (data t).
Proof.
  intros [_ V S]. induction S as [|x l S IH F]; constructor.
  - intros Hx. rewrite Forall_forall in F. specialize (F x Hx). specialize (V x ltac:(set_solver)). unfold before, valid in *. lia.
  - apply IH. intros d Hd. apply V. set_solver.
Qed.

Notation find_generic := (rbtree_find_node_generic rbtree_cluster_keyslots_node_id rbtree_cluster_keyslots_compare).

Notation insert_generic := (rbtree_insert_generic rbtree_cluster_keyslots_node_id rbtree_cluster_keyslots_compare).

(** One step of the descent. *)
Lemma slots_find_step l d t r :
  find_generic (Node 1 l d t) r 1 =
  if rmax r <? rmin (sn_range d) then find_generic l r 1
  else if rmax (sn_range d) <? rmin r then find_generic t r 1 else Ret (Some d).
Proof.
  cbn [rbtree_find_node_generic]. rewrite Z.ltb_irrefl.
  change (rbtree_cluster_keyslots_node_id d) with (Ret (sn_range d)). rewrite bind_Ret.
  change (rbtree_cluster_keyslots_compare r (sn_range d)) with
    (Ret (if rmax r <? rmin (sn_range d) then -1 else if rmax (sn_range d) <? rmin r then 1 else 0)).
  rewrite bind_Ret.
  destruct (rmax r <? rmin (sn_range d)); [done|]. by destruct (rmax (sn_range d) <? rmin r).
Qed.

Lemma slots_insert_step l x t d :
  insert_generic (Node 1 l x t) 1 d =
  if rmax (sn_range d) <? rmin (sn_range x) then l' ← insert_generic l 1 d; Ret (Node 1 l' x t)
  else t' ← insert_generic t 1 d; Ret (Node 1 l x t').
Proof.
  cbn [rbtree_insert_generic]. rewrite Z.eqb_refl. cbn [negb].
  change (rbtree_cluster_keyslots_node_id d) with (Ret (sn_range d)).
  change (rbtree_cluster_keyslots_node_id x) with (Ret (sn_range x)). rewrite !bind_Ret.
  change (rbtree_cluster_keyslots_compare (sn_range d) (sn_range x)) with
    (Ret (if rmax (sn_range d) <? rmin (sn_range x) then -1 else if rmax (sn_range x) <? rmin (sn_range d) then 1 else 0)).
  rewrite !bind_Ret.
  destruct (rmax (sn_range d) <? rmin (sn_range x)); [done|]. by destruct (rmax (sn_range x) <? rmin (sn_range d)).
Qed.

(** A lookup finds a node that overlaps, if there is one. *)
Lemma find_range_spec t r :
  ordered t -> rmin r <= rmax r ->
  exists res, find_generic t r 1 = Ret res /\
    match res with
    | Some d => d ∈ data t /\ overlaps r (sn_range d)
    | None => forall d, d ∈ data t -> ~ overlaps r (sn_range d)
    end.
Proof.
  intros O Hr. induction t as [|k l IHl d t' IHr].
  { exists None. split; [done|]. by intros d ?%elem_of_nil. }
  destruct (slots_ordered_node _ _ _ _ O) as (-> & Vd & Ol & Or & Ll & Lr). rewrite slots_find_step.
  cbn [inorder]. rewrite fmap_app, fmap_cons. cbn [snd]. unfold valid in Vd.
  destruct (Z.ltb_spec (rmax r) (rmin (sn_range d))) as [L|L].
  - destruct (IHl Ol) as (res & -> & Hres). exists res. split; [done|]. destruct res as [x|].
    + destruct Hres. split; [set_solver|done].
    + intros x [Hx|[->|Hx]%elem_of_cons]%elem_of_app; [by apply Hres|unfold overlaps; lia|].
      specialize (Lr x Hx). unfold before, overlaps in *. lia.
  - destruct (Z.ltb_spec (rmax (sn_range d)) (rmin r)) as [L'|L'].
    + destruct (IHr Or) as (res & -> & Hres). exists res. split; [done|]. destruct res as [x|].
      * destruct Hres. split; [set_solver|done].
      * intros x [Hx|[->|Hx]%elem_of_cons]%elem_of_app; [|unfold overlaps; lia|by apply Hres].
        specialize (Ll x Hx). unfold before, overlaps in *. lia.
    + exists (Some d). split; [done|]. split; [set_solver|]. unfold overlaps. lia.
Qed.

Lemma ordered_insert_between t t' l1 l2 d :
  ordered t -> inorder t = l1 ++ l2 -> inorder t' = l1 ++ (1, d) :: l2 -> valid (sn_range d) ->
  (forall x, x ∈ l1.*2 -> before (sn_range x) (sn_range d)) -> (forall x, x ∈ l2.*2 -> before (sn_range d) (sn_range x)) ->
  ordered t'.
Proof.
  intros [K V S] E E' Vd L1 L2. rewrite E in K, V, S. rewrite fmap_app in V, S.
  apply Forall_app in K as [K1 K2]. apply StronglySorted_app in S as (S12 & S1 & S2).
  split; rewrite E'.
  - apply Forall_app. split; [done|]. by constructor.
  - rewrite fmap_app, fmap_cons. cbn [snd]. intros x [Hx|[->|Hx]%elem_of_cons]%elem_of_app; [apply V; set_solver|done|apply V; set_solver].
  - rewrite fmap_app, fmap_cons. cbn [snd]. apply StronglySorted_app. split_and!; auto.
    + intros x y Hx [->|Hy]%elem_of_cons; auto.
    + constructor; [done|]. rewrite Forall_forall. auto.
Qed.

Lemma insert_range_spec t d :
  ordered t -> valid (sn_range d) -> (forall x, x ∈ data t -> ~ overlaps (sn_range d) (sn_range x)) ->
  exists t' l1 l2, insert_generic t 1 d = Ret t' /\
    inorder t = l1 ++ l2 /\ inorder t' = l1 ++ (1, d) :: l2 /\
    (forall x, x ∈ l1.*2 -> before (sn_range x) (sn_range d)) /\ (forall x, x ∈ l2.*2 -> before (sn_range d) (sn_range x)).
Proof.
  intros O Vd N. induction t as [|k l IHl x r IHr].
  { exists (Node 1 Sentinel d Sentinel), [], []. split_and!; auto; by intros ? ?%elem_of_nil. }
  destruct (slots_ordered_node _ _ _ _ O) as (-> & Vx & Ol & Or & Ll & Lr). rewrite slots_insert_step.
  assert (data (Node 1 l x r) = data l ++ x :: data r) as Ed by (cbn [inorder]; by rewrite fmap_app, fmap_cons).
  rewrite Ed in N. pose proof (N x ltac:(set_solver)) as Nx. unfold overlaps in Nx. unfold valid in Vd, Vx.
  destruct (Z.ltb_spec (rmax (sn_range d)) (rmin (sn_range x))) as [L|L].
  - destruct IHl as (t' & l1 & l2 & -> & E & E' & M1 & M2); [done|intros y Hy; apply N; set_solver|].
    rewrite bind_Ret. exists (Node 1 t' x r), l1, (l2 ++ (1, x) :: inorder r). cbn [inorder].
    rewrite E, E', <- !app_assoc. split_and!; auto.
    rewrite fmap_app, fmap_cons. cbn [snd]. intros y [Hy|[->|Hy]%elem_of_cons]%elem_of_app; [auto|done|].
    specialize (Lr y Hy). unfold before in *. lia.
  - destruct IHr as (t' & l1 & l2 & -> & E & E' & M1 & M2); [done|intros y Hy; apply N; set_solver|].
    rewrite bind_Ret. exists (Node 1 l x t'), (inorder l ++ (1, x) :: l1), l2. cbn [inorder].
    rewrite E, E', <- !app_assoc. split_and!; auto.
    rewrite fmap_app, fmap_cons. cbn [snd]. intros y [Hy|[->|Hy]%elem_of_cons]%elem_of_app; [|unfold before; lia|auto].
    specialize (Ll y Hy). unfold before in *. lia.
Qed.

Section index.
Context `{NgxRbtree redis_nodeset_slot_range_node_t}.

Notation insert_node := (rbtree_insert_node rbtree_cluster_keyslots_node_id rbtree_cluster_keyslots_bucketer rbtree_cluster_keyslots_compare).

Lemma insert_seed_spec seed d :
  ordered (tree seed) -> valid (sn_range d) -> (forall x, x ∈ data (tree seed) -> ~ overlaps (sn_range d) (sn_range x)) ->
  exists seed', insert_node seed d = Ret seed' /\ ordered (tree seed') /\ data (tree seed') ≡ₚ d :: data (tree seed).
Proof.
  intros O V N. destruct (insert_range_spec _ _ O V N) as (t' & l1 & l2 & E & El & E' & L1 & L2).
  unfold rbtree_insert_node. change (rbtree_cluster_keyslots_node_id d) with (Ret (sn_range d)). rewrite bind_Ret.
  set (t'' := match tree seed with Sentinel => t' | _ => ngx_rebalance t' end).
  assert (inorder t'' = inorder t') as Eb by (subst t''; destruct (tree seed); [done|apply ngx_rebalance_inorder]).
  exists (Seed t'' (u64 (active_nodes seed + 1)) (allocd_nodes seed)). split_and!.
  - destruct (tree seed) eqn:Et; [|unfold rbtree_cluster_keyslots_bucketer; by rewrite E].
    simpl in E. injection E as <-. by subst t''.
  - apply (ordered_insert_between (tree seed) _ l1 l2 d); auto. simpl. by rewrite Eb, E'.
  - cbn [tree]. rewrite Eb, E', El, !fmap_app, fmap_cons. cbn [snd]. symmetry. apply Permutation_middle.
Qed.

Lemma remove_seed_spec seed d :
  ordered (tree seed) -> d ∈ data (tree seed) ->
  let seed' := rbtree_destroy_node (rbtree_remove_node seed d) in
  ordered (tree seed') /\ forall x, x ∈ data (tree seed') <-> x ∈ data (tree seed) /\ x <> d.
Proof.
  intros O Hd seed'. pose proof (ordered_nodup _ O) as ND. destruct O as [K V S].
  apply list_elem_of_fmap in Hd as ([k d'] & -> & Hin). cbn [snd] in *.
  apply list_elem_of_split in Hin as (l1 & l2 & E). rewrite E in ND. rewrite fmap_app, fmap_cons in ND. cbn [snd] in ND.
  apply NoDup_app in ND as (_ & N1 & N2). apply NoDup_cons in N2 as [N2 _].
  assert (d' ∉ l1.*2) as Nl by (intros Hd; apply (N1 _ Hd); set_solver).
  pose proof (ngx_rbtree_delete_inorder _ _ _ _ _ E Nl) as Ed.
  assert (inorder (tree seed') = l1 ++ l2) as Es by exact Ed.
  rewrite E in K, V, S. rewrite fmap_app, fmap_cons in V, S. cbn [snd] in V, S.
  split.
  - split; rewrite Es.
    + apply Forall_app in K as [K1 K2]. apply Forall_cons in K2 as [_ K2]. by apply Forall_app.
    + rewrite fmap_app. intros x Hx. apply V. set_solver.
    + rewrite fmap_app. apply StronglySorted_app in S as (S12 & S1 & S2). apply StronglySorted_inv in S2 as [S2 _].
      apply StronglySorted_app. split_and!; auto. intros a b Ha Hb. apply S12; [done|]. set_solver.
  - intros x. rewrite Es, E, !fmap_app, fmap_cons. cbn [snd]. set_solver.
Qed.

(** ** The loops over the ranges of a node *)

(** The tree holds the ranges [S], each for its node. *)
Definition holds (seed : rbtree_seed_t redis_nodeset_slot_range_node_t) (S : positive -> redis_slot_range_t -> Prop) : Prop :=
  ordered (tree seed) /\ forall p r, (exists a, RangeNode a r p ∈ data (tree seed)) <-> S p r.

Lemma holds_ext seed S S' : holds seed S -> (forall p r, S p r <-> S' p r) -> holds seed S'.
Proof. intros [O E] X. split; [done|]. intros p r. by rewrite E. Qed.

Lemma holds_valid seed S p r : holds seed S -> S p r -> valid r.
Proof. intros [O E] Hr. apply E in Hr as (a & Ha). by apply (or_valid _ O) in Ha. Qed.

(** Ranges of one node. *)
Record disjoint_ranges (l : list redis_slot_range_t) : Prop := {
  dr_valid : forall r, r ∈ l -> valid r;
  dr_apart : forall i j r r', l !! i = Some r -> l !! j = Some r' -> i <> j -> ~ overlaps r r';
}.

(** Only the tree has changed, and the supply of addresses. *)
Definition same_nodes (ns ns' : redis_nodeset_t) : Prop :=
  nodes ns' = nodes ns /\ node_list ns' = node_list ns /\ cluster_enabled ns' = cluster_enabled ns.

Lemma nth_range_Some n l i r : slot_range n = Some l -> l !! i = Some r -> nth_range n i = Ret r.
Proof. intros E Hi. unfold nth_range. by rewrite E, Hi. Qed.

Lemma slots_find_spec ns S r :
  holds (keyslots ns) S -> valid r ->
  exists res, find_keyslots ns r = Ret res /\
    match res with
    | Some d => d ∈ data (tree (keyslots ns)) /\ overlaps r (sn_range d) /\ S (sn_node d) (sn_range d)
    | None => forall p r', S p r' -> ~ overlaps r r'
    end.
Proof.
  intros [O E] [Hr _]. destruct (find_range_spec _ r O ltac:(lia)) as (res & Ef & Hres). exists res.
  split; [exact Ef|]. destruct res as [[a r' p]|].
  - destruct Hres. split_and!; auto. apply E. by exists a.
  - intros p r' (a & Ha)%E. by apply (Hres _ Ha).
Qed.

Lemma find_by_range_spec ns S r :
  holds (keyslots ns) S -> valid r ->
  exists res, nodeset_node_find_by_range ns r = Ret res /\
    match res with
    | Some p => exists r', S p r' /\ overlaps r r'
    | None => forall p r', S p r' -> ~ overlaps r r'
    end.
Proof.
  intros Hs Hr. destruct (slots_find_spec ns S r Hs Hr) as (res & E & Hres). unfold nodeset_node_find_by_range.
  rewrite E, bind_Ret. destruct res as [d|]; [|by exists None]. destruct Hres as (_ & O & Sd).
  exists (Some (sn_node d)). unfold keyslot_ranges_overlap, rbtree_cluster_keyslots_compare. rewrite !bind_Ret.
  pose proof O as [O1 O2].
  destruct (Z.ltb_spec (rmax r) (rmin (sn_range d))); [lia|]. destruct (Z.ltb_spec (rmax (sn_range d)) (rmin r)); [lia|].
  cbn. eauto.
Qed.

Lemma overlap_loop_spec ns S n l k i :
  holds (keyslots ns) S -> slot_range n = Some l -> (i + k <= length l)%nat -> (forall r, r ∈ l -> valid r) ->
  exists res, overlap_loop ns n k i = Ret res /\
    (res = None -> forall j r, (i <= j < i + k)%nat -> l !! j = Some r -> forall p r', S p r' -> ~ overlaps r r').
Proof.
  intros Hs El. revert i. induction k as [|k IH]; intros i Hi V; cbn [overlap_loop].
  { exists None. split; [done|]. lia. }
  destruct (lookup_lt_is_Some_2 l i) as [r Hr]; [lia|]. rewrite (nth_range_Some _ _ _ _ El Hr), bind_Ret.
  destruct (find_by_range_spec ns S r Hs (V r (list_elem_of_lookup_2 _ _ _ Hr))) as (res & -> & Hres). rewrite bind_Ret.
  destruct res as [p|]; [by exists (Some p)|]. destruct (IH (Datatypes.S i) ltac:(lia) V) as (res & -> & N).
  exists res. split; [done|]. intros ->. intros j r' Hj Hr'. destruct (decide (j = i)) as [->|]; [|apply (N eq_refl j); [lia|done]].
  rewrite Hr in Hr'. injection Hr' as <-. done.
Qed.

Lemma index_loop_spec ns S p n l k i :
  holds (keyslots ns) (fun q r => S q r \/ q = p /\ r ∈ take i l) -> slot_range n = Some l -> (i + k = length l)%nat ->
  disjoint_ranges l -> (forall j r, l !! j = Some r -> forall q r', S q r' -> ~ overlaps r r') ->
  exists ns', index_loop ns p n k i = Ret ns' /\ same_nodes ns ns' /\
    holds (keyslots ns') (fun q r => S q r \/ q = p /\ r ∈ l).
Proof.
  intros Hs El. revert ns i Hs. induction k as [|k IH]; intros ns i Hs Hi D N; cbn [index_loop].
  { exists ns. split_and!; [done|by split|]. rewrite take_ge in Hs by lia. done. }
  destruct (lookup_lt_is_Some_2 l i) as [r Hr]; [lia|]. rewrite (nth_range_Some _ _ _ _ El Hr), bind_Ret.
  set (d := RangeNode (next_addr ns) r p). destruct Hs as [O E].
  destruct (insert_seed_spec (rbtree_create_node (keyslots ns)) d) as (seed' & -> & O' & P).
  - exact O.
  - apply (dr_valid _ D). by eapply list_elem_of_lookup_2.
  - intros [a r' q] Hx. destruct (proj1 (E q r') (ex_intro _ a Hx)) as [Sx|(-> & (j & Hj & L)%elem_of_take)]; [exact (N i r Hr q r' Sx)|].
    apply (dr_apart _ D i j); auto. lia.
  - rewrite bind_Ret. cbn zeta.
    destruct (IH (Nodeset (cluster_enabled ns) seed' (node_list ns) (nodes ns) (Pos.succ (next_addr ns))) (Datatypes.S i))
      as (ns' & E' & Sn & H'); auto; [|lia|].
    + split; [exact O'|]. intros q r'. cbn [keyslots]. setoid_rewrite P. setoid_rewrite elem_of_cons.
      rewrite (take_S_r _ _ _ Hr), elem_of_app, list_elem_of_singleton. pose proof (E q r') as Eq. cbn beta in Eq. split.
      * intros (a & [Ea|Ha]); [injection Ea as -> -> ->; auto|].
        destruct (proj1 Eq (ex_intro _ a Ha)) as [?|[-> ?]]; auto.
      * intros C. assert ((S q r' \/ q = p /\ r' ∈ take i l) \/ q = p /\ r' = r) as [C'|[-> ->]] by tauto.
        -- apply Eq in C' as (a & Ha). eauto.
        -- exists (next_addr ns). by left.
    + exists ns'. split_and!; auto.
Qed.

Lemma unindex_loop_spec ns S p n l k i :
  holds (keyslots ns) (fun q r => S q r \/ q = p /\ r ∈ drop i l) -> (forall r, ~ S p r) -> slot_range n = Some l ->
  (i + k = length l)%nat -> NoDup l ->
  exists ns', unindex_loop ns n k i = Ret ns' /\ same_nodes ns ns' /\ holds (keyslots ns') S.
Proof.
  intros Hs Np El. revert ns i Hs. induction k as [|k IH]; intros ns i Hs Hi ND; cbn [unindex_loop].
  { exists ns. split_and!; [done|by split|]. eapply holds_ext; [exact Hs|]. intros q r. cbn beta.
    rewrite drop_ge by lia. split; [|auto]. intros [?|[_ ?%elem_of_nil]]; done. }
  destruct (lookup_lt_is_Some_2 l i) as [r Hr]; [lia|]. rewrite (nth_range_Some _ _ _ _ El Hr), bind_Ret.
  pose proof (drop_S _ _ _ Hr) as Ed.
  assert (S p r \/ p = p /\ r ∈ drop i l) as Inr by (right; split; [done|rewrite Ed; by apply elem_of_cons; left]).
  pose proof (holds_valid _ _ _ _ Hs Inr) as Vr.
  destruct (slots_find_spec ns _ r Hs Vr) as (res & -> & Hres). rewrite bind_Ret. destruct res as [d|].
  2:{ exfalso. apply (Hres p r Inr). unfold overlaps, valid in *. lia. }
  destruct Hres as (Hd & Ov & _). destruct Hs as [O E].
  destruct (proj2 (E p r) Inr) as (a & Ha).
  assert (d = RangeNode a r p) as -> by (apply (slots_ordered_unique _ _ _ O); [done|done|by apply overlaps_sym]).
  destruct (remove_seed_spec (keyslots ns) (RangeNode a r p) O Ha) as [O' R].
  destruct (IH (upd_keyslots ns (rbtree_destroy_node (rbtree_remove_node (keyslots ns) (RangeNode a r p)))) (Datatypes.S i))
    as (ns' & E' & Sn & H'); [|lia|done|].
  - split; [exact O'|]. intros q r'. cbn [keyslots upd_keyslots]. setoid_rewrite R. split.
    + intros (a' & Ha' & Ne). destruct (proj1 (E q r') (ex_intro _ a' Ha')) as [?|[-> Hin]]; [by left|].
      rewrite Ed in Hin. apply elem_of_cons in Hin as [->|?]; [|by right]. exfalso. apply Ne.
      apply (slots_ordered_unique _ _ _ O Ha' Ha). simpl. unfold overlaps, valid in *. lia.
    + intros C. assert (S q r' \/ q = p /\ r' ∈ drop i l) as C'.
      { destruct C as [?|[-> ?]]; [by left|right]. split; [done|]. rewrite Ed. by apply elem_of_cons; right. }
      apply E in C' as (a' & Ha'). exists a'. split; [done|]. intros [= -> -> ->].
      destruct C as [C|[_ C]]; [by apply (Np r)|]. apply list_elem_of_lookup in C as (j & Hj). rewrite lookup_drop in Hj.
      pose proof (NoDup_lookup _ _ _ _ ND Hr Hj). lia.
  - exists ns'. split_and!; auto.
Qed.

(** ** Setting and unsetting *)

(** The range [r] of the indexed node [p]. *)
Definition owned (ns : redis_nodeset_t) (p : positive) (r : redis_slot_range_t) : Prop :=
  exists n l, nodes ns !! p = Some n /\ slot_range_indexed n = true /\ slot_range n = Some l /\ r ∈ l.

Record index_ok (ns : redis_nodeset_t) : Prop := {
  ix_holds : holds (keyslots ns) (owned ns);
  ix_node : forall p n, nodes ns !! p = Some n -> slot_range_indexed n = true ->
    exists l, slot_range n = Some l /\ slot_range_n n = Z.of_nat (length l) /\ NoDup l;
}.

(** Replacing a node that is not indexed, before and after. *)
Lemma owned_put ns ns' p n n' q r :
  nodes ns' = <[p := n']> (nodes ns) -> nodes ns !! p = Some n ->
  (q = p -> slot_range_indexed n' = slot_range_indexed n /\ (slot_range_indexed n = true -> slot_range n' = slot_range n)) ->
  owned ns' q r <-> owned ns q r.
Proof.
  intros E Hp C. unfold owned. rewrite E. destruct (decide (q = p)) as [->|Nq].
  - destruct (C eq_refl) as [E1 E2]. setoid_rewrite lookup_insert_eq. split.
    + intros (m & l & [= <-] & Hi & Hr & Hl). rewrite E1 in Hi. rewrite E2 in Hr by done. eauto 10.
    + intros (m & l & Hm & Hi & Hr & Hl). assert (m = n) as -> by congruence. exists n', l. rewrite E1, E2 by done. auto.
  - by setoid_rewrite lookup_insert_ne; [|done].
Qed.

Lemma index_ok_put ns p n n' :
  index_ok ns -> nodes ns !! p = Some n -> slot_range_indexed n' = slot_range_indexed n ->
  (slot_range_indexed n = true -> slot_range n' = slot_range n /\ slot_range_n n' = slot_range_n n) -> index_ok (put_node ns p n').
Proof.
  intros [Hh Hn] Hp E1 E2. split.
  - eapply holds_ext; [exact Hh|]. intros q r. symmetry. apply (owned_put ns (put_node ns p n') p n n'); auto.
    intros _. split; [done|]. intros Hi. by apply E2.
  - intros q m. cbn [nodes put_node]. rewrite lookup_insert_Some. intros [(<- & <-)|(Nq & Hm)] Hi; [|by eapply Hn].
    rewrite E1 in Hi. destruct (E2 Hi) as [-> ->]. by apply (Hn p n).
Qed.

Lemma unset_ok ns p n :
  index_ok ns -> nodes ns !! p = Some n ->
  exists ns', node_unset_cluster_slots ns p = Ret (ns', 1) /\ index_ok ns' /\
    nodes ns' = <[p := set_ranges n None 0 false]> (nodes ns) /\
    node_list ns' = node_list ns /\ cluster_enabled ns' = cluster_enabled ns.
Proof.
  intros I Hp. unfold node_unset_cluster_slots, get_node. rewrite Hp, bind_Ret.
  destruct (slot_range_indexed n) eqn:Hi.
  - unfold nodeset_cluster_node_unindex_keyslot_ranges, get_node. rewrite Hp, bind_Ret, Hi. cbn [negb].
    destruct (ix_node _ I p n Hp Hi) as (l & El & En & ND).
    destruct (unindex_loop_spec ns (fun q r => q <> p /\ owned ns q r) p n l (Z.to_nat (slot_range_n n)) 0)
      as (ns1 & -> & (N1 & N2 & N3) & H1); auto; [| |lia|].
    + eapply holds_ext; [apply (ix_holds _ I)|]. intros q r. rewrite drop_0. split.
      * intros O. destruct (decide (q = p)) as [->|]; [|auto]. right. split; [done|].
        destruct O as (m & l' & Hm & _ & El' & Hl). congruence.
      * intros [[_ ?]|[-> ?]]; [done|]. exists n, l. auto.
    + by intros r [? _].
    + rewrite !bind_Ret. cbn [nodes put_node]. rewrite lookup_insert_eq, bind_Ret. eexists. split; [reflexivity|].
      unfold put_node. cbn [nodes node_list cluster_enabled keyslots]. rewrite insert_insert_eq, N1. split_and!; auto.
      split; cbn [keyslots nodes].
      * eapply holds_ext; [exact H1|]. intros q r. unfold owned. cbn [nodes].
        destruct (decide (q = p)) as [->|Nq].
        -- setoid_rewrite lookup_insert_eq. split; [by intros [? _]|]. intros (m & l' & [= <-] & [=] & _).
        -- setoid_rewrite lookup_insert_ne; [|done]. tauto.
      * intros q m. rewrite lookup_insert_Some. intros [(<- & <-)|(Nq & Hm)]; [done|]. by apply (ix_node _ I q m).
  - rewrite !bind_Ret. cbn iota. rewrite Hp, bind_Ret, Hi. eexists. split; [reflexivity|]. split_and!; auto.
    apply (index_ok_put ns p n); auto; rewrite Hi; done.
Qed.

Definition parsed_ok (count : Z) (parsed : option (list redis_slot_range_t)) : Prop :=
  0 <= count /\ forall l, parsed = Some l -> count = Z.of_nat (length l) /\ disjoint_ranges l.

Lemma disjoint_nodup l : disjoint_ranges l -> NoDup l.
Proof.
  intros [V A]. apply NoDup_alt. intros i j r Hi Hj. destruct (decide (i = j)); [done|]. exfalso.
  apply (A i j r r); auto. specialize (V r (list_elem_of_lookup_2 _ _ _ Hi)). unfold valid, overlaps in *. lia.
Qed.

(** What setting the ranges of a node does: it succeeds exactly when the ranges
    were parsed, are not none, and are free. *)
Lemma set_ok ns p n count parsed :
  index_ok ns -> nodes ns !! p = Some n -> parsed_ok count parsed ->
  exists ns' ok, node_set_cluster_slots ns p count parsed = Ret (ns', ok) /\ index_ok ns' /\
    node_list ns' = node_list ns /\ cluster_enabled ns' = cluster_enabled ns /\
    (ok = 1 /\ (exists l, parsed = Some l /\ nodes ns' = <[p := set_ranges n (Some l) count true]> (nodes ns)) \/
     ok = 0 /\ exists k, nodes ns' = <[p := set_ranges n None k false]> (nodes ns)).
Proof.
  intros I Hp [Hc Hl]. unfold node_set_cluster_slots.
  destruct (unset_ok ns p n I Hp) as (ns0 & -> & I0 & N0 & L0 & C0). rewrite bind_Ret.
  set (n0 := set_ranges n None 0 false) in *.
  assert (nodes ns0 !! p = Some n0) as Hp0 by (by rewrite N0, lookup_insert_eq).
  assert (get_node ns0 p = Ret n0) as Eg by (unfold get_node; by rewrite Hp0). cbn beta iota.
  match goal with |- context [get_node ns0 p ≫= ?f] => replace (get_node ns0 p ≫= f) with (f n0) by (by rewrite Eg) end.
  cbn zeta.
  assert (forall ns1 r k, index_ok ns1 -> nodes ns1 = <[p := set_ranges n r k false]> (nodes ns) ->
    node_list ns1 = node_list ns -> cluster_enabled ns1 = cluster_enabled ns ->
    exists ns' ok, (n1 ← get_node ns1 p; Ret (put_node ns1 p (set_ranges n1 None (slot_range_n n1) (slot_range_indexed n1)), 0)) =
        Ret (ns', ok) /\ index_ok ns' /\ node_list ns' = node_list ns /\ cluster_enabled ns' = cluster_enabled ns /\
      (ok = 1 /\ (exists l, parsed = Some l /\ nodes ns' = <[p := set_ranges n (Some l) count true]> (nodes ns)) \/
       ok = 0 /\ exists k, nodes ns' = <[p := set_ranges n None k false]> (nodes ns))) as Fail.
  { intros ns1 r k I1 N1 L1 C1. unfold get_node. rewrite N1, lookup_insert_eq, bind_Ret. eexists _, _.
    split; [reflexivity|]. split_and!; auto.
    - eapply (index_ok_put ns1 p); [done|by rewrite N1, lookup_insert_eq|done|done].
    - right. split; [done|]. exists k. cbn [nodes put_node]. rewrite N1, insert_insert_eq. done. }
  destruct (Z.eqb_spec count 0) as [|Nz]; [by apply (Fail ns0 None 0)|].
  assert (forall r, index_ok (put_node ns0 p (set_ranges n0 r count (slot_range_indexed n0))) /\
    nodes (put_node ns0 p (set_ranges n0 r count (slot_range_indexed n0))) = <[p := set_ranges n r count false]> (nodes ns)) as Pt.
  { intros r. split; [by apply (index_ok_put ns0 p n0)|]. cbn [nodes put_node]. by rewrite N0, insert_insert_eq. }
  destruct parsed as [l|]; [|apply (Fail _ None count); [apply Pt|apply Pt|done|done]].
  destruct (Hl l eq_refl) as [Ec D]. set (n1 := set_ranges n0 (Some l) count (slot_range_indexed n0)).
  destruct (Pt (Some l)) as [I1 N1]. fold n1 in I1, N1. set (ns1 := put_node ns0 p n1) in *.
  destruct (overlap_loop_spec ns1 (owned ns1) n1 l (Z.to_nat count) 0) as (res & E & Free);
    [apply I1|done|lia|apply D|]. rewrite E, bind_Ret.
  destruct res as [q|]; [by apply (Fail ns1 (Some l) count)|]. specialize (Free eq_refl).
  assert (get_node ns1 p = Ret n1) as Eg1 by (unfold get_node; cbn [ns1 nodes put_node]; by rewrite lookup_insert_eq).
  unfold nodeset_cluster_node_index_keyslot_ranges. rewrite Eg1, bind_Ret.
  cbn [slot_range_indexed n1 n0 set_ranges slot_range_n]. fold n0. fold n1. rewrite E, bind_Ret.
  destruct (index_loop_spec ns1 (owned ns1) p n1 l (Z.to_nat count) 0) as (ns2 & E2 & (M1 & M2 & M3) & H2); [|done|lia|done| |].
  - eapply holds_ext; [apply (ix_holds _ I1)|]. intros q r. rewrite take_0. split; [auto|].
    intros [?|[_ ?%elem_of_nil]]; done.
  - intros j r Hj q r' O. apply (Free j r) with (p := q); auto. apply lookup_lt_Some in Hj. lia.
  - rewrite E2, !bind_Ret. cbn [Z.eqb]. eexists _, _. split; [reflexivity|]. cbn [node_list cluster_enabled put_node].
    rewrite M2, M3. split_and!; auto.
    + assert (forall m q, q <> p -> nodes (put_node ns2 p m) !! q = nodes ns1 !! q) as Other.
      { intros m q Nq. cbn [nodes put_node]. by rewrite M1, lookup_insert_ne. }
      split.
      * eapply holds_ext; [exact H2|]. intros q r. unfold owned. destruct (decide (q = p)) as [->|Nq].
        -- cbn [nodes put_node]. setoid_rewrite lookup_insert_eq. rewrite N1. setoid_rewrite lookup_insert_eq. split.
           ++ intros [(m & l' & [= <-] & [=] & _)|[_ Hr]]. eauto 10.
           ++ intros (m & l' & [= <-] & _ & [= <-] & Hr). auto.
        -- setoid_rewrite Other; [|done]. split; [intros [?|[? _]]; [done|done]|auto].
      * intros q m Hm Hi. destruct (decide (q = p)) as [->|Nq]; [|rewrite Other in Hm by done; by apply (ix_node _ I1 q m)].
        cbn [nodes put_node] in Hm. rewrite lookup_insert_eq in Hm. injection Hm as <-.
        exists l. split_and!; auto. by apply disjoint_nodup.
    + left. split; [done|]. exists l. split; [done|]. cbn [nodes put_node]. by rewrite M1, N1, insert_insert_eq.
Qed.
End index.

(** ** Runs *)

Inductive slots_op :=
  | SetSlots (p : positive) (count : Z) (parsed : option (list redis_slot_range_t))
  | UnsetSlots (p : positive)
  | SetState (p : positive) (st : Z) (role : redis_node_role_t).

Section runs.
Context `{NgxRbtree redis_nodeset_slot_range_node_t}.

Definition exec_slots (o : slots_op) (ns : redis_nodeset_t) : outcome redis_nodeset_t :=
  match o with
  | SetSlots p count parsed => '(ns', _) ← node_set_cluster_slots ns p count parsed; Ret ns'
  | UnsetSlots p => '(ns', _) ← node_unset_cluster_slots ns p; Ret ns'
  | SetState p st role =>
      n ← get_node ns p;
      Ret (put_node ns p (RNode st role (n_cluster_enabled n) (slot_range n) (slot_range_n n) (slot_range_indexed n)))
  end.

Fixpoint exec_all_slots (ops : list slots_op) (ns : redis_nodeset_t) : outcome redis_nodeset_t :=
  match ops with
  | [] => Ret ns
  | o :: ops' => ns' ← exec_slots o ns; exec_all_slots ops' ns'
  end.

(** The node exists; its ranges, if they were parsed, are as many as announced,
    have their ends in order, and do not overlap each other. *)
Definition slots_op_ok (ns : redis_nodeset_t) (o : slots_op) : Prop :=
  match o with
  | SetSlots p count parsed => is_Some (nodes ns !! p) /\ parsed_ok count parsed
  | UnsetSlots p | SetState p _ _ => is_Some (nodes ns !! p)
  end.

Lemma exec_slots_ok o ns :
  index_ok ns -> slots_op_ok ns o -> exists ns', exec_slots o ns = Ret ns' /\ index_ok ns' /\ dom (nodes ns') = dom (nodes ns).
Proof.
  assert (forall p n n' ns', nodes ns !! p = Some n -> nodes ns' = <[p := n']> (nodes ns) -> dom (nodes ns') = dom (nodes ns)) as D.
  { intros p n n' ns' Hp ->. apply dom_insert_lookup_L. eauto. }
  intros I. destruct o as [p count parsed|p|p st role]; cbn [slots_op_ok exec_slots].
  - intros [[n Hp] K]. destruct (set_ok ns p n count parsed I Hp K) as (ns' & ok & -> & I' & _ & _ & C).
    rewrite bind_Ret. exists ns'. split_and!; auto. destruct C as [(_ & l & _ & E)|(_ & k & E)]; eapply D; eauto.
  - intros [n Hp]. destruct (unset_ok ns p n I Hp) as (ns' & -> & I' & E & _). rewrite bind_Ret. exists ns'.
    split_and!; auto. eapply D; eauto.
  - intros [n Hp]. unfold get_node. rewrite Hp, bind_Ret. eexists. split; [reflexivity|]. split; [|by eapply D].
    by apply (index_ok_put ns p n).
Qed.

(** A set of nodes without slots. *)
Definition no_slots (ns : redis_nodeset_t) : Prop :=
  tree (keyslots ns) = Sentinel /\ forall p n, nodes ns !! p = Some n -> slot_range_indexed n = false.

Lemma no_slots_ok ns : no_slots ns -> index_ok ns.
Proof.
  intros [Et En]. split.
  - split; [rewrite Et; split; [constructor|by intros d ?%elem_of_nil|constructor]|]. intros p r. rewrite Et. split.
    + by intros (a & ?%elem_of_nil).
    + intros (n & l & Hp & Hi & _). rewrite (En p n Hp) in Hi. done.
  - intros p n Hp Hi. rewrite (En p n Hp) in Hi. done.
Qed.

Lemma exec_all_ok ops ns :
  index_ok ns -> Forall (slots_op_ok ns) ops -> exists ns', exec_all_slots ops ns = Ret ns' /\ index_ok ns'.
Proof.
  intros I F. assert (forall ns', dom (nodes ns') = dom (nodes ns) -> Forall (slots_op_ok ns') ops) as F'.
  { intros ns' D. eapply Forall_impl; [exact F|]. intros o. unfold slots_op_ok.
    assert (forall p, is_Some (nodes ns !! p) -> is_Some (nodes ns' !! p)) as T.
    { intros p Hp. apply elem_of_dom. rewrite D. by apply elem_of_dom. }
    destruct o; [intros [? ?]|intros ?..]; auto. }
  clear F. revert ns I F'. induction ops as [|o ops IH]; intros ns I F'; cbn [exec_all_slots]; [eauto|].
  pose proof (F' ns eq_refl) as [Ho _]%Forall_cons. destruct (exec_slots_ok o ns I Ho) as (ns1 & -> & I1 & D1).
  rewrite bind_Ret. apply IH; [done|]. intros ns' D. specialize (F' ns' (eq_trans D D1)). by apply Forall_cons in F' as [_ F'].
Qed.

Lemma find_by_slot_spec ns slot :
  index_ok ns -> 0 <= slot < 65536 ->
  exists res, nodeset_node_find_by_slot ns slot = Ret res /\
    forall p, res = Some p <-> exists r, owned ns p r /\ rmin r <= slot <= rmax r.
Proof.
  intros I Hs. assert (valid (SlotRange slot slot)) as V by (unfold valid; simpl; lia).
  destruct (find_by_range_spec ns _ _ (ix_holds _ I) V) as (res & E & Hres). exists res. split; [exact E|].
  intros p. destruct res as [q|].
  - destruct Hres as (r & O & [L1 L2]). cbn [rmin rmax] in L1, L2. split; [intros [= <-]; exists r; split; [done|lia]|].
    intros (r' & O' & L'). destruct (ix_holds _ I) as [Or Ex]. apply Ex in O as (a & Ha), O' as (a' & Ha').
    assert (RangeNode a r q = RangeNode a' r' p) as Eq; [|by injection Eq as _ _ ->].
    apply (slots_ordered_unique _ _ _ Or Ha Ha'). unfold overlaps. simpl. lia.
  - split; [done|]. intros (r & O & L). exfalso. apply (Hres p r O). unfold overlaps. simpl. lia.
Qed.

(** C17.  Nodes join, leave and change their slots in any order: no step aborts,
    and afterwards a slot is found exactly when it lies in a range of an indexed
    node, and it is that node that is found. *)
Theorem keyslot_index_exact ns ops slot :
  no_slots ns -> Forall (slots_op_ok ns) ops -> 0 <= slot < 65536 ->
  exists ns' res, exec_all_slots ops ns = Ret ns' /\ nodeset_node_find_by_slot ns' slot = Ret res /\
    forall p, res = Some p <-> exists r, owned ns' p r /\ rmin r <= slot <= rmax r.
Proof.
  intros N F Hs. destruct (exec_all_ok ops ns (no_slots_ok ns N) F) as (ns' & E & I').
  destruct (find_by_slot_spec ns' slot I' Hs) as (res & E' & R). eauto.
Qed.

(** ** Is every slot served? *)

(** The slot belongs to a master that has got far enough. *)
Definition served (ns : redis_nodeset_t) (min_node_state slot : Z) : Prop :=
  exists p r n, owned ns p r /\ rmin r <= slot <= rmax r /\ nodes ns !! p = Some n /\ min_node_state <= n_state n /\
    n_role n = REDIS_NODE_ROLE_MASTER.

Lemma owner_unique ns p q r r' slot :
  index_ok ns -> owned ns p r -> owned ns q r' -> rmin r <= slot <= rmax r -> rmin r' <= slot <= rmax r' -> p = q /\ r = r'.
Proof.
  intros I O O' L L'. destruct (ix_holds _ I) as [Or Ex]. apply Ex in O as (a & Ha), O' as (a' & Ha').
  assert (RangeNode a r p = RangeNode a' r' q) as Eq; [|by injection Eq as _ -> ->].
  apply (slots_ordered_unique _ _ _ Or Ha Ha'). unfold overlaps. simpl. lia.
Qed.

Lemma space_loop_spec fuel ns st min :
  index_ok ns -> (forall p r, owned ns p r -> rmax r < 65535) -> 0 <= min -> (Z.to_nat (16384 - min) < fuel)%nat ->
  min < 65536 -> exists v, space_complete_loop fuel ns st (SlotRange min min) = Ret v /\
    (v = 1 <-> forall slot, min <= slot <= 16383 -> served ns st slot).
Proof.
  intros I Hmax. revert min. induction fuel as [|fuel IH]; intros min H0 Hf Hm; [lia|].
  cbn [space_complete_loop rmin]. destruct (Z.leb_spec min 16383).
  2:{ exists 1. split; [done|]. split; [|done]. intros _ slot Hs. lia. }
  assert (valid (SlotRange min min)) as V by (unfold valid; simpl; lia).
  destruct (slots_find_spec ns _ _ (ix_holds _ I) V) as (res & -> & Hres). rewrite bind_Ret. destruct res as [d|].
  2:{ exists 0. split; [done|]. split; [done|]. intros Sv. exfalso.
      destruct (Sv min ltac:(lia)) as (p & r & n & O & L & _). apply (Hres p r O). unfold overlaps. simpl. lia. }
  destruct Hres as (_ & [L1 L2] & O). cbn [rmin rmax] in L1, L2.
  assert (served ns st min <-> exists n, nodes ns !! sn_node d = Some n /\ st <= n_state n /\ n_role n = REDIS_NODE_ROLE_MASTER) as Sd.
  { split.
    - intros (p & r & n & O' & L & Hn & B). destruct (owner_unique ns (sn_node d) p (sn_range d) r min I O O') as [-> _]; eauto; lia.
    - intros (n & Hn & B). exists (sn_node d), (sn_range d), n. split_and!; auto; apply B. }
  pose proof O as (n & l & Hn & _). unfold get_node. rewrite Hn, bind_Ret.
  assert (st <= n_state n /\ n_role n = REDIS_NODE_ROLE_MASTER \/
          (n_state n < st \/ n_role n <> REDIS_NODE_ROLE_MASTER) /\ ~ served ns st min) as [[G1 G2]|[B Ns]].
  { destruct (decide (st <= n_state n)), (decide (n_role n = REDIS_NODE_ROLE_MASTER)); [by left|right..];
      (split; [first [by right|left; lia]|]); rewrite Sd; intros (m & Hm' & B1 & B2); rewrite Hn in Hm'; injection Hm' as <-; done || lia. }
  - destruct (Z.ltb_spec (n_state n) st); [lia|]. rewrite bool_decide_eq_true_2 by done. cbn [negb].
    pose proof (Hmax _ _ O) as Mx. rewrite wrapu_small by (unfold in_u; lia).
    destruct (IH (rmax (sn_range d) + 1)) as (v & -> & Hv); [lia|lia|lia|]. exists v. split; [done|]. rewrite Hv. split.
    + intros Sv slot Hs. destruct (decide (rmax (sn_range d) < slot)); [apply Sv; lia|].
      exists (sn_node d), (sn_range d), n. split_and!; auto; lia.
    + intros Sv slot Hs. apply Sv. lia.
  - exists 0. split; [destruct (Z.ltb_spec (n_state n) st); [done|]; destruct B as [?|B]; [lia|]; by rewrite bool_decide_eq_false_2|].
    split; [done|]. intros Sv. exfalso. apply Ns, Sv. lia.
Qed.

(** One round for each slot, and one to see that they are through. *)
Definition slot_rounds : nat := Z.to_nat 16385.

(** The test that the slots are all served ends after at most one round for
    each slot, and answers yes exactly when every slot from 0 to 16383 belongs
    to a master that has reached the given state; no range may end at the
    largest 16-bit number. *)
Theorem space_complete_decides ns st :
  index_ok ns -> (forall p r, owned ns p r -> rmax r < 65535) ->
  exists v, nodeset_cluster_keyslot_space_complete slot_rounds ns st = Ret v /\
    (v = 1 <-> forall slot, 0 <= slot <= 16383 -> served ns st slot).
Proof. intros I Hm. apply (space_loop_spec slot_rounds ns st 0 I Hm); unfold slot_rounds; lia. Qed.

Lemma space_loop_wraps fuel ns st p n :
  index_ok ns -> owned ns p (SlotRange 0 65535) -> nodes ns !! p = Some n -> st <= n_state n ->
  n_role n = REDIS_NODE_ROLE_MASTER -> space_complete_loop fuel ns st (SlotRange 0 0) = NoFuel.
Proof.
  intros I O Hn Hst Hr. induction fuel as [|fuel IH]; [done|]. cbn [space_complete_loop rmin].
  cbn [Z.leb Z.compare].
  assert (valid (SlotRange 0 0)) as V by (unfold valid; simpl; lia).
  destruct (slots_find_spec ns _ _ (ix_holds _ I) V) as (res & -> & Hres). rewrite bind_Ret. destruct res as [d|].
  2:{ exfalso. apply (Hres p _ O). unfold overlaps. simpl. lia. }
  destruct Hres as (_ & [L1 L2] & O'). cbn [rmin rmax] in L1, L2.
  pose proof (holds_valid _ _ _ _ (ix_holds _ I) O') as Vd. unfold valid in Vd.
  destruct (owner_unique ns (sn_node d) p (sn_range d) _ 0 I O' O) as [-> ->]; [lia|simpl; lia|].
  unfold get_node. rewrite Hn, bind_Ret. destruct (Z.ltb_spec (n_state n) st); [lia|].
  rewrite bool_decide_eq_true_2 by done. exact IH.
Qed.

(** A range that ends at 65535, which is what a number that cannot be parsed
    becomes in the 16-bit field, makes the test run for ever when its node is a
    master that is ready: the next slot wraps around to 0. *)
Theorem space_complete_never_returns ns st p n :
  index_ok ns -> owned ns p (SlotRange 0 65535) -> nodes ns !! p = Some n -> st <= n_state n ->
  n_role n = REDIS_NODE_ROLE_MASTER -> forall fuel, nodeset_cluster_keyslot_space_complete fuel ns st = NoFuel.
Proof. intros I O Hn Hst Hr fuel. by apply (space_loop_wraps fuel ns st p n). Qed.
End runs.

(** *** Two masters *)

#[export] Instance slot_tree : NgxRbtree redis_nodeset_slot_range_node_t := rbtree_reference.

Definition master : redis_node_t := RNode REDIS_NODE_READY REDIS_NODE_ROLE_MASTER true None 0 false.
Definition two_masters : redis_nodeset_t :=
  Nodeset true (Seed Sentinel 0 0) [1%positive; 2%positive] (list_to_map [(1%positive, master); (2%positive, master)]) 1%positive.

Definition example_slots : list slots_op :=
  [SetSlots 1 1 (Some [SlotRange 0 8000]); SetSlots 2 2 (Some [SlotRange 8001 9000; SlotRange 9001 16383])].
Definition run_slots (ops : list slots_op) : redis_nodeset_t :=
  match exec_all_slots ops two_masters with Ret ns => ns | _ => two_masters end.

Lemma two_masters_no_slots : no_slots two_masters.
Proof.
  split; [done|]. intros p n. unfold two_masters. cbn [nodes list_to_map foldr fst snd].
  rewrite !lookup_insert_Some, lookup_empty. intros [[_ <-]|[_ [[_ <-]|[_ [=]]]]]; done.
Qed.

Lemma one_range_ok a b : 0 <= a <= b -> b < 65536 -> disjoint_ranges [SlotRange a b].
Proof.
  intros Ha Hb. split.
  - intros r ->%list_elem_of_singleton. unfold valid. simpl. lia.
  - intros [|i] [|j] r r' Hi Hj N; try done; discriminate Hi || discriminate Hj.
Qed.

Lemma example_slots_ok : Forall (slots_op_ok two_masters) example_slots.
Proof.
  constructor; [|constructor; [|constructor]]; (split; [vm_compute; eauto|]); (split; [lia|]); intros l [= <-]; (split; [done|]).
  - apply one_range_ok; lia.
  - split.
    + intros r [->|[->|[]%elem_of_nil]%elem_of_cons]%elem_of_cons; unfold valid; simpl; lia.
    + intros [|[|i]] [|[|j]] r r' Hi Hj N; try done; injection Hi as <-; injection Hj as <-; unfold overlaps; simpl; lia.
Qed.

Lemma keyslot_index_exact_witness :
  exists res, nodeset_node_find_by_slot (run_slots example_slots) 8500 = Ret res /\ res = Some 2%positive.
Proof.
  destruct (keyslot_index_exact two_masters example_slots 8500 two_masters_no_slots example_slots_ok ltac:(lia))
    as (ns' & res & E & E' & R).
  exists res. unfold run_slots. rewrite E. split; [exact E'|]. apply R.
  exists (SlotRange 8001 9000). split; [|simpl; lia].
  assert (ns' = run_slots example_slots) as -> by (unfold run_slots; by rewrite E).
  eexists _, _. split; [vm_compute; reflexivity|]. split; [reflexivity|]. split; [reflexivity|].
  apply elem_of_cons. by left.
Defined.

Lemma run_slots_ok ops : Forall (slots_op_ok two_masters) ops -> index_ok (run_slots ops).
Proof.
  intros F. destruct (exec_all_ok ops two_masters (no_slots_ok _ two_masters_no_slots) F) as (ns' & E & I).
  unfold run_slots. by rewrite E.
Qed.

(** The nodes after a run of the example. *)
Lemma owned_bound ns bound :
  map_Forall (fun _ n => match slot_range n with Some l => Forall (fun r => rmax r < bound) l | None => True end) (nodes ns) ->
  forall p r, owned ns p r -> rmax r < bound.
Proof.
  intros M p r (n & l & Hn & _ & El & Hr). specialize (M p n Hn). cbn beta in M. rewrite El, Forall_forall in M. by apply M.
Qed.

Lemma space_complete_decides_witness :
  exists v, nodeset_cluster_keyslot_space_complete slot_rounds (run_slots example_slots) REDIS_NODE_READY = Ret v /\ v = 1.
Proof.
  destruct (space_complete_decides (run_slots example_slots) REDIS_NODE_READY (run_slots_ok _ example_slots_ok)) as (v & E & _).
  - apply owned_bound. apply map_Forall_to_list. vm_compute. repeat constructor.
  - exists v. split; [exact E|].
    assert (nodeset_cluster_keyslot_space_complete slot_rounds (run_slots example_slots) REDIS_NODE_READY = Ret 1) as E1
      by (vm_compute; reflexivity). congruence.
Defined.

Lemma space_complete_never_returns_witness :
  nodeset_cluster_keyslot_space_complete 1000 (run_slots [SetSlots 1 1 (Some [SlotRange 0 65535])]) REDIS_NODE_READY = NoFuel.
Proof.
  eapply (space_complete_never_returns (run_slots [SetSlots 1 1 (Some [SlotRange 0 65535])]) REDIS_NODE_READY 1%positive).
  - apply run_slots_ok. constructor; [|constructor]. split; [vm_compute; eauto|]. split; [lia|]. intros l [= <-].
    split; [done|]. apply one_range_ok; lia.
  - eexists _, _. split; [vm_compute; reflexivity|]. split; [reflexivity|]. split; [reflexivity|]. apply elem_of_cons. by left.
  - vm_compute. reflexivity.
  - reflexivity.
  - reflexivity.
Defined.

(** A node whose ranges were refused keeps their number without the ranges: the
    test of a channel against it reads through a NULL pointer. *)
Lemma refused_ranges_dereferenced chid :
  exists ns', node_set_cluster_slots (run_slots example_slots) 1 1 (Some [SlotRange 9000 9000]) = Ret (ns', 0) /\
    node_channel_in_keyspace ns' 1 chid = Crash.
Proof. eexists. split; [vm_compute; reflexivity|]. reflexivity. Qed.
