(* ===== verification/ClusterNodes.v ===== *)
(** * The CLUSTER NODES reply ([store/redis/redis_nodeset_parser.c])

    One line for each node of a Redis Cluster; the slots of a master are ranges
    separated by spaces.  The parsed lines are collected in a static array of
    512 entries. *)

From S2P Require Import Prelude Nginx Scan ClusterSlots.
Open Scope Z_scope.

Definition MAX_CLUSTER_NODE_PARSED_LINES : Z := 512.

(** Strings are values; [None] is a NULL [data]. *)
Record cluster_nodes_line_t := Line {
  l_line : bytes;
  l_id : bytes;
  l_address : bytes;
  l_hostname : bytes;
  l_port : Z;
  l_flags : bytes;
  l_master_id : bytes;
  l_ping_sent : bytes;
  l_pong_recv : bytes;
  l_config_epoch : bytes;
  l_link_state : bytes;
  l_slots : bytes;
  l_slot_ranges_count : Z;
  l_connected : bool;
  l_master : bool;
  l_noaddr : bool;
  l_failed : bool;
  l_maybe_failed : bool;
  l_handshake : bool;
  l_self : bool;
}.

Section parser.
Context `{NgxString}.

(** [nchan_scan_str(str, cur, ' ', &slot)] on what is left from [cur]. *)
Definition scan_slot (cur : bytes) : bytes * bytes :=
  match memchr cur ch_space with
  | Some k => (take k cur, drop (S k) cur)
  | None => (cur, [])
  end.

(** The range of a slot or of two numbers with a dash; the fields keep 16 bits
    of what [ngx_atoi] returns, [NGX_ERROR] included. *)
Definition slot_range_of (slot : bytes) : redis_slot_range_t :=
  let '(slot_min_str, slot_max_str) :=
    match memchr slot ch_dash with
    | Some dash => (take dash slot, drop (S dash) slot)
    | None => (slot, slot)
    end in
  SlotRange (u16 (ngx_atoi slot_min_str)) (u16 (ngx_atoi slot_max_str)).

(** What is left from [cur] is a suffix of the string; at its end the scan
    returns NULL.  The recursion skips the slots in brackets.  An empty slot
    (two spaces) is followed by the space that ends it, which is not a bracket. *)
Fixpoint nodeset_parser_scan_cluster_nodes_slots_string (fuel : nat) (cur : bytes) :
    outcome (option (redis_slot_range_t * bytes)) :=
  match fuel with
  | O => NoFuel
  | S fuel' =>
      match cur with
      | [] => Ret None
      | c :: _ =>
          let '(slot, cur') := scan_slot cur in
          if c =? ch_lbracket then nodeset_parser_scan_cluster_nodes_slots_string fuel' cur'
          else Ret (Some (slot_range_of slot, cur'))
      end
  end.

Definition scan_slots (cur : bytes) := nodeset_parser_scan_cluster_nodes_slots_string (S (length cur)) cur.

(** [while((cur = ...) != NULL) i++]. *)
Fixpoint count_slots (fuel : nat) (cur : bytes) : outcome Z :=
  match fuel with
  | O => NoFuel
  | S fuel' =>
      found ← scan_slots cur;
      match found with
      | None => Ret 0
      | Some (_, cur') => n ← count_slots fuel' cur'; Ret (n + 1)
      end
  end.

(** [ranges] was allocated for [slot_ranges_count] ranges: a store beyond is an
    error.  The result says whether the line was as expected. *)
Fixpoint parse_slots_loop (fuel : nat) (slot_ranges_count i : Z) (cur : bytes) (ranges : list redis_slot_range_t) :
    outcome (Z * list redis_slot_range_t) :=
  match fuel with
  | O => NoFuel
  | S fuel' =>
      found ← scan_slots cur;
      match found with
      | None => Ret (if negb (i =? slot_ranges_count) then 0 else 1, ranges)
      | Some (range, cur') =>
          if slot_ranges_count <? i then Ret (0, ranges)
          else
            c_assert (i <? slot_ranges_count);;     (* ranges[i] = range *)
            parse_slots_loop fuel' slot_ranges_count (i + 1) cur' (ranges ++ [range])
      end
  end.
Definition parse_cluster_node_slots (l : cluster_nodes_line_t) : outcome (Z * list redis_slot_range_t) :=
  parse_slots_loop (S (length (l_slots l))) (l_slot_ranges_count l) 0 (l_slots l) [].

(** The address without what follows the last "@", and its last colon. *)
Definition cut_address (address : bytes) : bytes :=
  match memrchr address ch_at with Some k => take k address | None => address end.

(** [l] holds what the fields were before: a line without a colon in its address
    leaves the host and the port, a line flagged "fail?" leaves [failed].
    The result is the rest of the reply, or [None] at its end. *)
Definition nodeset_parser_scan_cluster_nodes_line (line : bytes) (l : cluster_nodes_line_t) :
    outcome (option bytes * cluster_nodes_line_t) :=
  match line with
  | [] => Ret (None, l)
  | _ =>
      let '(rest_line, max) := nchan_scan_split_by_chr line ch_nl in
      let whole := match rest_line with Some s => s | None => [] end in
      let '(id, r1) := nchan_scan_until_chr_on_line whole ch_space in
      let '(address, r2) := nchan_scan_until_chr_on_line r1 ch_space in
      let '(flags, r3) := nchan_scan_until_chr_on_line r2 ch_space in
      let '(master_id, r4) := nchan_scan_until_chr_on_line r3 ch_space in
      let '(ping_sent, r5) := nchan_scan_until_chr_on_line r4 ch_space in
      let '(pong_recv, r6) := nchan_scan_until_chr_on_line r5 ch_space in
      let '(config_epoch, r7) := nchan_scan_until_chr_on_line r6 ch_space in
      let '(link_state, r8) := nchan_scan_until_chr_on_line r7 ch_space in
      let master := nchan_ngx_str_char_substr flags (bytes_of "master") in
      let slots := if master then r8 else [] in
      n ← (if master then count_slots (S (length r8)) r8 else Ret 0);
      let maybe_failed := nchan_ngx_str_char_substr flags (bytes_of "fail?") in
      let failed := if maybe_failed then l_failed l else nchan_ngx_str_char_substr flags (bytes_of "fail") in
      let address' := cut_address address in
      let '(hostname, port) :=
        match memrchr address' ch_colon with
        | Some k => (take k address', ngx_atoi (drop (S k) address'))
        | None => (l_hostname l, l_port l)
        end in
      Ret (Some max,
           Line whole id address' hostname port flags master_id ping_sent pong_recv config_epoch link_state slots n
             (bool_decide (link_state !! 0%nat = Some 99)) master
             (nchan_ngx_str_char_substr flags (bytes_of "noaddr")) failed maybe_failed
             (nchan_ngx_str_char_substr flags (bytes_of "handshake"))
             (nchan_ngx_str_char_substr flags (bytes_of "myself")))
  end.

(** [cluster_node_parsed_lines[n] = l] is a store into an array of
    [MAX_CLUSTER_NODE_PARSED_LINES] entries. *)
Fixpoint parse_lines_loop (fuel : nat) (line : bytes) (l : cluster_nodes_line_t) (n : Z) (parsed : list cluster_nodes_line_t) :
    outcome (list cluster_nodes_line_t) :=
  match fuel with
  | O => NoFuel
  | S fuel' =>
      '(rest, l') ← nodeset_parser_scan_cluster_nodes_line line l;
      match rest with
      | None => Ret parsed
      | Some rest =>
          if MAX_CLUSTER_NODE_PARSED_LINES <? n then parse_lines_loop fuel' rest l' n parsed
          else
            c_assert (n <? MAX_CLUSTER_NODE_PARSED_LINES);;
            parse_lines_loop fuel' rest l' (n + 1) (parsed ++ [l'])
      end
  end.

(** [uninit] is what the local variable [l] holds before the first line. *)
Definition parse_cluster_nodes (uninit : cluster_nodes_line_t) (clusternodes : bytes) : outcome (list cluster_nodes_line_t) :=
  parse_lines_loop (S (length clusternodes)) clusternodes uninit 0 [].
End parser.

(** ** Replies as Redis prints them *)

(** What stands among the slots: a range, or a slot that migrates, in brackets. *)
Inductive slot_text :=
  | Served (r : redis_slot_range_t)
  | Migrating (s : bytes).

Definition print_slot (t : slot_text) : bytes :=
  match t with
  | Served r => if rmin r =? rmax r then dec (rmin r) else dec (rmin r) ++ ch_dash :: dec (rmax r)
  | Migrating s => ch_lbracket :: s
  end.

Fixpoint served (ts : list slot_text) : list redis_slot_range_t :=
  match ts with
  | [] => []
  | Served r :: ts => r :: served ts
  | Migrating _ :: ts => served ts
  end.

(** Fields separated by spaces. *)
Fixpoint spaced (fs : list bytes) : bytes :=
  match fs with
  | [] => []
  | f :: fs => match fs with [] => f | _ => f ++ ch_space :: spaced fs end
  end.

Record node_text := NodeText {
  t_id : bytes; t_host : bytes; t_port : Z; t_cport : bytes; t_flags : bytes; t_master_id : bytes;
  t_ping : bytes; t_pong : bytes; t_epoch : bytes; t_link : bytes; t_slots : list slot_text;
}.
Definition print_address (t : node_text) : bytes := t_host t ++ ch_colon :: dec (t_port t) ++ ch_at :: t_cport t.
Definition print_fields (t : node_text) : list bytes :=
  [t_id t; print_address t; t_flags t; t_master_id t; t_ping t; t_pong t; t_epoch t; t_link t].
Definition print_line (t : node_text) : bytes := spaced (print_fields t ++ (print_slot <$> t_slots t)).
Fixpoint print_reply (ts : list node_text) : bytes :=
  match ts with [] => [] | t :: ts => print_line t ++ ch_nl :: print_reply ts end.

(** The fields contain neither spaces nor newlines. *)
Definition plain (f : bytes) : Prop := ch_space ∉ f /\ ch_nl ∉ f.
Definition slot_text_ok (t : slot_text) : Prop :=
  match t with
  | Served r => (0 <= rmin r < 65536) /\ (0 <= rmax r < 65536)
  | Migrating s => plain s
  end.
Record node_text_ok (t : node_text) : Prop := {
  ok_fields : Forall plain [t_id t; t_host t; t_cport t; t_flags t; t_master_id t; t_ping t; t_pong t; t_epoch t; t_link t];
  ok_cport : ch_at ∉ t_cport t;
  ok_port : 0 <= t_port t <= NGX_MAX_INT_T_VALUE;
  ok_slots : Forall slot_text_ok (t_slots t);
}.

(** ** Scanning what was printed *)

Lemma dec_absent n c : 0 <= n -> is_digit c = false -> c ∉ dec n.
Proof.
  intros Hn Hc Hin. destruct (dec_spec n Hn) as (_ & F & _). rewrite Forall_forall in F. by rewrite (F c Hin) in Hc.
Qed.

Lemma memrchr_loop_app s1 s2 c n :
  c ∉ s2 -> (length s1 < n)%nat -> memrchr_loop (s1 ++ c :: s2) c n = Some (length s1).
Proof.
  intros N. induction n as [|n IH]; intros L; [lia|]. cbn [memrchr_loop].
  destruct (decide ((s1 ++ c :: s2) !! n = Some c)) as [E|E].
  - f_equal. destruct (decide (n = length s1)) as [|Ne]; [done|]. exfalso. apply N.
    rewrite lookup_app_r in E by lia. rewrite lookup_cons_ne_0 in E by lia. by eapply list_elem_of_lookup_2.
  - apply IH. destruct (decide (n = length s1)) as [->|]; [|lia]. by rewrite list_lookup_middle in E.
Qed.

Lemma memrchr_app s1 s2 c : c ∉ s2 -> memrchr (s1 ++ c :: s2) c = Some (length s1).
Proof. intros N. apply memrchr_loop_app; [done|]. rewrite length_app. simpl. lia. Qed.

Lemma until_space f fs : ch_space ∉ f -> nchan_scan_until_chr_on_line (spaced (f :: fs)) ch_space = (f, spaced fs).
Proof.
  intros N. unfold nchan_scan_until_chr_on_line. cbn [spaced]. destruct fs as [|f' fs].
  - by rewrite (proj2 (memchr_None _ _) N).
  - by rewrite memchr_app, take_app_length, drop_cut by done.
Qed.

Lemma plain_spaced fs : Forall plain fs -> ch_nl ∉ spaced fs.
Proof.
  induction 1 as [|f fs [_ N] F IH]; [by intros ?%elem_of_nil|]. cbn [spaced]. destruct fs; [done|].
  intros [?|[?|?]%elem_of_cons]%elem_of_app; done.
Qed.

Lemma spaced_length fs : Forall (fun f => f <> []) fs -> (length fs <= length (spaced fs))%nat.
Proof.
  induction 1 as [|f fs N F IH]; [done|]. cbn [spaced]. destruct fs as [|g fs].
  - destruct f; [done|simpl; lia].
  - rewrite length_app. cbn [length] in *. lia.
Qed.

Lemma plain_dec n : 0 <= n -> plain (dec n).
Proof. split; by apply dec_absent. Qed.

Lemma plain_app a b : plain a -> plain b -> plain (a ++ b).
Proof. unfold plain. set_solver. Qed.

Lemma plain_cons c a : c <> ch_space -> c <> ch_nl -> plain a -> plain (c :: a).
Proof. unfold plain. set_solver. Qed.

Lemma print_slot_plain t : slot_text_ok t -> plain (print_slot t) /\ print_slot t <> [].
Proof.
  destruct t as [r|s]; cbn [print_slot slot_text_ok].
  - intros [Hm HM]. destruct (dec_spec (rmin r)) as (Ne & _); [lia|]. destruct (_ =? _); split; auto using plain_dec.
    + apply plain_dec. lia.
    + apply plain_app; [apply plain_dec; lia|]. apply plain_cons; [done..|]. apply plain_dec. lia.
    + by destruct (dec (rmin r)).
  - intros P. split; [|done]. by apply plain_cons.
Qed.

Section printed.
Context `{NgxString}.

Lemma slot_range_of_print r : slot_text_ok (Served r) -> slot_range_of (print_slot (Served r)) = r.
Proof.
  intros [Hm HM]. cbn [print_slot]. unfold slot_range_of, NGX_MAX_INT_T_VALUE in *.
  assert (forall n, 0 <= n < 65536 -> u16 (ngx_atoi (dec n)) = n) as A.
  { intros n Hn. rewrite ngx_atoi_dec by (unfold NGX_MAX_INT_T_VALUE; lia). apply wrapu_small. unfold in_u. lia. }
  destruct (Z.eqb_spec (rmin r) (rmax r)) as [E|E].
  - rewrite (proj2 (memchr_None _ _)) by (apply dec_absent; [lia|done]). rewrite A by done. destruct r; simpl in *; congruence.
  - rewrite memchr_app by (apply dec_absent; [lia|done]). rewrite take_app_length, drop_cut, !A by done. by destruct r.
Qed.

(** The first range, and the slots after it. *)
Fixpoint next_served (ts : list slot_text) : option (redis_slot_range_t * list slot_text) :=
  match ts with
  | [] => None
  | Served r :: ts => Some (r, ts)
  | Migrating _ :: ts => next_served ts
  end.

Notation text ts := (spaced (print_slot <$> ts)).

Lemma text_cons t ts : slot_text_ok t -> exists c s, text (t :: ts) = c :: s /\
  scan_slot (c :: s) = (print_slot t, text ts) /\ (c =? ch_lbracket) = match t with Served _ => false | Migrating _ => true end.
Proof.
  intros Ok. destruct (print_slot_plain t Ok) as [[N _] Ne]. pose proof (until_space (print_slot t) (print_slot <$> ts) N) as E.
  destruct (print_slot t) as [|c s] eqn:Ep; [done|]. exists c. eexists. split; [|split].
  - rewrite fmap_cons, Ep. cbn [spaced]. instantiate (1 := match print_slot <$> ts with [] => s | _ => s ++ ch_space :: text ts end).
    by destruct (print_slot <$> ts).
  - revert E. cbn [spaced]. unfold nchan_scan_until_chr_on_line, scan_slot.
    destruct (print_slot <$> ts); cbn [app]; by destruct (memchr _ _).
  - destruct t as [r|m]; cbn [print_slot] in Ep.
    + destruct Ok as [Hm _]. destruct (dec_spec (rmin r)) as (Nd & F & _); [lia|]. destruct (dec (rmin r)) as [|d ds]; [done|].
      apply Forall_cons in F as [F _]. assert (d = c) as -> by (destruct (_ =? _); simpl in Ep; congruence).
      apply Z.eqb_neq. intros ->. done.
    + injection Ep as <- <-. done.
Qed.

Lemma scan_slots_fuel fuel ts : (length ts < fuel)%nat -> Forall slot_text_ok ts ->
  nodeset_parser_scan_cluster_nodes_slots_string fuel (text ts) =
    Ret (match next_served ts with Some (r, ts') => Some (r, text ts') | None => None end).
Proof.
  revert fuel. induction ts as [|t ts IH]; intros fuel L F; (destruct fuel as [|fuel]; [simpl in *; lia|]); [done|].
  apply Forall_cons in F as [Ok F]. destruct (text_cons t ts Ok) as (c & s & -> & Es & Eb).
  cbn [nodeset_parser_scan_cluster_nodes_slots_string]. rewrite Es, Eb. destruct t as [r|m].
  - by rewrite slot_range_of_print.
  - rewrite IH by (simpl in *; done || lia). done.
Qed.

Lemma text_length ts : Forall slot_text_ok ts -> (length ts <= length (text ts))%nat.
Proof.
  intros F. rewrite <- (length_fmap print_slot ts) at 1. apply spaced_length. apply Forall_fmap.
  eapply Forall_impl; [exact F|]. intros t Ok. by apply print_slot_plain.
Qed.

Lemma scan_slots_text ts : Forall slot_text_ok ts ->
  scan_slots (text ts) = Ret (match next_served ts with Some (r, ts') => Some (r, text ts') | None => None end).
Proof. intros F. apply scan_slots_fuel; [|done]. pose proof (text_length ts F). lia. Qed.

Lemma next_served_spec ts : Forall slot_text_ok ts ->
  match next_served ts with
  | None => served ts = []
  | Some (r, ts') => served ts = r :: served ts' /\ (length ts' < length ts)%nat /\ Forall slot_text_ok ts'
  end.
Proof.
  induction 1 as [|[r|m] ts Ok F IH]; cbn [next_served served]; [done| |].
  - split_and!; auto with arith.
  - destruct (next_served ts) as [[r ts']|]; [|done]. destruct IH as (? & ? & ?). split_and!; auto. simpl. lia.
Qed.

Lemma count_slots_text fuel ts : (length ts < fuel)%nat -> Forall slot_text_ok ts ->
  count_slots fuel (text ts) = Ret (Z.of_nat (length (served ts))).
Proof.
  revert ts. induction fuel as [|fuel IH]; intros ts L F; [lia|]. cbn [count_slots]. rewrite scan_slots_text by done.
  rewrite bind_Ret. pose proof (next_served_spec ts F) as N. destruct (next_served ts) as [[r ts']|]; [|by rewrite N].
  destruct N as (-> & L' & F'). rewrite IH by (done || lia). simpl. f_equal. lia.
Qed.

Lemma parse_slots_text fuel ts n i ranges : (length ts < fuel)%nat -> Forall slot_text_ok ts ->
  n = i + Z.of_nat (length (served ts)) -> parse_slots_loop fuel n i (text ts) ranges = Ret (1, ranges ++ served ts).
Proof.
  revert ts i ranges. induction fuel as [|fuel IH]; intros ts i ranges L F En; [lia|]. cbn [parse_slots_loop].
  rewrite scan_slots_text by done. rewrite bind_Ret. pose proof (next_served_spec ts F) as N.
  destruct (next_served ts) as [[r ts']|].
  - destruct N as (Es & L' & F'). rewrite Es in *. cbn [length] in En. destruct (Z.ltb_spec n i); [lia|].
    unfold c_assert. rewrite (proj2 (Z.ltb_lt _ _)) by lia. rewrite bind_Ret, IH by (done || lia).
    by rewrite <- app_assoc.
  - rewrite N in *. cbn [length] in En. by rewrite app_nil_r, (proj2 (Z.eqb_eq _ _)) by lia.
Qed.

(** What is recorded of a node whose line was printed; [before] is the [failed]
    flag of the line before, which a line flagged "fail?" keeps. *)
Record says (before : bool) (t : node_text) (l : cluster_nodes_line_t) : Prop := {
  says_id : l_id l = t_id t;
  says_host : l_hostname l = t_host t;
  says_port : l_port l = t_port t;
  says_master_id : l_master_id l = t_master_id t;
  says_connected : l_connected l = bool_decide (t_link t !! 0%nat = Some 99);
  says_master : l_master l = nchan_ngx_str_char_substr (t_flags t) (bytes_of "master");
  says_self : l_self l = nchan_ngx_str_char_substr (t_flags t) (bytes_of "myself");
  says_maybe_failed : l_maybe_failed l = nchan_ngx_str_char_substr (t_flags t) (bytes_of "fail?");
  says_failed : l_failed l =
    if nchan_ngx_str_char_substr (t_flags t) (bytes_of "fail?") then before
    else nchan_ngx_str_char_substr (t_flags t) (bytes_of "fail");
  says_count : l_slot_ranges_count l = if l_master l then Z.of_nat (length (served (t_slots t))) else 0;
  says_slots : parse_cluster_node_slots l = Ret (1, if l_master l then served (t_slots t) else []);
}.

(** Line by line, each after the one before. *)
Fixpoint reply_says (before : bool) (ts : list node_text) (ls : list cluster_nodes_line_t) : Prop :=
  match ts, ls with
  | [], [] => True
  | t :: ts, l :: ls => says before t l /\ reply_says (l_failed l) ts ls
  | _, _ => False
  end.

Lemma plain_address t : node_text_ok t -> plain (print_address t).
Proof.
  intros [F _ Hp _]. rewrite !Forall_cons in F. destruct F as (_ & ? & ? & _). unfold print_address.
  apply plain_app; [done|]. apply plain_cons; [done..|]. apply plain_app; [apply plain_dec; lia|]. by apply plain_cons.
Qed.

Lemma print_line_plain t : node_text_ok t -> ch_nl ∉ print_line t /\ exists c s, print_line t = c :: s.
Proof.
  intros Ok. split.
  - apply plain_spaced, Forall_app. split.
    + pose proof (plain_address t Ok). destruct Ok as [F _ _ _]. rewrite !Forall_cons in F. unfold print_fields.
      rewrite !Forall_cons. tauto.
    + apply Forall_fmap. eapply Forall_impl; [exact (ok_slots t Ok)|]. intros x Hx. by apply print_slot_plain.
  - unfold print_line, print_fields. cbn [app spaced]. destruct (t_id t); simpl; eauto.
Qed.

Lemma address_parts t : node_text_ok t ->
  cut_address (print_address t) = t_host t ++ ch_colon :: dec (t_port t) /\
  memrchr (t_host t ++ ch_colon :: dec (t_port t)) ch_colon = Some (length (t_host t)).
Proof.
  intros [_ Nc Hp _]. split; [|apply memrchr_app, dec_absent; [lia|done]].
  unfold cut_address, print_address. rewrite app_comm_cons, app_assoc.
  rewrite memrchr_app by done. by rewrite take_app_length.
Qed.

Lemma scan_line_printed t rest l : node_text_ok t ->
  exists l', nodeset_parser_scan_cluster_nodes_line (print_line t ++ ch_nl :: rest) l = Ret (Some rest, l') /\ says (l_failed l) t l'.
Proof.
  intros Ok. destruct (print_line_plain t Ok) as (N & c & s & E). pose proof (plain_address t Ok) as Pa.
  destruct (address_parts t Ok) as [Ec Ea]. pose proof (ok_slots t Ok) as Fs. pose proof (text_length _ Fs) as Ls.
  unfold nodeset_parser_scan_cluster_nodes_line. unfold nchan_scan_split_by_chr. rewrite memchr_app by done.
  rewrite E. cbn [app]. rewrite !app_comm_cons, take_app_length, drop_cut, <- E. clear c s E.
  unfold print_line, print_fields. cbn [app].
  pose proof (ok_fields t Ok) as F. rewrite !Forall_cons in F.
  destruct F as ([? _] & _ & _ & [? _] & [? _] & [? _] & [? _] & [? _] & [? _] & _).
  do 8 (rewrite until_space by (done || apply Pa); cbn iota beta). rewrite Ec, Ea, take_app_length, drop_cut.
  rewrite ngx_atoi_dec by apply Ok.
  destruct (nchan_ngx_str_char_substr (t_flags t) (bytes_of "master")) eqn:Em.
  - rewrite count_slots_text, bind_Ret by (done || lia). eexists. split; [reflexivity|].
    split; cbn [l_id l_hostname l_port l_master_id l_connected l_master l_self l_maybe_failed l_failed l_slot_ranges_count]; try done.
    unfold parse_cluster_node_slots. cbn [l_slots l_slot_ranges_count l_master]. rewrite parse_slots_text by (done || lia). done.
  - rewrite bind_Ret. eexists. split; [reflexivity|]. split; cbn; done.
Qed.

Lemma parse_lines_printed fuel ts l n parsed :
  (length ts < fuel)%nat -> Forall node_text_ok ts -> n = Z.of_nat (length parsed) -> 0 <= n ->
  if decide (n + Z.of_nat (length ts) <= MAX_CLUSTER_NODE_PARSED_LINES)
  then exists ls, parse_lines_loop fuel (print_reply ts) l n parsed = Ret (parsed ++ ls) /\ reply_says (l_failed l) ts ls
  else n <= MAX_CLUSTER_NODE_PARSED_LINES -> parse_lines_loop fuel (print_reply ts) l n parsed = Crash.
Proof.
  revert fuel l n parsed. induction ts as [|t ts IH]; intros fuel l n parsed L F En Hn;
    (destruct fuel as [|fuel]; [simpl in *; lia|]); cbn [print_reply].
  { cbn [length]. destruct (decide _); [|lia]. exists []. by rewrite app_nil_r. }
  apply Forall_cons in F as [Ok F]. destruct (scan_line_printed t (print_reply ts) l Ok) as (l' & El & Sy).
  specialize (IH fuel l' (n + 1) (parsed ++ [l'])). rewrite length_app in IH. cbn [length parse_lines_loop] in *. rewrite El, bind_Ret.
  unfold c_assert, MAX_CLUSTER_NODE_PARSED_LINES in *.
  destruct (decide (n + Z.of_nat (S (length ts)) <= 512)) as [B|B].
  - rewrite (proj2 (Z.ltb_ge _ _)), (proj2 (Z.ltb_lt _ _)), bind_Ret by lia.
    rewrite decide_True in IH by lia. destruct IH as (ls & -> & F2); [lia|done|lia..|].
    exists (l' :: ls). rewrite <- app_assoc. cbn [reply_says]. auto.
  - intros B'. rewrite (proj2 (Z.ltb_ge _ _)) by lia. destruct (Z.ltb_spec n 512) as [Ln|Ln]; [|done]. rewrite bind_Ret.
    rewrite decide_False in IH by lia. apply IH; lia || done.
Qed.

Lemma print_reply_length ts : Forall node_text_ok ts -> (length ts <= length (print_reply ts))%nat.
Proof. induction 1 as [|t ts Ok F IH]; cbn [print_reply length]; [lia|]. rewrite length_app. cbn [length]. lia. Qed.

(** C36.  A CLUSTER NODES reply of at most 512 lines, printed with the fields and
    slots of its nodes, is parsed to what was printed, in order, and the ranges
    that are parsed next fill exactly the block allocated for them.  Each flag is
    what the line says but for [failed] of a line flagged "fail?", which is that
    of the line before, or what [uninit] held if there is none. *)
Theorem cluster_nodes_roundtrip uninit ts :
  Forall node_text_ok ts -> Z.of_nat (length ts) <= MAX_CLUSTER_NODE_PARSED_LINES ->
  exists ls, parse_cluster_nodes uninit (print_reply ts) = Ret ls /\ reply_says (l_failed uninit) ts ls.
Proof.
  intros F B. pose proof (parse_lines_printed (S (length (print_reply ts))) ts uninit 0 []) as P.
  rewrite decide_True in P by done. apply P; [|done..]. pose proof (print_reply_length ts F). lia.
Qed.

(** With one line more than the array of 512 entries holds, the parser writes
    past it: the test is for more than 512 lines before the one at hand. *)
Theorem cluster_nodes_overflow uninit ts :
  Forall node_text_ok ts -> MAX_CLUSTER_NODE_PARSED_LINES < Z.of_nat (length ts) ->
  parse_cluster_nodes uninit (print_reply ts) = Crash.
Proof.
  intros F B. pose proof (parse_lines_printed (S (length (print_reply ts))) ts uninit 0 []) as P.
  rewrite decide_False in P by lia. apply P; [|done..]. pose proof (print_reply_length ts F). lia.
Qed.
End printed.

(** ** Examples *)

Definition example_master : node_text :=
  NodeText (bytes_of "07c37df") (bytes_of "127.0.0.1") 30004 (bytes_of "31004") (bytes_of "myself,master")
    (bytes_of "-") (bytes_of "0") (bytes_of "1426238317239") (bytes_of "4") (bytes_of "connected")
    [Served (SlotRange 0 5460); Migrating (bytes_of "93-<-292f8b3]"); Served (SlotRange 16383 16383)].
Definition example_node (flags : bytes) : node_text :=
  NodeText (bytes_of "6ec2392") (bytes_of "127.0.0.1") 30005 (bytes_of "31005") flags
    (bytes_of "07c37df") (bytes_of "0") (bytes_of "1426238316232") (bytes_of "5") (bytes_of "disconnected") [].
Definition no_line : cluster_nodes_line_t :=
  Line [] [] [] [] 0 [] [] [] [] [] [] [] 0 false false false false false false false.

Local Ltac absent_by_compute :=
  intros Hin; vm_compute in Hin; repeat (apply elem_of_cons in Hin as [Hin|Hin]; [discriminate|]); by apply elem_of_nil in Hin.

Lemma example_master_ok : node_text_ok example_master.
Proof.
  split.
  - repeat constructor; absent_by_compute.
  - absent_by_compute.
  - unfold NGX_MAX_INT_T_VALUE. simpl. lia.
  - repeat constructor; simpl; try lia; absent_by_compute.
Qed.

Lemma cluster_nodes_roundtrip_witness :
  exists ls, parse_cluster_nodes no_line (print_reply [example_master]) = Ret ls /\ reply_says false [example_master] ls.
Proof.
  apply (cluster_nodes_roundtrip no_line [example_master]); [|vm_compute; discriminate].
  constructor; [apply example_master_ok|constructor].
Defined.

Lemma cluster_nodes_overflow_witness :
  parse_cluster_nodes no_line (print_reply (repeat example_master (Z.to_nat 513))) = Crash.
Proof.
  apply cluster_nodes_overflow; [|].
  - apply Forall_forall. intros t Ht. apply list_elem_of_In, repeat_spec in Ht as ->. apply example_master_ok.
  - rewrite repeat_length. vm_compute. reflexivity.
Defined.

(** The parser's one line record is reused: a node that may have failed, after
    one that failed, is recorded as failed. *)
Definition failed_flags (uninit : cluster_nodes_line_t) (flags : list bytes) : outcome (list bool) :=
  ls ← parse_cluster_nodes uninit (print_reply (map example_node flags)); Ret (map l_failed ls).

Lemma maybe_failed_inherits_failed uninit :
  failed_flags uninit [bytes_of "slave,fail"; bytes_of "slave,fail?"] = Ret [true; true] /\
  failed_flags uninit [bytes_of "slave"; bytes_of "slave,fail?"] = Ret [false; false].
Proof. split; vm_compute; reflexivity. Qed.
