(* ===== verification/WsFrame.v ===== *)
(** * WebSocket frames ([subscribers/websocket.c])

    The bytes of a frame: headers and close frames as they are written, the
    masking of payloads, and the check that text is UTF-8.  Bytes are numbers
    from 0 to 255. *)

From S2P Require Import Prelude Nginx Scan.
Open Scope Z_scope.

(** ** Constants *)

Definition WEBSOCKET_LAST_FRAME : Z := 8.
Definition WEBSOCKET_LAST_FRAME_RSV1 : Z := 12.
Definition WEBSOCKET_OPCODE_TEXT : Z := 1.
Definition WEBSOCKET_OPCODE_BINARY : Z := 2.
Definition WEBSOCKET_OPCODE_CLOSE : Z := 8.
Definition WEBSOCKET_OPCODE_PING : Z := 9.
Definition WEBSOCKET_OPCODE_PONG : Z := 10.

Definition last_frame_byte (opcode flags : Z) : Z := Z.lor opcode (Z.shiftl flags 4).
Definition WEBSOCKET_TEXT_LAST_FRAME_BYTE := last_frame_byte WEBSOCKET_OPCODE_TEXT WEBSOCKET_LAST_FRAME.
Definition WEBSOCKET_TEXT_DEFLATED_LAST_FRAME_BYTE := last_frame_byte WEBSOCKET_OPCODE_TEXT WEBSOCKET_LAST_FRAME_RSV1.
Definition WEBSOCKET_BINARY_LAST_FRAME_BYTE := last_frame_byte WEBSOCKET_OPCODE_BINARY WEBSOCKET_LAST_FRAME.
Definition WEBSOCKET_BINARY_DEFLATED_LAST_FRAME_BYTE := last_frame_byte WEBSOCKET_OPCODE_BINARY WEBSOCKET_LAST_FRAME_RSV1.
Definition WEBSOCKET_CLOSE_LAST_FRAME_BYTE := last_frame_byte WEBSOCKET_OPCODE_CLOSE WEBSOCKET_LAST_FRAME.
Definition WEBSOCKET_PONG_LAST_FRAME_BYTE := last_frame_byte WEBSOCKET_OPCODE_PONG WEBSOCKET_LAST_FRAME.
Definition WEBSOCKET_PING_LAST_FRAME_BYTE := last_frame_byte WEBSOCKET_OPCODE_PING WEBSOCKET_LAST_FRAME.

Definition CLOSE_NORMAL : Z := 1000.
Definition CLOSE_GOING_AWAY : Z := 1001.
Definition CLOSE_INVALID_PAYLOAD : Z := 1007.
Definition CLOSE_POLICY_VIOLATION : Z := 1008.
Definition CLOSE_MESSAGE_TOO_BIG : Z := 1009.
Definition CLOSE_INTERNAL_SERVER_ERROR : Z := 1011.

(** ** Integers in memory: the machine is little-endian *)

Fixpoint le_bytes (n : nat) (x : Z) : bytes :=
  match n with O => [] | S n' => x mod 256 :: le_bytes n' (x / 256) end.
Fixpoint of_le (s : bytes) : Z :=
  match s with [] => 0 | b :: s' => b + 256 * of_le s' end.

(** [htons] and [ntohs] take 16 bits. *)
Definition htons (x : Z) : Z := Z.lor (Z.shiftl (Z.land x 255) 8) (Z.land (Z.shiftr x 8) 255).
Definition ntohs := htons.

(** ** Masking *)

Definition key_byte (mask_key : bytes) (i : nat) : Z := nth (i mod 4) mask_key 0.

(** [for(; i < n; i++) payload[i] ^= mask_key[i % 4]], [k] rounds from [i]. *)
Fixpoint xor_loop (mask_key : bytes) (k i : nat) (payload : bytes) : bytes :=
  match k with
  | O => payload
  | S k' => xor_loop mask_key k' (S i) (alter (fun b => Z.lxor b (key_byte mask_key i)) i payload)
  end.

(** Without vector instructions. *)
Definition websocket_unmask_frame_plain (mask_key payload : bytes) : bytes := xor_loop mask_key (length payload) 0 payload.

Section vector.
(** [__vector_size_bytes], 16 or 32; the addresses of the payload and of
    [extended_mask], an array on the stack. *)
Context (vsize : nat) (addr mask_addr : Z).

(** Loads and stores need an address that is a multiple of the size. *)
Definition aligned (a : Z) : bool := a mod Z.of_nat vsize =? 0.

Definition vector_xor (w_mask : bytes) (i : nat) (payload : bytes) : outcome bytes :=
  c_assert (aligned (addr + Z.of_nat i));;
  c_assert (i + vsize <=? length payload)%nat;;
  Ret (take i payload ++ zip_with Z.lxor (take vsize (drop i payload)) w_mask ++ drop (i + vsize) payload).

(** [for(; i < fastlen + preamble_len; i += __vector_size_bytes)], [k] rounds. *)
Fixpoint vector_loop (w_mask : bytes) (k i : nat) (payload : bytes) : outcome bytes :=
  match k with
  | O => Ret payload
  | S k' => payload' ← vector_xor w_mask i payload; vector_loop w_mask k' (i + vsize) payload'
  end.

Definition extended_mask (mask_key : bytes) : bytes := concat (replicate (vsize / 4) (take 4 mask_key)).

Definition websocket_unmask_frame (mask_key payload : bytes) : outcome bytes :=
  let payload_len := length payload in
  let preamble_len :=
    if (payload_len <=? vsize)%nat then payload_len else Z.to_nat (addr mod Z.of_nat vsize) in
  let i := Nat.min preamble_len payload_len in
  let payload1 := xor_loop mask_key i 0 payload in
  if (payload_len <? vsize)%nat then Ret payload1
  else
    let fastlen :=
      if negb (aligned (addr + Z.of_nat i)) then O
      else ((payload_len - i) / vsize * vsize)%nat in
    payload2 ←
      (if (0 <? fastlen)%nat then
         c_assert (aligned mask_addr);;
         vector_loop (extended_mask mask_key) (fastlen / vsize) i payload1
       else Ret payload1);
    Ret (xor_loop mask_key (payload_len - (i + fastlen)) (i + fastlen) payload2).
End vector.

(** ** Text *)

(** [ngx_utf8_decode] is part of nginx: the code point at the start of the
    bytes, or a value above 0x10ffff when there is none, and how many bytes were
    read, at least one. *)
Class NgxUtf8 := {
  ngx_utf8_decode : bytes -> Z * nat;
  ngx_utf8_advances s : s <> [] -> (1 <= (ngx_utf8_decode s).2 <= length s)%nat;
}.

Section utf8.
Context `{NgxUtf8}.

(** The loop on what is left from [p]. *)
Fixpoint is_utf8_loop (fuel : nat) (p : bytes) : outcome bool :=
  match fuel with
  | O => NoFuel
  | S fuel' =>
      match p with
      | [] => Ret true
      | c :: p' =>
          if c <? 128 then is_utf8_loop fuel' p'
          else
            let '(code, n) := ngx_utf8_decode p in
            if 1114111 <? code then Ret false else is_utf8_loop fuel' (drop n p)
      end
  end.

(** Of a buffer in memory; a buffer in a file is mapped to memory first. *)
Definition is_utf8 (p : bytes) : outcome bool := is_utf8_loop (S (length p)) p.
End utf8.

(** ** Headers *)

(** [len] is an [off_t]. *)
Definition websocket_frame_header (opcode len : Z) : bytes :=
  opcode ::
  (if len <=? 125 then [len mod 256]
   else if len <? 2 ^ 16 then 126 :: le_bytes 2 (htons (len mod 2 ^ 16))
   else 127 :: le_bytes 8 (nchan_htonll (len mod 2 ^ 64))).

(** The header and the message after it; a frame of length 0 has none. *)
Definition websocket_frame_header_chain (opcode len : Z) (msg_chain : option bytes) : outcome bytes :=
  if len =? 0 then Ret (websocket_frame_header opcode len)
  else match msg_chain with
       | Some m => Ret (websocket_frame_header opcode len ++ m)
       | None => Crash     (* assert(msg_chain != NULL) *)
       end.

(** [err] of [None] is NULL. *)
Definition websocket_close_frame_chain (code : Z) (err : option bytes) : outcome bytes :=
  let err := match err with Some e => e | None => [] end in
  if code =? 0 then websocket_frame_header_chain WEBSOCKET_CLOSE_LAST_FRAME_BYTE 0 None
  else
    let code := if (code <? 1000) || (code =? 1005) || (code =? 1006) || (5000 <=? code) then CLOSE_NORMAL else code in
    let err := if (123 <? length err)%nat then take 123 err else err in
    websocket_frame_header_chain WEBSOCKET_CLOSE_LAST_FRAME_BYTE (Z.of_nat (length err) + 2)
      (Some (le_bytes 2 (htons code) ++ err)).

(** [ngx_string(err)] of a [const char *]: [sizeof(err) - 1] is 7. *)
Definition ngx_string_of_pointer (err : bytes) : bytes := take 7 err.

(** ** Messages *)

(** What is sent of a message: its buffer, its content type, and its buffer
    compressed for permessage-deflate, if it has one. *)
Record ws_msg := WsMsg {
  m_buf : bytes;
  m_content_type : option bytes;
  m_compressed : option bytes;
}.

Definition binary_mimetype : bytes := bytes_of "application/octet-stream".

(** [deflate] is [nchan_common_simple_deflate_raw_block], zlib's. *)
Definition websocket_msg_frame_chain (deflate : bytes -> bytes) (deflate_enabled ws_meta_subprotocol : bool)
    (msgid : bytes) (msg : ws_msg) : outcome bytes :=
  let compressed := deflate_enabled && bool_decide (is_Some (m_compressed msg)) in
  let msgbuf := if compressed then match m_compressed msg with Some b => b | None => [] end else m_buf msg in
  let binary := match m_content_type msg with Some t => nchan_ngx_str_match t binary_mimetype | None => false end in
  let frame_opcode :=
    if binary then (if compressed then WEBSOCKET_BINARY_DEFLATED_LAST_FRAME_BYTE else WEBSOCKET_BINARY_LAST_FRAME_BYTE)
    else if compressed then WEBSOCKET_TEXT_DEFLATED_LAST_FRAME_BYTE else WEBSOCKET_TEXT_LAST_FRAME_BYTE in
  let meta :=
    bytes_of "id: " ++ msgid ++
    match m_content_type msg with Some t => [ch_nl] ++ bytes_of "content-type: " ++ t | None => [] end ++ [ch_nl; ch_nl] in
  let head :=
    if negb ws_meta_subprotocol then []
    else if negb compressed then meta
    else deflate (take 512 meta) in
  let sz := Z.of_nat (length msgbuf) + Z.of_nat (length head) in
  websocket_frame_header_chain frame_opcode sz (Some (head ++ msgbuf)).
