(* ===== verification/WsFrameFacts.v ===== *)
(** * Masking, headers and text of WebSocket frames

    Masking with vector instructions is masking byte by byte, at every address
    and for every length; a length survives its encoding; text is accepted when
    it is a sequence of encoded characters. *)

From S2P Require Import Prelude Nginx Scan WsFrame.
Open Scope Z_scope.

(** ** Masking *)

(** The payload with the bytes before position [n] masked. *)
Definition masked_upto (mask_key : bytes) (n : nat) (p : bytes) : bytes :=
  imap (fun j b => if (j <? n)%nat then Z.lxor b (key_byte mask_key j) else b) p.

(** The payload masked, what the protocol asks for. *)
Definition masked (mask_key p : bytes) : bytes := imap (fun j b => Z.lxor b (key_byte mask_key j)) p.

Lemma masked_upto_0 key p : masked_upto key 0 p = p.
Proof. unfold masked_upto. apply list_eq. intros i. rewrite list_lookup_imap. by destruct (p !! i). Qed.

Lemma masked_upto_all key n p : (length p <= n)%nat -> masked_upto key n p = masked key p.
Proof.
  intros L. apply imap_ext. intros i b Hi. apply lookup_lt_Some in Hi.
  by rewrite (proj2 (Nat.ltb_lt _ _)) by lia.
Qed.

Lemma masked_upto_length key n p : length (masked_upto key n p) = length p.
Proof. apply length_imap. Qed.

Lemma masked_upto_lookup key n p j :
  masked_upto key n p !! j = (fun b => if (j <? n)%nat then Z.lxor b (key_byte key j) else b) <$> p !! j.
Proof. apply list_lookup_imap. Qed.

Lemma xor_loop_masked key p k i :
  xor_loop key k i (masked_upto key i p) = masked_upto key (i + k) p.
Proof.
  revert i. induction k as [|k IH]; intros i; cbn [xor_loop]; [by rewrite Nat.add_0_r|].
  assert (alter (fun b => Z.lxor b (key_byte key i)) i (masked_upto key i p) = masked_upto key (S i) p) as ->.
  { apply list_eq. intros j. destruct (decide (j = i)) as [->|Ne].
    - rewrite list_lookup_alter_eq, !masked_upto_lookup. destruct (p !! i); [|done]. simpl. f_equal.
      destruct (Nat.ltb_spec i i), (Nat.ltb_spec i (S i)); done || lia.
    - rewrite list_lookup_alter_ne, !masked_upto_lookup by congruence. destruct (p !! j); [|done]. simpl. f_equal.
      destruct (Nat.ltb_spec j i), (Nat.ltb_spec j (S i)); done || lia. }
  rewrite IH. f_equal. lia.
Qed.

Lemma key_byte_mod key i : key_byte key i = key_byte key (i mod 4).
Proof. unfold key_byte. by rewrite Nat.Div0.mod_mod. Qed.

Section vector.
Context (vsize : nat) (addr mask_addr : Z) (Hv : vsize = 16%nat \/ vsize = 32%nat).

Lemma vsize_multiple : exists m, vsize = (4 * m)%nat /\ (vsize / 4)%nat = m /\ (0 < m)%nat.
Proof. destruct Hv as [-> | ->]; [exists 4%nat|exists 8%nat]; split_and!; done || lia. Qed.

Lemma extended_mask_lookup key m j : length key = 4%nat -> (j < 4 * m)%nat ->
  concat (replicate m (take 4 key)) !! j = Some (key_byte key j).
Proof.
  intros L. rewrite take_ge by lia. revert j. induction m as [|m IH]; intros j Hj; [lia|]. cbn [replicate concat].
  destruct (decide (j < 4)%nat) as [Lj|Lj].
  - rewrite lookup_app_l by lia. unfold key_byte. rewrite Nat.mod_small by lia.
    destruct (lookup_lt_is_Some_2 key j ltac:(lia)) as [b Eb]. by rewrite Eb, (nth_lookup_Some _ _ _ _ Eb).
  - rewrite lookup_app_r by lia. rewrite L, IH by lia. rewrite (key_byte_mod key j), (key_byte_mod key (j - 4)).
    replace j with ((j - 4) + 1 * 4)%nat at 2 by lia. by rewrite Nat.Div0.mod_add.
Qed.

Lemma extended_mask_length key : length key = 4%nat -> length (extended_mask vsize key) = vsize.
Proof.
  intros L. destruct vsize_multiple as (m & Em & Ed & _). unfold extended_mask. rewrite Ed, take_ge by lia.
  rewrite Em. clear Em Ed. induction m as [|m IH]; [done|]. cbn [replicate concat]. rewrite length_app, IH. lia.
Qed.

Lemma vector_xor_masked key p i :
  length key = 4%nat -> aligned vsize (addr + Z.of_nat i) = true -> (i mod 4 = 0)%nat -> (i + vsize <= length p)%nat ->
  vector_xor vsize addr (extended_mask vsize key) i (masked_upto key i p) = Ret (masked_upto key (i + vsize) p).
Proof.
  intros Lk A M L. destruct vsize_multiple as (m & Em & Ed & _). unfold vector_xor.
  rewrite A, masked_upto_length, (proj2 (Nat.leb_le _ _)) by done. cbn [c_assert]. rewrite !bind_Ret. f_equal.
  pose proof (extended_mask_length key Lk) as Lx.
  assert (length (take i (masked_upto key i p)) = i) as Lt by (rewrite length_take, masked_upto_length; lia).
  assert (length (zip_with Z.lxor (take vsize (drop i (masked_upto key i p))) (extended_mask vsize key)) = vsize) as Lz
    by (rewrite length_zip_with, length_take, length_drop, masked_upto_length; lia).
  apply list_eq. intros j. rewrite masked_upto_lookup.
  destruct (decide (j < i)%nat) as [C1|C1]; [|destruct (decide (j < i + vsize)%nat) as [C2|C2]].
  - rewrite lookup_app_l, lookup_take_lt, masked_upto_lookup by lia.
    destruct (p !! j); [|done]. simpl. by rewrite !(proj2 (Nat.ltb_lt _ _)) by lia.
  - rewrite lookup_app_r, Lt, lookup_app_l by lia.
    rewrite lookup_zip_with, lookup_take_lt, lookup_drop, masked_upto_lookup by lia.
    replace (i + (j - i))%nat with j by lia. unfold extended_mask. rewrite Ed, extended_mask_lookup by lia.
    destruct (p !! j) as [b|]; [|done]. simpl. f_equal.
    rewrite (proj2 (Nat.ltb_ge _ _)), (proj2 (Nat.ltb_lt _ _)) by lia. f_equal.
    rewrite (key_byte_mod key (j - i)), (key_byte_mod key j).
    replace (j mod 4)%nat with (((j - i) + i) mod 4)%nat by (f_equal; lia).
    by rewrite Nat.Div0.add_mod, M, Nat.add_0_r, Nat.Div0.mod_mod.
  - rewrite lookup_app_r, Lt, lookup_app_r, Lz, lookup_drop, masked_upto_lookup by lia.
    replace (i + vsize + (j - i - vsize))%nat with j by lia.
    destruct (p !! j); [|done]. simpl. by rewrite !(proj2 (Nat.ltb_ge _ _)) by lia.
Qed.

Lemma aligned_next a : aligned vsize a = true -> aligned vsize (a + Z.of_nat vsize) = true.
Proof.
  unfold aligned. rewrite !Z.eqb_eq. intros E. destruct Hv as [-> | ->]; rewrite Z.add_mod, E by lia; reflexivity.
Qed.

Lemma vector_loop_masked key p k i :
  length key = 4%nat -> aligned vsize (addr + Z.of_nat i) = true -> (i mod 4 = 0)%nat -> (i + k * vsize <= length p)%nat ->
  vector_loop vsize addr (extended_mask vsize key) k i (masked_upto key i p) = Ret (masked_upto key (i + k * vsize) p).
Proof.
  intros Lk. revert i. induction k as [|k IH]; intros i A M L; cbn [vector_loop]; [by rewrite Nat.add_0_r|].
  rewrite vector_xor_masked, bind_Ret by (done || lia). rewrite IH.
  - f_equal. f_equal. lia.
  - rewrite Nat2Z.inj_add, Z.add_assoc. by apply aligned_next.
  - destruct vsize_multiple as (m & Em & _). rewrite Nat.Div0.add_mod, M, Em, Nat.mul_comm, Nat.Div0.mod_mul. done.
  - lia.
Qed.

(** The bytes before the vectors are a multiple of four, or all of them. *)
Lemma preamble_multiple i : Z.of_nat i = addr mod Z.of_nat vsize -> aligned vsize (addr + Z.of_nat i) = true -> (i mod 4 = 0)%nat.
Proof.
  unfold aligned. rewrite Z.eqb_eq. intros Ei A. pose proof (Z.mod_pos_bound addr (Z.of_nat vsize)).
  apply Nat2Z.inj. rewrite Nat2Z.inj_mod. cbn. destruct Hv as [-> | ->]; zify; Z.to_euclidean_division_equations; lia.
Qed.

(** The vectors mask what they go over. *)
Lemma vectors_masked key p i fastlen : length key = 4%nat -> aligned vsize mask_addr = true ->
  (fastlen = 0 \/ aligned vsize (addr + Z.of_nat i) = true /\ i mod 4 = 0)%nat -> (i + fastlen <= length p)%nat ->
  (fastlen / vsize * vsize = fastlen)%nat ->
  (if (0 <? fastlen)%nat then
     c_assert (aligned vsize mask_addr);;
     vector_loop vsize addr (extended_mask vsize key) (fastlen / vsize) i (masked_upto key i p)
   else Ret (masked_upto key i p)) = Ret (masked_upto key (i + fastlen) p).
Proof.
  intros Lk Am [-> |[A M]] L D; [by rewrite Nat.add_0_r|]. rewrite Am. cbn [c_assert]. rewrite bind_Ret.
  destruct (Nat.ltb_spec 0 fastlen); [|by replace fastlen with O by lia; rewrite Nat.add_0_r].
  rewrite vector_loop_masked by (done || lia). by rewrite D.
Qed.

Lemma unmask_masked key p : length key = 4%nat -> aligned vsize mask_addr = true ->
  websocket_unmask_frame vsize addr mask_addr key p = Ret (masked key p).
Proof.
  intros Lk Am. unfold websocket_unmask_frame. assert (vsize <> 0%nat) as V0 by (destruct Hv; lia).
  set (pre := if (length p <=? vsize)%nat then length p else Z.to_nat (addr mod Z.of_nat vsize)).
  pose proof (xor_loop_masked key p (Nat.min pre (length p)) 0) as E. rewrite masked_upto_0 in E. rewrite E. cbn [Nat.add].
  destruct (Nat.ltb_spec (length p) vsize) as [Ls|Ls].
  { unfold pre. rewrite (proj2 (Nat.leb_le _ _)), Nat.min_id, masked_upto_all by lia. done. }
  assert (Nat.min pre (length p) = pre) as Ep.
  { unfold pre. destruct (Nat.leb_spec (length p) vsize); [lia|]. pose proof (Z.mod_pos_bound addr (Z.of_nat vsize)). lia. }
  rewrite Ep. set (fastlen := if negb _ then _ else _).
  pose proof (Nat.Div0.mul_div_le (length p - pre) vsize) as Lf.
  assert (pre <= length p)%nat as Lp by lia.
  rewrite vectors_masked, bind_Ret; [|done|done| | |].
  - rewrite xor_loop_masked, masked_upto_all; [done|]. lia.
  - unfold fastlen. destruct (aligned vsize (addr + Z.of_nat pre)) eqn:A; cbn [negb]; [|by left].
    unfold pre in *. destruct (Nat.leb_spec (length p) vsize) as [L2|L2].
    + left. by rewrite Nat.sub_diag, Nat.div_0_l by done.
    + right. split; [done|]. apply preamble_multiple; [|done]. pose proof (Z.mod_pos_bound addr (Z.of_nat vsize)). lia.
  - unfold fastlen. destruct (negb _); lia.
  - unfold fastlen. destruct (negb _); [by rewrite Nat.div_0_l|]. by rewrite Nat.div_mul.
Qed.
End vector.

Lemma unmask_plain_masked key p : websocket_unmask_frame_plain key p = masked key p.
Proof.
  unfold websocket_unmask_frame_plain. rewrite <- (masked_upto_0 key p) at 2. by rewrite xor_loop_masked, masked_upto_all.
Qed.

Lemma masked_length key p : length (masked key p) = length p.
Proof. apply length_imap. Qed.

Lemma masked_masked key p : masked key (masked key p) = p.
Proof.
  apply list_eq. intros i. unfold masked. rewrite !list_lookup_imap. destruct (p !! i); [|done]. simpl.
  by rewrite Z.lxor_assoc, Z.lxor_nilpotent, Z.lxor_0_r.
Qed.

(** Unmasking with vector instructions of 16 or 32 bytes is unmasking byte by
    byte, for a payload of any length at any address, as long as the mask is
    aligned on the stack; and unmasking twice gives the payload back. *)
Theorem unmask_vectors_equal_bytes vsize addr mask_addr key payload :
  vsize = 16%nat \/ vsize = 32%nat -> length key = 4%nat -> aligned vsize mask_addr = true ->
  websocket_unmask_frame vsize addr mask_addr key payload = Ret (websocket_unmask_frame_plain key payload) /\
  websocket_unmask_frame_plain key (websocket_unmask_frame_plain key payload) = payload.
Proof.
  intros Hv Lk Am. rewrite !unmask_plain_masked, masked_masked. split; [by apply unmask_masked|done].
Qed.

Lemma unmask_vectors_equal_bytes_witness :
  websocket_unmask_frame 16 8 0 [55; 250; 33; 61] (seqZ 0 60) = Ret (websocket_unmask_frame_plain [55; 250; 33; 61] (seqZ 0 60)).
Proof. apply (unmask_vectors_equal_bytes 16 8 0 [55; 250; 33; 61] (seqZ 0 60)); [by left|reflexivity|reflexivity]. Defined.

(** The mask is an array of bytes, which need not be aligned for vectors. *)
Lemma unmask_needs_aligned_mask :
  websocket_unmask_frame 32 0 16 [55; 250; 33; 61] (seqZ 0 64) = Crash.
Proof. reflexivity. Qed.

(** ** Byte order *)

Lemma land_ff x : Z.land x 255 = x mod 256.
Proof. apply (Z.land_ones x 8). lia. Qed.

Lemma lor_shiftl a b k : 0 <= k -> 0 <= b < 2 ^ k -> Z.lor (Z.shiftl a k) b = a * 2 ^ k + b.
Proof.
  intros Hk Hb. rewrite <- Z.shiftl_mul_pow2 by done.
  assert (Z.land (Z.shiftl a k) b = 0) as E.
  { apply Z.bits_inj'. intros n Hn. rewrite Z.land_spec, Z.shiftl_spec, Z.bits_0 by done.
    destruct (Z.ltb_spec n k); [by rewrite Z.testbit_neg_r by lia|].
    replace b with (b mod 2 ^ k) by (apply Z.mod_small; lia). by rewrite Z.mod_pow2_bits_high, andb_false_r by lia. }
  by rewrite Z.add_nocarry_lxor, Z.lxor_lor.
Qed.

(** A word of four bytes, least significant first. *)
Lemma htonl_word a b c d : 0 <= a < 256 -> 0 <= b < 256 -> 0 <= c < 256 -> 0 <= d < 256 ->
  htonl (a + 256 * (b + 256 * (c + 256 * d))) = d + 256 * (c + 256 * (b + 256 * a)).
Proof.
  intros Ha Hb Hc Hd. unfold htonl. rewrite !Z.shiftr_div_pow2, !land_ff by lia.
  change (2 ^ 8) with 256. change (2 ^ 16) with 65536. change (2 ^ 24) with 16777216.
  set (x := a + 256 * (b + 256 * (c + 256 * d))).
  replace (x mod 256) with a by (unfold x; Z.to_euclidean_division_equations; lia).
  replace (x / 256 mod 256) with b by (unfold x; Z.to_euclidean_division_equations; lia).
  replace (x / 65536 mod 256) with c by (unfold x; Z.to_euclidean_division_equations; lia).
  replace (x / 16777216 mod 256) with d by (unfold x; Z.to_euclidean_division_equations; lia).
  rewrite (lor_shiftl c d 8), (lor_shiftl b _ 16), (lor_shiftl a _ 24) by lia. lia.
Qed.

Lemma htonl_range x : 0 <= x < 2 ^ 32 -> 0 <= htonl x < 2 ^ 32.
Proof.
  intros Hx. pose (a := x mod 256). pose (b := x / 256 mod 256). pose (c := x / 65536 mod 256). pose (d := x / 16777216).
  assert (x = a + 256 * (b + 256 * (c + 256 * d))) as E by (unfold a, b, c, d; Z.to_euclidean_division_equations; lia).
  assert (0 <= a < 256 /\ 0 <= b < 256 /\ 0 <= c < 256 /\ 0 <= d < 256) as (Ha & Hb & Hc & Hd).
  { unfold a, b, c, d. split_and!; try (apply Z.mod_pos_bound; lia); Z.to_euclidean_division_equations; lia. }
  clearbody a b c d. subst x. rewrite htonl_word by done. lia.
Qed.

Lemma le_bytes_length n x : length (le_bytes n x) = n.
Proof. revert x. induction n as [|n IH]; intros x; simpl; [done|]. by rewrite IH. Qed.

Lemma le_bytes_cons n b x : 0 <= b < 256 -> le_bytes (S n) (b + 256 * x) = b :: le_bytes n x.
Proof. intros Hb. cbn [le_bytes]. f_equal; [|f_equal]; Z.to_euclidean_division_equations; lia. Qed.

Lemma le_bytes_app n m x : le_bytes (n + m) x = le_bytes n x ++ le_bytes m (x / 256 ^ Z.of_nat n).
Proof.
  revert x. induction n as [|n IH]; intros x; [by rewrite Z.div_1_r|]. cbn [Nat.add le_bytes app]. rewrite IH.
  rewrite Z.div_div by lia. by rewrite Nat2Z.inj_succ, Z.pow_succ_r by lia.
Qed.

Lemma le_bytes_mod n x : le_bytes n (x mod 256 ^ Z.of_nat n) = le_bytes n x.
Proof.
  revert x. induction n as [|n IH]; intros x; [done|]. cbn [le_bytes].
  rewrite Nat2Z.inj_succ, Z.pow_succ_r by lia. rewrite (Z.rem_mul_r x 256) by lia. f_equal.
  - rewrite Z.mul_comm, Z.mod_add by lia. by rewrite Z.mod_mod.
  - rewrite (Z.mul_comm 256), Z.div_add by lia. rewrite (Z.div_small (x mod 256)) by (apply Z.mod_pos_bound; lia).
    by rewrite Z.add_0_l, IH.
Qed.

Lemma of_le_le_bytes n x : of_le (le_bytes n x) = x mod 256 ^ Z.of_nat n.
Proof.
  revert x. induction n as [|n IH]; intros x; cbn [le_bytes of_le]; [by rewrite Z.mod_1_r|].
  rewrite IH, Nat2Z.inj_succ, Z.pow_succ_r by lia. symmetry. apply Z.rem_mul_r; lia.
Qed.

Lemma le_bytes_byte n x : Forall (fun b => 0 <= b < 256) (le_bytes n x).
Proof. revert x. induction n as [|n IH]; intros x; constructor; [|apply IH]. apply Z.mod_pos_bound. lia. Qed.

Lemma htonl_le_bytes x : le_bytes 4 (htonl (x mod 2 ^ 32)) = rev (le_bytes 4 x).
Proof.
  rewrite <- (le_bytes_mod 4 x). change (256 ^ Z.of_nat 4) with (2 ^ 32).
  pose proof (Z.mod_pos_bound x (2 ^ 32)) as Hy. set (y := x mod 2 ^ 32) in *. clearbody y.
  pose (a := y mod 256). pose (b := y / 256 mod 256). pose (c := y / 65536 mod 256). pose (d := y / 16777216).
  assert (y = a + 256 * (b + 256 * (c + 256 * d))) as E by (unfold a, b, c, d; Z.to_euclidean_division_equations; lia).
  assert (0 <= a < 256 /\ 0 <= b < 256 /\ 0 <= c < 256 /\ 0 <= d < 256) as (Ha & Hb & Hc & Hd).
  { unfold a, b, c, d. split_and!; try (apply Z.mod_pos_bound; lia); Z.to_euclidean_division_equations; lia. }
  clearbody a b c d. subst y. rewrite htonl_word by done.
  rewrite !(le_bytes_cons 3), !(le_bytes_cons 2), !(le_bytes_cons 1) by done.
  cbn [le_bytes rev app]. by rewrite !Z.mod_small by done.
Qed.

Lemma nchan_htonll_value x : 0 <= x < 2 ^ 64 ->
  nchan_htonll x = htonl (x mod 2 ^ 32) * 2 ^ 32 + htonl (x / 2 ^ 32).
Proof.
  intros Hx. unfold nchan_htonll, flip_uint64_if_little_endian.
  rewrite Z.shiftr_div_pow2 by lia. change 4294967295 with (Z.ones 32). rewrite Z.land_ones by lia.
  unfold wrapu. rewrite Z.mod_mod, (Z.mod_small (x / 2 ^ 32)) by (lia || Z.to_euclidean_division_equations; lia).
  apply lor_shiftl; [lia|]. apply htonl_range. Z.to_euclidean_division_equations. lia.
Qed.

Lemma nchan_htonll_range x : 0 <= x < 2 ^ 64 -> 0 <= nchan_htonll x < 2 ^ 64.
Proof.
  intros Hx. rewrite nchan_htonll_value by done. pose proof (htonl_range (x mod 2 ^ 32)) as A.
  pose proof (htonl_range (x / 2 ^ 32)) as B.
  assert (0 <= x mod 2 ^ 32 < 2 ^ 32) by (apply Z.mod_pos_bound; lia).
  assert (0 <= x / 2 ^ 32 < 2 ^ 32) by (split; [apply Z.div_pos|apply Z.div_lt_upper_bound]; lia).
  lia.
Qed.

Lemma nchan_htonll_le_bytes x : 0 <= x < 2 ^ 64 -> le_bytes 8 (nchan_htonll x) = rev (le_bytes 8 x).
Proof.
  intros Hx. rewrite nchan_htonll_value by done.
  assert (0 <= x / 2 ^ 32 < 2 ^ 32) as Hh by (split; [apply Z.div_pos|apply Z.div_lt_upper_bound]; lia).
  change 8%nat with (4 + 4)%nat. rewrite !le_bytes_app, rev_app_distr. change (256 ^ Z.of_nat 4) with (2 ^ 32).
  pose proof (htonl_range (x / 2 ^ 32) Hh) as R.
  rewrite Z.div_add_l, (Z.div_small (htonl (x / 2 ^ 32))), Z.add_0_r, htonl_le_bytes by lia. f_equal.
  rewrite <- (le_bytes_mod 4). change (256 ^ Z.of_nat 4) with (2 ^ 32).
  rewrite Z.add_comm, Z.mod_add, Z.mod_small by lia. rewrite <- (Z.mod_small (x / 2 ^ 32) (2 ^ 32)) at 1 by lia.
  apply htonl_le_bytes.
Qed.

Lemma of_le_range s : Forall (fun b => 0 <= b < 256) s -> 0 <= of_le s < 256 ^ Z.of_nat (length s).
Proof.
  induction 1 as [|b s Hb F IH]; cbn [of_le length]; [lia|]. rewrite Nat2Z.inj_succ, Z.pow_succ_r by lia. lia.
Qed.

Lemma le_bytes_of_le s : Forall (fun b => 0 <= b < 256) s -> le_bytes (length s) (of_le s) = s.
Proof. induction 1 as [|b s Hb F IH]; [done|]. cbn [length of_le]. by rewrite le_bytes_cons, IH. Qed.

(** A length is read back from the eight bytes it was written to. *)
Lemma ntohll_htonll x : 0 <= x < 2 ^ 64 -> nchan_ntohll (of_le (le_bytes 8 (nchan_htonll x))) = x.
Proof.
  intros Hx. pose proof (nchan_htonll_range x Hx) as R.
  rewrite of_le_le_bytes. change (256 ^ Z.of_nat 8) with (2 ^ 64). rewrite Z.mod_small by done.
  change (nchan_ntohll (nchan_htonll x)) with (nchan_htonll (nchan_htonll x)).
  pose proof (nchan_htonll_range _ R) as R2. pose proof (nchan_htonll_le_bytes _ R) as E.
  rewrite (nchan_htonll_le_bytes x Hx), rev_involutive in E. apply (f_equal of_le) in E. rewrite !of_le_le_bytes in E.
  change (256 ^ Z.of_nat 8) with (2 ^ 64) in E. by rewrite !Z.mod_small in E by done.
Qed.

Lemma htons_value x : 0 <= x < 2 ^ 16 -> htons x = x mod 256 * 256 + x / 256.
Proof.
  intros Hx. unfold htons. rewrite !land_ff, Z.shiftr_div_pow2 by lia. change (2 ^ 8) with 256.
  rewrite lor_shiftl by (lia || Z.to_euclidean_division_equations; lia). Z.to_euclidean_division_equations. lia.
Qed.

Lemma ntohs_htons x : 0 <= x < 2 ^ 16 -> ntohs (of_le (le_bytes 2 (htons x))) = x.
Proof.
  intros Hx. rewrite (htons_value x) by done. rewrite of_le_le_bytes. change (256 ^ Z.of_nat 2) with (2 ^ 16).
  unfold ntohs. rewrite Z.mod_small, htons_value by (Z.to_euclidean_division_equations; lia).
  Z.to_euclidean_division_equations. lia.
Qed.

(** ** Text *)

Section text.
Context `{NgxUtf8}.

(** A sequence of characters, each below 128 or decoded. *)
Inductive utf8_text : bytes -> Prop :=
  | text_nil : utf8_text []
  | text_ascii c s : c < 128 -> utf8_text s -> utf8_text (c :: s)
  | text_char c s : 128 <= c -> (ngx_utf8_decode (c :: s)).1 <= 1114111 ->
      utf8_text (drop (ngx_utf8_decode (c :: s)).2 (c :: s)) -> utf8_text (c :: s).

Lemma is_utf8_loop_spec fuel p : (length p < fuel)%nat ->
  exists b, is_utf8_loop fuel p = Ret b /\ (b = true <-> utf8_text p).
Proof.
  revert p. induction fuel as [|fuel IH]; intros p L; [lia|]. cbn [is_utf8_loop]. destruct p as [|c p].
  { exists true. split; [done|]. split; [constructor|done]. }
  cbn [length] in L. destruct (Z.ltb_spec c 128) as [Lc|Lc].
  - destruct (IH p ltac:(lia)) as (b & -> & Hb). exists b. split; [done|]. rewrite Hb. split; [by constructor|].
    intros T. by inversion T; subst; [|lia].
  - pose proof (ngx_utf8_advances (c :: p) ltac:(done)) as A. pose proof (text_char c p Lc) as K.
    pose proof (fun T : utf8_text (c :: p) => T) as T0. destruct (ngx_utf8_decode (c :: p)) as [code n] eqn:E.
    cbn [fst snd length] in *. destruct (Z.ltb_spec 1114111 code) as [Lm|Lm].
    + exists false. split; [done|]. split; [done|]. intros T. inversion T as [|? ? ?|? ? ? B]; [lia|].
      rewrite E in B. simpl in B. lia.
    + destruct (IH (drop n (c :: p))) as (b & -> & Hb); [rewrite length_drop; simpl; lia|]. exists b. split; [done|].
      rewrite Hb. split; [by apply K|]. intros T. inversion T as [|? ? ?|? ? ? ? T']; [lia|]. by rewrite E in T'.
Qed.

Lemma is_utf8_spec p : exists b, is_utf8 p = Ret b /\ (b = true <-> utf8_text p).
Proof. apply is_utf8_loop_spec. lia. Qed.
End text.

(** ** Headers *)

(** A header fits the block it is written to. *)
Lemma frame_header_length opcode len : (2 <= length (websocket_frame_header opcode len) <= 10)%nat.
Proof.
  unfold websocket_frame_header. repeat case_match; cbn [length]; rewrite ?le_bytes_length; lia.
Qed.

(** C39.  A close frame is a valid control frame, whatever status and reason it is
    made from: its header says how many bytes follow, at most 125, and these are
    none, or a status that passes the guard of the code (so 1015 too, which may
    not be sent) and the beginning of the reason. *)
Theorem close_frame_wellformed code err :
  0 <= code < 2 ^ 16 ->
  exists payload, websocket_close_frame_chain code err = Ret (WEBSOCKET_CLOSE_LAST_FRAME_BYTE :: Z.of_nat (length payload) :: payload) /\
    (length payload <= 125)%nat /\
    (payload = [] \/ exists status reason, payload = [status / 256; status mod 256] ++ reason /\
       1000 <= status < 5000 /\ status <> 1005 /\ status <> 1006 /\
       match err with Some e => reason = take 123 e | None => reason = [] end).
Proof.
  intros Hc. unfold websocket_close_frame_chain.
  destruct (Z.eqb_spec code 0) as [_|_]; [exists []; split_and!; [done|simpl; lia|by left]|].
  set (e := match err with Some e0 => e0 | None => [] end). set (reason := if (123 <? length e)%nat then take 123 e else e).
  set (status := if _ : bool then CLOSE_NORMAL else code).
  assert (reason = take 123 e) as Er.
  { unfold reason. destruct (Nat.ltb_spec 123 (length e)); [done|]. by rewrite take_ge by lia. }
  assert (1000 <= status < 5000 /\ status <> 1005 /\ status <> 1006) as (Hs & N5 & N6).
  { unfold status, CLOSE_NORMAL. destruct (_ || _) eqn:E; [lia|]. rewrite !orb_false_iff in E.
    destruct E as [[[?%Z.ltb_ge ?%Z.eqb_neq] ?%Z.eqb_neq] ?%Z.leb_gt]. lia. }
  assert (length reason <= 123)%nat as Lr by (rewrite Er; apply firstn_le_length).
  exists ([status / 256; status mod 256] ++ reason).
  assert (le_bytes 2 (htons status) = [status / 256; status mod 256]) as Es.
  { rewrite htons_value by lia. cbn [le_bytes]. f_equal; [|f_equal]; Z.to_euclidean_division_equations; lia. }
  split_and!.
  - unfold websocket_frame_header_chain. destruct (Z.eqb_spec (Z.of_nat (length reason) + 2) 0); [lia|].
    unfold websocket_frame_header. rewrite (proj2 (Z.leb_le _ _)), Z.mod_small, Es by lia. simpl. do 3 f_equal. lia.
  - rewrite length_app. simpl. lia.
  - right. exists status, reason. split_and!; try done; try lia. rewrite Er. unfold e. by destruct err.
Qed.

Lemma close_frame_wellformed_witness :
  exists payload, websocket_close_frame_chain 1006 (Some (bytes_of "bye")) = Ret (WEBSOCKET_CLOSE_LAST_FRAME_BYTE :: Z.of_nat (length payload) :: payload) /\
    (length payload <= 125)%nat.
Proof.
  destruct (close_frame_wellformed 1006 (Some (bytes_of "bye"))) as (p & E & L & _); [lia|]. exists p. by split.
Defined.
