(* ===== verification/Websocket.v ===== *)
(** * WebSocket subscribers and publishers ([subscribers/websocket.c])

    The life of a WebSocket: frames are read from a socket that delivers bytes
    in pieces, messages are published, frames are sent, and the subscriber is
    dequeued, finalized and destroyed.  What happens outside is recorded, in
    order, in [out]. *)

From S2P Require Import Prelude Nginx Scan WsFrame.
Open Scope Z_scope.

Definition NCHAN_MESSAGE_QUEUED : Z := 9001.
Definition NCHAN_MESSAGE_RECEIVED : Z := 9000.
Definition WEBSOCKET_CLOSING_TIMEOUT : Z := 250.

Definition WEBSOCKET_READ_START_STEP : Z := 0.
Definition WEBSOCKET_READ_GET_REAL_SIZE_STEP : Z := 1.
Definition WEBSOCKET_READ_GET_MASK_KEY_STEP : Z := 2.
Definition WEBSOCKET_READ_GET_PAYLOAD_STEP : Z := 3.

(** ** What the code relies on *)

(** A connection of nginx.  [recv] stores at most as many bytes as asked for,
    the next ones of those that have arrived. *)
Inductive recv_result :=
  | RecvBytes (s : bytes) (eof : bool)
  | RecvAgain
  | RecvError.

Class NgxSocket := {
  conn : Type;
  pending : conn -> bytes;
  recv : conn -> Z -> recv_result * conn;
  recv_takes c n : 0 < n ->
    match recv c n with
    | (RecvBytes s _, c') => Z.of_nat (length s) <= n /\ pending c = s ++ pending c'
    | (_, c') => pending c' = pending c
    end;
  recv_eof c n : 0 < n ->      (* no bytes: the peer closed *)
    match recv c n with (RecvBytes s eof, _) => s = [] -> eof = true | _ => True end;
  conn_broken : conn -> bool;          (* c->error, c->timedout, rev->eof ... *)
  restore_read : conn -> bool;         (* ngx_handle_read_event succeeds *)
}.

(** zlib: a stream, and what it inflates a message to. *)
Class Inflate := {
  zstream : Type;
  inflate_open : Z -> option zstream;
  nchan_inflate : zstream -> bytes -> option bytes * zstream;
}.

(** Allocation from a pool. *)
Class NgxPool := { palloc_succeeds : Z -> bool }.

(** ** Data *)

(** [payload] points into the message pool, to [payloadbuf] in the frame of a
    call, or, when that call has returned, nowhere. *)
Inductive payload_ptr :=
  | InPool (block : bytes)
  | OnStack (block : bytes)
  | Dangling.

(** Where [last] points: into [header] or into the payload. *)
Inductive last_ptr :=
  | LastHeader (k : Z)
  | LastPayload (k : Z).

Record ws_frame_t := Frame {
  fin : Z; rsv1 : Z; rsv2 : Z; rsv3 : Z;
  opcode : Z;
  mask : Z;
  mask_key : bytes;
  payload_len : Z;
  header : bytes;
  payload : option payload_ptr;
  last : option last_ptr;
  step : Z;
}.

Definition websocket_init_frame : ws_frame_t :=
  Frame 0 0 0 0 0 0 (replicate 4 0) 0 (replicate 8 0) None None WEBSOCKET_READ_START_STEP.

Definition set_step (f : ws_frame_t) (s : Z) : ws_frame_t :=
  Frame (fin f) (rsv1 f) (rsv2 f) (rsv3 f) (opcode f) (mask f) (mask_key f) (payload_len f) (header f) (payload f) (last f) s.
Definition set_header (f : ws_frame_t) (h : bytes) : ws_frame_t :=
  Frame (fin f) (rsv1 f) (rsv2 f) (rsv3 f) (opcode f) (mask f) (mask_key f) (payload_len f) h (payload f) (last f) (step f).
Definition set_payload (f : ws_frame_t) (p : option payload_ptr) (l : option last_ptr) : ws_frame_t :=
  Frame (fin f) (rsv1 f) (rsv2 f) (rsv3 f) (opcode f) (mask f) (mask_key f) (payload_len f) (header f) p l (step f).
Definition set_payload_len (f : ws_frame_t) (n : Z) : ws_frame_t :=
  Frame (fin f) (rsv1 f) (rsv2 f) (rsv3 f) (opcode f) (mask f) (mask_key f) n (header f) (payload f) (last f) (step f).
Definition set_mask_key (f : ws_frame_t) (k : bytes) : ws_frame_t :=
  Frame (fin f) (rsv1 f) (rsv2 f) (rsv3 f) (opcode f) (mask f) k (payload_len f) (header f) (payload f) (last f) (step f).

(** The settings of the location. *)
Record ws_conf := WsConf {
  pub_websocket : bool;
  sub_websocket : bool;
  websocket_heartbeat_conf : option (bytes * bytes);
  websocket_ping_interval : Z;
  subscriber_timeout : Z;
  unsubscribe_request_url : bool;
}.

(** What is done to the rest of the server. *)
Inductive ws_effect :=
  | Sent (frame : bytes)                          (* given to the output filter *)
  | Published (msg : bytes) (binary : bool)       (* given to the storage engine *)
  | Intercepted (msg : bytes) (binary : bool)
  | UpstreamRequest (body : bytes)
  | UnsubscribeRequest
  | EnqueueCallback
  | DequeueCallback
  | RespondHttp (status : Z)                      (* before the handshake *)
  | FinalizeRequest.
Global Instance ws_effect_eq_dec : EqDecision ws_effect.
Proof. solve_decision. Defined.

(** A message is published with the data of the callback, [ws_publish_data_t]. *)
Record ws_publish_data_t := PublishData { d_msgbuf : bytes; d_binary : bool; d_subrequest : bool }.

Section websocket.
Context `{NgxSocket} `{Inflate} `{NgxPool} `{NgxUtf8}.
Context (cf : ws_conf).

(** [freed] tells that the memory was given back, [ctx_sub] whether [ctx->sub]
    still points to the subscriber.  [answers] holds what the storage engine
    answers to the next publications: [Some status] at once, [None] later. *)
Record full_subscriber_t := Fsub {
  frame : ws_frame_t;
  deflate_enabled : bool;
  ws_meta_subprotocol : bool;
  client_max_window_bits : Z;
  zstream_in : option zstream;
  upstream_request_url : bool;
  intercept : bool;
  awaiting_pong : bool;
  holding : bool;
  shook_hands : bool;
  sent_close_frame : bool;
  received_close_frame : bool;
  awaiting_destruction : bool;
  reserved : Z;
  enqueued : bool;
  dead : bool;
  destroy_after_dequeue : bool;
  ping_timer : option Z;
  closing_timer : option Z;
  timeout_timer : option Z;
  msg_pool : bool;
  ctx_sub : bool;
  freed : bool;
  answers : list (option Z);
  out : list ws_effect;
}.

(** Assignments to one field. *)
Definition with_frame (f : full_subscriber_t) (v : ws_frame_t) : full_subscriber_t :=
  Fsub v (deflate_enabled f) (ws_meta_subprotocol f) (client_max_window_bits f) (zstream_in f)
    (upstream_request_url f) (intercept f) (awaiting_pong f) (holding f) (shook_hands f) (sent_close_frame f)
    (received_close_frame f) (awaiting_destruction f) (reserved f) (enqueued f) (dead f) (destroy_after_dequeue f)
    (ping_timer f) (closing_timer f) (timeout_timer f) (msg_pool f) (ctx_sub f) (freed f) (answers f) (out f).
Definition with_zstream_in (f : full_subscriber_t) (v : option zstream) : full_subscriber_t :=
  Fsub (frame f) (deflate_enabled f) (ws_meta_subprotocol f) (client_max_window_bits f) v (upstream_request_url f)
    (intercept f) (awaiting_pong f) (holding f) (shook_hands f) (sent_close_frame f) (received_close_frame f)
    (awaiting_destruction f) (reserved f) (enqueued f) (dead f) (destroy_after_dequeue f) (ping_timer f)
    (closing_timer f) (timeout_timer f) (msg_pool f) (ctx_sub f) (freed f) (answers f) (out f).
Definition with_awaiting_pong (f : full_subscriber_t) (v : bool) : full_subscriber_t :=
  Fsub (frame f) (deflate_enabled f) (ws_meta_subprotocol f) (client_max_window_bits f) (zstream_in f)
    (upstream_request_url f) (intercept f) v (holding f) (shook_hands f) (sent_close_frame f) (received_close_frame f)
    (awaiting_destruction f) (reserved f) (enqueued f) (dead f) (destroy_after_dequeue f) (ping_timer f)
    (closing_timer f) (timeout_timer f) (msg_pool f) (ctx_sub f) (freed f) (answers f) (out f).
Definition with_holding (f : full_subscriber_t) (v : bool) : full_subscriber_t :=
  Fsub (frame f) (deflate_enabled f) (ws_meta_subprotocol f) (client_max_window_bits f) (zstream_in f)
    (upstream_request_url f) (intercept f) (awaiting_pong f) v (shook_hands f) (sent_close_frame f)
    (received_close_frame f) (awaiting_destruction f) (reserved f) (enqueued f) (dead f) (destroy_after_dequeue f)
    (ping_timer f) (closing_timer f) (timeout_timer f) (msg_pool f) (ctx_sub f) (freed f) (answers f) (out f).
Definition with_shook_hands (f : full_subscriber_t) (v : bool) : full_subscriber_t :=
  Fsub (frame f) (deflate_enabled f) (ws_meta_subprotocol f) (client_max_window_bits f) (zstream_in f)
    (upstream_request_url f) (intercept f) (awaiting_pong f) (holding f) v (sent_close_frame f)
    (received_close_frame f) (awaiting_destruction f) (reserved f) (enqueued f) (dead f) (destroy_after_dequeue f)
    (ping_timer f) (closing_timer f) (timeout_timer f) (msg_pool f) (ctx_sub f) (freed f) (answers f) (out f).
Definition with_sent_close_frame (f : full_subscriber_t) (v : bool) : full_subscriber_t :=
  Fsub (frame f) (deflate_enabled f) (ws_meta_subprotocol f) (client_max_window_bits f) (zstream_in f)
    (upstream_request_url f) (intercept f) (awaiting_pong f) (holding f) (shook_hands f) v (received_close_frame f)
    (awaiting_destruction f) (reserved f) (enqueued f) (dead f) (destroy_after_dequeue f) (ping_timer f)
    (closing_timer f) (timeout_timer f) (msg_pool f) (ctx_sub f) (freed f) (answers f) (out f).
Definition with_received_close_frame (f : full_subscriber_t) (v : bool) : full_subscriber_t :=
  Fsub (frame f) (deflate_enabled f) (ws_meta_subprotocol f) (client_max_window_bits f) (zstream_in f)
    (upstream_request_url f) (intercept f) (awaiting_pong f) (holding f) (shook_hands f) (sent_close_frame f) v
    (awaiting_destruction f) (reserved f) (enqueued f) (dead f) (destroy_after_dequeue f) (ping_timer f)
    (closing_timer f) (timeout_timer f) (msg_pool f) (ctx_sub f) (freed f) (answers f) (out f).
Definition with_awaiting_destruction (f : full_subscriber_t) (v : bool) : full_subscriber_t :=
  Fsub (frame f) (deflate_enabled f) (ws_meta_subprotocol f) (client_max_window_bits f) (zstream_in f)
    (upstream_request_url f) (intercept f) (awaiting_pong f) (holding f) (shook_hands f) (sent_close_frame f)
    (received_close_frame f) v (reserved f) (enqueued f) (dead f) (destroy_after_dequeue f) (ping_timer f)
    (closing_timer f) (timeout_timer f) (msg_pool f) (ctx_sub f) (freed f) (answers f) (out f).
Definition with_reserved (f : full_subscriber_t) (v : Z) : full_subscriber_t :=
  Fsub (frame f) (deflate_enabled f) (ws_meta_subprotocol f) (client_max_window_bits f) (zstream_in f)
    (upstream_request_url f) (intercept f) (awaiting_pong f) (holding f) (shook_hands f) (sent_close_frame f)
    (received_close_frame f) (awaiting_destruction f) v (enqueued f) (dead f) (destroy_after_dequeue f) (ping_timer f)
    (closing_timer f) (timeout_timer f) (msg_pool f) (ctx_sub f) (freed f) (answers f) (out f).
Definition with_enqueued (f : full_subscriber_t) (v : bool) : full_subscriber_t :=
  Fsub (frame f) (deflate_enabled f) (ws_meta_subprotocol f) (client_max_window_bits f) (zstream_in f)
    (upstream_request_url f) (intercept f) (awaiting_pong f) (holding f) (shook_hands f) (sent_close_frame f)
    (received_close_frame f) (awaiting_destruction f) (reserved f) v (dead f) (destroy_after_dequeue f) (ping_timer f)
    (closing_timer f) (timeout_timer f) (msg_pool f) (ctx_sub f) (freed f) (answers f) (out f).
Definition with_dead (f : full_subscriber_t) (v : bool) : full_subscriber_t :=
  Fsub (frame f) (deflate_enabled f) (ws_meta_subprotocol f) (client_max_window_bits f) (zstream_in f)
    (upstream_request_url f) (intercept f) (awaiting_pong f) (holding f) (shook_hands f) (sent_close_frame f)
    (received_close_frame f) (awaiting_destruction f) (reserved f) (enqueued f) v (destroy_after_dequeue f)
    (ping_timer f) (closing_timer f) (timeout_timer f) (msg_pool f) (ctx_sub f) (freed f) (answers f) (out f).
Definition with_ping_timer (f : full_subscriber_t) (v : option Z) : full_subscriber_t :=
  Fsub (frame f) (deflate_enabled f) (ws_meta_subprotocol f) (client_max_window_bits f) (zstream_in f)
    (upstream_request_url f) (intercept f) (awaiting_pong f) (holding f) (shook_hands f) (sent_close_frame f)
    (received_close_frame f) (awaiting_destruction f) (reserved f) (enqueued f) (dead f) (destroy_after_dequeue f) v
    (closing_timer f) (timeout_timer f) (msg_pool f) (ctx_sub f) (freed f) (answers f) (out f).
Definition with_closing_timer (f : full_subscriber_t) (v : option Z) : full_subscriber_t :=
  Fsub (frame f) (deflate_enabled f) (ws_meta_subprotocol f) (client_max_window_bits f) (zstream_in f)
    (upstream_request_url f) (intercept f) (awaiting_pong f) (holding f) (shook_hands f) (sent_close_frame f)
    (received_close_frame f) (awaiting_destruction f) (reserved f) (enqueued f) (dead f) (destroy_after_dequeue f)
    (ping_timer f) v (timeout_timer f) (msg_pool f) (ctx_sub f) (freed f) (answers f) (out f).
Definition with_timeout_timer (f : full_subscriber_t) (v : option Z) : full_subscriber_t :=
  Fsub (frame f) (deflate_enabled f) (ws_meta_subprotocol f) (client_max_window_bits f) (zstream_in f)
    (upstream_request_url f) (intercept f) (awaiting_pong f) (holding f) (shook_hands f) (sent_close_frame f)
    (received_close_frame f) (awaiting_destruction f) (reserved f) (enqueued f) (dead f) (destroy_after_dequeue f)
    (ping_timer f) (closing_timer f) v (msg_pool f) (ctx_sub f) (freed f) (answers f) (out f).
Definition with_msg_pool (f : full_subscriber_t) (v : bool) : full_subscriber_t :=
  Fsub (frame f) (deflate_enabled f) (ws_meta_subprotocol f) (client_max_window_bits f) (zstream_in f)
    (upstream_request_url f) (intercept f) (awaiting_pong f) (holding f) (shook_hands f) (sent_close_frame f)
    (received_close_frame f) (awaiting_destruction f) (reserved f) (enqueued f) (dead f) (destroy_after_dequeue f)
    (ping_timer f) (closing_timer f) (timeout_timer f) v (ctx_sub f) (freed f) (answers f) (out f).
Definition with_ctx_sub (f : full_subscriber_t) (v : bool) : full_subscriber_t :=
  Fsub (frame f) (deflate_enabled f) (ws_meta_subprotocol f) (client_max_window_bits f) (zstream_in f)
    (upstream_request_url f) (intercept f) (awaiting_pong f) (holding f) (shook_hands f) (sent_close_frame f)
    (received_close_frame f) (awaiting_destruction f) (reserved f) (enqueued f) (dead f) (destroy_after_dequeue f)
    (ping_timer f) (closing_timer f) (timeout_timer f) (msg_pool f) v (freed f) (answers f) (out f).
Definition with_freed (f : full_subscriber_t) (v : bool) : full_subscriber_t :=
  Fsub (frame f) (deflate_enabled f) (ws_meta_subprotocol f) (client_max_window_bits f) (zstream_in f)
    (upstream_request_url f) (intercept f) (awaiting_pong f) (holding f) (shook_hands f) (sent_close_frame f)
    (received_close_frame f) (awaiting_destruction f) (reserved f) (enqueued f) (dead f) (destroy_after_dequeue f)
    (ping_timer f) (closing_timer f) (timeout_timer f) (msg_pool f) (ctx_sub f) v (answers f) (out f).
Definition with_answers (f : full_subscriber_t) (v : list (option Z)) : full_subscriber_t :=
  Fsub (frame f) (deflate_enabled f) (ws_meta_subprotocol f) (client_max_window_bits f) (zstream_in f)
    (upstream_request_url f) (intercept f) (awaiting_pong f) (holding f) (shook_hands f) (sent_close_frame f)
    (received_close_frame f) (awaiting_destruction f) (reserved f) (enqueued f) (dead f) (destroy_after_dequeue f)
    (ping_timer f) (closing_timer f) (timeout_timer f) (msg_pool f) (ctx_sub f) (freed f) v (out f).
Definition with_out (f : full_subscriber_t) (v : list ws_effect) : full_subscriber_t :=
  Fsub (frame f) (deflate_enabled f) (ws_meta_subprotocol f) (client_max_window_bits f) (zstream_in f)
    (upstream_request_url f) (intercept f) (awaiting_pong f) (holding f) (shook_hands f) (sent_close_frame f)
    (received_close_frame f) (awaiting_destruction f) (reserved f) (enqueued f) (dead f) (destroy_after_dequeue f)
    (ping_timer f) (closing_timer f) (timeout_timer f) (msg_pool f) (ctx_sub f) (freed f) (answers f) v.

Definition emit (f : full_subscriber_t) (e : ws_effect) : full_subscriber_t := with_out f (out f ++ [e]).

(** Memory that was given back is not touched. *)
Definition live (f : full_subscriber_t) : outcome unit := c_assert (negb (freed f)).

(** ** Sending *)

Definition websocket_send_frame (f : full_subscriber_t) (opcode len : Z) (msg_chain : option bytes) :
    outcome full_subscriber_t :=
  live f;;
  s ← websocket_frame_header_chain opcode len msg_chain; Ret (emit f (Sent s)).

Definition websocket_delete_timers (f : full_subscriber_t) : full_subscriber_t :=
  with_timeout_timer (with_closing_timer (with_ping_timer f None) None) None.

Definition websocket_subscriber_destroy (f : full_subscriber_t) : outcome full_subscriber_t :=
  live f;;
  let f := if negb (awaiting_destruction f) then with_ctx_sub f false else f in
  if 0 <? reserved f then Ret (with_dead (with_awaiting_destruction f true) true)
  else Ret (with_freed (with_zstream_in (with_msg_pool (websocket_delete_timers f) false) None) true).

(** The first close frame; [websocket_send_close_frame] below tests for it. *)
Definition send_first_close_frame (f : full_subscriber_t) (code : Z) (err : option bytes) : outcome full_subscriber_t :=
  live f;;
  s ← websocket_close_frame_chain code err;
  let f := with_sent_close_frame (emit f (Sent s)) true in
  Ret (with_closing_timer f (Some (if received_close_frame f then 0 else WEBSOCKET_CLOSING_TIMEOUT))).

(** A close frame is sent here only when none was before. *)
Definition websocket_dequeue (f : full_subscriber_t) : outcome full_subscriber_t :=
  live f;;
  let f := with_enqueued (emit f DequeueCallback) false in
  f ← (if negb (sent_close_frame f) && shook_hands f then
         send_first_close_frame f CLOSE_NORMAL (Some (ngx_string_of_pointer (bytes_of "410 Gone")))
       else Ret f);
  let f := websocket_delete_timers f in
  if destroy_after_dequeue f then websocket_subscriber_destroy f else Ret f.

Definition websocket_finalize_request (f : full_subscriber_t) : outcome full_subscriber_t :=
  live f;;
  let f := if unsubscribe_request_url cf && enqueued f then emit f UnsubscribeRequest else f in
  let f := with_dead f true in
  f ← (if enqueued f then websocket_dequeue f else Ret f);
  Ret (emit f FinalizeRequest).

Definition websocket_send_close_frame (f : full_subscriber_t) (code : Z) (err : option bytes) : outcome full_subscriber_t :=
  live f;;
  if sent_close_frame f then websocket_finalize_request f else send_first_close_frame f (u16 code) err.

Definition websocket_send_close_frame_cstr (f : full_subscriber_t) (code : Z) (err : bytes) : outcome full_subscriber_t :=
  websocket_send_close_frame f code (Some (ngx_string_of_pointer err)).

(** ** Reservations, timers, the queue *)

Definition ensure_request_hold (f : full_subscriber_t) : full_subscriber_t :=
  if negb (holding f) then with_holding f true else f.

(** [handshake] is the result of [websocket_perform_handshake]. *)
Definition ensure_handshake (handshake : bool) (f : full_subscriber_t) : full_subscriber_t * Z :=
  if negb (shook_hands f) then
    let f := ensure_request_hold f in
    if handshake then (with_shook_hands f true, NGX_OK) else (f, NGX_ERROR)
  else (f, NGX_OK).

Definition websocket_reserve (f : full_subscriber_t) : outcome full_subscriber_t :=
  live f;;
  let f := ensure_request_hold f in Ret (with_reserved f (reserved f + 1)).

Definition websocket_release (f : full_subscriber_t) (nodestroy : bool) : outcome (full_subscriber_t * Z) :=
  live f;;
  c_assert (0 <? reserved f);;
  let f := with_reserved f (reserved f - 1) in
  if negb nodestroy && awaiting_destruction f && (reserved f =? 0) then
    f ← websocket_subscriber_destroy f; Ret (f, NGX_ABORT)
  else Ret (f, NGX_OK).

Definition ping_ev_handler (f : full_subscriber_t) : outcome full_subscriber_t :=
  live f;;
  let f := with_ping_timer f None in
  if awaiting_pong f then websocket_finalize_request f
  else
    let f := with_awaiting_pong f true in
    f ← websocket_send_frame f WEBSOCKET_PING_LAST_FRAME_BYTE 0 None;
    Ret (with_ping_timer f (Some (websocket_ping_interval cf * 1000))).

Definition closing_ev_handler (f : full_subscriber_t) : outcome full_subscriber_t :=
  live f;;
  websocket_finalize_request (with_closing_timer f None).

Definition websocket_enqueue (handshake : bool) (f : full_subscriber_t) : outcome (full_subscriber_t * Z) :=
  live f;;
  let '(f, rc) := ensure_handshake handshake f in
  if negb (rc =? NGX_OK) then Ret (f, rc)
  else
    let f := emit (with_enqueued f true) EnqueueCallback in
    let f := if 0 <? websocket_ping_interval cf then with_ping_timer f (Some (websocket_ping_interval cf * 1000)) else f in
    let f := if 0 <? subscriber_timeout cf then with_timeout_timer f (Some (subscriber_timeout cf * 1000)) else f in
    Ret (f, NGX_OK).

(** The request is closed from outside. *)
Definition sudden_abort_handler (f : full_subscriber_t) : outcome full_subscriber_t := websocket_dequeue f.

(** ** Responding *)

Definition NGX_HTTP_NO_CONTENT : Z := 204.
Definition NGX_HTTP_NOT_MODIFIED : Z := 304.
Definition NGX_HTTP_FORBIDDEN : Z := 403.
Definition NGX_HTTP_INTERNAL_SERVER_ERROR : Z := 500.
Definition NGX_HTTP_INSUFFICIENT_STORAGE : Z := 507.

(** The reason of the close frame of a status. *)
Definition close_code_of (status_code : Z) (status_line : option bytes) : option (Z * bytes) :=
  let line d := match status_line with Some l => l | None => d end in
  if status_code =? 410 then Some (CLOSE_GOING_AWAY, line (bytes_of "410 Channel Deleted"))
  else if status_code =? 403 then Some (CLOSE_POLICY_VIOLATION, line (bytes_of "403 Forbidden"))
  else if status_code =? 500 then Some (CLOSE_INTERNAL_SERVER_ERROR, line (bytes_of "500 Internal Server Error"))
  else if status_code =? 507 then Some (CLOSE_INTERNAL_SERVER_ERROR, line (bytes_of "507 Insufficient Storage"))
  else if (400 <=? status_code) && (status_code <? 600) || (status_code =? NGX_HTTP_NOT_MODIFIED) then
    Some (if (500 <=? status_code) && (status_code <=? 599) then CLOSE_INTERNAL_SERVER_ERROR else CLOSE_NORMAL,
          dec status_code ++ [ch_space] ++ line [])
  else None.

(** The custom reason is written to [msgbuf[50]]. *)
Definition websocket_respond_status (f : full_subscriber_t) (status_code : Z) (status_line : option bytes) :
    outcome full_subscriber_t :=
  live f;;
  if (status_code =? NGX_HTTP_NO_CONTENT) || (status_code =? NGX_HTTP_NOT_MODIFIED) && bool_decide (status_line = None) then Ret f
  else if negb (shook_hands f) then Ret (emit f (RespondHttp status_code))
  else
    match close_code_of status_code status_line with
    | Some (code, msg) =>
        c_assert (bool_decide (status_code ∈ [410; 403; 500; 507]) || (length msg <=? 50)%nat);;
        websocket_send_close_frame f code (Some msg)
    | None => Crash    (* assert(0) *)
    end.

(** [msgid] is the text of the subscriber's new position. *)
Definition websocket_respond_message (handshake : bool) (deflate : bytes -> bytes) (f : full_subscriber_t) (msgid : bytes)
    (msg : ws_msg) : outcome (full_subscriber_t * Z) :=
  live f;;
  let '(f, rc) := ensure_handshake handshake f in
  if negb (rc =? NGX_OK) then Ret (f, rc)
  else
    let f := match timeout_timer f with Some _ => with_timeout_timer f (Some (subscriber_timeout cf * 1000)) | None => f end in
    s ← websocket_msg_frame_chain deflate (deflate_enabled f) (ws_meta_subprotocol f) msgid msg;
    Ret (emit f (Sent s), NGX_OK).

(** ** Publishing *)

(** [info] is the text about the channel that a publisher is answered with. *)
Definition websocket_publish_callback (f : full_subscriber_t) (status : Z) (info : bytes) : outcome full_subscriber_t :=
  live f;;
  '(f, rc) ← websocket_release f false;
  if (rc =? NGX_ABORT) || dead f then Ret f
  else if (status =? NCHAN_MESSAGE_QUEUED) || (status =? NCHAN_MESSAGE_RECEIVED) then
    if sub_websocket cf then Ret f
    else websocket_send_frame f WEBSOCKET_TEXT_LAST_FRAME_BYTE (Z.of_nat (length info)) (Some info)
  else if status =? NGX_HTTP_INSUFFICIENT_STORAGE then websocket_respond_status f NGX_HTTP_INSUFFICIENT_STORAGE None
  else if (status =? NGX_ERROR) || (status =? NGX_HTTP_INTERNAL_SERVER_ERROR) then
    websocket_respond_status f NGX_HTTP_INTERNAL_SERVER_ERROR None
  else Ret f.

Definition websocket_publish_continue (f : full_subscriber_t) (d : ws_publish_data_t) : outcome full_subscriber_t :=
  live f;;
  if intercept f then Ret (emit f (Intercepted (d_msgbuf d) (d_binary d)))
  else
    f ← websocket_reserve f;
    let f := emit f (Published (d_msgbuf d) (d_binary d)) in
    match answers f with
    | Some status :: rest => websocket_publish_callback (with_answers f rest) status []
    | None :: rest => Ret (with_answers f rest)
    | [] => Ret f
    end.

Definition websocket_publish (f : full_subscriber_t) (buf : bytes) (binary : bool) : outcome full_subscriber_t :=
  live f;;
  let f := with_msg_pool f false in
  if intercept f || negb (upstream_request_url f) then websocket_publish_continue f (PublishData buf binary false)
  else f ← websocket_reserve (emit f (UpstreamRequest buf)); Ret f.

(** [code] and [body] are the upstream's answer. *)
Definition websocket_publish_upstream_handler (f : full_subscriber_t) (d : ws_publish_data_t) (rc code : Z) (body : bytes) :
    outcome full_subscriber_t :=
  live f;;
  '(f, released) ← websocket_release f false;
  if (released =? NGX_ABORT) || (rc =? NGX_ABORT) then Ret f
  else if rc =? NGX_OK then
    if (code =? 200) || (code =? 201) || (code =? 202) then
      websocket_publish_continue f (PublishData body (d_binary d) true)
    else if code =? NGX_HTTP_NOT_MODIFIED then websocket_publish_continue f d
    else if code =? NGX_HTTP_NO_CONTENT then Ret f
    else websocket_respond_status f NGX_HTTP_FORBIDDEN None
  else websocket_respond_status f NGX_HTTP_INTERNAL_SERVER_ERROR None.

Definition websocket_heartbeat (f : full_subscriber_t) (buf : bytes) : outcome (full_subscriber_t * Z) :=
  live f;;
  match websocket_heartbeat_conf cf with
  | None => Ret (f, NGX_DECLINED)
  | Some (in_, out_) =>
      if nchan_ngx_str_match in_ buf then
        f ← websocket_send_frame f WEBSOCKET_TEXT_LAST_FRAME_BYTE (Z.of_nat (length out_)) (Some out_); Ret (f, NGX_OK)
      else Ret (f, NGX_DECLINED)
  end.

(** ** Reading *)

(** Bytes stored from [off] on in a block. *)
Definition write_at (block : bytes) (off : Z) (s : bytes) : outcome bytes :=
  c_assert ((0 <=? off) && (off + Z.of_nat (length s) <=? Z.of_nat (length block)));;
  Ret (take (Z.to_nat off) block ++ s ++ drop (Z.to_nat off + length s) block).

(** [ws_recv]: [block] holds the bytes of the buffer, [blast] is [buf->last]. *)
Definition ws_recv (c : conn) (block : bytes) (blast len : Z) : outcome (conn * bytes * Z * Z) :=
  match recv c (len - blast) with
  | (RecvAgain, c) => Ret (c, block, blast, NGX_AGAIN)
  | (RecvError, c) => Ret (c, block, blast, NGX_ERROR)
  | (RecvBytes s eof, c) =>
      block ← write_at block blast s;
      if (eof : bool) then Ret (c, block, blast, NGX_ERROR)
      else if (length s =? 0)%nat then Ret (c, block, blast, NGX_DONE)
      else
        let blast := blast + Z.of_nat (length s) in
        Ret (c, block, blast, if blast <? len then NGX_AGAIN else NGX_OK)
  end.

(** Reading into [frame->header]; [hlast] is [buf.last], [None] when it does not
    point into the header. *)
Definition recv_header (f : full_subscriber_t) (c : conn) (hlast : option Z) (len : Z) :
    outcome (full_subscriber_t * conn * Z * Z) :=
  match hlast with
  | None => Crash
  | Some k =>
      '(c, h, k, rc) ← ws_recv c (header (frame f)) k len;
      Ret (with_frame f (set_header (frame f) h), c, k, rc)
  end.

(** How a round of the loop ends: the next round, [goto retry], [goto exit] with
    [rc] and [buf.last], or a return. *)
Inductive round_end :=
  | NextRound
  | Retry
  | Exit (rc : Z) (buf_last : last_ptr)
  | Return.

Definition websocket_reading_finalize (f : full_subscriber_t) : outcome full_subscriber_t :=
  if ctx_sub f then live f;; websocket_finalize_request (websocket_delete_timers f) else Ret f.

Definition nth_byte (s : bytes) (i : nat) : Z := nth i s 0.

(** [frame->header] is decoded. *)
Definition decode_start (fr : ws_frame_t) : ws_frame_t :=
  let b0 := nth_byte (header fr) 0 in
  let b1 := nth_byte (header fr) 1 in
  Frame (Z.land (Z.shiftr b0 7) 1) (Z.land (Z.shiftr b0 6) 1) (Z.land (Z.shiftr b0 5) 1) (Z.land (Z.shiftr b0 4) 1)
    (Z.land b0 15) (Z.land (Z.shiftr b1 7) 1) (mask_key fr) (Z.land b1 127) (header fr) (payload fr) (last fr)
    WEBSOCKET_READ_GET_REAL_SIZE_STEP.

Definition read_start (f : full_subscriber_t) (c : conn) (hlast : option Z) : outcome (full_subscriber_t * conn * round_end) :=
  '(f, c, k, rc) ← recv_header f c hlast 2;
  if negb (rc =? NGX_OK) then Ret (f, c, Exit rc (LastHeader k))
  else Ret (with_frame f (decode_start (frame f)), c, NextRound).

Definition read_size (f : full_subscriber_t) (c : conn) (hlast : option Z) : outcome (full_subscriber_t * conn * round_end) :=
  let next f := with_frame f (set_step (frame f) WEBSOCKET_READ_GET_MASK_KEY_STEP) in
  if payload_len (frame f) =? 126 then
    '(f, c, k, rc) ← recv_header f c hlast 2;
    if negb (rc =? NGX_OK) then Ret (f, c, Exit rc (LastHeader k))
    else Ret (next (with_frame f (set_payload_len (frame f) (ntohs (of_le (take 2 (header (frame f))))))), c, NextRound)
  else if payload_len (frame f) =? 127 then
    '(f, c, k, rc) ← recv_header f c hlast 8;
    if negb (rc =? NGX_OK) then Ret (f, c, Exit rc (LastHeader k))
    else Ret (next (with_frame f (set_payload_len (frame f) (nchan_ntohll (of_le (take 8 (header (frame f))))))), c, NextRound)
  else Ret (next f, c, NextRound).

Definition read_mask (f : full_subscriber_t) (c : conn) (hlast : option Z) : outcome (full_subscriber_t * conn * round_end) :=
  let next f := with_frame f (set_step (frame f) WEBSOCKET_READ_GET_PAYLOAD_STEP) in
  if negb (mask (frame f) =? 0) then
    '(f, c, k, rc) ← recv_header f c hlast 4;
    if negb (rc =? NGX_OK) then Ret (f, c, Exit rc (LastHeader k))
    else Ret (next (with_frame f (set_mask_key (frame f) (take 4 (header (frame f))))), c, NextRound)
  else Ret (next f, c, NextRound).

(** The frame was handled: from the start. *)
Definition restart_frame (f : full_subscriber_t) : outcome full_subscriber_t :=
  live f;;
  Ret (with_frame f (set_payload (set_step (frame f) WEBSOCKET_READ_START_STEP) None None)).

Definition finalize_and_return (f : full_subscriber_t) (c : conn) : outcome (full_subscriber_t * conn * round_end) :=
  f ← websocket_reading_finalize f; Ret (f, c, Return).

Definition unmask (fr : ws_frame_t) (p : bytes) : bytes :=
  if negb (mask fr =? 0) then websocket_unmask_frame_plain (mask_key fr) p else p.

(** A whole control frame, unmasked. *)
Definition handle_control (f : full_subscriber_t) (c : conn) (p : bytes) : outcome (full_subscriber_t * conn * round_end) :=
  let fr := frame f in
  if opcode fr =? WEBSOCKET_OPCODE_PING then
    f ← websocket_send_frame f WEBSOCKET_PONG_LAST_FRAME_BYTE (payload_len fr) (Some p);
    f ← restart_frame f; Ret (f, c, Retry)
  else if opcode fr =? WEBSOCKET_OPCODE_PONG then
    f ← restart_frame (with_awaiting_pong f false); Ret (f, c, Retry)
  else
    let f := with_received_close_frame f true in
    let '(close_code, reason) :=
      if 2 <=? payload_len fr then (ntohs (of_le (take 2 p)), drop 2 p) else (0, []) in
    f ← (if negb (sent_close_frame f) then websocket_send_close_frame f close_code (Some reason) else Ret f);
    finalize_and_return f c.

(** The payload of a control frame is read to an array of this call. *)
Definition read_control (f : full_subscriber_t) (c : conn) : outcome (full_subscriber_t * conn * round_end) :=
  let fr := frame f in
  if payload_len fr =? 0 then handle_control (with_frame f (set_payload fr None (last fr))) c []
  else if payload_len fr <? 1024 then
    '(c, block, k, rc) ← ws_recv c (replicate (Z.to_nat 1024) 0) 0 (payload_len fr);
    let f := with_frame f (set_payload fr (Some (OnStack block)) (Some (LastPayload 0))) in
    if negb (rc =? NGX_OK) then Ret (f, c, Exit rc (LastPayload k))
    else handle_control f c (unmask fr (take (Z.to_nat (payload_len fr)) block))
  else
    f ← websocket_send_close_frame f CLOSE_MESSAGE_TOO_BIG None; finalize_and_return f c.

Definition websocket_inflate_message (f : full_subscriber_t) (msg : bytes) : full_subscriber_t * option bytes :=
  match (match zstream_in f with Some z => Some z | None => inflate_open (- client_max_window_bits f) end) with
  | None => (f, None)
  | Some z => let '(r, z') := nchan_inflate z msg in (with_zstream_in f (Some z'), r)
  end.

(** A whole message, unmasked. *)
Definition handle_message (f : full_subscriber_t) (c : conn) (p : bytes) : outcome (full_subscriber_t * conn * round_end) :=
  let fr := frame f in
  let '(f, msgbuf) :=
    if deflate_enabled f && negb (rsv1 fr =? 0) then websocket_inflate_message f p else (f, Some p) in
  match msgbuf with
  | None =>
      f ← websocket_send_close_frame_cstr f CLOSE_INVALID_PAYLOAD (bytes_of "Invalid permessage-deflate data");
      live f;; finalize_and_return (with_msg_pool f false) c
  | Some msgbuf =>
      text_ok ← (if opcode fr =? WEBSOCKET_OPCODE_TEXT then is_utf8 msgbuf else Ret true);
      if negb text_ok then
        f ← websocket_send_close_frame_cstr (with_msg_pool f false) CLOSE_INVALID_PAYLOAD (bytes_of "Invalid text frame (not UTF8).");
        finalize_and_return f c
      else
        '(f, rc) ← websocket_heartbeat f msgbuf;
        f ← (if negb (rc =? NGX_OK) then websocket_publish f msgbuf (opcode fr =? WEBSOCKET_OPCODE_BINARY)
             else Ret (with_msg_pool f false));
        f ← restart_frame f; Ret (f, c, Retry)
  end.

Definition read_message (f : full_subscriber_t) (c : conn) : outcome (full_subscriber_t * conn * round_end) :=
  if negb (pub_websocket cf) then
    f ← websocket_send_close_frame_cstr f CLOSE_POLICY_VIOLATION (bytes_of "Publishing not allowed."); finalize_and_return f c
  else
    let fr := frame f in
    let allocated :=
      match payload fr with
      | None =>
          let size := if payload_len fr =? 0 then 1 else payload_len fr in
          if palloc_succeeds size then Some (set_payload fr (Some (InPool (replicate (Z.to_nat size) 0))) (Some (LastPayload 0)))
          else None
      | Some _ => Some fr
      end in
    match allocated with
    | None =>
        f ← websocket_send_close_frame f CLOSE_INTERNAL_SERVER_ERROR None;
        live f;; finalize_and_return (with_msg_pool f false) c
    | Some fr =>
        let f := with_frame (with_msg_pool f true) fr in
        match payload fr, last fr with
        | Some (InPool block), Some (LastPayload k) =>
            '(c, block, k, rc) ←
              (if 0 <? payload_len fr then ws_recv c block k (payload_len fr) else Ret (c, block, k, NGX_OK));
            let f := with_frame f (set_payload fr (Some (InPool block)) (last fr)) in
            if negb (rc =? NGX_OK) then Ret (f, c, Exit rc (LastPayload k))
            else handle_message f c (unmask fr (take (Z.to_nat (payload_len fr)) block))
        | _, _ => Crash      (* buf.last is not in the payload *)
        end
    end.

Definition read_round (f : full_subscriber_t) (c : conn) (hlast : option Z) : outcome (full_subscriber_t * conn * round_end) :=
  let fr := frame f in
  if step fr =? WEBSOCKET_READ_START_STEP then read_start f c hlast
  else if step fr =? WEBSOCKET_READ_GET_REAL_SIZE_STEP then read_size f c hlast
  else if step fr =? WEBSOCKET_READ_GET_MASK_KEY_STEP then read_mask f c hlast
  else if step fr =? WEBSOCKET_READ_GET_PAYLOAD_STEP then
    if (opcode fr =? WEBSOCKET_OPCODE_PING) || (opcode fr =? WEBSOCKET_OPCODE_PONG) || (opcode fr =? WEBSOCKET_OPCODE_CLOSE)
    then read_control f c
    else if (opcode fr =? WEBSOCKET_OPCODE_TEXT) || (opcode fr =? WEBSOCKET_OPCODE_BINARY) then read_message f c
    else
      f ← websocket_send_frame f WEBSOCKET_CLOSE_LAST_FRAME_BYTE 0 None; finalize_and_return f c
  else finalize_and_return f c.

(** After [exit]; the arrays of the call are gone. *)
Definition reading_exit (f : full_subscriber_t) (c : conn) (rc : Z) (buf_last : last_ptr) : outcome full_subscriber_t :=
  let fr := frame f in
  let gone := match payload fr with Some (OnStack _) => Some Dangling | p => p end in
  let f := with_frame f (set_payload fr gone (last fr)) in
  if rc =? NGX_AGAIN then
    let f := with_frame f (set_payload (frame f) (payload (frame f)) (Some buf_last)) in
    if negb (restore_read c) then websocket_reading_finalize f else Ret f
  else if rc =? NGX_ERROR then websocket_reading_finalize f
  else Ret f.

(** [set_buffer(&buf, frame->header, frame->last, 8)]. *)
Definition header_last (fr : ws_frame_t) : option Z :=
  match last fr with None => Some 0 | Some (LastHeader k) => Some k | Some (LastPayload _) => None end.

(** The rounds of [websocket_reading]. *)
Fixpoint reading_loop (fuel : nat) (f : full_subscriber_t) (c : conn) (hlast : option Z) : outcome (full_subscriber_t * conn) :=
  match fuel with
  | O => NoFuel
  | S fuel' =>
      if conn_broken c then f ← websocket_reading_finalize f; Ret (f, c)
      else
        '(f, c, e) ← read_round f c hlast;
        match e with
        | NextRound => reading_loop fuel' f c (Some 0)
        | Retry =>
            if negb (ctx_sub f) then Ret (emit f FinalizeRequest, c)
            else reading_loop fuel' f c (header_last (frame f))
        | Exit rc buf_last => f ← reading_exit f c rc buf_last; Ret (f, c)
        | Return => Ret (f, c)
        end
  end.

Definition websocket_reading (fuel : nat) (f : full_subscriber_t) (c : conn) : outcome (full_subscriber_t * conn) :=
  if negb (ctx_sub f) then Ret (emit f FinalizeRequest, c)
  else live f;; reading_loop fuel f c (header_last (frame f)).
End websocket.
