(* ===== verification/WebsocketFacts.v ===== *)
(** * WebSocket frames are read whole, however they arrive

    Messages and empty control frames are handled once each, in order, for every
    way the bytes are cut into pieces; a call of the read handler ends after a
    number of rounds bounded by the bytes that have arrived. *)

From S2P Require Import Prelude Nginx Scan WsFrame WsFrameFacts Websocket.
Open Scope Z_scope.

(** ** Frames on the wire *)

Definition len7 (n : Z) : Z := if n <=? 125 then n else if n <? 2 ^ 16 then 126 else 127.
Definition len_ext (n : Z) : bytes :=
  if n <=? 125 then [] else if n <? 2 ^ 16 then le_bytes 2 (htons n) else le_bytes 8 (nchan_htonll n).

(** [w_flags] are the bits FIN and RSV, [w_key] the masking key. *)
Record wire_frame := Wire {
  w_flags : Z;
  w_opcode : Z;
  w_key : option bytes;
  w_payload : bytes;
}.

Definition w_len (w : wire_frame) : Z := Z.of_nat (length (w_payload w)).
Definition mask_bit (w : wire_frame) : Z := match w_key w with Some _ => 1 | None => 0 end.
Definition key_bytes (w : wire_frame) : bytes := match w_key w with Some k => k | None => [] end.
Definition body (w : wire_frame) : bytes := match w_key w with Some k => masked k (w_payload w) | None => w_payload w end.
Definition start_bytes (w : wire_frame) : bytes := [16 * w_flags w + w_opcode w; 128 * mask_bit w + len7 (w_len w)].
Definition encode (w : wire_frame) : bytes := start_bytes w ++ len_ext (w_len w) ++ key_bytes w ++ body w.
Fixpoint encode_all (ws : list wire_frame) : bytes := match ws with [] => [] | w :: ws => encode w ++ encode_all ws end.

Definition is_data (w : wire_frame) : bool := (w_opcode w =? WEBSOCKET_OPCODE_TEXT) || (w_opcode w =? WEBSOCKET_OPCODE_BINARY).

(** What the server does with a frame. *)
Definition effect_of (w : wire_frame) : list ws_effect :=
  if is_data w then [Published (w_payload w) (w_opcode w =? WEBSOCKET_OPCODE_BINARY)]
  else if w_opcode w =? WEBSOCKET_OPCODE_PING then [Sent ([WEBSOCKET_PONG_LAST_FRAME_BYTE; w_len w] ++ w_payload w)]
  else [].

(** The last [k] bytes of the stream are to arrive: the payload of no control
    frame has arrived in part. *)
Fixpoint cut_ok (ws : list wire_frame) (k : nat) : Prop :=
  match ws with
  | [] => True
  | w :: ws =>
      (is_data w = false ->
       ~ (length (encode_all ws) < k < length (body w) + length (encode_all ws))%nat) /\ cut_ok ws k
  end.

Lemma cut_ok_app ws ws' k : cut_ok (ws ++ ws') k -> cut_ok ws' k.
Proof. induction ws as [|w ws IH]; [done|]. intros [_ K]. by apply IH. Qed.

(** The server's own frames. *)
Lemma frame_header_encode flags op n : 0 <= n < 2 ^ 63 ->
  websocket_frame_header (16 * flags + op) n = [16 * flags + op; len7 n] ++ len_ext n.
Proof.
  intros Hn. unfold websocket_frame_header, len7, len_ext. destruct (Z.leb_spec n 125); [by rewrite Z.mod_small by lia|].
  destruct (Z.ltb_spec n (2 ^ 16)); rewrite Z.mod_small by lia; done.
Qed.

Lemma len7_range n : 0 <= n -> 0 <= len7 n < 128.
Proof. intros. unfold len7. destruct (Z.leb_spec n 125); [lia|]. destruct (n <? 2 ^ 16); lia. Qed.

(** The fields of the first two bytes. *)
Lemma land_low a b k : 0 <= k -> 0 <= b < 2 ^ k -> Z.land (2 ^ k * a + b) (Z.ones k) = b.
Proof.
  intros Hk Hb. rewrite Z.land_ones, Z.add_comm, Z.mul_comm, Z.mod_add by lia. by apply Z.mod_small.
Qed.

Lemma shift_high a b k : 0 <= k -> 0 <= a < 2 -> 0 <= b < 2 ^ k -> Z.land (Z.shiftr (2 ^ k * a + b) k) 1 = a.
Proof.
  intros Hk Ha Hb. rewrite Z.shiftr_div_pow2, Z.mul_comm, Z.div_add_l, (Z.div_small b), Z.add_0_r by lia.
  change 1 with (Z.ones 1). rewrite Z.land_ones by lia. by apply Z.mod_small.
Qed.

Section reading.
Context `{NgxSocket} `{Inflate} `{NgxPool} `{NgxUtf8}.
Context (cf : ws_conf).

(** A connection that works: what has arrived can be read, as much as there is
    room for. *)
Definition healthy_socket : Prop := forall c n, 0 < n ->
  conn_broken c = false /\ restore_read c = true /\
  match recv c n with
  | (RecvBytes s eof, _) => pending c <> [] /\ Z.of_nat (length s) = Z.min n (Z.of_nat (length (pending c))) /\ eof = false
  | (RecvAgain, _) => pending c = []
  | (RecvError, _) => False
  end.

(** A subscriber that publishes at once to a store that answers later. *)
Record publishing (f : full_subscriber_t) : Prop := {
  pub_ctx : ctx_sub f = true;
  pub_live : freed f = false;
  pub_intercept : intercept f = false;
  pub_upstream : upstream_request_url f = false;
  pub_deflate : deflate_enabled f = false;
  pub_answers : answers f = [];
}.

Record wire_ok (w : wire_frame) : Prop := {
  wo_flags : 0 <= w_flags w < 16;
  wo_opcode : w_opcode w ∈ [WEBSOCKET_OPCODE_TEXT; WEBSOCKET_OPCODE_BINARY; WEBSOCKET_OPCODE_PING; WEBSOCKET_OPCODE_PONG];
  wo_key : match w_key w with Some k => length k = 4%nat | None => True end;
  wo_len : w_len w < 2 ^ 63;
  wo_control : is_data w = false -> w_len w <= 125;
  wo_alloc : palloc_succeeds (if w_len w =? 0 then 1 else w_len w) = true;
  wo_text : w_opcode w = WEBSOCKET_OPCODE_TEXT -> is_utf8 (w_payload w) = Ret true;
}.

(** ** Receiving a string of known length *)

(** The first [k] bytes of the string [s] are in the block. *)
Definition holds_prefix (block : bytes) (k : Z) (s : bytes) : Prop :=
  0 <= k <= Z.of_nat (length s) /\ (length s <= length block)%nat /\ take (Z.to_nat k) block = take (Z.to_nat k) s.

Lemma holds_prefix_0 block s : (length s <= length block)%nat -> holds_prefix block 0 s.
Proof. intros L. split_and!; [lia..|done]. Qed.

Lemma holds_prefix_all block s : holds_prefix block (Z.of_nat (length s)) s -> take (length s) block = s.
Proof. intros (_ & _ & E). rewrite Nat2Z.id in E. by rewrite E, take_ge by lia. Qed.

(** [ws_recv] for the rest of [s], followed by [r] in the stream: [c] has some
    of these bytes, and [future] is to arrive. *)
Lemma ws_recv_spec c block k s r future :
  healthy_socket -> holds_prefix block k s -> k < Z.of_nat (length s) ->
  pending c ++ future = drop (Z.to_nat k) s ++ r ->
  exists c' block' k' rc, ws_recv c block k (Z.of_nat (length s)) = Ret (c', block', k', rc) /\
    length block' = length block /\ holds_prefix block' k' s /\ pending c' ++ future = drop (Z.to_nat k') s ++ r /\
    ((rc = NGX_OK /\ k' = Z.of_nat (length s) /\ (length (pending c') < length (pending c))%nat) \/
     (rc = NGX_AGAIN /\ k' < Z.of_nat (length s) /\ pending c' = [])).
Proof.
  intros Hs (Hk & Lb & E) Lt P. unfold ws_recv. set (n := Z.of_nat (length s) - k).
  pose proof (recv_takes c n ltac:(lia)) as T. destruct (Hs c n ltac:(lia)) as (_ & _ & Hr).
  destruct (recv c n) as [[t eof| |] c']; [| |done].
  2: { exists c', block, k, NGX_AGAIN. rewrite T. split; [done|]. split; [done|]. split; [done|]. split; [done|by right]. }
  destruct T as [Lt' Ep]. destruct Hr as (Nt & Lm & ->).
  assert (t = take (length t) (drop (Z.to_nat k) s)) as Et.
  { apply (f_equal (take (length t))) in P. rewrite Ep, <- app_assoc, take_app_length in P.
    etrans; [exact P|]. apply take_app_le. rewrite length_drop. lia. }
  assert (0 < length t)%nat as L0 by (destruct (pending c); [done|simpl in Lm; lia]).
  unfold write_at. rewrite (proj2 (Z.leb_le _ _)), (proj2 (Z.leb_le _ _)) by lia. cbn [andb c_assert]. rewrite !bind_Ret.
  rewrite (proj2 (Nat.eqb_neq _ _)) by lia.
  set (block' := take (Z.to_nat k) block ++ t ++ drop (Z.to_nat k + length t) block).
  set (k' := k + Z.of_nat (length t)).
  assert (Z.to_nat k' = (Z.to_nat k + length t)%nat) as Ek' by (unfold k'; lia).
  assert (length (take (Z.to_nat k) block) = Z.to_nat k) as Ltk by (rewrite length_take; lia).
  eexists c', block', k', _. split; [reflexivity|]. split; [|split; [|split]].
  - unfold block'. rewrite !length_app, Ltk, length_drop. lia.
  - split_and!; [unfold k', n in *; lia..| |].
    + unfold block'. rewrite !length_app, Ltk, length_drop. lia.
    + rewrite Ek'. unfold block'. rewrite app_assoc, take_app_length' by (rewrite length_app; lia).
      by rewrite <- take_take_drop, <- Et, E.
  - apply (f_equal (drop (length t))) in P. rewrite Ep, <- app_assoc, drop_app_length in P. rewrite P, Ek'.
    rewrite drop_app_le by (rewrite length_drop; lia). by rewrite drop_drop.
  - destruct (Z.ltb_spec k' (Z.of_nat (length s))); [right|left]; (split; [done|]).
    + split; [done|]. apply length_zero_iff_nil. rewrite Ep, length_app in Lm. unfold k', n in *. lia.
    + split; [unfold k', n in *; lia|]. rewrite Ep, length_app. lia.
Qed.

(** ** What the reader expects *)

(** [todo] are the frames not handled yet, [rest] the bytes of the stream not
    read yet; [hl] is where the header buffer is filled. *)
Inductive expects (f : full_subscriber_t) (hl : option Z) : list wire_frame -> bytes -> Prop :=
  | at_end :
      step (frame f) = WEBSOCKET_READ_START_STEP -> payload (frame f) = None -> hl = Some 0 ->
      expects f hl [] []
  | at_start k w ws :
      step (frame f) = WEBSOCKET_READ_START_STEP -> payload (frame f) = None -> hl = Some k -> k < 2 ->
      holds_prefix (header (frame f)) k (start_bytes w) ->
      expects f hl (w :: ws) (drop (Z.to_nat k) (start_bytes w) ++ len_ext (w_len w) ++ key_bytes w ++ body w ++ encode_all ws)
  | at_size k w ws :
      step (frame f) = WEBSOCKET_READ_GET_REAL_SIZE_STEP -> payload (frame f) = None -> hl = Some k ->
      opcode (frame f) = w_opcode w -> mask (frame f) = mask_bit w -> payload_len (frame f) = len7 (w_len w) ->
      k < Z.max 1 (Z.of_nat (length (len_ext (w_len w)))) ->
      holds_prefix (header (frame f)) k (len_ext (w_len w)) ->
      expects f hl (w :: ws) (drop (Z.to_nat k) (len_ext (w_len w)) ++ key_bytes w ++ body w ++ encode_all ws)
  | at_mask k w ws :
      step (frame f) = WEBSOCKET_READ_GET_MASK_KEY_STEP -> payload (frame f) = None -> hl = Some k ->
      opcode (frame f) = w_opcode w -> mask (frame f) = mask_bit w -> payload_len (frame f) = w_len w ->
      k < Z.max 1 (Z.of_nat (length (key_bytes w))) ->
      holds_prefix (header (frame f)) k (key_bytes w) ->
      expects f hl (w :: ws) (drop (Z.to_nat k) (key_bytes w) ++ body w ++ encode_all ws)
  | at_payload k w ws :
      step (frame f) = WEBSOCKET_READ_GET_PAYLOAD_STEP ->
      opcode (frame f) = w_opcode w -> mask (frame f) = mask_bit w -> payload_len (frame f) = w_len w ->
      (w_key w <> None -> mask_key (frame f) = key_bytes w) ->
      (payload (frame f) = None /\ k = 0 \/
       is_data w = false /\ k = 0 \/
       is_data w = true /\ exists block, payload (frame f) = Some (InPool block) /\ last (frame f) = Some (LastPayload k) /\
         k < w_len w /\ holds_prefix block k (body w)) ->
      expects f hl (w :: ws) (drop (Z.to_nat k) (body w) ++ encode_all ws).

Record reader (f : full_subscriber_t) (hl : option Z) (todo : list wire_frame) (rest : bytes) : Prop := {
  rd_publishing : publishing f;
  rd_header : length (header (frame f)) = 8%nat;
  rd_ok : Forall wire_ok todo;
  rd_expects : expects f hl todo rest;
}.

(** A bound on the rounds left. *)
Definition step_weight (s : Z) : nat :=
  if s =? WEBSOCKET_READ_GET_REAL_SIZE_STEP then 3 else if s =? WEBSOCKET_READ_GET_MASK_KEY_STEP then 2
  else if s =? WEBSOCKET_READ_GET_PAYLOAD_STEP then 1 else 0.
Definition rounds_left (f : full_subscriber_t) (c : conn) : nat := 4 * length (pending c) + step_weight (step (frame f)).

(** The payload once the arrays of the call are gone. *)
Definition gone_payload (p : option payload_ptr) : option payload_ptr :=
  match p with Some (OnStack _) => Some Dangling | p => p end.

(** What a round does. *)
Definition round_ok (f : full_subscriber_t) (c : conn) (todo : list wire_frame) (future : bytes)
    (res : outcome (full_subscriber_t * conn * round_end)) : Prop :=
  exists f' c' e handled todo',
    res = Ret (f', c', e) /\ todo = handled ++ todo' /\ out f' = out f ++ concat (effect_of <$> handled) /\
    match e with
    | NextRound => reader f' (Some 0) todo' (pending c' ++ future) /\ (rounds_left f' c' < rounds_left f c)%nat
    | Retry => reader f' (header_last (frame f')) todo' (pending c' ++ future) /\ (rounds_left f' c' < rounds_left f c)%nat
    | Exit rc bl =>
        rc = NGX_AGAIN /\ pending c' = [] /\ (future = [] -> todo' = []) /\
        let f'' := with_frame f' (set_payload (frame f') (gone_payload (payload (frame f'))) (Some bl)) in
        reader f'' (header_last (frame f'')) todo' (pending c' ++ future)
    | Return => False
    end.

Lemma publishing_frame f fr : publishing f -> publishing (with_frame f fr).
Proof. intros [? ? ? ? ? ?]. by split. Qed.

Lemma publishing_pool f b : publishing f -> publishing (with_msg_pool f b).
Proof. intros [? ? ? ? ? ?]. by split. Qed.

Local Ltac pub := repeat first [apply publishing_frame | apply publishing_pool]; assumption.

Lemma recv_header_spec f c k s r future :
  healthy_socket -> length (header (frame f)) = 8%nat -> holds_prefix (header (frame f)) k s -> k < Z.of_nat (length s) ->
  pending c ++ future = drop (Z.to_nat k) s ++ r ->
  exists c' h k' rc, recv_header f c (Some k) (Z.of_nat (length s)) = Ret (with_frame f (set_header (frame f) h), c', k', rc) /\
    length h = 8%nat /\ holds_prefix h k' s /\ pending c' ++ future = drop (Z.to_nat k') s ++ r /\
    ((rc = NGX_OK /\ k' = Z.of_nat (length s) /\ (length (pending c') < length (pending c))%nat) \/
     (rc = NGX_AGAIN /\ k' < Z.of_nat (length s) /\ pending c' = [])).
Proof.
  intros Hs L8 Hp Lt P. destruct (ws_recv_spec c (header (frame f)) k s r future Hs Hp Lt P) as (c' & h & k' & rc & E & Lh & R).
  exists c', h, k', rc. unfold recv_header. rewrite E, bind_Ret. split; [done|]. split; [congruence|exact R].
Qed.

Lemma drop_nonempty (s : bytes) k r : 0 <= k < Z.of_nat (length s) -> drop (Z.to_nat k) s ++ r <> [].
Proof. intros L E. apply (f_equal length) in E. rewrite length_app, length_drop in E. simpl in E. lia. Qed.

Lemma start_bytes_length w : length (start_bytes w) = 2%nat.
Proof. done. Qed.

(** The first two bytes of a frame. *)
Lemma decode_start_spec f h w : wire_ok w -> take 2 h = start_bytes w ->
  let fr := decode_start (set_header (frame f) h) in
  opcode fr = w_opcode w /\ mask fr = mask_bit w /\ payload_len fr = len7 (w_len w).
Proof.
  intros Ok E. destruct h as [|b0 [|b1 h]]; try discriminate. injection E as -> ->. cbn [decode_start opcode mask payload_len].
  unfold nth_byte. cbn [header set_header nth]. pose proof (len7_range (w_len w)) as L7. unfold w_len in L7 at 1.
  assert (0 <= w_opcode w < 16) as Ho.
  { pose proof (wo_opcode _ Ok) as O. rewrite !elem_of_cons, elem_of_nil in O. destruct O as [->|[->|[->|[->|[]]]]]; done. }
  assert (0 <= mask_bit w < 2) as Hm by (unfold mask_bit; destruct (w_key w); lia).
  split_and!.
  - change 15 with (Z.ones 4). change 16 with (2 ^ 4) in *. by rewrite land_low by lia.
  - change 128 with (2 ^ 7) in *. by rewrite shift_high by lia.
  - change 127 with (Z.ones 7). change 128 with (2 ^ 7) in *. by rewrite land_low by lia.
Qed.

(** The next string of the header is read: [want] is what the step waits for,
    [next] what it does then. *)
Lemma header_round f c k want r w ws future (next : full_subscriber_t -> full_subscriber_t) res :
  healthy_socket -> publishing f -> length (header (frame f)) = 8%nat -> Forall wire_ok (w :: ws) ->
  payload (frame f) = None -> holds_prefix (header (frame f)) k want -> k < Z.of_nat (length want) ->
  pending c ++ future = drop (Z.to_nat k) want ++ r ->
  res = ('(f, c, k, rc) ← recv_header f c (Some k) (Z.of_nat (length want));
         if negb (rc =? NGX_OK) then Ret (f, c, Exit rc (LastHeader k)) else Ret (next f, c, NextRound)) ->
  (forall h k' r', length h = 8%nat -> holds_prefix h k' want -> k' < Z.of_nat (length want) ->
     r' = drop (Z.to_nat k') want ++ r ->
     let f' := with_frame f (set_header (frame f) h) in
     let f'' := with_frame f' (set_payload (frame f') (payload (frame f')) (Some (LastHeader k'))) in
     expects f'' (Some k') (w :: ws) r') ->
  (forall h, length h = 8%nat -> take (length want) h = want ->
     let f' := next (with_frame f (set_header (frame f) h)) in
     publishing f' /\ length (header (frame f')) = 8%nat /\ out f' = out f /\ expects f' (Some 0) (w :: ws) r /\
     (step_weight (step (frame f')) <= 3)%nat) ->
  round_ok f c (w :: ws) future res.
Proof.
  intros Hs Pf L8 Ok Np Hp Lk P -> Again Next.
  destruct (recv_header_spec f c k want r future Hs L8 Hp Lk P) as (c' & h & k' & rc & E & Lh & Hp' & P' & R).
  rewrite E, bind_Ret. destruct R as [(-> & -> & Lp)|(-> & Lk' & Pn)]; cbn [negb Z.eqb NGX_OK NGX_AGAIN].
  - destruct (Next h Lh (holds_prefix_all _ _ Hp')) as (Pf' & L8' & Eo & Ex & Wt).
    eexists _, c', NextRound, [], (w :: ws). split; [reflexivity|]. split_and!; [done|by rewrite app_nil_r| |].
    + rewrite P', Nat2Z.id, drop_ge by done. by split.
    + unfold rounds_left. lia.
  - eexists _, c', _, [], (w :: ws). split; [reflexivity|]. cbv zeta. split_and!; [done|by rewrite app_nil_r|done|done| |].
    + intros ->. exfalso. rewrite Pn in P'. symmetry in P'. revert P'. apply drop_nonempty. destruct Hp'. lia.
    + pose proof (Again h k' _ Lh Hp' Lk' eq_refl) as A. cbn in A |- *. rewrite Np in *. rewrite P'. by split; [pub|..].
Qed.
Lemma read_start_ok f c hl todo future :
  healthy_socket -> reader f hl todo (pending c ++ future) -> step (frame f) = WEBSOCKET_READ_START_STEP ->
  round_ok f c todo future (read_start f c hl).
Proof.
  intros Hs [Pf L8 Ok Ex] Est. remember (pending c ++ future) as rest eqn:Er.
  destruct Ex as [_ Np ->|k w ws _ Np -> Lk Hp|k w ws Es|k w ws Es|k w ws Es]; try (rewrite Es in Est; discriminate).
  - destruct (Hs c 2 ltac:(lia)) as (_ & _ & Hr). pose proof (recv_takes c 2 ltac:(lia)) as T.
    symmetry in Er. apply app_eq_nil in Er as [Ep Ef]. unfold read_start, recv_header, ws_recv. change (2 - 0) with 2.
    destruct (recv c 2) as [[s eof| |] c'] eqn:E; [| |done].
    { by destruct Hr. }
    rewrite !bind_Ret. eexists _, c', _, [], []. split; [reflexivity|]. cbv zeta.
    split_and!; [done|by rewrite app_nil_r|done|by rewrite T|done|].
    rewrite T, Ep, Ef. cbn. rewrite Np. split; [pub|done|done|]. by apply at_end.
  - eapply (header_round f c k (start_bytes w) _ w ws future (fun f => with_frame f (decode_start (frame f))));
      [done..|by rewrite <- Er|reflexivity| |].
    + intros h k' r' Lh Hp' Lk' ->. by apply (at_start _ _ k').
    + intros h Lh Eh. apply Forall_cons in Ok as [Okw _]. destruct (decode_start_spec f h w Okw Eh) as (Eo & Em & El).
      split_and!; [pub|done|done| |cbn; lia]. apply (at_size _ _ 0); try done; [lia|]. apply holds_prefix_0. cbn.
      unfold len_ext. repeat case_match; cbn [length]; rewrite ?le_bytes_length; lia.
Qed.

Lemma len_ext_cases n : 0 <= n < 2 ^ 63 ->
  (len7 n <> 126 /\ len7 n <> 127 /\ len_ext n = [] /\ len7 n = n) \/
  (len7 n = 126 /\ length (len_ext n) = 2%nat /\ ntohs (of_le (len_ext n)) = n) \/
  (len7 n = 127 /\ length (len_ext n) = 8%nat /\ nchan_ntohll (of_le (len_ext n)) = n).
Proof.
  intros Hn. unfold len7, len_ext. destruct (Z.leb_spec n 125); [left; split_and!; done || lia|]. right.
  destruct (Z.ltb_spec n (2 ^ 16)); [left|right]; (split; [done|]); (split; [apply le_bytes_length|]).
  - apply ntohs_htons. lia.
  - apply ntohll_htonll. lia.
Qed.

Lemma expects_mask f w ws :
  step (frame f) = WEBSOCKET_READ_GET_MASK_KEY_STEP -> payload (frame f) = None -> opcode (frame f) = w_opcode w ->
  mask (frame f) = mask_bit w -> payload_len (frame f) = w_len w -> length (header (frame f)) = 8%nat -> wire_ok w ->
  expects f (Some 0) (w :: ws) (key_bytes w ++ body w ++ encode_all ws).
Proof.
  intros Es Np Eo Em El L8 Ok. apply (at_mask _ _ 0); try done; [lia|]. apply holds_prefix_0.
  pose proof (wo_key _ Ok). unfold key_bytes. destruct (w_key w); simpl; lia.
Qed.

Lemma read_size_ok f c hl todo future :
  healthy_socket -> reader f hl todo (pending c ++ future) -> step (frame f) = WEBSOCKET_READ_GET_REAL_SIZE_STEP ->
  round_ok f c todo future (read_size f c hl).
Proof.
  intros Hs [Pf L8 Ok Ex] Est. remember (pending c ++ future) as rest eqn:Er.
  destruct Ex as [Es|k w ws Es|k w ws _ Np -> Eo Em El Lk Hp|k w ws Es|k w ws Es]; try (rewrite Es in Est; discriminate).
  apply Forall_cons in Ok as [Okw Okws]. pose proof (wo_len _ Okw) as Lw. unfold read_size. rewrite El.
  destruct (len_ext_cases (w_len w) ltac:(unfold w_len in *; lia)) as [(N6 & N7 & Ee & E7)|[(E6 & Le & Ev)|(E7 & Le & Ev)]].
  - rewrite (proj2 (Z.eqb_neq _ _)), (proj2 (Z.eqb_neq _ _)) by done. rewrite Ee in *. cbn [length app drop] in *.
    eexists _, c, NextRound, [], (w :: ws). split; [reflexivity|]. split_and!; [done|by rewrite app_nil_r| |].
    + rewrite <- Er, drop_nil. split; [pub|done|by constructor|]. apply expects_mask; try done. cbn. by rewrite El.
    + unfold rounds_left. rewrite Est. cbn. lia.
  - rewrite E6. cbn [Z.eqb Pos.eqb].
    eapply (header_round f c k (len_ext (w_len w)) _ w ws future
             (fun f => with_frame (with_frame f (set_payload_len (frame f) (ntohs (of_le (take 2 (header (frame f)))))))
                         (set_step (frame (with_frame f (set_payload_len (frame f) (ntohs (of_le (take 2 (header (frame f))))))))
                            WEBSOCKET_READ_GET_MASK_KEY_STEP)));
      [done..|by constructor|done|done|rewrite Le in *; lia|by rewrite <- Er|by rewrite Le| |].
    + intros h k' r' Lh Hp' Lk' ->. apply (at_size _ _ k'); try done; cbn; (lia || by rewrite El).
    + intros h Lh Eh. rewrite Le in Eh. split_and!; [pub|done|done| |cbn; lia].
      apply expects_mask; try done. cbn. by rewrite Eh.
  - rewrite E7. cbn [Z.eqb Pos.eqb].
    eapply (header_round f c k (len_ext (w_len w)) _ w ws future
             (fun f => with_frame (with_frame f (set_payload_len (frame f) (nchan_ntohll (of_le (take 8 (header (frame f)))))))
                         (set_step (frame (with_frame f (set_payload_len (frame f) (nchan_ntohll (of_le (take 8 (header (frame f))))))))
                            WEBSOCKET_READ_GET_MASK_KEY_STEP)));
      [done..|by constructor|done|done|rewrite Le in *; lia|by rewrite <- Er|by rewrite Le| |].
    + intros h k' r' Lh Hp' Lk' ->. apply (at_size _ _ k'); try done; cbn; (lia || by rewrite El).
    + intros h Lh Eh. rewrite Le in Eh. split_and!; [pub|done|done| |cbn; lia].
      apply expects_mask; try done. cbn. by rewrite Eh.
Qed.

Lemma expects_payload f w ws :
  step (frame f) = WEBSOCKET_READ_GET_PAYLOAD_STEP -> payload (frame f) = None -> opcode (frame f) = w_opcode w ->
  mask (frame f) = mask_bit w -> payload_len (frame f) = w_len w -> (w_key w <> None -> mask_key (frame f) = key_bytes w) ->
  expects f (Some 0) (w :: ws) (body w ++ encode_all ws).
Proof. intros. apply (at_payload _ _ 0); try done. by left. Qed.

Lemma read_mask_ok f c hl todo future :
  healthy_socket -> reader f hl todo (pending c ++ future) -> step (frame f) = WEBSOCKET_READ_GET_MASK_KEY_STEP ->
  round_ok f c todo future (read_mask f c hl).
Proof.
  intros Hs [Pf L8 Ok Ex] Est. remember (pending c ++ future) as rest eqn:Er.
  destruct Ex as [Es|k w ws Es|k w ws Es|k w ws _ Np -> Eo Em El Lk Hp|k w ws Es]; try (rewrite Es in Est; discriminate).
  apply Forall_cons in Ok as [Okw Okws]. pose proof (wo_key _ Okw) as Hk. unfold read_mask. rewrite Em.
  unfold mask_bit in *. destruct (w_key w) as [key|] eqn:Ek; cbn [Z.eqb negb].
  - assert (key_bytes w = key) as Eb by (unfold key_bytes; by rewrite Ek). rewrite Eb in *.
    eapply (header_round f c k key _ w ws future
             (fun f => with_frame (with_frame f (set_mask_key (frame f) (take 4 (header (frame f)))))
                         (set_step (frame (with_frame f (set_mask_key (frame f) (take 4 (header (frame f))))))
                            WEBSOCKET_READ_GET_PAYLOAD_STEP)));
      [done..|by constructor|done|done|lia|by rewrite <- Er|by rewrite Hk| |].
    + intros h k' r' Lh Hp' Lk' ->. rewrite <- Eb. apply (at_mask _ _ k'); try done; cbn; unfold mask_bit; rewrite ?Ek, ?Eb; done || lia.
    + intros h Lh Eh. rewrite Hk in Eh. split_and!; [pub|done|done| |cbn; lia].
      apply expects_payload; try done; cbn; [unfold mask_bit; by rewrite Ek|by rewrite Eb].
  - assert (key_bytes w = []) as Eb by (unfold key_bytes; by rewrite Ek). rewrite Eb in *.
    eexists _, c, NextRound, [], (w :: ws). split; [reflexivity|]. split_and!; [done|by rewrite app_nil_r| |].
    + rewrite <- Er, drop_nil. split; [pub|done|by constructor|]. apply expects_payload; try done. cbn. unfold mask_bit. by rewrite Ek.
    + unfold rounds_left. rewrite Est. cbn. lia.
Qed.
(** ** Handling *)

Lemma expects_start f ws :
  step (frame f) = WEBSOCKET_READ_START_STEP -> payload (frame f) = None -> length (header (frame f)) = 8%nat ->
  expects f (Some 0) ws (encode_all ws).
Proof.
  intros Es Np L8. destruct ws as [|w ws]; [by apply at_end|]. cbn [encode_all]. unfold encode. rewrite <- !app_assoc.
  apply (at_start _ _ 0); try done. apply holds_prefix_0. rewrite start_bytes_length. lia.
Qed.

Lemma ws_publish_ok f p binary : publishing f ->
  exists f', websocket_publish cf f p binary = Ret f' /\ publishing f' /\ frame f' = frame f /\
    out f' = out f ++ [Published p binary].
Proof.
  intros [Pc Pl Pi Pu Pd Pa]. destruct f. cbn in *. subst.
  unfold websocket_publish, websocket_publish_continue, websocket_reserve, ensure_request_hold, live. cbn.
  destruct holding; (eexists; split; [reflexivity|done]).
Qed.

Lemma restart_ok f : publishing f ->
  exists f', restart_frame f = Ret f' /\ publishing f' /\ out f' = out f /\ step (frame f') = WEBSOCKET_READ_START_STEP /\
    payload (frame f') = None /\ last (frame f') = None /\ header (frame f') = header (frame f).
Proof.
  intros P. unfold restart_frame, live. rewrite (pub_live _ P). eexists. split; [reflexivity|]. split; [pub|done].
Qed.

(** The end of a frame. *)
Lemma frame_round f c c' w ws future f1 f2 :
  restart_frame f1 = Ret f2 -> publishing f1 -> length (header (frame f1)) = 8%nat -> Forall wire_ok ws ->
  out f1 = out f ++ effect_of w -> pending c' ++ future = encode_all ws -> (length (pending c') <= length (pending c))%nat ->
  step (frame f) = WEBSOCKET_READ_GET_PAYLOAD_STEP ->
  round_ok f c (w :: ws) future (Ret (f2, c', Retry)).
Proof.
  intros Er P L8 Ok Eo Ep Lp Est. destruct (restart_ok f1 P) as (f' & E' & P' & Eo' & Es' & Np & Nl & Eh). rewrite Er in E'.
  injection E' as <-. exists f2, c', Retry, [w], ws. split; [done|]. split; [done|]. split.
  - rewrite Eo', Eo. cbn. by rewrite app_nil_r.
  - split.
    + rewrite Ep. unfold header_last. rewrite Nl. split; [done|by rewrite Eh|done|]. apply expects_start; by rewrite ?Eh.
    + unfold rounds_left. rewrite Est, Es'. cbn. lia.
Qed.

Lemma handle_message_ok f c c' w ws future f0 :
  pub_websocket cf = true -> websocket_heartbeat_conf cf = None ->
  publishing f -> length (header (frame f)) = 8%nat -> Forall wire_ok (w :: ws) -> is_data w = true ->
  opcode (frame f) = w_opcode w -> out f = out f0 -> step (frame f0) = WEBSOCKET_READ_GET_PAYLOAD_STEP ->
  pending c' ++ future = encode_all ws -> (length (pending c') <= length (pending c))%nat ->
  round_ok f0 c (w :: ws) future (handle_message cf f c' (w_payload w)).
Proof.
  intros Hp Hh P L8 Ok D Eo Eout Est Ep Lp. apply Forall_cons in Ok as [Okw Ok]. unfold handle_message.
  rewrite (pub_deflate _ P). cbn [andb].
  assert ((if opcode (frame f) =? WEBSOCKET_OPCODE_TEXT then is_utf8 (w_payload w) else Ret true) = Ret true) as ->.
  { rewrite Eo. destruct (Z.eqb_spec (w_opcode w) WEBSOCKET_OPCODE_TEXT) as [E|]; [by apply (wo_text _ Okw)|done]. }
  rewrite bind_Ret. cbn [negb]. unfold websocket_heartbeat, live. rewrite (pub_live _ P), Hh. cbn [negb c_assert].
  rewrite !bind_Ret. cbn [Z.eqb negb NGX_DECLINED NGX_OK].
  destruct (ws_publish_ok f (w_payload w) (opcode (frame f) =? WEBSOCKET_OPCODE_BINARY) P) as (f1 & E1 & P1 & Ef1 & Eo1).
  rewrite E1, bind_Ret. destruct (restart_ok f1 P1) as (f2 & E2 & _). rewrite E2, bind_Ret.
  eapply frame_round; try done; [by rewrite Ef1|]. rewrite Eo1, Eout, Eo. unfold effect_of. by rewrite D.
Qed.

Lemma unmask_body fr w : mask fr = mask_bit w -> (w_key w <> None -> mask_key fr = key_bytes w) ->
  unmask fr (body w) = w_payload w.
Proof.
  intros Em Ek. unfold unmask, mask_bit, body, key_bytes in *. rewrite Em. destruct (w_key w) as [key|]; cbn [Z.eqb negb]; [|done].
  rewrite Ek by done. by rewrite unmask_plain_masked, masked_masked.
Qed.

Lemma body_length w : Z.of_nat (length (body w)) = w_len w.
Proof. unfold body, w_len. destruct (w_key w); [|done]. by rewrite masked_length. Qed.

(** The block of the payload, allocated now or before. *)
Lemma block_ready fr0 k w :
  wire_ok w -> payload_len fr0 = w_len w ->
  (payload fr0 = None /\ k = 0 \/
   exists block, payload fr0 = Some (InPool block) /\ last fr0 = Some (LastPayload k) /\ k < w_len w /\ holds_prefix block k (body w)) ->
  exists block fr,
    (match payload fr0 with
     | None =>
         if palloc_succeeds (if payload_len fr0 =? 0 then 1 else payload_len fr0)
         then Some (set_payload fr0 (Some (InPool (replicate (Z.to_nat (if payload_len fr0 =? 0 then 1 else payload_len fr0)) 0)))
                      (Some (LastPayload 0)))
         else None
     | Some _ => Some fr0
     end) = Some fr /\
    fr = set_payload fr0 (Some (InPool block)) (Some (LastPayload k)) /\ holds_prefix block k (body w) /\ (k < w_len w \/ w_len w = 0).
Proof.
  intros Ok El [[Np ->]|(block & Np & La & Lk & Hb)]; rewrite Np.
  - rewrite El, (wo_alloc _ Ok). eexists _, _. split; [reflexivity|]. split; [reflexivity|]. split; [|unfold w_len; lia].
    apply holds_prefix_0. rewrite length_replicate. pose proof (body_length w). destruct (Z.eqb_spec (w_len w) 0); lia.
  - exists block, fr0. split_and!; auto. unfold set_payload. destruct fr0. cbn in *. congruence.
Qed.

(** The payload of a message. *)
Lemma read_message_ok f c k w ws future :
  healthy_socket -> pub_websocket cf = true -> websocket_heartbeat_conf cf = None -> publishing f ->
  length (header (frame f)) = 8%nat -> Forall wire_ok (w :: ws) -> is_data w = true ->
  step (frame f) = WEBSOCKET_READ_GET_PAYLOAD_STEP -> opcode (frame f) = w_opcode w -> mask (frame f) = mask_bit w ->
  payload_len (frame f) = w_len w -> (w_key w <> None -> mask_key (frame f) = key_bytes w) ->
  (payload (frame f) = None /\ k = 0 \/
   exists block, payload (frame f) = Some (InPool block) /\ last (frame f) = Some (LastPayload k) /\
     k < w_len w /\ holds_prefix block k (body w)) ->
  pending c ++ future = drop (Z.to_nat k) (body w) ++ encode_all ws ->
  round_ok f c (w :: ws) future (read_message cf f c).
Proof.
  intros Hs Hp Hh P L8 Ok D Est Eo Em El Ek Pl Er. unfold read_message. rewrite Hp. cbn [negb]. cbv zeta.
  pose proof (Forall_inv Ok) as Okw. pose proof (body_length w) as Lb.
  destruct (block_ready (frame f) k w Okw El Pl) as (block & fr & -> & -> & Hb & Lk).
  cbn [payload last payload_len set_payload]. rewrite El.
  destruct (Z.ltb_spec 0 (w_len w)) as [L0|L0].
  - destruct (ws_recv_spec c block k (body w) (encode_all ws) future Hs Hb ltac:(lia) Er) as (c' & block' & k' & rc & E & Lb' & Hb' & P' & R).
    rewrite Lb in E. rewrite E, bind_Ret. destruct R as [(-> & -> & Lp)|(-> & Lk' & Pn)]; cbn [negb Z.eqb NGX_OK NGX_AGAIN].
    + assert (take (Z.to_nat (w_len w)) block' = body w) as Et by (rewrite <- Lb, Nat2Z.id; by apply holds_prefix_all).
      rewrite Et, unmask_body by done. rewrite Nat2Z.id, drop_ge in P' by lia.
      apply handle_message_ok; try done; [pub|lia].
    + eexists _, c', _, [], (w :: ws). split; [reflexivity|]. cbv zeta. split_and!; [done|by rewrite app_nil_r|done|done| |].
      * intros ->. exfalso. rewrite Pn in P'. symmetry in P'. revert P'. apply drop_nonempty. destruct Hb'. lia.
      * rewrite P'. split; [pub|done|done|]. apply (at_payload _ _ k'); try done.
        do 2 right. split; [done|]. exists block'. split_and!; try done; try lia; apply Hb'.
  - assert (w_len w = 0) as E0 by (unfold w_len in *; lia). rewrite bind_Ret. cbn [negb Z.eqb NGX_OK].
    assert (body w = []) as Eb by (apply length_zero_iff_nil; lia). rewrite E0. change (take (Z.to_nat 0) block) with (@nil Z).
    rewrite <- Eb, unmask_body by done. rewrite Eb, drop_nil in Er.
    apply handle_message_ok; try done. pub.
Qed.

Lemma handle_control_ok f c c' w ws future f0 :
  publishing f -> length (header (frame f)) = 8%nat -> Forall wire_ok (w :: ws) -> is_data w = false ->
  opcode (frame f) = w_opcode w -> payload_len (frame f) = w_len w -> out f = out f0 ->
  step (frame f0) = WEBSOCKET_READ_GET_PAYLOAD_STEP ->
  pending c' ++ future = encode_all ws -> (length (pending c') <= length (pending c))%nat ->
  round_ok f0 c (w :: ws) future (handle_control cf f c' (w_payload w)).
Proof.
  intros P L8 Ok D Eo El Eout Est Ep Lp. apply Forall_cons in Ok as [Okw Ok]. unfold handle_control. rewrite Eo, El.
  pose proof (wo_control _ Okw D) as Lw. pose proof (wo_opcode _ Okw) as O. rewrite !elem_of_cons, elem_of_nil in O.
  destruct O as [O|[O|[O|[O|[]]]]]; (assert (is_data w = false) as D' by done); unfold is_data in D'; rewrite O in D';
    try discriminate D'; rewrite O; cbn [Z.eqb Pos.eqb WEBSOCKET_OPCODE_PING WEBSOCKET_OPCODE_PONG].
  - unfold websocket_send_frame, live. rewrite (pub_live _ P). cbn [negb c_assert]. rewrite bind_Ret.
    assert (websocket_frame_header_chain WEBSOCKET_PONG_LAST_FRAME_BYTE (w_len w) (Some (w_payload w)) =
      Ret ([WEBSOCKET_PONG_LAST_FRAME_BYTE; w_len w] ++ w_payload w)) as ->.
    { unfold websocket_frame_header_chain, websocket_frame_header. rewrite (proj2 (Z.leb_le _ _) Lw).
      destruct (Z.eqb_spec (w_len w) 0) as [E|]; [|by rewrite Z.mod_small by (unfold w_len in *; lia)]. rewrite E.
      assert (w_payload w = []) as -> by (apply length_zero_iff_nil; unfold w_len in E; lia). done. }
    rewrite bind_Ret. set (f1 := emit _ _). assert (publishing f1) as P1 by (destruct P; by split).
    destruct (restart_ok f1 P1) as (f2 & E2 & _). rewrite bind_Ret, E2, bind_Ret. eapply frame_round; try done.
    change (out f1) with (out f ++ [Sent ([WEBSOCKET_PONG_LAST_FRAME_BYTE; w_len w] ++ w_payload w)]).
    rewrite Eout. unfold effect_of, is_data. by rewrite O.
  - set (f1 := with_awaiting_pong _ _). assert (publishing f1) as P1 by (destruct P; by split).
    destruct (restart_ok f1 P1) as (f2 & E2 & _). rewrite E2, bind_Ret. eapply frame_round; try done.
    change (out f1) with (out f). rewrite Eout. unfold effect_of, is_data. rewrite O. cbn. by rewrite app_nil_r.
Qed.

(** The payload of a control frame comes whole, or not yet. *)
Lemma read_control_ok f c w ws future :
  healthy_socket -> publishing f -> length (header (frame f)) = 8%nat -> Forall wire_ok (w :: ws) -> is_data w = false ->
  step (frame f) = WEBSOCKET_READ_GET_PAYLOAD_STEP -> opcode (frame f) = w_opcode w -> mask (frame f) = mask_bit w ->
  payload_len (frame f) = w_len w -> (w_key w <> None -> mask_key (frame f) = key_bytes w) ->
  cut_ok (w :: ws) (length future) ->
  pending c ++ future = body w ++ encode_all ws -> round_ok f c (w :: ws) future (read_control cf f c).
Proof.
  intros Hs P L8 Ok D Est Eo Em El Ek [Cut _] Er. pose proof (Forall_inv Ok) as Okw.
  pose proof (wo_control _ Okw D) as Lw. pose proof (body_length w) as Lb. specialize (Cut D).
  unfold read_control. rewrite El. destruct (Z.eqb_spec (w_len w) 0) as [E0|N0].
  { assert (body w = []) as Eb by (apply length_zero_iff_nil; lia). rewrite Eb in Er.
    assert (w_payload w = []) as Ew by (apply length_zero_iff_nil; unfold w_len in E0; lia). rewrite <- Ew.
    by apply handle_control_ok; try done; pub. }
  rewrite (proj2 (Z.ltb_lt _ _)) by lia.
  assert (holds_prefix (replicate (Z.to_nat 1024) 0) 0 (body w)) as Hz.
  { apply holds_prefix_0. rewrite length_replicate. lia. }
  destruct (ws_recv_spec c (replicate (Z.to_nat 1024) 0) 0 (body w) (encode_all ws) future Hs Hz) as
    (c' & block & k & rc & E & Lbl & Hb & P' & R); [unfold w_len in *; lia|done|].
  rewrite Lb in E. rewrite E, bind_Ret. destruct R as [(-> & -> & Lp)|(-> & Lk & Pn)]; cbn [negb Z.eqb NGX_OK NGX_AGAIN].
  - assert (take (Z.to_nat (w_len w)) block = body w) as Et by (rewrite <- Lb, Nat2Z.id; by apply holds_prefix_all).
    rewrite Et, unmask_body by done. rewrite Nat2Z.id, drop_ge in P' by lia.
    apply handle_control_ok; try done; [pub|lia].
  - assert (length future = (length (body w) - Z.to_nat k) + length (encode_all ws))%nat as Lf.
    { rewrite Pn in P'. rewrite <- (app_nil_l future), P', length_app, length_drop. done. }
    assert (k = 0) as -> by (destruct Hb; lia).
    eexists _, c', _, [], (w :: ws). split; [reflexivity|]. cbv zeta. split_and!; [done|by rewrite app_nil_r|done|done| |].
    + intros ->. simpl in Lf. lia.
    + rewrite P'. split; [pub|done|done|]. apply (at_payload _ _ 0); try done. by right; left.
Qed.
(** ** Calls *)

Context (Hs : healthy_socket) (Hp : pub_websocket cf = true) (Hh : websocket_heartbeat_conf cf = None).

Lemma read_round_ok f c hl todo future :
  reader f hl todo (pending c ++ future) -> cut_ok todo (length future) ->
  round_ok f c todo future (read_round cf f c hl).
Proof.
  intros R Cut. pose proof (rd_expects _ _ _ _ R) as Ex. unfold read_round.
  assert (step (frame f) = WEBSOCKET_READ_START_STEP \/ step (frame f) = WEBSOCKET_READ_GET_REAL_SIZE_STEP \/
          step (frame f) = WEBSOCKET_READ_GET_MASK_KEY_STEP \/ step (frame f) = WEBSOCKET_READ_GET_PAYLOAD_STEP) as [E|[E|[E|E]]]
    by (inversion Ex; auto); rewrite E; cbn [Z.eqb Pos.eqb WEBSOCKET_READ_START_STEP WEBSOCKET_READ_GET_REAL_SIZE_STEP
      WEBSOCKET_READ_GET_MASK_KEY_STEP WEBSOCKET_READ_GET_PAYLOAD_STEP].
  - by apply read_start_ok.
  - by apply read_size_ok.
  - by apply read_mask_ok.
  - destruct R as [P L8 Ok _]. remember (pending c ++ future) as rest eqn:Er.
    destruct Ex as [E'|k w ws E'|k w ws E'|k w ws E'|k w ws _ Eo Em El Ek Pl]; try (rewrite E' in E; discriminate).
    pose proof (wo_opcode _ (Forall_inv Ok)) as O. rewrite !elem_of_cons, elem_of_nil in O. rewrite Eo.
    destruct O as [O|[O|[O|[O|[]]]]]; rewrite O; cbn [Z.eqb Pos.eqb orb WEBSOCKET_OPCODE_TEXT WEBSOCKET_OPCODE_BINARY
      WEBSOCKET_OPCODE_PING WEBSOCKET_OPCODE_PONG WEBSOCKET_OPCODE_CLOSE].
    1, 2: assert (is_data w = true) as D by (unfold is_data; by rewrite O);
      eapply read_message_ok; eauto; destruct Pl as [?|[[Nd _]|[_ ?]]]; [by left|congruence|by right].
    all: assert (is_data w = false) as D by (unfold is_data; by rewrite O);
      assert (k = 0) as -> by (destruct Pl as [[_ ?]|[[_ ?]|[? _]]]; congruence);
      by apply read_control_ok.
Qed.

Lemma reading_loop_ok fuel f c hl todo future :
  (rounds_left f c < fuel)%nat -> reader f hl todo (pending c ++ future) -> cut_ok todo (length future) ->
  exists f' c' handled todo', reading_loop cf fuel f c hl = Ret (f', c') /\ todo = handled ++ todo' /\
    out f' = out f ++ concat (effect_of <$> handled) /\ pending c' = [] /\ (future = [] -> todo' = []) /\
    reader f' (header_last (frame f')) todo' future.
Proof.
  revert f c hl todo. induction fuel as [|fuel IH]; intros f c hl todo L R Cut; [lia|]. cbn [reading_loop].
  destruct (Hs c 1 ltac:(lia)) as (-> & _ & _).
  destruct (read_round_ok f c hl todo future R Cut) as (f1 & c1 & e & h1 & t1 & -> & -> & Eo & Post). rewrite bind_Ret.
  apply cut_ok_app in Cut.
  destruct e as [| |rc bl|]; [..|done].
  - destruct Post as [R1 L1]. destruct (IH f1 c1 _ t1 ltac:(lia) R1 Cut) as (f' & c' & h2 & t2 & -> & -> & Eo2 & Q).
    exists f', c', (h1 ++ h2), t2. split; [done|]. split; [by rewrite <- app_assoc|]. split; [|done].
    by rewrite Eo2, Eo, fmap_app, concat_app, app_assoc.
  - destruct Post as [R1 L1]. rewrite (pub_ctx _ (rd_publishing _ _ _ _ R1)). cbn [negb].
    destruct (IH f1 c1 _ t1 ltac:(lia) R1 Cut) as (f' & c' & h2 & t2 & -> & -> & Eo2 & Q).
    exists f', c', (h1 ++ h2), t2. split; [done|]. split; [by rewrite <- app_assoc|]. split; [|done].
    by rewrite Eo2, Eo, fmap_app, concat_app, app_assoc.
  - destruct Post as (-> & Pn & Fin & R1). unfold reading_exit.
    rewrite Pn in R1. cbn [Z.eqb NGX_AGAIN Pos.eqb]. destruct (Hs c1 1 ltac:(lia)) as (_ & -> & _). cbn [negb]. rewrite bind_Ret.
    eexists _, c1, h1, t1. split; [reflexivity|]. split_and!; auto. revert R1. cbn. by destruct (payload (frame f1)) as [[?|?|]|].
Qed.

(** Pieces of the stream arrive, and the handler is called after each. *)
Fixpoint receive (arrive : conn -> bytes -> conn) (f : full_subscriber_t) (c : conn) (pieces : list bytes) : outcome (full_subscriber_t * conn) :=
  match pieces with
  | [] => Ret (f, c)
  | s :: pieces =>
      let c := arrive c s in
      '(f, c) ← websocket_reading cf (4 * length (pending c) + 4) f c;
      receive arrive f c pieces
  end.

Lemma receive_ok arrive f c pieces todo future :
  (forall c s, pending (arrive c s) = pending c ++ s) -> pending c = [] ->
  (forall i, cut_ok todo (length (concat (drop i pieces) ++ future))) ->
  reader f (header_last (frame f)) todo (concat pieces ++ future) ->
  exists f' c' handled todo', receive arrive f c pieces = Ret (f', c') /\ todo = handled ++ todo' /\
    out f' = out f ++ concat (effect_of <$> handled) /\ (pieces <> [] -> future = [] -> todo' = []) /\
    reader f' (header_last (frame f')) todo' future.
Proof.
  intros Ha. revert f c todo. induction pieces as [|s pieces IH]; intros f c todo Pn Cut R; cbn [receive concat] in *.
  { exists f, c, [], todo. split_and!; try done. by rewrite app_nil_r. }
  rewrite <- app_assoc in R. unfold websocket_reading, live.
  rewrite (pub_ctx _ (rd_publishing _ _ _ _ R)), (pub_live _ (rd_publishing _ _ _ _ R)). cbn [negb c_assert]. rewrite bind_Ret.
  assert (pending (arrive c s) = s) as Ea by (by rewrite Ha, Pn). rewrite <- Ea in R at 1.
  destruct (reading_loop_ok (4 * length (pending (arrive c s)) + 4) f (arrive c s) (header_last (frame f)) todo (concat pieces ++ future)) as
    (f1 & c1 & h1 & t1 & -> & -> & Eo & Pn1 & Fin & R1); [|done|exact (Cut 1%nat)|].
  { unfold rounds_left, step_weight. repeat case_match; lia. }
  rewrite bind_Ret. destruct (IH f1 c1 t1 Pn1 (fun i => cut_ok_app _ _ _ (Cut (S i))) R1) as (f' & c' & h2 & t2 & -> & -> & Eo2 & Fin2 & R2).
  exists f', c', (h1 ++ h2), t2. split; [done|]. split; [by rewrite <- app_assoc|]. split; [|split; [|done]].
  - by rewrite Eo2, Eo, fmap_app, concat_app, app_assoc.
  - intros _ Ef. destruct pieces as [|s' pieces]; [|by apply Fin2].
    rewrite Ef in Fin. specialize (Fin eq_refl). by apply app_eq_nil in Fin as [_ ->].
Qed.

Lemma reader_fresh f ws : publishing f -> frame f = websocket_init_frame -> Forall wire_ok ws ->
  reader f (header_last (frame f)) ws (encode_all ws).
Proof. intros P Ef Ok. rewrite Ef. split; rewrite ?Ef; try done. by apply expects_start; rewrite Ef. Qed.

Lemma encode_all_nil ws : encode_all ws = [] -> ws = [].
Proof. by destruct ws. Qed.
End reading.

(** C18.  A stream of messages (texts valid UTF-8, neither compressed nor too
    large to allocate) and pings and pongs with a payload of up to 125 bytes is
    cut into pieces anywhere but inside the payload of a ping or pong (there
    bytes are lost, [split_ping_loses_bytes]).  For a subscriber of a location
    that may publish, without heartbeats, upstream request or interception,
    whose store answers later (two refusals within a call use freed memory,
    [second_refusal_uses_freed]), on a connection that works, the read handler,
    called after each piece, returns; once all have arrived every message was
    published, and every ping answered with its own payload, once, in order. *)
Theorem frames_read_whole `{NgxSocket} `{Inflate} `{NgxPool} `{NgxUtf8} cf arrive f c pieces ws :
  healthy_socket -> (forall c s, pending (arrive c s) = pending c ++ s) ->
  pub_websocket cf = true -> websocket_heartbeat_conf cf = None ->
  publishing f -> frame f = websocket_init_frame -> pending c = [] ->
  Forall wire_ok ws -> concat pieces = encode_all ws -> (forall i, cut_ok ws (length (concat (drop i pieces)))) ->
  exists f' c', receive cf arrive f c pieces = Ret (f', c') /\ out f' = out f ++ concat (effect_of <$> ws).
Proof.
  intros Hs Ha Hp Hh P Ef Pn Ok E Cut. pose proof (reader_fresh f ws P Ef Ok) as R. rewrite <- E, <- (app_nil_r (concat pieces)) in R.
  destruct (receive_ok cf Hs Hp Hh arrive f c pieces ws [] Ha Pn ltac:(intros i; by rewrite app_nil_r) R) as (f' & c' & handled & todo & E' & -> & Eo & Fin & _).
  exists f', c'. split; [done|]. rewrite Eo. destruct pieces as [|s pieces].
  - symmetry in E. apply encode_all_nil, app_eq_nil in E as [-> ->]. done.
  - by rewrite Fin, app_nil_r.
Qed.

(** ** Examples *)

(** A socket is the bytes that have arrived. *)
Definition example_recv (c : bytes) (n : Z) : recv_result * bytes :=
  match c with [] => (RecvAgain, c) | _ => (RecvBytes (take (Z.to_nat n) c) false, drop (Z.to_nat n) c) end.

Lemma example_recv_takes c n : 0 < n ->
  match example_recv c n with
  | (RecvBytes s _, c') => Z.of_nat (length s) <= n /\ c = s ++ c'
  | (_, c') => c' = c
  end.
Proof. intros Hn. destruct c as [|b c]; [done|]. cbn [example_recv]. split; [rewrite length_take; lia|by rewrite take_drop]. Qed.

Lemma example_recv_eof c n : 0 < n ->
  match example_recv c n with (RecvBytes s eof, _) => s = [] -> eof = true | _ => True end.
Proof. intros Hn. destruct c as [|b c]; [done|]. cbn [example_recv]. by destruct (Z.to_nat n) eqn:E; [lia|]. Qed.

#[export] Instance example_socket : NgxSocket :=
  {| conn := bytes; pending := fun c => c; recv := example_recv; recv_takes := example_recv_takes;
     recv_eof := example_recv_eof; conn_broken := fun _ => false; restore_read := fun _ => true |}.

#[export] Instance example_inflate : Inflate :=
  {| zstream := unit; inflate_open := fun _ => Some tt; nchan_inflate := fun z s => (Some s, z) |}.
#[export] Instance example_pool : NgxPool := {| palloc_succeeds := fun _ => true |}.
(** Nothing but ASCII is valid. *)
#[export] Program Instance example_utf8 : NgxUtf8 := {| ngx_utf8_decode := fun s => (4294967295, 1%nat) |}.
Next Obligation. intros [|c s] N; simpl; [done|lia]. Qed.

Definition no_bytes : conn := ([] : bytes).
Definition example_arrive (c : conn) (s : bytes) : conn := @app Z c s.

Lemma example_healthy : healthy_socket.
Proof.
  intros c n Hn. split; [done|]. split; [done|]. destruct c as [|b c]; [done|]. split; [done|]. split; [|done].
  unfold pending, example_socket. rewrite length_take. lia.
Qed.

Definition example_conf : ws_conf := WsConf true true None 0 0 false.
Definition example_sub : full_subscriber_t :=
  Fsub websocket_init_frame false false 15 None false false false true true false false false 0 true false true
    None None None false true false [] [].

Definition example_frames : list wire_frame :=
  [Wire 8 WEBSOCKET_OPCODE_TEXT (Some [1; 2; 3; 4]) (bytes_of "hello"); Wire 8 WEBSOCKET_OPCODE_PING None (bytes_of "a");
   Wire 8 WEBSOCKET_OPCODE_BINARY (Some [9; 8; 7; 6]) [0; 255]].

Lemma frames_read_whole_witness :
  exists f' c', receive example_conf example_arrive example_sub no_bytes (map (fun b => [b]) (encode_all example_frames)) = Ret (f', c') /\
    out f' = [Published (bytes_of "hello") false; Sent [138; 1; 97]; Published [0; 255] true].
Proof.
  apply (frames_read_whole example_conf example_arrive example_sub no_bytes (map (fun b => [b]) (encode_all example_frames)) example_frames);
    [apply example_healthy|done..| |reflexivity|].
  2: { intros i. do 30 (destruct i as [|i]; [vm_compute; split_and!; try done; intros; lia|]). vm_compute; split_and!; try done; intros; lia. }
  repeat constructor; cbn; try lia; try done; try (by intros; discriminate); apply elem_of_list_In; simpl; tauto.
Defined.

(** What a call reads of the payload of a control frame is lost when the call
    ends: the rest of the frame is waited for again, from the frame after it. *)
Definition ping_then_text : bytes :=
  websocket_frame_header WEBSOCKET_PING_LAST_FRAME_BYTE 4 ++ bytes_of "abcd" ++
  websocket_frame_header WEBSOCKET_TEXT_LAST_FRAME_BYTE 2 ++ bytes_of "hi".
Definition effects_of (pieces : list bytes) : outcome (list ws_effect) :=
  '(f, _) ← receive example_conf example_arrive example_sub no_bytes pieces; Ret (out f).

Lemma split_ping_loses_bytes :
  effects_of [ping_then_text] = Ret [Sent ([138; 4] ++ bytes_of "abcd"); Published (bytes_of "hi") false] /\
  effects_of [take 4 ping_then_text; drop 4 ping_then_text] = Ret [Sent ([138; 4] ++ bytes_of "cd" ++ [129; 2])].
Proof. split; vm_compute; reflexivity. Qed.

(** A message that is refused while a close frame was sent already frees the
    subscriber, and the handler writes to it. *)
Definition refusing_sub : full_subscriber_t := with_answers example_sub [Some NGX_HTTP_INSUFFICIENT_STORAGE; Some NGX_HTTP_INSUFFICIENT_STORAGE].
Definition two_texts : bytes :=
  websocket_frame_header WEBSOCKET_TEXT_LAST_FRAME_BYTE 2 ++ bytes_of "hi" ++
  websocket_frame_header WEBSOCKET_TEXT_LAST_FRAME_BYTE 2 ++ bytes_of "ho".

Lemma second_refusal_uses_freed :
  receive example_conf example_arrive refusing_sub no_bytes [two_texts] = Crash.
Proof. vm_compute. reflexivity. Qed.

(** An opcode that is not known, as that of a continuation, is answered with two
    close frames. *)
Lemma unknown_opcode_closes_twice :
  effects_of [[128; 0]] = Ret [Sent [136; 0]; DequeueCallback; Sent ([136; 9; 3; 232] ++ bytes_of "410 Gon"); FinalizeRequest].
Proof. vm_compute. reflexivity. Qed.
