(* ===== verification/WebsocketSafety.v ===== *)
(** * What arrives does not make the WebSocket reader fail

    Whatever bytes arrive, in whatever pieces, and however the connection ends,
    the read handler of a subscriber returns, within its buffers, and does not
    touch the subscriber after it was freed, as long as the server has at most
    one reason to refuse: the second one, while the first close frame is on its
    way, frees the subscriber under the handler. *)

From S2P Require Import Prelude Nginx Scan WsFrame WsFrameFacts Websocket WebsocketFacts.
Open Scope Z_scope.

Lemma land_ff_nonneg x : 0 <= Z.land x 255.
Proof. rewrite land_ff. apply Z.mod_pos_bound. lia. Qed.

Lemma ntohs_nonneg x : 0 <= ntohs x.
Proof. unfold ntohs, htons. apply Z.lor_nonneg. split; [apply Z.shiftl_nonneg|]; apply land_ff_nonneg. Qed.

Lemma htonl_nonneg x : 0 <= htonl x.
Proof.
  unfold htonl. rewrite !Z.lor_nonneg, !Z.shiftl_nonneg. split_and!; apply land_ff_nonneg.
Qed.

Lemma ntohll_nonneg x : 0 <= nchan_ntohll x.
Proof.
  unfold nchan_ntohll, flip_uint64_if_little_endian. rewrite Z.lor_nonneg, Z.shiftl_nonneg. split; apply htonl_nonneg.
Qed.

Lemma header_chain_total op len m : exists s, websocket_frame_header_chain op len (Some m) = Ret s.
Proof. unfold websocket_frame_header_chain. case_match; eauto. Qed.

Lemma close_chain_total code err : exists s, websocket_close_frame_chain code err = Ret s.
Proof. unfold websocket_close_frame_chain. case_match; [eauto|apply header_chain_total]. Qed.

Section safety.
Context `{NgxSocket} `{Inflate} `{NgxPool} `{NgxUtf8}.
Context (cf : ws_conf).

(** A subscriber in the queue of its channel. *)
Record in_queue (f : full_subscriber_t) : Prop := {
  iq_ctx : ctx_sub f = true;
  iq_live : freed f = false;
  iq_enqueued : enqueued f = true;
  iq_destroy : destroy_after_dequeue f = true;
  iq_awaiting : awaiting_destruction f = false;
}.

(** The answers of the store to a publication that close the connection. *)
Definition refusing (answer : option Z) : bool :=
  match answer with
  | Some status => (status =? NGX_HTTP_INSUFFICIENT_STORAGE) || (status =? NGX_ERROR) || (status =? NGX_HTTP_INTERNAL_SERVER_ERROR)
  | None => false
  end.
Definition refusals (f : full_subscriber_t) : nat := length (filter (fun a => refusing a = true) (answers f)).

(** A message may be found not to inflate, or not to fit in memory. *)
Definition may_fail (f : full_subscriber_t) : Prop := deflate_enabled f = true \/ exists n, palloc_succeeds n = false.

(** At most one refusal, with the close frame that was sent already; and none
    where a message may fail. *)
Record serving (f : full_subscriber_t) : Prop := {
  sv_queue : in_queue f;
  sv_reserved : 0 <= reserved f;
  sv_refusals : (refusals f + Nat.b2n (sent_close_frame f) <= 1)%nat;
  sv_may_fail : may_fail f -> refusals f = 0%nat /\ sent_close_frame f = false;
}.

Lemma sv_ctx f : serving f -> ctx_sub f = true.
Proof. intros S. apply S. Qed.
Lemma sv_live f : serving f -> freed f = false.
Proof. intros S. apply S. Qed.

Definition is_control (op : Z) : bool :=
  (op =? WEBSOCKET_OPCODE_PING) || (op =? WEBSOCKET_OPCODE_PONG) || (op =? WEBSOCKET_OPCODE_CLOSE).

(** How much of the header a step reads. *)
Definition header_want (fr : ws_frame_t) : Z :=
  if step fr =? WEBSOCKET_READ_START_STEP then 2
  else if step fr =? WEBSOCKET_READ_GET_REAL_SIZE_STEP then
    (if payload_len fr =? 126 then 2 else if payload_len fr =? 127 then 8 else 1)
  else if mask fr =? 0 then 1 else 4.

(** The state of a frame between rounds; [hl] is where the header is filled. *)
Record frame_ok (fr : ws_frame_t) (hl : option Z) : Prop := {
  fo_header : length (header fr) = 8%nat;
  fo_len : 0 <= payload_len fr;
  fo_step : step fr <> WEBSOCKET_READ_GET_PAYLOAD_STEP ->
    payload fr = None /\ (exists k, hl = Some k /\ 0 <= k < header_want fr);
  fo_payload : step fr = WEBSOCKET_READ_GET_PAYLOAD_STEP ->
    match payload fr with
    | None => True
    | Some (InPool block) => is_control (opcode fr) = false /\
        exists k, last fr = Some (LastPayload k) /\ 0 <= k < payload_len fr /\ payload_len fr <= Z.of_nat (length block)
    | Some (OnStack _) => False
    | Some Dangling => is_control (opcode fr) = true
    end;
}.

(** Nothing points to a subscriber that was freed. *)
Definition unreferenced (f : full_subscriber_t) : Prop := ctx_sub f = false.

Definition safe_round (f : full_subscriber_t) (c : conn) (res : outcome (full_subscriber_t * conn * round_end)) : Prop :=
  exists f' c' e, res = Ret (f', c', e) /\
    match e with
    | NextRound => serving f' /\ frame_ok (frame f') (Some 0) /\ (rounds_left f' c' < rounds_left f c)%nat
    | Retry => serving f' /\ frame_ok (frame f') (header_last (frame f')) /\ (rounds_left f' c' < rounds_left f c)%nat
    | Exit rc bl => serving f' /\
        (rc = NGX_ERROR \/ rc = NGX_AGAIN /\
         let gone := match payload (frame f') with Some (OnStack _) => Some Dangling | p => p end in
         let fr := set_payload (frame f') gone (Some bl) in frame_ok fr (header_last fr))
    | Return => unreferenced f'
    end.

(** ** Closing *)

Lemma serving_same f g :
  serving f -> ctx_sub g = ctx_sub f -> freed g = freed f -> enqueued g = enqueued f ->
  destroy_after_dequeue g = destroy_after_dequeue f -> awaiting_destruction g = awaiting_destruction f ->
  reserved g = reserved f -> answers g = answers f -> sent_close_frame g = sent_close_frame f ->
  deflate_enabled g = deflate_enabled f -> serving g.
Proof.
  intros [[] ? ? M] E1 E2 E3 E4 E5 E6 E7 E8 E9. split; [split; congruence|congruence|unfold refusals; by rewrite E7, E8|].
  unfold may_fail, refusals. by rewrite E7, E8, E9.
Qed.

Lemma serving_frame f fr : serving f -> serving (with_frame f fr).
Proof. intros S. by apply (serving_same f). Qed.
Lemma serving_pool f b : serving f -> serving (with_msg_pool f b).
Proof. intros S. by apply (serving_same f). Qed.
Lemma serving_emit f e : serving f -> serving (emit f e).
Proof. intros S. by apply (serving_same f). Qed.

(** What a close frame leaves as it was. *)
Record only_closed (f f' : full_subscriber_t) : Prop := {
  oc_queue : in_queue f -> in_queue f';
  oc_reserved : reserved f' = reserved f;
  oc_answers : answers f' = answers f;
  oc_deflate : deflate_enabled f' = deflate_enabled f;
  oc_frame : frame f' = frame f;
}.

Lemma first_close_ok f code err : freed f = false ->
  exists f', send_first_close_frame f code err = Ret f' /\ only_closed f f' /\ sent_close_frame f' = true.
Proof.
  intros L. destruct (close_chain_total code err) as [s E]. unfold send_first_close_frame, live.
  rewrite L, E. cbn. eexists. split; [reflexivity|]. split; [|done]. split; try done. by intros [].
Qed.

Lemma destroy_ok f : freed f = false -> awaiting_destruction f = false ->
  exists f', websocket_subscriber_destroy f = Ret f' /\ unreferenced f'.
Proof.
  intros Sl Sa. unfold websocket_subscriber_destroy, live. rewrite Sl, Sa. cbn [negb c_assert]. rewrite bind_Ret.
  destruct (0 <? _); (eexists; split; [reflexivity|done]).
Qed.

Lemma dequeue_ok f : freed f = false -> awaiting_destruction f = false -> destroy_after_dequeue f = true ->
  exists f', websocket_dequeue f = Ret f' /\ unreferenced f'.
Proof.
  intros Sl Sa Sd. unfold websocket_dequeue, live. rewrite Sl. cbn [negb c_assert]. rewrite bind_Ret.
  set (f1 := with_enqueued _ _).
  assert (exists f2, (if negb (sent_close_frame f1) && shook_hands f1 then
      send_first_close_frame f1 CLOSE_NORMAL (Some (ngx_string_of_pointer (bytes_of "410 Gone"))) else Ret f1) = Ret f2 /\
      freed f2 = false /\ awaiting_destruction f2 = false /\ destroy_after_dequeue f2 = true) as (f2 & -> & Sl2 & Sa2 & Sd2).
  { destruct (_ && _); [|by exists f1]. unfold send_first_close_frame, live.
    destruct (close_chain_total CLOSE_NORMAL (Some (ngx_string_of_pointer (bytes_of "410 Gone")))) as [s ->].
    change (freed f1) with (freed f). rewrite Sl. by eexists. }
  rewrite bind_Ret. change (destroy_after_dequeue (websocket_delete_timers f2)) with (destroy_after_dequeue f2). rewrite Sd2.
  by apply destroy_ok.
Qed.

Lemma finalize_ok f : in_queue f -> exists f', websocket_finalize_request cf f = Ret f' /\ unreferenced f'.
Proof.
  intros [Sc Sl Se Sd Sa]. unfold websocket_finalize_request, live. rewrite Sl. cbn [negb c_assert]. rewrite bind_Ret.
  set (f1 := with_dead _ _). assert (enqueued f1 = true) as -> by (unfold f1; by destruct (_ && _)).
  destruct (dequeue_ok f1) as (f2 & -> & U); [unfold f1; by destruct (_ && _)..|]. rewrite bind_Ret.
  eexists. split; [reflexivity|exact U].
Qed.

Lemma reading_finalize_ok f : in_queue f \/ unreferenced f ->
  exists f', websocket_reading_finalize cf f = Ret f' /\ unreferenced f'.
Proof.
  unfold websocket_reading_finalize. intros [S|U].
  - rewrite (iq_ctx _ S). unfold live. rewrite (iq_live _ S). cbn [negb c_assert]. rewrite bind_Ret.
    apply finalize_ok. by destruct S.
  - unfold unreferenced in U. rewrite U. eauto.
Qed.

Lemma send_close_ok f code err : in_queue f ->
  exists f', websocket_send_close_frame cf f code err = Ret f' /\
    if sent_close_frame f then unreferenced f' else only_closed f f' /\ sent_close_frame f' = true.
Proof.
  intros S. unfold websocket_send_close_frame, live. rewrite (iq_live _ S). cbn [negb c_assert]. rewrite bind_Ret.
  destruct (sent_close_frame f).
  - by apply finalize_ok.
  - apply first_close_ok, S.
Qed.

Lemma finalize_and_return_ok f f0 c c0 : in_queue f \/ unreferenced f -> safe_round f0 c0 (finalize_and_return cf f c).
Proof.
  intros S. destruct (reading_finalize_ok f S) as (f' & E & U). unfold finalize_and_return. rewrite E.
  exists f', c, Return. by split.
Qed.

Lemma close_and_return f f0 c c0 code err : in_queue f ->
  safe_round f0 c0 (f ← websocket_send_close_frame cf f code err; finalize_and_return cf f c).
Proof.
  intros S. destruct (send_close_ok f code err S) as (f' & -> & S'). rewrite bind_Ret. apply finalize_and_return_ok.
  destruct (sent_close_frame f); [by right|left; by apply S'].
Qed.

(** A message that fails: the close frame is the first one. *)
Lemma fail_and_return f f0 c c0 code err : serving f -> may_fail f ->
  safe_round f0 c0 (f ← websocket_send_close_frame cf f code err; live f;; finalize_and_return cf (with_msg_pool f false) c).
Proof.
  intros S M. destruct (sv_may_fail _ S M) as [_ Ns].
  destruct (send_close_ok f code err (sv_queue _ S)) as (f' & -> & S'). rewrite Ns in S'. destruct S' as [O _].
  pose proof (oc_queue _ _ O (sv_queue _ S)) as Q. rewrite bind_Ret. unfold live. rewrite (iq_live _ Q). cbn [negb c_assert].
  rewrite bind_Ret. apply finalize_and_return_ok. left. by destruct Q.
Qed.
(** ** Rounds *)

Lemma ws_recv_safe c block k len : 0 <= k < len -> len <= Z.of_nat (length block) ->
  exists c' block' k' rc, ws_recv c block k len = Ret (c', block', k', rc) /\ length block' = length block /\
    ((rc = NGX_OK /\ (length (pending c') < length (pending c))%nat) \/ (rc = NGX_AGAIN /\ 0 <= k' < len) \/ rc = NGX_ERROR).
Proof.
  intros Hk Lb. unfold ws_recv. pose proof (recv_takes c (len - k) ltac:(lia)) as T. pose proof (recv_eof c (len - k) ltac:(lia)) as Te.
  destruct (recv c (len - k)) as [[s eof| |] c']; [|exists c', block, k, NGX_AGAIN; auto 10|exists c', block, k, NGX_ERROR; auto 10].
  destruct T as [Lt Ep]. unfold write_at. rewrite (proj2 (Z.leb_le _ _)), (proj2 (Z.leb_le _ _)) by lia. cbn [andb c_assert].
  rewrite !bind_Ret. set (block' := _ ++ _).
  assert (length block' = length block) as Lb' by (unfold block'; rewrite !length_app, length_take, length_drop; lia).
  destruct eof; [exists c', block', k, NGX_ERROR; auto 10|].
  destruct (Nat.eqb_spec (length s) 0) as [E0|E0]; [apply length_zero_iff_nil in E0; by specialize (Te E0)|].
  eexists c', block', _, _. split; [reflexivity|]. split; [done|].
  destruct (Z.ltb_spec (k + Z.of_nat (length s)) len); [right; left; split; [done|lia]|left; split; [done|]].
  rewrite Ep, length_app. lia.
Qed.

(** A round that reads the header and then sets the frame with [next]. *)
Lemma header_round_safe f c hl want (next : full_subscriber_t -> full_subscriber_t) res :
  serving f -> frame_ok (frame f) hl -> step (frame f) <> WEBSOCKET_READ_GET_PAYLOAD_STEP ->
  header_want (frame f) = want -> want <= 8 ->
  res = ('(f, c, k, rc) ← recv_header f c hl want;
         if negb (rc =? NGX_OK) then Ret (f, c, Exit rc (LastHeader k)) else Ret (next f, c, NextRound)) ->
  (forall h, length h = 8%nat -> let f' := next (with_frame f (set_header (frame f) h)) in
     serving f' /\ frame_ok (frame f') (Some 0) /\ (step_weight (step (frame f')) <= 3)%nat) ->
  safe_round f c res.
Proof.
  intros S [L8 Ln Fs Fp] Np Ew Lw -> Next. destruct (Fs Np) as (Nopl & k & -> & Hk). rewrite Ew in Hk.
  destruct (ws_recv_safe c (header (frame f)) k want Hk ltac:(lia)) as (c' & h & k' & rc & E & Lh & R).
  unfold recv_header. rewrite E, bind_Ret. rewrite bind_Ret. rewrite L8 in Lh.
  destruct R as [[-> Lp]|[[-> Hk']| ->]]; cbn [negb Z.eqb NGX_OK NGX_AGAIN NGX_ERROR].
  - destruct (Next h Lh) as (S' & F' & Wt). eexists _, c', NextRound. split; [reflexivity|]. split_and!; [done..|].
    unfold rounds_left. lia.
  - eexists _, c', _. split; [reflexivity|]. split; [by apply serving_frame|]. right. split; [done|].
    cbn [frame with_frame payload set_header]. rewrite Nopl. cbv zeta. split; try done.
    intros _. split; [done|]. exists k'. split; [done|]. revert Hk'. rewrite <- Ew. done.
  - eexists _, c', _. split; [reflexivity|]. split; [by apply serving_frame|by left].
Qed.

Lemma header_want_pos fr : 0 < header_want fr.
Proof. unfold header_want. repeat case_match; lia. Qed.

(** A frame whose payload is not read yet. *)
Lemma frame_ok_fresh fr : length (header fr) = 8%nat -> 0 <= payload_len fr -> payload fr = None -> frame_ok fr (Some 0).
Proof.
  intros L8 Ln Np. split; try done.
  - intros _. split; [done|]. exists 0. split; [done|]. pose proof (header_want_pos fr). lia.
  - by rewrite Np.
Qed.

Lemma read_start_safe f c hl : serving f -> frame_ok (frame f) hl -> step (frame f) = WEBSOCKET_READ_START_STEP ->
  safe_round f c (read_start f c hl).
Proof.
  intros S F Es. assert (step (frame f) <> WEBSOCKET_READ_GET_PAYLOAD_STEP) as N by (by rewrite Es).
  destruct (fo_step _ _ F N) as [Np _].
  eapply (header_round_safe f c hl 2 (fun f => with_frame f (decode_start (frame f)))); try done.
  - unfold header_want. by rewrite Es.
  - intros h Lh. split_and!; [by do 2 apply serving_frame| |cbn; lia]. apply frame_ok_fresh; try done.
    cbn. apply Z.land_nonneg. by right.
Qed.

Lemma read_size_safe f c hl : serving f -> frame_ok (frame f) hl -> step (frame f) = WEBSOCKET_READ_GET_REAL_SIZE_STEP ->
  safe_round f c (read_size f c hl).
Proof.
  intros S F Es. assert (step (frame f) <> WEBSOCKET_READ_GET_PAYLOAD_STEP) as N by (by rewrite Es).
  destruct (fo_step _ _ F N) as [Np _]. unfold read_size.
  destruct (Z.eqb_spec (payload_len (frame f)) 126) as [E6|N6]; [|destruct (Z.eqb_spec (payload_len (frame f)) 127) as [E7|N7]].
  - eapply (header_round_safe f c hl 2 (fun f => with_frame (with_frame f (set_payload_len (frame f) (ntohs (of_le (take 2 (header (frame f)))))))
        (set_step (frame (with_frame f (set_payload_len (frame f) (ntohs (of_le (take 2 (header (frame f)))))))) WEBSOCKET_READ_GET_MASK_KEY_STEP))); try done.
    + unfold header_want. by rewrite Es, E6.
    + intros h Lh. split_and!; [by do 3 apply serving_frame| |cbn; lia]. apply frame_ok_fresh; try done. apply ntohs_nonneg.
  - eapply (header_round_safe f c hl 8 (fun f => with_frame (with_frame f (set_payload_len (frame f) (nchan_ntohll (of_le (take 8 (header (frame f)))))))
        (set_step (frame (with_frame f (set_payload_len (frame f) (nchan_ntohll (of_le (take 8 (header (frame f)))))))) WEBSOCKET_READ_GET_MASK_KEY_STEP))); try done.
    + unfold header_want. by rewrite Es, E7.
    + intros h Lh. split_and!; [by do 3 apply serving_frame| |cbn; lia]. apply frame_ok_fresh; try done. apply ntohll_nonneg.
  - eexists _, c, NextRound. split; [reflexivity|]. split_and!; [by apply serving_frame|apply frame_ok_fresh; try done; apply F|].
    unfold rounds_left. rewrite Es. cbn. lia.
Qed.

Lemma read_mask_safe f c hl : serving f -> frame_ok (frame f) hl -> step (frame f) = WEBSOCKET_READ_GET_MASK_KEY_STEP ->
  safe_round f c (read_mask f c hl).
Proof.
  intros S F Es. assert (step (frame f) <> WEBSOCKET_READ_GET_PAYLOAD_STEP) as N by (by rewrite Es).
  destruct (fo_step _ _ F N) as [Np _]. unfold read_mask. destruct (Z.eqb_spec (mask (frame f)) 0) as [E0|N0]; cbn [negb].
  - eexists _, c, NextRound. split; [reflexivity|]. split_and!; [by apply serving_frame|apply frame_ok_fresh; try done; apply F|].
    unfold rounds_left. rewrite Es. cbn. lia.
  - eapply (header_round_safe f c hl 4 (fun f => with_frame (with_frame f (set_mask_key (frame f) (take 4 (header (frame f)))))
        (set_step (frame (with_frame f (set_mask_key (frame f) (take 4 (header (frame f)))))) WEBSOCKET_READ_GET_PAYLOAD_STEP))); try done.
    + unfold header_want. rewrite Es. cbn. by rewrite (proj2 (Z.eqb_neq _ _)).
    + intros h Lh. split_and!; [by do 3 apply serving_frame| |cbn; lia]. apply frame_ok_fresh; try done. apply F.
Qed.

(** The end of a frame. *)
Lemma restart_safe f f0 c c' : serving f -> length (header (frame f)) = 8%nat -> 0 <= payload_len (frame f) ->
  (length (pending c') <= length (pending c))%nat -> step (frame f0) = WEBSOCKET_READ_GET_PAYLOAD_STEP ->
  safe_round f0 c (f ← restart_frame f; Ret (f, c', Retry)).
Proof.
  intros S L8 Ln Lp Es. unfold restart_frame, live. rewrite (sv_live _ S). cbn [negb c_assert]. rewrite !bind_Ret.
  eexists _, c', Retry. split; [reflexivity|]. split_and!; [by apply serving_frame|by apply frame_ok_fresh|].
  unfold rounds_left. rewrite Es. cbn. lia.
Qed.

Lemma send_frame_safe f op len m : serving f ->
  exists f', websocket_send_frame f op len (Some m) = Ret f' /\ serving f' /\ frame f' = frame f.
Proof.
  intros S. unfold websocket_send_frame, live. rewrite (sv_live _ S). cbn [negb c_assert]. rewrite bind_Ret.
  destruct (header_chain_total op len m) as [s ->]. eexists. split; [reflexivity|]. split; [by apply serving_emit|done].
Qed.

Lemma handle_control_safe f c c' p f0 : serving f -> length (header (frame f)) = 8%nat -> 0 <= payload_len (frame f) ->
  (length (pending c') <= length (pending c))%nat -> step (frame f0) = WEBSOCKET_READ_GET_PAYLOAD_STEP ->
  safe_round f0 c (handle_control cf f c' p).
Proof.
  intros S L8 Ln Lp Es. unfold handle_control. destruct (_ =? WEBSOCKET_OPCODE_PING); [|destruct (_ =? WEBSOCKET_OPCODE_PONG)].
  - destruct (send_frame_safe f WEBSOCKET_PONG_LAST_FRAME_BYTE (payload_len (frame f)) p S) as (f1 & -> & S1 & E1). rewrite bind_Ret.
    apply restart_safe; by rewrite ?E1.
  - apply restart_safe; try done. by apply (serving_same f).
  - set (f1 := with_received_close_frame f true). assert (in_queue f1) as S1 by (by destruct (sv_queue _ S)).
    destruct (if 2 <=? _ then _ else _) as [code reason]. destruct (negb (sent_close_frame f1)).
    + by apply close_and_return.
    + rewrite bind_Ret. apply finalize_and_return_ok. by left.
Qed.

Lemma read_control_safe f c hl : serving f -> frame_ok (frame f) hl -> step (frame f) = WEBSOCKET_READ_GET_PAYLOAD_STEP ->
  is_control (opcode (frame f)) = true -> safe_round f c (read_control cf f c).
Proof.
  intros S [L8 Ln _ _] Es Ec. unfold read_control. destruct (Z.eqb_spec (payload_len (frame f)) 0) as [E0|N0].
  { apply handle_control_safe; try done. by apply serving_frame. }
  destruct (Z.ltb_spec (payload_len (frame f)) 1024) as [L|L]; [|by apply close_and_return, S].
  destruct (ws_recv_safe c (replicate (Z.to_nat 1024) 0) 0 (payload_len (frame f)) ltac:(lia)) as (c' & block & k & rc & -> & Lb & R).
  { rewrite length_replicate. lia. }
  rewrite bind_Ret. destruct R as [[-> Lp]|[[-> Hk]| ->]]; cbn [negb Z.eqb NGX_OK NGX_AGAIN NGX_ERROR].
  - apply handle_control_safe; try done; [by apply serving_frame|lia].
  - eexists _, c', _. split; [reflexivity|]. split; [by apply serving_frame|]. right. split; [done|]. cbv zeta. by split.
  - eexists _, c', _. split; [reflexivity|]. split; [by apply serving_frame|by left].
Qed.

(** The store answers at once. *)
Lemma respond_refused f st :
  in_queue f -> sent_close_frame f = false -> st = NGX_HTTP_INSUFFICIENT_STORAGE \/ st = NGX_HTTP_INTERNAL_SERVER_ERROR ->
  exists f', websocket_respond_status cf f st None = Ret f' /\ only_closed f f'.
Proof.
  intros Q Ns Hst.
  assert (exists msg, websocket_respond_status cf f st None =
    if negb (shook_hands f) then Ret (emit f (RespondHttp st))
    else websocket_send_close_frame cf f CLOSE_INTERNAL_SERVER_ERROR (Some msg)) as [msg ->].
  { unfold websocket_respond_status, live. rewrite (iq_live _ Q). destruct Hst as [->| ->]; eexists; reflexivity. }
  destruct (shook_hands f); cbn [negb].
  - destruct (send_close_ok f CLOSE_INTERNAL_SERVER_ERROR (Some msg) Q) as (f' & -> & R). rewrite Ns in R. destruct R as [R _]. by exists f'.
  - eexists. split; [reflexivity|]. split; try done. by intros [].
Qed.

Lemma callback_safe f status :
  in_queue f -> 0 < reserved f -> (refusing (Some status) = true -> sent_close_frame f = false) ->
  exists f', websocket_publish_callback cf f status [] = Ret f' /\ in_queue f' /\ reserved f' = reserved f - 1 /\
    answers f' = answers f /\ deflate_enabled f' = deflate_enabled f /\ frame f' = frame f /\
    (refusing (Some status) = false -> sent_close_frame f' = sent_close_frame f).
Proof.
  intros Q Hr Hs. unfold websocket_publish_callback, websocket_release, live. rewrite (iq_live _ Q). cbn [negb c_assert].
  rewrite !bind_Ret, (proj2 (Z.ltb_lt _ _) Hr). cbn [c_assert]. rewrite bind_Ret. cbv zeta.
  set (f1 := with_reserved f (reserved f - 1)). assert (in_queue f1) as Q1 by (by destruct Q).
  rewrite (iq_awaiting _ Q1). cbn [andb negb]. rewrite bind_Ret. cbn [Z.eqb NGX_OK NGX_ABORT orb]. assert (exists f', Ret f1 = Ret f' /\ in_queue f' /\ reserved f' = reserved f - 1 /\
    answers f' = answers f /\ deflate_enabled f' = deflate_enabled f /\ frame f' = frame f /\
    (refusing (Some status) = false -> sent_close_frame f' = sent_close_frame f)) as Stay by (by exists f1).
  destruct (dead f1); [exact Stay|]. cbn [orb].
  destruct (_ || _) eqn:Eq.
  { destruct (sub_websocket cf); [exact Stay|]. unfold websocket_send_frame, live. rewrite (iq_live _ Q1). cbn [negb c_assert].
    rewrite bind_Ret. destruct (header_chain_total WEBSOCKET_TEXT_LAST_FRAME_BYTE (Z.of_nat (length (@nil Z))) []) as [s ->].
    rewrite bind_Ret. eexists. split; [reflexivity|]. split_and!; try done. by destruct Q1. }
  assert (forall st, st = NGX_HTTP_INSUFFICIENT_STORAGE \/ st = NGX_HTTP_INTERNAL_SERVER_ERROR -> refusing (Some status) = true ->
    exists f', websocket_respond_status cf f1 st None = Ret f' /\ in_queue f' /\ reserved f' = reserved f - 1 /\
    answers f' = answers f /\ deflate_enabled f' = deflate_enabled f /\ frame f' = frame f /\
    (refusing (Some status) = false -> sent_close_frame f' = sent_close_frame f)) as Refuse.
  { intros st Hst Er. destruct (respond_refused f1 st Q1 (Hs Er) Hst) as (f' & E & []). exists f'. split_and!; auto. congruence. }
  unfold refusing in Refuse, Stay |- *. destruct (status =? NGX_HTTP_INSUFFICIENT_STORAGE); [apply Refuse; [by left|done]|].
  destruct (_ || _) eqn:Er; [|exact Stay]. apply Refuse; [by right|]. done.
Qed.

Lemma publish_safe f p b : serving f -> exists f', websocket_publish cf f p b = Ret f' /\ serving f' /\ frame f' = frame f.
Proof.
  intros S. pose proof (sv_queue _ S) as Q. unfold websocket_publish, live. rewrite (iq_live _ Q). cbn [negb c_assert]. rewrite bind_Ret.
  assert (forall g, serving g -> frame g = frame f ->
    exists f', websocket_reserve g = Ret f' /\ in_queue f' /\ reserved f' = reserved g + 1 /\ answers f' = answers g /\
      deflate_enabled f' = deflate_enabled g /\ sent_close_frame f' = sent_close_frame g /\ frame f' = frame f) as Reserve.
  { intros g [[] ? ? ?] Ef. unfold websocket_reserve, ensure_request_hold, live. rewrite iq_live0. cbn [negb c_assert].
    rewrite bind_Ret. destruct (holding g); cbn [negb]; (eexists; split; [reflexivity|]; by split_and!). }
  assert (forall g g', serving g -> in_queue g' -> 0 <= reserved g' -> answers g' = answers g ->
    deflate_enabled g' = deflate_enabled g -> sent_close_frame g' = sent_close_frame g -> serving g') as Same.
  { intros g g' [_ _ Rf Mf] Q' R' E1 E2 E3. split; auto; [unfold refusals; by rewrite E1, E3|].
    unfold may_fail, refusals. by rewrite E1, E2, E3. }
  set (f1 := with_msg_pool f false). assert (serving f1) as S1 by (by apply serving_pool).
  destruct (intercept f1 || negb (upstream_request_url f1)).
  - unfold websocket_publish_continue, live. rewrite (iq_live _ (sv_queue _ S1)). cbn [negb c_assert]. rewrite bind_Ret.
    destruct (intercept f1); [eexists; split; [reflexivity|]; split; [by apply serving_emit|done]|].
    destruct (Reserve f1 S1 eq_refl) as (f2 & -> & Q2 & R2 & A2 & D2 & C2 & F2). rewrite bind_Ret.
    set (f3 := emit f2 _). assert (in_queue f3) as Q3 by (by destruct Q2). pose proof (sv_reserved _ S1) as R1.
    pose proof S1 as [_ _ Rf Mf]. destruct (answers f3) as [|[status|] rest] eqn:Ea; unfold refusals in Rf, Mf.
    + eexists. split; [reflexivity|]. split; [|done]. apply (Same f1); auto. cbn. lia.
    + set (f4 := with_answers f3 rest). assert (in_queue f4) as Q4 by (by destruct Q3).
      change (answers f3) with (answers f2) in Ea. rewrite <- A2, Ea, filter_cons in Rf, Mf.
      destruct (callback_safe f4 status Q4) as (f5 & -> & Q5 & R5 & A5 & D5 & F5 & C5).
      * change (0 < reserved f2). lia.
      * intros Er. change (sent_close_frame f2 = false). rewrite decide_True in Rf by done. simpl length in Rf. rewrite C2.
        destruct (sent_close_frame f1); [simpl in Rf; lia|done].
      * exists f5. split; [done|]. split; [|by rewrite F5].
        assert (deflate_enabled f5 = deflate_enabled f1) as D51 by (rewrite D5; exact D2).
        split; [done|rewrite R5; change (reserved f4) with (reserved f2); lia| |]; unfold refusals, may_fail;
          rewrite A5, ?D51; change (answers f4) with rest; (destruct (refusing (Some status)) eqn:Er;
            [rewrite decide_True in Rf, Mf by done|rewrite decide_False in Rf, Mf by done; rewrite (C5 eq_refl);
             change (sent_close_frame f4) with (sent_close_frame f2); rewrite C2; done]).
        -- simpl length in Rf. destruct (sent_close_frame f5); simpl; lia.
        -- intros M. destruct (Mf M) as [M0 _]. discriminate M0.
    + eexists. split; [reflexivity|]. split; [|done]. change (answers f3) with (answers f2) in Ea.
      rewrite <- A2, Ea, filter_cons, decide_False in Rf, Mf by done.
      split; [by destruct Q3|change (0 <= reserved f2); lia| |]; unfold refusals, may_fail; cbn [answers with_answers].
      * change (sent_close_frame (with_answers f3 rest)) with (sent_close_frame f2). by rewrite C2.
      * change (deflate_enabled (with_answers f3 rest)) with (deflate_enabled f2).
        change (sent_close_frame (with_answers f3 rest)) with (sent_close_frame f2). by rewrite C2, D2.
  - set (f2 := emit f1 _). assert (serving f2) as S2 by (by apply serving_emit).
    destruct (Reserve f2 S2 eq_refl) as (f3 & -> & Q3 & R3 & A3 & D3 & C3 & F3). rewrite bind_Ret.
    exists f3. split; [done|]. split; [|done]. pose proof (sv_reserved _ S2). apply (Same f2); auto. lia.
Qed.

Lemma heartbeat_safe f p : serving f ->
  exists f' rc, websocket_heartbeat cf f p = Ret (f', rc) /\ serving f' /\ frame f' = frame f.
Proof.
  intros S. unfold websocket_heartbeat, live. rewrite (sv_live _ S). cbn [negb c_assert]. rewrite bind_Ret.
  destruct (websocket_heartbeat_conf cf) as [[in_ out_]|]; [|by eauto 10]. destruct (nchan_ngx_str_match in_ p); [|by eauto 10].
  destruct (send_frame_safe f WEBSOCKET_TEXT_LAST_FRAME_BYTE (Z.of_nat (length out_)) out_ S) as (f1 & -> & S1 & E1). eauto 10.
Qed.

Lemma handle_message_safe f c c' p f0 : serving f -> length (header (frame f)) = 8%nat -> 0 <= payload_len (frame f) ->
  (length (pending c') <= length (pending c))%nat -> step (frame f0) = WEBSOCKET_READ_GET_PAYLOAD_STEP ->
  safe_round f0 c (handle_message cf f c' p).
Proof.
  intros S L8 Ln Lp Es. unfold handle_message.
  assert (exists f1 m, (if deflate_enabled f && negb (rsv1 (frame f) =? 0) then websocket_inflate_message f p else (f, Some p)) = (f1, m) /\
    serving f1 /\ frame f1 = frame f /\ (m = None -> may_fail f1)) as (f1 & m & -> & S1 & E1 & Hm).
  { destruct (deflate_enabled f && negb (rsv1 (frame f) =? 0)) eqn:Ed; [|by exists f, (Some p)].
    apply andb_true_iff in Ed as [Ed _]. unfold websocket_inflate_message.
    destruct (match zstream_in f with Some z => Some z | None => _ end) as [z|]; [|exists f, None; split_and!; try done; by left].
    destruct (nchan_inflate z p) as [r z']. eexists _, r. split; [reflexivity|]. split; [by apply (serving_same f)|].
    split; [done|]. intros _. by left. }
  destruct m as [msgbuf|]; [|by apply fail_and_return; [|apply Hm]]. rewrite <- E1.
  assert (exists b, (if opcode (frame f1) =? WEBSOCKET_OPCODE_TEXT then is_utf8 msgbuf else Ret true) = Ret b) as [b ->].
  { destruct (_ =? _); [|eauto]. destruct (is_utf8_spec msgbuf) as (b & -> & _). eauto. }
  rewrite bind_Ret. destruct b; cbn [negb]; [|by apply close_and_return, serving_pool].
  destruct (heartbeat_safe f1 msgbuf S1) as (f2 & rc & -> & S2 & E2). rewrite bind_Ret. cbn beta iota.
  destruct (negb (rc =? NGX_OK)).
  - destruct (publish_safe f2 msgbuf (opcode (frame f1) =? WEBSOCKET_OPCODE_BINARY) S2) as (f3 & -> & S3 & E3). rewrite bind_Ret.
    apply restart_safe; by rewrite ?E3, ?E2, ?E1.
  - rewrite bind_Ret. apply restart_safe; try done; [by apply serving_pool|cbn; by rewrite E2, E1..].
Qed.

Lemma read_message_safe f c hl : serving f -> frame_ok (frame f) hl -> step (frame f) = WEBSOCKET_READ_GET_PAYLOAD_STEP ->
  is_control (opcode (frame f)) = false -> safe_round f c (read_message cf f c).
Proof.
  intros S [L8 Ln _ Fp] Es Ec. specialize (Fp Es). unfold read_message. destruct (pub_websocket cf); cbn [negb]; [|by apply close_and_return, S].
  cbv zeta. set (size := if payload_len (frame f) =? 0 then 1 else payload_len (frame f)).
  match goal with |- safe_round _ _ (match ?x with _ => _ end) => set (allocated := x) end.
  assert (allocated = None /\ may_fail f \/ exists block k,
      allocated = Some (set_payload (frame f) (Some (InPool block)) (Some (LastPayload k))) /\
      0 <= k /\ (0 < payload_len (frame f) -> k < payload_len (frame f)) /\ payload_len (frame f) <= Z.of_nat (length block))
    as [[-> M]|(block & k & -> & Hk & Lk & Lb)]; [|by apply fail_and_return|].
  { unfold allocated. destruct (payload (frame f)) as [[block|block|]|] eqn:Ep; [|done|by rewrite Ec in Fp|].
    2: destruct (palloc_succeeds size) eqn:Ea; [|left; split; [done|]; right; by exists size].
    all: right.
    - destruct Fp as (_ & k & El & Hk & Lb). exists block, k. split_and!; try lia. f_equal. unfold set_payload.
      destruct (frame f). cbn in *. congruence.
    - eexists _, 0. split; [reflexivity|]. rewrite length_replicate. unfold size. destruct (Z.eqb_spec (payload_len (frame f)) 0); lia. }
  cbn [payload last payload_len set_payload]. destruct (Z.ltb_spec 0 (payload_len (frame f))) as [L0|L0].
  - destruct (ws_recv_safe c block k (payload_len (frame f)) ltac:(lia) Lb) as (c' & block' & k' & rc & -> & Lb' & R).
    rewrite bind_Ret. destruct R as [[-> Lp]|[[-> Hk']| ->]]; cbn [negb Z.eqb NGX_OK NGX_AGAIN NGX_ERROR].
    + apply handle_message_safe; try done; [by apply serving_frame, serving_frame, serving_pool|lia].
    + eexists _, c', _. split; [reflexivity|]. split; [by apply serving_frame, serving_frame, serving_pool|]. right. split; [done|].
      cbv zeta. split; try done. cbn. intros _. split; [done|]. exists k'. rewrite Lb'. auto.
    + eexists _, c', _. split; [reflexivity|]. split; [by apply serving_frame, serving_frame, serving_pool|by left].
  - rewrite bind_Ret. apply handle_message_safe; try done. by apply serving_frame, serving_frame, serving_pool.
Qed.
(** ** Calls *)

Lemma read_round_safe f c hl : serving f -> frame_ok (frame f) hl -> safe_round f c (read_round cf f c hl).
Proof.
  intros S F. unfold read_round.
  destruct (Z.eqb_spec (step (frame f)) WEBSOCKET_READ_START_STEP); [by apply read_start_safe|].
  destruct (Z.eqb_spec (step (frame f)) WEBSOCKET_READ_GET_REAL_SIZE_STEP); [by apply read_size_safe|].
  destruct (Z.eqb_spec (step (frame f)) WEBSOCKET_READ_GET_MASK_KEY_STEP); [by apply read_mask_safe|].
  destruct (Z.eqb_spec (step (frame f)) WEBSOCKET_READ_GET_PAYLOAD_STEP); [|by apply finalize_and_return_ok; left; apply S].
  change ((opcode (frame f) =? WEBSOCKET_OPCODE_PING) || (opcode (frame f) =? WEBSOCKET_OPCODE_PONG) || (opcode (frame f) =? WEBSOCKET_OPCODE_CLOSE))
    with (is_control (opcode (frame f))).
  destruct (is_control (opcode (frame f))) eqn:Ec; [by eapply read_control_safe|].
  destruct (_ || _); [by eapply read_message_safe|].
  unfold websocket_send_frame, live. rewrite (sv_live _ S). cbn [negb c_assert]. rewrite bind_Ret.
  change (websocket_frame_header_chain WEBSOCKET_CLOSE_LAST_FRAME_BYTE 0 None) with (Ret [WEBSOCKET_CLOSE_LAST_FRAME_BYTE; 0]).
  rewrite !bind_Ret. apply finalize_and_return_ok. left. by apply serving_emit.
Qed.

(** Between calls: the frame can be resumed, or the request was finalized. *)
Definition resumable (f : full_subscriber_t) : Prop :=
  serving f /\ frame_ok (frame f) (header_last (frame f)) \/ unreferenced f.

Lemma reading_exit_safe f c rc bl : serving f ->
  (rc = NGX_ERROR \/ rc = NGX_AGAIN /\
   let gone := match payload (frame f) with Some (OnStack _) => Some Dangling | p => p end in
   let fr := set_payload (frame f) gone (Some bl) in frame_ok fr (header_last fr)) ->
  exists f', reading_exit cf f c rc bl = Ret f' /\ resumable f'.
Proof.
  intros S [->|[-> F]]; unfold reading_exit; cbn [Z.eqb NGX_AGAIN NGX_ERROR Pos.eqb].
  - edestruct reading_finalize_ok as (f' & -> & U); [left; by apply serving_frame|]. exists f'. split; [done|by right].
  - destruct (restore_read c); cbn [negb].
    + eexists. split; [reflexivity|]. left. split; [by do 2 apply serving_frame|exact F].
    + edestruct reading_finalize_ok as (f' & -> & U); [left; by do 2 apply serving_frame|]. exists f'. split; [done|by right].
Qed.

Lemma reading_loop_safe fuel f c hl : (rounds_left f c < fuel)%nat -> serving f -> frame_ok (frame f) hl ->
  exists f' c', reading_loop cf fuel f c hl = Ret (f', c') /\ resumable f'.
Proof.
  revert f c hl. induction fuel as [|fuel IH]; intros f c hl L S F; [lia|]. cbn [reading_loop].
  destruct (conn_broken c).
  { destruct (reading_finalize_ok f (or_introl (sv_queue _ S))) as (f' & -> & U). rewrite bind_Ret. exists f', c. split; [done|by right]. }
  destruct (read_round_safe f c hl S F) as (f1 & c1 & e & -> & Post). rewrite bind_Ret. destruct e as [| |rc bl|].
  - destruct Post as (S1 & F1 & L1). apply IH; [lia|done|done].
  - destruct Post as (S1 & F1 & L1). rewrite (sv_ctx _ S1). cbn [negb]. apply IH; [lia|done|done].
  - destruct Post as [S1 E]. destruct (reading_exit_safe f1 c1 rc bl S1 E) as (f' & -> & R). rewrite bind_Ret. eauto.
  - exists f1, c1. split; [done|by right].
Qed.

Lemma reading_safe f c : resumable f ->
  exists f' c', websocket_reading cf (4 * length (pending c) + 4) f c = Ret (f', c') /\ resumable f'.
Proof.
  intros [[S F]|U]; unfold websocket_reading.
  - rewrite (sv_ctx _ S). unfold live. rewrite (sv_live _ S). cbn [negb c_assert]. rewrite bind_Ret.
    apply reading_loop_safe; [|done|done]. unfold rounds_left, step_weight. repeat case_match; lia.
  - rewrite U. eexists _, c. split; [reflexivity|by right].
Qed.

Lemma receive_safe arrive f c pieces : resumable f ->
  exists f' c', receive cf arrive f c pieces = Ret (f', c') /\ resumable f'.
Proof.
  revert f c. induction pieces as [|s pieces IH]; intros f c R; cbn [receive]; [eauto|].
  destruct (reading_safe f (arrive c s) R) as (f1 & c1 & -> & R1). rewrite bind_Ret. by apply IH.
Qed.
End safety.

(** C19.  Whatever bytes arrive on the socket of a subscriber in the queue of its
    channel, in whatever pieces and however the connection fails, every call of
    the read handler returns: no assertion fails, no byte is written outside of
    the header or the payload, and a subscriber that was freed is not touched;
    afterwards the frame can be resumed or the request was finalized. The store
    may answer publications at once; but at most one such answer is a refusal,
    counting the close frame if it was sent before ([second_refusal_uses_freed]
    has two), and none where a message may fail to inflate or to be allocated. *)
Theorem reader_never_aborts `{NgxSocket} `{Inflate} `{NgxPool} `{NgxUtf8} cf arrive f c pieces :
  serving f -> frame f = websocket_init_frame ->
  exists f' c', receive cf arrive f c pieces = Ret (f', c') /\ (ctx_sub f' = true -> freed f' = false).
Proof.
  intros S Ef. destruct (receive_safe cf arrive f c pieces) as (f' & c' & E & R).
  - left. split; [done|]. rewrite Ef. by apply frame_ok_fresh.
  - exists f', c'. split; [done|]. destruct R as [[S' _]|U]; [by intros _; apply S'|]. unfold unreferenced in U. by rewrite U.
Qed.

(** The store refuses the second of three messages. *)
Definition refused_once : full_subscriber_t :=
  with_answers example_sub [Some NCHAN_MESSAGE_QUEUED; Some NGX_HTTP_INSUFFICIENT_STORAGE; None].

Lemma reader_never_aborts_witness :
  exists f' c', receive example_conf example_arrive refused_once no_bytes
      [two_texts; two_texts; [129; 255; 1]; [2; 3]; repeat 255 20] = Ret (f', c') /\
    (ctx_sub f' = true -> freed f' = false).
Proof.
  apply reader_never_aborts; [|reflexivity]. split; [by split|done|vm_compute; lia|]. intros [M|[n M]]; discriminate M.
Defined.
