(* ===== verification/MultiGet.v ===== *)
(** * Reading a multiplexed channel ([store/memory/memstore.c], [subscribers/memstore_multi.c])

    A subscriber of several channels at once is served from a channel of its
    own, the multiplexed channel.  To find the message that follows an id, the
    store asks each of the channels for its own next message and answers with
    the oldest of them; the answers come back in any order, some of them from
    other workers, and after a timeout. *)

From S2P Require Import Prelude Nginx MsgId MsgIdFacts Msg ChanHead.

(** ** Data *)

#[export] Instance nchan_msg_status_eq_dec : EqDecision nchan_msg_status_t.
Proof. solve_decision. Defined.

(** [get_multi_message_data_t]; the single-request records [sd] are the
    channel indices the answers carry. *)
Record get_multi_message_data_t := GetMulti {
  gm_status : nchan_msg_status_t;
  gm_msg : option positive;
  gm_n : Z;
  wanted_msgid : nchan_msg_id_t;
  getting : Z;
  multi_count : Z;
  timer_set : bool;
  gm_expired : Z;
}.

(** What [d->cb] receives: a status, and the message on the stack of the
    caller with the tag arrays it points to. *)
Record multi_response := MultiResponse {
  resp_status : nchan_msg_status_t;
  resp_msg : option nchan_msg_t;
  resp_tags : tag_heap;
}.

(** [mw_data] is [None] once the request has been freed, [mw_reserved] the
    reservation count of the multiplexed channel. *)
Record multi_world := MultiWorld {
  mw_tags : tag_heap;
  mw_msgs : msgs;
  mw_reserved : Z;
  mw_data : option get_multi_message_data_t;
  mw_responses : list multi_response;
}.

Definition mw_set_data (x : multi_world) (d : option get_multi_message_data_t) : multi_world :=
  MultiWorld (mw_tags x) (mw_msgs x) (mw_reserved x) d (mw_responses x).
Definition mw_put (x : multi_world) (th : tag_heap) (ms : msgs) : multi_world :=
  MultiWorld th ms (mw_reserved x) (mw_data x) (mw_responses x).
Definition mw_answer (x : multi_world) (r : multi_response) : multi_world :=
  MultiWorld (mw_tags x) (mw_msgs x) (mw_reserved x) (mw_data x) (mw_responses x ++ [r]).

Definition set_getting (d : get_multi_message_data_t) (k : Z) : get_multi_message_data_t :=
  GetMulti (gm_status d) (gm_msg d) (gm_n d) (wanted_msgid d) k (multi_count d) (timer_set d) (gm_expired d).
Definition set_gm_status (d : get_multi_message_data_t) (s : nchan_msg_status_t) : get_multi_message_data_t :=
  GetMulti s (gm_msg d) (gm_n d) (wanted_msgid d) (getting d) (multi_count d) (timer_set d) (gm_expired d).

Definition msg_at (ms : msgs) (p : positive) : outcome nchan_msg_t :=
  match ms !! p with Some m => Ret m | None => Crash end.

(** [memstore_chanhead_reserve] and [memstore_chanhead_release], without
    reservation labels; the count is a [uint16_t]. *)
Definition set_reserved (x : multi_world) (r : Z) : multi_world :=
  MultiWorld (mw_tags x) (mw_msgs x) r (mw_data x) (mw_responses x).
Definition memstore_chanhead_reserve (x : multi_world) : multi_world := set_reserved x (u16 (mw_reserved x + 1)).
Definition memstore_chanhead_release (x : multi_world) : multi_world := set_reserved x (u16 (mw_reserved x - 1)).

(** Writing one tag of the array the code selects by the number of channels. *)
Definition write_tag (th : tag_heap) (i : nchan_msg_id_t) (count n v : Z) :
    outcome (tag_heap * nchan_msg_id_t) :=
  if NCHAN_FIXED_MULTITAG_MAX <? count then
    match tag i with
    | allocd (Some p) =>
        match th !! p with
        | Some b =>
            if (0 <=? n) && (n <? Z.of_nat (length (cells b)))
            then Ret (<[p := TB (malloced b) (<[Z.to_nat n := v]> (cells b))]> th, i) else Crash
        | None => Crash
        end
    | _ => Crash
    end
  else
    match tag i with
    | fixed t =>
        if (0 <=? n) && (n <? Z.of_nat (length t))
        then Ret (th, MsgId (time i) (fixed (<[Z.to_nat n := v]> t)) (tagactive i) (tagcount i)) else Crash
    | allocd _ => Crash
    end.

(** ** Collecting the answers *)

Section get_multi.
(** The static arrays [multi_largetag] and [multi_prevlargetag], the address
    of the message on the callback's stack, and a bound on chains of derived
    messages. *)
Context (multi_largetag multi_prevlargetag frame : positive) (fuel : nat).

Definition set_multimsg_msg (x : multi_world) (d : get_multi_message_data_t) (n : Z) (m : option positive)
    (status : nchan_msg_status_t) : outcome (multi_world * get_multi_message_data_t) :=
  '(th1, ms1) ←
    (match gm_msg d with
     | Some p => '(th', ms', _) ← msg_release fuel (mw_tags x) (mw_msgs x) p; Ret (th', ms')
     | None => Ret (mw_tags x, mw_msgs x)
     end);
  ms2 ←
    (match m with
     | Some p =>
         '(ms', rc) ← msg_reserve fuel ms1 p;
         c_assert (rc =? NGX_OK);; Ret ms'
     | None => Ret ms1
     end);
  Ret (mw_put x th1 ms2,
       GetMulti status m n (wanted_msgid d) (getting d) (multi_count d) (timer_set d) (gm_expired d)).

Definition nchan_store_async_get_multi_message_callback_cleanup (x : multi_world) (d : get_multi_message_data_t) :
    outcome multi_world :=
  if getting d =? 0 then
    '(th, _, _) ← nchan_free_msg_id (mw_tags x) (wanted_msgid d);
    Ret (mw_set_data (mw_put x th (mw_msgs x)) None)
  else Ret (mw_set_data x (Some d)).

(** Whether the answer [m] of channel [n] is better than the best one so far. *)
Definition better_answer (x : multi_world) (d : get_multi_message_data_t) (n : Z) (m best : positive) : outcome bool :=
  mi ← msg_id_at (mw_msgs x) m;
  bi ← msg_id_at (mw_msgs x) best;
  c_assert (time (wanted_msgid d) <=? time mi);;
  if time mi <? time bi then Ret true
  else if time mi =? time bi then
    v ← fixed0 mi;
    u ← fixed0 bi;
    Ret ((v <? u) || ((v =? u) && (n <? gm_n d)))
  else Ret false.

(** With many channels the tags go to the static array, the first one being
    the message's. *)
Definition use_largetag (th : tag_heap) (i : nchan_msg_id_t) (count v : Z) : outcome (tag_heap * nchan_msg_id_t) :=
  if NCHAN_FIXED_MULTITAG_MAX <? count then
    th' ← block_write th (Some multi_largetag) [v];
    Ret (th', MsgId (time i) (allocd (Some multi_largetag)) (tagactive i) (tagcount i))
  else Ret (th, i).

(** The id of the response: that of the message, spread over the channels. *)
Definition multi_response_id (th : tag_heap) (d : get_multi_message_data_t) (own mid : nchan_msg_id_t) :
    outcome (tag_heap * nchan_msg_id_t) :=
  let n := gm_n d in
  v ← fixed0 mid;
  '(th1, i1) ←
    (if negb (time (wanted_msgid d) =? time mid) then
       '(th', i, _) ← nchan_copy_msg_id th own mid None None;
       '(th', i) ← use_largetag th' i (multi_count d) v;
       nchan_expand_msg_id_multi_tag th' (MsgId (time i) (tag i) (tagactive i) (multi_count d)) 0 n (-1)
     else
       '(th', i, _) ← nchan_copy_msg_id th own (wanted_msgid d) (Some multi_largetag) None;
       Ret (th', i));
  '(th2, i2) ← write_tag th1 i1 (multi_count d) n v;
  Ret (th2, MsgId (time i2) (tag i2) n (tagcount i2)).

(** The end of the callback, once every answer is there: the best message is
    derived on the stack and passed on under its multiplexed id. *)
Definition multi_respond (x : multi_world) (d : get_multi_message_data_t) : outcome multi_world :=
  let x := memstore_chanhead_release x in
  match gm_msg d with
  | None => Ret (mw_answer x (MultiResponse (gm_status d) None (mw_tags x)))
  | Some p =>
      m ← msg_at (mw_msgs x) p;
      c_assert (tagcount (id m) =? 1);;
      '(th1, ms1, _) ← nchan_msg_derive_stack (mw_tags x) (mw_msgs x) p (Some frame) None None;
      retmsg ← msg_at ms1 frame;
      '(th2, prev, _) ← nchan_copy_msg_id th1 (prev_id retmsg) (wanted_msgid d) (Some multi_prevlargetag) None;
      '(th3, rid) ← multi_response_id th2 d (id retmsg) (id m);
      let x := mw_answer x (MultiResponse (gm_status d) (Some (set_id (set_prev_id retmsg prev) rid)) th3) in
      '(th4, ms4, _) ← msg_release fuel th3 (delete frame ms1) p;
      Ret (mw_put x th4 ms4)
  end.

(** Taking an answer into account. *)
Definition multi_take_answer (x : multi_world) (d : get_multi_message_data_t) (code : nchan_msg_status_t)
    (m : option positive) (n : Z) : outcome (multi_world * get_multi_message_data_t) :=
  if bool_decide (gm_status d = MSG_PENDING) then set_multimsg_msg x d n m code
  else
    match m, gm_msg d with
    | Some p, None => set_multimsg_msg x d n m code
    | Some p, Some best =>
        b ← better_answer x d n p best;
        if (b : bool) then set_multimsg_msg x d n m code else Ret (x, d)
    | None, None =>
        if negb (bool_decide (gm_status d = MSG_EXPECTED)) then Ret (x, set_gm_status d code) else Ret (x, d)
    | None, Some _ => Ret (x, d)
    end.

(** The answer of channel [n]; the request it belongs to may not have been
    freed yet. *)
Definition nchan_store_async_get_multi_message_callback (x : multi_world) (code : nchan_msg_status_t)
    (m : option positive) (n : Z) : outcome multi_world :=
  match mw_data x with
  | None => Crash
  | Some d =>
      let d1 := set_getting d (getting d - 1) in
      if negb (gm_expired d =? 0) then nchan_store_async_get_multi_message_callback_cleanup x d1
      else
        '(x2, d2) ← multi_take_answer x d1 code m n;
        x3 ← (if getting d2 =? 0 then multi_respond x2 d2 else Ret x2);
        nchan_store_async_get_multi_message_callback_cleanup x3 d2
  end.

Definition get_multimsg_timeout (now : Z) (x : multi_world) : outcome multi_world :=
  match mw_data x with
  | None => Crash
  | Some d =>
      Ret (memstore_chanhead_release (mw_set_data x (Some (GetMulti (gm_status d) (gm_msg d) (gm_n d) (wanted_msgid d)
        (getting d) (multi_count d) false now))))
  end.
End get_multi.

(** ** Asking the channels *)

(** The multiplexed channel: its number of channels, and [sub->last_msgid] of
    each internal subscriber ([None] when [sub] is [NULL]). *)
Record multi_chanhead := MultiChan { mc_count : Z; mc_last : list (option nchan_msg_id_t) }.

(** The ids the channels are asked from. *)
Definition extract_all (th : tag_heap) (msg_id : nchan_msg_id_t) (n : nat) : outcome (list nchan_msg_id_t) :=
  mapM (fun i => '(r, rc) ← nchan_extract_from_multi_msgid th msg_id (Z.of_nat i) NCHAN_ZERO_MSGID;
                 c_assert (rc =? NGX_OK);; Ret r) (seq 0 n).

(** Whether a channel whose last forwarded message is [lastid] may have one
    that follows [req]. *)
Definition want_channel (lastid : option nchan_msg_id_t) (req : nchan_msg_id_t) : outcome bool :=
  match lastid with
  | None => Crash
  | Some l =>
      if (time l =? 0) || (time l =? -1) || (time req <? time l) then Ret true
      else if time l =? time req then
        u ← fixed0 l; v ← fixed0 req; Ret (v <=? u)
      else Ret false
  end.

Definition want_all (last : list (option nchan_msg_id_t)) (reqs : list nchan_msg_id_t) : outcome (list bool) :=
  mapM (fun lr => want_channel lr.1 lr.2) (zip last reqs).

(** The requests that are sent, by channel index. *)
Definition multi_requests (want : list bool) (reqs : list nchan_msg_id_t) : list (Z * nchan_msg_id_t) :=
  omap (fun x => x) (imap (fun i wr => if (wr.1 : bool) then Some (Z.of_nat i, wr.2) else None) (zip want reqs)).

(** [chead] is [None] when the multiplexed channel could not be created, [new]
    what the allocation of the tags of [wanted_msgid] returns.  The result is
    the state after the requests are sent, and the requests. *)
Definition nchan_store_async_get_multi_message (x : multi_world) (chead : option multi_chanhead)
    (msg_id : nchan_msg_id_t) (new : option positive) :
    outcome (multi_world * list (Z * nchan_msg_id_t) * Z) :=
  match chead with
  | None => Ret (mw_answer x (MultiResponse MSG_EXPECTED None (mw_tags x)), [], NGX_ERROR)
  | Some ch =>
      let n := mc_count ch in
      if NCHAN_MULTITAG_MAX <? n then Crash  (* the arrays on the stack *)
      else
        reqs ← extract_all (mw_tags x) msg_id (Z.to_nat n);
        want ← (if time msg_id =? 0 then Ret (replicate (Z.to_nat n) true)
                else want_all (mc_last ch) reqs);
        let rs := multi_requests want reqs in
        let k := Z.of_nat (length rs) in
        if k =? 0 then Ret (mw_answer x (MultiResponse MSG_EXPECTED None (mw_tags x)), [], NGX_OK)
        else
          let x := memstore_chanhead_reserve x in
          '(th, wid, _) ← nchan_copy_new_msg_id (mw_tags x) msg_id new;
          let d := GetMulti (if k =? n then MSG_PENDING else MSG_EXPECTED) None (-1) wid k n true 0 in
          Ret (mw_set_data (mw_put x th (mw_msgs x)) (Some d), rs, NGX_OK)
  end.

(** ** What happens to a request *)

Inductive multi_event :=
  | Answered (n : Z) (code : nchan_msg_status_t) (m : option positive)
  | TimedOut (now : Z).

Definition multi_step (lt plt frame : positive) (fuel : nat) (x : multi_world) (e : multi_event) : outcome multi_world :=
  match e with
  | Answered n code m => nchan_store_async_get_multi_message_callback lt plt frame fuel x code m n
  | TimedOut now => get_multimsg_timeout now x
  end.

Fixpoint multi_run (lt plt frame : positive) (fuel : nat) (x : multi_world) (es : list multi_event) :
    outcome multi_world :=
  match es with
  | [] => Ret x
  | e :: es => x' ← multi_step lt plt frame fuel x e; multi_run lt plt frame fuel x' es
  end.

(** ** Forwarding from a channel to the multiplexed one ([sub_respond_message]) *)

(** The message as it is published to the multiplexed channel: the arrays
    [tags] and [prevtags] on the stack, with arbitrary content. *)
Definition memstore_multi_sub_respond_message (th : tag_heap) (ms : msgs) (p frame tags prevtags : positive)
    (multi_count n : Z) : outcome (tag_heap * nchan_msg_t) :=
  m ← msg_at ms p;
  c_assert (tagcount (id m) =? 1);;
  c_assert (tagcount (prev_id m) =? 1);;
  '(th1, ms1, _) ← nchan_msg_derive_stack th ms p (Some frame) (Some tags) None;
  remsg ← msg_at ms1 frame;
  v ← fixed0 (id m);
  u ← fixed0 (prev_id m);
  '(th2, own) ← use_largetag tags th1 (id remsg) multi_count v;
  '(th3, prev) ← use_largetag prevtags th2 (prev_id remsg) multi_count u;
  '(th4, prev') ← nchan_expand_msg_id_multi_tag th3 (MsgId (time prev) (tag prev) n multi_count) 0 n (-1);
  '(th5, own') ← nchan_expand_msg_id_multi_tag th4 (MsgId (time own) (tag own) n multi_count) 0 n (-1);
  Ret (th5, set_id (set_prev_id remsg prev') own').
