(* ===== verification/MultiGetFacts.v ===== *)
(** * Facts about reading a multiplexed channel

    Whatever the order in which the channels answer, the response is the oldest
    of the messages found, under an id that moves the position of its channel
    only; the request and the reservations it made are released. *)

From S2P Require Import Prelude Nginx MsgId MsgIdFacts Msg MsgRef ChanHead ChanHeadFacts MultiGet.

(** ** Writing tag arrays *)

Lemma id_tags_agree th th' i :
  (forall p, tag i = allocd (Some p) -> th' !! p = th !! p) -> id_tags th' i = id_tags th i.
Proof.
  intros A. unfold id_tags, id_array. destruct (tagcount i <=? NCHAN_FIXED_MULTITAG_MAX); [done|].
  destruct (tag i) as [|[p|]]; try done. by rewrite A.
Qed.

(** Reading the tags looks at the array and the count only. *)
Lemma id_tags_of th t i a : id_tags th (MsgId t (tag i) a (tagcount i)) = id_tags th i.
Proof. reflexivity. Qed.

Lemma set_id_tags_frame th i vs th' i' b :
  set_id_tags th i vs = Ret (th', i') -> tag i <> allocd (Some b) -> th' !! b = th !! b.
Proof.
  unfold set_id_tags, block_write. intros E N.
  destruct (tagcount i <=? NCHAN_FIXED_MULTITAG_MAX).
  - destruct (tag i); [|done]. case_decide; by inv_outcome.
  - destruct (tag i) as [|[q|]]; try done. destruct (th !! q); [|done]. case_decide; [|done].
    inv_outcome. apply lookup_insert_ne. congruence.
Qed.

(** Spreading the first tag over the channels. *)
Definition spread (count n : nat) (v : Z) : list Z := <[n := v]> (replicate count (-1)).

Lemma imap_spread (ts : list Z) (n : nat) (v : Z) :
  (n < length ts)%nat -> imap (fun i _ => if Z.of_nat i =? Z.of_nat n then v else -1) ts = spread (length ts) n v.
Proof.
  intros Hn. apply list_eq. intros i. unfold spread. rewrite list_lookup_imap.
  destruct (decide (i = n)) as [->|Hi].
  - rewrite list_lookup_insert_eq by (by rewrite length_replicate).
    destruct (lookup_lt_is_Some_2 ts n Hn) as [w ->]. simpl. by rewrite Z.eqb_refl.
  - rewrite list_lookup_insert_ne by done. destruct (decide (i < length ts)%nat).
    + destruct (lookup_lt_is_Some_2 ts i) as [w ->]; [done|]. simpl.
      rewrite (proj2 (Z.eqb_neq _ _)) by lia. symmetry. by apply lookup_replicate_2.
    + rewrite lookup_ge_None_2 by lia. simpl. symmetry. apply lookup_ge_None_2. rewrite length_replicate. lia.
Qed.

Lemma expand_spec th i ts n v :
  id_tags th i = Ret ts -> 1 <= tagcount i <= 255 -> ts !! 0%nat = Some v -> (n < length ts)%nat ->
  exists th' i', nchan_expand_msg_id_multi_tag th i 0 (Z.of_nat n) (-1) = Ret (th', i') /\
    id_tags th' i' = Ret (spread (length ts) n v) /\ time i' = time i /\ tagcount i' = tagcount i /\
    tagactive i' = tagactive i /\
    (forall p, tag i = allocd p -> tag i' = allocd p) /\
    (forall b, tag i <> allocd (Some b) -> th' !! b = th !! b).
Proof.
  intros Ht Hc H0 Hn. unfold nchan_expand_msg_id_multi_tag.
  assert (Hl : length ts = Z.to_nat (tagcount i)) by (apply (id_tags_count th); [lia|done]).
  rewrite (proj2 (Z.ltb_lt 0 (tagcount i))), (proj2 (Z.ltb_lt (Z.of_nat n) (tagcount i))) by lia.
  simpl. rewrite Ht, bind_Ret.
  pose proof (nth_tag_lookup ts 0 v H0) as N0. change (Z.of_nat 0) with 0 in N0.
  rewrite N0, bind_Ret, (proj2 (Z.ltb_ge 255 (tagcount i))) by lia.
  rewrite imap_spread by done.
  destruct (set_id_tags_spec th i ts (spread (length ts) n v)) as (th' & i' & E & Hi & H1 & H2 & H3);
    [done|lia|unfold spread; by rewrite length_insert, length_replicate|].
  exists th', i'. split_and!; try done.
  - unfold set_id_tags in E. destruct (tagcount i <=? NCHAN_FIXED_MULTITAG_MAX), (tag i); try done.
    + case_decide; by inv_outcome.
    + by inv_outcome.
  - intros p Hp. by rewrite Hp in H3.
  - intros b Hb. by eapply set_id_tags_frame.
Qed.

Lemma write_tag_spec th i ts n v :
  id_tags th i = Ret ts -> 1 <= tagcount i -> (n < length ts)%nat ->
  exists th' i', write_tag th i (tagcount i) (Z.of_nat n) v = Ret (th', i') /\
    id_tags th' i' = Ret (<[n := v]> ts) /\ time i' = time i /\ tagcount i' = tagcount i /\
    (forall b, tag i <> allocd (Some b) -> th' !! b = th !! b) /\
    (forall p, tag i = allocd p -> tag i' = allocd p).
Proof.
  intros Ht Hc Hn. assert (Hl : length ts = Z.to_nat (tagcount i)) by (apply (id_tags_count th); [lia|done]).
  unfold write_tag. destruct i as [t0 tg a c]; simpl in *.
  destruct (id_tags_inv _ _ _ Ht) as [(Hle & l & Et & -> & Hl')|(Hgt & q & b & Et & Hq & -> & Hl')]; simpl in *; subst tg.
  - rewrite (proj2 (Z.ltb_ge _ _)), !Nat2Z.id by done.
    rewrite (proj2 (Z.leb_le 0 _)), (proj2 (Z.ltb_lt _ _)) by lia. simpl.
    eexists _, _. split_and!; try done.
    rewrite id_tags_fixed by (rewrite ?length_insert; done). by rewrite take_insert_lt by lia.
  - rewrite (proj2 (Z.ltb_lt _ _)), Hq, Nat2Z.id by done.
    rewrite (proj2 (Z.leb_le 0 _)), (proj2 (Z.ltb_lt _ _)) by lia. simpl.
    eexists _, _. split_and!; try done.
    + rewrite (id_tags_allocd _ _ _ _ _ (TB (malloced b) (<[n:=v]> (cells b))));
        [|done|apply lookup_insert_eq|simpl; by rewrite length_insert].
      simpl. by rewrite take_insert_lt by lia.
    + intros b' Hb'. apply lookup_insert_ne. congruence.
Qed.

(** Copying an id into one that has a single tag, with a static array for
    many tags. *)
Definition array_at (th : tag_heap) (p : positive) : Prop :=
  exists b, th !! p = Some b /\ length (cells b) = 255%nat.

Lemma copy_from_single th dst src ts p new :
  tagcount dst = 1 -> id_tags th src = Ret ts -> 1 <= tagcount src <= 255 -> array_at th p ->
  exists th' i, nchan_copy_msg_id th dst src (Some p) new = Ret (th', i, NGX_OK) /\
    id_tags th' i = Ret ts /\ time i = time src /\ tagcount i = tagcount src /\ tagactive i = tagactive src /\
    (forall b, b <> p -> th' !! b = th !! b) /\ array_at th' p /\
    (forall q, tag i = allocd (Some q) -> NCHAN_FIXED_MULTITAG_MAX < tagcount src -> q = p).
Proof.
  intros Hd Hs Hc (b & Hb & Lb). assert (Hl : length ts = Z.to_nat (tagcount src)) by (apply (id_tags_count th); [lia|done]).
  unfold nchan_copy_msg_id. rewrite Hd. change (u16 1) with 1.
  change (NCHAN_FIXED_MULTITAG_MAX <? 1) with false. rewrite andb_false_l, bind_Ret, (wrapu_small 16) by (unfold in_u; lia).
  destruct (Z.leb_spec (tagcount src) NCHAN_FIXED_MULTITAG_MAX).
  - eexists _, _. split; [done|]. simpl. split_and!; try done; [by exists b|intros; lia].
  - rewrite Hs, bind_Ret. rewrite (proj2 (Z.eqb_neq 1 (tagcount src))) by (unfold NCHAN_FIXED_MULTITAG_MAX in *; lia). simpl.
    unfold block_write. rewrite Hb, decide_True by lia. rewrite bind_Ret.
    eexists _, _. split; [done|]. simpl. split_and!; try done.
    + rewrite (id_tags_allocd _ _ _ _ _ (TB (malloced b) (ts ++ drop (length ts) (cells b))));
        simpl; [|done|apply lookup_insert_eq|rewrite length_app, length_drop; lia].
      by rewrite take_app_length' by lia.
    + intros. by apply lookup_insert_ne.
    + eexists. split; [apply lookup_insert_eq|]. simpl. rewrite length_app, length_drop. lia.
    + congruence.
Qed.

(** ** The id of the response *)

Section response.
Context (lt plt frame : positive).
Hypothesis arrays_differ : lt <> plt.

(** An answer's message: stored, not derived, with a single inline tag. *)
Record answer_msg (since : Z) (m : nchan_msg_t) : Prop := {
  am_parent : parent m = None;
  am_storage : storage m = NCHAN_MSG_SHARED;
  am_refcount : 0 <= refcount m < 2 ^ 62;
  am_id : tagcount (id m) = 1 /\ exists v a b c, tag (id m) = fixed [v; a; b; c];
  am_prev : tagcount (prev_id m) = 1;
  am_since : since <= time (id m) /\ 0 < time (id m);
}.

(** The wanted id: readable, and one tag per channel unless it is one of the
    special ids. *)
Record wanted_ok (th : tag_heap) (wid : nchan_msg_id_t) (wts : list Z) (count : Z) : Prop := {
  wo_tags : id_tags th wid = Ret wts;
  wo_count : 1 <= tagcount wid <= 255;
  wo_match : 0 < time wid -> tagcount wid = count;
  wo_own : forall p, tag wid = allocd (Some p) -> p <> lt /\ p <> plt;
  wo_malloced : NCHAN_FIXED_MULTITAG_MAX < tagcount wid ->
    exists p b, tag wid = allocd (Some p) /\ th !! p = Some b /\ malloced b = true;
}.

Lemma wanted_frame th th' wid wts count :
  wanted_ok th wid wts count -> (forall q, q <> plt -> q <> lt -> th' !! q = th !! q) -> wanted_ok th' wid wts count.
Proof.
  intros [w1 w2 w3 w4 w5] F. split; try done.
  - rewrite (id_tags_agree th th'); [done|]. intros q Hq. destruct (w4 q Hq). by apply F.
  - intros H. destruct (w5 H) as (p & b & Ep & Hp & M). exists p, b. destruct (w4 p Ep). by rewrite F.
Qed.

(** The block of the wanted id, freed with the request. *)
Definition wanted_block (wid : nchan_msg_id_t) : option positive :=
  if NCHAN_FIXED_MULTITAG_MAX <? tagcount wid then match tag wid with allocd p => p | fixed _ => None end else None.

Lemma free_wanted th wid wts count :
  wanted_ok th wid wts count ->
  exists th' i, nchan_free_msg_id th wid = Ret (th', i, NGX_OK) /\
    forall q, th' !! q = if decide (wanted_block wid = Some q) then None else th !! q.
Proof.
  intros Wk. unfold nchan_free_msg_id, wanted_block. destruct (Z.ltb_spec NCHAN_FIXED_MULTITAG_MAX (tagcount wid)).
  - destruct (wo_malloced _ _ _ _ Wk) as (p & b & -> & Hb & M); [done|]. unfold block_free. rewrite Hb, M.
    eexists _, _. split; [done|]. intros q. case_decide as E; [|apply lookup_delete_ne; congruence].
    injection E as ->. apply lookup_delete_eq.
  - eexists _, _. split; [done|]. intros q. by rewrite decide_False.
Qed.

(** The tags of the response. *)
Definition response_tags (wid : nchan_msg_id_t) (wts : list Z) (count n : nat) (t v : Z) : list Z :=
  if time wid =? t then <[n := v]> wts else spread count n v.

Lemma id_tags_single th i v a b c : tagcount i = 1 -> tag i = fixed [v; a; b; c] -> id_tags th i = Ret [v].
Proof. intros Hc Ht. unfold id_tags, id_array. by rewrite Hc, Ht. Qed.

Lemma use_largetag_spec th i count v a b c :
  tag i = fixed [v; a; b; c] -> 1 <= count <= 255 -> array_at th lt ->
  exists th1 i1, use_largetag lt th i count v = Ret (th1, i1) /\ time i1 = time i /\
    (exists ts, id_tags th1 (MsgId (time i1) (tag i1) (tagactive i1) count) = Ret ts /\ ts !! 0%nat = Some v) /\
    (forall p, p <> lt -> th1 !! p = th !! p) /\ (forall q, tag i1 = allocd (Some q) -> q = lt).
Proof.
  clear arrays_differ.
  intros Ht Hc (bb & Hb & Lb). unfold use_largetag.
  destruct (Z.ltb_spec NCHAN_FIXED_MULTITAG_MAX count).
  - unfold block_write. rewrite Hb, decide_True by (simpl; lia).
    eexists _, _. split; [done|]. simpl. split_and!; try done.
    + eexists. rewrite (id_tags_allocd _ _ _ _ _ (TB (malloced bb) (v :: drop 1 (cells bb))));
        [|done|apply lookup_insert_eq|simpl; rewrite length_drop; lia].
      split; [done|]. simpl. destruct (Z.to_nat count) eqn:?; [lia|done].
    + intros. by apply lookup_insert_ne.
    + congruence.
  - eexists _, _. split; [done|]. simpl. split_and!; try done; [|congruence].
    eexists. rewrite Ht, id_tags_fixed by (simpl; unfold NCHAN_FIXED_MULTITAG_MAX in *; lia).
    split; [done|]. destruct (Z.to_nat count) eqn:?; [lia|done].
Qed.

Lemma response_id_spec th d own mid wts n v a b c :
  tagcount own = 1 -> tagcount mid = 1 -> tag mid = fixed [v; a; b; c] -> 0 < time mid ->
  wanted_ok th (wanted_msgid d) wts (multi_count d) -> 1 <= multi_count d <= 255 ->
  gm_n d = Z.of_nat n -> (n < Z.to_nat (multi_count d))%nat -> array_at th lt ->
  exists th' rid, multi_response_id lt th d own mid = Ret (th', rid) /\
    id_tags th' rid = Ret (response_tags (wanted_msgid d) wts (Z.to_nat (multi_count d)) n (time mid) v) /\
    time rid = time mid /\ tagactive rid = Z.of_nat n /\ tagcount rid = multi_count d /\
    (forall p, p <> lt -> th' !! p = th !! p).
Proof.
  intros Ho Hm Ht Htime [Wt Wc Wm Wo _] Hc Hn Hlt Ha.
  unfold multi_response_id, response_tags. assert (fixed0 mid = Ret v) as -> by (unfold fixed0; by rewrite Ht).
  rewrite bind_Ret, Hn. destruct (Z.eqb_spec (time (wanted_msgid d)) (time mid)) as [Et|Et]; simpl.
  - rewrite <- Wm by lia.
    destruct (copy_from_single th own (wanted_msgid d) wts lt None Ho Wt Wc Ha)
      as (th1 & i1 & -> & T1 & E1 & C1 & _ & F1 & _ & A1). rewrite !bind_Ret. rewrite <- C1.
    assert (length wts = Z.to_nat (tagcount i1)) as Hl by (rewrite C1; apply (id_tags_count th); [lia|done]).
    destruct (write_tag_spec th1 i1 wts n v) as (th2 & i2 & -> & T2 & E2 & C2 & F2 & _); [done|lia|rewrite Hl, C1, Wm by lia; done|].
    rewrite bind_Ret. eexists _, _. split; [done|]. simpl. split_and!; try done; try congruence.
    + intros p Hp. destruct (decide (NCHAN_FIXED_MULTITAG_MAX < tagcount (wanted_msgid d))) as [Hbig|Hsmall].
      * rewrite F2, F1; [done|done|]. intros Ep. by destruct Hp, (A1 p).
      * rewrite F2, F1; [done|done|]. intros Ep. unfold id_tags, id_array in T1.
        rewrite (proj2 (Z.leb_le (tagcount i1) _)), Ep in T1 by lia. done.
  - unfold nchan_copy_msg_id at 1. rewrite Ho, Hm. change (u16 1) with 1.
    change (NCHAN_FIXED_MULTITAG_MAX <? 1) with false. simpl.
    destruct (use_largetag_spec th (MsgId (time mid) (tag mid) (tagactive mid) 1) (multi_count d) v a b c)
      as (th1 & i1 & -> & T1 & (ts & Ts & V) & F1 & A1); [done..|].
    rewrite bind_Ret.
    assert (length ts = Z.to_nat (multi_count d)) as Hl.
    { change (multi_count d) with (tagcount (MsgId (time i1) (tag i1) (tagactive i1) (multi_count d))).
      apply (id_tags_count th1); [simpl; lia|done]. }
    destruct (expand_spec th1 (MsgId (time i1) (tag i1) (tagactive i1) (multi_count d)) ts n v)
      as (th2 & i2 & -> & T2 & E2 & C2 & _ & P2 & F2); [done|simpl; lia|done|lia|].
    rewrite bind_Ret. simpl in *. rewrite <- C2.
    destruct (write_tag_spec th2 i2 (spread (length ts) n v) n v) as (th3 & i3 & -> & T3 & E3 & C3 & F3 & _);
      [done|lia|unfold spread; rewrite length_insert, length_replicate; lia|].
    rewrite bind_Ret. eexists _, _. split; [done|]. simpl. split_and!; try done; try congruence.
    + rewrite C2, <- Hl. unfold spread in T3 at 1. rewrite list_insert_insert_eq in T3. exact T3.
    + intros p Hp. assert (tag i1 <> allocd (Some p)) as N1 by (intros Q; by apply Hp, A1).
      rewrite F3, F2, F1; try done. intros Q.
      destruct (tag i1) as [l|q] eqn:Q1.
      * unfold id_tags, id_array in T2. rewrite C2, Q in T2. unfold id_tags, id_array in Ts. simpl in Ts.
        destruct (multi_count d <=? NCHAN_FIXED_MULTITAG_MAX); done.
      * rewrite (P2 q) in Q by done. congruence.
Qed.

(** ** What the request holds *)

(** The messages with the one the request keeps reserved. *)
Definition hold (mp : option positive) (ms : msgs) : msgs :=
  match mp with Some p => alter (fun m => set_refcount m (refcount m + 1)) p ms | None => ms end.

Definition stored (since : Z) (ms : msgs) (p : positive) : Prop :=
  exists m, ms !! p = Some m /\ answer_msg since m.

Lemma msg_at_spec ms p m : ms !! p = Some m -> msg_at ms p = Ret m.
Proof. clear. unfold msg_at. by intros ->. Qed.

Lemma hold_some ms p m : ms !! p = Some m -> hold (Some p) ms = <[p := set_refcount m (refcount m + 1)]> ms.
Proof.
  intros Hp. apply map_eq. intros q. simpl. destruct (decide (q = p)) as [->|].
  - by rewrite lookup_alter_eq, Hp, lookup_insert_eq.
  - by rewrite lookup_alter_ne, lookup_insert_ne.
Qed.

Lemma hold_reserve since ms p : stored since ms p -> msg_reserve 2 ms p = Ret (hold (Some p) ms, NGX_OK).
Proof.
  intros (m & Hp & A). pose proof (am_refcount _ _ A). rewrite (hold_some ms p m Hp).
  apply reserve_shared; [done|apply (am_parent _ _ A)|lia].
Qed.

Lemma hold_release since th ms p : stored since ms p -> msg_release 2 th (hold (Some p) ms) p = Ret (th, ms, NGX_OK).
Proof.
  intros (m & Hp & A). pose proof (am_refcount _ _ A). rewrite (hold_some ms p m Hp).
  rewrite (release_root th _ p (set_refcount m (refcount m + 1))); [|apply lookup_insert_eq|apply (am_parent _ _ A)|simpl; lia].
  f_equal. f_equal. f_equal. simpl. rewrite insert_insert_eq, insert_id; [done|].
  rewrite Hp. destruct m; unfold set_refcount; simpl. f_equal. f_equal. lia.
Qed.

Lemma hold_id since ms mp p m :
  stored since ms p -> ms !! p = Some m -> msg_id_at (hold mp ms) p = Ret (id m).
Proof.
  intros _ Hp. unfold msg_id_at. destruct mp as [q|]; simpl; [|by rewrite Hp].
  destruct (decide (q = p)) as [->|]; [by rewrite lookup_alter_eq, Hp|by rewrite lookup_alter_ne, Hp].
Qed.

Lemma set_multimsg_spec since x d n m status ms :
  mw_msgs x = hold (gm_msg d) ms ->
  (forall p, gm_msg d = Some p -> stored since ms p) -> (forall p, m = Some p -> stored since ms p) ->
  set_multimsg_msg 2 x d n m status =
    Ret (mw_put x (mw_tags x) (hold m ms),
         GetMulti status m n (wanted_msgid d) (getting d) (multi_count d) (timer_set d) (gm_expired d)).
Proof.
  intros E S1 S2. unfold set_multimsg_msg. rewrite E.
  assert ((match gm_msg d with
     | Some p => '(th', ms', _) ← msg_release 2 (mw_tags x) (hold (gm_msg d) ms) p; Ret (th', ms')
     | None => Ret (mw_tags x, hold (gm_msg d) ms)
     end) = Ret (mw_tags x, ms)) as ->.
  { destruct (gm_msg d) as [p|]; [|done]. by rewrite (hold_release since) by auto. }
  rewrite bind_Ret. destruct m as [p|]; [|done]. by rewrite (hold_reserve since) by auto.
Qed.

(** ** The response *)

(** [rm] is the message [m] of channel [n], answered to a request for [wid]. *)
Record response_of (th : tag_heap) (wid : nchan_msg_id_t) (wts : list Z) (count : Z) (n : nat)
    (m rm : nchan_msg_t) : Prop := {
  ro_tags : id_tags th (id rm) = Ret (response_tags wid wts (Z.to_nat count) n (time (id m)) (tag0 m));
  ro_time : time (id rm) = time (id m);
  ro_active : tagactive (id rm) = Z.of_nat n;
  ro_count : tagcount (id rm) = count;
  ro_prev : id_tags th (prev_id rm) = Ret wts;
  ro_prev_time : time (prev_id rm) = time wid;
  ro_content : buf rm = buf m /\ content_type rm = content_type m /\
    eventsource_event rm = eventsource_event m /\ compressed rm = compressed m;
}.

(** A stored message derived on the stack. *)
Definition stack_copy (p : positive) (m : nchan_msg_t) : nchan_msg_t :=
  Msg (id m) (prev_id m) (content_type m) (eventsource_event m) (buf m) (expires m) 0 (Some p) (compressed m) NCHAN_MSG_STACK.

Lemma derive_stack_spec th ms p m f o1 o2 :
  ms !! p = Some m -> parent m = None -> storage m = NCHAN_MSG_SHARED -> tagcount (id m) = 1 -> p <> f ->
  nchan_msg_derive_stack th ms p (Some f) o1 o2 = Ret (th, <[f := stack_copy p m]> ms, Some f).
Proof.
  clear arrays_differ.
  intros Hp P1 P2 P3 Nf. unfold nchan_msg_derive_stack, msg_derive_init, get_shared_msg.
  rewrite Hp, P2, P1. simpl. rewrite Hp. simpl. unfold msg_id_at.
  rewrite (lookup_insert_ne ms f p) by congruence. rewrite Hp, lookup_insert_eq. simpl.
  unfold nchan_copy_msg_id. rewrite P3. simpl. unfold write_id. rewrite lookup_insert_eq. simpl.
  rewrite insert_insert_eq. unfold stack_copy, set_id. simpl. rewrite <- P3. by destruct (id m).
Qed.

Lemma release_one x r :
  mw_reserved x = r + 1 -> 0 <= r < 65535 -> memstore_chanhead_release x = set_reserved x r.
Proof.
  clear. intros E Hr. unfold memstore_chanhead_release. rewrite E.
  replace (r + 1 - 1) with r by lia. by rewrite wrapu_small by (unfold in_u; lia).
Qed.

Lemma multi_respond_spec x d ms r p m n wts :
  mw_msgs x = hold (Some p) ms -> mw_reserved x = r + 1 -> 0 <= r < 65535 -> gm_msg d = Some p ->
  ms !! p = Some m -> answer_msg (time (wanted_msgid d)) m -> ms !! frame = None ->
  wanted_ok (mw_tags x) (wanted_msgid d) wts (multi_count d) -> 1 <= multi_count d <= 255 ->
  gm_n d = Z.of_nat n -> (n < Z.to_nat (multi_count d))%nat ->
  array_at (mw_tags x) lt -> array_at (mw_tags x) plt ->
  exists th' rm, multi_respond lt plt frame 2 x d =
      Ret (MultiWorld th' ms r (mw_data x) (mw_responses x ++ [MultiResponse (gm_status d) (Some rm) th'])) /\
    response_of th' (wanted_msgid d) wts (multi_count d) n m rm /\
    (forall q, q <> lt -> q <> plt -> th' !! q = mw_tags x !! q).
Proof.
  intros Em Er Hr Ed Hp A Hf Wk Hc Hn Hlt Al Ap.
  pose proof (am_parent _ _ A) as P1. pose proof (am_storage _ _ A) as P2. pose proof (am_prev _ _ A) as P4.
  destruct (am_id _ _ A) as (P5 & v & a & b & c & P6). destruct (am_since _ _ A) as [_ P7].
  assert (p <> frame) as Npf by congruence.
  assert (hold (Some p) ms !! p = Some (set_refcount m (refcount m + 1))) as Hp'
    by (rewrite (hold_some _ _ _ Hp); apply lookup_insert_eq).
  unfold multi_respond. rewrite (release_one x r), Ed by done. simpl mw_msgs. rewrite Em.
  rewrite (msg_at_spec _ _ _ Hp'), bind_Ret. simpl id. rewrite P5. simpl c_assert. rewrite bind_Ret. simpl mw_tags.
  rewrite (derive_stack_spec _ _ _ _ _ None None Hp' P1 P2 P5 Npf), bind_Ret.
  rewrite (msg_at_spec _ frame (stack_copy p (set_refcount m (refcount m + 1)))), bind_Ret by apply lookup_insert_eq.
  simpl prev_id. simpl id.
  destruct (copy_from_single (mw_tags x) (prev_id m) (wanted_msgid d) wts plt None)
    as (th1 & i1 & -> & T1 & E1 & C1 & _ & F1 & _ & A1); [done|apply Wk|apply Wk|done|]. rewrite bind_Ret.
  assert (wanted_ok th1 (wanted_msgid d) wts (multi_count d)) as Wk1.
  { apply (wanted_frame (mw_tags x)); [done|]. intros q Hq _. by apply F1. }
  assert (array_at th1 lt) as Al1 by (unfold array_at; by rewrite F1).
  destruct (response_id_spec th1 d (id m) (id m) wts n v a b c)
    as (th2 & rid & -> & T2 & E2 & G2 & C2 & F2); try done. rewrite bind_Ret.
  rewrite delete_insert_id by (rewrite (hold_some _ _ _ Hp), lookup_insert_ne; done).
  rewrite (hold_release (time (wanted_msgid d))) by (by exists m). rewrite bind_Ret.
  eexists _, _. split; [reflexivity|]. split.
  - split; simpl; try done; [unfold tag0; by rewrite P6|].
    rewrite (id_tags_agree th1 th2); [done|]. intros q Hq. apply F2.
    destruct (id_tags_inv _ _ _ T1) as [(_ & l & Et & _)|(Hg & _)]; [congruence|].
    rewrite (A1 q Hq) by lia. congruence.
  - intros q Hq1 Hq2. by rewrite F2, F1.
Qed.

(** ** Choosing among the answers *)

Definition answer : Type := nat * nchan_msg_status_t * option positive.
Definition answer_event (a : answer) : multi_event := Answered (Z.of_nat a.1.1) a.1.2 a.2.

(** Answers are compared by second, then tag, then channel index. *)
Definition key (ms : msgs) (n : nat) (p : positive) : Z * Z * Z :=
  match ms !! p with Some m => (time (id m), tag0 m, Z.of_nat n) | None => (0, 0, 0) end.
Definition key_lt (a b : Z * Z * Z) : Prop :=
  a.1.1 < b.1.1 \/ (a.1.1 = b.1.1 /\ (a.1.2 < b.1.2 \/ (a.1.2 = b.1.2 /\ a.2 < b.2))).

Lemma key_le_trans a b c : ~ key_lt b a -> ~ key_lt c b -> ~ key_lt c a.
Proof. clear. unfold key_lt. lia. Qed.

(** A message is an answer if and only if the status says so. *)
Definition answer_ok (since : Z) (count : Z) (ms : msgs) (a : answer) : Prop :=
  Z.of_nat a.1.1 < count /\ (a.1.2 = MSG_FOUND <-> is_Some a.2) /\
  forall p, a.2 = Some p -> stored since ms p.

(** The status of a response without a message: [MSG_EXPECTED] prevails. *)
Definition merge_status (st : nchan_msg_status_t) (a : answer) : nchan_msg_status_t :=
  if bool_decide (st = MSG_EXPECTED) then st else a.1.2.

Definition pick (ms : msgs) (start : nchan_msg_status_t) (seen : list answer) (d : get_multi_message_data_t) : Prop :=
  match gm_msg d with
  | None => Forall (fun a => a.2 = None) seen /\ gm_status d = fold_left merge_status seen start
  | Some p =>
      gm_status d = MSG_FOUND /\
      exists n, gm_n d = Z.of_nat n /\ (n, MSG_FOUND, Some p) ∈ seen /\
        forall n' p', (n', MSG_FOUND, Some p') ∈ seen -> ~ key_lt (key ms n' p') (key ms n p)
  end.

(** The fields the choice does not touch. *)
Definition same_request (d d' : get_multi_message_data_t) : Prop :=
  wanted_msgid d' = wanted_msgid d /\ getting d' = getting d /\ multi_count d' = multi_count d /\
  timer_set d' = timer_set d /\ gm_expired d' = gm_expired d.

Lemma better_answer_spec since ms x d n p q mp mq u :
  mw_msgs x = hold u ms -> ms !! p = Some mp -> ms !! q = Some mq -> answer_msg since mp -> answer_msg since mq ->
  time (wanted_msgid d) = since -> forall k, gm_n d = Z.of_nat k ->
  better_answer x d (Z.of_nat n) p q = Ret (bool_decide (key_lt (key ms n p) (key ms k q))).
Proof.
  intros E Hp Hq Ap Aq Ew k Hk. unfold better_answer. rewrite E.
  rewrite (hold_id since ms u p mp), (hold_id since ms u q mq) by (done || by eexists).
  rewrite !bind_Ret. destruct (am_id _ _ Ap) as (_ & v & a & b & c & Tp), (am_id _ _ Aq) as (_ & v' & a' & b' & c' & Tq).
  destruct (am_since _ _ Ap). rewrite Ew, (proj2 (Z.leb_le since _)) by done. simpl.
  unfold key. rewrite Hp, Hq. unfold fixed0, tag0. rewrite Tp, Tq, !bind_Ret, Hk.
  unfold key_lt; simpl. destruct (Z.ltb_spec (time (id mp)) (time (id mq))).
  - f_equal. symmetry. apply bool_decide_eq_true. lia.
  - destruct (Z.eqb_spec (time (id mp)) (time (id mq))).
    + f_equal. symmetry. destruct (Z.ltb_spec v v'); simpl; [apply bool_decide_eq_true; lia|].
      destruct (Z.eqb_spec v v'); simpl; [|apply bool_decide_eq_false; lia].
      destruct (Z.ltb_spec (Z.of_nat n) (Z.of_nat k)); [apply bool_decide_eq_true; lia|apply bool_decide_eq_false; lia].
    + f_equal. symmetry. apply bool_decide_eq_false. lia.
Qed.

Lemma mw_put_same x ms : mw_msgs x = ms -> mw_put x (mw_tags x) ms = x.
Proof. intros <-. by destruct x. Qed.

(** The new answer is the best one. *)
Lemma pick_new ms start seen d n p :
  gm_status d = MSG_FOUND -> gm_msg d = Some p -> gm_n d = Z.of_nat n ->
  (forall n' p', (n', MSG_FOUND, Some p') ∈ seen -> ~ key_lt (key ms n' p') (key ms n p)) ->
  pick ms start (seen ++ [(n, MSG_FOUND, Some p)]) d.
Proof.
  unfold pick. intros Es -> En Best. split; [done|]. exists n. split_and!; [done|set_solver|].
  intros n' p' [H|H%list_elem_of_singleton]%elem_of_app; [by apply Best|].
  simplify_eq. unfold key_lt. lia.
Qed.

(** The best answer stays the best one. *)
Lemma pick_keep ms start seen d q a :
  gm_msg d = Some q -> pick ms start seen d ->
  (forall n p, a = (n, MSG_FOUND, Some p) -> exists k, gm_n d = Z.of_nat k /\ ~ key_lt (key ms n p) (key ms k q)) ->
  pick ms start (seen ++ [a]) d.
Proof.
  unfold pick. intros -> (Es & k & Hk & Hin & Best) H. split; [done|]. exists k. split_and!; [done|set_solver|].
  intros n' p' [H'|H'%list_elem_of_singleton]%elem_of_app; [by apply Best|].
  destruct (H n' p' (eq_sym H')) as (k' & Hk' & ?). by assert (k = k') as -> by lia.
Qed.

Lemma pick_found_not ms start seen d q : gm_msg d = Some q -> pick ms start seen d -> gm_status d <> MSG_PENDING.
Proof. unfold pick. intros -> [-> _]. done. Qed.

Lemma no_message_found seen n p : Forall (fun a : answer => a.2 = None) seen -> (n, MSG_FOUND, Some p) ∉ seen.
Proof. rewrite Forall_forall. intros F H. by specialize (F _ H). Qed.

Lemma take_answer_spec since ms start seen x d a :
  mw_msgs x = hold (gm_msg d) ms -> (forall p, gm_msg d = Some p -> stored since ms p) ->
  time (wanted_msgid d) = since -> pick ms start seen d -> answer_ok since (multi_count d) ms a ->
  exists d', multi_take_answer 2 x d a.1.2 a.2 (Z.of_nat a.1.1) =
      Ret (mw_put x (mw_tags x) (hold (gm_msg d') ms), d') /\
    same_request d d' /\ pick ms start (seen ++ [a]) d' /\ (forall p, gm_msg d' = Some p -> stored since ms p).
Proof.
  intros Em Sd Ew P (Hn & Hf & Sa). destruct a as [[n c] m]; simpl in *.
  set (d' := GetMulti c m (Z.of_nat n) (wanted_msgid d) (getting d) (multi_count d) (timer_set d) (gm_expired d)).
  assert (Set_ : set_multimsg_msg 2 x d (Z.of_nat n) m c = Ret (mw_put x (mw_tags x) (hold m ms), d'))
    by (by apply (set_multimsg_spec since)).
  unfold multi_take_answer. destruct (gm_msg d) as [q|] eqn:Eq.
  - rewrite bool_decide_eq_false_2 by (by eapply pick_found_not).
    assert (exists k, gm_n d = Z.of_nat k /\ forall n' p', (n', MSG_FOUND, Some p') ∈ seen ->
      ~ key_lt (key ms n' p') (key ms k q)) as (k & Hk & Best)
      by (unfold pick in P; rewrite Eq in P; destruct P as (_ & k & ? & _ & ?); eauto).
    destruct m as [p|].
    + assert (c = MSG_FOUND) as -> by (apply Hf; eauto).
      destruct (Sa p eq_refl) as (mp & Hp & Ap), (Sd q eq_refl) as (mq & Hq & Aq).
      rewrite (better_answer_spec since ms x d n p q mp mq (Some q) Em Hp Hq Ap Aq Ew k Hk), bind_Ret.
      destruct (bool_decide_reflect (key_lt (key ms n p) (key ms k q))) as [B|B].
      * rewrite Set_. exists d'. split_and!; [reflexivity|done| |auto].
        apply pick_new; try done. intros n' p' H%Best. unfold key_lt in *; lia.
      * exists d. rewrite Eq, (mw_put_same x) by done. split_and!; [reflexivity|done| |done].
        apply (pick_keep ms start seen d q); [done|done|]. intros ? ? [= <- <-]. eauto.
    + exists d. rewrite Eq, (mw_put_same x) by done. split_and!; [reflexivity|done| |done].
      by apply (pick_keep ms start seen d q).
  - unfold pick in P. rewrite Eq in P. destruct P as [Fn Es]. destruct m as [p|].
    + assert (c = MSG_FOUND) as -> by (apply Hf; eauto). rewrite Set_.
      exists d'. split_and!; [by case_bool_decide|done| |done].
      apply pick_new; try done. intros n' p' H. by apply no_message_found in H.
    + assert (mw_put x (mw_tags x) (hold None ms) = x) as Ex by (by apply mw_put_same).
      assert (forall d2, gm_msg d2 = None -> gm_status d2 = merge_status (gm_status d) (n, c, None) ->
        pick ms start (seen ++ [(n, c, None)]) d2) as Pk.
      { intros d2 E2 S2. unfold pick. rewrite E2, fold_left_app, <- Es. split; [by apply Forall_app; auto|done]. }
      unfold merge_status in Pk. destruct (decide (gm_status d = MSG_PENDING)) as [Ep|Ep].
      * rewrite bool_decide_eq_true_2, Set_ by done. exists d'. split_and!; [done|done|apply Pk; [done|by rewrite Ep]|done].
      * rewrite bool_decide_eq_false_2 by done. destruct (bool_decide_reflect (gm_status d = MSG_EXPECTED)); simpl.
        -- exists d. rewrite Eq, Ex. split_and!; [done|done|by apply Pk|done].
        -- exists (set_gm_status d c). simpl. rewrite Eq, Ex. split_and!; [done|done|by apply Pk|done].
Qed.

(** ** The whole request *)

(** A request that waits for [k] more answers. *)
Record collecting (th : tag_heap) (ms : msgs) (r : Z) (rs : list multi_response) (wid : nchan_msg_id_t)
    (wts : list Z) (count : Z) (start : nchan_msg_status_t) (seen : list answer) (k : nat)
    (x : multi_world) (d : get_multi_message_data_t) : Prop := {
  co_world : x = MultiWorld th (hold (gm_msg d) ms) (r + 1) (Some d) rs;
  co_wanted : wanted_msgid d = wid;
  co_count : multi_count d = count;
  co_getting : getting d = Z.of_nat k;
  co_expired : gm_expired d = 0;
  co_stored : forall p, gm_msg d = Some p -> stored (time wid) ms p;
  co_pick : pick ms start seen d;
}.

(** What is asked of the surroundings. *)
Record request_context (th : tag_heap) (ms : msgs) (wid : nchan_msg_id_t) (wts : list Z) (count : Z) : Prop := {
  rc_wanted : wanted_ok th wid wts count;
  rc_count : 1 <= count <= 255;
  rc_frame : ms !! frame = None;
  rc_large : array_at th lt;
  rc_prev : array_at th plt;
}.

(** The response to the answers [seen]. *)
Definition response_ok (ms : msgs) (wid : nchan_msg_id_t) (wts : list Z) (count : Z) (start : nchan_msg_status_t)
    (seen : list answer) (resp : multi_response) : Prop :=
  match resp_msg resp with
  | None => Forall (fun a => a.2 = None) seen /\ resp_status resp = fold_left merge_status seen start
  | Some rm =>
      resp_status resp = MSG_FOUND /\
      exists n p m, (n, MSG_FOUND, Some p) ∈ seen /\ ms !! p = Some m /\
        (forall n' p', (n', MSG_FOUND, Some p') ∈ seen -> ~ key_lt (key ms n' p') (key ms n p)) /\
        response_of (resp_tags resp) wid wts count n m rm
  end.

(** The request is over: one response was made, and everything it held is
    released. *)
Definition request_over (th : tag_heap) (ms : msgs) (r : Z) (rs : list multi_response) (wid : nchan_msg_id_t)
    (wts : list Z) (count : Z) (start : nchan_msg_status_t) (seen : list answer) (x : multi_world) : Prop :=
  mw_msgs x = ms /\ mw_reserved x = r /\ mw_data x = None /\
  (forall q, q <> lt -> q <> plt -> mw_tags x !! q = if decide (wanted_block wid = Some q) then None else th !! q) /\
  exists resp, mw_responses x = rs ++ [resp] /\ response_ok ms wid wts count start seen resp.

Lemma multi_run_app es es' x :
  multi_run lt plt frame 2 x (es ++ es') = multi_run lt plt frame 2 x es ≫= (fun x => multi_run lt plt frame 2 x es').
Proof.
  revert x. induction es as [|e es IH]; intros x; [done|]. simpl. rewrite bind_assoc.
  destruct (multi_step lt plt frame 2 x e); simpl; auto.
Qed.

Lemma collecting_start th ms r rs wid wts count start k :
  collecting th ms r rs wid wts count start [] k
    (MultiWorld th ms (r + 1) (Some (GetMulti start None (-1) wid (Z.of_nat k) count true 0)) rs)
    (GetMulti start None (-1) wid (Z.of_nat k) count true 0).
Proof. split; done. Qed.


Section request.
Context (th : tag_heap) (ms : msgs) (r : Z) (rs : list multi_response) (wid : nchan_msg_id_t)
  (wts : list Z) (count : Z) (start : nchan_msg_status_t).
Hypothesis ctx : request_context th ms wid wts count.
Hypothesis r_pos : 0 <= r < 65535.

(** The response, when the last answer is there. *)
Lemma respond_over d seen :
  collecting th ms r rs wid wts count start seen 0 (MultiWorld th (hold (gm_msg d) ms) (r + 1) (Some d) rs) d ->
  (forall a, a ∈ seen -> answer_ok (time wid) count ms a) ->
  forall o, exists x', (x3 ← multi_respond lt plt frame 2 (MultiWorld th (hold (gm_msg d) ms) (r + 1) o rs) d;
            nchan_store_async_get_multi_message_callback_cleanup x3 d) = Ret x' /\
    request_over th ms r rs wid wts count start seen x'.
Proof.
  intros C Ok o. destruct ctx as [Wk Hc Hf Al Ap]. destruct C as [_ Cw Cc Cg _ Cs Cp].
  set (x := MultiWorld th (hold (gm_msg d) ms) (r + 1) o rs).
  assert (exists x3, multi_respond lt plt frame 2 x d = Ret x3 /\ mw_msgs x3 = ms /\ mw_reserved x3 = r /\
    (forall q, q <> lt -> q <> plt -> mw_tags x3 !! q = th !! q) /\ wanted_ok (mw_tags x3) wid wts count /\
    exists resp, mw_responses x3 = rs ++ [resp] /\ response_ok ms wid wts count start seen resp)
    as (x3 & -> & M3 & R3 & F3 & W3 & resp & Rs & Ro).
  { unfold pick in Cp. destruct (gm_msg d) as [p|] eqn:Eq.
    - destruct Cp as (Es & n & Hn & Hin & Best). destruct (Cs p eq_refl) as (m & Hp & A).
      destruct (Ok _ Hin) as (Hlt & _). simpl in Hlt.
      destruct (multi_respond_spec x d ms r p m n wts) as (th' & rm & E & Rm & F);
        [subst x; simpl; rewrite ?Cw, ?Cc; (done || lia)..|].
      rewrite E. eexists. split; [done|]. simpl. split_and!; try done.
      + apply (wanted_frame th); auto.
      + eexists. split; [done|]. unfold response_ok. simpl. rewrite Cw, Cc in Rm. eauto 10.
    - unfold multi_respond. rewrite (release_one x r) by done. simpl. rewrite Eq. eexists. split; [done|]. simpl. split_and!; try done.
      eexists. split; [done|]. by unfold response_ok. }
  rewrite bind_Ret. unfold nchan_store_async_get_multi_message_callback_cleanup. rewrite Cg. simpl. rewrite Cw.
  destruct (free_wanted _ wid wts count W3) as (th' & i & -> & Hth). rewrite bind_Ret.
  eexists. split; [done|]. unfold request_over. simpl. split_and!; try done; [|by eauto].
  intros q Hq1 Hq2. rewrite Hth. case_decide; [done|]. by apply F3.
Qed.

(** One answer: the rest of the callback runs on the new choice. *)
Lemma callback_takes seen k x d a :
  collecting th ms r rs wid wts count start seen (S k) x d -> answer_ok (time wid) count ms a ->
  exists d2, collecting th ms r rs wid wts count start (seen ++ [a]) k
      (MultiWorld th (hold (gm_msg d2) ms) (r + 1) (Some d2) rs) d2 /\
    multi_step lt plt frame 2 x (answer_event a) =
      (x3 ← (if Z.of_nat k =? 0
             then multi_respond lt plt frame 2 (MultiWorld th (hold (gm_msg d2) ms) (r + 1) (Some d) rs) d2
             else Ret (MultiWorld th (hold (gm_msg d2) ms) (r + 1) (Some d) rs));
       nchan_store_async_get_multi_message_callback_cleanup x3 d2).
Proof.
  intros [Cx Cw Cc Cg Ce Cs Cp] Ok. subst x.
  set (x := MultiWorld th (hold (gm_msg d) ms) (r + 1) (Some d) rs). set (d1 := set_getting d (getting d - 1)).
  destruct (take_answer_spec (time wid) ms start seen x d1 a) as (d2 & E2 & (S1 & S2 & S3 & S4 & S5) & P2 & St2);
    [done|done|by rewrite <- Cw|done|by rewrite <- Cc in Ok|].
  assert (getting d2 = Z.of_nat k) as G2 by (rewrite S2; simpl; lia).
  exists d2. split; [split; try done; try congruence; simpl in S1, S3, S5; congruence|].
  cbn [multi_step answer_event]. unfold nchan_store_async_get_multi_message_callback. subst x. simpl mw_data.
  cbv iota beta zeta. fold d1. change (gm_expired d1) with (gm_expired d). rewrite Ce. simpl (negb _).
  rewrite E2, bind_Ret. unfold mw_put. simpl mw_tags. simpl mw_reserved. simpl mw_responses. simpl mw_data. by rewrite G2.
Qed.

(** An answer that is not the last one. *)
Lemma collect_step seen k x d a :
  collecting th ms r rs wid wts count start seen (S (S k)) x d -> answer_ok (time wid) count ms a ->
  exists x' d', multi_step lt plt frame 2 x (answer_event a) = Ret x' /\
    collecting th ms r rs wid wts count start (seen ++ [a]) (S k) x' d'.
Proof.
  intros C Ok. destruct (callback_takes seen (S k) x d a C Ok) as (d2 & C2 & ->).
  rewrite (proj2 (Z.eqb_neq _ 0)) by lia. rewrite bind_Ret. unfold nchan_store_async_get_multi_message_callback_cleanup.
  rewrite (co_getting _ _ _ _ _ _ _ _ _ _ _ _ C2), (proj2 (Z.eqb_neq _ 0)) by lia. eauto.
Qed.

Lemma collect_steps rest : forall seen k x d,
  collecting th ms r rs wid wts count start seen (length rest + S k) x d ->
  (forall a, a ∈ rest -> answer_ok (time wid) count ms a) ->
  exists x' d', multi_run lt plt frame 2 x (answer_event <$> rest) = Ret x' /\
    collecting th ms r rs wid wts count start (seen ++ rest) (S k) x' d'.
Proof.
  induction rest as [|a rest IH]; intros seen k x d C Ok.
  - exists x, d. by rewrite app_nil_r.
  - rewrite fmap_cons. cbn [multi_run]. simpl in C. rewrite Nat.add_succ_r in C.
    destruct (collect_step _ _ _ _ a C) as (x1 & d1 & -> & C1); [apply Ok; set_solver|]. rewrite bind_Ret.
    rewrite <- Nat.add_succ_r in C1. destruct (IH _ _ _ _ C1) as (x' & d' & -> & C'); [set_solver|].
    exists x', d'. by rewrite <- app_assoc in C'.
Qed.

Lemma run_answers answers x d :
  collecting th ms r rs wid wts count start [] (length answers) x d -> answers <> [] ->
  (forall a, a ∈ answers -> answer_ok (time wid) count ms a) ->
  exists x', multi_run lt plt frame 2 x (answer_event <$> answers) = Ret x' /\
    request_over th ms r rs wid wts count start answers x'.
Proof.
  intros C Ne Ok. destruct (list_snoc_cases answers) as [->|(rest & a & ->)]; [done|].
  rewrite length_app in C. simpl in C. rewrite fmap_app.
  destruct (collect_steps rest [] 0 x d C) as (x1 & d1 & E1 & C1); [set_solver|].
  rewrite multi_run_app, E1, bind_Ret. simpl multi_run at 1.
  destruct (callback_takes _ _ _ _ a C1) as (d2 & C2 & E2); [apply Ok; set_solver|].
  destruct (respond_over d2 (rest ++ [a]) C2 Ok (Some d1)) as (x' & E & O).
  exists x'. split; [|done]. simpl.
  unfold multi_step in E2. simpl in E2. rewrite E2. by rewrite E.
Qed.

(** The answers that arrive after a timeout. *)
Lemma late_answers k : forall x d late,
  mw_data x = Some d -> wanted_msgid d = wid -> gm_expired d <> 0 -> getting d = Z.of_nat (S k) ->
  length late = S k -> mw_tags x = th ->
  exists th', multi_run lt plt frame 2 x (answer_event <$> late) =
      Ret (MultiWorld th' (mw_msgs x) (mw_reserved x) None (mw_responses x)) /\
    forall q, th' !! q = if decide (wanted_block wid = Some q) then None else th !! q.
Proof.
  induction k as [|k IH]; intros x d late Ed Ew Ee Eg El Et; destruct late as [|a late]; try done;
    rewrite fmap_cons; cbn [multi_run multi_step answer_event];
    unfold nchan_store_async_get_multi_message_callback; rewrite Ed;
    cbv iota beta zeta; change (gm_expired (set_getting d (getting d - 1))) with (gm_expired d);
    rewrite (proj2 (Z.eqb_neq _ 0) Ee); cbn [negb];
    unfold nchan_store_async_get_multi_message_callback_cleanup; simpl getting.
  - destruct late; [|done]. rewrite Eg. simpl. rewrite Ew, Et.
    destruct (free_wanted th wid wts count (rc_wanted _ _ _ _ _ ctx)) as (th' & i & -> & Hth).
    exists th'. by split.
  - rewrite (proj2 (Z.eqb_neq _ 0)) by lia. rewrite bind_Ret.
    destruct (IH (mw_set_data x (Some (set_getting d (getting d - 1)))) (set_getting d (getting d - 1)) late)
      as (th' & -> & Hth); try done; [simpl; lia|by injection El|]. by exists th'.
Qed.
End request.

(** C28.  However the answers of the channels are ordered, the request makes
    exactly one response.  If any channel had a message, it is the oldest one
    found (by second, then tag, then channel), under the id that replaces, in
    the wanted id, the tag of its channel only, or, in a later second, has no
    other tag; otherwise the response has no message, with [MSG_EXPECTED]
    prevailing over the other statuses.  Every reservation the request took, and
    the memory of its id, are released.  (The timeout of the request is not among
    these events: [multi_get_timeout_leaks].) *)
Theorem multi_get_oldest th ms r rs wid wts count start (answers : list answer) :
  request_context th ms wid wts count -> 0 <= r < 65535 -> answers <> [] ->
  (forall a, a ∈ answers -> answer_ok (time wid) count ms a) ->
  exists x', multi_run lt plt frame 2
      (MultiWorld th ms (r + 1) (Some (GetMulti start None (-1) wid (Z.of_nat (length answers)) count true 0)) rs)
      (answer_event <$> answers) = Ret x' /\
    request_over th ms r rs wid wts count start answers x'.
Proof.
  intros Cx Hr Ne Ok.
  apply (run_answers th ms r rs wid wts count start Cx Hr answers _
    (GetMulti start None (-1) wid (Z.of_nat (length answers)) count true 0)); [|done|done].
  by apply collecting_start.
Qed.

(** A request that times out is never answered: its subscriber hears
    nothing, whatever the channels still answer, and the best message received
    before the timeout stays reserved for ever, so that it is never freed. *)
Theorem multi_get_timeout_leaks th ms r rs wid wts count start (early late : list answer) now :
  request_context th ms wid wts count -> 0 <= r < 65535 -> late <> [] -> now <> 0 ->
  (forall a, a ∈ early -> answer_ok (time wid) count ms a) ->
  exists th' kept, multi_run lt plt frame 2
      (MultiWorld th ms (r + 1)
        (Some (GetMulti start None (-1) wid (Z.of_nat (length early + length late)) count true 0)) rs)
      ((answer_event <$> early) ++ TimedOut now :: (answer_event <$> late))
      = Ret (MultiWorld th' (hold kept ms) r None rs) /\
    (kept = None <-> Forall (fun a => a.2 = None) early).
Proof.
  intros Cx Hr Ne Hn Ok. destruct late as [|a late]; [done|]. simpl length.
  destruct (collect_steps th ms r rs wid wts count start Cx Hr early [] (length late) _ _
    (collecting_start th ms r rs wid wts count start _)) as (x & d & E & C); [done|].
  rewrite multi_run_app, E, bind_Ret. cbn [multi_run multi_step]. unfold get_multimsg_timeout.
  destruct C as [Cx' Cw Cc Cg Ce Cs Cp]. subst x. simpl mw_data. cbv iota.
  rewrite (release_one _ r), bind_Ret by done.
  edestruct (late_answers th ms wid wts count Cx (length late)) as (th' & -> & _); try reflexivity; try done.
  exists th', (gm_msg d). split; [done|]. unfold pick in Cp. destruct (gm_msg d) as [p|].
  - destruct Cp as (_ & n & _ & Hin & _). split; [done|]. intros F. by apply no_message_found in Hin.
  - by destruct Cp.
Qed.
End response.

(** ** Forwarding to the multiplexed channel *)

(** What a channel publishes reaches the multiplexed channel under the id
    that has the message's tag for that channel and none for the others, and
    follows, in the same way, the channel's previous message; the content is
    the same and the stored message is not changed. *)
Theorem multi_forward_exact th ms p m frame tags prevtags count n u a b c :
  ms !! p = Some m -> answer_msg 0 m -> tag (prev_id m) = fixed [u; a; b; c] -> p <> frame ->
  1 <= count <= 255 -> (n < Z.to_nat count)%nat ->
  tags <> prevtags -> array_at th tags -> array_at th prevtags ->
  exists th' rm, memstore_multi_sub_respond_message th ms p frame tags prevtags count (Z.of_nat n) = Ret (th', rm) /\
    id_tags th' (id rm) = Ret (spread (Z.to_nat count) n (tag0 m)) /\ time (id rm) = time (id m) /\
    id_tags th' (prev_id rm) = Ret (spread (Z.to_nat count) n u) /\ time (prev_id rm) = time (prev_id m) /\
    tagactive (id rm) = Z.of_nat n /\ tagactive (prev_id rm) = Z.of_nat n /\
    buf rm = buf m /\ content_type rm = content_type m /\ eventsource_event rm = eventsource_event m.
Proof.
  intros Hp A Tp Nf Hc Hn Nt At Ap. destruct (am_id _ _ A) as (C1 & v & a' & b' & c' & Tm).
  unfold memstore_multi_sub_respond_message. rewrite (msg_at_spec _ _ _ Hp), bind_Ret, C1, (am_prev _ _ A).
  simpl c_assert. rewrite !bind_Ret.
  rewrite (derive_stack_spec th ms p m frame (Some tags) None Hp (am_parent _ _ A) (am_storage _ _ A) C1 Nf), bind_Ret.
  rewrite (msg_at_spec _ frame (stack_copy p m)), bind_Ret by apply lookup_insert_eq. simpl id. simpl prev_id.
  assert (fixed0 (id m) = Ret v) as -> by (unfold fixed0; by rewrite Tm).
  assert (fixed0 (prev_id m) = Ret u) as -> by (unfold fixed0; by rewrite Tp). rewrite !bind_Ret.
  destruct (use_largetag_spec tags th (id m) count v a' b' c' Tm Hc At) as (th2 & own & -> & E2 & (ts & T2 & V2) & F2 & A2).
  rewrite bind_Ret.
  destruct (use_largetag_spec prevtags th2 (prev_id m) count u a b c Tp Hc) as (th3 & prev & -> & E3 & (ps & T3 & V3) & F3 & A3);
    [unfold array_at; by rewrite F2|]. rewrite bind_Ret.
  assert (length ps = Z.to_nat count) as Lp by (by apply id_tags_count in T3; [|simpl; lia]).
  assert (length ts = Z.to_nat count) as Lt by (by apply id_tags_count in T2; [|simpl; lia]).
  destruct (expand_spec th3 (MsgId (time prev) (tag prev) (Z.of_nat n) count) ps n u)
    as (th4 & prev' & -> & T4 & E4 & C4 & B4 & P4 & F4); [done|done|done|lia|]. rewrite bind_Ret. simpl in *.
  assert (forall q, tag own = allocd (Some q) -> th4 !! q = th2 !! q) as Fr.
  { intros q ->%A2. rewrite F4, F3; [done|done|]. intros Q. by apply Nt, A3. }
  destruct (expand_spec th4 (MsgId (time own) (tag own) (Z.of_nat n) count) ts n v)
    as (th5 & own' & -> & T5 & E5 & C5 & B5 & P5 & F5); [by rewrite (id_tags_agree th2 th4)|done|done|lia|].
  rewrite bind_Ret. simpl in *.
  eexists _, _. split; [reflexivity|]. simpl. unfold tag0. rewrite Tm, T5, Lt.
  split_and!; try done; try congruence.
  rewrite (id_tags_agree th4 th5), T4, Lp; [done|]. intros q Hq. apply F5. intros Q.
  destruct (id_tags_inv _ _ _ T4) as [(_ & l & Et & _)|(Hg & q' & _ & Et & _)]; [congruence|].
  destruct (tag prev) as [l|o] eqn:Ep.
  - destruct (id_tags_inv _ _ _ T3) as [(? & _)|(_ & ? & ? & Et' & _)]; simpl in *; [lia|congruence].
  - pose proof (P4 o eq_refl) as E. rewrite Hq in E. injection E as <-.
    apply Nt. by rewrite <- (A2 q Q), <- (A3 q eq_refl).
Qed.
