(* ===== verification/MultiRead.v ===== *)
(** * Reading several channels as one

    The requests, answers and response ids of [MultiGet] composed: reading a
    multiplexed channel step by step gives every message of every channel once,
    in the order of their ids. *)

From Stdlib Require Import Sorted.
From S2P Require Import Prelude Nginx MsgId MsgIdFacts Msg MsgRef ChanHead ChanHeadFacts ChanHeadRead MultiGet MultiGetFacts.

(** ** Running a list of fallible steps *)

Lemma mapM_outcome {A B} (f : A -> outcome B) (P : A -> B -> Prop) l :
  (forall x, x ∈ l -> exists y, f x = Ret y /\ P x y) -> exists ys, mapM f l = Ret ys /\ Forall2 P l ys.
Proof.
  induction l as [|x l IH]; intros H; [by exists []|]. simpl.
  destruct (H x) as (y & -> & Py); [set_solver|]. destruct IH as (ys & -> & F); [set_solver|].
  exists (y :: ys). by split; [|constructor].
Qed.

Lemma StronglySorted_filter {A} (R : A -> A -> Prop) (P : A -> Prop) `{!forall x, Decision (P x)} l :
  StronglySorted R l -> StronglySorted R (filter P l).
Proof.
  induction 1 as [|x l _ IH F]; [constructor|]. rewrite filter_cons. case_decide; [|done]. constructor; [done|].
  apply Forall_forall. intros y [_ Hy]%list_elem_of_filter. rewrite Forall_forall in F. by apply F.
Qed.

(** ** Positions *)

(** What a reader at second [t] with tags [ts] has seen of channel [i]; the
    oldest id has seen nothing. *)
Definition seen_at (t : Z) (ts : list Z) (i : nat) : Z * Z := if t =? 0 then (0, 0) else position t ts i.

(** A reader's id. *)
Record reader_id (th : tag_heap) (count : Z) (mid : nchan_msg_id_t) (ts : list Z) : Prop := {
  ri_tags : id_tags th mid = Ret ts;
  ri_count : 1 <= tagcount mid <= 255;
  ri_time : 0 <= time mid;
  ri_match : 0 < time mid -> tagcount mid = count;
}.

Lemma extract_all_spec th count mid ts :
  reader_id th count mid ts -> 1 <= count <= 255 ->
  exists reqs, extract_all th mid (Z.to_nat count) = Ret reqs /\ length reqs = Z.to_nat count /\
    forall i q, reqs !! i = Some q -> plain_id q /\ id_pos q = seen_at (time mid) ts i.
Proof.
  intros [Rt Rc Rp Rm] Hc.
  destruct (mapM_outcome (fun i => '(r, rc) ← nchan_extract_from_multi_msgid th mid (Z.of_nat i) NCHAN_ZERO_MSGID;
      c_assert (rc =? NGX_OK);; Ret r)
    (fun i q => plain_id q /\ id_pos q = seen_at (time mid) ts i) (seq 0 (Z.to_nat count))) as (reqs & E & F).
  - intros i [_ Hi]%elem_of_seq. unfold seen_at. destruct (Z.eqb_spec (time mid) 0) as [E0|E0].
    + unfold nchan_extract_from_multi_msgid. rewrite E0. simpl. eexists. split; [done|].
      split; [|done]. by split; [|eexists _, _].
    + assert (length ts = Z.to_nat (tagcount mid)) as Hl by (apply (id_tags_count th); [lia|done]).
      destruct (lookup_lt_is_Some_2 ts i) as [v Hv]; [rewrite Hl, Rm by lia; lia|].
      destruct (extract_spec th mid ts i v NCHAN_ZERO_MSGID Rt Rc) as (q & -> & F0 & T & C & _); [lia|done|].
      simpl. exists q. split; [done|]. unfold fixed0 in F0. unfold plain_id, id_pos.
      destruct (tag q) as [[|w l]|]; try done. injection F0 as ->. split; [by eauto|].
      rewrite T. by destruct (position (time mid) ts i).
  - exists reqs. split; [exact E|]. split; [by rewrite <- (Forall2_length _ _ _ F), length_seq|].
    intros i q Hq. destruct (lookup_lt_is_Some_2 (seq 0 (Z.to_nat count)) i) as [j Hj].
    { rewrite (Forall2_length _ _ _ F). by eapply lookup_lt_Some. }
    pose proof (Forall2_lookup_lr _ _ _ _ _ _ F Hj Hq) as H. simpl in H.
    apply lookup_seq in Hj as [-> _]. done.
Qed.

(** ** The channels *)

(** The logs of the channels, and what the multiplexed channel knows of each:
    its internal subscriber has seen nothing yet, or every message. *)
Record channels (ms : msgs) (count : Z) (lasts : list (option nchan_msg_id_t)) (logs : list (list entry)) : Prop := {
  cs_count : length logs = Z.to_nat count;
  cs_lasts : Forall2 (fun o l => exists i, o = Some i /\ plain_id i /\
    (time i = 0 \/ time i = -1 \/ forall e, e ∈ l -> ~ lex_lt (id_pos i) (pos e.2))) lasts logs;
  cs_ordered : forall i l, logs !! i = Some l -> ordered l;
  cs_msgs : forall i l p m, logs !! i = Some l -> (p, m) ∈ l -> ms !! p = Some m /\ answer_msg 0 m /\ 0 <= tag0 m <= 32767;
}.

(** The messages of channel [i] a reader has not seen. *)
Definition unread (logs : list (list entry)) (t : Z) (ts : list Z) (i : nat) : list entry :=
  after (seen_at t ts i) (default [] (logs !! i)).

(** The answer of a channel asked for what follows an id. *)
Definition channel_answer (logs : list (list entry)) (rq : Z * nchan_msg_id_t) : answer :=
  match after (id_pos rq.2) (default [] (logs !! Z.to_nat rq.1)) with
  | (p, _) :: _ => (Z.to_nat rq.1, MSG_FOUND, Some p)
  | [] => (Z.to_nat rq.1, MSG_EXPECTED, None)
  end.

(** A channel that is not asked has nothing the reader has not seen. *)
Lemma want_channel_spec o l q :
  plain_id q ->
  (exists i, o = Some i /\ plain_id i /\ (time i = 0 \/ time i = -1 \/ forall e, e ∈ l -> ~ lex_lt (id_pos i) (pos e.2))) ->
  exists b, want_channel o q = Ret b /\ (b = false -> after (id_pos q) l = []).
Proof.
  intros Pq (i & -> & Pi & H). unfold want_channel.
  destruct (Z.eqb_spec (time i) 0), (Z.eqb_spec (time i) (-1)), (Z.ltb_spec (time q) (time i)); simpl;
    try (eexists; by split).
  destruct H as [?|[?|H]]; [done..|].
  assert (forall b, (b = false -> ~ lex_lt (id_pos q) (id_pos i) /\ id_pos q <> id_pos i) -> b = false -> after (id_pos q) l = [])
    as K.
  { intros b Hb ->. destruct (Hb eq_refl) as [N1 N2]. apply filter_none. intros e He L. apply (H e He).
    destruct (lex_trichotomy (id_pos i) (id_pos q)) as [L'|[L'|L']]; [by eapply lex_lt_trans|congruence|done]. }
  destruct (Z.eqb_spec (time i) (time q)) as [Et|Et].
  - rewrite (plain_id_fixed0 _ Pi), (plain_id_fixed0 _ Pq). simpl. eexists. split; [done|]. apply K.
    intros E%Z.leb_gt. unfold lex_lt, id_pos in *. simpl in *. split; [lia|]. intros [= ? ?]. lia.
  - eexists. split; [done|]. apply K. intros _. unfold lex_lt, id_pos. simpl. split; [lia|]. intros [= ? ?]. lia.
Qed.

Lemma want_spec ms count lasts logs reqs (t : Z) :
  channels ms count lasts logs -> length reqs = Z.to_nat count -> (forall i q, reqs !! i = Some q -> plain_id q) ->
  exists want, (if t =? 0 then Ret (replicate (Z.to_nat count) true) else want_all lasts reqs) = Ret want /\
    length want = Z.to_nat count /\
    forall i q, want !! i = Some false -> reqs !! i = Some q -> after (id_pos q) (default [] (logs !! i)) = [].
Proof.
  intros [Cc Cl _ _] Lr Pr. destruct (t =? 0).
  - eexists. split; [done|]. split; [by rewrite length_replicate|]. intros i q H _.
    by apply lookup_replicate in H as [? _].
  - assert (forall i o q, lasts !! i = Some o -> reqs !! i = Some q ->
      exists b, want_channel o q = Ret b /\ (b = false -> after (id_pos q) (default [] (logs !! i)) = [])) as S.
    { intros i o q Ho Hq. destruct (Forall2_lookup_l _ _ _ _ _ Cl Ho) as (l & -> & H).
      apply want_channel_spec; [by eapply Pr|done]. }
    destruct (mapM_outcome (fun lr : option nchan_msg_id_t * nchan_msg_id_t => want_channel lr.1 lr.2)
      (fun lr b => want_channel lr.1 lr.2 = Ret b) (zip lasts reqs)) as (want & E & F).
    + intros [o q] H. apply list_elem_of_lookup_1 in H as [i H].
      apply lookup_zip_with_Some in H as (o' & q' & [= <- <-] & Ho & Hq). destruct (S i o q Ho Hq) as (b & Hb & _). exists b. by split.
    + pose proof (Forall2_length _ _ _ F) as L. rewrite length_zip_with, (Forall2_length _ _ _ Cl) in L.
      exists want. split; [exact E|]. split; [lia|]. intros i q Hw Hq.
      destruct (Forall2_lookup_r _ _ _ _ _ F Hw) as ([o q'] & Hz & W1).
      apply lookup_zip_with_Some in Hz as (o' & q'' & [= <- <-] & Ho & Hq').
      destruct (S i o q' Ho Hq') as (b & W2 & K). simpl in W1. rewrite W1 in W2. injection W2 as <-.
      rewrite Hq in Hq'. injection Hq' as <-. by apply K.
Qed.

Lemma multi_requests_elem want reqs j q :
  (j, q) ∈ multi_requests want reqs <-> exists i, j = Z.of_nat i /\ want !! i = Some true /\ reqs !! i = Some q.
Proof.
  unfold multi_requests. rewrite list_elem_of_omap. split.
  - intros (o & Ho & ->). apply list_elem_of_lookup_1 in Ho as [i Hi]. rewrite list_lookup_imap in Hi.
    destruct (zip want reqs !! i) as [[b q']|] eqn:Ez; [|done]. simpl in Hi. destruct b; simplify_eq.
    apply lookup_zip_with_Some in Ez as (? & ? & [= <- <-] & ? & ?). eauto.
  - intros (i & -> & Hw & Hq). exists (Some (Z.of_nat i, q)). split; [|done].
    apply (list_elem_of_lookup_2 _ i). rewrite list_lookup_imap.
    assert (zip want reqs !! i = Some (true, q)) as -> by (apply lookup_zip_with_Some; eauto). done.
Qed.

(** ** One step *)

Section reading.
Context (lt plt frame : positive).
Hypothesis arrays_differ : lt <> plt.

Lemma copy_new_wanted th count mid ts q :
  reader_id th count mid ts -> th !! q = None -> q <> lt -> q <> plt ->
  (forall p, tag mid = allocd (Some p) -> p <> lt /\ p <> plt) ->
  exists th' wid, nchan_copy_new_msg_id th mid (Some q) = Ret (th', wid, NGX_OK) /\
    wanted_ok lt plt th' wid ts count /\ time wid = time mid /\ (forall b, b <> q -> th' !! b = th !! b).
Proof.
  intros [Rt Rc Rp Rm] Hq N1 N2 Own. unfold nchan_copy_new_msg_id.
  destruct (Z.ltb_spec NCHAN_FIXED_MULTITAG_MAX (tagcount mid)) as [Hg|Hle].
  - rewrite Rt, bind_Ret. assert (Hl : length ts = Z.to_nat (tagcount mid)) by (apply (id_tags_count th); [lia|done]).
    rewrite block_write_all by done. rewrite bind_Ret. eexists _, _. split; [done|]. split_and!.
    + split; simpl; try done.
      * rewrite (id_tags_allocd _ _ _ _ _ (TB true ts)); simpl; [by rewrite take_ge by lia|done|apply lookup_insert_eq|lia].
      * by intros p [= <-].
      * intros _. exists q. eexists. split; [done|]. split; [apply lookup_insert_eq|done].
    + done.
    + intros b Hb. by apply lookup_insert_ne.
  - eexists _, _. split; [done|]. split_and!; try done. split; try done. intros. lia.
Qed.

(** The response id moves the position of the message's channel past the
    message, and leaves the other channels where they were. *)
Lemma unread_after ms count lasts logs t ts n p m rest :
  channels ms count lasts logs -> 0 <= t -> (0 < t -> length ts = Z.to_nat count) ->
  (n < Z.to_nat count)%nat -> unread logs t ts n = (p, m) :: rest ->
  (forall i e, (i < Z.to_nat count)%nat -> e ∈ unread logs t ts i -> time (id m) <= time (id e.2)) ->
  let ns := if t =? time (id m) then <[n := tag0 m]> ts else spread (Z.to_nat count) n (tag0 m) in
  ns !! n = Some (tag0 m) /\
  forall i, (i < Z.to_nat count)%nat ->
    unread logs (time (id m)) ns i = if decide (i = n) then rest else unread logs t ts i.
Proof.
  intros [Cc _ Co Cm] Ht Hl Hn E Least ns.
  destruct (lookup_lt_is_Some_2 logs n) as [l Hln]; [by rewrite Cc|].
  assert ((p, m) ∈ unread logs t ts n) as Hin by (rewrite E; by left).
  unfold unread in E, Hin. rewrite Hln in E, Hin. simpl in E, Hin.
  apply list_elem_of_filter in Hin as [Hlt Hin]. simpl in Hlt.
  destruct (Cm n l p m Hln Hin) as (_ & Am & Ht0). destruct (am_since _ _ Am) as [_ Htm].
  assert (t <= time (id m)) as Hle.
  { unfold seen_at, position in Hlt. destruct (Z.eqb_spec t 0); [lia|]. unfold lex_lt, pos in Hlt.
    destruct (ts !! n) as [v|]; [destruct (v =? -1)|]; simpl in Hlt; lia. }
  assert (ns !! n = Some (tag0 m)) as Ln.
  { subst ns. destruct (Z.eqb_spec t (time (id m))); [apply list_lookup_insert_eq; rewrite Hl; lia|].
    unfold spread. apply list_lookup_insert_eq. by rewrite length_replicate. }
  split; [done|]. intros i Hi. case_decide as Hin'.
  - subst i. unfold unread. rewrite Hln. simpl. unfold seen_at. rewrite (proj2 (Z.eqb_neq _ 0)) by lia.
    assert (position (time (id m)) ns n = pos m) as ->.
    { unfold position. rewrite Ln. by rewrite (proj2 (Z.eqb_neq _ _)) by lia. }
    apply (after_member _ _ _ _ _ (Co n l Hln) E).
  - unfold unread. destruct (lookup_lt_is_Some_2 logs i) as [li Hli]; [by rewrite Cc|]. rewrite Hli. simpl.
    subst ns. unfold seen_at at 1. rewrite (proj2 (Z.eqb_neq _ 0)) by lia.
    destruct (Z.eqb_spec t (time (id m))) as [Et|Et].
    + unfold seen_at, position. rewrite list_lookup_insert_ne, Et by done. by rewrite (proj2 (Z.eqb_neq _ 0)) by lia.
    + assert (position (time (id m)) (spread (Z.to_nat count) n (tag0 m)) i = (time (id m) - 1, 32767)) as ->.
      { unfold position, spread. rewrite list_lookup_insert_ne by done. by rewrite lookup_replicate_2. }
      apply filter_ext_in. intros [q e] He. destruct (Cm i li q e Hli He) as (_ & Ae & Te). simpl.
      split; intros L.
      * unfold lex_lt, pos in L. simpl in L. unfold seen_at, position, lex_lt, pos.
        destruct (am_since _ _ Ae) as [_ ?].
        destruct (Z.eqb_spec t 0); [simpl; lia|]. destruct (ts !! i) as [v|]; [destruct (v =? -1)|]; simpl; lia.
      * assert (time (id m) <= time (id e)).
        { apply (Least i (q, e)); [done|]. unfold unread. rewrite Hli. by apply list_elem_of_filter. }
        unfold lex_lt, pos. simpl. lia.
Qed.
(** *** The whole request *)

Definition ekey (n : nat) (e : entry) : Z * Z * Z := (time (id e.2), tag0 e.2, Z.of_nat n).

Lemma key_ekey ms n p m : ms !! p = Some m -> key ms n p = ekey n (p, m).
Proof. unfold key. by intros ->. Qed.

Lemma unread_stored ms count lasts logs t ts i p m :
  channels ms count lasts logs -> (p, m) ∈ unread logs t ts i -> ms !! p = Some m.
Proof.
  intros Cs H. unfold unread in H. destruct (logs !! i) as [l|] eqn:Hl; [|simpl in H; by apply not_elem_of_nil in H].
  apply list_elem_of_filter in H as [_ H]. by destruct (cs_msgs _ _ _ _ Cs i l p m Hl H).
Qed.

Lemma unread_sorted ms count lasts logs t ts i :
  channels ms count lasts logs ->
  StronglySorted (fun a b : entry => lex_lt (pos a.2) (pos b.2)) (unread logs t ts i).
Proof.
  intros [_ _ Co _]. unfold unread. destruct (logs !! i) as [l|] eqn:Hl; simpl; [|constructor].
  apply StronglySorted_filter, (Co i l Hl).
Qed.

(** The heads of the unread messages are the least of each channel. *)
Lemma unread_head ms count lasts logs t ts i e rest :
  channels ms count lasts logs -> unread logs t ts i = e :: rest ->
  forall f, f ∈ unread logs t ts i -> ~ key_lt (ekey i f) (ekey i e).
Proof.
  intros Cs E f Hf. pose proof (unread_sorted _ _ _ _ t ts i Cs) as O.
  rewrite E in O, Hf. apply StronglySorted_inv in O as [_ F]. rewrite Forall_forall in F.
  apply elem_of_cons in Hf as [->|Hf]; [unfold key_lt; lia|].
  specialize (F f Hf). unfold lex_lt, pos in F. unfold key_lt, ekey. simpl in *. lia.
Qed.

(** What is answered to a reader that has seen [ts] at second [t]. *)
Definition next_ok (logs : list (list entry)) (count : nat) (t : Z) (ts : list Z) (resp : multi_response) : Prop :=
  match resp_msg resp with
  | None => resp_status resp = MSG_EXPECTED /\ forall i, (i < count)%nat -> unread logs t ts i = []
  | Some rm =>
      resp_status resp = MSG_FOUND /\
      exists n p m rest ns, (n < count)%nat /\ unread logs t ts n = (p, m) :: rest /\
        (forall i e, (i < count)%nat -> e ∈ unread logs t ts i -> ~ key_lt (ekey i e) (ekey n (p, m))) /\
        buf rm = buf m /\ time (id rm) = time (id m) /\ tagcount (id rm) = Z.of_nat count /\
        tagactive (id rm) = Z.of_nat n /\ id_tags (resp_tags resp) (id rm) = Ret ns /\ ns !! n = Some (tag0 m) /\
        forall i, (i < count)%nat ->
          unread logs (time (id m)) ns i = if decide (i = n) then rest else unread logs t ts i
  end.

(** Who is asked, and from where. *)
Record asked (logs : list (list entry)) (count : Z) (t : Z) (ts : list Z) (reqs : list (Z * nchan_msg_id_t)) : Prop := {
  as_pos : forall j q, (j, q) ∈ reqs -> exists i, j = Z.of_nat i /\ (i < Z.to_nat count)%nat /\ id_pos q = seen_at t ts i;
  as_all : forall i, (i < Z.to_nat count)%nat -> unread logs t ts i <> [] ->
    exists q, (Z.of_nat i, q) ∈ reqs /\ id_pos q = seen_at t ts i;
}.

Lemma asked_answer logs count t ts reqs a :
  asked logs count t ts reqs -> a ∈ channel_answer logs <$> reqs ->
  exists i, (i < Z.to_nat count)%nat /\
    a = match unread logs t ts i with (p, _) :: _ => (i, MSG_FOUND, Some p) | [] => (i, MSG_EXPECTED, None) end.
Proof.
  intros A ([j q] & -> & Hin)%list_elem_of_fmap. destruct (as_pos _ _ _ _ _ A j q Hin) as (i & -> & Hi & Ep).
  exists i. split; [done|]. unfold channel_answer, unread. simpl. by rewrite Nat2Z.id, Ep.
Qed.

(** The answers are what the request expects. *)
Lemma asked_answer_ok ms count lasts logs t ts reqs a :
  channels ms count lasts logs -> 0 <= t -> asked logs count t ts reqs -> a ∈ channel_answer logs <$> reqs ->
  answer_ok t count ms a.
Proof.
  intros Cs Ht A Ha. destruct (asked_answer _ _ _ _ _ _ A Ha) as (i & Hi & ->).
  destruct (unread logs t ts i) as [|[p m] rest] eqn:Eu;
    (split; [simpl; lia|split; [split; simpl; [done || eauto|by intros [] || done]|intros q Hq; simpl in Hq]]); [done|].
  injection Hq as <-. assert ((p, m) ∈ unread logs t ts i) as Hin by (rewrite Eu; by left).
  unfold unread in Hin. destruct (logs !! i) as [l|] eqn:Hl; [|simpl in Hin; by apply not_elem_of_nil in Hin].
  apply list_elem_of_filter in Hin as [Hlt Hin]. destruct (cs_msgs _ _ _ _ Cs i l p m Hl Hin) as (Hp & [B1 B2 B3 B4 B5 B6] & Tp).
  exists m. split; [done|]. split; try done. split; [|lia].
  unfold seen_at, position, lex_lt, pos in Hlt. destruct (Z.eqb_spec t 0); [simpl in Hlt; lia|].
  destruct (ts !! i) as [v|]; [destruct (v =? -1)|]; simpl in Hlt; lia.
Qed.

Lemma asked_heads logs count t ts reqs i p m rest :
  asked logs count t ts reqs -> (i < Z.to_nat count)%nat -> unread logs t ts i = (p, m) :: rest ->
  (i, MSG_FOUND, Some p) ∈ channel_answer logs <$> reqs.
Proof.
  intros A Hi E. destruct (as_all _ _ _ _ _ A i Hi) as (q & Hin & Ep); [by rewrite E|].
  apply list_elem_of_fmap. exists (Z.of_nat i, q). split; [|done].
  unfold channel_answer. simpl. unfold unread in E. by rewrite Nat2Z.id, Ep, E.
Qed.

Lemma response_next ms count lasts logs t ts reqs answers start wid resp :
  channels ms count lasts logs -> 1 <= count -> 0 <= t -> (0 < t -> length ts = Z.to_nat count) -> time wid = t ->
  asked logs count t ts reqs -> answers ≡ₚ channel_answer logs <$> reqs -> reqs <> [] ->
  (start = MSG_PENDING \/ start = MSG_EXPECTED) ->
  response_ok ms wid ts count start answers resp -> next_ok logs (Z.to_nat count) t ts resp.
Proof.
  intros Cs Hc Ht Hl Ew A Pa Ne St R. unfold response_ok, next_ok in *. destruct (resp_msg resp) as [rm|].
  - destruct R as (Es & n & p & m & Hin & Hp & Best & [R1 R2 R3 R4 _ _ (R7 & _)]). split; [done|].
    rewrite Pa in Hin. destruct (asked_answer _ _ _ _ _ _ A Hin) as (n' & Hn & E).
    destruct (unread logs t ts n') as [|[p' m'] rest] eqn:Eu; [done|]. injection E as -> ->. subst t.
    assert (m' = m) as ->.
    { assert (ms !! p' = Some m') by (eapply (unread_stored _ _ _ _ _ _ n'); [done|rewrite Eu; by left]). congruence. }
    assert (forall i e, (i < Z.to_nat count)%nat -> e ∈ unread logs (time wid) ts i -> ~ key_lt (ekey i e) (ekey n' (p', m))) as Least.
    { intros i e Hi He. destruct (unread logs (time wid) ts i) as [|[q mq] tl] eqn:Ei; [by apply not_elem_of_nil in He|].
      apply (key_le_trans _ (ekey i (q, mq))); [|eapply unread_head; [done|exact Ei|by rewrite Ei]].
      assert (ms !! q = Some mq) as Hq by (eapply (unread_stored _ _ _ _ _ _ i); [done|rewrite Ei; by left]).
      rewrite <- (key_ekey ms i q mq Hq), <- (key_ekey ms n' p' m Hp).
      apply Best. rewrite Pa. by apply (asked_heads _ _ _ _ _ _ _ mq tl A). }
    exists n', p', m, rest, (response_tags wid ts (Z.to_nat count) n' (time (id m)) (tag0 m)).
    destruct (unread_after ms count lasts logs (time wid) ts n' p' m rest) as [U1 U2]; try done.
    { intros i e Hi He. specialize (Least i e Hi He). unfold key_lt, ekey in Least. simpl in Least. lia. }
    split_and!; try done. by rewrite Z2Nat.id by lia.
  - destruct R as [F Es]. assert (forall i, (i < Z.to_nat count)%nat -> unread logs t ts i = []) as None_.
    { intros i Hi. destruct (unread logs t ts i) as [|[p m] rest] eqn:E; [done|].
      rewrite Forall_forall in F. specialize (F (i, MSG_FOUND, Some p)). simpl in F.
      rewrite Pa in F. discriminate F. by apply (asked_heads _ _ _ _ _ _ _ m rest A). }
    split; [|done]. rewrite Es. assert (Forall (fun a : answer => a.1.2 = MSG_EXPECTED) answers) as Fe.
    { apply Forall_forall. intros a Ha. rewrite Pa in Ha. destruct (asked_answer _ _ _ _ _ _ A Ha) as (i & Hi & ->).
      by rewrite (None_ i Hi). }
    assert (answers <> []) as Na.
    { intros ->. apply Permutation_nil_l in Pa. by destruct reqs. }
    destruct answers as [|a answers]; [done|]. apply Forall_cons in Fe as [E1 Fe]. simpl.
    assert (merge_status start a = MSG_EXPECTED) as -> by (unfold merge_status; case_bool_decide; congruence).
    clear -Fe. induction Fe as [|a' l _ _ IH]; [done|]. exact IH.
Qed.

(** What a reader needs to ask: an id, the static arrays, a place for the copy
    of its id. *)
Record reader_env (th : tag_heap) (ms : msgs) (r count : Z) (mid : nchan_msg_id_t) (ts : list Z) (new : positive) : Prop := {
  re_id : reader_id th count mid ts;
  re_own : forall p, tag mid = allocd (Some p) -> p <> lt /\ p <> plt;
  re_new : th !! new = None /\ new <> lt /\ new <> plt;
  re_arrays : array_at th lt /\ array_at th plt;
  re_frame : ms !! frame = None;
  re_reserved : 0 <= r < 65535;
}.

Lemma length_multi_requests want reqs i q :
  want !! i = Some true -> reqs !! i = Some q -> multi_requests want reqs <> [].
Proof.
  intros Hw Hq E. assert ((Z.of_nat i, q) ∈ multi_requests want reqs) as H by (apply multi_requests_elem; eauto).
  rewrite E in H. by apply not_elem_of_nil in H.
Qed.

Lemma start_spec th ms r rs count lasts logs mid ts new :
  reader_env th ms r count mid ts new -> 1 <= count <= 255 -> channels ms count lasts logs ->
  exists reqs, asked logs count (time mid) ts reqs /\
    ((reqs = [] /\ nchan_store_async_get_multi_message (MultiWorld th ms r None rs) (Some (MultiChan count lasts)) mid (Some new)
        = Ret (MultiWorld th ms r None (rs ++ [MultiResponse MSG_EXPECTED None th]), [], NGX_OK)) \/
     (reqs <> [] /\ exists th' wid start, request_context lt plt frame th' ms wid ts count /\ time wid = time mid /\
        (start = MSG_PENDING \/ start = MSG_EXPECTED) /\
        nchan_store_async_get_multi_message (MultiWorld th ms r None rs) (Some (MultiChan count lasts)) mid (Some new)
        = Ret (MultiWorld th' ms (r + 1)
                (Some (GetMulti start None (-1) wid (Z.of_nat (length reqs)) count true 0)) rs, reqs, NGX_OK))).
Proof.
  intros [Ri Ow (N1 & N2 & N3) (A1 & A2) Fr Hr] Hc Cs.
  destruct (extract_all_spec th count mid ts Ri Hc) as (reqs0 & E1 & L1 & P1).
  destruct (want_spec ms count lasts logs reqs0 (time mid) Cs L1) as (want & E2 & L2 & K); [intros i q H; by apply (P1 i)|].
  set (reqs := multi_requests want reqs0). exists reqs. split.
  { split.
    - intros j q (i & -> & Hw & Hq)%multi_requests_elem. exists i. destruct (P1 i q Hq) as [_ ?].
      split_and!; [done| |done]. apply lookup_lt_Some in Hq. lia.
    - intros i Hi Hu. destruct (lookup_lt_is_Some_2 reqs0 i) as [q Hq]; [lia|]. exists q.
      destruct (P1 i q Hq) as [_ Ep]. split; [|done]. apply multi_requests_elem. exists i. split_and!; [done| |done].
      destruct (lookup_lt_is_Some_2 want i) as [[] Hw]; [lia|done|]. destruct Hu. unfold unread. rewrite <- Ep. by apply K. }
  unfold nchan_store_async_get_multi_message. simpl mc_count. simpl mc_last. simpl mw_tags.
  rewrite (proj2 (Z.ltb_ge _ _)) by (unfold NCHAN_MULTITAG_MAX; lia). rewrite E1, bind_Ret, E2, bind_Ret. fold reqs.
  cbv beta zeta. destruct (decide (reqs = [])) as [->|Ne]; [left; by split|right]. split; [done|].
  rewrite (proj2 (Z.eqb_neq _ 0)) by (destruct reqs; simpl; [done|lia]).
  destruct (copy_new_wanted th count mid ts new Ri N1 N2 N3 Ow) as (th' & wid & E3 & Wk & Et & F).
  simpl mw_tags. rewrite E3, bind_Ret.
  exists th', wid, (if Z.of_nat (length reqs) =? count then MSG_PENDING else MSG_EXPECTED).
  split_and!; [|done|destruct (Z.of_nat (length reqs) =? count); auto|
    unfold memstore_chanhead_reserve; simpl; by rewrite wrapu_small by (unfold in_u; lia)].
  split; try done; unfold array_at; by rewrite F.
Qed.

(** One request of a reader, with its answers in any order, up to the
    response. *)
Definition multi_read (th : tag_heap) (ms : msgs) (r : Z) (count : Z) (lasts : list (option nchan_msg_id_t))
    (logs : list (list entry)) (mid : nchan_msg_id_t) (new : positive) (resp : multi_response) : Prop :=
  exists rs x0 reqs answers x',
    nchan_store_async_get_multi_message (MultiWorld th ms r None rs) (Some (MultiChan count lasts)) mid (Some new)
      = Ret (x0, reqs, NGX_OK) /\
    answers ≡ₚ channel_answer logs <$> reqs /\
    multi_run lt plt frame 2 x0 (answer_event <$> answers) = Ret x' /\
    mw_responses x' = rs ++ [resp].

Lemma multi_read_next th ms r count lasts logs mid ts new resp :
  reader_env th ms r count mid ts new -> 1 <= count <= 255 -> channels ms count lasts logs ->
  multi_read th ms r count lasts logs mid new resp ->
  next_ok logs (Z.to_nat count) (time mid) ts resp.
Proof.
  intros En Hc Cs (rs & x0 & reqs & answers & x' & E & Pa & Er & Es).
  pose proof (ri_time _ _ _ _ (re_id _ _ _ _ _ _ _ En)) as Tm.
  destruct (start_spec th ms r rs count lasts logs mid ts new En Hc Cs)
    as (reqs' & A & [(-> & E')|(Ne & th' & wid & start & Cx & Et & St & E')]); rewrite E' in E; injection E as <- <-.
  - apply Permutation_nil_r in Pa as ->. injection Er as <-. apply app_inj_2 in Es as [_ [= <-]]; [|done].
    split; [done|]. intros i Hi. destruct (unread logs (time mid) ts i) eqn:Eu; [done|].
    destruct (as_all _ _ _ _ _ A i Hi) as (q & H & _); [by rewrite Eu|]. by apply not_elem_of_nil in H.
  - assert (length answers = length reqs') as La by (by rewrite Pa, length_fmap).
    destruct (run_answers lt plt frame arrays_differ th' ms r rs wid ts count start Cx (re_reserved _ _ _ _ _ _ _ En) answers _ _
      (collecting_start th' ms r rs wid ts count start (length answers))) as (x1 & E1 & _ & _ & _ & _ & resp' & Es' & Ro).
    + intros ->. by destruct reqs'.
    + intros a Ha. rewrite Pa in Ha. rewrite Et. apply (asked_answer_ok ms count lasts logs (time mid) ts reqs'); try done; apply Tm.
    + rewrite La in E1. rewrite E1 in Er. injection Er as ->. rewrite Es' in Es. apply app_inj_2 in Es as [_ [= ->]]; [|done].
      rewrite <- Et in *. apply (response_next ms count lasts logs (time wid) ts reqs' answers start wid resp); try done; [lia|].
      intros Ht. destruct (re_id _ _ _ _ _ _ _ En) as [Rt Rc _ Rm]. rewrite <- Rm by (by rewrite <- Et).
      apply (id_tags_count th); [lia|done].
Qed.

(** ** Reading on *)

(** A delivered message: its channel, its id there and its content. *)
Definition item : Type := nat * (Z * Z) * ngx_buf_t.
Definition item_of (n : nat) (e : entry) : item := (n, pos e.2, buf e.2).
Definition item_key (x : item) : Z * Z * Z := (x.1.2, Z.of_nat x.1.1).
Definition item_lt (x y : item) : Prop := key_lt (item_key x) (item_key y).

(** A reader that asks, from second [t] and tags [ts] on, for what follows the
    id of the last response until there is nothing more, and what it is given.
    The messages stay what they are in between; everything else may change. *)
Inductive multi_reading (ms : msgs) (count : Z) (lasts : list (option nchan_msg_id_t)) (logs : list (list entry)) :
    Z -> list Z -> list item -> Prop :=
  | reading_end th r mid ts new resp :
      reader_env th ms r count mid ts new -> multi_read th ms r count lasts logs mid new resp -> resp_msg resp = None ->
      multi_reading ms count lasts logs (time mid) ts []
  | reading_next th r mid ts new resp rm ns tag_n items :
      reader_env th ms r count mid ts new -> multi_read th ms r count lasts logs mid new resp -> resp_msg resp = Some rm ->
      id_tags (resp_tags resp) (id rm) = Ret ns -> nth_tag ns (tagactive (id rm)) = Ret tag_n ->
      multi_reading ms count lasts logs (time (id rm)) ns items ->
      multi_reading ms count lasts logs (time mid) ts
        ((Z.to_nat (tagactive (id rm)), (time (id rm), tag_n), buf rm) :: items).

(** C12.  Reading several channels as one is a merge: a reader that follows the
    ids it is given receives, of every channel, exactly the messages it had not
    seen, each once and in order, and all of them together sorted by second, tag
    and channel, whatever the order in which the channels answered each
    request. *)
Theorem multi_reading_merges ms count lasts logs t ts items :
  1 <= count <= 255 -> channels ms count lasts logs -> multi_reading ms count lasts logs t ts items ->
  StronglySorted item_lt items /\
  forall i, (i < Z.to_nat count)%nat -> filter (fun x => x.1.1 = i) items = item_of i <$> unread logs t ts i.
Proof.
  intros Hc Cs R. assert (Forall (fun x => (x.1.1 < Z.to_nat count)%nat) items /\ StronglySorted item_lt items /\
    forall i, (i < Z.to_nat count)%nat -> filter (fun x => x.1.1 = i) items = item_of i <$> unread logs t ts i)
    as [_ ?]; [|done].
  induction R as [th r mid ts new resp En Rd Em|th r mid ts new resp rm ns tag_n items En Rd Em Tn Vn R (Fc & IS & IF)];
    pose proof (multi_read_next _ _ _ _ _ _ _ _ _ _ En Hc Cs Rd) as N; unfold next_ok in N; rewrite Em in N.
  - destruct N as [_ N]. split_and!; [done|constructor|]. intros i Hi. by rewrite N.
  - destruct N as (_ & n & p & m & rest & ns' & Hn & Eu & Least & Eb & Et & _ & Ea & Tn' & Vn' & After).
    rewrite Tn' in Tn. injection Tn as ->. rewrite Ea, (nth_tag_lookup _ _ _ Vn') in Vn. injection Vn as <-.
    rewrite Ea, Nat2Z.id, Et, Eb. change (time (id m), tag0 m) with (pos m). rewrite Et in IF.
    assert (forall i, (i < Z.to_nat count)%nat -> filter (fun x => x.1.1 = i) ((n, pos m, buf m) :: items) =
      item_of i <$> unread logs (time mid) ts i) as F.
    { intros i Hi. rewrite filter_cons, IF, After by done. simpl. destruct (decide (n = i)) as [->|Hne].
      - by rewrite decide_True, Eu by done.
      - by rewrite decide_False by congruence. }
    split_and!; [by constructor| |done]. constructor; [done|]. apply Forall_forall. intros x Hx.
    rewrite Forall_forall in Fc. specialize (Fc x Hx).
    assert (x ∈ filter (fun y : item => y.1.1 = x.1.1) items) as Hf by (by apply list_elem_of_filter).
    rewrite IF, After in Hf by done. apply list_elem_of_fmap in Hf as (e & Ex & He).
    assert (~ key_lt (ekey x.1.1 e) (ekey n (p, m)) /\ ekey x.1.1 e <> ekey n (p, m)) as [Le Ne].
    { case_decide as Dn.
      - rewrite Dn in *. pose proof (unread_sorted _ _ _ _ (time mid) ts n Cs) as O. rewrite Eu in O.
        apply StronglySorted_inv in O as [_ O]. rewrite Forall_forall in O. specialize (O e He).
        unfold lex_lt, pos in O. simpl in O. unfold key_lt, ekey. simpl. split; [lia|]. intros [= ? ?]. lia.
      - split; [by apply Least|]. intros [= _ _ ?]. lia. }
    unfold item_lt. rewrite Ex. unfold item_key, item_of. simpl. unfold key_lt, ekey in *. simpl in *.
    destruct (decide (time (id m) = time (id e.2) /\ tag0 m = tag0 e.2)) as [[? ?]|]; [|lia].
    destruct (decide (Z.of_nat n = Z.of_nat x.1.1)); [|lia]. destruct Ne. congruence.
Qed.
End reading.

(** ** Witnesses

    Two channels with one message each in the same second; the tag arrays are
    at 1 and 2, the stack message at 9, the copy of an id at 3. *)

Definition example_arrays : tag_heap :=
  <[1%positive := TB false (replicate 255 0)]> {[2%positive := TB false (replicate 255 0)]}.
Definition example_msg (g : Z) : nchan_msg_t := example_message 100 g 160.
Definition example_msgs : msgs := <[5%positive := example_msg 0]> {[6%positive := example_msg 1]}.
Definition example_logs : list (list entry) := [[(5%positive, example_msg 0)]; [(6%positive, example_msg 1)]].
Definition example_lasts : list (option nchan_msg_id_t) :=
  [Some (id (example_msg 0)); Some NCHAN_NEWEST_MSGID].

Lemma example_answer_msg since g : since <= 100 -> answer_msg since (example_msg g).
Proof. intros H. split; simpl; try (done || lia). by split; [|eexists _, _, _, _]. Qed.

Lemma example_channels : channels example_msgs 2 example_lasts example_logs.
Proof.
  split; [done| | |].
  - repeat constructor; eexists; (split; [reflexivity|]); (split; [by split; [|eexists _, _]|]).
    + right; right. intros e ->%list_elem_of_singleton. vm_compute. intros [H|[_ H]]; discriminate.
    + by right; left.
  - intros [|[|i]] l H; simplify_eq/=; repeat constructor.
  - intros [|[|i]] l p m H Hin; simplify_eq/=; apply list_elem_of_singleton in Hin; injection Hin as -> ->;
      (split; [reflexivity|]); (split; [apply example_answer_msg; lia|]); vm_compute; split; discriminate.
Qed.

Lemma example_env mid ts :
  id_tags example_arrays mid = Ret ts -> 1 <= tagcount mid <= 4 -> 0 <= time mid -> (0 < time mid -> tagcount mid = 2) ->
  (exists l, tag mid = fixed l) -> reader_env 1 2 9 example_arrays example_msgs 0 2 mid ts 3.
Proof.
  intros T C P M [l E]. split; [split; (done || lia)|by rewrite E|by vm_compute| |reflexivity|done].
  split; eexists; split; reflexivity.
Qed.

(** A request whose answers come back in the order of the channels. *)
Definition read_in_order (mid : nchan_msg_id_t) : multi_response :=
  match nchan_store_async_get_multi_message (MultiWorld example_arrays example_msgs 0 None [])
          (Some (MultiChan 2 example_lasts)) mid (Some 3%positive) with
  | Ret (x0, reqs, _) =>
      match multi_run 1 2 9 2 x0 (answer_event <$> (channel_answer example_logs <$> reqs)) with
      | Ret x' => default (MultiResponse MSG_ERROR None ∅) (head (mw_responses x'))
      | _ => MultiResponse MSG_ERROR None ∅
      end
  | _ => MultiResponse MSG_ERROR None ∅
  end.

Definition example_id (ts : list Z) : nchan_msg_id_t := MsgId 100 (fixed ts) 0 2.

(** The request is sent, answered, and responded to once. *)
Definition reads_in_order (mid : nchan_msg_id_t) : bool :=
  match nchan_store_async_get_multi_message (MultiWorld example_arrays example_msgs 0 None [])
          (Some (MultiChan 2 example_lasts)) mid (Some 3%positive) with
  | Ret (x0, reqs, rc) =>
      match multi_run 1 2 9 2 x0 (answer_event <$> (channel_answer example_logs <$> reqs)) with
      | Ret x' => (rc =? NGX_OK) && match mw_responses x' with [_] => true | _ => false end
      | _ => false
      end
  | _ => false
  end.

Lemma example_read mid :
  reads_in_order mid = true ->
  multi_read 1 2 9 example_arrays example_msgs 0 2 example_lasts example_logs mid 3 (read_in_order mid).
Proof.
  unfold reads_in_order, multi_read, read_in_order.
  destruct (nchan_store_async_get_multi_message _ _ _ _) as [[[x0 reqs] rc]| |] eqn:E1; try done.
  destruct (multi_run _ _ _ _ _ _) as [x'| |] eqn:E2; try done.
  intros [Erc%Z.eqb_eq Er]%andb_true_iff. destruct (mw_responses x') as [|r [|]] eqn:E3; try done.
  exists [], x0, reqs, (channel_answer example_logs <$> reqs), x'. by rewrite E1, Erc.
Qed.

Definition example_rm (mid : nchan_msg_id_t) : nchan_msg_t := default (example_msg 0) (resp_msg (read_in_order mid)).

Lemma example_reading :
  multi_reading 1 2 9 example_msgs 2 example_lasts example_logs 0 [0]
    [(0%nat, (100, 0), example_buf); (1%nat, (100, 1), example_buf)].
Proof.
  assert (multi_reading 1 2 9 example_msgs 2 example_lasts example_logs 100 [0; 1] []) as R3.
  { apply (reading_end 1 2 9 example_msgs 2 example_lasts example_logs example_arrays 0 (example_id [0; 1; 0; 0]) [0; 1] 3
      (read_in_order (example_id [0; 1; 0; 0]))); [apply example_env; try done; by eexists| |by vm_compute].
    apply example_read. vm_compute. reflexivity. }
  assert (multi_reading 1 2 9 example_msgs 2 example_lasts example_logs 100 [0; -1] [(1%nat, (100, 1), example_buf)]) as R2.
  { apply (reading_next 1 2 9 example_msgs 2 example_lasts example_logs example_arrays 0 (example_id [0; -1; 0; 0]) [0; -1] 3
      (read_in_order (example_id [0; -1; 0; 0])) (example_rm (example_id [0; -1; 0; 0])) [0; 1] 1);
      [apply example_env; try done; by eexists| |by vm_compute..|exact R3].
    apply example_read. vm_compute. reflexivity. }
  apply (reading_next 1 2 9 example_msgs 2 example_lasts example_logs example_arrays 0 NCHAN_OLDEST_MSGID [0] 3
    (read_in_order NCHAN_OLDEST_MSGID) (example_rm NCHAN_OLDEST_MSGID) [0; -1] 0);
    [apply example_env; try done; by eexists| |by vm_compute..|exact R2].
  apply example_read. vm_compute. reflexivity.
Qed.

Lemma multi_reading_merges_witness :
  StronglySorted item_lt [(0%nat, (100, 0), example_buf); (1%nat, (100, 1), example_buf)] /\
  forall i, (i < 2)%nat ->
    filter (fun x => x.1.1 = i) [(0%nat, (100, 0), example_buf); (1%nat, (100, 1), example_buf)]
      = item_of i <$> unread example_logs 0 [0] i.
Proof.
  apply (multi_reading_merges 1 2 9 ltac:(done) example_msgs 2 example_lasts example_logs 0 [0]
    [(0%nat, (100, 0), example_buf); (1%nat, (100, 1), example_buf)]).
  - lia.
  - apply example_channels.
  - apply example_reading.
Defined.

Lemma example_context : request_context 1 2 9 example_arrays example_msgs NCHAN_OLDEST_MSGID [0] 2.
Proof. split; [by split|lia|reflexivity| |]; eexists; split; reflexivity. Qed.

Lemma example_answers_ok a :
  a ∈ [(1%nat, MSG_FOUND, Some 6%positive); (0%nat, MSG_FOUND, Some 5%positive)] -> answer_ok 0 2 example_msgs a.
Proof.
  intros H. repeat (apply elem_of_cons in H as [->|H]); [| |by apply not_elem_of_nil in H]; (split; [done|]); (split; [split; [eauto|done]|]);
    intros p [= <-]; eexists; (split; [reflexivity|]); apply example_answer_msg; lia.
Qed.

Lemma multi_get_oldest_witness :
  exists x', multi_run 1 2 9 2
      (MultiWorld example_arrays example_msgs (0 + 1)
        (Some (GetMulti MSG_PENDING None (-1) NCHAN_OLDEST_MSGID 2 2 true 0)) [])
      (answer_event <$> [(1%nat, MSG_FOUND, Some 6%positive); (0%nat, MSG_FOUND, Some 5%positive)]) = Ret x' /\
    request_over 1 2 example_arrays example_msgs 0 [] NCHAN_OLDEST_MSGID [0] 2 MSG_PENDING
      [(1%nat, MSG_FOUND, Some 6%positive); (0%nat, MSG_FOUND, Some 5%positive)] x'.
Proof.
  apply (multi_get_oldest 1 2 9 ltac:(done) example_arrays example_msgs 0 [] NCHAN_OLDEST_MSGID [0] 2 MSG_PENDING
    [(1%nat, MSG_FOUND, Some 6%positive); (0%nat, MSG_FOUND, Some 5%positive)]).
  - apply example_context.
  - lia.
  - discriminate.
  - intros a Ha. by apply example_answers_ok.
Defined.

Lemma multi_get_timeout_leaks_witness :
  exists th' kept, multi_run 1 2 9 2
      (MultiWorld example_arrays example_msgs (0 + 1)
        (Some (GetMulti MSG_PENDING None (-1) NCHAN_OLDEST_MSGID 2 2 true 0)) [])
      ((answer_event <$> [(0%nat, MSG_FOUND, Some 5%positive)]) ++ TimedOut 120 ::
       (answer_event <$> [(1%nat, MSG_FOUND, Some 6%positive)]))
      = Ret (MultiWorld th' (hold kept example_msgs) 0 None []) /\
    (kept = None <-> Forall (fun a : answer => a.2 = None) [(0%nat, MSG_FOUND, Some 5%positive)]).
Proof.
  apply (multi_get_timeout_leaks 1 2 9 ltac:(done) example_arrays example_msgs 0 [] NCHAN_OLDEST_MSGID [0] 2 MSG_PENDING
    [(0%nat, MSG_FOUND, Some 5%positive)] [(1%nat, MSG_FOUND, Some 6%positive)] 120).
  - apply example_context.
  - lia.
  - discriminate.
  - lia.
  - intros a Ha. apply example_answers_ok. set_solver.
Defined.

Lemma multi_forward_exact_witness :
  exists th' rm, memstore_multi_sub_respond_message example_arrays example_msgs 6 9 1 2 3 (Z.of_nat 1) = Ret (th', rm) /\
    id_tags th' (id rm) = Ret [-1; 1; -1] /\ time (id rm) = 100 /\
    id_tags th' (prev_id rm) = Ret [-1; 0; -1] /\ time (prev_id rm) = 0 /\
    tagactive (id rm) = 1 /\ tagactive (prev_id rm) = 1 /\
    buf rm = example_buf /\ content_type rm = None /\ eventsource_event rm = None.
Proof.
  apply (multi_forward_exact example_arrays example_msgs 6 (example_msg 1) 9 1 2 3 1 0 0 0 0).
  - reflexivity.
  - apply example_answer_msg. lia.
  - reflexivity.
  - discriminate.
  - lia.
  - simpl. lia.
  - discriminate.
  - eexists. split; reflexivity.
  - eexists. split; reflexivity.
Defined.
