(* ===== verification/Reaper.v ===== *)
(** * Reapers ([util/nchan_reaper.c])

    A reaper keeps the things that cannot be freed yet in a linked list through
    the things themselves, and looks at them again on a timer.  What is ready
    and how it is reaped are callbacks of the component that owns the reaper;
    reaping may come back to the reaper. *)

From S2P Require Import Prelude DList.

Inductive nchan_reaper_strategy_t := RESCAN | ROTATE | KEEP_PLACE.

(** [notready_limit] is the [int] product of [max_notready_ratio], a [float],
    and a count. *)
Record nchan_reaper_t := Reaper {
  count : Z;
  next_ptr_offset : Z;
  prev_ptr_offset : Z;
  last_ : ptr;
  first : ptr;
  timer_set : bool;
  strategy : nchan_reaper_strategy_t;
  notready_limit : Z -> Z;
  position : ptr;
}.

Definition set_ends (rp : nchan_reaper_t) (c : Z) (f l p : ptr) : nchan_reaper_t :=
  Reaper c (next_ptr_offset rp) (prev_ptr_offset rp) l f (timer_set rp) (strategy rp) (notready_limit rp) p.
Definition set_timer (rp : nchan_reaper_t) (b : bool) : nchan_reaper_t :=
  Reaper (count rp) (next_ptr_offset rp) (prev_ptr_offset rp) (last_ rp) (first rp) b (strategy rp)
    (notready_limit rp) (position rp).

Definition nchan_reaper_start (prev next : Z) : nchan_reaper_t :=
  Reaper 0 next prev None None false RESCAN (fun _ => 0) None.

(** The memory of the links, the reaper, and everything the callbacks use. *)
Record reaper_world (E : Type) := RWorld { links : mem; rp : nchan_reaper_t; env : E }.
Arguments RWorld {E} _ _ _.
Arguments links {E} _.
Arguments rp {E} _.
Arguments env {E} _.

Section reaper.
Context {E : Type}.
Notation world := (reaper_world E).
(** The callbacks: whether a thing is ready ([NGX_OK]), and reaping it. *)
Context (ready : E -> loc -> bool -> outcome (E * bool)) (reap : world -> loc -> outcome world).
(** [ngx_exiting || ngx_quit]. *)
Context (exiting : bool).

Definition set_rp (w : world) (r : nchan_reaper_t) : world := RWorld (links w) r (env w).

Definition thing_next (w : world) (x : loc) : outcome ptr := load (links w) x (next_ptr_offset (rp w)).
Definition thing_prev (w : world) (x : loc) : outcome ptr := load (links w) x (prev_ptr_offset (rp w)).

Definition call_ready (w : world) (x : loc) (force : bool) : outcome (world * bool) :=
  '(e, ok) ← ready (env w) x force; Ret (RWorld (links w) (rp w) e, ok).

Definition reaper_reset_timer (r : nchan_reaper_t) : nchan_reaper_t :=
  if negb exiting && (0 <? count r) && negb (timer_set r) then set_timer r true else r.

(** [if(rp->last) last->next = thing; thing->prev = rp->last; thing->next = NULL;] *)
Definition link_at_end (w : world) (x : loc) : outcome mem :=
  let r := rp w in
  h1 ← match last_ r with
       | Some l => store (links w) l (next_ptr_offset r) (Some x)
       | None => Ret (links w)
       end;
  h2 ← store h1 x (prev_ptr_offset r) (last_ r);
  store h2 x (next_ptr_offset r) None.

Definition nchan_reaper_add (w : world) (x : loc) : outcome world :=
  '(w1, ok) ← call_ready w x false;
  if (ok : bool) then reap w1 x
  else
    h ← link_at_end w1 x;
    let r := rp w1 in
    c_assert (0 <=? count r);;
    Ret (RWorld h (reaper_reset_timer
      (set_ends r (count r + 1) (match first r with Some f => Some f | None => Some x end) (Some x) (position r))) (env w1)).

(** [KEEP_PLACE] moves on when the thing at its place goes. *)
Definition next_position (r : nchan_reaper_t) (x : loc) (next : ptr) : ptr :=
  match strategy r with
  | KEEP_PLACE => if decide (position r = Some x) then next else position r
  | _ => position r
  end.

Definition nchan_reaper_withdraw (w : world) (x : loc) : outcome world :=
  let r := rp w in
  prev ← thing_prev w x;
  next ← thing_next w x;
  h1 ← unlink (prev_ptr_offset r) (next_ptr_offset r) (links w) prev next;
  c_assert (0 <? count r);;
  h2 ← store h1 x (next_ptr_offset r) None;
  h3 ← store h2 x (prev_ptr_offset r) None;
  Ret (RWorld h3 (set_ends r (count r - 1)
    (if decide (first r = Some x) then next else first r)
    (if decide (last_ r = Some x) then prev else last_ r) (next_position r x next)) (env w)).

Definition reap_ready_thing (w : world) (cur : loc) (next : ptr) : outcome world :=
  let r := rp w in
  prev ← thing_prev w cur;
  c_assert (match prev, next with Some p, Some n => negb (p =? n)%positive | _, _ => true end);;
  c_assert (bool_decide (Some cur <> prev));;
  c_assert (bool_decide (Some cur <> next));;
  h ← unlink (prev_ptr_offset r) (next_ptr_offset r) (links w) prev next;
  w' ← reap (RWorld h (set_ends r (count r - 1)
         (if decide (first r = Some cur) then next else first r)
         (if decide (last_ r = Some cur) then prev else last_ r) (next_position r cur next)) (env w)) cur;
  c_assert (0 <=? count (rp w'));;
  Ret w'.

Definition one_more (limit notready : Z) : Z := if 0 <? limit then notready + 1 else notready.

(** *** [RESCAN] *)
Fixpoint rescan_loop (fuel : nat) (w : world) (force : bool) (limit notready : Z) (cur : ptr) : outcome world :=
  match cur with
  | None => Ret w
  | Some x =>
      if limit <? notready then Ret w
      else
        match fuel with
        | O => NoFuel
        | S fuel' =>
            next ← thing_next w x;
            '(w1, ok) ← call_ready w x force;
            if (ok : bool) then
              w2 ← reap_ready_thing w1 x next; rescan_loop fuel' w2 force limit notready next
            else rescan_loop fuel' w1 force limit (one_more limit notready) next
        end
  end.

Definition its_reaping_time (fuel : nat) (w : world) (force : bool) : outcome world :=
  rescan_loop fuel w force (notready_limit (rp w) (count (rp w))) 0 (first (rp w)).

(** *** [KEEP_PLACE]: the result is also the place that is reached. *)
Fixpoint keep_place_loop (fuel : nat) (w : world) (force : bool) (limit notready n : Z) (cur : ptr) :
    outcome (world * ptr) :=
  if (n <? count (rp w)) && (notready <=? limit) then
    match fuel, cur with
    | O, _ => NoFuel
    | _, None => Crash
    | S fuel', Some x =>
        next ← thing_next w x;
        '(w1, ok) ← call_ready w x force;
        '(w2, nr) ←
          (if (ok : bool) then w2 ← reap_ready_thing w1 x next; Ret (w2, notready)
           else Ret (w1, one_more limit notready));
        keep_place_loop fuel' w2 force limit nr (n + 1)
          (match next with None => first (rp w2) | Some y => Some y end)
    end
  else Ret (w, cur).

Definition set_position (r : nchan_reaper_t) (p : ptr) : nchan_reaper_t :=
  set_ends r (count r) (first r) (last_ r) p.

Definition its_reaping_time_keep_place (fuel : nat) (w : world) (force : bool) : outcome world :=
  let r := rp w in
  '(w', cur) ← keep_place_loop fuel w force (notready_limit r (count r)) 0 0
                 (match position r with None => first r | Some p => Some p end);
  Ret (set_rp w' (set_position (rp w') cur)).

(** *** [ROTATE] *)
Definition move_to_end (w : world) (cur : loc) (next : ptr) : outcome world :=
  let r := rp w in
  prev ← thing_prev w cur;
  h ← unlink (prev_ptr_offset r) (next_ptr_offset r) (links w) prev next;
  h' ← link_at_end (RWorld h r (env w)) cur;
  Ret (RWorld h' (set_ends r (count r)
    (match first r with None => Some cur | Some f => if (f =? cur)%positive then next else Some f end)
    (Some cur) (position r)) (env w)).

Fixpoint rotate_loop (fuel : nat) (w : world) (force : bool) (limit notready : Z) (firstmoved cur : ptr) :
    outcome world :=
  match cur with
  | None => Ret w
  | Some x =>
      if bool_decide (cur = firstmoved) || (limit <? notready) then Ret w
      else
        match fuel with
        | O => NoFuel
        | S fuel' =>
            next ← thing_next w x;
            '(w1, ok) ← call_ready w x force;
            if (ok : bool) then
              w2 ← reap_ready_thing w1 x next; rotate_loop fuel' w2 force limit notready firstmoved next
            else
              w2 ← (if bool_decide (last_ (rp w1) = Some x) then Ret w1 else move_to_end w1 x next);
              rotate_loop fuel' w2 force limit (one_more limit notready)
                (match firstmoved with Some f => Some f | None => Some x end) next
        end
  end.

Definition its_reaping_rotating_time (fuel : nat) (w : world) (force : bool) : outcome world :=
  rotate_loop fuel w force (notready_limit (rp w) (count (rp w))) 0 None (first (rp w)).

(** ** The timer, flushing and stopping *)

(** nginx clears [timer_set] before it calls the handler. *)
Definition reaper_timer_handler (fuel : nat) (w : world) : outcome world :=
  let w := set_rp w (set_timer (rp w) false) in
  w' ← (match strategy (rp w) with
        | RESCAN => its_reaping_time fuel w false
        | ROTATE => its_reaping_rotating_time fuel w false
        | KEEP_PLACE => its_reaping_time_keep_place fuel w false
        end);
  Ret (set_rp w' (reaper_reset_timer (rp w'))).

Definition nchan_reaper_flush (fuel : nat) (w : world) : outcome world := its_reaping_time fuel w true.

Definition nchan_reaper_stop (fuel : nat) (w : world) : outcome world :=
  w' ← nchan_reaper_flush fuel w;
  Ret (set_rp w' (set_timer (rp w') false)).

Fixpoint each_loop (fuel : nat) (w : world) (cb : E -> loc -> E) (cur : ptr) : outcome world :=
  match cur with
  | None => Ret w
  | Some x =>
      match fuel with
      | O => NoFuel
      | S fuel' =>
          let w' := RWorld (links w) (rp w) (cb (env w) x) in
          next ← thing_next w' x; each_loop fuel' w' cb next
      end
  end.

Definition nchan_reaper_each (fuel : nat) (w : world) (cb : E -> loc -> E) : outcome world :=
  each_loop fuel w cb (first (rp w)).
End reaper.
