(* ===== verification/ReaperFacts.v ===== *)
(** * Facts about reapers

    With callbacks that do not come back to the reaper, every tick keeps the
    list well formed, examines each thing at most once, reaps exactly the ready
    ones among those examined, and keeps the others. *)

From S2P Require Import Prelude DList Reaper.

(** The reaper of [w] holds the things [xs], in that order. *)
Record reaper_rep {E} (w : reaper_world E) (xs : list loc) : Prop := {
  rr_offsets : prev_ptr_offset (rp w) <> next_ptr_offset (rp w);
  rr_list : dlist (prev_ptr_offset (rp w)) (next_ptr_offset (rp w)) (links w) xs;
  rr_first : first (rp w) = head xs;
  rr_last : last_ (rp w) = last xs;
  rr_count : count (rp w) = Z.of_nat (length xs);
}.

(** The parts of a reaper its operations do not change. *)
Definition same_reaper (r r' : nchan_reaper_t) : Prop :=
  prev_ptr_offset r' = prev_ptr_offset r /\ next_ptr_offset r' = next_ptr_offset r /\
  strategy r' = strategy r /\ notready_limit r' = notready_limit r.

Lemma same_reaper_trans a b c : same_reaper a b -> same_reaper b c -> same_reaper a c.
Proof. unfold same_reaper. intuition congruence. Qed.

Section structure.
Context {E : Type}.
Notation world := (reaper_world E).

Definition moves (w w' : world) : Prop := same_reaper (rp w) (rp w') /\ timer_set (rp w') = timer_set (rp w).

Lemma moves_refl w : moves w w.
Proof. by repeat split. Qed.

Lemma moves_trans (w1 w2 w3 : world) : moves w1 w2 -> moves w2 w3 -> moves w1 w3.
Proof. intros [S1 T1] [S2 T2]. split; [by eapply same_reaper_trans|congruence]. Qed.

Lemma rep_env (w : world) xs (e : E) : reaper_rep w xs -> reaper_rep (RWorld (links w) (rp w) e) xs.
Proof. by intros []. Qed.

Lemma rep_timer (w : world) b xs : reaper_rep w xs -> reaper_rep (set_rp w (set_timer (rp w) b)) xs.
Proof. by intros []. Qed.

Lemma rep_next (w : world) xs1 x xs2 : reaper_rep w (xs1 ++ x :: xs2) -> thing_next w x = Ret (head xs2).
Proof.
  intros R. unfold thing_next. apply load_Some. destruct (rr_list _ _ R) as [_ S].
  apply dseg_lookup in S as [_ ->]. by rewrite hd_or_None.
Qed.

Lemma rep_prev (w : world) xs1 x xs2 : reaper_rep w (xs1 ++ x :: xs2) -> thing_prev w x = Ret (last xs1).
Proof.
  intros R. unfold thing_prev. apply load_Some. destruct (rr_list _ _ R) as [_ S].
  apply dseg_lookup in S as [-> _]. by rewrite last_or_None.
Qed.

Lemma head_skip (xs1 : list loc) x xs2 :
  NoDup (xs1 ++ x :: xs2) ->
  (if decide (head (xs1 ++ x :: xs2) = Some x) then head xs2 else head (xs1 ++ x :: xs2)) = head (xs1 ++ xs2).
Proof.
  intros (_ & D & _)%NoDup_app. destruct xs1 as [|y ys]; simpl; [by rewrite decide_True|].
  rewrite decide_False; [done|]. intros [= ->]. apply (D x); set_solver.
Qed.

Lemma last_skip (xs1 : list loc) x xs2 :
  NoDup (xs1 ++ x :: xs2) ->
  (if decide (last (xs1 ++ x :: xs2) = Some x) then last xs1 else last (xs1 ++ x :: xs2)) = last (xs1 ++ xs2).
Proof.
  intros ND. destruct (list_snoc_cases xs2) as [->|(ys & y & ->)].
  - rewrite last_snoc, decide_True by done. by rewrite app_nil_r.
  - rewrite app_comm_cons, app_assoc, last_snoc, decide_False; [by rewrite app_assoc, last_snoc|].
    intros [= ->]. apply NoDup_app in ND as (_ & _ & [N _]%NoDup_cons). apply N. set_solver.
Qed.

(** The place of a [KEEP_PLACE] reaper is one of its things. *)
Definition placed (w : world) (xs : list loc) : Prop :=
  strategy (rp w) = KEEP_PLACE -> forall p, position (rp w) = Some p -> p ∈ xs.

(** A step of a reaper writes its own links only, and neither creates nor
    destroys any. *)
Definition touches (r : nchan_reaper_t) (h h' : mem) : Prop :=
  dom h' = dom h /\ forall y o, o <> prev_ptr_offset r -> o <> next_ptr_offset r -> h' !! (y, o) = h !! (y, o).

Lemma touches_refl r h : touches r h h.
Proof. done. Qed.

Lemma touches_trans r h1 h2 h3 : touches r h1 h2 -> touches r h2 h3 -> touches r h1 h3.
Proof. intros [D1 F1] [D2 F2]. split; [congruence|]. intros y o H1 H2. by rewrite F2, F1. Qed.

Lemma touches_store r h y o v h' :
  o = prev_ptr_offset r \/ o = next_ptr_offset r -> store h y o v = Ret h' -> touches r h h'.
Proof.
  intros Ho St. split; [by eapply store_dom|]. unfold store in St. destruct (h !! (y, o)); [|done].
  injection St as <-. intros z o' H1 H2. rewrite lookup_insert_ne; [done|]. intros [= _ ->]. by destruct Ho.
Qed.

Lemma touches_unlink r h prev next h' :
  unlink (prev_ptr_offset r) (next_ptr_offset r) h prev next = Ret h' -> touches r h h'.
Proof.
  unfold unlink. intros (h1 & E1 & E2)%bind_Ret_inv. eapply touches_trans with h1.
  - destruct prev; [|by injection E1 as <-]. eapply touches_store, E1. by right.
  - destruct next; [|by injection E2 as <-]. eapply touches_store, E2. by left.
Qed.

(** The reaper without [x], that was between [xs1] and [xs2]. *)
Definition taken_out (r : nchan_reaper_t) (xs1 : list loc) (x : loc) (xs2 : list loc) : nchan_reaper_t :=
  set_ends r (count r - 1) (if decide (first r = Some x) then head xs2 else first r)
    (if decide (last_ r = Some x) then last xs1 else last_ r) (next_position r x (head xs2)).

Lemma take_out_spec (w : world) xs1 x xs2 :
  reaper_rep w (xs1 ++ x :: xs2) ->
  exists h, unlink (prev_ptr_offset (rp w)) (next_ptr_offset (rp w)) (links w) (last xs1) (head xs2) = Ret h /\
    reaper_rep (RWorld h (taken_out (rp w) xs1 x xs2) (env w)) (xs1 ++ xs2) /\ touches (rp w) (links w) h.
Proof.
  intros R. pose proof (rr_list _ _ R) as [ND _].
  destruct (unlink_spec _ _ (links w) xs1 x xs2 (rr_offsets _ _ R) (rr_list _ _ R)) as (h & Q & D & _).
  exists h. split; [done|]. split; [|by eapply touches_unlink]. split; simpl.
  - apply R.
  - done.
  - rewrite (rr_first _ _ R). by apply head_skip.
  - rewrite (rr_last _ _ R). by apply last_skip.
  - rewrite (rr_count _ _ R), !length_app. simpl. lia.
Qed.

(** Reaping a thing takes it out of the list before it calls back. *)
Lemma reap_ready_thing_eq reap (w : world) xs1 x xs2 :
  reaper_rep w (xs1 ++ x :: xs2) ->
  exists h, reaper_rep (RWorld h (taken_out (rp w) xs1 x xs2) (env w)) (xs1 ++ xs2) /\ touches (rp w) (links w) h /\
    reap_ready_thing reap w x (head xs2) =
      (w' ← reap (RWorld h (taken_out (rp w) xs1 x xs2) (env w)) x; c_assert (0 <=? count (rp w'));; Ret w').
Proof.
  intros R. pose proof (rr_list _ _ R) as [ND _].
  unfold reap_ready_thing. rewrite (rep_prev w xs1 x xs2 R), bind_Ret.
  assert (x ∉ xs1 /\ x ∉ xs2 /\ forall y, y ∈ xs1 -> y ∉ xs2) as (N1 & N2 & N3).
  { apply NoDup_app in ND as (_ & D & [N _]%NoDup_cons). split_and!; [intros H; apply (D x H); set_solver|done|].
    intros y H1 H2. apply (D y H1). set_solver. }
  replace (match last xs1, head xs2 with Some p, Some n => negb (p =? n)%positive | _, _ => true end) with true.
  2:{ destruct (last xs1) as [p|] eqn:Ep; [|done]. destruct (head xs2) as [n|] eqn:En; [|done]. symmetry.
      apply negb_true_iff, Pos.eqb_neq. intros ->. apply last_elem in Ep. apply (N3 n Ep), hd_or_elem. by rewrite hd_or_None. }
  rewrite !bool_decide_eq_true_2.
  2:{ intros E'. symmetry in E'. by apply N1, last_elem. }
  2:{ intros E'. symmetry in E'. apply N2, hd_or_elem. by rewrite hd_or_None. }
  unfold c_assert at 1 2 3. rewrite !bind_Ret.
  destruct (take_out_spec w xs1 x xs2 R) as (h & -> & R' & T). exists h. by rewrite bind_Ret.
Qed.

Lemma link_at_end_spec (w : world) xs x :
  prev_ptr_offset (rp w) <> next_ptr_offset (rp w) ->
  dlist (prev_ptr_offset (rp w)) (next_ptr_offset (rp w)) (links w) xs -> last_ (rp w) = last xs -> x ∉ xs ->
  live (prev_ptr_offset (rp w)) (next_ptr_offset (rp w)) (links w) x ->
  exists h, link_at_end w x = Ret h /\ dlist (prev_ptr_offset (rp w)) (next_ptr_offset (rp w)) h (xs ++ [x]) /\
    touches (rp w) (links w) h.
Proof.
  intros O D Lst Nx [L1 L2]. unfold link_at_end. rewrite Lst.
  set (no := next_ptr_offset (rp w)) in *. set (po := prev_ptr_offset (rp w)) in *.
  set (h1 := match last xs with Some l => <[(l, no) := Some x]> (links w) | None => links w end).
  assert (forall l, last xs = Some l -> l <> x /\ is_Some (links w !! (l, no))) as LL.
  { intros l Hl%last_elem. split; [by intros ->|]. destruct D as [_ D]. by eapply dseg_live in D as [_ D]. }
  replace (match last xs with Some l => store (links w) l no (Some x) | None => Ret (links w) end) with (Ret h1).
  2:{ subst h1. destruct (last xs) as [l|]; [|done]. by rewrite store_live by by apply LL. }
  assert (dom h1 = dom (links w)) as D1.
  { subst h1. destruct (last xs) as [l|]; [|done]. apply dom_insert_lookup_L. by apply LL. }
  rewrite <- elem_of_dom, <- D1, elem_of_dom in L1, L2.
  assert (store h1 x po (last xs) = Ret (<[(x, po) := last xs]> h1)) as E2 by by apply store_live.
  assert (store (<[(x, po) := last xs]> h1) x no None = Ret (<[(x, no) := None]> (<[(x, po) := last xs]> h1))) as E3.
  { apply store_live. rewrite lookup_insert_ne by congruence. done. }
  rewrite bind_Ret, E2, bind_Ret, E3. eexists. split; [reflexivity|]. split.
  2:{ eapply touches_trans; [|eapply touches_trans; eapply touches_store; [|exact E2| |exact E3]; [by left|by right]].
      split; [done|]. intros y o H1 H2. subst h1. destruct (last xs); [|done].
      rewrite lookup_insert_ne; [done|]. intros [= _ Q]. by apply H2. }
  eapply dlist_snoc; [exact O|exact D|done|..].
  - rewrite lookup_insert_ne, lookup_insert_eq by congruence. done.
  - by rewrite lookup_insert_eq.
  - intros y Ey. destruct (LL y Ey). subst h1. rewrite Ey, !lookup_insert_ne by congruence. by rewrite lookup_insert_eq.
  - intros y o Ny Ho. subst h1. rewrite !lookup_insert_ne by congruence.
    destruct (last xs) as [l|]; [|done]. rewrite lookup_insert_ne; [done|]. intros [= -> ->]. by apply Ho.
Qed.

Context (exiting : bool).

Lemma reset_timer (w : world) xs : reaper_rep w xs ->
  reaper_rep (set_rp w (reaper_reset_timer exiting (rp w))) xs /\
  timer_set (reaper_reset_timer exiting (rp w)) = timer_set (rp w) || (negb exiting && (0 <? count (rp w))).
Proof.
  intros []. unfold reaper_reset_timer. 
  destruct exiting, (timer_set (rp w)) eqn:Et, (0 <? count (rp w)); simpl; rewrite ?Et; (split; [by split|done]).
Qed.

Lemma reset_same r :
  same_reaper r (reaper_reset_timer exiting r) /\ position (reaper_reset_timer exiting r) = position r.
Proof. unfold reaper_reset_timer. by destruct (negb exiting && (0 <? count r) && negb (timer_set r)). Qed.

(** A thing that is not ready when it is added waits at the end of the list,
    with the timer set. *)
Lemma add_waiting ready reap (w : world) xs x e1 :
  ready (env w) x false = Ret (e1, false) ->
  reaper_rep w xs -> x ∉ xs -> live (prev_ptr_offset (rp w)) (next_ptr_offset (rp w)) (links w) x ->
  exists h r, nchan_reaper_add ready reap exiting w x = Ret (RWorld h r e1) /\
    reaper_rep (RWorld h r e1) (xs ++ [x]) /\ same_reaper (rp w) r /\ position r = position (rp w) /\
    timer_set r = timer_set (rp w) || negb exiting /\ touches (rp w) (links w) h.
Proof.
  intros Rd R Nx Lx. unfold nchan_reaper_add, call_ready. rewrite Rd, bind_Ret. cbv beta iota. rewrite bind_Ret. cbv beta iota.
  destruct (link_at_end_spec (RWorld (links w) (rp w) e1) xs x) as (h & -> & D & T); try done; [apply R..|].
  rewrite bind_Ret. cbn [rp env links] in *. rewrite (proj2 (Z.leb_le 0 (count (rp w)))) by (rewrite (rr_count _ _ R); lia).
  simpl c_assert. rewrite bind_Ret. set (r := set_ends _ _ _ _ _).
  assert (reaper_rep (RWorld h r e1) (xs ++ [x])) as R'.
  { split; simpl; try apply R; try done; [|by rewrite last_snoc|rewrite (rr_count _ _ R), length_app; simpl; lia].
    rewrite (rr_first _ _ R). by destruct xs. }
  destruct (reset_timer _ _ R') as [R2 Ts]. eexists _, _. split; [reflexivity|]. cbn [rp] in *. rewrite Ts. simpl.
  rewrite (proj2 (Z.ltb_lt 0 (count (rp w) + 1))) by (rewrite (rr_count _ _ R); lia). rewrite andb_true_r.
  destruct (reset_same r). by split_and!; [exact R2|..].
Qed.

(** A thing that is withdrawn leaves the list, in whose order nothing else
    changes; the place of the scan moves on with it. *)
Lemma reaper_withdraw_spec (w : world) xs1 x xs2 :
  reaper_rep w (xs1 ++ x :: xs2) -> placed w (xs1 ++ x :: xs2) ->
  exists w', nchan_reaper_withdraw w x = Ret w' /\ reaper_rep w' (xs1 ++ xs2) /\ placed w' (xs1 ++ xs2) /\
    env w' = env w /\ moves w w' /\ touches (rp w) (links w) (links w').
Proof.
  intros R P. pose proof (rr_list _ _ R) as [ND S]. unfold nchan_reaper_withdraw.
  rewrite (rep_prev w xs1 x xs2 R), bind_Ret, (rep_next w xs1 x xs2 R), bind_Ret.
  destruct (take_out_spec w xs1 x xs2 R) as (h & -> & R' & T).
  rewrite bind_Ret, (proj2 (Z.ltb_lt _ _)) by (rewrite (rr_count _ _ R), length_app; simpl; lia).
  simpl c_assert. rewrite bind_Ret.
  assert (live (prev_ptr_offset (rp w)) (next_ptr_offset (rp w)) h x) as [L1 L2].
  { apply (live_dom _ _ (links w)); [apply T|]. eapply dseg_live; [exact S|set_solver]. }
  assert (x ∉ xs1 ++ xs2) as Nx.
  { apply NoDup_app in ND as (_ & N1 & [N2 _]%NoDup_cons). intros [H|H]%elem_of_app; [|done]. apply (N1 x H). set_solver. }
  assert (forall v, is_Some (<[(x, next_ptr_offset (rp w)) := v]> h !! (x, prev_ptr_offset (rp w)))) as L1'.
  { intros v. by rewrite lookup_insert_ne by (intros [= Q]; by apply (rr_offsets _ _ R)). }
  rewrite store_live, bind_Ret by done. rewrite store_live, bind_Ret by done.
  eexists. split; [reflexivity|]. split_and!; try done.
  - destruct R'. split; try done. simpl in *. destruct rr_list0 as [D1 D2].
    split; [done|]. apply dseg_insert_other; [done|]. by apply dseg_insert_other.
  - intros Es p. simpl in *. unfold next_position. rewrite Es. destruct (decide _) as [_|Np].
    + intros Hp%head_Some_elem_of. set_solver.
    + intros Ep. specialize (P Es p Ep). rewrite Ep in Np.
      apply elem_of_app in P as [?|[->|?]%elem_of_cons]; [set_solver|done|set_solver].
  - eapply touches_trans; [exact T|]. eapply touches_trans; eapply touches_store, store_live; try done; [by right|by left].
Qed.
End structure.

Section facts.
Context {E : Type}.
Notation world := (reaper_world E).
(** Callbacks that leave the reaper alone: [rd] decides and may change the
    surroundings, [gone] is the effect of reaping a thing on them. *)
Context (ready : E -> loc -> bool -> outcome (E * bool)) (reap : world -> loc -> outcome world).
Context (rd : E -> loc -> bool -> E * bool) (gone : E -> loc -> E).
Hypothesis ready_plain : forall e x f, ready e x f = Ret (rd e x f).
Hypothesis reap_plain : forall w x, exists h, reap w x = Ret (RWorld h (rp w) (gone (env w) x)) /\
  forall y o, y <> x -> h !! (y, o) = links w !! (y, o).
Context (exiting : bool).

(** Examining things in turn: the surroundings afterwards, what was ready and
    is gone, and what is kept. *)
Fixpoint examine (e : E) (force : bool) (xs : list loc) : E * list loc * list loc :=
  match xs with
  | [] => (e, [], [])
  | x :: xs =>
      let '(e1, ok) := rd e x force in
      let '(e2, gone_, kept) := examine (if ok then gone e1 x else e1) force xs in
      if ok then (e2, x :: gone_, kept) else (e2, gone_, x :: kept)
  end.

Lemma examine_perm e force xs e' gone_ kept :
  examine e force xs = (e', gone_, kept) -> gone_ ++ kept ≡ₚ xs.
Proof.
  revert e e' gone_ kept. induction xs as [|x xs IH]; intros e e' g k; simpl; [by intros [= _ <- <-]|].
  destruct (rd e x force) as [e1 ok]. destruct (examine _ force xs) as [[e2 g2] k2] eqn:Ex.
  apply IH in Ex. destruct ok; intros [= _ <- <-]; [by simpl; rewrite Ex|].
  by rewrite <- Permutation_middle, Ex.
Qed.

(** *** Single operations *)

Lemma call_ready_plain (w : world) x f : call_ready ready w x f = Ret (RWorld (links w) (rp w) (rd (env w) x f).1, (rd (env w) x f).2).
Proof. unfold call_ready. rewrite ready_plain. simpl. by destruct (rd (env w) x f). Qed.

Lemma reap_ready_spec (w : world) xs1 x xs2 :
  reaper_rep w (xs1 ++ x :: xs2) ->
  exists w', reap_ready_thing reap w x (head xs2) = Ret w' /\ reaper_rep w' (xs1 ++ xs2) /\
    env w' = gone (env w) x /\ same_reaper (rp w) (rp w') /\ position (rp w') = next_position (rp w) x (head xs2) /\
    timer_set (rp w') = timer_set (rp w).
Proof.
  intros R. destruct (reap_ready_thing_eq reap w xs1 x xs2 R) as (h & R' & _ & ->).
  destruct (reap_plain (RWorld h (taken_out (rp w) xs1 x xs2) (env w)) x) as (h' & -> & Fh). rewrite bind_Ret. cbn [rp].
  rewrite (rr_count _ _ R' : count (taken_out (rp w) xs1 x xs2) = _), (proj2 (Z.leb_le _ _)) by lia. simpl c_assert.
  rewrite bind_Ret. eexists. split; [reflexivity|]. split_and!; try done.
  assert (x ∉ xs1 ++ xs2) as Nx.
  { pose proof (rr_list _ _ R) as [(_ & D & [N _]%NoDup_cons)%NoDup_app _].
    intros [H|H]%elem_of_app; [|done]. apply (D x H). set_solver. }
  destruct R' as [R1 [D1 D2] R3 R4 R5]. split; try done. split; [done|]. eapply dseg_frame, D2. intros y Hy. simpl in Fh.
  rewrite !Fh by (intros ->; done). done.
Qed.

(** *** The three scans *)

(** A scan stops early only when it counted more than [limit] things that were
    not ready, which it does when there is a limit. *)
Definition enough (limit notready : Z) (rest : list loc) : Prop := rest = [] \/ (limit <> 0 /\ limit < notready).

Lemma one_more_nonneg limit nr k : 0 <= limit -> 0 <= k ->
  (limit <> 0 /\ limit < one_more limit nr + k -> limit <> 0 /\ limit < nr + (k + 1)).
Proof. unfold one_more. destruct (Z.ltb_spec 0 limit); lia. Qed.

Lemma rescan_spec force limit xs2 : 0 <= limit -> forall fuel (w : world) xs1 nr,
  (length xs2 <= fuel)%nat -> reaper_rep w (xs1 ++ xs2) -> (limit = 0 -> nr = 0) ->
  exists w' seen rest gone_ kept,
    rescan_loop ready reap fuel w force limit nr (head xs2) = Ret w' /\ xs2 = seen ++ rest /\
    examine (env w) force seen = (env w', gone_, kept) /\ reaper_rep w' (xs1 ++ kept ++ rest) /\
    moves w w' /\ enough limit (nr + Z.of_nat (length kept)) rest.
Proof.
  intros L. induction xs2 as [|x xs2 IH]; intros fuel w xs1 nr F R NR; simpl.
  { exists w, [], [], [], []. destruct fuel; split_and!; try done; (apply moves_refl || by left). }
  destruct fuel as [|fuel]; [simpl in F; lia|]. simpl. destruct (Z.ltb_spec limit nr) as [Hl|Hl].
  { exists w, [], (x :: xs2), [], []. split_and!; try done. right. simpl. lia. }
  rewrite (rep_next w xs1 x xs2 R), bind_Ret, call_ready_plain, bind_Ret.
  destruct (rd (env w) x force) as [e1 ok] eqn:Ed. simpl. apply (rep_env _ _ e1) in R. destruct ok.
  - destruct (reap_ready_spec _ _ _ _ R) as (w2 & -> & R2 & E2 & S2 & _ & T2). rewrite bind_Ret.
    destruct (IH fuel w2 xs1 nr) as (w' & seen & rest & g & k & -> & -> & Ex & R' & M & En); [simpl in F; lia|done..|].
    exists w', (x :: seen), rest, (x :: g), k. split_and!; try done.
    + simpl. rewrite Ed. simpl in E2. rewrite <- E2, Ex. done.
    + by eapply moves_trans; [split; [exact S2|exact T2]|].
  - rewrite cons_middle, app_assoc in R.
    destruct (IH fuel _ (xs1 ++ [x]) (one_more limit nr) ltac:(simpl in F; lia) R)
      as (w' & seen & rest & g & k & -> & -> & Ex & R' & M & En).
    { intros ->. by apply NR. }
    exists w', (x :: seen), rest, g, (x :: k). split_and!; try done.
    + simpl. rewrite Ed. simpl in Ex. by rewrite Ex.
    + by rewrite <- app_assoc in R'.
    + destruct En as [->|En]; [by left|right]. simpl length. rewrite Nat2Z.inj_succ. unfold Z.succ.
      apply one_more_nonneg; lia.
Qed.

Lemma move_to_end_spec (w : world) x xs :
  xs <> [] -> reaper_rep w (x :: xs) ->
  exists w', move_to_end w x (head xs) = Ret w' /\ reaper_rep w' (xs ++ [x]) /\ env w' = env w /\ moves w w'.
Proof.
  intros Ne R. unfold move_to_end. rewrite (rep_prev w [] x xs R), bind_Ret.
  pose proof (rr_list _ _ R) as [[Nx ND]%NoDup_cons S].
  destruct (unlink_spec _ _ (links w) [] x xs (rr_offsets _ _ R) (rr_list _ _ R)) as (h & -> & D & Dm & Fr).
  rewrite bind_Ret.
  destruct (link_at_end_spec (RWorld h (rp w) (env w)) xs x) as (h' & -> & D' & _); simpl; try done.
  - apply R.
  - rewrite (rr_last _ _ R). by destruct xs.
  - apply (live_dom _ _ (links w)); [done|]. eapply dseg_live; [exact S|set_solver].
  - eexists. split; [reflexivity|]. split_and!; try done. split; simpl; try apply R; try done.
    + rewrite (rr_first _ _ R). simpl. rewrite Pos.eqb_refl. by destruct xs.
    + by rewrite last_snoc.
    + rewrite (rr_count _ _ R), length_app. simpl. lia.
Qed.

Lemma rotate_spec force limit us : 0 <= limit -> forall fuel (w : world) ks nr cur,
  (length us <= fuel)%nat -> reaper_rep w (us ++ ks) -> (limit = 0 -> nr = 0) ->
  cur = head us \/ (us = [] /\ cur = head ks) ->
  exists w' seen rest gone_ kept,
    rotate_loop ready reap fuel w force limit nr (head ks) cur = Ret w' /\ us = seen ++ rest /\
    examine (env w) force seen = (env w', gone_, kept) /\ reaper_rep w' (rest ++ ks ++ kept) /\
    moves w w' /\ enough limit (nr + Z.of_nat (length kept)) rest.
Proof.
  intros L. induction us as [|x us IH]; intros fuel w ks nr cur F R NR C.
  { exists w, [], [], [], []. rewrite (app_nil_r ks). split_and!; try done; [|by left]. destruct fuel, cur; simpl; try done;
      rewrite bool_decide_eq_true_2; naive_solver. }
  destruct C as [->|[? _]]; [|done]. simpl in F. destruct fuel as [|fuel]; [lia|]. simpl.
  assert (x ∉ us ++ ks) as Nx by (by pose proof (rr_list _ _ R) as [[Nx _]%NoDup_cons _]).
  rewrite bool_decide_eq_false_2. 2:{ intros Q. symmetry in Q. apply head_Some_elem_of in Q. set_solver. }
  simpl. destruct (Z.ltb_spec limit nr) as [Hl|Hl].
  { exists w, [], (x :: us), [], []. rewrite (app_nil_r ks). split_and!; try done. right. simpl. lia. }
  rewrite (rep_next w [] x (us ++ ks) R), bind_Ret, call_ready_plain, bind_Ret.
  destruct (rd (env w) x force) as [e1 ok] eqn:Ed. simpl. apply (rep_env _ _ e1) in R. destruct ok.
  - destruct (reap_ready_spec _ [] x (us ++ ks) R) as (w2 & -> & R2 & E2 & S2 & _ & T2). rewrite bind_Ret.
    destruct (IH fuel w2 ks nr (head (us ++ ks))) as (w' & seen & rest & g & k & -> & -> & Ex & R' & M & En);
      [lia|done|done|destruct us; [by right|by left]|].
    exists w', (x :: seen), rest, (x :: g), k. split_and!; try done.
    + simpl. rewrite Ed. simpl in E2. rewrite <- E2, Ex. done.
    + by eapply moves_trans; [split; [exact S2|exact T2]|].
  - set (w1 := RWorld (links w) (rp w) e1) in *.
    assert (exists w2, (if bool_decide (last_ (rp w) = Some x) then Ret w1 else move_to_end w1 x (head (us ++ ks))) = Ret w2 /\
      reaper_rep w2 (us ++ ks ++ [x]) /\ env w2 = e1 /\ moves w w2) as (w2 & -> & R2 & E2 & M2).
    { change (last_ (rp w)) with (last_ (rp w1)). rewrite (rr_last _ _ R). destruct (decide (us ++ ks = [])) as [Q0|Q0].
      - rewrite bool_decide_eq_true_2 by (simpl; by rewrite Q0). exists w1. rewrite app_assoc, Q0.
        simpl in R. rewrite Q0 in R. by split_and!.
      - rewrite bool_decide_eq_false_2.
        + destruct (move_to_end_spec w1 x (us ++ ks) Q0 R) as (w2 & -> & R2 & E2 & M2).
          exists w2. rewrite app_assoc. by split_and!.
        + destruct (us ++ ks) as [|y l] eqn:El; [done|]. intros Q. apply Nx, last_elem.
          change (last ((x :: us) ++ ks)) with (last (x :: us ++ ks)) in Q. by rewrite El in Q. }
    rewrite bind_Ret. replace (match head ks with Some f => Some f | None => Some x end) with (head (ks ++ [x])) by by destruct ks.
    destruct (IH fuel w2 (ks ++ [x]) (one_more limit nr) (head (us ++ ks)))
      as (w' & seen & rest & g & k & -> & -> & Ex & R' & M & En); [lia|done| |destruct us, ks; simpl; auto|].
    { intros ->. by apply NR. }
    exists w', (x :: seen), rest, g, (x :: k). split_and!; try done.
    + simpl. rewrite Ed. rewrite <- E2, Ex. done.
    + by rewrite <- app_assoc in R'.
    + by eapply moves_trans.
    + destruct En as [->|En]; [by left|right]. simpl length. rewrite Nat2Z.inj_succ. unfold Z.succ.
      apply one_more_nonneg; lia.
Qed.

(** [us], then [ks], are the things of [w] from some place on, around the end. *)
Definition around (w : world) (us ks : list loc) : Prop :=
  exists l1 l2, reaper_rep w (l1 ++ l2) /\ l2 ++ l1 = us ++ ks.

Lemma around_cons (w : world) x us ks :
  around w (x :: us) ks -> exists l1 l2, reaper_rep w (l1 ++ x :: l2) /\ l2 ++ l1 = us ++ ks.
Proof.
  intros (l1 & [|y l2] & R & Q).
  - rewrite app_nil_r in R. simpl in Q. subst l1. exists [], (us ++ ks). by rewrite app_nil_r.
  - injection Q as -> Q. by exists l1, l2.
Qed.

Lemma around_length (w : world) us ks : around w us ks -> count (rp w) = Z.of_nat (length us + length ks).
Proof. intros (l1 & l2 & R & Q%(f_equal length)). rewrite (rr_count _ _ R). rewrite !length_app in *. lia. Qed.

Lemma wrap_next (w : world) l1 l2 : reaper_rep w (l1 ++ l2) ->
  match head l2 with Some y => Some y | None => first (rp w) end = head (l2 ++ l1).
Proof. intros R. rewrite (rr_first _ _ R). destruct l2; [by rewrite app_nil_r|done]. Qed.

Lemma keep_place_spec force limit us : 0 <= limit -> forall fuel (w : world) ks nr n cur,
  (length us <= fuel)%nat -> around w us ks -> (limit = 0 -> nr = 0) -> Z.of_nat (length ks) <= n ->
  cur = head (us ++ ks) ->
  exists w' seen rest gone_ kept,
    keep_place_loop ready reap fuel w force limit nr n cur = Ret (w', head (rest ++ ks ++ kept)) /\
    us = seen ++ rest /\ examine (env w) force seen = (env w', gone_, kept) /\ around w' rest (ks ++ kept) /\
    moves w w' /\ (Z.of_nat (length rest + length ks + length kept) <= n + Z.of_nat (length seen) \/
      enough limit (nr + Z.of_nat (length kept)) rest).
Proof.
  intros L. induction us as [|x us IH]; intros fuel w ks nr n cur F R NR Hn ->.
  { exists w, [], [], [], []. rewrite (app_nil_r ks). split_and!; try done; [|left; simpl; lia].
    pose proof (around_length _ _ _ R) as C. destruct fuel; simpl; rewrite C, (proj2 (Z.ltb_ge _ _)) by (simpl; lia); done. }
  pose proof (around_length _ _ _ R) as C. simpl in F. destruct fuel as [|fuel]; [lia|]. simpl. rewrite C.
  destruct (Z.ltb_spec n (Z.of_nat (length (x :: us) + length ks))) as [H1|H1].
  2:{ simpl. exists w, [], (x :: us), [], []. rewrite (app_nil_r ks). split_and!; try done. left. simpl in *. lia. }
  destruct (Z.leb_spec nr limit) as [Hl|Hl]; simpl.
  2:{ exists w, [], (x :: us), [], []. rewrite (app_nil_r ks). split_and!; try done. right. right. simpl. lia. }
  destruct (around_cons _ _ _ _ R) as (l1 & l2 & Rx & El). clear R.
  rewrite (rep_next w l1 x l2 Rx), bind_Ret, call_ready_plain, bind_Ret.
  destruct (rd (env w) x force) as [e1 ok] eqn:Ed. simpl. apply (rep_env _ _ e1) in Rx. destruct ok.
  - destruct (reap_ready_spec _ l1 x l2 Rx) as (w2 & -> & R2 & E2 & S2 & _ & T2). rewrite !bind_Ret.
    rewrite (wrap_next _ _ _ R2), El.
    destruct (IH fuel w2 ks nr (n + 1) (head (us ++ ks))) as (w' & seen & rest & g & k & -> & -> & Ex & R' & M & En);
      [lia|by exists l1, l2|done|lia|done|].
    exists w', (x :: seen), rest, (x :: g), k. split_and!; try done.
    + simpl. rewrite Ed. simpl in E2. rewrite <- E2, Ex. done.
    + by eapply moves_trans; [split; [exact S2|exact T2]|].
    + destruct En as [En|En]; [left; simpl length; lia|by right].
  - rewrite bind_Ret. rewrite cons_middle, app_assoc in Rx. rewrite (wrap_next _ _ _ Rx).
    assert (l2 ++ l1 ++ [x] = us ++ ks ++ [x]) as El' by by rewrite !app_assoc, El.
    destruct (IH fuel (RWorld (links w) (rp w) e1) (ks ++ [x]) (one_more limit nr) (n + 1) (head (us ++ ks ++ [x])))
      as (w' & seen & rest & g & k & Q & -> & Ex & R' & M & En);
      [lia|by exists (l1 ++ [x]), l2| |rewrite length_app; simpl; lia|done|].
    { intros ->. by apply NR. }
    rewrite El', Q. exists w', (x :: seen), rest, g, (x :: k). rewrite <- app_assoc in *. split_and!; try done.
    + simpl. rewrite Ed. simpl in Ex. by rewrite Ex.
    + destruct En as [En|En]; [left; rewrite length_app in En; simpl length in *; lia|right].
      destruct En as [->|En]; [by left|right]. simpl length. rewrite Nat2Z.inj_succ. unfold Z.succ.
      apply one_more_nonneg; lia.
Qed.

(** ** The operations *)

(** The things [xs] in the order in which a scan comes to them. *)
Definition scan_order (w : world) (xs us : list loc) : Prop :=
  match strategy (rp w) with
  | KEEP_PLACE => exists l1 l2, xs = l1 ++ l2 /\ us = l2 ++ l1 /\
      match position (rp w) with Some p => head l2 = Some p | None => l1 = [] end
  | _ => us = xs
  end.

Lemma scan_order_exists (w : world) xs : placed w xs -> exists us, scan_order w xs us.
Proof.
  intros P. unfold scan_order. destruct (strategy (rp w)) eqn:S; eauto.
  destruct (position (rp w)) as [p|] eqn:Ep; [|by exists xs, [], xs; rewrite app_nil_r].
  destruct (list_elem_of_split _ _ (P S p Ep)) as (l1 & l2 & ->). by exists ((p :: l2) ++ l1), l1, (p :: l2).
Qed.

(** What a scan leaves of [us], having kept [kept] and not come to [rest]. *)
Definition left_over (w w' : world) (xs' kept rest : list loc) : Prop :=
  match strategy (rp w) with
  | RESCAN => xs' = kept ++ rest
  | ROTATE => xs' = rest ++ kept
  | KEEP_PLACE => scan_order w' xs' (rest ++ kept)
  end.

(** How far a scan comes: to the end, unless there is a limit on the things that
    were not ready.  [KEEP_PLACE] may leave as many things as it reaped. *)
Definition far_enough (w : world) (gone_ kept rest : list loc) : Prop :=
  enough (notready_limit (rp w) (count (rp w))) (Z.of_nat (length kept)) rest \/
  (strategy (rp w) = KEEP_PLACE /\ (length rest <= length gone_)%nat).

Lemma around_placed (w : world) us r : around w us [] -> rp w = set_position r (head us) -> strategy r = KEEP_PLACE ->
  exists xs, reaper_rep w xs /\ placed w xs /\ scan_order w xs us.
Proof.
  intros (l1 & l2 & R & Q) Er Es. rewrite app_nil_r in Q. exists (l1 ++ l2). split; [done|]. split.
  - intros _ p Ep. rewrite Er in Ep. simpl in Ep. apply head_Some_elem_of in Ep. rewrite <- Q in Ep. set_solver.
  - unfold scan_order. rewrite Er. simpl. rewrite Es. destruct l2 as [|y l2].
    + exists [], l1. rewrite !app_nil_r in *. simpl in Q. subst us. by destruct l1.
    + exists l1, (y :: l2). subst us. by simpl.
Qed.

(** One scan, by any strategy. *)
Lemma scan_spec fuel (w : world) xs us :
  reaper_rep w xs -> placed w xs -> (length xs <= fuel)%nat -> 0 <= notready_limit (rp w) (count (rp w)) ->
  scan_order w xs us ->
  exists w' seen rest gone_ kept xs',
    match strategy (rp w) with
    | RESCAN => its_reaping_time ready reap fuel w false
    | ROTATE => its_reaping_rotating_time ready reap fuel w false
    | KEEP_PLACE => its_reaping_time_keep_place ready reap fuel w false
    end = Ret w' /\
    us = seen ++ rest /\ examine (env w) false seen = (env w', gone_, kept) /\
    reaper_rep w' xs' /\ placed w' xs' /\ left_over w w' xs' kept rest /\ far_enough w gone_ kept rest /\ moves w w'.
Proof.
  intros R P F L Or. unfold scan_order in Or. unfold left_over, far_enough.
  destruct (strategy (rp w)) eqn:Es.
  - subst us. unfold its_reaping_time. rewrite (rr_first _ _ R).
    destruct (rescan_spec false _ xs L fuel w [] 0 F R) as (w' & seen & rest & g & k & -> & -> & Ex & R' & M & En); [done|].
    exists w', seen, rest, g, k, (k ++ rest). split_and!; try done; [|by left].
    intros Q'. destruct M as [(_ & _ & M & _) _]. congruence.
  - subst us. unfold its_reaping_rotating_time. rewrite (rr_first _ _ R).
    destruct (rotate_spec false _ xs L fuel w [] 0 (head xs) F) as (w' & seen & rest & g & k & Q & -> & Ex & R' & M & En);
      [by rewrite app_nil_r|done|by left|].
    simpl in Q. rewrite Q. exists w', seen, rest, g, k, (rest ++ k). split_and!; try done; [|by left].
    intros Q'. destruct M as [(_ & _ & M & _) _]. congruence.
  - destruct Or as (l1 & l2 & -> & -> & Hp). unfold its_reaping_time_keep_place.
    destruct (keep_place_spec false _ (l2 ++ l1) L fuel w [] 0 0 (match position (rp w) with Some p => Some p | None => first (rp w) end))
      as (w' & seen & rest & g & k & Q & Eu & Ex & R' & M & En); try done.
    + rewrite !length_app in *. lia.
    + exists l1, l2. by rewrite app_nil_r.
    + rewrite app_nil_r. destruct (position (rp w)); [by destruct l2|]. subst l1. rewrite app_nil_r. apply (rr_first _ _ R).
    + replace (match position (rp w) with None => first (rp w) | Some p => Some p end)
        with (match position (rp w) with Some p => Some p | None => first (rp w) end) by done.
      rewrite Q, bind_Ret. simpl in *.
      assert (strategy (rp w') = KEEP_PLACE) as Es' by (destruct M as [(_ & _ & M & _) _]; congruence).
      destruct (around_placed (set_rp w' (set_position (rp w') (head (rest ++ k)))) (rest ++ k) (rp w')) as (xs' & R2 & P2 & S2);
        [|done|done|].
      { destruct R' as (m1 & m2 & [] & ?). exists m1, m2. rewrite app_nil_r. by split. }
      eexists _, seen, rest, g, k, xs'. split_and!; try done.
      destruct En as [En|En]; [right|by left]. split; [done|].
      apply examine_perm, Permutation_length in Ex. rewrite length_app in Ex. simpl in *. lia.
Qed.

(** A thing that is added is reaped at once when it is ready, or waits at the
    end of the list, with the timer set. *)
Lemma reaper_add_spec (w : world) xs x :
  reaper_rep w xs -> x ∉ xs -> live (prev_ptr_offset (rp w)) (next_ptr_offset (rp w)) (links w) x ->
  exists w', nchan_reaper_add ready reap exiting w x = Ret w' /\
    if (rd (env w) x false).2 then
      reaper_rep w' xs /\ rp w' = rp w /\ env w' = gone (rd (env w) x false).1 x
    else
      reaper_rep w' (xs ++ [x]) /\ same_reaper (rp w) (rp w') /\ position (rp w') = position (rp w) /\
      env w' = (rd (env w) x false).1 /\ timer_set (rp w') = timer_set (rp w) || negb exiting.
Proof.
  intros R Nx Lx. destruct (rd (env w) x false) as [e1 [|]] eqn:Er.
  - unfold nchan_reaper_add. rewrite call_ready_plain, bind_Ret, Er. simpl.
    destruct (reap_plain (RWorld (links w) (rp w) e1) x) as (h & -> & Fr). eexists. split; [reflexivity|].
    split_and!; try done. simpl in Fr. destruct R as [R1 [D1 D2] R3 R4 R5]. split; try done. split; [done|].
    eapply dseg_frame, D2. intros y Hy. rewrite !Fr by (intros ->; done). done.
  - destruct (add_waiting exiting ready reap w xs x e1) as (h & r & -> & R' & Sm & Ps & Ts & _);
      [rewrite ready_plain, Er; done|done..|]. eexists. split; [reflexivity|]. by split_and!.
Qed.

End facts.

(** C27.  One tick of a reaper whose callbacks leave it and the links of other
    things alone never aborts, for each of the three strategies: it comes to the waiting things in the order of
    the strategy, each at most once; of those it comes to it reaps exactly the
    ready ones; the others keep waiting, in a well-formed list, in their order
    ([RESCAN]), behind the ones not come to ([ROTATE]), or in place, the next
    scan going on where this one stopped ([KEEP_PLACE]).  Without a limit
    [RESCAN] and [ROTATE] come to all of them, [KEEP_PLACE] to all but at most as
    many as it reaped.  The timer is set again exactly when things are left and
    the worker is not exiting. *)
Theorem reaper_tick {E} ready reap rd gone exiting fuel (w : reaper_world E) xs :
  (forall e x f, ready e x f = Ret (rd e x f)) ->
  (forall w x, exists h, reap w x = Ret (RWorld h (rp w) (gone (env w) x)) /\
    forall y o, y <> x -> h !! (y, o) = links w !! (y, o)) ->
  reaper_rep w xs -> placed w xs -> (length xs <= fuel)%nat -> 0 <= notready_limit (rp w) (count (rp w)) ->
  exists w' us seen rest reaped kept xs',
    reaper_timer_handler ready reap exiting fuel w = Ret w' /\
    scan_order w xs us /\ us = seen ++ rest /\ examine rd gone (env w) false seen = (env w', reaped, kept) /\
    reaper_rep w' xs' /\ placed w' xs' /\ left_over w w' xs' kept rest /\ far_enough w reaped kept rest /\
    timer_set (rp w') = negb exiting && negb (bool_decide (xs' = [])).
Proof.
  intros Rd Rp R P F L. destruct (scan_order_exists w xs P) as [us Or].
  destruct (scan_spec ready reap rd gone Rd Rp fuel (set_rp w (set_timer (rp w) false)) xs us)
    as (w1 & seen & rest & g & k & xs' & Q & Eu & Ex & R1 & P1 & LO & FE & M); try done; [by apply rep_timer|].
  unfold reaper_timer_handler. rewrite Q, bind_Ret.
  destruct (reset_timer exiting w1 xs' R1) as [R2 T].
  eexists _, us, seen, rest, g, k, xs'. split; [reflexivity|]. simpl. rewrite T.
  destruct M as [_ ->]. simpl. rewrite (rr_count _ _ R1).
  destruct (reset_same exiting (rp w1)) as [(_ & _ & Hs & _) Hp].
  split_and!; try done.
  - intros Es. simpl in *. rewrite Hs in Es. rewrite Hp. by apply P1.
  - unfold left_over, scan_order in *. simpl in *. rewrite Hs, Hp. done.
  - destruct xs'; [by rewrite bool_decide_eq_true_2|by rewrite bool_decide_eq_false_2].
Qed.

(** *** Witness: a reaper that keeps its place, of which the second thing is ready. *)
Definition example_ready (e : list loc) (x : loc) (_ : bool) : list loc * bool := (e, bool_decide (x = 2%positive)).
Definition example_gone (e : list loc) (x : loc) : list loc := x :: e.
Definition example_reap (w : reaper_world (list loc)) (x : loc) : outcome (reaper_world (list loc)) :=
  Ret (RWorld (dealloc 0 8 (links w) x) (rp w) (example_gone (env w) x)).
Definition example_things : mem :=
  alloc 0 8 (alloc 0 8 (alloc 0 8 ∅ 1 None (Some 2%positive)) 2 (Some 1%positive) (Some 3%positive)) 3 (Some 2%positive) None.
Definition example_reaper : reaper_world (list loc) :=
  RWorld example_things
    (Reaper 3 8 0 (Some 3%positive) (Some 1%positive) true KEEP_PLACE (fun _ => 0) (Some 2%positive)) [].

Lemma reaper_tick_witness : exists w' xs',
  reaper_timer_handler (fun e x f => Ret (example_ready e x f)) example_reap false 3 example_reaper = Ret w' /\
  reaper_rep w' xs' /\ placed w' xs'.
Proof.
  destruct (reaper_tick (fun e x f => Ret (example_ready e x f)) example_reap example_ready example_gone false 3
    example_reaper [1; 2; 3]%positive) as (w' & us & seen & rest & g & k & xs' & Q & _ & _ & _ & R & P & _).
  - reflexivity.
  - intros w x. exists (dealloc 0 8 (links w) x). split; [reflexivity|]. intros y o Hy. unfold dealloc.
    rewrite !lookup_delete_ne by congruence. reflexivity.
  - split; try reflexivity; [discriminate|]. split; [|by split_and!]. by apply (bool_decide_unpack _).
  - intros _ p [= <-]. set_solver.
  - simpl. lia.
  - simpl. lia.
  - exists w', xs'. by split_and!.
Defined.

(** What that tick does: thing 2 is reaped, 3 is looked at, and the next scan
    begins with 1. *)
Example example_reaper_tick :
  (w' ← reaper_timer_handler (fun e x f => Ret (example_ready e x f)) example_reap false 3 example_reaper;
   Ret (env w', first (rp w'), last_ (rp w'), count (rp w'), position (rp w'))) =
  Ret ([2%positive], Some 1%positive, Some 3%positive, 2, Some 1%positive).
Proof. reflexivity. Qed.
