(* ===== verification/ChanLife.v ===== *)
(** * The life of channel heads ([store/memory/memstore.c])

    A worker keeps a channel head for every channel it has to do with.  A head
    that the worker owns is in the churner while it may be in use and in the
    garbage collection queue once it has no subscribers or was published to; a
    head of another worker's channel is at most in the latter.  Both queues are
    reapers.  A multiplexed head holds an internal subscriber in each of its
    channels; reaping it takes them out, which may put those channels into the
    garbage collection queue in the middle of a scan. *)

From S2P Require Import Prelude Nginx MsgId DList ChanHead Reaper.

(** ** Interface: the rest of the store *)

(** What a head's life asks of the message buffers and of the groups. *)
Class ChannelStore (S : Type) := {
  (** [memstore_chanhead_messages_gc], [chanhead_messages_delete] *)
  store_messages_gc : Z -> S -> memstore_channel_head_t -> outcome (S * memstore_channel_head_t);
  store_messages_delete : Z -> S -> memstore_channel_head_t -> outcome (S * memstore_channel_head_t);
  (** [memstore_group_add_subscribers], for a head that has a group *)
  store_group_add_subscribers : S -> memstore_channel_head_t -> Z -> outcome S;
  (** [memstore_group_dissociate_own_channel] when the flag is set, and
      [memstore_group_remove_channel] *)
  store_group_leave : S -> positive -> memstore_channel_head_t -> bool -> outcome S;
}.

(** ** Data *)

(** What a multiplexed head has besides: the pending subscribers, and for each
    of its channels the head that its internal subscriber [multi[i].sub] is in,
    if there is such a subscriber. *)
Record multi_state := MultiState {
  multi_subscribers_pending : Z;    (* uint8_t *)
  multi_subs : list (option positive);
}.

(** Calls to other parts: to Redis, to statistics, to the allocator of shared
    memory. *)
Inductive life_event :=
  | redis_fakesub_add (x : positive) (n : Z)
  | stats_channels (n : Z)
  | stats_subscribers (n : Z)
  | shared_freed (x : positive)
  | outside_unref (x : positive)      (* ch->shared->gc.outside_refcount, of another worker's channel *)
  | redis_sub_dequeued (x : positive)
  | redis_sub_destroyed (x : positive).

Record worker (S : Type) := Worker {
  wstore : S;
  heads : gmap positive memstore_channel_head_t;
  multis : gmap positive multi_state;
  spooling : gset positive;                (* spooler.running *)
  fakesub_timers : gset positive;          (* delta_fakesubs_timer_ev.timer_set *)
  redis_subs : gmap positive bool;         (* redis_sub, and whether it is enqueued *)
  hash : gmap bytes positive;              (* mpt->hash *)
  queues : mem;                            (* gc_prev, gc_next, churn_prev, churn_next *)
  chanhead_reaper : nchan_reaper_t;
  chanhead_churner : nchan_reaper_t;
  life_log : list life_event;
}.
Arguments Worker {S} _ _ _ _ _ _ _ _ _ _ _.
Arguments wstore {S} _.
Arguments heads {S} _.
Arguments multis {S} _.
Arguments spooling {S} _.
Arguments fakesub_timers {S} _.
Arguments redis_subs {S} _.
Arguments hash {S} _.
Arguments queues {S} _.
Arguments chanhead_reaper {S} _.
Arguments chanhead_churner {S} _.
Arguments life_log {S} _.

(** [offsetof(memstore_channel_head_t, ...)], in an arbitrary numbering. *)
Definition GC_PREV : Z := 0.
Definition GC_NEXT : Z := 8.
Definition CHURN_PREV : Z := 16.
Definition CHURN_NEXT : Z := 24.

(** The reapers of [init_mpt]; the limit of the churner is a tenth, rounded down. *)
Definition new_chanhead_reaper : nchan_reaper_t := nchan_reaper_start GC_PREV GC_NEXT.
Definition new_chanhead_churner : nchan_reaper_t :=
  let r := nchan_reaper_start CHURN_PREV CHURN_NEXT in
  Reaper (count r) (next_ptr_offset r) (prev_ptr_offset r) (last_ r) (first r) (timer_set r) KEEP_PLACE
    (fun n => n / 10) (position r).

(** *** Updates *)

Definition set_queued (ch : memstore_channel_head_t) (st : chanhead_pubsub_status_t) (gc_start gc_times : Z)
    (in_gc : bool) (churn_start : Z) (in_churn : bool) : memstore_channel_head_t :=
  CH (owner ch) (slot ch) st (sub_count ch) (internal_sub_count ch) (last_subscribed_local ch)
     (reserved ch) (multi ch) (shared ch) (max_messages ch) (msg_first ch) (msg_last ch) (latest_msgid ch)
     (foreign_owner_ipc_sub ch) (redis_idle_cache_ttl ch) (stub ch) (shutting_down ch) (msg_buffer_complete ch)
     (cf ch) (groupnode ch) (delta_fakesubs ch) gc_start gc_times in_gc churn_start in_churn.
Definition set_status (ch : memstore_channel_head_t) (st : chanhead_pubsub_status_t) : memstore_channel_head_t :=
  set_queued ch st (gc_start_time ch) (gc_queued_times ch) (in_gc_queue ch) (churn_start_time ch) (in_churn_queue ch).
Definition set_subscribers (ch : memstore_channel_head_t) (n ni seen : Z) (sh : option store_channel_head_shm_t)
    (delta : Z) : memstore_channel_head_t :=
  CH (owner ch) (slot ch) (status ch) n ni seen
     (reserved ch) (multi ch) sh (max_messages ch) (msg_first ch) (msg_last ch) (latest_msgid ch)
     (foreign_owner_ipc_sub ch) (redis_idle_cache_ttl ch) (stub ch) (shutting_down ch) (msg_buffer_complete ch)
     (cf ch) (groupnode ch) delta (gc_start_time ch) (gc_queued_times ch) (in_gc_queue ch)
     (churn_start_time ch) (in_churn_queue ch).
Definition set_shared (ch : memstore_channel_head_t) (sh : option store_channel_head_shm_t) : memstore_channel_head_t :=
  set_subscribers ch (sub_count ch) (internal_sub_count ch) (last_subscribed_local ch) sh (delta_fakesubs ch).

Section updates.
Context {S : Type}.
Notation worker := (worker S).

Definition set_store (w : worker) (s : S) : worker :=
  Worker s (heads w) (multis w) (spooling w) (fakesub_timers w) (redis_subs w) (hash w) (queues w)
    (chanhead_reaper w) (chanhead_churner w) (life_log w).
Definition set_heads (w : worker) (m : gmap positive memstore_channel_head_t) : worker :=
  Worker (wstore w) m (multis w) (spooling w) (fakesub_timers w) (redis_subs w) (hash w) (queues w)
    (chanhead_reaper w) (chanhead_churner w) (life_log w).
Definition put_head (w : worker) (x : positive) (ch : memstore_channel_head_t) : worker :=
  set_heads w (<[x := ch]> (heads w)).
Definition put_multi (w : worker) (x : positive) (m : multi_state) : worker :=
  Worker (wstore w) (heads w) (<[x := m]> (multis w)) (spooling w) (fakesub_timers w) (redis_subs w) (hash w)
    (queues w) (chanhead_reaper w) (chanhead_churner w) (life_log w).
Definition set_spooling (w : worker) (x : positive) (b : bool) : worker :=
  Worker (wstore w) (heads w) (multis w) (if b then {[x]} ∪ spooling w else spooling w ∖ {[x]}) (fakesub_timers w)
    (redis_subs w) (hash w) (queues w) (chanhead_reaper w) (chanhead_churner w) (life_log w).
Definition set_fakesub_timer (w : worker) (x : positive) (b : bool) : worker :=
  Worker (wstore w) (heads w) (multis w) (spooling w)
    (if b then {[x]} ∪ fakesub_timers w else fakesub_timers w ∖ {[x]})
    (redis_subs w) (hash w) (queues w) (chanhead_reaper w) (chanhead_churner w) (life_log w).
Definition drop_redis_sub (w : worker) (x : positive) : worker :=
  Worker (wstore w) (heads w) (multis w) (spooling w) (fakesub_timers w) (delete x (redis_subs w)) (hash w)
    (queues w) (chanhead_reaper w) (chanhead_churner w) (life_log w).
Definition note (w : worker) (es : list life_event) : worker :=
  Worker (wstore w) (heads w) (multis w) (spooling w) (fakesub_timers w) (redis_subs w) (hash w) (queues w)
    (chanhead_reaper w) (chanhead_churner w) (life_log w ++ es).
Definition CHANNEL_HASH_DEL (w : worker) (x : positive) : worker :=
  Worker (wstore w) (heads w) (multis w) (spooling w) (fakesub_timers w) (redis_subs w)
    (filter (fun e => e.2 <> x) (hash w)) (queues w) (chanhead_reaper w) (chanhead_churner w) (life_log w).

(** [ngx_free(ch->multi); ngx_free(ch)]: the head and its links are gone. *)
Definition free_head (w : worker) (x : positive) : worker :=
  Worker (wstore w) (delete x (heads w)) (delete x (multis w)) (spooling w) (fakesub_timers w) (redis_subs w)
    (hash w) (dealloc GC_PREV GC_NEXT (dealloc CHURN_PREV CHURN_NEXT (queues w) x) x)
    (chanhead_reaper w) (chanhead_churner w) (life_log w).

Definition get_head (w : worker) (x : positive) : outcome memstore_channel_head_t :=
  match heads w !! x with Some ch => Ret ch | None => Crash end.

(** A worker as its two reapers see it. *)
Definition to_gc (w : worker) : reaper_world worker := RWorld (queues w) (chanhead_reaper w) w.
Definition to_churn (w : worker) : reaper_world worker := RWorld (queues w) (chanhead_churner w) w.
Definition of_gc (r : reaper_world worker) : worker :=
  let w := env r in
  Worker (wstore w) (heads w) (multis w) (spooling w) (fakesub_timers w) (redis_subs w) (hash w) (links r)
    (rp r) (chanhead_churner w) (life_log w).
Definition of_churn (r : reaper_world worker) : worker :=
  let w := env r in
  Worker (wstore w) (heads w) (multis w) (spooling w) (fakesub_timers w) (redis_subs w) (hash w) (links r)
    (chanhead_reaper w) (rp r) (life_log w).
End updates.

(** [head->cf && head->cf->redis.enabled]: a stub has no configuration. *)
Definition has_redis (ch : memstore_channel_head_t) : bool := negb (stub ch) && redis_enabled (cf ch).
Definition has_distributed_redis (ch : memstore_channel_head_t) : bool := has_redis ch && redis_distributed (cf ch).

Section life.
Context {S : Type} `{ChannelStore S}.
Notation worker := (worker S).
(** This worker, the cached time, [ngx_exiting || ngx_quit], and the interval
    for reporting subscribers to Redis, 0 for at once. *)
Context (memstore_slot now : Z) (exiting : bool) (redis_fakesub_timer_interval : Z).
(** [spooler.fn->broadcast_status] with [NGX_HTTP_GONE], on a channel that has
    subscribers: the pools of Spool.v, whose subscribers then leave. *)
Context (broadcast_gone : worker -> positive -> outcome worker).

(** ** When a head can be reaped *)

Definition messages_gc (w : worker) (x : positive) : outcome worker :=
  ch ← get_head w x;
  '(s, ch') ← store_messages_gc now (wstore w) ch;
  Ret (put_head (set_store w s) x ch').

Definition memstore_chanhead_reserved_or_in_use (ch : memstore_channel_head_t) : outcome bool :=
  if 0 <? sub_count ch then Ret true
  else if 0 <? reserved ch then Ret true
  else
    '(r : bool) ←
      (if has_redis ch && (churn_start_time ch + redis_idle_cache_ttl ch <? now) then Ret false
       else match shared ch with
            | Some sh => if 0 <? stored_message_count sh
                         then c_assert (bool_decide (msg_first ch <> None));; Ret true
                         else Ret false
            | None => Ret false
            end);
    if r then Ret true
    else match shared ch with
         | Some sh => Ret ((owner ch =? slot ch) && (0 <? outside_refcount sh))
         | None => Ret false
         end.

Definition nchan_memstore_chanhead_ready_to_reap (w : worker) (x : positive) (force : bool) : outcome (worker * bool) :=
  w1 ← messages_gc w x;
  if force then Ret (w1, true)
  else
    ch ← get_head w1 x;
    if negb (bool_decide (status ch = INACTIVE)) then Ret (w1, false)
    else if 0 <? gc_start_time ch + NCHAN_CHANHEAD_EXPIRE_SEC - now then Ret (w1, false)
    else used ← memstore_chanhead_reserved_or_in_use ch; Ret (w1, negb used).

Definition nchan_memstore_chanhead_ready_to_reap_slowly (w : worker) (x : positive) (force : bool) :
    outcome (worker * bool) :=
  w1 ← messages_gc w x;
  if force then Ret (w1, true)
  else
    ch ← get_head w1 x;
    if 0 <? churn_start_time ch + NCHAN_CHANHEAD_EXPIRE_SEC - now then Ret (w1, false)
    else used ← memstore_chanhead_reserved_or_in_use ch; Ret (w1, negb used).

(** ** The two queues *)

(** What reaping does comes back to the queues, so it is an argument here. *)
Section queues.
Context (reap : worker -> positive -> outcome worker).

Definition gc_reap (r : reaper_world worker) (x : positive) : outcome (reaper_world worker) :=
  w ← reap (of_gc r) x; Ret (to_gc w).
Definition churn_reap (r : reaper_world worker) (x : positive) : outcome (reaper_world worker) :=
  w ← reap (of_churn r) x; Ret (to_churn w).

Definition chanhead_churner_add (w : worker) (x : positive) : outcome worker :=
  ch ← get_head w x;
  c_assert (owner ch =? slot ch);;
  c_assert (shutting_down ch || negb (foreign_owner_ipc_sub ch));;
  c_assert (negb (in_gc_queue ch));;
  if in_churn_queue ch then Ret w
  else
    let w1 := put_head w x (set_queued ch (status ch) (gc_start_time ch) (gc_queued_times ch) (in_gc_queue ch) now true) in
    r ← nchan_reaper_add nchan_memstore_chanhead_ready_to_reap_slowly churn_reap exiting (to_churn w1) x;
    Ret (of_churn r).

Definition chanhead_churner_withdraw (w : worker) (x : positive) : outcome worker :=
  ch ← get_head w x;
  if in_churn_queue ch then
    let w1 := put_head w x (set_queued ch (status ch) (gc_start_time ch) (gc_queued_times ch) (in_gc_queue ch)
                              (churn_start_time ch) false) in
    r ← nchan_reaper_withdraw (to_churn w1) x;
    Ret (of_churn r)
  else Ret w.

Definition chanhead_gc_add (w : worker) (x : positive) : outcome worker :=
  ch0 ← get_head w x;
  c_assert (shutting_down ch0 || negb (foreign_owner_ipc_sub ch0));;
  let outside := negb (slot ch0 =? owner ch0) && bool_decide (is_Some (shared ch0)) in
  let ch := if outside then set_shared ch0 None else ch0 in
  let w := if outside then note (put_head w x ch) [outside_unref x] else w in
  if bool_decide (status ch = WAITING) && negb (has_redis ch) && negb exiting then Ret w
  else
    c_assert (slot ch =? memstore_slot);;
    if in_gc_queue ch then Ret w
    else
      let w1 := put_head w x (set_queued ch INACTIVE now (gc_queued_times ch + 1) (in_gc_queue ch)
                                (churn_start_time ch) (in_churn_queue ch)) in
      w2 ← chanhead_churner_withdraw w1 x;
      ch2 ← get_head w2 x;
      let w3 := put_head w2 x (set_queued ch2 (status ch2) (gc_start_time ch2) (gc_queued_times ch2) true
                                 (churn_start_time ch2) (in_churn_queue ch2)) in
      r ← nchan_reaper_add nchan_memstore_chanhead_ready_to_reap gc_reap exiting (to_gc w3) x;
      Ret (of_gc r).

Definition chanhead_gc_withdraw (w : worker) (x : positive) : outcome worker :=
  ch ← get_head w x;
  w1 ← (if in_gc_queue ch then
          r ← nchan_reaper_withdraw (to_gc w) x;
          let w1 := of_gc r in
          ch1 ← get_head w1 x;
          Ret (put_head w1 x (set_queued ch1 (status ch1) (gc_start_time ch1) (gc_queued_times ch1) false
                                (churn_start_time ch1) (in_churn_queue ch1)))
        else Ret w);
  if owner ch =? slot ch then chanhead_churner_add w1 x else Ret w1.

(** ** Subscribers come and go *)

Definition shared_subscribers (sh : store_channel_head_shm_t) (n ni : Z) : store_channel_head_shm_t :=
  Shared (u64 (shared_sub_count sh + n)) (u64 (shared_internal_sub_count sh + ni)) (total_message_count sh)
    (stored_message_count sh) (last_seen sh) (outside_refcount sh).

Definition CHANHEAD_SHARED_OKAY (ch : memstore_channel_head_t) : bool :=
  bool_decide (status ch = READY) || bool_decide (status ch = STUBBED) ||
  (negb (stub ch) && redis_enabled (cf ch) && bool_decide (status ch = WAITING) && (owner ch =? slot ch)).

Definition memstore_fakesub_add (w : worker) (x : positive) (n : Z) : outcome worker :=
  ch ← get_head w x;
  c_assert (redis_distributed (cf ch));;
  if redis_fakesub_timer_interval =? 0 then Ret (note w [redis_fakesub_add x n])
  else
    let w1 := put_head w x (set_subscribers ch (sub_count ch) (internal_sub_count ch) (last_subscribed_local ch)
                              (shared ch) (delta_fakesubs ch + n)) in
    if negb (bool_decide (x ∈ fakesub_timers w1)) && negb (shutting_down ch) && negb exiting
    then Ret (set_fakesub_timer w1 x true) else Ret w1.

Definition memstore_spooler_use_handler (w : worker) (x : positive) : outcome worker :=
  ch ← get_head w x;
  Ret (put_head w x (set_subscribers ch (sub_count ch) (internal_sub_count ch) now
    ((fun sh => Shared (shared_sub_count sh) (shared_internal_sub_count sh) (total_message_count sh)
                  (stored_message_count sh) now (outside_refcount sh)) <$> shared ch) (delta_fakesubs ch))).

(** [change_sub_count] of subscribers/memstore_multi.c, on a channel of a
    multiplexed one. *)
Definition change_sub_count (w : worker) (x : positive) (n : Z) : outcome worker :=
  ch ← get_head w x;
  let w1 := put_head w x (set_subscribers ch (sub_count ch + n) (internal_sub_count ch) (last_subscribed_local ch)
              ((fun sh => shared_subscribers sh n 0) <$> shared ch) (delta_fakesubs ch)) in
  c_assert (negb (stub ch));;
  if has_distributed_redis ch then memstore_fakesub_add w1 x n else Ret w1.

(** [msub->fn->notify(msub, NCHAN_SUB_MULTI_NOTIFY_ADDSUB, n)] for each of them. *)
Fixpoint notify_multi (w : worker) (subs : list (option positive)) (n : Z) : outcome worker :=
  match subs with
  | [] => Ret w
  | None :: subs => notify_multi w subs n
  | Some t :: subs => w1 ← change_sub_count w t n; notify_multi w1 subs n
  end.

Definition multi_subs_of (w : worker) (x : positive) : list (option positive) :=
  match multis w !! x with Some m => multi_subs m | None => [] end.

Definition group_add_subscribers (w : worker) (ch : memstore_channel_head_t) (n : Z) : outcome worker :=
  match groupnode ch with
  | None => Ret w
  | Some _ => s ← store_group_add_subscribers (wstore w) ch n; Ret (set_store w s)
  end.

Definition memstore_spooler_add_handler (w : worker) (x : positive) (internal : bool) : outcome worker :=
  ch ← get_head w x;
  let shared_okay := c_assert (negb (bool_decide (is_Some (shared ch))) || CHANHEAD_SHARED_OKAY ch) in
  w' ←
    (if internal then
       shared_okay;;
       Ret (put_head w x (set_subscribers ch (sub_count ch + 1) (internal_sub_count ch + 1) (last_subscribed_local ch)
              ((fun sh => shared_subscribers sh 0 1) <$> shared ch) (delta_fakesubs ch)))
     else
       shared_okay;;
       let w1 := put_head w x (set_subscribers ch (sub_count ch + 1) (internal_sub_count ch) (last_subscribed_local ch)
                   ((fun sh => shared_subscribers sh 1 0) <$> shared ch) (delta_fakesubs ch)) in
       w2 ← (if has_distributed_redis ch && negb (multi ch) then memstore_fakesub_add w1 x 1 else Ret w1);
       w3 ← group_add_subscribers (note w2 [stats_subscribers 1]) ch 1;
       if multi ch then notify_multi w3 (multi_subs_of w3 x) 1 else Ret w3);
  ch' ← get_head w' x;
  c_assert (internal_sub_count ch' <=? sub_count ch');;
  Ret w'.

Definition memstore_spooler_bulk_dequeue_handler (w : worker) (x : positive) (internal : bool) (count : Z) : outcome worker :=
  ch ← get_head w x;
  w' ←
    (if internal then
       Ret (put_head w x (set_subscribers ch (sub_count ch) (internal_sub_count ch - count) (last_subscribed_local ch)
              ((fun sh => shared_subscribers sh 0 (- count)) <$> shared ch) (delta_fakesubs ch)))
     else
       let w1 := put_head w x (set_shared ch ((fun sh => shared_subscribers sh (- count) 0) <$> shared ch)) in
       w2 ← (if has_distributed_redis ch && negb (multi ch) then memstore_fakesub_add w1 x (- count) else Ret w1);
       let w3 := note w2 [stats_subscribers (- count)] in
       w4 ← (if multi ch then notify_multi w3 (multi_subs_of w3 x) (- count) else Ret w3);
       group_add_subscribers w4 ch (- count));
  ch' ← get_head w' x;
  let n := sub_count ch' - count in
  let w2 := put_head w' x (set_subscribers ch' n (internal_sub_count ch') (last_subscribed_local ch') (shared ch')
                             (delta_fakesubs ch')) in
  c_assert (0 <=? n);;
  c_assert (0 <=? internal_sub_count ch');;
  c_assert (internal_sub_count ch' <=? n);;
  if (n =? 0) && negb (foreign_owner_ipc_sub ch') then chanhead_gc_add w2 x else Ret w2.

(** [sub->fn->dequeue] of the internal subscriber that the multiplexed head [x]
    has in its [i]th channel, the head [t]: [sub_dequeue] of
    subscribers/memstore_multi.c, then the pool that held it tells [t]. *)
Definition multi_sub_dequeue (w : worker) (x : positive) (i : nat) (t : positive) : outcome worker :=
  ch ← get_head w x;
  match multis w !! x with
  | None => Crash
  | Some m =>
      let w1 := put_multi (put_head w x (set_status ch WAITING)) x
                  (MultiState (u8 (multi_subscribers_pending m + 1)) (<[i := None]> (multi_subs m))) in
      memstore_spooler_bulk_dequeue_handler w1 t true 1
  end.

(** The loop over [ch->multi[i]], from [i] on. *)
Fixpoint dequeue_multi_subs (w : worker) (x : positive) (i : nat) (n : nat) : outcome worker :=
  match n with
  | O => Ret w
  | Datatypes.S n' =>
      w1 ← (match multi_subs_of w x !! i with
            | Some (Some t) => multi_sub_dequeue w x i t
            | _ => Ret w
            end);
      dequeue_multi_subs w1 x (Datatypes.S i) n'
  end.
End queues.

(** ** Reaping a head *)

Definition send_redis_fakesub_delta (w : worker) (x : positive) : outcome worker :=
  ch ← get_head w x;
  if delta_fakesubs ch =? 0 then Ret w
  else Ret (note (put_head w x (set_subscribers ch (sub_count ch) (internal_sub_count ch) (last_subscribed_local ch)
                                  (shared ch) 0)) [redis_fakesub_add x (delta_fakesubs ch)]).

Definition delta_fakesubs_timer_handler (w : worker) (x : positive) (timedout : bool) : outcome worker :=
  ch ← get_head w x;
  w1 ← send_redis_fakesub_delta (set_fakesub_timer w x false) x;
  Ret (if negb (delta_fakesubs ch =? 0) && negb exiting && timedout then set_fakesub_timer w1 x true else w1).

(** The part that does not concern multiplexed heads. *)
Definition reap_one (w : worker) (x : positive) : outcome worker :=
  ch0 ← get_head w x;
  '(s, ch1) ← store_messages_delete now (wstore w) ch0;
  let w1 := put_head (set_store w s) x ch1 in
  w2 ← (if 0 <? sub_count ch1 then broadcast_gone w1 x else Ret w1);
  let w3 := set_spooling w2 x false in
  ch ← get_head w3 x;
  w4 ← (if has_distributed_redis ch && negb (multi ch)
        then w ← send_redis_fakesub_delta w3 x; Ret (set_fakesub_timer w x false) else Ret w3);
  let w5 := if owner ch =? memstore_slot
            then note w4 ([stats_channels (-1)] ++ match shared ch with Some _ => [shared_freed x] | None => [] end) else w4 in
  let w6 := CHANNEL_HASH_DEL w5 x in
  let w7 := match (redis_subs w6 !! x : option bool) with
            | Some enqueued => drop_redis_sub (note w6 ((if enqueued then [redis_sub_dequeued x] else []) ++
                                                        [redis_sub_destroyed x])) x
            | None => w6
            end in
  match groupnode ch with
  | Some _ => s ← store_group_leave (wstore w7) x ch (owner ch =? memstore_slot); Ret (set_store w7 s)
  | None => Ret w7
  end.

(** [fuel]: a head that is put into a queue may be reaped at once. *)
Fixpoint memstore_reap_chanhead (fuel : nat) (w : worker) (x : positive) : outcome worker :=
  match fuel with
  | O => NoFuel
  | Datatypes.S fuel' =>
      w1 ← reap_one w x;
      ch ← get_head w1 x;
      w2 ← (if multi ch then dequeue_multi_subs (memstore_reap_chanhead fuel') w1 x 0 (length (multi_subs_of w1 x))
            else Ret w1);
      Ret (free_head w2 x)
  end.

(** ** Ticks of the two reapers *)

Context (fuel : nat).

(** nginx clears [timer_set] before it calls [reaper_timer_handler]. *)
Definition clear_gc_timer (w : worker) : worker := of_gc (set_rp (to_gc w) (set_timer (chanhead_reaper w) false)).
Definition clear_churn_timer (w : worker) : worker := of_churn (set_rp (to_churn w) (set_timer (chanhead_churner w) false)).

Definition chanhead_reaper_tick (scan : nat) (w : worker) : outcome worker :=
  r ← reaper_timer_handler nchan_memstore_chanhead_ready_to_reap (gc_reap (memstore_reap_chanhead fuel)) exiting scan
        (to_gc (clear_gc_timer w));
  Ret (of_gc r).

Definition chanhead_churner_tick (scan : nat) (w : worker) : outcome worker :=
  r ← reaper_timer_handler nchan_memstore_chanhead_ready_to_reap_slowly (churn_reap (memstore_reap_chanhead fuel)) exiting scan
        (to_churn (clear_churn_timer w));
  Ret (of_churn r).
End life.
