(* ===== verification/ChanLifeFacts.v ===== *)
(** * Facts about the life of channel heads

    The two queues of a worker hold exactly the heads whose flags say so, each
    head is in one of them at most, and the internal subscribers of multiplexed
    heads are accounted for.  Garbage collection keeps this, although reaping a
    multiplexed head puts other heads into the queue that is being scanned; it
    frees only heads that nothing uses, and every such head. *)

From S2P Require Import Prelude Nginx MsgId DList ChanHead Reaper ReaperFacts ChanLife.

(** ** What the store promises *)

(** What the buffers and the groups depend on of a head. *)
Definition messages_of (ch : memstore_channel_head_t) :=
  (owner ch, slot ch, msg_first ch, msg_last ch, max_messages ch, groupnode ch,
   if owner ch =? slot ch then (fun sh => (stored_message_count sh, total_message_count sh)) <$> shared ch else None).

Definition same_shared (o o' : option store_channel_head_shm_t) : Prop :=
  match o, o' with
  | Some a, Some b =>
      shared_sub_count b = shared_sub_count a /\ shared_internal_sub_count b = shared_internal_sub_count a /\
      outside_refcount b = outside_refcount a /\ stored_message_count b <= stored_message_count a
  | None, None => True
  | _, _ => False
  end.

(** Collecting messages changes the buffer of a head, and lowers its count. *)
Definition collected (ch ch' : memstore_channel_head_t) : Prop :=
  ch' = set_buffer ch (msg_first ch') (msg_last ch') (shared ch') /\ same_shared (shared ch) (shared ch').

Class ChannelStoreLaws (S : Type) `{ChannelStore S} (me now : Z) := {
  store_ok : S -> gmap positive memstore_channel_head_t -> Prop;
  gc_law s hs x ch : store_ok s hs -> hs !! x = Some ch -> slot ch = me ->
    exists s' ch', store_messages_gc now s ch = Ret (s', ch') /\ collected ch ch' /\ store_ok s' (<[x := ch']> hs);
  delete_law s hs x ch : store_ok s hs -> hs !! x = Some ch -> slot ch = me ->
    exists s' ch', store_messages_delete now s ch = Ret (s', ch') /\ collected ch ch' /\ store_ok s' (<[x := ch']> hs);
  leave_law s hs x ch : store_ok s hs -> hs !! x = Some ch -> is_Some (groupnode ch) ->
    exists s', store_group_leave s x ch (owner ch =? me) = Ret s' /\ store_ok s' (delete x hs);
  same_law s hs x ch ch' : store_ok s hs -> hs !! x = Some ch -> messages_of ch' = messages_of ch ->
    store_ok s (<[x := ch']> hs);
  drop_law s hs x : store_ok s hs -> store_ok s (delete x hs);
  counted_law s hs x ch sh : store_ok s hs -> hs !! x = Some ch -> shared ch = Some sh ->
    owner ch = slot ch -> 0 < stored_message_count sh -> msg_first ch <> None;
}.

Section facts.
Context {S : Type} (me now : Z) `{CS : ChannelStore S} `{!ChannelStoreLaws S me now}.
Context (exiting : bool) (interval : Z) (broadcast_gone : worker S -> positive -> outcome (worker S)).
Notation worker := (worker S).

(** ** The invariant *)

Definition queued_gc (w : worker) (x : positive) : Prop :=
  exists ch, heads w !! x = Some ch /\ in_gc_queue ch = true.
Definition queued_churn (w : worker) (x : positive) : Prop :=
  exists ch, heads w !! x = Some ch /\ in_churn_queue ch = true.

Record head_ok (ch : memstore_channel_head_t) : Prop := {
  ho_slot : slot ch = me;
  ho_counts : 0 <= internal_sub_count ch <= sub_count ch;
  ho_one_queue : in_gc_queue ch = true -> in_churn_queue ch = false;
  ho_churn : in_churn_queue ch = true -> owner ch = slot ch;
  ho_foreign : in_gc_queue ch = true -> owner ch <> slot ch -> shared ch = None;
}.

(** The internal subscribers of multiplexed heads: whose, the how manieth, and
    in which head. *)
Notation ref := (positive * nat * positive)%type.
Definition in_head (t : positive) (r : ref) : Prop := r.2 = t.
Global Instance in_head_dec t r : Decision (in_head t r).
Proof. unfold in_head. apply _. Defined.
Definition held (refs : list ref) (t : positive) : Z := Z.of_nat (length (filter (in_head t) refs)).

Definition known (X : gset positive) (hs : gmap positive memstore_channel_head_t) : gmap positive memstore_channel_head_t :=
  filter (fun e => e.1 ∉ X) hs.

(** The worker [w], in which the heads [D] have been taken out of the queues and
    the heads [X] have left the store, to be freed. *)
Record life_inv (D X : gset positive) (w : worker) (gl cl : list positive) (refs : list ref) : Prop := {
  li_gc : reaper_rep (to_gc w) gl;
  li_churn : reaper_rep (to_churn w) cl;
  li_gc_conf : same_reaper new_chanhead_reaper (chanhead_reaper w);
  li_churn_conf : same_reaper new_chanhead_churner (chanhead_churner w);
  li_placed : placed (to_churn w) cl;
  li_in_gc : forall x, x ∈ gl <-> x ∉ D /\ queued_gc w x;
  li_in_churn : forall x, x ∈ cl <-> x ∉ D /\ queued_churn w x;
  li_live : forall x, is_Some (heads w !! x) ->
    live GC_PREV GC_NEXT (queues w) x /\ live CHURN_PREV CHURN_NEXT (queues w) x;
  li_head : forall x ch, heads w !! x = Some ch -> head_ok ch;
  li_store : store_ok (wstore w) (known X (heads w));
  li_refs : NoDup refs;
  li_refs_iff : forall x i t, (x, i, t) ∈ refs <-> multi_subs_of w x !! i = Some (Some t);
  li_multi : forall x i t, (x, i, t) ∈ refs -> (exists ch, heads w !! x = Some ch /\ multi ch = true) /\ is_Some (heads w !! t);
  li_held : forall t ch, heads w !! t = Some ch -> held refs t <= internal_sub_count ch;
}.

(** The parts of a worker the invariant looks at. *)
Definition same_core (w w' : worker) : Prop :=
  wstore w' = wstore w /\ heads w' = heads w /\ multis w' = multis w /\ queues w' = queues w /\
  chanhead_reaper w' = chanhead_reaper w /\ chanhead_churner w' = chanhead_churner w.

Lemma inv_core D X w w' gl cl refs : same_core w w' -> life_inv D X w gl cl refs -> life_inv D X w' gl cl refs.
Proof.
  intros (E1 & E2 & E3 & E4 & E5 & E6) []. unfold queued_gc, queued_churn, multi_subs_of, to_gc, to_churn in *.
  split; unfold queued_gc, queued_churn, multi_subs_of, to_gc, to_churn; rewrite ?E1, ?E2, ?E3, ?E4, ?E5, ?E6; try done.
  - by destruct li_gc0.
  - by destruct li_churn0.
Qed.

(** What may change of a head while it is in the queues. *)
Definition same_place (ch ch' : memstore_channel_head_t) : Prop :=
  in_gc_queue ch' = in_gc_queue ch /\ in_churn_queue ch' = in_churn_queue ch.

Lemma known_insert X hs x ch : x ∉ X -> known X (<[x := ch]> hs) = <[x := ch]> (known X hs).
Proof. intros. unfold known. by rewrite map_filter_insert_True. Qed.

Lemma known_insert_out X hs x ch : x ∈ X -> known X (<[x := ch]> hs) = known X hs.
Proof.
  intros. unfold known. apply map_eq. intros i. apply option_eq. intros c.
  rewrite !map_lookup_filter_Some. destruct (decide (i = x)) as [->|]; [|by rewrite lookup_insert_ne].
  split; intros [_ N]; by destruct N.
Qed.

Lemma known_lookup X hs x ch : x ∉ X -> hs !! x = Some ch -> known X hs !! x = Some ch.
Proof. intros. unfold known. by apply map_lookup_filter_Some. Qed.

Lemma inv_put D X w gl cl refs x ch ch' s' :
  life_inv D X w gl cl refs -> heads w !! x = Some ch ->
  store_ok s' (known X (<[x := ch']> (heads w))) -> head_ok ch' -> same_place ch ch' \/ x ∈ D ->
  held refs x <= internal_sub_count ch' -> multi ch' = multi ch ->
  life_inv D X (put_head (set_store w s') x ch') gl cl refs.
Proof.
  intros I Hx Hs Hok Hp Hi Hm. destruct I. split; simpl; try done.
  - by destruct li_gc0.
  - by destruct li_churn0.
  - intros y. rewrite li_in_gc0. unfold queued_gc. simpl. destruct (decide (y = x)) as [->|]; [|by rewrite lookup_insert_ne].
    rewrite lookup_insert_eq. split; intros [N (c & E & F)]; simplify_eq; (split; [done|]);
      (destruct Hp as [[P1 P2]|]; [|done]); eexists; (split; [done|congruence]).
  - intros y. rewrite li_in_churn0. unfold queued_churn. simpl. destruct (decide (y = x)) as [->|]; [|by rewrite lookup_insert_ne].
    rewrite lookup_insert_eq. split; intros [N (c & E & F)]; simplify_eq; (split; [done|]);
      (destruct Hp as [[P1 P2]|]; [|done]); eexists; (split; [done|congruence]).
  - intros y Hy. apply li_live0. destruct (decide (y = x)) as [->|]; [eauto|]. by rewrite lookup_insert_ne in Hy.
  - intros y c Hy. destruct (decide (y = x)) as [->|]; [rewrite lookup_insert_eq in Hy; by simplify_eq|].
    rewrite lookup_insert_ne in Hy by done. eauto.
  - intros y i t Hr. destruct (li_multi0 y i t Hr) as [(c & E & F) T]. split.
    + destruct (decide (y = x)) as [->|]; [|by exists c; rewrite lookup_insert_ne].
      exists ch'. rewrite lookup_insert_eq. split; [done|congruence].
    + destruct (decide (t = x)) as [->|]; [by rewrite lookup_insert_eq|by rewrite lookup_insert_ne].
  - intros t c Ht. destruct (decide (t = x)) as [->|]; [|rewrite lookup_insert_ne in Ht by done; eauto].
    rewrite lookup_insert_eq in Ht. by simplify_eq.
Qed.

Lemma get_head_Some (w : worker) x ch : heads w !! x = Some ch -> get_head w x = Ret ch.
Proof. unfold get_head. by intros ->. Qed.

(** ** Being ready *)

(** Other workers that refer to the shared data of a head of this worker. *)
Definition outside_of (ch : memstore_channel_head_t) : Z :=
  match shared ch with Some sh => if owner ch =? slot ch then outside_refcount sh else 0 | None => 0 end.
Definition stored_of (ch : memstore_channel_head_t) : Z :=
  match shared ch with Some sh => if owner ch =? slot ch then stored_message_count sh else 0 | None => 0 end.

Definition unused (ch : memstore_channel_head_t) : Prop := sub_count ch <= 0 /\ reserved ch <= 0 /\ outside_of ch <= 0.

Lemma in_use_spec ch :
  owner ch = slot ch \/ shared ch = None ->
  (forall sh, shared ch = Some sh -> 0 < stored_message_count sh -> msg_first ch <> None) ->
  exists b, memstore_chanhead_reserved_or_in_use now ch = Ret b /\ (b = false -> unused ch) /\
    (unused ch -> stored_of ch <= 0 -> b = false).
Proof.
  intros Eo C. unfold memstore_chanhead_reserved_or_in_use, unused, outside_of, stored_of.
  destruct (Z.ltb_spec 0 (sub_count ch)); [exists true; split_and!; [done|done|lia]|].
  destruct (Z.ltb_spec 0 (reserved ch)); [exists true; split_and!; [done|done|lia]|].
  destruct (shared ch) as [sh|] eqn:Es.
  - assert (owner ch =? slot ch = true) as -> by (destruct Eo as [->|]; [apply Z.eqb_refl|done]).
    destruct (has_redis ch && (churn_start_time ch + redis_idle_cache_ttl ch <? now)).
    + rewrite bind_Ret. exists (0 <? outside_refcount sh). split; [done|].
      destruct (Z.ltb_spec 0 (outside_refcount sh)); simpl; split; intros; try done; lia.
    + destruct (Z.ltb_spec 0 (stored_message_count sh)) as [Hp|Hp].
      * rewrite bool_decide_eq_true_2 by eauto. exists true. split_and!; [done|done|lia].
      * rewrite bind_Ret. exists (0 <? outside_refcount sh). split; [done|].
        destruct (Z.ltb_spec 0 (outside_refcount sh)); simpl; split; intros; try done; lia.
  - exists false. destruct (_ && _); rewrite bind_Ret; split_and!; try done; lia.
Qed.

(** A head that garbage collection frees: it is inactive and has waited long
    enough, and nothing uses it. *)
Definition expired_idle (ch : memstore_channel_head_t) : Prop :=
  status ch = INACTIVE /\ gc_start_time ch + NCHAN_CHANHEAD_EXPIRE_SEC <= now.

Lemma collected_fields ch ch' : collected ch ch' ->
  owner ch' = owner ch /\ slot ch' = slot ch /\ status ch' = status ch /\ sub_count ch' = sub_count ch /\
  internal_sub_count ch' = internal_sub_count ch /\ reserved ch' = reserved ch /\ multi ch' = multi ch /\
  gc_start_time ch' = gc_start_time ch /\ churn_start_time ch' = churn_start_time ch /\
  in_gc_queue ch' = in_gc_queue ch /\ in_churn_queue ch' = in_churn_queue ch /\
  foreign_owner_ipc_sub ch' = foreign_owner_ipc_sub ch /\ shutting_down ch' = shutting_down ch /\
  groupnode ch' = groupnode ch /\ outside_of ch' = outside_of ch /\ stored_of ch' <= stored_of ch /\
  (shared ch = None -> shared ch' = None).
Proof.
  intros [E Sh]. unfold outside_of, stored_of. unfold same_shared in Sh. rewrite E. simpl.
  split_and!; try done; destruct (shared ch), (shared ch'); try done.
  - destruct Sh as (_ & _ & -> & _). done.
  - destruct (owner ch =? slot ch); lia.
Qed.

Lemma head_ok_collected ch ch' : collected ch ch' -> head_ok ch -> head_ok ch'.
Proof.
  intros C []. destruct (collected_fields _ _ C) as (E1 & E2 & _ & E4 & E5 & _ & _ & _ & _ & E10 & E11 & _ & _ & _ & _ & _ & E).
  split; rewrite ?E1, ?E2, ?E4, ?E5, ?E10, ?E11; auto.
Qed.

Lemma messages_gc_ok D X w gl cl refs x ch :
  life_inv D X w gl cl refs -> heads w !! x = Some ch -> x ∉ X ->
  exists s' ch', messages_gc now w x = Ret (put_head (set_store w s') x ch') /\ collected ch ch' /\
    life_inv D X (put_head (set_store w s') x ch') gl cl refs.
Proof.
  intros I Hx NX. pose proof (li_head _ _ _ _ _ _ I x ch Hx) as Ho.
  destruct (gc_law (wstore w) (known X (heads w)) x ch) as (s' & ch' & Q & C & Ok);
    [apply I|by apply known_lookup|apply Ho|].
  exists s', ch'. unfold messages_gc, get_head. rewrite Hx, bind_Ret, Q, bind_Ret. split; [done|]. split; [done|].
  pose proof (collected_fields _ _ C) as F.
  eapply inv_put; [done|exact Hx|by rewrite known_insert|by eapply head_ok_collected|left; split; apply F| |apply F].
  destruct F as (_ & _ & _ & _ & -> & _). by eapply li_held.
Qed.

Lemma counted D X w gl cl refs x ch :
  life_inv D X w gl cl refs -> heads w !! x = Some ch -> x ∉ X ->
  in_gc_queue ch = true \/ owner ch = slot ch ->
  forall sh, shared ch = Some sh -> 0 < stored_message_count sh -> msg_first ch <> None.
Proof.
  intros I Hx NX Q sh Es Hp. destruct (decide (owner ch = slot ch)) as [Eo|No].
  - eapply counted_law; [apply I|by apply known_lookup|done..].
  - destruct Q as [Q|]; [|done]. rewrite (ho_foreign _ (li_head _ _ _ _ _ _ I x ch Hx)) in Es; done.
Qed.

(** The check of the garbage collection queue on a head that is in it. *)
Lemma ready_to_reap_ok D X w gl cl refs x ch :
  life_inv D X w gl cl refs -> heads w !! x = Some ch -> x ∉ X -> in_gc_queue ch = true ->
  exists s' ch' b, nchan_memstore_chanhead_ready_to_reap now w x false = Ret (put_head (set_store w s') x ch', b) /\
    collected ch ch' /\ life_inv D X (put_head (set_store w s') x ch') gl cl refs /\
    (b = true -> expired_idle ch' /\ unused ch') /\
    (expired_idle ch' -> unused ch' -> stored_of ch' <= 0 -> b = true) /\
    (gc_start_time ch = now -> b = false).
Proof.
  intros I Hx NX Hq. destruct (messages_gc_ok _ _ _ _ _ _ _ _ I Hx NX) as (s' & ch' & Q & C & I').
  exists s', ch'. unfold nchan_memstore_chanhead_ready_to_reap. rewrite Q, bind_Ret. unfold get_head.
  assert (heads (put_head (set_store w s') x ch') !! x = Some ch') as Hx' by apply lookup_insert_eq.
  rewrite Hx', bind_Ret. pose proof (collected_fields _ _ C) as (F1 & F2 & F3 & F4 & F5 & F6 & F7 & F8 & F9 & F10 & _).
  unfold expired_idle. rewrite F8. destruct (decide (status ch' = INACTIVE)) as [Es|Es].
  2:{ rewrite bool_decide_eq_false_2 by done. exists false. split_and!; try done. intros [? _]. done. }
  rewrite bool_decide_eq_true_2 by done. simpl negb. cbv iota. unfold NCHAN_CHANHEAD_EXPIRE_SEC in *.
  destruct (Z.ltb_spec 0 (gc_start_time ch + 5 - now)).
  { exists false. split_and!; try done. intros [_ ?]. lia. }
  destruct (in_use_spec ch') as (u & -> & U1 & U2).
  { destruct (decide (owner ch' = slot ch')); [by left|right].
    eapply ho_foreign; [by eapply (li_head _ _ _ _ _ _ I')|congruence|done]. }
  { eapply counted; [exact I'|done..|left; congruence]. }
  rewrite bind_Ret. exists (negb u). split_and!; try done.
  - intros Hu. apply negb_true_iff in Hu. split; [|by apply U1]. split; [done|lia].
  - intros _ Un St. by rewrite U2.
  - intros. lia.
Qed.

(** A head that is only now put into the churner is not ready. *)
Lemma ready_slowly_new D X w gl cl refs x ch :
  life_inv D X w gl cl refs -> heads w !! x = Some ch -> x ∉ X -> churn_start_time ch = now ->
  exists s' ch', nchan_memstore_chanhead_ready_to_reap_slowly now w x false = Ret (put_head (set_store w s') x ch', false) /\
    collected ch ch' /\ life_inv D X (put_head (set_store w s') x ch') gl cl refs.
Proof.
  intros I Hx NX Hn. destruct (messages_gc_ok _ _ _ _ _ _ _ _ I Hx NX) as (s' & ch' & Q & C & I').
  exists s', ch'. unfold nchan_memstore_chanhead_ready_to_reap_slowly. rewrite Q, bind_Ret. unfold get_head.
  assert (heads (put_head (set_store w s') x ch') !! x = Some ch') as Hx' by apply lookup_insert_eq.
  rewrite Hx', bind_Ret. pose proof (collected_fields _ _ C) as (_ & _ & _ & _ & _ & _ & _ & _ & -> & _).
  unfold NCHAN_CHANHEAD_EXPIRE_SEC. rewrite (proj2 (Z.ltb_lt _ _)) by lia. done.
Qed.

(** ** Moving between the queues *)

Lemma inv_put_same D X w gl cl refs x ch ch' :
  life_inv D X w gl cl refs -> heads w !! x = Some ch -> messages_of ch' = messages_of ch -> head_ok ch' ->
  same_place ch ch' \/ x ∈ D -> held refs x <= internal_sub_count ch' -> multi ch' = multi ch ->
  life_inv D X (put_head w x ch') gl cl refs.
Proof.
  intros I Hx Hm Ho Hp Hi Hmu. eapply (inv_put _ _ w _ _ _ _ _ _ (wstore w)); try done.
  destruct (decide (x ∈ X)) as [HX|HX]; [rewrite known_insert_out by done; apply I|].
  rewrite known_insert by done. eapply same_law; [apply I|by apply known_lookup|done].
Qed.

Lemma same_reaper_sym r r' : same_reaper r r' -> same_reaper r' r.
Proof. unfold same_reaper. intuition. Qed.

Lemma queue_offsets_differ : GC_PREV <> GC_NEXT /\ CHURN_PREV <> CHURN_NEXT /\ GC_PREV <> CHURN_PREV /\ GC_PREV <> CHURN_NEXT /\
  GC_NEXT <> CHURN_PREV /\ GC_NEXT <> CHURN_NEXT.
Proof. done. Qed.

Lemma gc_offsets D X w gl cl refs : life_inv D X w gl cl refs ->
  prev_ptr_offset (chanhead_reaper w) = GC_PREV /\ next_ptr_offset (chanhead_reaper w) = GC_NEXT /\
  prev_ptr_offset (chanhead_churner w) = CHURN_PREV /\ next_ptr_offset (chanhead_churner w) = CHURN_NEXT.
Proof. intros []. destruct li_gc_conf0 as (-> & -> & _), li_churn_conf0 as (-> & -> & _). done. Qed.

Lemma touches_live po no r h h' x : touches r h h' -> live po no h x -> live po no h' x.
Proof. intros [D _]. by apply live_dom. Qed.

(** The garbage collection queue is changed. *)
Lemma inv_gc_queue D D' X w gl gl' cl refs h r :
  life_inv D X w gl cl refs -> reaper_rep (RWorld h r w) gl' -> same_reaper (chanhead_reaper w) r ->
  touches (chanhead_reaper w) (queues w) h ->
  (forall x, x ∈ gl' <-> x ∉ D' /\ queued_gc w x) -> (forall x, x ∈ cl <-> x ∉ D' /\ queued_churn w x) ->
  life_inv D' X (of_gc (RWorld h r w)) gl' cl refs.
Proof.
  intros I R Sm T G C. pose proof (gc_offsets _ _ _ _ _ _ I) as (O1 & O2 & O3 & O4). destruct queue_offsets_differ as (_ & _ & N1 & N2 & N3 & N4).
  destruct I. split; simpl; try done.
  - by destruct R.
  - destruct li_churn0 as [R1 [R2 R2'] R3 R4 R5]. split; try done. split; [done|]. simpl in *.
    eapply dseg_frame, R2'. intros y _. destruct T as [_ T]. split; apply T; congruence.
  - by eapply same_reaper_trans.
  - intros y Hy. destruct (li_live0 y Hy). split; by eapply touches_live.
Qed.

(** The churner is changed. *)
Lemma inv_churn_queue D D' X w gl cl cl' refs h r :
  life_inv D X w gl cl refs -> reaper_rep (RWorld h r w) cl' -> same_reaper (chanhead_churner w) r ->
  placed (RWorld h r w) cl' -> touches (chanhead_churner w) (queues w) h ->
  (forall x, x ∈ cl' <-> x ∉ D' /\ queued_churn w x) -> (forall x, x ∈ gl <-> x ∉ D' /\ queued_gc w x) ->
  life_inv D' X (of_churn (RWorld h r w)) gl cl' refs.
Proof.
  intros I R Sm P T C G. pose proof (gc_offsets _ _ _ _ _ _ I) as (O1 & O2 & O3 & O4). destruct queue_offsets_differ as (_ & _ & N1 & N2 & N3 & N4).
  destruct I. split; simpl; try done.
  - destruct li_gc0 as [R1 [R2 R2'] R3 R4 R5]. split; try done. split; [done|]. simpl in *.
    eapply dseg_frame, R2'. intros y _. destruct T as [_ T]. split; apply T; congruence.
  - by destruct R.
  - by eapply same_reaper_trans.
  - intros y Hy. destruct (li_live0 y Hy). split; by eapply touches_live.
Qed.

Lemma inv_hide D X w gl cl refs x :
  life_inv D X w gl cl refs -> x ∉ gl -> x ∉ cl -> life_inv ({[x]} ∪ D) X w gl cl refs.
Proof.
  intros I N1 N2. destruct I. split; try done.
  - intros y. destruct (decide (y = x)) as [->|]; [|rewrite li_in_gc0; set_solver]. split; [done|]. intros [Q _]. set_solver.
  - intros y. destruct (decide (y = x)) as [->|]; [|rewrite li_in_churn0; set_solver]. split; [done|]. intros [Q _]. set_solver.
Qed.

(** Taking a head out of the churner. *)
Lemma churn_leave D X w gl cl refs x ch :
  life_inv D X w gl cl refs -> heads w !! x = Some ch -> x ∉ D -> in_churn_queue ch = true ->
  exists h r cl', nchan_reaper_withdraw (to_churn w) x = Ret (RWorld h r w) /\
    cl ≡ₚ x :: cl' /\ life_inv ({[x]} ∪ D) X (of_churn (RWorld h r w)) gl cl' refs.
Proof.
  intros I Hx ND Hc. pose proof I as I0. assert (x ∈ cl) as Hcl by (apply (li_in_churn _ _ _ _ _ _ I); split; [done|by exists ch]).
  destruct (list_elem_of_split _ _ Hcl) as (c1 & c2 & ->).
  destruct (reaper_withdraw_spec (to_churn w) c1 x c2 (li_churn _ _ _ _ _ _ I) (li_placed _ _ _ _ _ _ I))
    as ([h r e] & Q & R & P & E & [Sm _] & T). simpl in E. subst e.
  exists h, r, (c1 ++ c2). split; [done|]. split; [by rewrite Permutation_middle|].
  assert (x ∉ c1 ++ c2) as Nx.
  { pose proof (rr_list _ _ (li_churn _ _ _ _ _ _ I)) as [(_ & N & [N' _]%NoDup_cons)%NoDup_app _].
    intros [H|H]%elem_of_app; [|done]. apply (N x H). set_solver. }
  apply (inv_churn_queue D _ _ _ _ (c1 ++ x :: c2)); try done.
  - intros y. pose proof (li_in_churn _ _ _ _ _ _ I y) as Hy. rewrite elem_of_app, elem_of_cons in Hy.
    rewrite elem_of_app in Nx |- *. destruct (decide (y = x)) as [->|]; [split; [done|set_solver]|]. set_solver.
  - intros y. rewrite (li_in_gc _ _ _ _ _ _ I y). split; [|set_solver]. intros [N G]. split; [|done].
    apply not_elem_of_union. split; [|done]. intros ->%elem_of_singleton. destruct G as (c & Ec & Gc). simplify_eq.
    by rewrite (ho_one_queue _ (li_head _ _ _ _ _ _ I x _ Hx) Gc) in Hc.
Qed.

(** What becomes of a head that stays while others are reaped. *)
Record later (ch ch' : memstore_channel_head_t) : Prop := {
  lt_place : (status ch' = status ch /\ gc_start_time ch' = gc_start_time ch /\ in_gc_queue ch' = in_gc_queue ch) \/
    (in_gc_queue ch = false /\ in_gc_queue ch' = true /\ gc_start_time ch' = now);
  lt_external : sub_count ch' - internal_sub_count ch' = sub_count ch - internal_sub_count ch;
  lt_internal : internal_sub_count ch' <= internal_sub_count ch;
  lt_reserved : reserved ch' = reserved ch;
  lt_outside : outside_of ch' = outside_of ch;
  lt_stored : stored_of ch' <= stored_of ch;
  lt_multi : multi ch' = multi ch;
  lt_foreign : foreign_owner_ipc_sub ch' = foreign_owner_ipc_sub ch /\ shutting_down ch' = shutting_down ch;
}.

Lemma later_refl ch : later ch ch.
Proof. split; try done; [by left|lia..]. Qed.

Lemma later_trans a b c : later a b -> later b c -> later a c.
Proof.
  intros [] []. split; try congruence; try lia; [|intuition congruence].
  destruct lt_place1 as [(-> & -> & ->)|(Eb & Ec & En)]; [done|].
  destruct lt_place0 as [(_ & _ & Eb')|(_ & Eb' & _)]; [right; split; [congruence|done]|congruence].
Qed.

Lemma later_collected ch ch' : collected ch ch' -> later ch ch'.
Proof.
  intros C. destruct (collected_fields _ _ C) as (E1 & E2 & E3 & E4 & E5 & E6 & E7 & E8 & E9 & E10 & E11 & E12 & E13 & E14 & E15 & E16 & _).
  split; try done; [by left|congruence|lia].
Qed.

Section reaping.
Context (reap : worker -> positive -> outcome worker).

Lemma withdraw_env {E1 E2} h r (e1 : E1) (e2 : E2) x h' r' e' :
  nchan_reaper_withdraw (RWorld h r e1) x = Ret (RWorld h' r' e') ->
  nchan_reaper_withdraw (RWorld h r e2) x = Ret (RWorld h' r' e2).
Proof.
  unfold nchan_reaper_withdraw, thing_prev, thing_next. simpl.
  destruct (load h x (prev_ptr_offset r)) as [p| |]; [simpl|done..].
  destruct (load h x (next_ptr_offset r)) as [n| |]; [simpl|done..].
  destruct (unlink _ _ h p n) as [h1| |]; [simpl|done..].
  destruct (c_assert (0 <? count r)) as [[]| |]; [simpl|done..].
  destruct (store h1 x _ None) as [h2| |]; [simpl|done..].
  destruct (store h2 x _ None) as [h3| |]; [simpl|done..]. by intros [= -> -> _].
Qed.

(** Putting a head into the garbage collection queue that is in neither. *)
Lemma gc_enter D X w gl cl refs x ch :
  life_inv ({[x]} ∪ D) X w gl cl refs -> heads w !! x = Some ch -> x ∉ D -> x ∉ X ->
  in_gc_queue ch = true -> gc_start_time ch = now ->
  exists w' ch', (r ← nchan_reaper_add (nchan_memstore_chanhead_ready_to_reap now) (gc_reap reap) exiting (to_gc w) x;
      Ret (of_gc r)) = Ret w' /\ life_inv D X w' (gl ++ [x]) cl refs /\
    heads w' = <[x := ch']> (heads w) /\ collected ch ch' /\ multis w' = multis w.
Proof.
  intros I Hx ND NX Hq Hn.
  destruct (ready_to_reap_ok _ _ _ _ _ _ _ _ I Hx NX Hq) as (s' & ch' & b & Q & C & I' & _ & _ & B).
  rewrite (B Hn) in Q. set (e1 := put_head (set_store w s') x ch') in *.
  assert (x ∉ gl) as Ng. { intros H. apply (li_in_gc _ _ _ _ _ _ I x) in H as [H _]. set_solver. }
  pose proof (gc_offsets _ _ _ _ _ _ I) as (O1 & O2 & _).
  destruct (add_waiting exiting _ (gc_reap reap) (to_gc w) gl x e1 Q (li_gc _ _ _ _ _ _ I) Ng)
    as (h & r & -> & R & Sm & _ & _ & T).
  { simpl. rewrite O1, O2. by apply (li_live _ _ _ _ _ _ I). }
  rewrite bind_Ret. exists (of_gc (RWorld h r e1)), ch'. split; [done|]. split; [|done].
  pose proof (collected_fields _ _ C) as (_ & _ & _ & _ & _ & _ & _ & _ & _ & F10 & F11 & _).
  apply (inv_gc_queue ({[x]} ∪ D) D X e1 gl); try done.
  - intros y. rewrite elem_of_app, list_elem_of_singleton, (li_in_gc _ _ _ _ _ _ I' y).
    destruct (decide (y = x)) as [->|]; [|set_solver]. split; [|by right]. intros _. split; [done|].
    exists ch'. split; [apply lookup_insert_eq|congruence].
  - intros y. rewrite (li_in_churn _ _ _ _ _ _ I' y). split; [set_solver|]. intros [N G]. split; [|done].
    apply not_elem_of_union. split; [|done]. intros ->%elem_of_singleton. destruct G as (c & Ec & Gc).
    unfold e1 in Ec. simpl in Ec. rewrite lookup_insert_eq in Ec. simplify_eq.
    rewrite (ho_one_queue c) in Gc; [done| |congruence]. eapply (li_head _ _ _ _ _ _ I' x). apply lookup_insert_eq.
Qed.

(** The head as it is put into the queue. *)
Definition collectable (ch : memstore_channel_head_t) (times : Z) : memstore_channel_head_t :=
  set_queued ch INACTIVE now times true (churn_start_time ch) false.

Lemma collectable_ok ch times :
  head_ok ch -> (owner ch <> slot ch -> shared ch = None) -> head_ok (collectable ch times).
Proof. intros []. by split. Qed.

Lemma collectable_later ch times ch' :
  in_gc_queue ch = false -> collected (collectable ch times) ch' -> later ch ch'.
Proof.
  intros Hq C%later_collected. eapply later_trans; [|exact C]. split; try done. by right.
Qed.

(** Leaving the churner, if it is there, on the way to the other queue: what
    [chanhead_gc_add] does before it adds the head. *)
Lemma to_be_collected D X w gl cl refs x ch times :
  life_inv D X w gl cl refs -> heads w !! x = Some ch -> x ∉ D -> in_gc_queue ch = false ->
  (owner ch <> slot ch -> shared ch = None) ->
  exists w2 ch2, chanhead_churner_withdraw (put_head w x (set_queued ch INACTIVE now times (in_gc_queue ch)
      (churn_start_time ch) (in_churn_queue ch))) x = Ret w2 /\ heads w2 !! x = Some ch2 /\
    let ch3 := set_queued ch2 (status ch2) (gc_start_time ch2) (gc_queued_times ch2) true (churn_start_time ch2) (in_churn_queue ch2) in
    ch3 = collectable ch times /\ heads (put_head w2 x ch3) = <[x := ch3]> (heads w) /\ multis w2 = multis w /\
    exists cl', life_inv ({[x]} ∪ D) X (put_head w2 x ch3) gl cl' refs /\ cl ≡ₚ (if in_churn_queue ch then [x] else []) ++ cl'.
Proof.
  intros I Hx ND Hq Hs.
  pose proof (li_head _ _ _ _ _ _ I x ch Hx) as Ho.
  unfold chanhead_churner_withdraw, get_head. simpl. rewrite lookup_insert_eq, bind_Ret. simpl.
  destruct (in_churn_queue ch) eqn:Hc.
  - destruct (churn_leave _ _ _ _ _ _ _ _ I Hx ND Hc) as (h & r & cl' & Q & Pm & I').
    unfold to_churn at 1 in Q. eapply withdraw_env in Q. unfold to_churn. rewrite Q, bind_Ret.
    eexists _, _. split; [reflexivity|]. split; [apply lookup_insert_eq|]. split; [done|]. simpl.
    split; [by rewrite !insert_insert_eq|]. split; [done|]. exists cl'. split; [|done].
    eapply inv_core, (inv_put_same _ _ (of_churn (RWorld h r w)) _ _ _ x ch (collectable ch times)); try done.
    + split_and!; try done. simpl. by rewrite !insert_insert_eq.
    + by apply collectable_ok.
    + right. set_solver.
    + exact (li_held _ _ _ _ _ _ I x _ Hx).
  - eexists _, _. split; [reflexivity|]. split; [apply lookup_insert_eq|]. simpl.
    split; [done|]. split; [by rewrite !insert_insert_eq|]. split; [done|].
    exists cl. split; [|done].
    assert (life_inv ({[x]} ∪ D) X w gl cl refs) as I'.
    { apply inv_hide; [done|..]; intros H; [apply (li_in_gc _ _ _ _ _ _ I) in H as [_ (c & E & F)]|
        apply (li_in_churn _ _ _ _ _ _ I) in H as [_ (c & E & F)]]; congruence. }
    eapply inv_core, (inv_put_same _ _ w _ _ _ x ch (collectable ch times)); try done.
    + split_and!; try done. simpl. by rewrite !insert_insert_eq.
    + by apply collectable_ok.
    + right. set_solver.
    + exact (li_held _ _ _ _ _ _ I x _ Hx).
Qed.

(** Adding a head to the garbage collection queue. *)
Lemma gc_add_ok D X w gl cl refs x ch :
  life_inv D X w gl cl refs -> heads w !! x = Some ch -> x ∉ D -> x ∉ X ->
  shutting_down ch || negb (foreign_owner_ipc_sub ch) = true ->
  exists w' ch' gl' cl', chanhead_gc_add me now exiting reap w x = Ret w' /\ life_inv D X w' gl' cl' refs /\
    heads w' = <[x := ch']> (heads w) /\ later ch ch' /\ multis w' = multis w /\
    (exists new, gl' = gl ++ new) /\
    (status ch = WAITING /\ has_redis ch = false /\ exiting = false \/ x ∈ gl').
Proof.
  intros I Hx ND NX Hf. pose proof (li_head _ _ _ _ _ _ I x ch Hx) as Ho.
  unfold chanhead_gc_add. rewrite (get_head_Some _ _ _ Hx), bind_Ret, Hf. simpl c_assert. rewrite bind_Ret.
  set (outside := negb (slot ch =? owner ch) && bool_decide (is_Some (shared ch))).
  set (ch1 := if outside then set_shared ch None else ch).
  set (w1 := if outside then note (put_head w x ch1) [outside_unref x] else w).
  assert (life_inv D X w1 gl cl refs /\ heads w1 = <[x := ch1]> (heads w) /\ multis w1 = multis w /\ later ch ch1 /\
    head_ok ch1 /\ (owner ch1 <> slot ch1 -> shared ch1 = None) /\ in_gc_queue ch1 = in_gc_queue ch /\
    slot ch1 = slot ch /\ status ch1 = status ch /\ has_redis ch1 = has_redis ch) as (I1 & H1 & M1 & L1 & Ho1 & S1 & Q1 & E1 & T1 & R1).
  { subst w1 ch1. destruct outside eqn:Eo; subst outside.
    - apply andb_true_iff in Eo as [No _]. apply negb_true_iff, Z.eqb_neq in No.
      assert (owner ch =? slot ch = false) as Nb by (apply Z.eqb_neq; congruence).
      assert (head_ok (set_shared ch None)) as Ho' by (destruct Ho; by split).
      split_and!; try done.
      + eapply inv_core, (inv_put_same _ _ w _ _ _ x ch (set_shared ch None)); try done; [|by left|exact (li_held _ _ _ _ _ _ I x _ Hx)].
        unfold messages_of. simpl. by rewrite Nb.
      + split; try done; [by left|..]; unfold outside_of, stored_of; simpl; rewrite Nb; by destruct (shared ch).
    - split_and!; try done; [by rewrite insert_id|apply later_refl|]. intros No.
      apply andb_false_iff in Eo as [Eo|Eo]; [apply negb_false_iff, Z.eqb_eq in Eo; congruence|].
      apply bool_decide_eq_false in Eo. destruct (shared ch); [by destruct Eo|done]. }
  clearbody ch1 w1. rewrite T1, R1, E1, Q1.
  assert (heads w1 !! x = Some ch1) as Hx1 by (rewrite H1; apply lookup_insert_eq).
  destruct (bool_decide (status ch = WAITING) && negb (has_redis ch) && negb exiting) eqn:Ew.
  { exists w1, ch1, gl, cl. split_and!; try done; [by exists []; rewrite app_nil_r|].
    left. apply andb_true_iff in Ew as [[Ew%bool_decide_eq_true Er]%andb_true_iff Ee].
    by apply negb_true_iff in Er, Ee. }
  rewrite (proj2 (Z.eqb_eq _ _) (ho_slot _ Ho)). simpl c_assert. rewrite bind_Ret.
  destruct (in_gc_queue ch) eqn:Hq.
  { exists w1, ch1, gl, cl. split_and!; try done; [by exists []; rewrite app_nil_r|].
    right. apply (li_in_gc _ _ _ _ _ _ I1). split; [done|]. exists ch1. by split. }
  destruct (to_be_collected _ _ _ _ _ _ _ _ (gc_queued_times ch1 + 1) I1 Hx1 ND Q1 S1)
    as (w2 & ch2 & Q & Hx2 & Ec & H2 & M2 & cl' & I2 & _).
  rewrite Q1 in Q. rewrite Q, bind_Ret, (get_head_Some _ _ _ Hx2), bind_Ret. rewrite Ec in *.
  destruct (gc_enter D X _ gl cl' refs x (collectable ch1 (gc_queued_times ch1 + 1)) I2) as (w' & ch' & Q3 & I3 & H3 & C3 & M3);
    try done; [by rewrite H2, lookup_insert_eq|].
  exists w', ch', (gl ++ [x]), cl'. split; [done|]. split; [done|]. split.
  { by rewrite H3, H2, insert_insert_eq, H1, insert_insert_eq. }
  split. { eapply later_trans; [exact L1|]. eapply collectable_later; [by rewrite Q1|done]. }
  split; [by rewrite M3, <- M1, <- M2|]. split; [by eexists|]. right. set_solver.
Qed.

(** ** Reaping a multiplexed head *)

Lemma refs_held_perm refs r refs' t :
  refs ≡ₚ r :: refs' -> held refs t = (if decide (in_head t r) then 1 else 0) + held refs' t.
Proof.
  intros P. unfold held. rewrite P, filter_cons. destruct (decide (in_head t r)); simpl length; lia.
Qed.

(** [sub_dequeue]: the multiplexed head forgets its [i]th subscriber. *)
Lemma forget_sub x w gl cl refs i t cx m :
  life_inv {[x]} {[x]} w gl cl refs -> heads w !! x = Some cx -> multis w !! x = Some m -> multi_subs m !! i = Some (Some t) ->
  exists refs', refs ≡ₚ (x, i, t) :: refs' /\
    life_inv {[x]} {[x]} (put_multi (put_head w x (set_status cx WAITING)) x
      (MultiState (u8 (multi_subscribers_pending m + 1)) (<[i := None]> (multi_subs m)))) gl cl refs'.
Proof.
  intros I Hx Hm Hi. assert ((x, i, t) ∈ refs) as Hr.
  { apply (li_refs_iff _ _ _ _ _ _ I). unfold multi_subs_of. by rewrite Hm. }
  assert (exists refs', refs ≡ₚ (x, i, t) :: refs') as [refs' P].
  { apply list_elem_of_split in Hr as (l1 & l2 & ->). exists (l1 ++ l2). by rewrite Permutation_middle. }
  exists refs'. split; [done|]. pose proof (li_head _ _ _ _ _ _ I x cx Hx) as Ho.
  assert (life_inv {[x]} {[x]} (put_head w x (set_status cx WAITING)) gl cl refs) as I1.
  { eapply inv_put_same; try done; [by destruct Ho; split|right; set_solver|exact (li_held _ _ _ _ _ _ I x _ Hx)]. }
  pose proof (li_refs _ _ _ _ _ _ I) as ND. rewrite P in ND. apply NoDup_cons in ND as [Nr ND].
  destruct I1. split; try done.
  - by destruct li_gc0.
  - by destruct li_churn0.
  - intros y j u. unfold multi_subs_of. simpl. pose proof (li_refs_iff _ _ _ _ _ _ I y j u) as Q. unfold multi_subs_of in Q.
    assert ((y, j, u) ∈ refs <-> (y, j, u) = (x, i, t) \/ (y, j, u) ∈ refs') as Q' by by rewrite P, elem_of_cons.
    destruct (decide (y = x)) as [->|].
    + rewrite lookup_insert_eq. simpl. rewrite Hm in Q. destruct (decide (j = i)) as [->|].
      * rewrite list_lookup_insert_eq by (by eapply lookup_lt_Some). split; [|done]. intros Hin. exfalso.
        assert (u = t) as -> by (apply Q', Q in Hin || (assert ((x, i, u) ∈ refs) as Hin' by tauto; apply Q in Hin'; congruence)).
        done.
      * rewrite list_lookup_insert_ne by done. rewrite <- Q, Q'. split; [tauto|]. intros [[= -> _]|]; done.
    + rewrite lookup_insert_ne by done. rewrite <- Q, Q'. split; [tauto|]. intros [[= -> _ _]|]; done.
  - intros y j u Hy. apply (li_multi0 y j u). rewrite P. by right.
  - intros u c Hu. specialize (li_held0 u c Hu). rewrite (refs_held_perm _ _ _ _ P) in li_held0.
    destruct (decide _); lia.
Qed.

(** The channel is told that one internal subscriber is gone. *)
Lemma internal_dequeue_ok D X w gl cl refs t ct :
  life_inv D X w gl cl refs -> heads w !! t = Some ct -> t ∉ D -> t ∉ X -> held refs t + 1 <= internal_sub_count ct ->
  exists w' ct' gl' cl', memstore_spooler_bulk_dequeue_handler me now exiting interval reap w t true 1 = Ret w' /\
    life_inv D X w' gl' cl' refs /\ heads w' = <[t := ct']> (heads w) /\ later ct ct' /\ multis w' = multis w /\
    exists new, gl' = gl ++ new.
Proof.
  intros I Ht ND NX Hh. pose proof (li_head _ _ _ _ _ _ I t ct Ht) as Ho. pose proof (ho_counts _ Ho) as Hc.
  unfold memstore_spooler_bulk_dequeue_handler. rewrite (get_head_Some _ _ _ Ht), !bind_Ret.
  erewrite get_head_Some by apply lookup_insert_eq. rewrite bind_Ret. cbn [set_subscribers sub_count internal_sub_count foreign_owner_ipc_sub].
  assert (0 <= held refs t) by (unfold held; lia).
  rewrite !(proj2 (Z.leb_le _ _)) by lia. simpl c_assert. rewrite !bind_Ret.
  set (c2 := set_subscribers ct (sub_count ct - 1) (internal_sub_count ct - 1) (last_subscribed_local ct)
    ((fun sh => shared_subscribers sh 0 (- 1)) <$> shared ct) (delta_fakesubs ct)).
  set (w2 := put_head _ t _).
  assert (heads w2 = <[t := c2]> (heads w)) as H2 by (unfold w2; simpl; by rewrite insert_insert_eq).
  assert (head_ok c2) as Ho2.
  { destruct Ho. split; simpl; auto; [lia|]. intros Q No. by rewrite ho_foreign0. }
  assert (later ct c2) as L2.
  { split; simpl; try done; [by left|lia|lia|..]; unfold outside_of, stored_of; simpl; destruct (shared ct); simpl; try done;
      destruct (owner ct =? slot ct); lia. }
  assert (life_inv D X w2 gl cl refs) as I2.
  { eapply inv_core, (inv_put_same _ _ w _ _ _ t ct c2); try done; [|by left|simpl; lia].
    unfold messages_of. simpl. destruct (owner ct =? slot ct), (shared ct); done. }
  destruct ((sub_count ct - 1 =? 0) && negb (foreign_owner_ipc_sub ct)) eqn:Ez.
  - apply andb_true_iff in Ez as [_ Ef].
    destruct (gc_add_ok _ _ _ _ _ _ t c2 I2) as (w' & ct' & gl' & cl' & Q & I' & H' & L' & M' & G' & _); try done.
    { by rewrite H2, lookup_insert_eq. } { simpl. rewrite Ef. apply orb_true_r. }
    exists w', ct', gl', cl'. split_and!; try done; [by rewrite H', H2, insert_insert_eq|by eapply later_trans].
  - exists w2, c2, gl, cl. split_and!; try done. exists []. by rewrite app_nil_r.
Qed.

(** The other heads stay, each later than it was. *)
Definition stay (x : positive) (w w' : worker) : Prop :=
  forall y, y <> x -> match heads w !! y, heads w' !! y with Some c, Some c' => later c c' | None, None => True | _, _ => False end.

Lemma stay_refl x w : stay x w w.
Proof. intros y _. destruct (heads w !! y); [apply later_refl|done]. Qed.

Lemma stay_trans x w1 w2 w3 : stay x w1 w2 -> stay x w2 w3 -> stay x w1 w3.
Proof.
  intros S1 S2 y N. specialize (S1 y N). specialize (S2 y N).
  destruct (heads w1 !! y), (heads w2 !! y), (heads w3 !! y); try done. by eapply later_trans.
Qed.

Lemma no_ref_to x D X w gl cl refs cx : life_inv D X w gl cl refs -> heads w !! x = Some cx -> internal_sub_count cx <= 0 ->
  forall y i, (y, i, x) ∉ refs.
Proof.
  intros I Hx H0 y i Hr. pose proof (li_held _ _ _ _ _ _ I x cx Hx) as Hh. unfold held in Hh.
  assert ((y, i, x) ∈ filter (in_head x) refs) as Hf by (by apply list_elem_of_filter).
  destruct (filter (in_head x) refs); [by apply elem_of_nil in Hf|simpl in Hh; lia].
Qed.

Lemma multi_sub_dequeue_ok x w gl cl refs cx i t :
  life_inv {[x]} {[x]} w gl cl refs -> heads w !! x = Some cx -> internal_sub_count cx <= 0 ->
  multi_subs_of w x !! i = Some (Some t) ->
  exists w' gl' cl' refs' cx', multi_sub_dequeue me now exiting interval reap w x i t = Ret w' /\
    life_inv {[x]} {[x]} w' gl' cl' refs' /\ heads w' !! x = Some cx' /\ internal_sub_count cx' <= 0 /\
    stay x w w' /\ (exists new, gl' = gl ++ new) /\ multi_subs_of w' x = <[i := None]> (multi_subs_of w x).
Proof.
  intros I Hx H0 Hi. unfold multi_subs_of in Hi. destruct (multis w !! x) as [m|] eqn:Hm; [|done].
  destruct (forget_sub x w gl cl refs i t cx m I Hx Hm Hi) as (refs' & P & I1).
  unfold multi_sub_dequeue. rewrite (get_head_Some _ _ _ Hx), bind_Ret, Hm.
  set (w1 := put_multi _ _ _) in *.
  assert ((x, i, t) ∈ refs) as Hr by (rewrite P; by left).
  assert (t <> x) as Nt by (intros ->; eapply no_ref_to; [exact I|exact Hx|exact H0|exact Hr]).
  destruct (li_multi _ _ _ _ _ _ I x i t Hr) as [_ [ct Ht]].
  assert (heads w1 !! t = Some ct) as Ht1 by (unfold w1; simpl; by rewrite lookup_insert_ne).
  assert (held refs' t + 1 <= internal_sub_count ct) as Hh.
  { pose proof (li_held _ _ _ _ _ _ I t ct Ht) as Q. rewrite (refs_held_perm _ _ _ _ P) in Q.
    rewrite decide_True in Q by done. lia. }
  destruct (internal_dequeue_ok _ _ _ _ _ _ t ct I1 Ht1) as (w' & ct' & gl' & cl' & Q & I' & H' & L' & M' & G'); [set_solver..|done|].
  exists w', gl', cl', refs', (set_status cx WAITING). split; [done|]. split; [done|]. split.
  { rewrite H', lookup_insert_ne by done. unfold w1. simpl. apply lookup_insert_eq. }
  split; [done|]. split.
  - intros y N. rewrite H'. unfold w1. simpl. destruct (decide (y = t)) as [->|].
    + by rewrite Ht, lookup_insert_eq.
    + rewrite !lookup_insert_ne by done. destruct (heads w !! y); [apply later_refl|done].
  - split; [done|]. unfold multi_subs_of. rewrite M'. unfold w1. simpl. by rewrite lookup_insert_eq, Hm.
Qed.

Lemma dequeue_multi_subs_ok x n : forall w gl cl refs cx i,
  life_inv {[x]} {[x]} w gl cl refs -> heads w !! x = Some cx -> internal_sub_count cx <= 0 ->
  length (multi_subs_of w x) = (i + n)%nat -> (forall j t, (j < i)%nat -> multi_subs_of w x !! j <> Some (Some t)) ->
  exists w' gl' cl' refs' cx', dequeue_multi_subs me now exiting interval reap w x i n = Ret w' /\
    life_inv {[x]} {[x]} w' gl' cl' refs' /\ heads w' !! x = Some cx' /\ internal_sub_count cx' <= 0 /\
    stay x w w' /\ (exists new, gl' = gl ++ new) /\ (forall j t, multi_subs_of w' x !! j <> Some (Some t)).
Proof.
  induction n as [|n IH]; intros w gl cl refs cx i I Hx H0 Hl Hj; simpl.
  - exists w, gl, cl, refs, cx. split_and!; try done; [apply stay_refl|exists []; by rewrite app_nil_r|].
    intros j t Q. apply (Hj j t); [|done]. apply lookup_lt_Some in Q. lia.
  - destruct (multi_subs_of w x !! i) as [[t|]|] eqn:Hi.
    + destruct (multi_sub_dequeue_ok x w gl cl refs cx i t I Hx H0 Hi)
        as (w1 & gl1 & cl1 & refs1 & cx1 & -> & I1 & Hx1 & H1 & S1 & [new1 ->] & M1). rewrite bind_Ret.
      destruct (IH w1 _ _ _ _ (Datatypes.S i) I1 Hx1 H1) as (w' & gl' & cl' & refs' & cx' & Q & I' & Hx' & H' & S' & [new ->] & M').
      { rewrite M1, length_insert. lia. }
      { intros j u Lj. rewrite M1. destruct (decide (j = i)) as [->|].
        - rewrite list_lookup_insert_eq by (rewrite Hl; lia). done.
        - rewrite list_lookup_insert_ne by done. apply Hj. lia. }
      eexists _, _, _, _, _. split; [exact Q|]. split_and!; try done; [by eapply stay_trans|].
      exists (new1 ++ new). by rewrite app_assoc.
    + rewrite bind_Ret. apply (IH w gl cl refs cx (Datatypes.S i)); try done; [lia|].
      intros j u Lj. destruct (decide (j = i)) as [->|]; [by rewrite Hi|apply Hj; lia].
    + apply lookup_ge_None in Hi. lia.
Qed.

(** Freeing a head that is in no queue, that the store has forgotten, and that
    has no subscriber anywhere. *)
Lemma free_head_ok x w gl cl refs cx :
  life_inv {[x]} {[x]} w gl cl refs -> heads w !! x = Some cx -> internal_sub_count cx <= 0 ->
  (forall j t, multi_subs_of w x !! j <> Some (Some t)) ->
  life_inv ∅ ∅ (free_head w x) gl cl refs.
Proof.
  intros I Hx H0 Hm. pose proof (gc_offsets _ _ _ _ _ _ I) as (O1 & O2 & O3 & O4).
  pose proof queue_offsets_differ as (_ & _ & N1 & N2 & N3 & N4).
  pose proof (no_ref_to x _ _ _ _ _ _ cx I Hx H0) as Nr.
  assert (x ∉ gl) as Ng by (intros H; apply (li_in_gc _ _ _ _ _ _ I) in H; set_solver).
  assert (x ∉ cl) as Nc by (intros H; apply (li_in_churn _ _ _ _ _ _ I) in H; set_solver).
  assert (forall y o, y <> x -> queues (free_head w x) !! (y, o) = queues w !! (y, o)) as F.
  { intros y o Ny. simpl. unfold dealloc. by rewrite !lookup_delete_ne by congruence. }
  destruct I. split; simpl; try done.
  - destruct li_gc0 as [R1 [R2 R2'] R3 R4 R5]. split; try done. split; [done|].
    eapply dseg_frame, R2'. intros y Hy. simpl in F. by rewrite !F by (by intros ->).
  - destruct li_churn0 as [R1 [R2 R2'] R3 R4 R5]. split; try done. split; [done|].
    eapply dseg_frame, R2'. intros y Hy. simpl in F. by rewrite !F by (by intros ->).
  - intros y. rewrite li_in_gc0. unfold queued_gc. simpl. destruct (decide (y = x)) as [->|].
    + rewrite lookup_delete_eq. split; [set_solver|]. intros [_ (c & ? & _)]. done.
    + rewrite lookup_delete_ne by done. set_solver.
  - intros y. rewrite li_in_churn0. unfold queued_churn. simpl. destruct (decide (y = x)) as [->|].
    + rewrite lookup_delete_eq. split; [set_solver|]. intros [_ (c & ? & _)]. done.
    + rewrite lookup_delete_ne by done. set_solver.
  - intros y Hy. destruct (decide (y = x)) as [->|]; [rewrite lookup_delete_eq in Hy; by destruct Hy|].
    rewrite lookup_delete_ne in Hy by done. destruct (li_live0 y Hy) as [[] []]. simpl in F.
    unfold live. by rewrite !F.
  - intros y c Hy. apply lookup_delete_Some in Hy as [_ Hy]. eauto.
  - replace (known ∅ (delete x (heads w))) with (known {[x]} (heads w)); [done|].
    apply map_eq. intros y. apply option_eq. intros c. unfold known. rewrite !map_lookup_filter_Some, lookup_delete_Some.
    simpl. set_solver.
  - intros y i t. rewrite li_refs_iff0. unfold multi_subs_of in *. simpl. destruct (decide (y = x)) as [->|].
    + rewrite lookup_delete_eq. split; [|done]. intros Q. by apply Hm in Q.
    + by rewrite lookup_delete_ne.
  - intros y i t Hr. destruct (li_multi0 y i t Hr) as [(c & E & F') T]. split.
    + exists c. rewrite lookup_delete_ne; [done|]. intros <-. apply li_refs_iff0 in Hr. by apply Hm in Hr.
    + rewrite lookup_delete_ne; [done|]. intros <-. by apply (Nr y i).
  - intros t c Hy. apply lookup_delete_Some in Hy as [_ Hy]. eauto.
Qed.
End reaping.

Lemma known_empty hs : known ∅ hs = hs.
Proof. unfold known. apply map_filter_id. set_solver. Qed.

Lemma known_one x hs : known {[x]} hs = delete x hs.
Proof.
  unfold known. apply map_eq. intros y. apply option_eq. intros c.
  rewrite map_lookup_filter_Some, lookup_delete_Some. simpl. set_solver.
Qed.

Lemma inv_forget x w gl cl refs s :
  life_inv {[x]} ∅ w gl cl refs -> store_ok s (delete x (heads w)) -> life_inv {[x]} {[x]} (set_store w s) gl cl refs.
Proof.
  intros [] Ok. split; simpl; try done; [by destruct li_gc0|by destruct li_churn0|by rewrite known_one].
Qed.

(** Everything but the multiplexed part of reaping. *)
Lemma reap_one_ok x w gl cl refs cx :
  life_inv {[x]} ∅ w gl cl refs -> heads w !! x = Some cx -> sub_count cx <= 0 ->
  exists w' cx', reap_one me now broadcast_gone w x = Ret w' /\ life_inv {[x]} {[x]} w' gl cl refs /\
    heads w' = <[x := cx']> (heads w) /\ internal_sub_count cx' <= 0 /\ multi cx' = multi cx /\ multis w' = multis w.
Proof.
  intros I Hx H0. pose proof (li_head _ _ _ _ _ _ I x cx Hx) as Ho. pose proof (ho_counts _ Ho) as Hc.
  pose proof (li_store _ _ _ _ _ _ I) as Ok. rewrite known_empty in Ok.
  destruct (delete_law (wstore w) (heads w) x cx Ok Hx (ho_slot _ Ho)) as (s1 & c1 & Q & C & Ok1).
  pose proof (collected_fields _ _ C) as (F1 & F2 & F3 & F4 & F5 & F6 & F7 & F8 & F9 & F10 & F11 & _).
  assert (life_inv {[x]} ∅ (put_head (set_store w s1) x c1) gl cl refs) as I1.
  { eapply inv_put; try done; [by rewrite known_empty|by eapply head_ok_collected|by left|].
    rewrite F5. exact (li_held _ _ _ _ _ _ I x cx Hx). }
  unfold reap_one. rewrite (get_head_Some _ _ _ Hx), bind_Ret, Q, bind_Ret, (proj2 (Z.ltb_ge _ _)), bind_Ret by lia.
  set (w1 := put_head (set_store w s1) x c1) in *.
  assert (heads w1 !! x = Some c1) as Hx1 by apply lookup_insert_eq.
  rewrite (get_head_Some (set_spooling w1 x false) _ _ Hx1), bind_Ret.
  set (c2 := if has_distributed_redis c1 && negb (multi c1) && negb (delta_fakesubs c1 =? 0)
             then set_subscribers c1 (sub_count c1) (internal_sub_count c1) (last_subscribed_local c1) (shared c1) 0 else c1).
  assert (exists w4, (if has_distributed_redis c1 && negb (multi c1)
      then w ← send_redis_fakesub_delta (set_spooling w1 x false) x; Ret (set_fakesub_timer w x false)
      else Ret (set_spooling w1 x false)) = Ret w4 /\ life_inv {[x]} ∅ w4 gl cl refs /\ heads w4 = <[x := c2]> (heads w) /\
      wstore w4 = s1 /\ multis w4 = multis w) as (w4 & -> & I4 & H4 & St4 & M4).
  { subst c2. destruct (has_distributed_redis c1 && negb (multi c1)); simpl.
    - unfold send_redis_fakesub_delta. rewrite (get_head_Some (set_spooling w1 x false) _ _ Hx1), bind_Ret.
      destruct (delta_fakesubs c1 =? 0); simpl; eexists; (split; [reflexivity|]).
      + split_and!; try done. by eapply inv_core, I1.
      + split_and!; try done; [|simpl; by rewrite insert_insert_eq].
        eapply inv_core, (inv_put_same _ _ w1 _ _ _ x c1 _ I1 Hx1); try done; [by destruct (li_head _ _ _ _ _ _ I1 x c1 Hx1)|by left|].
        exact (li_held _ _ _ _ _ _ I1 x c1 Hx1).
    - eexists. split; [reflexivity|]. split_and!; try done. by eapply inv_core, I1. }
  rewrite bind_Ret. clearbody w1. set (w5 := if owner c1 =? me then _ else w4).
  assert (same_core w4 w5) as S5 by (unfold w5; by destruct (owner c1 =? me)).
  set (w7 := match redis_subs (CHANNEL_HASH_DEL w5 x) !! x with Some _ => _ | None => _ end).
  assert (same_core w4 w7) as S7.
  { unfold w7. destruct (redis_subs (CHANNEL_HASH_DEL w5 x) !! x) as [[]|]; by destruct S5 as (?&?&?&?&?&?). }
  clearbody w5 w7. assert (multi c2 = multi cx /\ internal_sub_count c2 <= 0) as [Em Ei].
  { subst c2. destruct (_ && negb (delta_fakesubs c1 =? 0)); simpl; split; congruence || lia. }
  pose proof (inv_core _ _ _ _ _ _ _ S7 I4) as I7. destruct S7 as (S7 & H7 & M7 & _). rewrite St4 in S7. rewrite H4 in H7.
  assert (delete x (heads w7) = delete x (<[x := c1]> (heads w))) as Ed by by rewrite H7, !delete_insert_eq.
  destruct (groupnode c1) as [g|] eqn:Eg.
  - destruct (leave_law s1 (<[x := c1]> (heads w)) x c1 Ok1) as (s' & Q' & Ok'); [apply lookup_insert_eq|by rewrite Eg|].
    rewrite S7, Q', bind_Ret. exists (set_store w7 s'), c2. split; [done|]. split_and!; try done; [|simpl; congruence].
    apply inv_forget; [done|]. by rewrite Ed.
  - exists w7, c2. split; [done|]. split_and!; try done; [|congruence].
    eapply inv_core, (inv_forget x w7 _ _ _ (wstore w7)); [done|done|]. rewrite Ed, S7. by apply drop_law.
Qed.

Lemma reap_chanhead_ok fuel x w gl cl refs cx :
  life_inv {[x]} ∅ w gl cl refs -> heads w !! x = Some cx -> sub_count cx <= 0 ->
  exists w' gl' cl' refs', memstore_reap_chanhead me now exiting interval broadcast_gone (Datatypes.S fuel) w x = Ret w' /\
    life_inv ∅ ∅ w' gl' cl' refs' /\ heads w' !! x = None /\ stay x w w' /\ exists new, gl' = gl ++ new.
Proof.
  intros I Hx H0. destruct (reap_one_ok _ _ _ _ _ _ I Hx H0) as (w1 & c1 & Q1 & I1 & H1 & Hi1 & Em & M1).
  assert (heads w1 !! x = Some c1) as Hx1 by (rewrite H1; apply lookup_insert_eq).
  assert (stay x w w1) as S1.
  { intros y N. rewrite H1, lookup_insert_ne by done. destruct (heads w !! y); [apply later_refl|done]. }
  simpl. rewrite Q1, bind_Ret, (get_head_Some _ _ _ Hx1), bind_Ret. destruct (multi c1) eqn:Emc.
  - destruct (dequeue_multi_subs_ok (memstore_reap_chanhead me now exiting interval broadcast_gone fuel) x
      (length (multi_subs_of w1 x)) w1 gl cl refs c1 0 I1 Hx1 Hi1) as (w2 & gl2 & cl2 & refs2 & c2 & -> & I2 & Hx2 & Hi2 & S2 & G & M2);
      [done|lia|].
    rewrite bind_Ret. exists (free_head w2 x), gl2, cl2, refs2. split; [done|].
    split; [by eapply free_head_ok|]. split; [apply lookup_delete_eq|]. split; [|done].
    eapply stay_trans; [exact S1|]. intros y N. specialize (S2 y N). simpl. by rewrite lookup_delete_ne.
  - rewrite bind_Ret. exists (free_head w1 x), gl, cl, refs. split; [done|]. split.
    { eapply free_head_ok; try done. intros j t Q. apply (li_refs_iff _ _ _ _ _ _ I1) in Q.
      apply (li_multi _ _ _ _ _ _ I1) in Q as [(c & E & F) _]. congruence. }
    split; [apply lookup_delete_eq|]. split; [|by exists []; rewrite app_nil_r].
    intros y N. specialize (S1 y N). simpl. by rewrite lookup_delete_ne.
Qed.

(** ** A scan of the garbage collection queue *)

(** A head that may be freed: it is in the queue, inactive, has waited long
    enough, has no subscriber but internal ones, and no other use. *)
Record idle (ch : memstore_channel_head_t) : Prop := {
  id_queued : in_gc_queue ch = true;
  id_expired : expired_idle ch;
  id_internal : sub_count ch = internal_sub_count ch;
  id_reserved : reserved ch <= 0;
  id_outside : outside_of ch <= 0;
}.

(** A head that must be freed. *)
Definition abandoned (ch : memstore_channel_head_t) : Prop := idle ch /\ sub_count ch = 0 /\ stored_of ch <= 0.

Lemma idle_before ch ch' : later ch ch' -> idle ch' -> idle ch.
Proof.
  intros [] [Q [E1 E2] I R O]. unfold NCHAN_CHANHEAD_EXPIRE_SEC in *.
  destruct lt_place0 as [(P1 & P2 & P3)|(_ & _ & P)]; [|lia].
  split; try congruence; try lia. split; [congruence|]. unfold NCHAN_CHANHEAD_EXPIRE_SEC. lia.
Qed.

Lemma abandoned_after ch ch' : later ch ch' -> head_ok ch' -> abandoned ch -> abandoned ch'.
Proof.
  intros [] [_ Hc _ _ _] [[Q [E1 E2] I R O] [H0 St]]. unfold NCHAN_CHANHEAD_EXPIRE_SEC in *.
  destruct lt_place0 as [(P1 & P2 & P3)|(P & _)]; [|congruence].
  split; [|lia]. split; try congruence; try lia. split; [congruence|]. unfold NCHAN_CHANHEAD_EXPIRE_SEC. lia.
Qed.

(** From [w] to [w'] only idle heads disappear. *)
Definition only_idle_freed (w w' : worker) : Prop :=
  forall y, match heads w !! y, heads w' !! y with
            | Some c, Some c' => later c c'
            | Some c, None => idle c
            | None, o => o = None
            end.

Lemma freed_trans w1 w2 w3 : only_idle_freed w1 w2 -> only_idle_freed w2 w3 -> only_idle_freed w1 w3.
Proof.
  intros F1 F2 y. specialize (F1 y). specialize (F2 y).
  destruct (heads w1 !! y) as [a|], (heads w2 !! y) as [b|], (heads w3 !! y) as [c|]; try done.
  - by eapply later_trans.
  - by eapply idle_before.
Qed.

Lemma gc_size D X w gl cl refs : life_inv D X w gl cl refs -> (length gl <= size (heads w))%nat.
Proof.
  intros I. destruct (rr_list _ _ (li_gc _ _ _ _ _ _ I)) as [ND _].
  assert (list_to_set gl ⊆ dom (heads w)) as Sub.
  { intros y Hy%elem_of_list_to_set. apply (li_in_gc _ _ _ _ _ _ I) in Hy as [_ (c & E & _)]. by apply elem_of_dom. }
  apply subseteq_size in Sub. by rewrite size_list_to_set, size_dom in Sub.
Qed.

Notation reap_ f := (memstore_reap_chanhead me now exiting interval broadcast_gone (Datatypes.S f)).

(** One ready head is reaped: the queue loses it and may grow at its end. *)
Lemma reap_from_queue f w pre x post cl refs ch :
  life_inv ∅ ∅ w (pre ++ x :: post) cl refs -> heads w !! x = Some ch -> unused ch ->
  exists w' new cl' refs', reap_ready_thing (gc_reap (reap_ f)) (to_gc w) x (head post) = Ret (to_gc w') /\
    life_inv ∅ ∅ w' (pre ++ post ++ new) cl' refs' /\ heads w' !! x = None /\ stay x w w'.
Proof.
  intros I Hx [H0 _].
  destruct (reap_ready_thing_eq (gc_reap (reap_ f)) (to_gc w) pre x post (li_gc _ _ _ _ _ _ I)) as (h & R & T & ->).
  set (w1 := of_gc (RWorld h (taken_out (chanhead_reaper w) pre x post) w)).
  assert (x ∉ pre ++ post) as Nx.
  { pose proof (rr_list _ _ (li_gc _ _ _ _ _ _ I)) as [(_ & N & [N' _]%NoDup_cons)%NoDup_app _].
    intros [H|H]%elem_of_app; [|done]. apply (N x H). set_solver. }
  assert (in_gc_queue ch = true) as Hq.
  { assert (x ∈ pre ++ x :: post) as Hin by set_solver. apply (li_in_gc _ _ _ _ _ _ I) in Hin as [_ (c & E & F)]. congruence. }
  assert (life_inv {[x]} ∅ w1 (pre ++ post) cl refs) as I1.
  { apply (inv_gc_queue ∅ _ _ _ (pre ++ x :: post)); try done.
    - intros y. pose proof (li_in_gc _ _ _ _ _ _ I y) as Hy. rewrite elem_of_app, elem_of_cons in Hy.
      rewrite elem_of_app in Nx |- *. destruct (decide (y = x)) as [->|]; [split; [done|set_solver]|]. set_solver.
    - intros y. rewrite (li_in_churn _ _ _ _ _ _ I y). split; [|set_solver]. intros [_ G]. split; [|done].
      intros ->%elem_of_singleton. destruct G as (c & Ec & Gc). simplify_eq.
      by rewrite (ho_one_queue _ (li_head _ _ _ _ _ _ I x _ Hx) Hq) in Gc. }
  destruct (reap_chanhead_ok f x w1 (pre ++ post) cl refs ch I1 Hx H0) as (w' & gl' & cl' & refs' & Q & I' & Hx' & St & new & ->).
  unfold gc_reap. fold w1. change (of_gc _) with w1. rewrite Q, !bind_Ret. cbn [to_gc rp].
  rewrite (rr_count _ _ (li_gc _ _ _ _ _ _ I') : count (chanhead_reaper w') = _), (proj2 (Z.leb_le _ _)) by lia.
  rewrite <- app_assoc in I'. by exists w', new, cl', refs'.
Qed.

Lemma gc_scan_ok f n : forall w pre post cl refs,
  life_inv ∅ ∅ w (pre ++ post) cl refs -> (size (heads w) <= n + length pre)%nat ->
  exists w' gl' cl' refs',
    rescan_loop (nchan_memstore_chanhead_ready_to_reap now) (gc_reap (reap_ f)) n (to_gc w) false 0 0 (head post) = Ret (to_gc w') /\
    life_inv ∅ ∅ w' gl' cl' refs' /\ only_idle_freed w w' /\
    forall y c, y ∈ post -> heads w !! y = Some c -> abandoned c -> heads w' !! y = None.
Proof.
  induction n as [|n IH]; intros w pre post cl refs I Hn.
  { destruct post as [|x post].
    2:{ apply gc_size in I as L. rewrite length_app in L. simpl in L. lia. }
    exists w, (pre ++ []), cl, refs. split; [done|]. split; [done|]. split; [|set_solver].
    intros y. destruct (heads w !! y); [apply later_refl|done]. }
  destruct post as [|x post].
  { exists w, (pre ++ []), cl, refs. split; [done|]. split; [done|]. split; [|set_solver].
    intros y. destruct (heads w !! y); [apply later_refl|done]. }
  assert (x ∈ pre ++ x :: post) as Hin by set_solver.
  apply (li_in_gc _ _ _ _ _ _ I) in Hin as [_ (ch & Hx & Hq)].
  destruct (ready_to_reap_ok _ _ _ _ _ _ _ _ I Hx) as (s' & ch' & b & Q & C & I1 & B1 & B2 & _); [set_solver|done|].
  set (w1 := put_head (set_store w s') x ch') in *.
  assert (heads w1 !! x = Some ch') as Hx1 by apply lookup_insert_eq.
  assert (only_idle_freed w w1) as F1.
  { intros y. simpl. destruct (decide (y = x)) as [->|]; [rewrite Hx, lookup_insert_eq; by apply later_collected|].
    rewrite lookup_insert_ne by done. destruct (heads w !! y); [apply later_refl|done]. }
  assert (forall y c, heads w !! y = Some c -> abandoned c -> exists c', heads w1 !! y = Some c' /\ abandoned c') as A1.
  { intros y c Hy A. specialize (F1 y). rewrite Hy in F1. destruct (heads w1 !! y) as [c'|] eqn:E1.
    - exists c'. split; [done|]. eapply abandoned_after; [done|by eapply (li_head _ _ _ _ _ _ I1)|done].
    - simpl in E1. destruct (decide (y = x)) as [->|]; [by rewrite lookup_insert_eq in E1|].
      rewrite lookup_insert_ne in E1 by done. congruence. }
  cbn [rescan_loop head Z.ltb Z.compare]. rewrite (rep_next (to_gc w) pre x post (li_gc _ _ _ _ _ _ I)), bind_Ret.
  unfold call_ready. cbn [env to_gc]. rewrite Q, !bind_Ret. change (RWorld _ _ w1) with (to_gc w1). destruct b.
  - destruct (B1 eq_refl) as [Ex Un].
    destruct (reap_from_queue f w1 pre x post cl refs ch' I1 Hx1 Un) as (w2 & new & cl2 & refs2 & -> & I2 & Hx2 & St).
    rewrite bind_Ret. pose proof (collected_fields _ _ C) as (_ & _ & _ & _ & _ & _ & _ & _ & _ & F10 & _).
    assert (only_idle_freed w1 w2) as F2.
    { intros y. destruct (decide (y = x)) as [->|Ny].
      - rewrite Hx1, Hx2. destruct Un as (U1 & U2 & U3). pose proof (ho_counts _ (li_head _ _ _ _ _ _ I1 x _ Hx1)).
        split; try done; [congruence|lia].
      - specialize (St y Ny). destruct (heads w1 !! y), (heads w2 !! y); try done. }
    assert (forall y c, heads w1 !! y = Some c -> abandoned c -> y <> x -> exists c', heads w2 !! y = Some c' /\ abandoned c') as A2.
    { intros y c Hy A Ny. specialize (St y Ny). rewrite Hy in St. destruct (heads w2 !! y) as [c'|] eqn:E2; [|done].
      exists c'. split; [done|]. eapply abandoned_after; [done|by eapply (li_head _ _ _ _ _ _ I2)|done]. }
    assert (size (heads w2) <= n + length pre)%nat as Hn2.
    { assert (dom (heads w2) ⊆ dom (heads w) ∖ {[x]}) as Sub.
      { intros y Hy%elem_of_dom. destruct (decide (y = x)) as [->|Ny]; [rewrite Hx2 in Hy; by destruct Hy|].
        specialize (St y Ny). apply elem_of_difference. split; [|set_solver]. apply elem_of_dom.
        simpl in St. rewrite lookup_insert_ne in St by done. destruct (heads w !! y); [done|]. by destruct Hy as [? E]; rewrite E in St. }
      apply subseteq_size in Sub. rewrite size_difference, size_singleton, !size_dom in Sub by (apply singleton_subseteq_l, elem_of_dom; eauto).
      assert (size (heads w) <> 0)%nat by (intros E%map_size_empty_inv; rewrite E in Hx; done). lia. }
    destruct post as [|z post].
    + exists w2, (pre ++ [] ++ new), cl2, refs2. split; [by destruct n|]. split; [done|].
      split; [by eapply freed_trans|]. intros y c [->|Hy]%elem_of_cons; [done|set_solver].
    + change (head (z :: post)) with (head ((z :: post) ++ new)).
      destruct (IH w2 pre ((z :: post) ++ new) cl2 refs2 I2 Hn2) as (w' & gl' & cl' & refs' & -> & I' & F' & L').
      exists w', gl', cl', refs'. split; [done|]. split; [done|]. split; [by eapply freed_trans, freed_trans|].
      intros y c Hy Hc A. destruct (decide (y = x)) as [->|Ny].
      * specialize (F' x). by rewrite Hx2 in F'.
      * destruct (A1 y c Hc A) as (c1 & Hc1 & A1'). destruct (A2 y c1 Hc1 A1' Ny) as (c2 & Hc2 & A2').
        eapply L'; [|done|done]. apply elem_of_app. left. set_solver.
  - rewrite cons_middle, app_assoc in I1.
    destruct (IH w1 (pre ++ [x]) post cl refs I1) as (w' & gl' & cl' & refs' & Q' & I' & F' & L').
    { rewrite length_app. simpl. rewrite map_size_insert_Some by eauto. lia. }
    change (one_more 0 0) with 0. rewrite Q'. exists w', gl', cl', refs'. split; [done|]. split; [done|].
    split; [by eapply freed_trans|].
    intros y c Hy Hc A. destruct (A1 y c Hc A) as (c1 & Hc1 & A1'). apply elem_of_cons in Hy as [->|Hy]; [|by eapply L'].
    simplify_eq. destruct A1' as [[_ E1 I1' R1 O1] [S1 T1]]. pose proof (B2 E1) as B. exfalso.
    enough (false = true) by done. apply B; [|done]. split_and!; lia || done.
Qed.

Lemma inv_gc_timer D X w gl cl refs r :
  life_inv D X w gl cl refs -> reaper_rep (RWorld (queues w) r w) gl -> same_reaper (chanhead_reaper w) r ->
  life_inv D X (of_gc (RWorld (queues w) r w)) gl cl refs.
Proof.
  intros I R Sm. eapply inv_gc_queue; [exact I|exact R|exact Sm|apply touches_refl|..].
  - apply (li_in_gc _ _ _ _ _ _ I).
  - apply (li_in_churn _ _ _ _ _ _ I).
Qed.

(** A tick of the garbage collection queue. *)
Lemma gc_tick_ok f scan w gl cl refs :
  life_inv ∅ ∅ w gl cl refs -> (size (heads w) <= scan)%nat ->
  exists w' gl' cl' refs',
    chanhead_reaper_tick me now exiting interval broadcast_gone (Datatypes.S f) scan w = Ret w' /\
    life_inv ∅ ∅ w' gl' cl' refs' /\ only_idle_freed w w' /\
    (forall y c, heads w !! y = Some c -> abandoned c -> heads w' !! y = None) /\
    (gl' <> [] -> exiting = false -> timer_set (chanhead_reaper w') = true).
Proof.
  intros I Hs. unfold chanhead_reaper_tick, reaper_timer_handler.
  assert (life_inv ∅ ∅ (clear_gc_timer w) gl cl refs) as I0.
  { apply inv_gc_timer; [done| |done]. apply (rep_timer (to_gc w)), I. }
  set (w0 := clear_gc_timer w) in *. assert (heads w0 = heads w) as H0 by done.
  assert (set_rp (to_gc w0) (set_timer (rp (to_gc w0)) false) = to_gc w0) as -> by done.
  destruct (li_gc_conf _ _ _ _ _ _ I0) as (_ & _ & Es & El). cbn [to_gc rp]. rewrite Es. cbn [strategy new_chanhead_reaper nchan_reaper_start].
  unfold its_reaping_time. cbn [to_gc rp]. rewrite El. cbn [notready_limit new_chanhead_reaper nchan_reaper_start].
  rewrite (rr_first _ _ (li_gc _ _ _ _ _ _ I0) : first (chanhead_reaper w0) = _).
  destruct (gc_scan_ok f scan w0 [] gl cl refs I0) as (w1 & gl' & cl' & refs' & -> & I1 & F1 & A1); [rewrite H0; simpl; lia|].
  rewrite !bind_Ret. pose proof (reset_timer exiting (to_gc w1) gl' (li_gc _ _ _ _ _ _ I1)) as [R T].
  exists (of_gc (set_rp (to_gc w1) (reaper_reset_timer exiting (chanhead_reaper w1)))), gl', cl', refs'.
  split; [done|]. split; [|split; [done|split]].
  - apply inv_gc_timer; [done|exact R|apply reset_same].
  - intros y c Hy A. eapply (A1 y c); [|done|done]. apply (li_in_gc _ _ _ _ _ _ I0). split; [set_solver|].
    exists c. split; [done|apply A].
  - intros Ng ->. cbn. cbn in T. rewrite T.
    rewrite (rr_count _ _ (li_gc _ _ _ _ _ _ I1) : count (chanhead_reaper w1) = _).
    destruct gl'; [done|]. apply orb_true_r.
Qed.
End facts.

(** C13.  Garbage collection of channel heads is safe and complete.  Whatever
    multiplexed heads it reaps, and although that puts other heads into the
    queue it is scanning, a tick never aborts and keeps the queues, the flags of
    the heads and the counts of internal subscribers consistent; it frees only
    heads in the queue that are inactive, have waited long enough and are not
    used by a client, a reservation or another worker; it frees every such head
    that has no subscriber and no message; and while heads are left and the
    worker is not exiting, the timer is set. *)
Theorem chanhead_gc_tick {S} me now `{CS : ChannelStore S} `{!ChannelStoreLaws S me now} exiting interval
    (broadcast_gone : worker S -> positive -> outcome (worker S)) fuel scan w gl cl refs :
  life_inv me now ∅ ∅ w gl cl refs -> (size (heads w) <= scan)%nat ->
  exists w' gl' cl' refs',
    chanhead_reaper_tick me now exiting interval broadcast_gone (Datatypes.S fuel) scan w = Ret w' /\
    life_inv me now ∅ ∅ w' gl' cl' refs' /\ only_idle_freed now w w' /\
    (forall y c, heads w !! y = Some c -> abandoned now c -> heads w' !! y = None) /\
    (gl' <> [] -> exiting = false -> timer_set (chanhead_reaper w') = true).
Proof. apply gc_tick_ok. Qed.
