(* ===== verification/ChanLifeStore.v ===== *)
(** * The message buffers as the store of channel heads

    The buffers of ChanHead and the groups of Groups are a [ChannelStore]: each
    head has its own buffer, and collecting the messages of one leaves the
    others as they are.  With it garbage collection is evaluated on examples:
    one that frees a multiplexed head and then its channel, and one in which
    the churner goes on with a head that was taken away from it. *)

From S2P Require Import Prelude Nginx MsgId Msg DList Groups GroupFacts ChanHead ChanHeadFacts Reaper ReaperFacts ChanLife ChanLifeFacts.

Global Instance memstore_channel_store `{Sizeof} (me : Z) : ChannelStore memstore := {
  store_messages_gc now s ch := memstore_chanhead_messages_gc me now s ch;
  store_messages_delete now s ch := chanhead_messages_delete me now s ch;
  store_group_add_subscribers s ch n :=
    match groupnode ch with
    | Some name => g ← memstore_group_add_subscribers me 0 0 (groups s) name n; Ret (ChanHead.set_groups s g)
    | None => Ret s
    end;
  store_group_leave s x ch own :=
    match groupnode ch with
    | Some name =>
        g ← (if (own : bool) then memstore_group_dissociate_own_channel me (groups s) name x (owner ch) (multi ch)
             else Ret (groups s));
        g' ← memstore_group_remove_channel me 0 0 g name (owner ch) (multi ch);
        Ret (ChanHead.set_groups s g')
    | None => Ret s
    end;
}.

(** ** Collecting the messages of one head *)

Definition counts_kept (o o' : option store_channel_head_shm_t) : Prop :=
  match o, o' with
  | Some a, Some b =>
      shared_sub_count b = shared_sub_count a /\ shared_internal_sub_count b = shared_internal_sub_count a /\
      outside_refcount b = outside_refcount a
  | None, None => True
  | _, _ => False
  end.

Lemma counts_kept_refl o : counts_kept o o.
Proof. by destruct o. Qed.

Lemma counts_kept_trans a b c : counts_kept a b -> counts_kept b c -> counts_kept a c.
Proof. destruct a, b, c; try done; simpl. intuition congruence. Qed.

(** Links of messages outside [xs] stay as they are. *)
Definition others_kept (xs : list entry) (w w' : memstore) : Prop :=
  forall y o, y ∉ xs.*1 -> ChanHead.links w' !! (y, o) = ChanHead.links w !! (y, o).

Section effects.
Context `{Sizeof} (me now : Z).

Lemma delete_effect w ch p m xs w' ch' :
  buffer w ch ((p, m) :: xs) -> groupnode ch = None -> chanhead_delete_message me now w ch p = Ret (w', ch') ->
  others_kept ((p, m) :: xs) w w' /\ counts_kept (shared ch) (shared ch') /\ groupnode ch' = None.
Proof.
  intros B G. unfold chanhead_delete_message. rewrite (first_next _ _ _ _ _ B), bind_Ret.
  destruct (load (ChanHead.links w) p SM_PREV) as [[|]| |]; [|simpl|done..].
  { simpl. destruct (head (xs.*1)); simpl; [|done]. by destruct (store _ _ _ _). }
  intros (h1 & E1 & E2)%bind_Ret_inv.
  destruct (buf_count _ _ _ B) as (sh & Esh & _). unfold get_shared in E2. rewrite Esh, bind_Ret in E2.
  destruct (get_msg w p) as [m'| |]; [simpl in E2|done..]. rewrite G in E2. simpl in E2. injection E2 as <- <-.
  split; [|split; [by rewrite Esh|done]]. intros y o Hy. simpl.
  destruct (head (xs.*1)) as [n|] eqn:Eh; [|by injection E1 as <-].
  unfold store in E1. destruct (_ !! _); [|done]. injection E1 as <-. rewrite lookup_insert_ne; [done|].
  intros [= -> _]. apply Hy. rewrite fmap_cons. right. apply head_Some_elem_of. done.
Qed.

Lemma others_kept_mono xs ys w w' : (forall y, y ∈ xs.*1 -> y ∈ ys.*1) -> others_kept xs w w' -> others_kept ys w w'.
Proof. intros Sub K y o Hy. apply K. intros Q. by apply Hy, Sub. Qed.

Lemma others_kept_trans xs w1 w2 w3 : others_kept xs w1 w2 -> others_kept xs w2 w3 -> others_kept xs w1 w3.
Proof. intros K1 K2 y o Hy. by rewrite K2, K1. Qed.

Lemma gc_too_many_effect max xs : forall fuel w ch w' ch' cur,
  buffer w ch xs -> groupnode ch = None -> gc_too_many me now fuel w ch (head (xs.*1)) max = Ret (w', ch', cur) ->
  others_kept xs w w' /\ counts_kept (shared ch) (shared ch') /\ groupnode ch' = None.
Proof.
  induction xs as [|[p m] xs IH]; intros [|fuel] w ch w' ch' cur B G; simpl; try done.
  { intros [= <- <- _]. split_and!; [done|apply counts_kept_refl|done]. }
  destruct (max <? 0); [intros [= <- <- _]; split_and!; [done|apply counts_kept_refl|done]|].
  destruct (get_shared ch) as [sh| |]; [simpl|done..].
  destruct (max <? stored_message_count sh); [|intros [= <- <- _]; split_and!; [done|apply counts_kept_refl|done]].
  rewrite (first_next _ _ _ _ _ B), bind_Ret.
  destruct (delete_first me now _ _ _ _ _ B) as (w1 & ch1 & Q & B1 & _). rewrite Q, bind_Ret. intros E.
  destruct (delete_effect _ _ _ _ _ _ _ B G Q) as (K1 & C1 & G1). destruct (IH _ _ _ _ _ _ B1 G1 E) as (K2 & C2 & G2).
  split_and!; [|by eapply counts_kept_trans|done]. eapply others_kept_trans; [done|].
  eapply others_kept_mono, K2. intros y Hy. rewrite fmap_cons. by right.
Qed.

Lemma gc_expired_effect xs : forall fuel w ch w' ch',
  buffer w ch xs -> groupnode ch = None -> gc_expired me now fuel w ch (head (xs.*1)) = Ret (w', ch') ->
  others_kept xs w w' /\ counts_kept (shared ch) (shared ch') /\ groupnode ch' = None.
Proof.
  induction xs as [|[p m] xs IH]; intros [|fuel] w ch w' ch' B G; simpl; try done.
  { intros [= <- <-]. split_and!; [done|apply counts_kept_refl|done]. }
  destruct (get_msg w p) as [m'| |]; [simpl|done..].
  destruct (expires m' <? now); [|intros [= <- <-]; split_and!; [done|apply counts_kept_refl|done]].
  rewrite (first_next _ _ _ _ _ B), bind_Ret.
  destruct (delete_first me now _ _ _ _ _ B) as (w1 & ch1 & Q & B1 & _). rewrite Q, bind_Ret. intros E.
  destruct (delete_effect _ _ _ _ _ _ _ B G Q) as (K1 & C1 & G1). destruct (IH _ _ _ _ _ B1 G1 E) as (K2 & C2 & G2).
  split_and!; [|by eapply counts_kept_trans|done]. eapply others_kept_trans; [done|].
  eapply others_kept_mono, K2. intros y Hy. rewrite fmap_cons. by right.
Qed.

(** Collecting the messages of a head that this worker owns. *)
Lemma gc_custom_effect max xs w ch :
  buffer w ch xs -> owner ch = me -> groupnode ch = None ->
  exists w' ch' ys, chanhead_messages_gc_custom me now w ch max = Ret (w', ch') /\ buffer w' ch' ys /\
    (forall e, e ∈ ys -> e ∈ xs) /\ others_kept xs w w' /\ smsgs w' = smsgs w /\ collected ch ch' /\ groupnode ch' = None.
Proof.
  intros B Ho G. destruct (gc_custom_spec me now max xs w ch B Ho) as (w' & ch' & Q & B' & (Fs & _) & Fc & gone & Eg & _).
  exists w', ch', (gc_list now max xs). split; [done|]. split; [done|].
  split; [intros e He; rewrite Eg; apply elem_of_app; by right|].
  pose proof Q as Q'. unfold chanhead_messages_gc_custom in Q'. rewrite Ho, Z.eqb_refl in Q'. simpl negb in Q'. cbv iota in Q'.
  rewrite (buf_first _ _ _ B) in Q'.
  destruct (gc_too_many_spec me now max xs (buffer_fuel w) w ch B (buffer_size _ _ _ B)) as (w1 & ch1 & Q1 & B1 & F1 & _ & gone1 & E1 & _).
  rewrite Q1, bind_Ret in Q'. destruct (gc_too_many_effect _ _ _ _ _ _ _ _ B G Q1) as (K1 & C1 & G1).
  destruct (gc_expired_effect _ _ _ _ _ _ B1 G1 Q') as (K2 & C2 & G2).
  split. { eapply others_kept_trans; [done|]. eapply others_kept_mono, K2. intros y Hy. rewrite E1, fmap_app. apply elem_of_app. by right. }
  split; [done|]. split; [|done]. split; [exact Fc|].
  pose proof (counts_kept_trans _ _ _ C1 C2) as C. destruct (buf_count _ _ _ B) as (a & Ea & Na).
  destruct (buf_count _ _ _ B') as (b & Eb & Nb). rewrite Ea, Eb in *. destruct C as (C3 & C4 & C5).
  apply (f_equal length) in Eg. rewrite length_app in Eg. simpl. split_and!; try done; lia.
Qed.
End effects.

(** ** The laws *)

Section laws.
Context `{Sizeof} (me now : Z).

(** What the store needs of a head: its messages, if this worker owns it, are
    its buffer; it is not accounted to a group. *)
Definition buffer_of (s : memstore) (bufs : gmap positive (list entry)) (x : positive) (ch : memstore_channel_head_t) : Prop :=
  slot ch = me /\ groupnode ch = None /\
  if owner ch =? me then exists xs, bufs !! x = Some xs /\ buffer s ch xs
  else msg_first ch = None /\ msg_last ch = None.

(** Every head has its buffer, and no two share a message. *)
Definition buffers_ok (s : memstore) (hs : gmap positive memstore_channel_head_t) : Prop :=
  exists bufs : gmap positive (list entry),
    (forall x ch, hs !! x = Some ch -> buffer_of s bufs x ch) /\
    (forall x y xs ys p, x <> y -> bufs !! x = Some xs -> bufs !! y = Some ys -> p ∈ xs.*1 -> p ∉ ys.*1).

Lemma buffer_frame s s' ch ys : groupnode ch = None ->
  (forall y o, y ∈ ys.*1 -> ChanHead.links s' !! (y, o) = ChanHead.links s !! (y, o)) -> smsgs s' = smsgs s ->
  buffer s ch ys -> buffer s' ch ys.
Proof.
  intros G F Sm []. split; try done.
  - destruct buf_dlist as [D1 D2]. split; [done|]. eapply dseg_frame, D2. intros y Hy. by rewrite !F.
  - by rewrite Sm.
  - unfold has_groupnode. by rewrite G.
Qed.

Lemma gc_buffers_ok max s hs x ch : buffers_ok s hs -> hs !! x = Some ch ->
  exists s' ch', chanhead_messages_gc_custom me now s ch max = Ret (s', ch') /\ collected ch ch' /\
    buffers_ok s' (<[x := ch']> hs).
Proof.
  intros (bufs & Ok & Dj) Hx. destruct (Ok x ch Hx) as (Hs & G & B). destruct (Z.eqb_spec (owner ch) me) as [Ho|No].
  - destruct B as (xs & Hxs & B).
    destruct (gc_custom_effect me now max xs s ch B Ho G) as (s' & ch' & ys & -> & B' & Sub & K & Sm & C & G').
    exists s', ch'. split; [done|]. split; [done|]. pose proof (collected_fields _ _ C) as (F1 & F2 & _).
    assert (forall p, p ∈ ys.*1 -> p ∈ xs.*1) as Sub'.
    { intros p ((q & m) & -> & Hq)%list_elem_of_fmap. apply Sub in Hq. by apply (list_elem_of_fmap_2 fst) in Hq. }
    exists (<[x := ys]> bufs). split.
    + intros y c Hy. destruct (decide (y = x)) as [->|Ny].
      * rewrite lookup_insert_eq in Hy. injection Hy as <-. split; [congruence|]. split; [done|].
        rewrite F1, Ho, Z.eqb_refl. exists ys. by rewrite lookup_insert_eq.
      * rewrite lookup_insert_ne in Hy by done. destruct (Ok y c Hy) as (Hs' & Gc & Bc). split; [done|]. split; [done|].
        destruct (owner c =? me); [|done]. destruct Bc as (zs & Hzs & Bc). exists zs.
        rewrite lookup_insert_ne by done. split; [done|]. eapply buffer_frame; [done| |done|done].
        intros p o Hp. apply K. by eapply (Dj y x).
    + intros y z us vs p Nyz Hy Hz Hp.
      apply lookup_insert_Some in Hy as [[<- <-]|[Ny Hy]], Hz as [[<- <-]|[Nz Hz]]; [done|..].
      * exact (Dj x z xs vs p Nyz Hxs Hz (Sub' p Hp)).
      * intros Q%Sub'. exact (Dj y x us xs p Nyz Hy Hxs Hp Q).
      * exact (Dj y z us vs p Nyz Hy Hz Hp).
  - destruct B as (B1 & B2). exists s, ch. unfold chanhead_messages_gc_custom.
    rewrite (proj2 (Z.eqb_neq _ _) No). simpl. rewrite B1, B2. simpl. split; [done|].
    split. { split; [by destruct ch|]. unfold same_shared. by destruct (shared ch). }
    rewrite insert_id by done. by exists bufs.
Qed.

Lemma buffers_drop s hs x : buffers_ok s hs -> buffers_ok s (delete x hs).
Proof. intros (bufs & Ok & Dj). exists bufs. split; [|done]. intros y c [_ Hy]%lookup_delete_Some. by apply Ok. Qed.

Lemma buffers_same s hs x ch ch' : buffers_ok s hs -> hs !! x = Some ch -> messages_of ch' = messages_of ch ->
  buffers_ok s (<[x := ch']> hs).
Proof.
  intros (bufs & Ok & Dj) Hx [= E1 E2 E3 E4 E5 E6 E7]. exists bufs. split; [|done]. intros y c Hy.
  destruct (decide (y = x)) as [->|]; [|rewrite lookup_insert_ne in Hy by done; by apply Ok].
  rewrite lookup_insert_eq in Hy. injection Hy as <-. destruct (Ok x ch Hx) as (Hs & G & B).
  split; [congruence|]. split; [congruence|]. rewrite E1. destruct (Z.eqb_spec (owner ch) me) as [Ho|No]; [|split; destruct B; congruence].
  destruct B as (xs & Hxs & []). exists xs. split; [done|].
  rewrite E1, E2, Ho, Hs, Z.eqb_refl in E7. destruct buf_count as (sh & Es & Ec). rewrite Es in E7.
  destruct (shared ch') as [sh'|] eqn:Es'; [|done]. injection E7 as E7 _.
  split; try congruence; try done; [by exists sh'; split; [|congruence]|]. unfold has_groupnode. by rewrite E6, G.
Qed.

Global Program Instance memstore_channel_laws : @ChannelStoreLaws memstore (memstore_channel_store me) me now := {
  store_ok := buffers_ok;
}.
Next Obligation. intros s hs x ch Ok Hx _. by apply (gc_buffers_ok (s64 (max_messages ch))). Qed.
Next Obligation. intros s hs x ch Ok Hx _. by apply (gc_buffers_ok 0). Qed.
Next Obligation. intros s hs x ch (bufs & Ok & _) Hx [g E]. destruct (Ok x ch Hx) as (_ & G & _). congruence. Qed.
Next Obligation. intros s hs x ch ch' Ok Hx E. by eapply buffers_same. Qed.
Next Obligation. intros s hs x Ok. by apply buffers_drop. Qed.
Next Obligation.
  intros s hs x ch sh (bufs & Ok & _) Hx Es Eo Hp. destruct (Ok x ch Hx) as (Hs & _ & B).
  rewrite Eo, Hs, Z.eqb_refl in B. destruct B as (xs & _ & B). destruct (buf_count _ _ _ B) as (sh' & Es' & Ec).
  rewrite (buf_first _ _ _ B). destruct xs; [|done]. simpl in Ec. replace sh' with sh in Ec by congruence. lia.
Qed.
End laws.

(** ** Examples *)

(** A head of worker 1, last touched at 0. *)
Definition example_head (st : chanhead_pubsub_status_t) (n ni : Z) (mu in_gc in_churn : bool) : memstore_channel_head_t :=
  CH 1 1 st n ni 0 0 mu (Some (Shared 0 0 0 0 0 0)) 3 None None (MsgId 0 (fixed [0; 0; 0; 0]) 0 1) false 0 false false true
     (LocConf false false 3 60) None 0 0 1 in_gc 0 in_churn.

Definition example_store : memstore := MemStore ∅ ∅ (GW ∅ ∅ [] [] ∅ []) [] [].

(** The links of the head [x], in neither queue. *)
Definition head_links (x : positive) (h : mem) : mem :=
  alloc GC_PREV GC_NEXT (alloc CHURN_PREV CHURN_NEXT h x None None) x None None.

(** The multiplexed head 1 is in the churner with its channel 2, and with 3 and
    4, that have a subscriber each. *)
Definition example_churning : worker memstore :=
  Worker example_store
    (<[1%positive := example_head READY 0 0 true false true]> (<[2%positive := example_head READY 1 1 false false true]>
      (<[3%positive := example_head READY 1 0 false false true]> (<[4%positive := example_head READY 1 0 false false true]> ∅))))
    {[1%positive := MultiState 0 [Some 2%positive]]} ∅ ∅ ∅ ∅
    (<[(1%positive, CHURN_NEXT) := Some 2%positive]> (<[(2%positive, CHURN_PREV) := Some 1%positive]>
     (<[(2%positive, CHURN_NEXT) := Some 3%positive]> (<[(3%positive, CHURN_PREV) := Some 2%positive]>
     (<[(3%positive, CHURN_NEXT) := Some 4%positive]> (<[(4%positive, CHURN_PREV) := Some 3%positive]>
       (head_links 1 (head_links 2 (head_links 3 (head_links 4 ∅))))))))))
    new_chanhead_reaper
    (set_ends new_chanhead_churner 4 (Some 1%positive) (Some 4%positive) None) [].

Section examples.
Local Existing Instance example_sizes.
Local Instance example_channel_store : ChannelStore memstore := memstore_channel_store 1.
Definition churn_tick (now : Z) (w : worker memstore) : outcome (worker memstore) :=
  chanhead_churner_tick 1 now false 0 (fun w _ => Ret w) 1 10 w.
Definition gc_tick (now : Z) (w : worker memstore) : outcome (worker memstore) :=
  chanhead_reaper_tick 1 now false 0 (fun w _ => Ret w) 1 10 w.

(** The churner does not notice that what it does takes heads away from it.
    Here it reaps the multiplexed head 1; that takes the internal subscriber out
    of head 2, which moves to the garbage collection queue; the scan goes on with
    head 2, reaps it too, and loses count of its own heads.  The garbage
    collection queue keeps a freed head, which its next tick touches. *)
Theorem churner_frees_queued_head :
  match churn_tick 100 example_churning with
  | Ret w => heads w !! 2%positive = None /\ first (chanhead_reaper w) = Some 2%positive /\
      count (chanhead_churner w) = 1 /\ size (heads w) = 2%nat /\ gc_tick 104 w = Crash
  | _ => False
  end.
Proof. vm_compute. by split_and!. Qed.

(** The multiplexed head 1 waits in the garbage collection queue, its channel 2
    is in the churner. *)
Definition example_collecting : worker memstore :=
  Worker example_store
    (<[1%positive := example_head INACTIVE 0 0 true true false]> (<[2%positive := example_head READY 1 1 false false true]> ∅))
    {[1%positive := MultiState 0 [Some 2%positive]]} ∅ ∅ ∅ ∅
    (head_links 1 (head_links 2 ∅))
    (set_ends new_chanhead_reaper 1 (Some 1%positive) (Some 1%positive) None)
    (set_ends new_chanhead_churner 1 (Some 2%positive) (Some 2%positive) None) [].

Lemma example_heads (P : positive -> memstore_channel_head_t -> Prop) :
  P 1%positive (example_head INACTIVE 0 0 true true false) -> P 2%positive (example_head READY 1 1 false false true) ->
  forall x ch, heads example_collecting !! x = Some ch -> P x ch.
Proof.
  intros P1 P2 x ch E. simpl in E.
  apply lookup_insert_Some in E as [[<- <-]|[_ [[<- <-]|[_ E]]%lookup_insert_Some]]; [done..|].
  by rewrite lookup_empty in E.
Qed.

Lemma example_collecting_ok : life_inv 1 100 ∅ ∅ example_collecting [1%positive] [2%positive] [(1%positive, O, 2%positive)].
Proof.
  split.
  - split; try reflexivity; [done|]. split; [apply NoDup_singleton|]. by split_and!.
  - split; try reflexivity; [done|]. split; [apply NoDup_singleton|]. by split_and!.
  - by split_and!.
  - by split_and!.
  - intros _ p [=].
  - intros x. rewrite list_elem_of_singleton. split.
    + intros ->. split; [set_solver|]. eexists. split; reflexivity.
    + intros [_ (ch & E & Q)]. revert E Q. by apply (example_heads (fun x ch => in_gc_queue ch = true -> x = 1%positive)).
  - intros x. rewrite list_elem_of_singleton. split.
    + intros ->. split; [set_solver|]. eexists. split; reflexivity.
    + intros [_ (ch & E & Q)]. revert E Q. by apply (example_heads (fun x ch => in_churn_queue ch = true -> x = 2%positive)).
  - intros x [ch E]. revert E. apply (example_heads (fun x _ => live GC_PREV GC_NEXT (queues example_collecting) x /\
      live CHURN_PREV CHURN_NEXT (queues example_collecting) x)); unfold live; split_and!; by eexists.
  - apply (example_heads (fun _ ch => head_ok 1 ch)); split; simpl; (done || lia).
  - exists (gset_to_gmap [] {[1%positive; 2%positive]}). split.
    + intros x ch E. unfold known in E. apply map_lookup_filter_Some in E as [E _]. revert E.
      apply (example_heads (fun x ch => buffer_of 1 example_store (gset_to_gmap [] {[1%positive; 2%positive]}) x ch));
        (split; [done|]; split; [done|]; exists []; split; [reflexivity|];
         split; [by split; [apply NoDup_nil_2|]|done|done|by eexists|done|set_solver|by apply Forall_nil|done]).
    + intros x y xs ys p _ E _ Hp. apply lookup_gset_to_gmap_Some in E as [_ <-]. by apply elem_of_nil in Hp.
  - apply NoDup_singleton.
  - intros x i t. rewrite list_elem_of_singleton. unfold multi_subs_of. simpl. split.
    + intros [= -> -> ->]. reflexivity.
    + destruct (decide (x = 1%positive)) as [->|]; [|by rewrite lookup_singleton_ne].
      rewrite lookup_singleton_eq. simpl. destruct i as [|i]; [by intros [= ->]|done].
  - intros x i t [= -> -> ->]%list_elem_of_singleton. split; [by eexists|by eexists].
  - apply (example_heads (fun t ch => held [(1%positive, O, 2%positive)] t <= internal_sub_count ch)); vm_compute; done.
Qed.

Lemma example_abandoned : abandoned 100 (example_head INACTIVE 0 0 true true false).
Proof. split; [split; [done|by split|done|done|done]|done]. Qed.

Lemma chanhead_gc_tick_witness : exists w' gl cl refs,
  gc_tick 100 example_collecting = Ret w' /\ life_inv 1 100 ∅ ∅ w' gl cl refs /\ heads w' !! 1%positive = None.
Proof.
  destruct (chanhead_gc_tick 1 100 false 0 (fun w _ => Ret w) 0 10 example_collecting [1%positive] [2%positive]
    [(1%positive, O, 2%positive)]) as (w' & gl & cl & refs & Q & I & _ & A & _).
  - exact example_collecting_ok.
  - vm_compute. lia.
  - exists w', gl, cl, refs. split; [exact Q|]. split; [exact I|].
    apply (A 1%positive (example_head INACTIVE 0 0 true true false)); [reflexivity|].
    apply example_abandoned.
Defined.

(** That tick frees the multiplexed head; its channel, without subscriber now,
    moves from the churner to the garbage collection queue. *)
Example example_gc_tick :
  (w ← gc_tick 100 example_collecting;
   Ret (size (heads w), first (chanhead_reaper w), first (chanhead_churner w), timer_set (chanhead_reaper w))) =
  Ret (1%nat, Some 2%positive, None, true).
Proof. vm_compute. reflexivity. Qed.
End examples.
