(* ===== verification/HttpSub.v ===== *)
(** * Subscribers over HTTP: what they share, and long polling
    ([subscribers/longpoll.c], [subscribers/common.c], [util/nchan_output.c])

    A subscriber is the structure the code allocates for it, with the parts of
    the request and of its context that the handlers write.  What reaches the
    client is recorded, in order, as effects.  What the output filters of nginx
    answer is an argument ([answers]). *)

From S2P Require Import Prelude Nginx MsgId Msg.

Definition NGX_HTTP_OK : Z := 200.
Definition NGX_HTTP_NO_CONTENT : Z := 204.
Definition NGX_HTTP_SPECIAL_RESPONSE : Z := 300.
Definition NGX_HTTP_NOT_MODIFIED : Z := 304.
Definition NGX_HTTP_BAD_REQUEST : Z := 400.
Definition NGX_HTTP_NOT_FOUND : Z := 404.
Definition NGX_HTTP_REQUEST_TIMEOUT : Z := 408.
Definition NGX_HTTP_CLIENT_CLOSED_REQUEST : Z := 499.

(** ** Data *)

Inductive subscriber_type :=
  | LONGPOLL
  | EVENTSOURCE
  | HTTP_CHUNKED
  | HTTP_MULTIPART
  | HTTP_RAW_STREAM.
Global Instance subscriber_type_eq_dec : EqDecision subscriber_type.
Proof. solve_decision. Defined.

Record eventsource_ping_t := EsPingConf {
  ping_comment : bytes;
  ping_event : bytes;
  ping_data : bytes;
  ping_interval : Z;
}.

(** The settings of the location that the handlers read. *)
Record sub_conf := SubConf {
  subscriber_timeout : Z;
  unsubscribe_request_url : bool;
  subscribe_request_url : bool;
  longpoll_multimsg : bool;
  longpoll_multimsg_use_raw_stream_separator : bool;
  subscriber_http_raw_stream_separator : bytes;
  msg_in_etag_only : bool;
  custom_msgtag_header : bytes;
  eventsource_event_conf : bytes;
  eventsource_ping : eventsource_ping_t;
  allow_credentials : bool;
  allow_origin : option bytes;
}.

(** What of the request is only read: the [Origin] header, and whether it came
    over HTTP/2 ([r->stream]). *)
Record request_in := RequestIn { origin : option bytes; r_stream : bool }.

(** [r->headers_out]. *)
Record headers_out_t := HeadersOut {
  status : Z;
  status_line : option bytes;
  h_content_type : option bytes;
  content_length_n : option Z;
  last_modified_time : option Z;
  h_list : list (bytes * bytes);
}.

(** What is done to the rest of the server. *)
Inductive http_effect :=
  | SendHeader (h : headers_out_t) (header_only : bool)
  | Output (bufs : list bytes)                 (* a chain given to the output filter *)
  | UnsubscribeRequest
  | EnqueueCallback
  | DequeueCallback
  | MsgReserve (m : nchan_msg_t)
  | MsgRelease (m : nchan_msg_t)
  | FinalizeRequest (rc : Z).

(** [full_subscriber_t], with what the handlers write of the request and its
    context.  [abort_handler] tells that the cleanup of the request is
    [sudden_abort_handler], [multimsg_cleanup] that the one that releases the
    collected messages is registered.  [boundary] is the one of the request.
    [answers] holds the results of the next calls into nginx's output
    ([NGX_OK] when exhausted), [freed] tells that the memory was given back. *)
Record full_subscriber_t := Fsub {
  type : subscriber_type;
  dead : bool;
  reserved : Z;
  enqueued : bool;
  dequeue_after_response : bool;
  destroy_after_dequeue : bool;
  enable_sub_unsub_callbacks : bool;
  th : tag_heap;
  last_msgid : nchan_msg_id_t;
  timeout_ev : option Z;
  ping_ev : option Z;
  abort_handler : bool;
  multimsg_cleanup : bool;
  holding : bool;
  finalize_request : bool;
  already_responded : bool;
  awaiting_destruction : bool;
  shook_hands : bool;
  act_as_intervalpoll : bool;
  multimsg : list nchan_msg_t;
  ctx_sub : bool;
  sent_unsubscribe_request : bool;
  prev_msg_id : nchan_msg_id_t;
  msg_id : nchan_msg_id_t;
  boundary : bytes;
  headers_out : headers_out_t;
  header_only : bool;
  keepalive : bool;
  freed : bool;
  answers : list Z;
  out : list http_effect;
}.

(** Assignments to one field. *)
Definition with_type (f : full_subscriber_t) (v : subscriber_type) : full_subscriber_t :=
  Fsub v (dead f) (reserved f) (enqueued f) (dequeue_after_response f) (destroy_after_dequeue f)
    (enable_sub_unsub_callbacks f) (th f) (last_msgid f) (timeout_ev f) (ping_ev f) (abort_handler f)
    (multimsg_cleanup f) (holding f) (finalize_request f) (already_responded f) (awaiting_destruction f)
    (shook_hands f) (act_as_intervalpoll f) (multimsg f) (ctx_sub f) (sent_unsubscribe_request f) (prev_msg_id
    f) (msg_id f) (boundary f) (headers_out f) (header_only f) (keepalive f) (freed f) (answers f) (out f).
Definition with_dead (f : full_subscriber_t) (v : bool) : full_subscriber_t :=
  Fsub (type f) v (reserved f) (enqueued f) (dequeue_after_response f) (destroy_after_dequeue f)
    (enable_sub_unsub_callbacks f) (th f) (last_msgid f) (timeout_ev f) (ping_ev f) (abort_handler f)
    (multimsg_cleanup f) (holding f) (finalize_request f) (already_responded f) (awaiting_destruction f)
    (shook_hands f) (act_as_intervalpoll f) (multimsg f) (ctx_sub f) (sent_unsubscribe_request f) (prev_msg_id
    f) (msg_id f) (boundary f) (headers_out f) (header_only f) (keepalive f) (freed f) (answers f) (out f).
Definition with_reserved (f : full_subscriber_t) (v : Z) : full_subscriber_t :=
  Fsub (type f) (dead f) v (enqueued f) (dequeue_after_response f) (destroy_after_dequeue f)
    (enable_sub_unsub_callbacks f) (th f) (last_msgid f) (timeout_ev f) (ping_ev f) (abort_handler f)
    (multimsg_cleanup f) (holding f) (finalize_request f) (already_responded f) (awaiting_destruction f)
    (shook_hands f) (act_as_intervalpoll f) (multimsg f) (ctx_sub f) (sent_unsubscribe_request f) (prev_msg_id
    f) (msg_id f) (boundary f) (headers_out f) (header_only f) (keepalive f) (freed f) (answers f) (out f).
Definition with_enqueued (f : full_subscriber_t) (v : bool) : full_subscriber_t :=
  Fsub (type f) (dead f) (reserved f) v (dequeue_after_response f) (destroy_after_dequeue f)
    (enable_sub_unsub_callbacks f) (th f) (last_msgid f) (timeout_ev f) (ping_ev f) (abort_handler f)
    (multimsg_cleanup f) (holding f) (finalize_request f) (already_responded f) (awaiting_destruction f)
    (shook_hands f) (act_as_intervalpoll f) (multimsg f) (ctx_sub f) (sent_unsubscribe_request f) (prev_msg_id
    f) (msg_id f) (boundary f) (headers_out f) (header_only f) (keepalive f) (freed f) (answers f) (out f).
Definition with_dequeue_after_response (f : full_subscriber_t) (v : bool) : full_subscriber_t :=
  Fsub (type f) (dead f) (reserved f) (enqueued f) v (destroy_after_dequeue f) (enable_sub_unsub_callbacks f)
    (th f) (last_msgid f) (timeout_ev f) (ping_ev f) (abort_handler f) (multimsg_cleanup f) (holding f)
    (finalize_request f) (already_responded f) (awaiting_destruction f) (shook_hands f) (act_as_intervalpoll f)
    (multimsg f) (ctx_sub f) (sent_unsubscribe_request f) (prev_msg_id f) (msg_id f) (boundary f) (headers_out
    f) (header_only f) (keepalive f) (freed f) (answers f) (out f).
Definition with_destroy_after_dequeue (f : full_subscriber_t) (v : bool) : full_subscriber_t :=
  Fsub (type f) (dead f) (reserved f) (enqueued f) (dequeue_after_response f) v (enable_sub_unsub_callbacks f)
    (th f) (last_msgid f) (timeout_ev f) (ping_ev f) (abort_handler f) (multimsg_cleanup f) (holding f)
    (finalize_request f) (already_responded f) (awaiting_destruction f) (shook_hands f) (act_as_intervalpoll f)
    (multimsg f) (ctx_sub f) (sent_unsubscribe_request f) (prev_msg_id f) (msg_id f) (boundary f) (headers_out
    f) (header_only f) (keepalive f) (freed f) (answers f) (out f).
Definition with_enable_sub_unsub_callbacks (f : full_subscriber_t) (v : bool) : full_subscriber_t :=
  Fsub (type f) (dead f) (reserved f) (enqueued f) (dequeue_after_response f) (destroy_after_dequeue f) v (th f)
    (last_msgid f) (timeout_ev f) (ping_ev f) (abort_handler f) (multimsg_cleanup f) (holding f)
    (finalize_request f) (already_responded f) (awaiting_destruction f) (shook_hands f) (act_as_intervalpoll f)
    (multimsg f) (ctx_sub f) (sent_unsubscribe_request f) (prev_msg_id f) (msg_id f) (boundary f) (headers_out
    f) (header_only f) (keepalive f) (freed f) (answers f) (out f).
Definition with_th (f : full_subscriber_t) (v : tag_heap) : full_subscriber_t :=
  Fsub (type f) (dead f) (reserved f) (enqueued f) (dequeue_after_response f) (destroy_after_dequeue f)
    (enable_sub_unsub_callbacks f) v (last_msgid f) (timeout_ev f) (ping_ev f) (abort_handler f)
    (multimsg_cleanup f) (holding f) (finalize_request f) (already_responded f) (awaiting_destruction f)
    (shook_hands f) (act_as_intervalpoll f) (multimsg f) (ctx_sub f) (sent_unsubscribe_request f) (prev_msg_id
    f) (msg_id f) (boundary f) (headers_out f) (header_only f) (keepalive f) (freed f) (answers f) (out f).
Definition with_last_msgid (f : full_subscriber_t) (v : nchan_msg_id_t) : full_subscriber_t :=
  Fsub (type f) (dead f) (reserved f) (enqueued f) (dequeue_after_response f) (destroy_after_dequeue f)
    (enable_sub_unsub_callbacks f) (th f) v (timeout_ev f) (ping_ev f) (abort_handler f) (multimsg_cleanup f)
    (holding f) (finalize_request f) (already_responded f) (awaiting_destruction f) (shook_hands f)
    (act_as_intervalpoll f) (multimsg f) (ctx_sub f) (sent_unsubscribe_request f) (prev_msg_id f) (msg_id f)
    (boundary f) (headers_out f) (header_only f) (keepalive f) (freed f) (answers f) (out f).
Definition with_timeout_ev (f : full_subscriber_t) (v : option Z) : full_subscriber_t :=
  Fsub (type f) (dead f) (reserved f) (enqueued f) (dequeue_after_response f) (destroy_after_dequeue f)
    (enable_sub_unsub_callbacks f) (th f) (last_msgid f) v (ping_ev f) (abort_handler f) (multimsg_cleanup f)
    (holding f) (finalize_request f) (already_responded f) (awaiting_destruction f) (shook_hands f)
    (act_as_intervalpoll f) (multimsg f) (ctx_sub f) (sent_unsubscribe_request f) (prev_msg_id f) (msg_id f)
    (boundary f) (headers_out f) (header_only f) (keepalive f) (freed f) (answers f) (out f).
Definition with_ping_ev (f : full_subscriber_t) (v : option Z) : full_subscriber_t :=
  Fsub (type f) (dead f) (reserved f) (enqueued f) (dequeue_after_response f) (destroy_after_dequeue f)
    (enable_sub_unsub_callbacks f) (th f) (last_msgid f) (timeout_ev f) v (abort_handler f) (multimsg_cleanup f)
    (holding f) (finalize_request f) (already_responded f) (awaiting_destruction f) (shook_hands f)
    (act_as_intervalpoll f) (multimsg f) (ctx_sub f) (sent_unsubscribe_request f) (prev_msg_id f) (msg_id f)
    (boundary f) (headers_out f) (header_only f) (keepalive f) (freed f) (answers f) (out f).
Definition with_abort_handler (f : full_subscriber_t) (v : bool) : full_subscriber_t :=
  Fsub (type f) (dead f) (reserved f) (enqueued f) (dequeue_after_response f) (destroy_after_dequeue f)
    (enable_sub_unsub_callbacks f) (th f) (last_msgid f) (timeout_ev f) (ping_ev f) v (multimsg_cleanup f)
    (holding f) (finalize_request f) (already_responded f) (awaiting_destruction f) (shook_hands f)
    (act_as_intervalpoll f) (multimsg f) (ctx_sub f) (sent_unsubscribe_request f) (prev_msg_id f) (msg_id f)
    (boundary f) (headers_out f) (header_only f) (keepalive f) (freed f) (answers f) (out f).
Definition with_multimsg_cleanup (f : full_subscriber_t) (v : bool) : full_subscriber_t :=
  Fsub (type f) (dead f) (reserved f) (enqueued f) (dequeue_after_response f) (destroy_after_dequeue f)
    (enable_sub_unsub_callbacks f) (th f) (last_msgid f) (timeout_ev f) (ping_ev f) (abort_handler f) v (holding
    f) (finalize_request f) (already_responded f) (awaiting_destruction f) (shook_hands f) (act_as_intervalpoll
    f) (multimsg f) (ctx_sub f) (sent_unsubscribe_request f) (prev_msg_id f) (msg_id f) (boundary f)
    (headers_out f) (header_only f) (keepalive f) (freed f) (answers f) (out f).
Definition with_holding (f : full_subscriber_t) (v : bool) : full_subscriber_t :=
  Fsub (type f) (dead f) (reserved f) (enqueued f) (dequeue_after_response f) (destroy_after_dequeue f)
    (enable_sub_unsub_callbacks f) (th f) (last_msgid f) (timeout_ev f) (ping_ev f) (abort_handler f)
    (multimsg_cleanup f) v (finalize_request f) (already_responded f) (awaiting_destruction f) (shook_hands f)
    (act_as_intervalpoll f) (multimsg f) (ctx_sub f) (sent_unsubscribe_request f) (prev_msg_id f) (msg_id f)
    (boundary f) (headers_out f) (header_only f) (keepalive f) (freed f) (answers f) (out f).
Definition with_finalize_request (f : full_subscriber_t) (v : bool) : full_subscriber_t :=
  Fsub (type f) (dead f) (reserved f) (enqueued f) (dequeue_after_response f) (destroy_after_dequeue f)
    (enable_sub_unsub_callbacks f) (th f) (last_msgid f) (timeout_ev f) (ping_ev f) (abort_handler f)
    (multimsg_cleanup f) (holding f) v (already_responded f) (awaiting_destruction f) (shook_hands f)
    (act_as_intervalpoll f) (multimsg f) (ctx_sub f) (sent_unsubscribe_request f) (prev_msg_id f) (msg_id f)
    (boundary f) (headers_out f) (header_only f) (keepalive f) (freed f) (answers f) (out f).
Definition with_already_responded (f : full_subscriber_t) (v : bool) : full_subscriber_t :=
  Fsub (type f) (dead f) (reserved f) (enqueued f) (dequeue_after_response f) (destroy_after_dequeue f)
    (enable_sub_unsub_callbacks f) (th f) (last_msgid f) (timeout_ev f) (ping_ev f) (abort_handler f)
    (multimsg_cleanup f) (holding f) (finalize_request f) v (awaiting_destruction f) (shook_hands f)
    (act_as_intervalpoll f) (multimsg f) (ctx_sub f) (sent_unsubscribe_request f) (prev_msg_id f) (msg_id f)
    (boundary f) (headers_out f) (header_only f) (keepalive f) (freed f) (answers f) (out f).
Definition with_awaiting_destruction (f : full_subscriber_t) (v : bool) : full_subscriber_t :=
  Fsub (type f) (dead f) (reserved f) (enqueued f) (dequeue_after_response f) (destroy_after_dequeue f)
    (enable_sub_unsub_callbacks f) (th f) (last_msgid f) (timeout_ev f) (ping_ev f) (abort_handler f)
    (multimsg_cleanup f) (holding f) (finalize_request f) (already_responded f) v (shook_hands f)
    (act_as_intervalpoll f) (multimsg f) (ctx_sub f) (sent_unsubscribe_request f) (prev_msg_id f) (msg_id f)
    (boundary f) (headers_out f) (header_only f) (keepalive f) (freed f) (answers f) (out f).
Definition with_shook_hands (f : full_subscriber_t) (v : bool) : full_subscriber_t :=
  Fsub (type f) (dead f) (reserved f) (enqueued f) (dequeue_after_response f) (destroy_after_dequeue f)
    (enable_sub_unsub_callbacks f) (th f) (last_msgid f) (timeout_ev f) (ping_ev f) (abort_handler f)
    (multimsg_cleanup f) (holding f) (finalize_request f) (already_responded f) (awaiting_destruction f) v
    (act_as_intervalpoll f) (multimsg f) (ctx_sub f) (sent_unsubscribe_request f) (prev_msg_id f) (msg_id f)
    (boundary f) (headers_out f) (header_only f) (keepalive f) (freed f) (answers f) (out f).
Definition with_act_as_intervalpoll (f : full_subscriber_t) (v : bool) : full_subscriber_t :=
  Fsub (type f) (dead f) (reserved f) (enqueued f) (dequeue_after_response f) (destroy_after_dequeue f)
    (enable_sub_unsub_callbacks f) (th f) (last_msgid f) (timeout_ev f) (ping_ev f) (abort_handler f)
    (multimsg_cleanup f) (holding f) (finalize_request f) (already_responded f) (awaiting_destruction f)
    (shook_hands f) v (multimsg f) (ctx_sub f) (sent_unsubscribe_request f) (prev_msg_id f) (msg_id f) (boundary
    f) (headers_out f) (header_only f) (keepalive f) (freed f) (answers f) (out f).
Definition with_multimsg (f : full_subscriber_t) (v : list nchan_msg_t) : full_subscriber_t :=
  Fsub (type f) (dead f) (reserved f) (enqueued f) (dequeue_after_response f) (destroy_after_dequeue f)
    (enable_sub_unsub_callbacks f) (th f) (last_msgid f) (timeout_ev f) (ping_ev f) (abort_handler f)
    (multimsg_cleanup f) (holding f) (finalize_request f) (already_responded f) (awaiting_destruction f)
    (shook_hands f) (act_as_intervalpoll f) v (ctx_sub f) (sent_unsubscribe_request f) (prev_msg_id f) (msg_id
    f) (boundary f) (headers_out f) (header_only f) (keepalive f) (freed f) (answers f) (out f).
Definition with_ctx_sub (f : full_subscriber_t) (v : bool) : full_subscriber_t :=
  Fsub (type f) (dead f) (reserved f) (enqueued f) (dequeue_after_response f) (destroy_after_dequeue f)
    (enable_sub_unsub_callbacks f) (th f) (last_msgid f) (timeout_ev f) (ping_ev f) (abort_handler f)
    (multimsg_cleanup f) (holding f) (finalize_request f) (already_responded f) (awaiting_destruction f)
    (shook_hands f) (act_as_intervalpoll f) (multimsg f) v (sent_unsubscribe_request f) (prev_msg_id f) (msg_id
    f) (boundary f) (headers_out f) (header_only f) (keepalive f) (freed f) (answers f) (out f).
Definition with_sent_unsubscribe_request (f : full_subscriber_t) (v : bool) : full_subscriber_t :=
  Fsub (type f) (dead f) (reserved f) (enqueued f) (dequeue_after_response f) (destroy_after_dequeue f)
    (enable_sub_unsub_callbacks f) (th f) (last_msgid f) (timeout_ev f) (ping_ev f) (abort_handler f)
    (multimsg_cleanup f) (holding f) (finalize_request f) (already_responded f) (awaiting_destruction f)
    (shook_hands f) (act_as_intervalpoll f) (multimsg f) (ctx_sub f) v (prev_msg_id f) (msg_id f) (boundary f)
    (headers_out f) (header_only f) (keepalive f) (freed f) (answers f) (out f).
Definition with_prev_msg_id (f : full_subscriber_t) (v : nchan_msg_id_t) : full_subscriber_t :=
  Fsub (type f) (dead f) (reserved f) (enqueued f) (dequeue_after_response f) (destroy_after_dequeue f)
    (enable_sub_unsub_callbacks f) (th f) (last_msgid f) (timeout_ev f) (ping_ev f) (abort_handler f)
    (multimsg_cleanup f) (holding f) (finalize_request f) (already_responded f) (awaiting_destruction f)
    (shook_hands f) (act_as_intervalpoll f) (multimsg f) (ctx_sub f) (sent_unsubscribe_request f) v (msg_id f)
    (boundary f) (headers_out f) (header_only f) (keepalive f) (freed f) (answers f) (out f).
Definition with_msg_id (f : full_subscriber_t) (v : nchan_msg_id_t) : full_subscriber_t :=
  Fsub (type f) (dead f) (reserved f) (enqueued f) (dequeue_after_response f) (destroy_after_dequeue f)
    (enable_sub_unsub_callbacks f) (th f) (last_msgid f) (timeout_ev f) (ping_ev f) (abort_handler f)
    (multimsg_cleanup f) (holding f) (finalize_request f) (already_responded f) (awaiting_destruction f)
    (shook_hands f) (act_as_intervalpoll f) (multimsg f) (ctx_sub f) (sent_unsubscribe_request f) (prev_msg_id
    f) v (boundary f) (headers_out f) (header_only f) (keepalive f) (freed f) (answers f) (out f).
Definition with_headers_out (f : full_subscriber_t) (v : headers_out_t) : full_subscriber_t :=
  Fsub (type f) (dead f) (reserved f) (enqueued f) (dequeue_after_response f) (destroy_after_dequeue f)
    (enable_sub_unsub_callbacks f) (th f) (last_msgid f) (timeout_ev f) (ping_ev f) (abort_handler f)
    (multimsg_cleanup f) (holding f) (finalize_request f) (already_responded f) (awaiting_destruction f)
    (shook_hands f) (act_as_intervalpoll f) (multimsg f) (ctx_sub f) (sent_unsubscribe_request f) (prev_msg_id
    f) (msg_id f) (boundary f) v (header_only f) (keepalive f) (freed f) (answers f) (out f).
Definition with_header_only (f : full_subscriber_t) (v : bool) : full_subscriber_t :=
  Fsub (type f) (dead f) (reserved f) (enqueued f) (dequeue_after_response f) (destroy_after_dequeue f)
    (enable_sub_unsub_callbacks f) (th f) (last_msgid f) (timeout_ev f) (ping_ev f) (abort_handler f)
    (multimsg_cleanup f) (holding f) (finalize_request f) (already_responded f) (awaiting_destruction f)
    (shook_hands f) (act_as_intervalpoll f) (multimsg f) (ctx_sub f) (sent_unsubscribe_request f) (prev_msg_id
    f) (msg_id f) (boundary f) (headers_out f) v (keepalive f) (freed f) (answers f) (out f).
Definition with_keepalive (f : full_subscriber_t) (v : bool) : full_subscriber_t :=
  Fsub (type f) (dead f) (reserved f) (enqueued f) (dequeue_after_response f) (destroy_after_dequeue f)
    (enable_sub_unsub_callbacks f) (th f) (last_msgid f) (timeout_ev f) (ping_ev f) (abort_handler f)
    (multimsg_cleanup f) (holding f) (finalize_request f) (already_responded f) (awaiting_destruction f)
    (shook_hands f) (act_as_intervalpoll f) (multimsg f) (ctx_sub f) (sent_unsubscribe_request f) (prev_msg_id
    f) (msg_id f) (boundary f) (headers_out f) (header_only f) v (freed f) (answers f) (out f).
Definition with_freed (f : full_subscriber_t) (v : bool) : full_subscriber_t :=
  Fsub (type f) (dead f) (reserved f) (enqueued f) (dequeue_after_response f) (destroy_after_dequeue f)
    (enable_sub_unsub_callbacks f) (th f) (last_msgid f) (timeout_ev f) (ping_ev f) (abort_handler f)
    (multimsg_cleanup f) (holding f) (finalize_request f) (already_responded f) (awaiting_destruction f)
    (shook_hands f) (act_as_intervalpoll f) (multimsg f) (ctx_sub f) (sent_unsubscribe_request f) (prev_msg_id
    f) (msg_id f) (boundary f) (headers_out f) (header_only f) (keepalive f) v (answers f) (out f).
Definition with_answers (f : full_subscriber_t) (v : list Z) : full_subscriber_t :=
  Fsub (type f) (dead f) (reserved f) (enqueued f) (dequeue_after_response f) (destroy_after_dequeue f)
    (enable_sub_unsub_callbacks f) (th f) (last_msgid f) (timeout_ev f) (ping_ev f) (abort_handler f)
    (multimsg_cleanup f) (holding f) (finalize_request f) (already_responded f) (awaiting_destruction f)
    (shook_hands f) (act_as_intervalpoll f) (multimsg f) (ctx_sub f) (sent_unsubscribe_request f) (prev_msg_id
    f) (msg_id f) (boundary f) (headers_out f) (header_only f) (keepalive f) (freed f) v (out f).
Definition with_out (f : full_subscriber_t) (v : list http_effect) : full_subscriber_t :=
  Fsub (type f) (dead f) (reserved f) (enqueued f) (dequeue_after_response f) (destroy_after_dequeue f)
    (enable_sub_unsub_callbacks f) (th f) (last_msgid f) (timeout_ev f) (ping_ev f) (abort_handler f)
    (multimsg_cleanup f) (holding f) (finalize_request f) (already_responded f) (awaiting_destruction f)
    (shook_hands f) (act_as_intervalpoll f) (multimsg f) (ctx_sub f) (sent_unsubscribe_request f) (prev_msg_id
    f) (msg_id f) (boundary f) (headers_out f) (header_only f) (keepalive f) (freed f) (answers f) v.

Definition emit (f : full_subscriber_t) (e : http_effect) : full_subscriber_t := with_out f (out f ++ [e]).

(** Memory that was given back is not touched. *)
Definition live (f : full_subscriber_t) : outcome unit := c_assert (negb (freed f)).

(** The result of the next call into nginx's output. *)
Definition answer (f : full_subscriber_t) : Z * full_subscriber_t :=
  match answers f with [] => (NGX_OK, f) | rc :: l => (rc, with_answers f l) end.

Definition with_status (f : full_subscriber_t) (s : Z) (line : option bytes) : full_subscriber_t :=
  let h := headers_out f in
  with_headers_out f (HeadersOut s line (h_content_type h) (content_length_n h) (last_modified_time h) (h_list h)).
Definition with_content_type (f : full_subscriber_t) (t : option bytes) : full_subscriber_t :=
  let h := headers_out f in
  with_headers_out f (HeadersOut (status h) (status_line h) t (content_length_n h) (last_modified_time h) (h_list h)).
Definition with_content_length (f : full_subscriber_t) (n : option Z) : full_subscriber_t :=
  let h := headers_out f in
  with_headers_out f (HeadersOut (status h) (status_line h) (h_content_type h) n (last_modified_time h) (h_list h)).
Definition with_last_modified (f : full_subscriber_t) (t : Z) : full_subscriber_t :=
  let h := headers_out f in
  with_headers_out f (HeadersOut (status h) (status_line h) (h_content_type h) (content_length_n h) (Some t) (h_list h)).

Definition nchan_add_response_header (f : full_subscriber_t) (name value : bytes) : full_subscriber_t :=
  let h := headers_out f in
  with_headers_out f (HeadersOut (status h) (status_line h) (h_content_type h) (content_length_n h)
    (last_modified_time h) (h_list h ++ [(name, value)])).

(** [ngx_http_send_header] and [nchan_output_filter]. *)
Definition ngx_http_send_header (f : full_subscriber_t) : Z * full_subscriber_t :=
  answer (emit f (SendHeader (headers_out f) (header_only f))).
Definition nchan_output_filter (f : full_subscriber_t) (bufs : list bytes) : Z * full_subscriber_t :=
  answer (emit f (Output bufs)).

Definition nchan_http_finalize_request (f : full_subscriber_t) (rc : Z) : full_subscriber_t := emit f (FinalizeRequest rc).

(** The links that [nchan_bufchain_pool_reserve(count)] returns, filled in
    order: one more would be written through [NULL], one less would be sent with
    what it held before. *)
Definition fill_chain (count : nat) (bufs : list bytes) : outcome (list bytes) :=
  c_assert (count =? length bufs)%nat;; Ret bufs.

Section http.
Context (cf : sub_conf) (rq : request_in).
(** The content of a message's file, by name; what uninitialised memory holds. *)
Context (files : bytes -> bytes) (ptr_words : positive -> list Z).

(** What is sent of a buffer. *)
Definition buf_bytes (b : ngx_buf_t) : bytes :=
  if in_file b then
    match buf_file b with Some fl => take (Z.to_nat (buf_file_size b)) (files (file_name fl)) | None => [] end
  else buf_content b.

(** ** Responses ([util/nchan_output.c]) *)

Definition nchan_include_access_control_if_needed (f : full_subscriber_t) : full_subscriber_t :=
  match origin rq with
  | None => f
  | Some o =>
      let f := if allow_credentials cf
               then nchan_add_response_header f (bytes_of "Access-Control-Allow-Credentials") (bytes_of "true") else f in
      match allow_origin cf with
      | Some [c] => nchan_add_response_header f (bytes_of "Access-Control-Allow-Origin") (if c =? ch_star then [c] else o)
      | _ => nchan_add_response_header f (bytes_of "Access-Control-Allow-Origin") o
      end
  end.

Definition nchan_respond_status (f : full_subscriber_t) (status_code : Z) (line : option bytes)
    (status_body : option (list bytes)) (finalize : bool) : full_subscriber_t * Z :=
  let f := with_status f status_code (match line with Some l => Some l | None => status_line (headers_out f) end) in
  let f := match status_body with None => with_header_only (with_content_length f (Some 0)) true | Some _ => f end in
  let f := nchan_include_access_control_if_needed f in
  let '(rc, f) := ngx_http_send_header f in
  let '(rc, f) := match status_body with Some b => nchan_output_filter f b | None => (rc, f) end in
  (if finalize then nchan_http_finalize_request f rc else f, rc).

(** The id a client asks from next: in [Last-Modified] and [Etag], or in the
    latter only. *)
Definition nchan_set_msgid_http_response_headers (f : full_subscriber_t) (msgid : nchan_msg_id_t) :
    outcome full_subscriber_t :=
  '(f, etag, output_etag) ←
    (if negb (msg_in_etag_only cf) then
       s ← msgtag_to_str (th f) msgid;
       if 0 <? time msgid then Ret (with_last_modified f (time msgid), s, true) else Ret (f, s, false)
     else s ← msgid_to_str (th f) msgid; Ret (f, s, true));
  let custom := custom_msgtag_header cf in
  let name := match custom with [] => bytes_of "Etag" | _ => custom end in
  let exposed := match custom with
                 | [] => bytes_of "Last-Modified, Etag, Content-Type"
                 | _ => take 255 (bytes_of "Last-Modified, " ++ custom ++ bytes_of ", Content-Type")
                 end in
  let f := if output_etag : bool then nchan_add_response_header f name etag else f in
  let f := match origin rq with
           | Some _ => nchan_add_response_header f (bytes_of "Access-Control-Expose-Headers") exposed | None => f end in
  Ret (nchan_add_response_header f (bytes_of "Vary") (bytes_of "If-None-Match, If-Modified-Since")).

(** The result, and whether an error message was set. *)
Definition nchan_respond_msg (f : full_subscriber_t) (msg : nchan_msg_t) (msgid : nchan_msg_id_t) (finalize : bool) :
    outcome (full_subscriber_t * Z) :=
  let '(f, rchain) := if 0 <? ngx_buf_size (buf msg)
                      then (with_content_length f (Some (ngx_buf_size (buf msg))), Some [buf_bytes (buf msg)])
                      else (with_header_only (with_content_length f (Some 0)) true, None) in
  let f := match content_type msg with Some t => with_content_type f (Some t) | None => f end in
  f ← nchan_set_msgid_http_response_headers f msgid;
  let f := with_status f NGX_HTTP_OK (status_line (headers_out f)) in
  let f := nchan_include_access_control_if_needed f in
  let '(rc, f) := ngx_http_send_header f in
  if NGX_HTTP_SPECIAL_RESPONSE <=? rc then Ret (f, NGX_ERROR)
  else
    let '(rc, f) := match rchain with Some b => nchan_output_filter f b | None => (rc, f) end in
    Ret (if finalize then nchan_http_finalize_request f rc else f, rc).

(** ** Common to all HTTP subscribers ([subscribers/common.c]) *)

Definition nchan_cleverly_output_headers_only_for_later_response (f : full_subscriber_t) : full_subscriber_t :=
  let f := if r_stream rq then with_header_only (with_status f NGX_HTTP_OK (Some (bytes_of "200 OK"))) false
           else with_header_only (with_status f NGX_HTTP_NO_CONTENT (Some (bytes_of "200 OK"))) true in
  let f := nchan_include_access_control_if_needed f in
  let '(_, f) := ngx_http_send_header f in
  if status (headers_out f) =? NGX_HTTP_OK then with_keepalive f true else f.

Definition nchan_request_set_content_type_multipart_boundary_header (f : full_subscriber_t) : full_subscriber_t :=
  with_content_type f (Some (take 100 (bytes_of "multipart/mixed; boundary=" ++ boundary f))).

Definition nchan_subscriber_unsubscribe_request (f : full_subscriber_t) : full_subscriber_t :=
  if negb (enable_sub_unsub_callbacks f) then f
  else if sent_unsubscribe_request f then f
  else emit (with_sent_unsubscribe_request f true) UnsubscribeRequest.

(** ** Long polling ([subscribers/longpoll.c]) *)

Definition longpoll_subscriber_destroy (f : full_subscriber_t) : outcome full_subscriber_t :=
  live f;;
  if 0 <? reserved f then Ret (with_awaiting_destruction f true)
  else
    '(th', id', _) ← nchan_free_msg_id (th f) (last_msgid f);
    c_assert (dead f);;
    Ret (with_freed (with_last_msgid (with_th f th') id') true).

Definition ensure_request_hold (f : full_subscriber_t) : full_subscriber_t :=
  if negb (holding f) then with_holding f true else f.

Definition longpoll_reserve (f : full_subscriber_t) : outcome full_subscriber_t :=
  live f;;
  let f := ensure_request_hold f in Ret (with_reserved f (reserved f + 1)).

Definition longpoll_release (f : full_subscriber_t) (nodestroy : bool) : outcome (full_subscriber_t * Z) :=
  live f;;
  c_assert (0 <? reserved f);;
  let f := with_reserved f (reserved f - 1) in
  if negb nodestroy && awaiting_destruction f && (reserved f =? 0) then
    f ← longpoll_subscriber_destroy f; Ret (f, NGX_ABORT)
  else Ret (f, NGX_OK).

Definition longpoll_enqueue (f : full_subscriber_t) : outcome (full_subscriber_t * Z) :=
  live f;;
  c_assert (negb (enqueued f));;
  let f := ensure_request_hold (with_enqueued (with_finalize_request f true) true) in
  let f := if 0 <? subscriber_timeout cf then with_timeout_ev f (Some (subscriber_timeout cf * 1000)) else f in
  Ret (emit f EnqueueCallback, NGX_OK).

Definition longpoll_dequeue (f : full_subscriber_t) : outcome (full_subscriber_t * Z) :=
  live f;;
  let finalize_now := finalize_request f in
  let f := emit (with_timeout_ev f None) DequeueCallback in
  let f := if enqueued f && enable_sub_unsub_callbacks f && unsubscribe_request_url cf
           then nchan_subscriber_unsubscribe_request f else f in
  let f := with_ctx_sub (with_enqueued f false) false in
  let f := if finalize_now then with_dead (nchan_http_finalize_request f NGX_OK) true else f in
  f ← (if destroy_after_dequeue f then longpoll_subscriber_destroy f else Ret f);
  Ret (f, NGX_OK).

(** [es_dequeue] ([subscribers/eventsource.c]). *)
Definition es_dequeue (f : full_subscriber_t) : outcome (full_subscriber_t * Z) :=
  live f;;
  longpoll_dequeue (with_ping_ev f None).

(** [sub->fn->dequeue(sub)]. *)
Definition fn_dequeue (f : full_subscriber_t) : outcome (full_subscriber_t * Z) :=
  if decide (type f = EVENTSOURCE) then es_dequeue f else longpoll_dequeue f.

Definition sudden_abort_handler (f : full_subscriber_t) : outcome full_subscriber_t :=
  live f;;
  let f := if negb (dead f)
           then with_status f NGX_HTTP_CLIENT_CLOSED_REQUEST (status_line (headers_out f)) else f in
  '(f, _) ← fn_dequeue (with_dead f true); Ret f.

Definition dequeue_maybe (f : full_subscriber_t) : outcome full_subscriber_t :=
  live f;;
  if dequeue_after_response f then '(f, _) ← fn_dequeue f; Ret f else Ret f.

Definition abort_response (f : full_subscriber_t) : outcome (full_subscriber_t * Z) :=
  '(f, _) ← fn_dequeue f; Ret (f, NGX_ERROR).

(** [palloc_ok]: the allocations from the pool of the request succeed. *)
Definition longpoll_multipart_add (f : full_subscriber_t) (msg : nchan_msg_t) (palloc_ok : bool) : full_subscriber_t * Z :=
  if negb palloc_ok then (f, NGX_ERROR)
  else (with_multimsg (emit f (MsgReserve msg)) (multimsg f ++ [msg]), NGX_OK).

(** What every handler that gets a message does with its id. *)
Definition move_to_msg (f : full_subscriber_t) (msg : nchan_msg_t) (new : option positive) : outcome full_subscriber_t :=
  let f := with_prev_msg_id f (last_msgid f) in
  '(th', i, _) ← update_subscriber_last_msg_id ptr_words (th f) (last_msgid f) (Some msg) new;
  Ret (with_msg_id (with_last_msgid (with_th f th') i) i).

Definition longpoll_respond_message (f : full_subscriber_t) (msg : nchan_msg_t) (palloc_ok : bool) (new : option positive) :
    outcome (full_subscriber_t * Z) :=
  live f;;
  f ← move_to_msg f msg new;
  let f := with_timeout_ev f None in
  if negb (longpoll_multimsg cf) then
    let f := with_abort_handler f false in
    c_assert (negb (already_responded f));;
    let f := with_already_responded f true in
    '(f, rc) ← nchan_respond_msg f msg (last_msgid f) false;
    if negb (rc =? NGX_OK) then abort_response f
    else f ← dequeue_maybe f; Ret (f, rc)
  else
    let '(f, rc) := longpoll_multipart_add f msg palloc_ok in
    if negb (rc =? NGX_OK) then abort_response f
    else f ← dequeue_maybe f; Ret (f, rc).

(** The cleanup of the request that [longpoll_multipart_respond] registers. *)
Definition multipart_request_cleanup_handler (f : full_subscriber_t) : full_subscriber_t :=
  with_out f (out f ++ (MsgRelease <$> multimsg f)).

(** [char_boundary], of which the first, the others and the last boundary are
    parts. *)
Definition char_boundary (f : full_subscriber_t) : bytes :=
  take 50 ([ch_cr; ch_nl; ch_dash; ch_dash] ++ boundary f ++ [ch_dash; ch_dash; ch_cr; ch_nl]).
Definition boundary_mid (f : full_subscriber_t) : bytes :=
  take (length (char_boundary f) - 4) (char_boundary f).
Definition boundary_first (f : full_subscriber_t) : bytes := drop 2 (boundary_mid f).

(** The loop over the collected messages. *)
Fixpoint multimsg_loop (f : full_subscriber_t) (is_first : bool) (msgs : list nchan_msg_t) : list bytes :=
  match msgs with
  | [] => []
  | msg :: rest =>
      let sep := longpoll_multimsg_use_raw_stream_separator cf in
      (if sep then []
       else [if is_first then boundary_first f else boundary_mid f] ++
            match content_type msg with
            | Some t => [[ch_cr; ch_nl] ++ bytes_of "Content-Type: "; t]
            | None => []
            end ++ [[ch_cr; ch_nl; ch_cr; ch_nl]]) ++
      (if 0 <? ngx_buf_size (buf msg) then [buf_bytes (buf msg)] else []) ++
      (if sep then [subscriber_http_raw_stream_separator cf]
       else match rest with [] => [char_boundary f] | _ => [] end) ++
      multimsg_loop f false rest
  end.

Definition longpoll_multipart_respond (f : full_subscriber_t) : outcome (full_subscriber_t * Z) :=
  let f := with_multimsg_cleanup (with_dequeue_after_response (with_abort_handler f false) true) true in
  match multimsg f, list.last (multimsg f) with
  | [msg], _ =>
      '(f, rc) ← nchan_respond_msg f msg (last_msgid f) false;
      if negb (rc =? NGX_OK) then abort_response f else Ret (f, NGX_OK)
  | msgs, Some lastmsg =>
      let f := if negb (longpoll_multimsg_use_raw_stream_separator cf)
               then nchan_request_set_content_type_multipart_boundary_header f else f in
      let bufs := multimsg_loop f true msgs in
      let f := with_status f NGX_HTTP_OK (status_line (headers_out f)) in
      let f := with_content_length f (Some (Z.of_nat (length (concat bufs)))) in
      f ← nchan_set_msgid_http_response_headers f (id lastmsg);
      let f := nchan_include_access_control_if_needed f in
      let '(rc, f) := ngx_http_send_header f in
      if negb (rc =? NGX_OK) then abort_response f
      else
        let '(rc, f) := nchan_output_filter f bufs in
        if negb (rc =? NGX_OK) then abort_response f else Ret (f, NGX_OK)
  | [], None => Crash    (* multimsg_last->msg *)
  | _, None => Crash
  end.

Definition longpoll_respond_status (f : full_subscriber_t) (status_code : Z) (line : option bytes)
    (status_body : option (list bytes)) : outcome (full_subscriber_t * Z) :=
  live f;;
  let is_no_content := (status_code =? NGX_HTTP_NO_CONTENT) ||
                       (status_code =? NGX_HTTP_NOT_MODIFIED) && bool_decide (line = None) in
  if negb (act_as_intervalpoll f) && is_no_content then
    if longpoll_multimsg cf then
      match multimsg f with
      | [] => Ret (f, NGX_OK)
      | _ =>
          '(f, rc) ← longpoll_multipart_respond f;
          if rc =? NGX_OK then f ← dequeue_maybe f; Ret (f, NGX_OK) else Ret (f, NGX_OK)
      end
    else Ret (f, NGX_OK)
  else
    let status_code :=
      if act_as_intervalpoll f &&
         ((status_code =? NGX_HTTP_NO_CONTENT) || (status_code =? NGX_HTTP_NOT_MODIFIED) || (status_code =? NGX_HTTP_NOT_FOUND))
      then NGX_HTTP_NOT_MODIFIED else status_code in
    let f := with_dequeue_after_response f true in
    f ← nchan_set_msgid_http_response_headers f (last_msgid f);
    let f := with_abort_handler f false in
    let '(f, _) := nchan_respond_status f status_code line status_body false in
    f ← dequeue_maybe f; Ret (f, NGX_OK).

(** After the dequeueing only the request is used, not the subscriber. *)
Definition subscriber_respond_unqueued_status (f : full_subscriber_t) (status_code : Z) (line : option bytes)
    (status_body : option (list bytes)) : outcome (full_subscriber_t * Z) :=
  let f := with_dead (with_finalize_request (with_abort_handler f false) false) true in
  '(f, _) ← fn_dequeue f;
  let f := if unsubscribe_request_url cf || subscribe_request_url cf then with_sent_unsubscribe_request f true else f in
  Ret (nchan_respond_status f status_code line status_body true).

Definition subscriber_maybe_dequeue_after_status_response (f : full_subscriber_t) (status_code : Z) :
    outcome full_subscriber_t :=
  if (400 <=? status_code) && (status_code <? 600) || (status_code =? NGX_HTTP_NOT_MODIFIED) then
    let f := with_keepalive (with_abort_handler f false) false in
    let f := with_status (with_finalize_request f true) status_code (status_line (headers_out f)) in
    '(f, _) ← fn_dequeue f; Ret f
  else Ret f.

(** ** Creation *)

(** [nchan_subscriber_init] and [longpoll_subscriber_create], whose allocations
    succeed or abort.  The copy of the id takes its memory at [new]. *)
Definition longpoll_subscriber_create (th : tag_heap) (msg_id : option nchan_msg_id_t) (new : option positive)
    (bdry : bytes) (answers : list Z) : outcome full_subscriber_t :=
  '(th', i) ← match msg_id with
              | Some i => '(th', i', _) ← nchan_copy_new_msg_id th i new; Ret (th', i')
              | None => Ret (th, MsgId 0 (fixed [0; 0; 0; 0]) 0 1)
              end;
  Ret {| type := LONGPOLL; dead := false; reserved := 0; enqueued := false;
         dequeue_after_response := negb (longpoll_multimsg cf); destroy_after_dequeue := true;
         enable_sub_unsub_callbacks := false; th := th'; last_msgid := i; timeout_ev := None; ping_ev := None;
         abort_handler := true; multimsg_cleanup := false; holding := false; finalize_request := true;
         already_responded := false; awaiting_destruction := false; shook_hands := false;
         act_as_intervalpoll := false; multimsg := []; ctx_sub := true; sent_unsubscribe_request := false;
         prev_msg_id := i; msg_id := NCHAN_ZERO_MSGID; boundary := bdry;
         headers_out := HeadersOut 0 None None None None []; header_only := false; keepalive := true;
         freed := false; answers := answers; out := [] |}.

(** [intervalpoll_subscriber_create] ([subscribers/intervalpoll.c]). *)
Definition intervalpoll_subscriber_create (th : tag_heap) (msg_id : option nchan_msg_id_t) (new : option positive)
    (bdry : bytes) (answers : list Z) : outcome full_subscriber_t :=
  f ← longpoll_subscriber_create th msg_id new bdry answers; Ret (with_act_as_intervalpoll f true).

(** [nchan_subscriber_common_setup], which the other protocols end with. *)
Definition nchan_subscriber_common_setup (f : full_subscriber_t) (ty : subscriber_type) (callbacks dequeue : bool) :
    full_subscriber_t :=
  with_dequeue_after_response (with_enable_sub_unsub_callbacks (with_type f ty) callbacks) dequeue.
End http.
