(* ===== verification/HttpStream.v ===== *)
(** * Streaming subscribers over HTTP ([subscribers/eventsource.c],
    [http-chunked.c], [http-multipart-mixed.c], [http-raw-stream.c])

    One section for each protocol: the headers, what a message becomes, what a
    status becomes, and the way into the channel.  They share the structure and
    the ends of long polling (HttpSub).  A chain of buffers is the list of their
    contents. *)

From S2P Require Import Prelude Nginx MsgId Msg Scan HttpSub.

(** Lower-case hexadecimal, as printed by [%xi]. *)
Definition hex_digit (d : Z) : Z := if d <? 10 then ch_0 + d else 87 + d.
Fixpoint hex_fuel (f : nat) (n : Z) (acc : bytes) : bytes :=
  match f with
  | O => acc
  | S f' =>
      let acc' := hex_digit (n `mod` 16) :: acc in
      if n `div` 16 =? 0 then acc' else hex_fuel f' (n `div` 16) acc'
  end.
Definition hex (n : Z) : bytes := hex_fuel (S (Z.to_nat (Z.log2 n))) n [].

(** [ngx_http_time]: "Mon, 28 Sep 1970 06:00:00 GMT". *)
Class NgxTime := {
  ngx_http_time : Z -> bytes;
  ngx_http_time_length t : length (ngx_http_time t) = 29%nat;
}.

(** [isspace] in the C locale. *)
Definition is_space (c : Z) : bool := (c =? ch_space) || (9 <=? c) && (c <=? 13).

Section streams.
Context `{NgxString} `{NgxTime} (cf : sub_conf) (rq : request_in).
Context (files : bytes -> bytes) (ptr_words : positive -> list Z).

(** A response restarts the timeout. *)
Definition restart_timeout (f : full_subscriber_t) : full_subscriber_t :=
  match timeout_ev f with Some _ => with_timeout_ev f (Some (subscriber_timeout cf * 1000)) | None => f end.

Definition ignored_status (status_code : Z) (line : option bytes) : bool :=
  (status_code =? NGX_HTTP_NO_CONTENT) || (status_code =? NGX_HTTP_NOT_MODIFIED) && bool_decide (line = None).
Definition error_before_handshake (f : full_subscriber_t) (status_code : Z) : bool :=
  negb (shook_hands f) && (400 <=? status_code) && (status_code <? 600).

(** ** EventSource *)

Definition es_ensure_headers_sent (f : full_subscriber_t) : full_subscriber_t :=
  if negb (shook_hands f) then
    let f := with_content_length (with_content_type f (Some (bytes_of "text/event-stream; charset=utf-8"))) None in
    let f := nchan_cleverly_output_headers_only_for_later_response cf rq f in
    let f := with_header_only f false in
    let '(_, f) := nchan_output_filter f [bytes_of ": hi" ++ [ch_nl; ch_nl]] in
    with_shook_hands f true
  else f.

(** The buffers of one line of data. *)
Definition create_dataline_bufchain (databuf : bytes) : outcome (list bytes) :=
  fill_chain (if (length databuf =? 0)%nat then 1 else 2)
    (bytes_of "data: " :: match databuf with [] => [] | _ => [databuf] end).

(** The loop over the lines of a message in memory; a line includes its
    newline.  [s] is what is between [cur] and [last]. *)
Fixpoint es_memory_loop (fuel : nat) (s : bytes) : outcome (list bytes) :=
  match fuel with
  | O => NoFuel
  | S fuel' =>
      match ngx_strlchr s ch_nl with
      | None => create_dataline_bufchain s
      | Some k =>
          first ← create_dataline_bufchain (take (S k) s);
          rest ← es_memory_loop fuel' (drop (S k) s);
          Ret (first ++ rest)
      end
  end.

(** [fscanf(stream, "%*[^\n]\n")] at the start of [s]: how many bytes are
    consumed, or [EOF] ([None]).  The conversion needs at least one byte that is
    not a newline; the newline of the format then matches any white space. *)
Fixpoint span_while (p : Z -> bool) (s : bytes) : nat :=
  match s with c :: s' => if p c then S (span_while p s') else O | [] => O end.
Definition fscanf_line (s : bytes) : option nat :=
  match s with
  | [] => None
  | _ =>
      match span_while (fun c => negb (c =? ch_nl)) s with
      | O => Some O
      | n => Some (n + span_while is_space (drop n s))%nat
      end
  end.

(** The loop over the lines of a message in a file: [s] is the file from
    [fcur] on, [left] is [flast - fcur]. *)
Fixpoint es_file_loop (fuel : nat) (s : bytes) (left : nat) : outcome (list bytes) :=
  match fuel with
  | O => NoFuel
  | S fuel' =>
      let n := match fscanf_line s with Some n => n | None => left end in
      first ← create_dataline_bufchain (take n s);
      if (n <? left)%nat then
        rest ← es_file_loop fuel' (drop n s) (left - n); Ret (first ++ rest)
      else Ret first
  end.

Definition prepend_es_response_line (lbl str : bytes) (chain : list bytes) : outcome (list bytes) :=
  line ← fill_chain 3 [lbl; str; [ch_nl]]; Ret (line ++ chain).

(** [MSGID_BUF_LEN]. *)
Definition nchan_subscriber_set_recyclable_msgid_str (f : full_subscriber_t) : outcome bytes :=
  s ← msgid_to_str (th f) (last_msgid f); Ret (nchan_strcpy s (10 * 255)).

Definition es_message_chain (fuel : nat) (f : full_subscriber_t) (msg : nchan_msg_t) : outcome (list bytes) :=
  datalines ← (if negb (in_file (buf msg)) then es_memory_loop fuel (buf_content (buf msg))
               else match buf_file (buf msg) with
                    | Some fl => es_file_loop fuel (files (file_name fl)) (Z.to_nat (buf_file_size (buf msg)))
                    | None => Crash
                    end);
  let chain := datalines ++ [[ch_nl; ch_nl]] in
  msgid ← nchan_subscriber_set_recyclable_msgid_str f;
  chain ← prepend_es_response_line (bytes_of "id: ") msgid chain;
  match eventsource_event_conf cf, eventsource_event msg with
  | _ :: _, _ => prepend_es_response_line (bytes_of "event: ") (eventsource_event_conf cf) chain
  | [], Some e => prepend_es_response_line (bytes_of "event: ") e chain
  | [], None => Ret chain
  end.

Definition es_respond_message (fuel : nat) (f : full_subscriber_t) (msg : nchan_msg_t) (new : option positive) :
    outcome (full_subscriber_t * Z) :=
  live f;;
  f ← move_to_msg ptr_words f msg new;
  let f := es_ensure_headers_sent (restart_timeout f) in
  chain ← es_message_chain fuel f msg;
  let '(rc, f) := nchan_output_filter f chain in
  Ret (f, rc).

Definition es_respond_status (f : full_subscriber_t) (status_code : Z) (line : option bytes)
    (status_body : option (list bytes)) : outcome (full_subscriber_t * Z) :=
  live f;;
  if ignored_status status_code line then Ret (f, NGX_OK)
  else if error_before_handshake f status_code then
    subscriber_respond_unqueued_status cf rq f status_code line status_body
  else
    let f := es_ensure_headers_sent f in
    let resp := take 256 ([ch_colon] ++ dec status_code ++ [ch_colon; ch_space] ++
                          match line with Some l => l | None => [] end ++ [ch_nl; ch_nl]) in
    let '(_, f) := nchan_output_filter f [resp] in
    if (400 <=? status_code) && (status_code <? 599) || (status_code =? NGX_HTTP_NOT_MODIFIED) then
      let f := with_keepalive (with_abort_handler f false) false in
      let f := with_finalize_request (with_status f status_code (status_line (headers_out f))) true in
      '(f, _) ← fn_dequeue cf f; Ret (f, NGX_OK)
    else Ret (f, NGX_OK).

(** The lines of a ping that have a value, three buffers each. *)
Definition ping_lines : list bytes :=
  concat ((fun '(prefix, value) => match value with [] => [] | _ => [prefix; value; [ch_nl]] end) <$>
    [([ch_colon], ping_comment (eventsource_ping cf));
     (bytes_of "event: ", ping_event (eventsource_ping cf));
     (bytes_of "data: ", ping_data (eventsource_ping cf))]).
Definition ping_chaincount : nat :=
  fold_left (fun n v => n + match v with [] => 0 | _ => 3 end)%nat
    [ping_comment (eventsource_ping cf); ping_event (eventsource_ping cf); ping_data (eventsource_ping cf)] 1%nat.

Definition ping_ev_handler (f : full_subscriber_t) : outcome full_subscriber_t :=
  live f;;
  bufs ← fill_chain ping_chaincount
           (ping_lines ++ [if (1 <? ping_chaincount)%nat then [ch_nl] else [ch_colon; ch_nl; ch_nl]]);
  let '(_, f) := nchan_output_filter f bufs in
  Ret (with_ping_ev f (Some (ping_interval (eventsource_ping cf) * 1000))).

Definition es_enqueue (f : full_subscriber_t) : outcome (full_subscriber_t * Z) :=
  '(f, rc) ← longpoll_enqueue cf f;
  let f := if rc =? NGX_OK then
             if 0 <? ping_interval (eventsource_ping cf)
             then with_ping_ev f (Some (ping_interval (eventsource_ping cf) * 1000)) else f
           else f in
  Ret (with_enqueued (es_ensure_headers_sent (with_finalize_request f false)) true, rc).

Definition eventsource_subscriber_create (th : tag_heap) (msg_id : option nchan_msg_id_t) (new : option positive)
    (bdry : bytes) (answers : list Z) : outcome full_subscriber_t :=
  f ← longpoll_subscriber_create cf th msg_id new bdry answers;
  Ret (nchan_subscriber_common_setup (with_shook_hands (with_ping_ev f None) false) EVENTSOURCE true false).

(** ** Chunked transfer *)

Definition chunked_ensure_headers_sent (f : full_subscriber_t) : full_subscriber_t :=
  if negb (shook_hands f) then
    let f := nchan_add_response_header f (bytes_of "Transfer-Encoding") (bytes_of "chunked") in
    let f := nchan_cleverly_output_headers_only_for_later_response cf rq f in
    with_header_only (with_shook_hands f true) false
  else f.

Definition chunked_respond_message (f : full_subscriber_t) (msg : nchan_msg_t) (new : option positive) :
    outcome (full_subscriber_t * Z) :=
  live f;;
  f ← move_to_msg ptr_words (restart_timeout f) msg new;
  if ngx_buf_size (buf msg) =? 0 then Ret (f, NGX_OK)
  else
    bufs ← fill_chain 3 [take 15 (hex (ngx_buf_size (buf msg)) ++ [ch_cr; ch_nl]); buf_bytes files (buf msg); [ch_cr; ch_nl]];
    let '(rc, f) := nchan_output_filter (chunked_ensure_headers_sent f) bufs in
    Ret (f, rc).

Definition chunked_respond_status (f : full_subscriber_t) (status_code : Z) (line : option bytes)
    (status_body : option (list bytes)) : outcome (full_subscriber_t * Z) :=
  live f;;
  if ignored_status status_code line then Ret (f, NGX_OK)
  else if error_before_handshake f status_code then
    subscriber_respond_unqueued_status cf rq f status_code line status_body
  else
    let '(_, f) := nchan_output_filter (chunked_ensure_headers_sent f) [[ch_0; ch_cr; ch_nl; ch_cr; ch_nl]] in
    f ← subscriber_maybe_dequeue_after_status_response cf f status_code; Ret (f, NGX_OK).

Definition chunked_enqueue (f : full_subscriber_t) : outcome (full_subscriber_t * Z) :=
  '(f, rc) ← longpoll_enqueue cf f;
  Ret (with_enqueued (chunked_ensure_headers_sent (with_finalize_request f false)) true, rc).

Definition http_chunked_subscriber_create (th : tag_heap) (msg_id : option nchan_msg_id_t) (new : option positive)
    (bdry : bytes) (answers : list Z) : outcome full_subscriber_t :=
  f ← longpoll_subscriber_create cf th msg_id new bdry answers;
  Ret (nchan_subscriber_common_setup (with_shook_hands f false) HTTP_CHUNKED true false).

(** The test for a [TE] header that accepts chunked transfer; the search and the
    parser of fixed-point numbers are nginx's. *)
Definition nchan_detect_chunked_subscriber_request (ngx_strlcasestrn : bytes -> bytes -> option nat)
    (ngx_atofp : bytes -> Z -> Z) (is_get : bool) (te : option bytes) : bool :=
  if negb is_get then false
  else match te with
       | None => false
       | Some v =>
           match ngx_strlcasestrn v (bytes_of "chunked") with
           | None => false
           | Some k =>
               let cur := drop (k + 7) v in
               let left := length cur in
               if (1 <=? left)%nat && bool_decide (cur !! 0%nat = Some ch_space) then true
               else if (4 <? left)%nat then
                 if starts_with cur (bytes_of ";q=") then
                   let qval_fp := ngx_atofp (drop 3 cur) 2 in
                   if qval_fp =? NGX_ERROR then false else 0 <? qval_fp
                 else false
               else (left =? 0)%nat
           end
       end.

(** ** multipart/mixed *)

Definition HEADERBUF_LEN : nat := 58 + 10 * 4.

(** [ngx_snprintf(boundary, 50, "\r\n--%V", ...)]. *)
Definition multipart_boundary (f : full_subscriber_t) : bytes :=
  take 50 ([ch_cr; ch_nl; ch_dash; ch_dash] ++ boundary f).

Definition multipart_ensure_headers_sent (f : full_subscriber_t) : full_subscriber_t :=
  if negb (shook_hands f) then
    let f := nchan_request_set_content_type_multipart_boundary_header f in
    let f := with_header_only (nchan_cleverly_output_headers_only_for_later_response cf rq f) false in
    let '(_, f) := nchan_output_filter f [drop 2 (multipart_boundary f)] in
    with_shook_hands f true
  else f.

(** The id of a message, as the headers of its part. *)
Definition multipart_id_headers (f : full_subscriber_t) (msg : nchan_msg_t) : outcome bytes :=
  if negb (msg_in_etag_only cf) then
    tag ← msgtag_to_strptr (th f) (id msg);
    Ret ([ch_cr; ch_nl] ++ bytes_of "Last-Modified: " ++ ngx_http_time (time (id msg)) ++ [ch_cr; ch_nl] ++
         bytes_of "Etag: " ++ tag ++ [ch_cr; ch_nl])
  else
    etag ← msgid_to_str (th f) (id msg);
    Ret (take HEADERBUF_LEN ([ch_cr; ch_nl] ++ bytes_of "Etag: " ++ etag ++ [ch_cr; ch_nl])).

(** All headers of a part.  They are written one after the other to
    [headerbuf->charbuf], which has [HEADERBUF_LEN] bytes. *)
Definition multipart_headers (f : full_subscriber_t) (msg : nchan_msg_t) : outcome (list bytes) :=
  ids ← multipart_id_headers f msg;
  let bufs := match content_type msg with
              | Some t => [ids; take 255 (bytes_of "Content-Type: " ++ t ++ [ch_cr; ch_nl; ch_cr; ch_nl])]
              | None => [ids ++ [ch_cr; ch_nl]]
              end in
  c_assert (length (concat bufs) <=? HEADERBUF_LEN)%nat;;
  Ret bufs.

Definition multipart_respond_message (f : full_subscriber_t) (msg : nchan_msg_t) (new : option positive) :
    outcome (full_subscriber_t * Z) :=
  live f;;
  let f := restart_timeout f in
  headers ← multipart_headers f msg;
  let n := (4 - (match content_type msg with Some _ => 0 | None => 1 end) -
                (if (ngx_buf_size (buf msg) =? 0)%Z then 1 else 0))%nat in
  bufs ← fill_chain n (headers ++ (if 0 <? ngx_buf_size (buf msg) then [buf_bytes files (buf msg)] else []) ++
                       [multipart_boundary f]);
  f ← move_to_msg ptr_words f msg new;
  let '(rc, f) := nchan_output_filter (multipart_ensure_headers_sent f) bufs in
  Ret (f, rc).

Definition multipart_respond_status (f : full_subscriber_t) (status_code : Z) (line : option bytes)
    (status_body : option (list bytes)) : outcome (full_subscriber_t * Z) :=
  live f;;
  if ignored_status status_code line then Ret (f, NGX_OK)
  else if error_before_handshake f status_code then
    subscriber_respond_unqueued_status cf rq f status_code line status_body
  else
    let '(_, f) := nchan_output_filter (multipart_ensure_headers_sent f) [[ch_dash; ch_dash; ch_cr; ch_nl]] in
    f ← subscriber_maybe_dequeue_after_status_response cf f status_code; Ret (f, NGX_OK).

Definition multipart_enqueue (f : full_subscriber_t) : outcome (full_subscriber_t * Z) :=
  '(f, rc) ← longpoll_enqueue cf f;
  Ret (with_enqueued (multipart_ensure_headers_sent (with_finalize_request f false)) true, rc).

Definition http_multipart_subscriber_create (th : tag_heap) (msg_id : option nchan_msg_id_t) (new : option positive)
    (bdry : bytes) (answers : list Z) : outcome full_subscriber_t :=
  f ← longpoll_subscriber_create cf th msg_id new bdry answers;
  Ret (nchan_subscriber_common_setup (with_shook_hands f false) HTTP_MULTIPART true false).

(** ** Raw stream *)

Definition rawstream_ensure_headers_sent (f : full_subscriber_t) : full_subscriber_t :=
  if negb (shook_hands f) then
    with_header_only (with_shook_hands (nchan_cleverly_output_headers_only_for_later_response cf rq f) true) false
  else f.

Definition rawstream_respond_message (f : full_subscriber_t) (msg : nchan_msg_t) : outcome (full_subscriber_t * Z) :=
  live f;;
  let sep := subscriber_http_raw_stream_separator cf in
  let separator_len := Z.of_nat (length sep) in
  let msg_len := ngx_buf_size (buf msg) in
  let f := restart_timeout f in
  if msg_len + separator_len =? 0 then Ret (f, NGX_OK)
  else
    bufs ← fill_chain ((if (0 <? separator_len)%Z then 1 else 0) + (if (0 <? msg_len)%Z then 1 else 0))%nat
             ((if 0 <? msg_len then [buf_bytes files (buf msg)] else []) ++ (match sep with [] => [] | _ => [sep] end));
    let '(rc, f) := nchan_output_filter (rawstream_ensure_headers_sent f) bufs in
    Ret (f, rc).

Definition rawstream_respond_status (f : full_subscriber_t) (status_code : Z) (line : option bytes)
    (status_body : option (list bytes)) : outcome (full_subscriber_t * Z) :=
  live f;;
  if ignored_status status_code line then Ret (f, NGX_OK)
  else if error_before_handshake f status_code then
    subscriber_respond_unqueued_status cf rq f status_code line status_body
  else f ← subscriber_maybe_dequeue_after_status_response cf f status_code; Ret (f, NGX_OK).

Definition rawstream_enqueue (f : full_subscriber_t) : outcome (full_subscriber_t * Z) :=
  '(f, rc) ← longpoll_enqueue cf f;
  Ret (with_enqueued (rawstream_ensure_headers_sent (with_finalize_request f false)) true, rc).

Definition http_raw_stream_subscriber_create (th : tag_heap) (msg_id : option nchan_msg_id_t) (new : option positive)
    (bdry : bytes) (answers : list Z) : outcome full_subscriber_t :=
  f ← longpoll_subscriber_create cf th msg_id new bdry answers;
  Ret (nchan_subscriber_common_setup (with_keepalive (with_shook_hands f false) false) HTTP_RAW_STREAM true false).

(** ** The methods of a subscriber *)

Definition fn_enqueue (f : full_subscriber_t) : outcome (full_subscriber_t * Z) :=
  match type f with
  | LONGPOLL => longpoll_enqueue cf f
  | EVENTSOURCE => es_enqueue f
  | HTTP_CHUNKED => chunked_enqueue f
  | HTTP_MULTIPART => multipart_enqueue f
  | HTTP_RAW_STREAM => rawstream_enqueue f
  end.

Definition fn_respond_message (fuel : nat) (f : full_subscriber_t) (msg : nchan_msg_t) (palloc_ok : bool)
    (new : option positive) : outcome (full_subscriber_t * Z) :=
  match type f with
  | LONGPOLL => longpoll_respond_message cf rq files ptr_words f msg palloc_ok new
  | EVENTSOURCE => es_respond_message fuel f msg new
  | HTTP_CHUNKED => chunked_respond_message f msg new
  | HTTP_MULTIPART => multipart_respond_message f msg new
  | HTTP_RAW_STREAM => rawstream_respond_message f msg
  end.

Definition fn_respond_status (f : full_subscriber_t) (status_code : Z) (line : option bytes)
    (status_body : option (list bytes)) : outcome (full_subscriber_t * Z) :=
  match type f with
  | LONGPOLL => longpoll_respond_status cf rq files f status_code line status_body
  | EVENTSOURCE => es_respond_status f status_code line status_body
  | HTTP_CHUNKED => chunked_respond_status f status_code line status_body
  | HTTP_MULTIPART => multipart_respond_status f status_code line status_body
  | HTTP_RAW_STREAM => rawstream_respond_status f status_code line status_body
  end.

(** [nchan_subscriber_timeout_ev_handler] ([subscribers/common.c]). *)
Definition nchan_subscriber_timeout_ev_handler (f : full_subscriber_t) : outcome full_subscriber_t :=
  live f;;
  '(f, _) ← fn_respond_status (with_dequeue_after_response f true) NGX_HTTP_REQUEST_TIMEOUT
              (Some (bytes_of "408 Request Timeout")) None;
  Ret f.

(** [finalize_request_handler] ([subscribers/longpoll.c]): the client sends more
    than its request. *)
Definition finalize_request_handler (f : full_subscriber_t) : outcome full_subscriber_t :=
  if negb (ctx_sub f) then Ret f
  else
    live f;;
    '(f, _) ← fn_respond_status (with_dequeue_after_response f true) NGX_HTTP_BAD_REQUEST
                (Some (bytes_of "400 Bad Request")) None;
    Ret f.
End streams.
