(* ===== verification/HttpFrame.v ===== *)
(** * What the response functions leave alone

    The functions that write a response change the headers to be sent, the
    answers that are left and the output, and nothing else of the subscriber.
    [outputs f g s]: from [f] to [g], [s] was sent as the body. *)

From S2P Require Import Prelude Nginx MsgId Msg HttpSub HttpStream.

(** The body of the response. *)
Definition sent (e : http_effect) : bytes := match e with Output bufs => concat bufs | _ => [] end.
Definition stream (f : full_subscriber_t) : bytes := concat (sent <$> out f).

Definition is_output (e : http_effect) : Prop := match e with SendHeader _ _ | Output _ => True | _ => False end.

Inductive outputs (f g : full_subscriber_t) (s : bytes) : Prop :=
  | Outputs h ho ka an es :
      g = with_out (with_answers (with_keepalive (with_header_only (with_headers_out f h) ho) ka) an) (out f ++ es) ->
      Forall is_output es -> concat (sent <$> es) = s -> outputs f g s.

Lemma outputs_refl f : outputs f f [].
Proof.
  exists (headers_out f) (header_only f) (keepalive f) (answers f) []; [|constructor|done].
  destruct f. unfold with_out. simpl. by rewrite app_nil_r.
Qed.

Lemma outputs_trans f g k s1 s2 : outputs f g s1 -> outputs g k s2 -> outputs f k (s1 ++ s2).
Proof.
  intros [h ho ka an es -> F <-] [h' ho' ka' an' es' -> F' <-].
  exists h' ho' ka' an' (es ++ es').
  - unfold with_out. simpl. by rewrite app_assoc.
  - by apply Forall_app.
  - by rewrite fmap_app, concat_app.
Qed.

(** A step that only sends headers. *)
Lemma outputs_then f g k s : outputs f g s -> outputs g k [] -> outputs f k s.
Proof. intros A B. rewrite <- (app_nil_r s). by eapply outputs_trans. Qed.

Lemma outputs_headers f h : outputs f (with_headers_out f h) [].
Proof.
  exists h (header_only f) (keepalive f) (answers f) []; [|constructor|done].
  destruct f. unfold with_out. simpl. by rewrite app_nil_r.
Qed.

Lemma outputs_header_only f v : outputs f (with_header_only f v) [].
Proof.
  exists (headers_out f) v (keepalive f) (answers f) []; [|constructor|done].
  destruct f. unfold with_out. simpl. by rewrite app_nil_r.
Qed.

Lemma outputs_keepalive f v : outputs f (with_keepalive f v) [].
Proof.
  exists (headers_out f) (header_only f) v (answers f) []; [|constructor|done].
  destruct f. unfold with_out. simpl. by rewrite app_nil_r.
Qed.

Lemma outputs_answer f e : is_output e -> outputs f (answer (emit f e)).2 (sent e).
Proof.
  intros Q. unfold answer. destruct (answers (emit f e)) as [|rc l] eqn:E.
  - exists (headers_out f) (header_only f) (keepalive f) (answers f) [e]; [by destruct f|by repeat constructor|].
    simpl. by rewrite app_nil_r.
  - exists (headers_out f) (header_only f) (keepalive f) l [e]; [by destruct f|by repeat constructor|].
    simpl. by rewrite app_nil_r.
Qed.

Lemma outputs_send_header f : outputs f (ngx_http_send_header f).2 [].
Proof. by apply (outputs_answer f (SendHeader (headers_out f) (header_only f))). Qed.

Lemma outputs_filter f bufs : outputs f (nchan_output_filter f bufs).2 (concat bufs).
Proof. by apply (outputs_answer f (Output bufs)). Qed.

Lemma outputs_filter' f bufs rc g : nchan_output_filter f bufs = (rc, g) -> outputs f g (concat bufs).
Proof. intros E. pose proof (outputs_filter f bufs) as O. by rewrite E in O. Qed.

Lemma outputs_send_header' f rc g : ngx_http_send_header f = (rc, g) -> outputs f g [].
Proof. intros E. pose proof (outputs_send_header f) as O. by rewrite E in O. Qed.

#[export] Hint Resolve outputs_refl outputs_headers outputs_header_only outputs_keepalive outputs_filter
  outputs_filter' outputs_send_header' : nchan.

(** Proves that a composition of such steps sends nothing: looks at the last
    step first. *)
Ltac outputs_nothing :=
  repeat (eapply outputs_then; [|solve [eauto with nchan]]); eauto with nchan.

Lemma stream_outputs f g s : outputs f g s -> stream g = stream f ++ s.
Proof. intros [h ho ka an es -> F <-]. unfold stream. simpl. by rewrite fmap_app, concat_app. Qed.

Section frame.
Context (cf : sub_conf) (rq : request_in).

Lemma outputs_access_control f : outputs f (nchan_include_access_control_if_needed cf rq f) [].
Proof.
  unfold nchan_include_access_control_if_needed, nchan_add_response_header.
  destruct (origin rq) as [o|]; [|apply outputs_refl].
  destruct (allow_credentials cf); destruct (allow_origin cf) as [[|c [|c' l]]|]; outputs_nothing.
Qed.

Lemma outputs_cleverly f : outputs f (nchan_cleverly_output_headers_only_for_later_response cf rq f) [].
Proof.
  unfold nchan_cleverly_output_headers_only_for_later_response.
  set (g := if r_stream rq then _ else _).
  assert (outputs f g []) as G by (unfold g, with_status; destruct (r_stream rq); outputs_nothing).
  pose proof (outputs_then _ _ _ _ G (outputs_access_control g)) as A.
  destruct (ngx_http_send_header _) as [rc k] eqn:E.
  pose proof (outputs_then _ _ _ _ A (outputs_send_header' _ _ _ E)) as K.
  destruct (_ =? _); [|done]. eapply outputs_then; eauto with nchan.
Qed.
End frame.
#[export] Hint Resolve outputs_access_control outputs_cleverly : nchan.
