(* ===== verification/EventSource.v ===== *)
(** * What an EventSource client receives

    A client of the protocol, written after the algorithm of the HTML standard
    that interprets an event stream, and the theorem that it gets the messages,
    with their ids and events, from the bytes the subscriber sends. *)

From S2P Require Import Prelude Nginx MsgId Msg Scan HttpSub HttpStream HttpFrame.

(** ** The client *)

Record sse_event := SseEvent { ev_type : bytes; ev_data : bytes; ev_id : bytes }.

(** The line being read (and whether a carriage return ended the last one), the
    buffers, and the events dispatched so far. *)
Record sse := Sse {
  s_line : bytes;
  s_cr : bool;
  s_data : bytes;
  s_type : bytes;
  s_id : bytes;
  s_events : list sse_event;
}.
Definition sse_start : sse := Sse [] false [] [] [] [].

Definition sse_dispatch (st : sse) : sse :=
  match s_data st with
  | [] => Sse [] (s_cr st) [] [] (s_id st) (s_events st)
  | _ => Sse [] (s_cr st) [] [] (s_id st)
           (s_events st ++ [SseEvent (match s_type st with [] => bytes_of "message" | t => t end)
                                     (removelast (s_data st)) (s_id st)])
  end.

Definition sse_field (st : sse) (field value : bytes) : sse :=
  if decide (field = bytes_of "event") then Sse [] (s_cr st) (s_data st) value (s_id st) (s_events st)
  else if decide (field = bytes_of "data") then
    Sse [] (s_cr st) (s_data st ++ value ++ [ch_nl]) (s_type st) (s_id st) (s_events st)
  else if decide (field = bytes_of "id") then
    Sse [] (s_cr st) (s_data st) (s_type st) (if decide (0 ∈ value) then s_id st else value) (s_events st)
  else Sse [] (s_cr st) (s_data st) (s_type st) (s_id st) (s_events st).

Definition sse_process (st : sse) (line : bytes) : sse :=
  match line with
  | [] => sse_dispatch st
  | _ =>
      match strchr_ref line ch_colon with
      | Some O => Sse [] (s_cr st) (s_data st) (s_type st) (s_id st) (s_events st)    (* a comment *)
      | Some k =>
          let value := drop (S k) line in
          sse_field st (take k line) (match value with c :: v => if c =? ch_space then v else value | [] => [] end)
      | None => sse_field st line []
      end
  end.

(** Lines end with a newline, a carriage return, or both. *)
Definition sse_char (st : sse) (c : Z) : sse :=
  if (c =? ch_nl) && s_cr st then Sse (s_line st) false (s_data st) (s_type st) (s_id st) (s_events st)
  else if (c =? ch_nl) || (c =? ch_cr) then
    let st' := Sse [] (c =? ch_cr) (s_data st) (s_type st) (s_id st) (s_events st) in
    sse_process st' (s_line st)
  else Sse (s_line st ++ [c]) false (s_data st) (s_type st) (s_id st) (s_events st).

Definition sse_feed (st : sse) (s : bytes) : sse := fold_left sse_char s st.

(** Between two events. *)
Definition at_rest (i : bytes) (evs : list sse_event) : sse := Sse [] false [] [] i evs.

(** Without the characters that end a line. *)
Definition one_line (s : bytes) : Prop := ch_nl ∉ s /\ ch_cr ∉ s.
Global Instance one_line_dec s : Decision (one_line s).
Proof. unfold one_line. apply _. Defined.

(** A decidable fact about constant strings. *)
Ltac constant := first [apply (bool_decide_unpack _); vm_compute; exact I | done].

Lemma sse_feed_app st s1 s2 : sse_feed st (s1 ++ s2) = sse_feed (sse_feed st s1) s2.
Proof. apply fold_left_app. Qed.

Lemma one_line_app s1 s2 : one_line (s1 ++ s2) <-> one_line s1 /\ one_line s2.
Proof. unfold one_line. rewrite !not_elem_of_app. tauto. Qed.

Lemma feed_inside l p d t i evs :
  one_line l -> sse_feed (Sse p false d t i evs) l = Sse (p ++ l) false d t i evs.
Proof.
  revert p. induction l as [|c l IH]; intros p [N C]; [by rewrite app_nil_r|].
  apply not_elem_of_cons in N as [N1 N2], C as [C1 C2]. unfold sse_feed. simpl fold_left.
  unfold sse_char at 2. simpl. rewrite (proj2 (Z.eqb_neq _ _)), (proj2 (Z.eqb_neq _ _)) by done. simpl.
  fold (sse_feed (Sse (p ++ [c]) false d t i evs) l).
  rewrite IH by done. by rewrite <- app_assoc.
Qed.

(** A whole line is processed. *)
Lemma feed_line l d t i evs :
  one_line l -> sse_feed (Sse [] false d t i evs) (l ++ [ch_nl]) = sse_process (Sse [] false d t i evs) l.
Proof. intros O. by rewrite sse_feed_app, feed_inside. Qed.

Lemma process_field name v st :
  ch_colon ∉ name -> name <> [] ->
  sse_process st (name ++ [ch_colon; ch_space] ++ v) = sse_field st name v.
Proof.
  intros N Ne. unfold sse_process. change (name ++ [ch_colon; ch_space] ++ v) with (name ++ ch_colon :: ch_space :: v).
  fold (memchr (name ++ ch_colon :: ch_space :: v) ch_colon). rewrite memchr_app by done.
  rewrite drop_cut, take_app_length.
  destruct name as [|c name]; [done|]. done.
Qed.

Lemma data_line v d t i evs :
  one_line v -> sse_feed (Sse [] false d t i evs) (bytes_of "data: " ++ v ++ [ch_nl]) = Sse [] false (d ++ v ++ [ch_nl]) t i evs.
Proof.
  intros O. rewrite app_assoc, feed_line by (apply one_line_app; split; [by constant|done]).
  change (bytes_of "data: ") with (bytes_of "data" ++ [ch_colon; ch_space]). rewrite <- app_assoc.
  by rewrite process_field by (by constant).
Qed.

Lemma id_line v d t i evs :
  one_line v -> 0 ∉ v -> sse_feed (Sse [] false d t i evs) (bytes_of "id: " ++ v ++ [ch_nl]) = Sse [] false d t v evs.
Proof.
  intros O Z. rewrite app_assoc, feed_line by (apply one_line_app; split; [by constant|done]).
  change (bytes_of "id: ") with (bytes_of "id" ++ [ch_colon; ch_space]). rewrite <- app_assoc.
  rewrite process_field by (by constant). unfold sse_field. simpl. by rewrite decide_False.
Qed.

Lemma event_line v d t i evs :
  one_line v -> sse_feed (Sse [] false d t i evs) (bytes_of "event: " ++ v ++ [ch_nl]) = Sse [] false d v i evs.
Proof.
  intros O. rewrite app_assoc, feed_line by (apply one_line_app; split; [by constant|done]).
  change (bytes_of "event: ") with (bytes_of "event" ++ [ch_colon; ch_space]). rewrite <- app_assoc.
  by rewrite process_field by (by constant).
Qed.

Lemma comment_line v d t i evs :
  one_line v -> sse_feed (Sse [] false d t i evs) ([ch_colon] ++ v ++ [ch_nl]) = Sse [] false d t i evs.
Proof.
  intros O. rewrite app_assoc, feed_line by (apply one_line_app; split; [by constant|done]).
  done.
Qed.

Lemma end_of_event d t i evs :
  sse_feed (Sse [] false (d ++ [ch_nl]) t i evs) [ch_nl] =
    at_rest i (evs ++ [SseEvent (match t with [] => bytes_of "message" | t => t end) d i]).
Proof.
  unfold sse_feed, sse_char. simpl. unfold sse_dispatch. simpl.
  destruct (d ++ [ch_nl]) as [|c d'] eqn:E; [by destruct d|]. rewrite <- E, removelast_last. by destruct t.
Qed.

Lemma end_of_nothing t i evs : sse_feed (Sse [] false [] t i evs) [ch_nl] = at_rest i evs.
Proof. done. Qed.

(** ** The lines of a message *)

Section facts.
Context `{NgxString} `{NgxTime} (cf : sub_conf) (rq : request_in).
Context (files : bytes -> bytes) (ptr_words : positive -> list Z).

Lemma dataline_ret s : create_dataline_bufchain s = Ret (bytes_of "data: " :: match s with [] => [] | _ => [s] end).
Proof. by destruct s. Qed.

Lemma dataline_concat s : concat (bytes_of "data: " :: match s with [] => [] | _ => [s] end) = bytes_of "data: " ++ s.
Proof. destruct s; cbn [concat]; by rewrite ?app_nil_r. Qed.

(** The loop ends, and a client that reads the lines of a message in memory gets
    the message. *)
Lemma memory_lines fuel s :
  (length s < fuel)%nat ->
  exists bufs, es_memory_loop fuel s = Ret bufs /\
    (ch_cr ∉ s -> forall d t i evs,
      sse_feed (Sse [] false d t i evs) (concat bufs ++ [ch_nl]) = Sse [] false (d ++ s ++ [ch_nl]) t i evs).
Proof.
  revert s. induction fuel as [|fuel IH]; intros s F; [lia|]. cbn [es_memory_loop].
  pose proof (ngx_strlchr_first s ch_nl) as P. destruct (ngx_strlchr s ch_nl) as [k|]; simpl in P.
  - destruct P as [K B]. pose proof (lookup_lt_Some _ _ _ K) as L.
    destruct (IH (drop (S k) s)) as (bufs & E & Fd); [rewrite length_drop; lia|].
    rewrite dataline_ret, bind_Ret, E, bind_Ret. eexists. split; [reflexivity|]. intros C d t i evs.
    assert (ch_nl ∉ take k s) as N by (intros (j & Hj & ?)%elem_of_take; by apply (B j)).
    rewrite <- (take_drop_middle s k ch_nl K) in C. rewrite !not_elem_of_app, not_elem_of_cons in C.
    destruct C as (C1 & _ & C2).
    rewrite concat_app, dataline_concat, (take_S_r _ _ _ K), <- !app_assoc, !sse_feed_app.
    rewrite <- !sse_feed_app, app_assoc, app_assoc, sse_feed_app.
    rewrite <- app_assoc, data_line by done. rewrite Fd by done. rewrite <- !app_assoc. do 2 f_equal.
    rewrite <- (take_drop_middle s k ch_nl K) at 3. by rewrite <- app_assoc.
  - rewrite dataline_ret. eexists. split; [reflexivity|]. intros C d t i evs.
    rewrite dataline_concat, <- app_assoc. by apply data_line.
Qed.

(** ** Files *)

(** A message in a file is split by [fscanf]: one that starts with a newline
    makes the loop run for ever, with two buffers more for each turn. *)
Theorem es_file_newline_diverges fuel s left :
  (0 < left)%nat -> es_file_loop fuel (ch_nl :: s) left = NoFuel.
Proof.
  intros L. induction fuel as [|fuel IH]; [done|]. cbn [es_file_loop fscanf_line span_while].
  simpl negb. cbv iota. rewrite (proj2 (Nat.ltb_lt 0 left)) by done. rewrite Nat.sub_0_r.
  change (drop 0 (ch_nl :: s)) with (ch_nl :: s). by rewrite IH.
Qed.

Lemma span_while_spec p s :
  let n := span_while p s in
  (n <= length s)%nat /\ Forall (fun c => p c = true) (take n s) /\ (forall c, s !! n = Some c -> p c = false).
Proof.
  simpl. induction s as [|c s IH]; simpl; [by split_and!|]. destruct (p c) eqn:E; simpl.
  - destruct IH as (L & F & B). split_and!; [lia|by constructor|done].
  - split_and!; [lia|constructor|by intros ? [= <-]].
Qed.

(** Text that [fscanf] splits at its newlines: it does not start with one, and no
    white space follows one, nor the end. *)
Definition plain_lines (s : bytes) : Prop :=
  s <> [] /\ s !! 0%nat <> Some ch_nl /\
  forall k, s !! k = Some ch_nl -> exists c, s !! S k = Some c /\ is_space c = false.

Lemma span_while_until p s k c :
  (forall j d, (j < k)%nat -> s !! j = Some d -> p d = true) -> s !! k = Some c -> p c = false -> span_while p s = k.
Proof.
  revert k. induction s as [|d s IH]; intros k B K E; [done|]. destruct k as [|k]; simpl in *.
  - injection K as ->. by rewrite E.
  - rewrite (B 0%nat d) by (lia || done). f_equal. apply IH; [|done|done]. intros j e J. apply (B (S j)). lia.
Qed.

Lemma span_while_all p s : (forall d, d ∈ s -> p d = true) -> span_while p s = length s.
Proof.
  induction s as [|d s IH]; intros B; [done|]. simpl. rewrite (B d) by (by left).
  f_equal. apply IH. intros e E. apply B. by right.
Qed.

Lemma plain_lines_rest s k : plain_lines s -> s !! k = Some ch_nl -> plain_lines (drop (S k) s).
Proof.
  intros (N & Z & W) K. destruct (W k K) as (c & C & E). split_and!.
  - intros D. pose proof (lookup_drop s (S k) 0) as L. rewrite D, Nat.add_0_r, C in L. done.
  - rewrite lookup_drop, Nat.add_0_r, C. intros [= ->]. done.
  - intros j J. rewrite lookup_drop in J. destruct (W _ J) as (d & D & Ed). exists d.
    rewrite lookup_drop. by rewrite Nat.add_succ_r.
Qed.

(** For text whose newlines are each followed by something that is not white
    space, a message in a file is sent as the same message in memory is. *)
Theorem es_file_as_memory fuel s :
  plain_lines s -> (length s < fuel)%nat ->
  exists bufs, es_file_loop fuel s (length s) = Ret bufs /\ es_memory_loop fuel s = Ret bufs.
Proof.
  revert s. induction fuel as [|fuel IH]; intros s P L; [lia|]. pose proof P as (N & Z & W).
  cbn [es_file_loop es_memory_loop]. pose proof (ngx_strlchr_first s ch_nl) as F.
  destruct s as [|c0 s0] eqn:Es; [done|]. rewrite <- Es in *. destruct (ngx_strlchr s ch_nl) as [k|]; simpl in F.
  - destruct F as [K B]. destruct (W k K) as (c & C & Ec). destruct k as [|k]; [by rewrite K in Z|].
    assert (span_while (fun c => negb (c =? ch_nl)) s = S k) as Sp.
    { apply (span_while_until _ _ _ ch_nl); [|done|done]. intros j d J D. apply negb_true_iff, Z.eqb_neq. intros ->.
      by apply (B j). }
    assert (span_while is_space (drop (S k) s) = 1)%nat as Ss.
    { apply (span_while_until _ _ _ c); [| |done].
      - intros [|j] d J D; [|lia]. rewrite lookup_drop, Nat.add_0_r, K in D. by injection D as <-.
      - rewrite lookup_drop, <- C. f_equal. lia. }
    replace (fscanf_line s) with (Some (S (S k))) by (unfold fscanf_line; rewrite Es, <- Es, Sp, Ss; f_equal; lia).
    pose proof (lookup_lt_Some _ _ _ C) as Lt. rewrite (proj2 (Nat.ltb_lt _ _)) by lia.
    destruct (IH (drop (S (S k)) s)) as (bufs & E1 & E2); [by apply plain_lines_rest|rewrite length_drop; lia|].
    rewrite length_drop in E1. rewrite E1, E2, dataline_ret, !bind_Ret. eauto.
  - assert (span_while (fun c => negb (c =? ch_nl)) s = length s) as Sp.
    { apply span_while_all. intros d D. apply negb_true_iff, Z.eqb_neq. by intros ->. }
    assert (0 < length s)%nat as L0 by (rewrite Es; simpl; lia).
    replace (fscanf_line s) with (Some (length s)).
    2:{ unfold fscanf_line. rewrite Es, <- Es, Sp. destruct (length s) as [|n] eqn:En; [lia|].
        rewrite drop_ge by lia. simpl. f_equal. lia. }
    rewrite Nat.ltb_irrefl, firstn_all, dataline_ret, bind_Ret. eauto.
Qed.

(** The loop ends on every file that does not start with a newline: no later
    line does, after white space was skipped. *)
Lemma fscanf_line_advances s n : s !! 0%nat <> Some ch_nl -> fscanf_line s = Some n -> (0 < n)%nat /\ drop n s !! 0%nat <> Some ch_nl.
Proof.
  intros Z. unfold fscanf_line. destruct s as [|c s'] eqn:Es; [done|]. rewrite <- Es in *.
  assert (c <> ch_nl) as Nc by (intros ->; by rewrite Es in Z).
  destruct (span_while (fun c => negb (c =? ch_nl)) s) as [|k] eqn:Ek.
  { exfalso. rewrite Es in Ek. simpl in Ek. by rewrite (proj2 (Z.eqb_neq _ _)) in Ek. }
  intros [= <-]. split; [lia|]. rewrite lookup_drop, Nat.add_0_r.
  destruct (span_while_spec is_space (drop (S k) s)) as (_ & _ & B). intros E.
  assert (is_space ch_nl = false) as F by (apply B; rewrite lookup_drop; exact E). discriminate F.
Qed.

Lemma es_file_total fuel s :
  s !! 0%nat <> Some ch_nl -> (length s < fuel)%nat -> exists bufs, es_file_loop fuel s (length s) = Ret bufs.
Proof.
  revert s. induction fuel as [|fuel IH]; intros s Z L; [lia|]. cbn [es_file_loop].
  destruct (fscanf_line s) as [n|] eqn:E; rewrite dataline_ret, bind_Ret; [|rewrite Nat.ltb_irrefl; eauto].
  destruct (Nat.ltb_spec n (length s)); [|eauto]. destruct (fscanf_line_advances s n Z E) as [Hn Zn].
  destruct (IH (drop n s) Zn ltac:(rewrite length_drop; lia)) as (bufs & Eb). rewrite length_drop in Eb.
  rewrite Eb, bind_Ret. eauto.
Qed.

(** ** One message *)

(** What the client is given of a message: the event is that of the location,
    or that of the message. *)
Definition event_name (msg : nchan_msg_t) : option bytes :=
  match eventsource_event_conf cf with [] => eventsource_event msg | e => Some e end.
Definition event_of (msg : nchan_msg_t) (msgid : bytes) : sse_event :=
  SseEvent (match event_name msg with Some (c :: e) => c :: e | _ => bytes_of "message" end)
    (buf_bytes files (buf msg)) msgid.

(** A message whose file, if it has one, is as long as its buffer says. *)
Definition whole_file (msg : nchan_msg_t) (P : bytes -> Prop) : Prop :=
  in_file (buf msg) = true -> exists fl, buf_file (buf msg) = Some fl /\
    length (files (file_name fl)) = Z.to_nat (buf_file_size (buf msg)) /\ P (files (file_name fl)).

(** One that the loop can read, and one whose text and event the protocol can
    carry. *)
Definition readable (msg : nchan_msg_t) : Prop := whole_file msg (fun s => s !! 0%nat <> Some ch_nl).
Definition carried (msg : nchan_msg_t) : Prop :=
  whole_file msg plain_lines /\ ch_cr ∉ buf_bytes files (buf msg) /\
  match event_name msg with Some e => one_line e | None => True end.

Definition datalines (fuel : nat) (msg : nchan_msg_t) : outcome (list bytes) :=
  if negb (in_file (buf msg)) then es_memory_loop fuel (buf_content (buf msg))
  else match buf_file (buf msg) with
       | Some fl => es_file_loop fuel (files (file_name fl)) (Z.to_nat (buf_file_size (buf msg)))
       | None => Crash
       end.

Lemma datalines_total fuel msg :
  readable msg -> (length (buf_bytes files (buf msg)) < fuel)%nat -> exists bufs, datalines fuel msg = Ret bufs.
Proof.
  unfold readable, whole_file, datalines, buf_bytes. destruct (in_file (buf msg)); simpl negb; cbv iota; intros R F.
  - destruct (R eq_refl) as (fl & E & L & Z). rewrite E in *. rewrite <- L in *. rewrite firstn_all in F. by apply es_file_total.
  - destruct (memory_lines fuel _ F) as (bufs & -> & _). eauto.
Qed.

Lemma datalines_feed fuel msg :
  carried msg -> (length (buf_bytes files (buf msg)) < fuel)%nat ->
  exists bufs, datalines fuel msg = Ret bufs /\ forall d t i evs,
    sse_feed (Sse [] false d t i evs) (concat bufs ++ [ch_nl]) = Sse [] false (d ++ buf_bytes files (buf msg) ++ [ch_nl]) t i evs.
Proof.
  intros (W & C & _) F. unfold whole_file, datalines in *.
  destruct (memory_lines fuel _ F) as (bufs & E & Fd). specialize (Fd C). exists bufs. split; [|exact Fd].
  unfold buf_bytes in *. destruct (in_file (buf msg)); simpl negb; cbv iota; [|exact E].
  destruct (W eq_refl) as (fl & Ef & L & P). rewrite Ef in *. rewrite <- L in *. rewrite firstn_all in *.
  destruct (es_file_as_memory fuel _ P F) as (bufs' & -> & E'). congruence.
Qed.

Lemma prepend_ret lbl str chain : prepend_es_response_line lbl str chain = Ret (lbl :: str :: [ch_nl] :: chain).
Proof. done. Qed.

Lemma message_chain_feeds fuel f msg s i evs :
  (length (buf_bytes files (buf msg)) < fuel)%nat -> carried msg ->
  nchan_subscriber_set_recyclable_msgid_str f = Ret s -> one_line s -> 0 ∉ s ->
  exists chain, es_message_chain cf files fuel f msg = Ret chain /\
    sse_feed (at_rest i evs) (concat chain) = at_rest s (evs ++ [event_of msg s]).
Proof.
  intros F K S O Z. pose proof K as (_ & _ & E). unfold es_message_chain. fold (datalines fuel msg).
  destruct (datalines_feed fuel msg K F) as (bufs & -> & Fd). rewrite !bind_Ret, S, !bind_Ret, prepend_ret, bind_Ret.
  set (chain := bufs ++ [[ch_nl; ch_nl]]).
  assert (forall t, sse_feed (Sse [] false [] t i evs) (concat (bytes_of "id: " :: s :: [ch_nl] :: chain)) =
            at_rest s (evs ++ [SseEvent (match t with [] => bytes_of "message" | t => t end) (buf_bytes files (buf msg)) s])) as Body.
  { intros t. unfold chain. cbn [concat]. rewrite concat_app. cbn [concat]. rewrite app_nil_r.
    rewrite (app_assoc s), app_assoc, sse_feed_app, id_line by done.
    change [ch_nl; ch_nl] with ([ch_nl] ++ [ch_nl]). rewrite (app_assoc (concat bufs)), sse_feed_app, Fd.
    rewrite (app_nil_l (_ ++ _)). apply end_of_event. }
  unfold event_of, event_name in *. destruct (eventsource_event_conf cf) as [|c conf] eqn:Ec.
  - destruct (eventsource_event msg) as [e|].
    + rewrite prepend_ret. eexists. split; [reflexivity|].
      cbn [concat] in Body |- *. unfold at_rest at 1. rewrite (app_assoc e), app_assoc, sse_feed_app, event_line by done.
      rewrite Body. by destruct e.
    + eexists. split; [reflexivity|]. apply (Body []).
  - rewrite prepend_ret. eexists. split; [reflexivity|].
    cbn [concat] in Body |- *. unfold at_rest at 1. rewrite (app_assoc (c :: conf)), app_assoc, sse_feed_app, event_line by done. by rewrite Body.
Qed.

(** ** The stream of a subscriber *)

Definition client (f : full_subscriber_t) : sse := sse_feed sse_start (stream f).

Lemma client_outputs f g s : outputs f g s -> client g = sse_feed (client f) s.
Proof. intros O. unfold client. by rewrite (stream_outputs _ _ _ O), sse_feed_app. Qed.

(** ** Ids of one channel *)

Definition one_channel (i : nchan_msg_id_t) (t : Z) : Prop := tagcount i = 1 /\ exists ts, tag i = fixed (t :: ts).
Definition id_text (i : nchan_msg_id_t) : bytes :=
  dec (time i) ++ [ch_colon] ++ match tag i with fixed (t :: _) => dec t | _ => [] end.
Definition in_range (i : nchan_msg_id_t) : Prop := exists t, one_channel i t /\ in_s 64 (time i) /\ in_s 16 t.

Lemma one_channel_update th last msg new t0 t1 t2 :
  one_channel last t0 -> one_channel (prev_id msg) t1 -> one_channel (id msg) t2 ->
  exists b, update_subscriber_last_msg_id ptr_words th last (Some msg) new = Ret (th, id msg, b).
Proof.
  intros (C0 & ts0 & T0) (C1 & ts1 & T1) (C2 & ts2 & T2). unfold update_subscriber_last_msg_id.
  assert (exists v, verify_msg_id th last (prev_id msg) (id msg) = Ret v) as [v ->].
  { unfold verify_msg_id, id_array. rewrite C0, C1, T0, T1. simpl.
    destruct (_ && _); [|eauto]. destruct (negb _); [eauto|]. destruct (negb (t0 =? t1)); eauto. }
  unfold nchan_update_multi_msgid. rewrite bind_Ret, C2. simpl. eauto.
Qed.

Lemma dec_chars n : Forall (fun c => 45 <= c <= 57) (dec n).
Proof.
  assert (forall m, 0 <= m -> Forall (fun c => 45 <= c <= 57) (dec m)) as P.
  { intros m Hm. destruct (dec_spec m Hm) as (_ & F & _). eapply Forall_impl; [exact F|]. intros c Hc.
    unfold is_digit in Hc. apply andb_true_iff in Hc as [?%Z.leb_le ?%Z.leb_le]. simpl in *. lia. }
  destruct (Z_lt_le_dec n 0); [|auto]. rewrite dec_neg by done. constructor; [lia|]. apply P. lia.
Qed.

Lemma dec_fuel_length f n acc : (length (dec_fuel f n acc) <= f + length acc)%nat.
Proof.
  revert n acc. induction f as [|f IH]; intros n acc; simpl; [done|].
  destruct (_ =? 0); simpl; [lia|]. etransitivity; [apply IH|]. simpl. lia.
Qed.

Lemma dec_length n k : 0 <= k -> - 2 ^ k <= n <= 2 ^ k -> (length (dec n) <= Z.to_nat k + 2)%nat.
Proof.
  intros K R. unfold dec.
  assert (length (dec_fuel (S (Z.to_nat (Z.log2 (Z.abs n)))) (Z.abs n) []) <= Z.to_nat k + 1)%nat as L.
  { etransitivity; [apply dec_fuel_length|]. simpl length.
    assert (Z.log2 (Z.abs n) <= k) by (rewrite <- (Z.log2_pow2 k) by done; apply Z.log2_le_mono; lia). lia. }
  destruct (n <? 0); simpl length; simpl length in L; lia.
Qed.

Lemma id_text_chars i : Forall (fun c => 45 <= c <= 58) (id_text i).
Proof.
  assert (forall n, Forall (fun c => 45 <= c <= 58) (dec n)) as D.
  { intros n. eapply Forall_impl; [apply dec_chars|]. simpl. lia. }
  unfold id_text. apply Forall_app; split; [apply D|]. constructor; [lia|].
  destruct (tag i) as [[|t ts]|p]; [constructor|apply D|constructor].
Qed.

Lemma id_text_one_line i : one_line (id_text i) /\ 0 ∉ id_text i.
Proof.
  pose proof (id_text_chars i) as F. rewrite Forall_forall in F.
  split; [split|]; intros I; apply F in I; lia.
Qed.

Lemma recyclable_text f :
  in_range (last_msgid f) -> nchan_subscriber_set_recyclable_msgid_str f = Ret (id_text (last_msgid f)).
Proof.
  intros (t & (C & ts & T) & R1 & R2). unfold nchan_subscriber_set_recyclable_msgid_str, msgid_to_str, msgtag_to_strptr.
  rewrite C. change (u8 1 =? 1) with true. cbv iota zeta. unfold id_tags, id_array. simpl tagcount. simpl tag. rewrite T.
  simpl. unfold nchan_strcpy, id_text. rewrite T. f_equal.
  destruct (Z.ltb_spec (10 * 255) (Z.of_nat (length (dec (time (last_msgid f)) ++ ch_colon :: dec t)))) as [L|L].
  - exfalso. unfold in_s in *. rewrite length_app in L. simpl in L.
    pose proof (dec_length (time (last_msgid f)) 64 ltac:(lia) ltac:(lia)).
    pose proof (dec_length t 16 ltac:(lia) ltac:(lia)). lia.
  - simpl. by rewrite take_ge.
Qed.

(** ** A session *)

(** What happens to a subscriber between its entry into the channel and the
    end: messages, pings, and statuses that do not end the response. *)
Inductive es_op :=
  | EsMessage (msg : nchan_msg_t)
  | EsPing
  | EsStatus (code : Z) (line : option bytes).

Definition es_do (fuel : nat) (f : full_subscriber_t) (op : es_op) : outcome full_subscriber_t :=
  match op with
  | EsMessage msg => '(f, _) ← es_respond_message cf rq files ptr_words fuel f msg None; Ret f
  | EsPing => ping_ev_handler cf f
  | EsStatus code line => '(f, _) ← es_respond_status cf rq f code line None; Ret f
  end.

Fixpoint es_run (fuel : nat) (f : full_subscriber_t) (ops : list es_op) : outcome full_subscriber_t :=
  match ops with [] => Ret f | op :: ops => f ← es_do fuel f op; es_run fuel f ops end.

Definition es_session (fuel : nat) (th : tag_heap) (i : nchan_msg_id_t) (bdry : bytes) (answers : list Z)
    (ops : list es_op) : outcome full_subscriber_t :=
  f ← eventsource_subscriber_create cf th (Some i) None bdry answers;
  '(f, _) ← es_enqueue cf rq f;
  es_run fuel f ops.

(** What the client should see: its last id, and the events. *)
Definition es_expected (st : bytes * list sse_event) (op : es_op) : bytes * list sse_event :=
  match op with
  | EsMessage msg => (id_text (id msg), st.2 ++ [event_of msg (id_text (id msg))])
  | EsPing =>
      (st.1, st.2 ++ match ping_data (eventsource_ping cf) with
                     | [] => []
                     | d => [SseEvent (match ping_event (eventsource_ping cf) with [] => bytes_of "message" | e => e end) d st.1]
                     end)
  | EsStatus _ _ => st
  end.

Definition status_text (code : Z) (line : option bytes) : bytes :=
  dec code ++ [ch_colon; ch_space] ++ match line with Some l => l | None => [] end.
Definition carried_op (fuel : nat) (op : es_op) : Prop :=
  match op with
  | EsMessage msg =>
      carried msg /\ (length (buf_bytes files (buf msg)) < fuel)%nat /\
      in_range (id msg) /\ exists t, one_channel (prev_id msg) t
  | EsPing => True
  | EsStatus code line =>
      code < 400 /\ code <> NGX_HTTP_NOT_MODIFIED /\
      one_line (match line with Some l => l | None => [] end) /\ (length (status_text code line) <= 253)%nat
  end.
Definition clean_ping : Prop :=
  one_line (ping_comment (eventsource_ping cf)) /\ one_line (ping_event (eventsource_ping cf)) /\
  one_line (ping_data (eventsource_ping cf)).

Definition ready (f : full_subscriber_t) : Prop :=
  freed f = false /\ shook_hands f = true /\ exists t, one_channel (last_msgid f) t.

Lemma ready_outputs f g s : outputs f g s -> ready f -> ready g.
Proof. by intros [h ho ka an es -> _ _]. Qed.

Lemma message_op fuel f msg i evs :
  ready f -> client f = at_rest i evs -> carried_op fuel (EsMessage msg) ->
  exists f', es_do fuel f (EsMessage msg) = Ret f' /\ ready f' /\
    client f' = at_rest (id_text (id msg)) (evs ++ [event_of msg (id_text (id msg))]).
Proof.
  intros (Fr & Sh & t & O) C (Ca & Fu & Ra & t' & Op). pose proof Ra as (t2 & O2 & _).
  destruct (one_channel_update (th f) (last_msgid f) msg None t t' t2 O Op O2) as (b & U).
  simpl. unfold es_respond_message, live. rewrite Fr. simpl c_assert. rewrite bind_Ret.
  unfold move_to_msg. simpl th. simpl last_msgid. rewrite U, !bind_Ret.
  set (f1 := with_msg_id _ _). unfold es_ensure_headers_sent.
  assert (shook_hands (restart_timeout cf f1) = true /\ last_msgid (restart_timeout cf f1) = id msg /\
          out (restart_timeout cf f1) = out f /\ freed (restart_timeout cf f1) = false) as (E1 & E2 & E3 & E4)
    by (unfold restart_timeout; destruct (timeout_ev f1); done).
  rewrite E1. simpl negb. cbv iota. set (f2 := restart_timeout cf f1) in *.
  assert (in_range (last_msgid f2)) as R2 by by rewrite E2.
  pose proof (recyclable_text f2 R2) as S. destruct (id_text_one_line (last_msgid f2)) as [L Z].
  destruct (message_chain_feeds fuel f2 msg _ i evs Fu Ca S L Z) as (chain & -> & Fd). rewrite bind_Ret.
  destruct (nchan_output_filter f2 chain) as [rc g] eqn:G. apply outputs_filter' in G.
  rewrite bind_Ret. eexists. split; [reflexivity|]. split; [apply (ready_outputs f2 g _ G); split_and!; eauto|].
  - exists t2. by rewrite E2.
  - rewrite (client_outputs _ _ _ G), <- E2, <- Fd, <- C. unfold client, stream. by rewrite E3.
Qed.

(** The lines of a ping, those without a value left out. *)
Definition ping_line (prefix value : bytes) : list bytes :=
  match value with [] => [] | _ => [prefix; value; [ch_nl]] end.

Lemma ping_comment_line v t d i evs :
  one_line v -> sse_feed (Sse [] false d t i evs) (concat (ping_line [ch_colon] v)) = Sse [] false d t i evs.
Proof. intros O. destruct v; [done|]. cbn [ping_line concat]. rewrite app_nil_r. by apply comment_line. Qed.

Lemma ping_event_line v d i evs :
  one_line v -> sse_feed (Sse [] false d [] i evs) (concat (ping_line (bytes_of "event: ") v)) = Sse [] false d v i evs.
Proof. intros O. destruct v; [done|]. cbn [ping_line concat]. rewrite app_nil_r. by apply event_line. Qed.

Lemma ping_data_line v t i evs :
  one_line v ->
  sse_feed (Sse [] false [] t i evs) (concat (ping_line (bytes_of "data: ") v)) =
    Sse [] false (match v with [] => [] | _ => v ++ [ch_nl] end) t i evs.
Proof. intros O. destruct v; [done|]. cbn [ping_line concat]. rewrite app_nil_r. by apply data_line. Qed.

Lemma ping_lines_eq :
  ping_lines cf = ping_line [ch_colon] (ping_comment (eventsource_ping cf)) ++
    ping_line (bytes_of "event: ") (ping_event (eventsource_ping cf)) ++
    ping_line (bytes_of "data: ") (ping_data (eventsource_ping cf)).
Proof. unfold ping_lines. cbn [fmap list_fmap concat]. by rewrite app_nil_r. Qed.

Lemma ping_count : ping_chaincount cf = S (length (ping_lines cf)).
Proof.
  rewrite ping_lines_eq, !length_app. unfold ping_chaincount, ping_line.
  by destruct (ping_comment _), (ping_event _), (ping_data _).
Qed.

Lemma ping_feeds i evs :
  clean_ping ->
  sse_feed (at_rest i evs)
    (concat (ping_lines cf ++ [if (1 <? ping_chaincount cf)%nat then [ch_nl] else [ch_colon; ch_nl; ch_nl]])) =
    at_rest (es_expected (i, evs) EsPing).1 (es_expected (i, evs) EsPing).2.
Proof.
  intros (Oc & Oe & Od). rewrite ping_count, ping_lines_eq, !concat_app, !sse_feed_app. unfold at_rest at 1.
  rewrite ping_comment_line, ping_event_line, ping_data_line by done. unfold es_expected. simpl fst. simpl snd.
  destruct (ping_data _) as [|d pd] eqn:Ed.
  - destruct (ping_comment _), (ping_event _); cbn; by rewrite ?app_nil_r.
  - replace (1 <? S _)%nat with true by (symmetry; apply Nat.ltb_lt; rewrite !length_app; simpl; lia).
    cbn [concat]. rewrite app_nil_r, end_of_event. by destruct (ping_event _).
Qed.

Lemma ping_op fuel f i evs :
  clean_ping -> ready f -> client f = at_rest i evs ->
  exists f', es_do fuel f EsPing = Ret f' /\ ready f' /\
    client f' = at_rest (es_expected (i, evs) EsPing).1 (es_expected (i, evs) EsPing).2.
Proof.
  intros P R C. pose proof R as (Fr & Sh & t & O). unfold es_do, ping_ev_handler, live. rewrite Fr. simpl c_assert. rewrite bind_Ret.
  unfold fill_chain. rewrite length_app, Nat.add_comm, ping_count. simpl length. rewrite Nat.eqb_refl. simpl c_assert.
  rewrite !bind_Ret. rewrite <- ping_count.
  set (bufs := ping_lines cf ++ _). destruct (nchan_output_filter f bufs) as [rc g] eqn:G. apply outputs_filter' in G.
  eexists. split; [reflexivity|]. split; [by apply (ready_outputs _ _ _ G) in R|].
  change (client g = at_rest (es_expected (i, evs) EsPing).1 (es_expected (i, evs) EsPing).2).
  rewrite (client_outputs _ _ _ G), C. by apply ping_feeds.
Qed.

Lemma status_op fuel f code line i evs :
  ready f -> client f = at_rest i evs -> carried_op fuel (EsStatus code line) ->
  exists f', es_do fuel f (EsStatus code line) = Ret f' /\ ready f' /\ client f' = at_rest i evs.
Proof.
  intros R C (L4 & N3 & O1 & Len). pose proof R as (Fr & Sh & t & O). unfold es_do, es_respond_status, live. rewrite Fr. simpl c_assert.
  rewrite bind_Ret. destruct (ignored_status code line); [by exists f|].
  unfold error_before_handshake, es_ensure_headers_sent. rewrite Sh. simpl negb. simpl andb. cbv iota. set (resp := take 256 _).
  assert (resp = [ch_colon] ++ status_text code line ++ [ch_nl] ++ [ch_nl]) as ->.
  { unfold resp, status_text in *. rewrite take_ge; [by rewrite <- !app_assoc|].
    rewrite !length_app. simpl. rewrite !length_app in Len. simpl in Len. lia. }
  destruct (nchan_output_filter f _) as [rc g] eqn:G. apply outputs_filter' in G.
  replace (_ && _) with false by (symmetry; apply andb_false_iff; left; apply Z.leb_gt; lia).
  rewrite (proj2 (Z.eqb_neq _ _)) by done. simpl orb. cbv iota. rewrite bind_Ret. eexists. split; [reflexivity|].
  split; [by apply (ready_outputs _ _ _ G)|]. rewrite (client_outputs _ _ _ G), C.
  change (sse_feed (at_rest i evs) (([ch_colon] ++ status_text code line ++ [ch_nl] ++ [ch_nl]) ++ []) = at_rest i evs).
  rewrite app_nil_r, (app_assoc (status_text code line)), app_assoc, sse_feed_app. unfold at_rest at 1.
  rewrite comment_line; [done|].
  unfold status_text. rewrite !one_line_app. split_and!; [|by constant|done].
  pose proof (dec_chars code) as F. rewrite Forall_forall in F. split; intros I; apply F in I; lia.
Qed.

Lemma es_do_ok fuel f op i evs :
  clean_ping -> ready f -> client f = at_rest i evs -> carried_op fuel op ->
  exists f', es_do fuel f op = Ret f' /\ ready f' /\
    client f' = at_rest (es_expected (i, evs) op).1 (es_expected (i, evs) op).2.
Proof.
  intros P R C K. destruct op as [msg| |code line].
  - by apply (message_op _ _ _ i).
  - by apply ping_op.
  - by apply (status_op fuel).
Qed.

Lemma es_run_ok fuel ops f i evs :
  clean_ping -> ready f -> client f = at_rest i evs -> Forall (carried_op fuel) ops ->
  exists f', es_run fuel f ops = Ret f' /\ ready f' /\
    client f' = at_rest (fold_left es_expected ops (i, evs)).1 (fold_left es_expected ops (i, evs)).2.
Proof.
  intros P. revert f i evs. induction ops as [|op ops IH]; intros f i evs R C F; [by eexists|].
  apply Forall_cons in F as [K F]. destruct (es_do_ok fuel f op i evs P R C K) as (f1 & E & R1 & C1).
  cbn [es_run fold_left]. rewrite E, bind_Ret.
  rewrite (surjective_pairing (es_expected (i, evs) op)). by apply IH.
Qed.

Lemma ensure_headers_outputs f :
  shook_hands f = false -> exists g, outputs f g (bytes_of ": hi" ++ [ch_nl; ch_nl]) /\
    es_ensure_headers_sent cf rq f = with_shook_hands g true.
Proof.
  intros Sh. unfold es_ensure_headers_sent. rewrite Sh. simpl negb. cbv iota.
  set (f1 := with_content_length _ _). set (f2 := with_header_only _ _).
  assert (outputs f f2 []) as F2 by (unfold f2, f1, with_content_length, with_content_type; outputs_nothing).
  destruct (nchan_output_filter f2 _) as [rc g] eqn:G. apply outputs_filter' in G.
  eexists. split; [|reflexivity]. exact (outputs_trans _ _ _ _ _ F2 G).
Qed.

Lemma enqueue_ret f :
  freed f = false -> enqueued f = false ->
  exists g, es_enqueue cf rq f = Ret (with_enqueued (es_ensure_headers_sent cf rq g) true, NGX_OK) /\
    shook_hands g = shook_hands f /\ sent <$> out g = (sent <$> out f) ++ [[]] /\ freed g = false /\ last_msgid g = last_msgid f.
Proof.
  intros Fr En. unfold es_enqueue, longpoll_enqueue, live. rewrite Fr, En. simpl c_assert. rewrite !bind_Ret.
  set (g1 := emit _ _).
  assert (shook_hands g1 = shook_hands f /\ sent <$> out g1 = (sent <$> out f) ++ [[]] /\ freed g1 = false /\
          last_msgid g1 = last_msgid f) as (A1 & A2 & A3 & A4).
  { unfold g1, ensure_request_hold. destruct (0 <? _); destruct (negb _); simpl; by rewrite fmap_app. }
  clearbody g1. rewrite Z.eqb_refl. eexists. split; [reflexivity|]. by destruct (0 <? _).
Qed.

Lemma create_ret th i bdry answers t :
  one_channel i t ->
  exists f, eventsource_subscriber_create cf th (Some i) None bdry answers = Ret f /\
    freed f = false /\ enqueued f = false /\ shook_hands f = false /\ last_msgid f = i /\ out f = [].
Proof.
  intros [C _]. unfold eventsource_subscriber_create, longpoll_subscriber_create, nchan_copy_new_msg_id.
  rewrite C. simpl. eexists. split; [reflexivity|]. done.
Qed.

Lemma session_starts th i bdry answers t :
  one_channel i t ->
  exists f f1 rc, eventsource_subscriber_create cf th (Some i) None bdry answers = Ret f /\
    es_enqueue cf rq f = Ret (f1, rc) /\ ready f1 /\ client f1 = at_rest [] [].
Proof.
  intros O. destruct (create_ret th i bdry answers t O) as (f & E & Fr & En & Sh & L & Ou).
  destruct (enqueue_ret f Fr En) as (g & Eg & Sg & Og & Fg & Lg).
  eexists _, _, _. split; [exact E|]. split; [exact Eg|].
  rewrite Sh in Sg. destruct (ensure_headers_outputs g Sg) as (k & K & ->).
  pose proof (stream_outputs _ _ _ K) as Sk. unfold stream in Sk at 2. rewrite Og, Ou in Sk. split.
  - destruct K as [h ho ka an es -> _ _]. split; [exact Fg|]. split; [reflexivity|]. exists t.
    change (one_channel (last_msgid g) t). by rewrite Lg, L.
  - change (client k = at_rest [] []). unfold client. by rewrite Sk.
Qed.


End facts.

(** ** Examples *)

#[export] Program Instance ngx_time_reference : NgxTime :=
  {| ngx_http_time := fun _ => bytes_of "Mon, 28 Sep 1970 06:00:00 GMT" |}.
Next Obligation. done. Qed.

Definition example_conf : sub_conf :=
  SubConf 0 false false false false [] false [] []
    (EsPingConf [] (bytes_of "tick") (bytes_of "now") 30) false None.
Definition example_request : request_in := RequestIn None false.
Definition example_id (t : Z) (g : Z) : nchan_msg_id_t := MsgId t (fixed [g; 0; 0; 0]) 0 1.
Definition example_msg (t g : Z) (prev : nchan_msg_id_t) (text : bytes) (event : option bytes) : nchan_msg_t :=
  Msg (example_id t g) prev None event (Buf true false text 0 None true) 0 0 None None NCHAN_MSG_HEAP.
Definition example_file_msg (t g : Z) (prev : nchan_msg_id_t) (name : bytes) (size : Z) : nchan_msg_t :=
  Msg (example_id t g) prev None None (Buf false true [] size (Some (File name true)) true) 0 0 None None NCHAN_MSG_HEAP.

Definition example_ops : list es_op :=
  [EsMessage (example_msg 5 0 (example_id 0 0) (bytes_of "one" ++ [ch_nl] ++ bytes_of "two") None);
   EsPing;
   EsStatus 200 (Some (bytes_of "fine"));
   EsMessage (example_msg 5 1 (example_id 5 0) (bytes_of "three" ++ [ch_nl]) (Some (bytes_of "note")));
   EsMessage (example_file_msg 5 2 (example_id 5 1) (bytes_of "/tmp/1") 9)].
Definition example_files (name : bytes) : bytes := bytes_of "four" ++ [ch_nl] ++ bytes_of "five".

Lemma example_carried : Forall (carried_op example_conf example_files 100) example_ops.
Proof.
  repeat constructor; try (by apply (bool_decide_unpack _)); try (vm_compute; lia); try (by vm_compute);
    try (by (eexists; split; [split; [reflexivity|eauto]|])); try (by (eexists; split; [reflexivity|eauto])).
  exists (File (bytes_of "/tmp/1") true). split_and!; [done|done|]. split_and!; [done|done|].
  intros k K. destruct (decide (k = 4%nat)) as [->|N]; [by exists 102|]. exfalso.
  do 10 (destruct k as [|k]; [by vm_compute in K|]). by vm_compute in K.
Qed.


(** The events of the example. *)
Example example_events :
  fold_left (es_expected example_conf example_files) example_ops ([], []) =
    (bytes_of "5:2",
     [SseEvent (bytes_of "message") (bytes_of "one" ++ [ch_nl] ++ bytes_of "two") (bytes_of "5:0");
      SseEvent (bytes_of "tick") (bytes_of "now") (bytes_of "5:0");
      SseEvent (bytes_of "note") (bytes_of "three" ++ [ch_nl]) (bytes_of "5:1");
      SseEvent (bytes_of "message") (bytes_of "four" ++ [ch_nl] ++ bytes_of "five") (bytes_of "5:2")]).
Proof. reflexivity. Qed.

Lemma es_file_newline_diverges_witness :
  (0 < 3)%nat /\ es_file_loop 1000 (ch_nl :: bytes_of "hi") 3 = NoFuel.
Proof. split; [lia|]. apply es_file_newline_diverges. lia. Defined.

Lemma es_file_as_memory_witness :
  let s := bytes_of "one" ++ [ch_nl] ++ bytes_of "two" in
  exists bufs, es_file_loop 10 s (length s) = Ret bufs /\ es_memory_loop 10 s = Ret bufs.
Proof.
  apply es_file_as_memory; [|simpl; lia]. split_and!; [done|done|].
  intros k K. destruct (decide (k = 3%nat)) as [->|N]; [by exists 116|]. exfalso.
  do 8 (destruct k as [|k]; [by vm_compute in K|]). by vm_compute in K.
Defined.

(** A carriage return ends a line for the client: what follows it in the text of
    a message is read as a line of the protocol, here a forged id. *)
Example carriage_return_forges_id :
  (f ← es_session example_conf example_request (fun _ => []) (fun _ => []) 100 ∅ (example_id 0 0) [] []
         [EsMessage (example_msg 5 0 (example_id 0 0) (bytes_of "one" ++ [ch_cr] ++ bytes_of "id: 99:0") None)];
   Ret (s_events (client f))) = Ret [SseEvent (bytes_of "message") (bytes_of "one") (bytes_of "99:0")].
Proof. vm_compute. reflexivity. Qed.

(** An empty line, or an indented one, in a message that is in a file: the first
    ends the event early, the second is lost. *)
Example file_lines_are_lost :
  let text := bytes_of "one" ++ [ch_nl; ch_nl] ++ bytes_of "two" ++ [ch_nl; ch_space] ++ bytes_of "three" in
  (f ← es_session example_conf example_request (fun _ => text) (fun _ => []) 100 ∅ (example_id 0 0) [] []
         [EsMessage (example_file_msg 5 0 (example_id 0 0) (bytes_of "/tmp/1") (Z.of_nat (length text)))];
   Ret (s_events (client f))) =
    Ret [SseEvent (bytes_of "message") (bytes_of "one") (bytes_of "5:0");
         SseEvent (bytes_of "message") (bytes_of "two") (bytes_of "5:0")].
Proof. vm_compute. reflexivity. Qed.
