(* ===== verification/HttpSafety.v ===== *)
(** * The life of a subscriber over HTTP

    Whatever the store, the client and the timers do, in any order the rest of
    the module allows, no handler of the five protocols fails, a subscriber that
    is gone has no timer, no place in a channel and no cleanup left behind, and
    its request is finalized once at most. *)

From S2P Require Import Prelude Nginx MsgId Msg HttpSub HttpStream HttpFrame EventSource.

Definition is_finalize (e : http_effect) : bool := match e with FinalizeRequest _ => true | _ => false end.
Definition finalizations (es : list http_effect) : nat := length (filter (fun e => is_finalize e = true) es).

Lemma finalizations_app es es' : finalizations (es ++ es') = (finalizations es + finalizations es')%nat.
Proof. unfold finalizations. by rewrite filter_app, length_app. Qed.

Lemma finalizations_outputs es : Forall is_output es -> finalizations es = 0%nat.
Proof.
  intros F. unfold finalizations. rewrite filter_none; [done|]. rewrite Forall_forall in F.
  intros e E%F. by destruct e.
Qed.

Section safety.
Context `{NgxString} `{NgxTime} (cf : sub_conf) (rq : request_in).
Context (files : bytes -> bytes) (ptr_words : positive -> list Z).

(** ** What can happen *)

Inductive http_op :=
  | OpEnqueue
  | OpMessage (msg : nchan_msg_t)
  | OpStatus (code : Z) (line : option bytes) (body : option (list bytes))
  | OpTimeout
  | OpPing
  | OpReserve
  | OpRelease (nodestroy : bool)
  | OpAbort        (* the request is cleaned up *)
  | OpReadEvent.   (* the client sends more *)

Definition http_step (fuel : nat) (f : full_subscriber_t) (op : http_op) : outcome full_subscriber_t :=
  match op with
  | OpEnqueue => '(f, _) ← fn_enqueue cf rq f; Ret f
  | OpMessage msg => '(f, _) ← fn_respond_message cf rq files ptr_words fuel f msg true None; Ret f
  | OpStatus code line body => '(f, _) ← fn_respond_status cf rq files f code line body; Ret f
  | OpTimeout => nchan_subscriber_timeout_ev_handler cf rq files f
  | OpPing => ping_ev_handler cf f
  | OpReserve => longpoll_reserve f
  | OpRelease nodestroy => '(f, _) ← longpoll_release f nodestroy; Ret f
  | OpAbort => sudden_abort_handler cf (with_abort_handler f false)
  | OpReadEvent => finalize_request_handler cf rq files f
  end.

(** What the rest of the module does: messages go to subscribers in a channel,
    timers fire when set, a cleanup runs when registered.  A subscriber that is
    dead but reserved is only released, and nobody dequeues a subscriber
    directly.  Messages are of one channel; a file for EventSource does not start
    with a newline, the headers of a part for multipart fit their buffer. *)
Definition permitted (fuel : nat) (f : full_subscriber_t) (op : http_op) : Prop :=
  freed f = false /\
  match op with
  | OpEnqueue => dead f = false /\ enqueued f = false
  | OpMessage msg =>
      enqueued f = true /\ (exists t, one_channel (prev_id msg) t) /\ in_range (id msg) /\ 0 <= ngx_buf_size (buf msg) /\
      match type f with
      | EVENTSOURCE => readable files msg /\ (length (buf_bytes files (buf msg)) < fuel)%nat
      | HTTP_MULTIPART => exists h, multipart_headers cf (restart_timeout cf f) msg = Ret h
      | _ => True
      end
  | OpStatus _ _ _ => dead f = false
  | OpTimeout => timeout_ev f <> None
  | OpPing => ping_ev f <> None
  | OpReserve => dead f = false
  | OpRelease nodestroy => 0 < reserved f /\ (dead f = true -> nodestroy = false)
  | OpAbort => abort_handler f = true
  | OpReadEvent => True
  end.

Fixpoint http_run (fuel : nat) (f : full_subscriber_t) (ops : list http_op) : outcome full_subscriber_t :=
  match ops with [] => Ret f | op :: ops => f ← http_step fuel f op; http_run fuel f ops end.

Fixpoint permitted_run (fuel : nat) (f : full_subscriber_t) (ops : list http_op) : Prop :=
  match ops with
  | [] => True
  | op :: ops => permitted fuel f op /\ forall g, http_step fuel f op = Ret g -> permitted_run fuel g ops
  end.

(** ** The invariant *)

Record core (f : full_subscriber_t) : Prop := {
  a_dead : dead f = false;
  a_freed : freed f = false;
  a_destroy : destroy_after_dequeue f = true;
  a_id : in_range (last_msgid f);
  a_none : finalizations (out f) = 0%nat;
  a_abort : abort_handler f = true;
  a_reserved : 0 <= reserved f;
  a_await : awaiting_destruction f = false;
  a_longpoll : type f = LONGPOLL -> finalize_request f = true /\ already_responded f = false;
  a_multi : Forall (fun m => in_range (id m)) (multimsg f);
  a_stream : type f <> LONGPOLL -> enqueued f = true -> shook_hands f = true;
  a_ping : type f <> EVENTSOURCE -> ping_ev f = None;
}.

Definition alive (f : full_subscriber_t) : Prop :=
  core f /\ (type f = LONGPOLL -> dequeue_after_response f = negb (longpoll_multimsg cf)).

(** Out of its channel, without timers: the memory was given back, or will be
    when it is released. *)
Record gone (f : full_subscriber_t) : Prop := {
  g_dead : dead f = true;
  g_enqueued : enqueued f = false;
  g_timeout : timeout_ev f = None;
  g_ping : ping_ev f = None;
  g_ctx : ctx_sub f = false;
  g_abort : abort_handler f = false;
  g_once : (finalizations (out f) <= 1)%nat;
  g_reserved : 0 <= reserved f;
  g_freed : freed f = (reserved f =? 0);
  g_await : freed f = false -> awaiting_destruction f = true;
  g_id : freed f = false -> exists t, one_channel (last_msgid f) t;
}.

Definition http_inv (f : full_subscriber_t) : Prop := alive f \/ gone f.

(** ** Dequeueing *)

Lemma one_channel_free th i t : one_channel i t -> nchan_free_msg_id th i = Ret (th, i, NGX_OK).
Proof. intros [C _]. unfold nchan_free_msg_id. by rewrite C. Qed.

(** What the first steps of a dequeueing leave. *)
Record kept (f g : full_subscriber_t) : Prop := {
  k_reserved : reserved g = reserved f;
  k_destroy : destroy_after_dequeue g = destroy_after_dequeue f;
  k_id : last_msgid g = last_msgid f;
  k_abort : abort_handler g = abort_handler f;
  k_freed : freed g = freed f;
  k_ping : ping_ev g = ping_ev f;
}.

Lemma kept_trans f g h : kept f g -> kept g h -> kept f h.
Proof. intros [] []. split; congruence. Qed.

Lemma dequeue_start_ok f :
  let f1 := emit (with_timeout_ev f None) DequeueCallback in
  let f2 := if enqueued f1 && enable_sub_unsub_callbacks f1 && unsubscribe_request_url cf
            then nchan_subscriber_unsubscribe_request f1 else f1 in
  kept f f2 /\ timeout_ev f2 = None /\ dead f2 = dead f /\
    exists es, out f2 = out f ++ es /\ finalizations es = 0%nat /\ concat (sent <$> es) = [].
Proof.
  intros f1 f2. assert (kept f f1 /\ timeout_ev f1 = None /\ dead f1 = dead f /\ out f1 = out f ++ [DequeueCallback])
    as (K & T & D & O) by by split_and!; [split|..].
  clearbody f1. unfold f2, nchan_subscriber_unsubscribe_request. clear f2.
  destruct (_ && _); [destruct (negb _); [|destruct (sent_unsubscribe_request f1)]|];
    try by (split_and!; [done..|exists [DequeueCallback]]).
  split_and!; [by eapply kept_trans; [exact K|]|done|done|].
  exists [DequeueCallback; UnsubscribeRequest]. split; [|done]. unfold emit. simpl. by rewrite O, <- app_assoc.
Qed.

Lemma dequeue_destroy_ok f t :
  freed f = false -> dead f = true -> one_channel (last_msgid f) t -> 0 <= reserved f ->
  enqueued f = false -> timeout_ev f = None -> ping_ev f = None -> ctx_sub f = false -> abort_handler f = false ->
  (finalizations (out f) <= 1)%nat ->
  exists g, longpoll_subscriber_destroy f = Ret g /\ gone g /\ out g = out f.
Proof.
  intros Fr De O Re En Ti Pi Cx Ab Fi. unfold longpoll_subscriber_destroy, live. rewrite Fr. simpl c_assert.
  rewrite bind_Ret. destruct (Z.ltb_spec 0 (reserved f)).
  - eexists. split; [reflexivity|]. split; [|done]. split; simpl; try done; [|by exists t].
    rewrite Fr. symmetry. apply Z.eqb_neq. lia.
  - rewrite (one_channel_free _ _ t) by done. rewrite bind_Ret, De. simpl c_assert. rewrite bind_Ret.
    eexists. split; [reflexivity|]. split; [|done]. split; simpl; try done. symmetry. apply Z.eqb_eq. lia.
Qed.

Lemma longpoll_dequeue_ok f t :
  freed f = false -> destroy_after_dequeue f = true -> one_channel (last_msgid f) t -> finalizations (out f) = 0%nat ->
  finalize_request f = true \/ dead f = true -> 0 <= reserved f -> abort_handler f = false -> ping_ev f = None ->
  exists g, longpoll_dequeue cf f = Ret (g, NGX_OK) /\ gone g /\ stream g = stream f /\
    finalizations (out g) = (if finalize_request f then 1 else 0)%nat.
Proof.
  intros Fr De O F0 Fi Re Ab Pi. unfold longpoll_dequeue, live. rewrite Fr. simpl c_assert. rewrite bind_Ret.
  destruct (dequeue_start_ok f) as ([K1 K2 K3 K4 K5 K6] & T & D & es & Ou & E0 & S0).
  set (f2 := if _ && _ then _ else _) in *. clearbody f2.
  set (f3 := if finalize_request f then _ else _).
  assert (dead f3 = true /\ freed f3 = false /\ one_channel (last_msgid f3) t /\ 0 <= reserved f3 /\ enqueued f3 = false /\
          timeout_ev f3 = None /\ ping_ev f3 = None /\ ctx_sub f3 = false /\ abort_handler f3 = false /\
          destroy_after_dequeue f3 = true) as (A1 & A2 & A3 & A4 & A5 & A6 & A7 & A8 & A9 & A10).
  { unfold f3. destruct (finalize_request f); simpl; rewrite ?K1, ?K2, ?K3, ?K4, ?K5, ?K6; split_and!; try done.
    rewrite D. by destruct Fi. }
  assert (finalizations (out f3) = (if finalize_request f then 1 else 0)%nat /\ stream f3 = stream f) as (A11 & A12).
  { unfold f3, stream. destruct (finalize_request f); simpl; rewrite Ou, ?finalizations_app, F0, E0, ?fmap_app, ?concat_app;
      simpl; rewrite ?app_nil_r; by rewrite ?fmap_app, ?concat_app, ?S0, ?app_nil_r. }
  clearbody f3. rewrite A10.
  destruct (dequeue_destroy_ok f3 t) as (g & -> & G & Og); try done; [rewrite A11; destruct (finalize_request f); lia|].
  rewrite bind_Ret. exists g. split; [done|]. split; [done|]. unfold stream in *. by rewrite Og.
Qed.

(** About to be dequeued, with the abort handler disabled. *)
Record ending (f : full_subscriber_t) : Prop := {
  e_freed : freed f = false;
  e_destroy : destroy_after_dequeue f = true;
  e_id : exists t, one_channel (last_msgid f) t;
  e_none : finalizations (out f) = 0%nat;
  e_final : finalize_request f = true \/ dead f = true;
  e_reserved : 0 <= reserved f;
  e_abort : abort_handler f = false;
  e_ping : type f <> EVENTSOURCE -> ping_ev f = None;
}.

Lemma fn_dequeue_ok f :
  ending f ->
  exists g, fn_dequeue cf f = Ret (g, NGX_OK) /\ gone g /\ stream g = stream f /\
    finalizations (out g) = (if finalize_request f then 1 else 0)%nat.
Proof.
  intros [Fr De [t O] F0 Fi Re Ab Pi]. unfold fn_dequeue. case_decide as Ty.
  - unfold es_dequeue, live. rewrite Fr. simpl c_assert. rewrite bind_Ret.
    by apply (longpoll_dequeue_ok (with_ping_ev f None) t).
  - apply (longpoll_dequeue_ok f t); auto.
Qed.

(** ** Responses *)

Lemma core_outputs f g s : outputs f g s -> core f -> core g.
Proof.
  intros [h ho ka an es -> F _] C. destruct C. split; try assumption; simpl.
  rewrite finalizations_app, (finalizations_outputs es) by done. rewrite a_none0. done.
Qed.

Lemma alive_outputs f g s : outputs f g s -> alive f -> alive g.
Proof. intros O [C D]. split; [by eapply core_outputs|]. by destruct O as [h ho ka an es -> _ _]. Qed.

Lemma gone_outputs f g s : outputs f g s -> gone f -> gone g.
Proof.
  intros [h ho ka an es -> F _] C. destruct C. split; try assumption; simpl.
  rewrite finalizations_app, (finalizations_outputs es) by done. lia.
Qed.

Lemma outputs_finalizations f g s : outputs f g s -> finalizations (out g) = finalizations (out f).
Proof. intros [h ho ka an es -> F _]. simpl. rewrite finalizations_app, (finalizations_outputs es) by done. lia. Qed.

Lemma in_range_text th i : in_range i -> exists s, msgtag_to_str th i = Ret s.
Proof.
  intros (t & (C & ts & T) & _). unfold msgtag_to_str, msgtag_to_strptr. rewrite C. change (u8 1 =? 1) with true.
  cbv iota zeta. unfold id_tags, id_array. simpl tagcount. simpl tag. rewrite T. simpl. eauto.
Qed.

Lemma outputs_if (b : bool) f g : outputs f g [] -> outputs f (if b then g else f) [].
Proof. destruct b; eauto with nchan. Qed.

Lemma set_headers_ok f i :
  in_range i -> exists g, nchan_set_msgid_http_response_headers cf rq f i = Ret g /\ outputs f g [].
Proof.
  intros R. destruct (in_range_text (th f) i R) as [s E]. unfold nchan_set_msgid_http_response_headers.
  assert (exists g0 b, (if negb (msg_in_etag_only cf) then
       s ← msgtag_to_str (th f) i; if 0 <? time i then Ret (with_last_modified f (time i), s, true) else Ret (f, s, false)
     else s ← msgid_to_str (th f) i; Ret (f, s, true)) = Ret g0 /\ g0.1.2 = b /\ outputs f g0.1.1 []) as ([[g0 e0] b0] & b & E0 & _ & O).
  { unfold msgid_to_str. rewrite <- (eq_refl : msgtag_to_str (th f) i = msgtag_to_strptr (th f) i), E, !bind_Ret.
    destruct (msg_in_etag_only cf); simpl negb; cbv iota; [|destruct (0 <? time i)]; eexists _, _; split_and!; try reflexivity;
      simpl; unfold with_last_modified; eauto with nchan. }
  rewrite E0, bind_Ret. eexists. split; [reflexivity|]. simpl in O. unfold nchan_add_response_header.
  destruct b0, (origin rq); simpl; outputs_nothing.
Qed.

Lemma respond_msg_ok f msg i :
  in_range i -> exists g rc s, nchan_respond_msg cf rq files f msg i false = Ret (g, rc) /\ outputs f g s.
Proof.
  intros R. unfold nchan_respond_msg.
  set (p := if 0 <? _ then _ else _).
  assert (outputs f p.1 []) as P by (unfold p, with_content_length; destruct (0 <? _); simpl; outputs_nothing).
  destruct p as [f1 chain]. simpl in P. set (f2 := match content_type msg with Some _ => _ | None => _ end).
  assert (outputs f f2 []) as P2 by (unfold f2, with_content_type; destruct (content_type msg); outputs_nothing).
  destruct (set_headers_ok f2 i R) as (f3 & -> & O3). rewrite bind_Ret.
  pose proof (outputs_then _ _ _ _ P2 O3) as P3. unfold with_status.
  set (f4 := nchan_include_access_control_if_needed _ _ _).
  assert (outputs f f4 []) as P4 by (unfold f4; outputs_nothing).
  destruct (ngx_http_send_header f4) as [rc f5] eqn:E5. apply outputs_send_header' in E5.
  pose proof (outputs_then _ _ _ _ P4 E5) as P5.
  destruct (NGX_HTTP_SPECIAL_RESPONSE <=? rc); [by eexists _, _, _|].
  destruct chain as [b|]; [|by eexists _, _, _].
  destruct (nchan_output_filter f5 b) as [rc' f6] eqn:E6. apply outputs_filter' in E6.
  eexists _, _, _. split; [reflexivity|]. by eapply outputs_trans.
Qed.

Lemma respond_status_ok f code line body finalize :
  exists g rc s, outputs f g s /\
    nchan_respond_status cf rq f code line body finalize = (if finalize then emit g (FinalizeRequest rc) else g, rc).
Proof.
  unfold nchan_respond_status. set (f1 := with_status f code _).
  set (f2 := match body with None => _ | Some _ => f1 end).
  assert (outputs f f2 []) as P2
    by (unfold f2, f1, with_status, with_content_length; destruct body; outputs_nothing).
  pose proof (outputs_then _ _ _ _ P2 (outputs_access_control cf rq f2)) as P3.
  destruct (ngx_http_send_header _) as [rc f4] eqn:E4. apply outputs_send_header' in E4.
  pose proof (outputs_then _ _ _ _ P3 E4) as P4. destruct body as [b|].
  - destruct (nchan_output_filter f4 b) as [rc' f5] eqn:E5. apply outputs_filter' in E5.
    exists f5, rc', ([] ++ concat b). split; [by eapply outputs_trans|by destruct finalize].
  - exists f4, rc, []. split; [done|by destruct finalize].
Qed.

(** ** The ways to end *)

Lemma ending_outputs f g s : outputs f g s -> ending f -> ending g.
Proof.
  intros [h ho ka an es -> F _] []. split; try assumption. simpl.
  rewrite finalizations_app, (finalizations_outputs es) by done. lia.
Qed.

Ltac ending_of C := let i := fresh in destruct C as [? ? ? (? & i & ?) ? ? ? ? ? ? ? ?]; split; simpl; eauto.

Lemma maybe_dequeue_ok f code :
  core f -> exists g, subscriber_maybe_dequeue_after_status_response cf f code = Ret g /\ stream g = stream f /\
    if (400 <=? code) && (code <? 600) || (code =? NGX_HTTP_NOT_MODIFIED) then gone g else g = f.
Proof.
  intros C. unfold subscriber_maybe_dequeue_after_status_response. destruct (_ || _); [|by exists f].
  set (f1 := with_status _ _ _). assert (ending f1) as E by (ending_of C).
  destruct (fn_dequeue_ok f1 E) as (g & -> & G & St & _). by exists g.
Qed.

Lemma unqueued_ok f code line body :
  core f -> exists g rc, subscriber_respond_unqueued_status cf rq f code line body = Ret (g, rc) /\ gone g.
Proof.
  intros C. unfold subscriber_respond_unqueued_status. set (f1 := with_dead _ _).
  assert (ending f1) as E by (ending_of C).
  destruct (fn_dequeue_ok f1 E) as (g & -> & G & St & F).
  rewrite bind_Ret. set (g1 := if _ || _ then _ else g).
  assert (gone g1 /\ finalizations (out g1) = 0%nat) as [G1 F1].
  { unfold g1. destruct (_ || _); [|done]. split; [destruct G; by split|done]. }
  destruct (respond_status_ok g1 code line body true) as (g2 & rc & s & O & ->).
  eexists _, _. split; [reflexivity|]. pose proof (outputs_finalizations _ _ _ O) as F2. rewrite F1 in F2.
  pose proof (gone_outputs _ _ _ O G1) as []. split; simpl; try assumption. rewrite finalizations_app, F2. exact (le_n 1).
Qed.

(** ** Long polling *)

Lemma dequeue_maybe_ok f : ending f -> dequeue_after_response f = true -> exists g, dequeue_maybe cf f = Ret g /\ gone g.
Proof.
  intros E D. unfold dequeue_maybe, live. rewrite (e_freed _ E), D. simpl c_assert. rewrite bind_Ret.
  destruct (fn_dequeue_ok f E) as (g & -> & G & _). by exists g.
Qed.

(** Either a response was sent, or it could not be: the subscriber is gone. *)
Lemma answer_or_abort f rc :
  ending f -> dequeue_after_response f = true ->
  exists g rc', (if negb (rc =? NGX_OK) then abort_response cf f else f ← dequeue_maybe cf f; Ret (f, rc)) = Ret (g, rc') /\ gone g.
Proof.
  intros E D. destruct (negb _).
  - unfold abort_response. destruct (fn_dequeue_ok f E) as (g & -> & G & _). by exists g, NGX_ERROR.
  - destruct (dequeue_maybe_ok f E D) as (g & -> & G). by exists g, rc.
Qed.

(** A message moves the subscriber to its id, and changes nothing else. *)
Lemma move_ok f msg :
  core f -> in_range (id msg) -> (exists t, one_channel (prev_id msg) t) ->
  exists g, move_to_msg ptr_words f msg None = Ret g /\ core g /\ last_msgid g = id msg /\
    g = with_msg_id (with_last_msgid (with_prev_msg_id f (last_msgid f)) (id msg)) (id msg).
Proof.
  intros C R [t' O']. pose proof (a_id _ C) as (t & O & _). pose proof R as (t2 & O2 & _).
  destruct (one_channel_update ptr_words (th f) (last_msgid f) msg None t t' t2 O O' O2) as (b & U).
  unfold move_to_msg. simpl th. simpl last_msgid. rewrite U, bind_Ret. eexists. split; [reflexivity|].
  split; [destruct C; by split|]. split; [done|]. by destruct f.
Qed.

Lemma longpoll_message_ok f msg :
  alive f -> type f = LONGPOLL -> in_range (id msg) -> (exists t, one_channel (prev_id msg) t) ->
  exists g rc, longpoll_respond_message cf rq files ptr_words f msg true None = Ret (g, rc) /\ http_inv g.
Proof.
  intros [C D] Ty R P. unfold longpoll_respond_message, live. rewrite (a_freed _ C). simpl c_assert. rewrite bind_Ret.
  destruct (move_ok f msg C R P) as (f1 & -> & C1 & L1 & Ef1). rewrite bind_Ret.
  assert (type f1 = LONGPOLL /\ dequeue_after_response f1 = negb (longpoll_multimsg cf)) as [Ty1 D1]
    by (rewrite Ef1; split; [done|by apply D]).
  clear Ef1. destruct (a_longpoll _ C1 Ty1) as [Fi Al]. destruct (longpoll_multimsg cf) eqn:Em; simpl negb in *; cbv iota.
  - simpl. unfold dequeue_maybe, live. simpl freed. rewrite (a_freed _ C1). simpl c_assert. rewrite bind_Ret.
    simpl dequeue_after_response. rewrite D1, bind_Ret. eexists _, _. split; [reflexivity|]. left. split; [|intros _; by rewrite Em].
    destruct C1. split; try assumption; simpl; [by rewrite finalizations_app, a_none0|].
    apply Forall_app. split; [done|]. by repeat constructor.
  - set (f2 := with_abort_handler _ _). change (already_responded f2) with (already_responded f1). rewrite Al.
    simpl c_assert. rewrite bind_Ret. set (f3 := with_already_responded f2 true).
    assert (ending f3) as E3 by (ending_of C1).
    destruct (respond_msg_ok f3 msg (last_msgid f3)) as (f4 & rc & s & E4 & O); [by apply C1|].
    rewrite E4, bind_Ret. destruct (answer_or_abort f4 rc) as (g & rc' & E & G); [by eapply ending_outputs| |].
    + by destruct O as [h ho ka an es -> _ _].
    + exists g, rc'. split; [exact E|by right].
Qed.

Lemma multipart_respond_ok f :
  core f -> type f = LONGPOLL -> multimsg f <> [] ->
  exists g rc, longpoll_multipart_respond cf rq files f = Ret (g, rc) /\
    (rc = NGX_OK -> ending g /\ dequeue_after_response g = true) /\ (rc <> NGX_OK -> gone g).
Proof.
  intros C Ty N. unfold longpoll_multipart_respond. set (f1 := with_multimsg_cleanup _ _).
  destruct (a_longpoll _ C Ty) as [Fi _]. assert (ending f1) as E1 by (ending_of C).
  assert (in_range (last_msgid f1)) as R1 by apply C. pose proof (a_multi _ C) as Mu.
  change (multimsg f1) with (multimsg f). change (dequeue_after_response f1) with true in *.
  assert (forall g s, outputs f1 g s -> ending g /\ dequeue_after_response g = true) as Go.
  { intros g s O. split; [by eapply ending_outputs|]. by destruct O as [h ho ka an es -> _ _]. }
  assert (forall g s, outputs f1 g s -> exists k, abort_response cf g = Ret (k, NGX_ERROR) /\ gone k) as Ab.
  { intros g s O. destruct (fn_dequeue_ok g (proj1 (Go _ _ O))) as (k & E & G & _).
    exists k. unfold abort_response. by rewrite E. }
  destruct (multimsg f) as [|m ms] eqn:Em; [done|]. destruct ms as [|m2 ms].
  { destruct (respond_msg_ok f1 m (last_msgid f1) R1) as (g & rc & s & -> & O). rewrite bind_Ret.
    destruct (negb (rc =? NGX_OK)).
    - destruct (Ab _ _ O) as (k & -> & G). by exists k, NGX_ERROR.
    - exists g, NGX_OK. split; [done|]. split; [by intros _; eapply Go|done]. }
  set (msgs := m :: m2 :: ms) in *.
  assert (exists l, list.last msgs = Some l /\ in_range (id l)) as (l & El & Rl).
  { destruct (list.last msgs) as [l|] eqn:El; [|by apply last_None in El]. exists l. split; [done|].
    rewrite Forall_forall in Mu. by apply Mu, last_elem. }
  rewrite El.
  set (f2 := if negb _ then _ else f1). set (bufs := multimsg_loop _ _ _ _ _).
  assert (outputs f1 f2 []) as O2
    by (unfold f2, nchan_request_set_content_type_multipart_boundary_header, with_content_type; destruct (negb _); outputs_nothing).
  set (f3 := with_content_length _ _). assert (outputs f1 f3 []) as O3
    by (unfold f3, with_content_length, with_status; outputs_nothing).
  destruct (set_headers_ok f3 (id l) Rl) as (f4 & E4 & O4). rewrite E4, bind_Ret.
  set (f5 := nchan_include_access_control_if_needed _ _ _).
  assert (outputs f1 f5 []) as O5 by exact (outputs_then _ _ _ _ (outputs_then _ _ _ _ O3 O4) (outputs_access_control cf rq f4)).
  destruct (ngx_http_send_header f5) as [rc f6] eqn:E6. apply outputs_send_header' in E6.
  pose proof (outputs_then _ _ _ _ O5 E6) as O6. destruct (negb (rc =? NGX_OK)).
  { destruct (Ab _ _ O6) as (k & -> & G). by exists k, NGX_ERROR. }
  destruct (nchan_output_filter f6 bufs) as [rc' f7] eqn:E7. apply outputs_filter' in E7.
  pose proof (outputs_trans _ _ _ _ _ O6 E7) as O7. destruct (negb (rc' =? NGX_OK)).
  { destruct (Ab _ _ O7) as (k & -> & G). by exists k, NGX_ERROR. }
  exists f7, NGX_OK. split; [done|]. split; [by intros _; eapply Go|done].
Qed.

(** A status either leaves the subscriber as it is or ends it; one that is not
    ignored ends long polling. *)
Lemma longpoll_status_ok f code line body :
  core f -> type f = LONGPOLL ->
  exists g rc, longpoll_respond_status cf rq files f code line body = Ret (g, rc) /\
    (gone g \/ g = f /\ ignored_status code line = true).
Proof.
  intros C Ty. unfold longpoll_respond_status, live. rewrite (a_freed _ C). simpl c_assert. rewrite bind_Ret.
  destruct (negb _ && _) eqn:Eb.
  - apply andb_true_iff in Eb as [_ Ei]. destruct (longpoll_multimsg cf); [|by eexists _, _; split; [reflexivity|right]].
    destruct (multimsg f) as [|m ms] eqn:Em; [by eexists _, _; split; [reflexivity|right]|].
    destruct (multipart_respond_ok f C Ty) as (g & rc & -> & Ok & Err); [by rewrite Em|]. rewrite bind_Ret.
    destruct (Z.eqb_spec rc NGX_OK) as [E|E].
    + destruct (Ok E) as [En D]. destruct (dequeue_maybe_ok g En D) as (k & -> & G). eexists _, _. split; [reflexivity|by left].
    + eexists _, _. split; [reflexivity|left; by apply Err].
  - clear Eb. set (code' := if _ && _ then _ else code).
    destruct (set_headers_ok (with_dequeue_after_response f true) (last_msgid f)) as (f2 & E2 & O2); [by apply C|].
    simpl last_msgid. rewrite E2, bind_Ret. destruct (a_longpoll _ C Ty) as [Fi _].
    destruct (respond_status_ok (with_abort_handler f2 false) code' line body false) as (f3 & rc & s & O3 & ->).
    assert (ending (with_abort_handler f2 false) /\ dequeue_after_response f2 = true) as [En D].
    { destruct O2 as [h ho ka an es -> F _]. split; [|done].
      ending_of C. rewrite finalizations_app, (finalizations_outputs es) by done. lia. }
    pose proof (ending_outputs _ _ _ O3 En) as En3.
    destruct (dequeue_maybe_ok f3 En3) as (g & -> & G); [by destruct O3 as [h ho ka an es -> _ _]|].
    eexists _, _. split; [reflexivity|by left].
Qed.

(** ** Streams *)

Lemma outputs_shook f g s : outputs f g s -> outputs (with_shook_hands f true) (with_shook_hands g true) s.
Proof. intros [h ho ka an es -> F E]. by exists h ho ka an es. Qed.

(** The headers were sent, now or before. *)
Definition shakes (f g : full_subscriber_t) : Prop := exists s, outputs (with_shook_hands f true) g s.

Lemma shook_eta f : shook_hands f = true -> with_shook_hands f true = f.
Proof. intros E. destruct f. simpl in E. by rewrite E. Qed.

Lemma shakes_done f : shook_hands f = true -> shakes f f.
Proof. intros E. exists []. rewrite (shook_eta _ E). apply outputs_refl. Qed.

Lemma es_shakes f : shakes f (es_ensure_headers_sent cf rq f).
Proof.
  destruct (shook_hands f) eqn:Sh.
  - unfold es_ensure_headers_sent. rewrite Sh. by apply shakes_done.
  - destruct (ensure_headers_outputs cf rq f Sh) as (g & O & ->). eexists. by apply outputs_shook.
Qed.

Lemma chunked_quiet f : outputs (with_shook_hands f true) (chunked_ensure_headers_sent cf rq f) [].
Proof.
  unfold chunked_ensure_headers_sent. destruct (shook_hands f) eqn:Sh; [rewrite (shook_eta _ Sh); apply outputs_refl|].
  simpl negb. cbv iota.
  set (f1 := nchan_add_response_header _ _ _).
  assert (outputs f f1 []) as O1 by (unfold f1, nchan_add_response_header; outputs_nothing).
  eapply outputs_then; [apply outputs_shook|eauto with nchan].
  exact (outputs_then _ _ _ _ O1 (outputs_cleverly cf rq f1)).
Qed.

Lemma chunked_shakes f : shakes f (chunked_ensure_headers_sent cf rq f).
Proof. eexists. apply chunked_quiet. Qed.

Lemma multipart_shakes f : shakes f (multipart_ensure_headers_sent cf rq f).
Proof.
  unfold multipart_ensure_headers_sent. destruct (shook_hands f) eqn:Sh; [by apply shakes_done|]. simpl negb. cbv iota.
  set (f2 := with_header_only _ _).
  assert (outputs f f2 []) as O2
    by (unfold f2, nchan_request_set_content_type_multipart_boundary_header, with_content_type; outputs_nothing).
  destruct (nchan_output_filter f2 _) as [rc g] eqn:E. apply outputs_filter' in E.
  eexists. apply outputs_shook. exact (outputs_trans _ _ _ _ _ O2 E).
Qed.

Lemma rawstream_shakes f : shakes f (rawstream_ensure_headers_sent cf rq f).
Proof.
  unfold rawstream_ensure_headers_sent. destruct (shook_hands f) eqn:Sh; [by apply shakes_done|]. simpl negb. cbv iota.
  exists []. eapply outputs_then; [apply outputs_shook; apply outputs_cleverly|eauto with nchan].
Qed.

Lemma core_shakes f g : shakes f g -> core f -> core g.
Proof. intros [s O] C. apply (core_outputs _ _ _ O). destruct C. by split. Qed.

Lemma shakes_fields f g : shakes f g -> type g = type f /\ shook_hands g = true /\ enqueued g = enqueued f /\ last_msgid g = last_msgid f.
Proof. by intros [s [h ho ka an es -> F E]]. Qed.

Lemma core_restart f : core f -> core (restart_timeout cf f).
Proof. unfold restart_timeout. destruct (timeout_ev f); [|done]. intros []. by split. Qed.

Lemma restart_fields f :
  type (restart_timeout cf f) = type f /\ last_msgid (restart_timeout cf f) = last_msgid f /\
  freed (restart_timeout cf f) = freed f.
Proof. unfold restart_timeout. by destruct (timeout_ev f). Qed.

(** A core that streams is alive. *)
Lemma core_alive f : core f -> type f <> LONGPOLL -> alive f.
Proof. by split. Qed.

Lemma es_message_ok fuel f msg :
  core f -> type f = EVENTSOURCE -> in_range (id msg) -> (exists t, one_channel (prev_id msg) t) ->
  readable files msg -> (length (buf_bytes files (buf msg)) < fuel)%nat ->
  exists g rc, es_respond_message cf rq files ptr_words fuel f msg None = Ret (g, rc) /\ alive g.
Proof.
  intros C Ty R P M Fu. unfold es_respond_message, live. rewrite (a_freed _ C). simpl c_assert. rewrite bind_Ret.
  destruct (move_ok f msg C R P) as (f1 & -> & C1 & L1 & Ef1). rewrite bind_Ret.
  assert (type f1 = EVENTSOURCE) as Ty1 by by rewrite Ef1. clear Ef1.
  destruct (restart_fields f1) as (T2 & L2 & _). pose proof (core_restart _ C1) as C2. set (f2 := restart_timeout cf f1) in *.
  pose proof (es_shakes f2) as Sk. pose proof (core_shakes _ _ Sk C2) as C3. destruct (shakes_fields _ _ Sk) as (T3 & _ & _ & L3).
  set (f3 := es_ensure_headers_sent cf rq f2) in *.
  assert (exists chain, es_message_chain cf files fuel f3 msg = Ret chain) as [chain ->].
  { unfold es_message_chain. fold (datalines files fuel msg). destruct (datalines_total files fuel msg M Fu) as (bufs & ->).
    rewrite bind_Ret, recyclable_text by apply C3. rewrite bind_Ret, prepend_ret, bind_Ret.
    destruct (eventsource_event_conf cf); [destruct (eventsource_event msg)|]; eauto. }
  rewrite bind_Ret. destruct (nchan_output_filter f3 chain) as [rc g] eqn:E. apply outputs_filter' in E.
  exists g, rc. split; [done|]. apply (alive_outputs _ _ _ E). apply core_alive; [done|]. by rewrite T3, T2, Ty1.
Qed.

Lemma fill_ret n bufs : n = length bufs -> fill_chain n bufs = Ret bufs.
Proof. intros ->. unfold fill_chain. by rewrite Nat.eqb_refl. Qed.

(** What is sent of a message. *)
Definition chunk_of (msg : nchan_msg_t) : bytes :=
  if ngx_buf_size (buf msg) =? 0 then []
  else concat [take 15 (hex (ngx_buf_size (buf msg)) ++ [ch_cr; ch_nl]); buf_bytes files (buf msg); [ch_cr; ch_nl]].

Lemma restart_stream f : stream (restart_timeout cf f) = stream f.
Proof. unfold restart_timeout. by destruct (timeout_ev f). Qed.

Lemma chunked_message_ok f msg :
  core f -> type f = HTTP_CHUNKED -> in_range (id msg) -> (exists t, one_channel (prev_id msg) t) ->
  exists g rc, chunked_respond_message cf rq files ptr_words f msg None = Ret (g, rc) /\ alive g /\
    type g = HTTP_CHUNKED /\ stream g = stream f ++ chunk_of msg /\ (shook_hands f = true -> shook_hands g = true).
Proof.
  intros C Ty R P. unfold chunked_respond_message, live. rewrite (a_freed _ C). simpl c_assert. rewrite bind_Ret.
  destruct (restart_fields f) as (T1 & _ & _). pose proof (core_restart _ C) as C1. rewrite <- (restart_stream f).
  set (f1 := restart_timeout cf f) in *.
  destruct (move_ok f1 msg C1 R P) as (f2 & -> & C2 & _ & Ef2). rewrite bind_Ret.
  assert (type f2 = HTTP_CHUNKED /\ stream f2 = stream f1 /\ shook_hands f2 = shook_hands f) as (Ty2 & S2 & H2).
  { rewrite Ef2. split_and!; [by rewrite <- Ty|done|]. unfold f1, restart_timeout. by destruct (timeout_ev f). }
  clear Ef2. rewrite <- S2. unfold chunk_of.
  destruct (_ =? 0).
  { eexists _, _. split; [reflexivity|]. rewrite app_nil_r, H2. split; [|done]. apply core_alive; [done|by rewrite Ty2]. }
  rewrite fill_ret, bind_Ret by done. pose proof (chunked_shakes f2) as Sk. pose proof (shakes_fields _ _ Sk) as Sk3.
  pose proof (proj1 Sk3) as T3. pose proof (stream_outputs _ _ _ (chunked_quiet f2)) as S3. rewrite app_nil_r in S3.
  destruct (nchan_output_filter (chunked_ensure_headers_sent cf rq f2) _) as [rc g] eqn:E. apply outputs_filter' in E.
  assert (core g) as Cg by (eapply core_outputs; [exact E|by eapply core_shakes]).
  assert (type g = HTTP_CHUNKED /\ shook_hands g = true) as [Tg Hg]
    by (destruct Sk3 as (_ & Hk & _); destruct E as [h ho ka an es -> _ _]; simpl; by rewrite T3).
  exists g, rc. split; [done|]. split; [by apply core_alive; [|rewrite Tg]|]. split; [done|].
  split; [|done]. by rewrite (stream_outputs _ _ _ E), S3.
Qed.

Lemma multipart_message_ok f msg :
  core f -> type f = HTTP_MULTIPART -> in_range (id msg) -> (exists t, one_channel (prev_id msg) t) ->
  0 <= ngx_buf_size (buf msg) -> (exists h, multipart_headers cf (restart_timeout cf f) msg = Ret h) ->
  exists g rc, multipart_respond_message cf rq files ptr_words f msg None = Ret (g, rc) /\ alive g.
Proof.
  intros C Ty R P Sz [h Eh]. unfold multipart_respond_message, live. rewrite (a_freed _ C). simpl c_assert. rewrite bind_Ret.
  rewrite Eh, bind_Ret. destruct (restart_fields f) as (T1 & _ & _). pose proof (core_restart _ C) as C1.
  set (f1 := restart_timeout cf f) in *.
  assert (length h = match content_type msg with Some _ => 2 | None => 1 end)%nat as Lh.
  { unfold multipart_headers in Eh. inv_outcome. by destruct (content_type msg). }
  rewrite fill_ret, bind_Ret.
  2:{ rewrite !length_app, Lh.
      destruct (content_type msg), (Z.eqb_spec (ngx_buf_size (buf msg)) 0), (Z.ltb_spec 0 (ngx_buf_size (buf msg))); simpl; lia. }
  destruct (move_ok f1 msg C1 R P) as (f2 & -> & C2 & _ & Ef2). rewrite bind_Ret.
  assert (type f2 = HTTP_MULTIPART) as Ty2 by (rewrite Ef2; by rewrite <- Ty). clear Ef2.
  pose proof (multipart_shakes f2) as Sk. destruct (shakes_fields _ _ Sk) as (T3 & _).
  destruct (nchan_output_filter (multipart_ensure_headers_sent cf rq f2) _) as [rc g] eqn:E. apply outputs_filter' in E.
  exists g, rc. split; [done|]. apply (alive_outputs _ _ _ E). apply core_alive; [by eapply core_shakes|]. by rewrite T3, Ty2.
Qed.

Lemma rawstream_message_ok f msg :
  core f -> type f = HTTP_RAW_STREAM -> 0 <= ngx_buf_size (buf msg) ->
  exists g rc, rawstream_respond_message cf rq files f msg = Ret (g, rc) /\ alive g.
Proof.
  intros C Ty Sz. unfold rawstream_respond_message, live. rewrite (a_freed _ C). simpl c_assert. rewrite bind_Ret.
  destruct (restart_fields f) as (T1 & _ & _). pose proof (core_restart _ C) as C1. set (f1 := restart_timeout cf f) in *.
  destruct (_ =? 0); [eexists _, _; split; [reflexivity|]; apply core_alive; [done|by rewrite T1, Ty]|].
  rewrite fill_ret, bind_Ret.
  2:{ rewrite length_app. destruct (Z.ltb_spec 0 (ngx_buf_size (buf msg)));
        destruct (subscriber_http_raw_stream_separator cf); simpl; lia. }
  pose proof (rawstream_shakes f1) as Sk. destruct (shakes_fields _ _ Sk) as (T3 & _).
  destruct (nchan_output_filter (rawstream_ensure_headers_sent cf rq f1) _) as [rc g] eqn:E. apply outputs_filter' in E.
  exists g, rc. split; [done|]. apply (alive_outputs _ _ _ E). apply core_alive; [by eapply core_shakes|]. by rewrite T3, T1, Ty.
Qed.

Lemma message_ok fuel f msg :
  alive f -> permitted fuel f (OpMessage msg) ->
  exists g rc, fn_respond_message cf rq files ptr_words fuel f msg true None = Ret (g, rc) /\ http_inv g.
Proof.
  intros A (_ & En & P & R & Sz & Ok). pose proof A as [C _]. unfold fn_respond_message. destruct (type f) eqn:Ty.
  - by apply longpoll_message_ok.
  - destruct Ok as [M Fu]. destruct (es_message_ok fuel f msg C Ty R P M Fu) as (g & rc & -> & G). eexists _, _. by split; [|left].
  - destruct (chunked_message_ok f msg C Ty R P) as (g & rc & -> & G & _). eexists _, _. by split; [|left].
  - destruct (multipart_message_ok f msg C Ty R P Sz Ok) as (g & rc & -> & G). eexists _, _. by split; [|left].
  - destruct (rawstream_message_ok f msg C Ty Sz) as (g & rc & -> & G). eexists _, _. by split; [|left].
Qed.

(** A status on a stream: one that closes ends it. *)
Definition closing_status (code : Z) : bool := (400 <=? code) && (code <? 599) || (code =? NGX_HTTP_NOT_MODIFIED).

(** What a status does to a stream. *)
Definition after_status (code : Z) (line : option bytes) (g : full_subscriber_t) : Prop :=
  gone g \/ alive g /\ (closing_status code = true -> ignored_status code line = true).

Lemma ignored_ok f code line :
  core f -> type f <> LONGPOLL -> ignored_status code line = true ->
  exists g rc, Ret (f, NGX_OK) = Ret (g, rc) /\ after_status code line g.
Proof. intros C Ty E. eexists _, _. split; [reflexivity|]. right. split; [by apply core_alive|done]. Qed.

Lemma unqueued_after f code line body :
  core f -> exists g rc, subscriber_respond_unqueued_status cf rq f code line body = Ret (g, rc) /\ after_status code line g.
Proof.
  intros C. destruct (unqueued_ok f code line body C) as (g & rc & -> & G). eexists _, _. split; [reflexivity|by left].
Qed.

Lemma maybe_dequeue_after f code line :
  core f -> type f <> LONGPOLL ->
  exists g rc, (k ← subscriber_maybe_dequeue_after_status_response cf f code; Ret (k, NGX_OK)) = Ret (g, rc) /\
    after_status code line g.
Proof.
  intros C Ty. destruct (maybe_dequeue_ok f code C) as (g & -> & _ & G). rewrite bind_Ret.
  eexists _, _. split; [reflexivity|]. destruct (_ || _) eqn:Ec; [by left|]. subst g. right.
  split; [by apply core_alive|]. unfold closing_status. intros E. exfalso.
  apply orb_false_iff in Ec as [Ec1 Ec2]. rewrite Ec2, orb_false_r in E.
  apply andb_true_iff in E as [?%Z.leb_le ?%Z.ltb_lt]. apply andb_false_iff in Ec1 as [?%Z.leb_gt|?%Z.ltb_ge]; lia.
Qed.

(** The output of a status, once the headers were sent. *)
Lemma output_status_ok f h bufs rc g :
  core f -> type f <> LONGPOLL -> shakes f h -> nchan_output_filter h bufs = (rc, g) -> core g /\ type g <> LONGPOLL.
Proof.
  intros C Ty Sk E. apply outputs_filter' in E. destruct (shakes_fields _ _ Sk) as (T & _).
  split; [by eapply core_outputs; [|eapply core_shakes]|].
  destruct E as [h' ho ka an es -> _ _]. simpl. by rewrite T.
Qed.

Lemma es_status_ok f code line body :
  core f -> type f = EVENTSOURCE ->
  exists g rc, es_respond_status cf rq f code line body = Ret (g, rc) /\ after_status code line g.
Proof.
  intros C Ty. assert (type f <> LONGPOLL) as Nl by by rewrite Ty. unfold es_respond_status, live.
  rewrite (a_freed _ C). simpl c_assert. rewrite bind_Ret.
  destruct (ignored_status code line) eqn:Ei; [by apply ignored_ok|].
  destruct (error_before_handshake f code); [by apply unqueued_after|].
  set (resp := take 256 _). clearbody resp.
  destruct (nchan_output_filter (es_ensure_headers_sent cf rq f) [resp]) as [rc h] eqn:E.
  destruct (output_status_ok _ _ _ _ _ C Nl (es_shakes f) E) as [Ch Th]. fold (closing_status code).
  destruct (closing_status code) eqn:Ec.
  - set (k := with_finalize_request _ _). assert (ending k) as Ek by (ending_of Ch).
    destruct (fn_dequeue_ok k Ek) as (g & -> & G & _). eexists _, _. split; [reflexivity|by left].
  - eexists _, _. split; [reflexivity|]. right. split; [by apply core_alive|by rewrite Ec].
Qed.

Lemma stream_status_ok f code line body :
  core f -> type f <> LONGPOLL ->
  exists g rc, fn_respond_status cf rq files f code line body = Ret (g, rc) /\ after_status code line g.
Proof.
  intros C Nl. unfold fn_respond_status. destruct (type f) eqn:Ty; [done|by apply es_status_ok|..].
  1: unfold chunked_respond_status. 2: unfold multipart_respond_status. 3: unfold rawstream_respond_status.
  all: unfold live; rewrite (a_freed _ C); simpl c_assert; rewrite bind_Ret.
  all: destruct (ignored_status code line) eqn:Ei; [by apply ignored_ok; rewrite ?Ty|].
  all: destruct (error_before_handshake f code); [by apply unqueued_after|].
  3: by apply maybe_dequeue_after; rewrite ?Ty.
  - destruct (nchan_output_filter (chunked_ensure_headers_sent cf rq f) _) as [rc h] eqn:E.
    destruct (output_status_ok _ _ _ _ _ C ltac:(by rewrite Ty) (chunked_shakes f) E). by apply maybe_dequeue_after.
  - destruct (nchan_output_filter (multipart_ensure_headers_sent cf rq f) _) as [rc h] eqn:E.
    destruct (output_status_ok _ _ _ _ _ C ltac:(by rewrite Ty) (multipart_shakes f) E). by apply maybe_dequeue_after.
Qed.

Lemma status_ok f code line body :
  alive f -> exists g rc, fn_respond_status cf rq files f code line body = Ret (g, rc) /\ http_inv g.
Proof.
  intros A. pose proof A as [C _]. destruct (decide (type f = LONGPOLL)) as [Ty|Ty].
  - unfold fn_respond_status. rewrite Ty. destruct (longpoll_status_ok f code line body C Ty) as (g & rc & -> & [G|[-> _]]).
    + eexists _, _. by split; [|right].
    + eexists _, _. by split; [|left].
  - destruct (stream_status_ok f code line body C Ty) as (g & rc & -> & [G|[G _]]); eexists _, _.
    + by split; [|right].
    + by split; [|left].
Qed.

(** A timeout, or a bad request, ends any of them. *)
Lemma closing_ok f code line :
  core f -> closing_status code = true -> ignored_status code (Some line) = false ->
  exists g rc, fn_respond_status cf rq files (with_dequeue_after_response f true) code (Some line) None = Ret (g, rc) /\ gone g.
Proof.
  intros C Cl Ig. set (f1 := with_dequeue_after_response f true). assert (core f1) as C1 by (destruct C; by split).
  destruct (decide (type f1 = LONGPOLL)) as [Ty|Ty].
  - unfold fn_respond_status. rewrite Ty.
    destruct (longpoll_status_ok f1 code (Some line) None C1 Ty) as (g & rc & -> & [G|[-> I]]); [by eexists _, _|congruence].
  - destruct (stream_status_ok f1 code (Some line) None C1 Ty) as (g & rc & -> & [G|[_ I]]); [by eexists _, _|].
    rewrite I in Ig by done. done.
Qed.

(** ** The other operations *)

Lemma longpoll_enqueue_ok f :
  core f -> enqueued f = false ->
  exists g, longpoll_enqueue cf f = Ret (g, NGX_OK) /\ (type f <> LONGPOLL -> core (with_enqueued g false)) /\
    (type f = LONGPOLL -> core g) /\ type g = type f /\ dequeue_after_response g = dequeue_after_response f /\
    out g = out f ++ [EnqueueCallback].
Proof.
  intros C En. unfold longpoll_enqueue, live. rewrite (a_freed _ C), En. simpl c_assert. rewrite !bind_Ret.
  set (f1 := if 0 <? _ then _ else _). eexists. split; [reflexivity|].
  assert (exists ho ti, f1 = with_timeout_ev (with_holding (with_enqueued (with_finalize_request f true) true) ho) ti) as (ho & ti & ->).
  { unfold f1, ensure_request_hold. clear f1. set (f1 := with_enqueued _ _).
    assert (exists ho, (if negb (holding f1) then with_holding f1 true else f1) = with_holding f1 ho) as [ho ->]
      by (destruct (negb _); [by exists true|exists (holding f1); by destruct f]).
    destruct (0 <? _); [by eexists _, _|]. exists ho, (timeout_ev f1). by destruct f. }
  destruct C. split_and!; [..|done|done|done]; intros Ty; split; try assumption; simpl; try (by rewrite finalizations_app, a_none0); try done.
  all: intros E; by destruct (a_longpoll0 E).
Qed.

Lemma enqueue_stream f ensure :
  (forall g, shakes g (ensure g)) -> core f -> type f <> LONGPOLL -> enqueued f = false ->
  forall g, longpoll_enqueue cf f = Ret (g, NGX_OK) ->
  forall h, core (with_enqueued h false) -> type h = type f -> alive (with_enqueued (ensure (with_finalize_request h false)) true).
Proof.
  intros Sk C Ty En g _ h Ch Th. pose proof (Sk (with_finalize_request h false)) as K.
  destruct (shakes_fields _ _ K) as (T & S & _). simpl in T.
  assert (core (with_finalize_request (with_enqueued h false) false)) as C2.
  { destruct Ch. split; try assumption; simpl. intros E. congruence. }
  destruct K as [s O].
  assert (outputs (with_shook_hands (with_finalize_request (with_enqueued h true) false) true)
            (with_enqueued (ensure (with_finalize_request h false)) true) s) as O2.
  { destruct O as [h' ho ka an es -> F E]. by exists h' ho ka an es. }
  apply core_alive; [|simpl; by rewrite T, Th]. apply (core_outputs _ _ _ O2).
  destruct C2. split; try assumption; done.
Qed.

Lemma enqueue_ok f :
  alive f -> enqueued f = false -> exists g rc, fn_enqueue cf rq f = Ret (g, rc) /\ alive g.
Proof.
  intros [C D] En. destruct (longpoll_enqueue_ok f C En) as (g & E & Cs & Cl & Tg & Dg & _).
  unfold fn_enqueue, es_enqueue, chunked_enqueue, multipart_enqueue, rawstream_enqueue.
  destruct (type f) eqn:Ty; rewrite E, ?bind_Ret; (eexists _, _; split; [reflexivity|]).
  - split; [by apply Cl|]. rewrite Tg, Dg. done.
  - rewrite Z.eqb_refl. apply (enqueue_stream f _ es_shakes C ltac:(by rewrite Ty) En g E).
    + specialize (Cs ltac:(done)). destruct (0 <? _); [|done]. destruct Cs. split; try assumption. done.
    + destruct (0 <? _); simpl; by rewrite Tg, Ty.
  - apply (enqueue_stream f _ chunked_shakes C ltac:(by rewrite Ty) En g E); [by apply Cs|by rewrite Tg, Ty].
  - apply (enqueue_stream f _ multipart_shakes C ltac:(by rewrite Ty) En g E); [by apply Cs|by rewrite Tg, Ty].
  - apply (enqueue_stream f _ rawstream_shakes C ltac:(by rewrite Ty) En g E); [by apply Cs|by rewrite Tg, Ty].
Qed.

Lemma release_ok f nodestroy :
  http_inv f -> freed f = false -> 0 < reserved f -> (dead f = true -> nodestroy = false) ->
  exists g rc, longpoll_release f nodestroy = Ret (g, rc) /\ http_inv g.
Proof.
  intros I Fr R N. unfold longpoll_release, live. rewrite Fr. simpl c_assert. rewrite bind_Ret, (proj2 (Z.ltb_lt _ _)) by done.
  simpl c_assert. rewrite bind_Ret. simpl awaiting_destruction. destruct I as [[C D]|G].
  - rewrite (a_await _ C), andb_false_r. simpl. eexists _, _. split; [reflexivity|]. left. split; [|done].
    destruct C. split; try assumption. simpl. lia.
  - rewrite (N (g_dead _ G)), (g_await _ G Fr). simpl. destruct (Z.eqb_spec (reserved f - 1) 0) as [E|E].
    + destruct (g_id _ G Fr) as [t O]. pose proof G as [].
      destruct (dequeue_destroy_ok (with_reserved f (reserved f - 1)) t) as (g & -> & Gg & _); try done; [simpl; lia|].
      eexists _, _. split; [reflexivity|by right].
    + eexists _, _. split; [reflexivity|]. right. destruct G. split; try assumption; simpl; [lia|].
      rewrite Fr. symmetry. by apply Z.eqb_neq.
Qed.

Lemma ping_ok f : alive f -> ping_ev f <> None -> exists g, ping_ev_handler cf f = Ret g /\ alive g.
Proof.
  intros [C D] P. unfold ping_ev_handler, live. rewrite (a_freed _ C). simpl c_assert. rewrite bind_Ret.
  rewrite fill_ret by (rewrite length_app, ping_count; simpl; lia). rewrite bind_Ret.
  set (bufs := ping_lines cf ++ _). destruct (nchan_output_filter f bufs) as [rc g] eqn:E. apply outputs_filter' in E.
  eexists. split; [reflexivity|]. pose proof (core_outputs _ _ _ E C) as Cg.
  assert (type g = type f) as Tg by (by destruct E as [h ho ka an es -> _ _]).
  apply core_alive.
  - destruct Cg. split; try assumption. simpl. intros N. destruct P. apply (a_ping _ C). by rewrite <- Tg.
  - simpl. rewrite Tg. intros Ty. apply P, (a_ping _ C). by rewrite Ty.
Qed.

Lemma step_ok fuel f op :
  http_inv f -> permitted fuel f op -> exists g, http_step fuel f op = Ret g /\ http_inv g.
Proof.
  intros I [Fr Pe]. assert (dead f = false -> alive f) as Al by (intros E; destruct I as [A|G]; [done|by rewrite (g_dead _ G) in E]).
  destruct op as [|msg|code line body| | | |nodestroy| |]; simpl.
  - destruct Pe as [De En]. destruct (enqueue_ok f (Al De) En) as (g & rc & -> & G). eexists. by split; [|left].
  - assert (alive f) as A by (destruct I as [A|G]; [done|by rewrite (g_enqueued _ G) in Pe; destruct Pe]).
    destruct (message_ok fuel f msg A (conj Fr Pe)) as (g & rc & -> & G). eexists. by split.
  - destruct (status_ok f code line body (Al Pe)) as (g & rc & -> & G). eexists. by split.
  - assert (alive f) as [C D] by (destruct I as [A|G]; [done|by rewrite (g_timeout _ G) in Pe]).
    unfold nchan_subscriber_timeout_ev_handler, live. rewrite Fr. simpl c_assert. rewrite bind_Ret.
    destruct (closing_ok f NGX_HTTP_REQUEST_TIMEOUT (bytes_of "408 Request Timeout") C) as (g & rc & -> & G); [done|done|].
    eexists. by split; [|right].
  - assert (alive f) as A by (destruct I as [A|G]; [done|by rewrite (g_ping _ G) in Pe]).
    destruct (ping_ok f A Pe) as (g & -> & G). eexists. by split; [|left].
  - unfold longpoll_reserve, live. rewrite Fr. simpl c_assert. rewrite bind_Ret. eexists. split; [reflexivity|]. left.
    destruct (Al Pe) as [C D]. unfold ensure_request_hold.
    destruct (negb (holding f)); (split; [|exact D]); destruct C; split; try assumption; simpl; lia.
  - destruct Pe as [R N]. destruct (release_ok f nodestroy I Fr R N) as (g & rc & -> & G). eexists. by split.
  - assert (alive f) as [C D] by (destruct I as [A|G]; [done|by rewrite (g_abort _ G) in Pe]).
    unfold sudden_abort_handler, live. simpl freed. rewrite Fr. simpl c_assert. rewrite bind_Ret.
    simpl dead. rewrite (a_dead _ C). simpl negb. cbv iota. set (f1 := with_dead _ _).
    assert (ending f1) as E by (ending_of C). destruct (fn_dequeue_ok f1 E) as (g & -> & G & _).
    eexists. by split; [|right].
  - unfold finalize_request_handler. destruct (ctx_sub f) eqn:Cx; simpl; [|by eexists].
    assert (alive f) as [C D] by (destruct I as [A|G]; [done|by rewrite (g_ctx _ G) in Cx]).
    unfold live. rewrite Fr. simpl c_assert. rewrite bind_Ret.
    destruct (closing_ok f NGX_HTTP_BAD_REQUEST (bytes_of "400 Bad Request") C) as (g & rc & -> & G); [done|done|].
    eexists. by split; [|right].
Qed.

Lemma run_ok fuel ops f :
  http_inv f -> permitted_run fuel f ops -> exists g, http_run fuel f ops = Ret g /\ http_inv g.
Proof.
  revert f. induction ops as [|op ops IH]; intros f I P; [by eexists|]. destruct P as [Pe P].
  destruct (step_ok fuel f op I Pe) as (g & E & Ig). simpl. rewrite E, bind_Ret. apply IH; [done|by apply P].
Qed.

(** ** From the beginning *)

Definition http_create (ty : subscriber_type) (interval : bool) (th : tag_heap) (i : nchan_msg_id_t) (bdry : bytes)
    (answers : list Z) : outcome full_subscriber_t :=
  match ty with
  | LONGPOLL => if interval then intervalpoll_subscriber_create cf th (Some i) None bdry answers
                else longpoll_subscriber_create cf th (Some i) None bdry answers
  | EVENTSOURCE => eventsource_subscriber_create cf th (Some i) None bdry answers
  | HTTP_CHUNKED => http_chunked_subscriber_create cf th (Some i) None bdry answers
  | HTTP_MULTIPART => http_multipart_subscriber_create cf th (Some i) None bdry answers
  | HTTP_RAW_STREAM => http_raw_stream_subscriber_create cf th (Some i) None bdry answers
  end.

Lemma create_alive ty interval th i bdry answers :
  in_range i -> exists f, http_create ty interval th i bdry answers = Ret f /\ alive f /\ type f = ty /\ out f = [] /\
    enqueued f = false /\ shook_hands f = false.
Proof.
  intros R. pose proof R as (t & (C & _) & _).
  assert (exists f, longpoll_subscriber_create cf th (Some i) None bdry answers = Ret f /\ alive f /\ type f = LONGPOLL /\
            out f = [] /\ enqueued f = false /\ shook_hands f = false /\ ping_ev f = None) as (f & E & [Cf D] & Ty & Ou & En & Sh & Pi).
  { unfold longpoll_subscriber_create, nchan_copy_new_msg_id. rewrite C. simpl. eexists. split; [reflexivity|].
    by repeat split; try exact R. }
  unfold http_create, intervalpoll_subscriber_create, eventsource_subscriber_create, http_chunked_subscriber_create,
    http_multipart_subscriber_create, http_raw_stream_subscriber_create.
  destruct ty; [destruct interval|..]; rewrite E, ?bind_Ret; (eexists; split; [reflexivity|]); (split; [split|]);
    try done; destruct Cf; split; try assumption; try done; simpl; congruence.
Qed.

(** C24. For each of the protocols, from the creation of a subscriber and for
    every [permitted] sequence of entering the channel, messages, statuses,
    timers, pings, reservations, aborts and reads, and whatever nginx answers: no
    handler fails, the request is finalized at most once, and a subscriber that
    is dead is out of its channel, has no timer set, no cleanup registered and no
    pointer to it in the context of the request, and its memory was given back
    exactly when nobody reserves it.  Permitted means: messages come while it is
    in its channel, statuses and reservations before it is dead, timers when
    set; messages and the starting id are of one channel; a message in a file
    for EventSource does not start with a newline ([es_file_newline_diverges]);
    the headers of a part for multipart fit their buffer
    ([multipart_header_overflow] has one that does not); and the subscriber is
    ended by a status, a response or an abort, never dequeued directly
    ([stream_dequeue_fails]). *)
Theorem http_subscriber_safe fuel ty interval th i bdry answers ops :
  in_range i ->
  (forall f, http_create ty interval th i bdry answers = Ret f -> permitted_run fuel f ops) ->
  exists f g, http_create ty interval th i bdry answers = Ret f /\ http_run fuel f ops = Ret g /\
    (finalizations (out g) <= 1)%nat /\ 0 <= reserved g /\
    if dead g then enqueued g = false /\ timeout_ev g = None /\ ping_ev g = None /\ abort_handler g = false /\
                   ctx_sub g = false /\ freed g = (reserved g =? 0)
    else freed g = false /\ abort_handler g = true /\ finalizations (out g) = 0%nat.
Proof.
  intros R P. destruct (create_alive ty interval th i bdry answers R) as (f & E & A & _).
  destruct (run_ok fuel ops f) as (g & Er & I); [by left|by apply P|]. exists f, g. split; [done|]. split; [done|].
  destruct I as [[[] _]|[]].
  - rewrite a_dead0, a_none0. split_and!; auto.
  - by rewrite g_dead0.
Qed.

(** A subscriber of a stream that is in its channel ([finalize_request] is off)
    must be ended by a status: dequeued directly, as the pools do when they are
    destroyed, it fails the assertion that it is dead. *)
Theorem stream_dequeue_fails f :
  alive f -> finalize_request f = false -> reserved f = 0 -> fn_dequeue cf f = Crash.
Proof.
  intros [C _] Fi Re. pose proof (a_id _ C) as (t & O & _).
  assert (forall h, core h -> finalize_request h = false -> reserved h = 0 -> longpoll_dequeue cf h = Crash) as L.
  { clear f C Fi Re O t. intros h C Fi Re. pose proof (a_id _ C) as (t & O & _).
    unfold longpoll_dequeue, live. rewrite (a_freed _ C), Fi. simpl c_assert. rewrite bind_Ret.
    destruct (dequeue_start_ok h) as ([K1 K2 K3 K4 K5 K6] & _ & D & _). set (f2 := if _ && _ then _ else _) in *. clearbody f2.
    set (f3 := with_ctx_sub _ _). change (destroy_after_dequeue f3) with (destroy_after_dequeue f2). rewrite K2, (a_destroy _ C).
    unfold longpoll_subscriber_destroy, live.
    change (freed f3) with (freed f2). change (reserved f3) with (reserved f2). change (dead f3) with (dead f2).
    rewrite K5, (a_freed _ C). simpl c_assert. rewrite bind_Ret, K1, Re. simpl Z.ltb. cbv iota.
    rewrite (one_channel_free _ _ t) by (change (one_channel (last_msgid f2) t); by rewrite K3).
    by rewrite bind_Ret, D, (a_dead _ C). }
  unfold fn_dequeue. case_decide as Ty; [|by apply L].
  unfold es_dequeue, live. rewrite (a_freed _ C). simpl c_assert. rewrite bind_Ret. apply L; [|done|done].
  destruct C. by split.
Qed.
End safety.

(** ** Examples *)

Definition multi_conf : sub_conf :=
  SubConf 0 false false true false [] false [] [] (EsPingConf [] [] [] 0) false None.
Definition the_id : nchan_msg_id_t := example_id 0 0.
Definition the_msg : nchan_msg_t := example_msg 5 0 the_id (bytes_of "hello") None.

Lemma http_subscriber_safe_witness :
  exists f g, http_create example_conf EVENTSOURCE false ∅ the_id [] [] = Ret f /\
    http_run example_conf example_request (fun _ => []) (fun _ => []) 100 f
      [OpEnqueue; OpReserve; OpMessage the_msg; OpStatus 204 None None; OpPing; OpStatus 410 None None; OpRelease false] = Ret g /\
    (finalizations (out g) <= 1)%nat /\ 0 <= reserved g /\
    if dead g then enqueued g = false /\ timeout_ev g = None /\ ping_ev g = None /\ abort_handler g = false /\
                   ctx_sub g = false /\ freed g = (reserved g =? 0)
    else freed g = false /\ abort_handler g = true /\ finalizations (out g) = 0%nat.
Proof.
  apply http_subscriber_safe; [exists 0; split; [split; [reflexivity|eauto]|by vm_compute]|].
  intros f E. vm_compute in E. injection E as <-.
  repeat match goal with
  | |- permitted_run _ _ _ _ _ _ (_ :: _) => split; [|intros g G; vm_compute in G; injection G as <-]
  | |- permitted_run _ _ _ _ _ _ [] => exact I
  end.
  all: split; [reflexivity|].
  all: try by vm_compute.
  split; [reflexivity|]. split; [exists 0; split; [reflexivity|eauto]|].
  split; [exists 0; split; [split; [reflexivity|eauto]|by vm_compute]|]. split; [by vm_compute|].
  split; [intros M; discriminate M|vm_compute; lia].
Defined.

(** A stream whose pool is destroyed aborts the worker. *)
Example stream_dequeue_aborts :
  (f ← http_create example_conf HTTP_CHUNKED false ∅ the_id [] [];
   '(f, _) ← fn_enqueue example_conf example_request f;
   '(f, _) ← fn_dequeue example_conf f; Ret (freed f)) = Crash.
Proof. vm_compute. reflexivity. Qed.

(** Long polling that collects messages keeps one reserved for ever when the
    client closes, or a timeout comes, before they are sent. *)
Definition reserved_for_ever (f : full_subscriber_t) : nat :=
  (length (filter (fun e => match e with MsgReserve _ => true | _ => false end = true) (out f)) -
   (if multimsg_cleanup f then length (multimsg f) else 0))%nat.

Example multimsg_leaks_on_abort :
  (f ← http_create multi_conf LONGPOLL false ∅ the_id [] [];
   f ← http_run multi_conf example_request (fun _ => []) (fun _ => []) 100 f [OpEnqueue; OpMessage the_msg; OpAbort];
   Ret (freed f, reserved_for_ever f)) = Ret (true, 1%nat).
Proof. vm_compute. reflexivity. Qed.

(** A message part whose content type has 24 characters does not fit the buffer
    of its headers. *)
Definition typed_msg (t : bytes) : nchan_msg_t :=
  Msg (example_id 5 0) the_id (Some t) None (Buf true false (bytes_of "hello") 0 None true) 0 0 None None NCHAN_MSG_HEAP.
Example multipart_header_overflow :
  (f ← http_create example_conf HTTP_MULTIPART false ∅ the_id (bytes_of "0123456789abcdef0123456789abcdef") [];
   f ← http_run example_conf example_request (fun _ => []) (fun _ => []) 100 f [OpEnqueue; OpMessage (typed_msg (bytes_of "text/plain;charset=utf-8"))];
   Ret (stream f)) = Crash.
Proof. vm_compute. reflexivity. Qed.
