(* ===== verification/HttpDecode.v ===== *)
(** * What clients of the other streams receive

    A decoder of the chunked transfer coding, after RFC 9112, gets the messages
    from the bytes that a chunked subscriber sends; the headers of the parts of
    a multipart stream, and the buffer they are written to. *)

From S2P Require Import Prelude Nginx MsgId Msg Scan HttpSub HttpStream HttpFrame EventSource HttpSafety.

(** ** Hexadecimal numbers *)

Definition unhex_digit (c : Z) : option Z :=
  if (ch_0 <=? c) && (c <=? ch_9) then Some (c - ch_0)
  else if (97 <=? c) && (c <=? 102) then Some (c - 87)
  else if (65 <=? c) && (c <=? 70) then Some (c - 55) else None.
Fixpoint unhex (s : bytes) (v : Z) : option Z :=
  match s with
  | [] => Some v
  | c :: s' => match unhex_digit c with Some d => unhex s' (16 * v + d) | None => None end
  end.

Lemma unhex_hex_digit d : 0 <= d < 16 -> unhex_digit (hex_digit d) = Some d /\ hex_digit d <> ch_cr.
Proof.
  intros R. unfold hex_digit, unhex_digit. destruct (Z.ltb_spec d 10).
  - rewrite (proj2 (Z.leb_le _ _)), (proj2 (Z.leb_le _ _)) by lia. simpl. split; [f_equal|]; lia.
  - rewrite (proj2 (Z.leb_le ch_0 _)), (proj2 (Z.leb_gt _ ch_9)), (proj2 (Z.leb_le 97 _)), (proj2 (Z.leb_le _ 102)) by lia.
    simpl. split; [f_equal|]; lia.
Qed.

Lemma hex_fuel_spec k f n acc :
  0 <= n < 16 ^ Z.of_nat k -> (k <= f)%nat -> (0 < k)%nat ->
  exists ds, hex_fuel f n acc = ds ++ acc /\ ds <> [] /\ (length ds <= k)%nat /\ ch_cr ∉ ds /\
    forall v, unhex ds v = Some (v * 16 ^ Z.of_nat (length ds) + n).
Proof.
  revert k n acc. induction f as [|f IH]; intros k n acc R F K; [lia|]. cbn [hex_fuel].
  pose proof (Z.mod_pos_bound n 16 ltac:(lia)) as M. destruct (unhex_hex_digit _ M) as [U N].
  pose proof (Z.div_mod n 16 ltac:(lia)) as D. destruct (Z.eqb_spec (n `div` 16) 0) as [E|E].
  - exists [hex_digit (n `mod` 16)]. split_and!; [done|done|simpl; lia|by apply not_elem_of_cons; split; [|apply not_elem_of_nil]|].
    intros v. cbn [unhex length]. rewrite U. f_equal. lia.
  - destruct k as [|k]; [lia|]. assert (0 <= n `div` 16) by (apply Z.div_pos; lia).
    assert (n `div` 16 < 16 ^ Z.of_nat k).
    { apply Z.div_lt_upper_bound; [lia|]. rewrite Nat2Z.inj_succ, Z.pow_succ_r in R; lia. }
    destruct k as [|k]; [simpl in *; lia|].
    destruct (IH (S k) (n `div` 16) (hex_digit (n `mod` 16) :: acc)) as (ds & -> & Ne & L & C & V); [lia|lia|lia|].
    exists (ds ++ [hex_digit (n `mod` 16)]). split_and!.
    + by rewrite <- app_assoc.
    + by destruct ds.
    + rewrite length_app. simpl. lia.
    + rewrite not_elem_of_app, not_elem_of_cons. split_and!; [done|done|apply not_elem_of_nil].
    + intros v. assert (forall s t w, unhex (s ++ t) w = match unhex s w with Some u => unhex t u | None => None end) as A.
      { induction s as [|c s IHs]; intros t w; simpl; [done|]. by destruct (unhex_digit c). }
      rewrite A, V. cbn [unhex]. rewrite U. f_equal. rewrite length_app. simpl length.
      rewrite Nat2Z.inj_add, Z.pow_add_r by lia. simpl. lia.
Qed.

(** A size below 2^52 has 13 digits at most. *)
Lemma hex_spec n :
  0 <= n < 2 ^ 52 -> hex n <> [] /\ (length (hex n) <= 13)%nat /\ ch_cr ∉ hex n /\ unhex (hex n) 0 = Some n.
Proof.
  intros R. unfold hex. set (f := S (Z.to_nat (Z.log2 n))).
  assert (n < 16 ^ Z.of_nat f) as B.
  { destruct (Z.eq_dec n 0) as [->|N]; [by vm_compute|].
    destruct (Z.log2_spec n) as [_ B]; [lia|]. eapply Z.lt_le_trans; [exact B|].
    change 16 with (2 ^ 4). rewrite <- Z.pow_mul_r by lia. apply Z.pow_le_mono_r; [lia|].
    unfold f. rewrite Nat2Z.inj_succ, Z2Nat.id by apply Z.log2_nonneg. pose proof (Z.log2_nonneg n). lia. }
  destruct (decide (f <= 13)%nat) as [L|L].
  - destruct (hex_fuel_spec f f n []) as (ds & -> & Ne & Ld & C & V); [lia|lia|unfold f; lia|].
    rewrite app_nil_r, V. by split_and!; [|lia| |].
  - destruct (hex_fuel_spec 13 f n []) as (ds & -> & Ne & Ld & C & V); [|lia|lia|].
    { split; [lia|]. eapply Z.lt_le_trans; [apply R|]. by vm_compute. }
    rewrite app_nil_r, V. by split_and!; [|lia| |].
Qed.

(** ** The chunked transfer coding *)

(** [chunk* last-chunk CRLF], with nothing left: the contents of the chunks. *)
Fixpoint dechunk (fuel : nat) (s : bytes) : option (list bytes) :=
  match fuel with
  | O => None
  | S fuel' =>
      match memchr s ch_cr with
      | None => None
      | Some k =>
          match unhex (take k s) 0 with
          | Some n =>
              if starts_with (drop k s) [ch_cr; ch_nl] && (0 <? k)%nat then
                let rest := drop (k + 2) s in
                if n =? 0 then (if decide (rest = [ch_cr; ch_nl]) then Some [] else None)
                else if (Z.to_nat n <=? length rest)%nat && starts_with (drop (Z.to_nat n) rest) [ch_cr; ch_nl]
                then (take (Z.to_nat n) rest ::.) <$> dechunk fuel' (drop (Z.to_nat n + 2) rest)
                else None
              else None
          | None => None
          end
      end
  end.

Lemma starts_app p s : starts_with (p ++ s) p = true.
Proof. apply starts_with_spec, prefix_app_r. done. Qed.

Lemma drop_past {A} (l k : list A) n : drop (length l + n) (l ++ k) = drop n k.
Proof. rewrite drop_app_ge by lia. f_equal. lia. Qed.

Lemma dechunk_chunk fuel h d s n :
  ch_cr ∉ h -> h <> [] -> unhex h 0 = Some n -> n = Z.of_nat (length d) -> d <> [] ->
  dechunk (S fuel) (h ++ [ch_cr; ch_nl] ++ d ++ [ch_cr; ch_nl] ++ s) = (d ::.) <$> dechunk fuel s.
Proof.
  intros C H U -> D. cbn [dechunk]. change ([ch_cr; ch_nl] ++ d ++ [ch_cr; ch_nl] ++ s) with (ch_cr :: ch_nl :: d ++ [ch_cr; ch_nl] ++ s).
  rewrite memchr_app, take_app_length, U by done.
  change (ch_cr :: ch_nl :: d ++ [ch_cr; ch_nl] ++ s) with ([ch_cr; ch_nl] ++ d ++ [ch_cr; ch_nl] ++ s).
  rewrite drop_app_length, starts_app, drop_past. change (drop 2 ([ch_cr; ch_nl] ++ d ++ [ch_cr; ch_nl] ++ s)) with (d ++ [ch_cr; ch_nl] ++ s).
  rewrite (proj2 (Nat.ltb_lt 0 _)) by (destruct h; [done|simpl; lia]). cbn [andb].
  rewrite (proj2 (Z.eqb_neq _ _)) by (destruct d; [done|simpl; lia]). cbv zeta. rewrite Nat2Z.id.
  rewrite (proj2 (Nat.leb_le _ _)) by (rewrite length_app; lia).
  by rewrite drop_app_length, take_app_length, starts_app, drop_past.
Qed.

Lemma dechunk_last fuel : dechunk (S fuel) [ch_0; ch_cr; ch_nl; ch_cr; ch_nl] = Some [].
Proof. done. Qed.

Section decode.
Context `{NgxString} `{NgxTime} (cf : sub_conf) (rq : request_in).
Context (files : bytes -> bytes) (ptr_words : positive -> list Z).

(** A message of one channel whose buffer holds what it says. *)
Definition chunkable (msg : nchan_msg_t) : Prop :=
  in_range (id msg) /\ (exists t, one_channel (prev_id msg) t) /\
  ngx_buf_size (buf msg) = Z.of_nat (length (buf_bytes files (buf msg))) /\ ngx_buf_size (buf msg) < 2 ^ 52.

Fixpoint chunked_run (f : full_subscriber_t) (msgs : list nchan_msg_t) : outcome full_subscriber_t :=
  match msgs with
  | [] => Ret f
  | msg :: msgs => '(f, _) ← chunked_respond_message cf rq files ptr_words f msg None; chunked_run f msgs
  end.

(** From creation to the status that ends the response. *)
Definition chunked_session (th : tag_heap) (i : nchan_msg_id_t) (bdry : bytes) (answers : list Z)
    (msgs : list nchan_msg_t) (code : Z) (line : bytes) : outcome full_subscriber_t :=
  f ← http_chunked_subscriber_create cf th (Some i) None bdry answers;
  '(f, _) ← chunked_enqueue cf rq f;
  f ← chunked_run f msgs;
  '(f, _) ← chunked_respond_status cf rq f code (Some line) None;
  Ret f.

Definition bodies (msgs : list nchan_msg_t) : list bytes :=
  filter (fun b => b <> []) ((fun m => buf_bytes files (buf m)) <$> msgs).

Lemma chunked_run_ok msgs f :
  alive cf f -> type f = HTTP_CHUNKED -> Forall chunkable msgs ->
  exists g, chunked_run f msgs = Ret g /\ alive cf g /\ type g = HTTP_CHUNKED /\
    stream g = stream f ++ concat (chunk_of files <$> msgs) /\ (shook_hands f = true -> shook_hands g = true).
Proof.
  revert f. induction msgs as [|msg msgs IH]; intros f A Ty F.
  { exists f. rewrite app_nil_r. by split_and!. }
  apply Forall_cons in F as [(R & P & _) F]. pose proof A as [C _].
  destruct (chunked_message_ok cf rq files ptr_words f msg C Ty R P) as (g & rc & E & Ag & Tg & Sg & Hg).
  cbn [chunked_run]. rewrite E, bind_Ret. destruct (IH g Ag Tg F) as (k & Ek & Ak & Tk & Sk & Hk).
  exists k. split_and!; auto. cbn [fmap list_fmap concat]. by rewrite Sk, Sg, <- app_assoc.
Qed.

Lemma dechunk_bodies msgs fuel :
  Forall chunkable msgs -> (length msgs < fuel)%nat ->
  dechunk fuel (concat (chunk_of files <$> msgs) ++ [ch_0; ch_cr; ch_nl; ch_cr; ch_nl]) = Some (bodies msgs).
Proof.
  revert fuel. induction msgs as [|msg msgs IH]; intros fuel F L; (destruct fuel as [|fuel]; [simpl in L; lia|]).
  { apply dechunk_last. }
  apply Forall_cons in F as [(_ & _ & Sz & B) F]. unfold bodies. cbn [fmap list_fmap concat]. rewrite <- app_assoc.
  unfold chunk_of at 1. rewrite filter_cons. destruct (Z.eqb_spec (ngx_buf_size (buf msg)) 0) as [E|E].
  - rewrite decide_False.
    + apply IH; [done|]. simpl in L. lia.
    + rewrite E in Sz. destruct (buf_bytes files (buf msg)); [by intros []|simpl in Sz; lia].
  - assert (buf_bytes files (buf msg) <> []) as N by (intros Eb; rewrite Eb in Sz; done).
    rewrite decide_True by done. destruct (hex_spec (ngx_buf_size (buf msg))) as (Nh & Lh & Ch & Uh); [lia|].
    rewrite take_ge by (rewrite length_app; simpl; lia). cbn [concat]. rewrite app_nil_r, <- !app_assoc.
    rewrite (dechunk_chunk fuel _ _ _ _ Ch Nh Uh Sz N).
    rewrite IH; [done|done|simpl in L; lia].
Qed.

Lemma chunked_enqueue_ok f :
  alive cf f -> type f = HTTP_CHUNKED -> enqueued f = false -> out f = [] ->
  exists g rc, chunked_enqueue cf rq f = Ret (g, rc) /\ alive cf g /\ type g = HTTP_CHUNKED /\ stream g = [] /\
    shook_hands g = true.
Proof.
  intros A Ty En Ou. destruct (enqueue_ok cf rq f A En) as (g & rc & E & Ag). unfold fn_enqueue in E. rewrite Ty in E.
  exists g, rc. split; [done|]. split; [done|]. pose proof A as [C _].
  destruct (longpoll_enqueue_ok cf f C En) as (h & Eh & _ & _ & Th & _ & Oh). unfold chunked_enqueue in E.
  rewrite Eh, bind_Ret in E. injection E as <- _. destruct (chunked_quiet cf rq (with_finalize_request h false)) as [h' ho ka an es Eg F S].
  rewrite Eg. simpl. split; [by rewrite Th|]. split; [|done]. unfold stream. simpl. rewrite Oh, Ou, fmap_app, concat_app. simpl.
  by rewrite S.
Qed.

Lemma chunked_close f code line :
  core f -> type f = HTTP_CHUNKED -> shook_hands f = true -> closing_status code = true ->
  exists g rc, chunked_respond_status cf rq f code (Some line) None = Ret (g, rc) /\ gone g /\
    stream g = stream f ++ [ch_0; ch_cr; ch_nl; ch_cr; ch_nl].
Proof.
  intros C Ty Sh Cl. unfold chunked_respond_status, live. rewrite (a_freed _ C). simpl c_assert. rewrite bind_Ret.
  assert (ignored_status code (Some line) = false) as Ig.
  { unfold ignored_status. rewrite andb_false_r, orb_false_r. apply Z.eqb_neq. intros ->. done. }
  rewrite Ig. unfold error_before_handshake. rewrite Sh. simpl negb. simpl andb. cbv iota.
  assert (chunked_ensure_headers_sent cf rq f = f) as -> by (unfold chunked_ensure_headers_sent; by rewrite Sh).
  destruct (nchan_output_filter f _) as [rc h] eqn:E. apply outputs_filter' in E.
  destruct (maybe_dequeue_ok cf h code (core_outputs _ _ _ E C)) as (g & -> & Sg & G). rewrite bind_Ret.
  eexists _, _. split; [reflexivity|]. rewrite Sg, (stream_outputs _ _ _ E). split; [|done].
  destruct (_ || _) eqn:Ec; [done|]. exfalso. unfold closing_status in Cl.
  apply orb_false_iff in Ec as [Ec1 Ec2]. rewrite Ec2, orb_false_r in Cl.
  apply andb_true_iff in Cl as [?%Z.leb_le ?%Z.ltb_lt]. apply andb_false_iff in Ec1 as [?%Z.leb_gt|?%Z.ltb_ge]; lia.
Qed.

(** C34. A client of the chunked coding gets exactly the messages that are not
    empty, in order and each as one chunk, and then the end of the response:
    for every sequence of messages of a channel, in memory or in a file, and
    whatever nginx answers. *)
Theorem chunked_client_gets_messages th i bdry answers msgs code line :
  in_range i -> Forall chunkable msgs -> closing_status code = true ->
  exists f, chunked_session th i bdry answers msgs code line = Ret f /\ dead f = true /\
    dechunk (S (length msgs)) (stream f) = Some (bodies msgs).
Proof.
  intros R F Cl. unfold chunked_session.
  destruct (create_alive cf HTTP_CHUNKED false th i bdry answers R) as (f & E & A & Ty & Ou & En & Sh).
  unfold http_create in E. rewrite E, bind_Ret.
  destruct (chunked_enqueue_ok f A Ty En Ou) as (f1 & rc1 & E1 & A1 & T1 & S1 & Sh1). rewrite E1, bind_Ret.
  destruct (chunked_run_ok msgs f1 A1 T1 F) as (f2 & E2 & [C2 _] & T2 & S2 & Sh2). rewrite E2, bind_Ret.
  destruct (chunked_close f2 code line C2 T2 (Sh2 Sh1) Cl) as (g & rc & E3 & G & S3). rewrite E3, bind_Ret.
  exists g. split; [done|]. split; [by apply G|]. rewrite S3, S2, S1. apply dechunk_bodies; [done|lia].
Qed.

(** ** The headers of a part *)

(** The text of an id in the headers: the tags, and the time before them when
    the whole id goes in the [Etag]. *)
Definition id_text (msg : nchan_msg_t) (tags : bytes) : bytes :=
  if msg_in_etag_only cf then dec (time (id msg)) ++ [ch_colon] ++ tags else tags.

Lemma id_headers_length f msg s :
  msgtag_to_strptr (th f) (id msg) = Ret s ->
  exists h, multipart_id_headers cf f msg = Ret h /\
    length h = (if msg_in_etag_only cf then Nat.min 98 (10 + length (id_text msg s)) else 56 + length (id_text msg s))%nat.
Proof.
  intros T. unfold multipart_id_headers, id_text, msgid_to_str. rewrite T.
  destruct (msg_in_etag_only cf); simpl negb; cbv iota; rewrite ?bind_Ret; (eexists; split; [reflexivity|]).
  - rewrite length_take, !length_app. unfold HEADERBUF_LEN. change (58 + 10 * 4)%nat with 98%nat.
    change (length (bytes_of "Etag: ")) with 6%nat. change (length [ch_cr; ch_nl]) with 2%nat. lia.
  - rewrite !length_app, ngx_http_time_length.
    change (length (bytes_of "Last-Modified: ")) with 15%nat. change (length (bytes_of "Etag: ")) with 6%nat.
    change (length [ch_cr; ch_nl]) with 2%nat. lia.
Qed.

(** C35. The headers of a part of a multipart stream are written to a buffer of 98
    bytes.  Whatever the id, of one channel or of several, they fit just when
    the text of the id and the content type, which the publisher chooses, have
    together at most 24 bytes, or 70 when the whole id goes in the [Etag]; and
    without a content type just when the text has at most 40, or 86.  Longer
    ones are written past the end. *)
Theorem multipart_headers_fit f msg s :
  msgtag_to_strptr (th f) (id msg) = Ret s ->
  (exists h, multipart_headers cf f msg = Ret h) <->
  match content_type msg with
  | Some ty => (length ty + length (id_text msg s) <= if msg_in_etag_only cf then 70 else 24)%nat
  | None => (length (id_text msg s) <= if msg_in_etag_only cf then 86 else 40)%nat
  end.
Proof.
  intros T. unfold multipart_headers. destruct (id_headers_length f msg s T) as (h & -> & L). rewrite bind_Ret.
  assert (forall (bufs : list bytes) (P : Prop), ((length (concat bufs) <= 98)%nat <-> P) ->
    (exists h, (c_assert (length (concat bufs) <=? HEADERBUF_LEN)%nat;; Ret bufs) = Ret h) <-> P) as K.
  { intros bufs P <-. unfold HEADERBUF_LEN. change (58 + 10 * 4)%nat with 98%nat.
    destruct (Nat.leb_spec (length (concat bufs)) 98); simpl; (split; [|eauto]); [done|by intros [? E]|lia]. }
  destruct (content_type msg) as [ty|]; apply K; cbn [concat]; rewrite app_nil_r, length_app, L.
  - rewrite length_take, !length_app. change (length (bytes_of "Content-Type: ")) with 14%nat.
    change (length [ch_cr; ch_nl; ch_cr; ch_nl]) with 4%nat. destruct (msg_in_etag_only cf); lia.
  - change (length [ch_cr; ch_nl]) with 2%nat. destruct (msg_in_etag_only cf); lia.
Qed.

(** A raw stream does not move to the id of the message it sent, as the other
    protocols do: its position, which the variables of the request and the
    warnings about missed messages show, stays where it was. *)
Theorem rawstream_keeps_position f msg g rc :
  rawstream_respond_message cf rq files f msg = Ret (g, rc) -> last_msgid g = last_msgid f.
Proof.
  unfold rawstream_respond_message. intros E. inv_outcome.
  assert (last_msgid (restart_timeout cf f) = last_msgid f) as R by apply restart_fields.
  set (f1 := restart_timeout cf f) in *. destruct (_ =? 0); [by inv_outcome|]. inv_outcome.
  destruct (shakes_fields _ _ (rawstream_shakes cf rq f1)) as (_ & _ & _ & L).
  match goal with H : (let '(_, _) := ?x in _) = _ |- _ => destruct x as [rc' h] eqn:Eh; injection H as <- <- end.
  apply outputs_filter' in Eh. destruct Eh as [h' ho ka an es -> _ _]. simpl. by rewrite L, R.
Qed.

(** A [TE] header that accepts chunked transfer with a quality of one digit, or
    that goes on with a comma, is taken for one that does not. *)
Theorem te_rejected search atofp rest :
  rest ∈ [bytes_of ";q=1"; bytes_of ", gzip"; bytes_of ",gzip;q=0.5"] ->
  search (bytes_of "chunked" ++ rest) (bytes_of "chunked") = Some 0%nat ->
  nchan_detect_chunked_subscriber_request search atofp true (Some (bytes_of "chunked" ++ rest)) = false.
Proof.
  intros I S. unfold nchan_detect_chunked_subscriber_request. simpl negb. cbv iota. rewrite S.
  repeat (apply elem_of_cons in I as [->|I]; [by vm_compute|]). by apply elem_of_nil in I.
Qed.
End decode.

(** ** Examples *)

Definition stream_msgs : list nchan_msg_t :=
  [example_msg 5 0 the_id (bytes_of "one") None; example_msg 5 1 (example_id 5 0) [] None;
   example_file_msg 6 0 (example_id 5 1) (bytes_of "/tmp/1") 3].

Lemma chunked_client_gets_messages_witness :
  exists f, chunked_session example_conf example_request (fun _ => bytes_of "two") (fun _ => []) ∅ the_id [] [] stream_msgs
      410 (bytes_of "410 Gone") = Ret f /\ dead f = true /\
    dechunk (S (length stream_msgs)) (stream f) = Some (bodies (fun _ => bytes_of "two") stream_msgs).
Proof.
  apply chunked_client_gets_messages; [exists 0; split; [split; [reflexivity|eauto]|by vm_compute]| |done].
  repeat constructor; try (by vm_compute); try (by (eexists; split; [split; [reflexivity|eauto]|]));
    by (eexists; split; [reflexivity|eauto]).
Defined.

Lemma multipart_headers_fit_witness :
  (exists h, multipart_headers example_conf (with_status (Fsub HTTP_MULTIPART false 0 true false true true ∅ the_id None None
      true false true false false false true false [] true false the_id the_id [] (HeadersOut 0 None None None None [])
      false true false [] []) 200 None) (typed_msg (bytes_of "text/plain; charset=ascii")) = Ret h) <->
  (25 + 1 <= 24)%nat.
Proof. apply (multipart_headers_fit example_conf _ (typed_msg (bytes_of "text/plain; charset=ascii")) (dec 0)). reflexivity. Defined.
