(* ===== verification/Worker.v ===== *)
(** * Workers, shared memory and alerts

    The state of all the workers as their inter-process handlers
    ([store/memory/ipc-handlers.c]) see it: channel heads and internal
    subscribers in each worker's own memory; channel ids, messages and counters
    in the memory they share; the alerts on their way.  A pointer is an
    address, of one worker's memory or of shared memory, and an object that is
    freed leaves its map, so that an access to it is noticed. *)

From S2P Require Import Prelude Nginx MsgId Msg ChannelId ChanHead.

(** ** Results *)

(** What is allocated in one place and given back in another: a shared string,
    the channel information of a reply, a reservation of a message, of a head,
    of a subscriber, a foreign worker's count in [gc.outside_refcount], and the
    shared counters as such, which are their owner's. *)
Inductive resource :=
  | RString (p : positive)
  | RInfo (p : positive)
  | RMessage (p : positive)
  | RShared (p : positive)
  | ROwn (p : positive)
  | RHead (w : Z) (p : positive)
  | RSub (w : Z) (p : positive).
Global Instance resource_eq_dec : EqDecision resource.
Proof. solve_decision. Defined.

(** [Aborted]: a failed [assert], a null pointer, or a stop elsewhere;
    [Freed r]: an access to the object behind [r] when there is none;
    [Wrapped]: a counter would leave its width. *)
Inductive result (A : Type) : Type :=
  | Ok (a : A)
  | Aborted
  | Freed (r : resource)
  | Wrapped.
Arguments Ok {A} _.
Arguments Aborted {A}.
Arguments Freed {A} _.
Arguments Wrapped {A}.

(** What the other components answer. *)
Definition of_outcome {A} (m : outcome A) : result A :=
  match m with Ret a => Ok a | Crash | NoFuel => Aborted end.

(** ** Data *)

Definition NGX_HTTP_NO_CONTENT : Z := 204.
Definition NGX_HTTP_NOT_MODIFIED : Z := 304.
Definition NGX_HTTP_FORBIDDEN : Z := 403.
Definition NGX_HTTP_NOT_FOUND : Z := 404.
Definition NGX_HTTP_REQUEST_TIMEOUT : Z := 408.
Definition NGX_HTTP_CONFLICT : Z := 409.
Definition NGX_HTTP_GONE : Z := 410.
Definition NGX_HTTP_CLOSE : Z := 444.
Definition NGX_HTTP_SERVICE_UNAVAILABLE : Z := 503.
Definition NGX_HTTP_INSUFFICIENT_STORAGE : Z := 507.
Definition NCHAN_HTTP_STATUS_409 : bytes := bytes_of "409 Conflict".
Definition NCHAN_HTTP_STATUS_410 : bytes := bytes_of "410 Gone".
Definition NCHAN_NOTICE_BUFFER_LOADED : Z := 0x356F.
Definition NCHAN_META_CHANNEL_MAX_MESSAGES : Z := 20.
Definition NCHAN_FIXED_MULTITAG_MAX : Z := 4.
Definition MEMSTORE_IPC_SUBSCRIBER_TIMEOUT : Z := 5.

(** What these parts look at of a location's configuration, which every worker
    has at the same address. *)
Record ipc_conf := IpcConf {
  store_conf : loc_conf;
  publishes : bool;                       (* pub.http || pub.websocket *)
  subscribe_only_existing_channel : bool;
  max_channel_subscribers : Z;
  enable_accounting : bool;               (* group.enable_accounting *)
  redis_idle_channel_cache_timeout : Z;
  subscriber_timeout : Z;
}.
Definition conf_redis (cf : ipc_conf) : bool := redis_enabled (store_conf cf).
Definition conf_distributed (cf : ipc_conf) : bool := conf_redis cf && redis_distributed (store_conf cf).
Definition conf_backup (cf : ipc_conf) : bool := conf_redis cf && negb (redis_distributed (store_conf cf)).

(** [nchan_channel_t]. *)
Record nchan_channel_t := Channel {
  channel_messages : Z;
  channel_subscribers : Z;
  channel_last_seen : Z;
  last_published_msg_id : nchan_msg_id_t;
}.

(** [memstore_channel_head_t], with the pointers that leave its worker. *)
Record chanhead := Chanhead {
  ch_id : bytes;
  ch_owner : Z;
  ch_slot : Z;
  ch_status : chanhead_pubsub_status_t;
  ch_sub_count : Z;
  ch_internal_sub_count : Z;
  ch_last_subscribed_local : Z;
  ch_reserved : Z;   (* uint16_t *)
  ch_multi : list (option positive);   (* multi[i].sub; empty when multi is NULL *)
  ch_multi_pending : Z;   (* uint8_t *)
  ch_shared : option positive;   (* in shared memory *)
  ch_max_messages : Z;
  ch_latest_msgid : nchan_msg_id_t;
  ch_foreign_owner_ipc_sub : option positive;   (* in the owner's memory *)
  ch_redis_idle_cache_ttl : Z;
  ch_stub : bool;
  ch_shutting_down : bool;
  ch_meta : bool;
  ch_msg_buffer_complete : bool;
  ch_cf : option ipc_conf;
  ch_groupnode : option bytes;
  ch_redis_sub : option bool;   (* redis_sub, and whether it is enqueued *)
  ch_gc_start_time : Z;
  ch_gc_queued_times : Z;
  ch_in_gc_queue : bool;
  ch_churn_start_time : Z;
  ch_in_churn_queue : bool;
  ch_spooler_running : bool;
}.

Definition ch_set_status (ch : chanhead) (st : chanhead_pubsub_status_t) : chanhead :=
  Chanhead (ch_id ch) (ch_owner ch) (ch_slot ch) st (ch_sub_count ch) (ch_internal_sub_count ch)
    (ch_last_subscribed_local ch) (ch_reserved ch) (ch_multi ch) (ch_multi_pending ch) (ch_shared ch)
    (ch_max_messages ch) (ch_latest_msgid ch) (ch_foreign_owner_ipc_sub ch) (ch_redis_idle_cache_ttl ch)
    (ch_stub ch) (ch_shutting_down ch) (ch_meta ch) (ch_msg_buffer_complete ch) (ch_cf ch)
    (ch_groupnode ch) (ch_redis_sub ch) (ch_gc_start_time ch) (ch_gc_queued_times ch)
    (ch_in_gc_queue ch) (ch_churn_start_time ch) (ch_in_churn_queue ch) (ch_spooler_running ch).
Definition ch_set_reserved (ch : chanhead) (n : Z) : chanhead :=
  Chanhead (ch_id ch) (ch_owner ch) (ch_slot ch) (ch_status ch) (ch_sub_count ch) (ch_internal_sub_count ch)
    (ch_last_subscribed_local ch) n (ch_multi ch) (ch_multi_pending ch) (ch_shared ch)
    (ch_max_messages ch) (ch_latest_msgid ch) (ch_foreign_owner_ipc_sub ch) (ch_redis_idle_cache_ttl ch)
    (ch_stub ch) (ch_shutting_down ch) (ch_meta ch) (ch_msg_buffer_complete ch) (ch_cf ch)
    (ch_groupnode ch) (ch_redis_sub ch) (ch_gc_start_time ch) (ch_gc_queued_times ch)
    (ch_in_gc_queue ch) (ch_churn_start_time ch) (ch_in_churn_queue ch) (ch_spooler_running ch).
Definition ch_set_shared (ch : chanhead) (sh : option positive) : chanhead :=
  Chanhead (ch_id ch) (ch_owner ch) (ch_slot ch) (ch_status ch) (ch_sub_count ch) (ch_internal_sub_count ch)
    (ch_last_subscribed_local ch) (ch_reserved ch) (ch_multi ch) (ch_multi_pending ch) sh
    (ch_max_messages ch) (ch_latest_msgid ch) (ch_foreign_owner_ipc_sub ch) (ch_redis_idle_cache_ttl ch)
    (ch_stub ch) (ch_shutting_down ch) (ch_meta ch) (ch_msg_buffer_complete ch) (ch_cf ch)
    (ch_groupnode ch) (ch_redis_sub ch) (ch_gc_start_time ch) (ch_gc_queued_times ch)
    (ch_in_gc_queue ch) (ch_churn_start_time ch) (ch_in_churn_queue ch) (ch_spooler_running ch).
Definition ch_set_foreign_sub (ch : chanhead) (sub : option positive) : chanhead :=
  Chanhead (ch_id ch) (ch_owner ch) (ch_slot ch) (ch_status ch) (ch_sub_count ch) (ch_internal_sub_count ch)
    (ch_last_subscribed_local ch) (ch_reserved ch) (ch_multi ch) (ch_multi_pending ch) (ch_shared ch)
    (ch_max_messages ch) (ch_latest_msgid ch) sub (ch_redis_idle_cache_ttl ch) (ch_stub ch)
    (ch_shutting_down ch) (ch_meta ch) (ch_msg_buffer_complete ch) (ch_cf ch) (ch_groupnode ch)
    (ch_redis_sub ch) (ch_gc_start_time ch) (ch_gc_queued_times ch) (ch_in_gc_queue ch)
    (ch_churn_start_time ch) (ch_in_churn_queue ch) (ch_spooler_running ch).
Definition ch_set_gc (ch : chanhead) (start : Z) (times : Z) (queued : bool) : chanhead :=
  Chanhead (ch_id ch) (ch_owner ch) (ch_slot ch) (ch_status ch) (ch_sub_count ch) (ch_internal_sub_count ch)
    (ch_last_subscribed_local ch) (ch_reserved ch) (ch_multi ch) (ch_multi_pending ch) (ch_shared ch)
    (ch_max_messages ch) (ch_latest_msgid ch) (ch_foreign_owner_ipc_sub ch) (ch_redis_idle_cache_ttl ch)
    (ch_stub ch) (ch_shutting_down ch) (ch_meta ch) (ch_msg_buffer_complete ch) (ch_cf ch)
    (ch_groupnode ch) (ch_redis_sub ch) start times queued (ch_churn_start_time ch)
    (ch_in_churn_queue ch) (ch_spooler_running ch).
Definition ch_set_churn (ch : chanhead) (start : Z) (queued : bool) : chanhead :=
  Chanhead (ch_id ch) (ch_owner ch) (ch_slot ch) (ch_status ch) (ch_sub_count ch) (ch_internal_sub_count ch)
    (ch_last_subscribed_local ch) (ch_reserved ch) (ch_multi ch) (ch_multi_pending ch) (ch_shared ch)
    (ch_max_messages ch) (ch_latest_msgid ch) (ch_foreign_owner_ipc_sub ch) (ch_redis_idle_cache_ttl ch)
    (ch_stub ch) (ch_shutting_down ch) (ch_meta ch) (ch_msg_buffer_complete ch) (ch_cf ch)
    (ch_groupnode ch) (ch_redis_sub ch) (ch_gc_start_time ch) (ch_gc_queued_times ch)
    (ch_in_gc_queue ch) start queued (ch_spooler_running ch).
Definition ch_set_running (ch : chanhead) (b : bool) : chanhead :=
  Chanhead (ch_id ch) (ch_owner ch) (ch_slot ch) (ch_status ch) (ch_sub_count ch) (ch_internal_sub_count ch)
    (ch_last_subscribed_local ch) (ch_reserved ch) (ch_multi ch) (ch_multi_pending ch) (ch_shared ch)
    (ch_max_messages ch) (ch_latest_msgid ch) (ch_foreign_owner_ipc_sub ch) (ch_redis_idle_cache_ttl ch)
    (ch_stub ch) (ch_shutting_down ch) (ch_meta ch) (ch_msg_buffer_complete ch) (ch_cf ch)
    (ch_groupnode ch) (ch_redis_sub ch) (ch_gc_start_time ch) (ch_gc_queued_times ch)
    (ch_in_gc_queue ch) (ch_churn_start_time ch) (ch_in_churn_queue ch) b.
Definition ch_set_multi (ch : chanhead) (m : list (option positive)) : chanhead :=
  Chanhead (ch_id ch) (ch_owner ch) (ch_slot ch) (ch_status ch) (ch_sub_count ch) (ch_internal_sub_count ch)
    (ch_last_subscribed_local ch) (ch_reserved ch) m (ch_multi_pending ch) (ch_shared ch)
    (ch_max_messages ch) (ch_latest_msgid ch) (ch_foreign_owner_ipc_sub ch) (ch_redis_idle_cache_ttl ch)
    (ch_stub ch) (ch_shutting_down ch) (ch_meta ch) (ch_msg_buffer_complete ch) (ch_cf ch)
    (ch_groupnode ch) (ch_redis_sub ch) (ch_gc_start_time ch) (ch_gc_queued_times ch)
    (ch_in_gc_queue ch) (ch_churn_start_time ch) (ch_in_churn_queue ch) (ch_spooler_running ch).
Definition ch_set_complete (ch : chanhead) (b : bool) : chanhead :=
  Chanhead (ch_id ch) (ch_owner ch) (ch_slot ch) (ch_status ch) (ch_sub_count ch) (ch_internal_sub_count ch)
    (ch_last_subscribed_local ch) (ch_reserved ch) (ch_multi ch) (ch_multi_pending ch) (ch_shared ch)
    (ch_max_messages ch) (ch_latest_msgid ch) (ch_foreign_owner_ipc_sub ch) (ch_redis_idle_cache_ttl ch)
    (ch_stub ch) (ch_shutting_down ch) (ch_meta ch) b (ch_cf ch) (ch_groupnode ch) (ch_redis_sub ch)
    (ch_gc_start_time ch) (ch_gc_queued_times ch) (ch_in_gc_queue ch) (ch_churn_start_time ch)
    (ch_in_churn_queue ch) (ch_spooler_running ch).
Definition ch_set_cf (ch : chanhead) (cf : option ipc_conf) : chanhead :=
  Chanhead (ch_id ch) (ch_owner ch) (ch_slot ch) (ch_status ch) (ch_sub_count ch) (ch_internal_sub_count ch)
    (ch_last_subscribed_local ch) (ch_reserved ch) (ch_multi ch) (ch_multi_pending ch) (ch_shared ch)
    (ch_max_messages ch) (ch_latest_msgid ch) (ch_foreign_owner_ipc_sub ch) (ch_redis_idle_cache_ttl ch)
    (ch_stub ch) (ch_shutting_down ch) (ch_meta ch) (ch_msg_buffer_complete ch) cf (ch_groupnode ch)
    (ch_redis_sub ch) (ch_gc_start_time ch) (ch_gc_queued_times ch) (ch_in_gc_queue ch)
    (ch_churn_start_time ch) (ch_in_churn_queue ch) (ch_spooler_running ch).
Definition ch_set_redis_sub (ch : chanhead) (s : option bool) : chanhead :=
  Chanhead (ch_id ch) (ch_owner ch) (ch_slot ch) (ch_status ch) (ch_sub_count ch) (ch_internal_sub_count ch)
    (ch_last_subscribed_local ch) (ch_reserved ch) (ch_multi ch) (ch_multi_pending ch) (ch_shared ch)
    (ch_max_messages ch) (ch_latest_msgid ch) (ch_foreign_owner_ipc_sub ch) (ch_redis_idle_cache_ttl ch)
    (ch_stub ch) (ch_shutting_down ch) (ch_meta ch) (ch_msg_buffer_complete ch) (ch_cf ch)
    (ch_groupnode ch) s (ch_gc_start_time ch) (ch_gc_queued_times ch) (ch_in_gc_queue ch)
    (ch_churn_start_time ch) (ch_in_churn_queue ch) (ch_spooler_running ch).
Definition ch_set_group (ch : chanhead) (g : option bytes) : chanhead :=
  Chanhead (ch_id ch) (ch_owner ch) (ch_slot ch) (ch_status ch) (ch_sub_count ch) (ch_internal_sub_count ch)
    (ch_last_subscribed_local ch) (ch_reserved ch) (ch_multi ch) (ch_multi_pending ch) (ch_shared ch)
    (ch_max_messages ch) (ch_latest_msgid ch) (ch_foreign_owner_ipc_sub ch) (ch_redis_idle_cache_ttl ch)
    (ch_stub ch) (ch_shutting_down ch) (ch_meta ch) (ch_msg_buffer_complete ch) (ch_cf ch) g
    (ch_redis_sub ch) (ch_gc_start_time ch) (ch_gc_queued_times ch) (ch_in_gc_queue ch)
    (ch_churn_start_time ch) (ch_in_churn_queue ch) (ch_spooler_running ch).
Definition ch_set_max_messages (ch : chanhead) (n : Z) : chanhead :=
  Chanhead (ch_id ch) (ch_owner ch) (ch_slot ch) (ch_status ch) (ch_sub_count ch) (ch_internal_sub_count ch)
    (ch_last_subscribed_local ch) (ch_reserved ch) (ch_multi ch) (ch_multi_pending ch) (ch_shared ch) n
    (ch_latest_msgid ch) (ch_foreign_owner_ipc_sub ch) (ch_redis_idle_cache_ttl ch) (ch_stub ch)
    (ch_shutting_down ch) (ch_meta ch) (ch_msg_buffer_complete ch) (ch_cf ch) (ch_groupnode ch)
    (ch_redis_sub ch) (ch_gc_start_time ch) (ch_gc_queued_times ch) (ch_in_gc_queue ch)
    (ch_churn_start_time ch) (ch_in_churn_queue ch) (ch_spooler_running ch).
Definition ch_set_latest_msgid (ch : chanhead) (i : nchan_msg_id_t) : chanhead :=
  Chanhead (ch_id ch) (ch_owner ch) (ch_slot ch) (ch_status ch) (ch_sub_count ch) (ch_internal_sub_count ch)
    (ch_last_subscribed_local ch) (ch_reserved ch) (ch_multi ch) (ch_multi_pending ch) (ch_shared ch)
    (ch_max_messages ch) i (ch_foreign_owner_ipc_sub ch) (ch_redis_idle_cache_ttl ch) (ch_stub ch)
    (ch_shutting_down ch) (ch_meta ch) (ch_msg_buffer_complete ch) (ch_cf ch) (ch_groupnode ch)
    (ch_redis_sub ch) (ch_gc_start_time ch) (ch_gc_queued_times ch) (ch_in_gc_queue ch)
    (ch_churn_start_time ch) (ch_in_churn_queue ch) (ch_spooler_running ch).
Definition ch_set_subs (ch : chanhead) (n : Z) (ni : Z) (seen : Z) : chanhead :=
  Chanhead (ch_id ch) (ch_owner ch) (ch_slot ch) (ch_status ch) n ni seen (ch_reserved ch) (ch_multi ch)
    (ch_multi_pending ch) (ch_shared ch) (ch_max_messages ch) (ch_latest_msgid ch)
    (ch_foreign_owner_ipc_sub ch) (ch_redis_idle_cache_ttl ch) (ch_stub ch) (ch_shutting_down ch)
    (ch_meta ch) (ch_msg_buffer_complete ch) (ch_cf ch) (ch_groupnode ch) (ch_redis_sub ch)
    (ch_gc_start_time ch) (ch_gc_queued_times ch) (ch_in_gc_queue ch) (ch_churn_start_time ch)
    (ch_in_churn_queue ch) (ch_spooler_running ch).

(** *** Callbacks and what the alerts carry *)

Record delete_data_t := DeleteData {
  dd_chid : positive;
  dd_sender : Z;
  dd_channel_info : option positive;
  dd_code : Z;
  dd_callback : positive;                 (* a callback of the requester *)
}.

Record publish_data_t := PublishData {
  pd_chid : positive;
  pd_msg : positive;
  pd_cf : ipc_conf;
  pd_callback : option positive;          (* None: empty_callback *)
}.

(** A [callback_pt] with its private data: one of the handlers here, or one of
    another component. *)
Inductive callback_pt :=
  | empty_callback
  | client_callback (n : positive)
  | delete_callback (d : delete_data_t)
  | publish_message_callback (sender : Z) (d : publish_data_t).

Record subscribe_data_t := SubscribeData {
  sd_chid : positive;
  sd_shared : option positive;
  sd_cf : ipc_conf;
  sd_origin : positive;
  sd_owner : option positive;
  sd_subscriber : option positive;
  sd_rc : Z;
}.

Record publish_code_data_t := PublishCodeData {
  pc_chid : positive;
  pc_code : Z;
  pc_data : option bytes;
}.

Record publish_response_data := PublishResponse {
  pr_status : Z;           (* uint16_t *)
  pr_subscribers : Z;      (* uint32_t *)
  pr_messages : Z;         (* uint16_t *)
  pr_last_seen : Z;
  pr_msg_time : Z;
  pr_msg_tag : Z;          (* uint16_t *)
  pr_callback : option positive;
}.

(** [union getmsg_u]. *)
Inductive getmsg_u :=
  | getmsg_req (msgid : nchan_msg_id_t)
  | getmsg_resp (getmsg_code : nchan_msg_status_t) (shm_msg : option positive).
Record getmessage_data_t := GetMessageData {
  gm_chid : positive;
  gm_privdata : positive;
  gm_d : getmsg_u;
}.

Record channel_info_data_t := ChannelInfoData {
  ci_chid : positive;
  ci_cf : ipc_conf;
  ci_channel_info : option positive;
  ci_last_msgid : nchan_msg_id_t;
  ci_callback : positive;
}.

Record channel_authcheck_data_t := AuthCheckData {
  ac_chid : positive;
  ac_auth_ok : bool;
  ac_channel_must_exist : bool;
  ac_cf : ipc_conf;
  ac_max_subscribers : Z;
  ac_callback : positive;
}.

Inductive keepalive_reply_action_t := KA_REPLY_NORENEW | KA_REPLY_RENEW | KA_REPLY_UNHOOK_NORENEW.
Record sub_keepalive_data_t := KeepaliveData {
  ka_chid : positive;
  ka_ipc_sub : positive;
  ka_originator : positive;
  ka_reply_action : keepalive_reply_action_t;
}.

(** [LIST_IPC_COMMANDS], with their data. *)
Inductive alert :=
  | cmd_subscribe (d : subscribe_data_t)
  | cmd_subscribe_reply (d : subscribe_data_t)
  | cmd_subscribe_chanhead_release (d : subscribe_data_t)
  | cmd_subscribe_chanhead_nevermind_release (d : subscribe_data_t)
  | cmd_unsubscribed (shm_chid : positive)
  | cmd_publish_message (d : publish_data_t)
  | cmd_publish_message_reply (d : publish_response_data)
  | cmd_publish_status (d : publish_code_data_t)
  | cmd_publish_notice (d : publish_code_data_t)
  | cmd_get_message (d : getmessage_data_t)
  | cmd_get_message_reply (d : getmessage_data_t)
  | cmd_delete (d : delete_data_t)
  | cmd_delete_reply (d : delete_data_t)
  | cmd_get_channel_info (d : channel_info_data_t)
  | cmd_get_channel_info_reply (d : channel_info_data_t)
  | cmd_channel_auth_check (d : channel_authcheck_data_t)
  | cmd_channel_auth_check_reply (d : channel_authcheck_data_t)
  | cmd_subscriber_keepalive (d : sub_keepalive_data_t)
  | cmd_subscriber_keepalive_reply (d : sub_keepalive_data_t)
  | cmd_get_group (shm_id : positive)
  | cmd_group (shared_group : positive)
  | cmd_group_delete (shared_group : positive)
  | cmd_flood_test (n : Z)
  | cmd_benchmark (code : Z).             (* benchmark_* and redis_stats_* *)

Record packet := Packet { p_src : Z; p_dst : Z; p_alert : alert }.

(** *** Internal subscribers *)

(** [sub_data_t] of subscribers/memstore_ipc.c; [chid] points into a head. *)
Record ipc_sub_data := IpcSubData {
  is_chid : positive;
  is_originator : Z;
  is_unhooked : bool;
  is_foreign_chanhead : positive;
}.

(** [sub_data_t] of subscribers/getmsg_proxy.c: the callback and its data. *)
Inductive getmsg_callback :=
  | ipc_getmsg_proxy (sender : Z) (d : getmessage_data_t)
  | getmsg_proxy_completebuffer (cookie : positive).

Inductive subscriber_privdata :=
  | memstore_ipc (d : ipc_sub_data)
  | getmsg_proxy (cb : option getmsg_callback).

(** [internal_subscriber_t]. *)
Record internal_subscriber_t := InternalSub {
  isub_reserved : Z;                      (* ngx_uint_t *)
  isub_enqueued : bool;
  isub_already_dequeued : bool;
  isub_awaiting_destruction : bool;
  isub_dequeue_after_response : bool;
  isub_destroy_after_dequeue : bool;
  isub_dequeue_callback : bool;           (* set by the pool it is in *)
  isub_timeout_set : bool;                (* timeout_ev of the subscriber itself *)
  isub_cf : option ipc_conf;
  isub_last_msgid : nchan_msg_id_t;
  isub_privdata : subscriber_privdata;
}.

(** *** Requests that wait for Redis *)

Inductive deferred_call :=
  | redis_auth_check (sender : Z) (d : channel_authcheck_data_t)
  | redis_find_backup (sender : Z) (d : channel_info_data_t).

(** ** The state *)

Record sys (S : Type) := Sys {
  heads : gmap (Z * positive) chanhead;
  hash : gmap (Z * bytes) positive;                   (* mpt->hash *)
  subs : gmap (Z * positive) internal_subscriber_t;
  keepalive_timers : gset (Z * positive);             (* timeout_ev of memstore_ipc.c, by subscriber *)
  deferred : gmap (Z * positive) deferred_call;
  strings : gmap positive bytes;
  infos : gmap positive nchan_channel_t;
  messages : gmap positive nchan_msg_t;
  shareds : gmap positive store_channel_head_shm_t;
  wire : list packet;
  env : S;                                            (* everything else, of every worker *)
}.
Arguments Sys {S} _ _ _ _ _ _ _ _ _ _ _.
Arguments heads {S} _.
Arguments hash {S} _.
Arguments subs {S} _.
Arguments keepalive_timers {S} _.
Arguments deferred {S} _.
Arguments strings {S} _.
Arguments infos {S} _.
Arguments messages {S} _.
Arguments shareds {S} _.
Arguments wire {S} _.
Arguments env {S} _.

Section updates.
Context {S : Type}.
Definition set_heads (s : sys S) (x : gmap (Z * positive) chanhead) : sys S :=
  Sys x (hash s) (subs s) (keepalive_timers s) (deferred s) (strings s) (infos s) (messages s) (shareds s) (wire s) (env s).
Definition set_hash (s : sys S) (x : gmap (Z * bytes) positive) : sys S :=
  Sys (heads s) x (subs s) (keepalive_timers s) (deferred s) (strings s) (infos s) (messages s) (shareds s) (wire s) (env s).
Definition set_subs (s : sys S) (x : gmap (Z * positive) internal_subscriber_t) : sys S :=
  Sys (heads s) (hash s) x (keepalive_timers s) (deferred s) (strings s) (infos s) (messages s) (shareds s) (wire s) (env s).
Definition set_keepalive_timers (s : sys S) (x : gset (Z * positive)) : sys S :=
  Sys (heads s) (hash s) (subs s) x (deferred s) (strings s) (infos s) (messages s) (shareds s) (wire s) (env s).
Definition set_deferred (s : sys S) (x : gmap (Z * positive) deferred_call) : sys S :=
  Sys (heads s) (hash s) (subs s) (keepalive_timers s) x (strings s) (infos s) (messages s) (shareds s) (wire s) (env s).
Definition set_strings (s : sys S) (x : gmap positive bytes) : sys S :=
  Sys (heads s) (hash s) (subs s) (keepalive_timers s) (deferred s) x (infos s) (messages s) (shareds s) (wire s) (env s).
Definition set_infos (s : sys S) (x : gmap positive nchan_channel_t) : sys S :=
  Sys (heads s) (hash s) (subs s) (keepalive_timers s) (deferred s) (strings s) x (messages s) (shareds s) (wire s) (env s).
Definition set_messages (s : sys S) (x : gmap positive nchan_msg_t) : sys S :=
  Sys (heads s) (hash s) (subs s) (keepalive_timers s) (deferred s) (strings s) (infos s) x (shareds s) (wire s) (env s).
Definition set_shareds (s : sys S) (x : gmap positive store_channel_head_shm_t) : sys S :=
  Sys (heads s) (hash s) (subs s) (keepalive_timers s) (deferred s) (strings s) (infos s) (messages s) x (wire s) (env s).
Definition set_wire (s : sys S) (x : list packet) : sys S :=
  Sys (heads s) (hash s) (subs s) (keepalive_timers s) (deferred s) (strings s) (infos s) (messages s) (shareds s) x (env s).
Definition set_env (s : sys S) (x : S) : sys S :=
  Sys (heads s) (hash s) (subs s) (keepalive_timers s) (deferred s) (strings s) (infos s) (messages s) (shareds s) (wire s) x.
End updates.
Definition set_isub_reserved (b : internal_subscriber_t) (x : Z) : internal_subscriber_t :=
  InternalSub x (isub_enqueued b) (isub_already_dequeued b) (isub_awaiting_destruction b) (isub_dequeue_after_response
    b) (isub_destroy_after_dequeue b) (isub_dequeue_callback b) (isub_timeout_set b) (isub_cf b)
    (isub_last_msgid b) (isub_privdata b).
Definition set_isub_enqueued (b : internal_subscriber_t) (x : bool) : internal_subscriber_t :=
  InternalSub (isub_reserved b) x (isub_already_dequeued b) (isub_awaiting_destruction b) (isub_dequeue_after_response
    b) (isub_destroy_after_dequeue b) (isub_dequeue_callback b) (isub_timeout_set b) (isub_cf b)
    (isub_last_msgid b) (isub_privdata b).
Definition set_isub_already_dequeued (b : internal_subscriber_t) (x : bool) : internal_subscriber_t :=
  InternalSub (isub_reserved b) (isub_enqueued b) x (isub_awaiting_destruction b) (isub_dequeue_after_response b)
    (isub_destroy_after_dequeue b) (isub_dequeue_callback b) (isub_timeout_set b) (isub_cf b)
    (isub_last_msgid b) (isub_privdata b).
Definition set_isub_awaiting_destruction (b : internal_subscriber_t) (x : bool) : internal_subscriber_t :=
  InternalSub (isub_reserved b) (isub_enqueued b) (isub_already_dequeued b) x (isub_dequeue_after_response b)
    (isub_destroy_after_dequeue b) (isub_dequeue_callback b) (isub_timeout_set b) (isub_cf b)
    (isub_last_msgid b) (isub_privdata b).
Definition set_isub_dequeue_after_response (b : internal_subscriber_t) (x : bool) : internal_subscriber_t :=
  InternalSub (isub_reserved b) (isub_enqueued b) (isub_already_dequeued b) (isub_awaiting_destruction b) x
    (isub_destroy_after_dequeue b) (isub_dequeue_callback b) (isub_timeout_set b) (isub_cf b)
    (isub_last_msgid b) (isub_privdata b).
Definition set_isub_dequeue_callback (b : internal_subscriber_t) (x : bool) : internal_subscriber_t :=
  InternalSub (isub_reserved b) (isub_enqueued b) (isub_already_dequeued b) (isub_awaiting_destruction b)
    (isub_dequeue_after_response b) (isub_destroy_after_dequeue b) x (isub_timeout_set b) (isub_cf b)
    (isub_last_msgid b) (isub_privdata b).
Definition set_isub_timeout_set (b : internal_subscriber_t) (x : bool) : internal_subscriber_t :=
  InternalSub (isub_reserved b) (isub_enqueued b) (isub_already_dequeued b) (isub_awaiting_destruction b)
    (isub_dequeue_after_response b) (isub_destroy_after_dequeue b) (isub_dequeue_callback b) x (isub_cf b)
    (isub_last_msgid b) (isub_privdata b).
Definition set_isub_last_msgid (b : internal_subscriber_t) (x : nchan_msg_id_t) : internal_subscriber_t :=
  InternalSub (isub_reserved b) (isub_enqueued b) (isub_already_dequeued b) (isub_awaiting_destruction b)
    (isub_dequeue_after_response b) (isub_destroy_after_dequeue b) (isub_dequeue_callback b)
    (isub_timeout_set b) (isub_cf b) x (isub_privdata b).
Definition set_isub_privdata (b : internal_subscriber_t) (x : subscriber_privdata) : internal_subscriber_t :=
  InternalSub (isub_reserved b) (isub_enqueued b) (isub_already_dequeued b) (isub_awaiting_destruction b)
    (isub_dequeue_after_response b) (isub_destroy_after_dequeue b) (isub_dequeue_callback b)
    (isub_timeout_set b) (isub_cf b) (isub_last_msgid b) x.

(** ** The monad of the handlers *)

Definition M (S A : Type) : Type := sys S -> result (sys S * A).
Global Instance M_ret S : MRet (M S) := fun A a s => Ok (s, a).
Global Instance M_bind S : MBind (M S) := fun A B f m s =>
  match m s with
  | Ok (s', a) => f a s'
  | Aborted => Aborted
  | Freed r => Freed r
  | Wrapped => Wrapped
  end.

Section primitives.
Context {S : Type}.
Notation M := (M S).

Definition gets {A} (f : sys S -> A) : M A := fun s => Ok (s, f s).
Definition modify (f : sys S -> sys S) : M unit := fun s => Ok (f s, ()).
Definition stop {A} (r : result A) : M A := fun s =>
  match r with Ok a => Ok (s, a) | Aborted => Aborted | Freed r => Freed r | Wrapped => Wrapped end.
Definition assert (b : bool) : M unit := if b then mret () else stop Aborted.

(** The object at an address that the code goes through: [r] names it. *)
Definition access {A} (r : resource) (f : sys S -> option A) : M A := fun s =>
  match f s with Some a => Ok (s, a) | None => Freed r end.
(** A pointer that is not checked against NULL. *)
Definition not_null {A} (p : option A) : M A := match p with Some a => mret a | None => stop Aborted end.

(** A counter of [bits] bits after adding [n]. *)
Definition counted (bits z n : Z) : M Z :=
  if bool_decide (in_u bits (z + n)) then mret (z + n) else stop Wrapped.

(** *** Memory of a worker *)

Definition head_at (w : Z) (h : positive) : M chanhead := access (RHead w h) (fun s => heads s !! (w, h)).
Definition put_head (w : Z) (h : positive) (ch : chanhead) : M unit :=
  modify (fun s => set_heads s (<[(w, h) := ch]> (heads s))).
Definition update_head (w : Z) (h : positive) (f : chanhead -> chanhead) : M unit :=
  ch ← head_at w h; put_head w h (f ch).

Definition sub_at (w : Z) (p : positive) : M internal_subscriber_t := access (RSub w p) (fun s => subs s !! (w, p)).
Definition put_sub (w : Z) (p : positive) (b : internal_subscriber_t) : M unit :=
  modify (fun s => set_subs s (<[(w, p) := b]> (subs s))).
Definition update_sub (w : Z) (p : positive) (f : internal_subscriber_t -> internal_subscriber_t) : M unit :=
  b ← sub_at w p; put_sub w p (f b).

(** An address of worker [w] that a map does not use. *)
Definition fresh_in {A} (m : gmap (Z * positive) A) : positive := fresh (set_map snd (dom m) : gset positive).

(** *** Shared memory *)

Definition str_at (p : positive) : M bytes := access (RString p) (fun s => strings s !! p).
(** [room]: whether there is shared memory left. *)
Definition str_shm_copy (room : bool) (str : bytes) : M (option positive) := fun s =>
  if room then
    let p := fresh (dom (strings s)) in
    Ok (set_strings s (<[p := str]> (strings s)), Some p)
  else Ok (s, None).
Definition str_shm_free (p : positive) : M unit :=
  _ ← str_at p; modify (fun s => set_strings s (delete p (strings s))).

Definition shared_at (p : positive) : M store_channel_head_shm_t := access (RShared p) (fun s => shareds s !! p).
Definition put_shared (p : positive) (x : store_channel_head_shm_t) : M unit :=
  modify (fun s => set_shareds s (<[p := x]> (shareds s))).
(** [ngx_atomic_fetch_add(&shared->gc.outside_refcount, n)]. *)
Definition outside_refcount_add (p : positive) (n : Z) : M unit :=
  x ← shared_at p;
  r ← counted 64 (outside_refcount x) n;
  put_shared p (Shared (shared_sub_count x) (shared_internal_sub_count x) (total_message_count x)
                  (stored_message_count x) (last_seen x) r).
Definition shared_subs_add (p : positive) (n ni : Z) : M unit :=
  x ← shared_at p;
  put_shared p (Shared (u64 (shared_sub_count x + n)) (u64 (shared_internal_sub_count x + ni)) (total_message_count x)
                  (stored_message_count x) (last_seen x) (outside_refcount x)).

(** A message of shared memory has no parent, so that Msg's routines take one step. *)
Definition message_at (p : positive) : M nchan_msg_t := access (RMessage p) (fun s => messages s !! p).
Definition msg_reserve_shm (p : positive) : M unit :=
  _ ← message_at p;
  ms ← gets messages;
  '(ms', rc) ← stop (of_outcome (msg_reserve 1 ms p));
  modify (fun s => set_messages s ms');;
  assert (rc =? NGX_OK).
Definition msg_release_shm (p : positive) : M unit :=
  _ ← message_at p;
  ms ← gets messages;
  '(_, ms', _) ← stop (of_outcome (msg_release 1 ∅ ms p));
  modify (fun s => set_messages s ms').

(** *** Alerts *)

(** [ipc_cmd], [ipc_alert]: the pipes keep the order (Ipc.v); all workers run. *)
Definition ipc_cmd (src dst : Z) (a : alert) : M Z :=
  modify (fun s => set_wire s (wire s ++ [Packet src dst a]));; mret NGX_OK.
Definition ipc_broadcast_cmd (src : Z) (workers : list Z) (a : alert) : M Z :=
  modify (fun s => set_wire s (wire s ++ ((fun dst => Packet src dst a) <$> filter (fun dst => dst <> src) workers)));;
  mret NGX_OK.

(** *** Reservations of heads *)

Definition memstore_chanhead_reserve (w : Z) (h : positive) : M unit :=
  ch ← head_at w h; n ← counted 16 (ch_reserved ch) 1; put_head w h (ch_set_reserved ch n).
Definition memstore_chanhead_release (w : Z) (h : positive) : M unit :=
  ch ← head_at w h; n ← counted 16 (ch_reserved ch) (-1); put_head w h (ch_set_reserved ch n).
End primitives.

(** A message that is published: the requester's own, or one of shared memory
    ([msg_in_shm]). *)
Inductive published_msg := own_msg (m : nchan_msg_t) | shm_msg (p : positive).
Definition published {S} (msg : published_msg) : M S nchan_msg_t :=
  match msg with own_msg m => mret m | shm_msg p => message_at p end.

(** ** Interface: the rest of a worker

    The pools of subscribers ([head->spooler.fn], Spool.v), the queues of heads
    (Reaper.v, ChanLife.v), the message buffers (ChanHead.v), groups (Groups.v),
    Redis, and whoever has asked for something: for a worker and the address of
    one of its heads. *)

Class StoreEnv (S : Type) := {
  ngx_time : S -> Z -> Z;
  is_exiting : S -> Z -> bool;                  (* ngx_exiting || ngx_quit *)
  shm_room : S -> bool;
  heap_room : S -> Z -> bool;
  owner_slot : bytes -> Z;                      (* memstore_str_owner *)
  worker_slots : list Z;
  start_spooler : Z -> positive -> M S unit;
  spooler_add : Z -> positive -> positive -> M S Z;
  spooler_respond_message : Z -> positive -> positive -> M S unit;
  spooler_broadcast_status : Z -> positive -> Z -> option bytes -> M S unit;
  spooler_broadcast_notice : Z -> positive -> Z -> option bytes -> M S unit;
  spooler_status_change : Z -> positive -> M S unit;
  spooler_dequeued : Z -> positive -> M S unit; (* the dequeue callback of a subscriber *)
  chanhead_reaper_add : Z -> positive -> M S unit;
  chanhead_reaper_withdraw : Z -> positive -> M S unit;
  chanhead_churner_reaper_add : Z -> positive -> M S unit;
  chanhead_churner_reaper_withdraw : Z -> positive -> M S unit;
  multi_subscriber_create : Z -> positive -> nat -> M S (option positive);
  find_next_message : Z -> positive -> nchan_msg_id_t -> M S (option positive * nchan_msg_status_t);
  delete_messages : Z -> positive -> M S unit;  (* the loop over ch->msg_first *)
  buffer_message : Z -> positive -> published_msg -> ipc_conf -> M S (Z + positive);
  create_shm_msg_of : Z -> published_msg -> M S (option positive);
  group_enter : Z -> positive -> bytes -> M S bool;
  group_owner_find : Z -> bytes -> M S (positive * bool);
  group_receive : Z -> positive -> M S unit;
  group_receive_delete : Z -> positive -> M S unit;
  redis_subscribe : Z -> positive -> M S bool;  (* enqueued at once *)
  redis_publish : Z -> positive -> published_msg -> M S unit;
  redis_command : Z -> bytes -> option positive -> M S unit;  (* publish, find_channel, delete_channel *)
  client_call : Z -> positive -> Z -> option nchan_channel_t -> M S unit;
  getmsg_call : Z -> positive -> nchan_msg_status_t -> option positive -> M S unit;
  other_alert : Z -> Z -> Z -> M S unit;
}.
