(* ===== verification/IpcSend.v ===== *)
(** * Requests to other workers ([store/memory/ipc-handlers.c])

    [memstore_ipc_send_*]: each puts what the other worker needs into shared
    memory and sends an alert.  [memstore_slot] is the sender. *)

From S2P Require Import Prelude Nginx MsgId Msg ChanHead Worker.

Section send.
Context {S : Type} `{StoreEnv S}.
Notation M := (M S).
Context (memstore_slot : Z).

(** A copy of the channel's id in shared memory, or NULL. *)
Definition copy_chid (chid : bytes) : M (option positive) :=
  room ← gets (fun s => shm_room (env s));
  str_shm_copy room chid.

Definition memstore_ipc_send_subscribe (dst : Z) (chid : bytes) (origin_chanhead : positive) (cf : ipc_conf) : M Z :=
  shm_chid ← copy_chid chid;
  match shm_chid with
  | None => mret NGX_DECLINED
  | Some p =>
      id ← str_at p;
      assert (owner_slot id =? dst);;
      ipc_cmd memstore_slot dst (cmd_subscribe (SubscribeData p None cf origin_chanhead None None 0))
  end.

Definition memstore_ipc_send_unsubscribed (dst : Z) (chid : bytes) : M Z :=
  shm_chid ← copy_chid chid;
  match shm_chid with
  | None => mret NGX_DECLINED
  | Some p => ipc_cmd memstore_slot dst (cmd_unsubscribed p)
  end.

Definition memstore_ipc_send_publish_status (dst : Z) (chid : bytes) (status_code : Z) (status_line : option bytes) : M Z :=
  shm_chid ← copy_chid chid;
  match shm_chid with
  | None => mret NGX_DECLINED
  | Some p => ipc_cmd memstore_slot dst (cmd_publish_status (PublishCodeData p status_code status_line))
  end.

Definition memstore_ipc_send_publish_notice (dst : Z) (chid : bytes) (notice_code : Z) (notice_data : option bytes) : M Z :=
  shm_chid ← copy_chid chid;
  match shm_chid with
  | None => mret NGX_DECLINED
  | Some p => ipc_cmd memstore_slot dst (cmd_publish_notice (PublishCodeData p notice_code notice_data))
  end.

Definition memstore_ipc_send_publish_message (dst : Z) (chid : bytes) (shm_msg : positive) (cf : ipc_conf)
    (callback : option positive) : M Z :=
  m ← message_at shm_msg;
  assert (bool_decide (storage m = NCHAN_MSG_SHARED));;
  shm_chid ← copy_chid chid;
  match shm_chid with
  | None => mret NGX_DECLINED
  | Some p =>
      msg_reserve_shm shm_msg;;
      ipc_cmd memstore_slot dst (cmd_publish_message (PublishData p shm_msg cf callback))
  end.

Definition memstore_ipc_send_get_message (dst : Z) (chid : bytes) (msgid : nchan_msg_id_t) (privdata : positive) : M Z :=
  shm_chid ← copy_chid chid;
  match shm_chid with
  | None => mret NGX_DECLINED
  | Some p =>
      id ← str_at p;
      assert (1 <=? Z.of_nat (length id));;
      ipc_cmd memstore_slot dst (cmd_get_message (GetMessageData p privdata (getmsg_req msgid)))
  end.

Definition memstore_ipc_send_delete (dst : Z) (chid : bytes) (callback : positive) : M Z :=
  shm_chid ← copy_chid chid;
  match shm_chid with
  | None => mret NGX_DECLINED
  | Some p => ipc_cmd memstore_slot dst (cmd_delete (DeleteData p 0 None 0 callback))
  end.

Definition memstore_ipc_send_get_channel_info (dst : Z) (chid : bytes) (cf : ipc_conf) (callback : positive) : M Z :=
  shm_chid ← copy_chid chid;
  match shm_chid with
  | None => mret NGX_DECLINED
  | Some p => ipc_cmd memstore_slot dst (cmd_get_channel_info (ChannelInfoData p cf None NCHAN_ZERO_MSGID callback))
  end.

Definition memstore_ipc_send_channel_existence_check (dst : Z) (chid : bytes) (cf : ipc_conf) (callback : positive) : M Z :=
  shm_chid ← copy_chid chid;
  match shm_chid with
  | None => mret NGX_DECLINED
  | Some p =>
      ipc_cmd memstore_slot dst (cmd_channel_auth_check
        (AuthCheckData p false (subscribe_only_existing_channel cf) cf (max_channel_subscribers cf) callback))
  end.

(** [sub->fn->reserve] of an internal subscriber. *)
Definition internal_reserve (sub : positive) : M unit :=
  b ← sub_at memstore_slot sub;
  n ← counted 64 (isub_reserved b) 1;
  put_sub memstore_slot sub (set_isub_reserved b n).

Definition memstore_ipc_send_memstore_subscriber_keepalive (dst : Z) (chid : bytes) (sub ch : positive) : M Z :=
  shm_chid ← copy_chid chid;
  match shm_chid with
  | None => mret NGX_DECLINED
  | Some p =>
      internal_reserve sub;;
      ipc_cmd memstore_slot dst (cmd_subscriber_keepalive (KeepaliveData p sub ch KA_REPLY_NORENEW));;
      mret NGX_OK
  end.

Definition memstore_ipc_send_get_group (dst : Z) (group_id : bytes) : M Z :=
  shm_id ← copy_chid group_id;
  match shm_id with
  | None => mret NGX_DECLINED
  | Some p => ipc_cmd memstore_slot dst (cmd_get_group p);; mret NGX_OK
  end.

Definition memstore_ipc_broadcast_group (shared_group : positive) : M Z :=
  ipc_broadcast_cmd memstore_slot worker_slots (cmd_group shared_group);; mret NGX_OK.

Definition memstore_ipc_broadcast_group_delete (shared_group : positive) : M Z :=
  ipc_broadcast_cmd memstore_slot worker_slots (cmd_group_delete shared_group);; mret NGX_OK.

Definition memstore_ipc_send_flood_test (dst seq : Z) : M Z :=
  ipc_cmd memstore_slot dst (cmd_flood_test seq);; mret NGX_OK.
End send.
