(* ===== verification/InternalSub.v ===== *)
(** * Internal subscribers

    [subscribers/internal.c], and the two kinds that answer another worker:
    [subscribers/memstore_ipc.c], which relays what a channel publishes to the
    worker that subscribed to it, and [subscribers/getmsg_proxy.c], which waits
    for one message on behalf of a request. *)

From S2P Require Import Prelude Nginx MsgId Msg ChanHead Worker IpcSend.

Section internal_sub.
Context {S : Type} `{StoreEnv S}.
Notation M := (M S).
Context (memstore_slot : Z).

Notation get_sub := (sub_at memstore_slot).
Notation update_sub := (update_sub memstore_slot).

(** ** Creation *)

(** [internal_subscriber_create_init]: a failed allocation is not noticed
    before it is gone through. *)
Definition internal_subscriber_create_init (cf : option ipc_conf) (pd : subscriber_privdata) : M positive :=
  room ← gets (fun s => heap_room (env s) memstore_slot);
  assert room;;
  p ← gets (fun s => fresh_in (subs s));
  put_sub memstore_slot p (InternalSub 0 false false false false true false false cf NCHAN_ZERO_MSGID pd);;
  mret p.

(** ** [memstore_ipc.c] *)

Definition set_keepalive_timer (sub : positive) (on : bool) : M unit :=
  modify (fun s => set_keepalive_timers s
    (if on then {[(memstore_slot, sub)]} ∪ keepalive_timers s else keepalive_timers s ∖ {[(memstore_slot, sub)]})).

Definition memstore_ipc_subscriber_create (originator_slot : Z) (chid : positive) (cf : ipc_conf)
    (foreign_chanhead : positive) : M positive :=
  assert (negb (originator_slot =? memstore_slot));;
  p ← internal_subscriber_create_init (Some cf) (memstore_ipc (IpcSubData chid originator_slot false foreign_chanhead));
  update_sub p (fun b => set_isub_last_msgid b NCHAN_NEWEST_MSGID);;
  set_keepalive_timer p true;;
  mret p.

Definition ipc_data_of (b : internal_subscriber_t) : M ipc_sub_data :=
  match isub_privdata b with memstore_ipc d => mret d | getmsg_proxy _ => stop Aborted end.

Definition memstore_ipc_subscriber_unhook (sub : positive) : M unit :=
  b ← get_sub sub;
  d ← ipc_data_of b;
  put_sub memstore_slot sub (set_isub_privdata b
    (memstore_ipc (IpcSubData (is_chid d) (is_originator d) true (is_foreign_chanhead d)))).

Definition memstore_ipc_subscriber_keepalive_renew (sub : positive) : M unit :=
  b ← get_sub sub;
  _ ← ipc_data_of b;
  set_keepalive_timer sub true.

(** Unless it is unhooked, the originator is told; [d->chid] is read in the head. *)
Definition tell_originator (d : ipc_sub_data) (send : Z -> bytes -> M Z) : M unit :=
  if is_unhooked d then mret ()
  else ch ← head_at memstore_slot (is_chid d); _ ← send (is_originator d) (ch_id ch); mret ().

Definition await_destruction (sub : positive) : M unit :=
  update_sub sub (fun b => if 0 <? isub_reserved b then set_isub_awaiting_destruction b true else b).

Definition ipc_sub_dequeue (sub : positive) (d : ipc_sub_data) : M unit :=
  set_keepalive_timer sub false;;
  tell_originator d (memstore_ipc_send_unsubscribed memstore_slot);;
  await_destruction sub.

Definition ipc_sub_respond_message (sub : positive) (d : ipc_sub_data) (msg : positive) : M unit :=
  b ← get_sub sub;
  cf ← not_null (isub_cf b);
  tell_originator d (fun dst chid => memstore_ipc_send_publish_message memstore_slot dst chid msg cf None);;
  m ← message_at msg;
  assert (tagcount (id m) =? 1);;
  update_sub sub (fun b => set_isub_last_msgid b (id m)).

Definition ipc_sub_respond_status (d : ipc_sub_data) (status : Z) (status_line : option bytes) : M unit :=
  if ((status =? NGX_HTTP_NO_CONTENT) || (status =? NGX_HTTP_NOT_MODIFIED)) && negb (bool_decide (is_Some status_line))
  then mret ()
  else
    let line :=
      match status_line with
      | Some _ => status_line
      | None => if status =? NGX_HTTP_GONE then Some NCHAN_HTTP_STATUS_410
                else if status =? NGX_HTTP_CONFLICT then Some NCHAN_HTTP_STATUS_409 else None
      end in
    tell_originator d (fun dst chid => memstore_ipc_send_publish_status memstore_slot dst chid status line).

Definition ipc_sub_respond_notice (d : ipc_sub_data) (notice : Z) (ptr : option bytes) : M unit :=
  tell_originator d (fun dst chid => memstore_ipc_send_publish_notice memstore_slot dst chid notice ptr).

(** [timeout_ev_handler]: the timer is no longer set when it fires. *)
Definition keepalive_timeout (sub : positive) : M unit :=
  set_keepalive_timer sub false;;
  b ← get_sub sub;
  d ← ipc_data_of b;
  tell_originator d (fun dst chid =>
    memstore_ipc_send_memstore_subscriber_keepalive memstore_slot dst chid sub (is_foreign_chanhead d)).

(** ** [getmsg_proxy.c] *)

Definition getmsg_proxy_subscriber_create (msgid : nchan_msg_id_t) (cb : getmsg_callback) : M positive :=
  p ← internal_subscriber_create_init None (getmsg_proxy (Some cb));
  update_sub p (fun b => set_isub_dequeue_after_response (set_isub_last_msgid b msgid) true);;
  mret p.

(** [ipc_getmsg_proxy_callback] of ipc-handlers.c *)
Definition ipc_getmsg_proxy_callback (code : nchan_msg_status_t) (msg : option positive) (sender : Z)
    (d : getmessage_data_t) : M unit :=
  match msg with Some p => msg_reserve_shm p | None => mret () end;;
  _ ← ipc_cmd memstore_slot sender (cmd_get_message_reply (GetMessageData (gm_chid d) (gm_privdata d) (getmsg_resp code msg)));
  mret ().

(** [d->cb = NULL], in the subscriber's own data. *)
Definition clear_callback (sub : positive) : M unit :=
  b ← get_sub sub;
  match isub_privdata b with
  | getmsg_proxy _ => put_sub memstore_slot sub (set_isub_privdata b (getmsg_proxy None))
  | memstore_ipc _ => stop Aborted
  end.

(** [d->cb(code, msg, d->pd); d->cb = NULL]. *)
Definition getmsg_proxy_answer (sub : positive) (cb : option getmsg_callback) (code : nchan_msg_status_t)
    (msg : option positive) : M unit :=
  f ← not_null cb;
  match f with
  | ipc_getmsg_proxy sender d => ipc_getmsg_proxy_callback code msg sender d
  | getmsg_proxy_completebuffer cookie => getmsg_call memstore_slot cookie code msg
  end;;
  clear_callback sub.

Definition getmsg_sub_respond_status (sub : positive) (cb : option getmsg_callback) (status : Z)
    (ptr : option bytes) : M unit :=
  assert (bool_decide (is_Some cb));;
  match ptr with
  | Some _ => mret ()
  | None =>
      if status =? NGX_HTTP_GONE then getmsg_proxy_answer sub cb MSG_EXPIRED None
      else if bool_decide (status ∈ [NGX_HTTP_CONFLICT; NGX_HTTP_CLOSE; NGX_HTTP_FORBIDDEN; NGX_HTTP_NOT_FOUND;
                                     NGX_HTTP_REQUEST_TIMEOUT])
      then getmsg_proxy_answer sub cb MSG_NOTFOUND None
      else if status =? NGX_HTTP_NO_CONTENT then getmsg_proxy_answer sub cb MSG_EXPECTED None
      else assert (negb (status =? NGX_HTTP_NOT_MODIFIED))
  end.

(** ** [internal.c] *)

Definition free_sub (sub : positive) : M unit := modify (fun s => set_subs s (delete (memstore_slot, sub) (subs s))).

Definition internal_subscriber_destroy (sub : positive) : M unit :=
  b ← get_sub sub;
  if 0 <? isub_reserved b then put_sub memstore_slot sub (set_isub_awaiting_destruction b true)
  else free_sub sub.

(** [true]: it is gone. *)
Definition internal_release (sub : positive) (nodestroy : bool) : M bool :=
  b ← get_sub sub;
  n ← counted 64 (isub_reserved b) (-1);
  put_sub memstore_slot sub (set_isub_reserved b n);;
  if negb nodestroy && isub_awaiting_destruction b && (n =? 0) then free_sub sub;; mret true else mret false.

Definition has_timeout (b : internal_subscriber_t) : bool :=
  match isub_cf b with Some cf => 0 <? subscriber_timeout cf | None => false end.
Definition reset_timeout (sub : positive) : M unit :=
  update_sub sub (fun b => if has_timeout b then set_isub_timeout_set b true else b).

Definition internal_enqueue (sub : positive) : M unit :=
  reset_timeout sub;;
  update_sub sub (fun b => set_isub_enqueued b true).

Definition internal_dequeue (sub : positive) : M unit :=
  b ← get_sub sub;
  if isub_already_dequeued b then mret ()
  else
    put_sub memstore_slot sub (set_isub_already_dequeued b true);;
    match isub_privdata b with
    | memstore_ipc d => ipc_sub_dequeue sub d
    | getmsg_proxy _ => await_destruction sub
    end;;
    (if isub_dequeue_callback b then spooler_dequeued memstore_slot sub else mret ());;
    update_sub sub (fun b => set_isub_enqueued (set_isub_timeout_set b (negb (has_timeout b) && isub_timeout_set b)) false);;
    if isub_destroy_after_dequeue b then internal_subscriber_destroy sub else mret ().

Definition dequeue_maybe (sub : positive) : M unit :=
  b ← get_sub sub;
  if isub_dequeue_after_response b then internal_dequeue sub else mret ().

(** [update_subscriber_last_msg_id]: an id of one tag is copied (MsgId.v). *)
Definition internal_respond_message (sub msg : positive) : M unit :=
  m ← message_at msg;
  update_sub sub (fun b => set_isub_last_msgid b (id m));;
  b ← get_sub sub;
  match isub_privdata b with
  | memstore_ipc d => ipc_sub_respond_message sub d msg
  | getmsg_proxy cb => getmsg_proxy_answer sub cb MSG_FOUND (Some msg)
  end;;
  reset_timeout sub;;
  dequeue_maybe sub.

Definition internal_respond_status (sub : positive) (status_code : Z) (status_line : option bytes) : M unit :=
  (if status_code =? NGX_HTTP_GONE then update_sub sub (fun b => set_isub_dequeue_after_response b true)
   else _ ← get_sub sub; mret ());;
  b ← get_sub sub;
  match isub_privdata b with
  | memstore_ipc d => ipc_sub_respond_status d status_code status_line
  | getmsg_proxy cb => getmsg_sub_respond_status sub cb status_code status_line
  end;;
  reset_timeout sub;;
  dequeue_maybe sub.

Definition internal_notify (sub : positive) (code : Z) (data : option bytes) : M unit :=
  b ← get_sub sub;
  match isub_privdata b with
  | memstore_ipc d => ipc_sub_respond_notice d code data
  | getmsg_proxy _ => mret ()
  end.

(** A pool that takes it sets its callback ([internal_set_dequeue_callback]). *)
Definition internal_set_dequeue_callback (sub : positive) : M unit :=
  update_sub sub (fun b => set_isub_dequeue_callback b true).
End internal_sub.
