(* ===== verification/ChanReady.v ===== *)
(** * Finding and making channel heads ([store/memory/memstore.c])

    [nchan_memstore_find_chanhead] and its kin: a head is looked up or created,
    and made ready.  A head of a channel that another worker owns is ready once
    the owner has subscribed it; asking for that is part of finding it.  Then
    the operations on a head that other workers ask for: publishing, deleting,
    reading. *)

From S2P Require Import Prelude Nginx MsgId Msg ChannelId ChanHead Worker IpcSend InternalSub.

Section chanhead.
Context {S : Type} `{StoreEnv S}.
Notation M := (M S).
Context (memstore_slot : Z).

Notation head_at := (head_at memstore_slot).
Notation put_head := (put_head memstore_slot).
Notation update_head := (update_head memstore_slot).

Definition has_shm_room : M bool := gets (fun s => shm_room (env s)).
Definition has_heap_room : M bool := gets (fun s => heap_room (env s) memstore_slot).
Definition now : M Z := gets (fun s => ngx_time (env s) memstore_slot).

Definition memstore_channel_owner (id : bytes) : Z :=
  if nchan_channel_id_is_multi id then memstore_slot else owner_slot id.

(** [head->cf && head->cf->redis.enabled]. *)
Definition head_redis (ch : chanhead) : bool := match ch_cf ch with Some cf => conf_redis cf | None => false end.

(** ** The queues *)

Definition chanhead_churner_add (h : positive) : M unit :=
  ch ← head_at h;
  assert (ch_owner ch =? ch_slot ch);;
  assert (ch_shutting_down ch || negb (bool_decide (is_Some (ch_foreign_owner_ipc_sub ch))));;
  assert (negb (ch_in_gc_queue ch));;
  if ch_in_churn_queue ch then mret ()
  else
    t ← now;
    put_head h (ch_set_churn ch t true);;
    chanhead_churner_reaper_add memstore_slot h.

Definition chanhead_churner_withdraw (h : positive) : M unit :=
  ch ← head_at h;
  if ch_in_churn_queue ch then
    put_head h (ch_set_churn ch (ch_churn_start_time ch) false);;
    chanhead_churner_reaper_withdraw memstore_slot h
  else mret ().

Definition chanhead_gc_add (h : positive) : M unit :=
  ch ← head_at h;
  assert (ch_shutting_down ch || negb (bool_decide (is_Some (ch_foreign_owner_ipc_sub ch))));;
  match ch_shared ch with
  | Some p =>
      if negb (ch_slot ch =? ch_owner ch) then
        outside_refcount_add p (-1);;
        put_head h (ch_set_shared ch None)
      else mret ()
  | None => mret ()
  end;;
  ch ← head_at h;
  exiting ← gets (fun s => is_exiting (env s) memstore_slot);
  if bool_decide (ch_status ch = WAITING) && negb (head_redis ch) && negb exiting then mret ()
  else
    assert (ch_slot ch =? memstore_slot);;
    if ch_in_gc_queue ch then mret ()
    else
      t ← now;
      put_head h (ch_set_status (ch_set_gc ch t (ch_gc_queued_times ch + 1) false) INACTIVE);;
      chanhead_churner_withdraw h;;
      update_head h (fun ch => ch_set_gc ch (ch_gc_start_time ch) (ch_gc_queued_times ch) true);;
      chanhead_reaper_add memstore_slot h.

Definition chanhead_gc_withdraw (h : positive) : M unit :=
  ch ← head_at h;
  (if ch_in_gc_queue ch then
     chanhead_reaper_withdraw memstore_slot h;;
     update_head h (fun ch => ch_set_gc ch (ch_gc_start_time ch) (ch_gc_queued_times ch) false)
   else mret ());;
  if ch_owner ch =? ch_slot ch then chanhead_churner_add h else mret ().

(** ** Becoming ready *)

Definition memstore_ready_chanhead_unless_stub (h : positive) : M unit :=
  ch ← head_at h;
  if ch_stub ch then put_head h (ch_set_status ch STUBBED)
  else
    put_head h (ch_set_status ch READY);;
    spooler_status_change memstore_slot h;;
    ch ← head_at h;
    if bool_decide (ch_status ch = INACTIVE) then
      chanhead_gc_withdraw h;;
      update_head h (fun ch => ch_set_status ch READY)
    else mret ().

(** The internal subscribers of a multiplexed head, from the [i]th on;
    [false] when one could not be made. *)
Fixpoint create_multi_subs (h : positive) (i n : nat) : M bool :=
  match n with
  | O => mret true
  | Datatypes.S n' =>
      ch ← head_at h;
      match ch_multi ch !! i with
      | Some None =>
          r ← multi_subscriber_create memstore_slot h i;
          match r with None => mret false | Some _ => create_multi_subs h (Datatypes.S i) n' end
      | _ => create_multi_subs h (Datatypes.S i) n'
      end
  end.

(** A channel of another worker: its owner is asked, once. *)
Definition ensure_foreign_ready (h : positive) (ipc_subscribe_if_needed : bool) : M Z :=
  ch ← head_at h;
  match ch_foreign_owner_ipc_sub ch with
  | None =>
      if negb (bool_decide (ch_status ch = WAITING)) then
        put_head h (ch_set_status ch WAITING);;
        if ipc_subscribe_if_needed then
          cf ← not_null (ch_cf ch);
          memstore_ipc_send_subscribe memstore_slot (ch_owner ch) (ch_id ch) h cf
        else mret NGX_OK
      else mret NGX_OK
  | Some _ =>
      if bool_decide (ch_status ch = WAITING) then memstore_ready_chanhead_unless_stub h;; mret NGX_OK else mret NGX_OK
  end.

(** A channel of this worker, which may have to be loaded from Redis. *)
Definition ensure_own_ready (h : positive) : M Z :=
  ch ← head_at h;
  if head_redis ch && bool_decide (ch_multi ch = []) && negb (bool_decide (ch_status ch = READY)) then
    match ch_redis_sub ch with
    | None =>
        enqueued ← redis_subscribe memstore_slot h;
        update_head h (fun ch => ch_set_status (ch_set_redis_sub ch (Some enqueued)) WAITING);;
        mret NGX_OK
    | Some true => memstore_ready_chanhead_unless_stub h;; mret NGX_OK
    | Some false => put_head h (ch_set_status ch WAITING);; mret NGX_OK
    end
  else if negb (bool_decide (ch_status ch = READY)) then memstore_ready_chanhead_unless_stub h;; mret NGX_OK
  else mret NGX_OK.

Definition start_chanhead_spooler (h : positive) : M unit :=
  start_spooler memstore_slot h;;
  update_head h (fun ch => ch_set_running ch true).

Definition memstore_ensure_chanhead_is_ready (h : positive) (ipc_subscribe_if_needed : bool) : M Z :=
  ch ← head_at h;
  assert (negb (ch_stub ch) && bool_decide (is_Some (ch_cf ch)));;
  let owner := ch_owner ch in
  (if ch_in_gc_queue ch then chanhead_gc_withdraw h else mret ());;
  ch ← head_at h;
  (if (ch_owner ch =? ch_slot ch) && negb (ch_in_churn_queue ch) then chanhead_churner_add h else mret ());;
  ch ← head_at h;
  (if ch_spooler_running ch then mret () else start_chanhead_spooler h);;
  ok ← create_multi_subs h 0 (length (ch_multi ch));
  if negb ok then mret NGX_ERROR
  else if negb (owner =? memstore_slot) then ensure_foreign_ready h ipc_subscribe_if_needed
  else ensure_own_ready h.

Definition ensure_chanhead_ready_or_trash_chanhead (h : positive) (ipc_sub_if_needed : bool) : M (option positive) :=
  rc ← memstore_ensure_chanhead_is_ready h ipc_sub_if_needed;
  if rc =? NGX_OK then mret (Some h)
  else
    update_head h (fun ch => ch_set_status ch INACTIVE);;
    chanhead_gc_add h;;
    mret None.

(** ** Creation *)

(** [head->latest_msgid] of a new head with [n] channels; the array of more
    than four tags is not looked at here. *)
Definition new_msgid (n : nat) : nchan_msg_id_t :=
  if decide (n = 0)%nat then MsgId 0 (fixed [0; 0; 0; 0]) 0 1
  else MsgId 0 (if decide (Z.of_nat n <= NCHAN_FIXED_MULTITAG_MAX) then fixed [0; 0; 0; 0] else allocd None) 0 (Z.of_nat n).

Definition is_meta (id : bytes) : bool := bool_decide (take 5 id = bytes_of "meta/").

(** The head before it enters the group and the hash; [n]: the channels of a
    multiplexed one. *)
Definition new_chanhead (id : bytes) (cf : option ipc_conf) (owner : Z) (n : nat) (shared : option positive) : chanhead :=
  let redis := (match cf with Some cf => conf_redis cf | None => false end) && (n =? 0)%nat in
  Chanhead id (if decide (n = 0)%nat then owner else memstore_slot) memstore_slot NOTREADY 0 0 0 0
    (replicate n None) (Z.of_nat n) shared
    (if is_meta id then NCHAN_META_CHANNEL_MAX_MESSAGES else u64 (-1)) (new_msgid n) None
    (match cf with Some cf => if redis then redis_idle_channel_cache_timeout cf else 0 | None => 0 end)
    (bool_decide (cf = None)) false (is_meta id)
    (if redis then negb (memstore_slot =? owner) else true) cf None None 0 0 false 0 false false.

(** The shared counters of a channel of this worker. *)
Definition alloc_shared (own : bool) : M (option (option positive)) :=
  if own then
    '(room : bool) ← has_shm_room;
    if room then
      p ← gets (fun s => fresh (dom (shareds s)));
      put_shared p (Shared 0 0 0 0 0 0);;
      mret (Some (Some p))
    else mret None
  else mret (Some None).

(** [None]: no memory. *)
Definition chanhead_memstore_create (channel_id : bytes) (cf : option ipc_conf) : M (option positive) :=
  let owner := memstore_channel_owner channel_id in
  '(room : bool) ← has_heap_room;
  if negb room then mret None
  else
    shared ← alloc_shared (memstore_slot =? owner);
    match shared with
    | None => mret None
    | Some sh =>
        ids ← stop (of_outcome (parse_multi_id channel_id));
        h ← gets (fun s => fresh_in (heads s));
        put_head h (new_chanhead channel_id cf owner (length ids) sh);;
        start_chanhead_spooler h;;
        (if (match cf with Some cf => enable_accounting cf | None => false end) then
           name ← stop (of_outcome (nchan_get_group_from_channel_id channel_id));
           ok ← group_enter memstore_slot h name;
           if (ok : bool) then update_head h (fun ch => ch_set_group ch (Some name)) else mret ()
         else mret ());;
        modify (fun s => set_hash s (<[(memstore_slot, channel_id) := h]> (hash s)));;
        mret (Some h)
    end.

(** ** Looking up *)

Definition CHANNEL_HASH_FIND (id : bytes) : M (option positive) := gets (fun s => hash s !! (memstore_slot, id)).

Definition nchan_memstore_find_chanhead (id : bytes) : M (option positive) :=
  r ← CHANNEL_HASH_FIND id;
  match r with
  | None => mret None
  | Some h => ensure_chanhead_ready_or_trash_chanhead h true
  end.

Definition create_and_ready (id : bytes) (cf : ipc_conf) (ipc_sub_if_needed : bool) : M (option positive) :=
  r ← chanhead_memstore_create id (Some cf);
  match r with
  | None => mret None
  | Some h => ensure_chanhead_ready_or_trash_chanhead h ipc_sub_if_needed
  end.

Definition nchan_memstore_get_chanhead (id : bytes) (cf : ipc_conf) : M (option positive) :=
  r ← nchan_memstore_find_chanhead id;
  match r with
  | None => create_and_ready id cf true
  | Some h =>
      (if publishes cf then update_head h (fun ch => ch_set_cf ch (Some cf)) else mret ());;
      mret (Some h)
  end.

Definition nchan_memstore_get_chanhead_no_ipc_sub (id : bytes) (cf : ipc_conf) : M (option positive) :=
  r ← CHANNEL_HASH_FIND id;
  match r with
  | Some h => ensure_chanhead_ready_or_trash_chanhead h false
  | None => create_and_ready id cf false
  end.
End chanhead.
