(* ===== verification/ChanRequest.v ===== *)
(** * What is asked of a channel ([store/memory/memstore.c])

    Publishing, deleting, looking up and reading, for requests of this worker
    and for alerts of the others.  On the channel's owner a request is carried
    out; elsewhere it is sent to the owner. *)

From S2P Require Import Prelude Nginx MsgId Msg ChannelId ChanHead Worker IpcSend InternalSub ChanReady.

Section request.
Context {S : Type} `{StoreEnv S}.
Notation M := (M S).
Context (memstore_slot : Z).

Notation head_at := (head_at memstore_slot).
Notation update_head := (update_head memstore_slot).

(** ** Callbacks of ipc-handlers.c *)

(** [nchan_channel_t] of a reply, in shared memory. *)
Definition delete_callback_handler (code : Z) (chan : option nchan_channel_t) (d : delete_data_t) : M unit :=
  '(info, code) ←
    match chan with
    | Some ch =>
        '(room : bool) ← has_shm_room;
        if room then
          p ← gets (fun s => fresh (dom (infos s)));
          let last := if NCHAN_FIXED_MULTITAG_MAX <? tagcount (last_published_msg_id ch) then NCHAN_ZERO_MSGID
                      else last_published_msg_id ch in
          modify (fun s => set_infos s (<[p := Channel (channel_messages ch) (channel_subscribers ch)
                                             (channel_last_seen ch) last]> (infos s)));;
          mret (Some p, code)
        else mret (None, NGX_HTTP_INSUFFICIENT_STORAGE)
    | None => mret (None, code)
    end;
  _ ← ipc_cmd memstore_slot (dd_sender d)
        (cmd_delete_reply (DeleteData (dd_chid d) (dd_sender d) info code (dd_callback d)));
  mret ().

(** Without a channel, all but the status is whatever was on the stack: 0 here. *)
Definition publish_message_generic_callback (status : Z) (ch : option nchan_channel_t) (sender : Z) (d : publish_data_t) : M unit :=
  rd ←
    match ch with
    | Some ch =>
        let i := last_published_msg_id ch in
        assert (tagcount i =? 1);;
        t ← stop (of_outcome (fixed0 i));
        mret (PublishResponse (u16 status) (u32 (channel_subscribers ch)) (u16 (channel_messages ch))
                (channel_last_seen ch) (time i) (u16 t) (pd_callback d))
    | None => mret (PublishResponse (u16 status) 0 0 0 0 0 (pd_callback d))
    end;
  _ ← ipc_cmd memstore_slot sender (cmd_publish_message_reply rd);
  mret ().

Definition run_callback (cb : callback_pt) (code : Z) (ch : option nchan_channel_t) : M unit :=
  match cb with
  | empty_callback => mret ()
  | client_callback n => client_call memstore_slot n code ch
  | delete_callback d => delete_callback_handler code ch d
  | publish_message_callback sender d => publish_message_generic_callback code ch sender d
  end.

(** ** To the subscribers of a head *)

Definition nchan_memstore_publish_notice (h : positive) (notice_code : Z) (notice_data : option bytes) : M unit :=
  (if notice_code =? NCHAN_NOTICE_BUFFER_LOADED then
     ch ← head_at h;
     if negb (ch_msg_buffer_complete ch) then
       update_head h (fun ch => ch_set_complete ch true);;
       _ ← ensure_chanhead_ready_or_trash_chanhead memstore_slot h false;
       spooler_status_change memstore_slot h
     else mret ()
   else mret ());;
  spooler_broadcast_notice memstore_slot h notice_code notice_data.

Definition shared_sub_count_of (ch : chanhead) : M Z :=
  match ch_shared ch with
  | Some p =>
      assert (head_redis ch || negb (bool_decide (ch_multi ch = [])) || bool_decide (ch_status ch = READY)
              || bool_decide (ch_status ch = STUBBED));;
      x ← shared_at p; mret (shared_sub_count x)
  | None => mret 0
  end.

Definition nchan_memstore_publish_generic (h : positive) (msg : option positive) (status_code : Z)
    (status_line : option bytes) : M Z :=
  ch ← head_at h;
  n ← shared_sub_count_of ch;
  match msg with
  | Some m => spooler_respond_message memstore_slot h m
  | None => spooler_broadcast_status memstore_slot h status_code status_line
  end;;
  ch ← head_at h;
  (if ch_owner ch =? memstore_slot then chanhead_gc_add memstore_slot h else mret ());;
  mret (if 0 <? n then NCHAN_MESSAGE_RECEIVED else NCHAN_MESSAGE_QUEUED).

Definition chanhead_copy_channel_info (h : positive) : M nchan_channel_t :=
  ch ← head_at h;
  assert (ch_owner ch =? memstore_slot);;
  p ← not_null (ch_shared ch);
  x ← shared_at p;
  mret (Channel (stored_message_count x) (shared_sub_count x) (last_seen x) (ch_latest_msgid ch)).

(** ** Deleting *)

Definition nchan_memstore_force_delete_chanhead (h : positive) (callback : callback_pt) : M unit :=
  info ← chanhead_copy_channel_info h;
  _ ← nchan_memstore_publish_generic h None NGX_HTTP_GONE (Some NCHAN_HTTP_STATUS_410);
  run_callback callback NGX_OK (Some info);;
  delete_messages memstore_slot h;;
  chanhead_gc_add memstore_slot h.

Definition nchan_memstore_force_delete_channel (channel_id : bytes) (callback : callback_pt) : M unit :=
  assert (memstore_channel_owner memstore_slot channel_id =? memstore_slot);;
  r ← nchan_memstore_find_chanhead memstore_slot channel_id;
  match r with
  | Some h => nchan_memstore_force_delete_chanhead h callback
  | None => run_callback callback NGX_OK None
  end.

Definition nchan_store_delete_single_channel_id (channel_id : bytes) (cf : ipc_conf) (callback : positive) : M unit :=
  assert (negb (nchan_channel_id_is_multi channel_id));;
  let owner := memstore_channel_owner memstore_slot channel_id in
  if conf_distributed cf then redis_command memstore_slot channel_id (Some callback)
  else
    (if conf_redis cf then redis_command memstore_slot channel_id None else mret ());;
    if owner =? memstore_slot then nchan_memstore_force_delete_channel channel_id (client_callback callback)
    else
      rc ← memstore_ipc_send_delete memstore_slot owner channel_id callback;
      if rc =? NGX_DECLINED then client_call memstore_slot callback NGX_HTTP_INSUFFICIENT_STORAGE None else mret ().

(** ** Looking up *)

Definition nchan_store_find_channel (channel_id : bytes) (cf : ipc_conf) (callback : positive) : M unit :=
  let owner := memstore_channel_owner memstore_slot channel_id in
  if conf_distributed cf then redis_command memstore_slot channel_id (Some callback)
  else if memstore_slot =? owner then
    r ← nchan_memstore_find_chanhead memstore_slot channel_id;
    match r with
    | None => if conf_backup cf then redis_command memstore_slot channel_id (Some callback)
              else client_call memstore_slot callback NGX_OK None
    | Some h => info ← chanhead_copy_channel_info h; client_call memstore_slot callback NGX_OK (Some info)
    end
  else
    rc ← memstore_ipc_send_get_channel_info memstore_slot owner channel_id cf callback;
    if rc =? NGX_DECLINED then client_call memstore_slot callback NGX_HTTP_INSUFFICIENT_STORAGE None else mret ().

(** ** Publishing *)

(** The requester's callback, as an alert carries it. *)
Definition remote_callback (cb : callback_pt) : option positive :=
  match cb with client_callback n => Some n | _ => None end.

Definition msgid_differs (m : nchan_msg_t) : M bool :=
  t ← stop (of_outcome (fixed0 (id m)));
  pt ← stop (of_outcome (fixed0 (prev_id m)));
  mret (negb (time (id m) =? time (prev_id m)) || negb (t =? pt)).

(** [fill_message_timedata], in place. *)
Definition fill_published (msg : published_msg) (timeout : Z) : M published_msg :=
  t ← now memstore_slot;
  match msg with
  | own_msg m => mret (own_msg (fill_message_timedata t m timeout))
  | shm_msg p =>
      m ← message_at p;
      modify (fun s => set_messages s (<[p := fill_message_timedata t m timeout]> (messages s)));;
      mret (shm_msg p)
  end.

(** The part on the owner. *)
Definition publish_on_owner (chead : positive) (msg : published_msg) (cf : ipc_conf) (callback : callback_pt) : M Z :=
  ch ← head_at chead;
  assert (bool_decide (is_Some (ch_shared ch)));;
  (if conf_backup cf then redis_publish memstore_slot chead msg else mret ());;
  msg ← fill_published msg (conf_message_timeout (store_conf cf));
  update_head chead (fun ch => ch_set_max_messages ch (conf_max_messages (store_conf cf)));;
  r ← buffer_message memstore_slot chead msg cf;
  match r with
  | inl rc => run_callback callback rc None;; mret NGX_ERROR
  | inr publish_msg =>
      m ← message_at publish_msg;
      update_head chead (fun ch => ch_set_latest_msgid ch (id m));;
      channel_info ← chanhead_copy_channel_info chead;
      differs ← msgid_differs m;
      assert differs;;
      rc ← nchan_memstore_publish_generic chead (Some publish_msg) 0 None;
      run_callback callback rc (Some channel_info);;
      mret rc
  end.

Definition nchan_store_chanhead_publish_message_generic (chead : positive) (msg : published_msg) (cf : ipc_conf)
    (callback : callback_pt) : M Z :=
  ch ← head_at chead;
  m ← published msg;
  assert (tagcount (id m) =? 1);;
  assert (negb (conf_redis cf) || conf_backup cf);;
  if negb (memstore_slot =? ch_owner ch) then
    publish_msg ← create_shm_msg_of memstore_slot msg;
    match publish_msg with
    | None => run_callback callback NGX_HTTP_INSUFFICIENT_STORAGE None;; mret NGX_ERROR
    | Some p => memstore_ipc_send_publish_message memstore_slot (ch_owner ch) (ch_id ch) p cf (remote_callback callback)
    end
  else publish_on_owner chead msg cf callback.

(** Its message has its time and expiry. *)
Definition publish_filled (channel_id : bytes) (msg : published_msg) (cf : ipc_conf) (callback : callback_pt) : M Z :=
  if conf_distributed cf then
    assert (match msg with own_msg _ => true | shm_msg _ => false end);;
    redis_command memstore_slot channel_id (remote_callback callback);;
    mret NGX_OK
  else
    r ← nchan_memstore_get_chanhead memstore_slot channel_id cf;
    match r with
    | None => run_callback callback NGX_HTTP_INSUFFICIENT_STORAGE None;; mret NGX_ERROR
    | Some chead => nchan_store_chanhead_publish_message_generic chead msg cf callback
    end.

Definition nchan_store_publish_message_to_single_channel_id (channel_id : bytes) (msg : published_msg) (cf : ipc_conf)
    (callback : callback_pt) : M Z :=
  if conf_redis cf then
    msg ← fill_published msg (conf_message_timeout (store_conf cf));
    publish_filled channel_id msg cf callback
  else publish_filled channel_id msg cf callback.

(** ** Reading *)

(** [nchan_store_async_get_message] for one channel; [cookie]: the requester's
    callback and its data. *)
Definition nchan_store_async_get_message (channel_id : bytes) (msg_id : nchan_msg_id_t) (cookie : positive) : M Z :=
  let owner := memstore_channel_owner memstore_slot channel_id in
  chead ← nchan_memstore_find_chanhead memstore_slot channel_id;
  if negb (memstore_slot =? owner) then
    rc ← memstore_ipc_send_get_message memstore_slot owner channel_id msg_id cookie;
    if rc =? NGX_DECLINED then getmsg_call memstore_slot cookie MSG_ERROR None;; mret NGX_ERROR else mret NGX_OK
  else
    h ← not_null chead;
    ch ← head_at h;
    if negb (ch_msg_buffer_complete ch) then
      sub ← getmsg_proxy_subscriber_create memstore_slot msg_id (getmsg_proxy_completebuffer cookie);
      rc ← spooler_add memstore_slot h sub;
      if negb (rc =? NGX_OK) then getmsg_call memstore_slot cookie MSG_ERROR None;; mret NGX_ERROR else mret NGX_OK
    else
      '(msg, st) ← find_next_message memstore_slot h msg_id;
      getmsg_call memstore_slot cookie st msg;;
      mret NGX_OK.
End request.
