(* ===== verification/IpcHandlers.v ===== *)
(** * Handlers of alerts ([store/memory/ipc-handlers.c])

    [receive_*], one per command; [memstore_slot] is the worker that reads the
    alert.  The handler is given a copy of the alert's data. *)

From S2P Require Import Prelude Nginx MsgId Msg ChannelId ChanHead Worker IpcSend InternalSub ChanReady ChanRequest.

Section handlers.
Context {S : Type} `{StoreEnv S}.
Notation M := (M S).
Context (memstore_slot : Z).

Notation head_at := (head_at memstore_slot).
Notation update_head := (update_head memstore_slot).
Notation find_chanhead p := (id ← str_at p; nchan_memstore_find_chanhead memstore_slot id).
Notation reply sender a := (_ ← ipc_cmd memstore_slot sender a; mret ()).

(** ** Subscribing to a channel of another worker *)

(** On the owner.  The head is reserved, its shared counters are counted, and a
    subscriber of it will relay to the sender. *)
Definition receive_subscribe (sender : Z) (d : subscribe_data_t) : M unit :=
  id ← str_at (sd_chid d);
  r ← nchan_memstore_get_chanhead memstore_slot id (sd_cf d);
  match r with
  | None =>
      reply sender (cmd_subscribe_reply
        (SubscribeData (sd_chid d) None (sd_cf d) (sd_origin d) (sd_owner d) None NGX_ERROR))
  | Some h =>
      ipc_sub ← memstore_ipc_subscriber_create memstore_slot sender h (sd_cf d) (sd_origin d);
      ch ← head_at h;
      memstore_chanhead_reserve memstore_slot h;;
      sh ← not_null (ch_shared ch);
      outside_refcount_add sh 1;;
      rc ← spooler_add memstore_slot h ipc_sub;
      reply sender (cmd_subscribe_reply
        (SubscribeData (sd_chid d) (Some sh) (sd_cf d) (sd_origin d) (Some h) (Some ipc_sub) rc))
  end.

(** [head->shared = d->shared_channel_data], which brings the subscribers that
    the head already has. *)
Definition take_shared (h : positive) (sh : option positive) : M unit :=
  ch ← head_at h;
  assert (bool_decide (ch_shared ch = None) || bool_decide (ch_shared ch = sh));;
  update_head h (fun ch => ch_set_shared ch sh);;
  match ch_shared ch with
  | None =>
      assert (ch_internal_sub_count ch <=? ch_sub_count ch);;
      p ← not_null sh;
      shared_subs_add p (ch_sub_count ch - ch_internal_sub_count ch) (ch_internal_sub_count ch)
  | Some _ => assert (bool_decide (is_Some sh))
  end.

(** [str_shm_free(d->shm_chid)], and the owner releases its head. *)
Definition subscribed (sender : Z) (d : subscribe_data_t) : M unit :=
  str_shm_free (sd_chid d);;
  match sd_owner d with
  | Some _ => reply sender (cmd_subscribe_chanhead_release d)
  | None => mret ()
  end.

Definition receive_subscribe_reply (sender : Z) (d : subscribe_data_t) : M unit :=
  id ← str_at (sd_chid d);
  r ← nchan_memstore_get_chanhead_no_ipc_sub memstore_slot id (sd_cf d);
  match r with
  | None => str_shm_free (sd_chid d)
  | Some h =>
      if negb (bool_decide (h = sd_origin d)) then
        assert (bool_decide (is_Some (sd_owner d)));;
        reply sender (cmd_subscribe_chanhead_nevermind_release d)
      else
        match sd_shared d, sd_subscriber d with
        | None, None =>
            _ ← nchan_memstore_publish_generic memstore_slot h None NGX_HTTP_INSUFFICIENT_STORAGE None;
            update_head h (fun ch => ch_set_status ch NOTREADY);;
            chanhead_gc_add memstore_slot h;;
            subscribed sender d
        | _, _ =>
            take_shared h (sd_shared d);;
            ch ← head_at h;
            if bool_decide (is_Some (ch_foreign_owner_ipc_sub ch)) &&
               negb (bool_decide (ch_foreign_owner_ipc_sub ch = sd_subscriber d)) then
              memstore_ready_chanhead_unless_stub memstore_slot h;;
              reply sender (cmd_subscribe_chanhead_nevermind_release d)
            else
              update_head h (fun ch => ch_set_foreign_sub ch (sd_subscriber d));;
              memstore_ready_chanhead_unless_stub memstore_slot h;;
              subscribed sender d
        end
  end.

Definition receive_subscribe_chanhead_release (sender : Z) (d : subscribe_data_t) : M unit :=
  h ← not_null (sd_owner d);
  memstore_chanhead_release memstore_slot h.

Definition receive_subscribe_chanhead_nevermind_release (sender : Z) (d : subscribe_data_t) : M unit :=
  r ← find_chanhead (sd_chid d);
  if bool_decide (r = None) || negb (bool_decide (r = sd_owner d)) then mret ()
  else
    sub ← not_null (sd_subscriber d);
    memstore_ipc_subscriber_unhook memstore_slot sub;;
    internal_respond_status memstore_slot sub NGX_HTTP_GONE None;;
    h ← not_null (sd_owner d);
    memstore_chanhead_release memstore_slot h;;
    str_shm_free (sd_chid d).

Definition receive_unsubscribed (sender : Z) (shm_chid : positive) : M unit :=
  id ← str_at shm_chid;
  if negb (memstore_channel_owner memstore_slot id =? memstore_slot) then
    r ← nchan_memstore_find_chanhead memstore_slot id;
    match r with
    | None => mret ()
    | Some h =>
        update_head h (fun ch => ch_set_foreign_sub ch None);;
        ch ← head_at h;
        (if ch_sub_count ch =? 0 then chanhead_gc_add memstore_slot h else mret ());;
        str_shm_free shm_chid
    end
  else str_shm_free shm_chid.

(** ** Publishing *)

Definition receive_publish_status (sender : Z) (d : publish_code_data_t) : M unit :=
  r ← find_chanhead (pc_chid d);
  match r with
  | None => str_shm_free (pc_chid d)
  | Some h =>
      _ ← nchan_memstore_publish_generic memstore_slot h None (pc_code d) (pc_data d);
      str_shm_free (pc_chid d)
  end.

Definition receive_publish_notice (sender : Z) (d : publish_code_data_t) : M unit :=
  r ← find_chanhead (pc_chid d);
  match r with
  | None => str_shm_free (pc_chid d)
  | Some h =>
      nchan_memstore_publish_notice memstore_slot h (pc_code d) (pc_data d);;
      str_shm_free (pc_chid d)
  end.

(** On the owner the message is published, elsewhere it is one that the owner
    relays.  An id on the wire is of one channel: a multiplexed head belongs to
    its own worker. *)
Definition receive_publish_message (sender : Z) (d : publish_data_t) : M unit :=
  id ← str_at (pd_chid d);
  (if memstore_channel_owner memstore_slot id =? memstore_slot then
     assert (negb (nchan_channel_id_is_multi id));;
     _ ← nchan_store_publish_message_to_single_channel_id memstore_slot id (shm_msg (pd_msg d)) (pd_cf d)
           (publish_message_callback sender d);
     mret ()
   else
     r ← nchan_memstore_get_chanhead memstore_slot id (pd_cf d);
     match r with
     | Some h => _ ← nchan_memstore_publish_generic memstore_slot h (Some (pd_msg d)) 0 None; mret ()
     | None => mret ()
     end);;
  msg_release_shm (pd_msg d);;
  str_shm_free (pd_chid d).

Definition receive_publish_message_reply (sender : Z) (d : publish_response_data) : M unit :=
  match pr_callback d with
  | None => mret ()
  | Some n =>
      client_call memstore_slot n (pr_status d)
        (Some (Channel (pr_messages d) (pr_subscribers d) (pr_last_seen d)
                 (MsgId (pr_msg_time d) (fixed [s16 (pr_msg_tag d); 0; 0; 0]) 0 1)))
  end.

(** ** Reading *)

Definition reply_get_message (sender : Z) (d : getmessage_data_t) (code : nchan_msg_status_t) (msg : option positive) : M unit :=
  reply sender (cmd_get_message_reply (GetMessageData (gm_chid d) (gm_privdata d) (getmsg_resp code msg))).

(** The request waits in the channel until the buffer is complete. *)
Definition proxy_get_message (sender : Z) (h : positive) (msgid : nchan_msg_id_t) (d : getmessage_data_t) : M unit :=
  '(room : bool) ← has_heap_room memstore_slot;
  if negb room then reply_get_message sender d MSG_ERROR None
  else
    sub ← getmsg_proxy_subscriber_create memstore_slot msgid (ipc_getmsg_proxy sender d);
    rc ← spooler_add memstore_slot h sub;
    if negb (rc =? NGX_OK) then reply_get_message sender d MSG_ERROR None else mret ().

Definition receive_get_message (sender : Z) (d : getmessage_data_t) : M unit :=
  id ← str_at (gm_chid d);
  assert (1 <=? Z.of_nat (length id));;
  msgid ← match gm_d d with getmsg_req i => mret i | getmsg_resp _ _ => stop Aborted end;
  r ← nchan_memstore_find_chanhead memstore_slot id;
  match r with
  | None => reply_get_message sender d MSG_NOTFOUND None
  | Some h =>
      ch ← head_at h;
      if ch_msg_buffer_complete ch then
        '(msg, code) ← find_next_message memstore_slot h msgid;
        match msg with Some p => msg_reserve_shm p | None => mret () end;;
        reply_get_message sender d code msg
      else proxy_get_message sender h msgid d
  end.

Definition receive_get_message_reply (sender : Z) (d : getmessage_data_t) : M unit :=
  id ← str_at (gm_chid d);
  assert (1 <=? Z.of_nat (length id));;
  match gm_d d with
  | getmsg_req _ => stop Aborted
  | getmsg_resp code msg =>
      getmsg_call memstore_slot (gm_privdata d) code msg;;
      match msg with Some p => msg_release_shm p | None => mret () end;;
      str_shm_free (gm_chid d)
  end.

(** ** Deleting *)

Definition receive_delete (sender : Z) (d : delete_data_t) : M unit :=
  id ← str_at (dd_chid d);
  nchan_memstore_force_delete_channel memstore_slot id
    (delete_callback (DeleteData (dd_chid d) sender (dd_channel_info d) (dd_code d) (dd_callback d))).

Definition receive_delete_reply (sender : Z) (d : delete_data_t) : M unit :=
  match dd_channel_info d with
  | Some p =>
      info ← access (RInfo p) (fun s => infos s !! p);
      client_call memstore_slot (dd_callback d) (dd_code d) (Some info);;
      _ ← access (RInfo p) (fun s => infos s !! p);
      modify (fun s => set_infos s (delete p (infos s)))
  | None => client_call memstore_slot (dd_callback d) (dd_code d) None
  end;;
  str_shm_free (dd_chid d).

(** ** Looking up *)

Definition receive_get_channel_info_continued (sender : Z) (d : channel_info_data_t) (head : option positive) : M unit :=
  id ← str_at (ci_chid d);
  assert (memstore_slot =? memstore_channel_owner memstore_slot id);;
  d' ←
    match head with
    | None => mret (ChannelInfoData (ci_chid d) (ci_cf d) None (ci_last_msgid d) (ci_callback d))
    | Some h =>
        ch ← head_at h;
        assert (tagcount (ch_latest_msgid ch) <=? 1);;
        mret (ChannelInfoData (ci_chid d) (ci_cf d) (ch_shared ch) (ch_latest_msgid ch) (ci_callback d))
    end;
  reply sender (cmd_get_channel_info_reply d').

(** A request that waits for Redis. *)
Definition defer (c : deferred_call) : M unit :=
  p ← gets (fun s => fresh_in (deferred s));
  modify (fun s => set_deferred s (<[(memstore_slot, p) := c]> (deferred s))).

Definition receive_get_channel_info (sender : Z) (d : channel_info_data_t) : M unit :=
  r ← find_chanhead (ci_chid d);
  if conf_backup (ci_cf d) && bool_decide (r = None) then defer (redis_find_backup sender d)
  else receive_get_channel_info_continued sender d r.

(** [chinfo->sub_count] and the others are read in the owner's shared counters. *)
Definition receive_get_channel_info_reply (sender : Z) (d : channel_info_data_t) : M unit :=
  match ci_channel_info d with
  | Some p =>
      x ← shared_at p;
      client_call memstore_slot (ci_callback d) NGX_OK
        (Some (Channel (stored_message_count x) (shared_sub_count x) (last_seen x) (ci_last_msgid d)))
  | None => client_call memstore_slot (ci_callback d) NGX_OK None
  end;;
  str_shm_free (ci_chid d).

(** [d->max_subscribers] is an [ngx_int_t], the counter is not signed. *)
Definition auth_ok (d : channel_authcheck_data_t) (sub_count : option Z) : bool :=
  match sub_count with
  | None => negb (ac_channel_must_exist d)
  | Some n => (ac_max_subscribers d =? 0) || (n <? u64 (ac_max_subscribers d))
  end.
Definition reply_auth (sender : Z) (d : channel_authcheck_data_t) (ok : bool) : M unit :=
  reply sender (cmd_channel_auth_check_reply
    (AuthCheckData (ac_chid d) ok (ac_channel_must_exist d) (ac_cf d) (ac_max_subscribers d) (ac_callback d))).

Definition receive_channel_auth_check (sender : Z) (d : channel_authcheck_data_t) : M unit :=
  id ← str_at (ac_chid d);
  assert (memstore_slot =? memstore_channel_owner memstore_slot id);;
  if negb (conf_redis (ac_cf d)) then
    r ← nchan_memstore_find_chanhead memstore_slot id;
    match r with
    | None => reply_auth sender d (auth_ok d None)
    | Some h =>
        if ac_max_subscribers d =? 0 then reply_auth sender d true
        else
          ch ← head_at h;
          p ← not_null (ch_shared ch);
          x ← shared_at p;
          reply_auth sender d (auth_ok d (Some (shared_sub_count x)))
    end
  else defer (redis_auth_check sender d).

Definition receive_channel_auth_check_reply (sender : Z) (d : channel_authcheck_data_t) : M unit :=
  client_call memstore_slot (ac_callback d) (Z.b2z (ac_auth_ok d)) None;;
  str_shm_free (ac_chid d).

(** Redis has answered: [redis_receive_channel_auth_check_callback], and
    [memstore_find_chanhead_with_backup_callback] of memstore.c with
    [find_chanhead_w_backup_callback]. *)
Definition redis_answered (key : positive) (c : deferred_call) (ch : option nchan_channel_t) : M unit :=
  modify (fun s => set_deferred s (delete (memstore_slot, key) (deferred s)));;
  match c with
  | redis_auth_check sender d => reply_auth sender d (auth_ok d (channel_subscribers <$> ch))
  | redis_find_backup sender d =>
      match ch with
      | Some _ =>
          id ← str_at (ci_chid d);
          r ← nchan_memstore_get_chanhead memstore_slot id (ci_cf d);
          receive_get_channel_info_continued sender d r
      | None => receive_get_channel_info_continued sender d None
      end
  end.

(** ** Keeping a subscription *)

(** Of the head that the channel has here, if any. *)
Definition keepalive_action (d : sub_keepalive_data_t) (h : positive) : M keepalive_reply_action_t :=
  ch ← head_at h;
  if negb (bool_decide (h = ka_originator d)) then mret KA_REPLY_UNHOOK_NORENEW
  else if negb (bool_decide (ch_status ch = READY)) && negb (bool_decide (ch_status ch = STUBBED)) then
    _ ← nchan_memstore_publish_generic memstore_slot h None NGX_HTTP_SERVICE_UNAVAILABLE None;
    id ← str_at (ka_chid d);
    nchan_memstore_force_delete_channel memstore_slot id empty_callback;;
    mret KA_REPLY_UNHOOK_NORENEW
  else if negb (bool_decide (ch_foreign_owner_ipc_sub ch = Some (ka_ipc_sub d))) then mret KA_REPLY_UNHOOK_NORENEW
  else if ch_sub_count ch =? 0 then
    t ← now memstore_slot;
    mret (if MEMSTORE_IPC_SUBSCRIBER_TIMEOUT <? t - ch_last_subscribed_local ch then KA_REPLY_NORENEW else KA_REPLY_RENEW)
  else mret KA_REPLY_RENEW.

Definition receive_subscriber_keepalive (sender : Z) (d : sub_keepalive_data_t) : M unit :=
  r ← find_chanhead (ka_chid d);
  str_shm_free (ka_chid d);;
  action ← match r with None => mret KA_REPLY_NORENEW | Some h => keepalive_action d h end;
  reply sender (cmd_subscriber_keepalive_reply
    (KeepaliveData (ka_chid d) (ka_ipc_sub d) (ka_originator d) action)).

Definition receive_subscriber_keepalive_reply (sender : Z) (d : sub_keepalive_data_t) : M unit :=
  let sub := ka_ipc_sub d in
  match ka_reply_action d with
  | KA_REPLY_NORENEW => internal_dequeue memstore_slot sub
  | KA_REPLY_RENEW => memstore_ipc_subscriber_keepalive_renew memstore_slot sub
  | KA_REPLY_UNHOOK_NORENEW => memstore_ipc_subscriber_unhook memstore_slot sub
  end;;
  _ ← internal_release memstore_slot sub false;
  mret ().

(** ** Groups *)

Definition receive_get_group (sender : Z) (group_id : positive) : M unit :=
  id ← str_at group_id;
  '(shared_group, new_group) ← group_owner_find memstore_slot id;
  (if negb new_group then reply sender (cmd_group shared_group) else mret ());;
  str_shm_free group_id.

(** ** [memstore_ipc_alert_handler] *)

Definition memstore_ipc_alert_handler (sender : Z) (a : alert) : M unit :=
  match a with
  | cmd_subscribe d => receive_subscribe sender d
  | cmd_subscribe_reply d => receive_subscribe_reply sender d
  | cmd_subscribe_chanhead_release d => receive_subscribe_chanhead_release sender d
  | cmd_subscribe_chanhead_nevermind_release d => receive_subscribe_chanhead_nevermind_release sender d
  | cmd_unsubscribed p => receive_unsubscribed sender p
  | cmd_publish_message d => receive_publish_message sender d
  | cmd_publish_message_reply d => receive_publish_message_reply sender d
  | cmd_publish_status d => receive_publish_status sender d
  | cmd_publish_notice d => receive_publish_notice sender d
  | cmd_get_message d => receive_get_message sender d
  | cmd_get_message_reply d => receive_get_message_reply sender d
  | cmd_delete d => receive_delete sender d
  | cmd_delete_reply d => receive_delete_reply sender d
  | cmd_get_channel_info d => receive_get_channel_info sender d
  | cmd_get_channel_info_reply d => receive_get_channel_info_reply sender d
  | cmd_channel_auth_check d => receive_channel_auth_check sender d
  | cmd_channel_auth_check_reply d => receive_channel_auth_check_reply sender d
  | cmd_subscriber_keepalive d => receive_subscriber_keepalive sender d
  | cmd_subscriber_keepalive_reply d => receive_subscriber_keepalive_reply sender d
  | cmd_get_group p => receive_get_group sender p
  | cmd_group g => group_receive memstore_slot g
  | cmd_group_delete g => group_receive_delete memstore_slot g
  | cmd_flood_test n => mret ()
  | cmd_benchmark code => other_alert memstore_slot sender code
  end.
End handlers.
