(* ===== verification/IpcLedger.v ===== *)
(** * The ledger of inter-process resources

    What is put into shared memory, or reserved, for another worker has to be
    given back by whoever ends the exchange.  [live] is what the memory says of
    a resource, [held] how often it is owed: by alerts on their way, by requests
    that wait, by heads of other workers.  [slack] is the difference.  A triple
    [tri] says how a routine moves it, relative to the resources that the
    routine has in hand, so that triples compose. *)

From S2P Require Import Prelude Nginx MsgId Msg ChannelId ChanHead Worker IpcSend InternalSub ChanReady ChanRequest IpcHandlers.

(** ** Counting *)

(** [1] if the resources are the same. *)
Definition ind (r r' : resource) : Z := if decide (r = r') then 1 else 0.
Fixpoint cnt (r : resource) (l : list resource) : Z :=
  match l with [] => 0 | x :: l => ind x r + cnt r l end.

(** The sum of a function over a map. *)
Definition msum {K A} `{Countable K} (f : A -> Z) (m : gmap K A) : Z := map_fold (fun _ a n => f a + n) 0 m.
(** What the entry at a key contributes. *)
Definition at_key {K A} `{Countable K} (f : A -> Z) (m : gmap K A) (k : K) : Z :=
  match m !! k with Some a => f a | None => 0 end.

(** ** Who holds what *)

Definition opt {A} (f : A -> resource) (o : option A) : list resource :=
  match o with Some a => [f a] | None => [] end.

Definition getmsg_message (u : getmsg_u) : option positive :=
  match u with getmsg_resp _ p => p | getmsg_req _ => None end.

Definition owns (pk : packet) : list resource :=
  match p_alert pk with
  | cmd_subscribe d => RString (sd_chid d) :: opt (RHead (p_dst pk)) (sd_owner d)     (* none yet *)
  | cmd_subscribe_reply d => RString (sd_chid d) :: opt RShared (sd_shared d) ++ opt (RHead (p_src pk)) (sd_owner d)
  | cmd_subscribe_chanhead_release d => opt (RHead (p_dst pk)) (sd_owner d)
  | cmd_subscribe_chanhead_nevermind_release d => RString (sd_chid d) :: opt (RHead (p_dst pk)) (sd_owner d)
  | cmd_unsubscribed p => [RString p]
  | cmd_publish_message d => [RMessage (pd_msg d); RString (pd_chid d)]
  | cmd_publish_message_reply _ => []
  | cmd_publish_status d | cmd_publish_notice d => [RString (pc_chid d)]
  | cmd_get_message d => [RString (gm_chid d)]
  | cmd_get_message_reply d => opt RMessage (getmsg_message (gm_d d)) ++ [RString (gm_chid d)]
  | cmd_delete d => [RString (dd_chid d)]
  | cmd_delete_reply d => opt RInfo (dd_channel_info d) ++ [RString (dd_chid d)]
  | cmd_get_channel_info d | cmd_get_channel_info_reply d => [RString (ci_chid d)]
  | cmd_channel_auth_check d | cmd_channel_auth_check_reply d => [RString (ac_chid d)]
  | cmd_subscriber_keepalive d => [RSub (p_src pk) (ka_ipc_sub d); RString (ka_chid d)]
  | cmd_subscriber_keepalive_reply d => [RSub (p_dst pk) (ka_ipc_sub d)]
  | cmd_get_group p => [RString p]
  | cmd_group _ | cmd_group_delete _ | cmd_flood_test _ | cmd_benchmark _ => []
  end.

(** A request that waits in a channel, once it is in a pool. *)
Definition proxy_strings (b : internal_subscriber_t) : list resource :=
  match isub_privdata b with
  | getmsg_proxy (Some (ipc_getmsg_proxy _ d)) => [RString (gm_chid d)]
  | _ => []
  end.
Definition sub_owns (b : internal_subscriber_t) : list resource := if isub_enqueued b then proxy_strings b else [].

Definition deferred_owns (c : deferred_call) : list resource :=
  match c with
  | redis_auth_check _ d => [RString (ac_chid d)]
  | redis_find_backup _ d => [RString (ci_chid d)]
  end.

Definition head_owns (ch : chanhead) : list resource :=
  opt (if ch_slot ch =? ch_owner ch then ROwn else RShared) (ch_shared ch).

Section ledger.
Context {S : Type}.
Notation sys := (sys S).
Notation M := (M S).

Definition live (s : sys) (r : resource) : Z :=
  match r with
  | RString p => at_key (fun _ => 1) (strings s) p
  | RInfo p => at_key (fun _ => 1) (infos s) p
  | RMessage p => at_key (fun m => s64 (refcount m)) (messages s) p
  | RShared p => at_key outside_refcount (shareds s) p
  | ROwn p => at_key (fun _ => 1) (shareds s) p
  | RHead w h => at_key ch_reserved (heads s) (w, h)
  | RSub w p => at_key (fun b => match isub_privdata b with memstore_ipc _ => isub_reserved b | _ => 0 end) (subs s) (w, p)
  end.

Definition held (s : sys) (r : resource) : Z :=
  cnt r (wire s ≫= owns) + msum (fun b => cnt r (sub_owns b)) (subs s)
  + msum (fun c => cnt r (deferred_owns c)) (deferred s) + msum (fun ch => cnt r (head_owns ch)) (heads s).

Definition slack (s : sys) (r : resource) : Z := live s r - held s r.

(** [hand]: what the running routine has to give back itself. *)
Definition covers (s : sys) (hand : list resource) : Prop := forall r, cnt r hand <= slack s r.

(** Strings and channel informations are counted to the last one, as long as no
    request of another worker waits in a channel. *)
Definition exact (r : resource) : Prop := match r with RString _ | RInfo _ => True | _ => False end.
Definition plain (s : sys) : Prop :=
  forall k b, subs s !! k = Some b -> proxy_strings b = [].

(** What is shared between workers is never gone through after it is freed. *)
Definition guarded (r : resource) : Prop :=
  match r with RString _ | RInfo _ | RMessage _ | RShared _ => True | _ => False end.

(** A head of its owner has the shared counters. *)
Definition own_counted (s : sys) : Prop :=
  forall k ch, heads s !! k = Some ch -> ch_slot ch = ch_owner ch -> is_Some (ch_shared ch).

Definition good (x : bool) (s : sys) : Prop := (x = true -> plain s) /\ own_counted s.

Definition moves (x : bool) (s : sys) (c : list resource) (s' : sys) (c' : list resource) : Prop :=
  (forall r, slack s r - cnt r c <= slack s' r - cnt r c') /\
  (x = true -> forall r, exact r -> slack s r - cnt r c = slack s' r - cnt r c') /\
  good x s'.

(** [x]: to the last one. *)
Definition tri {A} (x : bool) (c : list resource) (s : sys) (m : M A) (c' : A -> list resource) : Prop :=
  covers s c -> good x s ->
  match m s with
  | Ok (s', a) => moves x s c s' (c' a)
  | Freed r => ~ guarded r
  | _ => True
  end.

(** A routine that leaves the ledger as it is. *)
Definition conserves {A} (m : M A) : Prop := forall x s, tri x [] s m (fun _ => []).
End ledger.

(** ** Laws of the rest of a worker *)

Class StoreEnvLaws (S : Type) `{StoreEnv S} := {
  start_spooler_law w h : conserves (start_spooler w h);
  (** a waiting request is the pool's once it has been taken *)
  spooler_add_law w h p x s c :
    match subs s !! (w, p) with Some b => isub_enqueued b = false /\ proxy_strings b = c | None => c = [] end ->
    tri x c s (spooler_add w h p) (fun rc => if rc =? NGX_OK then [] else c);
  spooler_respond_message_law w h m x s :
    is_Some (messages s !! m) -> tri x [] s (spooler_respond_message w h m) (fun _ => []);
  spooler_broadcast_status_law w h code line : conserves (spooler_broadcast_status w h code line);
  spooler_broadcast_notice_law w h code data : conserves (spooler_broadcast_notice w h code data);
  spooler_status_change_law w h : conserves (spooler_status_change w h);
  spooler_dequeued_law w p : conserves (spooler_dequeued w p);
  chanhead_reaper_add_law w h : conserves (chanhead_reaper_add w h);
  chanhead_reaper_withdraw_law w h : conserves (chanhead_reaper_withdraw w h);
  chanhead_churner_reaper_add_law w h : conserves (chanhead_churner_reaper_add w h);
  chanhead_churner_reaper_withdraw_law w h : conserves (chanhead_churner_reaper_withdraw w h);
  multi_subscriber_create_law w h i : conserves (multi_subscriber_create w h i);
  find_next_message_law w h i : conserves (find_next_message w h i);
  find_next_message_live w h i s s' p st :
    find_next_message w h i s = Ok (s', (Some p, st)) -> is_Some (messages s' !! p);
  delete_messages_law w h : conserves (delete_messages w h);
  buffer_message_law w h m cf : conserves (buffer_message w h m cf);
  buffer_message_live w h m cf s s' p :
    buffer_message w h m cf s = Ok (s', inr p) -> is_Some (messages s' !! p);
  create_shm_msg_of_law w m : conserves (create_shm_msg_of w m);
  create_shm_msg_of_live w m s s' p : create_shm_msg_of w m s = Ok (s', Some p) -> is_Some (messages s' !! p);
  group_enter_law w h name : conserves (group_enter w h name);
  group_owner_find_law w name : conserves (group_owner_find w name);
  group_receive_law w g : conserves (group_receive w g);
  group_receive_delete_law w g : conserves (group_receive_delete w g);
  redis_subscribe_law w h : conserves (redis_subscribe w h);
  redis_publish_law w h m : conserves (redis_publish w h m);
  redis_command_law w id cb : conserves (redis_command w id cb);
  client_call_law w n code ch : conserves (client_call w n code ch);
  getmsg_call_law w n code msg : conserves (getmsg_call w n code msg);
  other_alert_law w sender code : conserves (other_alert w sender code);
}.
