(* ===== verification/IpcLedgerFacts.v ===== *)
(** * Reasoning with the ledger

    Rules for triples, and the triples of the primitive operations. *)

From S2P Require Import Prelude Nginx MsgId Msg ChannelId ChanHead Worker IpcSend InternalSub ChanReady ChanRequest.
From S2P Require Import IpcHandlers IpcLedger.

(** ** Counting *)

Lemma ind_refl r : ind r r = 1.
Proof. unfold ind. by destruct (decide _). Qed.
Lemma ind_ne r r' : r <> r' -> ind r r' = 0.
Proof. intros N. unfold ind. by destruct (decide _). Qed.
Lemma ind_pos r r' : 0 <= ind r r'.
Proof. unfold ind. destruct (decide _); lia. Qed.

Lemma cnt_app r l k : cnt r (l ++ k) = cnt r l + cnt r k.
Proof. induction l as [|a l IH]; simpl; lia. Qed.
Lemma cnt_pos r l : 0 <= cnt r l.
Proof. induction l as [|a l IH]; simpl; [lia|]. pose proof (ind_pos a r). lia. Qed.
Lemma cnt_elem r l : r ∈ l -> 1 <= cnt r l.
Proof.
  induction l as [|a l IH]; simpl; [by intros ?%not_elem_of_nil|]. intros [->|E]%elem_of_cons.
  - rewrite ind_refl. pose proof (cnt_pos a l). lia.
  - pose proof (ind_pos a r). specialize (IH E). lia.
Qed.
Lemma cnt_not_elem r l : r ∉ l -> cnt r l = 0.
Proof. induction l as [|a l IH]; simpl; [done|]. intros [? ?]%not_elem_of_cons. rewrite ind_ne, IH; auto. Qed.

Section msum.
Context {K A : Type} `{Countable K} (f : A -> Z).
Implicit Types (m : gmap K A) (k : K) (a : A).

Lemma msum_empty : msum f (∅ : gmap K A) = 0.
Proof. apply map_fold_empty. Qed.
Lemma msum_insert_new m k a : m !! k = None -> msum f (<[k := a]> m) = f a + msum f m.
Proof.
  intros N. unfold msum. rewrite (map_fold_insert_L (fun _ a n => f a + n)); [done| |done]. intros; lia.
Qed.
Lemma msum_delete m k : msum f (delete k m) = msum f m - at_key f m k.
Proof.
  unfold at_key. destruct (m !! k) as [a|] eqn:E; [|rewrite delete_id by done; lia].
  rewrite <- (insert_delete_id m k a E) at 2. rewrite msum_insert_new by apply lookup_delete_eq. lia.
Qed.
Lemma msum_insert m k a : msum f (<[k := a]> m) = msum f m - at_key f m k + f a.
Proof.
  rewrite <- insert_delete_eq, msum_insert_new by apply lookup_delete_eq. rewrite msum_delete. lia.
Qed.
Lemma msum_pos m : (forall k a, m !! k = Some a -> 0 <= f a) -> 0 <= msum f m.
Proof.
  induction m as [|k a m N IH] using map_ind; intros P; [by rewrite msum_empty|].
  rewrite msum_insert_new by done. pose proof (P k a (lookup_insert_eq _ _ _)).
  enough (0 <= msum f m) by lia. apply IH. intros k' a' E. apply (P k'). rewrite lookup_insert_ne; [done|congruence].
Qed.
Lemma at_key_insert m k a : at_key f (<[k := a]> m) k = f a.
Proof. unfold at_key. by rewrite lookup_insert_eq. Qed.
Lemma at_key_insert_ne m k k' a : k <> k' -> at_key f (<[k := a]> m) k' = at_key f m k'.
Proof. intros. unfold at_key. by rewrite lookup_insert_ne. Qed.
Lemma at_key_delete m k : at_key f (delete k m) k = 0.
Proof. unfold at_key. by rewrite lookup_delete_eq. Qed.
Lemma at_key_delete_ne m k k' : k <> k' -> at_key f (delete k m) k' = at_key f m k'.
Proof. intros. unfold at_key. by rewrite lookup_delete_ne. Qed.
Lemma at_key_none m k : m !! k = None -> at_key f m k = 0.
Proof. intros E. unfold at_key. by rewrite E. Qed.
Lemma at_key_some m k a : m !! k = Some a -> at_key f m k = f a.
Proof. intros E. unfold at_key. by rewrite E. Qed.
Lemma at_key_le_msum m k : (forall k a, m !! k = Some a -> 0 <= f a) -> at_key f m k <= msum f m.
Proof.
  intros P. enough (0 <= msum f (delete k m)) by (rewrite msum_delete in *; lia).
  apply msum_pos. intros k' a [_ E]%lookup_delete_Some. eauto.
Qed.
End msum.

Lemma fresh_in_None {A} (m : gmap (Z * positive) A) w : m !! (w, fresh_in m) = None.
Proof.
  apply not_elem_of_dom. intros E. eapply (is_fresh (set_map snd (dom m) : gset positive)).
  apply elem_of_map. by exists (w, fresh_in m).
Qed.
Lemma fresh_None {A} (m : gmap positive A) : m !! fresh (dom m) = None.
Proof. apply not_elem_of_dom, is_fresh. Qed.

Section rules.
Context {S : Type}.
Notation sys := (sys S).
Notation M := (M S).
Implicit Types (s : sys).

Lemma held_pos s r : 0 <= held s r.
Proof.
  unfold held. pose proof (cnt_pos r (wire s ≫= owns)).
  enough (forall K A (H1 : EqDecision K) (H2 : @Countable K H1) (g : A -> list resource) (m : gmap K A),
    0 <= msum (fun a => cnt r (g a)) m) as P by
    (pose proof (P _ _ _ _ sub_owns (subs s)); pose proof (P _ _ _ _ deferred_owns (deferred s));
     pose proof (P _ _ _ _ head_owns (heads s)); lia).
  intros. apply msum_pos. intros. apply cnt_pos.
Qed.

Lemma covers_live s c r : covers s c -> r ∈ c -> 1 <= live s r.
Proof. intros C E%cnt_elem. specialize (C r). pose proof (held_pos s r). unfold slack in C. lia. Qed.

Lemma covers_live_ge s c r : covers s c -> cnt r c <= live s r.
Proof. intros C. specialize (C r). pose proof (held_pos s r). unfold slack in C. lia. Qed.

Lemma at_key_is_Some {K A} `{Countable K} (f : A -> Z) (m : gmap K A) k : 1 <= at_key f m k -> is_Some (m !! k).
Proof. unfold at_key. destruct (m !! k); [eauto|lia]. Qed.

Lemma covers_string s c p : covers s c -> RString p ∈ c -> is_Some (strings s !! p).
Proof. intros C E. eapply at_key_is_Some, (covers_live s c (RString p) C E). Qed.
Lemma covers_info s c p : covers s c -> RInfo p ∈ c -> is_Some (infos s !! p).
Proof. intros C E. eapply at_key_is_Some, (covers_live s c (RInfo p) C E). Qed.
Lemma covers_message s c p : covers s c -> RMessage p ∈ c -> is_Some (messages s !! p).
Proof. intros C E. eapply at_key_is_Some, (covers_live s c (RMessage p) C E). Qed.
Lemma covers_shared s c p : covers s c -> RShared p ∈ c -> is_Some (shareds s !! p).
Proof. intros C E. eapply at_key_is_Some, (covers_live s c (RShared p) C E). Qed.
Lemma covers_head s c w h : covers s c -> RHead w h ∈ c -> is_Some (heads s !! (w, h)).
Proof. intros C E. eapply at_key_is_Some, (covers_live s c (RHead w h) C E). Qed.
Lemma covers_sub s c w p : covers s c -> RSub w p ∈ c ->
  exists b d, subs s !! (w, p) = Some b /\ isub_privdata b = memstore_ipc d /\ 1 <= isub_reserved b.
Proof.
  intros C E. pose proof (covers_live s c (RSub w p) C E) as L. simpl in L. unfold at_key in L.
  destruct (subs s !! (w, p)) as [b|] eqn:Eb; [|lia]. destruct (isub_privdata b) eqn:Ed; [|lia]. eauto.
Qed.

(** The counters that a head points to are there. *)
Lemma covers_head_shared s c k ch p :
  covers s c -> heads s !! k = Some ch -> ch_shared ch = Some p -> is_Some (shareds s !! p).
Proof.
  intros C E Ep. set (r := if ch_slot ch =? ch_owner ch then ROwn p else RShared p).
  assert (1 <= live s r) as L.
  { specialize (C r). pose proof (cnt_pos r c). unfold slack in C.
    enough (1 <= held s r) by lia. unfold held.
    pose proof (cnt_pos r (wire s ≫= owns)).
    assert (0 <= msum (fun b => cnt r (sub_owns b)) (subs s)) by (apply msum_pos; intros; apply cnt_pos).
    assert (0 <= msum (fun q => cnt r (deferred_owns q)) (deferred s)) by (apply msum_pos; intros; apply cnt_pos).
    pose proof (at_key_le_msum (fun ch => cnt r (head_owns ch)) (heads s) k ltac:(intros; apply cnt_pos)) as L.
    rewrite (at_key_some _ _ _ _ E) in L. enough (1 <= cnt r (head_owns ch)) by lia.
    unfold head_owns. rewrite Ep. simpl. unfold r. destruct (ch_slot ch =? ch_owner ch); rewrite ind_refl; lia. }
  unfold r in L. destruct (ch_slot ch =? ch_owner ch); by apply at_key_is_Some in L.
Qed.

(** ** Rules *)

Lemma ledger_moves_refl x s c : good x s -> moves x s c s c.
Proof. intros P. split; [intros; lia|]. split; [intros; lia|done]. Qed.

Lemma tri_ret {A} x c s (a : A) c' : c' a = c -> tri x c s (mret a : M A) c'.
Proof. intros E C P. simpl. rewrite E. by apply ledger_moves_refl. Qed.

Lemma tri_stop {A} x c s (r : result A) c' :
  (forall a, r <> Ok a) -> (forall q, r = Freed q -> ~ guarded q) -> tri x c s (stop r) c'.
Proof. intros N F C P. unfold stop. destruct r; [by destruct (N a)|done| |done]. by apply F. Qed.

Lemma ledger_moves_trans x s c s1 c1 s2 c2 : moves x s c s1 c1 -> moves x s1 c1 s2 c2 -> moves x s c s2 c2.
Proof.
  intros (A & X & _) (B & Y & G). split; [intros r; specialize (A r); specialize (B r); lia|]. split; [|done].
  intros E r Er. by rewrite X, Y.
Qed.

Lemma moves_covers x s c s' c' : moves x s c s' c' -> covers s c -> covers s' c'.
Proof. intros [A _] C r. specialize (A r). specialize (C r). lia. Qed.

Lemma tri_bind {A B} x c s (m : M A) (f : A -> M B) c1 c2 :
  tri x c s m c1 ->
  (forall s' a, m s = Ok (s', a) -> covers s' (c1 a) -> good x s' -> tri x (c1 a) s' (f a) c2) ->
  tri x c s (m ≫= f) c2.
Proof.
  intros T F C P. unfold mbind, M_bind. specialize (T C P). destruct (m s) as [[s' a]| |q|] eqn:E; try done.
  pose proof (moves_covers _ _ _ _ _ T C) as C'.
  assert (good x s') as P' by apply T.
  specialize (F s' a eq_refl C' P' C' P'). destruct (f a s') as [[s2 b]| |q|]; try done.
  by eapply ledger_moves_trans.
Qed.

Lemma tri_ext {A} x c s (m m' : M A) c' : m s = m' s -> tri x c s m' c' -> tri x c s m c'.
Proof. intros E T. unfold tri. by rewrite E. Qed.
Lemma tri_assoc {A B C} x c s (m : M A) (f : A -> M B) (g : B -> M C) c' :
  tri x c s (m ≫= (fun a => f a ≫= g)) c' -> tri x c s ((m ≫= f) ≫= g) c'.
Proof. apply tri_ext. unfold mbind, M_bind. by destruct (m s) as [[s' a]| |r|]. Qed.

(** What the continuation needs of the state. *)
Lemma tri_intro {A} x c s (m : M A) c' :
  (covers s c -> good x s -> tri x c s m c') -> tri x c s m c'.
Proof. intros T C P. by apply T. Qed.

Lemma tri_frame {A} x c f s (m : M A) c' : tri x c s m c' -> tri x (c ++ f) s m (fun a => c' a ++ f).
Proof.
  intros T C P.
  assert (covers s c) as C' by (intros r; specialize (C r); rewrite cnt_app in C; pose proof (cnt_pos r f); lia).
  specialize (T C' P). destruct (m s) as [[s' a]| |q|]; try done.
  destruct T as (X & Y & G). split; [intros r; specialize (X r); rewrite !cnt_app; lia|]. split; [|done].
  intros E r Er. specialize (Y E r Er). rewrite !cnt_app. lia.
Qed.

(** Hands are compared by what they count; what is not exact may be dropped. *)
Definition hand_le (x : bool) (c c' : list resource) : Prop :=
  forall r, cnt r c' <= cnt r c /\ (x = true -> exact r -> cnt r c' = cnt r c).

Lemma tri_conseq {A} x c s (m : M A) c' d d' :
  tri x c s m c' -> hand_le x d c -> (forall a, hand_le x (c' a) (d' a)) ->
  tri x d s m d'.
Proof.
  intros T L L' C P.
  assert (covers s c) as C' by (intros r; specialize (C r); destruct (L r); lia).
  specialize (T C' P). destruct (m s) as [[s' a]| |q|]; try done.
  destruct T as (X & Y & G). split; [|split; [|done]].
  - intros r. specialize (X r). destruct (L r), (L' a r). lia.
  - intros E r Er. specialize (Y E r Er).
    destruct (L r) as [_ L1], (L' a r) as [_ L2]. rewrite (L2 E Er), <- (L1 E Er). done.
Qed.

Lemma hand_le_refl x c : hand_le x c c.
Proof. by intros r. Qed.

Lemma tri_drop {A} c d s (m : M A) c' : tri false c s m c' -> (forall r, cnt r c <= cnt r d) -> tri false d s m c'.
Proof. intros T L. eapply tri_conseq; [exact T|intros r; split; [auto|done]|intros a; apply hand_le_refl]. Qed.

Lemma conserves_tri {A} x c s (m : M A) : tri x [] s m (fun _ => []) -> tri x c s m (fun _ => c).
Proof. intros T. apply (tri_frame x [] c) in T. exact T. Qed.

Lemma tri_conserve {A B} x c s (m : M A) (f : A -> M B) c2 :
  tri x [] s m (fun _ => []) ->
  (forall s' a, m s = Ok (s', a) -> covers s' c -> good x s' -> tri x c s' (f a) c2) ->
  tri x c s (m ≫= f) c2.
Proof. intros T F. eapply tri_bind; [by apply conserves_tri|]. intros s' a E C P. by apply F. Qed.

Lemma conserves_ret {A} (a : A) : conserves (mret a : M A).
Proof. intros x s. by apply tri_ret. Qed.
Lemma conserves_bind {A B} (m : M A) (f : A -> M B) :
  conserves m -> (forall a, conserves (f a)) -> conserves (m ≫= f).
Proof. intros T F x s. eapply tri_bind; [apply T|]. intros. apply F. Qed.
Lemma conserves_stop {A} (r : result A) : (forall q, r = Freed q -> ~ guarded q) -> conserves (stop r : M A).
Proof. intros F x s. destruct r; [by apply (conserves_ret a)|done| |done]. intros _ _. simpl. by apply F. Qed.
Lemma conserves_assert b : conserves (assert b : M unit).
Proof. unfold assert. destruct b; [apply conserves_ret|by apply conserves_stop]. Qed.
Lemma conserves_not_null {A} (p : option A) : conserves (not_null p : M A).
Proof. destruct p; [apply conserves_ret|by apply conserves_stop]. Qed.
Lemma conserves_gets {A} (f : sys -> A) : conserves (gets f : M A).
Proof. intros x s C P. simpl. by apply ledger_moves_refl. Qed.
Lemma conserves_counted b z n : conserves (counted b z n : M Z).
Proof. unfold counted. case_bool_decide; [apply conserves_ret|by apply conserves_stop]. Qed.
Lemma conserves_outcome {A} (m : outcome A) : conserves (stop (of_outcome m) : M A).
Proof. apply conserves_stop. by destruct m. Qed.
Lemma conserves_access {A} r (f : sys -> option A) : ~ guarded r -> conserves (access r f : M A).
Proof. intros G x s C P. unfold access. destruct (f s); [by apply ledger_moves_refl|done]. Qed.
Lemma conserves_head_at w h : conserves (head_at w h : M chanhead).
Proof. by apply conserves_access; intros []. Qed.
Lemma conserves_sub_at w h : conserves (sub_at w h : M internal_subscriber_t).
Proof. by apply conserves_access; intros []. Qed.

(** Reads of what is there. *)
Lemma tri_access {A} x c s r (f : sys -> option A) : (guarded r -> is_Some (f s)) -> tri x c s (access r f) (fun _ => c).
Proof. intros G C P. unfold access. destruct (f s); [by apply ledger_moves_refl|]. intros Gr. by destruct (G Gr). Qed.

Lemma bind_Ok {A B} (m : M A) (f : A -> M B) s s' b :
  (m ≫= f) s = Ok (s', b) -> exists s1 a, m s = Ok (s1, a) /\ f a s1 = Ok (s', b).
Proof. unfold mbind, M_bind. destruct (m s) as [[s1 a]| |r|]; [eauto|done..]. Qed.

(** Routines that only look. *)
Lemma gets_Ok {A} (f : sys -> A) s s' a : gets f s = Ok (s', a) -> s' = s /\ a = f s.
Proof. by intros [= <- <-]. Qed.
Lemma assert_Ok b s s' u : assert b s = Ok (s', u) -> s' = s /\ b = true.
Proof. unfold assert. destruct b; [|done]. by intros [= <- _]. Qed.
Lemma not_null_Ok {A} (p : option A) s s' a : not_null p s = Ok (s', a) -> s' = s /\ p = Some a.
Proof. unfold not_null. destruct p; [|done]. by intros [= <- <-]. Qed.
Lemma outcome_Ok {A} (m : outcome A) s s' a : stop (of_outcome m) s = Ok (s', a) -> s' = s /\ m = Ret a.
Proof. destruct m; [|done..]. by intros [= <- <-]. Qed.

Lemma counted_Ok b z n s s' y : counted b z n s = Ok (s', y) -> s' = s /\ y = z + n.
Proof. unfold counted. case_bool_decide; [|done]. by intros [= <- <-]. Qed.
Lemma head_at_Ok w h s s' ch : head_at w h s = Ok (s', ch) -> s' = s /\ heads s !! (w, h) = Some ch.
Proof. unfold head_at, access. destruct (heads s !! (w, h)); [|done]. by intros [= <- <-]. Qed.
Lemma shared_at_Ok p s s' sh : shared_at p s = Ok (s', sh) -> s' = s /\ shareds s !! p = Some sh.
Proof. unfold shared_at, access. destruct (shareds s !! p); [|done]. by intros [= <- <-]. Qed.

(** ** The updates of the state *)

Lemma at_key_insert_any {K A} `{Countable K} (f : A -> Z) (m : gmap K A) k k' a :
  at_key f (<[k := a]> m) k' = at_key f m k' + (if decide (k = k') then f a - at_key f m k else 0).
Proof. destruct (decide (k = k')) as [->|N]; [rewrite at_key_insert; lia|rewrite at_key_insert_ne by done; lia]. Qed.
Lemma at_key_delete_any {K A} `{Countable K} (f : A -> Z) (m : gmap K A) k k' :
  at_key f (delete k m) k' = at_key f m k' - (if decide (k = k') then at_key f m k else 0).
Proof. destruct (decide (k = k')) as [->|N]; [rewrite at_key_delete; lia|rewrite at_key_delete_ne by done; lia]. Qed.

Lemma ind_mult r r' n : ind r r' * n = if decide (r = r') then n else 0.
Proof. unfold ind. destruct (decide _); lia. Qed.

Ltac ledger :=
  intros; unfold slack, live, held; simpl;
  rewrite ?msum_insert, ?msum_delete, ?at_key_insert_any, ?at_key_delete_any, ?bind_app, ?cnt_app; simpl;
  rewrite ?ind_mult;
  repeat match goal with
  | |- context [decide (?a = ?b)] => destruct (decide (a = b)); simplify_eq
  end; try lia.

Lemma slack_put_head s w h ch r :
  slack (set_heads s (<[(w, h) := ch]> (heads s))) r =
  slack s r + ind (RHead w h) r * (ch_reserved ch - at_key ch_reserved (heads s) (w, h))
  - cnt r (head_owns ch) + at_key (fun ch => cnt r (head_owns ch)) (heads s) (w, h).
Proof. destruct r; ledger. Qed.

Definition sub_reserved_live (b : internal_subscriber_t) : Z :=
  match isub_privdata b with memstore_ipc _ => isub_reserved b | _ => 0 end.

Lemma slack_put_sub s w p b r :
  slack (set_subs s (<[(w, p) := b]> (subs s))) r =
  slack s r + ind (RSub w p) r * (sub_reserved_live b - at_key sub_reserved_live (subs s) (w, p))
  - cnt r (sub_owns b) + at_key (fun b => cnt r (sub_owns b)) (subs s) (w, p).
Proof. destruct r; unfold sub_reserved_live; ledger. Qed.
Lemma slack_free_sub s w p r :
  slack (set_subs s (delete (w, p) (subs s))) r =
  slack s r - ind (RSub w p) r * at_key sub_reserved_live (subs s) (w, p)
  + at_key (fun b => cnt r (sub_owns b)) (subs s) (w, p).
Proof. destruct r; unfold sub_reserved_live; ledger. Qed.

Lemma slack_put_deferred s k c r :
  slack (set_deferred s (<[k := c]> (deferred s))) r =
  slack s r - cnt r (deferred_owns c) + at_key (fun c => cnt r (deferred_owns c)) (deferred s) k.
Proof. destruct r; ledger. Qed.
Lemma slack_drop_deferred s k r :
  slack (set_deferred s (delete k (deferred s))) r =
  slack s r + at_key (fun c => cnt r (deferred_owns c)) (deferred s) k.
Proof. destruct r; ledger. Qed.

Lemma slack_put_string s p b r :
  slack (set_strings s (<[p := b]> (strings s))) r =
  slack s r + ind (RString p) r * (1 - at_key (fun _ => 1) (strings s) p).
Proof. destruct r; ledger. Qed.
Lemma slack_drop_string s p r :
  slack (set_strings s (delete p (strings s))) r = slack s r - ind (RString p) r * at_key (fun _ => 1) (strings s) p.
Proof. destruct r; ledger. Qed.
Lemma slack_put_info s p i r :
  slack (set_infos s (<[p := i]> (infos s))) r =
  slack s r + ind (RInfo p) r * (1 - at_key (fun _ => 1) (infos s) p).
Proof. destruct r; ledger. Qed.
Lemma slack_drop_info s p r :
  slack (set_infos s (delete p (infos s))) r = slack s r - ind (RInfo p) r * at_key (fun _ => 1) (infos s) p.
Proof. destruct r; ledger. Qed.

Lemma slack_put_message s p m r :
  slack (set_messages s (<[p := m]> (messages s))) r =
  slack s r + ind (RMessage p) r * (s64 (refcount m) - at_key (fun m => s64 (refcount m)) (messages s) p).
Proof. destruct r; ledger. Qed.

Lemma slack_put_shared s p sh r :
  slack (set_shareds s (<[p := sh]> (shareds s))) r =
  slack s r + ind (RShared p) r * (outside_refcount sh - at_key outside_refcount (shareds s) p)
  + ind (ROwn p) r * (1 - at_key (fun _ => 1) (shareds s) p).
Proof. destruct r; ledger. Qed.

Lemma slack_drop_head s w h r :
  slack (set_heads s (delete (w, h) (heads s))) r =
  slack s r - ind (RHead w h) r * at_key ch_reserved (heads s) (w, h)
  + at_key (fun ch => cnt r (head_owns ch)) (heads s) (w, h).
Proof. destruct r; ledger. Qed.
Lemma slack_drop_shared s p r :
  slack (set_shareds s (delete p (shareds s))) r =
  slack s r - ind (RShared p) r * at_key outside_refcount (shareds s) p
  - ind (ROwn p) r * at_key (fun _ => 1) (shareds s) p.
Proof. destruct r; ledger. Qed.

Lemma slack_send s l r : slack (set_wire s (wire s ++ l)) r = slack s r - cnt r (l ≫= owns).
Proof. destruct r; ledger. Qed.
Lemma slack_receive s l pk l' r :
  wire s = l ++ pk :: l' -> slack (set_wire s (l ++ l')) r = slack s r + cnt r (owns pk).
Proof. intros E. unfold slack, live, held; simpl. rewrite E, !bind_app, bind_cons, !cnt_app. destruct r; simpl; lia. Qed.
End rules.
