(* ===== verification/IpcLedgerOps.v ===== *)
(** * The ledger of the primitive operations, of sending and of subscribers *)

From S2P Require Import Prelude Nginx MsgId Msg ChannelId ChanHead Worker IpcSend InternalSub ChanReady ChanRequest.
From S2P Require Import IpcHandlers IpcLedger IpcLedgerFacts.

Create HintDb ledger.
#[export] Hint Resolve conserves_ret conserves_assert conserves_not_null conserves_gets conserves_counted
  conserves_outcome conserves_head_at conserves_sub_at : ledger.
#[export] Hint Extern 1 (~ guarded _) => (intros []) : ledger.

(** Hands that count the same. *)
Ltac hands := let r := fresh "r" in intros; try intros r; simpl; rewrite ?cnt_app; simpl; rewrite ?cnt_app; simpl;
  first [split; intros; lia | lia].

(** Routines made of conserving ones. *)
Ltac conserve :=
  repeat first
    [ solve [auto with ledger]
    | match goal with
      | |- conserves (_ ≫= _) => apply conserves_bind; [|intros]
      | |- conserves (if ?b then _ else _) => destruct b
      | |- conserves (match ?o with _ => _ end) => destruct o
      | |- conserves (let '_ := ?o in _) => destruct o
      end
    | progress cbv zeta ].

(** The same, in a state. *)
Ltac conserving := let T := fresh in
  match goal with |- tri _ _ _ ?m _ => assert (conserves m) as T by conserve; apply T end.

Section ops.
Context {S : Type}.
Notation sys := (sys S).
Notation M := (M S).
Implicit Types (s : sys).

Lemma tri_modify x c c' s (f : sys -> sys) :
  (forall r, slack s r - cnt r c <= slack (f s) r - cnt r c') ->
  (x = true -> forall r, exact r -> slack s r - cnt r c = slack (f s) r - cnt r c') ->
  (good x s -> good x (f s)) ->
  tri x c s (modify f) (fun _ => c').
Proof. intros A B C _ P. simpl. split; [exact A|]. split; auto. Qed.

Lemma conserves_modify (f : sys -> sys) :
  (forall s r, slack (f s) r = slack s r) -> (forall s, subs (f s) = subs s /\ heads (f s) = heads s) ->
  conserves (modify f).
Proof.
  intros E Es x s. apply tri_modify.
  - intros r. rewrite E. lia.
  - intros _ r _. rewrite E. lia.
  - destruct (Es s) as [E1 E2]. unfold good, plain, own_counted. by rewrite E1, E2.
Qed.

(** ** Heads *)

(** The same reservations and the same shared counters. *)
Definition same_head (ch' ch : chanhead) : Prop :=
  ch_reserved ch' = ch_reserved ch /\ ch_shared ch' = ch_shared ch /\ ch_slot ch' = ch_slot ch /\ ch_owner ch' = ch_owner ch.
Definition head_frame (f : chanhead -> chanhead) : Prop := forall ch, same_head (f ch) ch.

Lemma good_put_head x s w h ch :
  (ch_slot ch = ch_owner ch -> is_Some (ch_shared ch)) -> good x s -> good x (set_heads s (<[(w, h) := ch]> (heads s))).
Proof.
  intros I [P O]. split; [exact P|]. intros k ch'. simpl. destruct (decide (k = (w, h))) as [->|N].
  - rewrite lookup_insert_eq. by intros [= <-].
  - rewrite lookup_insert_ne by done. apply O.
Qed.

Lemma tri_put_head x s w h ch ch' :
  heads s !! (w, h) = Some ch -> same_head ch' ch -> tri x [] s (put_head w h ch') (fun _ => []).
Proof.
  intros E (Er & Es & Esl & Eow).
  assert (head_owns ch' = head_owns ch) as Eo by (unfold head_owns; by rewrite Es, Esl, Eow).
  apply tri_modify; [intros r|intros _ r _|]; try (rewrite slack_put_head, !(at_key_some _ _ _ _ E), Er, Eo; lia).
  intros G. apply good_put_head; [|done]. rewrite Es, Esl, Eow. exact (proj2 G (w, h) ch E).
Qed.

Lemma conserves_update_head w h f : head_frame f -> conserves (update_head w h f : M unit).
Proof.
  intros F x s. unfold update_head. apply tri_conserve; [apply conserves_head_at|].
  intros s' ch E _ _. unfold head_at, access in E. destruct (heads s !! (w, h)) eqn:El; [|done]. injection E as <- <-.
  by apply (tri_put_head _ _ _ _ c).
Qed.

(** [ch ← head_at w h; put_head w h (f ch)] with more in between. *)
Lemma tri_head_at x c s w h {B} (k : chanhead -> M B) c' :
  (forall ch, heads s !! (w, h) = Some ch -> tri x c s (k ch) c') -> tri x c s (head_at w h ≫= k) c'.
Proof.
  intros T. eapply tri_bind; [apply conserves_tri, conserves_head_at|].
  intros s' ch E _ _. unfold head_at, access in E. destruct (heads s !! (w, h)) eqn:El; [|done]. injection E as <- <-.
  by apply T.
Qed.

Lemma tri_reserve x c s w h : tri x c s (memstore_chanhead_reserve w h) (fun _ => RHead w h :: c).
Proof.
  apply tri_head_at. intros ch E. unfold counted. case_bool_decide; [|by intros _ _].
  change (tri x c s (put_head w h (ch_set_reserved ch (ch_reserved ch + 1))) (fun _ => RHead w h :: c)).
  apply tri_modify; [intros r|intros _ r Ex|intros G; apply good_put_head; [exact (proj2 G (w, h) ch E)|done]];
    rewrite slack_put_head, !(at_key_some _ _ _ _ E); simpl; unfold head_owns; simpl; lia.
Qed.

Lemma tri_release x c s w h : tri x (RHead w h :: c) s (memstore_chanhead_release w h) (fun _ => c).
Proof.
  apply tri_head_at. intros ch E. unfold counted. case_bool_decide; [|by intros _ _].
  change (tri x (RHead w h :: c) s (put_head w h (ch_set_reserved ch (ch_reserved ch + -1))) (fun _ => c)).
  apply tri_modify; [intros r|intros _ r Ex|intros G; apply good_put_head; [exact (proj2 G (w, h) ch E)|done]];
    rewrite slack_put_head, !(at_key_some _ _ _ _ E); simpl; unfold head_owns; simpl; lia.
Qed.

(** A release never goes through a head that is gone. *)
Lemma release_safe s c w h r : covers s (RHead w h :: c) -> memstore_chanhead_release (S := S) w h s <> Freed r.
Proof.
  intros C. destruct (covers_head s _ w h C ltac:(by apply elem_of_cons; left)) as [ch E].
  unfold memstore_chanhead_release, head_at, access, mbind, M_bind. rewrite E. unfold counted. by case_bool_decide.
Qed.

(** ** Shared counters *)

Lemma tri_put_shared_counts x c s p sh sh' :
  shareds s !! p = Some sh -> outside_refcount sh' = outside_refcount sh -> tri x c s (put_shared p sh') (fun _ => c).
Proof.
  intros E Er. apply conserves_tri, tri_modify; [intros r|intros _ r _|done];
    rewrite slack_put_shared, !(at_key_some _ _ _ _ E), Er; lia.
Qed.

Lemma tri_shared_at x c s p {B} (k : store_channel_head_shm_t -> M B) c' :
  is_Some (shareds s !! p) ->
  (forall sh, shareds s !! p = Some sh -> tri x c s (k sh) c') -> tri x c s (shared_at p ≫= k) c'.
Proof.
  intros I T. eapply tri_bind; [by apply (tri_access x c)|].
  intros s' sh E _ _. unfold shared_at, access in E. destruct (shareds s !! p) eqn:El; [|done]. injection E as <- <-. by apply T.
Qed.

Lemma tri_outside_refcount_incr x c s p :
  is_Some (shareds s !! p) -> tri x c s (outside_refcount_add p 1) (fun _ => RShared p :: c).
Proof.
  intros I. apply tri_shared_at; [done|]. intros sh E. unfold counted. case_bool_decide; [|by intros _ _].
  match goal with |- tri _ _ _ ?m _ => change m with (put_shared (S := S) p (Shared (shared_sub_count sh) (shared_internal_sub_count sh)
    (total_message_count sh) (stored_message_count sh) (last_seen sh) (outside_refcount sh + 1))) end.
  apply tri_modify; [intros r|intros _ r Ex|done]; rewrite slack_put_shared, !(at_key_some _ _ _ _ E); simpl; lia.
Qed.

Lemma tri_shared_subs_add x c s p n ni : is_Some (shareds s !! p) -> tri x c s (shared_subs_add p n ni) (fun _ => c).
Proof. intros I. apply tri_shared_at; [done|]. intros sh E. by eapply tri_put_shared_counts. Qed.

(** ** Strings *)

Lemma tri_str_at x c s p {B} (k : bytes -> M B) c' :
  RString p ∈ c -> (forall id, strings s !! p = Some id -> tri x c s (k id) c') -> tri x c s (str_at p ≫= k) c'.
Proof.
  intros I T. apply tri_intro. intros C _. eapply tri_bind.
  - apply (tri_access x c). intros _. by eapply covers_string.
  - intros s' id E _ _. unfold str_at, access in E. destruct (strings s !! p) eqn:El; [|done]. injection E as <- <-. by apply T.
Qed.

Lemma tri_str_shm_copy x c s room str : tri x c s (str_shm_copy room str) (fun o => opt RString o ++ c).
Proof.
  intros C P. unfold str_shm_copy. destruct room; simpl; [|by apply ledger_moves_refl]. split; [|split; [|exact P]].
  - intros r. rewrite slack_put_string, at_key_none by apply fresh_None. cbn [cnt]. lia.
  - intros X r _. rewrite slack_put_string, at_key_none by apply fresh_None. cbn [cnt]. lia.
Qed.

Lemma tri_str_shm_free x c s p : tri x (RString p :: c) s (str_shm_free p) (fun _ => c).
Proof.
  apply tri_str_at; [by apply elem_of_cons; left|]. intros id E.
  apply tri_modify; [intros r|intros _ r _|done]; rewrite slack_drop_string, (at_key_some _ _ _ _ E); simpl; lia.
Qed.

(** ** Messages *)

Lemma s64_pos z : 0 <= s64 (z + 1) -> s64 (z + 1) = s64 z + 1.
Proof.
  intros P. rewrite <- wraps_add in P |- *. pose proof (wraps_range 64 z ltac:(lia)) as R. revert R P.
  generalize (wraps 64 z). intros y R. unfold in_s in R. unfold wraps. simpl Z.pow in *. intros P.
  destruct (decide (y = 2 ^ 63 - 1)) as [->|]; [by vm_compute in P|]. rewrite Z.mod_small by lia. lia.
Qed.

Lemma s64_pred z : s64 z - 1 <= s64 (z - 1).
Proof.
  replace (z - 1) with (z + -1) by lia. rewrite <- (wraps_add 64 z (-1)). pose proof (wraps_range 64 z ltac:(lia)) as R. revert R.
  generalize (wraps 64 z). intros y R. unfold in_s in R. unfold wraps. simpl Z.pow in *.
  destruct (decide (y = - 2 ^ 63)) as [->|]; [by vm_compute|]. rewrite Z.mod_small by lia. lia.
Qed.

Lemma tri_message_at x c s p {B} (k : nchan_msg_t -> M B) c' :
  is_Some (messages s !! p) ->
  (forall m, messages s !! p = Some m -> tri x c s (k m) c') -> tri x c s (message_at p ≫= k) c'.
Proof.
  intros I T. eapply tri_bind; [by apply (tri_access x c)|].
  intros s' m E _ _. unfold message_at, access in E. destruct (messages s !! p) eqn:El; [|done]. injection E as <- <-. by apply T.
Qed.

Lemma s64_idem z : s64 (s64 z) = s64 z.
Proof. pose proof (wraps_add 64 z 0) as E. by rewrite !Z.add_0_r in E. Qed.

Lemma tri_msg_reserve x c s p :
  is_Some (messages s !! p) -> tri x c s (msg_reserve_shm p) (fun _ => RMessage p :: c).
Proof.
  intros I. apply tri_message_at; [done|]. intros m E C P.
  unfold gets, stop, modify, assert, mbind, M_bind. simpl. rewrite E.
  destruct (parent m); [unfold c_assert; by destruct (negb _)|].
  unfold c_assert. destruct (Z.leb_spec 0 (s64 (refcount m + 1))) as [L|L]; simpl; [|done]. apply s64_pos in L.
  split; [intros r|split; [intros X r Ex|exact P]]; rewrite slack_put_message, (at_key_some _ _ _ _ E);
    cbn [cnt refcount set_refcount]; rewrite s64_idem, L; lia.
Qed.

(** Of a message without parent. *)
Lemma msg_release_1 ms p m th ms' rc :
  ms !! p = Some m -> msg_release 1 ∅ ms p = Ret (th, ms', rc) ->
  0 < refcount m /\ ms' = <[p := set_refcount m (s64 (refcount m - 1))]> ms.
Proof.
  intros E. simpl. rewrite E. destruct (parent m).
  - intros ?. repeat (inv_outcome; case_match; simplify_eq); inv_outcome; done.
  - unfold c_assert. destruct (Z.ltb_spec 0 (refcount m)); simpl; [|done]. by intros [= <- <- <-].
Qed.

Lemma tri_msg_release x c s p : tri x (RMessage p :: c) s (msg_release_shm p) (fun _ => c).
Proof.
  apply tri_intro. intros C0 _. apply tri_message_at; [eapply covers_message; [done|by apply elem_of_cons; left]|].
  intros m E C P. unfold gets, stop, modify, mbind, M_bind.
  destruct (msg_release 1 ∅ (messages s) p) as [[[th ms'] rc]| |] eqn:Er; cbn [of_outcome]; [|done|done].
  apply (msg_release_1 _ _ _ _ _ _ E) in Er as [L ->]. pose proof (s64_pred (refcount m)).
  split; [intros r|split; [intros X r Ex|exact P]]; rewrite slack_put_message, (at_key_some _ _ _ _ E);
    cbn [cnt refcount set_refcount]; rewrite s64_idem.
  - pose proof (ind_pos (RMessage p) r). nia.
  - rewrite ind_ne by (by intros <-). lia.
Qed.

(** ** Alerts *)

Lemma tri_ipc_cmd x c s src dst a : tri x (owns (Packet src dst a) ++ c) s (ipc_cmd src dst a) (fun _ => c).
Proof.
  unfold ipc_cmd. apply (tri_bind _ _ _ _ _ (fun _ => c)); [|intros; by apply tri_ret].
  apply tri_modify; [intros r|intros _ r _|done]; rewrite slack_send, bind_cons, app_nil_r, cnt_app; lia.
Qed.

Lemma conserves_ipc_cmd src dst a : owns (Packet src dst a) = [] -> conserves (ipc_cmd src dst a : M Z).
Proof. intros E x s. pose proof (tri_ipc_cmd x [] s src dst a) as T. by rewrite E in T. Qed.

Lemma conserves_broadcast src ws a : (forall dst, owns (Packet src dst a) = []) -> conserves (ipc_broadcast_cmd src ws a : M Z).
Proof.
  intros E. apply conserves_bind; [|intros; apply conserves_ret]. apply conserves_modify; [|done].
  intros s r. rewrite slack_send.
  enough (((fun dst => Packet src dst a) <$> filter (fun dst => dst <> src) ws) ≫= owns = []) as -> by (simpl; lia).
  generalize (filter (fun dst => dst <> src) ws). intros l. induction l as [|d l IH]; [done|].
  rewrite fmap_cons, bind_cons, E. exact IH.
Qed.

(** ** Subscribers *)

Lemma tri_sub_at x c s w p {B} (k : internal_subscriber_t -> M B) c' :
  (forall b, subs s !! (w, p) = Some b -> tri x c s (k b) c') -> tri x c s (sub_at w p ≫= k) c'.
Proof.
  intros T. eapply tri_bind; [apply conserves_tri, conserves_sub_at|].
  intros s' b E _ _. unfold sub_at, access in E. destruct (subs s !! (w, p)) eqn:El; [|done]. injection E as <- <-.
  by apply T.
Qed.

(** A change of a subscriber that is in [s]. *)
Lemma tri_put_sub x c c' s w p b b' :
  subs s !! (w, p) = Some b ->
  (forall r, cnt r c' + cnt r (sub_owns b') + ind (RSub w p) r * sub_reserved_live b
             <= cnt r c + cnt r (sub_owns b) + ind (RSub w p) r * sub_reserved_live b') ->
  (x = true -> forall r, exact r -> cnt r c' + cnt r (sub_owns b') = cnt r c + cnt r (sub_owns b)) ->
  (proxy_strings b = [] -> proxy_strings b' = []) ->
  tri x c s (put_sub w p b') (fun _ => c').
Proof.
  intros E A B D. apply tri_modify.
  - intros r. rewrite slack_put_sub, !(at_key_some _ _ _ _ E). specialize (A r). lia.
  - intros X r Ex. rewrite slack_put_sub, !(at_key_some _ _ _ _ E). specialize (B X r Ex).
    rewrite ind_ne by (by intros <-). lia.
  - intros [P O]. split; [|exact O]. intros X k b0. simpl. destruct (decide (k = (w, p))) as [->|N].
    + rewrite lookup_insert_eq. intros [= <-]. apply D. by apply (P X (w, p)).
    + rewrite lookup_insert_ne by done. by apply P.
Qed.

Definition sub_frame (f : internal_subscriber_t -> internal_subscriber_t) : Prop :=
  forall b, isub_privdata (f b) = isub_privdata b /\ isub_reserved (f b) = isub_reserved b /\
            isub_enqueued (f b) = isub_enqueued b.

Lemma sub_frame_owns f b : sub_frame f ->
  sub_owns (f b) = sub_owns b /\ proxy_strings (f b) = proxy_strings b /\ sub_reserved_live (f b) = sub_reserved_live b.
Proof.
  intros F. destruct (F b) as (E1 & E2 & E3). unfold sub_owns, proxy_strings, sub_reserved_live. by rewrite E1, E2, E3.
Qed.

Lemma tri_put_sub_frame x s w p b f :
  subs s !! (w, p) = Some b -> sub_frame f -> tri x [] s (put_sub w p (f b)) (fun _ => []).
Proof.
  intros E F. destruct (sub_frame_owns f b F) as (E1 & E2 & E3).
  eapply tri_put_sub; [exact E| | |]; rewrite ?E1, ?E2, ?E3; intros; try done; lia.
Qed.

Lemma conserves_update_sub w p f : sub_frame f -> conserves (update_sub w p f : M unit).
Proof. intros F x s. apply tri_sub_at. intros b E. by apply tri_put_sub_frame. Qed.
End ops.
