(* ===== verification/IpcLedgerSubs.v ===== *)
(** * The ledger of requests and of internal subscribers *)

From S2P Require Import Prelude Nginx MsgId Msg ChannelId ChanHead Worker IpcSend InternalSub ChanReady ChanRequest.
From S2P Require Import IpcHandlers IpcLedger IpcLedgerFacts IpcLedgerOps.

Section subs.
Context {S : Type} `{StoreEnvLaws S}.
Notation sys := (sys S).
Notation M := (M S).
Implicit Types (s : sys).
Context (w : Z).

(** ** Requests *)

Lemma tri_copy_chid x c s chid : tri x c s (copy_chid chid) (fun o => opt RString o ++ c).
Proof.
  unfold copy_chid. apply tri_conserve; [apply conserves_gets|]. intros. apply tri_str_shm_copy.
Qed.

Lemma copy_chid_state s chid s' o : copy_chid chid s = Ok (s', o) ->
  messages s' = messages s /\ subs s' = subs s /\ heads s' = heads s.
Proof.
  unfold copy_chid, gets, mbind, M_bind, str_shm_copy. simpl. destruct (shm_room (env s)); by intros [= <- <-].
Qed.

(** A request that needs only its channel's id. *)
Lemma conserves_request chid (k : positive -> M Z) :
  (forall p x s, tri x [RString p] s (k p) (fun _ => [])) ->
  conserves (shm_chid ← copy_chid chid; match shm_chid with None => mret NGX_DECLINED | Some p => k p end).
Proof.
  intros T x s. eapply tri_bind; [apply tri_copy_chid|]. intros s' [p|] _ _ _; [apply T|by apply tri_ret].
Qed.

Lemma tri_cmd_ret x s dst a : tri x (owns (Packet w dst a)) s (ipc_cmd w dst a) (fun _ => []).
Proof. pose proof (tri_ipc_cmd x [] s w dst a) as T. by rewrite app_nil_r in T. Qed.

Ltac send_it := match goal with |- tri ?x _ ?s (ipc_cmd ?src ?dst ?a) _ => exact (tri_cmd_ret x s dst a) end.

Lemma conserves_send_subscribe dst chid h cf : conserves (memstore_ipc_send_subscribe w dst chid h cf).
Proof.
  apply conserves_request. intros p x s. apply tri_str_at; [by left|]. intros id _.
  apply tri_conserve; [apply conserves_assert|]. intros. send_it.
Qed.
Lemma conserves_send_unsubscribed dst chid : conserves (memstore_ipc_send_unsubscribed w dst chid).
Proof. apply conserves_request. intros. send_it. Qed.
Lemma conserves_send_status dst chid code line : conserves (memstore_ipc_send_publish_status w dst chid code line).
Proof. apply conserves_request. intros. send_it. Qed.
Lemma conserves_send_notice dst chid code data : conserves (memstore_ipc_send_publish_notice w dst chid code data).
Proof. apply conserves_request. intros. send_it. Qed.
Lemma conserves_send_get_message dst chid i n : conserves (memstore_ipc_send_get_message w dst chid i n).
Proof.
  apply conserves_request. intros p x s. apply tri_str_at; [by left|]. intros id _.
  apply tri_conserve; [apply conserves_assert|]. intros. send_it.
Qed.
Lemma conserves_send_delete dst chid n : conserves (memstore_ipc_send_delete w dst chid n).
Proof. apply conserves_request. intros. send_it. Qed.
Lemma conserves_send_info dst chid cf n : conserves (memstore_ipc_send_get_channel_info w dst chid cf n).
Proof. apply conserves_request. intros. send_it. Qed.
Lemma conserves_send_check dst chid cf n : conserves (memstore_ipc_send_channel_existence_check w dst chid cf n).
Proof. apply conserves_request. intros. send_it. Qed.
Lemma conserves_send_get_group dst id : conserves (memstore_ipc_send_get_group w dst id).
Proof.
  apply conserves_request. intros. eapply tri_bind; [send_it|]. intros. by apply tri_ret.
Qed.

Lemma tri_send_publish_message x s dst chid m cf cb :
  is_Some (messages s !! m) -> tri x [] s (memstore_ipc_send_publish_message w dst chid m cf cb) (fun _ => []).
Proof.
  intros I. apply tri_message_at; [done|]. intros mm _.
  apply tri_conserve; [apply conserves_assert|]. intros s1 [] [-> _]%assert_Ok _ _.
  eapply tri_bind; [apply tri_copy_chid|]. intros s2 [p|] E2 _ _; [|by apply tri_ret].
  apply copy_chid_state in E2 as (Em & _ & _).
  eapply tri_bind; [apply tri_msg_reserve; by rewrite Em|]. intros. send_it.
Qed.

Lemma send_publish_message_keeps s dst chid m cf cb s' rc :
  memstore_ipc_send_publish_message w dst chid m cf cb s = Ok (s', rc) -> is_Some (messages s' !! m).
Proof.
  unfold memstore_ipc_send_publish_message, message_at, access, mbind, M_bind.
  destruct (messages s !! m) as [mm|] eqn:Em; [|done]. unfold assert. case_bool_decide; [|done]. cbn [mret M_ret].
  destruct (copy_chid chid s) as [[s1 o]| | |] eqn:Ec; try done. apply copy_chid_state in Ec as (E1 & _ & _).
  destruct o as [p|]; [|intros [= <- _]; rewrite E1; eauto].
  unfold msg_reserve_shm, message_at, access, gets, mbind, M_bind. rewrite <- E1 in Em. rewrite Em. cbn [msg_reserve]. rewrite Em.
  destruct (parent mm); [unfold c_assert; by destruct (negb _)|].
  unfold c_assert. destruct (0 <=? _); simpl; [|done]. intros [= <- _]. simpl. rewrite lookup_insert_eq. eauto.
Qed.

(** ** Reservations of subscribers *)

Lemma tri_internal_reserve x c s p b d :
  subs s !! (w, p) = Some b -> isub_privdata b = memstore_ipc d ->
  tri x c s (internal_reserve w p) (fun _ => RSub w p :: c).
Proof.
  intros E Ed. apply tri_sub_at. intros b' E'. simplify_eq. unfold counted. case_bool_decide; [|by intros _ _].
  match goal with |- tri _ _ _ ?m _ => change m with (put_sub (S := S) w p (set_isub_reserved b (isub_reserved b + 1))) end.
  eapply tri_put_sub; [exact E| | |]; unfold sub_owns, proxy_strings, sub_reserved_live; simpl; rewrite Ed.
  - intros r. destruct (isub_enqueued b); simpl; lia.
  - intros _ r Ex. rewrite ind_ne by (by intros <-). destruct (isub_enqueued b); simpl; lia.
  - done.
Qed.

Lemma tri_free_sub x s p b :
  subs s !! (w, p) = Some b -> sub_reserved_live b <= 0 -> tri x [] s (free_sub w p) (fun _ => []).
Proof.
  intros E L. apply tri_intro. intros _ P. apply tri_modify.
  - intros r. rewrite slack_free_sub, !(at_key_some _ _ _ _ E). pose proof (cnt_pos r (sub_owns b)).
    pose proof (ind_pos (RSub w p) r). nia.
  - intros X r Ex. rewrite slack_free_sub, !(at_key_some _ _ _ _ E), ind_ne by (by intros <-).
    unfold sub_owns. rewrite (proj1 P X _ _ E). destruct (isub_enqueued b); simpl; lia.
  - intros [Pl O]. split; [|exact O]. intros X k b0. simpl. intros [_ E0]%lookup_delete_Some. by eapply Pl.
Qed.

(** What a release of a subscriber in hand does: it is there, and relays. *)
Lemma tri_internal_release x c s p nd : tri x (RSub w p :: c) s (internal_release w p nd) (fun _ => c).
Proof.
  apply tri_intro. intros C _. destruct (covers_sub _ _ w p C ltac:(by left)) as (b & d & E & Ed & L).
  apply tri_sub_at. intros b' E'. simplify_eq. unfold counted. case_bool_decide; [|by intros _ _].
  match goal with |- tri _ _ _ (_ ≫= ?k) _ => apply (tri_bind x _ s (mret (isub_reserved b + -1) : M Z) k (fun _ => RSub w p :: c)) end;
    [by apply tri_ret|].
  intros s1 n [= <- <-] _ _.
  eapply (tri_bind _ _ _ _ _ (fun _ => c)).
  - eapply tri_put_sub; [exact E| | |]; unfold sub_owns, proxy_strings, sub_reserved_live; simpl; rewrite Ed.
    + intros r. destruct (isub_enqueued b); simpl; lia.
    + intros _ r Ex. rewrite ind_ne by (by intros <-). destruct (isub_enqueued b); simpl; lia.
    + done.
  - intros s1 [] E1 _ _. injection E1 as <-. destruct (_ && _) eqn:Ef; [|by apply tri_ret].
    apply andb_true_iff in Ef as [_ Ez%Z.eqb_eq].
    apply tri_conserve; [|intros; by apply tri_ret].
    eapply tri_free_sub; simpl; [apply lookup_insert_eq|]. unfold sub_reserved_live. simpl. rewrite Ed. lia.
Qed.

Lemma internal_release_safe s c p nd r : covers s (RSub w p :: c) -> internal_release w p nd s <> Freed r.
Proof.
  intros C. destruct (covers_sub _ _ w p C ltac:(by left)) as (b & d & E & Ed & L).
  unfold internal_release, sub_at, access, mbind, M_bind. rewrite E. unfold counted. case_bool_decide; [|done]. simpl.
  by destruct (_ && _).
Qed.

(** ** Subscribers that relay *)

Lemma conserves_timer p on : conserves (set_keepalive_timer (S := S) w p on).
Proof. by apply conserves_modify. Qed.
Lemma conserves_ipc_data b : conserves (ipc_data_of b : M ipc_sub_data).
Proof. unfold ipc_data_of. destruct (isub_privdata b); [apply conserves_ret|by apply conserves_stop]. Qed.

Lemma conserves_tell d (send : Z -> bytes -> M Z) :
  (forall dst id, conserves (send dst id)) -> conserves (tell_originator w d send).
Proof.
  intros T. unfold tell_originator. destruct (is_unhooked d); [apply conserves_ret|].
  apply conserves_bind; [apply conserves_head_at|]. intros. apply conserves_bind; [apply T|]. intros. apply conserves_ret.
Qed.

Lemma sub_frame_await : sub_frame (fun b => if 0 <? isub_reserved b then set_isub_awaiting_destruction b true else b).
Proof. intros b. by destruct (0 <? isub_reserved b). Qed.
Lemma sub_frame_timeout : sub_frame (fun b => if has_timeout b then set_isub_timeout_set b true else b).
Proof. intros b. by destruct (has_timeout b). Qed.

Lemma conserves_ipc_sub_dequeue p d : conserves (ipc_sub_dequeue w p d).
Proof.
  apply conserves_bind; [apply conserves_timer|]. intros _. apply conserves_bind; [apply conserves_tell; intros; apply conserves_send_unsubscribed|].
  intros _. apply conserves_update_sub, sub_frame_await.
Qed.

Lemma conserves_ipc_respond_status d code line : conserves (ipc_sub_respond_status w d code line).
Proof.
  unfold ipc_sub_respond_status. destruct (_ && _); [apply conserves_ret|]. apply conserves_tell. intros. apply conserves_send_status.
Qed.
Lemma conserves_ipc_respond_notice d code data : conserves (ipc_sub_respond_notice w d code data).
Proof. apply conserves_tell. intros. apply conserves_send_notice. Qed.

Lemma tri_ipc_respond_message x s p d m :
  is_Some (messages s !! m) -> tri x [] s (ipc_sub_respond_message w p d m) (fun _ => []).
Proof.
  intros I. apply tri_sub_at. intros b _. apply tri_conserve; [apply conserves_not_null|].
  intros s1 cf [-> _]%not_null_Ok _ _.
  assert (forall A (k : unit -> M A),
    (forall s', is_Some (messages s' !! m) -> tri x [] s' (k ()) (fun _ => [])) ->
    tri x [] s (tell_originator w d (fun dst chid => memstore_ipc_send_publish_message w dst chid m cf None) ≫= k) (fun _ => [])) as T.
  { intros A k K. unfold tell_originator. destruct (is_unhooked d).
    - apply tri_conserve; [apply conserves_ret|]. intros s' [] [= <-] _ _. by apply K.
    - apply tri_conserve.
      + apply tri_head_at. intros ch _. apply tri_conserve; [by apply tri_send_publish_message|]. intros. by apply tri_ret.
      + intros s' [] E _ _. apply K. unfold head_at, access, mbind, M_bind in E.
        destruct (heads s !! _); [|done].
        destruct (memstore_ipc_send_publish_message _ _ _ _ _ _ _) as [[s1 rc]| | |] eqn:Es; try done.
        injection E as <-. by eapply send_publish_message_keeps. }
  apply T. intros s' I'. apply tri_message_at; [done|]. intros mm _.
  apply tri_conserve; [apply conserves_assert|]. intros. by apply conserves_update_sub.
Qed.

(** The timer of a subscriber: it is reserved until the reply. *)
Lemma tri_keepalive_timeout x s p : tri x [] s (keepalive_timeout w p) (fun _ => []).
Proof.
  apply tri_conserve; [apply conserves_timer|]. intros s1 [] _ _ _. apply tri_sub_at. intros b E.
  unfold ipc_data_of. destruct (isub_privdata b) as [d|] eqn:Ed; [|by intros _ _].
  apply tri_conserve; [apply conserves_ret|]. intros s2 d' [= <- <-] _ _. unfold tell_originator.
  destruct (is_unhooked d); [by apply tri_ret|]. apply tri_head_at. intros ch _.
  apply tri_conserve; [|intros; by apply tri_ret].
  eapply tri_bind; [apply tri_copy_chid|]. intros s2 [q|] E2 _ _; [|by apply tri_ret].
  apply copy_chid_state in E2 as (_ & Es & _).
  eapply tri_bind; [eapply tri_internal_reserve; [by rewrite Es|done]|]. intros.
  eapply tri_bind; [send_it|]. intros. by apply tri_ret.
Qed.

(** ** The life of a subscriber *)

Definition new_sub (cf : option ipc_conf) (pd : subscriber_privdata) : internal_subscriber_t :=
  InternalSub 0 false false false false true false false cf NCHAN_ZERO_MSGID pd.

Lemma tri_internal_subscriber_create x c s cf pd :
  (x = true -> proxy_strings (new_sub cf pd) = []) ->
  tri x c s (internal_subscriber_create_init w cf pd) (fun _ => c).
Proof.
  intros Px. apply tri_conserve; [apply conserves_gets|]. intros s1 room [-> _]%gets_Ok _ _.
  apply tri_conserve; [apply conserves_assert|]. intros s1 [] [-> _]%assert_Ok _ _.
  apply tri_conserve; [apply conserves_gets|]. intros s1 p [-> ->]%gets_Ok _ _.
  eapply (tri_bind _ _ _ _ _ (fun _ => c)); [|intros; by apply tri_ret].
  apply tri_modify.
  - intros r. rewrite slack_put_sub, !at_key_none by apply fresh_in_None.
    unfold sub_reserved_live, sub_owns. simpl. destruct pd; lia.
  - intros _ r _. rewrite slack_put_sub, !at_key_none by apply fresh_in_None.
    unfold sub_reserved_live, sub_owns. simpl. destruct pd; lia.
  - intros [P O]. split; [|exact O]. intros X k b. simpl. destruct (decide (k = (w, fresh_in (subs s)))) as [->|N].
    + rewrite lookup_insert_eq. intros [= <-]. by apply Px.
    + rewrite lookup_insert_ne by done. by apply P.
Qed.

Lemma internal_subscriber_create_new s cf pd s' p :
  internal_subscriber_create_init w cf pd s = Ok (s', p) -> subs s' !! (w, p) = Some (new_sub cf pd).
Proof.
  unfold internal_subscriber_create_init, gets, assert, mbind, M_bind. simpl.
  destruct (heap_room _ _); [|done]. intros [= <- <-]. simpl. apply lookup_insert_eq.
Qed.

Lemma update_sub_Ok s p f s' u : update_sub w p f s = Ok (s', u) ->
  exists b, subs s !! (w, p) = Some b /\ s' = set_subs s (<[(w, p) := f b]> (subs s)).
Proof.
  unfold update_sub, sub_at, access, mbind, M_bind. destruct (subs s !! (w, p)) eqn:E; [|done]. intros [= <- _]. eauto.
Qed.

(** What it has once it is made: nothing yet. *)
Lemma memstore_ipc_create_spec x c s sender h cf o :
  tri x c s (memstore_ipc_subscriber_create w sender h cf o) (fun _ => c).
Proof.
  apply tri_conserve; [apply conserves_assert|]. intros s1 [] _ _ _.
  eapply tri_bind; [by apply tri_internal_subscriber_create|]. intros s2 p E _ _.
  apply tri_conserve; [by apply conserves_update_sub|]. intros s3 [] _ _ _.
  apply tri_conserve; [apply conserves_timer|]. intros. by apply tri_ret.
Qed.
Lemma memstore_ipc_create_new s sender h cf o s' p :
  memstore_ipc_subscriber_create w sender h cf o s = Ok (s', p) ->
  exists b, subs s' !! (w, p) = Some b /\ isub_enqueued b = false /\ proxy_strings b = [].
Proof.
  intros (s0 & [] & [-> _]%assert_Ok & (s1 & q & E%internal_subscriber_create_new & (s2 & [] & Eu & E')%bind_Ok)%bind_Ok)%bind_Ok.
  apply update_sub_Ok in Eu as (b & Eb & ->). injection E' as <- <-. simpl. rewrite lookup_insert_eq. rewrite E in Eb.
  injection Eb as <-. eauto.
Qed.

Lemma getmsg_proxy_create_spec x c s i cb :
  (x = true -> proxy_strings (new_sub None (getmsg_proxy (Some cb))) = []) ->
  tri x c s (getmsg_proxy_subscriber_create w i cb) (fun _ => c).
Proof.
  intros P. eapply tri_bind; [by apply tri_internal_subscriber_create|]. intros s2 p E _ _.
  apply tri_conserve; [by apply conserves_update_sub|]. intros. by apply tri_ret.
Qed.
Lemma getmsg_proxy_create_new s i cb s' p :
  getmsg_proxy_subscriber_create w i cb s = Ok (s', p) ->
  exists b, subs s' !! (w, p) = Some b /\ isub_enqueued b = false /\ isub_privdata b = getmsg_proxy (Some cb).
Proof.
  intros (s1 & q & E%internal_subscriber_create_new & (s2 & [] & Eu & E')%bind_Ok)%bind_Ok.
  apply update_sub_Ok in Eu as (b & Eb & ->). injection E' as <- <-. simpl. rewrite lookup_insert_eq. rewrite E in Eb.
  injection Eb as <-. eauto.
Qed.

Lemma conserves_unhook p : conserves (memstore_ipc_subscriber_unhook w p : M unit).
Proof.
  intros x s. apply tri_sub_at. intros b E. unfold ipc_data_of. destruct (isub_privdata b) as [d|] eqn:Ed; [|by intros _ _].
  apply tri_conserve; [apply conserves_ret|]. intros s2 d' [= <- <-] _ _.
  eapply tri_put_sub; [exact E| | |]; unfold sub_owns, proxy_strings, sub_reserved_live; simpl; rewrite Ed; intros;
    destruct (isub_enqueued b); simpl; done || lia.
Qed.
Lemma conserves_renew p : conserves (memstore_ipc_subscriber_keepalive_renew w p : M unit).
Proof.
  apply conserves_bind; [apply conserves_sub_at|]. intros b. apply conserves_bind; [apply conserves_ipc_data|].
  intros. apply conserves_timer.
Qed.

(** A waiting request that leaves its pool unanswered keeps its string. *)
Lemma tri_put_sub_drop x s p b b' :
  subs s !! (w, p) = Some b -> isub_reserved b' = isub_reserved b -> isub_privdata b' = isub_privdata b ->
  (isub_enqueued b' = isub_enqueued b \/ isub_enqueued b' = false) ->
  tri x [] s (put_sub w p b') (fun _ => []).
Proof.
  intros E Er Ed Ee. apply tri_intro. intros _ P.
  assert (proxy_strings b' = proxy_strings b) as Ep by (unfold proxy_strings; by rewrite Ed).
  eapply tri_put_sub; [exact E| | |by rewrite Ep].
  - intros r. unfold sub_owns, sub_reserved_live. rewrite Ep, Ed, Er.
    pose proof (cnt_pos r (proxy_strings b)). destruct Ee as [-> | ->]; [lia|]. destruct (isub_enqueued b); simpl; lia.
  - intros X r _. unfold sub_owns. rewrite Ep, (proj1 P X _ _ E). by destruct (isub_enqueued b), (isub_enqueued b').
Qed.

Lemma conserves_destroy p : conserves (internal_subscriber_destroy w p : M unit).
Proof.
  intros x s. apply tri_sub_at. intros b E. destruct (0 <? isub_reserved b) eqn:Er.
  - by apply (tri_put_sub_frame x s w p b (fun b => set_isub_awaiting_destruction b true)).
  - apply (tri_free_sub _ _ _ _ E). apply Z.ltb_ge in Er. unfold sub_reserved_live. destruct (isub_privdata b); lia.
Qed.

Lemma conserves_internal_dequeue p : conserves (internal_dequeue w p).
Proof.
  intros x s. apply tri_sub_at. intros b E. destruct (isub_already_dequeued b); [by apply tri_ret|].
  apply tri_conserve; [by apply (tri_put_sub_frame x s w p b (fun b => set_isub_already_dequeued b true))|].
  intros s1 [] _ _ _.
  apply tri_conserve; [destruct (isub_privdata b); [apply conserves_ipc_sub_dequeue|apply conserves_update_sub, sub_frame_await]|].
  intros s2 [] _ _ _.
  apply tri_conserve; [destruct (isub_dequeue_callback b); [apply spooler_dequeued_law|apply conserves_ret]|].
  intros s3 [] _ _ _. apply tri_conserve; [|intros; destruct (isub_destroy_after_dequeue b); [apply conserves_destroy|by apply tri_ret]].
  apply tri_sub_at. intros b3 E3. eapply tri_put_sub_drop; [exact E3|done|done|by right].
Qed.

Lemma conserves_dequeue_maybe p : conserves (dequeue_maybe w p).
Proof.
  apply conserves_bind; [apply conserves_sub_at|]. intros b.
  destruct (isub_dequeue_after_response b); [apply conserves_internal_dequeue|apply conserves_ret].
Qed.

Lemma conserves_clear_callback p : conserves (clear_callback w p : M unit).
Proof.
  intros x s. apply tri_intro. intros _ P. apply tri_sub_at. intros b E.
  destruct (isub_privdata b) as [|cb] eqn:Ed; [by intros _ _|].
  eapply tri_put_sub; [exact E| | |done].
  - intros r. unfold sub_owns at 1, sub_reserved_live. rewrite Ed. simpl. pose proof (cnt_pos r (sub_owns b)).
    unfold proxy_strings. simpl. destruct (isub_enqueued b); simpl; lia.
  - intros X r _. unfold sub_owns. rewrite (proj1 P X _ _ E). unfold proxy_strings. simpl. by destruct (isub_enqueued b).
Qed.

(** The answer to a request that waits takes its string along. *)
Lemma tri_answer_ipc x s p b code msg sender d :
  subs s !! (w, p) = Some b -> isub_privdata b = getmsg_proxy (Some (ipc_getmsg_proxy sender d)) -> isub_enqueued b = true ->
  (forall m, msg = Some m -> is_Some (messages s !! m)) ->
  tri x [] s (ipc_getmsg_proxy_callback w code msg sender d;; clear_callback w p) (fun _ => []).
Proof.
  intros E Ed Ee Hm. unfold ipc_getmsg_proxy_callback.
  assert (forall s1, subs s1 = subs s ->
    tri x (opt RMessage msg) s1
      ((_ ← ipc_cmd w sender (cmd_get_message_reply (GetMessageData (gm_chid d) (gm_privdata d) (getmsg_resp code msg)));
        mret ());; clear_callback w p) (fun _ => [])) as T.
  { intros s1 E1 C P. unfold ipc_cmd, clear_callback, modify, sub_at, access, mbind, M_bind. simpl. rewrite E1, E, Ed.
    set (s2 := set_wire _ _). set (b' := set_isub_privdata b (getmsg_proxy None)).
    unfold put_sub, modify.
    assert (forall r, slack (set_subs s2 (<[(w, p):=b']> (subs s2))) r = slack s1 r - cnt r (opt RMessage msg)) as Eq.
    { intros r. rewrite slack_put_sub. unfold s2. rewrite slack_send, bind_cons, app_nil_r.
      change (subs (set_wire s1 _)) with (subs s1). rewrite E1, !(at_key_some _ _ _ _ E).
      change (owns _) with (opt RMessage msg ++ [RString (gm_chid d)]). rewrite cnt_app.
      unfold sub_owns, proxy_strings, sub_reserved_live. simpl. rewrite Ed, Ee. simpl. lia. }
    split; [intros r; rewrite Eq; simpl; lia|]. split; [intros X r _; rewrite Eq; simpl; lia|].
    destruct P as [P O]. split; [|exact O]. intros X k b0. simpl. destruct (decide (k = (w, p))) as [->|N].
    - rewrite lookup_insert_eq. by intros [= <-].
    - rewrite lookup_insert_ne by done. rewrite E1, <- E1. by apply P. }
  destruct msg as [m|]; apply tri_assoc.
  - eapply tri_bind; [apply tri_msg_reserve; eauto|]. intros s1 [] E1 _ _. apply T.
    apply bind_Ok in E1 as (s2 & mm & E2 & (s3 & ms & [-> ->]%gets_Ok & (s3 & [ms' rc] & [-> _]%outcome_Ok & E3)%bind_Ok)%bind_Ok).
    unfold message_at, access in E2. case_match; [|done]. injection E2 as <- _.
    apply bind_Ok in E3 as (s3 & [] & [= <-] & [-> _]%assert_Ok). done.
  - apply tri_conserve; [apply conserves_ret|]. intros s1 [] [= <-] _ _. by apply T.
Qed.

Lemma tri_getmsg_answer x s p b cb code msg :
  subs s !! (w, p) = Some b -> isub_privdata b = getmsg_proxy cb -> (isub_enqueued b = true \/ proxy_strings b = []) ->
  (forall m, msg = Some m -> is_Some (messages s !! m)) ->
  tri x [] s (getmsg_proxy_answer w p cb code msg) (fun _ => []).
Proof.
  intros E Ed Ee Hm. unfold getmsg_proxy_answer. apply tri_conserve; [apply conserves_not_null|].
  intros s1 f [-> ->]%not_null_Ok _ _. destruct f as [sender d|cookie].
  - destruct Ee as [Ee|Ep]; [by eapply tri_answer_ipc|]. unfold proxy_strings in Ep. by rewrite Ed in Ep.
  - apply tri_conserve; [apply getmsg_call_law|]. intros. apply conserves_clear_callback.
Qed.

Lemma tri_getmsg_respond_status x s p b cb code line :
  subs s !! (w, p) = Some b -> isub_privdata b = getmsg_proxy cb -> (isub_enqueued b = true \/ proxy_strings b = []) ->
  tri x [] s (getmsg_sub_respond_status w p cb code line) (fun _ => []).
Proof.
  intros E Ed Ee. unfold getmsg_sub_respond_status. apply tri_conserve; [apply conserves_assert|].
  intros s1 [] [-> _]%assert_Ok _ _. destruct line; [by apply tri_ret|].
  repeat case_match; try (by eapply tri_getmsg_answer). apply conserves_assert.
Qed.

(** ** What a pool does with a subscriber that is in it *)

Definition poolable s p : Prop :=
  forall b, subs s !! (w, p) = Some b -> isub_enqueued b = true \/ proxy_strings b = [].

Lemma poolable_update s p f b :
  poolable s p -> sub_frame f -> subs s !! (w, p) = Some b ->
  poolable (set_subs s (<[(w, p) := f b]> (subs s))) p.
Proof.
  intros P F E b'. simpl. rewrite lookup_insert_eq. intros [= <-]. destruct (sub_frame_owns f b F) as (_ & -> & _).
  destruct (F b) as (_ & _ & ->). by apply P.
Qed.

Lemma tri_internal_respond_message x s p m :
  is_Some (messages s !! m) -> poolable s p -> tri x [] s (internal_respond_message w p m) (fun _ => []).
Proof.
  intros I P. apply tri_message_at; [done|]. intros mm _.
  apply tri_conserve; [by apply conserves_update_sub|]. intros s1 [] (b & Eb & ->)%update_sub_Ok _ _.
  pose proof (poolable_update s p (fun b => set_isub_last_msgid b (id mm)) b P ltac:(done) Eb) as P'.
  apply tri_sub_at. intros b' E'.
  apply tri_conserve.
  - destruct (isub_privdata b') as [d|cb] eqn:Ed.
    + by apply tri_ipc_respond_message.
    + eapply tri_getmsg_answer; [exact E'|done|by apply P'|]. by intros ? [= <-].
  - intros. apply tri_conserve; [apply conserves_update_sub, sub_frame_timeout|]. intros. apply conserves_dequeue_maybe.
Qed.

Lemma tri_internal_respond_status x s p code line :
  poolable s p -> tri x [] s (internal_respond_status w p code line) (fun _ => []).
Proof.
  intros P. unfold internal_respond_status. apply tri_conserve.
  { destruct (code =? NGX_HTTP_GONE); [by apply conserves_update_sub|].
    apply tri_conserve; [apply conserves_sub_at|]. intros. by apply tri_ret. }
  intros s1 [] E1 _ _. assert (poolable s1 p) as P'.
  { destruct (code =? NGX_HTTP_GONE).
    - apply update_sub_Ok in E1 as (b & Eb & ->). by apply (poolable_update s p (fun b => set_isub_dequeue_after_response b true)).
    - apply bind_Ok in E1 as (s2 & b & E2 & [= <-]). unfold sub_at, access in E2. case_match; [|done]. by injection E2 as <- _. }
  apply tri_sub_at. intros b' E'. apply tri_conserve.
  - destruct (isub_privdata b') as [d|cb] eqn:Ed; [apply conserves_ipc_respond_status|].
    eapply tri_getmsg_respond_status; [exact E'|done|by apply P'].
  - intros. apply tri_conserve; [apply conserves_update_sub, sub_frame_timeout|]. intros. apply conserves_dequeue_maybe.
Qed.

Lemma conserves_internal_notify p code data : conserves (internal_notify w p code data).
Proof.
  apply conserves_bind; [apply conserves_sub_at|]. intros b.
  destruct (isub_privdata b); [apply conserves_ipc_respond_notice|apply conserves_ret].
Qed.
End subs.

Ltac send_it := match goal with |- tri ?x _ ?s (ipc_cmd ?src ?dst ?a) _ => exact (tri_cmd_ret src x s dst a) end.
