(* ===== verification/IpcLedgerHeads.v ===== *)
(** * The ledger of channel heads *)

From S2P Require Import Prelude Nginx MsgId Msg ChannelId ChanHead Worker IpcSend InternalSub ChanReady ChanRequest.
From S2P Require Import IpcHandlers IpcLedger IpcLedgerFacts IpcLedgerOps IpcLedgerSubs.

Section heads.
Context {S : Type} `{StoreEnvLaws S}.
Notation sys := (sys S).
Notation M := (M S).
Implicit Types (s : sys).
Context (w : Z).

#[local] Hint Resolve start_spooler_law spooler_broadcast_status_law spooler_broadcast_notice_law spooler_status_change_law
  chanhead_reaper_add_law chanhead_reaper_withdraw_law chanhead_churner_reaper_add_law chanhead_churner_reaper_withdraw_law
  multi_subscriber_create_law delete_messages_law group_enter_law redis_subscribe_law redis_publish_law redis_command_law
  client_call_law getmsg_call_law buffer_message_law create_shm_msg_of_law find_next_message_law : ledger.
#[local] Hint Resolve conserves_send_subscribe conserves_send_unsubscribed conserves_send_status conserves_send_notice
  conserves_send_get_message conserves_send_delete conserves_send_info conserves_send_check conserves_send_get_group : ledger.
#[local] Hint Extern 2 (conserves (update_head _ _ _)) => (apply conserves_update_head; by intros ?) : ledger.

(** ** The queues *)

Lemma conserves_now : conserves (now w : M Z).
Proof. apply conserves_gets. Qed.
Lemma conserves_shm_room : conserves (has_shm_room : M bool).
Proof. apply conserves_gets. Qed.
Lemma conserves_heap_room : conserves (has_heap_room w : M bool).
Proof. apply conserves_gets. Qed.
#[local] Hint Resolve conserves_now conserves_shm_room conserves_heap_room : ledger.

Lemma now_Ok s s' t : now w s = Ok (s', t) -> s' = s.
Proof. by intros [= <- _]. Qed.

Lemma conserves_churner_add h : conserves (chanhead_churner_add w h : M unit).
Proof.
  intros x s. apply tri_head_at. intros ch E.
  do 3 (apply tri_conserve; [apply conserves_assert|]; intros ? [] [-> _]%assert_Ok _ _).
  destruct (ch_in_churn_queue ch); [by apply tri_ret|].
  apply tri_conserve; [apply conserves_now|]. intros s1 t ->%now_Ok _ _.
  apply tri_conserve; [by eapply tri_put_head|]. intros. apply chanhead_churner_reaper_add_law.
Qed.

Lemma conserves_churner_withdraw h : conserves (chanhead_churner_withdraw w h : M unit).
Proof.
  intros x s. apply tri_head_at. intros ch E. destruct (ch_in_churn_queue ch); [|by apply tri_ret].
  apply tri_conserve; [by eapply tri_put_head|]. intros. apply chanhead_churner_reaper_withdraw_law.
Qed.
#[local] Hint Resolve conserves_churner_add conserves_churner_withdraw : ledger.

(** A head of another worker's channel lets go of the shared counters. *)
Lemma tri_drop_shared x s h ch p :
  heads s !! (w, h) = Some ch -> ch_shared ch = Some p -> (ch_slot ch =? ch_owner ch) = false ->
  tri x [] s (outside_refcount_add p (-1);; put_head w h (ch_set_shared ch None)) (fun _ => []).
Proof.
  intros E Ep Es C P. destruct (covers_head_shared s [] (w, h) ch p C E Ep) as [sh Esh].
  unfold outside_refcount_add, shared_at, access, counted, put_shared, put_head, modify, mbind, M_bind. rewrite Esh.
  case_bool_decide; [|done]. simpl.
  match goal with |- moves _ _ _ ?t _ => set (s2 := t) end.
  assert (forall r, slack s2 r = slack s r) as Eq.
  { intros r. unfold s2. set (sh' := Shared _ _ _ _ _ _). set (s1 := set_shareds s (<[p := sh']> (shareds s))).
    change (heads s) with (heads s1) at 1. rewrite slack_put_head. change (heads s1) with (heads s). unfold s1.
    rewrite slack_put_shared, !(at_key_some _ _ _ _ E), !(at_key_some _ _ _ _ Esh).
    unfold head_owns. simpl. rewrite Ep, Es. simpl. lia. }
  split; [intros r; rewrite Eq; lia|]. split; [intros X r _; rewrite Eq; lia|].
  unfold s2. apply (good_put_head x (set_shareds s _)); [|exact P]. simpl. intros Eo. by apply Z.eqb_neq in Es.
Qed.

Lemma conserves_gc_add h : conserves (chanhead_gc_add w h : M unit).
Proof.
  intros x s. apply tri_head_at. intros ch E.
  apply tri_conserve; [apply conserves_assert|]. intros s1 [] [-> _]%assert_Ok _ _.
  apply tri_conserve.
  { destruct (ch_shared ch) as [p|] eqn:Ep; [|by apply tri_ret].
    destruct (ch_slot ch =? ch_owner ch) eqn:Es; [by apply tri_ret|]. by apply tri_drop_shared. }
  intros s1 [] _ _ _. apply tri_head_at. intros ch1 E1.
  apply tri_conserve; [apply conserves_gets|]. intros s2 exiting [-> _]%gets_Ok _ _.
  destruct (_ && _); [by apply tri_ret|].
  apply tri_conserve; [apply conserves_assert|]. intros s2 [] [-> _]%assert_Ok _ _.
  destruct (ch_in_gc_queue ch1); [by apply tri_ret|].
  apply tri_conserve; [apply conserves_now|]. intros s2 t ->%now_Ok _ _.
  apply tri_conserve; [by eapply tri_put_head|]. intros s2 [] _ _ _.
  conserving.
Qed.
#[local] Hint Resolve conserves_gc_add : ledger.

Lemma conserves_gc_withdraw h : conserves (chanhead_gc_withdraw w h : M unit).
Proof. unfold chanhead_gc_withdraw. conserve. Qed.
#[local] Hint Resolve conserves_gc_withdraw : ledger.

(** ** Becoming ready *)

Lemma conserves_ready h : conserves (memstore_ready_chanhead_unless_stub w h : M unit).
Proof.
  intros x s. apply tri_head_at. intros ch E. destruct (ch_stub ch); [by eapply tri_put_head|].
  apply tri_conserve; [by eapply tri_put_head|]. intros s1 [] _ _ _.
  conserving.
Qed.
#[local] Hint Resolve conserves_ready : ledger.

Lemma conserves_create_multi_subs h i n : conserves (create_multi_subs w h i n : M bool).
Proof. revert i. induction n as [|n IH]; intros i; simpl; conserve. Qed.

Lemma conserves_ensure_foreign h b : conserves (ensure_foreign_ready w h b : M Z).
Proof.
  intros x s. apply tri_head_at. intros ch E. destruct (ch_foreign_owner_ipc_sub ch).
  - conserving.
  - destruct (negb _); [|by apply tri_ret]. apply tri_conserve; [by eapply tri_put_head|]. intros s1 [] _ _ _.
    destruct b; [|by apply tri_ret].
    conserving.
Qed.

Lemma conserves_ensure_own h : conserves (ensure_own_ready w h : M Z).
Proof.
  intros x s. apply tri_head_at. intros ch E. destruct (_ && _).
  - destruct (ch_redis_sub ch) as [[]|].
    + conserving.
    + apply tri_conserve; [by eapply tri_put_head|]. intros. by apply tri_ret.
    + conserving.
  - destruct (negb _); [|by apply tri_ret]. apply tri_conserve; [apply conserves_ready|]. intros. by apply tri_ret.
Qed.

Lemma conserves_start_spooler h : conserves (start_chanhead_spooler w h : M unit).
Proof. unfold start_chanhead_spooler. conserve. Qed.
#[local] Hint Resolve conserves_create_multi_subs conserves_ensure_foreign conserves_ensure_own conserves_start_spooler : ledger.

Lemma conserves_ensure h b : conserves (memstore_ensure_chanhead_is_ready w h b : M Z).
Proof. unfold memstore_ensure_chanhead_is_ready. conserve. Qed.
#[local] Hint Resolve conserves_ensure : ledger.

Lemma conserves_ensure_or_trash h b : conserves (ensure_chanhead_ready_or_trash_chanhead w h b : M (option positive)).
Proof. unfold ensure_chanhead_ready_or_trash_chanhead. conserve. Qed.
#[local] Hint Resolve conserves_ensure_or_trash : ledger.

(** ** Creation *)

(** The shared counters of a new head are its worker's. *)
Lemma tri_alloc_shared x s own :
  tri x [] s (alloc_shared own) (fun o => match o with Some (Some p) => [ROwn p] | _ => [] end).
Proof.
  unfold alloc_shared. destruct own; [|by apply tri_ret].
  apply tri_conserve; [apply conserves_shm_room|]. intros s1 room [-> _]%gets_Ok _ _.
  destruct room; [|by apply tri_ret].
  apply tri_conserve; [apply conserves_gets|]. intros s1 p [-> ->]%gets_Ok _ _.
  eapply (tri_bind _ _ _ _ _ (fun _ => [ROwn (fresh (dom (shareds s)))])); [|intros; by apply tri_ret].
  apply tri_modify; [intros r|intros _ r Ex|done]; rewrite slack_put_shared, !at_key_none by apply fresh_None; simpl; lia.
Qed.

Lemma alloc_shared_own s own s' sh : alloc_shared own s = Ok (s', Some sh) -> is_Some sh <-> own = true.
Proof.
  unfold alloc_shared. destruct own; [|by intros [= _ <-]; split; [intros []|]].
  intros (s1 & room & _ & E)%bind_Ok. destruct room; [|by injection E].
  apply bind_Ok in E as (s2 & p & _ & (s3 & [] & _ & [= _ <-])%bind_Ok). by split.
Qed.

Lemma tri_put_new_head x s id cf owner n sh :
  (is_Some sh <-> (w =? owner) = true) -> (n <> 0%nat -> (w =? owner) = true) ->
  tri x (opt ROwn sh) s (put_head w (fresh_in (heads s)) (new_chanhead w id cf owner n sh)) (fun _ => []).
Proof.
  intros Ho Hn.
  assert (head_owns (new_chanhead w id cf owner n sh) = opt ROwn sh) as Eo.
  { unfold head_owns, new_chanhead. simpl. destruct sh as [p|]; [|done]. simpl.
    destruct (decide (n = 0)%nat); [by rewrite (proj1 Ho)|]. by rewrite Z.eqb_refl. }
  apply tri_modify; [intros r|intros _ r Ex|intros G; apply good_put_head; [|done]];
    try (rewrite slack_put_head, !at_key_none by apply fresh_in_None; rewrite Eo; simpl; lia).
  simpl. intros E. apply Ho. destruct (decide (n = 0)%nat); [by rewrite E, Z.eqb_refl|by apply Hn].
Qed.

Lemma parse_multi_own id ids : parse_multi_id id = Ret ids -> length ids <> 0%nat -> (w =? memstore_channel_owner w id) = true.
Proof.
  unfold parse_multi_id, memstore_channel_owner. destruct (nchan_channel_id_is_multi id); [by rewrite Z.eqb_refl|].
  by intros [= <-].
Qed.

Lemma conserves_chanhead_create id cf : conserves (chanhead_memstore_create w id cf : M (option positive)).
Proof.
  intros x s. unfold chanhead_memstore_create. cbv zeta. apply tri_conserve; [apply conserves_heap_room|].
  intros s1 room _ _ _. destruct (negb room); [by apply tri_ret|].
  eapply tri_bind; [apply tri_alloc_shared|]. intros s2 [sh|] E _ _; [|by apply tri_ret].
  apply alloc_shared_own in E.
  replace (match sh with Some p => [ROwn p] | None => [] end) with (opt ROwn sh) by (by destruct sh).
  apply tri_conserve; [apply conserves_outcome|]. intros s3 ids [-> Ei]%outcome_Ok _ _.
  apply tri_conserve; [apply conserves_gets|]. intros s3 h [-> ->]%gets_Ok _ _.
  eapply tri_bind; [apply tri_put_new_head; [done|by apply parse_multi_own]|]. intros s3 [] _ _ _.
  conserving.
Qed.
#[local] Hint Resolve conserves_chanhead_create : ledger.

(** ** Looking up *)

Lemma conserves_find id : conserves (nchan_memstore_find_chanhead w id : M (option positive)).
Proof. unfold nchan_memstore_find_chanhead, CHANNEL_HASH_FIND. conserve. Qed.
#[local] Hint Resolve conserves_find : ledger.
Lemma conserves_create_and_ready id cf b : conserves (create_and_ready w id cf b : M (option positive)).
Proof. unfold create_and_ready. conserve. Qed.
#[local] Hint Resolve conserves_create_and_ready : ledger.
Lemma conserves_get id cf : conserves (nchan_memstore_get_chanhead w id cf : M (option positive)).
Proof. unfold nchan_memstore_get_chanhead. conserve. Qed.
Lemma conserves_get_no_ipc id cf : conserves (nchan_memstore_get_chanhead_no_ipc_sub w id cf : M (option positive)).
Proof. unfold nchan_memstore_get_chanhead_no_ipc_sub, CHANNEL_HASH_FIND. conserve. Qed.
End heads.

#[export] Hint Resolve start_spooler_law spooler_broadcast_status_law spooler_broadcast_notice_law spooler_status_change_law
  delete_messages_law group_enter_law redis_publish_law redis_command_law client_call_law getmsg_call_law buffer_message_law
  create_shm_msg_of_law find_next_message_law group_owner_find_law group_receive_law group_receive_delete_law other_alert_law
  : ledger.
#[export] Hint Resolve conserves_send_subscribe conserves_send_unsubscribed conserves_send_status conserves_send_notice
  conserves_send_get_message conserves_send_delete conserves_send_info conserves_send_check conserves_send_get_group : ledger.
#[export] Hint Extern 2 (conserves (update_head _ _ _)) => (apply conserves_update_head; by intros ?) : ledger.
#[export] Hint Resolve conserves_now conserves_shm_room conserves_heap_room conserves_gc_add conserves_ready
  conserves_ensure_or_trash conserves_find conserves_get conserves_get_no_ipc conserves_unhook conserves_renew
  conserves_internal_dequeue conserves_internal_notify : ledger.
