(* ===== verification/IpcLedgerRequests.v ===== *)
(** * The ledger of publishing, deleting, looking up and reading *)

From S2P Require Import Prelude Nginx MsgId Msg ChannelId ChanHead Worker IpcSend InternalSub ChanReady ChanRequest.
From S2P Require Import IpcHandlers IpcLedger IpcLedgerFacts IpcLedgerOps IpcLedgerSubs IpcLedgerHeads.

Section requests.
Context {S : Type} `{StoreEnvLaws S}.
Notation sys := (sys S).
Notation M := (M S).
Implicit Types (s : sys).
Context (w : Z).

(** ** Callbacks *)

Definition callback_owns (cb : callback_pt) : list resource :=
  match cb with delete_callback d => [RString (dd_chid d)] | _ => [] end.

Lemma tri_alloc_info x c s i :
  tri x c s (p ← gets (fun s => fresh (dom (infos s))); modify (fun s => set_infos s (<[p := i]> (infos s)));; mret p)
    (fun p => RInfo p :: c).
Proof.
  apply tri_conserve; [apply conserves_gets|]. intros s1 p [-> ->]%gets_Ok _ _.
  eapply (tri_bind _ _ _ _ _ (fun _ => RInfo (fresh (dom (infos s))) :: c)); [|intros; by apply tri_ret].
  apply tri_modify; [intros r|intros _ r Ex|done]; rewrite slack_put_info, !at_key_none by apply fresh_None; simpl; lia.
Qed.

Lemma tri_delete_callback x s code ch d :
  tri x [RString (dd_chid d)] s (delete_callback_handler w code ch d) (fun _ => []).
Proof.
  unfold delete_callback_handler.
  apply (tri_bind _ _ _ _ _ (fun r => opt RInfo r.1 ++ [RString (dd_chid d)])).
  - destruct ch as [ch|]; [|by apply tri_ret]. apply tri_conserve; [apply conserves_shm_room|].
    intros s1 room [-> _]%gets_Ok _ _. destruct room; [|by apply tri_ret]. cbv zeta.
    match goal with |- tri _ _ _ (gets _ ≫= fun p => modify (fun s => set_infos s (<[p := ?i]> _)) ≫= _) _ =>
      apply (tri_ext _ _ _ _ ((p ← gets (fun s => fresh (dom (infos s)));
        modify (fun s => set_infos s (<[p := i]> (infos s)));; mret p) ≫= (fun p => mret (Some p, code)))); [done|] end.
    eapply tri_bind; [apply tri_alloc_info|]. intros. by apply tri_ret.
  - intros s1 [info code'] _ _ _. cbn [fst]. eapply tri_bind; [|intros; by apply (tri_ret _ [])]. send_it.
Qed.

Lemma conserves_publish_callback status ch sender d : conserves (publish_message_generic_callback w status ch sender d : M unit).
Proof.
  unfold publish_message_generic_callback. apply conserves_bind; [destruct ch; conserve|].
  intros rd. apply conserves_bind; [by apply conserves_ipc_cmd|]. intros. apply conserves_ret.
Qed.

Lemma tri_run_callback x s cb code ch : tri x (callback_owns cb) s (run_callback w cb code ch) (fun _ => []).
Proof.
  destruct cb; simpl; [by apply tri_ret|apply client_call_law|apply tri_delete_callback|apply conserves_publish_callback].
Qed.

(** ** To the subscribers of a head *)

Lemma conserves_publish_notice h code data : conserves (nchan_memstore_publish_notice w h code data).
Proof. unfold nchan_memstore_publish_notice. conserve. Qed.

Lemma tri_shared_sub_count x c s h ch {B} (k : Z -> M B) c' :
  heads s !! (w, h) = Some ch -> (forall n, tri x c s (k n) c') -> tri x c s (shared_sub_count_of ch ≫= k) c'.
Proof.
  intros E T. apply tri_intro. intros C _. unfold shared_sub_count_of.
  destruct (ch_shared ch) as [p|] eqn:Ep; [|apply tri_conserve; [apply conserves_ret|]; by intros s1 n [= <- <-] _ _].
  apply tri_assoc, tri_conserve; [apply conserves_assert|]. intros s1 [] [-> _]%assert_Ok _ _.
  apply tri_assoc, tri_shared_at; [by eapply covers_head_shared|]. intros sh _.
  apply tri_conserve; [apply conserves_ret|]. by intros s1 n [= <- <-] _ _.
Qed.

Lemma tri_publish_generic x s h msg code line :
  (forall m, msg = Some m -> is_Some (messages s !! m)) ->
  tri x [] s (nchan_memstore_publish_generic w h msg code line) (fun _ => []).
Proof.
  intros I. apply tri_head_at. intros ch E. eapply tri_shared_sub_count; [exact E|]. intros n.
  apply tri_conserve; [destruct msg; [apply spooler_respond_message_law; eauto|apply spooler_broadcast_status_law]|].
  intros s1 [] _ _ _.
  conserving.
Qed.
Lemma conserves_publish_status h code line : conserves (nchan_memstore_publish_generic w h None code line).
Proof. intros x s. by apply tri_publish_generic. Qed.

Lemma conserves_copy_info h : conserves (chanhead_copy_channel_info w h : M nchan_channel_t).
Proof.
  intros x s. apply tri_intro. intros C _. apply tri_head_at. intros ch E.
  apply tri_conserve; [apply conserves_assert|]. intros s1 [] [-> _]%assert_Ok _ _.
  apply tri_conserve; [apply conserves_not_null|]. intros s1 p [-> Ep]%not_null_Ok _ _.
  apply tri_shared_at; [by eapply covers_head_shared|]. intros sh _. by apply tri_ret.
Qed.
#[local] Hint Resolve conserves_copy_info conserves_publish_status conserves_publish_notice : ledger.

(** ** Deleting *)

Lemma tri_force_delete_chanhead x s h cb :
  tri x (callback_owns cb) s (nchan_memstore_force_delete_chanhead w h cb) (fun _ => []).
Proof.
  apply tri_conserve; [apply conserves_copy_info|]. intros s1 info _ _ _.
  apply tri_conserve; [apply conserves_publish_status|]. intros s2 n _ _ _.
  eapply tri_bind; [apply tri_run_callback|]. intros s3 [] _ _ _.
  conserving.
Qed.

Lemma tri_force_delete_channel x s id cb :
  tri x (callback_owns cb) s (nchan_memstore_force_delete_channel w id cb) (fun _ => []).
Proof.
  apply tri_conserve; [apply conserves_assert|]. intros s1 [] _ _ _.
  apply tri_conserve; [apply conserves_find|]. intros s2 [h|] _ _ _; [apply tri_force_delete_chanhead|apply tri_run_callback].
Qed.

Lemma conserves_delete_channel id cf cb : conserves (nchan_store_delete_single_channel_id w id cf cb).
Proof.
  unfold nchan_store_delete_single_channel_id. cbv zeta.
  assert (conserves (nchan_memstore_force_delete_channel w id (client_callback cb))) as T
    by (intros x s; exact (tri_force_delete_channel x s id (client_callback cb))).
  conserve.
Qed.

Lemma conserves_find_channel id cf cb : conserves (nchan_store_find_channel w id cf cb).
Proof. unfold nchan_store_find_channel. cbv zeta. conserve. Qed.

(** ** Publishing *)

(** A message of shared memory has to be held by the caller. *)
Definition msg_held (c : list resource) (msg : published_msg) : Prop :=
  match msg with own_msg _ => True | shm_msg p => RMessage p ∈ c end.

Lemma tri_published x c s msg {B} (k : nchan_msg_t -> M B) c' :
  msg_held c msg -> (forall m, tri x c s (k m) c') -> tri x c s (published msg ≫= k) c'.
Proof.
  intros I T. apply tri_intro. intros C _. destruct msg as [m|p]; simpl.
  - apply tri_conserve; [apply conserves_ret|]. by intros s1 m' [= <- <-] _ _.
  - apply tri_message_at; [by eapply covers_message|]. done.
Qed.

Lemma update_head_messages s h f s' u : update_head w h f s = Ok (s', u) -> messages s' = messages s.
Proof. intros (s1 & ch & E & [= <-])%bind_Ok. unfold head_at, access in E. case_match; [|done]. by injection E as <- _. Qed.
Lemma copy_info_state s h s' i : chanhead_copy_channel_info (S := S) w h s = Ok (s', i) -> s' = s.
Proof.
  intros (s1 & ch & E1 & (s2 & [] & [-> _]%assert_Ok & (s3 & p & [-> _]%not_null_Ok & (s4 & sh & E4 & [= <-])%bind_Ok)%bind_Ok)%bind_Ok)%bind_Ok.
  unfold head_at, shared_at, access in *. repeat case_match; try done. simplify_eq. done.
Qed.
Lemma msgid_differs_Ok m s s' b : msgid_differs (S := S) m s = Ok (s', b) -> s' = s.
Proof. intros (s1 & t & [-> _]%outcome_Ok & (s2 & pt & [-> _]%outcome_Ok & [= <- _])%bind_Ok)%bind_Ok. done. Qed.
Lemma conserves_msgid_differs m : conserves (msgid_differs m : M bool).
Proof. unfold msgid_differs. conserve. Qed.

Lemma fill_refcount t m timeout : refcount (fill_message_timedata t m timeout) = refcount m.
Proof. unfold fill_message_timedata. by repeat case_match. Qed.

Lemma tri_fill x c s msg timeout {B} (k : published_msg -> M B) c' :
  msg_held c msg -> (forall s' msg', msg_held c msg' -> tri x c s' (k msg') c') ->
  tri x c s (fill_published w msg timeout ≫= k) c'.
Proof.
  intros I T. apply (tri_bind _ _ _ _ _ (fun _ => c)).
  - apply tri_conserve; [apply conserves_now|]. intros s1 t ->%now_Ok _ _. destruct msg as [m|p]; [by apply tri_ret|].
    apply tri_intro. intros C _. apply tri_message_at; [by eapply covers_message|]. intros m E.
    apply (tri_bind _ _ _ _ _ (fun _ => c)); [|intros; by apply tri_ret].
    apply tri_modify; [intros r|intros _ r _|done];
      rewrite slack_put_message, (at_key_some _ _ _ _ E), fill_refcount; lia.
  - intros s1 msg' E _ _. apply T. revert E. intros (s2 & t & _ & E)%bind_Ok. destruct msg as [m|p]; [by injection E as _ <-|].
    apply bind_Ok in E as (s3 & m & _ & E). by injection E as _ <-.
Qed.

Lemma tri_publish_on_owner x c s h msg cf cb : callback_owns cb = [] -> msg_held c msg ->
  tri x c s (publish_on_owner w h msg cf cb) (fun _ => c).
Proof.
  intros Ec Hm.
  assert (forall code ch, conserves (run_callback w cb code ch)) as R
    by (intros code ch y t; pose proof (tri_run_callback y t cb code ch) as T; by rewrite Ec in T).
  apply tri_head_at. intros ch E. apply tri_conserve; [apply conserves_assert|]. intros s1 [] _ _ _.
  apply tri_conserve; [conserving|]. intros s2 [] _ _ _. apply tri_fill; [done|]. intros s2' msg' _. apply conserves_tri.
  apply tri_conserve; [by apply conserves_update_head|]. intros s3 [] _ _ _.
  apply tri_conserve; [apply buffer_message_law|]. intros s4 [rc|p] E4 _ _.
  - apply tri_conserve; [apply R|]. intros. by apply tri_ret.
  - apply buffer_message_live in E4. apply tri_message_at; [done|]. intros m _.
    apply tri_conserve; [by apply conserves_update_head|]. intros s5 [] E5%update_head_messages _ _.
    apply tri_conserve; [apply conserves_copy_info|]. intros s6 info ->%copy_info_state _ _.
    apply tri_conserve; [apply conserves_msgid_differs|]. intros s6 b ->%msgid_differs_Ok _ _.
    apply tri_conserve; [apply conserves_assert|]. intros s6 [] [-> _]%assert_Ok _ _.
    apply tri_conserve; [apply tri_publish_generic; intros ? [= <-]; by rewrite E5|]. intros s6 rc _ _ _.
    apply tri_conserve; [apply R|]. intros. by apply tri_ret.
Qed.

Lemma tri_chanhead_publish x c s h msg cf cb : callback_owns cb = [] -> msg_held c msg ->
  tri x c s (nchan_store_chanhead_publish_message_generic w h msg cf cb) (fun _ => c).
Proof.
  intros Ec Hm.
  assert (forall code ch, conserves (run_callback w cb code ch)) as R
    by (intros code ch y t; pose proof (tri_run_callback y t cb code ch) as T; by rewrite Ec in T).
  apply tri_head_at. intros ch E. apply tri_published; [done|]. intros m.
  apply tri_conserve; [apply conserves_assert|]. intros s1 [] _ _ _.
  apply tri_conserve; [apply conserves_assert|]. intros s2 [] _ _ _.
  destruct (negb _); [|by apply tri_publish_on_owner].
  apply tri_conserve; [apply create_shm_msg_of_law|]. intros s3 [p|] E3 _ _.
  - apply create_shm_msg_of_live in E3. by apply conserves_tri, tri_send_publish_message.
  - apply conserves_tri, tri_conserve; [apply R|]. intros. by apply tri_ret.
Qed.

Lemma tri_publish_message x c s id msg cf cb : callback_owns cb = [] -> msg_held c msg ->
  tri x c s (nchan_store_publish_message_to_single_channel_id w id msg cf cb) (fun _ => c).
Proof.
  intros Ec Hm.
  assert (forall code ch, conserves (run_callback w cb code ch)) as R
    by (intros code ch y t; pose proof (tri_run_callback y t cb code ch) as T; by rewrite Ec in T).
  assert (forall s' msg', msg_held c msg' -> tri x c s' (publish_filled w id msg' cf cb) (fun _ => c)) as T.
  { intros s' msg' Hm'. unfold publish_filled. destruct (conf_distributed cf).
    - apply conserves_tri. conserving.
    - apply tri_conserve; [apply conserves_get|]. intros s1 [h|] _ _ _; [by apply tri_chanhead_publish|].
      apply conserves_tri, tri_conserve; [apply R|]. intros. by apply tri_ret. }
  unfold nchan_store_publish_message_to_single_channel_id. destruct (conf_redis cf); [by apply tri_fill|].
  eapply tri_ext; [|by apply (T s msg)]. done.
Qed.

(** ** Reading *)

Lemma tri_async_get_message x s id i cookie :
  tri x [] s (nchan_store_async_get_message w id i cookie) (fun _ => []).
Proof.
  unfold nchan_store_async_get_message. cbv zeta. apply tri_conserve; [apply conserves_find|]. intros s1 head _ _ _.
  destruct (negb _).
  - conserving.
  - apply tri_conserve; [apply conserves_not_null|]. intros s2 h _ _ _. apply tri_head_at. intros ch E.
    destruct (negb _).
    + eapply tri_bind; [by apply getmsg_proxy_create_spec|]. intros s3 sub (b & Eb & Ee & Ed)%getmsg_proxy_create_new _ _.
      eapply tri_bind.
      * apply (spooler_add_law _ _ _ _ _ []). rewrite Eb. split; [done|]. unfold proxy_strings. by rewrite Ed.
      * intros s4 rc _ _ _. cbv beta. destruct (rc =? NGX_OK);
          conserving.
    + apply tri_conserve; [apply find_next_message_law|]. intros s3 [msg st] _ _ _.
      conserving.
Qed.
End requests.

#[export] Hint Resolve conserves_copy_info conserves_publish_status conserves_publish_notice conserves_publish_callback
  conserves_delete_channel conserves_find_channel : ledger.
