(* ===== verification/IpcLedgerHandlers.v ===== *)
(** * The ledger of the handlers, and of all the workers together *)

From S2P Require Import Prelude Nginx MsgId Msg ChannelId ChanHead Worker IpcSend InternalSub ChanReady ChanRequest.
From S2P Require Import IpcHandlers IpcLedger IpcLedgerFacts IpcLedgerOps IpcLedgerSubs IpcLedgerHeads IpcLedgerRequests.

Section handlers.
Context {S : Type} `{StoreEnvLaws S}.
Notation sys := (sys S).
Notation M := (M S).
Implicit Types (s : sys).

(** ** Where an alert may go wrong *)

(** What the handler's lookup of the channel comes to. *)
Definition finds s (w : Z) (chid : positive) (P : sys -> option positive -> Prop) : Prop :=
  forall id s' r, strings s !! chid = Some id -> nchan_memstore_find_chanhead w id s = Ok (s', r) -> P s' r.

(** What a handler needs so that nothing is lost: its lookup finds the channel,
    for the head that asked, and with a complete buffer.  [x = false] asks for
    nothing. *)
Definition fits (x : bool) s (pk : packet) : Prop :=
  let w := p_dst pk in
  match p_alert pk with
  | cmd_unsubscribed p => x = true -> finds s w p (fun _ r => r <> None)
  | cmd_subscribe_chanhead_nevermind_release d =>
      x = true -> finds s w (sd_chid d) (fun _ r => r <> None /\ r = sd_owner d)
  | cmd_get_message d =>
      x = true -> finds s w (gm_chid d) (fun s' r => forall h ch, r = Some h -> heads s' !! (w, h) = Some ch ->
        ch_msg_buffer_complete ch = true)
  | _ => True
  end.

(** What a handler goes through without holding it: the shared counters of the
    owner that the answer to a lookup brings, and the name of the channel that
    a keepalive brought, after it was freed. *)
Definition unheld (pk : packet) (r : resource) : Prop :=
  match p_alert pk with
  | cmd_get_channel_info_reply d => exists p, ci_channel_info d = Some p /\ r = RShared p
  | cmd_subscriber_keepalive d => r = RString (ka_chid d)
  | _ => False
  end.

(** A triple but for some resources, which may turn out to be freed. *)
Definition tri_but {A} (E : resource -> Prop) (x : bool) (c : list resource) s (m : M A) (c' : A -> list resource) : Prop :=
  covers s c -> good x s ->
  match m s with
  | Ok (s', a) => moves x s c s' (c' a)
  | Freed r => guarded r -> E r
  | _ => True
  end.

Lemma tri_but_tri {A} E x c s (m : M A) c' : tri x c s m c' -> tri_but E x c s m c'.
Proof. intros T C G. specialize (T C G). by destruct (m s) as [[s' a]| |r|]. Qed.

Lemma tri_but_bind {A B} E x c s (m : M A) (f : A -> M B) c1 c2 :
  tri_but E x c s m c1 ->
  (forall s' a, m s = Ok (s', a) -> tri_but E x (c1 a) s' (f a) c2) ->
  tri_but E x c s (m ≫= f) c2.
Proof.
  intros T F C P. unfold mbind, M_bind. specialize (T C P). destruct (m s) as [[s' a]| |q|] eqn:Em; try done.
  pose proof (moves_covers _ _ _ _ _ T C) as C'. assert (good x s') as P' by apply T.
  specialize (F s' a eq_refl C' P'). destruct (f a s') as [[s2 b]| |q|]; try done.
  by eapply ledger_moves_trans.
Qed.

Lemma tri_but_conserve {A B} E x c s (m : M A) (f : A -> M B) c2 :
  tri x [] s m (fun _ => []) -> (forall s' a, m s = Ok (s', a) -> tri_but E x c s' (f a) c2) ->
  tri_but E x c s (m ≫= f) c2.
Proof. intros T F. eapply tri_but_bind; [by apply tri_but_tri, conserves_tri|exact F]. Qed.

Lemma tri_but_frame {A} E x c s (m : M A) :
  tri_but E x [] s m (fun _ => []) -> tri_but E x c s m (fun _ => c).
Proof.
  intros T C P.
  assert (covers s []) as C' by (intros r; specialize (C r); pose proof (cnt_pos r c); simpl; lia).
  specialize (T C' P). destruct (m s) as [[s' a]| |q|]; try done.
  destruct T as (X & Y & G). simpl in *. split; [intros r; specialize (X r); lia|]. split; [|done].
  intros Ex r Er. specialize (Y Ex r Er). lia.
Qed.

(** An access that may find nothing. *)
Lemma tri_but_access {A B} (E : resource -> Prop) x c s r (get : sys -> option A) (k : A -> M B) c2 :
  (guarded r -> E r) -> (forall a, get s = Some a -> tri_but E x c s (k a) c2) ->
  tri_but E x c s (access r get ≫= k) c2.
Proof.
  intros Er T C P. unfold access, mbind, M_bind. destruct (get s) as [a|] eqn:Eg; [|exact Er]. exact (T a eq_refl C P).
Qed.

Section worker.
Context (w sender : Z).
Notation gives x s a m := (tri x (owns (Packet sender w a)) s m (fun _ => [])).

Lemma tri_reply x s a : tri x (owns (Packet w sender a)) s (_ ← ipc_cmd w sender a; mret ()) (fun _ => []).
Proof. eapply tri_bind; [apply tri_cmd_ret|]. intros. by apply tri_ret. Qed.
Ltac reply_it := match goal with |- tri ?x _ ?s (ipc_cmd ?src ?dst ?a ≫= _) _ => exact (tri_reply x s a) end.

(** Resources that are not counted to the last one may be dropped. *)
Lemma tri_drop_inexact {A} x c d s (m : M A) c' :
  Forall (fun r => ~ exact r) d -> tri x c s m c' -> tri x (c ++ d) s m c'.
Proof.
  intros F T. eapply tri_conseq; [exact T| |intros; apply hand_le_refl]. intros r. rewrite cnt_app. split.
  - pose proof (cnt_pos r d). lia.
  - intros _ E. enough (cnt r d = 0) by lia. apply cnt_not_elem. intros I. by apply (proj1 (Forall_forall _ _) F r I).
Qed.

(** ** Subscribing *)

Lemma reserve_subs s h s' u : memstore_chanhead_reserve (S := S) w h s = Ok (s', u) -> subs s' = subs s /\ shareds s' = shareds s.
Proof. by intros (s1 & ch & [-> _]%head_at_Ok & (s2 & n & [-> _]%counted_Ok & [= <-])%bind_Ok)%bind_Ok. Qed.
Lemma refcount_subs s p n s' u : outside_refcount_add (S := S) p n s = Ok (s', u) -> subs s' = subs s.
Proof. by intros (s1 & sh & [-> _]%shared_at_Ok & (s2 & r & [-> _]%counted_Ok & [= <-])%bind_Ok)%bind_Ok. Qed.

Lemma tri_receive_subscribe x s d : gives x s (cmd_subscribe d) (receive_subscribe w sender d).
Proof.
  cbn [owns p_alert]. apply tri_str_at; [by left|]. intros id _. apply tri_conserve; [apply conserves_get|].
  intros s1 [h|] _ _ _; [|reply_it].
  apply (tri_drop_inexact x [RString (sd_chid d)]); [destruct (sd_owner d); repeat constructor; auto|].
  eapply tri_bind; [apply memstore_ipc_create_spec|]. intros s2 sub (b & Eb & Ee & Ep)%memstore_ipc_create_new C _.
  apply tri_head_at. intros ch Ech.
  eapply tri_bind; [apply tri_reserve|]. intros s3 [] [Es3 Eh3]%reserve_subs _ _.
  apply tri_conserve; [apply conserves_not_null|]. intros s4 sh [-> Esh]%not_null_Ok _ _.
  eapply tri_bind; [apply tri_outside_refcount_incr; rewrite Eh3; by eapply (covers_head_shared s2)|].
  intros s4 [] Es4%refcount_subs _ _.
  apply tri_conserve.
  { eapply tri_conseq; [apply (spooler_add_law _ _ _ _ _ []); by rewrite Es4, Es3, Eb|apply hand_le_refl|].
    intros rc. cbv beta. destruct (rc =? NGX_OK); apply hand_le_refl. }
  intros s5 rc _ _ _. eapply tri_conseq; [apply tri_reply| |intros; apply hand_le_refl].
  intros r. simpl. split; intros; lia.
Qed.

(** The head takes over the count of the reply. *)
Lemma tri_take_shared x s h sh : tri x (opt RShared sh) s (take_shared w h sh) (fun _ => []).
Proof.
  apply tri_head_at. intros ch E.
  apply tri_conserve; [apply conserves_assert|]. intros s1 [] [-> Ea]%assert_Ok _ G.
  pose proof (proj2 G (w, h) ch E) as Ho. destruct (ch_shared ch) as [q|] eqn:Eq.
  - simpl in Ea. apply bool_decide_eq_true in Ea as <-.
    apply (tri_drop_inexact x [] (opt RShared (Some q))); [repeat constructor; auto|].
    apply tri_conserve; [|intros; apply conserves_assert].
    apply tri_head_at. intros ch' E'. simplify_eq. by eapply tri_put_head.
  - assert ((ch_slot ch =? ch_owner ch) = false) as Eo
      by (apply Z.eqb_neq; intros Eo; by destruct (Ho Eo)).
    apply (tri_bind _ _ _ _ _ (fun _ => [])).
    + apply tri_head_at. intros ch' E'. simplify_eq. apply tri_modify.
      1, 2: intros; rewrite slack_put_head, !(at_key_some _ _ _ _ E); unfold head_owns; simpl; rewrite Eq, Eo; simpl; lia.
      intros G'. apply good_put_head; [|done]. simpl. intros. by apply Z.eqb_neq in Eo.
    + intros s1 [] E1 C1 _. apply tri_conserve; [apply conserves_assert|]. intros s2 [] [-> _]%assert_Ok _ _.
      apply tri_conserve; [apply conserves_not_null|]. intros s2 p [-> ->]%not_null_Ok _ _.
      apply tri_shared_subs_add. apply bind_Ok in E1 as (s2 & ch2 & [-> E2]%head_at_Ok & [= <-]).
      eapply (covers_head_shared _ [] (w, h) (ch_set_shared ch2 (Some p))); [exact C1| |done]. simpl. apply lookup_insert_eq.
Qed.

Lemma tri_subscribed x s d :
  tri x (RString (sd_chid d) :: opt (RHead sender) (sd_owner d)) s (subscribed w sender d) (fun _ => []).
Proof.
  eapply tri_bind; [apply tri_str_shm_free|]. intros s1 [] _ _ _.
  destruct (sd_owner d) as [h|] eqn:E; [|by apply tri_ret].
  eapply tri_conseq; [apply tri_reply| |intros; apply hand_le_refl]. intros r. unfold owns. simpl. by rewrite E.
Qed.

Lemma tri_nevermind x s d :
  tri x (RString (sd_chid d) :: opt (RHead sender) (sd_owner d)) s
    (_ ← ipc_cmd w sender (cmd_subscribe_chanhead_nevermind_release d); mret ()) (fun _ => []).
Proof. exact (tri_reply x s (cmd_subscribe_chanhead_nevermind_release d)). Qed.

Lemma tri_receive_subscribe_reply x s d : gives x s (cmd_subscribe_reply d) (receive_subscribe_reply w sender d).
Proof.
  cbn [owns p_alert p_src]. apply tri_str_at; [by left|]. intros id _. apply tri_conserve; [apply conserves_get_no_ipc|].
  intros s1 [h|] _ _ _; cycle 1.
  { apply (tri_drop_inexact x [RString (sd_chid d)]); [|apply tri_str_shm_free].
    apply Forall_app. split; [destruct (sd_shared d)|destruct (sd_owner d)]; repeat constructor; auto. }
  assert (forall (m : M unit),
    (forall s', tri x (RString (sd_chid d) :: opt (RHead sender) (sd_owner d)) s' m (fun _ => [])) ->
    forall s', tri x (RString (sd_chid d) :: opt RShared (sd_shared d) ++ opt (RHead sender) (sd_owner d)) s' m (fun _ => []))
    as Drop.
  { intros m T s'. eapply tri_conseq; [apply (tri_drop_inexact x (RString (sd_chid d) :: opt (RHead sender) (sd_owner d)) (opt RShared (sd_shared d))); [|apply T]| |intros; apply hand_le_refl].
    - destruct (sd_shared d); repeat constructor; auto.
    - hands. }
  destruct (negb (bool_decide (h = sd_origin d))).
  { apply Drop. intros s2. apply tri_conserve; [apply conserves_assert|]. intros s3 [] _ _ _. apply tri_nevermind. }
  assert (forall s2, tri x (RString (sd_chid d) :: opt RShared (sd_shared d) ++ opt (RHead sender) (sd_owner d)) s2
    (take_shared w h (sd_shared d);;
     ch ← head_at w h;
     if bool_decide (is_Some (ch_foreign_owner_ipc_sub ch)) && negb (bool_decide (ch_foreign_owner_ipc_sub ch = sd_subscriber d)) then
       memstore_ready_chanhead_unless_stub w h;;
       _ ← ipc_cmd w sender (cmd_subscribe_chanhead_nevermind_release d); mret ()
     else
       update_head w h (fun ch => ch_set_foreign_sub ch (sd_subscriber d));;
       memstore_ready_chanhead_unless_stub w h;;
       subscribed w sender d) (fun _ => [])) as Take.
  { intros s2. eapply tri_bind.
    - eapply tri_conseq; [apply (tri_frame x (opt RShared (sd_shared d)) (RString (sd_chid d) :: opt (RHead sender) (sd_owner d))),
        tri_take_shared| |intros; apply hand_le_refl]. hands.
    - intros s3 [] _ _ _. apply tri_head_at. intros ch _. destruct (_ && _).
      + apply tri_conserve; [apply conserves_ready|]. intros. apply tri_nevermind.
      + apply tri_conserve; [by apply conserves_update_head|]. intros s4 [] _ _ _.
        apply tri_conserve; [apply conserves_ready|]. intros. apply tri_subscribed. }
  destruct (sd_shared d) as [sh|] eqn:Esh, (sd_subscriber d) as [sub|] eqn:Esub; try apply Take.
  apply tri_conserve; [apply conserves_publish_status|]. intros s2 n _ _ _.
  apply tri_conserve; [by apply conserves_update_head|]. intros s3 [] _ _ _.
  apply tri_conserve; [apply conserves_gc_add|]. intros s4 [] _ _ _. apply tri_subscribed.
Qed.

Lemma tri_receive_release x s d :
  gives x s (cmd_subscribe_chanhead_release d) (receive_subscribe_chanhead_release w sender d).
Proof.
  cbn [owns p_alert p_dst]. unfold receive_subscribe_chanhead_release. destruct (sd_owner d) as [h|]; [|by intros _ _].
  apply tri_conserve; [apply conserves_ret|]. intros s1 h' [= <- <-] _ _. apply tri_release.
Qed.

(** After the handler's lookup. *)
Lemma tri_find x c s p {A} (k : option positive -> M A) c' :
  RString p ∈ c ->
  (forall id s' r, strings s !! p = Some id -> nchan_memstore_find_chanhead w id s = Ok (s', r) -> covers s' c ->
    tri x c s' (k r) c') ->
  tri x c s ((id ← str_at p; nchan_memstore_find_chanhead w id) ≫= k) c'.
Proof.
  intros I T. apply tri_assoc, tri_str_at; [done|]. intros id E.
  apply tri_conserve; [apply conserves_find|]. intros s' r Er C _. by eapply T.
Qed.

Lemma tri_lose {A} c s (a : A) : tri false c s (mret a : M A) (fun _ => []).
Proof. apply (tri_drop [] c); [by apply tri_ret|]. intros r. apply cnt_pos. Qed.

Lemma unhook_poolable s sub s' u : memstore_ipc_subscriber_unhook (S := S) w sub s = Ok (s', u) -> poolable w s' sub.
Proof.
  intros (s1 & b & E1 & (s2 & d & E2 & [= <-])%bind_Ok)%bind_Ok b'. simpl. rewrite lookup_insert_eq. intros [= <-]. by right.
Qed.

Lemma tri_receive_nevermind x s d :
  fits x s (Packet sender w (cmd_subscribe_chanhead_nevermind_release d)) ->
  gives x s (cmd_subscribe_chanhead_nevermind_release d) (receive_subscribe_chanhead_nevermind_release w sender d).
Proof.
  cbn [owns p_alert p_dst fits]. intros F. apply tri_find; [by left|]. intros id s1 r Ei Er _.
  destruct (bool_decide (r = None) || negb (bool_decide (r = sd_owner d))) eqn:Eo.
  { destruct x; [|apply tri_lose]. destruct (F eq_refl id s1 r Ei Er) as [F1 F2].
    rewrite !bool_decide_eq_false_2, bool_decide_eq_true_2 in Eo by done. done. }
  apply tri_conserve; [apply conserves_not_null|]. intros s2 sub [-> _]%not_null_Ok _ _.
  apply tri_conserve; [apply conserves_unhook|]. intros s2 [] P%unhook_poolable _ _.
  apply tri_conserve; [by apply tri_internal_respond_status|]. intros s3 [] _ _ _.
  destruct (sd_owner d) as [h|]; [|by intros _ _].
  apply tri_conserve; [apply conserves_ret|]. intros s4 h' [= <- <-] _ _.
  apply (tri_bind _ _ _ _ _ (fun _ => [RString (sd_chid d)])); [|intros; apply tri_str_shm_free].
  eapply tri_conseq; [apply (tri_release x [RString (sd_chid d)])| |intros; apply hand_le_refl]. hands.
Qed.

Lemma tri_receive_unsubscribed x s p :
  fits x s (Packet sender w (cmd_unsubscribed p)) -> gives x s (cmd_unsubscribed p) (receive_unsubscribed w sender p).
Proof.
  cbn [owns p_alert p_dst fits]. intros F. apply tri_str_at; [by left|]. intros id Ei.
  destruct (negb _); [|apply tri_str_shm_free].
  apply tri_conserve; [apply conserves_find|]. intros s1 [h|] Er _ _.
  - apply tri_conserve; [by apply conserves_update_head|]. intros s2 [] _ _ _.
    apply tri_head_at. intros ch _. apply tri_conserve; [conserving|]. intros. apply tri_str_shm_free.
  - destruct x; [|apply tri_lose]. by destruct (F eq_refl id s1 None Ei Er).
Qed.

(** ** Publishing *)

Lemma tri_receive_publish_status x s d : gives x s (cmd_publish_status d) (receive_publish_status w sender d).
Proof.
  cbn [owns p_alert]. apply tri_find; [by left|]. intros id s1 [h|] _ _ _; [|apply tri_str_shm_free].
  apply tri_conserve; [apply conserves_publish_status|]. intros. apply tri_str_shm_free.
Qed.
Lemma tri_receive_publish_notice x s d : gives x s (cmd_publish_notice d) (receive_publish_notice w sender d).
Proof.
  cbn [owns p_alert]. apply tri_find; [by left|]. intros id s1 [h|] _ _ _; [|apply tri_str_shm_free].
  apply tri_conserve; [apply conserves_publish_notice|]. intros. apply tri_str_shm_free.
Qed.

Lemma tri_receive_publish_message x s d : gives x s (cmd_publish_message d) (receive_publish_message w sender d).
Proof.
  cbn [owns p_alert]. apply tri_str_at; [by right; left|]. intros id _.
  apply (tri_bind _ _ _ _ _ (fun _ => [RMessage (pd_msg d); RString (pd_chid d)])).
  - destruct (_ =? w).
    + apply tri_conserve; [apply conserves_assert|]. intros s1 [] _ _ _.
      eapply tri_bind; [by apply tri_publish_message; [|left]|]. intros. by apply tri_ret.
    + apply tri_conserve; [apply conserves_get|]. intros s1 [h|] _ C _; [|by apply tri_ret].
      apply tri_conserve; [|intros; by apply tri_ret]. apply tri_publish_generic. intros ? [= <-].
      eapply covers_message; [exact C|by left].
  - intros s1 [] _ _ _. eapply tri_bind; [apply tri_msg_release|]. intros. apply tri_str_shm_free.
Qed.

Lemma tri_receive_publish_reply x s d : gives x s (cmd_publish_message_reply d) (receive_publish_message_reply w sender d).
Proof. cbn [owns p_alert]. unfold receive_publish_message_reply. conserving. Qed.

(** ** Reading *)

Lemma tri_reply_get_message x s d code msg :
  tri x (opt RMessage msg ++ [RString (gm_chid d)]) s (reply_get_message w sender d code msg) (fun _ => []).
Proof. exact (tri_reply x s (cmd_get_message_reply (GetMessageData (gm_chid d) (gm_privdata d) (getmsg_resp code msg)))). Qed.

Lemma tri_proxy_get_message s h i d :
  tri false [RString (gm_chid d)] s (proxy_get_message w sender h i d) (fun _ => []).
Proof.
  apply tri_conserve; [apply conserves_heap_room|]. intros s1 room _ _ _.
  destruct (negb room); [exact (tri_reply_get_message false s1 d MSG_ERROR None)|].
  eapply tri_bind; [by apply getmsg_proxy_create_spec|]. intros s2 sub (b & Eb & Ee & Ed)%getmsg_proxy_create_new _ _.
  eapply tri_bind.
  - apply (spooler_add_law _ _ _ _ _ [RString (gm_chid d)]). rewrite Eb. split; [done|]. unfold proxy_strings. by rewrite Ed.
  - intros s3 rc _ _ _. cbv beta. destruct (rc =? NGX_OK); simpl; [by apply tri_ret|].
    exact (tri_reply_get_message false s3 d MSG_ERROR None).
Qed.

Lemma tri_receive_get_message x s d :
  fits x s (Packet sender w (cmd_get_message d)) -> gives x s (cmd_get_message d) (receive_get_message w sender d).
Proof.
  cbn [owns p_alert p_dst fits]. intros F. apply tri_str_at; [by left|]. intros id Ei.
  apply tri_conserve; [apply conserves_assert|]. intros s1 [] [-> _]%assert_Ok _ _.
  destruct (gm_d d) as [i|]; [|by intros _ _].
  apply tri_conserve; [apply conserves_ret|]. intros s1 i' [= <- <-] _ _.
  apply tri_conserve; [apply conserves_find|]. intros s1 [h|] Er _ _; [|exact (tri_reply_get_message x s1 d MSG_NOTFOUND None)].
  apply tri_head_at. intros ch Ech. destruct (ch_msg_buffer_complete ch) eqn:Ec.
  - apply tri_conserve; [apply find_next_message_law|]. intros s2 [msg code] Ef _ _.
    apply (tri_bind _ _ _ _ _ (fun _ => opt RMessage msg ++ [RString (gm_chid d)])); [|intros; apply tri_reply_get_message].
    destruct msg as [m|]; [|by apply tri_ret]. apply tri_msg_reserve. by eapply find_next_message_live.
  - destruct x; [|apply tri_proxy_get_message]. by rewrite (F eq_refl id s1 (Some h) Ei Er h ch eq_refl Ech) in Ec.
Qed.

Lemma tri_receive_get_message_reply x s d :
  gives x s (cmd_get_message_reply d) (receive_get_message_reply w sender d).
Proof.
  cbn [owns p_alert]. apply tri_str_at; [apply elem_of_app; right; by left|]. intros id _.
  apply tri_conserve; [apply conserves_assert|]. intros s1 [] [-> _]%assert_Ok _ _.
  destruct (gm_d d) as [|code msg]; [by intros _ _|]. simpl.
  apply tri_conserve; [apply getmsg_call_law|]. intros s1 [] _ _ _.
  apply (tri_bind _ _ _ _ _ (fun _ => [RString (gm_chid d)])); [|intros; apply tri_str_shm_free].
  destruct msg as [m|]; [apply tri_msg_release|by apply tri_ret].
Qed.

(** ** Deleting *)

Lemma tri_receive_delete x s d : gives x s (cmd_delete d) (receive_delete w sender d).
Proof.
  cbn [owns p_alert]. apply tri_str_at; [by left|]. intros id _.
  exact (tri_force_delete_channel w x s id
    (delete_callback (DeleteData (dd_chid d) sender (dd_channel_info d) (dd_code d) (dd_callback d)))).
Qed.

Lemma tri_access_info x c s p {A} (k : nchan_channel_t -> M A) c' :
  RInfo p ∈ c -> (forall i, infos s !! p = Some i -> tri x c s (k i) c') ->
  tri x c s (access (RInfo p) (fun s => infos s !! p) ≫= k) c'.
Proof.
  intros I T. apply tri_intro. intros C _. eapply tri_bind.
  - apply (tri_access x c). intros _. by eapply covers_info.
  - intros s' i E _ _. unfold access in E. destruct (infos s !! p) eqn:El; [|done]. injection E as <- <-. by apply T.
Qed.

Lemma tri_receive_delete_reply x s d : gives x s (cmd_delete_reply d) (receive_delete_reply w sender d).
Proof.
  cbn [owns p_alert]. unfold receive_delete_reply.
  apply (tri_bind _ _ _ _ _ (fun _ => [RString (dd_chid d)])); [|intros; apply tri_str_shm_free].
  destruct (dd_channel_info d) as [p|]; simpl; [|apply conserves_tri, client_call_law].
  apply tri_access_info; [by left|]. intros i _. apply tri_conserve; [apply client_call_law|]. intros s1 [] _ _ _.
  apply tri_access_info; [by left|]. intros i' E.
  apply tri_modify; [intros r|intros _ r _|done]; rewrite slack_drop_info, (at_key_some _ _ _ _ E); simpl; lia.
Qed.

(** ** Looking up *)

Lemma tri_info_continued x s d head :
  tri x [RString (ci_chid d)] s (receive_get_channel_info_continued w sender d head) (fun _ => []).
Proof.
  apply tri_str_at; [by left|]. intros id _. apply tri_conserve; [apply conserves_assert|]. intros s1 [] _ _ _.
  apply (tri_bind _ _ _ _ _ (fun d' => [RString (ci_chid d')])).
  - destruct head as [h|]; [|by apply tri_ret]. apply tri_head_at. intros ch _.
    apply tri_conserve; [apply conserves_assert|]. intros. by apply tri_ret.
  - intros s2 d' _ _ _. reply_it.
Qed.

Lemma tri_defer x s c : tri x (deferred_owns c) s (defer w c) (fun _ => []).
Proof.
  apply tri_conserve; [apply conserves_gets|]. intros s1 p [-> ->]%gets_Ok _ _.
  apply tri_modify; [intros r|intros _ r _|done]; rewrite slack_put_deferred, at_key_none by apply fresh_in_None; simpl; lia.
Qed.

Lemma tri_receive_get_channel_info x s d : gives x s (cmd_get_channel_info d) (receive_get_channel_info w sender d).
Proof.
  cbn [owns p_alert]. apply tri_find; [by left|]. intros id s1 r _ _ _. destruct (_ && _); [|apply tri_info_continued].
  exact (tri_defer x s1 (redis_find_backup sender d)).
Qed.

Notation gives_but x s a m := (tri_but (unheld (Packet sender w a)) x (owns (Packet sender w a)) s m (fun _ => [])).

Lemma tri_receive_get_channel_info_reply x s d :
  gives_but x s (cmd_get_channel_info_reply d) (receive_get_channel_info_reply w sender d).
Proof.
  cbn [owns p_alert]. unfold receive_get_channel_info_reply.
  apply (tri_but_bind _ _ _ _ _ _ (fun _ => [RString (ci_chid d)])); [|intros; apply tri_but_tri, tri_str_shm_free].
  destruct (ci_channel_info d) as [p|] eqn:Ep; [|apply tri_but_tri, conserves_tri, client_call_law].
  apply tri_but_access; [intros _; by exists p|]. intros sh _. apply tri_but_tri, conserves_tri, client_call_law.
Qed.

Lemma tri_reply_auth x s d ok : tri x [RString (ac_chid d)] s (reply_auth w sender d ok) (fun _ => []).
Proof. unfold reply_auth. reply_it. Qed.

Lemma tri_receive_auth x s d : gives x s (cmd_channel_auth_check d) (receive_channel_auth_check w sender d).
Proof.
  cbn [owns p_alert]. apply tri_str_at; [by left|]. intros id _. apply tri_conserve; [apply conserves_assert|]. intros s1 [] _ _ _.
  destruct (negb _); [|exact (tri_defer x s1 (redis_auth_check sender d))].
  apply tri_conserve; [apply conserves_find|]. intros s2 [h|] _ _ _; [|apply tri_reply_auth].
  destruct (_ =? 0); [apply tri_reply_auth|]. apply tri_intro. intros C _. apply tri_head_at. intros ch Ech.
  apply tri_conserve; [apply conserves_not_null|]. intros s3 p [-> Ep]%not_null_Ok _ _.
  apply tri_shared_at; [by eapply covers_head_shared|]. intros sh _. apply tri_reply_auth.
Qed.

Lemma tri_receive_auth_reply x s d : gives x s (cmd_channel_auth_check_reply d) (receive_channel_auth_check_reply w sender d).
Proof.
  cbn [owns p_alert]. apply tri_conserve; [apply client_call_law|]. intros. apply tri_str_shm_free.
Qed.

(** ** Keeping a subscription *)

Lemma tri_keepalive_action x s d h :
  tri_but (fun r => r = RString (ka_chid d)) x [] s (keepalive_action w d h) (fun _ => []).
Proof.
  unfold keepalive_action. apply tri_but_conserve; [apply conserves_head_at|]. intros s1 ch _.
  destruct (negb _); [by apply tri_but_tri, tri_ret|]. destruct (_ && _).
  - apply tri_but_conserve; [apply conserves_publish_status|]. intros s2 n _.
    apply tri_but_access; [done|]. intros id _. apply tri_but_tri.
    apply tri_conserve; [exact (tri_force_delete_channel w x s2 id empty_callback)|]. intros. by apply tri_ret.
  - apply tri_but_tri. conserving.
Qed.

Lemma tri_receive_keepalive x s d :
  gives_but x s (cmd_subscriber_keepalive d) (receive_subscriber_keepalive w sender d).
Proof.
  cbn [owns p_alert p_src]. unfold receive_subscriber_keepalive.
  apply (tri_but_bind _ _ _ _ _ _ (fun _ => [RSub sender (ka_ipc_sub d); RString (ka_chid d)])).
  { apply tri_but_tri. apply tri_str_at; [by right; left|]. intros id _. apply conserves_tri, conserves_find. }
  intros s1 r _. apply (tri_but_bind _ _ _ _ _ _ (fun _ => [RSub sender (ka_ipc_sub d)])).
  { apply tri_but_tri. eapply tri_conseq; [apply (tri_str_shm_free x [RSub sender (ka_ipc_sub d)])| |intros; apply hand_le_refl]. hands. }
  intros s2 [] _. apply (tri_but_bind _ _ _ _ _ _ (fun _ => [RSub sender (ka_ipc_sub d)])).
  - apply tri_but_frame. destruct r as [h|]; [apply tri_keepalive_action|by apply tri_but_tri, tri_ret].
  - intros s3 action _. apply tri_but_tri. reply_it.
Qed.

Lemma tri_receive_keepalive_reply x s d :
  gives x s (cmd_subscriber_keepalive_reply d) (receive_subscriber_keepalive_reply w sender d).
Proof.
  cbn [owns p_alert p_dst]. unfold receive_subscriber_keepalive_reply. cbv zeta.
  apply tri_conserve; [destruct (ka_reply_action d); conserving|]. intros s1 [] _ _ _.
  eapply tri_bind; [apply tri_internal_release|]. intros. by apply (tri_ret _ []).
Qed.

Lemma tri_receive_get_group x s p : gives x s (cmd_get_group p) (receive_get_group w sender p).
Proof.
  cbn [owns p_alert]. apply tri_str_at; [by left|]. intros id _.
  apply tri_conserve; [apply group_owner_find_law|]. intros s1 [g new] _ _ _.
  apply tri_conserve; [|intros; apply tri_str_shm_free].
  destruct (negb new); [|by apply tri_ret]. exact (tri_reply x s1 (cmd_group g)).
Qed.

Lemma tri_alert_handler x s a :
  fits x s (Packet sender w a) -> gives_but x s a (memstore_ipc_alert_handler w sender a).
Proof.
  intros F. destruct a; simpl memstore_ipc_alert_handler;
    first [apply tri_receive_get_channel_info_reply|apply tri_receive_keepalive|apply tri_but_tri];
    first [apply tri_receive_subscribe|apply tri_receive_subscribe_reply|apply tri_receive_release
      |by apply tri_receive_nevermind|by apply tri_receive_unsubscribed|apply tri_receive_publish_message
      |apply tri_receive_publish_reply|apply tri_receive_publish_status|apply tri_receive_publish_notice
      |by apply tri_receive_get_message|apply tri_receive_get_message_reply|apply tri_receive_delete
      |apply tri_receive_delete_reply|apply tri_receive_get_channel_info
      |apply tri_receive_auth|apply tri_receive_auth_reply|apply tri_receive_keepalive_reply
      |apply tri_receive_get_group|apply group_receive_law|apply group_receive_delete_law|by apply tri_ret|apply other_alert_law].
Qed.

End worker.

(** ** Redis has answered *)

Lemma tri_redis_answered w x s key c ch :
  deferred s !! (w, key) = Some c -> tri x [] s (redis_answered w key c ch) (fun _ => []).
Proof.
  intros E. apply (tri_bind _ _ _ _ _ (fun _ => deferred_owns c)).
  - apply tri_modify; [intros r|intros _ r _|done]; rewrite slack_drop_deferred, (at_key_some _ _ _ _ E); simpl; lia.
  - intros s1 [] _ _ _. destruct c as [sd d|sd d]; simpl; [apply tri_reply_auth|].
    destruct ch as [ch|]; [|apply tri_info_continued].
    apply tri_str_at; [by left|]. intros id _. apply tri_conserve; [apply conserves_get|]. intros. apply tri_info_continued.
Qed.
End handlers.
