(* ===== verification/IpcSystem.v ===== *)
(** * All the workers

    Workers take turns: one handles an alert, or does something of its own.
    Alerts between two workers arrive in the order they were sent. *)

From S2P Require Import Prelude Nginx MsgId Msg ChannelId ChanHead Worker IpcSend InternalSub ChanReady ChanRequest.
From S2P Require Import IpcHandlers IpcLedger IpcLedgerFacts IpcLedgerOps IpcLedgerSubs IpcLedgerHeads IpcLedgerRequests IpcLedgerHandlers.

(** The oldest alert from one worker to another. *)
Fixpoint take_packet (src dst : Z) (l : list packet) : option (packet * list packet) :=
  match l with
  | [] => None
  | pk :: l =>
      if (p_src pk =? src) && (p_dst pk =? dst) then Some (pk, l)
      else match take_packet src dst l with Some (q, rest) => Some (q, pk :: rest) | None => None end
  end.

Lemma take_packet_split src dst l pk rest :
  take_packet src dst l = Some (pk, rest) ->
  exists l1 l2, l = l1 ++ pk :: l2 /\ rest = l1 ++ l2 /\ p_src pk = src /\ p_dst pk = dst.
Proof.
  revert rest. induction l as [|q l IH]; simpl; [done|]. intros rest. destruct (_ && _) eqn:E.
  - apply andb_true_iff in E as [E1%Z.eqb_eq E2%Z.eqb_eq]. intros [= -> ->]. by exists [], rest.
  - destruct (take_packet src dst l) as [[q' r]|] eqn:Et; [|done]. intros [= -> <-].
    destruct (IH r eq_refl) as (l1 & l2 & -> & -> & ? & ?). by exists (q :: l1), l2.
Qed.

Section system.
Context {S : Type} `{StoreEnvLaws S}.
Notation sys := (sys S).
Notation M := (M S).
Implicit Types (s : sys).

Definition deliver (src dst : Z) : M unit :=
  l ← gets wire;
  '(pk, rest) ← not_null (take_packet src dst l);
  modify (fun s => set_wire s rest);;
  memstore_ipc_alert_handler dst src (p_alert pk).

(** What a worker does of itself: requests of its clients, what a pool does
    with a subscriber that is in it, timers, answers of Redis, and whatever the
    other components do with their own state. *)
Inductive action :=
  | alert_arrives (src dst : Z)
  | client_wants_channel (w : Z) (id : bytes) (cf : ipc_conf)
  | client_publishes (w : Z) (id : bytes) (m : nchan_msg_t) (cf : ipc_conf) (callback : positive)
  | client_deletes (w : Z) (id : bytes) (cf : ipc_conf) (callback : positive)
  | client_looks_up (w : Z) (id : bytes) (cf : ipc_conf) (callback : positive)
  | client_reads (w : Z) (id : bytes) (msgid : nchan_msg_id_t) (cookie : positive)
  | client_checks (w dst : Z) (id : bytes) (cf : ipc_conf) (callback : positive)
  | group_wanted (w dst : Z) (name : bytes)
  | group_made (w : Z) (g : positive)
  | group_deleted (w : Z) (g : positive)
  | pool_gives_message (w : Z) (sub msg : positive)
  | pool_gives_status (w : Z) (sub : positive) (code : Z) (line : option bytes)
  | pool_gives_notice (w : Z) (sub : positive) (code : Z) (data : option bytes)
  | pool_dequeues (w : Z) (sub : positive)
  | timer_fires (w : Z) (sub : positive)
  | redis_answers (w : Z) (key : positive) (ch : option nchan_channel_t)
  | elsewhere (m : M unit).

Definition perform (a : action) : M unit :=
  match a with
  | alert_arrives src dst => deliver src dst
  | client_wants_channel w id cf => _ ← nchan_memstore_get_chanhead w id cf; mret ()
  | client_publishes w id m cf cb =>
      _ ← nchan_store_publish_message_to_single_channel_id w id (own_msg m) cf (client_callback cb); mret ()
  | client_deletes w id cf cb => nchan_store_delete_single_channel_id w id cf cb
  | client_looks_up w id cf cb => nchan_store_find_channel w id cf cb
  | client_reads w id msgid cookie => _ ← nchan_store_async_get_message w id msgid cookie; mret ()
  | client_checks w dst id cf cb => _ ← memstore_ipc_send_channel_existence_check w dst id cf cb; mret ()
  | group_wanted w dst name => _ ← memstore_ipc_send_get_group w dst name; mret ()
  | group_made w g => _ ← memstore_ipc_broadcast_group w g; mret ()
  | group_deleted w g => _ ← memstore_ipc_broadcast_group_delete w g; mret ()
  | pool_gives_message w sub msg => internal_respond_message w sub msg
  | pool_gives_status w sub code line => internal_respond_status w sub code line
  | pool_gives_notice w sub code data => internal_notify w sub code data
  | pool_dequeues w sub => internal_dequeue w sub
  | timer_fires w sub => keepalive_timeout w sub
  | redis_answers w key ch =>
      c ← gets (fun s => deferred s !! (w, key));
      c ← not_null c;
      redis_answered w key c ch
  | elsewhere m => m
  end.

Definition allowed (x : bool) s (a : action) : Prop :=
  match a with
  | alert_arrives src dst =>
      forall pk rest, take_packet src dst (wire s) = Some (pk, rest) -> fits x (set_wire s rest) pk
  | pool_gives_message w sub msg => poolable w s sub /\ is_Some (messages s !! msg)
  | pool_gives_status w sub _ _ => poolable w s sub
  | elsewhere m => conserves m
  | _ => True
  end.

Definition step (x : bool) s s' : Prop := exists a, allowed x s a /\ perform a s = Ok (s', ()).

(** What an action goes through without holding it. *)
Definition suspect s (a : action) (r : resource) : Prop :=
  match a with
  | alert_arrives src dst => exists pk rest, take_packet src dst (wire s) = Some (pk, rest) /\ unheld pk r
  | _ => False
  end.

(** ** Every action keeps the ledger *)

Lemma tri_deliver x s src dst :
  allowed x s (alert_arrives src dst) ->
  tri_but (suspect s (alert_arrives src dst)) x [] s (deliver src dst) (fun _ => []).
Proof.
  intros F. apply tri_but_conserve; [apply conserves_gets|]. intros s1 l [-> ->]%gets_Ok.
  apply tri_but_conserve; [apply conserves_not_null|]. intros s1 [pk rest] [-> E]%not_null_Ok.
  specialize (F pk rest E). pose proof E as (l1 & l2 & El & -> & <- & <-)%take_packet_split.
  apply (tri_but_bind _ _ _ _ _ _ (fun _ => owns pk)).
  - apply tri_but_tri, tri_modify; [intros r|intros _ r _|done]; rewrite (slack_receive _ _ _ _ _ El); simpl; lia.
  - intros s1 [] [= <-] C G. destruct pk as [src dst a].
    pose proof (tri_alert_handler dst src x _ a F C G) as T. simpl p_src. simpl p_dst. simpl p_alert.
    destruct (memstore_ipc_alert_handler dst src a _) as [[s' u]| |r|]; try done.
    intros Gr. eexists _, _. split; [exact E|]. by apply T.
Qed.

Lemma tri_perform x s a : allowed x s a -> tri_but (suspect s a) x [] s (perform a) (fun _ => []).
Proof.
  intros F. destruct a; cbn [perform allowed] in *; [by apply tri_deliver|apply tri_but_tri..].
  - conserving.
  - apply tri_conserve; [by apply tri_publish_message|]. intros. by apply tri_ret.
  - apply conserves_delete_channel.
  - apply conserves_find_channel.
  - apply tri_conserve; [apply tri_async_get_message|]. intros. by apply tri_ret.
  - conserving.
  - conserving.
  - apply tri_conserve; [|intros; by apply tri_ret]. apply conserves_bind; [by apply conserves_broadcast|intros; apply conserves_ret].
  - apply tri_conserve; [|intros; by apply tri_ret]. apply conserves_bind; [by apply conserves_broadcast|intros; apply conserves_ret].
  - apply tri_internal_respond_message; apply F.
  - by apply tri_internal_respond_status.
  - conserving.
  - conserving.
  - apply tri_keepalive_timeout.
  - apply tri_conserve; [apply conserves_gets|]. intros s1 c [-> ->]%gets_Ok _ _.
    apply tri_conserve; [apply conserves_not_null|]. intros s1 c [-> E]%not_null_Ok _ _. by apply tri_redis_answered.
  - apply F.
Qed.

Lemma step_moves x s s' : step x s s' -> covers s [] -> good x s -> moves x s [] s' [].
Proof. intros (a & F & E) C G. pose proof (tri_perform x s a F C G) as T. by rewrite E in T. Qed.

Lemma steps_moves x s s' : rtc (step x) s s' -> covers s [] -> good x s -> moves x s [] s' [].
Proof.
  induction 1 as [s|s s1 s2 St _ IH]; intros C G; [by apply ledger_moves_refl|].
  pose proof (step_moves x s s1 St C G) as Mv. eapply ledger_moves_trans; [exact Mv|]. apply IH; [by eapply moves_covers|apply Mv].
Qed.

(** ** What holds of every run *)

(** A state in which nothing is shared yet. *)
Record initial s : Prop := Initial {
  initial_heads : heads s = ∅;
  initial_subs : subs s = ∅;
  initial_deferred : deferred s = ∅;
  initial_strings : strings s = ∅;
  initial_infos : infos s = ∅;
  initial_messages : messages s = ∅;
  initial_shareds : shareds s = ∅;
  initial_wire : wire s = [];
}.

Lemma initial_slack s r : initial s -> slack s r = 0.
Proof.
  intros [Eh Es Ed Est Ei Em Esh Ew]. unfold slack, live, held. rewrite Ew, Es, Ed, Eh, !msum_empty. simpl.
  destruct r; simpl; rewrite ?Est, ?Ei, ?Em, ?Esh, ?Eh, ?Es; unfold at_key; rewrite ?lookup_empty; lia.
Qed.
Lemma initial_covers s : initial s -> covers s [].
Proof. intros I r. rewrite initial_slack by done. simpl. lia. Qed.
Lemma initial_good x s : initial s -> good x s.
Proof.
  intros I. split.
  - intros _ k b. by rewrite (initial_subs s I), lookup_empty.
  - intros k ch. by rewrite (initial_heads s I), lookup_empty.
Qed.

Lemma reachable_covers x s0 s : initial s0 -> rtc (step x) s0 s -> covers s [] /\ good x s.
Proof.
  intros I R. pose proof (steps_moves x s0 s R (initial_covers s0 I) (initial_good x s0 I)) as Mv.
  split; [by eapply moves_covers; [|apply initial_covers]|apply Mv].
Qed.

(** C8. Whatever the workers do and however their alerts interleave, nothing that
    one of them holds for an exchange is let go before its end: each string,
    channel information and message in an alert on its way, each head that an
    owner has reserved for a subscription under way, each subscriber whose
    keepalive is under way, and the counters that a head of another worker
    points to, are there and counted as often as they are held. *)
Theorem held_resources_live s0 s r :
  initial s0 -> rtc (step false) s0 s -> held s r <= live s r.
Proof.
  intros I R. destruct (reachable_covers false s0 s I R) as [C _]. specialize (C r). unfold slack in C. simpl in C. lia.
Qed.

(** C10. The only handlers that can go through a string, a channel information, a
    message or shared counters that were freed are the one of the answer to a
    lookup, for the counters that the answer points to (they are not reserved
    for it), and the one of a keepalive, for the name of the channel that came
    with it (freed before it is used).  No other alert, request or timer does,
    in any interleaving, as long as the pools hand over messages that are
    there. *)
Theorem no_freed_shared_memory s0 s a r :
  initial s0 -> rtc (step false) s0 s -> allowed false s a -> perform a s = Freed r -> guarded r ->
  exists src dst pk rest, a = alert_arrives src dst /\ take_packet src dst (wire s) = Some (pk, rest) /\
    match p_alert pk with
    | cmd_get_channel_info_reply d => exists p, ci_channel_info d = Some p /\ r = RShared p
    | cmd_subscriber_keepalive d => r = RString (ka_chid d)
    | _ => False
    end.
Proof.
  intros I R F E Gr. destruct (reachable_covers false s0 s I R) as [C G].
  pose proof (tri_perform false s a F C G) as T. rewrite E in T. specialize (T Gr).
  destruct a as [src dst| | | | | | | | | | | | | | | |]; try done. destruct T as (pk & rest & Et & U). by exists src, dst, pk, rest.
Qed.

(** An owner lets go of a head, and a keepalive of its subscriber, only while
    they are there. *)
Theorem subscription_release_safe s0 s src dst d rest r :
  initial s0 -> rtc (step false) s0 s ->
  take_packet src dst (wire s) = Some (Packet src dst (cmd_subscribe_chanhead_release d), rest) ->
  deliver src dst s <> Freed r.
Proof.
  intros I R E. destruct (reachable_covers false s0 s I R) as [C _].
  unfold deliver, gets, mbind, M_bind. simpl. rewrite E. simpl.
  unfold receive_subscribe_chanhead_release. destruct (sd_owner d) as [h|] eqn:Eo; [|done]. simpl.
  apply take_packet_split in E as (l1 & l2 & El & -> & _ & _).
  apply (release_safe _ []). intros r'. rewrite (slack_receive _ _ _ _ _ El). unfold owns. simpl. rewrite Eo.
  specialize (C r'). simpl in *. lia.
Qed.

(** C23. The shared memory of the exchanges is given back to the last byte in a run
    in which, whenever they arrive, a notice that a subscription has ended finds
    the head of its channel, a subscription that came too late finds the head
    that it was for, and a read finds the channel with a complete buffer or not
    at all ([fits true]; [proxied_read_unanswered] is what happens otherwise): a
    string is there exactly if one alert on its way carries it, or a request
    that waits for Redis; so once all alerts are read and Redis has answered,
    none is left. *)
Theorem shared_memory_given_back s0 s :
  initial s0 -> rtc (step true) s0 s -> wire s = [] -> deferred s = ∅ -> strings s = ∅ /\ infos s = ∅.
Proof.
  intros I R Ew Ed. destruct (steps_moves true s0 s R (initial_covers s0 I) (initial_good true s0 I)) as (_ & X & G).
  assert (forall r, exact r -> msum (fun ch => cnt r (head_owns ch)) (heads s) = 0) as Hh.
  { intros r Er. generalize (heads s). intros m. induction m as [|k ch m N IH] using map_ind; [apply msum_empty|].
    rewrite msum_insert_new, IH by done. rewrite cnt_not_elem; [done|]. unfold head_owns. destruct (ch_shared ch); simpl; [|set_solver].
    destruct (_ =? _); intros ->%list_elem_of_singleton; done. }
  assert (forall r, msum (fun b => cnt r (sub_owns b)) (subs s) = 0) as Hs.
  { destruct G as [P _]. specialize (P eq_refl). intros r. revert P. unfold plain. generalize (subs s). intros m.
    induction m as [|k b m N IH] using map_ind; intros P; [apply msum_empty|].
    rewrite msum_insert_new by done. rewrite IH by (intros k' b' E; apply (P k'); rewrite lookup_insert_ne by congruence; done).
    unfold sub_owns. rewrite (P k b (lookup_insert_eq _ _ _)). by destruct (isub_enqueued b). }
  assert (forall r, exact r -> live s r = 0) as L.
  { intros r Er. specialize (X eq_refl r Er). rewrite initial_slack in X by done. unfold slack, held in X.
    rewrite Ew, Ed, msum_empty, Hh, Hs in X by done. simpl in X. lia. }
  split; apply map_eq; intros p; rewrite lookup_empty.
  - specialize (L (RString p) ltac:(done)). simpl in L. unfold at_key in L. by destruct (strings s !! p).
  - specialize (L (RInfo p) ltac:(done)). simpl in L. unfold at_key in L. by destruct (infos s !! p).
Qed.
End system.
