(* ===== verification/IpcPools.v ===== *)
(** * A small rest of a worker

    An implementation of the interface [StoreEnv], on which the handlers can be
    run: pools that hand everything to everyone in them, a buffer of one
    message, two workers, no Redis and no groups.  Its laws are proved, so that
    the theorems of IpcSystem hold of its runs. *)

From S2P Require Import Prelude Nginx MsgId Msg ChannelId ChanHead Worker IpcSend InternalSub ChanReady ChanRequest.
From S2P Require Import IpcHandlers IpcLedger IpcLedgerFacts IpcLedgerOps IpcLedgerSubs IpcLedgerHeads IpcLedgerRequests IpcLedgerHandlers.
From S2P Require Import IpcSystem.

(** ** State *)

Record pools := Pools {
  clock : Z;
  members : gmap (Z * positive) (list positive);     (* of a head, by worker *)
  pool_of : gmap (Z * positive) positive;            (* the head of a subscriber *)
  last_message : gmap (Z * positive) positive;
  calls : list (Z * positive * Z);                   (* worker, client, code *)
}.

Notation psys := (sys pools).
Notation P := (M pools).

Definition on_pools (f : pools -> pools) : P unit := modify (fun s => set_env s (f (env s))).
Definition set_members (e : pools) (m : gmap (Z * positive) (list positive)) (q : gmap (Z * positive) positive) : pools :=
  Pools (clock e) m q (last_message e) (calls e).
Definition set_last (e : pools) (l : gmap (Z * positive) positive) : pools :=
  Pools (clock e) (members e) (pool_of e) l (calls e).
Definition log_call (w : Z) (n : positive) (code : Z) : P unit :=
  on_pools (fun e => Pools (clock e) (members e) (pool_of e) (last_message e) (calls e ++ [(w, n, code)])).
Definition tick (t : Z) : P unit :=
  on_pools (fun e => Pools t (members e) (pool_of e) (last_message e) (calls e)).

(** ** Messages *)

Definition shared_copy (m : nchan_msg_t) : nchan_msg_t :=
  Msg (id m) (prev_id m) (content_type m) (eventsource_event m) (buf m) (expires m) 0 None (compressed m) NCHAN_MSG_SHARED.

Definition new_message (m : nchan_msg_t) : P positive :=
  p ← gets (fun s => fresh (dom (messages s)));
  modify (fun s => set_messages s (<[p := shared_copy m]> (messages s)));;
  mret p.

Definition pools_create (w : Z) (msg : published_msg) : P (option positive) :=
  match msg with
  | own_msg m => p ← new_message m; mret (Some p)
  | shm_msg p => m ← gets (fun s => messages s !! p); _ ← not_null m; mret (Some p)
  end.

Definition pools_buffer (w : Z) (h : positive) (msg : published_msg) (cf : ipc_conf) : P (Z + positive) :=
  r ← pools_create w msg;
  p ← not_null r;
  on_pools (fun e => set_last e (<[(w, h) := p]> (last_message e)));;
  mret (inr p).

Definition pools_find_next (w : Z) (h : positive) (i : nchan_msg_id_t) : P (option positive * nchan_msg_status_t) :=
  r ← gets (fun s => p ← last_message (env s) !! (w, h); _ ← messages s !! p; Some p);
  mret (match r with Some p => (Some p, MSG_FOUND) | None => (None, MSG_EXPECTED) end).

(** ** Pools *)

Definition members_of (w : Z) (h : positive) (s : psys) : list positive := default [] (members (env s) !! (w, h)).

Definition count_subs (w : Z) (h : positive) (n : Z) : P unit :=
  ch ← head_at w h;
  match ch_shared ch with Some p => shared_subs_add p 0 n | None => mret () end;;
  put_head w h (ch_set_subs ch (ch_sub_count ch + n) (ch_internal_sub_count ch + n) (ch_last_subscribed_local ch)).

Definition pools_add (w : Z) (h p : positive) : P Z :=
  b ← sub_at w p;
  put_sub w p (set_isub_enqueued (set_isub_dequeue_callback b true) true);;
  on_pools (fun e => set_members e (<[(w, h) := default [] (members e !! (w, h)) ++ [p]]> (members e))
                       (<[(w, p) := h]> (pool_of e)));;
  count_subs w h 1;;
  mret NGX_OK.

(** To each that is still in the pool when its turn comes. *)
Fixpoint give (w : Z) (f : positive -> P unit) (l : list positive) : P unit :=
  match l with
  | [] => mret ()
  | p :: l =>
      b ← gets (fun s => subs s !! (w, p));
      (if match b with Some b => isub_enqueued b | None => false end then f p else mret ());;
      give w f l
  end.

(** A message may be gone before the last has it. *)
Definition give_message (w : Z) (m : positive) (f : positive -> P unit) (p : positive) : P unit :=
  r ← gets (fun s => messages s !! m); _ ← not_null r; f p.

Section layers.
(** What the pools do comes back to heads and subscribers: it is built in
    layers, each on the one before. *)
Context (respond : Z -> positive -> positive -> P unit) (status : Z -> positive -> Z -> option bytes -> P unit)
  (notice : Z -> positive -> Z -> option bytes -> P unit) (dequeued : Z -> positive -> P unit).

Definition layer : StoreEnv pools := {|
  ngx_time e _ := clock e;
  is_exiting _ _ := false;
  shm_room _ := true;
  heap_room _ _ := true;
  owner_slot id := match id with c :: _ => c `mod` 2 | [] => 0 end;
  worker_slots := [0; 1];
  start_spooler w h := on_pools (fun e => set_members e (<[(w, h) := []]> (members e)) (pool_of e));
  spooler_add := pools_add;
  spooler_respond_message := respond;
  spooler_broadcast_status := status;
  spooler_broadcast_notice := notice;
  spooler_status_change _ _ := mret ();
  spooler_dequeued := dequeued;
  chanhead_reaper_add _ _ := mret ();
  chanhead_reaper_withdraw _ _ := mret ();
  chanhead_churner_reaper_add _ _ := mret ();
  chanhead_churner_reaper_withdraw _ _ := mret ();
  multi_subscriber_create _ _ _ := mret None;
  find_next_message := pools_find_next;
  delete_messages w h := on_pools (fun e => set_last e (delete (w, h) (last_message e)));
  buffer_message := pools_buffer;
  create_shm_msg_of := pools_create;
  group_enter _ _ _ := mret false;
  group_owner_find _ _ := mret (1%positive, true);
  group_receive _ _ := mret ();
  group_receive_delete _ _ := mret ();
  redis_subscribe _ _ := mret false;
  redis_publish _ _ _ := mret ();
  redis_command _ _ _ := mret ();
  client_call w n code _ := log_call w n code;
  getmsg_call w n _ _ := log_call w n 0;
  other_alert _ _ _ := mret ();
|}.
End layers.

Definition no_pool {A B} : Z -> positive -> A -> B -> P unit := fun _ _ _ _ => mret ().
Definition layer0 : StoreEnv pools := layer (fun _ _ _ => mret ()) no_pool no_pool (fun _ _ => mret ()).

(** A subscriber leaves: [memstore_spooler_bulk_dequeue_handler]. *)
Definition pools_dequeued (w : Z) (p : positive) : P unit :=
  r ← gets (fun s => pool_of (env s) !! (w, p));
  match r with
  | None => mret ()
  | Some h =>
      on_pools (fun e => set_members e (<[(w, h) := filter (fun q => q <> p) (default [] (members e !! (w, h)))]> (members e))
                           (delete (w, p) (pool_of e)));;
      count_subs w h (-1);;
      ch ← head_at w h;
      if (ch_sub_count ch =? 0) && negb (bool_decide (is_Some (ch_foreign_owner_ipc_sub ch)))
      then @chanhead_gc_add pools layer0 w h else mret ()
  end.
Definition layer1 : StoreEnv pools := layer (fun _ _ _ => mret ()) no_pool no_pool pools_dequeued.

Definition pools_respond (w : Z) (h m : positive) : P unit :=
  l ← gets (members_of w h); give w (give_message w m (fun p => @internal_respond_message pools layer1 w p m)) l.
Definition pools_status (w : Z) (h : positive) (code : Z) (line : option bytes) : P unit :=
  l ← gets (members_of w h); give w (fun p => @internal_respond_status pools layer1 w p code line) l.
Definition pools_notice (w : Z) (h : positive) (code : Z) (data : option bytes) : P unit :=
  l ← gets (members_of w h); give w (fun p => @internal_notify pools layer1 w p code data) l.

Definition layer2 : StoreEnv pools := layer pools_respond pools_status pools_notice pools_dequeued.

(** ** The laws *)

Lemma conserves_on_pools f : conserves (on_pools f).
Proof. by apply conserves_modify. Qed.
Lemma conserves_log_call w n code : conserves (log_call w n code).
Proof. apply conserves_on_pools. Qed.
#[local] Hint Resolve conserves_on_pools conserves_log_call : ledger.

Lemma conserves_new_message m : conserves (new_message m).
Proof.
  intros x s C G. simpl. split; [|split; [|exact G]].
  - intros r. rewrite slack_put_message, at_key_none by apply fresh_None. simpl. change (s64 0) with 0. lia.
  - intros _ r _. rewrite slack_put_message, at_key_none by apply fresh_None. simpl. change (s64 0) with 0. lia.
Qed.
#[local] Hint Resolve conserves_new_message : ledger.

Lemma conserves_pools_create w msg : conserves (pools_create w msg).
Proof. destruct msg; simpl; conserve. Qed.
#[local] Hint Resolve conserves_pools_create : ledger.
Lemma conserves_pools_buffer w h msg cf : conserves (pools_buffer w h msg cf).
Proof. unfold pools_buffer. conserve. Qed.
Lemma conserves_pools_find_next w h i : conserves (pools_find_next w h i).
Proof. unfold pools_find_next. conserve. Qed.
#[local] Hint Resolve conserves_pools_buffer conserves_pools_find_next : ledger.

Lemma pools_create_live w msg s s' p : pools_create w msg s = Ok (s', Some p) -> is_Some (messages s' !! p).
Proof.
  destruct msg as [m|q]; simpl; unfold new_message, mbind, M_bind, gets, modify; simpl.
  - intros [= <- <-]. simpl. by rewrite lookup_insert_eq.
  - destruct (messages s !! q) eqn:E; [|done]. simpl. intros [= <- <-]. by rewrite E.
Qed.
Lemma pools_buffer_live w h msg cf s s' p : pools_buffer w h msg cf s = Ok (s', inr p) -> is_Some (messages s' !! p).
Proof.
  intros (s1 & r & E1 & E)%bind_Ok. apply bind_Ok in E as (s2 & q & [-> ->]%not_null_Ok & E).
  injection E as <- <-. by apply pools_create_live in E1.
Qed.
Lemma pools_find_next_live w h i s s' p st : pools_find_next w h i s = Ok (s', (Some p, st)) -> is_Some (messages s' !! p).
Proof.
  unfold pools_find_next, gets, mbind, M_bind. simpl. intros [= <- E].
  destruct (last_message (env s) !! (w, h)) as [q|] eqn:El; [|done]. simpl in E.
  destruct (messages s !! q) eqn:Em; [|done]. simplify_eq/=. by rewrite Em.
Qed.

Lemma conserves_count_subs w h n : conserves (count_subs w h n).
Proof.
  intros x s. apply tri_intro. intros C G. apply tri_head_at. intros ch E.
  apply (tri_conserve x []).
  - destruct (ch_shared ch) as [p|] eqn:Es; [|by apply tri_ret].
    apply tri_shared_subs_add. by eapply covers_head_shared.
  - intros s1 u Eu _ _. enough (heads s1 = heads s) as Eh by (apply (tri_put_head _ _ _ _ ch); [by rewrite Eh|done]).
    destruct (ch_shared ch) as [p|]; [|by injection Eu as <- _].
    revert Eu. unfold shared_subs_add, shared_at, access, mbind, M_bind. destruct (shareds s !! p); [|done]. by intros [= <- _].
Qed.

Lemma tri_pools_add w h p x s c :
  match subs s !! (w, p) with Some b => isub_enqueued b = false /\ proxy_strings b = c | None => c = [] end ->
  tri x c s (pools_add w h p) (fun rc => if rc =? NGX_OK then [] else c).
Proof.
  intros E. apply tri_sub_at. intros b Eb. rewrite Eb in E. destruct E as [En <-].
  apply (tri_bind _ _ _ _ _ (fun _ => [])).
  - eapply tri_put_sub; [exact Eb| | |done]; unfold sub_owns, sub_reserved_live; rewrite En; intros; simpl; unfold proxy_strings; simpl; lia.
  - intros s1 [] _ _ _. apply tri_conserve; [apply conserves_on_pools|]. intros s2 [] _ _ _.
    apply tri_conserve; [apply conserves_count_subs|]. intros. by apply tri_ret.
Qed.

Section layer_laws.
Context (respond : Z -> positive -> positive -> P unit) (status : Z -> positive -> Z -> option bytes -> P unit)
  (notice : Z -> positive -> Z -> option bytes -> P unit) (dequeued : Z -> positive -> P unit)
  (respond_law : forall w h m x s, is_Some (messages s !! m) -> tri x [] s (respond w h m) (fun _ => []))
  (status_law : forall w h code line, conserves (status w h code line))
  (notice_law : forall w h code data, conserves (notice w h code data))
  (dequeued_law : forall w p, conserves (dequeued w p)).

Lemma layer_laws : @StoreEnvLaws pools (layer respond status notice dequeued).
Proof.
  constructor; simpl; intros; auto with ledger; try by conserve.
  - by apply tri_pools_add.
  - by eapply pools_find_next_live.
  - by eapply pools_buffer_live.
  - by eapply pools_create_live.
Qed.
End layer_laws.

#[export] Instance layer0_laws : @StoreEnvLaws pools layer0.
Proof. apply layer_laws; intros; apply conserves_ret. Qed.

Lemma conserves_pools_dequeued w p : conserves (pools_dequeued w p).
Proof.
  pose proof (conserves_count_subs w). pose proof (conserves_gc_add (H := layer0) w). unfold pools_dequeued. conserve.
Qed.

#[export] Instance layer1_laws : @StoreEnvLaws pools layer1.
Proof. apply layer_laws; intros; try apply conserves_ret. apply conserves_pools_dequeued. Qed.

(** What is given to each that is in the pool when its turn comes. *)
Lemma conserves_give w f l :
  (forall p x s, poolable w s p -> tri x [] s (f p) (fun _ => [])) -> conserves (give w f l).
Proof.
  intros F. induction l as [|p l IH]; intros x s; simpl; [by apply tri_ret|].
  apply tri_conserve; [apply conserves_gets|]. intros s1 b [-> ->]%gets_Ok _ _.
  apply tri_conserve; [|intros; apply IH]. destruct (subs s !! (w, p)) as [b|] eqn:E; [|by apply tri_ret].
  destruct (isub_enqueued b) eqn:En; [|by apply tri_ret]. apply F. intros b' E'. left. congruence.
Qed.

Lemma tri_give_message w m f p x s :
  (is_Some (messages s !! m) -> tri x [] s (f p) (fun _ => [])) -> tri x [] s (give_message w m f p) (fun _ => []).
Proof.
  intros F. apply tri_conserve; [apply conserves_gets|]. intros s1 r [-> ->]%gets_Ok _ _.
  apply tri_conserve; [apply conserves_not_null|]. intros s1 mm [-> E]%not_null_Ok _ _. by apply F; eauto.
Qed.

#[export] Instance layer2_laws : @StoreEnvLaws pools layer2.
Proof.
  apply layer_laws.
  - intros w h m x s _. apply tri_conserve; [apply conserves_gets|]. intros. apply conserves_give.
    intros q y t Q. apply tri_give_message. intros I. by apply (tri_internal_respond_message (H := layer1)).
  - intros w h code line. apply conserves_bind; [apply conserves_gets|]. intros. apply conserves_give.
    intros p x s Q. by apply (tri_internal_respond_status (H := layer1)).
  - intros w h code data. apply conserves_bind; [apply conserves_gets|]. intros. apply conserves_give.
    intros p x s Q. apply (conserves_internal_notify (H := layer1)).
  - apply conserves_pools_dequeued.
Qed.
