(* ===== verification/IpcRuns.v ===== *)
(** * Runs of two workers

    Whole exchanges between two workers, on the small environment of IpcPools:
    they show that the theorems of IpcSystem speak of runs that exist, and what
    the handlers do where they lose or overrun something. *)

From S2P Require Import Prelude Nginx MsgId Msg ChannelId ChanHead Worker IpcSend InternalSub ChanReady ChanRequest.
From S2P Require Import IpcHandlers IpcLedger IpcLedgerFacts IpcLedgerOps IpcLedgerSubs IpcLedgerHeads IpcLedgerRequests IpcLedgerHandlers.
From S2P Require Import IpcSystem IpcPools.

#[local] Existing Instance layer2.

Notation paction := (@action pools).

(** ** Which actions are allowed, decided *)

Definition foundb (s : psys) (w : Z) (chid : positive) (f : psys -> option positive -> bool) : bool :=
  match strings s !! chid with
  | Some id => match nchan_memstore_find_chanhead w id s with Ok (s', r) => f s' r | _ => true end
  | None => true
  end.

Definition head_okb (s : psys) (w : Z) (r : option positive) (f : positive -> chanhead -> bool) : bool :=
  match r with
  | Some h => match heads s !! (w, h) with Some ch => f h ch | None => true end
  | None => true
  end.

Definition fitsb (x : bool) (s : psys) (pk : packet) : bool :=
  let w := p_dst pk in
  match p_alert pk with
  | cmd_unsubscribed p => negb x || foundb s w p (fun _ r => negb (bool_decide (r = None)))
  | cmd_subscribe_chanhead_nevermind_release d =>
      negb x || foundb s w (sd_chid d) (fun _ r => negb (bool_decide (r = None)) && bool_decide (r = sd_owner d))
  | cmd_get_message d =>
      negb x || foundb s w (gm_chid d) (fun s' r => head_okb s' w r (fun _ ch => ch_msg_buffer_complete ch))
  | _ => true
  end.

Definition poolableb (w : Z) (s : psys) (p : positive) : bool :=
  match subs s !! (w, p) with Some b => isub_enqueued b || bool_decide (proxy_strings b = []) | None => true end.

Definition allowedb (x : bool) (s : psys) (a : paction) : bool :=
  match a with
  | alert_arrives src dst =>
      match take_packet src dst (wire s) with Some (pk, rest) => fitsb x (set_wire s rest) pk | None => true end
  | pool_gives_message w sub msg => poolableb w s sub && bool_decide (is_Some (messages s !! msg))
  | pool_gives_status w sub _ _ => poolableb w s sub
  | elsewhere _ => false
  | _ => true
  end.

Lemma foundb_finds s w p f (Q : psys -> option positive -> Prop) :
  (forall s' r, f s' r = true -> Q s' r) -> foundb s w p f = true -> finds s w p Q.
Proof. intros F B id s' r E1 E2. apply F. unfold foundb in B. by rewrite E1, E2 in B. Qed.

Lemma fitsb_fits x s pk : fitsb x s pk = true -> fits x s pk.
Proof.
  unfold fitsb, fits. destruct (p_alert pk) as [ | | | d | | | | | | d | | | | | | | | | | | | | | ]; try done.
  - intros B ->. revert B. simpl. apply foundb_finds. intros s' r [N%negb_true_iff E]%andb_true_iff.
    apply bool_decide_eq_false in N. by apply bool_decide_eq_true in E.
  - intros B ->. revert B. simpl. apply foundb_finds. intros s' r N%negb_true_iff. by apply bool_decide_eq_false in N.
  - intros B ->. revert B. simpl. apply foundb_finds. intros s' r B h ch -> E. unfold head_okb in B. by rewrite E in B.
Qed.

Lemma poolableb_poolable w s p : poolableb w s p = true -> poolable w s p.
Proof.
  unfold poolableb, poolable. intros B b E. rewrite E in B. apply orb_true_iff in B as [B|B]; [by left|].
  right. by apply bool_decide_eq_true in B.
Qed.

Lemma allowedb_allowed x s a : allowedb x s a = true -> allowed x s a.
Proof.
  destruct a; simpl; try done.
  - intros B pk rest E. rewrite E in B. by apply fitsb_fits.
  - intros [B1%poolableb_poolable B2%bool_decide_eq_true]%andb_true_iff. done.
  - apply poolableb_poolable.
Qed.

Fixpoint run (x : bool) (l : list paction) (s : psys) : option psys :=
  match l with
  | [] => Some s
  | a :: l =>
      if allowedb x s a then match perform a s with Ok (s', _) => run x l s' | _ => None end else None
  end.

Lemma run_steps x l s s' : run x l s = Some s' -> rtc (step x) s s'.
Proof.
  revert s. induction l as [|a l IH]; intros s; simpl; [by intros [= ->]|].
  destruct (allowedb x s a) eqn:B; [|done]. destruct (perform a s) as [[s1 []]| | |] eqn:E; try done.
  intros R. eapply rtc_l; [|by apply IH]. exists a. split; [by apply allowedb_allowed|done].
Qed.

(** ** A channel of one worker, wanted by the other *)

Definition nothing : psys := Sys ∅ ∅ ∅ ∅ ∅ ∅ ∅ ∅ ∅ [] (Pools 3 ∅ ∅ ∅ []).    (* the third second *)
Lemma initial_nothing : initial nothing.
Proof. done. Qed.

(** Worker 0 owns "b" (98), worker 1 owns "a" (97). *)
Definition channel_b : bytes := bytes_of "b".
Definition a_conf : ipc_conf := IpcConf (LocConf false false 3 60) true false 0 false 0 0.
Definition a_message : nchan_msg_t :=
  Msg (MsgId 5 (fixed [0; 0; 0; 0]) 0 1) NCHAN_ZERO_MSGID None None (Buf true false (bytes_of "hi") 0 None true) 2000 0 None None NCHAN_MSG_HEAP.

(** Worker 1 subscribes to it, the owner agrees, and learns that it is so. *)
Definition subscription : list paction :=
  [client_wants_channel 1 channel_b a_conf; alert_arrives 1 0; alert_arrives 0 1; alert_arrives 1 0].

(** ... then publishes there: the owner stores the message, gives it to the
    subscriber that stands for worker 1, and answers; both come back. *)
Definition publication : list paction := [client_publishes 1 channel_b a_message a_conf 9; alert_arrives 1 0].
Definition delivery : list paction := [alert_arrives 0 1; alert_arrives 0 1].

Definition after (l : list paction) : psys := default nothing (run true l nothing).

(** Both heads are ready and share the owner's counters. *)
Example subscription_ready :
  (fun ch => (ch_status ch, ch_shared ch, ch_foreign_owner_ipc_sub ch)) <$> heads (after subscription) !! (1, 1%positive)
  = Some (READY, Some 1%positive, Some 1%positive).
Proof. vm_compute. reflexivity. Qed.

(** The message is on its way, held once. *)
Lemma held_resources_live_witness :
  let s := after (subscription ++ publication) in
  held s (RMessage 1) = 1 /\ held s (RMessage 1) <= live s (RMessage 1).
Proof.
  cbv zeta. split; [vm_compute; reflexivity|]. apply (held_resources_live nothing); [done|].
  apply (run_steps _ (subscription ++ publication)). vm_compute. reflexivity.
Defined.

(** The publisher has its answer, and no string is left. *)
Lemma shared_memory_given_back_witness :
  let s := after (subscription ++ publication ++ delivery) in
  calls (env s) = [(1, 9%positive, NCHAN_MESSAGE_QUEUED)] /\ strings s = ∅ /\ infos s = ∅.
Proof.
  cbv zeta. split; [vm_compute; reflexivity|]. apply (shared_memory_given_back nothing); [done| | |].
  - apply (run_steps _ (subscription ++ publication ++ delivery)). vm_compute. reflexivity.
  - vm_compute. reflexivity.
  - vm_compute. reflexivity.
Defined.

Lemma subscription_release_safe_witness :
  let s := after [client_wants_channel 1 channel_b a_conf; alert_arrives 1 0; alert_arrives 0 1] in
  deliver 1 0 s <> Freed (RHead 0 2).
Proof.
  cbv zeta. eapply (subscription_release_safe nothing); [done| |vm_compute; reflexivity].
  apply (run_steps _ [client_wants_channel 1 channel_b a_conf; alert_arrives 1 0; alert_arrives 0 1]). vm_compute. reflexivity.
Defined.

(** ** Where something goes wrong *)

(** The owner deletes the channel while its subscriber asks whether it is still
    wanted.  The answer is yes: the timer is set again, and then the subscriber
    is freed. *)
Definition keepalive_race : list paction :=
  subscription ++ [timer_fires 0 1; client_deletes 0 channel_b a_conf 7; alert_arrives 0 1; alert_arrives 1 0].

(** Its timer fires in a subscriber that is gone. *)
Theorem renewed_timer_of_freed_subscriber :
  (0, 1%positive) ∈ keepalive_timers (after keepalive_race) /\
  perform (timer_fires 0 1) (after keepalive_race) = Freed (RSub 0 1).
Proof. split; vm_compute; [|reflexivity]. done. Qed.

(** The collector of the owner: a head that nobody has reserved goes, with its
    counters that no other worker has counted. *)
Definition collect_head (w : Z) (h : positive) : P unit :=
  r ← gets (fun s => ch ← heads s !! (w, h); p ← ch_shared ch; sh ← shareds s !! p;
                     if (ch_slot ch =? ch_owner ch) && (ch_reserved ch =? 0) && (outside_refcount sh =? 0)
                     then Some p else None);
  match r with
  | Some p => modify (fun s => set_heads s (delete (w, h) (heads s)));;
              modify (fun s => set_shareds s (delete p (shareds s)))
  | None => mret ()
  end.

Lemma conserves_collect_head w h : conserves (collect_head w h).
Proof.
  intros x s. apply tri_conserve; [apply conserves_gets|]. intros s1 r [-> ->]%gets_Ok _ _.
  destruct (heads s !! (w, h)) as [ch|] eqn:Eh; [|by apply tri_ret]. simpl.
  destruct (ch_shared ch) as [p|] eqn:Ep; [|by apply tri_ret]. simpl.
  destruct (shareds s !! p) as [sh|] eqn:Es; [|by apply tri_ret]. simpl.
  destruct (_ && _) eqn:E; [|by apply tri_ret].
  apply andb_true_iff in E as [[E1 E2%Z.eqb_eq]%andb_true_iff E3%Z.eqb_eq].
  assert (forall r, slack (set_shareds (set_heads s (delete (w, h) (heads s))) (delete p (shareds s))) r = slack s r) as Sl.
  { intros r. rewrite (slack_drop_shared (set_heads s _)), slack_drop_head, !(at_key_some _ _ _ _ Eh), !(at_key_some _ _ _ _ Es).
    rewrite E2, E3. unfold head_owns. rewrite Ep, E1. simpl. lia. }
  intros C [P O]. simpl. split; [intros r; rewrite Sl; simpl; lia|]. split; [intros _ r _; rewrite Sl; simpl; lia|].
  split; [exact P|]. intros k ch'. simpl. intros [_ E']%lookup_delete_Some. by apply (O k).
Qed.

(** Worker 1 asks what is known of a channel of worker 0, which answers with its
    counters and collects the head before the answer is read. *)
Definition lookup_race : list paction :=
  [client_wants_channel 0 channel_b a_conf; client_looks_up 1 channel_b a_conf 8; alert_arrives 1 0].
Definition after_collection : psys :=
  match collect_head 0 1 (after lookup_race) with Ok (s, _) => s | _ => nothing end.

Lemma no_freed_shared_memory_witness :
  perform (alert_arrives 0 1) after_collection = Freed (RShared 1) /\
  exists src dst pk rest, alert_arrives 0 1 = @alert_arrives pools src dst /\
    take_packet src dst (wire after_collection) = Some (pk, rest) /\
    match p_alert pk with
    | cmd_get_channel_info_reply d => exists p, ci_channel_info d = Some p /\ RShared 1 = RShared p
    | cmd_subscriber_keepalive d => RShared 1 = RString (ka_chid d)
    | _ => False
    end.
Proof.
  assert (perform (alert_arrives 0 1) after_collection = Freed (RShared 1)) as E by (vm_compute; reflexivity).
  split; [exact E|]. apply (no_freed_shared_memory nothing after_collection (alert_arrives 0 1) (RShared 1));
    [exact initial_nothing| | |exact E|exact I].
  - apply rtc_r with (after lookup_race).
    + apply (run_steps _ lookup_race). vm_compute. reflexivity.
    + exists (elsewhere (collect_head 0 1)). split; [apply conserves_collect_head|]. vm_compute. reflexivity.
  - intros pk rest E'. vm_compute in E'. injection E' as <- <-. exact I.
Defined.

Definition backup_conf : ipc_conf := IpcConf (LocConf true false 3 60) true false 0 false 0 0.

(** A request of worker 1 waits for a channel that is being loaded from Redis;
    the channel is deleted.  The proxy takes no notice of "410 Gone", as it
    comes with its text, and leaves: nobody answers the request, and the string
    it brought is lost. *)
Theorem proxied_read_unanswered :
  let s := default nothing (run false
    [client_wants_channel 0 channel_b backup_conf; client_reads 1 channel_b NCHAN_ZERO_MSGID 4; alert_arrives 1 0;
     client_deletes 0 channel_b a_conf 7] nothing) in
  wire s = [] /\ subs s = ∅ /\ calls (env s) = [(0, 7%positive, NGX_OK)] /\ strings s = {[1%positive := channel_b]}.
Proof. repeat split; vm_compute; reflexivity. Qed.
