(* ===== verification/ReuseQueue.v ===== *)
(** * [util/nchan_reuse_queue.c]: queues whose elements are used again

    Elements are threaded through two links (DList).  One that leaves the queue
    goes to a reserve, from which the next push takes it; memory of a request's
    pool is not given back before the request ends, so what the reserve loses is
    lost until then. *)

From S2P Require Import Prelude DList.

Record nchan_reuse_queue_t := RQ {
  size : Z;               (* int *)
  next_ptr_offset : Z;
  prev_ptr_offset : Z;
  first : ptr;
  last : ptr;
  reserve : ptr;
}.

Definition nchan_reuse_queue_init (prev next : Z) : nchan_reuse_queue_t := RQ 0 next prev None None None.

Definition set_ends (rq : nchan_reuse_queue_t) (f l r : ptr) : nchan_reuse_queue_t :=
  RQ (size rq) (next_ptr_offset rq) (prev_ptr_offset rq) f l r.

(** The things from [p] on, along the next links; there are no more than links
    in memory. *)
Fixpoint things_from (fuel : nat) (h : mem) (no : Z) (p : ptr) : outcome (list loc) :=
  match p with
  | None => Ret []
  | Some x =>
      match fuel with
      | O => NoFuel
      | S fuel => next ← load h x no; xs ← things_from fuel h no next; Ret (x :: xs)
      end
  end.
Definition things (h : mem) (no : Z) (p : ptr) : outcome (list loc) := things_from (base.size h) h no p.

(** What [rq->free] is called with, in order. *)
Definition nchan_reuse_queue_flush (h : mem) (rq : nchan_reuse_queue_t) : outcome (nchan_reuse_queue_t * list loc) :=
  xs ← things h (next_ptr_offset rq) (first rq);
  Ret (set_ends rq None None (first rq), xs).

Definition nchan_reuse_queue_shutdown (h : mem) (rq : nchan_reuse_queue_t) : outcome (mem * nchan_reuse_queue_t * list loc) :=
  xs ← things h (next_ptr_offset rq) (first rq);
  rs ← things h (next_ptr_offset rq) (reserve rq);
  h1 ← match last rq with
       | Some l => store h l (next_ptr_offset rq) (reserve rq)
       | None => Ret h
       end;
  Ret (h1, set_ends rq None None (reserve rq), xs ++ rs).

(** [new]: what [rq->alloc] returns, [None] when it is NULL. *)
Definition nchan_reuse_queue_push (h : mem) (rq : nchan_reuse_queue_t) (new : ptr) :
    outcome (mem * nchan_reuse_queue_t * loc) :=
  let po := prev_ptr_offset rq in let no := next_ptr_offset rq in
  '(h, rq, q) ←
    match reserve rq with
    | Some q => r ← load h q no; Ret (h, set_ends rq (first rq) (last rq) r, q)
    | None =>
        match new with
        | Some q => Ret (alloc po no h q None None, RQ (size rq + 1) no po (first rq) (last rq) None, q)
        | None => Crash
        end
    end;
  h ← store h q no None;
  h ← store h q po (last rq);
  h ← match last rq with Some l => store h l no (Some q) | None => Ret h end;
  Ret (h, set_ends rq (match first rq with Some f => Some f | None => Some q end) (Some q) (reserve rq), q).

Definition nchan_reuse_queue_first (rq : nchan_reuse_queue_t) : ptr := first rq.

(** The things that the callback is given. *)
Definition nchan_reuse_queue_each (h : mem) (rq : nchan_reuse_queue_t) : outcome (list loc) :=
  things h (next_ptr_offset rq) (first rq).

Definition nchan_reuse_queue_pop (h : mem) (rq : nchan_reuse_queue_t) : outcome (mem * nchan_reuse_queue_t) :=
  let po := prev_ptr_offset rq in let no := next_ptr_offset rq in
  match first rq with
  | None => Ret (h, rq)
  | Some q =>
      f ← load h q no;
      h ← match f with Some f => store h f po None | None => Ret h end;
      h ← store h q po None;
      h ← store h q no (reserve rq);
      Ret (h, set_ends rq f (if decide (last rq = Some q) then None else last rq) (Some q))
  end.

(** ** What a queue represents *)

Section rep.
Context (po no : Z) (Hpn : po <> no).

(** A chain of live things along the next links. *)
Fixpoint chain (h : mem) (xs : list loc) : Prop :=
  match xs with
  | [] => True
  | x :: ys => is_Some (h !! (x, po)) /\ h !! (x, no) = Some (head ys) /\ chain h ys
  end.

Lemma dseg_chain h p xs : dseg po no h p xs None -> chain h xs.
Proof.
  revert p. induction xs as [|x xs IH]; intros p; simpl; [done|]. intros (E1 & E2 & S).
  rewrite hd_or_None in E2. split_and!; eauto.
Qed.

Lemma rq_chain_frame h h' xs :
  (forall x, x ∈ xs -> h' !! (x, po) = h !! (x, po) /\ h' !! (x, no) = h !! (x, no)) -> chain h xs -> chain h' xs.
Proof.
  induction xs as [|x xs IH]; intros F; simpl; [done|]. intros (E1 & E2 & S).
  destruct (F x) as [-> ->]; [set_solver|]. split_and!; auto. apply IH; [|done]. intros y Hy. apply F. set_solver.
Qed.

Lemma chain_live h xs x : chain h xs -> x ∈ xs -> live po no h x.
Proof.
  induction xs as [|y ys IH]; simpl; [set_solver|]. intros (E1 & E2 & S) [->|Hx]%elem_of_cons; [|auto]. by split; eauto.
Qed.

Lemma chain_length h xs : NoDup xs -> chain h xs -> (length xs <= base.size h)%nat.
Proof.
  intros ND C. rewrite <- size_dom. assert (list_to_set ((fun x => (x, no)) <$> xs) ⊆ dom h) as I.
  { intros k. rewrite elem_of_list_to_set, list_elem_of_fmap. intros (x & -> & Hx).
    apply elem_of_dom, (chain_live h xs x C Hx). }
  apply subseteq_size in I. rewrite size_list_to_set in I; [by rewrite length_fmap in I|].
  by apply NoDup_fmap_2; [intros ?? [= ->]|].
Qed.

Lemma things_from_chain fuel h xs : (length xs <= fuel)%nat -> chain h xs -> things_from fuel h no (head xs) = Ret xs.
Proof.
  revert fuel. induction xs as [|x xs IH]; intros fuel L; simpl; [by destruct fuel|].
  intros (_ & E & C). destruct fuel as [|fuel]; [simpl in L; lia|]. simpl.
  rewrite (load_Some _ _ _ _ E), bind_Ret, IH by (simpl in L; (lia || done)). done.
Qed.

Lemma things_chain h xs : NoDup xs -> chain h xs -> things h no (head xs) = Ret xs.
Proof. intros. apply things_from_chain; [by apply chain_length|done]. Qed.

(** [xs] in the queue, [rs] in reserve. *)
Definition rep (h : mem) (rq : nchan_reuse_queue_t) (xs rs : list loc) : Prop :=
  prev_ptr_offset rq = po /\ next_ptr_offset rq = no /\
  NoDup (xs ++ rs) /\ dseg po no h None xs None /\ chain h rs /\
  first rq = head xs /\ last rq = list.last xs /\ reserve rq = head rs.

Lemma rq_rep_init h : rep h (nchan_reuse_queue_init po no) [] [].
Proof. split_and!; try done. constructor. Qed.

Lemma rq_flush_rep h rq xs rs :
  rep h rq xs rs -> exists rq', nchan_reuse_queue_flush h rq = Ret (rq', xs) /\ rep h rq' [] xs /\ size rq' = size rq.
Proof.
  intros (P & N & ND & S & C & F & L & R). unfold nchan_reuse_queue_flush. rewrite F, N.
  apply NoDup_app in ND as (ND & _ & _). rewrite things_chain by eauto using dseg_chain. simpl.
  eexists. split_and!; try done. split_and!; simpl; try done. by eapply dseg_chain.
Qed.

Ltac do_load E := rewrite (load_Some _ _ _ _ E), bind_Ret.
Ltac do_store := rewrite store_live by (rewrite ?lookup_insert_is_Some; unfold live in *; naive_solver); rewrite bind_Ret.

(** The element that is linked in, wherever it is from. *)
Lemma rq_link_rep h rq xs rs q :
  rep h rq xs rs -> q ∉ xs ++ rs -> live po no h q ->
  exists h',
    (h ← store h q no None; h ← store h q po (last rq);
     h ← match last rq with Some l => store h l no (Some q) | None => Ret h end; Ret h) = Ret h' /\
    rep h' (set_ends rq (match first rq with Some f => Some f | None => Some q end) (Some q) (reserve rq)) (xs ++ [q]) rs /\
    dom h' = dom h.
Proof.
  intros (P & N & ND & S & C & F & L & R) Nq Lq. do_store. do_store.
  set (h2 := <[(q, po) := last rq]> (<[(q, no) := None]> h)).
  assert (dom h2 = dom h) as D2 by (subst h2; rewrite !dom_insert_lookup_L; rewrite ?lookup_insert_is_Some; unfold live in *; naive_solver).
  set (h3 := match list.last xs with Some l => <[(l, no) := Some q]> h2 | None => h2 end).
  assert (forall l, list.last xs = Some l -> live po no h l /\ l <> q) as Ll.
  { intros l El%last_elem. split; [by eapply dseg_live|set_solver]. }
  exists h3. split_and!.
  - rewrite L. subst h3. destruct (list.last xs) as [l|]; [|done]. destruct (Ll l eq_refl) as [A _].
    apply (live_dom _ _ _ h2) in A; [|done]. by rewrite store_live by apply A.
  - assert (dlist po no h3 (xs ++ [q])) as [ND' S'].
    { apply NoDup_app in ND as (ND & _ & _). apply (dlist_snoc _ _ Hpn h); [done|set_solver| | | |]; subst h3 h2.
      - rewrite L. destruct (list.last xs) as [l|] eqn:El.
        + destruct (Ll l eq_refl). rewrite lookup_insert_ne by congruence. by rewrite lookup_insert_eq.
        + by rewrite lookup_insert_eq.
      - destruct (list.last xs) as [l|] eqn:El; [destruct (Ll l eq_refl); rewrite lookup_insert_ne by congruence|];
          rewrite lookup_insert_ne by congruence; by rewrite lookup_insert_eq.
      - intros y Ey. rewrite Ey. by rewrite lookup_insert_eq.
      - intros y o Ny Fo. destruct (list.last xs) as [l|] eqn:El.
        + rewrite lookup_insert_ne by (intros [= <- <-]; by apply Fo). by rewrite !lookup_insert_ne by congruence.
        + by rewrite !lookup_insert_ne by congruence. }
    split_and!; simpl; try done.
    + rewrite <- app_assoc. apply NoDup_app in ND as (NX & DX & NR). apply NoDup_app. split_and!; [done|set_solver|]. constructor; [set_solver|done].
    + eapply rq_chain_frame, C. intros x Hx. subst h3 h2. assert (x <> q) by set_solver.
      assert (forall l, list.last xs = Some l -> x <> l) as Nl
        by (intros l El%last_elem ->; apply NoDup_app in ND as (_ & D & _); by apply (D l)).
      destruct (list.last xs) as [l|]; [specialize (Nl l eq_refl)|]; by rewrite !lookup_insert_ne by congruence.
    + rewrite F. by destruct xs.
    + by rewrite last_snoc.
  - subst h3. destruct (list.last xs) as [l|]; [|done]. destruct (Ll l eq_refl) as [A _].
    apply (live_dom _ _ _ h2) in A; [|done]. rewrite dom_insert_lookup_L by apply A. done.
Qed.

Lemma live_alloc h x : live po no (alloc po no h x None None) x.
Proof. unfold live, alloc. rewrite lookup_insert_eq. by rewrite lookup_insert_ne, lookup_insert_eq by congruence. Qed.

Lemma rq_rep_alloc h rq xs rs x g1 g2 : x ∉ xs ++ rs -> rep h rq xs rs -> rep (alloc po no h x g1 g2) rq xs rs.
Proof.
  intros Nx (P & N & ND & S & C & F & L & R). split_and!; try done; unfold alloc.
  - apply dseg_insert_other; [set_solver|]. by apply dseg_insert_other; [set_solver|].
  - eapply rq_chain_frame, C. intros y Hy. assert (y <> x) by set_solver. by rewrite !lookup_insert_ne by congruence.
Qed.

(** A push takes the head of the reserve, or what is allocated. *)
Lemma rq_push_rep h rq xs rs new q rs' :
  rep h rq xs rs ->
  match rs with r :: rs0 => q = r /\ rs' = rs0 | [] => new = Some q /\ q ∉ xs /\ rs' = [] end ->
  exists h' rq', nchan_reuse_queue_push h rq new = Ret (h', rq', q) /\ rep h' rq' (xs ++ [q]) rs' /\
    dom h' = match rs with [] => dom (alloc po no h q None None) | _ => dom h end /\
    size rq' = size rq + match rs with [] => 1 | _ => 0 end.
Proof.
  intros Rp E. pose proof Rp as (P & N & ND & S & C & F & L & R). unfold nchan_reuse_queue_push. rewrite P, N, R.
  destruct rs as [|r rs0]; simpl.
  - destruct E as (-> & Nq & ->).
    destruct (rq_link_rep (alloc po no h q None None) (RQ (size rq + 1) no po (first rq) (last rq) None) xs [] q)
      as (h' & E & Rp' & D); [|by rewrite app_nil_r|apply live_alloc|].
    { apply rq_rep_alloc; [by rewrite app_nil_r|]. by split_and!. }
    exists h'. eexists. revert E. simpl. intros E. apply bind_Ret_inv in E as (h1 & E1 & E).
    apply bind_Ret_inv in E as (h2 & E2 & E). apply bind_Ret_inv in E as (h3 & E3 & [= <-]).
    rewrite E1, bind_Ret, E2, bind_Ret, E3, bind_Ret. split_and!; done.
  - destruct E as (-> & ->). destruct C as (C1 & C2 & C). do_load C2.
    apply NoDup_app in ND as (NX & DX & [Nr NR]%NoDup_cons).
    destruct (rq_link_rep h (set_ends rq (first rq) (last rq) (head rs0)) xs rs0 r)
      as (h' & E & Rp' & D); [|set_solver|by split; eauto|].
    { split_and!; try done. apply NoDup_app. set_solver. }
    exists h'. eexists. apply bind_Ret_inv in E as (h1 & E1 & E).
    apply bind_Ret_inv in E as (h2 & E2 & E). apply bind_Ret_inv in E as (h3 & E3 & [= <-]). simpl in *.
    rewrite E1, bind_Ret, E2, bind_Ret, E3, bind_Ret. split_and!; try done. simpl; lia.
Qed.

Lemma rq_pop_rep h rq xs rs :
  rep h rq xs rs ->
  exists h' rq', nchan_reuse_queue_pop h rq = Ret (h', rq') /\
    rep h' rq' (tail xs) (match head xs with Some q => q :: rs | None => rs end) /\ dom h' = dom h /\ size rq' = size rq.
Proof.
  intros Rp. pose proof Rp as (P & N & ND & S & C & F & L & R). unfold nchan_reuse_queue_pop. rewrite F, P, N, R.
  destruct xs as [|q xs]; simpl; [by eauto 10|]. simpl in S. destruct S as (E1 & E2 & S). rewrite hd_or_None in E2. do_load E2.
  apply NoDup_app in ND as ([Nq NX]%NoDup_cons & DX & NR).
  set (h1 := match head xs with Some f => <[(f, po) := None]> h | None => h end).
  assert (dlist po no h1 xs) as [_ S1].
  { subst h1. destruct xs as [|f xs]; [by split|]. simpl. split; [done|]. by apply (dseg_set_prev _ _ Hpn _ (Some q)). }
  assert (dom h1 = dom h) as D1.
  { subst h1. destruct xs as [|f xs]; [done|]. simpl in *. apply dom_insert_lookup_L. eauto. tauto || (destruct S as (?&_); eauto). }
  replace (match head xs with Some f => store h f po None | None => Ret h end) with (Ret h1).
  2:{ subst h1. destruct xs as [|f xs]; [done|]. simpl in *. destruct S as (Ef & _). by rewrite store_live by eauto. }
  rewrite bind_Ret. assert (live po no h1 q) as Lq by (apply (live_dom _ _ h); [done|]; split; eauto).
  do_store. do_store. eexists _, _. split_and!; [done| | |done].
  - split_and!; simpl; try done.
    + apply NoDup_app. split_and!; [done| |constructor; [|done]]; set_solver.
    + apply dseg_insert_other; [done|]. by apply dseg_insert_other.
    + rewrite lookup_insert_eq, lookup_insert_ne by congruence. rewrite lookup_insert_eq. split_and!; [by eauto|done|].
      eapply rq_chain_frame, C. intros x Hx. assert (x <> q) by (intros ->; apply (DX q); set_solver).
      rewrite !lookup_insert_ne by congruence. subst h1. destruct (head xs) as [f|] eqn:Ef; [|done].
      assert (x <> f). { intros ->. apply (DX f); [|done]. right. apply hd_or_elem. by rewrite hd_or_None. }
      by rewrite !lookup_insert_ne by congruence.
    + rewrite L. destruct xs as [|f xs]; simpl; [by rewrite decide_True|].
      destruct (decide _) as [E|]; [|done]. apply last_elem in E. set_solver.
  - rewrite <- D1. rewrite !dom_insert_lookup_L; rewrite ?lookup_insert_is_Some; unfold live in *; naive_solver.
Qed.
End rep.

(** ** Runs *)

Inductive rq_op := Push (new : loc) | Pop | Flush.

(** Memory, the queue, and what was freed. *)
Definition exec_op (h : mem) (rq : nchan_reuse_queue_t) (o : rq_op) : outcome (mem * nchan_reuse_queue_t * list loc) :=
  match o with
  | Push new => '(h, rq, _) ← nchan_reuse_queue_push h rq (Some new); Ret (h, rq, [])
  | Pop => '(h, rq) ← nchan_reuse_queue_pop h rq; Ret (h, rq, [])
  | Flush => '(rq, xs) ← nchan_reuse_queue_flush h rq; Ret (h, rq, xs)
  end.
Fixpoint exec (h : mem) (rq : nchan_reuse_queue_t) (os : list rq_op) : outcome (mem * nchan_reuse_queue_t * list (list loc)) :=
  match os with
  | [] => Ret (h, rq, [])
  | o :: os => '(h, rq, f) ← exec_op h rq o; '(h, rq, fs) ← exec h rq os; Ret (h, rq, f :: fs)
  end.

(** The same on lists: the queue, the reserve; an element that is in use is not
    allocated again. *)
Definition spec_op (xs rs : list loc) (o : rq_op) : option (list loc * list loc * list loc) :=
  match o with
  | Push new =>
      match rs with
      | r :: rs => Some (xs ++ [r], rs, [])
      | [] => if decide (new ∈ xs) then None else Some (xs ++ [new], [], [])
      end
  | Pop => Some (tail xs, match head xs with Some q => q :: rs | None => rs end, [])
  | Flush => Some ([], xs, xs)
  end.
Fixpoint spec (xs rs : list loc) (os : list rq_op) : option (list loc * list loc * list (list loc)) :=
  match os with
  | [] => Some (xs, rs, [])
  | o :: os => '(xs, rs, f) ← spec_op xs rs o; '(xs, rs, fs) ← spec xs rs os; Some (xs, rs, f :: fs)
  end.

Lemma rq_exec_op_spec po no h rq xs rs o xs' rs' f :
  po <> no -> rep po no h rq xs rs -> spec_op xs rs o = Some (xs', rs', f) ->
  exists h' rq', exec_op h rq o = Ret (h', rq', f) /\ rep po no h' rq' xs' rs'.
Proof.
  intros Hpn R E. destruct o as [new| |]; simpl in *.
  - destruct rs as [|r rs]; simpl in E; [case_decide; simplify_eq|simplify_eq].
    + destruct (rq_push_rep po no Hpn h rq xs [] (Some new) new []) as (h' & rq' & -> & R' & _); [done..|]. simpl. eauto.
    + destruct (rq_push_rep po no Hpn h rq xs (r :: rs') (Some new) r rs') as (h' & rq' & -> & R' & _); [done..|]. simpl. eauto.
  - simplify_eq. destruct (rq_pop_rep po no Hpn h rq xs rs R) as (h' & rq' & -> & R' & _). simpl. eauto.
  - simplify_eq. destruct (rq_flush_rep po no Hpn h rq _ _ R) as (rq' & -> & R' & _). simpl. eauto.
Qed.

Lemma rq_exec_spec po no h rq ys ss os xs rs fs :
  po <> no -> rep po no h rq ys ss -> spec ys ss os = Some (xs, rs, fs) ->
  exists h' rq', exec h rq os = Ret (h', rq', fs) /\ rep po no h' rq' xs rs.
Proof.
  intros Hpn. revert h fs rq ys ss. induction os as [|o os IH]; intros h fs rq ys ss R E; simpl in *; [simplify_eq; eauto|].
  destruct (spec_op ys ss o) as [[[ys1 ss1] f]|] eqn:E1; simplify_eq/=.
  destruct (spec ys1 ss1 os) as [[[ys2 ss2] fs']|] eqn:E2; simplify_eq/=.
  destruct (rq_exec_op_spec po no h rq ys ss o ys1 ss1 f Hpn R E1) as (h1 & rq1 & -> & R1). simpl.
  destruct (IH h1 fs' rq1 ys1 ss1 R1 E2) as (h2 & rq2 & -> & R2). simpl. eauto.
Qed.

(** Any pushes, pops and flushes are those of a first-in first-out queue: no
    dead element is gone through, elements leave in the order they came, a flush
    frees each element of the queue once, in order, and the element that a push
    links in is not in the queue. *)
Theorem reuse_queue_is_fifo po no h os xs rs fs :
  po <> no -> spec [] [] os = Some (xs, rs, fs) ->
  exists h' rq', exec h (nchan_reuse_queue_init po no) os = Ret (h', rq', fs) /\
    nchan_reuse_queue_first rq' = head xs /\ nchan_reuse_queue_each h' rq' = Ret xs /\ NoDup (xs ++ rs).
Proof.
  intros Hpn E. destruct (rq_exec_spec po no h (nchan_reuse_queue_init po no) [] [] os xs rs fs Hpn) as (h' & rq' & -> & R');
    [by apply rq_rep_init|done|]. destruct R' as (P & N & ND & S & C & F & L & R).
  eexists _, _. split_and!; try done. unfold nchan_reuse_queue_each. rewrite F, N.
  apply NoDup_app in ND as (ND & _). apply things_chain with po; [done..|]. by eapply dseg_chain.
Qed.

Lemma reuse_queue_is_fifo_witness :
  exists h' rq', exec ∅ (nchan_reuse_queue_init 0 8) [Push 1; Push 2; Pop; Push 3; Flush; Push 4] = Ret (h', rq', [[]; []; []; []; [2; 1]; []]%positive) /\
    nchan_reuse_queue_first rq' = Some 2%positive /\ nchan_reuse_queue_each h' rq' = Ret [2%positive] /\ NoDup ([2; 1]%positive).
Proof. apply (reuse_queue_is_fifo 0 8 ∅ _ [2%positive] [1%positive]); [lia|]. vm_compute. reflexivity. Defined.

(** ** The reserve is lost by a flush *)

(** An answer of two elements, then one of one, over and over: each round
    allocates, although two elements would do. *)
Definition round (new1 new2 new3 : loc) : list rq_op := [Push new1; Push new2; Flush; Push new3; Flush].

Fixpoint rounds (n : nat) : list rq_op :=
  match n with O => [] | S n => rounds n ++ round 1 (Pos.of_nat (2 + n)) 1 end.

Definition allocated (n : nat) : outcome Z :=
  '(_, rq, _) ← exec ∅ (nchan_reuse_queue_init 0 8) (rounds n); Ret (size rq).

Lemma rq_exec_app h rq os1 os2 :
  exec h rq (os1 ++ os2) =
  ('(h, rq, fs1) ← exec h rq os1; '(h, rq, fs2) ← exec h rq os2; Ret (h, rq, fs1 ++ fs2)).
Proof.
  revert h rq. induction os1 as [|o os IH]; intros h rq; simpl.
  - by destruct (exec h rq os2) as [[[??]?]| |].
  - destruct (exec_op h rq o) as [[[h1 rq1] f]| |]; simpl; [|done..]. rewrite IH.
    destruct (exec h1 rq1 os) as [[[h2 rq2] fs]| |]; simpl; [|done..]. by destruct (exec h2 rq2 os2) as [[[??]?]| |].
Qed.

(** Memory that the queue allocates grows without bound, as long as the request
    lives. *)
Theorem reserve_grows n : (1 <= n)%nat -> allocated n = Ret (Z.of_nat n + 1).
Proof.
  intros Hn. assert (exists h rq fs, exec ∅ (nchan_reuse_queue_init 0 8) (rounds n) = Ret (h, rq, fs) /\
    rep 0 8 h rq [] [1%positive] /\ size rq = Z.of_nat n + 1) as (h & rq & fs & E & _ & Es);
    [|unfold allocated; rewrite E; simpl; by rewrite Es].
  assert (forall h rq (rs : list loc) q, rep 0 8 h rq [] rs -> rs = [] \/ rs = [1%positive] -> q <> 1%positive ->
    exists h' rq' fs, exec h rq (round 1 q 1) = Ret (h', rq', fs) /\ rep 0 8 h' rq' [] [1%positive] /\
      size rq' = size rq + match rs with [] => 2 | _ => 1 end) as Round.
  { intros h rq rs q R Ers Nq. unfold round. simpl.
    destruct (rq_push_rep 0 8 ltac:(lia) h rq [] rs (Some 1%positive) 1%positive []) as (h1 & rq1 & -> & R1 & _ & S1);
      [done|destruct Ers as [-> | ->]; split_and?; set_solver|]. simpl.
    destruct (rq_push_rep 0 8 ltac:(lia) h1 rq1 [1%positive] [] (Some q) q []) as (h2 & rq2 & -> & R2 & _ & S2); [done|set_solver|]. simpl.
    destruct (rq_flush_rep 0 8 ltac:(lia) h2 rq2 _ _ R2) as (rq3 & -> & R3 & S3). simpl.
    destruct (rq_push_rep 0 8 ltac:(lia) h2 rq3 [] [1; q]%positive (Some 1%positive) 1%positive [q]) as (h4 & rq4 & -> & R4 & _ & S4); [done..|]. simpl.
    destruct (rq_flush_rep 0 8 ltac:(lia) h4 rq4 _ _ R4) as (rq5 & -> & R5 & S5). simpl.
    eexists _, _, _. split_and!; [done|done|]. rewrite S5, S4, S3, S2, S1. destruct Ers as [-> | ->]; lia. }
  induction n as [|n IH]; [lia|]. cbn [rounds]. rewrite rq_exec_app. destruct n as [|n].
  - destruct (Round ∅ (nchan_reuse_queue_init 0 8) [] 2%positive) as (h & rq & fs & E & R & Sz); [by apply rq_rep_init|by left|done|].
    change (exec ∅ (nchan_reuse_queue_init 0 8) (rounds 0)) with (Ret (A := mem * nchan_reuse_queue_t * list (list loc)) (∅, nchan_reuse_queue_init 0 8, [])).
    rewrite bind_Ret. change (Pos.of_nat (2 + 0)) with 2%positive. rewrite E. simpl. eauto 10.
  - destruct IH as (h & rq & fs & -> & R & Sz); [lia|]. rewrite bind_Ret.
    destruct (Round h rq [1%positive] (Pos.of_nat (2 + S n))) as (h' & rq' & fs' & E' & R' & Sz'); [done|by right|lia|].
    rewrite E'. simpl. eexists _, _, _. split_and!; [done|done|]. lia.
Qed.
