(* ===== verification/BufChain.v ===== *)
(** * [util/nchan_bufchainpool.c]: buffers of a response

    Links of one buffer each, file structures, and a chain that is appended to.
    What is in use until the output is flushed goes to a list of recycled
    elements then, from which it is taken before anything is allocated. *)

From S2P Require Import Prelude DList Nginx Msg.

(** Fields of the structures: [next] of a [nchan_bufchain_link_t], [next] of its
    [ngx_chain_t], [next] of a [nchan_file_link_t]. *)
Definition LINK_NEXT : Z := 0.
Definition CHAIN_NEXT : Z := 8.
Definition FILE_NEXT : Z := 16.

Record nchan_bufchain_pool_t := BCP {
  bc_count : Z;
  file_count : Z;
  bc_recycle_count : Z;
  file_recycle_count : Z;
  bc_head : ptr;
  bc_recycle_head : ptr;
  file_head : ptr;
  file_recycle_head : ptr;
  bc_length : Z;             (* bc.length, and so on *)
  bc_chain_count : Z;
  bc_chain_head : ptr;
  bc_chain_tail : ptr;
  bc_chain_recycle_count : Z;
  bc_chain_recycle_head : ptr;
}.

(** The pointers, the buffers of chains, and the files. *)
Record pool_mem := PM { links : mem; bufs : gmap loc ngx_buf_t; files : gmap loc ngx_file_t }.
Definition with_links (m : pool_mem) (h : mem) : pool_mem := PM h (bufs m) (files m).
Definition with_bufs (m : pool_mem) (b : gmap loc ngx_buf_t) : pool_mem := PM (links m) b (files m).
Definition with_files (m : pool_mem) (f : gmap loc ngx_file_t) : pool_mem := PM (links m) (bufs m) f.

Definition nchan_bufchain_pool_init : nchan_bufchain_pool_t :=
  BCP 0 0 0 0 None None None None 0 0 None None 0 None.

(** ** Links *)

Definition set_bc (b : nchan_bufchain_pool_t) (n nr : Z) (hd rhd : ptr) : nchan_bufchain_pool_t :=
  BCP n (file_count b) nr (file_recycle_count b) hd rhd (file_head b) (file_recycle_head b)
    (bc_length b) (bc_chain_count b) (bc_chain_head b) (bc_chain_tail b) (bc_chain_recycle_count b) (bc_chain_recycle_head b).
Definition set_file (b : nchan_bufchain_pool_t) (n nr : Z) (hd rhd : ptr) : nchan_bufchain_pool_t :=
  BCP (bc_count b) n (bc_recycle_count b) nr (bc_head b) (bc_recycle_head b) hd rhd
    (bc_length b) (bc_chain_count b) (bc_chain_head b) (bc_chain_tail b) (bc_chain_recycle_count b) (bc_chain_recycle_head b).
Definition set_chain (b : nchan_bufchain_pool_t) (len n : Z) (hd tl : ptr) (nr : Z) (rhd : ptr) : nchan_bufchain_pool_t :=
  BCP (bc_count b) (file_count b) (bc_recycle_count b) (file_recycle_count b) (bc_head b) (bc_recycle_head b) (file_head b)
    (file_recycle_head b) len n hd tl nr rhd.

(** The loop of [nchan_bufchain_pool_reserve], [count] times; [news]: what the
    pool allocates. *)
Fixpoint reserve_loop (count : nat) (h : mem) (b : nchan_bufchain_pool_t) (first last : ptr) (news : list loc) :
    outcome (mem * nchan_bufchain_pool_t * ptr * ptr) :=
  match count with
  | O => Ret (h, b, first, last)
  | S count =>
      '(h, b, cur, news) ←
        match bc_recycle_head b with
        | Some cur =>
            next ← load h cur LINK_NEXT;
            Ret (h, set_bc b (bc_count b) (bc_recycle_count b - 1) (bc_head b) next, cur, news)
        | None =>
            match news with
            | cur :: news => Ret (alloc LINK_NEXT CHAIN_NEXT h cur None None, b, cur, news)
            | [] => Crash
            end
        end;
      h ← match last with
          | Some l => h ← store h l LINK_NEXT (Some cur); store h l CHAIN_NEXT (Some cur)
          | None => Ret h
          end;
      reserve_loop count h (set_bc b (bc_count b + 1) (bc_recycle_count b) (bc_head b) (bc_recycle_head b))
        (match first with Some f => Some f | None => Some cur end) (Some cur) news
  end.

Definition nchan_bufchain_pool_reserve (h : mem) (b : nchan_bufchain_pool_t) (count : Z) (news : list loc) :
    outcome (mem * nchan_bufchain_pool_t * ptr) :=
  if count <=? 0 then Ret (h, b, None)
  else
    '(h, b, first, last) ← reserve_loop (Z.to_nat count) h b None None news;
    h ← store_ptr h last LINK_NEXT (bc_head b);
    h ← store_ptr h last CHAIN_NEXT None;
    Ret (h, set_bc b (bc_count b) (bc_recycle_count b) first (bc_recycle_head b), first).

(** [while(head) ...]: from one list to the front of another. *)
Fixpoint move_all (fuel : nat) (h : mem) (no : Z) (from to : ptr) (n nr : Z) : outcome (mem * ptr * Z * Z) :=
  match from with
  | None => Ret (h, to, n, nr)
  | Some cur =>
      match fuel with
      | O => NoFuel
      | S fuel =>
          next ← load h cur no;
          h ← store h cur no to;
          move_all fuel h no next (Some cur) (n - 1) (nr + 1)
      end
  end.

(** ** The chain *)

(** [nchan_bufchain_append]: [None] is the buffer that is thrown away. *)
Definition nchan_bufchain_append (m : pool_mem) (b : nchan_bufchain_pool_t) (new : ptr) :
    outcome (pool_mem * nchan_bufchain_pool_t * ptr) :=
  '(m, b, r) ←
    match bc_chain_recycle_head b with
    | Some c =>
        next ← load (links m) c CHAIN_NEXT;
        Ret (m, set_chain b (bc_length b) (bc_chain_count b) (bc_chain_head b) (bc_chain_tail b)
                  (bc_chain_recycle_count b - 1) next, Some c)
    | None => Ret (match new with Some c => with_links m (<[(c, CHAIN_NEXT) := None]> (links m)) | None => m end, b, new)
    end;
  match r with
  | None => Ret (m, b, None)
  | Some c =>
      h ← store (links m) c CHAIN_NEXT None;
      '(h, bs) ←
        match bc_chain_tail b with
        | Some t =>
            match bufs m !! t with
            | Some tbuf =>
                h ← store h t CHAIN_NEXT (Some c);
                Ret (h, <[t := Buf (in_memory tbuf) (in_file tbuf) (buf_content tbuf) (buf_file_size tbuf) (buf_file tbuf) false]> (bufs m))
            | None => Crash
            end
        | None => Ret (h, bufs m)
        end;
      Ret (PM h bs (files m),
           set_chain b (bc_length b) (bc_chain_count b + 1)
             (match bc_chain_head b with Some x => Some x | None => Some c end) (Some c)
             (bc_chain_recycle_count b) (bc_chain_recycle_head b), Some c)
  end.

Definition last_of (x : ngx_buf_t) : ngx_buf_t :=
  Buf (in_memory x) (in_file x) (buf_content x) (buf_file_size x) (buf_file x) true.

Definition nchan_bufchain_append_buf (m : pool_mem) (b : nchan_bufchain_pool_t) (inbuf : ngx_buf_t) (new : ptr) :
    outcome (pool_mem * nchan_bufchain_pool_t) :=
  '(m, b, r) ← nchan_bufchain_append m b new;
  Ret (match r with Some c => with_bufs m (<[c := last_of inbuf]> (bufs m)) | None => m end,
       set_chain b (bc_length b + ngx_buf_size inbuf) (bc_chain_count b) (bc_chain_head b) (bc_chain_tail b)
         (bc_chain_recycle_count b) (bc_chain_recycle_head b)).

Definition str_buf (str : list Z) : ngx_buf_t := Buf true false str 0 None true.
Definition nchan_bufchain_append_str (m : pool_mem) (b : nchan_bufchain_pool_t) (str : list Z) (new : ptr) :
    outcome (pool_mem * nchan_bufchain_pool_t) :=
  '(m, b, r) ← nchan_bufchain_append m b new;
  Ret (match r with Some c => with_bufs m (<[c := str_buf str]> (bufs m)) | None => m end,
       set_chain b (bc_length b + Z.of_nat (length str)) (bc_chain_count b) (bc_chain_head b) (bc_chain_tail b)
         (bc_chain_recycle_count b) (bc_chain_recycle_head b)).

Definition nchan_bufchain_length (b : nchan_bufchain_pool_t) : Z := bc_length b.
Definition nchan_bufchain_first_chain (b : nchan_bufchain_pool_t) : ptr := bc_chain_head b.

(** ** Files *)

Definition nchan_bufchain_pool_reserve_file (m : pool_mem) (b : nchan_bufchain_pool_t) (new : ptr) :
    outcome (pool_mem * nchan_bufchain_pool_t * loc) :=
  '(m, b, cur) ←
    match file_recycle_head b with
    | Some cur =>
        next ← load (links m) cur FILE_NEXT;
        Ret (m, set_file b (file_count b) (file_recycle_count b - 1) (file_head b) next, cur)
    | None =>
        match new with
        | Some cur => Ret (with_links m (<[(cur, FILE_NEXT) := None]> (links m)), b, cur)
        | None => Crash
        end
    end;
  h ← store (links m) cur FILE_NEXT (file_head b);
  Ret (with_links m h, set_file b (file_count b + 1) (file_recycle_count b) (Some cur) (file_recycle_head b), cur).

(** [get]: [nchan_fdcache_get]; whether the file can be opened. *)
Fixpoint refresh_loop (fuel : nat) (m : pool_mem) (get : bytes -> bool) (p : ptr) : outcome pool_mem :=
  match p with
  | None => Ret m
  | Some cur =>
      match fuel with
      | O => NoFuel
      | S fuel =>
          match files m !! cur with
          | None => Crash
          | Some f =>
              next ← load (links m) cur FILE_NEXT;
              refresh_loop fuel (with_files m (<[cur := File (file_name f) (get (file_name f))]> (files m))) get next
          end
      end
  end.
Definition nchan_bufchain_pool_refresh_files (m : pool_mem) (b : nchan_bufchain_pool_t) (get : bytes -> bool) : outcome pool_mem :=
  refresh_loop (base.size (links m)) m get (file_head b).

(** ** Flushing *)

Definition nchan_bufchain_pool_flush (m : pool_mem) (b : nchan_bufchain_pool_t) : outcome (pool_mem * nchan_bufchain_pool_t) :=
  h ← match bc_chain_tail b with
      | Some t => store (links m) t CHAIN_NEXT (bc_chain_recycle_head b)
      | None => Ret (links m)
      end;
  let b := set_chain b 0 0 None None (bc_chain_recycle_count b + bc_chain_count b) (bc_chain_head b) in
  '(h, rhd, n, nr) ← move_all (base.size h) h LINK_NEXT (bc_head b) (bc_recycle_head b) (bc_count b) (bc_recycle_count b);
  c_assert (n =? 0);;
  let b := set_bc b n nr None rhd in
  '(h, rhd, n, nr) ← move_all (base.size h) h FILE_NEXT (file_head b) (file_recycle_head b) (file_count b) (file_recycle_count b);
  c_assert (n =? 0);;
  Ret (with_links m h, set_file b n nr None rhd).

(** ** Moving a list *)

Section moving.
Context (o : Z).

(** Nothing but the links of [xs] along [o] is changed. *)
Definition only (xs : list loc) (h h' : mem) : Prop :=
  forall y o', o' <> o \/ y ∉ xs -> h' !! (y, o') = h !! (y, o').

Lemma move_all_rep fuel h xs ys n nr :
  (length xs <= fuel)%nat -> NoDup (xs ++ ys) -> sseg o h xs None -> sseg o h ys None ->
  exists h', move_all fuel h o (head xs) (head ys) n nr =
      Ret (h', head (reverse xs ++ ys), n - Z.of_nat (length xs), nr + Z.of_nat (length xs)) /\
    sseg o h' (reverse xs ++ ys) None /\ only xs h h'.
Proof.
  revert fuel h ys n nr. induction xs as [|x xs IH]; intros fuel h ys n nr L ND S1 S2; simpl.
  - exists h. split_and!; [|done|done]. destruct fuel; simpl; do 2 f_equal; first [lia | f_equal; lia].
  - destruct fuel as [|fuel]; [simpl in L; lia|]. simpl. destruct S1 as (E & S1). rewrite hd_or_None in E.
    rewrite (load_Some _ _ _ _ E), bind_Ret, store_live, bind_Ret by eauto.
    apply NoDup_cons in ND as [Nx ND]. change (Some x) with (head (x :: ys)).
    destruct (IH fuel (<[(x, o) := head ys]> h) (x :: ys) (n - 1) (nr + 1)) as (h' & -> & S' & F').
    + simpl in L. lia.
    + rewrite <- Permutation_middle. by constructor.
    + apply sseg_insert_other; [set_solver|done].
    + simpl. rewrite lookup_insert_eq, hd_or_None. split; [done|]. apply sseg_insert_other; [set_solver|done].
    + exists h'. rewrite reverse_cons, <- app_assoc. split_and!; [|done|].
      * simpl. do 2 f_equal; first [lia | f_equal; lia].
      * intros y o' N. rewrite F' by set_solver. rewrite lookup_insert_ne; [done|]. intros [= <- <-]. set_solver.
Qed.
End moving.

(** ** What a pool represents *)

(** Links in use and recycled, elements of the chain with what they hold and
    recycled ones, files in use and recycled. *)
Record pool_view := View {
  used : list loc; spare : list loc;
  out : list (loc * ngx_buf_t); spare_out : list loc;
  open_files : list loc; spare_files : list loc;
}.

(** The buffers of a chain in order, the last one marked. *)
Fixpoint holds (bs : gmap loc ngx_buf_t) (xs : list (loc * ngx_buf_t)) : Prop :=
  match xs with
  | [] => True
  | (c, x) :: ys =>
      bs !! c = Some (Buf (in_memory x) (in_file x) (buf_content x) (buf_file_size x) (buf_file x)
                        (match ys with [] => true | _ => false end)) /\ holds bs ys
  end.

Definition total (xs : list (loc * ngx_buf_t)) : Z := foldr Z.add 0 ((fun x => ngx_buf_size x.2) <$> xs).

Record links_rep (h : mem) (b : nchan_bufchain_pool_t) (us rs : list loc) : Prop := {
  lr_nodup : NoDup (us ++ rs);
  lr_used : sseg LINK_NEXT h us None;
  lr_spare : sseg LINK_NEXT h rs None;
  lr_chain : forall x, x ∈ us ++ rs -> is_Some (h !! (x, CHAIN_NEXT));
  lr_head : bc_head b = head us;
  lr_rhead : bc_recycle_head b = head rs;
  lr_count : bc_count b = Z.of_nat (length us);
  lr_rcount : bc_recycle_count b = Z.of_nat (length rs);
}.

Record chain_rep (m : pool_mem) (b : nchan_bufchain_pool_t) (xs : list (loc * ngx_buf_t)) (rs : list loc) : Prop := {
  cr_nodup : NoDup (xs.*1 ++ rs);
  cr_out : sseg CHAIN_NEXT (links m) xs.*1 None;
  cr_spare : sseg CHAIN_NEXT (links m) rs None;
  cr_holds : holds (bufs m) xs;
  cr_head : bc_chain_head b = head xs.*1;
  cr_tail : bc_chain_tail b = last xs.*1;
  cr_rhead : bc_chain_recycle_head b = head rs;
  cr_count : bc_chain_count b = Z.of_nat (length xs);
  cr_rcount : Z.of_nat (length rs) <= bc_chain_recycle_count b;   (* [empty_flush_forgets] *)
  cr_length : bc_length b = total xs;
}.

Record files_rep (h : mem) (b : nchan_bufchain_pool_t) (us rs : list loc) : Prop := {
  fr_nodup : NoDup (us ++ rs);
  fr_used : sseg FILE_NEXT h us None;
  fr_spare : sseg FILE_NEXT h rs None;
  fr_head : file_head b = head us;
  fr_rhead : file_recycle_head b = head rs;
  fr_count : file_count b = Z.of_nat (length us);
  fr_rcount : file_recycle_count b = Z.of_nat (length rs);
}.

Record pool_rep (m : pool_mem) (b : nchan_bufchain_pool_t) (v : pool_view) : Prop := {
  pr_links : links_rep (links m) b (used v) (spare v);
  pr_chain : chain_rep m b (out v) (spare_out v);
  pr_files : files_rep (links m) b (open_files v) (spare_files v);
  pr_apart : forall x, x ∈ used v ++ spare v -> x ∉ (out v).*1 ++ spare_out v;
}.

Lemma pool_init_rep m : pool_rep m nchan_bufchain_pool_init (View [] [] [] [] [] []).
Proof. split; [split|split|split|]; simpl; try done; try constructor; set_solver. Qed.

(** ** Reserving links *)

Definition taken (n : nat) (rs news : list loc) : list loc := take n rs ++ take (n - length rs) news.

Definition only2 (o1 o2 : Z) (xs : list loc) (h h' : mem) : Prop :=
  forall y o, o <> o1 /\ o <> o2 \/ y ∉ xs -> h' !! (y, o) = h !! (y, o).

(** The last one's links are not read again before they are written. *)
Definition open_seg (o : Z) (h : mem) (xs : list loc) : Prop := exists e, sseg o h xs e.

Lemma open_seg_snoc o h xs y : (forall l, last xs = Some l -> h !! (l, o) = Some (Some y)) -> is_Some (h !! (y, o)) ->
  open_seg o h xs -> open_seg o h (xs ++ [y]).
Proof.
  intros El [v Ey] (e & S). exists v. apply sseg_app. simpl. rewrite Ey. split; [|done].
  destruct xs as [|l xs _] using rev_ind; [done|]. apply sseg_app in S as [S _]. apply sseg_app. split; [done|].
  simpl. split; [|done]. apply El. by rewrite last_snoc.
Qed.

(** The elements so far, linked, and the next one. *)
Lemma link_next h xs cur :
  NoDup (xs ++ [cur]) -> open_seg LINK_NEXT h xs -> open_seg CHAIN_NEXT h xs ->
  is_Some (h !! (cur, LINK_NEXT)) -> is_Some (h !! (cur, CHAIN_NEXT)) ->
  exists h', match last xs with
             | Some l => h ← store h l LINK_NEXT (Some cur); store h l CHAIN_NEXT (Some cur)
             | None => Ret h
             end = Ret h' /\
    open_seg LINK_NEXT h' (xs ++ [cur]) /\ open_seg CHAIN_NEXT h' (xs ++ [cur]) /\ only2 LINK_NEXT CHAIN_NEXT xs h h'.
Proof.
  intros ND (e1 & S1) (e2 & S2) L1 L2. apply NoDup_app in ND as (ND & D & _).
  destruct xs as [|l xs _] using rev_ind.
  - exists h. split_and!; [done| | |done]; apply open_seg_snoc; try done; by exists None.
  - assert (l <> cur) as N by (intros ->; apply (D cur); set_solver). clear D.
    rewrite last_snoc, store_live by (eapply sseg_live; [apply S1|set_solver]). rewrite bind_Ret.
    assert (is_Some (h !! (l, CHAIN_NEXT))) by (eapply sseg_live; [apply S2|set_solver]).
    rewrite store_live by (rewrite lookup_insert_ne; [done|discriminate]).
    eexists. split_and!; [done| | |].
    + apply open_seg_snoc; [|by rewrite !lookup_insert_ne by congruence|].
      * rewrite last_snoc. intros ? [= <-]. rewrite lookup_insert_ne by discriminate. by rewrite lookup_insert_eq.
      * exists (Some cur). apply sseg_insert_other; [discriminate|]. by apply (sseg_set_end _ _ _ _ e1).
    + apply open_seg_snoc; [|by rewrite !lookup_insert_ne by congruence|].
      * rewrite last_snoc. intros ? [= <-]. by rewrite lookup_insert_eq.
      * exists (Some cur). apply (sseg_set_end _ _ _ _ e2); [done|]. by apply sseg_insert_other; [discriminate|].
    + intros y o [[N1 N2]|Ny]; rewrite !lookup_insert_ne; try done; intros [= <- <-]; set_solver.
Qed.

Lemma reserve_loop_rep n h b ts rs news :
  (n - length rs <= length news)%nat -> NoDup (ts ++ rs ++ take (n - length rs) news) ->
  open_seg LINK_NEXT h ts -> open_seg CHAIN_NEXT h ts -> sseg LINK_NEXT h rs None ->
  (forall x, x ∈ rs -> is_Some (h !! (x, CHAIN_NEXT))) -> bc_recycle_head b = head rs ->
  exists h', reserve_loop n h b (head ts) (last ts) news =
      Ret (h', set_bc b (bc_count b + Z.of_nat n) (bc_recycle_count b - Z.of_nat (length (take n rs))) (bc_head b) (head (drop n rs)),
             head (ts ++ taken n rs news), last (ts ++ taken n rs news)) /\
    open_seg LINK_NEXT h' (ts ++ taken n rs news) /\ open_seg CHAIN_NEXT h' (ts ++ taken n rs news) /\
    only2 LINK_NEXT CHAIN_NEXT (ts ++ taken n rs news) h h'.
Proof.
  revert h b ts rs news. induction n as [|n IH]; intros h b ts rs news Ln ND S1 S2 S3 Lc E; unfold taken.
  - exists h. simpl. rewrite drop_0, app_nil_r, <- E. split_and!; [|done..]. do 4 f_equal. destruct b; unfold set_bc; simpl in *. f_equal; lia.
  - simpl. rewrite E. destruct rs as [|cur rs]; simpl.
    + destruct news as [|cur news]; simpl in Ln; [lia|]. simpl in ND.
      rewrite bind_Ret. assert (cur ∉ ts) as Nc by (apply NoDup_app in ND; set_solver).
      destruct (link_next (alloc LINK_NEXT CHAIN_NEXT h cur None None) ts cur) as (h1 & -> & T1 & T2 & F1).
      * apply NoDup_app. apply NoDup_app in ND as (? & _ & _). split_and!; [done|set_solver|apply NoDup_singleton].
      * destruct S1 as (e & S1). exists e. by do 2 (apply sseg_insert_other; [done|]).
      * destruct S2 as (e & S2). exists e. by do 2 (apply sseg_insert_other; [done|]).
      * unfold alloc. by rewrite lookup_insert_eq.
      * unfold alloc. rewrite lookup_insert_ne by discriminate. by rewrite lookup_insert_eq.
      * rewrite bind_Ret.
        destruct (IH h1 (set_bc b (bc_count b + 1) (bc_recycle_count b) (bc_head b) None) (ts ++ [cur]) [] news) as (h' & E' & T1' & T2' & F'); try done.
        -- simpl. lia.
        -- simpl. rewrite Nat.sub_0_r, <- app_assoc. done.
        -- set_solver.
        -- exists h'. revert E' T1' T2' F'. unfold taken. simpl. rewrite !take_nil, !drop_nil, Nat.sub_0_r. simpl. rewrite <- !app_assoc. simpl.
           intros E' T1' T2' F'. split_and!; [|done|done|].
           ++ rewrite last_snoc in E'. replace (match head ts with Some f => Some f | None => Some cur end) with (head (ts ++ [cur])) by (by destruct ts).
              simpl in E. rewrite ?E. etransitivity; [exact E'|]. do 4 f_equal. unfold set_bc. simpl. f_equal; lia.
           ++ intros y o N. rewrite F', F1 by set_solver. unfold alloc. rewrite !lookup_insert_ne; [done|intros [= <- <-]; set_solver..].
    + simpl in ND, S3. destruct S3 as (E3 & S3). rewrite (load_Some _ _ _ _ E3), !bind_Ret.
      destruct (link_next h ts cur) as (h1 & -> & T1 & T2 & F1); [|done|done|by eauto|apply Lc; set_solver|].
      { rewrite Permutation_app_comm. simpl. rewrite <- Permutation_middle, app_assoc in ND.
        apply NoDup_cons in ND as [Nc ND]. apply NoDup_app in ND as (ND & _). apply NoDup_app in ND as (ND & _). constructor; [set_solver|done]. }
      rewrite bind_Ret.
      assert (forall x, x ∈ rs -> x ∉ ts) as D. { intros x Hx Hx'. apply NoDup_app in ND as (_ & D & _). apply (D x); set_solver. }
      destruct (IH h1 (set_bc b (bc_count b + 1) (bc_recycle_count b - 1) (bc_head b) (head rs)) (ts ++ [cur]) rs news) as (h' & E' & T1' & T2' & F'); try done.
      * by rewrite <- app_assoc.
      * eapply sseg_frame, S3. intros x Hx. apply F1. right. by apply D.
      * intros x Hx. rewrite F1; [apply Lc; set_solver|]. right. by apply D.
      * exists h'. revert E' T1' T2' F'. unfold taken. rewrite last_snoc, <- !app_assoc. simpl. intros E' T1' T2' F'.
        rewrite hd_or_None. simpl. split_and!; [|done|done|].
        -- replace (match head ts with Some f => Some f | None => Some cur end) with (head (ts ++ [cur])) by (by destruct ts).
           etransitivity; [exact E'|]. do 4 f_equal. unfold set_bc. simpl. f_equal; lia.
        -- intros y o N. by rewrite F', F1 by set_solver.
Qed.

Lemma taken_length n rs news : (n - length rs <= length news)%nat -> length (taken n rs news) = n.
Proof. intros. unfold taken. rewrite length_app, !length_take. lia. Qed.

Lemma taken_perm us n rs news :
  (taken n rs news ++ us) ++ drop n rs ≡ₚ us ++ rs ++ take (n - length rs) news.
Proof.
  unfold taken. generalize (take (n - length rs) news). intros N.
  rewrite <- (take_drop n rs) at 3. rewrite (Permutation_app_comm _ us), <- !app_assoc. do 2 f_equiv. apply Permutation_app_comm.
Qed.

Lemma snoc_inv {A} (xs : list A) : (0 < length xs)%nat -> exists ys l, xs = ys ++ [l].
Proof. destruct xs as [|l ys _] using rev_ind; [simpl; lia|eauto]. Qed.

Lemma pool_reserve_rep h b us rs count news :
  0 < count -> links_rep h b us rs -> (Z.to_nat count - length rs <= length news)%nat ->
  NoDup (us ++ rs ++ take (Z.to_nat count - length rs) news) ->
  let ts := taken (Z.to_nat count) rs news in
  exists h', nchan_bufchain_pool_reserve h b count news =
      Ret (h', set_bc b (bc_count b + count) (bc_recycle_count b - Z.of_nat (length (take (Z.to_nat count) rs)))
                 (head ts) (head (drop (Z.to_nat count) rs)), head ts) /\
    links_rep h' (set_bc b (bc_count b + count) (bc_recycle_count b - Z.of_nat (length (take (Z.to_nat count) rs)))
                 (head ts) (head (drop (Z.to_nat count) rs))) (ts ++ us) (drop (Z.to_nat count) rs) /\
    sseg CHAIN_NEXT h' ts None /\ only2 LINK_NEXT CHAIN_NEXT ts h h'.
Proof.
  intros Hc [ND Su Ss Lc E1 E2 E3 E4] Ln NDn ts. unfold nchan_bufchain_pool_reserve. rewrite (proj2 (Z.leb_gt _ _)) by lia.
  destruct (reserve_loop_rep (Z.to_nat count) h b [] rs news) as (h1 & E & (e1 & T1) & (e2 & T2) & F); try done.
  { apply NoDup_app in NDn. tauto. }
  { by exists None. } { by exists None. } { intros x Hx. apply Lc. set_solver. }
  cbn [head last] in E. rewrite E, bind_Ret. simpl. fold ts in T1, T2, F |- *. assert (length ts = Z.to_nat count) as L by by apply taken_length.
  pose proof NDn as ND'. rewrite <- taken_perm in ND'. fold ts in ND'.
  assert (forall x, x ∈ us ++ drop (Z.to_nat count) rs -> x ∉ ts) as D.
  { intros x Hx Hx'. rewrite <- app_assoc in ND'. apply NoDup_app in ND' as (_ & D & _). by apply (D x). }
  destruct (snoc_inv ts) as (ts0 & l & Et); [lia|]. rewrite Et, last_snoc, <- Et. simpl. rewrite E1.
  assert (l ∈ ts) as Il by (rewrite Et; set_solver).
  rewrite store_live by (eapply sseg_live; [apply T1|done]). rewrite bind_Ret.
  assert (is_Some (h1 !! (l, CHAIN_NEXT))) as Ll by (eapply sseg_live; [apply T2|done]).
  rewrite store_live by (rewrite lookup_insert_ne; [done|discriminate]). rewrite bind_Ret.
  set (h2 := <[(l, CHAIN_NEXT) := None]> _).
  assert (NoDup (ts0 ++ [l])) as NDt. { rewrite <- Et. rewrite <- app_assoc in ND'. apply NoDup_app in ND'. tauto. }
  assert (only2 LINK_NEXT CHAIN_NEXT ts h h2) as F2.
  { intros y o N. subst h2. rewrite !lookup_insert_ne by (intros [= <- <-]; set_solver). by apply F. }
  assert (sseg CHAIN_NEXT h2 ts None) as C2.
  { subst h2. rewrite Et in T2 |- *. apply (sseg_set_end _ _ _ _ e2); [done|]. by apply sseg_insert_other; [discriminate|]. }
  eexists. split; [do 3 f_equal; unfold set_bc; simpl; f_equal; lia|]. split; [split|by split]; simpl; try done.
  - rewrite sseg_app. split.
    + subst h2. apply sseg_insert_other; [discriminate|]. rewrite Et in T1 |- *. rewrite hd_or_None.
      by apply (sseg_set_end _ _ _ _ e1).
    + eapply sseg_frame, Su. intros x Hx. apply F2. right. apply D. set_solver.
  - rewrite <- (take_drop (Z.to_nat count) rs), sseg_app in Ss. destruct Ss as [_ Ss].
    eapply sseg_frame, Ss. intros x Hx. apply F2. right. apply D. set_solver.
  - intros x [[Hx|Hx]%elem_of_app|Hx]%elem_of_app.
    + by apply (sseg_live _ _ _ _ _ C2).
    + rewrite F2; [apply Lc; set_solver|]. right. apply D. set_solver.
    + rewrite F2; [apply Lc|right; apply D; set_solver]. apply elem_of_app. right. by eapply subseteq_drop.
  - rewrite Et. by destruct ts0.
  - rewrite length_app, L, E3. lia.
  - rewrite E4, length_take, length_drop. lia.
Qed.

(** ** Appending *)

Definition not_last (x : ngx_buf_t) : ngx_buf_t :=
  Buf (in_memory x) (in_file x) (buf_content x) (buf_file_size x) (buf_file x) false.

Lemma holds_frame bs bs' xs : (forall c, c ∈ xs.*1 -> bs' !! c = bs !! c) -> holds bs xs -> holds bs' xs.
Proof.
  induction xs as [|[c x] xs IH]; intros F; simpl; [done|]. intros [E H]. split; [rewrite F by set_solver; done|].
  apply IH; [|done]. intros y Hy. apply F. set_solver.
Qed.

Lemma holds_last bs xs t y : holds bs (xs ++ [(t, y)]) -> bs !! t = Some (last_of y).
Proof. induction xs as [|[c x] xs IH]; simpl; [tauto|]. intros [_ H]. auto. Qed.

(** The last one is not the last one any more. *)
Lemma holds_snoc bs xs c x : NoDup (xs.*1 ++ [c]) -> holds bs xs ->
  holds (<[c := last_of x]> match last xs with Some (t, y) => <[t := not_last y]> bs | None => bs end) (xs ++ [(c, x)]).
Proof.
  induction xs as [|[d y] xs IH]; intros ND; simpl; [intros _; by rewrite lookup_insert_eq|].
  intros [E H]. simpl in ND. apply NoDup_cons in ND as [Nd ND]. assert (d <> c) by set_solver.
  destruct xs as [|[e z] xs].
  - simpl. rewrite lookup_insert_ne, !lookup_insert_eq by done. done.
  - specialize (IH ND H). rewrite last_cons_cons. split; [|done].
    destruct (last ((e, z) :: xs)) as [[t w]|] eqn:El; rewrite lookup_insert_ne by done; [|done].
    assert (d <> t). { intros ->. apply Nd, elem_of_app. left. apply last_elem in El. apply list_elem_of_fmap. by exists (t, w). }
    by rewrite lookup_insert_ne.
Qed.

Lemma pool_append_rep m b xs rs new c rs' :
  chain_rep m b xs rs ->
  match rs with r :: rs0 => c = r /\ rs' = rs0 | [] => new = Some c /\ c ∉ xs.*1 /\ rs' = [] end ->
  exists m' n, nchan_bufchain_append m b new =
      Ret (m', set_chain b (bc_length b) (bc_chain_count b + 1) (head (xs.*1 ++ [c])) (Some c) n (head rs'), Some c) /\
    (forall x, chain_rep (with_bufs m' (<[c := last_of x]> (bufs m')))
      (set_chain b (bc_length b + ngx_buf_size x) (bc_chain_count b + 1) (head (xs.*1 ++ [c])) (Some c) n (head rs'))
      (xs ++ [(c, x)]) rs') /\
    only CHAIN_NEXT (xs.*1 ++ [c]) (links m) (links m').
Proof.
  intros [ND So Ss Hb E1 E2 E3 E4 E5 E6] Ec. unfold nchan_bufchain_append. rewrite E3.
  set (m1 := match rs with [] => with_links m (<[(c, CHAIN_NEXT) := None]> (links m)) | _ => m end).
  set (n := match rs with [] => bc_chain_recycle_count b | _ => bc_chain_recycle_count b - 1 end).
  assert (NoDup (xs.*1 ++ [c])) as NDc.
  { destruct rs as [|r rs]; [destruct Ec as (_ & Nc & _)|destruct Ec as [-> _]]; apply NoDup_app in ND as (ND & D & _);
      apply NoDup_app; split_and!; try done; try apply NoDup_singleton; set_solver. }
  assert (sseg CHAIN_NEXT (links m1) xs.*1 None /\ sseg CHAIN_NEXT (links m1) rs' None /\ is_Some (links m1 !! (c, CHAIN_NEXT)) /\
    NoDup (xs.*1 ++ c :: rs') /\ Z.of_nat (length rs') <= n /\ bufs m1 = bufs m /\
    only CHAIN_NEXT (xs.*1 ++ [c]) (links m) (links m1)) as (So1 & Ss1 & Lc & ND1 & En & Eb & F1).
  { subst m1 n. destruct rs as [|r rs].
    - destruct Ec as (_ & Nc & ->). simpl. rewrite lookup_insert_eq. split_and!; try done.
      + by apply sseg_insert_other. + intros y o N. rewrite lookup_insert_ne; [done|]. intros [= <- <-]. set_solver.
    - destruct Ec as (-> & ->). destruct Ss as [Er Ss]. simpl in E5. split_and!; try done; try lia; by eauto. }
  set (bt := match last xs with Some (t, y) => <[t := not_last y]> (bufs m) | None => bufs m end).
  set (h' := match last xs.*1 with Some t => <[(t, CHAIN_NEXT) := Some c]> (<[(c, CHAIN_NEXT) := None]> (links m1)) | None => <[(c, CHAIN_NEXT) := None]> (links m1) end).
  assert ((match bc_chain_tail b with
     | Some t => match bufs m !! t with
         | Some tbuf => h ← store (<[(c, CHAIN_NEXT) := None]> (links m1)) t CHAIN_NEXT (Some c); Ret (h, <[t := not_last tbuf]> (bufs m))
         | None => Crash
         end
     | None => Ret (<[(c, CHAIN_NEXT) := None]> (links m1), bufs m)
     end) = Ret (h', bt)) as Et.
  { rewrite E2. subst h' bt. destruct xs as [|[t y] ys _] using rev_ind; [done|]. rewrite fmap_app, last_snoc. simpl. rewrite last_snoc.
    rewrite (holds_last _ _ _ _ Hb), store_live; [done|]. destruct (decide (t = c)) as [->|]; [by rewrite lookup_insert_eq|].
    rewrite lookup_insert_ne by congruence. eapply sseg_live; [apply So1|]. rewrite fmap_app. set_solver. }
  assert (match bc_chain_head b with Some x => Some x | None => Some c end = head (xs.*1 ++ [c])) as Eh by (rewrite E1; by destruct xs).
  assert (only CHAIN_NEXT (xs.*1 ++ [c]) (links m1) h') as F2.
  { intros y o N. assert ((c, CHAIN_NEXT) <> (y, o)) by (intros [= <- <-]; set_solver). subst h'. destruct (last xs.*1) as [t|] eqn:El; [|by rewrite lookup_insert_ne].
    apply last_elem in El. rewrite !lookup_insert_ne; try done. intros [= <- <-]. set_solver. }
  assert (forall l, last xs.*1 = Some l -> l <> c) as Nl.
  { intros l El%last_elem ->. apply NoDup_app in NDc as (_ & D & _). apply (D c El). set_solver. }
  exists (PM h' bt (files m)), n. split_and!.
  - destruct rs as [|r rs]; simpl.
    + destruct Ec as (-> & Nc & ->). simpl. rewrite store_live, bind_Ret by done.
      etransitivity; [apply (f_equal (fun w => w ≫= _) Et)|]. simpl. by rewrite Eh, E3.
    + destruct Ec as (-> & ->). destruct Ss as [Er Ss]. rewrite hd_or_None in Er. rewrite (load_Some _ _ _ _ Er), bind_Ret, bind_Ret. simpl. rewrite store_live, bind_Ret by done.
      etransitivity; [apply (f_equal (fun w => w ≫= _) Et)|]. simpl. by rewrite Eh.
  - intros x. split; simpl; try done.
    + by rewrite fmap_app, <- app_assoc.
    + rewrite fmap_app. simpl. subst h'. destruct xs as [|[t y] ys _] using rev_ind; [simpl; by rewrite lookup_insert_eq|].
      rewrite fmap_app in *. simpl in *. rewrite last_snoc in *. specialize (Nl t eq_refl).
      apply sseg_app. simpl. rewrite lookup_insert_ne by congruence. rewrite lookup_insert_eq. split; [|done].
      apply NoDup_app in NDc as (NDy & D & _). apply (sseg_set_end _ _ _ _ None); [done|]. apply sseg_insert_other; [|done].
      intros I. exfalso. apply (D c I). set_solver.
    + eapply sseg_frame, Ss1. intros z Hz. apply F2. right. rewrite (cons_middle c), app_assoc in ND1. apply NoDup_app in ND1 as (_ & D & _).
      intros I. by apply (D z).
    + subst bt. by apply holds_snoc.
    + by rewrite fmap_app.
    + rewrite fmap_app. simpl. by rewrite last_snoc.
    + rewrite E4, length_app. simpl. lia.
    + unfold total. rewrite E6, fmap_app. unfold total. simpl. rewrite foldr_app. simpl. clear. induction (_ <$> xs); simpl; lia.
  - simpl. intros y o N. by rewrite F2, F1.
Qed.

(** ** Files *)

Lemma reserve_file_rep m b us rs new c rs' :
  files_rep (links m) b us rs ->
  match rs with r :: rs0 => c = r /\ rs' = rs0 | [] => new = Some c /\ c ∉ us /\ rs' = [] end ->
  exists m' n nr, nchan_bufchain_pool_reserve_file m b new = Ret (m', set_file b n nr (Some c) (head rs'), c) /\
    files_rep (links m') (set_file b n nr (Some c) (head rs')) (c :: us) rs' /\
    only FILE_NEXT [c] (links m) (links m') /\ bufs m' = bufs m /\ files m' = files m.
Proof.
  intros [ND Su Ss E1 E2 E3 E4] Ec. unfold nchan_bufchain_pool_reserve_file. rewrite E2. destruct rs as [|r rs]; simpl.
  - destruct Ec as (-> & Nc & ->). simpl. rewrite store_live by by rewrite lookup_insert_eq. rewrite bind_Ret.
    eexists _, _, _. split; [do 3 f_equal; unfold set_file; by rewrite E2|]. split_and!; try done.
    + split; simpl; try done; [|split; [by rewrite lookup_insert_eq, hd_or_None, E1|]|lia].
      * rewrite app_nil_r in *. by constructor.
      * by do 2 (apply sseg_insert_other; [done|]).
    + intros y o N. simpl. rewrite !lookup_insert_ne; [done|intros [= <- <-]; set_solver..].
  - destruct Ec as (-> & ->). destruct Ss as [Er Ss]. rewrite hd_or_None in Er. rewrite (load_Some _ _ _ _ Er), bind_Ret. simpl.
    rewrite store_live by eauto. rewrite bind_Ret. rewrite <- Permutation_middle in ND. apply NoDup_cons in ND as [Nr ND].
    eexists _, _, _. split; [done|]. split_and!; try done.
    + split; simpl; try done; [by constructor|split; [by rewrite lookup_insert_eq, hd_or_None, E1|]| |lia|simpl in E4; lia];
        (apply sseg_insert_other; [set_solver|done]).
    + intros y o N. simpl. rewrite !lookup_insert_ne; [done|intros [= <- <-]; set_solver..].
Qed.

(** Every file in use is opened again, or found to be gone; the others stay. *)
Lemma refresh_rep m b us rs get :
  files_rep (links m) b us rs -> (forall c, c ∈ us -> is_Some (files m !! c)) ->
  exists m', nchan_bufchain_pool_refresh_files m b get = Ret m' /\ links m' = links m /\ bufs m' = bufs m /\
    forall c, files m' !! c =
      (if decide (c ∈ us) then (fun f => File (file_name f) (get (file_name f))) <$> files m !! c else files m !! c).
Proof.
  intros [ND Su _ E _ _ _] L. unfold nchan_bufchain_pool_refresh_files. rewrite E. apply NoDup_app in ND as (ND & _).
  pose proof (sseg_length _ _ _ _ ND Su) as Ln. revert Ln. generalize (base.size (links m)). clear E.
  revert m Su L. induction us as [|c us IH]; intros m Su L [|fuel] Ln; simpl in *; try lia; [eauto..|].
  destruct Su as [Ec Su]. apply NoDup_cons in ND as [Nc ND]. destruct (L c) as [f Ef]; [set_solver|]. rewrite Ef, (load_Some _ _ _ _ Ec), bind_Ret, hd_or_None.
  destruct (IH ND (with_files m (<[c := File (file_name f) (get (file_name f))]> (files m)))) with (n := fuel) as (m' & -> & E1 & E2 & E3);
    [done| |lia|].
  { intros d Hd. simpl. rewrite lookup_insert_ne by set_solver. apply L. set_solver. }
  exists m'. split_and!; [done..|]. intros d. rewrite E3. simpl. destruct (decide (d = c)) as [->|].
  - rewrite decide_False, decide_True, lookup_insert_eq, Ef by set_solver. done.
  - rewrite lookup_insert_ne by done. destruct (decide (d ∈ us)); [rewrite decide_True by set_solver|rewrite decide_False by set_solver]; done.
Qed.

(** ** Flushing *)

Definition flushed (v : pool_view) : pool_view :=
  View [] (reverse (used v) ++ spare v) [] (match out v with [] => [] | _ => (out v).*1 ++ spare_out v end)
    [] (reverse (open_files v) ++ spare_files v).

Lemma links_frame h h' b b' us rs :
  (forall x, x ∈ us ++ rs -> h' !! (x, LINK_NEXT) = h !! (x, LINK_NEXT) /\ h' !! (x, CHAIN_NEXT) = h !! (x, CHAIN_NEXT)) ->
  bc_head b' = bc_head b -> bc_recycle_head b' = bc_recycle_head b -> bc_count b' = bc_count b -> bc_recycle_count b' = bc_recycle_count b ->
  links_rep h b us rs -> links_rep h' b' us rs.
Proof.
  intros F F1 F2 F3 F4 [ND Su Ss Lc E1 E2 E3 E4]. split; try congruence.
  - eapply sseg_frame, Su. intros x Hx. apply F. set_solver.
  - eapply sseg_frame, Ss. intros x Hx. apply F. set_solver.
  - intros x Hx. destruct (F x Hx) as [_ ->]. by apply Lc.
Qed.

Lemma files_frame h h' b b' us rs :
  (forall x, h' !! (x, FILE_NEXT) = h !! (x, FILE_NEXT)) ->
  file_head b' = file_head b -> file_recycle_head b' = file_recycle_head b -> file_count b' = file_count b -> file_recycle_count b' = file_recycle_count b ->
  files_rep h b us rs -> files_rep h' b' us rs.
Proof.
  intros F F1 F2 F3 F4 [ND Su Ss E1 E2 E3 E4]. split; try congruence.
  - eapply sseg_frame, Su. intros x Hx. apply F.
  - eapply sseg_frame, Ss. intros x Hx. apply F.
Qed.

Lemma chain_frame m m' b b' xs rs :
  (forall x, x ∈ xs.*1 ++ rs -> links m' !! (x, CHAIN_NEXT) = links m !! (x, CHAIN_NEXT)) -> bufs m' = bufs m ->
  bc_chain_head b' = bc_chain_head b -> bc_chain_tail b' = bc_chain_tail b -> bc_chain_recycle_head b' = bc_chain_recycle_head b ->
  bc_chain_count b' = bc_chain_count b -> bc_chain_recycle_count b' = bc_chain_recycle_count b -> bc_length b' = bc_length b ->
  chain_rep m b xs rs -> chain_rep m' b' xs rs.
Proof.
  intros F Fb F1 F2 F3 F4 F5 F6 [ND So Ss Hb E1 E2 E3 E4 E5 E6]. split; try congruence.
  - eapply sseg_frame, So. intros x Hx. apply F. set_solver.
  - eapply sseg_frame, Ss. intros x Hx. apply F. set_solver.
Qed.

(** No assertion fails. *)
Lemma pool_flush_rep m b v :
  pool_rep m b v -> exists m' b', nchan_bufchain_pool_flush m b = Ret (m', b') /\ pool_rep m' b' (flushed v) /\
    bufs m' = bufs m /\ files m' = files m.
Proof.
  intros [[NDl Su Ss Lc E1 E2 E3 E4] [NDc So Sso Hb C1 C2 C3 C4 C5 C6] [NDf Sf Sfs F1 F2 F3 F4] Ap]. unfold nchan_bufchain_pool_flush.
  set (h0 := match last (out v).*1 with Some t => <[(t, CHAIN_NEXT) := bc_chain_recycle_head b]> (links m) | None => links m end).
  replace (match bc_chain_tail b with Some t => store (links m) t CHAIN_NEXT (bc_chain_recycle_head b) | None => Ret (links m) end) with (Ret h0).
  2:{ rewrite C2. subst h0. destruct (last (out v).*1) as [t|] eqn:El; [|done]. rewrite store_live; [done|]. eapply sseg_live; [apply So|]. by apply last_elem. }
  rewrite bind_Ret. cbn [set_chain bc_head bc_recycle_head bc_count bc_recycle_count file_head file_recycle_head file_count file_recycle_count].
  assert (forall y o, o <> CHAIN_NEXT \/ y ∉ (out v).*1 -> h0 !! (y, o) = links m !! (y, o)) as H0.
  { intros y o N. subst h0. destruct (last _) as [t|] eqn:El; [|done]. rewrite lookup_insert_ne; [done|]. intros [= <- <-]. destruct N as [|N]; [done|]. by apply N, last_elem. }
  assert (sseg CHAIN_NEXT h0 (match out v with [] => [] | _ => (out v).*1 ++ spare_out v end) None) as Sc.
  { subst h0. destruct (out v) as [|[t x] ys _] eqn:Eo using rev_ind; [done|]. clear Eo.
    replace (match ys ++ [(t, x)] with [] => [] | _ => (ys ++ [(t, x)]).*1 ++ spare_out v end) with ((ys ++ [(t, x)]).*1 ++ spare_out v) by (by destruct ys).
    rewrite fmap_app in *. simpl in *. rewrite last_snoc. apply NoDup_app in NDc as (NDo & D & NDs). apply sseg_app. split.
    - rewrite C3, hd_or_None. by apply (sseg_set_end _ _ _ _ None).
    - apply sseg_insert_other; [|done]. intros I. exfalso. apply (D t); [set_solver|done]. }
  destruct (move_all_rep LINK_NEXT (base.size h0) h0 (used v) (spare v) (bc_count b) (bc_recycle_count b)) as (h1 & Em1 & S1 & O1).
  { apply NoDup_app in NDl as (? & _). apply (sseg_length LINK_NEXT _ _ None); [done|]. eapply sseg_frame, Su. intros. apply H0. by left. }
  { done. } { eapply sseg_frame, Su. intros. apply H0. by left. } { eapply sseg_frame, Ss. intros. apply H0. by left. }
  rewrite E1, E2, Em1, bind_Ret, c_assert_bind by lia.
  cbn [set_bc set_chain bc_head bc_recycle_head bc_count bc_recycle_count file_head file_recycle_head file_count file_recycle_count].
  destruct (move_all_rep FILE_NEXT (base.size h1) h1 (open_files v) (spare_files v) (file_count b) (file_recycle_count b)) as (h2 & Em2 & S2 & O2).
  { apply NoDup_app in NDf as (? & _). apply (sseg_length FILE_NEXT _ _ None); [done|]. eapply sseg_frame, Sf. intros. rewrite O1, H0 by (by left). done. }
  { done. } { eapply sseg_frame, Sf. intros. rewrite O1, H0 by (by left). done. } { eapply sseg_frame, Sfs. intros. rewrite O1, H0 by (by left). done. }
  rewrite F1, F2, Em2, bind_Ret, c_assert_bind by lia.
  eexists _, _. split; [done|]. split; [|done]. split; [split|split|split|]; simpl; try done.
  - by rewrite reverse_Permutation.
  - eapply sseg_frame, S1. intros. apply O2. by left.
  - intros x Hx. rewrite reverse_Permutation in Hx. rewrite O2, O1, H0 by first [by left | right; specialize (Ap x Hx); set_solver].
    by apply Lc.
  - lia.
  - rewrite length_app, length_reverse. lia.
  - destruct (out v); [constructor|done].
  - eapply sseg_frame, Sc. intros x Hx. by rewrite O2, O1 by (by left).
  - rewrite C1. by destruct (out v).
  - rewrite C4. destruct (out v); simpl; [lia|]. rewrite length_app, length_fmap. lia.
  - by rewrite reverse_Permutation.
  - lia.
  - rewrite length_app, length_reverse. lia.
  - intros x Hx. rewrite reverse_Permutation in Hx. specialize (Ap x Hx). destruct (out v); set_solver.
Qed.

(** ** Runs *)

(** The links or the elements from [p] on, as the output filter goes through
    them. *)
Fixpoint chain_from (fuel : nat) (h : mem) (p : ptr) : outcome (list loc) :=
  match p with
  | None => Ret []
  | Some x =>
      match fuel with
      | O => NoFuel
      | S fuel => next ← load h x CHAIN_NEXT; xs ← chain_from fuel h next; Ret (x :: xs)
      end
  end.
Definition chain_of (h : mem) (p : ptr) : outcome (list loc) := chain_from (base.size h) h p.

Lemma chain_of_sseg h xs : NoDup xs -> sseg CHAIN_NEXT h xs None -> chain_of h (head xs) = Ret xs.
Proof.
  intros ND S. unfold chain_of. pose proof (sseg_length _ _ _ _ ND S) as L. clear ND. revert L. generalize (base.size h).
  induction xs as [|x xs IH]; intros n L; simpl; [by destruct n|]. destruct S as [E S]. destruct n as [|n]; [simpl in L; lia|]. simpl.
  rewrite (load_Some _ _ _ _ E), bind_Ret, hd_or_None, IH; [done|done|simpl in L; lia].
Qed.

Inductive pool_op :=
  | Reserve (count : Z) (news : list loc)
  | ReserveFile (new : loc)
  | AppendBuf (x : ngx_buf_t) (new : loc)
  | AppendStr (str : list Z) (new : loc)
  | FlushPool.

(** What a reservation gives. *)
Definition exec_pool_op (m : pool_mem) (b : nchan_bufchain_pool_t) (o : pool_op) :
    outcome (pool_mem * nchan_bufchain_pool_t * list loc) :=
  match o with
  | Reserve count news =>
      '(h, b, p) ← nchan_bufchain_pool_reserve (links m) b count news;
      xs ← chain_of h p; Ret (with_links m h, b, xs)
  | ReserveFile new => '(m, b, c) ← nchan_bufchain_pool_reserve_file m b (Some new); Ret (m, b, [c])
  | AppendBuf x new => '(m, b) ← nchan_bufchain_append_buf m b x (Some new); Ret (m, b, [])
  | AppendStr str new => '(m, b) ← nchan_bufchain_append_str m b str (Some new); Ret (m, b, [])
  | FlushPool => '(m, b) ← nchan_bufchain_pool_flush m b; Ret (m, b, [])
  end.
Fixpoint exec_pool (m : pool_mem) (b : nchan_bufchain_pool_t) (os : list pool_op) :
    outcome (pool_mem * nchan_bufchain_pool_t * list (list loc)) :=
  match os with
  | [] => Ret (m, b, [])
  | o :: os => '(m, b, xs) ← exec_pool_op m b o; '(m, b, xss) ← exec_pool m b os; Ret (m, b, xs :: xss)
  end.

(** The same on lists.  What is allocated is none of the elements of the pool. *)
Definition takes (rs : list loc) (new : loc) : loc * list loc := match rs with r :: rs => (r, rs) | [] => (new, []) end.
Definition all_links (v : pool_view) : list loc := (used v ++ spare v) ++ (out v).*1 ++ spare_out v.
Definition append_view (v : pool_view) (x : ngx_buf_t) (new : loc) : option pool_view :=
  let '(c, rs) := takes (spare_out v) new in
  if decide (c = new /\ new ∈ all_links v) then None
  else Some (View (used v) (spare v) (out v ++ [(c, x)]) rs (open_files v) (spare_files v)).

Definition pool_spec_op (v : pool_view) (o : pool_op) : option (pool_view * list loc) :=
  match o with
  | Reserve count news =>
      let n := Z.to_nat count in
      let fresh := take (n - length (spare v)) news in
      if decide (n - length (spare v) <= length news /\ NoDup fresh /\ Forall (.∉ all_links v) fresh)%nat then
        let ts := taken n (spare v) news in
        Some (View (ts ++ used v) (drop n (spare v)) (out v) (spare_out v) (open_files v) (spare_files v), ts)
      else None
  | ReserveFile new =>
      let '(c, rs) := takes (spare_files v) new in
      if decide (c = new /\ new ∈ open_files v ++ spare_files v) then None
      else Some (View (used v) (spare v) (out v) (spare_out v) (c :: open_files v) rs, [c])
  | AppendBuf x new => v ← append_view v x new; Some (v, [])
  | AppendStr str new => v ← append_view v (str_buf str) new; Some (v, [])
  | FlushPool => Some (flushed v, [])
  end.
Fixpoint pool_spec (v : pool_view) (os : list pool_op) : option (pool_view * list (list loc)) :=
  match os with
  | [] => Some (v, [])
  | o :: os => '(v, xs) ← pool_spec_op v o; '(v, xss) ← pool_spec v os; Some (v, xs :: xss)
  end.

Lemma append_view_rep m b v x new v' :
  pool_rep m b v -> append_view v x new = Some v' ->
  exists m' b' c, nchan_bufchain_append m b (Some new) = Ret (m', b', Some c) /\ bc_length b' = bc_length b /\
    pool_rep (with_bufs m' (<[c := last_of x]> (bufs m')))
      (set_chain b' (bc_length b' + ngx_buf_size x) (bc_chain_count b') (bc_chain_head b') (bc_chain_tail b')
         (bc_chain_recycle_count b') (bc_chain_recycle_head b')) v'.
Proof.
  intros [Pl Pc Pf Ap]. unfold append_view. destruct (takes (spare_out v) new) as [c rs'] eqn:Et. case_decide as N; [done|]. intros [= <-].
  destruct (pool_append_rep m b (out v) (spare_out v) (Some new) c rs' Pc) as (m' & n & -> & R & O).
  { unfold takes in Et. destruct (spare_out v) as [|r rs]; simplify_eq; [|done]. split_and!; try done. intros I. apply N. split; [done|]. unfold all_links. set_solver. }
  assert (c ∉ used v ++ spare v) as Nc.
  { intros I. unfold takes in Et. destruct (spare_out v) as [|r rs] eqn:Es; simplify_eq; [|apply (Ap _ I); set_solver].
    apply N. split; [done|]. unfold all_links. set_solver. }
  eexists _, _, c. split_and!; [done|done|]. split; simpl.
  - eapply links_frame, Pl; try done. intros y Hy. rewrite !O; [done|right|left; done]. specialize (Ap y Hy). set_solver.
  - apply R.
  - eapply files_frame, Pf; try done. intros y. apply O. by left.
  - intros y Hy. specialize (Ap y Hy). rewrite fmap_app. simpl. assert (y <> c) by (intros ->; done).
    unfold takes in Et. destruct (spare_out v); simplify_eq; set_solver.
Qed.

Lemma pool_op_spec m b v o v' xs :
  pool_rep m b v -> pool_spec_op v o = Some (v', xs) ->
  exists m' b', exec_pool_op m b o = Ret (m', b', xs) /\ pool_rep m' b' v'.
Proof.
  intros R E. pose proof R as [Pl Pc Pf Ap]. destruct o as [count news|new|x new|str new|]; simpl in *.
  - case_decide as Hn; [|done]. destruct Hn as (Ln & NDf & Ff). simplify_eq. rewrite Forall_forall in Ff. unfold all_links in Ff.
    destruct (decide (0 < count)) as [Hc|].
    + destruct (pool_reserve_rep (links m) b (used v) (spare v) count news Hc Pl Ln) as (h' & -> & Pl' & S & O).
      { rewrite app_assoc. apply NoDup_app. split_and!; [apply Pl| |done]. intros x Hx Hx'. by apply (Ff x Hx'), elem_of_app; left. }
      set (ts := taken (Z.to_nat count) (spare v) news) in *. rewrite bind_Ret.
      assert (forall x, x ∈ ts -> x ∉ (out v).*1 ++ spare_out v) as D.
      { intros x [Hx|Hx]%elem_of_app; [apply Ap; apply elem_of_app; right; by eapply subseteq_take|]. specialize (Ff x Hx). set_solver. }
      assert (NoDup ts) as NDt by (destruct Pl' as [ND' _ _ _ _ _ _ _]; rewrite <- app_assoc in ND'; apply NoDup_app in ND'; tauto).
      rewrite chain_of_sseg by done. simpl. eexists _, _. split; [done|]. split; simpl.
      * done.
      * eapply chain_frame, Pc; try done. intros y Hy. apply O. right. intros I. by apply (D y).
      * eapply files_frame, Pf; try done. intros y. apply O. left. done.
      * intros y Hy. rewrite <- app_assoc in Hy. apply elem_of_app in Hy as [Hy|Hy]; [by apply D|]. apply Ap.
        apply elem_of_app in Hy as [?|Hy]; apply elem_of_app; [by left|right]. by eapply subseteq_drop.
    + replace (Z.to_nat count) with O by lia. unfold nchan_bufchain_pool_reserve. rewrite (proj2 (Z.leb_le _ _)) by lia.
      simpl. replace (chain_of (links m) None) with (Ret (@nil loc)) by (unfold chain_of; by destruct (base.size (links m))). simpl.
      eexists _, _. unfold taken. simpl. split; [done|]. by destruct m, v.
  - destruct (takes (spare_files v) new) as [c rs'] eqn:Et. case_decide as N; [done|]. simplify_eq.
    destruct (reserve_file_rep m b (open_files v) (spare_files v) (Some new) c rs' Pf) as (m' & n & nr & -> & R' & O & Eb & Ef).
    { unfold takes in Et. destruct (spare_files v) as [|r rs]; simplify_eq; [|done]. split_and!; try done. intros I. apply N. split; [done|]. set_solver. }
    simpl. eexists _, _. split; [done|]. split; simpl; [|  |done|done].
    + eapply links_frame, Pl; try done. intros y _. rewrite !O by (by left). done.
    + eapply chain_frame, Pc; try done. intros y _. apply O. by left.
  - destruct (append_view v x new) as [v1|] eqn:Ea; simplify_eq/=.
    destruct (append_view_rep m b v x new v' R Ea) as (m' & b' & c & Eq & _ & R'). unfold nchan_bufchain_append_buf. rewrite Eq. simpl. eauto.
  - destruct (append_view v (str_buf str) new) as [v1|] eqn:Ea; simplify_eq/=.
    destruct (append_view_rep m b v _ new v' R Ea) as (m' & b' & c & Eq & _ & R'). unfold nchan_bufchain_append_str. rewrite Eq. simpl. eauto.
  - simplify_eq. destruct (pool_flush_rep m b v R) as (m' & b' & -> & R' & _). simpl. eauto.
Qed.

Lemma exec_pool_spec m b v os v' xss :
  pool_rep m b v -> pool_spec v os = Some (v', xss) -> exists m' b', exec_pool m b os = Ret (m', b', xss) /\ pool_rep m' b' v'.
Proof.
  revert m b v xss. induction os as [|o os IH]; intros m b v xss R E; simpl in *; [simplify_eq; eauto|].
  destruct (pool_spec_op v o) as [[v1 xs]|] eqn:E1; simplify_eq/=. destruct (pool_spec v1 os) as [[v2 xss']|] eqn:E2; simplify_eq/=.
  destruct (pool_op_spec m b v o v1 xs R E1) as (m1 & b1 & -> & R1). simpl.
  destruct (IH m1 b1 v1 xss' R1 E2) as (m2 & b2 & -> & R2). simpl. eauto.
Qed.

Lemma spare_chain m b v : chain_rep m b (out v) (spare_out v) -> chain_of (links m) (bc_chain_recycle_head b) = Ret (spare_out v).
Proof. intros [ND _ Ss _ _ _ -> _ _ _]. apply chain_of_sseg; [|done]. apply NoDup_app in ND. tauto. Qed.

(** C38. Whatever is reserved, appended and flushed, when the allocations succeed,
    no dead element is reached and no assertion fails.  A reservation gives a
    chain of the links asked for, none of them in use; what has been appended
    since the last flush is the chain that is sent, in order, the last buffer
    and no other marked as the last one, and its length is what all the buffers
    hold.  A flush recycles every link and every file, and the elements of the
    chain in front of those recycled before, unless nothing was appended: then
    it forgets the elements recycled before. *)
Theorem bufchain_pool_refines os v xss :
  pool_spec (View [] [] [] [] [] []) os = Some (v, xss) ->
  exists m b, exec_pool (PM ∅ ∅ ∅) nchan_bufchain_pool_init os = Ret (m, b, xss) /\
    NoDup (used v ++ spare v) /\
    chain_of (links m) (nchan_bufchain_first_chain b) = Ret (out v).*1 /\ holds (bufs m) (out v) /\
    nchan_bufchain_length b = total (out v) /\
    chain_of (links m) (bc_chain_recycle_head b) = Ret (spare_out v) /\
    exists m' b', nchan_bufchain_pool_flush m b = Ret (m', b') /\
      bc_count b' = 0 /\ bc_recycle_count b' = Z.of_nat (length (used v ++ spare v)) /\
      file_count b' = 0 /\ file_recycle_count b' = Z.of_nat (length (open_files v ++ spare_files v)) /\
      chain_of (links m') (bc_chain_recycle_head b') = Ret (match out v with [] => [] | _ => (out v).*1 ++ spare_out v end).
Proof.
  intros E. destruct (exec_pool_spec (PM ∅ ∅ ∅) nchan_bufchain_pool_init _ os v xss (pool_init_rep _) E) as (m & b & -> & R).
  destruct (pool_flush_rep m b v R) as (m' & b' & Ef & R' & _). pose proof (spare_chain _ _ _ (pr_chain _ _ _ R)) as Sp.
  pose proof (spare_chain _ _ _ (pr_chain _ _ _ R')) as Sp'. destruct R as [Pl Pc Pf Ap], R' as [Pl' _ Pf' _].
  eexists _, _. split_and!; [done|apply Pl| |apply Pc|apply Pc|done|].
  { unfold nchan_bufchain_first_chain. rewrite (cr_head _ _ _ _ Pc). destruct Pc as [ND So _ _ _ _ _ _ _ _].
    apply chain_of_sseg; [|done]. apply NoDup_app in ND. tauto. }
  exists m', b'. split_and!; [done|apply Pl'| |apply Pf'| |exact Sp'].
  - rewrite (lr_rcount _ _ _ _ Pl'). simpl. by rewrite !length_app, length_reverse.
  - rewrite (fr_rcount _ _ _ _ Pf'). simpl. by rewrite !length_app, length_reverse.
Qed.

(** A response of two links, a file and two strings; then one of two links and a
    string, then two strings more. *)
Definition example_ops : list pool_op :=
  [Reserve 2 [1%positive; 2%positive]; ReserveFile 5; AppendStr [33] 6; AppendStr [34] 7; FlushPool;
   Reserve 2 []; AppendStr [104] 9; FlushPool; AppendStr [104; 105] 8; AppendStr [33] 8; ReserveFile 9].
Definition example_view : pool_view :=
  View [] [1; 2]%positive [(6%positive, str_buf [104; 105]); (7%positive, str_buf [33])] [] [5%positive] [].

Lemma bufchain_pool_refines_witness :
  exists m b, exec_pool (PM ∅ ∅ ∅) nchan_bufchain_pool_init example_ops =
      Ret (m, b, [[1; 2]; [5]; []; []; []; [2; 1]; []; []; []; []; [5]]%positive) /\
    NoDup (used example_view ++ spare example_view) /\
    chain_of (links m) (nchan_bufchain_first_chain b) = Ret (out example_view).*1 /\ holds (bufs m) (out example_view) /\
    nchan_bufchain_length b = total (out example_view) /\
    chain_of (links m) (bc_chain_recycle_head b) = Ret (spare_out example_view) /\
    exists m' b', nchan_bufchain_pool_flush m b = Ret (m', b') /\
      bc_count b' = 0 /\ bc_recycle_count b' = 2 /\ file_count b' = 0 /\ file_recycle_count b' = 1 /\
      chain_of (links m') (bc_chain_recycle_head b') = Ret [6; 7]%positive.
Proof. apply (bufchain_pool_refines example_ops example_view). vm_compute. reflexivity. Defined.

(** A flush with nothing appended since the last one forgets the recycled
    elements of the chain, still counted: the next one is allocated. *)
Lemma empty_flush_forgets :
  exists m b, exec_pool (PM ∅ ∅ ∅) nchan_bufchain_pool_init [AppendStr [104] 6; FlushPool; FlushPool; AppendStr [104] 7] =
      Ret (m, b, [[]; []; []; []]) /\ bc_chain_head b = Some 7%positive /\ bc_chain_recycle_head b = None /\ bc_chain_recycle_count b = 1.
Proof. eexists _, _. split_and!; vm_compute; reflexivity. Qed.

(** What could not be appended is in the length of the response all the same. *)
Lemma lost_buffer_is_counted str :
  exists m b, nchan_bufchain_append_str (PM ∅ ∅ ∅) nchan_bufchain_pool_init str None = Ret (m, b) /\
    nchan_bufchain_first_chain b = None /\ nchan_bufchain_length b = Z.of_nat (length str).
Proof. by eexists _, _. Qed.
