(* ===== verification/Output.v ===== *)
(** * [util/nchan_output.c]: output to clients

    nginx keeps what a slow client has not taken yet ([r->out]); the buffers
    there point into the shared memory of messages, into links of the request's
    pool (BufChain) and into strings of it (ReuseQueue).  Each message sent while
    something is pending is reserved in a queue of the request; all that is
    reserved is let go when nothing is pending any more, and at the end of the
    request.  The output filter of nginx and its event handling are parameters. *)

From S2P Require Import Prelude DList Nginx MsgId MsgIdFacts Msg BufChain ReuseQueue MsgRef.

(** [offsetof(rsvmsg_queue_t, prev)], [next]. *)
Definition RSV_PREV : Z := 8.
Definition RSV_NEXT : Z := 16.

(** A buffer: the shared message, the link and the string it points to, if any. *)
Record out_buf := OB { of_msg : option positive; of_link : option loc; of_str : option loc }.

(** The fields of the request and of its connection that the code looks at;
    [lowlevel_buffered]: [c->buffered & NGX_HTTP_LOWLEVEL_BUFFERED],
    [other_buffered]: [r->buffered || r->postponed || (r == r->main && c->buffered)]. *)
Record conn := Conn {
  r_out : list out_buf;
  lowlevel_buffered : bool;
  other_buffered : bool;
  timedout : bool;
  delayed : bool;
  ready : bool;
  timer_set : bool;
  aio : bool;
}.
Definition set_timer (k : conn) (b : bool) : conn :=
  Conn (r_out k) (lowlevel_buffered k) (other_buffered k) (timedout k) (delayed k) (ready k) b (aio k).
Definition clear_timedout (k : conn) : conn :=
  Conn (r_out k) (lowlevel_buffered k) (other_buffered k) false false (ready k) (timer_set k) (aio k).

Inductive write_handler := OTHER_HANDLER | FLUSH_PENDING_OUTPUT | EMPTY_HANDLER.

Record nchan_request_ctx_t := Ctx {
  reserved_msg_queue : option nchan_reuse_queue_t;
  bcp : option nchan_bufchain_pool_t;
  output_str_queue : option nchan_reuse_queue_t;
}.

(** Everything the code reads or writes: [rsv_msg] is [msg] of each
    [rsvmsg_queue_t], [cleanups] the handlers the request runs when it ends. *)
Record output (W : Type) := Out {
  world : W;
  cn : conn;
  handler : write_handler;
  ctx : nchan_request_ctx_t;
  cleanups : nat;
  msgs_of : msg_state;
  rsv_mem : mem;
  rsv_msg : gmap loc positive;
  pool : pool_mem;
  str_mem : mem;
}.
Arguments Out {W} _ _ _ _ _ _ _ _ _ _.
Arguments world {W} _.
Arguments cn {W} _.
Arguments handler {W} _.
Arguments ctx {W} _.
Arguments cleanups {W} _.
Arguments msgs_of {W} _.
Arguments rsv_mem {W} _.
Arguments rsv_msg {W} _.
Arguments pool {W} _.
Arguments str_mem {W} _.

(** What allocations return: the derived message and its tags, whether the queue
    and the cleanup are there, the queue's element. *)
Record allocs := Allocs { new_msg : option positive; new_tags : option positive; queue_ok : bool; cleanup_ok : bool; new_rsv : ptr }.

Section output.
Context {W : Type}.
Context (ngx_http_output_filter : W -> conn -> list out_buf -> W * conn * Z).
Context (ngx_handle_write_event : W -> conn -> W * conn * Z).
Context (fd_open : bytes -> bool).

Notation state := (output W).

Definition with_conn (s : state) (w : W) (k : conn) : state :=
  Out w k (handler s) (ctx s) (cleanups s) (msgs_of s) (rsv_mem s) (rsv_msg s) (pool s) (str_mem s).
Definition with_handler (s : state) (h : write_handler) : state :=
  Out (world s) (cn s) h (ctx s) (cleanups s) (msgs_of s) (rsv_mem s) (rsv_msg s) (pool s) (str_mem s).
Definition with_msgs (s : state) (ms : msg_state) : state :=
  Out (world s) (cn s) (handler s) (ctx s) (cleanups s) ms (rsv_mem s) (rsv_msg s) (pool s) (str_mem s).
Definition with_rsv (s : state) (h : mem) (rq : nchan_reuse_queue_t) : state :=
  Out (world s) (cn s) (handler s) (Ctx (Some rq) (bcp (ctx s)) (output_str_queue (ctx s))) (cleanups s) (msgs_of s) h (rsv_msg s) (pool s) (str_mem s).
Definition with_rsv_msg (s : state) (f : gmap loc positive) : state :=
  Out (world s) (cn s) (handler s) (ctx s) (cleanups s) (msgs_of s) (rsv_mem s) f (pool s) (str_mem s).
Definition with_cleanup (s : state) : state :=
  Out (world s) (cn s) (handler s) (ctx s) (S (cleanups s)) (msgs_of s) (rsv_mem s) (rsv_msg s) (pool s) (str_mem s).
Definition with_bcp (s : state) (p : pool_mem) (b : nchan_bufchain_pool_t) : state :=
  Out (world s) (cn s) (handler s) (Ctx (reserved_msg_queue (ctx s)) (Some b) (output_str_queue (ctx s))) (cleanups s) (msgs_of s) (rsv_mem s) (rsv_msg s) p (str_mem s).
Definition with_strs (s : state) (h : mem) (rq : nchan_reuse_queue_t) : state :=
  Out (world s) (cn s) (handler s) (Ctx (reserved_msg_queue (ctx s)) (bcp (ctx s)) (Some rq)) (cleanups s) (msgs_of s) (rsv_mem s) (rsv_msg s) (pool s) h.

(** ** Reserving and letting go *)

Definition rsvmsg_queue_release (s : state) (thing : loc) : outcome state :=
  match rsv_msg s !! thing with
  | Some p => ms ← run_op (msgs_of s) (Release p); Ret (with_msgs s ms)
  | None => Crash
  end.

Fixpoint release_all (s : state) (xs : list loc) : outcome state :=
  match xs with
  | [] => Ret s
  | x :: xs => s ← rsvmsg_queue_release s x; release_all s xs
  end.

Definition nchan_push_release_entire_message_queue (s : state) : outcome state :=
  match reserved_msg_queue (ctx s) with
  | None => Ret s
  | Some rq =>
      '(rq, xs) ← nchan_reuse_queue_flush (rsv_mem s) rq;
      s ← release_all s xs;
      Ret (with_rsv s (rsv_mem s) rq)
  end.

Definition nchan_reserve_msg_cleanup (s : state) : outcome state := nchan_push_release_entire_message_queue s.

(** [run_op]'s [DeriveAlloc] is [nchan_msg_derive_alloc]; what it returns tells
    whether there is a new message. *)
Definition nchan_output_reserve_message_queue (s : state) (msg : positive) (al : allocs) : outcome state :=
  match store (msgs_of s) !! msg with
  | None => Crash
  | Some m =>
      '(s, msg) ←
        match storage m with
        | NCHAN_MSG_SHARED => Ret (s, Some msg)
        | _ =>
            '(th, st, r) ← nchan_msg_derive_alloc (tags (msgs_of s)) (store (msgs_of s)) msg (new_msg al) (new_tags al);
            Ret (with_msgs s (MS th st (holds (msgs_of s))), r)
        end;
      match msg with
      | None => Ret s
      | Some msg =>
          '(s, ok) ←
            match reserved_msg_queue (ctx s) with
            | Some _ => Ret (s, true)
            | None =>
                if queue_ok al then
                  let s := with_rsv s (rsv_mem s) (nchan_reuse_queue_init RSV_PREV RSV_NEXT) in
                  c_assert (cleanup_ok al);; Ret (with_cleanup s, true)
                else Ret (s, false)
            end;
          match ok, reserved_msg_queue (ctx s) with
          | true, Some rq =>
              '(h, rq, qmsg) ← nchan_reuse_queue_push (rsv_mem s) rq (new_rsv al);
              let s := with_rsv_msg (with_rsv s h rq) (<[qmsg := msg]> (rsv_msg s)) in
              ms ← run_op (msgs_of s) (Reserve msg);
              Ret (with_msgs s ms)
          | _, _ => Ret s
          end
      end
  end.

Definition flush_all_the_reserved_things (s : state) : outcome state :=
  s ← nchan_push_release_entire_message_queue s;
  s ← match bcp (ctx s) with
      | Some b => '(p, b) ← nchan_bufchain_pool_flush (pool s) b; Ret (with_bcp s p b)
      | None => Ret s
      end;
  match output_str_queue (ctx s) with
  | Some rq => '(rq, _) ← nchan_reuse_queue_flush (str_mem s) rq; Ret (with_strs s (str_mem s) rq)
  | None => Ret s
  end.

(** ** The output filter *)

Definition nchan_output_filter_generic (s : state) (msg : option positive) (ins : list out_buf) (al : allocs) : outcome (state * Z) :=
  s ← match bcp (ctx s) with
      | Some b => p ← nchan_bufchain_pool_refresh_files (pool s) b fd_open; Ret (with_bcp s p b)
      | None => Ret s
      end;
  let '(w, k, rc) := ngx_http_output_filter (world s) (cn s) ins in
  let s := with_conn s w k in
  if lowlevel_buffered k then
    let s := with_handler s FLUSH_PENDING_OUTPUT in
    s ← match msg with Some p => nchan_output_reserve_message_queue s p al | None => Ret s end;
    let s := if delayed (cn s) then s else with_conn s (world s) (set_timer (cn s) true) in
    let '(w, k, rc) := ngx_handle_write_event (world s) (cn s) in
    let s := with_conn s w k in
    if rc =? NGX_OK then Ret (s, NGX_OK) else (s ← flush_all_the_reserved_things s; Ret (s, NGX_ERROR))
  else
    let s := if timer_set k then with_conn s w (set_timer k false) else s in
    match r_out (cn s) with
    | [] => s ← flush_all_the_reserved_things s; Ret (s, rc)
    | _ => Ret (s, rc)
    end.

Definition no_allocs : allocs := Allocs None None false false None.
Definition nchan_output_filter (s : state) (ins : list out_buf) : outcome (state * Z) :=
  nchan_output_filter_generic s None ins no_allocs.
Definition nchan_output_msg_filter (s : state) (msg : positive) (ins : list out_buf) (al : allocs) : outcome (state * Z) :=
  nchan_output_filter_generic s (Some msg) ins al.

(** With what the request is finalized, if it is. *)
Definition NGX_HTTP_REQUEST_TIME_OUT : Z := 408.
Definition handle_write_event_or_finalize (s : state) : state * option Z :=
  let '(w, k, rc) := ngx_handle_write_event (world s) (cn s) in
  (with_conn s w k, if rc =? NGX_OK then None else Some 0).

Definition after_pending_output (s : state) : state * option Z :=
  let '(s, fin) :=
    if other_buffered (cn s) then
      handle_write_event_or_finalize (if delayed (cn s) then s else with_conn s (world s) (set_timer (cn s) true))
    else (s, None) in
  match fin with
  | Some code => (s, Some code)
  | None => (match r_out (cn s) with [] => with_handler s EMPTY_HANDLER | _ => s end, None)
  end.

Definition flush_pending_not_timedout (s : state) : outcome (state * option Z) :=
  if delayed (cn s) || aio (cn s) then Ret (handle_write_event_or_finalize s)
  else
    '(s, rc) ← nchan_output_filter s [];
    if rc =? NGX_ERROR then Ret (s, Some rc) else Ret (after_pending_output s).

Definition nchan_flush_pending_output (s : state) : outcome (state * option Z) :=
  if timedout (cn s) then
    if delayed (cn s) then
      let s := with_conn s (world s) (clear_timedout (cn s)) in
      if ready (cn s) then flush_pending_not_timedout s
      else Ret (handle_write_event_or_finalize (with_conn s (world s) (set_timer (cn s) true)))
    else Ret (s, Some NGX_HTTP_REQUEST_TIME_OUT)
  else flush_pending_not_timedout s.

(** ** An answer that is one message *)

(** [palloc_ok], [headers_ok], [send_header]: what allocating the buffer, setting
    the headers of the message's id and sending the headers give; the request is
    not finalized here ([finalize] is 0). *)
Definition NGX_HTTP_SPECIAL_RESPONSE : Z := 300.
Definition nchan_respond_msg (s : state) (msg : positive) (palloc_ok headers_ok : bool) (send_header : Z) : outcome (state * Z) :=
  match store (msgs_of s) !! msg with
  | None => Crash
  | Some m =>
      if (0 <? ngx_buf_size (buf m)) && negb palloc_ok then Ret (s, NGX_ERROR)
      else if negb headers_ok then Ret (s, NGX_ERROR)
      else if NGX_HTTP_SPECIAL_RESPONSE <=? send_header then Ret (s, NGX_ERROR)
      else if 0 <? ngx_buf_size (buf m) then nchan_output_filter s [OB (Some (root (store (msgs_of s)) msg)) None None]
      else Ret (s, send_header)
  end.

(** ** Facts about messages *)

Lemma derive_alloc_ok ms par p b :
  msg_inv ms -> derivable ms par (Some p) (Some b) ->
  exists th st, nchan_msg_derive_alloc (tags ms) (store ms) par (Some p) (Some b) = Ret (th, st, Some p) /\
    msg_inv (MS th st (holds ms)) /\ is_Some (st !! p) /\ root st p = root (store ms) par /\ is_Some (st !! root (store ms) par) /\
    (forall q, is_Some (store ms !! q) -> is_Some (st !! q)).
Proof.
  intros I D. destruct (run_op_ok ms (DeriveAlloc par (Some p) (Some b)) I D) as (ms' & E & I').
  destruct D as ((m & ts & Hp & Hr & Ht & Hc) & Hn & Hb). destruct (Hn p eq_refl) as [Np _].
  destruct (get_shared_root _ _ _ _ (inv_shape _ I) Hp Hr) as (Eg & mr & Hmr & Er & Ec).
  assert (par <> p) as Npp by congruence.
  destruct (copy_new_cases (tags ms) (id m) ts (Some b) Ht Hc Hb) as (th & i & rc & Ei & _).
  assert (rc = NGX_OK) as ->.
  { clear -Ei Ht. unfold nchan_copy_new_msg_id in Ei. destruct (_ <? _); [|by simplify_eq]. rewrite Ht, bind_Ret in Ei.
    by apply bind_Ret_inv in Ei as (th' & _ & [= _ _ <-]). }
  revert E. unfold run_op, nchan_msg_derive_alloc, msg_derive_init. rewrite Eg, bind_Ret, Hmr. simpl.
  set (m1 := Msg _ _ _ _ _ _ _ _ _ _). unfold msg_id_at, write_id. rewrite (lookup_insert_ne _ p par), Hp by congruence. simpl.
  rewrite Ei. simpl. rewrite lookup_insert_eq. simpl. intros [= <-].
  exists th, (<[p := set_id m1 i]> (<[p := m1]> (store ms))). split; [done|]. rewrite insert_insert_eq in *. split_and!.
  - done.
  - rewrite lookup_insert_eq. eauto.
  - unfold root at 1. by rewrite lookup_insert_eq.
  - apply lookup_insert_is_Some'. right. eauto.
  - intros q Hq. by apply lookup_insert_is_Some', or_intror.
Qed.

Lemma release_held ms p r mine theirs :
  msg_inv ms -> holds ms ≡ₚ (p, r) :: mine ++ theirs ->
  exists ms', run_op ms (Release p) = Ret ms' /\ msg_inv ms' /\ holds ms' ≡ₚ mine ++ theirs.
Proof.
  intros I E. assert ((p, r) ∈ holds ms) as H by (rewrite E; left).
  destruct (inv_holds _ I _ _ H) as (_ & _ & ->). destruct (run_op_ok ms (Release p) I H) as (ms' & Er & I').
  exists ms'. split_and!; [done..|]. unfold run_op in Er. apply bind_Ret_inv in Er as ([[th st] rc] & _ & [= <-]). simpl.
  rewrite (drop_hold_perm _ _ H) in E. by apply Permutation_cons_inv in E.
Qed.

Lemma reserve_held ms p :
  msg_inv ms -> permitted ms (Reserve p) ->
  exists ms', run_op ms (Reserve p) = Ret ms' /\ msg_inv ms' /\ holds ms' = (p, root (store ms) p) :: holds ms.
Proof.
  intros I P. destruct (run_op_ok ms (Reserve p) I P) as (ms' & E & I'). exists ms'. split_and!; [done..|].
  unfold run_op in E. by apply bind_Ret_inv in E as ([st rc] & _ & [= <-]).
Qed.

(** ** The invariant *)

(** Where the links of the strings' queue are, [offsetof]. *)
Context (str_prev str_next : Z) (Hstr : str_prev <> str_next).

(** [mine]: what the queue holds; [theirs]: what is held by others; [v]: the
    links of the pool; [ys]: the strings in use. *)
Definition queue_inv (s : state) (mine : list hold) : Prop :=
  match reserved_msg_queue (ctx s) with
  | None => mine = [] /\ cleanups s = O
  | Some rq => cleanups s = 1%nat /\ exists xs rs, rep RSV_PREV RSV_NEXT (rsv_mem s) rq xs rs /\ Forall2 (fun x (h : hold) => rsv_msg s !! x = Some h.1) xs mine
  end.
Definition pool_inv (s : state) (v : pool_view) : Prop :=
  match bcp (ctx s) with
  | None => v = View [] [] [] [] [] []
  | Some b => pool_rep (pool s) b v /\ forall f, f ∈ open_files v -> is_Some (files (pool s) !! f)
  end.
Definition str_inv (s : state) (ys : list loc) : Prop :=
  match output_str_queue (ctx s) with
  | None => ys = []
  | Some rq => exists rs, rep str_prev str_next (str_mem s) rq ys rs
  end.

Record base_inv (s : state) (mine theirs : list hold) (v : pool_view) (ys : list loc) : Prop := {
  bi_msgs : msg_inv (msgs_of s);
  bi_holds : holds (msgs_of s) ≡ₚ mine ++ theirs;
  bi_queue : queue_inv s mine;
  bi_pool : pool_inv s v;
  bi_strs : str_inv s ys;
}.

(** The messages that are sent without being reserved: [nchan_respond_msg] and a
    long poll's answer of several messages do that. *)
Context (bare : positive -> Prop).

(** What a buffer points to is there, but for those. *)
Definition backed (mine : list hold) (v : pool_view) (ys : list loc) (x : out_buf) : Prop :=
  (forall p, of_msg x = Some p -> bare p \/ exists q, (q, p) ∈ mine) /\
  (forall l, of_link x = Some l -> l ∈ used v \/ l ∈ (out v).*1) /\ (forall y, of_str x = Some y -> y ∈ ys).

Definition out_inv (s : state) (mine : list hold) (v : pool_view) (ys : list loc) : Prop :=
  forall x, x ∈ r_out (cn s) -> backed mine v ys x.

Definition same_but_msgs (s s' : state) : Prop := exists ms, s' = with_msgs s ms.

Lemma release_all_ok s xs mine theirs :
  msg_inv (msgs_of s) -> holds (msgs_of s) ≡ₚ mine ++ theirs -> Forall2 (fun x (h : hold) => rsv_msg s !! x = Some h.1) xs mine ->
  exists ms, release_all s xs = Ret (with_msgs s ms) /\ msg_inv ms /\ holds ms ≡ₚ theirs.
Proof.
  revert s mine. induction xs as [|x xs IH]; intros s mine I E F.
  - apply Forall2_nil_inv_l in F as ->. exists (msgs_of s). split_and!; [by destruct s|done..].
  - apply Forall2_cons_inv_l in F as ([p r] & mine' & Ex & F & ->). simpl in *. unfold rsvmsg_queue_release. rewrite Ex.
    destruct (release_held _ _ _ _ _ I E) as (ms & -> & I' & E'). simpl.
    destruct (IH (with_msgs s ms) mine') as (ms' & E2 & I2 & H2); [done..|]. exists ms'. split_and!; [exact E2|done..].
Qed.

Lemma push_release_ok s mine theirs v ys :
  base_inv s mine theirs v ys ->
  exists s', nchan_push_release_entire_message_queue s = Ret s' /\ base_inv s' [] theirs v ys /\
    world s' = world s /\ cn s' = cn s /\ handler s' = handler s.
Proof.
  intros [I E Q P S]. unfold nchan_push_release_entire_message_queue. unfold queue_inv in Q.
  destruct (reserved_msg_queue (ctx s)) as [rq|] eqn:Eq.
  - destruct Q as (Cl & xs & rs & R & F). destruct (rq_flush_rep RSV_PREV RSV_NEXT ltac:(discriminate) _ _ _ _ R) as (rq' & -> & R' & _). rewrite bind_Ret.
    destruct (release_all_ok s xs mine theirs I E F) as (ms & -> & I' & E'). rewrite bind_Ret.
    eexists. split; [done|]. split; [|done]. split; simpl; try done. unfold queue_inv. simpl. split; [done|]. eexists [], xs. split; [done|constructor].
  - destruct Q as [-> Cl]. exists s. split_and!; try done. split; try done. unfold queue_inv. by rewrite Eq.
Qed.

Lemma flush_all_ok s mine theirs v ys :
  base_inv s mine theirs v ys ->
  exists s' v', flush_all_the_reserved_things s = Ret s' /\ base_inv s' [] theirs v' [] /\
    world s' = world s /\ cn s' = cn s /\ handler s' = handler s.
Proof.
  intros B. unfold flush_all_the_reserved_things. destruct (push_release_ok _ _ _ _ _ B) as (s1 & -> & [I E Q P S] & W1 & C1 & H1).
  rewrite bind_Ret. rewrite <- W1, <- C1, <- H1. clear W1 C1 H1 B.
  assert (exists s2 v2, match bcp (ctx s1) with
     | Some b => '(p, b) ← nchan_bufchain_pool_flush (pool s1) b; Ret (with_bcp s1 p b)
     | None => Ret s1 end = Ret s2 /\ base_inv s2 [] theirs v2 ys /\
     output_str_queue (ctx s2) = output_str_queue (ctx s1) /\ world s2 = world s1 /\ cn s2 = cn s1 /\ handler s2 = handler s1) as (s2 & v2 & -> & B2 & Es & <- & <- & <-).
  { unfold pool_inv in P. destruct (bcp (ctx s1)) as [b|] eqn:Eb.
    - destruct P as [P F]. destruct (pool_flush_rep _ _ _ P) as (p' & b' & -> & R & _ & Ef). simpl. eexists _, (flushed v). split; [done|].
      split; [|done]. split; try done. unfold pool_inv. simpl. split; [done|]. set_solver.
    - exists s1, v. split_and!; try done. split; try done. unfold pool_inv. by rewrite Eb. }
  rewrite bind_Ret. destruct B2 as [I2 E2 Q2 P2 S2]. unfold str_inv in S2. rewrite Es in S2 |- *. destruct (output_str_queue (ctx s1)) as [rq|] eqn:Eq.
  - destruct S2 as [rs S2]. destruct (rq_flush_rep _ _ Hstr _ _ _ _ S2) as (rq' & -> & R' & _). simpl. eexists _, v2. split; [done|].
    split; [|done]. split; try done. unfold str_inv. simpl. by eexists.
  - exists s2, v2. split_and!; try done. split; try done. unfold str_inv. by rewrite Es.
Qed.

(** Everything that is needed to reserve [msg] can be allocated; the message is
    there. *)
Record can_reserve (s : state) (msg : positive) (al : allocs) : Prop := {
  cr_live : permitted (msgs_of s) (Reserve msg);
  cr_derive : forall m, store (msgs_of s) !! msg = Some m -> storage m <> NCHAN_MSG_SHARED ->
    exists p b, new_msg al = Some p /\ new_tags al = Some b /\ derivable (msgs_of s) msg (Some p) (Some b);
  cr_allocs : queue_ok al = true /\ cleanup_ok al = true;
  cr_rsv : exists q, new_rsv al = Some q /\ rsv_mem s !! (q, RSV_PREV) = None;
}.

Lemma msgs_insert_other (f : gmap loc positive) xs (mine : list hold) q p :
  q ∉ xs -> Forall2 (fun x (h : hold) => f !! x = Some h.1) xs mine ->
  Forall2 (fun x (h : hold) => <[q := p]> f !! x = Some h.1) xs mine.
Proof.
  intros N F. induction F as [|x h xs mine E F IH]; constructor; [rewrite lookup_insert_ne by set_solver; done|]. apply IH. set_solver.
Qed.

(** The queue, made if it is not there. *)
Lemma push_queue_ok s mine theirs v ys al p r q :
  base_inv s mine theirs v ys -> permitted (msgs_of s) (Reserve p) -> r = root (store (msgs_of s)) p ->
  queue_ok al = true -> cleanup_ok al = true -> new_rsv al = Some q -> rsv_mem s !! (q, RSV_PREV) = None ->
  exists s', ('(s, ok) ←
    match reserved_msg_queue (ctx s) with
    | Some _ => Ret (s, true)
    | None =>
        if queue_ok al then
          let s := with_rsv s (rsv_mem s) (nchan_reuse_queue_init RSV_PREV RSV_NEXT) in
          c_assert (cleanup_ok al);; Ret (with_cleanup s, true)
        else Ret (s, false)
    end;
  match ok, reserved_msg_queue (ctx s) with
  | true, Some rq =>
      '(h, rq, qmsg) ← nchan_reuse_queue_push (rsv_mem s) rq (new_rsv al);
      let s := with_rsv_msg (with_rsv s h rq) (<[qmsg := p]> (rsv_msg s)) in
      ms ← run_op (msgs_of s) (Reserve p);
      Ret (with_msgs s ms)
  | _, _ => Ret s
  end) = Ret s' /\ base_inv s' (mine ++ [(p, r)]) theirs v ys /\ world s' = world s /\ cn s' = cn s /\ handler s' = handler s.
Proof.
  intros [I E Q P S] Pm -> Hq Hc Hn Nq.
  destruct (reserve_held _ _ I Pm) as (ms & Er & I' & Hh).
  assert (exists s1 rq xs rs, (match reserved_msg_queue (ctx s) with
    | Some _ => Ret (s, true)
    | None =>
        if queue_ok al then
          let s := with_rsv s (rsv_mem s) (nchan_reuse_queue_init RSV_PREV RSV_NEXT) in
          c_assert (cleanup_ok al);; Ret (with_cleanup s, true)
        else Ret (s, false)
    end) = Ret (s1, true) /\ reserved_msg_queue (ctx s1) = Some rq /\ cleanups s1 = 1%nat /\ rep RSV_PREV RSV_NEXT (rsv_mem s) rq xs rs /\
      Forall2 (fun x (h : hold) => rsv_msg s !! x = Some h.1) xs mine /\ rsv_mem s1 = rsv_mem s /\ rsv_msg s1 = rsv_msg s /\
      msgs_of s1 = msgs_of s /\ pool s1 = pool s /\ str_mem s1 = str_mem s /\ bcp (ctx s1) = bcp (ctx s) /\ output_str_queue (ctx s1) = output_str_queue (ctx s) /\
      world s1 = world s /\ cn s1 = cn s /\ handler s1 = handler s)
    as (s1 & rq & xs & rs & -> & Eq1 & Ec1 & R & F & M1 & M2 & M3 & M4 & M5 & M6 & M7 & <- & <- & <-).
  { unfold queue_inv in Q. destruct (reserved_msg_queue (ctx s)) as [rq|] eqn:Eq.
    - destruct Q as (Cl & xs & rs & R & F). exists s, rq, xs, rs. by split_and!.
    - destruct Q as [-> Cl]. rewrite Hq. simpl. rewrite Hc. simpl. eexists _, _, [], []. split; [done|]. simpl. split_and!; try done; [by rewrite Cl|apply rq_rep_init]. }
  rewrite bind_Ret, Eq1, M1, M2. pose (qq := match rs with r :: _ => r | [] => q end).
  destruct (rq_push_rep RSV_PREV RSV_NEXT ltac:(discriminate) (rsv_mem s) rq xs rs (new_rsv al) qq (tail rs) R) as (h' & rq' & -> & R' & _).
  { subst qq. destruct rs as [|r rs]; [|done]. split_and!; [done| |done]. intros I0. destruct R as (_ & _ & _ & D & _).
    destruct (dseg_live _ _ _ _ _ _ _ D I0) as [[x Hx] _]. congruence. }
  rewrite bind_Ret. cbn [msgs_of with_rsv_msg with_rsv]. rewrite M3, Er, bind_Ret. eexists. split; [done|]. split; [|done]. split; simpl.
  - done.
  - rewrite Hh, E, <- app_assoc. simpl. by rewrite Permutation_middle.
  - unfold queue_inv. simpl. split; [done|]. eexists _, _. split; [exact R'|]. destruct R' as (_ & _ & ND & _).
    apply NoDup_app in ND as (ND & _). apply NoDup_app in ND as (_ & D & _). apply Forall2_app.
    + apply msgs_insert_other; [|done]. intros I0. apply (D _ I0). set_solver.
    + constructor; [by rewrite lookup_insert_eq|constructor].
  - unfold pool_inv in *. simpl. by rewrite M4, M6.
  - unfold str_inv in *. simpl. by rewrite M5, M7.
Qed.

Lemma reserve_queue_ok s mine theirs v ys msg al :
  base_inv s mine theirs v ys -> can_reserve s msg al ->
  exists s' p, nchan_output_reserve_message_queue s msg al = Ret s' /\
    base_inv s' (mine ++ [(p, root (store (msgs_of s)) msg)]) theirs v ys /\ world s' = world s /\ cn s' = cn s /\ handler s' = handler s.
Proof.
  intros B [Pm Dv [Hq Hc] (q & Hn & Nq)]. destruct Pm as ([m Hm] & Hr & Hb). unfold nchan_output_reserve_message_queue. rewrite Hm.
  destruct (decide (storage m = NCHAN_MSG_SHARED)) as [Es|Ns].
  - rewrite Es, bind_Ret.
    destruct (push_queue_ok s mine theirs v ys al msg (root (store (msgs_of s)) msg) q B) as (s' & E & R); try done.
    exists s', msg. split; [exact E|exact R].
  - destruct (Dv m Hm Ns) as (p & b & -> & -> & D). pose proof B as [I E Q P S].
    destruct (derive_alloc_ok _ _ _ _ I D) as (th & st & Ed & I' & Lp & Er & Lr & _).
    set (s1 := with_msgs s (MS th st (holds (msgs_of s)))).
    replace (match storage m with NCHAN_MSG_SHARED => Ret (s, Some msg) | _ =>
        '(th, st, r) ← nchan_msg_derive_alloc (tags (msgs_of s)) (store (msgs_of s)) msg (Some p) (Some b);
        Ret (with_msgs s (MS th st (holds (msgs_of s))), r) end) with (Ret (s1, Some p)) by (rewrite Ed; by destruct (storage m)).
    rewrite bind_Ret.
    destruct (push_queue_ok s1 mine theirs v ys al p (root (store (msgs_of s)) msg) q) as (s' & E1 & R); try done.
    { split_and!; simpl; [done|by rewrite Er|done]. }
    exists s', p. split; [exact E1|exact R].
Qed.

(** What nginx guarantees: the filter keeps buffers, from those there were and
    those it was given; unless it fails, what is left over is marked as
    buffered, since each chain ends in a buffer with [flush] or [last_buf]. *)
Record filter_laws : Prop := {
  filter_keeps : forall w k ins w' k' rc, ngx_http_output_filter w k ins = (w', k', rc) ->
    forall x, x ∈ r_out k' -> x ∈ r_out k \/ x ∈ ins;
  filter_buffers : forall w k ins w' k' rc, ngx_http_output_filter w k ins = (w', k', rc) -> rc <> NGX_ERROR ->
    r_out k' <> [] -> lowlevel_buffered k' = true;
  event_out : forall w k w' k' rc, ngx_handle_write_event w k = (w', k', rc) -> r_out k' = r_out k /\ lowlevel_buffered k' = lowlevel_buffered k;
}.
Context (L : filter_laws).

Lemma refreshed_pool m m' b v :
  links m' = links m -> bufs m' = bufs m -> pool_rep m b v -> pool_rep m' b v.
Proof.
  intros El Eb [Pl Pc Pf Ap]. split; rewrite ?El; try done. eapply chain_frame, Pc; try done. by rewrite El.
Qed.

Lemma refresh_ok s mine theirs v ys :
  base_inv s mine theirs v ys ->
  exists s', match bcp (ctx s) with
     | Some b => p ← nchan_bufchain_pool_refresh_files (pool s) b fd_open; Ret (with_bcp s p b)
     | None => Ret s end = Ret s' /\ base_inv s' mine theirs v ys /\
    world s' = world s /\ cn s' = cn s /\ handler s' = handler s /\ msgs_of s' = msgs_of s /\ rsv_mem s' = rsv_mem s.
Proof.
  intros B. pose proof B as [I E Q P S]. unfold pool_inv in P. destruct (bcp (ctx s)) as [b|] eqn:Eb; [|by exists s].
  destruct P as [P F]. destruct (refresh_rep (pool s) b (open_files v) (spare_files v) fd_open) as (m' & -> & El & Ebf & Ef); [apply P|done|].
  simpl. eexists. split; [done|]. split; [|done]. split; try done. unfold pool_inv. simpl. split; [by eapply refreshed_pool|].
  intros f Hf. rewrite Ef. destruct (F f Hf) as [x Hx]. rewrite Hx. case_decide; simpl; eauto.
Qed.

Lemma base_conn s w k mine theirs v ys : base_inv s mine theirs v ys -> base_inv (with_conn s w k) mine theirs v ys.
Proof. by intros []. Qed.
Lemma base_handler s h mine theirs v ys : base_inv s mine theirs v ys -> base_inv (with_handler s h) mine theirs v ys.
Proof. by intros []. Qed.

Lemma backed_app mine h v ys x : backed mine v ys x -> backed (mine ++ h) v ys x.
Proof. intros (A & B & C). split_and!; auto. intros p Hp. destruct (A p Hp) as [?|[q Hq]]; [by left|]. right. exists q. set_solver. Qed.

(** What is sent: everything but the message is backed already. *)
Definition sendable (s : state) (mine : list hold) (v : pool_view) (ys : list loc) (msg : option positive) (x : out_buf) : Prop :=
  backed mine v ys x \/
  exists m, msg = Some m /\ of_msg x = Some (root (store (msgs_of s)) m) /\ backed mine v ys (OB None (of_link x) (of_str x)).

Lemma filter_generic_ok s mine theirs v ys msg ins al :
  base_inv s mine theirs v ys -> out_inv s mine v ys ->
  (forall p, msg = Some p -> can_reserve s p al) -> (forall x, x ∈ ins -> sendable s mine v ys msg x) ->
  exists s' rc mine' v' ys', nchan_output_filter_generic s msg ins al = Ret (s', rc) /\ base_inv s' mine' theirs v' ys' /\
    (rc <> NGX_ERROR -> out_inv s' mine' v' ys' /\ (lowlevel_buffered (cn s') = false -> mine' = [])).
Proof.
  intros B O Cr Sd. unfold nchan_output_filter_generic. destruct (refresh_ok _ _ _ _ _ B) as (s1 & -> & B1 & W1 & C1 & H1 & M1 & R1).
  rewrite bind_Ret. destruct (ngx_http_output_filter (world s1) (cn s1) ins) as [[w k] rc] eqn:Ef.
  pose proof (filter_keeps L _ _ _ _ _ _ Ef) as Keep. pose proof (filter_buffers L _ _ _ _ _ _ Ef) as Buf. rewrite C1 in Keep.
  destruct (lowlevel_buffered k) eqn:El.
  - assert (exists s2 mine2, match msg with
        | Some p => nchan_output_reserve_message_queue (with_handler (with_conn s1 w k) FLUSH_PENDING_OUTPUT) p al
        | None => Ret (with_handler (with_conn s1 w k) FLUSH_PENDING_OUTPUT) end = Ret s2 /\
        base_inv s2 mine2 theirs v ys /\ cn s2 = k /\ handler s2 = FLUSH_PENDING_OUTPUT /\ forall x, x ∈ r_out k -> backed mine2 v ys x)
      as (s2 & mine2 & -> & B2 & C2 & H2 & O2).
    { assert (base_inv (with_handler (with_conn s1 w k) FLUSH_PENDING_OUTPUT) mine theirs v ys) as B2 by by apply base_handler, base_conn.
      destruct msg as [p|].
      - destruct (reserve_queue_ok _ _ _ _ _ p al B2) as (s2 & p' & E2 & B2' & W2 & C2 & H2).
        { destruct (Cr p eq_refl) as [A1 A2 A3 A4]. split; simpl; rewrite ?M1, ?R1; done. }
        exists s2, (mine ++ [(p', root (store (msgs_of s)) p)]). simpl in *. rewrite M1 in B2'. split_and!; try done.
        intros x Hx. destruct (Keep x Hx) as [Hx'|Hx']; [by apply backed_app, O|].
        destruct (Sd x Hx') as [?|(m & [= <-] & Em & (_ & Bl & Bs))]; [by apply backed_app|].
        split_and!; try done. intros q Hq. rewrite Em in Hq. simplify_eq. right. exists p'. set_solver.
      - eexists _, mine. split_and!; try done. intros x Hx. destruct (Keep x Hx) as [Hx'|Hx']; [by apply O|].
        destruct (Sd x Hx') as [?|(m & ? & _)]; done. }
    rewrite bind_Ret. set (s3 := if delayed (cn s2) then s2 else _).
    assert (base_inv s3 mine2 theirs v ys /\ r_out (cn s3) = r_out k /\ lowlevel_buffered (cn s3) = true) as (B3 & C3 & H3).
    { subst s3. destruct (delayed (cn s2)); [by rewrite C2|]. split; [by apply base_conn|]. simpl. by rewrite C2. }
    destruct (ngx_handle_write_event (world s3) (cn s3)) as [[w' k'] rc'] eqn:Ee. destruct (event_out L _ _ _ _ _ Ee) as [Ko Kb].
    destruct (rc' =? NGX_OK).
    + eexists _, _, mine2, v, ys. split; [done|]. split; [by apply base_conn|]. intros _. split; [|simpl; congruence].
      intros x Hx. simpl in Hx. rewrite Ko, C3 in Hx. by apply O2.
    + destruct (flush_all_ok (with_conn s3 w' k') mine2 theirs v ys) as (s4 & v' & -> & B4 & _); [by apply base_conn|].
      simpl. eexists _, _, [], v', []. split; [done|]. split; [done|]. done.
  - assert (forall s2, (s2 = with_conn s1 w k \/ s2 = with_conn (with_conn s1 w k) w (set_timer k false)) ->
      exists s' rc0 mine' v' ys', match r_out (cn s2) with [] => s ← flush_all_the_reserved_things s2; Ret (s, rc) | _ => Ret (s2, rc) end = Ret (s', rc0) /\
        base_inv s' mine' theirs v' ys' /\
        (rc0 <> NGX_ERROR -> out_inv s' mine' v' ys' /\ (lowlevel_buffered (cn s') = false -> mine' = []))) as Main.
    { intros s2 E2. assert (base_inv s2 mine theirs v ys /\ r_out (cn s2) = r_out k) as [B2 C2] by (destruct E2 as [-> | ->]; split; done || by repeat apply base_conn).
      destruct (r_out (cn s2)) as [|x xs] eqn:Eo.
      - destruct (flush_all_ok s2 mine theirs v ys B2) as (s4 & v' & -> & B4 & _ & C4 & _). rewrite bind_Ret.
        eexists _, _, [], v', []. split; [done|]. split; [done|]. intros _. split; [|done]. unfold out_inv. rewrite C4, Eo. set_solver.
      - eexists _, _, mine, v, ys. split; [done|]. split; [done|]. intros Hrc. exfalso. discriminate Buf; [done|]. by rewrite <- C2. }
    destruct (timer_set k); apply Main; auto.
Qed.

Definition live_inv (s : state) (mine : list hold) (v : pool_view) (ys : list loc) : Prop :=
  out_inv s mine v ys /\ (lowlevel_buffered (cn s) = false -> mine = []).

Lemma live_same s s' mine v ys :
  r_out (cn s') = r_out (cn s) /\ lowlevel_buffered (cn s') = lowlevel_buffered (cn s) -> live_inv s mine v ys -> live_inv s' mine v ys.
Proof. intros [E1 E2] [O C]. unfold live_inv, out_inv. rewrite E1, E2. done. Qed.

Ltac result := eexists _, _, _, _, _; split_and!; [reflexivity|eassumption|done].

Lemma write_event_ok s mine theirs v ys s' fin :
  base_inv s mine theirs v ys -> live_inv s mine v ys -> handle_write_event_or_finalize s = (s', fin) ->
  base_inv s' mine theirs v ys /\ live_inv s' mine v ys.
Proof.
  intros B O. unfold handle_write_event_or_finalize. destruct (ngx_handle_write_event (world s) (cn s)) as [[w k] rc] eqn:E. intros [= <- <-].
  split; [by apply base_conn|]. eapply live_same, O. simpl. by eapply event_out.
Qed.

Lemma live_conn s w f mine theirs v ys :
  (forall k, r_out (f k) = r_out k /\ lowlevel_buffered (f k) = lowlevel_buffered k) -> base_inv s mine theirs v ys -> live_inv s mine v ys ->
  base_inv (with_conn s w (f (cn s))) mine theirs v ys /\ live_inv (with_conn s w (f (cn s))) mine v ys.
Proof. intros F B O. split; [by apply base_conn|]. eapply live_same, O. apply F. Qed.

Lemma not_timedout_ok s mine theirs v ys :
  base_inv s mine theirs v ys -> live_inv s mine v ys ->
  exists s' fin mine' v' ys', flush_pending_not_timedout s = Ret (s', fin) /\ base_inv s' mine' theirs v' ys' /\
    (fin = None -> live_inv s' mine' v' ys').
Proof.
  intros B O. unfold flush_pending_not_timedout. destruct (delayed (cn s) || aio (cn s)).
  - destruct (handle_write_event_or_finalize s) as [s' fin] eqn:E. destruct (write_event_ok _ _ _ _ _ _ _ B O E). result.
  - destruct (filter_generic_ok s mine theirs v ys None [] no_allocs B (proj1 O)) as (s1 & rc & mine1 & v1 & ys1 & E & B1 & O1); [done|set_solver|].
    unfold nchan_output_filter. rewrite E, bind_Ret. destruct (Z.eqb_spec rc NGX_ERROR) as [->|N]; [by result|]. specialize (O1 N).
    unfold after_pending_output. set (s2 := if delayed (cn s1) then s1 else _).
    assert (base_inv s2 mine1 theirs v1 ys1 /\ live_inv s2 mine1 v1 ys1) as [B2 O2].
    { subst s2. destruct (delayed (cn s1)); [done|]. by apply (live_conn s1 (world s1) (fun k => set_timer k true)). }
    assert (forall s3 fin, (if other_buffered (cn s1) then handle_write_event_or_finalize s2 else (s1, None)) = (s3, fin) ->
      base_inv s3 mine1 theirs v1 ys1 /\ live_inv s3 mine1 v1 ys1) as H3.
    { intros s3 fin. destruct (other_buffered (cn s1)); [by apply write_event_ok|]. intros [= <- _]. done. }
    destruct (if other_buffered (cn s1) then _ else _) as [s3 [code|]]; destruct (H3 _ _ eq_refl) as [B3 O3]; [by result|].
    assert (live_inv (with_handler s3 EMPTY_HANDLER) mine1 v1 ys1) by by eapply live_same, O3.
    pose proof (base_handler _ EMPTY_HANDLER _ _ _ _ B3).
    destruct (r_out (cn s3)); result.
Qed.

Lemma flush_pending_ok s mine theirs v ys :
  base_inv s mine theirs v ys -> live_inv s mine v ys ->
  exists s' fin mine' v' ys', nchan_flush_pending_output s = Ret (s', fin) /\ base_inv s' mine' theirs v' ys' /\
    (fin = None -> live_inv s' mine' v' ys').
Proof.
  intros B O. unfold nchan_flush_pending_output. destruct (timedout (cn s)); [|by apply (not_timedout_ok s mine theirs v ys)].
  destruct (delayed (cn s)); [|by eauto 10].
  destruct (live_conn s (world s) clear_timedout mine theirs v ys (fun k => conj eq_refl eq_refl) B O) as [B1 O1]. set (s1 := with_conn _ _ _) in *.
  destruct (ready (cn s1)); [by apply (not_timedout_ok s1 mine theirs v ys)|].
  destruct (live_conn s1 (world s1) (fun k => set_timer k true) mine theirs v ys (fun k => conj eq_refl eq_refl) B1 O1) as [B2 O2].
  destruct (handle_write_event_or_finalize _) as [s' fin] eqn:E. destruct (write_event_ok _ _ _ _ _ _ _ B2 O2 E). result.
Qed.

(** ** What is in use, in memory *)

Definition link_in_use (s : state) (l : loc) : Prop :=
  exists b us o, bcp (ctx s) = Some b /\ l ∈ us /\ sseg o (links (pool s)) us None /\
    (o = LINK_NEXT /\ bc_head b = head us \/ o = CHAIN_NEXT /\ bc_chain_head b = head us).
Definition str_in_use (s : state) (y : loc) : Prop :=
  exists rq ys, output_str_queue (ctx s) = Some rq /\ nchan_reuse_queue_each (str_mem s) rq = Ret ys /\ y ∈ ys.

(** A buffer that is given to the filter: memory of the message that is sent, of
    none, or of one that is sent without being reserved. *)
Definition buffer_ok (s : state) (msg : option positive) (x : out_buf) : Prop :=
  (of_msg x = None \/ (exists m, msg = Some m /\ of_msg x = Some (root (store (msgs_of s)) m)) \/
   (exists p, of_msg x = Some p /\ bare p)) /\
  (forall l, of_link x = Some l -> link_in_use s l) /\ (forall y, of_str x = Some y -> str_in_use s y).

Lemma link_used s mine theirs v ys l : base_inv s mine theirs v ys -> (link_in_use s l <-> l ∈ used v \/ l ∈ (out v).*1).
Proof.
  intros [_ _ _ P _]. unfold pool_inv in P. unfold link_in_use. split.
  - intros (b & us & o & Eb & Hl & Su & Eo). rewrite Eb in P. destruct P as [[Pl Pc _ _] _]. destruct Eo as [[-> Eo]|[-> Eo]].
    + left. rewrite (sseg_unique _ _ _ _ (lr_used _ _ _ _ Pl) Su); [done|]. by rewrite <- (lr_head _ _ _ _ Pl).
    + right. rewrite (sseg_unique _ _ _ _ (cr_out _ _ _ _ Pc) Su); [done|]. by rewrite <- (cr_head _ _ _ _ Pc).
  - destruct (bcp (ctx s)) as [b|] eqn:Eb; [|subst v; set_solver]. destruct P as [[Pl Pc _ _] _]. intros [Hl|Hl].
    + exists b, (used v), LINK_NEXT. split_and!; try done; [apply Pl|]. left. split; [done|apply Pl].
    + exists b, (out v).*1, CHAIN_NEXT. split_and!; try done; [apply Pc|]. right. split; [done|apply Pc].
Qed.

Lemma str_used s mine theirs v ys y : base_inv s mine theirs v ys -> (str_in_use s y <-> y ∈ ys).
Proof.
  intros [_ _ _ _ S]. unfold str_inv in S. unfold str_in_use. destruct (output_str_queue (ctx s)) as [rq|] eqn:Eq.
  - destruct S as (rs & P & N & ND & D & _ & F & _).
    assert (nchan_reuse_queue_each (str_mem s) rq = Ret ys) as Ee.
    { unfold nchan_reuse_queue_each. rewrite F, N. apply NoDup_app in ND as (ND & _). apply things_chain with str_prev; [done..|]. by eapply dseg_chain. }
    split; [|by eauto]. intros (? & ? & [= <-] & E & Hy). congruence.
  - subst ys. split; [by intros (? & ? & ? & _)|set_solver].
Qed.

Lemma buffer_sendable s mine theirs v ys msg x : base_inv s mine theirs v ys -> buffer_ok s msg x -> sendable s mine v ys msg x.
Proof.
  intros B (M & Bl & Bs).
  assert (backed mine v ys (OB None (of_link x) (of_str x))) as Bk.
  { split_and!; simpl; [done| |]; [intros l Hl; by apply (link_used _ _ _ _ _ _ B), Bl|intros y Hy; by apply (str_used _ _ _ _ _ _ B), Bs]. }
  destruct M as [E|[(m & -> & E)|(p & E & Hb)]]; [left|right; by exists m|left].
  - destruct x. simpl in *. by subst.
  - split_and!; [|apply Bk..]. intros p' E'. left. congruence.
Qed.

(** ** Runs *)

Definition with_pool (s : state) (p : pool_mem) (b : nchan_bufchain_pool_t) (o : pool_op) (xs : list loc) (f : ngx_file_t) : state :=
  with_bcp s (match o, xs with ReserveFile _, c :: _ => with_files p (<[c := f]> (files p)) | _, _ => p end) b.

Definition their_holds (ms : msg_state) (th : list hold) (o : msg_op) : list hold :=
  match o with
  | Reserve p => (p, root (store ms) p) :: th
  | Release p => drop_hold (p, root (store ms) p) th
  | _ => th
  end.

(** Messages and others' holds, and whether the request still sends.  It prepares
    links, files and strings, sends messages and chains of its own, answers with
    a message, is told that the socket takes more; all the while others do with messages what they may,
    but release what this request holds. *)
Inductive reach : state -> list hold -> bool -> Prop :=
  | reach_start s :
      msg_inv (msgs_of s) -> r_out (cn s) = [] -> cleanups s = O -> reserved_msg_queue (ctx s) = None ->
      (bcp (ctx s) = None \/ bcp (ctx s) = Some nchan_bufchain_pool_init) ->
      (output_str_queue (ctx s) = None \/ output_str_queue (ctx s) = Some (nchan_reuse_queue_init str_prev str_next)) ->
      reach s (holds (msgs_of s)) true
  | reach_send_msg s th msg ins al s' rc :
      reach s th true -> can_reserve s msg al -> Forall (buffer_ok s (Some msg)) ins ->
      nchan_output_msg_filter s msg ins al = Ret (s', rc) -> reach s' th (negb (rc =? NGX_ERROR))
  | reach_send s th ins s' rc :
      reach s th true -> Forall (buffer_ok s None) ins ->
      nchan_output_filter s ins = Ret (s', rc) -> reach s' th (negb (rc =? NGX_ERROR))
  | reach_respond s th msg palloc_ok headers_ok send_header s' rc :
      reach s th true -> bare (root (store (msgs_of s)) msg) ->
      nchan_respond_msg s msg palloc_ok headers_ok send_header = Ret (s', rc) -> reach s' th (negb (rc =? NGX_ERROR))
  | reach_writable s th s' fin :
      reach s th true -> nchan_flush_pending_output s = Ret (s', fin) -> reach s' th (match fin with None => true | Some _ => false end)
  | reach_prepare s th b o f p b' xs :
      reach s th true -> bcp (ctx s) = Some b -> o <> FlushPool ->
      (forall v, pool_rep (pool s) b v -> is_Some (pool_spec_op v o)) ->
      exec_pool_op (pool s) b o = Ret (p, b', xs) -> reach (with_pool s p b' o xs f) th true
  | reach_string s th rq new h rq' y :
      reach s th true -> output_str_queue (ctx s) = Some rq -> str_mem s !! (new, str_prev) = None ->
      nchan_reuse_queue_push (str_mem s) rq (Some new) = Ret (h, rq', y) -> reach (with_strs s h rq') th true
  | reach_others s th o ms ok :
      reach s th ok -> permitted (msgs_of s) o -> (forall p, o = Release p -> (p, root (store (msgs_of s)) p) ∈ th) ->
      run_op (msgs_of s) o = Ret ms -> reach (with_msgs s ms) (their_holds (msgs_of s) th o) ok.

Lemma others_ok ms mine th o ms' :
  msg_inv ms -> holds ms ≡ₚ mine ++ th -> permitted ms o -> (forall p, o = Release p -> (p, root (store ms) p) ∈ th) ->
  run_op ms o = Ret ms' -> msg_inv ms' /\ holds ms' ≡ₚ mine ++ their_holds ms th o.
Proof.
  intros I E P T R. destruct (run_op_ok ms o I P) as (ms2 & R2 & I2). rewrite R in R2. injection R2 as <-. split; [done|].
  destruct o as [p m|p|p|par new nt|par new nt|p now]; simpl in *.
  - by simplify_eq.
  - apply bind_Ret_inv in R as ([st rc] & _ & [= <-]). simpl. rewrite E. by rewrite Permutation_middle.
  - apply bind_Ret_inv in R as ([[t st] rc] & _ & [= <-]). simpl. specialize (T p eq_refl).
    pose proof (drop_hold_perm _ _ T) as E2. rewrite E2 in E. rewrite <- Permutation_middle in E.
    rewrite (drop_hold_perm _ _ P) in E. by apply Permutation_cons_inv in E.
  - apply bind_Ret_inv in R as ([[t st] rc] & _ & [= <-]). done.
  - apply bind_Ret_inv in R as ([[t st] rc] & _ & [= <-]). done.
  - destruct (store ms !! p) as [m|]; [|done]. destruct (nchan_memstore_store_msg_ready_to_reap now m false) as [m' rc].
    destruct (rc =? NGX_OK); [|by simplify_eq]. apply bind_Ret_inv in R as ([[t st] rc'] & _ & [= <-]). done.
Qed.

Lemma append_files m b new m' b' r : nchan_bufchain_append m b new = Ret (m', b', r) -> files m' = files m.
Proof.
  unfold nchan_bufchain_append. intros E. apply bind_Ret_inv in E as ([[m1 b1] r1] & E1 & E).
  assert (files m1 = files m) as <-.
  { destruct (bc_chain_recycle_head b); [apply bind_Ret_inv in E1 as (? & _ & E1)|]; simplify_eq; [done|by destruct r1]. }
  destruct r1 as [c|]; [|by simplify_eq]. apply bind_Ret_inv in E as (h & _ & E). apply bind_Ret_inv in E as ([h' bs] & _ & E). by simplify_eq.
Qed.

Lemma prepare_files m b o m' b' xs : o <> FlushPool -> exec_pool_op m b o = Ret (m', b', xs) -> files m' = files m.
Proof.
  intros N E. destruct o as [n nw|nw|x nw|st nw|]; [| | | |done]; cbn [exec_pool_op] in E.
  - apply bind_Ret_inv in E as ([[h b1] p] & _ & E). apply bind_Ret_inv in E as (ys & _ & E). by simplify_eq.
  - apply bind_Ret_inv in E as ([[m1 b1] c] & E1 & E). simplify_eq. unfold nchan_bufchain_pool_reserve_file in E1.
    apply bind_Ret_inv in E1 as ([[m1 b1] c1] & E1 & E). apply bind_Ret_inv in E as (h & _ & E). simplify_eq. simpl.
    destruct (file_recycle_head b); [apply bind_Ret_inv in E1 as (? & _ & E1)|]; by simplify_eq.
  - apply bind_Ret_inv in E as ([m1 b1] & E1 & E). simplify_eq. unfold nchan_bufchain_append_buf in E1.
    apply bind_Ret_inv in E1 as ([[m1 b1] r] & E1%append_files & E). simplify_eq. by destruct r.
  - apply bind_Ret_inv in E as ([m1 b1] & E1 & E). simplify_eq. unfold nchan_bufchain_append_str in E1.
    apply bind_Ret_inv in E1 as ([[m1 b1] r] & E1%append_files & E). simplify_eq. by destruct r.
Qed.

Lemma pool_grows m b v o m' b' xs f v' ys :
  pool_rep m b v -> (forall c, c ∈ open_files v -> is_Some (files m !! c)) -> o <> FlushPool ->
  pool_spec_op v o = Some (v', ys) -> exec_pool_op m b o = Ret (m', b', xs) ->
  let m2 := match o, xs with ReserveFile _, c :: _ => with_files m' (<[c := f]> (files m')) | _, _ => m' end in
  pool_rep m2 b' v' /\ (forall c, c ∈ open_files v' -> is_Some (files m2 !! c)) /\
  (forall l, l ∈ used v \/ l ∈ (out v).*1 -> l ∈ used v' \/ l ∈ (out v').*1).
Proof.
  intros R F N Es Ee. destruct (pool_op_spec m b v o v' ys R Es) as (m1 & b1 & Ee' & R'). rewrite Ee in Ee'. injection Ee' as <- <- <-.
  pose proof (prepare_files _ _ _ _ _ _ N Ee) as Ef. cbn zeta. destruct o as [n nw|nw|x nw|st nw|]; cbn [pool_spec_op] in Es; [| | | |done].
  - case_decide; simplify_eq. rewrite Ef. split_and!; [done|done|]. set_solver.
  - destruct (takes (spare_files v) nw) as [c rs]. case_decide; simplify_eq. split_and!; [by apply (refreshed_pool m')| |done].
    simpl. rewrite Ef. intros d Hd. destruct (decide (d = c)) as [->|]; [rewrite lookup_insert_eq; eauto|].
    rewrite lookup_insert_ne by done. apply F. set_solver.
  - unfold append_view in Es. destruct (takes (spare_out v) nw) as [c rs]. case_decide; simplify_eq/=. rewrite Ef. split_and!; [done|done|]. rewrite fmap_app. set_solver.
  - unfold append_view in Es. destruct (takes (spare_out v) nw) as [c rs]. case_decide; simplify_eq/=. rewrite Ef. split_and!; [done|done|]. rewrite fmap_app. set_solver.
Qed.

Lemma backed_mono mine v ys v' ys' x :
  (forall l, l ∈ used v \/ l ∈ (out v).*1 -> l ∈ used v' \/ l ∈ (out v').*1) -> (forall y, y ∈ ys -> y ∈ ys') ->
  backed mine v ys x -> backed mine v' ys' x.
Proof. intros H1 H2 (A & B & C). split_and!; eauto. Qed.

Lemma reach_inv s th ok : reach s th ok ->
  exists mine v ys, base_inv s mine th v ys /\ (ok = true -> live_inv s mine v ys).
Proof.
  induction 1 as [s I Eo Ec Eq Eb Es|s th msg ins al s' rc R (mine & v & ys & B & O) Cr Bo E|s th ins s' rc R (mine & v & ys & B & O) Bo E
    |s th msg pa ho sh s' rc R (mine & v & ys & B & O) Hb E|s th s' fin R (mine & v & ys & B & O) E|s th b o f p b' xs R (mine & v & ys & B & O) Eb N Ready E
    |s th rq new h rq' y R (mine & v & ys & B & O) Eq Nn E|s th o ms ok R (mine & v & ys & B & O) P T E].
  - exists [], (View [] [] [] [] [] []), []. split.
    + split; try done; unfold queue_inv, pool_inv, str_inv.
      * by rewrite Eq.
      * destruct Eb as [-> | ->]; [done|]. split; [apply pool_init_rep|set_solver].
      * destruct Es as [-> | ->]; [done|]. exists []. apply rq_rep_init.
    + intros _. split; [|done]. unfold out_inv. rewrite Eo. set_solver.
  - destruct (filter_generic_ok s mine th v ys (Some msg) ins al B (proj1 (O eq_refl))) as (s2 & rc2 & mine2 & v2 & ys2 & E2 & B2 & O2).
    + by intros p [= <-]. + intros x Hx. eapply buffer_sendable; [done|]. by rewrite Forall_forall in Bo; apply Bo.
    + unfold nchan_output_msg_filter in E. rewrite E in E2. injection E2 as <- <-. exists mine2, v2, ys2. split; [done|].
      destruct (Z.eqb_spec rc NGX_ERROR); [done|]. intros _. by apply O2.
  - destruct (filter_generic_ok s mine th v ys None ins no_allocs B (proj1 (O eq_refl))) as (s2 & rc2 & mine2 & v2 & ys2 & E2 & B2 & O2).
    + done. + intros x Hx. eapply buffer_sendable; [done|]. by rewrite Forall_forall in Bo; apply Bo.
    + unfold nchan_output_filter in E. rewrite E in E2. injection E2 as <- <-. exists mine2, v2, ys2. split; [done|].
      destruct (Z.eqb_spec rc NGX_ERROR); [done|]. intros _. by apply O2.
  - assert (exists mine v ys, base_inv s mine th v ys /\ (negb (rc =? NGX_ERROR) = true -> live_inv s mine v ys)) as Same
      by (exists mine, v, ys; auto).
    unfold nchan_respond_msg in E. destruct (store (msgs_of s) !! msg) as [m|]; [|done].
    destruct (_ && _); [by simplify_eq|]. destruct (negb ho); [by simplify_eq|]. destruct (_ <=? sh); [by simplify_eq|].
    destruct (0 <? _); [|by simplify_eq]. clear Same.
    destruct (filter_generic_ok s mine th v ys None [OB (Some (root (store (msgs_of s)) msg)) None None] no_allocs B (proj1 (O eq_refl))) as (s2 & rc2 & mine2 & v2 & ys2 & E2 & B2 & O2);
      [done| |unfold nchan_output_filter in E; rewrite E in E2; injection E2 as <- <-; exists mine2, v2, ys2; split; [done|]].
    + intros x ->%list_elem_of_singleton. left. split_and!; try (by intros ? [=]). intros p [= <-]. by left.
    + destruct (Z.eqb_spec rc NGX_ERROR); [done|]. intros _. by apply O2.
  - destruct (flush_pending_ok s mine th v ys B (O eq_refl)) as (s2 & fin2 & mine2 & v2 & ys2 & E2 & B2 & O2).
    rewrite E in E2. injection E2 as <- <-. exists mine2, v2, ys2. split; [done|]. destruct fin; [done|]. intros _. by apply O2.
  - destruct B as [I Eh Q P S]. unfold pool_inv in P. rewrite Eb in P. destruct P as [P F]. destruct (Ready v P) as [[v' ws] Es].
    destruct (pool_grows _ _ _ _ _ _ _ f _ _ P F N Es E) as (P' & F' & G). exists mine, v', ys. split; [split; try done|].
    intros _. destruct (O eq_refl) as [O1 O2]. split; [|done]. intros x Hx. by eapply backed_mono, O1.
  - destruct B as [I Eh Q P S]. unfold str_inv in S. rewrite Eq in S. destruct S as [rs S].
    destruct (rq_push_rep str_prev str_next Hstr (str_mem s) rq ys rs (Some new) (match rs with r :: _ => r | [] => new end) (tail rs) S) as (h2 & rq2 & E2 & S2 & _).
    { destruct rs; [|done]. split_and!; try done. intros I0. destruct S as (_ & _ & _ & D & _).
      destruct (dseg_live _ _ _ _ _ _ _ D I0) as [[z Hz] _]. congruence. }
    rewrite E in E2. injection E2 as <- <- _. eexists mine, v, _. split; [split; try done; unfold str_inv; simpl; eexists; exact S2|].
    intros _. destruct (O eq_refl) as [O1 O2]. split; [|done]. intros x Hx. eapply backed_mono, O1; [done| |done]. intros z Hz. apply elem_of_app. by left.
  - destruct B as [I Eh Q P' S]. destruct (others_ok _ mine th o ms I Eh P T E) as [I' E']. exists mine, v, ys. split; [by split|].
    intros Eok. destruct (O Eok) as [O1 O2]. by split.
Qed.


(** C26. At the end of a request, however it came about, after an error of the
    output too, the messages that it has reserved are given back, and only they:
    the handler for that is registered once, as soon as there is a queue. *)
Theorem output_reservations_given_back s th ok :
  reach s th ok ->
  (is_Some (reserved_msg_queue (ctx s)) <-> cleanups s = 1%nat) /\
  (reserved_msg_queue (ctx s) = None -> holds (msgs_of s) ≡ₚ th) /\
  exists s', nchan_reserve_msg_cleanup s = Ret s' /\ holds (msgs_of s') ≡ₚ th /\ msg_inv (msgs_of s').
Proof.
  intros R. destruct (reach_inv _ _ _ R) as (mine & v & ys & B & _). pose proof B as [I E Q P S]. split_and!.
  - unfold queue_inv in Q. destruct (reserved_msg_queue (ctx s)); [destruct Q; split; eauto|]. destruct Q as [_ ->]. split; [by intros [? ?]|done].
  - intros En. unfold queue_inv in Q. rewrite En in Q. destruct Q as [-> _]. done.
  - destruct (push_release_ok _ _ _ _ _ B) as (s' & E' & B' & _). exists s'. split_and!; [done| |apply B']. by rewrite (bi_holds _ _ _ _ _ B').
Qed.

(** When the client is gone while output is pending, the error of the filter is
    not passed on: [c->buffered] still has its bits from before. *)
Lemma pending_error_is_swallowed s ins w k w' k' :
  bcp (ctx s) = None -> ngx_http_output_filter (world s) (cn s) ins = (w, k, NGX_ERROR) -> lowlevel_buffered k = true ->
  ngx_handle_write_event w (if delayed k then k else set_timer k true) = (w', k', NGX_OK) ->
  exists s', nchan_output_filter s ins = Ret (s', NGX_OK) /\ handler s' = FLUSH_PENDING_OUTPUT.
Proof.
  intros Eb Ef El Ee. unfold nchan_output_filter, nchan_output_filter_generic. rewrite Eb, bind_Ret, Ef, El, bind_Ret. simpl.
  destruct (delayed k); simpl; rewrite Ee; simpl; eauto.
Qed.
End output.

(** ** A client that is slow *)

(** How many buffers are taken each time. *)
Definition slow_filter (w : list nat) (k : conn) (ins : list out_buf) : list nat * conn * Z :=
  let rest := drop (hd 100%nat w) (r_out k ++ ins) in
  let more := match rest with [] => false | _ => true end in
  (tail w, Conn rest more more (timedout k) (delayed k) (ready k) (timer_set k) (aio k), if more then NGX_AGAIN else NGX_OK).
Definition armed (w : list nat) (k : conn) : list nat * conn * Z := (w, k, NGX_OK).

Lemma slow_laws : filter_laws slow_filter armed.
Proof.
  split.
  - intros w k ins w' k' rc [= <- <- <-] x Hx. simpl in Hx. apply elem_of_app. by eapply subseteq_drop.
  - intros w k ins w' k' rc [= <- <- <-] _. simpl. by destruct (drop _ _).
  - intros w k w' k' rc [= <- <- <-]. done.
Qed.

Lemma offsets_differ : 0 <> 8.
Proof. lia. Qed.

Definition open_ok (_ : bytes) : bool := true.
Definition idle_conn : conn := Conn [] false false false false true false false.

(** A message in shared memory, a request with a pool; a link is reserved; the
    message is sent in it, and the socket takes nothing. *)
Definition published : msg_state := MS ∅ {[1%positive := example_shared]} [].
Definition request0 : output (list nat) :=
  Out [0; 100]%nat idle_conn OTHER_HANDLER (Ctx None (Some nchan_bufchain_pool_init) None) 0 published ∅ ∅ (PM ∅ ∅ ∅) ∅.
Definition ret_or {A} (d : A) (m : outcome A) : A := match m with Ret a => a | _ => d end.
Definition request1 : output (list nat) :=
  let '(p, b, _) := ret_or (PM ∅ ∅ ∅, nchan_bufchain_pool_init, []) (exec_pool_op (PM ∅ ∅ ∅) nchan_bufchain_pool_init (BufChain.Reserve 1 [5%positive])) in
  with_bcp request0 p b.
Definition example_allocs : allocs := Allocs None None true true (Some 9%positive).
Definition example_chain : list out_buf := [OB (Some 1%positive) (Some 5%positive) None].
Definition request2 : output (list nat) :=
  (ret_or (request1, 0) (nchan_output_msg_filter slow_filter armed open_ok request1 1 example_chain example_allocs)).1.

(** Nothing is sent without being reserved. *)
Definition all_reserved (_ : positive) : Prop := False.

Lemma published_inv : msg_inv published.
Proof.
  apply (msg_run_inv (MS ∅ ∅ []) [Publish 1 example_shared]); [apply msg_inv_empty|].
  eapply msg_run_cons; [|reflexivity|apply msg_run_nil]. split; [reflexivity|]. split; [intros q m Hq; simpl in Hq; by rewrite lookup_empty in Hq|].
  repeat split.
Qed.

Lemma request1_reach : reach slow_filter armed open_ok 0 8 all_reserved request1 [] true.
Proof.
  apply (reach_prepare slow_filter armed open_ok 0 8 all_reserved request0 [] nchan_bufchain_pool_init (BufChain.Reserve 1 [5%positive])
           (File [] false) _ _ [5%positive]); [|done|done| |by vm_compute].
  - apply (reach_start slow_filter armed open_ok 0 8 all_reserved request0); [apply published_inv|done|done|done|by right|by left].
  - intros v [[_ _ _ _ E1 E2 _ _] [_ _ _ _ E3 _ E4 _ _ _] _ _]. simpl in *.
    destruct v as [us rs xs ss fs gs]. simpl in *. destruct us, rs, ss; try done. destruct xs as [|[??]?]; [|done].
    vm_compute. eauto.
Qed.

Lemma request2_reach : reach slow_filter armed open_ok 0 8 all_reserved request2 [] true.
Proof.
  apply (reach_send_msg slow_filter armed open_ok 0 8 all_reserved request1 [] 1 example_chain example_allocs request2 NGX_OK).
  - apply request1_reach.
  - split; [|intros m [= <-]; done|done|by exists 9%positive]. split_and!; [by eexists|by eexists|by vm_compute].
  - constructor; [|constructor]. split; [right; left; by eexists|]. split; [|done].
    intros l [= <-]. eexists _, [5%positive], LINK_NEXT. split; [done|]. split; [set_solver|]. split; [|by left]. by vm_compute.
  - by vm_compute.
Qed.


Lemma output_reservations_given_back_witness :
  exists s', nchan_reserve_msg_cleanup request2 = Ret s' /\ holds (msgs_of s') ≡ₚ [] /\ msg_inv (msgs_of s').
Proof. apply (output_reservations_given_back slow_filter armed open_ok 0 8 offsets_differ all_reserved slow_laws request2 [] true request2_reach). Defined.

(** ** The answer of a long poll is not held *)

(** [nchan_respond_msg] gives the filter a buffer in the message's memory, but not
    the message: when the client is slow the message may be freed before it is
    sent. *)
Theorem respond_msg_not_held :
  exists s ms, nchan_respond_msg slow_filter armed open_ok request0 1 true true NGX_OK = Ret (s, NGX_OK) /\
    r_out (cn s) = [OB (Some 1%positive) None None] /\ holds (msgs_of s) = [] /\
    permitted (msgs_of s) (Reap 1 1000) /\ run_op (msgs_of s) (Reap 1 1000) = Ret ms /\ store ms !! 1%positive = None.
Proof.
  eexists _, _. split; [vm_compute; reflexivity|]. split_and!; [done|done|exists example_shared; done|vm_compute; reflexivity|done].
Qed.
