(* ===== verification/NchanList.v ===== *)
(** * [util/nchan_list.c]: lists whose elements are on the heap

    The element's header holds the links; its data follows it, so that the two
    are one object here.  Nothing makes a list with a pool. *)

From S2P Require Import Prelude DList.

Definition EL_PREV : Z := 0.
Definition EL_NEXT : Z := 8.

Record nchan_list_t := NL { head : ptr; tail : ptr; n : Z (* ngx_uint_t *) }.

Definition nchan_list_init : nchan_list_t := NL None None 0.

(** [ngx_free]; freeing what is not allocated aborts. *)
Definition ngx_free (h : mem) (x : loc) : outcome mem :=
  _ ← load h x EL_PREV; _ ← load h x EL_NEXT; Ret (dealloc EL_PREV EL_NEXT h x).

Definition nchan_list_first (l : nchan_list_t) : ptr := head l.
Definition nchan_list_last (l : nchan_list_t) : ptr := tail l.
Definition nchan_list_prev (h : mem) (el : loc) : outcome ptr := load h el EL_PREV.
Definition nchan_list_next (h : mem) (el : loc) : outcome ptr := load h el EL_NEXT.
Definition nchan_list_count (l : nchan_list_t) : Z := n l.

(** [new]: what [ngx_alloc] returns. *)
Definition nchan_list_append_sized (h : mem) (l : nchan_list_t) (new : ptr) : outcome (mem * nchan_list_t * loc) :=
  match new with
  | None => Crash
  | Some el =>
      let h := alloc EL_PREV EL_NEXT h el None None in
      h ← match tail l with Some t => store h t EL_NEXT (Some el) | None => Ret h end;
      h ← store h el EL_PREV (tail l);
      h ← store h el EL_NEXT None;
      Ret (h, NL (match head l with Some hd => Some hd | None => Some el end) (Some el) (u64 (n l + 1)), el)
  end.

Definition nchan_list_prepend_sized (h : mem) (l : nchan_list_t) (new : ptr) : outcome (mem * nchan_list_t * loc) :=
  match new with
  | None => Crash
  | Some el =>
      let h := alloc EL_PREV EL_NEXT h el None None in
      h ← match head l with Some hd => store h hd EL_PREV (Some el) | None => Ret h end;
      h ← store h el EL_PREV None;
      h ← store h el EL_NEXT (head l);
      Ret (h, NL (Some el) (tail l) (u64 (n l + 1)), el)
  end.

Definition nchan_list_remove (h : mem) (l : nchan_list_t) (el : loc) : outcome (mem * nchan_list_t) :=
  p ← load h el EL_PREV;
  q ← load h el EL_NEXT;
  h ← unlink EL_PREV EL_NEXT h p q;
  h ← ngx_free h el;
  Ret (h, NL (if decide (head l = Some el) then q else head l) (if decide (tail l = Some el) then p else tail l) (u64 (n l - 1))).

(** [for(el = ...; el != NULL; el = next)]: each is freed once its next link has
    been read; the callback is given each. *)
Fixpoint free_from (fuel : nat) (h : mem) (p : ptr) : outcome (mem * list loc) :=
  match p with
  | None => Ret (h, [])
  | Some el =>
      match fuel with
      | O => NoFuel
      | S fuel => next ← load h el EL_NEXT; h ← ngx_free h el; '(h, xs) ← free_from fuel h next; Ret (h, el :: xs)
      end
  end.

Definition nchan_list_empty (h : mem) (l : nchan_list_t) : outcome (mem * nchan_list_t) :=
  '(h, _) ← free_from (base.size h) h (head l);
  Ret (h, NL None None 0).

Definition nchan_list_traverse_and_empty (h : mem) (l : nchan_list_t) : outcome (mem * nchan_list_t * list loc) :=
  '(h, xs) ← free_from (base.size h) h (head l);
  Ret (h, NL None None 0, xs).

(** ** What a list represents *)

(** The links of the elements, and the fields. *)
Record list_at (h : mem) (l : nchan_list_t) (xs : list loc) : Prop := {
  nl_list : dlist EL_PREV EL_NEXT h xs;
  nl_head : head l = list.head xs;
  nl_tail : tail l = list.last xs;
  nl_n : n l = u64 (Z.of_nat (length xs));
}.

Definition same_but (h h' : mem) (xs : list loc) : Prop := forall y o, y ∉ xs -> h' !! (y, o) = h !! (y, o).

Lemma list_init_at h : list_at h nchan_list_init [].
Proof. split; try done. split; [constructor|done]. Qed.

Lemma list_at_frame h h' l xs : (forall y o, y ∈ xs -> h' !! (y, o) = h !! (y, o)) -> list_at h l xs -> list_at h' l xs.
Proof.
  intros F [[ND S] E1 E2 E3]. split; try done. split; [done|]. eapply dseg_frame, S. intros x Hx. by rewrite !F.
Qed.

Lemma u64_next a : u64 (u64 a + 1) = u64 (a + 1).
Proof. unfold u64. by rewrite Zplus_mod_idemp_l. Qed.
Lemma u64_prev a : u64 (u64 a - 1) = u64 (a - 1).
Proof. unfold u64. by rewrite Zminus_mod_idemp_l. Qed.

Lemma list_append_at h l xs new :
  list_at h l xs -> new ∉ xs ->
  exists h' l', nchan_list_append_sized h l (Some new) = Ret (h', l', new) /\ list_at h' l' (xs ++ [new]) /\
    same_but h h' (xs ++ [new]) /\ dom h' = dom (alloc EL_PREV EL_NEXT h new None None).
Proof.
  intros [D E1 E2 E3] Nx. pose proof D as [ND S]. unfold nchan_list_append_sized. set (h0 := alloc EL_PREV EL_NEXT h new None None).
  set (h1 := match tail l with Some t => <[(t, EL_NEXT) := Some new]> h0 | None => h0 end).
  assert (forall t, tail l = Some t -> t ∈ xs) as Ht by (intros t Et; apply last_elem; congruence).
  assert (forall t, tail l = Some t -> is_Some (h0 !! (t, EL_NEXT))) as Lt.
  { intros t Et. apply alloc_mem. left. eapply dseg_live; [done|by apply Ht]. }
  assert (dom h1 = dom h0) as D1 by (subst h1; destruct (tail l) as [t|]; [by apply dom_insert_lookup_L, Lt|done]).
  assert (match tail l with Some t => store h0 t EL_NEXT (Some new) | None => Ret h0 end = Ret h1) as ->.
  { subst h1. destruct (tail l) as [t|]; [|done]. by apply store_live, Lt. }
  assert (is_Some (h1 !! (new, EL_PREV)) /\ is_Some (h1 !! (new, EL_NEXT))) as [N1 N2].
  { rewrite <- !elem_of_dom, D1, !elem_of_dom. split; apply alloc_mem; auto. }
  rewrite bind_Ret, store_live by done. rewrite bind_Ret.
  rewrite store_live by (apply lookup_insert_is_Some'; by right). rewrite bind_Ret.
  eexists _, _. split; [done|]. split; [split; simpl|split].
  - eapply (dlist_snoc EL_PREV EL_NEXT ltac:(discriminate) h); try done.
    + rewrite lookup_insert_ne by discriminate. by rewrite lookup_insert_eq, E2.
    + by rewrite lookup_insert_eq.
    + intros y Hy. assert (y <> new) by (intros ->; apply Nx, last_elem; done).
      rewrite !lookup_insert_ne by congruence. subst h1. by rewrite E2, Hy, lookup_insert_eq.
    + intros y o Ny No. rewrite !lookup_insert_ne by congruence. subst h1 h0. rewrite E2. unfold alloc.
      destruct (list.last xs) as [t|] eqn:Et; [rewrite lookup_insert_ne by (intros [= <- <-]; by apply No)|]; by rewrite !lookup_insert_ne by congruence.
  - rewrite E1. by destruct xs.
  - by rewrite last_snoc.
  - rewrite E3, u64_next, length_app. simpl. f_equal. lia.
  - intros y o Hy. assert (y <> new) by set_solver. rewrite !lookup_insert_ne by congruence. subst h1 h0. unfold alloc.
    destruct (tail l) as [t|] eqn:Et; [specialize (Ht t eq_refl); rewrite lookup_insert_ne by (intros [= <- <-]; set_solver)|]; by rewrite !lookup_insert_ne by congruence.
  - rewrite <- D1. rewrite !dom_insert_lookup_L; [done|done|apply lookup_insert_is_Some'; by right].
Qed.

Lemma free_ok h x : is_Some (h !! (x, EL_PREV)) -> is_Some (h !! (x, EL_NEXT)) -> ngx_free h x = Ret (dealloc EL_PREV EL_NEXT h x).
Proof. intros [v E1] [w E2]. unfold ngx_free. by rewrite (load_Some _ _ _ _ E1), bind_Ret, (load_Some _ _ _ _ E2). Qed.

Lemma dealloc_other h x y o : y <> x -> dealloc EL_PREV EL_NEXT h x !! (y, o) = h !! (y, o).
Proof. intros N. unfold dealloc. by rewrite !lookup_delete_ne by congruence. Qed.

Lemma list_remove_at h l xs1 el xs2 :
  list_at h l (xs1 ++ el :: xs2) ->
  exists h' l', nchan_list_remove h l el = Ret (h', l') /\ list_at h' l' (xs1 ++ xs2) /\ same_but h h' (xs1 ++ el :: xs2) /\
    forall x o, is_Some (h' !! (x, o)) <-> is_Some (h !! (x, o)) /\ ~ (x = el /\ (o = EL_PREV \/ o = EL_NEXT)).
Proof.
  intros [D E1 E2 E3]. unfold nchan_list_remove. pose proof D as [ND S]. destruct (dseg_lookup _ _ _ _ _ _ _ _ S) as [L1 L2].
  destruct (dseg_live _ _ _ _ _ _ el S) as [A1 A2]; [set_solver|].
  rewrite last_or_None in L1. rewrite hd_or_None in L2. rewrite (load_Some _ _ _ _ L1), bind_Ret, (load_Some _ _ _ _ L2), bind_Ret.
  destruct (unlink_spec EL_PREV EL_NEXT h xs1 el xs2 ltac:(discriminate) D) as (h1 & -> & D1 & Dm & F). rewrite bind_Ret.
  apply NoDup_app in ND as (N1 & Dj & [Ne N2]%NoDup_cons). assert (el ∉ xs1) as Ne1 by (intros I; apply (Dj el I); left).
  rewrite free_ok by (rewrite F by set_solver; done). rewrite bind_Ret.
  eexists _, _. split; [done|]. split; [split; simpl|split].
  - destruct D1 as [ND1 S1]. split; [done|]. apply dseg_dealloc_other; [set_solver|done].
  - rewrite E1. destruct xs1 as [|y ys]; simpl; [by rewrite decide_True|]. rewrite decide_False; [done|]. intros [= ->]. set_solver.
  - rewrite E2. destruct (list_snoc_cases xs2) as [->|(ys & y & ->)].
    + by rewrite last_snoc, decide_True, app_nil_r.
    + rewrite app_comm_cons, !app_assoc, !last_snoc. rewrite decide_False; [done|]. intros [= ->]. set_solver.
  - rewrite E3, u64_prev, !length_app. simpl. f_equal. lia.
  - intros y o Hy. rewrite dealloc_other by set_solver. apply F. set_solver.
  - intros x o. by rewrite dealloc_mem, <- elem_of_dom, Dm, elem_of_dom.
Qed.

Lemma free_from_rep fuel h xs p :
  (length xs <= fuel)%nat -> NoDup xs -> dseg EL_PREV EL_NEXT h p xs None ->
  exists h', free_from fuel h (list.head xs) = Ret (h', xs) /\ same_but h h' xs /\
    forall x o, is_Some (h' !! (x, o)) <-> is_Some (h !! (x, o)) /\ ~ (x ∈ xs /\ (o = EL_PREV \/ o = EL_NEXT)).
Proof.
  revert fuel h p. induction xs as [|x xs IH]; intros fuel h p Ln ND S.
  - exists h. split; [by destruct fuel|]. split; [done|set_solver].
  - destruct fuel as [|fuel]; [simpl in Ln; lia|]. simpl in *. destruct S as (E1 & E2 & S). rewrite hd_or_None in E2.
    apply NoDup_cons in ND as [Nx ND]. rewrite (load_Some _ _ _ _ E2), bind_Ret, free_ok, bind_Ret by eauto.
    destruct (IH fuel (dealloc EL_PREV EL_NEXT h x) (Some x)) as (h' & -> & F & M); [lia|done|by apply dseg_dealloc_other|].
    rewrite bind_Ret. eexists. split; [done|]. split.
    + intros y o Hy. rewrite F by set_solver. apply dealloc_other. set_solver.
    + intros y o. rewrite M, dealloc_mem. set_solver.
Qed.

Lemma list_at_length h l xs : list_at h l xs -> (length xs <= base.size h)%nat.
Proof. intros [[ND S] _ _ _]. apply (sseg_length EL_NEXT _ _ None); [done|]. by eapply dseg_sseg. Qed.

Lemma list_empty_at h l xs :
  list_at h l xs -> exists h', nchan_list_traverse_and_empty h l = Ret (h', NL None None 0, xs) /\
    nchan_list_empty h l = Ret (h', NL None None 0) /\ same_but h h' xs /\
    forall x o, is_Some (h' !! (x, o)) <-> is_Some (h !! (x, o)) /\ ~ (x ∈ xs /\ (o = EL_PREV \/ o = EL_NEXT)).
Proof.
  intros R. pose proof (list_at_length _ _ _ R) as Ln. destruct R as [[ND S] E1 E2 E3].
  destruct (free_from_rep _ h xs None Ln ND S) as (h' & E & F & M'). exists h'.
  unfold nchan_list_traverse_and_empty, nchan_list_empty. by rewrite E1, E.
Qed.

(** The memory of the list is its elements, and nothing else. *)
Record list_rep (h : mem) (l : nchan_list_t) (xs : list loc) : Prop := {
  nl_at : list_at h l xs;
  nl_mem : forall x o, is_Some (h !! (x, o)) <-> x ∈ xs /\ (o = EL_PREV \/ o = EL_NEXT);
}.

Lemma list_init_rep : list_rep ∅ nchan_list_init [].
Proof. split; [apply list_init_at|]. intros x o. rewrite lookup_empty. split; [by intros []|set_solver]. Qed.

Lemma list_append_rep h l xs new :
  list_rep h l xs -> new ∉ xs ->
  exists h' l', nchan_list_append_sized h l (Some new) = Ret (h', l', new) /\ list_rep h' l' (xs ++ [new]).
Proof.
  intros [A M] Nx. destruct (list_append_at h l xs new A Nx) as (h' & l' & E & A' & _ & D). exists h', l'. split; [done|]. split; [done|].
  intros x o. rewrite <- elem_of_dom, D, elem_of_dom, alloc_mem, M. set_solver.
Qed.

Lemma list_remove_rep h l xs1 el xs2 :
  list_rep h l (xs1 ++ el :: xs2) ->
  exists h' l', nchan_list_remove h l el = Ret (h', l') /\ list_rep h' l' (xs1 ++ xs2).
Proof.
  intros [A M]. destruct (list_remove_at h l xs1 el xs2 A) as (h' & l' & E & A' & _ & D). exists h', l'. split; [done|]. split; [done|].
  destruct A as [[(N1 & Dj & [Ne N2]%NoDup_cons)%NoDup_app _] _ _ _]. intros x o. rewrite D, M. set_solver.
Qed.

Lemma list_empty_rep h l xs :
  list_rep h l xs -> exists h', nchan_list_traverse_and_empty h l = Ret (h', NL None None 0, xs) /\
    nchan_list_empty h l = Ret (h', NL None None 0) /\ list_rep h' (NL None None 0) [].
Proof.
  intros [A M]. destruct (list_empty_at h l xs A) as (h' & E1 & E2 & _ & D). exists h'. split_and!; [done|done|].
  split; [apply list_init_at|]. intros x o. rewrite D, M. set_solver.
Qed.

(** ** Runs *)

Inductive list_op := LAppend (new : loc) | LRemove (el : loc) | LEmpty | LTraverse.

(** What the callback of a traversal is given. *)
Definition exec_list_op (h : mem) (l : nchan_list_t) (o : list_op) : outcome (mem * nchan_list_t * list loc) :=
  match o with
  | LAppend new => '(h, l, _) ← nchan_list_append_sized h l (Some new); Ret (h, l, [])
  | LRemove el => '(h, l) ← nchan_list_remove h l el; Ret (h, l, [])
  | LEmpty => '(h, l) ← nchan_list_empty h l; Ret (h, l, [])
  | LTraverse => nchan_list_traverse_and_empty h l
  end.
Fixpoint exec_list (h : mem) (l : nchan_list_t) (os : list list_op) : outcome (mem * nchan_list_t * list (list loc)) :=
  match os with
  | [] => Ret (h, l, [])
  | o :: os => '(h, l, xs) ← exec_list_op h l o; '(h, l, xss) ← exec_list h l os; Ret (h, l, xs :: xss)
  end.

Definition list_spec_op (xs : list loc) (o : list_op) : option (list loc * list loc) :=
  match o with
  | LAppend new => if decide (new ∈ xs) then None else Some (xs ++ [new], [])
  | LRemove el => if decide (el ∈ xs) then Some (filter (fun x => x <> el) xs, []) else None
  | LEmpty => Some ([], [])
  | LTraverse => Some ([], xs)
  end.
Fixpoint list_spec (xs : list loc) (os : list list_op) : option (list loc * list (list loc)) :=
  match os with
  | [] => Some (xs, [])
  | o :: os => '(xs, ys) ← list_spec_op xs o; '(xs, yss) ← list_spec xs os; Some (xs, ys :: yss)
  end.

Lemma filter_neq (xs1 xs2 : list loc) el : NoDup (xs1 ++ el :: xs2) -> filter (fun x => x <> el) (xs1 ++ el :: xs2) = xs1 ++ xs2.
Proof.
  intros (N1 & D & [Ne N2]%NoDup_cons)%NoDup_app. assert (el ∉ xs1) by (intros I; apply (D el I); left).
  assert (forall xs : list loc, el ∉ xs -> filter (fun x => x <> el) xs = xs) as F.
  { induction xs as [|x xs IH]; intros Nx; [done|]. rewrite filter_cons, decide_True by set_solver. f_equal. apply IH. set_solver. }
  by rewrite filter_app, filter_cons, decide_False, !F by tauto.
Qed.

Lemma list_op_spec h l xs o xs' ys :
  list_rep h l xs -> list_spec_op xs o = Some (xs', ys) -> exists h' l', exec_list_op h l o = Ret (h', l', ys) /\ list_rep h' l' xs'.
Proof.
  intros R E. destruct o as [new|el| |]; cbn [exec_list_op list_spec_op] in *.
  - case_decide as N; simplify_eq. destruct (list_append_rep h l xs new R N) as (h' & l' & -> & R'). simpl. eauto.
  - case_decide as I; simplify_eq. apply list_elem_of_split in I as (xs1 & xs2 & ->).
    destruct (list_remove_rep h l xs1 el xs2 R) as (h' & l' & -> & R'). simpl. rewrite filter_neq by apply R. eauto.
  - simplify_eq. destruct (list_empty_rep h l xs R) as (h' & _ & -> & R'). simpl. eauto.
  - simplify_eq. destruct (list_empty_rep h l _ R) as (h' & -> & _ & R'). eauto.
Qed.

(** Any appends, removals and traversals are those of a list, in the order of
    the appends; no element is used after it was freed or freed twice, and the
    memory that is left is the elements of the list, so that none leaks. *)
Theorem list_refines os xs yss :
  list_spec [] os = Some (xs, yss) ->
  exists h l, exec_list ∅ nchan_list_init os = Ret (h, l, yss) /\
    nchan_list_first l = list.head xs /\ nchan_list_last l = list.last xs /\ nchan_list_count l = u64 (Z.of_nat (length xs)) /\
    (forall x y, nchan_list_next h x = Ret y <-> exists xs1 xs2, xs = xs1 ++ x :: xs2 /\ y = list.head xs2) /\
    (forall x o, is_Some (h !! (x, o)) <-> x ∈ xs /\ (o = EL_PREV \/ o = EL_NEXT)).
Proof.
  intros E. assert (exists h l, exec_list ∅ nchan_list_init os = Ret (h, l, yss) /\ list_rep h l xs) as (h & l & -> & R).
  { revert E. generalize list_init_rep. generalize (∅ : mem) nchan_list_init (@nil loc). revert yss.
    induction os as [|o os IH]; intros yss h l ys R E; simpl in *; [simplify_eq; eauto|].
    destruct (list_spec_op ys o) as [[ys1 zs]|] eqn:E1; simplify_eq/=. destruct (list_spec ys1 os) as [[ys2 zss]|] eqn:E2; simplify_eq/=.
    destruct (list_op_spec h l ys o ys1 zs R E1) as (h1 & l1 & -> & R1). simpl.
    destruct (IH zss h1 l1 ys1 R1 E2) as (h2 & l2 & -> & R2). simpl. eauto. }
  destruct R as [[[ND S] E1 E2 E3] M]. exists h, l. split_and!; try done. intros x y. unfold nchan_list_next. split.
  - intros Ey. assert (x ∈ xs) as I. { unfold load in Ey. destruct (h !! (x, EL_NEXT)) eqn:El; [|done]. by apply (M x EL_NEXT). }
    apply list_elem_of_split in I as (xs1 & xs2 & ->). exists xs1, xs2. split; [done|].
    destruct (dseg_lookup _ _ _ _ _ _ _ _ S) as [_ L2]. rewrite (load_Some _ _ _ _ L2), hd_or_None in Ey. congruence.
  - intros (xs1 & xs2 & -> & ->). destruct (dseg_lookup _ _ _ _ _ _ _ _ S) as [_ L2]. by rewrite (load_Some _ _ _ _ L2), hd_or_None.
Qed.

Lemma list_refines_witness :
  exists h l, exec_list ∅ nchan_list_init [LAppend 1; LAppend 2; LAppend 3; LRemove 2; LTraverse; LAppend 2; LAppend 1; LRemove 2]%positive =
      Ret (h, l, [[]; []; []; []; [1; 3]; []; []; []]%positive) /\
    nchan_list_first l = Some 1%positive /\ nchan_list_last l = Some 1%positive /\ nchan_list_count l = 1 /\
    (forall x y, nchan_list_next h x = Ret y <-> exists xs1 xs2, [1%positive] = xs1 ++ x :: xs2 /\ y = list.head xs2) /\
    (forall x o, is_Some (h !! (x, o)) <-> x ∈ [1%positive] /\ (o = EL_PREV \/ o = EL_NEXT)).
Proof. apply (list_refines _ [1%positive]). vm_compute. reflexivity. Defined.

(** [nchan_list_prepend_sized] to an empty list sets the head twice and the tail
    never: an append that follows loses the element. *)
Lemma prepend_then_append_loses :
  exists h l h' l', nchan_list_prepend_sized ∅ nchan_list_init (Some 1%positive) = Ret (h, l, 1%positive) /\ tail l = None /\
    nchan_list_append_sized h l (Some 2%positive) = Ret (h', l', 2%positive) /\
    head l' = Some 1%positive /\ nchan_list_next h' 1 = Ret None /\ nchan_list_count l' = 2.
Proof.
  eexists _, _, _, _. split; [vm_compute; reflexivity|]. split; [vm_compute; reflexivity|]. split; [vm_compute; reflexivity|].
  split_and!; vm_compute; reflexivity.
Qed.
