(* ===== verification/TimeQueue.v ===== *)
(** * [util/nchan_timequeue.c]: when the commands in flight were sent

    A queue of times and tags in pages of an array each; pages that are used up
    wait in a list for the next time one is needed. *)

From S2P Require Import Prelude DList.

(** [nchan_timequeue_time_t]. *)
Record tq_item := Item { time_start : Z; tag : Z }.

(** [next] is in the memory of links; the array holds [items_per_page]. *)
Definition PAGE_NEXT : Z := 0.
Record nchan_timequeue_page_t := Page { start : Z; stop : Z (* end; both uint16_t *); data : gmap Z tq_item }.

Record nchan_timequeue_t := TQ { items_per_page : Z; anytag : Z; first : ptr; last : ptr; standby : ptr }.
Record tq_mem := TM { links : mem; pages : gmap loc nchan_timequeue_page_t }.

Definition u16w (z : Z) : Z := z mod 65536.
Definition get_page (m : tq_mem) (p : loc) : outcome nchan_timequeue_page_t :=
  match pages m !! p with Some pg => Ret pg | None => Crash end.
Definition set_page (m : tq_mem) (p : loc) (pg : nchan_timequeue_page_t) : tq_mem := TM (links m) (<[p := pg]> (pages m)).
Definition set_next (m : tq_mem) (p : loc) (q : ptr) : outcome tq_mem := h ← store (links m) p PAGE_NEXT q; Ret (TM h (pages m)).

Definition timequeue_page_reset (m : tq_mem) (p : loc) : outcome tq_mem :=
  m ← set_next m p None; pg ← get_page m p; Ret (set_page m p (Page 0 0 (data pg))).

(** [new]: what [ngx_alloc] returns. *)
Definition timequeue_page_alloc (m : tq_mem) (new : ptr) : outcome (tq_mem * ptr) :=
  match new with
  | None => Ret (m, None)
  | Some p =>
      let m := TM (<[(p, PAGE_NEXT) := None]> (links m)) (<[p := Page 0 0 ∅]> (pages m)) in
      m ← timequeue_page_reset m p; Ret (m, Some p)
  end.

Definition nchan_timequeue_init (m : tq_mem) (items any : Z) (new : ptr) : outcome (tq_mem * nchan_timequeue_t * Z) :=
  '(m, p) ← timequeue_page_alloc m new;
  match p with
  | None => Ret (m, TQ items any None None None, 0)
  | Some p => Ret (m, TQ items any (Some p) (Some p) None, 1)
  end.

Definition timequeue_page_enqueue (m : tq_mem) (pq : nchan_timequeue_t) (new : ptr) : outcome (tq_mem * nchan_timequeue_t * ptr) :=
  '(m, stb, p) ←
    match standby pq with
    | Some p => next ← load (links m) p PAGE_NEXT; Ret (m, next, Some p)
    | None => '(m, p) ← timequeue_page_alloc m new; Ret (m, None, p)
    end;
  match p with
  | None => Ret (m, pq, None)
  | Some p =>
      m ← match last pq with
          | Some l => m ← set_next m l (Some p); set_next m p None
          | None => Ret m
          end;
      Ret (m, TQ (items_per_page pq) (anytag pq) (match first pq with Some f => Some f | None => Some p end) (Some p) stb, Some p)
  end.

Definition timequeue_get_nonfull_page (m : tq_mem) (pq : nchan_timequeue_t) (new : ptr) : outcome (tq_mem * nchan_timequeue_t * ptr) :=
  match last pq with
  | None => Crash
  | Some l => pg ← get_page m l; if items_per_page pq <=? stop pg then timequeue_page_enqueue m pq new else Ret (m, pq, Some l)
  end.

(** Writing past the array aborts. *)
Definition nchan_timequeue_queue (m : tq_mem) (pq : nchan_timequeue_t) (tg now : Z) (new : ptr) : outcome (tq_mem * nchan_timequeue_t * Z) :=
  '(m, pq, p) ← timequeue_get_nonfull_page m pq new;
  match p with
  | None => Ret (m, pq, 0)
  | Some p =>
      pg ← get_page m p;
      c_assert (stop pg <? items_per_page pq);;
      Ret (set_page m p (Page (start pg) (u16w (stop pg + 1)) (<[stop pg := Item now tg]> (data pg))), pq, 1)
  end.

Definition nchan_timequeue_dequeue (m : tq_mem) (pq : nchan_timequeue_t) (expected_tag : Z) :
    outcome (tq_mem * nchan_timequeue_t * Z * tq_item) :=
  match first pq with
  | None => Ret (m, pq, 0, Item 0 (anytag pq))
  | Some p =>
      pg ← get_page m p;
      if (start pg =? stop pg) && (start pg =? 0) then Ret (m, pq, 0, Item 0 (anytag pq))
      else
        match data pg !! start pg with
        | None => Crash
        | Some x =>
            if negb (expected_tag =? tag x) && negb (expected_tag =? anytag pq) then Ret (m, pq, 0, x)
            else
              let pg := Page (u16w (start pg + 1)) (stop pg) (data pg) in
              let m := set_page m p pg in
              if stop pg <=? start pg then
                next ← load (links m) p PAGE_NEXT;
                if decide (last pq = Some p) then
                  c_assert (bool_decide (next = None));;
                  c_assert (bool_decide (first pq = Some p));;
                  m ← timequeue_page_reset m p; Ret (m, pq, 1, x)
                else
                  c_assert (bool_decide (next <> None));;
                  m ← timequeue_page_reset m p;
                  m ← set_next m p (standby pq);
                  Ret (m, TQ (items_per_page pq) (anytag pq) next (last pq) (Some p), 1, x)
              else Ret (m, pq, 1, x)
        end
  end.

(** What is freed: the pages in use and those in waiting. *)
Fixpoint pages_from (fuel : nat) (h : mem) (p : ptr) : outcome (list loc) :=
  match p with
  | None => Ret []
  | Some x =>
      match fuel with
      | O => NoFuel
      | S fuel => next ← load h x PAGE_NEXT; xs ← pages_from fuel h next; Ret (x :: xs)
      end
  end.
Definition nchan_timequeue_destroy (m : tq_mem) (pq : nchan_timequeue_t) : outcome (nchan_timequeue_t * list loc) :=
  xs ← pages_from (base.size (links m)) (links m) (first pq);
  ys ← pages_from (base.size (links m)) (links m) (standby pq);
  Ret (TQ (items_per_page pq) (anytag pq) None None None, xs ++ ys).

(** ** What a queue represents *)

Section rep.
Context (N : Z) (HN : 1 <= N <= 65535).

Definition slice (pg : nchan_timequeue_page_t) (q : list tq_item) : Prop :=
  0 <= start pg /\ stop pg = start pg + Z.of_nat (length q) /\ stop pg <= N /\
  forall i x, q !! i = Some x -> data pg !! (start pg + Z.of_nat i) = Some x.

(** A page that is not the last one is full; one that is not the first one has
    not been read from; only the first one may be empty, and then it is the only
    one. *)
Fixpoint hold (ps : gmap loc nchan_timequeue_page_t) (isfirst : bool) (xs : list loc) (q : list tq_item) : Prop :=
  match xs with
  | [] => False
  | x :: ys =>
      exists pg q1 q2, ps !! x = Some pg /\ slice pg q1 /\ q = q1 ++ q2 /\
        (isfirst = false -> start pg = 0 /\ q1 <> []) /\ (q1 = [] -> start pg = 0) /\
        match ys with
        | [] => q2 = []
        | _ => stop pg = N /\ q1 <> [] /\ hold ps false ys q2
        end
  end.

Record tq_rep (m : tq_mem) (pq : nchan_timequeue_t) (q : list tq_item) (xs ss : list loc) : Prop := {
  tr_nodup : NoDup (xs ++ ss);
  tr_pages : sseg PAGE_NEXT (links m) xs None;
  tr_standby : sseg PAGE_NEXT (links m) ss None;
  tr_hold : hold (pages m) true xs q;
  tr_reset : forall s, s ∈ ss -> exists d, pages m !! s = Some (Page 0 0 d);
  tr_first : first pq = head xs;
  tr_last : last pq = list.last xs;
  tr_sb : standby pq = head ss;
  tr_items : items_per_page pq = N;
  tr_all : forall x, x ∈ dom (pages m) -> x ∈ xs ++ ss;
}.

Lemma hold_frame ps ps' b xs q : (forall x, x ∈ xs -> ps' !! x = ps !! x) -> hold ps b xs q -> hold ps' b xs q.
Proof.
  revert b q. induction xs as [|x xs IH]; intros b q F; simpl; [done|].
  intros (pg & q1 & q2 & E1 & S & Eq & A & B & R). exists pg, q1, q2. split_and!; try done; [rewrite F by set_solver; done|].
  destruct xs; [done|]. destruct R as (R1 & R2 & R3). split_and!; try done. apply IH; [|done]. intros y Hy. apply F. set_solver.
Qed.

Lemma slice_nil pg : slice pg [] -> start pg = 0 -> stop pg = 0.
Proof. intros (_ & E & _) E0. simpl in E. lia. Qed.

(** The last page, and what it is to hold an item more. *)
Lemma hold_last ps b xs l q :
  NoDup (xs ++ [l]) -> hold ps b (xs ++ [l]) q ->
  exists pg, ps !! l = Some pg /\ 0 <= stop pg <= N /\
    (stop pg < N -> forall x, hold (<[l := Page (start pg) (stop pg + 1) (<[stop pg := x]> (data pg))]> ps) b (xs ++ [l]) (q ++ [x])) /\
    (stop pg = N -> forall n x d, n ∉ xs ++ [l] -> hold (<[n := Page 0 1 (<[0 := x]> d)]> ps) b (xs ++ [l; n]) (q ++ [x])).
Proof.
  revert b q. induction xs as [|y xs IH]; intros b q ND; simpl.
  - intros (pg & q1 & q2 & E1 & S & -> & A & B & ->). exists pg. pose proof S as (S1 & S2 & S3 & S4). split_and!; try done; [lia| |].
    + intros Lt x. eexists _, (q1 ++ [x]), []. rewrite lookup_insert_eq. split; [done|]. split; [|split_and!; simpl; try done; try (by rewrite !app_nil_r)].
      * unfold slice. simpl. rewrite length_app. simpl. split_and!; [done|lia|lia|]. intros i z Hi.
        apply lookup_app_Some in Hi as [Hi|[Hi Hz]].
        -- rewrite lookup_insert_ne; [by apply S4|]. apply lookup_lt_Some in Hi. lia.
        -- apply list_lookup_singleton_Some in Hz as [Hz <-]. replace (start pg + Z.of_nat i) with (stop pg) by lia. by rewrite lookup_insert_eq.
      * intros Eb. destruct (A Eb) as [-> _]. split; [done|]. by destruct q1.
      * by destruct q1.
    + intros Eq n x d Nn. assert (q1 <> []) as Nq. { intros ->. pose proof (slice_nil pg S (B eq_refl)). lia. }
      exists pg, q1, [x]. rewrite lookup_insert_ne by set_solver. rewrite app_nil_r. split_and!; try done.
      eexists _, [x], []. rewrite lookup_insert_eq. split; [done|]. split; [|by split_and!].
      unfold slice. simpl. split_and!; [lia|lia|lia|]. intros i z Hi. apply list_lookup_singleton_Some in Hi as [-> <-]. by rewrite lookup_insert_eq.
  - intros (pg & q1 & q2 & E1 & S & -> & A & B & R). simpl in ND. apply NoDup_cons in ND as [Ny ND].
    assert (exists z zs, xs ++ [l] = z :: zs) as (z & zs & Ez) by (destruct xs; simpl; eauto).
    rewrite Ez in R. destruct R as (R1 & R2 & R3). rewrite <- Ez in R3. destruct (IH false q2 ND R3) as (pl & El & Bl & H1 & H2). exists pl.
    split_and!; [done|lia|lia| |].
    + intros Lt x. exists pg, q1, (q2 ++ [x]). rewrite lookup_insert_ne by set_solver. split_and!; try done; [by rewrite app_assoc|].
      rewrite Ez. split_and!; try done. rewrite <- Ez. by apply H1.
    + intros Eq n x d Nn. exists pg, q1, (q2 ++ [x]). rewrite lookup_insert_ne by set_solver. split_and!; try done; [by rewrite app_assoc|].
      assert (exists w ws, xs ++ [l; n] = w :: ws) as (w & ws & Ew) by (destruct xs; simpl; eauto).
      rewrite Ew. split_and!; try done. rewrite <- Ew. apply H2; [done|]. set_solver.
Qed.

Ltac in_pages A :=
  let x := fresh in let Hx := fresh in
  intros x Hx; rewrite dom_insert_L in Hx; apply elem_of_union in Hx as [->%elem_of_singleton|Hx]; [set_solver|specialize (A x Hx); set_solver].

Lemma get_page_Some m p pg : pages m !! p = Some pg -> get_page m p = Ret pg.
Proof. unfold get_page. by intros ->. Qed.

Lemma set_next_ok m p q : is_Some (links m !! (p, PAGE_NEXT)) -> set_next m p q = Ret (TM (<[(p, PAGE_NEXT) := q]> (links m)) (pages m)).
Proof. intros L. unfold set_next. by rewrite store_live. Qed.

Lemma reset_ok m p pg : is_Some (links m !! (p, PAGE_NEXT)) -> pages m !! p = Some pg ->
  timequeue_page_reset m p = Ret (TM (<[(p, PAGE_NEXT) := None]> (links m)) (<[p := Page 0 0 (data pg)]> (pages m))).
Proof. intros L E. unfold timequeue_page_reset. rewrite set_next_ok by done. rewrite bind_Ret. unfold get_page. simpl. by rewrite E. Qed.

Lemma alloc_ok m p :
  timequeue_page_alloc m (Some p) = Ret (TM (<[(p, PAGE_NEXT) := None]> (links m)) (<[p := Page 0 0 ∅]> (pages m)), Some p).
Proof.
  unfold timequeue_page_alloc. erewrite reset_ok; simpl; [|rewrite lookup_insert_eq; eauto|by rewrite lookup_insert_eq].
  simpl. by rewrite !insert_insert_eq.
Qed.

(** A page from those in waiting, or a new one, at the end. *)
Lemma page_enqueue_ok m pq q xs ss p :
  tq_rep m pq q xs ss -> p ∉ xs ++ ss ->
  exists m' n d ss', timequeue_page_enqueue m pq (Some p) =
      Ret (m', TQ (items_per_page pq) (anytag pq) (first pq) (Some n) (head ss'), Some n) /\
    n ∉ xs /\ NoDup ((xs ++ [n]) ++ ss') /\ sseg PAGE_NEXT (links m') (xs ++ [n]) None /\ sseg PAGE_NEXT (links m') ss' None /\
    pages m' !! n = Some (Page 0 0 d) /\ (forall x, x <> n -> pages m' !! x = pages m !! x) /\ (forall s, s ∈ ss' -> s ∈ ss) /\
    (forall x, x ∈ dom (pages m') -> x ∈ (xs ++ [n]) ++ ss').
Proof.
  intros [ND Sp Ss H Rs F Lt Sb It All] Np. unfold timequeue_page_enqueue.
  set (n := match ss with s :: _ => s | [] => p end).
  set (m1 := match ss with _ :: _ => m | [] => TM (<[(p, PAGE_NEXT) := None]> (links m)) (<[p := Page 0 0 ∅]> (pages m)) end).
  assert (match standby pq with
    | Some p => next ← load (links m) p PAGE_NEXT; Ret (m, next, Some p)
    | None => '(m, p) ← timequeue_page_alloc m (Some p); Ret (m, None, p)
    end = Ret (m1, head (tail ss), Some n)) as ->.
  { rewrite Sb. subst n m1. destruct ss as [|s ss]; [by rewrite alloc_ok|]. simpl in Ss. destruct Ss as [Es _]. simpl.
    by rewrite (load_Some _ _ _ _ Es), bind_Ret, hd_or_None. }
  rewrite bind_Ret. assert (n ∉ xs /\ NoDup ((xs ++ [n]) ++ tail ss)) as [Nn ND'].
  { subst n. destruct ss as [|s ss]; simpl in *.
    - rewrite !app_nil_r in *. split; [done|]. apply NoDup_app. split_and!; [done|set_solver|apply NoDup_singleton].
    - split; [|by rewrite <- app_assoc]. apply NoDup_app in ND as (_ & D & _). intros I. apply (D _ I). left. }
  assert (sseg PAGE_NEXT (links m1) xs None /\ sseg PAGE_NEXT (links m1) (tail ss) None /\ is_Some (links m1 !! (n, PAGE_NEXT)) /\
    (exists d, pages m1 !! n = Some (Page 0 0 d)) /\ (forall x, x <> n -> pages m1 !! x = pages m !! x)) as (Sp1 & Ss1 & Ln & [d Ed] & Fp).
  { subst m1 n. destruct ss as [|s ss]; simpl in *.
    - rewrite !lookup_insert_eq. split_and!; try done; [apply sseg_insert_other; [set_solver|done]|eauto|].
      intros x Nx. by rewrite lookup_insert_ne.
    - destruct Ss as [Es Ss]. split_and!; try done. apply Rs. left. }
  destruct (list_snoc_cases xs) as [->|(ys & l & ->)]; [done|]. rewrite Lt, last_snoc.
  assert (l <> n) as Nl by set_solver.
  rewrite set_next_ok by (eapply sseg_live; [apply Sp1|set_solver]). rewrite bind_Ret.
  rewrite set_next_ok by (simpl; rewrite lookup_insert_ne by congruence; done). rewrite bind_Ret. simpl.
  eexists _, n, d, (tail ss). split; [rewrite F; by destruct ys|]. split_and!; try done; simpl.
  - apply sseg_app. simpl. rewrite lookup_insert_eq. split; [|done]. apply sseg_insert_other; [done|].
    apply (sseg_set_end _ _ _ _ None); [|done]. rewrite <- app_assoc in ND. apply NoDup_app in ND as (? & D & ?).
    apply NoDup_app. split_and!; [done|set_solver|apply NoDup_singleton].
  - apply sseg_insert_other; [|apply sseg_insert_other; [|done]]; intros I; exfalso; rewrite <- app_assoc in ND'; apply NoDup_app in ND' as (_ & D & ND').
    + apply NoDup_cons in ND' as [Nt _]. done.
    + apply (D l); set_solver.
  - intros s Hs. by destruct ss; [|right].
  - intros x Hx. subst n m1. destruct ss as [|s ss]; simpl in *; [|specialize (All x Hx); set_solver].
    rewrite dom_insert_L in Hx. apply elem_of_union in Hx as [->%elem_of_singleton|Hx]; [set_solver|]. specialize (All x Hx). set_solver.
Qed.

Lemma tq_queue_ok m pq q xs ss tg now p :
  tq_rep m pq q xs ss -> p ∉ xs ++ ss ->
  exists m' pq' xs' ss', nchan_timequeue_queue m pq tg now (Some p) = Ret (m', pq', 1) /\
    tq_rep m' pq' (q ++ [Item now tg]) xs' ss' /\ anytag pq' = anytag pq.
Proof.
  intros R Np. pose proof R as [ND Sp Ss H Rs F Lt Sb It All]. unfold nchan_timequeue_queue, timequeue_get_nonfull_page.
  destruct (list_snoc_cases xs) as [->|(ys & l & ->)]; [done|]. rewrite Lt, last_snoc.
  assert (NoDup (ys ++ [l])) as NDx by (apply NoDup_app in ND; tauto).
  destruct (hold_last _ _ _ _ _ NDx H) as (pg & El & Bl & H1 & H2). rewrite (get_page_Some _ _ _ El), bind_Ret, It.
  destruct (Z.leb_spec N (stop pg)).
  - destruct (page_enqueue_ok m pq q _ _ p R Np) as (m' & n & d & ss' & -> & Nn & ND' & Sp' & Ss' & En & Fp & Sub & All').
    rewrite bind_Ret. cbn beta iota. rewrite (get_page_Some _ _ _ En), bind_Ret. rewrite It, c_assert_bind by (simpl; lia).
    eexists _, _, _, ss'. split; [done|]. split; [|done]. split; simpl; try done.
    + rewrite <- app_assoc. eapply hold_frame; [|apply (H2 ltac:(lia) n (Item now tg) d Nn)]. intros x Hx.
      destruct (decide (x = n)) as [->|]; [by rewrite !lookup_insert_eq|]. rewrite !lookup_insert_ne by done. by apply Fp.
    + intros s Hs. assert (s <> n). { intros ->. rewrite <- app_assoc in ND'. apply NoDup_app in ND' as (_ & _ & ND').  simpl in ND'. apply NoDup_cons in ND' as [? _]. done. }
      rewrite lookup_insert_ne by done. rewrite Fp by done. by apply Rs, Sub.
    + rewrite F. by destruct ys.
    + by rewrite last_snoc.
    + in_pages All'.
  - rewrite bind_Ret. cbn beta iota. rewrite (get_page_Some _ _ _ El), bind_Ret, It, c_assert_bind by lia.
    eexists _, _, _, ss. split; [done|]. split; [|done]. split; simpl; try done.
    + unfold u16w. rewrite Z.mod_small by lia. by apply H1.
    + intros s Hs. rewrite lookup_insert_ne; [by apply Rs|]. intros <-. apply NoDup_app in ND as (_ & D & _). apply (D l); set_solver.
    + in_pages All.
Qed.

(** No memory and no page in waiting: nothing changes. *)
Lemma tq_queue_full m pq q xs tg now :
  tq_rep m pq q xs [] -> exists m' pq' rc xs', nchan_timequeue_queue m pq tg now None = Ret (m', pq', rc) /\ anytag pq' = anytag pq /\
    (rc = 0 /\ tq_rep m' pq' q xs [] /\ xs' = xs \/ rc = 1 /\ tq_rep m' pq' (q ++ [Item now tg]) xs' []).
Proof.
  intros R. pose proof R as [ND Sp Ss H Rs F Lt Sb It All]. unfold nchan_timequeue_queue, timequeue_get_nonfull_page.
  destruct (list_snoc_cases xs) as [->|(ys & l & ->)]; [done|]. rewrite Lt, last_snoc.
  assert (NoDup (ys ++ [l])) as NDx by (apply NoDup_app in ND; tauto).
  destruct (hold_last _ _ _ _ _ NDx H) as (pg & El & Bl & H1 & H2). rewrite (get_page_Some _ _ _ El), bind_Ret, It.
  destruct (Z.leb_spec N (stop pg)).
  - unfold timequeue_page_enqueue. rewrite Sb. simpl. eexists _, _, 0, _. split; [done|]. split; [done|]. by left.
  - rewrite bind_Ret. cbn beta iota. rewrite (get_page_Some _ _ _ El), bind_Ret, It, c_assert_bind by lia.
    eexists _, _, 1, _. split; [done|]. split; [done|]. right. split; [done|]. split; simpl; try done.
    + unfold u16w. rewrite Z.mod_small by lia. by apply H1.
    + set_solver.
    + in_pages All.
Qed.

Lemma tq_dequeue_ok m pq q xs ss expected :
  tq_rep m pq q xs ss ->
  match q with
  | [] => nchan_timequeue_dequeue m pq expected = Ret (m, pq, 0, Item 0 (anytag pq))
  | x :: q' =>
      if negb (expected =? tag x) && negb (expected =? anytag pq) then nchan_timequeue_dequeue m pq expected = Ret (m, pq, 0, x)
      else exists m' pq' xs' ss', nchan_timequeue_dequeue m pq expected = Ret (m', pq', 1, x) /\ tq_rep m' pq' q' xs' ss' /\ anytag pq' = anytag pq
  end.
Proof.
  intros [ND Sp Ss H Rs F Lt Sb It All]. unfold nchan_timequeue_dequeue. destruct xs as [|p xs]; [done|]. rewrite F. cbn [head].
  simpl in H. destruct H as (pg & q1 & q2 & Ep & Sl & -> & _ & Ze & Rest). rewrite (get_page_Some _ _ _ Ep), bind_Ret.
  pose proof Sl as (S1 & S2 & S3 & S4). destruct q1 as [|x q1].
  - assert (start pg = 0) as E0 by auto. pose proof (slice_nil pg Sl E0) as E1. rewrite E0, E1. simpl.
    assert (q2 = []) as ->; [|done]. destruct xs; [done|]. by destruct Rest as (_ & ? & _).
  - simpl in S2. replace ((start pg =? stop pg) && (start pg =? 0)) with false by lia.
    pose proof (S4 0%nat x eq_refl) as Ex. rewrite Z.add_0_r in Ex. rewrite Ex. simpl.
    destruct (negb (expected =? tag x) && negb (expected =? anytag pq)); [done|].
    unfold u16w. rewrite Z.mod_small by lia.
    assert (forall i z, q1 !! i = Some z -> data pg !! (start pg + 1 + Z.of_nat i) = Some z) as S4'.
    { intros i z Hi. specialize (S4 (S i) z Hi). replace (start pg + 1 + Z.of_nat i) with (start pg + Z.of_nat (S i)) by lia. done. }
    destruct (Z.leb_spec (stop pg) (start pg + 1)).
    + assert (q1 = []) as -> by (destruct q1; [done|simpl in S2; lia]). simpl. simpl in Sp. destruct Sp as [Epn Sp].
      rewrite (load_Some _ _ _ _ Epn), bind_Ret, hd_or_None.
      destruct xs as [|y ys].
      * simpl in Rest. subst q2. rewrite Lt. simpl. rewrite decide_True, !c_assert_bind by (done || by rewrite bool_decide_eq_true_2).
        erewrite reset_ok; simpl; [|by eauto|by rewrite lookup_insert_eq]. rewrite insert_insert_eq.
        eexists _, _, [p], ss. split; [done|]. split; [|done]. split; simpl; try done.
        -- by rewrite lookup_insert_eq.
        -- apply sseg_insert_other; [|done]. intros I. exfalso. simpl in ND. apply NoDup_cons in ND as [? _]. done.
        -- eexists _, [], []. rewrite lookup_insert_eq. split; [done|]. split_and!; try done. unfold slice. simpl. split_and!; done || lia.
        -- intros s Hs. rewrite lookup_insert_ne; [by apply Rs|]. intros <-. simpl in ND. apply NoDup_cons in ND as [? _]. done.
        -- in_pages All.
      * destruct Rest as (R1 & R2 & R3). simpl in ND. apply NoDup_cons in ND as [Np ND].
        assert (list.last (p :: y :: ys) <> Some p) as Nl.
        { rewrite last_cons_cons. intros El%last_elem. apply Np. set_solver. }
        rewrite Lt, decide_False, c_assert_bind by (done || by rewrite bool_decide_eq_true_2).
        erewrite reset_ok; simpl; [|by eauto|by rewrite lookup_insert_eq]. rewrite set_next_ok by (simpl; rewrite lookup_insert_eq; eauto).
        rewrite bind_Ret. simpl. rewrite !insert_insert_eq.
        eexists _, _, (y :: ys), (p :: ss). split; [done|]. split; [|done]. split; simpl; try done.
        -- change (NoDup ((y :: ys) ++ p :: ss)). rewrite <- Permutation_middle. by constructor.
        -- destruct Sp as [E1 Sp]. apply not_elem_of_cons in Np as [Npy Np]. rewrite lookup_insert_ne by congruence. split; [done|].
           apply sseg_insert_other; [|done]. intros I. exfalso. apply Np. set_solver.
        -- rewrite lookup_insert_eq, hd_or_None, Sb. split; [done|]. apply sseg_insert_other; [|done]. intros I. exfalso. apply Np. set_solver.
        -- apply (hold_frame (pages m) _ true (y :: ys)); [intros z Hz; rewrite lookup_insert_ne; [done|]; intros <-; apply Np; set_solver|].
           destruct R3 as (pg' & r1 & r2 & A1 & A2 & A3 & A4 & A5 & A6). exists pg', r1, r2. split_and!; try done.
        -- intros s [->|Hs]%elem_of_cons; [rewrite lookup_insert_eq; eauto|]. rewrite lookup_insert_ne; [by apply Rs|]. intros <-. apply Np. set_solver.
        -- in_pages All.
    + eexists _, _, (p :: xs), ss. split; [done|]. split; [|done]. split; simpl; try done.
      * eexists _, q1, q2. rewrite lookup_insert_eq. split; [done|]. split; [unfold slice; simpl; split_and!; [lia|lia|lia|done]|].
        split; [done|]. split; [done|]. split; [intros ->; simpl in S2; lia|].
        destruct xs as [|y ys]; [done|]. destruct Rest as (R1 & R2 & R3). split; [done|]. split; [intros ->; simpl in S2; lia|].
        eapply hold_frame, R3. intros z Hz. rewrite lookup_insert_ne; [done|]. intros <-. simpl in ND. apply NoDup_cons in ND as [Np _]. apply Np. set_solver.
      * intros s Hs. rewrite lookup_insert_ne; [by apply Rs|]. intros <-. simpl in ND. apply NoDup_cons in ND as [Np _]. apply Np. set_solver.
      * in_pages All.
Qed.

Lemma pages_from_ok fuel h xs : (length xs <= fuel)%nat -> sseg PAGE_NEXT h xs None -> pages_from fuel h (head xs) = Ret xs.
Proof.
  revert fuel. induction xs as [|x xs IH]; intros fuel L S; simpl; [by destruct fuel|]. destruct fuel as [|fuel]; [simpl in L; lia|].
  destruct S as [E S]. simpl. rewrite (load_Some _ _ _ _ E), bind_Ret, hd_or_None, IH; [done|simpl in L; lia|done].
Qed.

Lemma tq_destroy_ok m pq q xs ss :
  tq_rep m pq q xs ss -> nchan_timequeue_destroy m pq = Ret (TQ (items_per_page pq) (anytag pq) None None None, xs ++ ss).
Proof.
  intros [ND Sp Ss H Rs F Lt Sb It All]. unfold nchan_timequeue_destroy. rewrite F, Sb. apply NoDup_app in ND as (N1 & _ & N2).
  rewrite (pages_from_ok _ _ xs) by eauto using sseg_length. simpl. by rewrite (pages_from_ok _ _ ss) by eauto using sseg_length.
Qed.

Lemma tq_init_ok links any p : exists m' pq, nchan_timequeue_init (TM links ∅) N any (Some p) = Ret (m', pq, 1) /\ tq_rep m' pq [] [p] [] /\ anytag pq = any.
Proof.
  unfold nchan_timequeue_init. rewrite alloc_ok. simpl. eexists _, _. split; [done|]. split; [|done]. split; simpl; try done.
  - by apply NoDup_singleton.
  - by rewrite lookup_insert_eq.
  - eexists _, [], []. rewrite lookup_insert_eq. split; [done|]. unfold slice. simpl. split_and!; try done; lia.
  - set_solver.
  - intros x Hx. set_solver.
Qed.
End rep.

(** ** Runs *)

Inductive tq_op := Sent (tg now : Z) | Answered (expected : Z).

(** The pages that exist are numbered: what is allocated is new. *)
Definition fresh_page (m : tq_mem) : loc := fresh (dom (pages m)).

(** What each operation returns. *)
Definition exec_tq_op (m : tq_mem) (pq : nchan_timequeue_t) (o : tq_op) : outcome (tq_mem * nchan_timequeue_t * (Z * option tq_item)) :=
  match o with
  | Sent tg now => '(m, pq, rc) ← nchan_timequeue_queue m pq tg now (Some (fresh_page m)); Ret (m, pq, (rc, None))
  | Answered e => '(m, pq, rc, x) ← nchan_timequeue_dequeue m pq e; Ret (m, pq, (rc, Some x))
  end.
Fixpoint exec_tq (m : tq_mem) (pq : nchan_timequeue_t) (os : list tq_op) : outcome (tq_mem * nchan_timequeue_t * list (Z * option tq_item)) :=
  match os with
  | [] => Ret (m, pq, [])
  | o :: os => '(m, pq, r) ← exec_tq_op m pq o; '(m, pq, rs) ← exec_tq m pq os; Ret (m, pq, r :: rs)
  end.

(** A queue; the head leaves it when its tag is the one expected, or any is. *)
Definition tq_spec_op (any : Z) (q : list tq_item) (o : tq_op) : list tq_item * (Z * option tq_item) :=
  match o with
  | Sent tg now => (q ++ [Item now tg], (1, None))
  | Answered e =>
      match q with
      | [] => ([], (0, Some (Item 0 any)))
      | x :: q' => if (e =? tag x) || (e =? any) then (q', (1, Some x)) else (q, (0, Some x))
      end
  end.
Fixpoint tq_spec (any : Z) (q : list tq_item) (os : list tq_op) : list tq_item * list (Z * option tq_item) :=
  match os with
  | [] => (q, [])
  | o :: os => let '(q, r) := tq_spec_op any q o in let '(q, rs) := tq_spec any q os in (q, r :: rs)
  end.

Lemma tq_pages_known N m pq q xs ss x : tq_rep N m pq q xs ss -> x ∈ xs ++ ss -> x ∈ dom (pages m).
Proof.
  intros [ND Sp Ss H Rs F Lt Sb It All] [Hx|Hx]%elem_of_app.
  - clear -H Hx. revert q H. generalize true. induction xs as [|y xs IH]; intros b q H; [set_solver|].
    simpl in H. destruct H as (pg & q1 & q2 & E & _ & _ & _ & _ & R). apply elem_of_cons in Hx as [->|Hx]; [apply elem_of_dom; eauto|].
    destruct xs as [|z zs]; [set_solver|]. destruct R as (_ & _ & R). by eapply IH.
  - destruct (Rs x Hx) as [d E]. apply elem_of_dom. eauto.
Qed.

Lemma exec_tq_ok items any os q m pq xs ss :
  1 <= items <= 65535 -> anytag pq = any -> tq_rep items m pq q xs ss ->
  exists m' pq' xs' ss', exec_tq m pq os = Ret (m', pq', (tq_spec any q os).2) /\ tq_rep items m' pq' (tq_spec any q os).1 xs' ss'.
Proof.
  intros HN. revert q m pq xs ss. induction os as [|o os IH]; intros q m pq xs ss A R; [simpl; eauto 10|].
  assert (exists m1 pq1 xs1 ss1, exec_tq_op m pq o = Ret (m1, pq1, (tq_spec_op any q o).2) /\
    tq_rep items m1 pq1 (tq_spec_op any q o).1 xs1 ss1 /\ anytag pq1 = any) as (m1 & pq1 & xs1 & ss1 & E1 & R1 & A1).
  { destruct o as [tg now|e]; unfold exec_tq_op.
    - destruct (tq_queue_ok items HN m pq q xs ss tg now (fresh_page m) R) as (m1 & pq1 & xs1 & ss1 & -> & R1 & A1).
      { intros I. apply (is_fresh (dom (pages m))). by eapply tq_pages_known. }
      rewrite bind_Ret. simpl. eexists _, _, _, _. split_and!; [done|done|congruence].
    - pose proof (tq_dequeue_ok items HN m pq q xs ss e R) as D. simpl. rewrite A in D. destruct q as [|x q].
      + rewrite D. simpl. eexists _, _, _, _; split_and!; [done|done|congruence].
      + rewrite <- negb_orb in D. destruct ((e =? tag x) || (e =? any)); simpl in D.
        * destruct D as (m1 & pq1 & xs1 & ss1 & -> & R1 & A1). simpl. eexists _, _, _, _; split_and!; [done|done|congruence].
        * rewrite D. simpl. eexists _, _, _, _; split_and!; [done|done|congruence]. }
  cbn [exec_tq tq_spec]. rewrite E1, bind_Ret. destruct (tq_spec_op any q o) as [q1 r]. simpl in *.
  destruct (IH q1 m1 pq1 xs1 ss1 A1 R1) as (m2 & pq2 & xs2 & ss2 & E2 & R2). rewrite E2. simpl.
  destruct (tq_spec any q1 os) as [q2 rs]. simpl in *. eauto 10.
Qed.

(** C40. Whatever is sent and answered, with pages of 1 to 65535 entries: what is
    returned is what a queue of times and tags returns, whatever the size of the
    pages; no entry is lost or read twice at the turn of a page, nothing is
    written past a page, no assertion fails, and destroying the queue frees every
    page that was made, once. *)
Theorem timequeue_refines items any os p0 :
  1 <= items <= 65535 ->
  exists m0 pq0 m pq, nchan_timequeue_init (TM ∅ ∅) items any (Some p0) = Ret (m0, pq0, 1) /\
    exec_tq m0 pq0 os = Ret (m, pq, (tq_spec any [] os).2) /\
    exists pq' xs, nchan_timequeue_destroy m pq = Ret (pq', xs) /\ NoDup xs /\ forall x, x ∈ xs <-> x ∈ dom (pages m).
Proof.
  intros HN. destruct (tq_init_ok items HN ∅ any p0) as (m0 & pq0 & E & R & A). exists m0, pq0.
  destruct (exec_tq_ok items any os [] m0 pq0 _ _ HN A R) as (m & pq & xs & ss & Ex & R'). exists m, pq. split_and!; [done|done|].
  eexists _, _. split; [by eapply tq_destroy_ok|]. split; [apply R'|]. intros x. split; [by eapply tq_pages_known|apply R'].
Qed.

(** Pages of two entries: three commands, answers to two of them, another, and
    the rest of the answers. *)
Lemma timequeue_refines_witness :
  exists m0 pq0 m pq, nchan_timequeue_init (TM ∅ ∅) 2 (-1) (Some 1%positive) = Ret (m0, pq0, 1) /\
    exec_tq m0 pq0 [Sent 5 100; Sent 6 101; Sent 5 102; Answered 5; Answered 7; Answered (-1); Sent 8 103; Answered 5; Answered 8; Answered 8] =
      Ret (m, pq, [(1, None); (1, None); (1, None); (1, Some (Item 100 5)); (0, Some (Item 101 6)); (1, Some (Item 101 6));
        (1, None); (1, Some (Item 102 5)); (1, Some (Item 103 8)); (0, Some (Item 0 (-1)))]) /\
    exists pq' xs, nchan_timequeue_destroy m pq = Ret (pq', xs) /\ NoDup xs /\ forall x, x ∈ xs <-> x ∈ dom (pages m).
Proof. apply (timequeue_refines 2 (-1)). lia. Defined.

(** With 65536 entries to a page or more, the index of the last one starts over
    while the page is not taken for full: all that was in flight is forgotten. *)
Theorem timequeue_index_wraps :
  forall m pq p d, first pq = Some p -> last pq = Some p -> items_per_page pq = 65536 ->
    pages m !! p = Some (Page 0 65535 d) -> exists m' pq', nchan_timequeue_queue m pq 1 100 None = Ret (m', pq', 1) /\
    nchan_timequeue_dequeue m' pq' (anytag pq') = Ret (m', pq', 0, Item 0 (anytag pq')).
Proof.
  intros m pq p d F L It E. unfold nchan_timequeue_queue, timequeue_get_nonfull_page. rewrite L, (get_page_Some _ _ _ E), bind_Ret, It. simpl.
  rewrite (get_page_Some _ _ _ E), bind_Ret, It, c_assert_bind by done.
  eexists _, _. split; [done|]. unfold nchan_timequeue_dequeue. rewrite F. unfold get_page. simpl. by rewrite lookup_insert_eq.
Qed.
