(* ===== verification/ThingCache.v ===== *)
(** * [util/nchan_thingcache.c]: things that are kept for a while

    Things are found by their id in a hash and are in a list in the order in
    which they were made; a timer destroys those whose time has come.  Its one
    user is the cache of file descriptors of [util/nchan_output.c]. *)

From S2P Require Import Prelude DList Nginx.

Definition LL_PREV : Z := 0.
Definition LL_NEXT : Z := 8.

(** [thing_t]; the links are in the memory of links. *)
Record thing_t := Thing { thing_id : bytes; thing_data : Z; thing_time : Z }.

(** [gc_timer]: whether the timer is set. *)
Record nchan_thing_cache_t := TC { ttl : Z; things : gmap bytes loc; thing_head : ptr; thing_tail : ptr; gc_timer : bool }.
Record tc_mem := TM { links : mem; objs : gmap loc thing_t }.

Definition get_thing (m : tc_mem) (x : loc) : outcome thing_t :=
  match objs m !! x with Some t => Ret t | None => Crash end.
Definition with_links (m : tc_mem) (h : mem) : tc_mem := TM h (objs m).
Definition free_thing (m : tc_mem) (x : loc) : tc_mem := TM (dealloc LL_PREV LL_NEXT (links m) x) (delete x (objs m)).

Definition nchan_thingcache_init (t : Z) : nchan_thing_cache_t := TC t ∅ None None false.

Definition enqueue_llist_thing (m : tc_mem) (tc : nchan_thing_cache_t) (cur : loc) (now : Z) : outcome (tc_mem * nchan_thing_cache_t) :=
  h ← match thing_head tc with None => store (links m) cur LL_PREV None | Some _ => Ret (links m) end;
  h ← match thing_tail tc with Some t => store h t LL_NEXT (Some cur) | None => Ret h end;
  h ← store h cur LL_PREV (thing_tail tc);
  h ← store h cur LL_NEXT None;
  t ← get_thing m cur;
  Ret (TM h (<[cur := Thing (thing_id t) (thing_data t) (now + ttl tc)]> (objs m)),
       TC (ttl tc) (things tc) (match thing_head tc with None => Some cur | Some x => Some x end) (Some cur) true).

Definition nchan_thingcache_find (m : tc_mem) (tc : nchan_thing_cache_t) (id : bytes) : outcome (option Z) :=
  match things tc !! id with
  | Some x => t ← get_thing m x; Ret (Some (thing_data t))
  | None => Ret None
  end.

(** [new]: what [ngx_alloc] returns; [created]: what [tc->create] returns. *)
Definition nchan_thingcache_get (m : tc_mem) (tc : nchan_thing_cache_t) (id : bytes) (now : Z) (new : ptr) (created : Z) :
    outcome (tc_mem * nchan_thing_cache_t * option Z) :=
  match things tc !! id with
  | Some x => t ← get_thing m x; Ret (m, tc, Some (thing_data t))
  | None =>
      match new with
      | None => Ret (m, tc, None)
      | Some x =>
          let m := TM (alloc LL_PREV LL_NEXT (links m) x None None) (<[x := Thing id created 0]> (objs m)) in
          '(m, tc) ← enqueue_llist_thing m tc x now;
          Ret (m, TC (ttl tc) (<[id := x]> (things tc)) (thing_head tc) (thing_tail tc) (gc_timer tc), Some created)
      end
  end.

Section gc.
(** What [tc->destroy] returns: whether the thing is gone. *)
Context (destroy : bytes -> Z -> bool).

(** What is destroyed, in order. *)
Fixpoint gc_loop (fuel : nat) (m : tc_mem) (tc : nchan_thing_cache_t) (cur : ptr) (now : Z) : outcome (tc_mem * nchan_thing_cache_t * list (bytes * Z)) :=
  match cur with
  | None => Ret (m, tc, [])
  | Some x =>
      match fuel with
      | O => NoFuel
      | S fuel =>
          next ← load (links m) x LL_NEXT;
          t ← get_thing m x;
          if thing_time t <=? now then
            p ← load (links m) x LL_PREV;
            h ← unlink LL_PREV LL_NEXT (links m) p next;
            let m := with_links m h in
            '(m, tc) ←
              (if destroy (thing_id t) (thing_data t) then
                 n ← load h x LL_NEXT;
                 p ← load h x LL_PREV;
                 Ret (free_thing m x,
                      TC (ttl tc) (delete (thing_id t) (things tc))
                        (if decide (thing_head tc = Some x) then n else thing_head tc)
                        (if decide (thing_tail tc = Some x) then p else thing_tail tc) (gc_timer tc))
               else enqueue_llist_thing m tc x now);
            '(m, tc, ds) ← gc_loop fuel m tc next now;
            Ret (m, tc, (thing_id t, thing_data t) :: ds)
          else Ret (m, tc, [])
      end
  end.

(** nginx has cleared the timer when it calls its handler. *)
Definition nchan_thingcache_gc_timer_handler (m : tc_mem) (tc : nchan_thing_cache_t) (now : Z) : outcome (tc_mem * nchan_thing_cache_t * list (bytes * Z)) :=
  let tc := TC (ttl tc) (things tc) (thing_head tc) (thing_tail tc) false in
  '(m, tc, ds) ← gc_loop (base.size (links m)) m tc (thing_head tc) now;
  Ret (m, match thing_head tc with Some _ => TC (ttl tc) (things tc) (thing_head tc) (thing_tail tc) true | None => tc end, ds).
End gc.

Fixpoint shutdown_loop (fuel : nat) (m : tc_mem) (tc : nchan_thing_cache_t) (cur : ptr) : outcome (tc_mem * nchan_thing_cache_t * list (bytes * Z)) :=
  match cur with
  | None => Ret (m, tc, [])
  | Some x =>
      match fuel with
      | O => NoFuel
      | S fuel =>
          next ← load (links m) x LL_NEXT;
          t ← get_thing m x;
          '(m, tc, ds) ← shutdown_loop fuel (free_thing m x) (TC (ttl tc) (delete (thing_id t) (things tc)) (thing_head tc) (thing_tail tc) (gc_timer tc)) next;
          Ret (m, tc, (thing_id t, thing_data t) :: ds)
      end
  end.
Definition nchan_thingcache_shutdown (m : tc_mem) (tc : nchan_thing_cache_t) : outcome (tc_mem * list (bytes * Z)) :=
  '(m, _, ds) ← shutdown_loop (base.size (links m)) m tc (thing_head tc);
  Ret (m, ds).

(** ** File descriptors *)

Definition NGX_INVALID_FILE : Z := -1.

(** [filename->data] as a C string. *)
Fixpoint c_string (s : bytes) : bytes :=
  match s with [] => [] | c :: s => if decide (c = 0) then [] else c :: c_string s end.

(** [after]: the byte in memory after the name, which is read. [open]: what
    [ngx_open_file] returns. *)
Definition fd_open (name : bytes) (after : Z) (open : bytes -> Z) : Z :=
  if (after =? 0) || match last name with Some c => c =? 0 | None => false end then open (c_string name)
  else if Z.of_nat (length name) <? 512 then open (c_string name)
  else NGX_INVALID_FILE.
Definition fd_close (_ : bytes) (_ : Z) : bool := true.
Definition nchan_output_init : nchan_thing_cache_t := nchan_thingcache_init 5.
Definition nchan_fdcache_get (m : tc_mem) (tc : nchan_thing_cache_t) (name : bytes) (after now : Z) (new : ptr) (open : bytes -> Z) :
    outcome (tc_mem * nchan_thing_cache_t * Z) :=
  '(m, tc, r) ← nchan_thingcache_get m tc name now new (fd_open name after open);
  Ret (m, tc, match r with Some fd => fd | None => 0 end).   (* NULL, as a file descriptor *)

(** ** What a cache represents *)

Record cache_rep (m : tc_mem) (tc : nchan_thing_cache_t) (es : list (loc * thing_t)) : Prop := {
  cr_list : dlist LL_PREV LL_NEXT (links m) es.*1;
  cr_objs : forall x, objs m !! x = (list_to_map es : gmap loc thing_t) !! x;
  cr_ids : NoDup (thing_id <$> es.*2);
  cr_hash : things tc = list_to_map ((fun e => (thing_id e.2, e.1)) <$> es);
  cr_head : thing_head tc = head es.*1;
  cr_tail : thing_tail tc = last es.*1;
  cr_mem : forall x o, is_Some (links m !! (x, o)) <-> x ∈ es.*1 /\ (o = LL_PREV \/ o = LL_NEXT);
}.

Lemma cache_init_rep t : cache_rep (TM ∅ ∅) (nchan_thingcache_init t) [].
Proof. split; simpl; try done; [split; [constructor|done]|constructor|]. intros x o. rewrite lookup_empty. split; [by intros []|set_solver]. Qed.

(** The things whose time has come, at the front, and the others. *)
Fixpoint split_due (now : Z) (es : list (loc * thing_t)) : list (loc * thing_t) * list (loc * thing_t) :=
  match es with
  | [] => ([], [])
  | e :: es' => if thing_time e.2 <=? now then let '(ds, rs) := split_due now es' in (e :: ds, rs) else ([], es)
  end.

Definition entry (e : loc * thing_t) : bytes * Z := (thing_id e.2, thing_data e.2).

Lemma cache_nodup m tc es : cache_rep m tc es -> NoDup es.*1.
Proof. intros R. apply (cr_list _ _ _ R). Qed.

Lemma cache_obj m tc es x t : cache_rep m tc es -> (x, t) ∈ es -> objs m !! x = Some t.
Proof. intros R I. rewrite (cr_objs _ _ _ R). apply elem_of_list_to_map; [by eapply cache_nodup|done]. Qed.

Lemma cache_hash m tc es id x : cache_rep m tc es -> things tc !! id = Some x <-> exists t, (x, t) ∈ es /\ thing_id t = id.
Proof.
  intros R. rewrite (cr_hash _ _ _ R). split.
  - intros H%elem_of_list_to_map_2. apply list_elem_of_fmap in H as ([y t] & [= -> ->] & I). eauto.
  - intros (t & I & <-). apply elem_of_list_to_map; [|apply list_elem_of_fmap; by exists (x, t)].
    rewrite <- list_fmap_compose. pose proof (cr_ids _ _ _ R) as ND. by rewrite <- list_fmap_compose in ND.
Qed.

(** A new thing, at the end. *)
Lemma cache_add_rep m tc es id now x created :
  cache_rep m tc es -> x ∉ es.*1 -> id ∉ (thing_id <$> es.*2) ->
  exists m' tc', nchan_thingcache_get m tc id now (Some x) created = Ret (m', tc', Some created) /\
    cache_rep m' tc' (es ++ [(x, Thing id created (now + ttl tc))]) /\ ttl tc' = ttl tc /\ gc_timer tc' = true.
Proof.
  intros R Nx Ni. pose proof R as [[ND S] Eo Ei Eh H1 H2 M]. unfold nchan_thingcache_get.
  destruct (things tc !! id) as [y|] eqn:Ey.
  { exfalso. apply (cache_hash _ _ _ _ _ R) in Ey as (t & I & <-). apply Ni, list_elem_of_fmap. exists t. split; [done|]. apply list_elem_of_fmap. by exists (y, t). }
  unfold enqueue_llist_thing. cbn [links objs]. set (h0 := alloc LL_PREV LL_NEXT (links m) x None None).
  assert (forall y o, is_Some (h0 !! (y, o)) <-> y ∈ es.*1 ++ [x] /\ (o = LL_PREV \/ o = LL_NEXT)) as M0.
  { intros y o. subst h0. rewrite alloc_mem, M, elem_of_app, list_elem_of_singleton. tauto. }
  set (h1 := match thing_head tc with None => <[(x, LL_PREV) := None]> h0 | Some _ => h0 end).
  assert (dom h1 = dom h0) as D1 by (subst h1; destruct (thing_head tc); [done|]; apply dom_insert_lookup_L, M0; set_solver).
  assert (match thing_head tc with None => store h0 x LL_PREV None | Some _ => Ret h0 end = Ret h1) as ->.
  { subst h1. destruct (thing_head tc); [done|]. apply store_live, M0. set_solver. }
  assert (forall t, thing_tail tc = Some t -> t ∈ es.*1) as Ht by (intros t Et; apply last_elem; congruence).
  set (h2 := match thing_tail tc with Some t => <[(t, LL_NEXT) := Some x]> h1 | None => h1 end).
  assert (forall y o, is_Some (h1 !! (y, o)) <-> y ∈ es.*1 ++ [x] /\ (o = LL_PREV \/ o = LL_NEXT)) as M1.
  { intros y o. rewrite <- M0, <- !elem_of_dom. by rewrite D1. }
  rewrite bind_Ret. assert (match thing_tail tc with Some t => store h1 t LL_NEXT (Some x) | None => Ret h1 end = Ret h2) as ->.
  { subst h2. destruct (thing_tail tc) as [t|]; [|done]. apply store_live, M1. specialize (Ht t eq_refl). set_solver. }
  assert (dom h2 = dom h1) as D2.
  { subst h2. destruct (thing_tail tc) as [t|]; [|done]. apply dom_insert_lookup_L, M1. specialize (Ht t eq_refl). set_solver. }
  assert (forall y o, is_Some (h2 !! (y, o)) <-> y ∈ es.*1 ++ [x] /\ (o = LL_PREV \/ o = LL_NEXT)) as M2.
  { intros y o. rewrite <- M1, <- !elem_of_dom. by rewrite D2. }
  rewrite bind_Ret, store_live by (apply M2; set_solver). rewrite bind_Ret.
  rewrite store_live by (apply lookup_insert_is_Some'; right; apply M2; set_solver). rewrite bind_Ret.
  unfold get_thing. cbn [objs]. rewrite lookup_insert_eq, bind_Ret, bind_Ret. cbn [thing_id thing_data].
  eexists _, _. split; [done|]. split; [|done]. split; simpl.
  - rewrite fmap_app. simpl. apply (dlist_snoc LL_PREV LL_NEXT ltac:(discriminate) (links m)); try done.
    + rewrite lookup_insert_ne by discriminate. by rewrite lookup_insert_eq, H2.
    + by rewrite lookup_insert_eq.
    + intros y Hy. assert (y <> x) by (intros ->; apply Nx, last_elem; done).
      rewrite !lookup_insert_ne by congruence. subst h2. by rewrite H2, Hy, lookup_insert_eq.
    + intros y o Ny No. rewrite !lookup_insert_ne by congruence. subst h2 h1 h0. rewrite H2. unfold alloc.
      destruct (last es.*1) as [t|] eqn:Et; [rewrite lookup_insert_ne by (intros [= <- <-]; by apply No)|];
        destruct (thing_head tc); by rewrite !lookup_insert_ne by congruence.
  - intros y. rewrite insert_insert_eq. destruct (decide (y = x)) as [->|].
    + rewrite lookup_insert_eq. symmetry. apply elem_of_list_to_map; [|set_solver]. rewrite fmap_app. apply NoDup_app.
      split_and!; [done|set_solver|apply NoDup_singleton].
    + rewrite lookup_insert_ne, Eo by done. rewrite list_to_map_app. rewrite lookup_union_l; [done|]. simpl. by rewrite lookup_insert_ne.
  - rewrite fmap_app, fmap_app. simpl. apply NoDup_app. split_and!; [done| |apply NoDup_singleton]. intros i Hi ->%list_elem_of_singleton. done.
  - rewrite Eh, fmap_app, list_to_map_app. simpl. rewrite insert_empty. rewrite map_union_comm; [by rewrite <- insert_union_singleton_l|].
    apply map_disjoint_singleton_r. rewrite <- Eh. done.
  - rewrite H1, fmap_app. by destruct es.
  - rewrite fmap_app. simpl. by rewrite last_snoc.
  - intros y o. rewrite !lookup_insert_is_Some', M2, fmap_app. split; [|tauto]. intros [[= <- <-]|[[= <- <-]|?]]; set_solver.
Qed.

(** The one in front is taken out. *)
Lemma cache_pop m tc x t es :
  cache_rep m tc ((x, t) :: es) ->
  exists h, unlink LL_PREV LL_NEXT (links m) None (head es.*1) = Ret h /\ h !! (x, LL_NEXT) = Some (head es.*1) /\ h !! (x, LL_PREV) = Some None /\
    cache_rep (free_thing (with_links m h) x)
      (TC (ttl tc) (delete (thing_id t) (things tc)) (head es.*1) (if decide (thing_tail tc = Some x) then None else thing_tail tc) (gc_timer tc)) es.
Proof.
  intros R. pose proof R as [D Eo Ei Eh H1 H2 M]. simpl in D. pose proof D as [[Nx ND]%NoDup_cons (E1 & E2 & S)]. rewrite hd_or_None in E2.
  destruct (unlink_spec LL_PREV LL_NEXT (links m) [] x es.*1 ltac:(discriminate) D) as (h & Eu & [ND' S'] & Dm & F).
  exists h. split; [exact Eu|]. simpl in *. rewrite !F by done. split_and!; [done|done|]. unfold free_thing, with_links. split; simpl.
  - split; [done|]. by apply dseg_dealloc_other.
  - intros y. destruct (decide (y = x)) as [->|].
    + rewrite lookup_delete_eq. symmetry. by apply not_elem_of_list_to_map.
    + rewrite lookup_delete_ne, Eo by done. simpl. by rewrite lookup_insert_ne.
  - simpl in Ei. apply NoDup_cons in Ei. tauto.
  - rewrite Eh. simpl. rewrite delete_insert_id; [done|]. apply not_elem_of_list_to_map_1. rewrite <- list_fmap_compose.
    simpl in Ei. apply NoDup_cons in Ei as [Ni _]. by rewrite <- list_fmap_compose in Ni.
  - done.
  - rewrite H2. destruct (list_snoc_cases es) as [->|(es' & [y u] & ->)]; [by rewrite decide_True|].
    change (((x, t) :: es' ++ [(y, u)]).*1) with (x :: (es' ++ [(y, u)]).*1). rewrite fmap_app in Nx |- *. change ([(y, u)].*1) with [y] in *.
    rewrite app_comm_cons, !last_snoc, decide_False; [rewrite fmap_app; simpl; by rewrite last_snoc|]. intros [= ->]. apply Nx. set_solver.
  - intros y o. rewrite dealloc_mem, <- elem_of_dom, Dm, elem_of_dom, M. set_solver.
Qed.

Section always.
Context (destroy : bytes -> Z -> bool) (Hd : forall i d, destroy i d = true).

Lemma gc_loop_rep fuel m tc es now :
  (length es <= fuel)%nat -> cache_rep m tc es ->
  exists m' tc', gc_loop destroy fuel m tc (head es.*1) now = Ret (m', tc', entry <$> (split_due now es).1) /\
    cache_rep m' tc' (split_due now es).2 /\ ttl tc' = ttl tc /\ gc_timer tc' = gc_timer tc.
Proof.
  revert fuel m tc. induction es as [|[x t] es IH]; intros fuel m tc Ln R; [exists m, tc; by destruct fuel|].
  destruct fuel as [|fuel]; [simpl in Ln; lia|]. pose proof R as [[ND S] _ _ _ H1 _ _].
  change (((x, t) :: es).*1) with (x :: es.*1) in *. destruct S as (E1 & E2 & _).
  rewrite hd_or_None in E2. cbn [head gc_loop split_due snd]. rewrite (load_Some _ _ _ _ E2), bind_Ret.
  unfold get_thing. rewrite (cache_obj m tc ((x, t) :: es) x t R) by left. rewrite bind_Ret.
  destruct (thing_time t <=? now); [|exists m, tc; by split_and!]. rewrite (load_Some _ _ _ _ E1), bind_Ret.
  destruct (cache_pop _ _ _ _ _ R) as (h & Eu & L1 & L2 & R'). rewrite Eu, bind_Ret, Hd.
  rewrite (load_Some _ _ _ _ L1), bind_Ret, (load_Some _ _ _ _ L2), !bind_Ret, H1. simpl. rewrite decide_True by done.
  destruct (IH fuel _ _ ltac:(simpl in Ln; lia) R') as (m' & tc' & -> & R2 & T2 & G2). simpl. destruct (split_due now es) as [ds rs]. simpl in *.
  eexists _, _. split_and!; done.
Qed.

Lemma cache_size m tc es : cache_rep m tc es -> (length es <= base.size (links m))%nat.
Proof.
  intros R. destruct (cr_list _ _ _ R) as [ND S]. rewrite <- (length_fmap fst). apply (sseg_length LL_NEXT _ _ None); [done|]. by eapply dseg_sseg.
Qed.

Lemma cache_timer m tc es b : cache_rep m tc es -> cache_rep m (TC (ttl tc) (things tc) (thing_head tc) (thing_tail tc) b) es.
Proof. by intros []. Qed.

Lemma cache_gc_rep m tc es now :
  cache_rep m tc es ->
  exists m' tc', nchan_thingcache_gc_timer_handler destroy m tc now = Ret (m', tc', entry <$> (split_due now es).1) /\
    cache_rep m' tc' (split_due now es).2 /\ ttl tc' = ttl tc /\
    gc_timer tc' = match (split_due now es).2 with [] => false | _ => true end.
Proof.
  intros R. unfold nchan_thingcache_gc_timer_handler. apply (cache_timer _ _ _ false) in R. pose proof (cr_head _ _ _ R) as H1. simpl in H1.
  cbn [thing_head]. rewrite H1.
  destruct (gc_loop_rep (base.size (links m)) m _ es now (cache_size _ _ _ R) R) as (m' & tc' & E & R' & T & G). rewrite <- H1 in E |- *. rewrite E, bind_Ret. simpl in T, G.
  pose proof (cr_head _ _ _ R') as H2. destruct (split_due now es) as [ds [|[y u] rs]]; simpl in *; rewrite H2; eexists _, _; split_and!; try done.
  rewrite <- H2. by apply cache_timer.
Qed.
End always.

Lemma shutdown_loop_rep fuel m tc es :
  (length es <= fuel)%nat -> NoDup es.*1 -> sseg LL_NEXT (links m) es.*1 None -> (forall x t, (x, t) ∈ es -> objs m !! x = Some t) ->
  exists m' tc', shutdown_loop fuel m tc (head es.*1) = Ret (m', tc', entry <$> es) /\
    (forall x o, is_Some (links m' !! (x, o)) <-> is_Some (links m !! (x, o)) /\ ~ (x ∈ es.*1 /\ (o = LL_PREV \/ o = LL_NEXT))) /\
    (forall x, x ∈ dom (objs m') <-> x ∈ dom (objs m) /\ x ∉ es.*1).
Proof.
  revert fuel m tc. induction es as [|[x t] es IH]; intros fuel m tc Ln ND S O.
  - exists m, tc. split; [by destruct fuel|]. set_solver.
  - destruct fuel as [|fuel]; [simpl in Ln; lia|]. simpl in Ln. change (((x, t) :: es).*1) with (x :: es.*1) in *. destruct S as [E S].
    rewrite hd_or_None in E. cbn [head shutdown_loop].
    apply NoDup_cons in ND as [Nx ND]. rewrite (load_Some _ _ _ _ E), bind_Ret. unfold get_thing. rewrite (O x t) by left. rewrite bind_Ret.
    destruct (IH fuel (free_thing m x) (TC (ttl tc) (delete (thing_id t) (things tc)) (thing_head tc) (thing_tail tc) (gc_timer tc)))
      as (m' & tc' & -> & M & D); [lia|done| | |].
    + eapply sseg_frame, S. intros y Hy. simpl. unfold dealloc. assert (y <> x) by congruence. by rewrite !lookup_delete_ne by congruence.
    + intros y u I. simpl. rewrite lookup_delete_ne; [apply O; by right|]. intros <-. apply Nx, list_elem_of_fmap. by exists (x, u).
    + rewrite bind_Ret. eexists _, _. split; [done|]. split.
      * intros y o. rewrite M. simpl. rewrite dealloc_mem. set_solver.
      * intros y. rewrite D. simpl. rewrite dom_delete_L. set_solver.
Qed.

(** ** Runs *)

Inductive tc_op := TGet (id : bytes) (now created : Z) | TFind (id : bytes) | TGc (now : Z).

(** What is returned, what was made, what was destroyed. *)
Record tc_out := TcOut { returned : option Z; made : list (bytes * Z); destroyed : list (bytes * Z) }.

Definition exec_tc_op (m : tc_mem) (tc : nchan_thing_cache_t) (o : tc_op) : outcome (tc_mem * nchan_thing_cache_t * tc_out) :=
  match o with
  | TGet id now created =>
      '(m', tc', r) ← nchan_thingcache_get m tc id now (Some (fresh (dom (objs m)))) created;
      Ret (m', tc', TcOut r (match things tc !! id with None => [(id, created)] | Some _ => [] end) [])
  | TFind id => r ← nchan_thingcache_find m tc id; Ret (m, tc, TcOut r [] [])
  | TGc now => '(m, tc, ds) ← nchan_thingcache_gc_timer_handler fd_close m tc now; Ret (m, tc, TcOut None [] ds)
  end.
Fixpoint exec_tc (m : tc_mem) (tc : nchan_thing_cache_t) (os : list tc_op) : outcome (tc_mem * nchan_thing_cache_t * list tc_out) :=
  match os with
  | [] => Ret (m, tc, [])
  | o :: os => '(m, tc, r) ← exec_tc_op m tc o; '(m, tc, rs) ← exec_tc m tc os; Ret (m, tc, r :: rs)
  end.

(** The things in the order they were made; those whose time has come are in
    front. *)
Fixpoint find_id (id : bytes) (ts : list thing_t) : option thing_t :=
  match ts with [] => None | t :: ts => if decide (thing_id t = id) then Some t else find_id id ts end.
Fixpoint due (now : Z) (ts : list thing_t) : list thing_t * list thing_t :=
  match ts with
  | [] => ([], [])
  | t :: ts' => if thing_time t <=? now then let '(ds, rs) := due now ts' in (t :: ds, rs) else ([], ts)
  end.
Definition pair_of (t : thing_t) : bytes * Z := (thing_id t, thing_data t).
Definition tc_spec_op (life : Z) (ts : list thing_t) (o : tc_op) : list thing_t * tc_out :=
  match o with
  | TGet id now created =>
      match find_id id ts with
      | Some t => (ts, TcOut (Some (thing_data t)) [] [])
      | None => (ts ++ [Thing id created (now + life)], TcOut (Some created) [(id, created)] [])
      end
  | TFind id => (ts, TcOut (thing_data <$> find_id id ts) [] [])
  | TGc now => let '(ds, rs) := due now ts in (rs, TcOut None [] (pair_of <$> ds))
  end.
Fixpoint tc_spec (life : Z) (ts : list thing_t) (os : list tc_op) : list thing_t * list tc_out :=
  match os with
  | [] => (ts, [])
  | o :: os => let '(ts, r) := tc_spec_op life ts o in let '(ts, rs) := tc_spec life ts os in (ts, r :: rs)
  end.

Lemma due_split now es : due now es.*2 = ((split_due now es).1.*2, (split_due now es).2.*2).
Proof.
  induction es as [|[x t] es IH]; [done|]. change (((x, t) :: es).*2) with (t :: es.*2). cbn [due split_due snd].
  destruct (thing_time t <=? now); [|done]. rewrite IH. by destruct (split_due now es).
Qed.

Lemma find_id_hash m tc es id : cache_rep m tc es ->
  match find_id id es.*2 with
  | Some t => exists x, things tc !! id = Some x /\ objs m !! x = Some t
  | None => things tc !! id = None
  end.
Proof.
  intros R. assert (match find_id id es.*2 with Some t => exists x, (x, t) ∈ es /\ thing_id t = id | None => id ∉ (thing_id <$> es.*2) end) as F.
  { clear R. induction es as [|[x t] es IH]; [set_solver|]. change (((x, t) :: es).*2) with (t :: es.*2). cbn [find_id].
    case_decide as E; [exists x; set_solver|].
    destruct (find_id id es.*2); [destruct IH as (y & ? & ?); exists y; set_solver|]. rewrite fmap_cons. set_solver. }
  destruct (find_id id es.*2) as [t|].
  - destruct F as (x & I & E). exists x. split; [|by eapply cache_obj]. apply (cache_hash _ _ _ _ _ R). eauto.
  - destruct (things tc !! id) as [x|] eqn:E; [|done]. apply (cache_hash _ _ _ _ _ R) in E as (t & I & <-). exfalso. apply F.
    apply list_elem_of_fmap. exists t. split; [done|]. apply list_elem_of_fmap. by exists (x, t).
Qed.

Definition timer_ok (tc : nchan_thing_cache_t) (ts : list thing_t) : Prop := gc_timer tc = match ts with [] => false | _ => true end.

Lemma tc_op_ok m tc es o :
  cache_rep m tc es -> timer_ok tc es.*2 ->
  exists m' tc' es', exec_tc_op m tc o = Ret (m', tc', (tc_spec_op (ttl tc) es.*2 o).2) /\ cache_rep m' tc' es' /\
    es'.*2 = (tc_spec_op (ttl tc) es.*2 o).1 /\ ttl tc' = ttl tc /\ timer_ok tc' es'.*2.
Proof.
  intros R T. destruct o as [id now created|id|now]; simpl.
  - pose proof (find_id_hash m tc es id R) as F. destruct (find_id id es.*2) as [t|] eqn:Ef.
    + destruct F as (x & Ex & Eo). unfold nchan_thingcache_get. rewrite Ex. unfold get_thing. rewrite Eo. simpl. by eexists _, _, es.
    + destruct (cache_add_rep m tc es id now (fresh (dom (objs m))) created R) as (m' & tc' & -> & R' & T' & G').
      * intros I. apply (is_fresh (dom (objs m))), elem_of_dom. rewrite (cr_objs _ _ _ R). apply list_elem_of_fmap in I as ([x t] & -> & I).
        exists t. simpl. apply elem_of_list_to_map; [by eapply cache_nodup|done].
      * intros I. apply list_elem_of_fmap in I as (t & -> & I). apply list_elem_of_fmap in I as ([x t'] & -> & I).
        assert (things tc !! thing_id t' = Some x) by (apply (cache_hash _ _ _ _ _ R); eauto). simpl in F. congruence.
      * rewrite bind_Ret, F. simpl. eexists _, _, _. split; [done|]. split; [done|]. rewrite fmap_app. split_and!; [done|done|].
        unfold timer_ok. rewrite G'. by destruct (es.*2).
  - pose proof (find_id_hash m tc es id R) as F. unfold nchan_thingcache_find. destruct (find_id id es.*2) as [t|] eqn:Ef.
    + destruct F as (x & Ex & Eo). rewrite Ex. unfold get_thing. rewrite Eo. simpl. by eexists _, _, es.
    + rewrite F. simpl. by eexists _, _, es.
  - destruct (cache_gc_rep fd_close (fun _ _ => eq_refl) m tc es now R) as (m' & tc' & -> & R' & T' & G'). rewrite bind_Ret, due_split. simpl.
    eexists _, _, _. split; [do 2 f_equal; by rewrite <- list_fmap_compose|]. split_and!; [done|done|done|]. unfold timer_ok. rewrite G'. by destruct (split_due now es).2.
Qed.

Lemma exec_tc_ok m tc es os :
  cache_rep m tc es -> timer_ok tc es.*2 ->
  exists m' tc' es', exec_tc m tc os = Ret (m', tc', (tc_spec (ttl tc) es.*2 os).2) /\ cache_rep m' tc' es' /\
    es'.*2 = (tc_spec (ttl tc) es.*2 os).1 /\ timer_ok tc' es'.*2.
Proof.
  revert m tc es. induction os as [|o os IH]; intros m tc es R T; [simpl; by eexists _, _, es|].
  destruct (tc_op_ok m tc es o R T) as (m1 & tc1 & es1 & E1 & R1 & Es1 & T1 & G1). cbn [exec_tc tc_spec]. rewrite E1, bind_Ret.
  destruct (IH m1 tc1 es1 R1 G1) as (m2 & tc2 & es2 & -> & R2 & Es2 & G2). rewrite Es1, T1 in *.
  destruct (tc_spec_op (ttl tc) es.*2 o) as [ts1 r1]. simpl in *. destruct (tc_spec (ttl tc) ts1 os) as [ts2 rs]. simpl in *. eauto 10.
Qed.

Lemma due_pairs now ts :
  let '(rs, r) := let '(ds, rs) := due now ts in (rs, TcOut None [] (pair_of <$> ds)) in
  (pair_of <$> ts) ++ made r = destroyed r ++ (pair_of <$> rs).
Proof.
  assert (pair_of <$> ts = (pair_of <$> (due now ts).1) ++ (pair_of <$> (due now ts).2)) as E.
  { induction ts as [|t ts IH]; [done|]. cbn [due]. destruct (thing_time t <=? now); [|done]. destruct (due now ts) as [ds rs]. cbn in *. by rewrite IH. }
  destruct (due now ts) as [ds rs]. simpl in *. by rewrite app_nil_r.
Qed.

(** What is made and is not there any more was destroyed, in the same order. *)
Lemma spec_conserves life ts os :
  (pair_of <$> ts) ++ concat (made <$> (tc_spec life ts os).2) =
  concat (destroyed <$> (tc_spec life ts os).2) ++ (pair_of <$> (tc_spec life ts os).1).
Proof.
  revert ts. induction os as [|o os IH]; intros ts; [by rewrite app_nil_r|]. cbn [tc_spec].
  assert ((pair_of <$> ts) ++ made (tc_spec_op life ts o).2 = destroyed (tc_spec_op life ts o).2 ++ (pair_of <$> (tc_spec_op life ts o).1)) as E.
  { destruct o as [id now created|id|now]; simpl.
    - destruct (find_id id ts); simpl; [by rewrite app_nil_r|]. by rewrite fmap_app.
    - by rewrite app_nil_r.
    - pose proof (due_pairs now ts) as D. by destruct (due now ts). }
  destruct (tc_spec_op life ts o) as [ts1 r1]. specialize (IH ts1). cbn [fst snd] in *. destruct (tc_spec life ts1 os) as [ts2 rs]. cbn [fst snd] in *.
  rewrite !fmap_cons. cbn [concat]. by rewrite app_assoc, E, <- app_assoc, IH, app_assoc.
Qed.

(** The cache of file descriptors: a get returns the thing of that id if there
    is one and makes one otherwise, the timer destroys those whose time has come;
    it runs as long as there is anything in the cache.  Everything that was made
    is destroyed exactly once, in the order it was made, by the timer or at the
    end, when no memory is left. *)
Theorem thingcache_refines life os :
  exists m tc, exec_tc (TM ∅ ∅) (nchan_thingcache_init life) os = Ret (m, tc, (tc_spec life [] os).2) /\
    gc_timer tc = match (tc_spec life [] os).1 with [] => false | _ => true end /\
    exists m' ds, nchan_thingcache_shutdown m tc = Ret (m', ds) /\
      concat (made <$> (tc_spec life [] os).2) = concat (destroyed <$> (tc_spec life [] os).2) ++ ds /\
      links m' = ∅ /\ objs m' = ∅.
Proof.
  destruct (exec_tc_ok (TM ∅ ∅) (nchan_thingcache_init life) [] os (cache_init_rep life) eq_refl) as (m & tc & es & E & R & Es & T).
  simpl in *. exists m, tc. split; [done|]. split; [by rewrite <- Es|]. unfold nchan_thingcache_shutdown. rewrite (cr_head _ _ _ R).
  destruct (shutdown_loop_rep (base.size (links m)) m tc es) as (m' & tc' & -> & M & D).
  - by eapply cache_size. - by eapply cache_nodup. - eapply dseg_sseg, (cr_list _ _ _ R). - intros x t. by eapply cache_obj.
  - rewrite bind_Ret. eexists _, _. split; [done|]. split_and!.
    + pose proof (spec_conserves life [] os) as C. simpl in C. rewrite C, <- Es. f_equal. by rewrite <- list_fmap_compose.
    + apply map_eq. intros [x o]. rewrite lookup_empty. apply eq_None_not_Some. rewrite M, (cr_mem _ _ _ R). tauto.
    + apply map_eq. intros x. rewrite lookup_empty. apply eq_None_not_Some. rewrite <- elem_of_dom, D. intros [I Nx]. apply Nx.
      apply elem_of_dom in I as [t I]. rewrite (cr_objs _ _ _ R) in I. apply elem_of_list_to_map_2 in I. apply list_elem_of_fmap. by exists (x, t).
Qed.

(** A descriptor is closed when its time has come, a second after it was given
    out too: what is still pending with it must be told the new one
    ([nchan_bufchain_pool_refresh_files]); the file that [nchan_respond_msg]
    allocates is told nothing. *)
Lemma descriptor_closed_in_use :
  exists m tc, exec_tc (TM ∅ ∅) nchan_output_init [TGet [47] 100 7; TGet [47] 104 9; TGc 105] =
    Ret (m, tc, [TcOut (Some 7) [([47], 7)] []; TcOut (Some 7) [] []; TcOut None [] [([47], 7)]]).
Proof. eexists _, _. vm_compute. reflexivity. Qed.

(** A file that could not be opened is not tried again for as long; and when there
    is no memory, the answer is descriptor 0. *)
Lemma failure_is_kept after open now :
  (forall s, open s = NGX_INVALID_FILE) ->
  exists m tc, nchan_fdcache_get (TM ∅ ∅) nchan_output_init [47] after now (Some 1%positive) open = Ret (m, tc, NGX_INVALID_FILE) /\
    forall open', nchan_fdcache_get m tc [47] after (now + 4) None open' = Ret (m, tc, NGX_INVALID_FILE).
Proof.
  intros E. unfold nchan_fdcache_get.
  assert (fd_open [47] after open = NGX_INVALID_FILE) as -> by (unfold fd_open; rewrite !E; by repeat case_match).
  destruct (cache_add_rep (TM ∅ ∅) nchan_output_init [] [47] now 1 NGX_INVALID_FILE (cache_init_rep 5)) as (m & tc & -> & R & _ & _);
    [set_solver|set_solver|].
  exists m, tc. split; [done|]. intros open'. unfold nchan_thingcache_get.
  pose proof (find_id_hash _ _ _ [47] R) as F. cbn in F. destruct F as (x & Ex & Eo). rewrite Ex. unfold get_thing. rewrite Eo. done.
Qed.

Lemma no_memory_is_descriptor_0 name after now open :
  nchan_fdcache_get (TM ∅ ∅) nchan_output_init name after now None open = Ret (TM ∅ ∅, nchan_output_init, 0).
Proof. done. Qed.

(** A thing whose time is extended is put at the end of the list, but the head
    stays on it: those that were behind it are not found from the head again. *)
Lemma extended_thing_loses_the_others :
  exists m tc m' tc', exec_tc (TM ∅ ∅) nchan_output_init [TGet [1] 100 7; TGet [2] 103 8] = Ret (m, tc, [TcOut (Some 7) [([1], 7)] []; TcOut (Some 8) [([2], 8)] []]) /\
    nchan_thingcache_gc_timer_handler (fun _ _ => false) m tc 106 = Ret (m', tc', [([1], 7)]) /\
    thing_head tc' = things tc' !! [1] /\ (x ← thing_head tc'; links m' !! (x, LL_NEXT)) = Some None /\ is_Some (things tc' !! [2]).
Proof.
  eexists _, _, _, _. split; [vm_compute; reflexivity|]. split; [vm_compute; reflexivity|].
  split; [vm_compute; reflexivity|]. split; [vm_compute; reflexivity|]. vm_compute. eauto.
Qed.
