(* ===== verification/RedisChannels.v ===== *)
(** * Channels of the Redis store ([store/redis/rdsstore.c], [store/redis/redis_nodeset.c])

    A channel head of the Redis store sends its commands through one node of the
    nodeset and listens for messages on one node; each node lists the heads that
    use it, through links in the heads, and the same links queue a head when it
    has lost its node, until the nodeset is ready again.  One nodeset is
    modelled.  A connection answers its SUBSCRIBE and UNSUBSCRIBE commands in
    order; a connection that is closed answers nothing any more. *)

From S2P Require Import Prelude Nginx DList SList ChanHead RbTree ClusterSlots Reaper.

(** ** Data *)

Inductive redis_pubsub_status_t := REDIS_PUBSUB_SUBSCRIBING | REDIS_PUBSUB_SUBSCRIBED | REDIS_PUBSUB_UNSUBSCRIBED.
Global Instance pubsub_status_eq_dec : EqDecision redis_pubsub_status_t.
Proof. solve_decision. Defined.

Definition REDIS_MODE_BACKUP : Z := 1.
Definition REDIS_MODE_DISTRIBUTED : Z := 2.
Definition NCHAN_CHANHEAD_EXPIRE_SEC : Z := 1.
Definition NGX_LOG_ERR : Z := 4.
Definition NGX_LOG_WARN : Z := 5.

(** The settings of the nodeset, the random numbers that will be drawn, and the
    level of the log. *)
Record redis_settings := Settings {
  storage_mode : Z;
  master_weight : Z;
  slave_weight : Z;
  ngx_random : nat -> Z;
  ngx_exiting : bool;
  log_level : Z;             (* of the error log *)
}.

Record rdstore_channel_head_t := RHead {
  id : bytes;
  status : chanhead_pubsub_status_t;
  sub_count : Z;                      (* ngx_uint_t *)
  fetching_message_count : Z;         (* ngx_int_t *)
  reserved : Z;                       (* ngx_int_t *)
  has_nodeset : bool;                 (* redis.nodeset is not NULL *)
  node_cmd : ptr;                     (* redis.node.cmd *)
  node_pubsub : ptr;                  (* redis.node.pubsub *)
  in_disconnected_cmd_list : bool;
  in_disconnected_pubsub_list : bool;
  gc_time : Z;
  in_reaper : bool;
  pubsub_status : redis_pubsub_status_t;
  shutting_down : bool;
}.

Definition set_status (c : rdstore_channel_head_t) (x : chanhead_pubsub_status_t) : rdstore_channel_head_t :=
  RHead (id c) x (sub_count c) (fetching_message_count c) (reserved c) (has_nodeset c) (node_cmd c) (node_pubsub c)
    (in_disconnected_cmd_list c) (in_disconnected_pubsub_list c) (gc_time c) (in_reaper c) (pubsub_status c) (shutting_down c).
Definition set_sub_count (c : rdstore_channel_head_t) (x : Z) : rdstore_channel_head_t :=
  RHead (id c) (status c) x (fetching_message_count c) (reserved c) (has_nodeset c) (node_cmd c) (node_pubsub c)
    (in_disconnected_cmd_list c) (in_disconnected_pubsub_list c) (gc_time c) (in_reaper c) (pubsub_status c) (shutting_down c).
Definition set_fetching (c : rdstore_channel_head_t) (x : Z) : rdstore_channel_head_t :=
  RHead (id c) (status c) (sub_count c) x (reserved c) (has_nodeset c) (node_cmd c) (node_pubsub c)
    (in_disconnected_cmd_list c) (in_disconnected_pubsub_list c) (gc_time c) (in_reaper c) (pubsub_status c) (shutting_down c).
Definition set_reserved (c : rdstore_channel_head_t) (x : Z) : rdstore_channel_head_t :=
  RHead (id c) (status c) (sub_count c) (fetching_message_count c) x (has_nodeset c) (node_cmd c) (node_pubsub c)
    (in_disconnected_cmd_list c) (in_disconnected_pubsub_list c) (gc_time c) (in_reaper c) (pubsub_status c) (shutting_down c).
Definition set_nodeset (c : rdstore_channel_head_t) (x : bool) : rdstore_channel_head_t :=
  RHead (id c) (status c) (sub_count c) (fetching_message_count c) (reserved c) x (node_cmd c) (node_pubsub c)
    (in_disconnected_cmd_list c) (in_disconnected_pubsub_list c) (gc_time c) (in_reaper c) (pubsub_status c) (shutting_down c).
Definition set_node_cmd (c : rdstore_channel_head_t) (x : ptr) : rdstore_channel_head_t :=
  RHead (id c) (status c) (sub_count c) (fetching_message_count c) (reserved c) (has_nodeset c) x (node_pubsub c)
    (in_disconnected_cmd_list c) (in_disconnected_pubsub_list c) (gc_time c) (in_reaper c) (pubsub_status c) (shutting_down c).
Definition set_node_pubsub (c : rdstore_channel_head_t) (x : ptr) : rdstore_channel_head_t :=
  RHead (id c) (status c) (sub_count c) (fetching_message_count c) (reserved c) (has_nodeset c) (node_cmd c) x
    (in_disconnected_cmd_list c) (in_disconnected_pubsub_list c) (gc_time c) (in_reaper c) (pubsub_status c) (shutting_down c).
Definition set_in_cmd_list (c : rdstore_channel_head_t) (x : bool) : rdstore_channel_head_t :=
  RHead (id c) (status c) (sub_count c) (fetching_message_count c) (reserved c) (has_nodeset c) (node_cmd c) (node_pubsub c)
    x (in_disconnected_pubsub_list c) (gc_time c) (in_reaper c) (pubsub_status c) (shutting_down c).
Definition set_in_pubsub_list (c : rdstore_channel_head_t) (x : bool) : rdstore_channel_head_t :=
  RHead (id c) (status c) (sub_count c) (fetching_message_count c) (reserved c) (has_nodeset c) (node_cmd c) (node_pubsub c)
    (in_disconnected_cmd_list c) x (gc_time c) (in_reaper c) (pubsub_status c) (shutting_down c).
Definition set_gc (c : rdstore_channel_head_t) (st : chanhead_pubsub_status_t) (t : Z) (b : bool) : rdstore_channel_head_t :=
  RHead (id c) st (sub_count c) (fetching_message_count c) (reserved c) (has_nodeset c) (node_cmd c) (node_pubsub c)
    (in_disconnected_cmd_list c) (in_disconnected_pubsub_list c) t b (pubsub_status c) (shutting_down c).
Definition set_pubsub (c : rdstore_channel_head_t) (x : redis_pubsub_status_t) : rdstore_channel_head_t :=
  RHead (id c) (status c) (sub_count c) (fetching_message_count c) (reserved c) (has_nodeset c) (node_cmd c) (node_pubsub c)
    (in_disconnected_cmd_list c) (in_disconnected_pubsub_list c) (gc_time c) (in_reaper c) x (shutting_down c).
Definition set_shutting_down (c : rdstore_channel_head_t) : rdstore_channel_head_t :=
  RHead (id c) (status c) (sub_count c) (fetching_message_count c) (reserved c) (has_nodeset c) (node_cmd c) (node_pubsub c)
    (in_disconnected_cmd_list c) (in_disconnected_pubsub_list c) (gc_time c) (in_reaper c) (pubsub_status c) true.

(** [offsetof(rdstore_channel_head_t, ...)], in an arbitrary numbering. *)
Definition NODESET_LINKS : nchan_slist_offsets_t := Offsets 0 8.
Definition CMD_LINKS : nchan_slist_offsets_t := Offsets 16 24.
Definition PUBSUB_LINKS : nchan_slist_offsets_t := Offsets 32 40.
Definition GC_PREV : Z := 0.
Definition GC_NEXT : Z := 8.

(** [node->channels]. *)
Record node_channels_t := NC { cmd : nchan_slist_t; pubsub : nchan_slist_t }.

(** What a pubsub connection will be answered to, and the commands of a head
    that are answered later. *)
Inductive pubsub_command := SUBSCRIBE (chid : bytes) | UNSUBSCRIBE (chid : bytes).
Inductive redis_script := CHANNEL_SUBSCRIBE | CHANNEL_KEEPALIVE.

(** What the pools of a channel are asked to do. *)
Inductive spooler_event := StartSpooler (ch : loc) | StopSpooler (ch : loc) | ChannelStatusChange (ch : loc) | CatchUp (ch : loc).

Global Instance pubsub_command_eq_dec : EqDecision pubsub_command.
Proof. solve_decision. Defined.
Global Instance redis_script_eq_dec : EqDecision redis_script.
Proof. solve_decision. Defined.

(** The store of a worker and its nodeset.  [links] are those of
    [redis.slist], [gc_links] those of the reaper; [slaves] are
    [node->peers.slaves]. *)
Record rdstore := Rdstore {
  heads : gmap loc rdstore_channel_head_t;
  chanhead_hash : gmap bytes loc;
  links : mem;
  gc_links : mem;
  chanhead_reaper : nchan_reaper_t;
  nset : redis_nodeset_t;
  ns_ready : bool;                         (* status == REDIS_NODESET_READY *)
  slaves : gmap loc (list loc);
  channels : gmap loc node_channels_t;
  all : nchan_slist_t;
  disconnected_cmd : nchan_slist_t;
  disconnected_pubsub : nchan_slist_t;
  conns : gmap loc (list pubsub_command);  (* ctx.pubsub *)
  inflight : list (loc * redis_script * loc);  (* node, command, head *)
  onready : list (redis_script * loc);     (* onready_callbacks *)
  draws : nat;
  spooler_log : list spooler_event;
}.

Definition set_heads (w : rdstore) (x : gmap loc rdstore_channel_head_t) : rdstore :=
  Rdstore x (chanhead_hash w) (links w) (gc_links w) (chanhead_reaper w) (nset w) (ns_ready w) (slaves w) (channels w)
    (all w) (disconnected_cmd w) (disconnected_pubsub w) (conns w) (inflight w) (onready w) (draws w) (spooler_log w).
Definition set_hash (w : rdstore) (x : gmap bytes loc) : rdstore :=
  Rdstore (heads w) x (links w) (gc_links w) (chanhead_reaper w) (nset w) (ns_ready w) (slaves w) (channels w)
    (all w) (disconnected_cmd w) (disconnected_pubsub w) (conns w) (inflight w) (onready w) (draws w) (spooler_log w).
Definition set_links (w : rdstore) (x : mem) : rdstore :=
  Rdstore (heads w) (chanhead_hash w) x (gc_links w) (chanhead_reaper w) (nset w) (ns_ready w) (slaves w) (channels w)
    (all w) (disconnected_cmd w) (disconnected_pubsub w) (conns w) (inflight w) (onready w) (draws w) (spooler_log w).
Definition set_reaper (w : rdstore) (h : mem) (r : nchan_reaper_t) : rdstore :=
  Rdstore (heads w) (chanhead_hash w) (links w) h r (nset w) (ns_ready w) (slaves w) (channels w)
    (all w) (disconnected_cmd w) (disconnected_pubsub w) (conns w) (inflight w) (onready w) (draws w) (spooler_log w).
Definition set_topology (w : rdstore) (ns : redis_nodeset_t) (r : bool) (sl : gmap loc (list loc)) : rdstore :=
  Rdstore (heads w) (chanhead_hash w) (links w) (gc_links w) (chanhead_reaper w) ns r sl (channels w)
    (all w) (disconnected_cmd w) (disconnected_pubsub w) (conns w) (inflight w) (onready w) (draws w) (spooler_log w).
Definition set_channels (w : rdstore) (c : gmap loc node_channels_t) (a dc dp : nchan_slist_t) : rdstore :=
  Rdstore (heads w) (chanhead_hash w) (links w) (gc_links w) (chanhead_reaper w) (nset w) (ns_ready w) (slaves w) c
    a dc dp (conns w) (inflight w) (onready w) (draws w) (spooler_log w).
Definition set_conns (w : rdstore) (x : gmap loc (list pubsub_command)) : rdstore :=
  Rdstore (heads w) (chanhead_hash w) (links w) (gc_links w) (chanhead_reaper w) (nset w) (ns_ready w) (slaves w) (channels w)
    (all w) (disconnected_cmd w) (disconnected_pubsub w) x (inflight w) (onready w) (draws w) (spooler_log w).
Definition set_inflight (w : rdstore) (x : list (loc * redis_script * loc)) : rdstore :=
  Rdstore (heads w) (chanhead_hash w) (links w) (gc_links w) (chanhead_reaper w) (nset w) (ns_ready w) (slaves w) (channels w)
    (all w) (disconnected_cmd w) (disconnected_pubsub w) (conns w) x (onready w) (draws w) (spooler_log w).
Definition set_onready (w : rdstore) (x : list (redis_script * loc)) : rdstore :=
  Rdstore (heads w) (chanhead_hash w) (links w) (gc_links w) (chanhead_reaper w) (nset w) (ns_ready w) (slaves w) (channels w)
    (all w) (disconnected_cmd w) (disconnected_pubsub w) (conns w) (inflight w) x (draws w) (spooler_log w).
Definition set_draws (w : rdstore) (x : nat) : rdstore :=
  Rdstore (heads w) (chanhead_hash w) (links w) (gc_links w) (chanhead_reaper w) (nset w) (ns_ready w) (slaves w) (channels w)
    (all w) (disconnected_cmd w) (disconnected_pubsub w) (conns w) (inflight w) (onready w) x (spooler_log w).
Definition note (w : rdstore) (e : spooler_event) : rdstore :=
  Rdstore (heads w) (chanhead_hash w) (links w) (gc_links w) (chanhead_reaper w) (nset w) (ns_ready w) (slaves w) (channels w)
    (all w) (disconnected_cmd w) (disconnected_pubsub w) (conns w) (inflight w) (onready w) (draws w) (spooler_log w ++ [e]).

Definition get_head (w : rdstore) (x : loc) : outcome rdstore_channel_head_t :=
  match heads w !! x with Some c => Ret c | None => Crash end.
Definition put_head (w : rdstore) (x : loc) (c : rdstore_channel_head_t) : rdstore := set_heads w (<[x := c]> (heads w)).
Definition upd_head (w : rdstore) (x : loc) (f : rdstore_channel_head_t -> rdstore_channel_head_t) : outcome rdstore :=
  c ← get_head w x; Ret (put_head w x (f c)).

(** The lists that go through heads. *)
Inductive chan_list := All | NodeCmd (n : loc) | NodePubsub (n : loc) | DisconnectedCmd | DisconnectedPubsub.
Global Instance chan_list_eq_dec : EqDecision chan_list.
Proof. solve_decision. Defined.

Definition get_list (w : rdstore) (k : chan_list) : option nchan_slist_t :=
  match k with
  | All => Some (all w)
  | NodeCmd n => cmd <$> channels w !! n
  | NodePubsub n => pubsub <$> channels w !! n
  | DisconnectedCmd => Some (disconnected_cmd w)
  | DisconnectedPubsub => Some (disconnected_pubsub w)
  end.
Definition set_list (w : rdstore) (k : chan_list) (l : nchan_slist_t) : rdstore :=
  match k with
  | All => set_channels w (channels w) l (disconnected_cmd w) (disconnected_pubsub w)
  | NodeCmd n => set_channels w (alter (fun c => NC l (pubsub c)) n (channels w)) (all w) (disconnected_cmd w) (disconnected_pubsub w)
  | NodePubsub n => set_channels w (alter (fun c => NC (cmd c) l) n (channels w)) (all w) (disconnected_cmd w) (disconnected_pubsub w)
  | DisconnectedCmd => set_channels w (channels w) (all w) l (disconnected_pubsub w)
  | DisconnectedPubsub => set_channels w (channels w) (all w) (disconnected_cmd w) l
  end.

Definition list_append (w : rdstore) (k : chan_list) (x : loc) : outcome rdstore :=
  match get_list w k with
  | Some l => '(h, l) ← nchan_slist_append (links w) l x; Ret (set_list (set_links w h) k l)
  | None => Crash
  end.
Definition list_remove (w : rdstore) (k : chan_list) (x : loc) : outcome rdstore :=
  match get_list w k with
  | Some l => '(h, l) ← nchan_slist_remove (links w) l x; Ret (set_list (set_links w h) k l)
  | None => Crash
  end.
Definition list_first (w : rdstore) (k : chan_list) : outcome ptr :=
  match get_list w k with Some l => Ret (nchan_slist_first l) | None => Crash end.
Definition list_pop (w : rdstore) (k : chan_list) : outcome (rdstore * ptr) :=
  match get_list w k with
  | Some l => '(h, l, x) ← nchan_slist_pop (links w) l; Ret (set_list (set_links w h) k l, x)
  | None => Crash
  end.

(** [nchan_slist_init] of [nodeset_create] and of [nodeset_node_create_with_space]. *)
Definition new_list (o : nchan_slist_offsets_t) : nchan_slist_t := nchan_slist_init (SL None None 0 o) (prev o) (next o).
Definition new_store (ns : redis_nodeset_t) : rdstore :=
  Rdstore ∅ ∅ ∅ ∅ (nchan_reaper_start GC_PREV GC_NEXT) ns false ∅ ((fun _ => NC (new_list CMD_LINKS) (new_list PUBSUB_LINKS)) <$> nodes ns)
    (new_list NODESET_LINKS) (new_list CMD_LINKS) (new_list PUBSUB_LINKS) ∅ [] [] 0 [].

(** ** Heads and the lists of nodes *)

(** [chanhead->redis.nodeset->...]. *)
Definition need_nodeset (c : rdstore_channel_head_t) : outcome unit := c_assert (has_nodeset c).

Definition nodeset_node_dissociate_chanhead (w : rdstore) (x : loc) : outcome rdstore :=
  c ← get_head w x;
  w ← match node_cmd c with Some n => list_remove w (NodeCmd n) x | None => Ret w end;
  upd_head w x (fun c => set_node_cmd c None).

Definition nodeset_node_dissociate_pubsub_chanhead (w : rdstore) (x : loc) : outcome rdstore :=
  c ← get_head w x;
  match node_pubsub c with
  | None => Ret w
  | Some n => w ← list_remove w (NodePubsub n) x; upd_head w x (fun c => set_node_pubsub c None)
  end.

(** Every node has the one nodeset that is modelled. *)
Definition nodeset_node_associate_chanhead (w : rdstore) (node : loc) (x : loc) : outcome rdstore :=
  c ← get_head w x;
  c_assert (bool_decide (node_cmd c = None));;
  c_assert (has_nodeset c);;
  c_assert (negb (in_disconnected_cmd_list c));;
  w ← (if bool_decide (node_cmd c <> Some node) then list_append w (NodeCmd node) x else Ret w);
  upd_head w x (fun c => set_node_cmd c (Some node)).

Definition nodeset_node_associate_pubsub_chanhead (w : rdstore) (node : loc) (x : loc) : outcome rdstore :=
  c ← get_head w x;
  if bool_decide (node_pubsub c = Some node) then Ret w
  else
    c_assert (bool_decide (node_pubsub c = None));;
    c_assert (has_nodeset c);;
    c_assert (negb (in_disconnected_pubsub_list c));;
    w ← (if bool_decide (node_pubsub c <> Some node) then list_append w (NodePubsub node) x else Ret w);
    upd_head w x (fun c => set_node_pubsub c (Some node)).

Definition nodeset_dissociate_chanhead (w : rdstore) (x : loc) : outcome rdstore :=
  c ← get_head w x;
  if has_nodeset c then
    w ← (if bool_decide (node_cmd c <> None) then
           c_assert (negb (in_disconnected_cmd_list c));; nodeset_node_dissociate_chanhead w x
         else if in_disconnected_cmd_list c then
           w ← upd_head w x (fun c => set_in_cmd_list c false); list_remove w DisconnectedCmd x
         else Ret w);
    c ← get_head w x;
    w ← (if bool_decide (node_pubsub c <> None) then
           c_assert (negb (in_disconnected_pubsub_list c));; nodeset_node_dissociate_pubsub_chanhead w x
         else if in_disconnected_pubsub_list c then
           w ← upd_head w x (fun c => set_in_pubsub_list c false); list_remove w DisconnectedPubsub x
         else Ret w);
    w ← upd_head w x (fun c => set_nodeset c false);
    list_remove w All x
  else Ret w.

Section store.
Context `{NgxRbtree redis_nodeset_slot_range_node_t} (cf : redis_settings).

Definition random (w : rdstore) : rdstore * Z := (set_draws w (S (draws w)), ngx_random cf (draws w)).

(** [ngx_random() % n]. *)
Definition random_below (w : rdstore) (n : Z) : outcome (rdstore * Z) :=
  let (w, r) := random w in if n =? 0 then Crash else Ret (w, s32 (Z.rem r n)).

Definition nodeset_node_random_master_or_slave (w : rdstore) (master : loc) : outcome (rdstore * loc) :=
  nd ← ClusterSlots.get_node (nset w) master;
  let sl := default [] (slaves w !! master) in
  let slaves_n := u64 (Z.of_nat (length sl)) in
  let master_total := s32 (master_weight cf) in
  let slave_total := s32 (slaves_n * slave_weight cf) in
  c_assert (bool_decide (n_role nd = REDIS_NODE_ROLE_MASTER));;
  if s32 (master_total + slave_total) =? 0 then Ret (w, master)
  else
    '(w, n) ← random_below w (s32 (slave_total + master_total));
    if n <? master_total then Ret (w, master)
    else
      '(w, n) ← random_below w slaves_n;
      match sl !! Z.to_nat n with
      | None => Ret (w, master)
      | Some s =>
          nd ← ClusterSlots.get_node (nset w) s;
          Ret (w, if n_state nd <? REDIS_NODE_READY then master else s)
      end.

(** A head whose id has no node is looked up a NULL node. *)
Definition nodeset_node_find_by_chanhead (w : rdstore) (x : loc) : outcome (rdstore * loc) :=
  c ← get_head w x;
  match node_cmd c with
  | Some n => Ret (w, n)
  | None =>
      need_nodeset c;;
      node ← nodeset_node_find_by_channel_id (nset w) (id c);
      match node with
      | None => Crash
      | Some n => w ← nodeset_node_associate_chanhead w n x; Ret (w, n)
      end
  end.

Definition nodeset_node_pubsub_find_by_chanhead (w : rdstore) (x : loc) : outcome (rdstore * loc) :=
  c ← get_head w x;
  match node_pubsub c with
  | Some n => Ret (w, n)
  | None =>
      need_nodeset c;;
      node ← nodeset_node_find_by_channel_id (nset w) (id c);
      match node with
      | None => Crash
      | Some n =>
          '(w, n) ← nodeset_node_random_master_or_slave w n;
          w ← nodeset_node_associate_pubsub_chanhead w n x;
          c ← get_head w x;
          match node_pubsub c with Some n => Ret (w, n) | None => Crash end
      end
  end.

(** ** Listening for the messages of a channel *)

(** [node_log] reads the role of the node when the level is logged. *)
Definition node_log (node : ptr) (lvl : Z) : outcome unit :=
  c_assert (negb (lvl <=? log_level cf) || bool_decide (node <> None)).

Definition redis_chanhead_set_pubsub_status (w : rdstore) (x : loc) (node : ptr) (st : redis_pubsub_status_t) : outcome rdstore :=
  match st with
  | REDIS_PUBSUB_UNSUBSCRIBED =>
      c ← get_head w x;
      match pubsub_status c with
      | REDIS_PUBSUB_UNSUBSCRIBED => node_log node NGX_LOG_WARN
      | REDIS_PUBSUB_SUBSCRIBING => node_log node NGX_LOG_ERR
      | REDIS_PUBSUB_SUBSCRIBED => Ret tt
      end;;
      w ← upd_head w x (fun c => set_pubsub c REDIS_PUBSUB_UNSUBSCRIBED);
      w ← nodeset_node_dissociate_pubsub_chanhead w x;
      c ← get_head w x;
      w ← (if negb (in_disconnected_pubsub_list c) then
             need_nodeset c;;
             w ← list_append w DisconnectedPubsub x;
             upd_head w x (fun c => set_in_pubsub_list c true)
           else Ret w);
      c ← get_head w x;
      need_nodeset c;;
      if (storage_mode cf =? REDIS_MODE_BACKUP) && bool_decide (status c = READY) then
        Ret (note (put_head w x (set_status c NOTREADY)) (ChannelStatusChange x))
      else Ret w
  | REDIS_PUBSUB_SUBSCRIBING => upd_head w x (fun c => set_pubsub c REDIS_PUBSUB_SUBSCRIBING)
  | REDIS_PUBSUB_SUBSCRIBED =>
      match node with
      | None => Crash
      | Some n =>
          w ← upd_head w x (fun c => set_pubsub c REDIS_PUBSUB_SUBSCRIBED);
          w ← nodeset_node_associate_pubsub_chanhead w n x;
          c ← get_head w x;
          match status c with
          | NOTREADY => Ret (note (put_head w x (set_status c READY)) (ChannelStatusChange x))
          | READY | INACTIVE => Ret w
          | _ => Crash
          end
      end
  end.

(** [redis_subscriber_command]; a node that is not ready is not sent anything. *)
Definition redis_subscriber_command (w : rdstore) (node : loc) (cmd : pubsub_command) : outcome rdstore :=
  nd ← ClusterSlots.get_node (nset w) node;
  if REDIS_NODE_READY <=? n_state nd then Ret (set_conns w (<[node := default [] (conns w !! node) ++ [cmd]]> (conns w)))
  else Ret w.

Definition ensure_chanhead_pubsub_subscribed_if_needed (w : rdstore) (x : loc) : outcome rdstore :=
  c ← get_head w x;
  if bool_decide (pubsub_status c <> REDIS_PUBSUB_SUBSCRIBED) && bool_decide (pubsub_status c <> REDIS_PUBSUB_SUBSCRIBING) then
    need_nodeset c;;
    if (REDIS_MODE_DISTRIBUTED <=? storage_mode cf) && ns_ready w then
      '(w, n) ← nodeset_node_pubsub_find_by_chanhead w x;
      w ← redis_chanhead_set_pubsub_status w x (Some n) REDIS_PUBSUB_SUBSCRIBING;
      redis_subscriber_command w n (SUBSCRIBE (id c))
    else Ret w
  else Ret w.

(** What a reply or a message of the pubsub connection of [node] does for the
    channel it names; [find_chanhead_for_pubsub_callback] is the lookup. *)
Definition find_chanhead_for_pubsub_callback (w : rdstore) (chid : bytes) : ptr := chanhead_hash w !! chid.

Definition subscribed_callback (w : rdstore) (node : loc) (chid : bytes) : outcome rdstore :=
  match find_chanhead_for_pubsub_callback w chid with
  | Some x => redis_chanhead_set_pubsub_status w x (Some node) REDIS_PUBSUB_SUBSCRIBED
  | None => Ret w
  end.
Definition unsubscribed_callback (w : rdstore) (node : loc) (chid : bytes) : outcome rdstore :=
  match find_chanhead_for_pubsub_callback w chid with
  | Some x =>
      c ← get_head w x;
      if bool_decide (pubsub_status c <> REDIS_PUBSUB_UNSUBSCRIBED) then
        redis_chanhead_set_pubsub_status w x (Some node) REDIS_PUBSUB_UNSUBSCRIBED
      else Ret w
  | None => Ret w
  end.

(** ** Reaping *)

Definition to_gc (w : rdstore) : reaper_world rdstore := RWorld (gc_links w) (chanhead_reaper w) w.
Definition of_gc (r : reaper_world rdstore) : rdstore := set_reaper (env r) (Reaper.links r) (rp r).

Definition nchan_redis_chanhead_ready_to_reap (now : Z) (w : rdstore) (x : loc) (force : bool) : outcome (rdstore * bool) :=
  if force then Ret (w, true)
  else
    c ← get_head w x;
    Ret (w, bool_decide (status c = INACTIVE) && negb (0 <? reserved c) && negb (0 <? gc_time c - now) &&
            negb (0 <? sub_count c) && negb (0 <? fetching_message_count c)).

(** [CHANNEL_HASH_DEL], [ngx_free]. *)
Definition free_head (w : rdstore) (x : loc) : outcome rdstore :=
  c ← get_head w x;
  let w := set_hash w (delete (id c) (chanhead_hash w)) in
  let h := links w in
  let free o h := dealloc (prev o) (next o) h x in
  let w := set_links w (free NODESET_LINKS (free CMD_LINKS (free PUBSUB_LINKS h))) in
  let w := set_reaper w (dealloc GC_PREV GC_NEXT (gc_links w) x) (chanhead_reaper w) in
  Ret (set_heads w (delete x (heads w))).

Definition redis_store_reap_chanhead (w : rdstore) (x : loc) : outcome rdstore :=
  c ← get_head w x;
  c_assert (shutting_down c || (sub_count c =? 0) && (fetching_message_count c =? 0));;
  w ← (if bool_decide (pubsub_status c = REDIS_PUBSUB_SUBSCRIBED) then
         need_nodeset c;;
         c_assert (REDIS_MODE_DISTRIBUTED <=? storage_mode cf);;
         match node_pubsub c with
         | None => Crash
         | Some n =>
             w ← redis_chanhead_set_pubsub_status w x None REDIS_PUBSUB_UNSUBSCRIBED;
             redis_subscriber_command w n (UNSUBSCRIBE (id c))
         end
       else Ret w);
  w ← nodeset_dissociate_chanhead w x;
  free_head (note w (StopSpooler x)) x.

Definition gc_reap (r : reaper_world rdstore) (x : loc) : outcome (reaper_world rdstore) :=
  w ← redis_store_reap_chanhead (of_gc r) x; Ret (to_gc w).

Definition redis_chanhead_gc_add (now : Z) (w : rdstore) (x : loc) (expire : Z) : outcome rdstore :=
  c ← get_head w x;
  c_assert (sub_count c =? 0);;
  need_nodeset c;;
  if negb (in_reaper c) then
    c_assert (bool_decide (status c <> INACTIVE));;
    let w := put_head w x (set_gc c INACTIVE (now + if expire =? 0 then NCHAN_CHANHEAD_EXPIRE_SEC else expire) true) in
    r ← nchan_reaper_add (nchan_redis_chanhead_ready_to_reap now) gc_reap (ngx_exiting cf) (to_gc w) x;
    Ret (of_gc r)
  else Ret w.

Definition redis_chanhead_gc_withdraw (w : rdstore) (x : loc) : outcome rdstore :=
  c ← get_head w x;
  if in_reaper c then
    need_nodeset c;;
    c_assert (bool_decide (status c = INACTIVE));;
    r ← nchan_reaper_withdraw (to_gc w) x;
    upd_head (of_gc r) x (fun c => set_gc c (status c) (gc_time c) false)
  else Ret w.

(** The timer of the reaper; nginx clears [timer_set] before it calls
    [reaper_timer_handler]. *)
Definition reaper_tick (fuel : nat) (now : Z) (w : rdstore) : outcome rdstore :=
  let w := set_reaper w (gc_links w) (set_timer (chanhead_reaper w) false) in
  r ← reaper_timer_handler (nchan_redis_chanhead_ready_to_reap now) gc_reap (ngx_exiting cf) fuel (to_gc w); Ret (of_gc r).

(** ** Finding and creating heads *)

Definition start_chanhead_spooler (w : rdstore) (x : loc) : rdstore := note w (StartSpooler x).

(** [new] is what [ngx_calloc] returns: NULL links. *)
Definition create_chanhead (w : rdstore) (channel_id : bytes) (new : ptr) : outcome (rdstore * ptr) :=
  match new with
  | None => Ret (w, None)
  | Some x =>
      c_assert (negb (bool_decide (2 < length channel_id)%nat) || negb (bool_decide (take 2 channel_id = bytes_of "m/")));;
      let c := RHead channel_id (if storage_mode cf =? REDIS_MODE_BACKUP then READY else NOTREADY) 0 0 0 true None None false false
                 0 false REDIS_PUBSUB_UNSUBSCRIBED false in
      let calloc o h := alloc (prev o) (next o) h x None None in
      let w := set_links w (calloc NODESET_LINKS (calloc CMD_LINKS (calloc PUBSUB_LINKS (links w)))) in
      let w := set_reaper w (alloc GC_PREV GC_NEXT (gc_links w) x None None) (chanhead_reaper w) in
      let w := start_chanhead_spooler (put_head w x c) x in
      w ← ensure_chanhead_pubsub_subscribed_if_needed w x;
      Ret (set_hash w (<[channel_id := x]> (chanhead_hash w)), Some x)
  end.

(** The spooler of a head runs from its creation until it is reaped. *)
Definition nchan_store_get_chanhead (w : rdstore) (channel_id : bytes) (new : ptr) : outcome (rdstore * ptr) :=
  '(w, head) ← match chanhead_hash w !! channel_id with
               | Some x => Ret (w, Some x)
               | None => create_chanhead w channel_id new
               end;
  match head with
  | None => Ret (w, None)
  | Some x =>
      c ← get_head w x;
      if bool_decide (status c = INACTIVE) then
        w ← ensure_chanhead_pubsub_subscribed_if_needed w x;
        w ← redis_chanhead_gc_withdraw w x;
        c ← get_head w x;
        let st := if storage_mode cf =? REDIS_MODE_BACKUP then READY
                  else if bool_decide (pubsub_status c = REDIS_PUBSUB_SUBSCRIBED) then READY else NOTREADY in
        Ret (put_head w x (set_status c st), Some x)
      else Ret (w, Some x)
  end.

(** ** Commands that hold a head until they are answered *)

(** [redis_script]; the reservation of a command that is not sent is not given
    back. *)
Definition send_script (w : rdstore) (node : loc) (s : redis_script) (x : loc) : outcome rdstore :=
  nd ← ClusterSlots.get_node (nset w) node;
  if REDIS_NODE_READY <=? n_state nd then Ret (set_inflight w (inflight w ++ [(node, s, x)])) else Ret w.

Definition redis_subscriber_register_send (w : rdstore) (x : loc) : outcome rdstore :=
  if ns_ready w then
    w ← upd_head w x (fun c => set_reserved c (reserved c + 1));
    '(w, n) ← nodeset_node_find_by_chanhead w x;
    send_script w n CHANNEL_SUBSCRIBE x
  else Ret w.

Definition redisChannelKeepaliveCallback_send (w : rdstore) (x : loc) : outcome rdstore :=
  c ← get_head w x;
  need_nodeset c;;
  node ← nodeset_node_find_by_channel_id (nset w) (id c);
  if ns_ready w then
    let w := put_head w x (set_reserved c (reserved c + 1)) in
    match node with None => Crash | Some n => send_script w n CHANNEL_KEEPALIVE x end
  else Ret w.

Definition redis_channel_keepalive_timer_handler (w : rdstore) (x : loc) : outcome rdstore :=
  c ← get_head w x;
  if bool_decide (pubsub_status c <> REDIS_PUBSUB_SUBSCRIBED) || bool_decide (status c = NOTREADY) then Ret w
  else redisChannelKeepaliveCallback_send w x.

(** The callbacks that wait for the nodeset:
    [redis_subscriber_register_send_retry_wrapper] and
    [redisChannelKeepaliveCallback_retry_wrapper]. *)
Definition retry_wrapper (w : rdstore) (s : redis_script) (x : loc) : outcome rdstore :=
  w ← upd_head w x (fun c => set_reserved c (reserved c - 1));
  match s with
  | CHANNEL_SUBSCRIBE => redis_subscriber_register_send w x
  | CHANNEL_KEEPALIVE => redisChannelKeepaliveCallback_send w x
  end.

Definition nodeset_callback_on_ready (w : rdstore) (s : redis_script) (x : loc) : outcome rdstore :=
  if ns_ready w then retry_wrapper w s x else Ret (set_onready w (onready w ++ [(s, x)])).

(** A reply to such a command: [redis_subscriber_register_cb] and
    [redisChannelKeepaliveCallback]. [retry]: the slot is not this node's any
    more, which has made the nodeset fail, and commands are retried. *)
Definition script_replied (w : rdstore) (s : redis_script) (x : loc) (retry : bool) : outcome rdstore :=
  w ← upd_head w x (fun c => set_reserved c (reserved c - 1));
  if retry then
    w ← upd_head w x (fun c => set_reserved c (reserved c + 1));
    nodeset_callback_on_ready w s x
  else Ret w.

Fixpoint run_ready_callbacks (w : rdstore) (l : list (redis_script * loc)) : outcome rdstore :=
  match l with
  | [] => Ret w
  | (s, x) :: l => w ← retry_wrapper w s x; run_ready_callbacks w l
  end.

(** The callbacks see the list while it is walked; none adds to it, as the
    nodeset is ready. *)
Definition nodeset_run_on_ready_callbacks (w : rdstore) : outcome rdstore :=
  w ← run_ready_callbacks w (onready w); Ret (set_onready w []).

(** ** Nodes come and go *)

(** A node that is added, as far as channels go: its address is [node], and no
    node has its connect parameters yet. *)
Definition REDIS_NODE_DISCONNECTED : Z := 0.
Definition nodeset_node_create (w : rdstore) (node : loc) : rdstore :=
  let ns := nset w in
  let nd := RNode REDIS_NODE_DISCONNECTED REDIS_NODE_ROLE_UNKNOWN false None 0 false in
  let w := set_topology w (Nodeset (cluster_enabled ns) (keyslots ns) (node_list ns ++ [node]) (<[node := nd]> (nodes ns)) (next_addr ns))
             (ns_ready w) (delete node (slaves w)) in
  let w := set_conns w (delete node (conns w)) in
  set_channels w (<[node := NC (new_list CMD_LINKS) (new_list PUBSUB_LINKS)]> (channels w)) (all w) (disconnected_cmd w) (disconnected_pubsub w).

(** The commands a closed connection has not answered are answered with NULL. *)
Fixpoint abort_replies (w : rdstore) (l : list (loc * redis_script * loc)) : outcome rdstore :=
  match l with
  | [] => Ret w
  | (_, s, x) :: l => w ← script_replied w s x false; abort_replies w l
  end.

(** What [node_disconnect] and [node_make_ready] both do with a head that
    sends its commands through the node. *)
Definition put_away_cmd (w : rdstore) (x : loc) : outcome rdstore :=
  w ← nodeset_node_dissociate_chanhead w x;
  w ← list_append w DisconnectedCmd x;
  w ← upd_head w x (fun c => set_in_cmd_list c true);
  upd_head w x (fun c => if decide (status c = READY) then set_status c NOTREADY else c).

(** [for(cur = first(cmd); cur != NULL; cur = first(cmd))]. *)
Fixpoint drop_cmd (fuel : nat) (w : rdstore) (node : loc) : outcome rdstore :=
  cur ← list_first w (NodeCmd node);
  match cur with
  | None => Ret w
  | Some x =>
      match fuel with
      | O => NoFuel
      | S fuel =>
          w ← put_away_cmd w x;
          drop_cmd fuel w node
      end
  end.
Fixpoint drop_pubsub (fuel : nat) (w : rdstore) (node : loc) : outcome rdstore :=
  cur ← list_first w (NodePubsub node);
  match cur with
  | None => Ret w
  | Some x =>
      match fuel with
      | O => NoFuel
      | S fuel => w ← redis_chanhead_set_pubsub_status w x None REDIS_PUBSUB_UNSUBSCRIBED; drop_pubsub fuel w node
      end
  end.

Definition set_state (n : redis_node_t) (s : Z) : redis_node_t :=
  RNode s (n_role n) (n_cluster_enabled n) (slot_range n) (slot_range_n n) (slot_range_indexed n).

Definition unset_slots (w : rdstore) (node : loc) : outcome rdstore :=
  nd ← ClusterSlots.get_node (nset w) node;
  if n_cluster_enabled nd then
    '(ns, _) ← node_unset_cluster_slots (nset w) node; Ret (set_topology w ns (ns_ready w) (slaves w))
  else Ret w.

(** The list of a node is not longer than the table of heads. *)
Definition node_disconnect (w : rdstore) (node : loc) (disconnected_state : Z) : outcome rdstore :=
  nd ← ClusterSlots.get_node (nset w) node;
  let w := set_topology w (put_node (nset w) node (set_state nd disconnected_state)) (ns_ready w) (slaves w) in
  let mine (e : loc * redis_script * loc) := (e.1.1 =? node)%positive in
  let unanswered := List.filter mine (inflight w) in
  let w := set_inflight w (List.filter (fun e => negb (mine e)) (inflight w)) in
  w ← abort_replies w unanswered;
  let w := set_conns w (delete node (conns w)) in
  w ← unset_slots w node;
  w ← drop_cmd (base.size (heads w)) w node;
  drop_pubsub (base.size (heads w)) w node.

(** [node_make_ready] puts away the heads that do not belong to the node any
    more; [next] is read before. *)
Fixpoint displace_cmd (fuel : nat) (w : rdstore) (node : loc) (cur : ptr) : outcome rdstore :=
  match cur with
  | None => Ret w
  | Some x =>
      match fuel with
      | O => NoFuel
      | S fuel =>
          l ← match get_list w (NodeCmd node) with Some l => Ret l | None => Crash end;
          next ← nchan_slist_next (links w) l x;
          c ← get_head w x;
          inside ← node_channel_in_keyspace (nset w) node (id c);
          w ← (if (inside : bool) then Ret w else put_away_cmd w x);
          displace_cmd fuel w node next
      end
  end.
Fixpoint displace_pubsub (fuel : nat) (w : rdstore) (node : loc) (cur : ptr) (unsub : list bytes) : outcome (rdstore * list bytes) :=
  match cur with
  | None => Ret (w, unsub)
  | Some x =>
      match fuel with
      | O => NoFuel
      | S fuel =>
          l ← match get_list w (NodePubsub node) with Some l => Ret l | None => Crash end;
          next ← nchan_slist_next (links w) l x;
          c ← get_head w x;
          inside ← node_channel_in_keyspace (nset w) node (id c);
          if (inside : bool) || bool_decide (pubsub_status c = REDIS_PUBSUB_UNSUBSCRIBED) then displace_pubsub fuel w node next unsub
          else
            w ← redis_chanhead_set_pubsub_status w x None REDIS_PUBSUB_UNSUBSCRIBED;
            displace_pubsub fuel w node next (unsub ++ [id c])
      end
  end.

(** The batch is sent through the connection whatever the state. *)
Definition node_make_ready (w : rdstore) (node : loc) : outcome rdstore :=
  nd ← ClusterSlots.get_node (nset w) node;
  let nd := set_state nd REDIS_NODE_READY in
  let w := set_topology w (put_node (nset w) node nd) (ns_ready w) (slaves w) in
  if n_cluster_enabled nd then
    cur ← list_first w (NodeCmd node);
    w ← displace_cmd (base.size (heads w)) w node cur;
    cur ← list_first w (NodePubsub node);
    '(w, unsub) ← displace_pubsub (base.size (heads w)) w node cur [];
    Ret (set_conns w (<[node := default [] (conns w !! node) ++ map UNSUBSCRIBE unsub]> (conns w)))
  else Ret w.

(** ** The nodeset is ready *)

Definition update_chanhead_status_on_reconnect (c : rdstore_channel_head_t) : rdstore_channel_head_t :=
  if bool_decide (node_cmd c <> None) && bool_decide (node_pubsub c <> None) &&
     bool_decide (pubsub_status c = REDIS_PUBSUB_SUBSCRIBED) && bool_decide (status c = NOTREADY)
  then set_status c READY else c.

Fixpoint reconnect_cmd (fuel : nat) (w : rdstore) : outcome rdstore :=
  '(w, cur) ← list_pop w DisconnectedCmd;
  match cur with
  | None => Ret w
  | Some x =>
      match fuel with
      | O => NoFuel
      | S fuel =>
          c ← get_head w x;
          c_assert (bool_decide (node_cmd c = None));;
          w ← upd_head w x (fun c => set_in_cmd_list c false);
          '(w, _) ← nodeset_node_find_by_chanhead w x;
          w ← upd_head w x update_chanhead_status_on_reconnect;
          reconnect_cmd fuel w
      end
  end.
Fixpoint reconnect_pubsub (fuel : nat) (w : rdstore) : outcome rdstore :=
  '(w, cur) ← list_pop w DisconnectedPubsub;
  match cur with
  | None => Ret w
  | Some x =>
      match fuel with
      | O => NoFuel
      | S fuel =>
          c ← get_head w x;
          c_assert (bool_decide (node_pubsub c = None));;
          w ← upd_head w x (fun c => set_in_pubsub_list c false);
          '(w, _) ← nodeset_node_pubsub_find_by_chanhead w x;
          let w := note w (CatchUp x) in
          w ← ensure_chanhead_pubsub_subscribed_if_needed w x;
          w ← upd_head w x update_chanhead_status_on_reconnect;
          reconnect_pubsub fuel w
      end
  end.
Definition nodeset_reconnect_disconnected_channels (w : rdstore) : outcome rdstore :=
  c_assert (ns_ready w);;
  w ← reconnect_cmd (base.size (heads w)) w;
  reconnect_pubsub (base.size (heads w)) w.

(** ** Subscribers *)

(** [spooler_add_handler]: the pools call it for every subscriber. *)
Definition spooler_add_handler (w : rdstore) (x : loc) : outcome rdstore :=
  w ← upd_head w x (fun c => set_sub_count c (u64 (sub_count c + 1)));
  redis_subscriber_register_send w x.

Definition nchan_store_subscribe_continued (w : rdstore) (channel_id : bytes) (new : ptr) : outcome rdstore :=
  '(w, ch) ← nchan_store_get_chanhead w channel_id new;
  match ch with None => Crash | Some x => spooler_add_handler w x end.

(** [redis_subscriber_unregister]: a command that does not hold the head. *)
Definition redis_subscriber_unregister (w : rdstore) (x : loc) : outcome rdstore :=
  c ← get_head w x;
  need_nodeset c;;
  if negb (shutting_down c) then
    (if ns_ready w then
       node ← nodeset_node_find_by_channel_id (nset w) (id c);
       match node with None => Crash | Some n => _ ← ClusterSlots.get_node (nset w) n; Ret w end
     else Ret w)
  else if ns_ready w then '(w, _) ← nodeset_node_find_by_chanhead w x; Ret w
  else Ret w.

Definition spooler_dequeue_handler (now : Z) (w : rdstore) (x : loc) : outcome rdstore :=
  w ← upd_head w x (fun c => set_sub_count c (u64 (sub_count c - 1)));
  w ← redis_subscriber_unregister w x;
  c ← get_head w x;
  if (sub_count c =? 0) && (fetching_message_count c =? 0) then redis_chanhead_gc_add now w x 0 else Ret w.

Definition spooler_get_message_start_handler (w : rdstore) (x : loc) : outcome rdstore :=
  upd_head w x (fun c => set_fetching c (fetching_message_count c + 1)).
Definition spooler_get_message_finish_handler (w : rdstore) (x : loc) : outcome rdstore :=
  w ← upd_head w x (fun c => set_fetching c (fetching_message_count c - 1));
  c ← get_head w x;
  c_assert (0 <=? fetching_message_count c);;
  Ret w.

(** ** What arrives from the nodes *)

(** The next reply of a pubsub connection: [redis_subscriber_callback] for
    subscribe and unsubscribe. *)
Definition pubsub_reply (w : rdstore) (node : loc) : outcome rdstore :=
  match conns w !! node with
  | Some (SUBSCRIBE chid :: rest) => subscribed_callback (set_conns w (<[node := rest]> (conns w))) node chid
  | Some (UNSUBSCRIBE chid :: rest) => unsubscribed_callback (set_conns w (<[node := rest]> (conns w))) node chid
  | _ => Ret w
  end.

(** The reply to the [i]-th command; with [retry] the slot was not this node's,
    and [nodeset_node_keyslot_changed] has made the nodeset fail. *)
Definition script_reply (w : rdstore) (i : nat) (retry : bool) : outcome rdstore :=
  match inflight w !! i with
  | Some (_, s, x) =>
      let w := set_inflight w (delete i (inflight w)) in
      let w := if retry then set_topology w (nset w) false (slaves w) else w in
      script_replied w s x retry
  | None => Ret w
  end.

(** [nodeset_onready_expire_event] of the [i]-th callback. *)
Definition nodeset_onready_expire_event (w : rdstore) (i : nat) : outcome rdstore :=
  match onready w !! i with
  | Some (s, x) => retry_wrapper (set_onready w (delete i (onready w))) s x
  | None => Ret w
  end.

(** [nodeset_set_status] with [REDIS_NODESET_READY], as far as channels go. *)
Definition nodeset_set_ready (w : rdstore) : outcome rdstore :=
  let w := set_topology w (nset w) true (slaves w) in
  w ← nodeset_reconnect_disconnected_channels w;
  nodeset_run_on_ready_callbacks w.

Definition redis_store_prepare_to_exit_worker (w : rdstore) : rdstore := set_heads w (set_shutting_down <$> heads w).
End store.
