(* ===== verification/RedisChannelsFacts.v ===== *)
(** * Facts about the channels of the Redis store

    The invariant: the lists that go through heads are well formed and hold the
    heads their fields say, a head that listens to nothing has asked to or is
    queued to ask, and no command outlives the head it holds; and each step on
    one head, reaping and creating heads included. *)

From S2P Require Import Prelude Nginx DList SList ChanHead RbTree ClusterSlots ClusterSlotsFacts Reaper ReaperFacts RedisChannels.

(** ** Lists that share their links *)

Lemma store_inv h x o v h' : store h x o v = Ret h' -> h' = <[(x, o) := v]> h.
Proof. unfold store. by destruct (h !! (x, o)); intros [= <-]. Qed.

Ltac stores_inv :=
  repeat match goal with
  | H : (_ ≫= _) = Ret _ |- _ => apply bind_Ret_inv in H as (? & ? & H)
  | H : store _ _ _ _ = Ret _ |- _ => apply store_inv in H; subst
  | H : Ret _ = Ret _ |- _ => injection H as ?; subst
  end.

Lemma append_frame h l el h' l' x o :
  nchan_slist_append h l el = Ret (h', l') ->
  (x <> el /\ tail l <> Some x) \/ (o <> prev (offset l) /\ o <> next (offset l)) -> h' !! (x, o) = h !! (x, o).
Proof.
  unfold nchan_slist_append. intros E C.
  destruct (tail l) as [t|]; stores_inv; rewrite !lookup_insert_ne; intuition congruence.
Qed.

Lemma remove_frame h l xs el h' l' x o :
  rep h l xs -> el ∈ xs -> nchan_slist_remove h l el = Ret (h', l') ->
  x ∉ xs \/ (o <> prev (offset l) /\ o <> next (offset l)) -> h' !! (x, o) = h !! (x, o).
Proof.
  intros (_ & [_ S] & _) Hel E C. apply list_elem_of_split in Hel as (xs1 & xs2 & ->).
  destruct (dseg_lookup _ _ _ _ _ _ _ _ S) as [E1 E2]. rewrite last_or_None in E1. rewrite hd_or_None in E2.
  unfold nchan_slist_remove, unlink in E. rewrite (load_Some _ _ _ _ E1), (load_Some _ _ _ _ E2), !bind_Ret in E.
  assert (x ∉ xs1 ++ el :: xs2 -> x <> el /\ list.last xs1 <> Some x /\ list.head xs2 <> Some x) as N.
  { intros Nx. split_and!; [set_solver|intros ?%last_elem; set_solver|]. intros Hx. apply Nx.
    assert (x ∈ xs2) by (apply hd_or_elem; by rewrite hd_or_None). set_solver. }
  destruct (list.last xs1) as [p|], (list.head xs2) as [q|]; stores_inv; rewrite !lookup_insert_ne; intuition congruence.
Qed.

Lemma rep_frame h h' l xs :
  (forall x o, x ∈ xs -> o = prev (offset l) \/ o = next (offset l) -> h' !! (x, o) = h !! (x, o)) -> rep h l xs -> rep h' l xs.
Proof.
  intros F (Hpn & [ND S] & R). split; [done|]. split; [|done]. split; [done|]. eapply dseg_frame, S.
  intros x Hx. split; apply F; auto.
Qed.

Definition links_of (k : chan_list) : nchan_slist_offsets_t :=
  match k with All => NODESET_LINKS | NodeCmd _ | DisconnectedCmd => CMD_LINKS | _ => PUBSUB_LINKS end.
Definition link_offsets : list Z := [0; 8; 16; 24; 32; 40].

(** Where the fields of a head say that it is. *)
Definition placed (c : rdstore_channel_head_t) (k : chan_list) : Prop :=
  match k with
  | All => False
  | NodeCmd n => node_cmd c = Some n
  | NodePubsub n => node_pubsub c = Some n
  | DisconnectedCmd => in_disconnected_cmd_list c = true
  | DisconnectedPubsub => in_disconnected_pubsub_list c = true
  end.

(** The lists hold the heads in [L]; a head is in one list at most of each kind,
    and in none of [All]. *)
Record lists_ok (w : rdstore) (L : chan_list -> list loc) : Prop := {
  lo_rep : forall k l, k <> All -> get_list w k = Some l -> offset l = links_of k /\ rep (links w) l (L k);
  lo_none : forall k, get_list w k = None -> L k = [];
  lo_all : L All = [] /\ offset (all w) = NODESET_LINKS /\ head (all w) = None /\ tail (all w) = None;
  lo_mem : forall x o, is_Some (links w !! (x, o)) <-> is_Some (heads w !! x) /\ o ∈ link_offsets;
  lo_null : forall x o, is_Some (heads w !! x) -> o = 0 \/ o = 8 -> links w !! (x, o) = Some None;
  lo_sep : forall k k' x, links_of k = links_of k' -> x ∈ L k -> x ∈ L k' -> k = k';
}.
Definition lists_place (hs : gmap loc rdstore_channel_head_t) (L : chan_list -> list loc) : Prop :=
  forall k x, x ∈ L k <-> exists c, hs !! x = Some c /\ placed c k.

(** The commands that were added to the connections; they are only sent when
    the store is distributed. *)
Definition conns_grow (cf : redis_settings) (m m' : gmap loc (list pubsub_command)) : Prop :=
  forall n, exists l, default [] (m' !! n) = default [] (m !! n) ++ l /\ (l <> [] -> REDIS_MODE_DISTRIBUTED <= storage_mode cf).

Lemma conns_grow_refl cf m : conns_grow cf m m.
Proof. intros n. exists []. by rewrite app_nil_r. Qed.
Lemma conns_grow_trans cf m1 m2 m3 : conns_grow cf m1 m2 -> conns_grow cf m2 m3 -> conns_grow cf m1 m3.
Proof.
  intros A B n. destruct (A n) as (l1 & E1 & M1), (B n) as (l2 & E2 & M2). exists (l1 ++ l2).
  rewrite E2, E1, app_assoc. split; [done|]. destruct l1; [by destruct l2; auto|]. intros _. by apply M1.
Qed.

(** What an operation on a head, its fields and its place apart, leaves alone. *)
Record keeps (cf : redis_settings) (w w' : rdstore) : Prop := {
  k_hash : chanhead_hash w' = chanhead_hash w;
  k_gc_links : gc_links w' = gc_links w;
  k_reaper : chanhead_reaper w' = chanhead_reaper w;
  k_nset : nset w' = nset w;
  k_ready : ns_ready w' = ns_ready w;
  k_slaves : slaves w' = slaves w;
  k_nodes : dom (channels w') = dom (channels w);
  k_conns : conns_grow cf (conns w) (conns w');
  k_inflight : inflight w' = inflight w;
  k_onready : onready w' = onready w;
}.

Lemma rds_keeps_refl cf w : keeps cf w w.
Proof. split; try done. apply conns_grow_refl. Qed.
Lemma rds_keeps_trans cf w1 w2 w3 : keeps cf w1 w2 -> keeps cf w2 w3 -> keeps cf w1 w3.
Proof. intros [] []. split; try congruence. by eapply conns_grow_trans. Qed.
Lemma keeps_heads cf w hs : keeps cf w (set_heads w hs).
Proof. split; try done. apply conns_grow_refl. Qed.
Lemma keeps_note cf w e : keeps cf w (note w e).
Proof. split; try done. apply conns_grow_refl. Qed.
Lemma keeps_draws cf w n : keeps cf w (set_draws w n).
Proof. split; try done. apply conns_grow_refl. Qed.
#[export] Hint Resolve rds_keeps_refl keeps_heads keeps_note keeps_draws conns_grow_refl : core.

Lemma set_list_keeps cf w k h l : keeps cf w (set_list (set_links w h) k l) /\ heads (set_list (set_links w h) k l) = heads w /\
  links (set_list (set_links w h) k l) = h.
Proof. destruct k; (split; [split; try done|done]); cbn; by rewrite ?dom_alter_L. Qed.

Lemma get_set_list w k k' h l : is_Some (get_list w k) ->
  get_list (set_list (set_links w h) k l) k' = if decide (k' = k) then Some l else get_list w k'.
Proof.
  intros [l0 E]. destruct k as [|n|n| |], k' as [|m|m| |]; try done; cbn in *.
  - destruct (channels w !! n) as [c|] eqn:En; [|done]. destruct (decide (NodeCmd m = NodeCmd n)) as [[= ->]|N].
    + by rewrite lookup_alter_eq, En.
    + rewrite lookup_alter_ne by congruence. done.
  - destruct (decide (n = m)) as [->|N]; [rewrite lookup_alter_eq; by destruct (channels w !! m)|by rewrite lookup_alter_ne].
  - destruct (decide (n = m)) as [->|N]; [rewrite lookup_alter_eq; by destruct (channels w !! m)|by rewrite lookup_alter_ne].
  - destruct (channels w !! n) as [c|] eqn:En; [|done]. destruct (decide (NodePubsub m = NodePubsub n)) as [[= ->]|N].
    + by rewrite lookup_alter_eq, En.
    + rewrite lookup_alter_ne by congruence. done.
Qed.

Lemma links_of_in k : prev (links_of k) ∈ link_offsets /\ next (links_of k) ∈ link_offsets.
Proof. unfold link_offsets. destruct k; split; repeat (apply list_elem_of_here || apply list_elem_of_further). Qed.

Lemma links_of_apart k k' o : links_of k <> links_of k' -> o = prev (links_of k') \/ o = next (links_of k') ->
  o <> prev (links_of k) /\ o <> next (links_of k).
Proof. destruct k, k'; cbn; intuition lia. Qed.

Lemma links_of_same k k' : links_of k = links_of k' \/ links_of k <> links_of k'.
Proof. destruct k, k'; cbn; first [left; reflexivity | right; intros E; apply (f_equal prev) in E; discriminate E]. Qed.

Lemma lists_live w L k x : lists_ok w L -> is_Some (heads w !! x) -> live (prev (links_of k)) (next (links_of k)) (links w) x.
Proof. intros O Hx. destruct (links_of_in k). split; by apply (lo_mem _ _ O). Qed.

(** One list is changed: its own content is [ys], of heads that are in no other
    list through the same links. *)
Lemma lists_change w L k l h' l' ys :
  lists_ok w L -> k <> All -> get_list w k = Some l -> dom h' = dom (links w) ->
  offset l' = offset l -> rep h' l' ys ->
  (forall k' x, links_of k' = links_of k -> k' <> k -> x ∈ ys -> x ∉ L k') ->
  (forall x o, x ∉ L k /\ x ∉ ys \/ (o <> prev (offset l) /\ o <> next (offset l)) -> h' !! (x, o) = links w !! (x, o)) ->
  lists_ok (set_list (set_links w h') k l') (fun k' => if decide (k' = k) then ys else L k').
Proof.
  intros O Nk G D Eo R Sep F. destruct (lo_rep _ _ O k l Nk G) as [Ek _].
  destruct (set_list_keeps (Settings 0 0 0 (fun _ => 0) false 0) w k h' l') as (_ & Eh & El). split.
  - intros k' m Nk' G'. rewrite get_set_list in G' by done. rewrite El. case_decide as E.
    + subst k'. injection G' as <-. split; [congruence|done].
    + destruct (lo_rep _ _ O k' m Nk' G') as [Em Rm]. split; [done|]. eapply rep_frame, Rm. intros x o Hx Ho.
      apply F. rewrite Ek. rewrite Em in Ho. destruct (links_of_same k' k) as [El2|Nl].
      * left. split; [intros Hx'; apply E; by apply (lo_sep _ _ O k' k x)|]. intros Hy. by apply (Sep k' x).
      * right. by apply (links_of_apart k k').
  - intros k' G'. rewrite get_set_list in G' by done. case_decide; [done|]. by apply (lo_none _ _ O).
  - rewrite decide_False by done. destruct (lo_all _ _ O) as (? & ? & ? & ?). destruct k; [done|..]; done.
  - intros x o. rewrite El, Eh, <- elem_of_dom, D, elem_of_dom. apply (lo_mem _ _ O).
  - intros x o. rewrite El, Eh. intros Hx Ho. rewrite F; [by apply (lo_null _ _ O)|]. right. rewrite Ek.
    apply (links_of_apart k All); [by destruct k|]. cbn. tauto.
  - intros k1 k2 x E12. case_decide as E1; case_decide as E2; subst; try done.
    + intros H1 H2. exfalso. by apply (Sep k2 x).
    + intros H1 H2. exfalso. by apply (Sep k1 x).
    + by apply (lo_sep _ _ O).
Qed.

Lemma list_append_ok cf w L k x :
  lists_ok w L -> k <> All -> is_Some (get_list w k) -> is_Some (heads w !! x) ->
  (forall k', links_of k' = links_of k -> x ∉ L k') ->
  exists w', list_append w k x = Ret w' /\ keeps cf w w' /\ heads w' = heads w /\
    lists_ok w' (fun k' => if decide (k' = k) then L k ++ [x] else L k').
Proof.
  intros O Nk [l G] Hx Nx. unfold list_append. rewrite G. destruct (lo_rep _ _ O k l Nk G) as [Ek R].
  destruct (append_rep (links w) l (L k) x) as (h' & l' & E & R' & Eo); [done| |by apply Nx|].
  { rewrite Ek. by apply (lists_live w L). }
  rewrite E, bind_Ret. destruct (set_list_keeps cf w k h' l') as (Kp & Eh & El).
  eexists. split; [done|]. split; [done|]. split; [done|].
  eapply lists_change; try done.
  - by eapply append_dom.
  - intros k' y Ek' Nk' Hy Hy'. apply elem_of_app in Hy as [Hy|Hy]; [|apply list_elem_of_singleton in Hy as ->; by apply (Nx k')].
    apply Nk'. by apply (lo_sep _ _ O k' k y).
  - intros y o C. eapply append_frame; [done|]. destruct C as [[N1 N2]|C]; [left|by right]. split; [set_solver|].
    destruct R as (_ & _ & _ & -> & _). by intros ?%last_elem.
Qed.

Lemma list_remove_ok cf w L k x :
  lists_ok w L -> k <> All -> x ∈ L k ->
  exists w' xs1 xs2, list_remove w k x = Ret w' /\ keeps cf w w' /\ heads w' = heads w /\ L k = xs1 ++ x :: xs2 /\ x ∉ xs1 ++ xs2 /\
    lists_ok w' (fun k' => if decide (k' = k) then xs1 ++ xs2 else L k').
Proof.
  intros O Nk Hx. unfold list_remove. destruct (get_list w k) as [l|] eqn:G.
  2:{ rewrite (lo_none _ _ O k G) in Hx. by apply elem_of_nil in Hx. }
  destruct (lo_rep _ _ O k l Nk G) as [Ek R]. pose proof Hx as Hx'. apply list_elem_of_split in Hx' as (xs1 & xs2 & EL).
  rewrite EL in R. destruct (remove_rep (links w) l xs1 x xs2 R) as (h' & l' & E & R' & Eo).
  rewrite E, bind_Ret. destruct (set_list_keeps cf w k h' l') as (Kp & Eh & El). eexists _, xs1, xs2. split; [done|].
  split; [done|]. split; [done|]. split; [done|].
  split. { destruct R as (_ & [ND _] & _). apply NoDup_app in ND as (_ & Dj & [N _]%NoDup_cons). specialize (Dj x). set_solver. }
  eapply lists_change; try done.
  - by eapply remove_dom.
  - intros k' y Ek' Nk' Hy Hy'. apply Nk'. apply (lo_sep _ _ O k' k y); [done|done|]. rewrite EL. set_solver.
  - intros y o C. apply (remove_frame _ _ _ x _ l' _ _ R); [set_solver|done|]. rewrite <- EL. tauto.
Qed.

(** *** The fields of the head follow *)

Lemma lists_place_append hs L k x c c' :
  lists_place hs L -> hs !! x = Some c -> (forall k', placed c' k' <-> placed c k' \/ k' = k) ->
  lists_place (<[x := c']> hs) (fun k' => if decide (k' = k) then L k ++ [x] else L k').
Proof.
  unfold lists_place. intros P Hx C k' y. destruct (decide (y = x)) as [->|N].
  - setoid_rewrite lookup_insert_eq. transitivity (placed c' k'); [|by naive_solver]. rewrite C. case_decide as E.
    + subst. split; [intros _; by right|]. set_solver.
    + rewrite P. naive_solver.
  - setoid_rewrite lookup_insert_ne; [|done]. case_decide as E; [subst|by apply P]. rewrite <- P. set_solver.
Qed.

Lemma lists_place_remove hs L k x c c' xs1 xs2 :
  lists_place hs L -> hs !! x = Some c -> L k = xs1 ++ x :: xs2 -> x ∉ xs1 ++ xs2 ->
  (forall k', placed c' k' <-> placed c k' /\ k' <> k) ->
  lists_place (<[x := c']> hs) (fun k' => if decide (k' = k) then xs1 ++ xs2 else L k').
Proof.
  unfold lists_place. intros P Hx EL Nx C k' y. destruct (decide (y = x)) as [->|N].
  - setoid_rewrite lookup_insert_eq. transitivity (placed c' k'); [|by naive_solver]. rewrite C. case_decide as E.
    + subst. split; [done|tauto].
    + rewrite P. naive_solver.
  - setoid_rewrite lookup_insert_ne; [|done]. case_decide as E; [subst|by apply P]. rewrite <- P, EL. set_solver.
Qed.

Lemma lists_place_same hs L x c c' :
  lists_place hs L -> hs !! x = Some c -> (forall k, placed c' k <-> placed c k) -> lists_place (<[x := c']> hs) L.
Proof.
  unfold lists_place. intros P Hx C k y. rewrite P. destruct (decide (y = x)) as [->|N].
  - rewrite Hx, lookup_insert_eq. specialize (C k). naive_solver.
  - by rewrite lookup_insert_ne.
Qed.

Lemma lists_heads w L x c : lists_ok w L -> is_Some (heads w !! x) -> lists_ok (put_head w x c) L.
Proof.
  intros [R N A M Z S] Hx. assert (forall y, is_Some (heads (put_head w x c) !! y) <-> is_Some (heads w !! y)) as D.
  { intros y. cbn. rewrite lookup_insert_is_Some'. naive_solver. }
  split; try done.
  - intros y o. rewrite D. apply M.
  - intros y o. rewrite D. apply Z.
Qed.

Lemma lists_ok_ext w w' L :
  (forall k, get_list w' k = get_list w k) -> links w' = links w ->
  (forall x, is_Some (heads w' !! x) <-> is_Some (heads w !! x)) -> lists_ok w L -> lists_ok w' L.
Proof.
  intros G El Eh [R N A M Z S]. split.
  - intros k l. rewrite G, El. apply R.
  - intros k. rewrite G. apply N.
  - specialize (G All) as [= ->]. done.
  - intros x o. rewrite El, Eh. apply M.
  - intros x o. rewrite El, Eh. apply Z.
  - done.
Qed.

(** ** The invariant *)

(** A step may be half done on one head: its status does not say yet where it is,
    it is being reaped, or it is not in the table yet. *)
Inductive hole := Whole | Opened (x : loc) | BeingReaped (x : loc) | BeingCreated (x : loc).
Definition in_hole (hl : hole) (x : loc) : Prop :=
  match hl with Whole => False | Opened y | BeingReaped y | BeingCreated y => x = y end.

Definition holds_head {A} (x : loc) (e : A * loc) : bool := (e.2 =? x)%positive.
(** The commands that are not answered, or wait to be sent again. *)
Definition held (w : rdstore) (x : loc) : Z :=
  Z.of_nat (length (List.filter (holds_head x) (inflight w)) + length (List.filter (holds_head x) (onready w))).

Section facts.
Context `{NgxRbtree redis_nodeset_slot_range_node_t} (cf : redis_settings).
(** Whether heads are only created while the nodeset is ready. *)
Context (tracked : Prop).

Definition flags_ok (c : rdstore_channel_head_t) : Prop :=
  (in_disconnected_cmd_list c = true -> node_cmd c = None) /\ (in_disconnected_pubsub_list c = true -> node_pubsub c = None).

(** A head listens on the node that lists it, or has asked to, or is queued to
    ask again. *)
Definition listening (w : rdstore) (c : rdstore_channel_head_t) : Prop :=
  match pubsub_status c with
  | REDIS_PUBSUB_SUBSCRIBED => is_Some (node_pubsub c) /\ REDIS_MODE_DISTRIBUTED <= storage_mode cf
  | REDIS_PUBSUB_SUBSCRIBING => exists n, node_pubsub c = Some n /\ SUBSCRIBE (id c) ∈ default [] (conns w !! n) /\ REDIS_MODE_DISTRIBUTED <= storage_mode cf
  | REDIS_PUBSUB_UNSUBSCRIBED => tracked -> REDIS_MODE_DISTRIBUTED <= storage_mode cf -> in_disconnected_pubsub_list c = true
  end.

Record head_ok (w : rdstore) (c : rdstore_channel_head_t) : Prop := {
  ho_nodeset : has_nodeset c = true;
  ho_status : status c = INACTIVE \/ status c = NOTREADY \/ status c = READY;
  ho_reaper : in_reaper c = true <-> status c = INACTIVE;
  ho_queued : in_disconnected_pubsub_list c = true -> pubsub_status c = REDIS_PUBSUB_UNSUBSCRIBED;
  ho_listening : listening w c;
}.

Record rds_inv (hl : hole) (gl : list loc) (w : rdstore) : Prop := {
  ri_lists : exists L, lists_ok w L /\ lists_place (heads w) L;
  ri_gc : reaper_rep (to_gc w) gl;
  ri_gc_conf : same_reaper (nchan_reaper_start GC_PREV GC_NEXT) (chanhead_reaper w);
  ri_gc_in : forall x, x ∈ gl <-> hl <> BeingReaped x /\ exists c, heads w !! x = Some c /\ in_reaper c = true;
  ri_gc_mem : forall x o, is_Some (gc_links w !! (x, o)) <-> is_Some (heads w !! x) /\ (o = GC_PREV \/ o = GC_NEXT);
  ri_hash : forall i x, chanhead_hash w !! i = Some x <-> hl <> BeingCreated x /\ exists c, heads w !! x = Some c /\ id c = i;
  ri_flags : forall x c, heads w !! x = Some c -> flags_ok c;
  ri_reserved : forall x c, heads w !! x = Some c -> hl <> Opened x -> reserved c = held w x;
  ri_heads : forall x c, heads w !! x = Some c -> ~ in_hole hl x -> head_ok w c;
  ri_held : forall x, 0 < held w x -> is_Some (heads w !! x);
  ri_nodes : dom (channels w) = dom (nodes (nset w));
  ri_slaves : forall m l s, slaves w !! m = Some l -> s ∈ l -> is_Some (nodes (nset w) !! s);
  ri_index : index_ok (nset w);
  ri_conns : forall n, default [] (conns w !! n) <> [] -> REDIS_MODE_DISTRIBUTED <= storage_mode cf;
}.

Lemma held_keeps w w' x : inflight w' = inflight w -> onready w' = onready w -> held w' x = held w x.
Proof. unfold held. by intros -> ->. Qed.

Lemma listening_grows w w' c : conns_grow cf (conns w) (conns w') -> listening w c -> listening w' c.
Proof.
  unfold listening. intros G. destruct (pubsub_status c); try done. intros (n & E & I & M). exists n. split_and!; try done.
  destruct (G n) as (l & -> & _). set_solver.
Qed.

Lemma head_ok_grows w w' c : conns_grow cf (conns w) (conns w') -> head_ok w c -> head_ok w' c.
Proof. intros G [A B C D E]. split; try done. by eapply listening_grows. Qed.

(** The state after a step on the head [x] alone. *)
Record becomes (w : rdstore) (x : loc) (c : rdstore_channel_head_t) (w' : rdstore) : Prop := {
  bc_keeps : keeps cf w w';
  bc_heads : heads w' = <[x := c]> (heads w);
}.

Lemma becomes_refl w x c : heads w !! x = Some c -> becomes w x c w.
Proof. intros E. split; [done|]. by rewrite insert_id. Qed.
Lemma becomes_trans w1 x c2 w2 c3 w3 : becomes w1 x c2 w2 -> becomes w2 x c3 w3 -> becomes w1 x c3 w3.
Proof. intros [K1 E1] [K2 E2]. split; [by eapply rds_keeps_trans|]. by rewrite E2, E1, insert_insert_eq. Qed.
Lemma becomes_put w x c : becomes w x c (put_head w x c).
Proof. by split. Qed.
Lemma becomes_head w x c w' : becomes w x c w' -> heads w' !! x = Some c.
Proof. intros [_ ->]. by rewrite lookup_insert_eq. Qed.

Lemma becomes_id w w1 w2 x c : keeps cf w w1 -> heads w1 = heads w -> becomes w1 x c w2 -> becomes w x c w2.
Proof. intros K E [K1 E1]. split; [by eapply rds_keeps_trans|]. by rewrite E1, E. Qed.
Lemma becomes_after w w1 w2 x c : becomes w x c w1 -> keeps cf w1 w2 -> heads w2 = heads w1 -> becomes w x c w2.
Proof. intros [K1 E1] K E. split; [by eapply rds_keeps_trans|]. by rewrite E, E1. Qed.

(** What no step on the lists changes in a head. *)
Definition same_id (c c' : rdstore_channel_head_t) : Prop :=
  id c' = id c /\ in_reaper c' = in_reaper c /\ reserved c' = reserved c.

Lemma inv_step hl gl w w' x c c' :
  rds_inv hl gl w -> heads w !! x = Some c -> becomes w x c' w' ->
  (exists L, lists_ok w' L /\ lists_place (heads w') L) -> same_id c c' -> flags_ok c' ->
  (in_hole hl x \/ head_ok w' c') -> rds_inv hl gl w'.
Proof.
  intros I Hx [[Kh Kg Kr Kn Kd Ks Kc Kco Ki Ko] Eh] L (Ei & Er & Es) [F1 F2] Ho.
  assert (forall y, is_Some (heads w' !! y) <-> is_Some (heads w !! y)) as D.
  { intros y. rewrite Eh, lookup_insert_is_Some'. naive_solver. }
  assert (forall y, held w' y = held w y) as Hd by (intros; by apply held_keeps).
  split; [done|..].
  - destruct (ri_gc _ _ _ I) as [A1 A2 A3 A4 A5]. cbn in *. unfold to_gc. rewrite Kg, Kr. by split.
  - rewrite Kr. apply I.
  - intros y. rewrite (ri_gc_in _ _ _ I), Eh. destruct (decide (y = x)) as [->|N].
    + rewrite Hx, lookup_insert_eq. split; intros (Ng & d & [= <-] & Hd'); (split; [done|]); eexists; (split; [done|]); congruence.
    + by rewrite lookup_insert_ne.
  - intros y o. rewrite Kg, D. apply I.
  - intros i y. rewrite Kh, (ri_hash _ _ _ I), Eh. destruct (decide (y = x)) as [->|N].
    + rewrite Hx, lookup_insert_eq. split; intros (Ng & d & [= <-] & Hd'); (split; [done|]); eexists; (split; [done|]); congruence.
    + by rewrite lookup_insert_ne.
  - intros y d. rewrite Eh, lookup_insert_Some. intros [[<- <-]|[N Hy]]; [done|by eapply ri_flags].
  - intros y d. rewrite Eh, Hd, lookup_insert_Some. intros [[<- <-]|[N Hy]] Nh; [rewrite Es|]; by eapply ri_reserved.
  - intros y d. rewrite Eh, lookup_insert_Some. intros [[<- <-]|[N Hy]] Nh; [by destruct Ho|].
    eapply head_ok_grows; [exact Kco|]. by eapply ri_heads.
  - intros y. rewrite Hd, D. apply I.
  - rewrite Kc, Kn. apply I.
  - intros m l s. rewrite Ks, Kn. apply I.
  - rewrite Kn. apply I.
  - intros n. destruct (Kco n) as (l & -> & M). destruct (default [] (conns w !! n)) as [|a u] eqn:E.
    + by destruct l; auto.
    + intros _. apply (ri_conns _ _ _ I n). by rewrite E.
Qed.

(** Opening and closing. *)
Lemma inv_open gl w x : rds_inv Whole gl w -> rds_inv (Opened x) gl w.
Proof.
  intros [A1 A2 A3 A4 A5 A6 A7 A10 A8 A9 B1 B2 B3 B4]. split; try done.
  - intros y. rewrite A4. naive_solver.
  - intros i y. rewrite A6. naive_solver.
  - intros y c Hy _. by apply (A10 y).
  - intros y c Hy _. apply (A8 y); [done|by intros []].
Qed.
Lemma inv_close gl w x c :
  rds_inv (Opened x) gl w -> heads w !! x = Some c -> head_ok w c -> reserved c = held w x -> rds_inv Whole gl w.
Proof.
  intros [A1 A2 A3 A4 A5 A6 A7 A10 A8 A9 B1 B2 B3 B4] Hx Ho Hr. split; try done.
  - intros y. rewrite A4. naive_solver.
  - intros i y. rewrite A6. naive_solver.
  - intros y d Hy _. destruct (decide (y = x)) as [->|N]; [congruence|apply (A10 y); [done|congruence]].
  - intros y d Hy _. destruct (decide (y = x)) as [->|N]; [congruence|by apply (A8 y)].
Qed.

(** Nothing that matters here changes. *)
Lemma inv_ext hl gl w w' :
  rds_inv hl gl w -> keeps cf w w' -> heads w' = heads w -> links w' = links w -> (forall k, get_list w' k = get_list w k) -> rds_inv hl gl w'.
Proof.
  intros I [Kh Kg Kr Kn Kd Ks Kc Kco Ki Ko] Eh El G.
  assert (forall y, held w' y = held w y) as Hd by (intros; by apply held_keeps).
  split.
  - destruct (ri_lists _ _ _ I) as (L & O & P). exists L. rewrite Eh. split; [|done]. apply (lists_ok_ext w); try done. by rewrite Eh.
  - destruct (ri_gc _ _ _ I) as [A1 A2 A3 A4 A5]. cbn in *. unfold to_gc. rewrite Kg, Kr. by split.
  - rewrite Kr. apply I.
  - intros y. rewrite Eh. apply I.
  - intros y o. rewrite Kg, Eh. apply I.
  - intros i y. rewrite Kh, Eh. apply I.
  - intros y d. rewrite Eh. apply (ri_flags _ _ _ I).
  - intros y d. rewrite Eh, Hd. apply (ri_reserved _ _ _ I).
  - intros y d. rewrite Eh. intros Hy Nh. eapply head_ok_grows; [exact Kco|]. by eapply ri_heads.
  - intros y. rewrite Hd, Eh. apply I.
  - rewrite Kc, Kn. apply I.
  - intros m l s. rewrite Ks, Kn. apply I.
  - rewrite Kn. apply I.
  - intros n. destruct (Kco n) as (l & -> & M). destruct (default [] (conns w !! n)) as [|a u] eqn:E.
    + by destruct l; auto.
    + intros _. apply (ri_conns _ _ _ I n). by rewrite E.
Qed.

(** ** Steps on one head *)

Lemma get_head_eq w x c : heads w !! x = Some c -> get_head w x = Ret c.
Proof. unfold get_head. by intros ->. Qed.
Lemma upd_head_eq w x c f : heads w !! x = Some c -> upd_head w x f = Ret (put_head w x (f c)).
Proof. unfold upd_head. intros E. by rewrite (get_head_eq _ _ _ E). Qed.

(** A head changes fields that have nothing to do with the lists. *)
Lemma inv_put_head hl gl w x c c' :
  rds_inv hl gl w -> heads w !! x = Some c -> same_id c c' -> flags_ok c' -> (forall k, placed c' k <-> placed c k) ->
  (in_hole hl x \/ head_ok w c') -> rds_inv hl gl (put_head w x c').
Proof.
  intros I Hx Si F P Ho. eapply inv_step; [done|done|apply becomes_put| |done|done|].
  - destruct (ri_lists _ _ _ I) as (L & O & Pl). exists L. split; [by apply lists_heads; eauto|]. by eapply lists_place_same.
  - destruct Ho as [|[]]; [by left|right]. by split.
Qed.

Lemma inv_append hl gl w x c c' k :
  rds_inv hl gl w -> in_hole hl x -> heads w !! x = Some c -> k <> All -> is_Some (get_list w k) ->
  (forall k', links_of k' = links_of k -> ~ placed c k') -> (forall k', placed c' k' <-> placed c k' \/ k' = k) ->
  same_id c c' -> flags_ok c' ->
  exists w', list_append w k x = Ret w' /\ heads w' = heads w /\ becomes w x c' (put_head w' x c') /\ rds_inv hl gl (put_head w' x c').
Proof.
  intros I Ih Hx Nk G N C Si F. destruct (ri_lists _ _ _ I) as (L & O & P).
  destruct (list_append_ok cf w L k x O Nk G) as (w' & E & Kp & Eh & O'); [eauto| |].
  { intros k' Ek Hk. apply P in Hk as (d & Hd & Pd). assert (d = c) as -> by congruence. by apply (N k'). }
  exists w'. assert (becomes w x c' (put_head w' x c')) as B.
  { split; [by eapply rds_keeps_trans|]. cbn. by rewrite Eh. }
  split_and!; try done. eapply inv_step; [exact I|done|done| |done|done|by left].
  eexists. split; [apply lists_heads; [exact O'|rewrite Eh; eauto]|]. cbn. rewrite Eh. by eapply lists_place_append.
Qed.

Lemma inv_remove hl gl w x c c' k :
  rds_inv hl gl w -> in_hole hl x -> heads w !! x = Some c -> k <> All -> placed c k ->
  (forall k', placed c' k' <-> placed c k' /\ k' <> k) -> same_id c c' -> flags_ok c' ->
  exists w', list_remove w k x = Ret w' /\ heads w' = heads w /\ becomes w x c' (put_head w' x c') /\ rds_inv hl gl (put_head w' x c').
Proof.
  intros I Ih Hx Nk Pk C Si F. destruct (ri_lists _ _ _ I) as (L & O & P).
  destruct (list_remove_ok cf w L k x O Nk) as (w' & xs1 & xs2 & E & Kp & Eh & EL & Nx & O'); [apply P; eauto|].
  exists w'. assert (becomes w x c' (put_head w' x c')) as B.
  { split; [by eapply rds_keeps_trans|]. cbn. by rewrite Eh. }
  split_and!; try done. eapply inv_step; [exact I|done|done| |done|done|by left].
  eexists. split; [apply lists_heads; [exact O'|rewrite Eh; eauto]|]. cbn. rewrite Eh. by eapply lists_place_remove.
Qed.

(** A node whose list a head is in exists. *)
Lemma placed_node hl gl w x c n :
  rds_inv hl gl w -> heads w !! x = Some c -> node_cmd c = Some n \/ node_pubsub c = Some n -> is_Some (channels w !! n).
Proof.
  intros I Hx C. destruct (ri_lists _ _ _ I) as (L & O & P).
  assert (exists k, x ∈ L k /\ (k = NodeCmd n \/ k = NodePubsub n)) as (k & Hk & Ek).
  { destruct C; [exists (NodeCmd n)|exists (NodePubsub n)]; (split; [apply P; eauto|auto]). }
  destruct (channels w !! n) eqn:E; [done|]. assert (L k = []) as EL.
  { apply (lo_none _ _ O). destruct Ek as [-> | ->]; cbn; by rewrite E. }
  rewrite EL in Hk. by apply elem_of_nil in Hk.
Qed.

Lemma node_of_channels hl gl w n : rds_inv hl gl w -> is_Some (channels w !! n) <-> is_Some (nodes (nset w) !! n).
Proof. intros I. rewrite <- !elem_of_dom. by rewrite (ri_nodes _ _ _ I). Qed.

Lemma inv_flags hl gl w x c : rds_inv hl gl w -> heads w !! x = Some c -> flags_ok c.
Proof. intros I Hx. by apply (ri_flags _ _ _ I x). Qed.

(** Two heads whose places are told apart by computing. *)
Ltac by_place := let k := fresh "k" in intros k; destruct k; cbn; unfold NODESET_LINKS, CMD_LINKS, PUBSUB_LINKS; intuition congruence.

(** A head is changed in place. *)
Ltac put_ok := eapply inv_put_head; [eassumption|eassumption|done|by (done || split)|by_place|by left].

Lemma set_node_cmd_same c : set_node_cmd c (node_cmd c) = c.
Proof. by destruct c. Qed.
Lemma set_node_pubsub_same c : set_node_pubsub c (node_pubsub c) = c.
Proof. by destruct c. Qed.

(** [f] is a step on the head [x] alone, that makes it [c]. *)
Definition steps (f : outcome rdstore) (hl : hole) (gl : list loc) (w : rdstore) (x : loc) (c : rdstore_channel_head_t) : Prop :=
  exists w', f = Ret w' /\ becomes w x c w' /\ rds_inv hl gl w'.

Lemma dissociate_ok hl gl w x c :
  rds_inv hl gl w -> in_hole hl x -> heads w !! x = Some c ->
  steps (nodeset_node_dissociate_chanhead w x) hl gl w x (set_node_cmd c None).
Proof.
  intros I Ih Hx. destruct (inv_flags _ _ _ _ _ I Hx) as [F1 F2]. unfold steps, nodeset_node_dissociate_chanhead.
  rewrite (get_head_eq _ _ _ Hx), bind_Ret. destruct (node_cmd c) as [n|] eqn:En.
  - destruct (inv_remove hl gl w x c (set_node_cmd c None) (NodeCmd n)) as (w' & -> & Eh & B & I'); try done; [by_place|].
    rewrite bind_Ret, (upd_head_eq _ _ c) by (by rewrite Eh). eauto.
  - rewrite bind_Ret, (upd_head_eq _ _ _ _ Hx). eexists. split; [done|]. split; [apply becomes_put|].
    put_ok.
Qed.

Lemma dissociate_pubsub_ok hl gl w x c :
  rds_inv hl gl w -> in_hole hl x -> heads w !! x = Some c ->
  steps (nodeset_node_dissociate_pubsub_chanhead w x) hl gl w x (set_node_pubsub c None).
Proof.
  intros I Ih Hx. destruct (inv_flags _ _ _ _ _ I Hx) as [F1 F2]. unfold steps, nodeset_node_dissociate_pubsub_chanhead.
  rewrite (get_head_eq _ _ _ Hx), bind_Ret. destruct (node_pubsub c) as [n|] eqn:En.
  - destruct (inv_remove hl gl w x c (set_node_pubsub c None) (NodePubsub n)) as (w' & -> & Eh & B & I'); try done; [by_place|].
    rewrite bind_Ret, (upd_head_eq _ _ c) by (by rewrite Eh). eauto.
  - exists w. split; [done|]. rewrite <- En, set_node_pubsub_same. split; [by apply becomes_refl|done].
Qed.

Lemma associate_ok hl gl w n x c :
  rds_inv hl gl w -> in_hole hl x -> heads w !! x = Some c -> has_nodeset c = true ->
  node_cmd c = None -> in_disconnected_cmd_list c = false -> is_Some (nodes (nset w) !! n) ->
  steps (nodeset_node_associate_chanhead w n x) hl gl w x (set_node_cmd c (Some n)).
Proof.
  intros I Ih Hx Hn En Ef Nn. destruct (inv_flags _ _ _ _ _ I Hx) as [F1 F2].
  unfold steps, nodeset_node_associate_chanhead. rewrite (get_head_eq _ _ _ Hx), bind_Ret, En, Hn, Ef. simpl.
  destruct (inv_append hl gl w x c (set_node_cmd c (Some n)) (NodeCmd n)) as (w' & -> & Eh & B & I'); try done.
  - cbn. apply fmap_is_Some. by eapply node_of_channels.
  - by_place.
  - by_place.
  - split; [cbn; congruence|done].
  - rewrite bind_Ret, (upd_head_eq _ _ c) by (by rewrite Eh). eauto.
Qed.

Lemma associate_pubsub_ok hl gl w n x c :
  rds_inv hl gl w -> in_hole hl x -> heads w !! x = Some c -> has_nodeset c = true ->
  node_pubsub c = None -> in_disconnected_pubsub_list c = false -> is_Some (nodes (nset w) !! n) ->
  steps (nodeset_node_associate_pubsub_chanhead w n x) hl gl w x (set_node_pubsub c (Some n)).
Proof.
  intros I Ih Hx Hn En Ef Nn. destruct (inv_flags _ _ _ _ _ I Hx) as [F1 F2].
  unfold steps, nodeset_node_associate_pubsub_chanhead. rewrite (get_head_eq _ _ _ Hx), bind_Ret, En, Hn, Ef. simpl.
  destruct (inv_append hl gl w x c (set_node_pubsub c (Some n)) (NodePubsub n)) as (w' & -> & Eh & B & I'); try done.
  - cbn. apply fmap_is_Some. by eapply node_of_channels.
  - by_place.
  - by_place.
  - split; [done|cbn; congruence].
  - rewrite bind_Ret, (upd_head_eq _ _ c) by (by rewrite Eh). eauto.
Qed.

(** ** Choosing a node *)

Definition ready_node (w : rdstore) (n : loc) : Prop := exists nd, nodes (nset w) !! n = Some nd /\ REDIS_NODE_READY <= n_state nd.

(** The node that the id of a channel is looked up is a master, and ready. *)
Definition serves (w : rdstore) (chid : bytes) : Prop :=
  exists n nd, nodeset_node_find_by_channel_id (nset w) chid = Ret (Some n) /\ nodes (nset w) !! n = Some nd /\
    n_role nd = REDIS_NODE_ROLE_MASTER /\ REDIS_NODE_READY <= n_state nd.

Lemma serves_keeps w w' chid : nset w' = nset w -> serves w chid -> serves w' chid.
Proof. unfold serves. intros ->. done. Qed.

Lemma ready_some w n : ready_node w n -> is_Some (nodes (nset w) !! n).
Proof. intros (nd & -> & _). eauto. Qed.

Definition weights_ok : Prop := 0 <= master_weight cf < 2 ^ 31 /\ forall k, 0 <= ngx_random cf k.
Context (W : weights_ok).

Lemma inv_draws hl gl w n : rds_inv hl gl w -> rds_inv hl gl (set_draws w n).
Proof. intros I. eapply inv_ext; [exact I|..]; done. Qed.
Lemma inv_note hl gl w e : rds_inv hl gl w -> rds_inv hl gl (note w e).
Proof. intros I. eapply inv_ext; [exact I|..]; done. Qed.

Lemma random_node_ok hl gl w m nd :
  rds_inv hl gl w -> nodes (nset w) !! m = Some nd -> n_role nd = REDIS_NODE_ROLE_MASTER -> REDIS_NODE_READY <= n_state nd ->
  exists k n, nodeset_node_random_master_or_slave cf w m = Ret (set_draws w k, n) /\ ready_node w n.
Proof.
  intros I Hm Er Es. unfold nodeset_node_random_master_or_slave, ClusterSlots.get_node. rewrite Hm, bind_Ret, Er. simpl.
  assert (ready_node w m) as Rm by by exists nd.
  assert (set_draws w (draws w) = w) as E0 by by destruct w.
  set (sl := default [] (slaves w !! m)). set (sn := u64 (Z.of_nat (length sl))). set (st := s32 (sn * slave_weight cf)).
  destruct W as [Wm Wr]. assert (s32 (master_weight cf) = master_weight cf) as ->.
  { apply wraps_small; [lia|]. unfold in_s. change (2 ^ (32 - 1)) with (2 ^ 31). lia. }
  destruct (Z.eqb_spec (s32 (master_weight cf + st)) 0) as [E|Nz]; [exists (draws w), m; by rewrite E0|].
  unfold random_below, random. rewrite Z.add_comm in Nz. rewrite (proj2 (Z.eqb_neq _ _) Nz), bind_Ret.
  destruct (Z.ltb_spec (s32 (Z.rem (ngx_random cf (draws w)) (s32 (st + master_weight cf)))) (master_weight cf)) as [L|G];
    [eexists _, m; done|].
  destruct (Z.eqb_spec sn 0) as [E0'|Ns].
  - exfalso. assert (st = 0) as Es0 by (unfold st; by rewrite E0'). rewrite Es0 in G, Nz.
    assert (s32 (0 + master_weight cf) = master_weight cf) as Em.
    { apply wraps_small; [lia|]. unfold in_s. change (2 ^ (32 - 1)) with (2 ^ 31). lia. }
    rewrite Em in G, Nz. specialize (Wr (draws w)). pose proof (Z.rem_bound_pos (ngx_random cf (draws w)) (master_weight cf)) as B.
    rewrite wraps_small in G; [lia|lia|]. unfold in_s. change (2 ^ (32 - 1)) with (2 ^ 31). lia.
  - rewrite bind_Ret. cbn [draws set_draws nset]. destruct (sl !! _) as [s|] eqn:Els; [|eexists _, m; done].
    assert (is_Some (nodes (nset w) !! s)) as [ns Hs].
    { apply list_elem_of_lookup_2 in Els. unfold sl in Els. destruct (slaves w !! m) eqn:Em; [|by apply elem_of_nil in Els].
      by eapply ri_slaves. }
    rewrite Hs, bind_Ret. destruct (Z.ltb_spec (n_state ns) REDIS_NODE_READY); eexists _, _; (split; [reflexivity|done || by exists ns]).
Qed.

(** ** Finding the node of a head *)

Lemma find_by_chanhead_ok hl gl w x c :
  rds_inv hl gl w -> in_hole hl x -> heads w !! x = Some c -> has_nodeset c = true ->
  in_disconnected_cmd_list c = false -> (node_cmd c = None -> serves w (id c)) ->
  exists w' n, nodeset_node_find_by_chanhead w x = Ret (w', n) /\ becomes w x (set_node_cmd c (Some n)) w' /\ rds_inv hl gl w' /\
    is_Some (nodes (nset w) !! n) /\ (node_cmd c = Some n \/ node_cmd c = None /\ ready_node w n).
Proof.
  intros I Ih Hx Hn Ef Sv. unfold nodeset_node_find_by_chanhead. rewrite (get_head_eq _ _ _ Hx), bind_Ret.
  destruct (node_cmd c) as [n|] eqn:En.
  - exists w, n. rewrite <- En, set_node_cmd_same. split_and!; [done|by apply becomes_refl|done| |by left].
    eapply node_of_channels; [done|]. eapply placed_node; eauto.
  - unfold need_nodeset. rewrite Hn. simpl. destruct (Sv eq_refl) as (n & nd & -> & Hnd & _ & St). rewrite bind_Ret.
    destruct (associate_ok hl gl w n x c I Ih Hx Hn En Ef) as (w' & -> & B & I'); [eauto|].
    exists w', n. split_and!; [done|done|done|eauto|]. right. split; [done|]. by exists nd.
Qed.

Lemma pubsub_find_ok hl gl w x c :
  rds_inv hl gl w -> in_hole hl x -> heads w !! x = Some c -> has_nodeset c = true ->
  in_disconnected_pubsub_list c = false -> (node_pubsub c = None -> serves w (id c)) ->
  exists w' n, nodeset_node_pubsub_find_by_chanhead cf w x = Ret (w', n) /\ becomes w x (set_node_pubsub c (Some n)) w' /\
    rds_inv hl gl w' /\ is_Some (nodes (nset w) !! n) /\ (node_pubsub c = Some n \/ node_pubsub c = None /\ ready_node w n).
Proof.
  intros I Ih Hx Hn Ef Sv. unfold nodeset_node_pubsub_find_by_chanhead. rewrite (get_head_eq _ _ _ Hx), bind_Ret.
  destruct (node_pubsub c) as [n|] eqn:En.
  - exists w, n. rewrite <- En, set_node_pubsub_same. split_and!; [done|by apply becomes_refl|done| |by left].
    eapply node_of_channels; [done|]. eapply placed_node; eauto.
  - unfold need_nodeset. rewrite Hn. simpl. destruct (Sv eq_refl) as (m & nd & -> & Hnd & Ro & St). rewrite bind_Ret.
    destruct (random_node_ok hl gl w m nd I Hnd Ro St) as (k & n & -> & Rn). rewrite bind_Ret.
    destruct (associate_pubsub_ok hl gl (set_draws w k) n x c) as (w' & -> & B & I'); try done; [by apply inv_draws|by apply ready_some|].
    rewrite bind_Ret, (get_head_eq _ _ _ (becomes_head _ _ _ _ B)), bind_Ret. cbn [node_pubsub set_node_pubsub].
    exists w', n. split_and!; [done|by eapply becomes_id|done|by apply ready_some|auto].
Qed.

(** ** The pubsub status *)

Definition queued_head (c : rdstore_channel_head_t) : rdstore_channel_head_t :=
  set_in_pubsub_list (set_node_pubsub (set_pubsub c REDIS_PUBSUB_UNSUBSCRIBED) None) true.
Definition unsubscribed_head (c : rdstore_channel_head_t) : rdstore_channel_head_t :=
  if (storage_mode cf =? REDIS_MODE_BACKUP) && bool_decide (status c = READY) then set_status (queued_head c) NOTREADY else queued_head c.

(** What is logged about a head that is not subscribed any more does not need a
    node that is not there. *)
Definition may_log (nd : ptr) (c : rdstore_channel_head_t) : Prop :=
  nd = None -> match pubsub_status c with
    | REDIS_PUBSUB_UNSUBSCRIBED => log_level cf < NGX_LOG_WARN
    | REDIS_PUBSUB_SUBSCRIBING => log_level cf < NGX_LOG_ERR
    | REDIS_PUBSUB_SUBSCRIBED => True
    end.
Lemma may_log_eq nd c : may_log nd c ->
  match pubsub_status c with
  | REDIS_PUBSUB_UNSUBSCRIBED => node_log cf nd NGX_LOG_WARN
  | REDIS_PUBSUB_SUBSCRIBING => node_log cf nd NGX_LOG_ERR
  | REDIS_PUBSUB_SUBSCRIBED => Ret tt
  end = Ret tt.
Proof.
  unfold may_log, node_log. intros M. destruct nd as [n|]; [by destruct (pubsub_status c); rewrite ?orb_true_r|].
  specialize (M eq_refl). destruct (pubsub_status c); try done; rewrite (proj2 (Z.leb_gt _ _)) by done; done.
Qed.

Lemma unsubscribed_ok hl gl w x c nd :
  rds_inv hl gl w -> in_hole hl x -> heads w !! x = Some c -> has_nodeset c = true -> may_log nd c ->
  steps (redis_chanhead_set_pubsub_status cf w x nd REDIS_PUBSUB_UNSUBSCRIBED) hl gl w x (unsubscribed_head c).
Proof.
  intros I Ih Hx Hn Ml. pose proof (inv_flags _ _ _ _ _ I Hx) as F. unfold steps. cbn [redis_chanhead_set_pubsub_status].
  rewrite (get_head_eq _ _ _ Hx), bind_Ret, (may_log_eq nd c Ml), bind_Ret.
  rewrite (upd_head_eq _ _ _ _ Hx), bind_Ret. set (c1 := set_pubsub c REDIS_PUBSUB_UNSUBSCRIBED). set (w1 := put_head w x c1).
  assert (rds_inv hl gl w1) as I1 by (put_ok).
  assert (heads w1 !! x = Some c1) as H1 by apply lookup_insert_eq.
  destruct (dissociate_pubsub_ok hl gl w1 x c1 I1 Ih H1) as (w2 & -> & B2 & I2). rewrite bind_Ret.
  pose proof (becomes_head _ _ _ _ B2) as H2. rewrite (get_head_eq _ _ _ H2), bind_Ret.
  assert (exists w3, (if negb (in_disconnected_pubsub_list (set_node_pubsub c1 None)) then
             need_nodeset (set_node_pubsub c1 None);; w ← list_append w2 DisconnectedPubsub x; upd_head w x (fun c => set_in_pubsub_list c true)
           else Ret w2) = Ret w3 /\ becomes w2 x (queued_head c) w3 /\ rds_inv hl gl w3) as (w3 & -> & B3 & I3).
  { destruct (in_disconnected_pubsub_list c) eqn:Ef; cbn [in_disconnected_pubsub_list set_node_pubsub c1 set_pubsub negb]; rewrite Ef; cbn [negb].
    - exists w2. split; [done|]. split; [|done]. replace (queued_head c) with (set_node_pubsub c1 None); [by apply becomes_refl|].
      unfold queued_head, c1. destruct c; cbn in *. by rewrite Ef.
    - unfold need_nodeset. cbn [has_nodeset set_node_pubsub c1 set_pubsub]. rewrite Hn. simpl. destruct F as [F1 F2].
      destruct (inv_append hl gl w2 x (set_node_pubsub c1 None) (queued_head c) DisconnectedPubsub) as (w3 & -> & Eh & B3 & I3); try done.
      + by_place.
      + by_place.
      + rewrite bind_Ret, (upd_head_eq _ _ (set_node_pubsub c1 None)) by (by rewrite Eh). eauto. }
  rewrite bind_Ret. pose proof (becomes_head _ _ _ _ B3) as H3. rewrite (get_head_eq _ _ _ H3), bind_Ret.
  unfold need_nodeset. cbn [has_nodeset queued_head set_in_pubsub_list set_node_pubsub set_pubsub]. rewrite Hn. simpl c_assert. rewrite bind_Ret.
  assert (becomes w x (queued_head c) w3) as B by (eapply becomes_trans; [apply becomes_put|]; eapply becomes_trans; done).
  unfold unsubscribed_head. cbn [status queued_head set_in_pubsub_list set_node_pubsub set_pubsub].
  destruct ((storage_mode cf =? REDIS_MODE_BACKUP) && bool_decide (status c = READY)); [|eauto].
  eexists. split; [done|]. split; [eapply becomes_after; [eapply becomes_trans; [exact B|apply becomes_put]|done..]|].
  apply inv_note. destruct (inv_flags _ _ _ _ _ I3 H3). put_ok.
Qed.

Definition subscribed_head (c : rdstore_channel_head_t) : rdstore_channel_head_t :=
  let c := set_pubsub c REDIS_PUBSUB_SUBSCRIBED in if decide (status c = NOTREADY) then set_status c READY else c.

(** The node that answers is the one that lists the head. *)
Lemma subscribed_ok hl gl w x c n :
  rds_inv hl gl w -> in_hole hl x -> heads w !! x = Some c -> node_pubsub c = Some n ->
  status c = INACTIVE \/ status c = NOTREADY \/ status c = READY ->
  steps (redis_chanhead_set_pubsub_status cf w x (Some n) REDIS_PUBSUB_SUBSCRIBED) hl gl w x (subscribed_head c).
Proof.
  intros I Ih Hx En Hs. pose proof (inv_flags _ _ _ _ _ I Hx) as F. unfold steps. cbn [redis_chanhead_set_pubsub_status].
  rewrite (upd_head_eq _ _ _ _ Hx), bind_Ret. set (c1 := set_pubsub c REDIS_PUBSUB_SUBSCRIBED). set (w1 := put_head w x c1).
  assert (rds_inv hl gl w1) as I1 by (put_ok).
  assert (heads w1 !! x = Some c1) as H1 by apply lookup_insert_eq.
  unfold nodeset_node_associate_pubsub_chanhead. rewrite (get_head_eq _ _ _ H1), bind_Ret.
  cbn [node_pubsub c1 set_pubsub]. rewrite bool_decide_eq_true_2, bind_Ret by done.
  rewrite (get_head_eq _ _ _ H1), bind_Ret. cbn [status c1 set_pubsub].
  assert (subscribed_head c = if decide (status c = NOTREADY) then set_status c1 READY else c1) as -> by done.
  destruct Hs as [-> | [-> | ->]]; cbn.
  - exists w1. split; [done|]. split; [apply becomes_put|done].
  - eexists. split; [done|]. split; [eapply becomes_after; [eapply becomes_trans; apply becomes_put|done..]|].
    apply inv_note. destruct (inv_flags _ _ _ _ _ I1 H1). put_ok.
  - exists w1. split; [done|]. split; [apply becomes_put|done].
Qed.

(** ** Asking *)

Lemma command_ok hl gl w n cmd : rds_inv hl gl w -> is_Some (nodes (nset w) !! n) -> REDIS_MODE_DISTRIBUTED <= storage_mode cf ->
  exists w', redis_subscriber_command w n cmd = Ret w' /\ keeps cf w w' /\ heads w' = heads w /\ rds_inv hl gl w' /\
    (ready_node w n -> cmd ∈ default [] (conns w' !! n)).
Proof.
  intros I [nd Hn] M. unfold redis_subscriber_command, ClusterSlots.get_node. rewrite Hn, bind_Ret.
  destruct (Z.leb_spec REDIS_NODE_READY (n_state nd)) as [L|L].
  - eexists. split; [done|]. assert (keeps cf w (set_conns w (<[n:=default [] (conns w !! n) ++ [cmd]]> (conns w)))) as K.
    { split; try done. cbn. intros m. destruct (decide (m = n)) as [->|N].
      - rewrite lookup_insert_eq. by eexists.
      - rewrite lookup_insert_ne by done. apply conns_grow_refl. }
    split_and!; try done; [by eapply inv_ext|]. intros _. cbn. rewrite lookup_insert_eq. set_solver.
  - exists w. split_and!; try done. intros (nd' & E & G). rewrite Hn in E. injection E as <-. lia.
Qed.

Definition may_listen (w : rdstore) (c : rdstore_channel_head_t) : Prop :=
  ns_ready w = true -> in_disconnected_pubsub_list c = false /\ (forall n, node_pubsub c = Some n -> ready_node w n) /\ serves w (id c).

Definition asking_head (c : rdstore_channel_head_t) (n : loc) : rdstore_channel_head_t :=
  set_pubsub (set_node_pubsub c (Some n)) REDIS_PUBSUB_SUBSCRIBING.

(** Afterwards the head has asked, unless it need not or cannot. *)
Lemma ensure_ok hl gl w x c :
  rds_inv hl gl w -> in_hole hl x -> heads w !! x = Some c -> has_nodeset c = true -> may_listen w c ->
  exists c', steps (ensure_chanhead_pubsub_subscribed_if_needed cf w x) hl gl w x c' /\
    ((c' = c /\ (pubsub_status c <> REDIS_PUBSUB_UNSUBSCRIBED \/ ~ (REDIS_MODE_DISTRIBUTED <= storage_mode cf /\ ns_ready w = true))) \/
     (exists n, pubsub_status c = REDIS_PUBSUB_UNSUBSCRIBED /\ c' = asking_head c n /\ in_disconnected_pubsub_list c = false /\
        REDIS_MODE_DISTRIBUTED <= storage_mode cf /\ ready_node w n /\ forall w', ensure_chanhead_pubsub_subscribed_if_needed cf w x = Ret w' -> listening w' c')).
Proof.
  intros I Ih Hx Hn Ml. unfold steps, ensure_chanhead_pubsub_subscribed_if_needed. rewrite (get_head_eq _ _ _ Hx), bind_Ret.
  assert (exists w', Ret w = Ret w' /\ becomes w x c w' /\ rds_inv hl gl w') as Same by (exists w; split_and!; [done|by apply becomes_refl|done]).
  destruct (pubsub_status c) eqn:Ep; cbn [bool_decide]; [exists c; split; [exact Same|left; split; [done|by left]]..|].
  rewrite !bool_decide_eq_true_2 by done. cbn [andb]. unfold need_nodeset. rewrite Hn. simpl c_assert. rewrite bind_Ret.
  destruct (Z.leb_spec REDIS_MODE_DISTRIBUTED (storage_mode cf)) as [M|M]; [|exists c; split; [exact Same|left; split; [done|right; lia]]].
  destruct (ns_ready w) eqn:Er; cbn [andb]; [|exists c; split; [exact Same|left; split; [done|right; by intros []]]].
  destruct (Ml Er) as (Ef & Rp & Sv).
  destruct (pubsub_find_ok hl gl w x c I Ih Hx Hn Ef) as (w1 & n & -> & B1 & I1 & Nn & Cn); [done|]. rewrite bind_Ret.
  assert (ready_node w n) as Rn by (destruct Cn as [?|[? ?]]; auto).
  pose proof (becomes_head _ _ _ _ B1) as H1. cbn [redis_chanhead_set_pubsub_status]. rewrite (upd_head_eq _ _ _ _ H1), bind_Ret.
  set (c2 := set_pubsub _ _). set (w2 := put_head w1 x c2).
  assert (rds_inv hl gl w2) as I2.
  { destruct (inv_flags _ _ _ _ _ I1 H1). put_ok. }
  assert (becomes w x c2 w2) as B2 by (eapply becomes_trans; [exact B1|apply becomes_put]).
  destruct B2 as [K2 E2]. pose proof (k_nset _ _ _ K2) as Kn.
  destruct (command_ok hl gl w2 n (SUBSCRIBE (id c)) I2) as (w3 & -> & K3 & E3 & I3 & Sent); [by rewrite Kn|done|].
  exists c2. split.
  - exists w3. split; [done|]. split; [|done]. split; [by eapply rds_keeps_trans|]. by rewrite E3.
  - right. exists n. split_and!; try done. intros w' [= <-]. unfold listening. cbn. exists n. split_and!; try done. apply Sent.
    unfold ready_node. by rewrite Kn.
Qed.

(** ** The reaper *)

(** The reaper alone moves. *)
Lemma inv_reaper hl hl' gl gl' w h r :
  rds_inv hl gl w -> reaper_rep (RWorld h r w) gl' -> same_reaper (chanhead_reaper w) r -> dom h = dom (gc_links w) ->
  (forall x, x ∈ gl' <-> hl' <> BeingReaped x /\ exists c, heads w !! x = Some c /\ in_reaper c = true) ->
  (forall x, hl' = BeingCreated x <-> hl = BeingCreated x) ->
  (forall x c, heads w !! x = Some c -> in_hole hl x -> in_hole hl' x \/ head_ok w c) -> (forall x, hl = Opened x -> hl' = Opened x) -> rds_inv hl' gl' (set_reaper w h r).
Proof.
  intros I [R1 R2 R3 R4 R5] S D Gi Bc Hh Ho. pose proof (ri_gc_conf _ _ _ I) as S0.
  pose proof I as [A1 A2 A3 A4 A5 A6 A7 A10 A8 A9 B1 B2 B3 B4]. split; cbn in *; try done.
  - destruct A1 as (L & O & P). exists L. split; [|done]. apply (lists_ok_ext w); done.
  - by eapply same_reaper_trans.
  - intros x o. rewrite <- elem_of_dom, D, elem_of_dom. apply A5.
  - intros i x. rewrite (ri_hash _ _ _ I). specialize (Bc x). tauto.
  - intros x c Hx Nh. apply (A10 x c Hx). intros E. by apply Nh, Ho.
  - intros x c Hx Nh. assert (in_hole hl x \/ ~ in_hole hl x) as [E|E].
    { destruct hl as [|y|y|y]; cbn; [right; by intros []|destruct (decide (x = y)); auto..]. }
    + destruct (Hh x c Hx E) as [?|[]]; [done|by split].
    + destruct (ri_heads _ _ _ I x c Hx E). by split.
Qed.

Definition rescans (r : nchan_reaper_t) : Prop :=
  strategy r = RESCAN /\ (forall n, notready_limit r n = 0) /\ prev_ptr_offset r = GC_PREV /\ next_ptr_offset r = GC_NEXT.
Lemma inv_rescans hl gl w : rds_inv hl gl w -> rescans (chanhead_reaper w).
Proof. intros I. destruct (ri_gc_conf _ _ _ I) as (E1 & E2 & E3 & E4). split_and!; [done|intros n; by rewrite E4|done|done]. Qed.

Lemma gc_withdraw_ok hl gl w x c :
  rds_inv hl gl w -> (forall y, hl <> BeingReaped y) -> in_hole hl x -> heads w !! x = Some c -> has_nodeset c = true ->
  in_reaper c = true -> status c = INACTIVE ->
  exists w' gl', redis_chanhead_gc_withdraw w x = Ret w' /\ rds_inv hl gl' w' /\
    heads w' = <[x := set_gc c (status c) (gc_time c) false]> (heads w) /\
    (w' = set_reaper (put_head w x (set_gc c (status c) (gc_time c) false)) (gc_links w') (chanhead_reaper w')).
Proof.
  intros I Nb Ih Hx Hn Er Es. unfold redis_chanhead_gc_withdraw. rewrite (get_head_eq _ _ _ Hx), bind_Ret, Er.
  unfold need_nodeset. rewrite Hn, Es. simpl c_assert. rewrite !bind_Ret.
  assert (x ∈ gl) as Hg by (apply (ri_gc_in _ _ _ I); eauto). pose proof Hg as Hg'.
  apply list_elem_of_split in Hg' as (g1 & g2 & ->).
  pose proof (ri_gc _ _ _ I) as R. destruct (rr_list _ _ R) as [ND _]. destruct (inv_rescans _ _ _ I) as (Rs & _).
  destruct (reaper_withdraw_spec (to_gc w) g1 x g2 R) as (r & -> & R' & _ & Ee & [Ms Mt] & [Td Tf]).
  { intros Ek. cbn in Ek. congruence. }
  rewrite bind_Ret. destruct r as [h r e]. cbn in Ee. subst e. cbn in *.
  assert (heads (of_gc (RWorld h r w)) !! x = Some c) as Hx' by done.
  rewrite (upd_head_eq _ _ _ _ Hx'), ?Es. set (c' := set_gc c _ _ _).
  exists (put_head (of_gc (RWorld h r w)) x c'), (g1 ++ g2). split; [done|].
  assert (rds_inv hl (g1 ++ g2) (put_head (of_gc (RWorld h r w)) x c')) as I'.
  2:{ split_and!; done. }
  assert (x ∉ g1 ++ g2) as Nx.
  { apply NoDup_app in ND as (_ & N1 & [N2 _]%NoDup_cons). intros [Hy|Hy]%elem_of_app; [|done]. apply (N1 x Hy). set_solver. }
  destruct R' as [R1 R2 R3 R4 R5].
  assert (forall y, is_Some (<[x:=c']> (heads w) !! y) <-> is_Some (heads w !! y)) as D by (intros y; rewrite lookup_insert_is_Some'; naive_solver).
  pose proof I as [A1 A2 A3 A4 A5 A6 A7 A10 A8 A9 B1 B2 B3 B4]. split; cbn; try done.
  - destruct (ri_lists _ _ _ I) as (L & O & P). exists L. split.
    + apply (lists_ok_ext w); done.
    + eapply lists_place_same; [done|done|]. intros k. by destruct k.
  - by eapply same_reaper_trans.
  - intros y. destruct (decide (y = x)) as [->|N].
    + rewrite lookup_insert_eq. split; [done|]. intros (_ & d & [= <-] & [=]).
    + rewrite lookup_insert_ne by done. rewrite <- (ri_gc_in _ _ _ I). set_solver.
  - intros y o. rewrite <- elem_of_dom, Td, elem_of_dom, D. apply I.
  - intros i y. rewrite (ri_hash _ _ _ I). destruct (decide (y = x)) as [->|N]; [|by rewrite lookup_insert_ne].
    rewrite Hx, lookup_insert_eq. split; intros (Nc & d & [= <-] & Hd); (split; [done|]); eexists; (split; [done|]); done.
  - intros y d. rewrite lookup_insert_Some. intros [[<- <-]|[N Hy]]; [by apply (A7 x c)|by apply (A7 y)].
  - intros y d. rewrite lookup_insert_Some. intros [[<- <-]|[N Hy]] Nh; [by apply (A10 x c)|by apply (A10 y)].
  - intros y d. rewrite lookup_insert_Some. intros [[<- <-]|[N Hy]] Nh; [done|].
    destruct (ri_heads _ _ _ I y d Hy Nh). by split.
  - intros y Hy. apply D. by apply (ri_held _ _ _ I).
Qed.

(** [channels.all] never had the head: removing it only takes one off the count. *)
Lemma all_remove_eq w L x :
  lists_ok w L -> is_Some (heads w !! x) ->
  list_remove w All x = Ret (set_list w All (SL None None (u64 (n (all w) - 1)) NODESET_LINKS)).
Proof.
  intros O Hx. destruct (lo_all _ _ O) as (_ & Eo & Eh & Et). unfold list_remove. cbn [get_list].
  pose proof (lo_null _ _ O x 0 Hx (or_introl eq_refl)) as Z1. pose proof (lo_null _ _ O x 8 Hx (or_intror eq_refl)) as Z2.
  unfold nchan_slist_remove. rewrite Eo, Eh, Et. cbn [prev next NODESET_LINKS].
  rewrite (load_Some _ _ _ _ Z1), bind_Ret, (load_Some _ _ _ _ Z2), bind_Ret. cbn.
  unfold store. rewrite Z1. cbn. rewrite insert_id by done. rewrite Z2. cbn. rewrite insert_id by done.
  by destruct w.
Qed.

Definition gone_head (c : rdstore_channel_head_t) : rdstore_channel_head_t :=
  set_nodeset (set_in_pubsub_list (set_node_pubsub (set_in_cmd_list (set_node_cmd c None) false) None) false) false.

Lemma unqueue_cmd_ok hl gl w x c :
  rds_inv hl gl w -> in_hole hl x -> heads w !! x = Some c ->
  steps (if bool_decide (node_cmd c <> None) then
           c_assert (negb (in_disconnected_cmd_list c));; nodeset_node_dissociate_chanhead w x
         else if in_disconnected_cmd_list c then
           w ← upd_head w x (fun c => set_in_cmd_list c false); list_remove w DisconnectedCmd x
         else Ret w) hl gl w x (set_in_cmd_list (set_node_cmd c None) false).
Proof.
  intros I Ih Hx. destruct (inv_flags _ _ _ _ _ I Hx) as [F1 F2]. unfold steps.
  destruct (node_cmd c) as [n|] eqn:En; cbn [bool_decide].
  - rewrite bool_decide_eq_true_2 by done. destruct (in_disconnected_cmd_list c) eqn:Ef; [by specialize (F1 eq_refl)|].
    simpl c_assert. rewrite bind_Ret. destruct (dissociate_ok hl gl w x c I Ih Hx) as (w' & E & B & I').
    exists w'. split; [done|]. replace (set_in_cmd_list _ _) with (set_node_cmd c None); [done|]. destruct c; cbn in *. by rewrite Ef.
  - rewrite bool_decide_eq_false_2 by auto. destruct (in_disconnected_cmd_list c) eqn:Ef.
    + rewrite (upd_head_eq _ _ _ _ Hx), bind_Ret.
      destruct (inv_remove hl gl w x c (set_in_cmd_list (set_node_cmd c None) false) DisconnectedCmd) as (w' & E & Eh & B & I'); try done; [by_place|].
      exists (put_head w' x (set_in_cmd_list (set_node_cmd c None) false)). split; [|done].
      revert E. unfold list_remove. cbn. destruct (nchan_slist_remove _ _ _) as [[h l]| |]; cbn; [|done..].
      intros [= <-]. do 2 f_equal. destruct c; cbn in *. by rewrite En.
    + exists w. split; [done|]. replace (set_in_cmd_list _ _) with c; [split; [by apply becomes_refl|done]|]. destruct c; cbn in *. by rewrite En, Ef.
Qed.

Lemma unqueue_pubsub_ok hl gl w x c :
  rds_inv hl gl w -> in_hole hl x -> heads w !! x = Some c ->
  steps (if bool_decide (node_pubsub c <> None) then
           c_assert (negb (in_disconnected_pubsub_list c));; nodeset_node_dissociate_pubsub_chanhead w x
         else if in_disconnected_pubsub_list c then
           w ← upd_head w x (fun c => set_in_pubsub_list c false); list_remove w DisconnectedPubsub x
         else Ret w) hl gl w x (set_in_pubsub_list (set_node_pubsub c None) false).
Proof.
  intros I Ih Hx. destruct (inv_flags _ _ _ _ _ I Hx) as [F1 F2]. unfold steps.
  destruct (node_pubsub c) as [n|] eqn:En; cbn [bool_decide].
  - rewrite bool_decide_eq_true_2 by done. destruct (in_disconnected_pubsub_list c) eqn:Ef; [by specialize (F2 eq_refl)|].
    simpl c_assert. rewrite bind_Ret. destruct (dissociate_pubsub_ok hl gl w x c I Ih Hx) as (w' & E & B & I').
    exists w'. split; [done|]. replace (set_in_pubsub_list _ _) with (set_node_pubsub c None); [done|]. destruct c; cbn in *. by rewrite Ef.
  - rewrite bool_decide_eq_false_2 by auto. destruct (in_disconnected_pubsub_list c) eqn:Ef.
    + rewrite (upd_head_eq _ _ _ _ Hx), bind_Ret.
      destruct (inv_remove hl gl w x c (set_in_pubsub_list (set_node_pubsub c None) false) DisconnectedPubsub) as (w' & E & Eh & B & I'); try done; [by_place|].
      exists (put_head w' x (set_in_pubsub_list (set_node_pubsub c None) false)). split; [|done].
      revert E. unfold list_remove. cbn. destruct (nchan_slist_remove _ _ _) as [[h l]| |]; cbn; [|done..].
      intros [= <-]. do 2 f_equal. destruct c; cbn in *. by rewrite En.
    + exists w. split; [done|]. replace (set_in_pubsub_list _ _) with c; [split; [by apply becomes_refl|done]|]. destruct c; cbn in *. by rewrite En, Ef.
Qed.

Lemma dissociate_all_ok hl gl w x c :
  rds_inv hl gl w -> in_hole hl x -> heads w !! x = Some c -> has_nodeset c = true ->
  steps (nodeset_dissociate_chanhead w x) hl gl w x (gone_head c).
Proof.
  intros I Ih Hx Hn. unfold steps, nodeset_dissociate_chanhead. rewrite (get_head_eq _ _ _ Hx), bind_Ret, Hn.
  destruct (unqueue_cmd_ok hl gl w x c I Ih Hx) as (w1 & -> & B1 & I1). rewrite bind_Ret.
  pose proof (becomes_head _ _ _ _ B1) as H1. rewrite (get_head_eq _ _ _ H1), bind_Ret.
  destruct (unqueue_pubsub_ok hl gl w1 x _ I1 Ih H1) as (w2 & -> & B2 & I2). rewrite bind_Ret.
  pose proof (becomes_head _ _ _ _ B2) as H2. rewrite (upd_head_eq _ _ _ _ H2), bind_Ret.
  set (c3 := set_nodeset _ _). set (w3 := put_head w2 x c3).
  assert (rds_inv hl gl w3) as I3 by put_ok.
  destruct (ri_lists _ _ _ I3) as (L & O & P). rewrite (all_remove_eq w3 L x O) by (cbn; rewrite lookup_insert_eq; eauto).
  eexists. split; [done|]. split.
  - eapply becomes_after; [eapply becomes_trans; [exact B1|eapply becomes_trans; [exact B2|apply becomes_put]]|by split|done].
  - pose proof I3 as [A1 A2 A3 A4 A5 A6 A7 A10 A8 A9 C1 C2 C3 C4]. split; try done.
    + exists L. split; [|done]. destruct O as [R N (A & _) M Z S]. split; try done.
      * intros k l Nk G. apply R; [done|]. by destruct k.
      * intros k G. apply N. by destruct k.
    + by destruct A2.
    + intros y d Hy Nh. by destruct (A8 y d Hy Nh).
Qed.

(** Freeing a head that is nowhere. *)
Lemma rds_free_head_ok gl w x c :
  rds_inv (BeingReaped x) gl w -> heads w !! x = Some c -> (forall k, ~ placed c k) -> held w x = 0 ->
  exists w', free_head w x = Ret w' /\ rds_inv Whole gl w' /\ heads w' = delete x (heads w) /\ conns w' = conns w /\
    nset w' = nset w /\ ns_ready w' = ns_ready w /\ inflight w' = inflight w /\ onready w' = onready w /\ chanhead_reaper w' = chanhead_reaper w.
Proof.
  intros I Hx Np Hh. unfold free_head. rewrite (get_head_eq _ _ _ Hx), bind_Ret. eexists. split; [reflexivity|]. split; [|done].
  pose proof I as [A1 A2 A3 A4 A5 A6 A7 A10 A8 A9 C1 C2 C3 C4].
  assert (x ∉ gl) as Ng by (intros G; apply A4 in G as [G _]; congruence).
  set (h' := dealloc (prev NODESET_LINKS) (next NODESET_LINKS) _ x).
  assert (forall y o, y <> x -> h' !! (y, o) = links w !! (y, o)) as Fr.
  { intros y o N. unfold h', dealloc. by rewrite !lookup_delete_ne by congruence. }
  assert (forall y, is_Some (delete x (heads w) !! y) <-> is_Some (heads w !! y) /\ y <> x) as D.
  { intros y. rewrite lookup_delete_is_Some. naive_solver. }
  split; cbn; try done.
  - destruct A1 as (L & O & P). exists L. unfold lists_place in *. assert (forall k, x ∉ L k) as Nl.
    { intros k Hk. apply P in Hk as (d & Hd & Pd). assert (d = c) as -> by congruence. by apply (Np k). }
    split.
    + destruct O as [R N A M Z S]. split; cbn; try done.
      * intros k l Nk G. destruct (R k l Nk) as [Eo Rl]; [by destruct k|]. split; [done|]. eapply rep_frame, Rl.
        intros y o Hy _. apply Fr. intros ->. by apply (Nl k).
      * intros y o. rewrite D. unfold h'. rewrite !dealloc_mem, M. split; [|intuition].
        intros ((((Hy & Ho) & N1) & N2) & N3). split; [split; [done|]|done]. intros ->. unfold link_offsets in Ho.
        do 6 (apply elem_of_cons in Ho as [->|Ho]; [first [apply N1 | apply N2 | apply N3]; cbn; tauto|]). by apply elem_of_nil in Ho.
      * intros y o [Hy N']%D Ho. rewrite Fr by done. by apply Z.
    + intros k y. rewrite (P k y). destruct (decide (y = x)) as [->|N]; [|by rewrite lookup_delete_ne].
      rewrite lookup_delete_eq. split; [|by intros (? & [=] & _)]. intros (d & Hd & Pd). assert (d = c) as -> by congruence. by destruct (Np k).
  - destruct A2 as [R1 R2 R3 R4 R5]. split; try done. cbn in *. destruct A3 as (E1 & E2 & _). cbn in *. rewrite E1, E2 in *.
    destruct R2 as [R2a R2b]. split; [done|]. by apply dseg_dealloc_other.
  - intros y. rewrite (A4 y). split.
    + intros [Nb (d & Hd & Er)]. split; [done|]. exists d. rewrite lookup_delete_ne by congruence. done.
    + intros [_ (d & [N Hd]%lookup_delete_Some & Er)]. split; [congruence|eauto].
  - intros y o. rewrite dealloc_mem, A5, D. naive_solver.
  - intros i y. rewrite lookup_delete_Some, A6. split.
    + intros (Ni & _ & d & Hd & <-). split; [done|]. exists d. rewrite lookup_delete_ne; [done|]. intros ->. congruence.
    + intros (_ & d & [N Hd]%lookup_delete_Some & <-). split_and!; [|done|eauto]. intros Ei.
      assert (chanhead_hash w !! id c = Some x) as E1 by (apply A6; eauto). assert (chanhead_hash w !! id d = Some y) as E2 by (apply A6; eauto).
      congruence.
  - intros y d [N Hd]%lookup_delete_Some. by apply (A7 y).
  - intros y d [N Hd]%lookup_delete_Some _. by apply (A10 y).
  - intros y d [N Hd]%lookup_delete_Some _. destruct (A8 y d Hd) as [? ? ? ? ?]; [cbn; congruence|]. by split.
  - intros y Hy. apply D. change (0 < held w y) in Hy. split; [by apply A9|]. intros ->. lia.
Qed.

(** What reaping does to the rest of the store. *)
Record reaped (w : rdstore) (x : loc) (w' : rdstore) : Prop := {
  rp_heads : heads w' = delete x (heads w);
  rp_conns : conns_grow cf (conns w) (conns w');
  rp_nset : nset w' = nset w;
  rp_ready : ns_ready w' = ns_ready w;
  rp_inflight : inflight w' = inflight w;
  rp_onready : onready w' = onready w;
  rp_reaper : chanhead_reaper w' = chanhead_reaper w;
}.

Definition idle (c : rdstore_channel_head_t) : Prop := sub_count c = 0 /\ fetching_message_count c = 0 /\ reserved c = 0.

Lemma reap_ok gl w x c :
  rds_inv (BeingReaped x) gl w -> heads w !! x = Some c -> head_ok w c -> idle c ->
  exists w', redis_store_reap_chanhead cf w x = Ret w' /\ rds_inv Whole gl w' /\ reaped w x w'.
Proof.
  intros I Hx [Hn Hs Hr Hq Hl] (Es & Ef & Ers). unfold redis_store_reap_chanhead. rewrite (get_head_eq _ _ _ Hx), bind_Ret, Es, Ef.
  rewrite orb_true_r. simpl c_assert. rewrite bind_Ret.
  assert (exists w1 c1, (if bool_decide (pubsub_status c = REDIS_PUBSUB_SUBSCRIBED) then
         need_nodeset c;; c_assert (REDIS_MODE_DISTRIBUTED <=? storage_mode cf);;
         match node_pubsub c with
         | None => Crash
         | Some n => w ← redis_chanhead_set_pubsub_status cf w x None REDIS_PUBSUB_UNSUBSCRIBED; redis_subscriber_command w n (UNSUBSCRIBE (id c))
         end
       else Ret w) = Ret w1 /\ becomes w x c1 w1 /\ rds_inv (BeingReaped x) gl w1 /\ has_nodeset c1 = true) as (w1 & c1 & -> & B1 & I1 & Hn1).
  { destruct (pubsub_status c) eqn:Ep; cbn [bool_decide].
    - exists w, c. split_and!; try done. by apply becomes_refl.
    - rewrite bool_decide_eq_true_2 by done. unfold listening in Hl. rewrite Ep in Hl. destruct Hl as [[n En] M].
      unfold need_nodeset. rewrite Hn, En, (proj2 (Z.leb_le _ _) M). simpl c_assert. rewrite !bind_Ret.
      destruct (unsubscribed_ok (BeingReaped x) gl w x c None I eq_refl Hx Hn ltac:(intros _; by rewrite Ep)) as (w1 & -> & B1 & I1). rewrite bind_Ret.
      assert (is_Some (nodes (nset w1) !! n)) as Nn.
      { destruct B1 as [K _]. rewrite (k_nset _ _ _ K). apply (node_of_channels _ _ _ _ I). eapply placed_node; eauto. }
      destruct (command_ok (BeingReaped x) gl w1 n (UNSUBSCRIBE (id c)) I1 Nn M) as (w2 & -> & K2 & E2 & I2 & _).
      exists w2, (unsubscribed_head c). split_and!; try done; [by eapply becomes_after|]. unfold unsubscribed_head. by case_match.
    - exists w, c. split_and!; try done. by apply becomes_refl. }
  rewrite bind_Ret. pose proof (becomes_head _ _ _ _ B1) as H1.
  destruct (dissociate_all_ok (BeingReaped x) gl w1 x c1 I1 eq_refl H1 Hn1) as (w2 & -> & B2 & I2). rewrite bind_Ret.
  assert (becomes w x (gone_head c1) w2) as B by by eapply becomes_trans. pose proof (becomes_head _ _ _ _ B) as H2.
  destruct B as [[Kh Kg Kr Kn Kd Ks Kc Kco Ki Ko] Eh].
  destruct (rds_free_head_ok gl (note w2 (StopSpooler x)) x (gone_head c1)) as (w3 & -> & I3 & E1 & E2 & E3 & E4 & E5 & E6 & E7);
    [by apply inv_note|done|by_place| |].
  - rewrite <- Ers, (ri_reserved _ _ _ I x c Hx) by done. by apply held_keeps.
  - exists w3. split; [done|]. split; [done|]. cbn in *. split; try congruence.
    + rewrite E1, Eh. by rewrite delete_insert_eq.
    + by rewrite E2.
Qed.

(** *** A tick *)

Definition ripe (now : Z) (c : rdstore_channel_head_t) : bool :=
  bool_decide (status c = INACTIVE) && negb (0 <? reserved c) && negb (0 <? gc_time c - now) &&
  negb (0 <? sub_count c) && negb (0 <? fetching_message_count c).

(** Unsigned and pending counts are never negative. *)
Definition counts_ok (w : rdstore) : Prop :=
  forall x c, heads w !! x = Some c -> 0 <= sub_count c /\ 0 <= fetching_message_count c.

Lemma ripe_idle hl gl w x c now : rds_inv hl gl w -> hl <> Opened x -> counts_ok w -> heads w !! x = Some c -> ripe now c = true -> idle c.
Proof.
  intros I Nh C Hx R. unfold ripe in R. rewrite !andb_true_iff, !negb_true_iff, !Z.ltb_ge in R.
  destruct (C x c Hx). pose proof (ri_reserved _ _ _ I x c Hx Nh) as Er. unfold idle, held in *. lia.
Qed.

(** The store without the heads that [gone] says. *)
Record cleared (gone : loc -> rdstore_channel_head_t -> bool) (w w' : rdstore) : Prop := {
  cl_heads : forall y, heads w' !! y = match heads w !! y with Some c => if gone y c then None else Some c | None => None end;
  cl_conns : conns_grow cf (conns w) (conns w');
  cl_nset : nset w' = nset w;
  cl_ready : ns_ready w' = ns_ready w;
  cl_inflight : inflight w' = inflight w;
  cl_onready : onready w' = onready w;
}.

Lemma reap_ripe_ok now gl1 gl2 w x c :
  rds_inv Whole (gl1 ++ x :: gl2) w -> counts_ok w -> heads w !! x = Some c -> ripe now c = true ->
  exists w', reap_ready_thing (gc_reap cf) (to_gc w) x (list.head gl2) = Ret (to_gc w') /\ rds_inv Whole (gl1 ++ gl2) w' /\
    cleared (fun y _ => bool_decide (y = x)) w w'.
Proof.
  intros I C Hx Rp. pose proof (ri_gc _ _ _ I) as R. destruct (rr_list _ _ R) as [ND _].
  destruct (reap_ready_thing_eq (gc_reap cf) (to_gc w) gl1 x gl2 R) as (h & R' & [Td Tf] & ->). cbn in *.
  assert (rds_inv (BeingReaped x) (gl1 ++ gl2) (set_reaper w h (taken_out (chanhead_reaper w) gl1 x gl2))) as I1.
  { eapply inv_reaper; [exact I|done|done|done| |done| |done].
    - intros y. apply NoDup_app in ND as (_ & N1 & [N2 _]%NoDup_cons). split.
      + intros Hy. split; [intros [= <-]; apply elem_of_app in Hy as [Hy|Hy]; [apply (N1 x Hy); set_solver|done]|].
        apply (ri_gc_in _ _ _ I). set_solver.
      + intros [Ny Hy]. assert (y ∈ gl1 ++ x :: gl2) as G by (apply (ri_gc_in _ _ _ I); done).
        apply elem_of_app in G as [G|[->|G]%elem_of_cons]; [set_solver|done|set_solver].
    - intros y d Hy []. }
  assert (head_ok w c) as Ho by (apply (ri_heads _ _ _ I x); [done|intros []]).
  destruct (reap_ok (gl1 ++ gl2) _ x c I1) as (w' & E & I' & [E1 E2 E3 E4 E5 E6 E7]); [done|by destruct Ho|by eapply ripe_idle|].
  unfold gc_reap at 1. unfold of_gc. cbn [env rp Reaper.links]. rewrite E, !bind_Ret. cbn [rp to_gc].
  rewrite (proj2 (Z.leb_le _ _)) by (pose proof (rr_count _ _ (ri_gc _ _ _ I')) as Ec; cbn in Ec; rewrite Ec; lia).
  simpl c_assert. rewrite bind_Ret. exists w'. split; [done|]. split; [done|]. split; try done.
  intros y. rewrite E1. destruct (decide (y = x)) as [->|N].
  - rewrite lookup_delete_eq. cbn. rewrite Hx. by rewrite bool_decide_eq_true_2.
  - rewrite lookup_delete_ne by done. cbn. rewrite bool_decide_eq_false_2 by done. by destruct (heads w !! y).
Qed.

Lemma rescan_ok now gl2 : forall fuel gl1 w,
  (length gl2 <= fuel)%nat -> rds_inv Whole (gl1 ++ gl2) w -> counts_ok w ->
  exists w' ks, rescan_loop (nchan_redis_chanhead_ready_to_reap now) (gc_reap cf) fuel (to_gc w) false 0 0 (list.head gl2) = Ret (to_gc w') /\
    rds_inv Whole (gl1 ++ ks) w' /\ cleared (fun y c => bool_decide (y ∈ gl2) && ripe now c) w w'.
Proof.
  induction gl2 as [|x gl2 IH]; intros fuel gl1 w Ln I C.
  - exists w, []. split; [by destruct fuel|]. split; [done|]. split; try done. intros y. by destruct (heads w !! y).
  - destruct fuel as [|fuel]; [simpl in Ln; lia|]. cbn [rescan_loop list.head]. cbn [Z.ltb Z.compare].
    pose proof (ri_gc _ _ _ I) as R. rewrite (rep_next (to_gc w) gl1 x gl2 R), bind_Ret.
    assert (x ∈ gl1 ++ x :: gl2) as Hg by set_solver. apply (ri_gc_in _ _ _ I) in Hg as (_ & c & Hx & _).
    assert (nchan_redis_chanhead_ready_to_reap now w x false = Ret (w, ripe now c)) as Erd.
    { unfold nchan_redis_chanhead_ready_to_reap. by rewrite (get_head_eq _ _ _ Hx). }
    unfold call_ready. cbn [env to_gc]. rewrite Erd, bind_Ret. cbv beta iota. rewrite bind_Ret. cbv beta iota.
    destruct (rr_list _ _ R) as [ND _]. apply NoDup_app in ND as (_ & _ & [Nx _]%NoDup_cons).
    destruct (ripe now c) eqn:Er.
    + change (RWorld _ _ _) with (to_gc w). destruct (reap_ripe_ok now gl1 gl2 w x c I C Hx Er) as (w1 & -> & I1 & K1).
      rewrite bind_Ret. destruct (IH fuel gl1 w1) as (w' & ks & E & I' & K'); [simpl in Ln; lia|done| |].
      { intros y d Hy. rewrite (cl_heads _ _ _ K1) in Hy. destruct (heads w !! y) as [e|] eqn:Ey; [|done]. case_match; simplify_eq. by eapply C. }
      exists w', ks. split; [done|]. split; [done|]. destruct K1 as [A1 A2 A3 A4 A5 A6], K' as [B1 B2 B3 B4 B5 B6].
      split; try congruence; [|by eapply conns_grow_trans]. intros y. rewrite B1, A1. destruct (heads w !! y) as [e|] eqn:Ey; [|done].
      destruct (decide (y = x)) as [->|N].
      * rewrite !bool_decide_eq_true_2 by (done || set_solver). assert (e = c) as -> by congruence. by rewrite Er.
      * rewrite (bool_decide_eq_false_2 (y = x)) by done. f_equal. rewrite (bool_decide_ext (y ∈ gl2) (y ∈ x :: gl2)) by set_solver. done.
    + change (RWorld _ _ _) with (to_gc w). destruct (IH fuel (gl1 ++ [x]) w) as (w' & ks & E & I' & K'); [simpl in Ln; lia|by rewrite <- app_assoc|done|].
      exists w', (x :: ks). split; [done|]. split; [by rewrite <- app_assoc in I'|]. destruct K' as [B1 B2 B3 B4 B5 B6]. split; try done.
      intros y. rewrite B1. destruct (heads w !! y) as [e|] eqn:Ey; [|done]. destruct (decide (y = x)) as [->|N].
      * assert (e = c) as -> by congruence. by rewrite Er, !andb_false_r.
      * rewrite (bool_decide_ext (y ∈ gl2) (y ∈ x :: gl2)) by set_solver. done.
Qed.

(** The timer of the reaper does not matter to the invariant. *)
Lemma inv_timer gl w r : rds_inv Whole gl w -> reaper_rep (RWorld (gc_links w) r w) gl -> same_reaper (chanhead_reaper w) r ->
  rds_inv Whole gl (set_reaper w (gc_links w) r).
Proof. intros I R S. eapply inv_reaper; [exact I|done|done|done|apply (ri_gc_in _ _ _ I)|done| |done]. intros x c Hx []. Qed.

Lemma tick_ok now gl w :
  rds_inv Whole gl w -> counts_ok w ->
  exists w' gl', reaper_tick cf (length gl) now w = Ret w' /\ rds_inv Whole gl' w' /\ cleared (fun _ c => ripe now c) w w'.
Proof.
  intros I C. unfold reaper_tick. set (w0 := set_reaper w (gc_links w) (set_timer (chanhead_reaper w) false)).
  assert (rds_inv Whole gl w0) as I0 by (apply inv_timer; [done|apply (rep_timer (to_gc w)), I|done]).
  unfold reaper_timer_handler. change (set_rp (to_gc w0) (set_timer (rp (to_gc w0)) false)) with (to_gc w0).
  destruct (inv_rescans _ _ _ I0) as (Rs & Rl & _). cbn [rp to_gc]. rewrite Rs. unfold its_reaping_time. cbn [rp to_gc]. rewrite Rl.
  pose proof (rr_first _ _ (ri_gc _ _ _ I0)) as Ef. cbn [rp to_gc] in Ef. rewrite Ef.
  destruct (rescan_ok now gl (length gl) [] w0) as (w1 & ks & -> & I1 & K); [done|done|done|]. rewrite !bind_Ret.
  destruct (reset_timer (ngx_exiting cf) (to_gc w1) ks (ri_gc _ _ _ I1)) as [R2 _]. destruct (reset_same (ngx_exiting cf) (chanhead_reaper w1)) as [S2 _].
  eexists _, ks. split; [done|]. split; [by apply inv_timer|].
  destruct K as [B1 B2 B3 B4 B5 B6]. split; try done. intros y. cbn. rewrite B1. destruct (heads w !! y) as [c|] eqn:Ey; [|cbn; by rewrite Ey].
  cbn. rewrite Ey. destruct (ripe now c) eqn:Er; [|by rewrite andb_false_r]. rewrite bool_decide_eq_true_2; [done|].
  apply (ri_gc_in _ _ _ I). split; [done|]. exists c. split; [done|]. apply (ho_reaper w); [by apply (ri_heads _ _ _ I y); [|intros []]|].
  unfold ripe in Er. rewrite !andb_true_iff in Er. by destruct Er as ((((Er%bool_decide_eq_true & _) & _) & _) & _).
Qed.

(** *** Heads enter the reaper *)

Lemma inv_enter_gc gl w x c st t b :
  rds_inv (Opened x) gl w -> heads w !! x = Some c -> x ∉ gl -> reserved c = held w x -> rds_inv (BeingReaped x) gl (put_head w x (set_gc c st t b)).
Proof.
  intros I Hx Ng Rs. pose proof I as [A1 A2 A3 A4 A5 A6 A7 A10 A8 A9 B1 B2 B3 B4].
  assert (forall y, is_Some (<[x:=set_gc c st t b]> (heads w) !! y) <-> is_Some (heads w !! y)) as D by (intros y; rewrite lookup_insert_is_Some'; naive_solver).
  split; cbn; try done.
  - destruct A1 as (L & O & P). exists L. split; [by apply (lists_ok_ext w)|]. eapply lists_place_same; [done|done|]. intros k. by destruct k.
  - by destruct A2.
  - intros y. destruct (decide (y = x)) as [->|N]; [split; [done|by intros []]|]. rewrite lookup_insert_ne by done. rewrite A4. naive_solver.
  - intros y o. rewrite D. apply A5.
  - intros i y. rewrite A6. destruct (decide (y = x)) as [->|N]; [|rewrite lookup_insert_ne by done; naive_solver].
    rewrite Hx, lookup_insert_eq. split; intros (Nc & d & [= <-] & Hd); (split; [done|]); eexists; (split; [done|]); done.
  - intros y d. rewrite lookup_insert_Some. intros [[<- <-]|[N Hy]]; [by apply (A7 x c)|by apply (A7 y)].
  - intros y d. rewrite lookup_insert_Some. intros [[<- <-]|[N Hy]] Nh; [done|]. apply (A10 y); [done|congruence].
  - intros y d. rewrite lookup_insert_Some. intros [[<- <-]|[N Hy]] Nh; [done|]. destruct (A8 y d Hy Nh). by split.
  - intros y Hy. apply D. by apply A9.
Qed.

Lemma rds_gc_add_ok now gl w x c :
  rds_inv (Opened x) gl w -> heads w !! x = Some c -> has_nodeset c = true -> sub_count c = 0 -> in_reaper c = false ->
  status c <> INACTIVE -> reserved c = held w x ->
  exists w' gl', redis_chanhead_gc_add cf now w x 0 = Ret w' /\ rds_inv (Opened x) gl' w' /\
    w' = set_reaper (put_head w x (set_gc c INACTIVE (now + 1) true)) (gc_links w') (chanhead_reaper w').
Proof.
  intros I Hx Hn Es Er Ei Rs. unfold redis_chanhead_gc_add. rewrite (get_head_eq _ _ _ Hx), bind_Ret, Es.
  unfold need_nodeset. rewrite Hn, Er, bool_decide_eq_true_2 by done. simpl c_assert. rewrite !bind_Ret. cbn [negb].
  change (now + (if 0 =? 0 then NCHAN_CHANHEAD_EXPIRE_SEC else 0)) with (now + 1).
  set (c1 := set_gc c _ _ _). set (w1 := put_head w x c1).
  assert (x ∉ gl) as Ng. { intros G. apply (ri_gc_in _ _ _ I) in G as (_ & d & Hd & Ed). congruence. }
  assert (rds_inv (BeingReaped x) gl w1) as I1 by by eapply inv_enter_gc.
  assert (heads w1 !! x = Some c1) as H1 by apply lookup_insert_eq.
  assert (nchan_redis_chanhead_ready_to_reap now w1 x false = Ret (w1, false)) as Rd.
  { unfold nchan_redis_chanhead_ready_to_reap. rewrite (get_head_eq _ _ _ H1), bind_Ret. do 2 f_equal.
    rewrite (proj2 (Z.ltb_lt 0 (gc_time c1 - now))) by (cbn; lia). by rewrite !andb_false_r. }
  destruct (inv_rescans _ _ _ I1) as (_ & _ & Ep & En).
  destruct (add_waiting (ngx_exiting cf) (nchan_redis_chanhead_ready_to_reap now) (gc_reap cf) (to_gc w1) gl x w1 Rd (ri_gc _ _ _ I1) Ng)
    as (h & r & -> & R' & S' & _ & _ & [Td _]).
  { cbn [rp Reaper.links to_gc]. rewrite Ep, En. split; apply (ri_gc_mem _ _ _ I1); (split; [eauto|auto]). }
  rewrite bind_Ret. eexists _, (gl ++ [x]). split; [done|]. split; [|done]. unfold of_gc. cbn [env rp Reaper.links].
  eapply inv_reaper; [exact I1|done|done|done| |done| |done].
  - intros y. rewrite elem_of_app, list_elem_of_singleton, (ri_gc_in _ _ _ I1). split.
    + intros [[Ny Hy]| ->]; [split; [done|done]|split; [done|]]. by exists c1.
    + intros [_ Hy]. destruct (decide (y = x)); [by right|left]. split; [congruence|done].
  - intros y d Hy Eh. by left.
Qed.

(** *** Creating and finding *)

Record same_env (w w' : rdstore) : Prop := {
  se_nset : nset w' = nset w;
  se_ready : ns_ready w' = ns_ready w;
  se_conns : conns_grow cf (conns w) (conns w');
  se_inflight : inflight w' = inflight w;
  se_onready : onready w' = onready w;
}.

Lemma keeps_env w w' : keeps cf w w' -> same_env w w'.
Proof. by intros []. Qed.
Lemma same_env_trans w1 w2 w3 : same_env w1 w2 -> same_env w2 w3 -> same_env w1 w3.
Proof. intros [] []. split; try congruence. by eapply conns_grow_trans. Qed.
Lemma same_env_held w w' x : same_env w w' -> held w' x = held w x.
Proof. intros []. by apply held_keeps. Qed.

Definition fresh (w : rdstore) (x : loc) : Prop := heads w !! x = None.
Definition no_multi (chid : bytes) : Prop := ~ (2 < length chid)%nat \/ take 2 chid <> bytes_of "m/".

Definition new_head (chid : bytes) : rdstore_channel_head_t :=
  RHead chid (if storage_mode cf =? REDIS_MODE_BACKUP then READY else NOTREADY) 0 0 0 true None None false false 0 false
    REDIS_PUBSUB_UNSUBSCRIBED false.

Definition calloc (o : nchan_slist_offsets_t) (x : loc) (h : mem) : mem := alloc (prev o) (next o) h x None None.
Definition with_new (w : rdstore) (x : loc) (chid : bytes) : rdstore :=
  let w := set_links w (calloc NODESET_LINKS x (calloc CMD_LINKS x (calloc PUBSUB_LINKS x (links w)))) in
  let w := set_reaper w (alloc GC_PREV GC_NEXT (gc_links w) x None None) (chanhead_reaper w) in
  put_head w x (new_head chid).

Lemma with_new_ok gl w x chid :
  rds_inv Whole gl w -> fresh w x -> chanhead_hash w !! chid = None -> rds_inv (BeingCreated x) gl (with_new w x chid).
Proof.
  intros I Hx Hh. pose proof I as [A1 A2 A3 A4 A5 A6 A7 A10 A8 A9 B1 B2 B3 B4]. unfold fresh in Hx.
  assert (x ∉ gl) as Ng by (intros (_ & d & Hd & _)%A4; congruence).
  set (h' := calloc NODESET_LINKS x (calloc CMD_LINKS x (calloc PUBSUB_LINKS x (links w)))).
  assert (forall y o, y <> x -> h' !! (y, o) = links w !! (y, o)) as Fr.
  { intros y o N. unfold h', calloc, alloc. by rewrite !lookup_insert_ne by congruence. }
  assert (forall y, is_Some (<[x:=new_head chid]> (heads w) !! y) <-> is_Some (heads w !! y) \/ y = x) as D.
  { intros y. rewrite lookup_insert_is_Some'. naive_solver. }
  assert (held w x = 0) as H0.
  { destruct (decide (0 < held w x)) as [Hp%A9|]; [rewrite Hx in Hp; by destruct Hp|unfold held in *; lia]. }
  split; cbn; try done.
  - destruct A1 as (L & O & P). exists L. unfold lists_place in *. assert (forall k, x ∉ L k) as Nl.
    { intros k Hk. apply P in Hk as (d & Hd & Pd). congruence. }
    split.
    + destruct O as [R N A M Z S]. split; cbn; try done.
      * intros k l Nk G. destruct (R k l Nk) as [Eo Rl]; [by destruct k|]. split; [done|]. eapply rep_frame, Rl.
        intros y o Hy _. apply Fr. intros ->. by apply (Nl k).
      * intros y o. rewrite D. unfold h', calloc. rewrite !alloc_mem, M. split.
        -- unfold link_offsets. intros [[[[Hy Ho]|[-> Ho]]|[-> Ho]]|[-> Ho]]; (split; [auto|]); [done|..];
             (destruct Ho as [-> | ->]; cbn; repeat (apply list_elem_of_here || apply list_elem_of_further)).
        -- intros [[Hy| ->] Ho]; [auto|]. unfold link_offsets in Ho.
           do 6 (apply elem_of_cons in Ho as [->|Ho]; [cbn; intuition|]). by apply elem_of_nil in Ho.
      * intros y o [Hy| ->]%D Ho; [rewrite Fr by (intros ->; rewrite Hx in Hy; by destruct Hy); by apply Z|]. unfold h', calloc, alloc.
        destruct Ho as [-> | ->]; cbn; [by rewrite lookup_insert_eq|]. rewrite lookup_insert_ne by done. by rewrite lookup_insert_eq.
    + intros k y. rewrite (P k y). destruct (decide (y = x)) as [->|N]; [|by rewrite lookup_insert_ne].
      rewrite Hx, lookup_insert_eq. split; [by intros (? & ? & _)|]. intros (d & [= <-] & Pd). by destruct k.
  - destruct A2 as [R1 R2 R3 R4 R5]. split; try done. cbn in *. destruct A3 as (E1 & E2 & _). cbn in *. rewrite E1, E2 in *.
    destruct R2 as [R2a R2b]. split; [done|]. by do 2 (apply dseg_insert_other; [done|]).
  - intros y. rewrite (A4 y). destruct (decide (y = x)) as [->|N]; [|rewrite lookup_insert_ne by done; naive_solver].
    rewrite Hx, lookup_insert_eq. naive_solver.
  - intros y o. change (is_Some (alloc GC_PREV GC_NEXT (gc_links w) x None None !! (y, o)) <->
      is_Some (<[x:=new_head chid]> (heads w) !! y) /\ (o = GC_PREV \/ o = GC_NEXT)). rewrite alloc_mem, A5, D. intuition.
  - intros i y. rewrite A6. destruct (decide (y = x)) as [->|N]; [|rewrite lookup_insert_ne by done; naive_solver].
    rewrite Hx, lookup_insert_eq. naive_solver.
  - intros y d. rewrite lookup_insert_Some. intros [[<- <-]|[N Hy]]; [done|by apply (A7 y)].
  - intros y d. rewrite lookup_insert_Some. intros [[<- <-]|[N Hy]] Nh; [symmetry; exact H0|by apply (A10 y)].
  - intros y d. rewrite lookup_insert_Some. intros [[<- <-]|[N Hy]] Nh; [by destruct Nh|]. destruct (A8 y d Hy); [by intros []|by split].
  - intros y Hy. apply D. left. by apply A9.
Qed.

(** The new head enters the table. *)
Lemma inv_hash_add gl w x c :
  rds_inv (BeingCreated x) gl w -> heads w !! x = Some c -> chanhead_hash w !! id c = None -> head_ok w c ->
  rds_inv Whole gl (set_hash w (<[id c := x]> (chanhead_hash w))).
Proof.
  intros I Hx Hh Ho. pose proof I as [A1 A2 A3 A4 A5 A6 A7 A10 A8 A9 B1 B2 B3 B4]. split; cbn; try done.
  - destruct A1 as (L & O & P). exists L. split; [|done]. apply (lists_ok_ext w); done.
  - by destruct A2.
  - intros y. rewrite A4. naive_solver.
  - intros i y. rewrite lookup_insert_Some, A6. split.
    + intros [[<- <-]|[N (Nc & d & Hd & Ed)]]; (split; [done|]); eauto.
    + intros (_ & d & Hd & <-). destruct (decide (y = x)) as [->|N]; [left; by assert (d = c) as -> by congruence|].
      assert (BeingCreated x <> BeingCreated y) as Ne by (intros [= E]; by apply N).
      right. split; [|split; [done|eauto]]. intros E. assert (chanhead_hash w !! id d = Some y) as E2 by (apply A6; eauto).
      congruence.
  - intros y d Hy Nh. by apply (A10 y d).
  - intros y d Hy _. assert (head_ok w d) as [? ? ? ? ?]; [|by split].
    destruct (decide (y = x)) as [->|N]; [by assert (d = c) as -> by congruence|by apply (A8 y)].
Qed.

(** What finding a head does not change in it. *)
Record kept (c c' : rdstore_channel_head_t) : Prop := {
  kp_id : id c' = id c;
  kp_subs : sub_count c' = sub_count c;
  kp_fetching : fetching_message_count c' = fetching_message_count c;
  kp_node : node_cmd c' = node_cmd c;
  kp_queued : in_disconnected_cmd_list c' = in_disconnected_cmd_list c;
  kp_shutting : shutting_down c' = shutting_down c;
  kp_reserved : reserved c' = reserved c;
}.

(** The nodes that heads use are ready as long as the nodeset is. *)
Definition uses (c : rdstore_channel_head_t) (n : loc) : Prop := node_cmd c = Some n \/ node_pubsub c = Some n.
Definition busy (w : rdstore) : Prop :=
  ns_ready w = true -> forall x c n, heads w !! x = Some c -> uses c n -> ready_node w n.

Definition may_ask (w : rdstore) (c : rdstore_channel_head_t) : Prop :=
  ns_ready w = true -> in_disconnected_pubsub_list c = false /\ serves w (id c).

Lemma may_ask_listen w x c : busy w -> heads w !! x = Some c -> may_ask w c -> may_listen w c.
Proof. intros B Hx M R. destruct (M R). split_and!; [done| |done]. intros n E. apply (B R x c); [done|by right]. Qed.

(** [ensure_ok] for the uses that follow. *)
Lemma ensure_head hl gl w x c :
  rds_inv hl gl w -> in_hole hl x -> heads w !! x = Some c -> has_nodeset c = true -> may_listen w c ->
  (in_disconnected_pubsub_list c = true -> pubsub_status c = REDIS_PUBSUB_UNSUBSCRIBED) ->
  exists w' c', ensure_chanhead_pubsub_subscribed_if_needed cf w x = Ret w' /\ becomes w x c' w' /\ rds_inv hl gl w' /\
    kept c c' /\ status c' = status c /\ in_reaper c' = in_reaper c /\ gc_time c' = gc_time c /\ has_nodeset c' = true /\
    (in_disconnected_pubsub_list c' = true -> pubsub_status c' = REDIS_PUBSUB_UNSUBSCRIBED) /\
    (listening w c \/ pubsub_status c = REDIS_PUBSUB_UNSUBSCRIBED /\ (tracked -> ns_ready w = true) -> listening w' c') /\
    (ns_ready w = true -> forall n, node_pubsub c' = Some n -> ready_node w n).
Proof.
  intros I Ih Hx Hn Ml Hq. destruct (ensure_ok hl gl w x c I Ih Hx Hn Ml) as (c' & (w' & E & B & I') & C).
  exists w', c'. pose proof (k_conns _ _ _ (bc_keeps _ _ _ _ B)) as G. destruct C as [[-> C]|(n & Ep & -> & Ef & M & Rn & Li)].
  - split_and!; try done.
    + intros [Hl|[Ep T]]; [by eapply listening_grows|]. unfold listening. rewrite Ep. intros Ht Hm. destruct C as [C|C]; [done|].
      exfalso. apply C. split; [done|by apply T].
    + intros R. apply (Ml R).
  - split_and!; try done.
    + cbn. congruence.
    + intros _. by apply Li.
    + intros _ m [= <-]. done.
Qed.

Definition get_ok (w : rdstore) (chid : bytes) (new : ptr) : Prop :=
  match chanhead_hash w !! chid with
  | Some x => forall c, heads w !! x = Some c -> status c = INACTIVE -> may_ask w c
  | None => exists x, new = Some x /\ fresh w x /\ no_multi chid /\ (ns_ready w = true -> serves w chid) /\ (tracked -> ns_ready w = true)
  end.

(** The head that is found: where it is, and what it was before. *)
Definition found (w : rdstore) (chid : bytes) (new : ptr) (x : loc) (c0 : rdstore_channel_head_t) : Prop :=
  match chanhead_hash w !! chid with
  | Some y => x = y /\ heads w !! x = Some c0
  | None => new = Some x /\ c0 = new_head chid
  end.

Lemma create_ok gl w chid x :
  rds_inv Whole gl w -> chanhead_hash w !! chid = None -> fresh w x -> no_multi chid ->
  (ns_ready w = true -> serves w chid) -> (tracked -> ns_ready w = true) ->
  exists w' c', create_chanhead cf w chid (Some x) = Ret (w', Some x) /\ rds_inv Whole gl w' /\ same_env w w' /\
    heads w' = <[x := c']> (heads w) /\ kept (new_head chid) c' /\ status c' = status (new_head chid) /\ head_ok w' c' /\
    (ns_ready w = true -> forall n, node_pubsub c' = Some n -> ready_node w n).
Proof.
  intros I Hh Hx Nm Sv Tr. unfold create_chanhead.
  rewrite c_assert_bind.
  2:{ destruct Nm as [Nm|Nm]; [by rewrite bool_decide_eq_false_2|rewrite (bool_decide_eq_false_2 (take 2 chid = _)) by done; by rewrite orb_true_r]. }
  fold (new_head chid). change (put_head _ _ _) with (with_new w x chid).
  assert (rds_inv (BeingCreated x) gl (start_chanhead_spooler (with_new w x chid) x)) as I1 by (apply inv_note, with_new_ok; done).
  destruct (ensure_head (BeingCreated x) gl _ x (new_head chid) I1 eq_refl) as (w2 & c' & -> & B & I2 & K & Es & Er & Eg & En & Eq & Li & Rn);
    [apply lookup_insert_eq|done|intros R; split_and!; [done|done|by apply Sv]|done|].
  rewrite bind_Ret. destruct B as [Kp Eh]. pose proof (keeps_env _ _ Kp) as [N1 N2 N3 N4 N5]. cbn in N1, N2, N3, N4, N5, Eh. rewrite insert_insert_eq in Eh.
  assert (chanhead_hash w2 = chanhead_hash w) as Eha by (by rewrite (k_hash _ _ _ Kp)).
  assert (head_ok w2 c') as Ho.
  { split; try done.
    - rewrite Es. cbn. destruct (storage_mode cf =? REDIS_MODE_BACKUP); auto.
    - rewrite Er, Es. cbn. by destruct (storage_mode cf =? REDIS_MODE_BACKUP).
    - apply Li. right. done. }
  eexists _, c'. split; [done|]. pose proof (kp_id _ _ K) as Ei. cbn in Ei.
  split; [rewrite <- Ei; apply inv_hash_add; [done|by rewrite Eh, lookup_insert_eq|by rewrite Eha, Ei|done]|].
  split; [by split|]. split; [done|]. split; [done|]. split; [done|]. split; [by destruct Ho; split|]. done.
Qed.

Lemma get_chanhead_ok gl w chid new :
  rds_inv Whole gl w -> busy w -> get_ok w chid new ->
  exists w' gl' x c0 c', nchan_store_get_chanhead cf w chid new = Ret (w', Some x) /\ found w chid new x c0 /\ rds_inv Whole gl' w' /\
    same_env w w' /\ heads w' = <[x := c']> (heads w) /\ kept c0 c' /\ status c' <> INACTIVE /\ head_ok w' c' /\
    (ns_ready w = true -> forall n, node_pubsub c' = Some n -> ready_node w n).
Proof.
  intros I Bu G. unfold nchan_store_get_chanhead, found. unfold get_ok in G. destruct (chanhead_hash w !! chid) as [x|] eqn:Eh.
  - apply (ri_hash _ _ _ I) in Eh as (_ & c & Hx & <-). rewrite bind_Ret. rewrite (get_head_eq _ _ _ Hx), bind_Ret.
    assert (head_ok w c) as Ho by (apply (ri_heads _ _ _ I x); [done|by intros []]).
    destruct (decide (status c = INACTIVE)) as [Es|Es].
    + rewrite bool_decide_eq_true_2 by done. pose proof Ho as [H1 H2 H3 H4 H5].
      destruct (ensure_head (Opened x) gl w x c (inv_open _ _ x I) eq_refl Hx H1) as (w1 & c1 & -> & B & I1 & K & E1 & E2 & E3 & E4 & E5 & Li & Rn);
        [by eapply may_ask_listen; eauto|done|]. rewrite bind_Ret. pose proof (becomes_head _ _ _ _ B) as Hx1.
      assert (in_reaper c1 = true) as Er by (rewrite E2; by apply H3).
      destruct (gc_withdraw_ok (Opened x) gl w1 x c1 I1 ltac:(done) eq_refl Hx1 E4 Er) as (w2 & gl' & -> & I2 & Eh2 & Ew2); [congruence|].
      rewrite bind_Ret. set (c2 := set_gc c1 (status c1) (gc_time c1) false) in *.
      assert (heads w2 !! x = Some c2) as Hx2 by (by rewrite Eh2, lookup_insert_eq). rewrite (get_head_eq _ _ _ Hx2), bind_Ret.
      set (st := if storage_mode cf =? REDIS_MODE_BACKUP then READY else _). set (c3 := set_status c2 st).
      assert (rds_inv (Opened x) gl' (put_head w2 x c3)) as I3.
      { destruct (inv_flags _ _ _ _ _ I2 Hx2). put_ok. }
      assert (same_env w w2) as Se.
      { rewrite Ew2. destruct (keeps_env _ _ (bc_keeps _ _ _ _ B)). by split. }
      assert (st = READY \/ st = NOTREADY) as Hst by (subst st; repeat case_match; auto).
      assert (head_ok (put_head w2 x c3) c3) as Ho3.
      { split; try done; [by destruct Hst; auto|by split; [done|]; destruct Hst as [-> | ->]|].
        assert (listening w1 c1) as L1 by (apply Li; by left). eapply (listening_grows w1 _ c3); [rewrite Ew2; apply conns_grow_refl|]. exact L1. }
      exists (put_head w2 x c3), gl', x, c, c3. split; [done|]. split; [done|].
      split; [eapply inv_close; [exact I3|apply lookup_insert_eq|done|]|].
      { cbn. rewrite (kp_reserved _ _ K), (ri_reserved _ _ _ I x c Hx) by done. symmetry. by apply (same_env_held w w2). }
      split; [by destruct Se; split|]. split.
      { cbn. rewrite Eh2, insert_insert_eq. rewrite (bc_heads _ _ _ _ B). by rewrite insert_insert_eq. }
      split; [by destruct K; split|]. split; [by destruct Hst as [-> | ->]|]. done.
    + rewrite bool_decide_eq_false_2 by done. exists w, gl, x, c, c. split_and!; try done; [by rewrite insert_id|].
      intros R n E. apply (Bu R x c); [done|by right].
  - destruct G as (x & -> & Fx & Nm & Sv & Tr). destruct (create_ok gl w chid x I Eh Fx Nm Sv Tr) as (w1 & c' & -> & I1 & Se & Eh1 & K & Es & Ho & Rn).
    rewrite bind_Ret. assert (heads w1 !! x = Some c') as Hx1 by (by rewrite Eh1, lookup_insert_eq). rewrite (get_head_eq _ _ _ Hx1), bind_Ret.
    assert (status c' <> INACTIVE) as Ns by (rewrite Es; cbn; by destruct (storage_mode cf =? REDIS_MODE_BACKUP)).
    rewrite bool_decide_eq_false_2 by done. exists w1, gl, x, (new_head chid), c'. split_and!; done.
Qed.
End facts.
