(* ===== verification/RedisChannelsRuns.v ===== *)
(** * Operations on the channels of the Redis store

    What an operation on one head does to the invariant of RedisChannelsFacts:
    requests of subscribers, commands that hold the head, answers and timers. *)

From S2P Require Import Prelude Nginx DList SList ChanHead RbTree ClusterSlots ClusterSlotsFacts Reaper ReaperFacts RedisChannels RedisChannelsFacts.

Section runs.
Context `{NgxRbtree redis_nodeset_slot_range_node_t} (cf : redis_settings) (tracked : Prop).
Context (W : weights_ok cf).
Notation rds_inv := (rds_inv cf tracked).
Notation head_ok := (head_ok cf tracked).
Notation listening := (listening cf tracked).
Notation same_env := (same_env cf).
Notation conns_grow := (conns_grow cf).

(** ** Between operations *)

Record store_ok (w : rdstore) : Prop := {
  so_inv : exists gl, rds_inv Whole gl w;
  so_counts : counts_ok w;
  so_busy : busy w;
}.

Lemma store_head w x c : store_ok w -> heads w !! x = Some c -> head_ok w c.
Proof. intros [[gl I] _ _] Hx. apply (ri_heads _ _ _ _ _ I x); [done|by intros []]. Qed.
Lemma store_reserved w x c : store_ok w -> heads w !! x = Some c -> reserved c = held w x.
Proof. intros [[gl I] _ _] Hx. by apply (ri_reserved _ _ _ _ _ I). Qed.

(** What a head must keep to stay as good. *)
Record similar (c c' : rdstore_channel_head_t) : Prop := {
  sm_id : id c' = id c;
  sm_nodeset : has_nodeset c' = has_nodeset c;
  sm_status : status c' = status c;
  sm_reaper : in_reaper c' = in_reaper c;
  sm_queued : in_disconnected_pubsub_list c' = in_disconnected_pubsub_list c;
  sm_pubsub : pubsub_status c' = pubsub_status c;
  sm_node : node_pubsub c' = node_pubsub c;
}.

Lemma similar_ok w w' c c' : similar c c' -> conns_grow (conns w) (conns w') -> head_ok w c -> head_ok w' c'.
Proof.
  intros [E1 E2 E3 E4 E5 E6 E7] G [A1 A2 A3 A4 A5]. apply (listening_grows _ _ w w') in A5; [|done].
  split; rewrite ?E1, ?E2, ?E3, ?E4, ?E5, ?E6, ?E7; try done.
  revert A5. unfold RedisChannelsFacts.listening. by rewrite E1, E5, E6, E7.
Qed.

(** A step changes the head [x] alone. *)
Lemma store_change w w' gl x c' :
  store_ok w -> rds_inv Whole gl w' -> heads w' = <[x := c']> (heads w) -> nset w' = nset w ->
  (ns_ready w' = true -> ns_ready w = true) -> 0 <= sub_count c' -> 0 <= fetching_message_count c' ->
  (ns_ready w' = true -> forall n, uses c' n -> ready_node w n) -> store_ok w'.
Proof.
  intros [_ C B] I Eh En Er Hs Hf U. split; [eauto|..].
  - intros y d. rewrite Eh, lookup_insert_Some. intros [[<- <-]|[N Hy]]; [done|by apply (C y)].
  - intros R y d n. rewrite Eh, lookup_insert_Some. unfold ready_node. rewrite En.
    intros [[<- <-]|[N Hy]] Un; [by apply (U R)|by apply (B (Er R) y d)].
Qed.

(** The step on [x] is done. *)
Lemma store_close w w' gl x c' :
  store_ok w -> rds_inv (Opened x) gl w' -> heads w' = <[x := c']> (heads w) -> nset w' = nset w ->
  (ns_ready w' = true -> ns_ready w = true) -> head_ok w' c' -> reserved c' = held w' x ->
  0 <= sub_count c' -> 0 <= fetching_message_count c' ->
  (ns_ready w' = true -> forall n, uses c' n -> ready_node w n) -> store_ok w'.
Proof.
  intros S I Eh En Er Ho Hr Hs Hf U. eapply store_change; try done.
  eapply inv_close; [exact I|by rewrite Eh, lookup_insert_eq|done|done].
Qed.

(** ** Commands that hold heads *)

Definition with_commands (w : rdstore) (l : list (loc * redis_script * loc)) (l' : list (redis_script * loc)) : rdstore :=
  set_onready (set_inflight w l) l'.

Lemma inv_commands gl w x l l' :
  rds_inv (Opened x) gl w -> is_Some (heads w !! x) -> (forall y, y <> x -> held (with_commands w l l') y = held w y) ->
  rds_inv (Opened x) gl (with_commands w l l').
Proof.
  intros I Hx Hd. pose proof I as [A1 A2 A3 A4 A5 A6 A7 A10 A8 A9 B1 B2 B3 B4]. split; try done.
  - destruct A1 as (L & O & P). exists L. split; [|done]. by apply (lists_ok_ext w).
  - by destruct A2.
  - intros y c Hy Nh. rewrite Hd by congruence. by apply (A10 y).
  - intros y c Hy Nh. destruct (A8 y c Hy Nh). by split.
  - intros y Hy. destruct (decide (y = x)) as [->|N]; [done|]. apply A9. by rewrite <- Hd.
Qed.

Lemma held_send w n s x y l' :
  held (with_commands w (inflight w ++ [(n, s, x)]) l') y =
  held (with_commands w (inflight w) l') y + if decide (y = x) then 1 else 0.
Proof.
  unfold held, with_commands. cbn. rewrite List.filter_app, length_app. cbn. unfold holds_head at 2. cbn.
  case_decide as E; [subst; rewrite Pos.eqb_refl|rewrite (proj2 (Pos.eqb_neq x y)) by congruence]; cbn; lia.
Qed.
Lemma held_wait w s x y l :
  held (with_commands w l (onready w ++ [(s, x)])) y = held (with_commands w l (onready w)) y + if decide (y = x) then 1 else 0.
Proof.
  unfold held, with_commands. cbn. rewrite List.filter_app, !length_app. cbn. unfold holds_head at 3. cbn.
  case_decide as E; [subst; rewrite Pos.eqb_refl|rewrite (proj2 (Pos.eqb_neq x y)) by congruence]; cbn; lia.
Qed.

(** The counts of an open head change. *)
Lemma inv_put_counts gl w x c c' :
  rds_inv (Opened x) gl w -> heads w !! x = Some c -> similar c c' -> node_cmd c' = node_cmd c ->
  in_disconnected_cmd_list c' = in_disconnected_cmd_list c -> rds_inv (Opened x) gl (put_head w x c').
Proof.
  intros I Hx [S1 S2 S3 S4 S5 S6 S7] En Eq. pose proof I as [A1 A2 A3 A4 A5 A6 A7 A10 A8 A9 B1 B2 B3 B4].
  assert (forall y, is_Some (<[x:=c']> (heads w) !! y) <-> is_Some (heads w !! y)) as D by (intros y; rewrite lookup_insert_is_Some'; naive_solver).
  split; cbn; try done.
  - destruct A1 as (L & O & P). exists L. split; [by apply (lists_ok_ext w)|]. eapply lists_place_same; [done|done|].
    intros k. unfold placed. by rewrite En, Eq, S5, S7.
  - by destruct A2.
  - intros y. destruct (decide (y = x)) as [->|N]; [rewrite lookup_insert_eq, A4, Hx|rewrite lookup_insert_ne by done; apply A4].
    split; intros (Nb & d & [= <-] & Hd); (split; [done|]); eexists; (split; [done|]); congruence.
  - intros y o. rewrite D. apply A5.
  - intros i y. destruct (decide (y = x)) as [->|N]; [rewrite lookup_insert_eq, A6, Hx|rewrite lookup_insert_ne by done; apply A6].
    split; intros (Nb & d & [= <-] & Hd); (split; [done|]); eexists; (split; [done|]); congruence.
  - intros y d. rewrite lookup_insert_Some. intros [[<- <-]|[N Hy]]; [|by apply (A7 y)].
    unfold flags_ok. rewrite En, Eq, S5, S7. by apply (A7 x c).
  - intros y d. rewrite lookup_insert_Some. intros [[<- <-]|[N Hy]] Nh; [done|]. by apply (A10 y).
  - intros y d. rewrite lookup_insert_Some. intros [[<- <-]|[N Hy]] Nh; [by destruct Nh|]. destruct (A8 y d Hy Nh). by split.
  - intros y Hy. apply D. by apply A9.
Qed.
Lemma inv_put_reserved gl w x c v :
  rds_inv (Opened x) gl w -> heads w !! x = Some c -> rds_inv (Opened x) gl (put_head w x (set_reserved c v)).
Proof. intros I Hx. by eapply inv_put_counts. Qed.

(** A head whose commands may be sent: it is not queued for a node while the
    nodeset is ready. *)
Definition may_send (w : rdstore) (c : rdstore_channel_head_t) : Prop :=
  ns_ready w = true -> in_disconnected_cmd_list c = false /\ serves w (id c) /\ forall n, node_cmd c = Some n -> ready_node w n.

Lemma send_script_eq w n s x : ready_node w n -> send_script w n s x = Ret (set_inflight w (inflight w ++ [(n, s, x)])).
Proof.
  intros (nd & E & L). unfold send_script, ClusterSlots.get_node. rewrite E, bind_Ret. by rewrite (proj2 (Z.leb_le _ _)).
Qed.

Lemma with_commands_same w : with_commands w (inflight w) (onready w) = w.
Proof. by destruct w. Qed.

(** Sending a command that holds the open head [x]: what is done to the head. *)
Record sent (w : rdstore) (x : loc) (c : rdstore_channel_head_t) (w' : rdstore) (c' : rdstore_channel_head_t) : Prop := {
  st_heads : heads w' = <[x := c']> (heads w);
  st_similar : similar c c';
  st_counts : sub_count c' = sub_count c /\ fetching_message_count c' = fetching_message_count c;
  st_nset : nset w' = nset w;
  st_ready : ns_ready w' = ns_ready w;
  st_conns : conns_grow (conns w) (conns w');
  st_onready : onready w' = onready w;
  st_reserved : reserved c' - held w' x = reserved c - held w x;
  st_uses : forall n, uses c' n -> uses c n \/ ready_node w n;
  st_queue : in_disconnected_cmd_list c' = in_disconnected_cmd_list c;
}.

Lemma register_send_ok gl w x c :
  rds_inv (Opened x) gl w -> heads w !! x = Some c -> has_nodeset c = true -> may_send w c ->
  exists w' c', redis_subscriber_register_send w x = Ret w' /\ rds_inv (Opened x) gl w' /\ sent w x c w' c'.
Proof.
  intros I Hx Hn Ms. unfold redis_subscriber_register_send. destruct (ns_ready w) eqn:R.
  2:{ exists w, c. split_and!; [done|done|]. split; try done; [by rewrite insert_id|by left]. }
  destruct (Ms R) as (Ef & Sv & Rn). rewrite (upd_head_eq _ _ _ _ Hx), bind_Ret.
  set (c1 := set_reserved c (reserved c + 1)). set (w1 := put_head w x c1).
  assert (heads w1 !! x = Some c1) as H1 by apply lookup_insert_eq.
  destruct (find_by_chanhead_ok cf tracked (Opened x) gl w1 x c1) as (w2 & n & -> & B & I2 & Nn & Cn);
    [by apply inv_put_reserved|done|done|done|done|done|].
  rewrite bind_Ret. destruct B as [K Eh]. assert (ready_node w n) as Rw by (destruct Cn as [Cn|[_ Cn]]; [by apply Rn|done]).
  rewrite send_script_eq by (unfold ready_node; rewrite (k_nset _ _ _ K); done).
  set (l := inflight w2 ++ _). assert (set_inflight w2 l = with_commands w2 l (onready w2)) as E by by destruct w2.
  assert (held w2 x = held w x) as Hw2 by (apply held_keeps; [by rewrite (k_inflight _ _ _ K)|by rewrite (k_onready _ _ _ K)]).
  exists (set_inflight w2 l), (set_node_cmd c1 (Some n)). split; [done|]. rewrite E. split.
  - apply inv_commands; [done|rewrite Eh, lookup_insert_eq; eauto|]. intros y N. unfold l. rewrite held_send, with_commands_same.
    rewrite decide_False by done. lia.
  - split; try done.
    + change (heads w2 = <[x:=set_node_cmd c1 (Some n)]> (heads w)). rewrite Eh. cbn. by rewrite insert_insert_eq.
    + exact (k_nset _ _ _ K).
    + exact (k_ready _ _ _ K).
    + exact (k_conns _ _ _ K).
    + exact (k_onready _ _ _ K).
    + unfold l. rewrite held_send, with_commands_same, Hw2, decide_True by done.
      change (reserved (set_node_cmd c1 (Some n))) with (reserved c + 1). lia.
    + intros m [[= <-]|Um]; [by right|]. left. by right.
Qed.

Definition looked_up (w : rdstore) (chid : bytes) : Prop := exists r, nodeset_node_find_by_channel_id (nset w) chid = Ret r.

Lemma keepalive_send_ok gl w x c :
  rds_inv (Opened x) gl w -> heads w !! x = Some c -> has_nodeset c = true -> looked_up w (id c) ->
  (ns_ready w = true -> serves w (id c)) ->
  exists w' c', redisChannelKeepaliveCallback_send w x = Ret w' /\ rds_inv (Opened x) gl w' /\ sent w x c w' c'.
Proof.
  intros I Hx Hn [r Lk] Sv. unfold redisChannelKeepaliveCallback_send. rewrite (get_head_eq _ _ _ Hx), bind_Ret.
  unfold need_nodeset. rewrite Hn. simpl c_assert. rewrite bind_Ret, Lk, bind_Ret. destruct (ns_ready w) eqn:R.
  2:{ exists w, c. split_and!; [done|done|]. split; try done; [by rewrite insert_id|by left]. }
  destruct (Sv eq_refl) as (n & nd & E & Hnd & _ & St). assert (r = Some n) as -> by congruence.
  set (c1 := set_reserved c (reserved c + 1)). set (w1 := put_head w x c1).
  assert (ready_node w1 n) as Rn by by exists nd. rewrite send_script_eq by done.
  set (l := inflight w1 ++ _). assert (set_inflight w1 l = with_commands w1 l (onready w1)) as E1 by by destruct w1.
  exists (set_inflight w1 l), c1. split; [done|]. rewrite E1. split.
  - apply inv_commands; [by apply inv_put_reserved|cbn; rewrite lookup_insert_eq; eauto|].
    intros y N. unfold l. rewrite held_send, with_commands_same, decide_False by done. lia.
  - split; try done; [|by left]. unfold l. rewrite held_send, with_commands_same, decide_True by done.
    change (held w1 x) with (held w x). change (reserved c1) with (reserved c + 1). lia.
Qed.

(** ** Operations on one head *)

(** [store_close] for a step that leaves the head [similar]. *)
Lemma store_similar w w' gl x c c' :
  store_ok w -> heads w !! x = Some c -> rds_inv (Opened x) gl w' -> heads w' = <[x := c']> (heads w) -> nset w' = nset w ->
  (ns_ready w' = true -> ns_ready w = true) -> conns_grow (conns w) (conns w') -> similar c c' -> reserved c' = held w' x ->
  0 <= sub_count c' -> 0 <= fetching_message_count c' ->
  (forall n, uses c' n -> uses c n \/ ready_node w n) -> store_ok w'.
Proof.
  intros S Hx I Eh En Er G Sm Rs Hs Hf U. eapply store_close; try done; [eapply similar_ok; [done|done|by eapply store_head]|].
  intros R n Un. destruct (U n Un) as [Uc|]; [|done]. by apply (so_busy _ S (Er R) x c).
Qed.

Lemma get_chanhead_store w chid new : store_ok w -> get_ok tracked w chid new ->
  exists w' x c0 c', nchan_store_get_chanhead cf w chid new = Ret (w', Some x) /\ found cf w chid new x c0 /\ store_ok w' /\
    same_env w w' /\ heads w' = <[x := c']> (heads w) /\ kept c0 c' /\ status c' <> INACTIVE.
Proof.
  intros S G. pose proof S as [[gl I] C B]. destruct (get_chanhead_ok cf tracked W gl w chid new I B G)
    as (w' & gl' & x & c0 & c' & E & Fo & I' & Se & Eh & K & Ns & Ho & Rn).
  exists w', x, c0, c'. split_and!; try done. unfold found in Fo.
  assert (0 <= sub_count c0 /\ 0 <= fetching_message_count c0 /\ (ns_ready w = true -> forall n, node_cmd c0 = Some n -> ready_node w n)) as (A1 & A2 & A3).
  { destruct (chanhead_hash w !! chid); [|by destruct Fo as [_ ->]]. destruct Fo as [-> Hx]. destruct (C _ _ Hx).
    split_and!; try done. intros R n En. apply (B R _ _ _ Hx). by left. }
  eapply store_change; [exact S|exact I'|exact Eh|apply (se_nset _ _ _ Se)|by rewrite (se_ready _ _ _ Se)|by rewrite (kp_subs _ _ K)|by rewrite (kp_fetching _ _ K)|].
  rewrite (se_ready _ _ _ Se). intros R n [Un|Un]; [|by apply Rn]. apply (A3 R). by rewrite <- (kp_node _ _ K).
Qed.

(** [sent], and the head is not open any more. *)
Lemma sent_store w w1 w' gl x c c1 c' :
  store_ok w -> heads w !! x = Some c -> heads w1 = <[x := c1]> (heads w) -> nset w1 = nset w -> (ns_ready w1 = true -> ns_ready w = true) ->
  conns_grow (conns w) (conns w1) -> similar c c1 -> (forall n, uses c1 n -> uses c n) -> reserved c1 = held w1 x ->
  0 <= sub_count c1 -> 0 <= fetching_message_count c1 ->
  rds_inv (Opened x) gl w' -> sent w1 x c1 w' c' -> store_ok w'.
Proof.
  intros S Hx E1 En Er G Sm U Rs Hs Hf I [H1 H2 [H3 H3'] H4 H5 H6 H7 H8 H9 Hq].
  eapply store_similar; [exact S|exact Hx|exact I|by rewrite H1, E1, insert_insert_eq|congruence|by rewrite H5| | | | | |].
  - eapply conns_grow_trans; done.
  - destruct Sm, H2. split; congruence.
  - lia.
  - by rewrite H3.
  - by rewrite H3'.
  - intros n Un. destruct (H9 n Un) as [|Rn]; [by left; apply U|right]. unfold ready_node in *. by rewrite <- En.
Qed.

(** What an operation on the head [x] alone does. *)
Definition acts (f : outcome rdstore) (w : rdstore) (x : loc) (P : rdstore_channel_head_t -> Prop) : Prop :=
  exists w' c', f = Ret w' /\ store_ok w' /\ heads w' = <[x := c']> (heads w) /\ nset w' = nset w /\ ns_ready w' = ns_ready w /\ P c'.

Lemma u64_nonneg x : 0 <= u64 x.
Proof. apply Z.mod_pos_bound. done. Qed.

Lemma spooler_add_ok w x c : store_ok w -> heads w !! x = Some c -> may_send w c ->
  acts (spooler_add_handler w x) w x (fun c' => similar c c' /\ sub_count c' = u64 (sub_count c + 1) /\ fetching_message_count c' = fetching_message_count c).
Proof.
  intros S Hx Ms. unfold spooler_add_handler. rewrite (upd_head_eq _ _ _ _ Hx), bind_Ret. pose proof S as [[gl I] C B].
  destruct (C x c Hx) as [C1 C2]. set (c1 := set_sub_count c _). set (w1 := put_head w x c1).
  assert (rds_inv (Opened x) gl w1) as I1 by (eapply inv_put_counts; [by apply inv_open|done..]).
  destruct (register_send_ok gl w1 x c1 I1) as (w' & c' & E & I' & St); [apply lookup_insert_eq|by eapply (ho_nodeset cf tracked w c), (store_head w x)|done|].
  exists w', c'. split; [done|]. split.
  - eapply (sent_store w w1 w' gl x c c1 c'); try done; [exact (store_reserved w x c S Hx)|apply u64_nonneg].
  - destruct St as [H1 H2 [H3 H3'] H4 H5 H6 H7 H8 H9 Hq]. split_and!; try done; [by rewrite H1; apply insert_insert_eq|by destruct H2; split].
Qed.

Lemma found_head w chid new x c0 : found cf w chid new x c0 -> get_ok tracked w chid new -> store_ok w ->
  (forall c, chanhead_hash w !! chid = Some x -> heads w !! x = Some c -> may_send w c) -> may_send w c0.
Proof.
  unfold found, get_ok. destruct (chanhead_hash w !! chid) as [y|]; [intros [-> Hx] _ _ M; by apply M|].
  intros [-> ->] (x' & _ & _ & _ & Sv & _) _ _ R. split_and!; [done|by apply Sv|done].
Qed.

Lemma rds_subscribe_ok w chid new : store_ok w -> get_ok tracked w chid new ->
  (forall x c, chanhead_hash w !! chid = Some x -> heads w !! x = Some c -> may_send w c) ->
  exists x c0, found cf w chid new x c0 /\
    acts (nchan_store_subscribe_continued cf w chid new) w x (fun c => status c <> INACTIVE /\ sub_count c = u64 (sub_count c0 + 1)).
Proof.
  intros S G M. destruct (get_chanhead_store w chid new S G) as (w1 & x & c0 & c1 & E & Fo & S1 & [En Er _ _ _] & Eh & K & Ns).
  exists x, c0. split; [done|]. unfold acts, nchan_store_subscribe_continued. rewrite E, bind_Ret.
  destruct (spooler_add_ok w1 x c1 S1) as (w2 & c2 & -> & S2 & E2 & N2 & R2 & Sm & Es & _); [by rewrite Eh, lookup_insert_eq| |].
  - assert (may_send w c0) as Mc by (eapply found_head; eauto). intros R. rewrite Er in R. destruct (Mc R) as (Q & Sv & Rn).
    rewrite (kp_queued _ _ K), (kp_id _ _ K), (kp_node _ _ K). unfold ready_node. rewrite En. split_and!; try done. by eapply serves_keeps.
  - exists w2, c2. split_and!; try done; try congruence.
    + by rewrite E2, Eh, insert_insert_eq.
    + by rewrite (sm_status _ _ Sm).
    + by rewrite Es, (kp_subs _ _ K).
Qed.

Lemma counts_ok_put w x c c' : store_ok w -> heads w !! x = Some c -> similar c c' -> node_cmd c' = node_cmd c ->
  in_disconnected_cmd_list c' = in_disconnected_cmd_list c -> reserved c' = reserved c -> 0 <= sub_count c' -> 0 <= fetching_message_count c' ->
  store_ok (put_head w x c').
Proof.
  intros S Hx Sm En Eq Er Hs Hf. pose proof S as [[gl I] C B]. eapply (store_similar w _ gl x c c'); try done.
  - eapply inv_put_counts; [by apply inv_open|done..].
  - rewrite Er. exact (store_reserved w x c S Hx).
  - intros n. unfold uses. rewrite En, (sm_node _ _ Sm). by left.
Qed.

Lemma fetch_start_ok w x c : store_ok w -> heads w !! x = Some c ->
  acts (spooler_get_message_start_handler w x) w x (fun c' => fetching_message_count c' = fetching_message_count c + 1).
Proof.
  intros S Hx. unfold acts, spooler_get_message_start_handler. rewrite (upd_head_eq _ _ _ _ Hx). destruct (so_counts _ S x c Hx).
  eexists _, _. split_and!; try done. eapply counts_ok_put; try done. cbn. lia.
Qed.
Lemma fetch_finish_ok w x c : store_ok w -> heads w !! x = Some c -> 0 < fetching_message_count c ->
  acts (spooler_get_message_finish_handler w x) w x (fun c' => fetching_message_count c' = fetching_message_count c - 1).
Proof.
  intros S Hx Hp. unfold acts, spooler_get_message_finish_handler. rewrite (upd_head_eq _ _ _ _ Hx), bind_Ret.
  rewrite (get_head_eq _ x (set_fetching c (fetching_message_count c - 1))) by apply lookup_insert_eq. rewrite bind_Ret.
  rewrite c_assert_bind by (cbn; apply Z.leb_le; lia). destruct (so_counts _ S x c Hx).
  eexists _, _. split_and!; try done. eapply counts_ok_put; try done. cbn. lia.
Qed.

Lemma inv_topology hl gl w ns r sl :
  rds_inv hl gl w -> dom (nodes ns) = dom (nodes (nset w)) -> (forall m l s, sl !! m = Some l -> s ∈ l -> is_Some (nodes ns !! s)) ->
  index_ok ns -> rds_inv hl gl (set_topology w ns r sl).
Proof.
  intros [A1 A2 A3 A4 A5 A6 A7 A10 A8 A9 B1 B2 B3 B4] Ed Es Ix. split; try done.
  - destruct A1 as (L & O & P). exists L. split; [|done]. by apply (lists_ok_ext w).
  - by destruct A2.
  - intros y c Hy Nh. destruct (A8 y c Hy Nh). by split.
  - cbn. by rewrite Ed.
Qed.
Lemma inv_ready hl gl w r : rds_inv hl gl w -> rds_inv hl gl (set_topology w (nset w) r (slaves w)).
Proof. intros I. eapply inv_topology; try done; apply I. Qed.

(** ** Replies *)

Lemma filter_delete {A} (P : A -> bool) l i (e : A) : l !! i = Some e ->
  (length (List.filter P (delete i l)) + if P e then 1 else 0)%nat = length (List.filter P l).
Proof.
  revert i. induction l as [|a l IH]; intros [|i] E; simplify_eq/=; [destruct (P e); cbn; lia|].
  pose proof (IH i E). destruct (P a); cbn; lia.
Qed.

(** A command of [x] is answered. *)
Lemma held_reply w i n s x y : inflight w !! i = Some (n, s, x) ->
  held w y = held (with_commands w (delete i (inflight w)) (onready w)) y + if decide (y = x) then 1 else 0.
Proof.
  intros E. pose proof (filter_delete (holds_head y) _ _ _ E) as F. unfold held, with_commands. cbn. rewrite <- F.
  unfold holds_head at 2. cbn. case_decide as N; [subst; rewrite Pos.eqb_refl|rewrite (proj2 (Pos.eqb_neq x y)) by congruence]; lia.
Qed.
Lemma held_expire w i s x y : onready w !! i = Some (s, x) ->
  held w y = held (with_commands w (inflight w) (delete i (onready w))) y + if decide (y = x) then 1 else 0.
Proof.
  intros E. pose proof (filter_delete (holds_head y) _ _ _ E) as F. unfold held, with_commands. cbn. rewrite <- F.
  unfold holds_head at 3. cbn. case_decide as N; [subst; rewrite Pos.eqb_refl|rewrite (proj2 (Pos.eqb_neq x y)) by congruence]; lia.
Qed.

(** The head of a command that is taken out, with what it holds given back. *)
Lemma give_back w gl x l l' :
  rds_inv Whole gl w -> (forall y, held w y = held (with_commands w l l') y + if decide (y = x) then 1 else 0) ->
  exists c, heads w !! x = Some c /\ let w1 := put_head (with_commands w l l') x (set_reserved c (reserved c - 1)) in
    upd_head (with_commands w l l') x (fun c => set_reserved c (reserved c - 1)) = Ret w1 /\
    rds_inv (Opened x) gl w1 /\ reserved c - 1 = held w1 x.
Proof.
  intros I E. pose proof (E x) as Ex. rewrite decide_True in Ex by done.
  assert (is_Some (heads w !! x)) as [c Hx] by (apply (ri_held _ _ _ _ _ I); unfold held in *; lia).
  exists c. split; [done|]. cbn zeta. rewrite (upd_head_eq _ _ c) by done. split; [done|]. split.
  - apply inv_put_reserved; [|done]. apply inv_commands; [by apply inv_open|by exists c|].
    intros y N. rewrite (E y), decide_False by done. lia.
  - rewrite (ri_reserved _ _ _ _ _ I x c Hx) by done. change (held (put_head _ _ _) x) with (held (with_commands w l l') x). lia.
Qed.

Lemma script_reply_ok w i n s x retry : store_ok w -> inflight w !! i = Some (n, s, x) ->
  exists w' c, heads w !! x = Some c /\ script_reply w i retry = Ret w' /\ store_ok w' /\
    heads w' = <[x := set_reserved c (reserved c - if retry then 0 else 1)]> (heads w) /\
    nset w' = nset w /\ ns_ready w' = (if retry then false else ns_ready w).
Proof.
  intros S E. pose proof S as [[gl I] C B]. unfold script_reply. rewrite E.
  set (w0 := if retry then set_topology w (nset w) false (slaves w) else w).
  set (l := delete i (inflight w)).
  assert (rds_inv Whole gl w0) as I0 by (destruct retry; [by apply inv_ready|done]).
  assert ((if retry then set_topology (set_inflight w l) (nset (set_inflight w l)) false (slaves (set_inflight w l)) else set_inflight w l)
    = with_commands w0 l (onready w)) as -> by (by destruct w, retry).
  destruct (give_back w0 gl x l (onready w) I0) as (c & Hx & Eu & I1 & Er).
  { intros y. pose proof (held_reply w i n s x y E) as F. by destruct retry. }
  cbn zeta in *. assert (heads w !! x = Some c) as Hx' by (by destruct retry). destruct (C x c Hx') as [C1 C2].
  unfold script_replied. rewrite Eu, bind_Ret. set (w1 := put_head _ x _) in *. destruct retry.
  - rewrite (upd_head_eq w1 x (set_reserved c (reserved c - 1))) by apply lookup_insert_eq. rewrite bind_Ret.
    unfold nodeset_callback_on_ready. cbn [ns_ready put_head set_heads w1 with_commands set_onready set_inflight w0 set_topology].
    set (c2 := set_reserved _ _). assert (c2 = set_reserved c (reserved c - 0)) as Ec by (subst c2; destruct c; cbn; f_equal; lia).
    set (w2 := put_head w1 x c2). set (l2 := onready w2 ++ [(s, x)]).
    eexists _, c. split; [done|]. split; [done|]. split; [|split_and!; try done; by cbn; rewrite insert_insert_eq, Ec].
    change (set_onready w2 l2) with (with_commands w2 (inflight w2) l2).
    assert (forall y, held (with_commands w2 (inflight w2) l2) y = held w1 y + if decide (y = x) then 1 else 0) as Hd.
    { intros y. unfold l2. rewrite held_wait. by rewrite with_commands_same. }
    eapply (store_similar w _ gl x c c2); try done.
    + apply inv_commands; [|cbn; rewrite lookup_insert_eq; eauto|].
      * apply (inv_put_reserved _ w1 x); [done|]. apply lookup_insert_eq.
      * intros y N. rewrite Hd, decide_False by done. change (held w2 y) with (held w1 y). lia.
    + cbn. apply insert_insert_eq.
    + rewrite Hd, decide_True by done. rewrite <- Er. done.
    + intros m. by left.
  - eexists _, c. split_and!; try done. eapply (store_similar w _ gl x c); try done. intros m. by left.
Qed.

(** A command that waited for the nodeset is sent again. *)
Definition may_retry (w : rdstore) (c : rdstore_channel_head_t) : Prop := may_send w c /\ looked_up w (id c).

Lemma retry_ok w l s x : store_ok w -> (forall y, held w y = held (with_commands w (inflight w) l) y + if decide (y = x) then 1 else 0) ->
  (forall c, heads w !! x = Some c -> may_retry w c) ->
  exists c, heads w !! x = Some c /\
    acts (retry_wrapper (set_onready w l) s x) w x (fun c' => similar c c' /\ in_disconnected_cmd_list c' = in_disconnected_cmd_list c).
Proof.
  intros S E M. pose proof S as [[gl I] C B]. destruct (give_back w gl x (inflight w) l I E) as (c & Hx & Eu & I1 & Er).
  cbn zeta in *. exists c. split; [done|]. destruct (C x c Hx) as [C1 C2]. destruct (M c Hx) as [Ms Lk].
  set (c1 := set_reserved c (reserved c - 1)) in *. set (w1 := put_head _ x c1) in *.
  assert (heads w1 !! x = Some c1) as H1 by apply lookup_insert_eq.
  assert (has_nodeset c1 = true) as Hn by by eapply (ho_nodeset cf tracked w c), (store_head w x).
  assert (exists w' c', retry_wrapper (set_onready w l) s x = Ret w' /\ rds_inv (Opened x) gl w' /\ sent w1 x c1 w' c') as (w' & c' & Ew & I' & St).
  { unfold retry_wrapper. replace (set_onready w l) with (with_commands w (inflight w) l) by by destruct w.
    rewrite Eu, bind_Ret. destruct s.
    - by apply register_send_ok.
    - apply keepalive_send_ok; try done. intros R. by apply Ms. }
  exists w', c'. split; [done|]. split; [by eapply (sent_store w w1 w' gl x c c1 c')|].
  destruct St as [H3 H4 [H5 H5'] H6 H7 H8 H9 H10 H11 Hq]. split_and!; try done; [by rewrite H3; apply insert_insert_eq|by destruct H4; split].
Qed.

Lemma onready_expire_ok w i s x : store_ok w -> onready w !! i = Some (s, x) -> (forall c, heads w !! x = Some c -> may_retry w c) ->
  exists c, heads w !! x = Some c /\ acts (nodeset_onready_expire_event w i) w x (similar c).
Proof.
  intros S E M. unfold nodeset_onready_expire_event. rewrite E. destruct (retry_ok w (delete i (onready w)) s x S) as (c & Hx & w' & c' & A); [|done|].
  - intros y. by eapply held_expire.
  - exists c. split; [done|]. exists w', c'. naive_solver.
Qed.

(** ** The timer of a head *)

Lemma keepalive_timer_ok w x c : store_ok w -> heads w !! x = Some c ->
  looked_up w (id c) -> (ns_ready w = true -> serves w (id c)) ->
  acts (redis_channel_keepalive_timer_handler w x) w x (similar c).
Proof.
  intros S Hx Lk Sv. unfold acts, redis_channel_keepalive_timer_handler. rewrite (get_head_eq _ _ _ Hx), bind_Ret.
  destruct (_ || _); [exists w, c; split_and!; try done; by rewrite insert_id|].
  pose proof S as [[gl I] C B]. destruct (C x c Hx) as [C1 C2].
  destruct (keepalive_send_ok gl w x c (inv_open _ _ _ _ x I) Hx) as (w' & c' & -> & I' & St); [by eapply (ho_nodeset cf tracked w c), (store_head w x)|done..|].
  exists w', c'. split; [done|]. split.
  - eapply (sent_store w w w' gl x c c c'); try done; [by rewrite insert_id|by apply store_reserved].
  - by destruct St.
Qed.

(** ** Subscribers that leave *)

Definition may_leave (w : rdstore) (c : rdstore_channel_head_t) : Prop :=
  ns_ready w = true -> serves w (id c) /\ (shutting_down c = true -> in_disconnected_cmd_list c = false).

Lemma unregister_ok gl w x c : rds_inv (Opened x) gl w -> heads w !! x = Some c -> has_nodeset c = true -> may_leave w c ->
  exists w' n, redis_subscriber_unregister w x = Ret w' /\ becomes cf w x (set_node_cmd c n) w' /\ rds_inv (Opened x) gl w' /\
    (n = node_cmd c \/ exists m, n = Some m /\ ready_node w m).
Proof.
  intros I Hx Hn L. unfold redis_subscriber_unregister. rewrite (get_head_eq _ _ _ Hx), bind_Ret. unfold need_nodeset. rewrite Hn. simpl c_assert.
  rewrite bind_Ret.
  assert (exists w' n, Ret w = Ret w' /\ becomes cf w x (set_node_cmd c n) w' /\ rds_inv (Opened x) gl w' /\
    (n = node_cmd c \/ exists m, n = Some m /\ ready_node w m)) as Same.
  { exists w, (node_cmd c). rewrite set_node_cmd_same. split_and!; [done|by apply becomes_refl|done|by left]. }
  destruct (ns_ready w) eqn:R; [|by destruct (shutting_down c)]. destruct (L R) as [Sv Sh]. destruct (shutting_down c) eqn:Es; cbn [negb].
  - destruct (find_by_chanhead_ok cf tracked (Opened x) gl w x c I eq_refl Hx Hn) as (w' & n & -> & B & I' & _ & Cn); [by apply Sh|done|].
    rewrite bind_Ret. exists w', (Some n). split_and!; try done. destruct Cn as [E|[_ Rn]]; [by left|right; eauto].
  - destruct Sv as (n & nd & -> & Hnd & _). rewrite bind_Ret. unfold ClusterSlots.get_node. by rewrite Hnd, bind_Ret.
Qed.

Lemma rds_leave_ok now w x c : store_ok w -> heads w !! x = Some c -> may_leave w c ->
  acts (spooler_dequeue_handler cf now w x) w x (fun c' => sub_count c' = u64 (sub_count c - 1) /\
    (sub_count c' = 0 -> fetching_message_count c' = 0 -> status c' = INACTIVE)).
Proof.
  intros S Hx L. unfold acts, spooler_dequeue_handler. rewrite (upd_head_eq _ _ _ _ Hx), bind_Ret. pose proof S as [[gl I] C B].
  destruct (C x c Hx) as [C1 C2]. pose proof (store_head _ _ _ S Hx) as Ho. pose proof (store_reserved _ _ _ S Hx) as Hr.
  set (c1 := set_sub_count c _). set (w1 := put_head w x c1).
  assert (rds_inv (Opened x) gl w1) as I1 by (eapply inv_put_counts; [by apply inv_open|done..]).
  destruct (unregister_ok gl w1 x c1 I1) as (w2 & n & -> & [K Eh] & I2 & Cn); [apply lookup_insert_eq|by destruct Ho|done|]. rewrite bind_Ret.
  set (c2 := set_node_cmd c1 n) in *. assert (heads w2 !! x = Some c2) as H2 by (by rewrite Eh, lookup_insert_eq).
  rewrite (get_head_eq _ _ _ H2), bind_Ret. destruct K as [Kh Kg Kr Kn Kd Ks Kc Kco Ki Ko]. cbn in Kn, Kd, Kco, Ki, Ko, Eh. rewrite insert_insert_eq in Eh.
  assert (similar c c2) as Sm by done.
  assert (forall m, uses c2 m -> uses c m \/ ready_node w m) as U.
  { intros m [Um|Um]; [|by left; right]. destruct Cn as [-> |(m' & -> & Rm)]; [by left; left|]. injection Um as <-. by right. }
  assert (held w2 x = held w x) as Hd by by apply held_keeps. assert (u64 (sub_count c - 1) >= 0) by (pose proof (u64_nonneg (sub_count c - 1)); lia).
  destruct ((sub_count c2 =? 0) && (fetching_message_count c2 =? 0)) eqn:Ez.
  - apply andb_true_iff in Ez as [E1%Z.eqb_eq E2%Z.eqb_eq]. destruct (in_reaper c2) eqn:Eg.
    + unfold redis_chanhead_gc_add. rewrite (get_head_eq _ _ _ H2), bind_Ret, E1. simpl c_assert. rewrite bind_Ret.
      unfold need_nodeset. assert (has_nodeset c2 = true) as -> by by destruct Ho. simpl c_assert. rewrite bind_Ret, Eg. cbn [negb].
      exists w2, c2. split_and!; try done; [|intros _ _; apply (proj1 (ho_reaper _ _ _ _ Ho)); exact Eg].
      eapply (store_similar w w2 gl x c c2); try done; [by rewrite Kd|by rewrite Hd|cbn; lia].
    + destruct (rds_gc_add_ok cf tracked now gl w2 x c2 I2 H2) as (w3 & gl' & -> & I3 & Ew); [by destruct Ho|done|done| |by rewrite Hd|].
      { intros Es. apply (proj2 (ho_reaper _ _ _ _ Ho)) in Es. change (in_reaper c = false) in Eg. congruence. }
      set (c3 := set_gc c2 _ _ _) in *. exists w3, c3. split; [done|]. rewrite Ew in I3 |- *. cbn [heads nset ns_ready set_reaper put_head set_heads].
      split; [|split_and!; try done; by rewrite Eh, insert_insert_eq].
      eapply (store_close w _ gl' x c3); try done; cbn.
      * by rewrite Eh, insert_insert_eq.
      * by rewrite Kd.
      * eapply (similar_ok w w2 c c2) in Ho; [|exact Sm|exact Kco]. destruct Ho as [A1 A2 A3 A4 A5]. split; try done. by left.
      * rewrite Hr. symmetry. exact Hd.
      * lia.
      * rewrite Kd. intros R m Um. destruct (U m Um) as [Uc|]; [|done]. by apply (B R x c).
  - exists w2, c2. split_and!; try done.
    + eapply (store_similar w w2 gl x c c2); try done; [by rewrite Kd|by rewrite Hd|cbn; lia].
    + intros E1 E2. rewrite E1, E2 in Ez. done.
Qed.

(** ** What the pubsub connections answer *)

Lemma inv_answered hl gl w n a rest : rds_inv hl gl w -> conns w !! n = Some (a :: rest) ->
  (forall y c, heads w !! y = Some c -> a = SUBSCRIBE (id c) -> in_hole hl y) -> rds_inv hl gl (set_conns w (<[n := rest]> (conns w))).
Proof.
  intros [A1 A2 A3 A4 A5 A6 A7 A10 A8 A9 B1 B2 B3 B4] En Hh. split; try done.
  - destruct A1 as (L & O & P). exists L. split; [|done]. by apply (lists_ok_ext w).
  - by destruct A2.
  - intros y c Hy Nh. destruct (A8 y c Hy Nh) as [H1 H2 H3 H4 H5]. split; try done. revert H5. unfold RedisChannelsFacts.listening.
    destruct (pubsub_status c); try done. intros (m & Em & Ic & M). exists m. split_and!; try done. cbn.
    destruct (decide (m = n)) as [->|N]; [|by rewrite lookup_insert_ne]. rewrite lookup_insert_eq. rewrite En in Ic. cbn in *.
    apply elem_of_cons in Ic as [Ea|]; [|done]. destruct Nh. by apply (Hh y c).
  - intros m. cbn. destruct (decide (m = n)) as [->|N]; [|rewrite lookup_insert_ne by done; apply B4].
    intros _. apply (B4 n). by rewrite En.
Qed.

Definition answer_ok (w : rdstore) (n : loc) : Prop :=
  match conns w !! n with
  | Some (SUBSCRIBE chid :: _) => forall x c, heads w !! x = Some c -> id c = chid -> node_pubsub c = Some n
  | _ => True
  end.

(** Where the head that is answered stands. *)
Definition answered (w w' : rdstore) (n : loc) : Prop :=
  match conns w !! n with
  | Some (SUBSCRIBE chid :: _) => forall x c, heads w !! x = Some c -> id c = chid -> heads w' = <[x := subscribed_head c]> (heads w)
  | Some (UNSUBSCRIBE chid :: _) => forall x c, heads w !! x = Some c -> id c = chid ->
      heads w' = if decide (pubsub_status c = REDIS_PUBSUB_UNSUBSCRIBED) then heads w else <[x := unsubscribed_head cf c]> (heads w)
  | _ => heads w' = heads w
  end.

Lemma hash_head w gl i : rds_inv Whole gl w ->
  match chanhead_hash w !! i with
  | Some x => exists c, heads w !! x = Some c /\ id c = i /\ forall y d, heads w !! y = Some d -> id d = i -> y = x
  | None => forall y d, heads w !! y = Some d -> id d <> i
  end.
Proof.
  intros I. assert (forall y d, heads w !! y = Some d -> id d = i -> chanhead_hash w !! i = Some y) as Ex.
  { intros y d Hy Ei. apply (ri_hash _ _ _ _ _ I). eauto. }
  destruct (chanhead_hash w !! i) as [x|] eqn:E.
  - apply (ri_hash _ _ _ _ _ I) in E as (_ & c & Hx & Ei). exists c. split_and!; try done. intros y d Hy Ed.
    assert (Some x = Some y) as [= ->] by (by eapply Ex). done.
  - intros y d Hy Ed. by assert (None = Some y) by by eapply Ex.
Qed.

(** What a change of the pubsub status leaves of a head. *)
Record same_counts (c c' : rdstore_channel_head_t) : Prop := {
  sc_reserved : reserved c' = reserved c;
  sc_subs : sub_count c' = sub_count c;
  sc_fetching : fetching_message_count c' = fetching_message_count c;
  sc_uses : forall n, uses c' n -> uses c n;
}.
Lemma subscribed_counts c : same_counts c (subscribed_head c).
Proof. unfold subscribed_head. cbn. case_decide; by split. Qed.
Lemma unsubscribed_counts c : same_counts c (unsubscribed_head cf c).
Proof. unfold unsubscribed_head. case_match; split; try done; intros n [U|U]; cbn in U; try done; by left. Qed.

Lemma subscribed_head_ok w w' c n :
  head_ok w c -> flags_ok c -> node_pubsub c = Some n -> REDIS_MODE_DISTRIBUTED <= storage_mode cf -> head_ok w' (subscribed_head c).
Proof.
  intros [H1 H2 H3 H4 H5] [_ F] En M. assert (in_disconnected_pubsub_list c <> true) as Nq by (intros Q%F; congruence).
  assert (forall d, pubsub_status d = REDIS_PUBSUB_SUBSCRIBED -> node_pubsub d = node_pubsub c -> listening w' d) as L.
  { intros d Ed Nd. unfold RedisChannelsFacts.listening. rewrite Ed, Nd, En. split; [eauto|done]. }
  unfold subscribed_head. cbn. case_decide as Es; split; cbn; try done; try by apply L.
  - by right; right.
  - rewrite H3, Es. done.
Qed.
Lemma unsubscribed_head_ok w w' c : head_ok w c -> head_ok w' (unsubscribed_head cf c).
Proof.
  intros [H1 H2 H3 H4 H5]. unfold unsubscribed_head. destruct (_ && bool_decide (status c = READY)) eqn:E; split; cbn; try done.
  - by right; left.
  - rewrite H3. apply andb_true_iff in E as [_ E%bool_decide_eq_true]. by rewrite E.
Qed.

(** The head [x] is answered. *)
Lemma store_counts w w' gl x c c' :
  store_ok w -> heads w !! x = Some c -> becomes cf (set_conns w (conns w')) x c' w' -> rds_inv (Opened x) gl w' -> head_ok w' c' ->
  same_counts c c' -> store_ok w'.
Proof.
  intros S Hx [K Eh] I Ho [E1 E2 E3 U]. destruct (so_counts _ S x c Hx).
  eapply store_close; try done; [apply K|by rewrite (k_ready _ _ _ K)| |by rewrite E2|by rewrite E3|].
  - rewrite E1, (store_reserved w x c S Hx). symmetry. apply held_keeps; apply K.
  - rewrite (k_ready _ _ _ K). intros R n Un. apply (so_busy _ S R x c); [done|by apply U].
Qed.

Lemma pubsub_reply_ok w n : store_ok w -> answer_ok w n ->
  exists w', pubsub_reply cf w n = Ret w' /\ store_ok w' /\ nset w' = nset w /\ ns_ready w' = ns_ready w /\ answered w w' n.
Proof.
  intros S A. pose proof S as [[gl I] C B]. unfold pubsub_reply, answered, answer_ok in *.
  destruct (conns w !! n) as [[|[chid|chid] rest]|] eqn:En; [by exists w| | |by exists w];
    set (w1 := set_conns w (<[n:=rest]> (conns w))); pose proof (hash_head w gl chid I) as Hh;
    unfold subscribed_callback, unsubscribed_callback, find_chanhead_for_pubsub_callback; change (chanhead_hash w1) with (chanhead_hash w);
    destruct (chanhead_hash w !! chid) as [x|].
  - destruct Hh as (c & Hx & Ei & U). destruct (C x c Hx) as [C1 C2]. pose proof (A x c Hx Ei) as Ep.
    pose proof (store_head _ _ _ S Hx) as [H1 H2 H3 H4 H5].
    assert (rds_inv (Opened x) gl w1) as I1.
    { eapply inv_answered; [by apply inv_open|done|]. intros y d Hy [= Ed]. by apply (U y d). }
    destruct (subscribed_ok cf tracked (Opened x) gl w1 x c n I1 eq_refl Hx Ep H2) as (w2 & -> & [K Eh] & I2).
    exists w2. split; [done|]. split; [|split_and!; [apply K|apply K|by intros y d Hy Ed; assert (y = x) as -> by (by apply (U y d)); simplify_eq]].
    eapply (store_counts w w2 gl x c (subscribed_head c)); try done; [by split; [destruct K; split|]| |apply subscribed_counts].
    eapply (subscribed_head_ok w); try done; [exact (inv_flags _ _ _ _ _ _ _ I Hx)|]. apply (ri_conns _ _ _ _ _ I n). by rewrite En.
  - exists w1. split; [done|]. split; [|split_and!; try done; intros y d Hy Ed; by destruct (Hh y d)].
    split; [exists gl|done|done]. eapply inv_answered; try done. intros y d Hy [= Ed]. by destruct (Hh y d).
  - destruct Hh as (c & Hx & Ei & U). rewrite (get_head_eq w1 x c Hx), bind_Ret.
    assert (rds_inv Whole gl w1) as I1 by (eapply inv_answered; done).
    destruct (decide (pubsub_status c = REDIS_PUBSUB_UNSUBSCRIBED)) as [Eu|Nu].
    + rewrite bool_decide_eq_false_2 by (intros N; done). exists w1. split_and!; try done; [by split; [exists gl|..]|].
      intros y d Hy Ed. assert (y = x) as -> by (by apply (U y d)). simplify_eq. by rewrite decide_True.
    + rewrite bool_decide_eq_true_2 by done. pose proof (store_head _ _ _ S Hx) as Ho.
      destruct (unsubscribed_ok cf tracked (Opened x) gl w1 x c (Some n) (inv_open _ _ _ _ x I1) eq_refl Hx) as (w2 & -> & [K Eh] & I2); [by destruct Ho|done|].
      exists w2. split_and!; try done; [|apply K|apply K|].
      * eapply (store_counts w w2 gl x c (unsubscribed_head cf c)); try done; [by split; [destruct K; split|]| |apply unsubscribed_counts].
        by eapply unsubscribed_head_ok.
      * intros y d Hy Ed. assert (y = x) as -> by (by apply (U y d)). simplify_eq. by rewrite decide_False.
  - exists w1. split; [done|]. split; [|split_and!; try done; intros y d Hy Ed; by destruct (Hh y d)].
    split; [exists gl|done|done]. eapply inv_answered; done.
Qed.

(** ** Timers and the end of the worker *)

Definition reaping_fuel (w : rdstore) : nat := Z.to_nat (count (chanhead_reaper w)).

Lemma tick_store now w : store_ok w ->
  exists w', reaper_tick cf (reaping_fuel w) now w = Ret w' /\ store_ok w' /\ cleared cf (fun _ c => ripe now c) w w'.
Proof.
  intros [[gl I] C B]. destruct (tick_ok cf tracked W now gl w I C) as (w' & gl' & E & I' & K).
  exists w'. split; [|split; [|done]].
  - unfold reaping_fuel. pose proof (rr_count _ _ (ri_gc _ _ _ _ _ I)) as Ec. cbn in Ec. by rewrite Ec, Nat2Z.id.
  - assert (forall x c, heads w' !! x = Some c -> heads w !! x = Some c) as Sub.
    { intros x c. rewrite (cl_heads _ _ _ _ K). destruct (heads w !! x); [|done]. by case_match; intros. }
    split; [eauto|..].
    + intros x c Hx. by apply (C x), Sub.
    + intros R x c n Hx%Sub Un. rewrite (cl_ready _ _ _ _ K) in R. unfold ready_node. rewrite (cl_nset _ _ _ _ K). by apply (B R x c).
Qed.

Lemma exit_ok w : store_ok w -> store_ok (redis_store_prepare_to_exit_worker w).
Proof.
  intros [[gl I] C B]. unfold redis_store_prepare_to_exit_worker.
  assert (forall x c, (set_shutting_down <$> heads w) !! x = Some c -> exists d, heads w !! x = Some d /\ c = set_shutting_down d) as Inv.
  { intros x c. rewrite lookup_fmap_Some. intros (d & <- & Hd). eauto. }
  split.
  - pose proof I as [A1 A2 A3 A4 A5 A6 A7 A10 A8 A9 B1 B2 B3 B4].
    assert (forall y, is_Some ((set_shutting_down <$> heads w) !! y) <-> is_Some (heads w !! y)) as D by (intros y; by rewrite lookup_fmap, fmap_is_Some).
    exists gl. split; cbn; try done.
    + destruct A1 as (L & O & P). exists L. split; [by apply (lists_ok_ext w)|]. intros k y. rewrite (P k y), lookup_fmap.
      destruct (heads w !! y) as [d|]; cbn; [|by split; intros (? & ? & _)].
      split; intros (d' & [= <-] & Pd); eexists; (split; [done|]); by destruct k.
    + by destruct A2.
    + intros y. rewrite A4, lookup_fmap. destruct (heads w !! y); cbn; naive_solver.
    + intros y o. rewrite D. apply A5.
    + intros i y. rewrite A6, lookup_fmap. destruct (heads w !! y); cbn; naive_solver.
    + intros y c (d & Hd & ->)%Inv. by apply (A7 y d).
    + intros y c (d & Hd & ->)%Inv _. by apply (A10 y d).
    + intros y c (d & Hd & ->)%Inv _. destruct (A8 y d Hd) as [? ? ? ? ?]; [by intros []|]. by split.
    + intros y Hy. apply D. by apply A9.
  - intros y c (d & Hd & ->)%Inv. by apply (C y d).
  - intros R y c n (d & Hd & ->)%Inv Un. by apply (B R y d).
Qed.
End runs.
