(* ===== verification/RedisChannelsNodes.v ===== *)
(** * Nodes of the Redis store that come and go

    What the end of a connection, a node that is ready and a nodeset that is
    ready do to the channels, whatever the state of their heads. *)

From S2P Require Import Prelude Nginx DList SList ChanHead RbTree ClusterSlots ClusterSlotsFacts Reaper ReaperFacts RedisChannels RedisChannelsFacts RedisChannelsRuns.

Section runs.
Context `{NgxRbtree redis_nodeset_slot_range_node_t} (cf : redis_settings) (tracked : Prop).
Context (W : weights_ok cf).
Notation rds_inv := (rds_inv cf tracked).
Notation head_ok := (head_ok cf tracked).
Notation listening := (listening cf tracked).
Notation store_ok := (store_ok cf tracked).
Notation keeps := (keeps cf).
Notation becomes := (becomes cf).

(** ** Heads that lose their node *)

Global Instance placed_dec c k : Decision (placed c k).
Proof. destruct k; cbn; apply _. Defined.

(** A head goes from one list to another through the same links. *)
Lemma list_move_ok w L x c k k2 :
  lists_ok w L -> lists_place (heads w) L -> heads w !! x = Some c -> placed c k -> k <> All -> k2 <> k ->
  k2 = DisconnectedCmd \/ k2 = DisconnectedPubsub -> links_of k = links_of k2 ->
  exists w1 xs1 xs2, list_remove w k x = Ret w1 /\ heads w1 = heads w /\ L k = xs1 ++ x :: xs2 /\ x ∉ xs1 ++ xs2 /\
    forall c1, exists w2, list_append (put_head w1 x c1) k2 x = Ret w2 /\ heads w2 = <[x := c1]> (heads w) /\ keeps w w2 /\
      lists_ok w2 (fun k' => if decide (k' = k2) then L k2 ++ [x] else if decide (k' = k) then xs1 ++ xs2 else L k').
Proof.
  intros O P Hx Pk Nk N2 E2 El. assert (x ∈ L k) as Hk by (apply P; eauto).
  destruct (list_remove_ok cf w L k x O Nk Hk) as (w1 & xs1 & xs2 & E & Kp & Eh & EL & Nx & O1).
  exists w1, xs1, xs2. split_and!; try done. intros c1.
  assert (heads (put_head w1 x c1) = <[x := c1]> (heads w)) as Eh1 by (cbn; by rewrite Eh).
  destruct (list_append_ok cf (put_head w1 x c1) (fun k' => if decide (k' = k) then xs1 ++ xs2 else L k') k2 x) as (w2 & Ea & Kp2 & Eh2 & O2).
  - apply lists_heads; [done|]. rewrite Eh. eauto.
  - by destruct E2 as [-> | ->].
  - destruct E2 as [-> | ->]; cbn; eauto.
  - rewrite Eh1, lookup_insert_eq. eauto.
  - intros k' Ek. case_decide as N; [done|]. intros Hk'. apply N. apply (lo_sep _ _ O k' k x); congruence.
  - rewrite decide_False in O2 by done. exists w2. split_and!; try done; [by rewrite Eh2|].
    eapply rds_keeps_trans; [exact Kp|]. eapply rds_keeps_trans; [|exact Kp2]. apply keeps_heads.
Qed.

Lemma lists_place_move hs L x c c' k k2 xs1 xs2 :
  lists_place hs L -> hs !! x = Some c -> L k = xs1 ++ x :: xs2 -> x ∉ xs1 ++ xs2 -> k2 <> k ->
  (forall k', placed c' k' <-> placed c k' /\ k' <> k \/ k' = k2) ->
  lists_place (<[x := c']> hs) (fun k' => if decide (k' = k2) then L k2 ++ [x] else if decide (k' = k) then xs1 ++ xs2 else L k').
Proof.
  unfold lists_place. intros P Hx EL Nx N2 C k' y. destruct (decide (y = x)) as [->|N].
  - setoid_rewrite lookup_insert_eq. transitivity (placed c' k'); [|by naive_solver]. rewrite C. case_decide as E; [subst; set_solver|].
    case_decide as E1; [subst; naive_solver|]. rewrite P. naive_solver.
  - setoid_rewrite lookup_insert_ne; [|done]. case_decide as E; [subst; rewrite <- P; set_solver|].
    case_decide as E1; [subst; rewrite <- P, EL; set_solver|apply P].
Qed.

Definition away_head (c : rdstore_channel_head_t) : rdstore_channel_head_t :=
  let c := set_in_cmd_list (set_node_cmd c None) true in if decide (status c = READY) then set_status c NOTREADY else c.

Lemma away_head_ok w w' c : RedisChannelsFacts.conns_grow cf (conns w) (conns w') -> head_ok w c -> head_ok w' (away_head c).
Proof.
  intros G [H1 H2 H3 H4 H5]. apply (listening_grows _ _ w w') in H5; [|done]. unfold away_head. cbn.
  case_decide as E; split; cbn; try done; [by right; left|]. rewrite H3, E. done.
Qed.
Lemma away_quiet nd d : may_log cf nd d -> may_log cf nd (away_head d).
Proof. unfold away_head, may_log. cbn. by case_decide. Qed.
Lemma away_pubsub d : node_pubsub (away_head d) = node_pubsub d.
Proof. unfold away_head. cbn. by case_decide. Qed.
Lemma away_counts c : same_counts c (away_head c).
Proof. unfold away_head. cbn. case_decide; split; try done; intros n [U|U]; try done; by right. Qed.

(** One iteration of a loop over the heads of a node: the head [x] leaves. *)
Definition leaves (f : outcome rdstore) (gl : list loc) (w : rdstore) (L : chan_list -> list loc) (k : chan_list) (x : loc)
    (c' : rdstore_channel_head_t) : Prop :=
  exists w' L', f = Ret w' /\ becomes w x c' w' /\ rds_inv Whole gl w' /\ lists_ok w' L' /\ lists_place (heads w') L' /\
    exists xs1 xs2, L k = xs1 ++ x :: xs2 /\ L' k = xs1 ++ xs2 /\ x ∉ xs1 ++ xs2.

Lemma put_away_ok gl w L x c n :
  rds_inv Whole gl w -> lists_ok w L -> lists_place (heads w) L -> heads w !! x = Some c -> node_cmd c = Some n ->
  leaves (put_away_cmd w x) gl w L (NodeCmd n) x (away_head c).
Proof.
  intros I O P Hx En. destruct (inv_flags _ _ _ _ _ _ _ I Hx) as [F1 F2].
  destruct (list_move_ok w L x c (NodeCmd n) DisconnectedCmd O P Hx En) as (w1 & xs1 & xs2 & E1 & Eh1 & EL & Nx & Ap); try done; [by left|].
  destruct (Ap (set_node_cmd c None)) as (w2 & E2 & Eh2 & Kp & O2).
  unfold leaves, put_away_cmd, nodeset_node_dissociate_chanhead. rewrite (get_head_eq _ _ _ Hx), bind_Ret, En, E1, !bind_Ret.
  rewrite (upd_head_eq w1 x c), bind_Ret by by rewrite Eh1. rewrite E2, bind_Ret.
  rewrite (upd_head_eq w2 x (set_node_cmd c None)), bind_Ret by by rewrite Eh2, lookup_insert_eq.
  rewrite (upd_head_eq _ x (set_in_cmd_list (set_node_cmd c None) true)) by apply lookup_insert_eq.
  fold (away_head c). set (w3 := put_head _ x (away_head c)). set (L' := fun k => _) in O2.
  assert (heads w3 = <[x := away_head c]> (heads w)) as Eh by (cbn; by rewrite Eh2, !insert_insert_eq).
  assert (forall k, placed (away_head c) k <-> placed c k /\ k <> NodeCmd n \/ k = DisconnectedCmd) as Cp.
  { unfold away_head. intros k. cbn. case_decide; destruct k; cbn; intuition congruence. }
  assert (lists_ok w3 L') as O3 by (apply lists_heads; [apply lists_heads|]; [done|rewrite Eh2|cbn]; rewrite lookup_insert_eq; eauto).
  assert (lists_place (heads w3) L') as P3 by (rewrite Eh; eapply lists_place_move; done).
  assert (becomes w x (away_head c) w3) as B by (split; [by eapply rds_keeps_trans|done]).
  exists w3, L'. split_and!; try done.
  - eapply inv_step; [exact I|exact Hx|exact B|by exists L'| | |].
    + unfold away_head. cbn. by case_decide.
    + unfold away_head, flags_ok. cbn. by case_decide.
    + right. eapply away_head_ok; [apply Kp|]. apply (ri_heads _ _ _ _ _ I x); [done|by intros []].
  - exists xs1, xs2. split_and!; try done. unfold L'. by rewrite decide_False, decide_True.
Qed.

Lemma unsubscribe_ok gl w L x c n :
  rds_inv Whole gl w -> lists_ok w L -> lists_place (heads w) L -> heads w !! x = Some c -> node_pubsub c = Some n -> may_log cf None c ->
  leaves (redis_chanhead_set_pubsub_status cf w x None REDIS_PUBSUB_UNSUBSCRIBED) gl w L (NodePubsub n) x (unsubscribed_head cf c).
Proof.
  intros I O P Hx En Ml. destruct (inv_flags _ _ _ _ _ _ _ I Hx) as [F1 F2].
  assert (head_ok w c) as Ho by (apply (ri_heads _ _ _ _ _ I x); [done|by intros []]).
  assert (in_disconnected_pubsub_list c = false) as Ef by (apply not_true_is_false; intros Q%F2; congruence).
  set (c1 := set_pubsub c REDIS_PUBSUB_UNSUBSCRIBED). set (w0 := put_head w x c1).
  assert (heads w0 !! x = Some c1) as H1 by apply lookup_insert_eq.
  assert (lists_ok w0 L) as O0 by (apply lists_heads; eauto).
  assert (lists_place (heads w0) L) as P0 by (eapply lists_place_same; [exact P|exact Hx|by intros []]).
  destruct (list_move_ok w0 L x c1 (NodePubsub n) DisconnectedPubsub O0 P0 H1 En) as (w1 & xs1 & xs2 & E1 & Eh1 & EL & Nx & Ap); try done; [by right|].
  destruct (Ap (set_node_pubsub c1 None)) as (w2 & E2 & Eh2 & Kp & O2). set (L' := fun k => _) in O2.
  unfold leaves. cbn [redis_chanhead_set_pubsub_status]. rewrite (get_head_eq _ _ _ Hx), bind_Ret, (may_log_eq cf None c Ml), bind_Ret.
  rewrite (upd_head_eq _ _ _ _ Hx), bind_Ret. fold c1. fold w0.
  unfold nodeset_node_dissociate_pubsub_chanhead. rewrite (get_head_eq _ _ _ H1), bind_Ret.
  change (node_pubsub c1) with (node_pubsub c). rewrite En, E1, bind_Ret, (upd_head_eq w1 x c1), bind_Ret by by rewrite Eh1.
  rewrite (get_head_eq _ x (set_node_pubsub c1 None)), bind_Ret by apply lookup_insert_eq.
  change (in_disconnected_pubsub_list (set_node_pubsub c1 None)) with (in_disconnected_pubsub_list c). rewrite Ef. cbn [negb].
  unfold need_nodeset. change (has_nodeset (set_node_pubsub c1 None)) with (has_nodeset c). rewrite (ho_nodeset _ _ _ _ Ho).
  simpl c_assert. rewrite bind_Ret, E2, bind_Ret, (upd_head_eq w2 x (set_node_pubsub c1 None)), bind_Ret by by rewrite Eh2, lookup_insert_eq.
  rewrite (get_head_eq _ x (queued_head c)), bind_Ret by apply lookup_insert_eq.
  change (has_nodeset (queued_head c)) with (has_nodeset c). rewrite (ho_nodeset _ _ _ _ Ho). simpl c_assert. rewrite bind_Ret.
  change (status (queued_head c)) with (status c). change (set_in_pubsub_list (set_node_pubsub c1 None) true) with (queued_head c).
  assert (exists w3, (if (storage_mode cf =? REDIS_MODE_BACKUP) && bool_decide (status c = READY)
     then Ret (note (put_head (put_head w2 x (queued_head c)) x (set_status (queued_head c) NOTREADY)) (ChannelStatusChange x))
     else Ret (put_head w2 x (queued_head c))) = Ret w3 /\ heads w3 = <[x := unsubscribed_head cf c]> (heads w) /\ keeps w2 w3 /\
     (forall k, get_list w3 k = get_list w2 k) /\ links w3 = links w2) as (w3 & -> & Eh3 & K3 & G3 & El3).
  { unfold unsubscribed_head. destruct (_ && _); eexists; (split; [done|]); cbn; rewrite Eh2; cbn; rewrite !insert_insert_eq;
      (split; [done|split; [done|split; [by intros []|done]]]). }
  assert (becomes w x (unsubscribed_head cf c) w3) as B by (split; [eapply rds_keeps_trans; [|exact K3]; by eapply rds_keeps_trans, Kp|done]).
  assert (lists_ok w3 L') as O3.
  { eapply lists_ok_ext, O2; [done|done|]. intros y. rewrite Eh3, Eh2. cbn. rewrite insert_insert_eq, !lookup_insert_is_Some'. done. }
  assert (lists_place (heads w3) L') as P3.
  { rewrite Eh3. eapply (lists_place_move _ _ x c); try done. unfold unsubscribed_head. intros k. destruct (_ && _); destruct k; cbn; intuition congruence. }
  exists w3, L'. split_and!; try done.
  - eapply inv_step; [exact I|exact Hx|exact B|by exists L'| | |].
    + unfold unsubscribed_head. by case_match.
    + unfold unsubscribed_head, flags_ok. by case_match.
    + right. eapply unsubscribed_head_ok, Ho.
  - exists xs1, xs2. split_and!; try done. unfold L'. by rewrite decide_False, decide_True.
Qed.

(** *** Walking a list *)

Lemma list_first_eq w L k : lists_ok w L -> k <> All -> is_Some (get_list w k) -> list_first w k = Ret (list.head (L k)).
Proof.
  intros O Nk [l G]. unfold list_first, nchan_slist_first. rewrite G. destruct (lo_rep _ _ O k l Nk G) as [_ (_ & _ & E & _)]. by rewrite E.
Qed.
Lemma list_next_eq w L k l xs1 x xs2 : lists_ok w L -> k <> All -> get_list w k = Some l -> L k = xs1 ++ x :: xs2 ->
  nchan_slist_next (links w) l x = Ret (list.head xs2).
Proof.
  intros O Nk G EL. destruct (lo_rep _ _ O k l Nk G) as [_ (_ & [_ S] & _)]. rewrite EL in S.
  destruct (dseg_lookup _ _ _ _ _ _ _ _ S) as [_ E]. rewrite hd_or_None in E. unfold nchan_slist_next. by apply load_Some.
Qed.
Lemma list_nodup w L k : lists_ok w L -> NoDup (L k).
Proof.
  intros O. destruct (decide (k = All)) as [->|Nk]; [destruct (lo_all _ _ O) as (-> & _); constructor|].
  destruct (get_list w k) as [l|] eqn:G; [|rewrite (lo_none _ _ O k G); constructor]. by destruct (lo_rep _ _ O k l Nk G) as [_ (_ & [ND _] & _)].
Qed.
(** The fuel of the loops. *)
Lemma list_length w L k : lists_ok w L -> lists_place (heads w) L -> (length (L k) <= base.size (heads w))%nat.
Proof.
  intros O P. rewrite <- size_dom, <- (size_list_to_set (C := gset loc)) by by eapply list_nodup.
  apply subseteq_size. intros x Hx%elem_of_list_to_set. apply P in Hx as (c & Hx & _). apply elem_of_dom. eauto.
Qed.
Lemma list_split_unique (x : loc) xs1 xs2 ys1 ys2 : NoDup (ys1 ++ x :: ys2) -> ys1 ++ x :: ys2 = xs1 ++ x :: xs2 -> xs1 = ys1 /\ xs2 = ys2.
Proof.
  revert xs1. induction ys1 as [|y ys1 IH]; intros [|z xs1]; cbn; intros [N ND]%NoDup_cons E; simplify_eq.
  - done.
  - set_solver.
  - set_solver.
  - by destruct (IH xs1) as [-> ->].
Qed.

(** *** Loops that take heads out of the list of a node *)

Lemma away_out n c : placed c (NodeCmd n) -> ~ placed (away_head c) (NodeCmd n).
Proof. unfold away_head. intros _. cbn. by case_decide. Qed.
Lemma unsubscribed_out n c : placed c (NodePubsub n) -> ~ placed (unsubscribed_head cf c) (NodePubsub n).
Proof. unfold unsubscribed_head. intros _. by case_match. Qed.

Lemma fmap_step (g : rdstore_channel_head_t -> rdstore_channel_head_t) (hs : gmap loc rdstore_channel_head_t) x c c' :
  hs !! x = Some c -> g c = c' -> g c' = c' -> g <$> <[x := c']> hs = g <$> hs.
Proof. intros Hx E1 E2. rewrite fmap_insert, E2. apply insert_id. by rewrite lookup_fmap, Hx, <- E1. Qed.

(** [f] is what becomes of a head that is taken out. *)
Section walk.
Context (k : chan_list) (body : rdstore -> loc -> outcome rdstore) (f : rdstore_channel_head_t -> rdstore_channel_head_t).
Context (Nk : k <> All) (Out : forall c, placed c k -> ~ placed (f c) k).
Context (Q : rdstore_channel_head_t -> Prop).
Context (Body : forall gl w L x c, rds_inv Whole gl w -> lists_ok w L -> lists_place (heads w) L -> heads w !! x = Some c ->
  placed c k -> Q c -> leaves (body w x) gl w L k x (f c)).

Lemma list_here w L x : lists_ok w L -> lists_place (heads w) L -> x ∈ L k -> is_Some (get_list w k) /\ exists c, heads w !! x = Some c /\ placed c k.
Proof.
  intros O P Hx. split; [|by apply P]. destruct (get_list w k) eqn:G; [eauto|]. rewrite (lo_none _ _ O k G) in Hx. by apply elem_of_nil in Hx.
Qed.

(** Taking out the first until there is none. *)
Definition taken_out (c : rdstore_channel_head_t) : rdstore_channel_head_t := if decide (placed c k) then f c else c.

Lemma drain_ok (loop : nat -> rdstore -> outcome rdstore) :
  (forall fuel w, loop fuel w = (cur ← list_first w k;
    match cur with
    | None => Ret w
    | Some x => match fuel with O => NoFuel | S fuel => w ← body w x; loop fuel w end
    end)) ->
  forall fuel gl w, rds_inv Whole gl w -> is_Some (get_list w k) ->
  (forall x c, heads w !! x = Some c -> placed c k -> Q c) -> (forall L, lists_ok w L -> lists_place (heads w) L -> length (L k) <= fuel)%nat ->
  exists w', loop fuel w = Ret w' /\ rds_inv Whole gl w' /\ keeps w w' /\ heads w' = taken_out <$> heads w.
Proof.
  intros Lp fuel. induction fuel as [|fuel IH]; intros gl w I G Hq Fu; destruct (ri_lists _ _ _ _ _ I) as (L & O & P);
    specialize (Fu L O P) as Fu'; rewrite Lp, (list_first_eq w L k O Nk G), bind_Ret; destruct (L k) as [|x xs] eqn:EL; try (cbn in Fu'; lia).
  1,2: exists w; split_and!; try done; rewrite <- (map_fmap_id (heads w)) at 1; apply map_fmap_ext; intros y d Hy; unfold taken_out;
    rewrite decide_False; [done|]; intros Pd; assert (y ∈ L k) as Hk by (apply P; eauto); rewrite EL in Hk; by apply elem_of_nil in Hk.
  cbn [list.head]. assert (x ∈ L k) as Hk by (rewrite EL; set_solver). destruct (list_here w L x O P Hk) as [_ (c & Hx & Pc)].
  destruct (Body gl w L x c I O P Hx Pc (Hq x c Hx Pc)) as (w1 & L1 & E1 & B & I1 & O1 & P1 & xs1 & xs2 & S1 & S2 & Nx). rewrite E1, bind_Ret.
  destruct (list_split_unique x [] xs xs1 xs2) as [<- <-]; [rewrite <- S1; by eapply list_nodup|by rewrite <- S1|].
  destruct (IH gl w1 I1) as (w' & -> & I' & K' & Eh).
  - destruct (get_list w1 k) eqn:G1; [eauto|]. destruct B as [Kp _]. exfalso.
    assert (forall n, is_Some (channels w1 !! n) <-> is_Some (channels w !! n)) as D by (intros n; rewrite <- !elem_of_dom; by rewrite (k_nodes _ _ _ Kp)).
    destruct k; try done; cbn in G, G1; apply fmap_None in G1; apply fmap_is_Some, D in G; rewrite G1 in G; by destruct G.
  - intros y d. rewrite (bc_heads _ _ _ _ _ B), lookup_insert_Some. intros [[<- <-]|[N Hy]] Pd; [by destruct (Out c Pc)|by apply (Hq y d)].
  - intros L2 O2 P2. assert (length (L2 k) = length (L1 k)) as ->; [|rewrite S2; cbn in *; lia].
    apply Permutation_length, NoDup_Permutation; [by eapply list_nodup..|]. intros y. by rewrite (P1 k y), (P2 k y).
  - exists w'. split_and!; try done; [eapply rds_keeps_trans; [apply B|done]|]. rewrite Eh, (bc_heads _ _ _ _ _ B).
    eapply fmap_step; [done|..]; unfold taken_out; [by rewrite decide_True|rewrite decide_False; [done|by apply Out]].
Qed.

End walk.

(** The head that comes next is still in the list when [x] has left it. *)
Definition walked (k : chan_list) (p : rdstore_channel_head_t -> bool) (f : rdstore_channel_head_t -> rdstore_channel_head_t)
    (xs : list loc) (w w' : rdstore) : Prop :=
  keeps w w' /\ forall y, heads w' !! y = (fun c => if bool_decide (y ∈ xs) && p c then f c else c) <$> heads w !! y.

Lemma walked_nil k p f w : walked k p f [] w w.
Proof. split; [done|]. intros y. by destruct (heads w !! y). Qed.
Lemma walked_skip k p f x xs w w' c : heads w !! x = Some c -> p c = false -> x ∉ xs -> walked k p f xs w w' -> walked k p f (x :: xs) w w'.
Proof.
  intros Hx Ep Nx [K E]. split; [done|]. intros y. rewrite E. destruct (decide (y = x)) as [->|N].
  - rewrite Hx. cbn. by rewrite Ep, !andb_false_r.
  - by rewrite (bool_decide_ext (y ∈ x :: xs) (y ∈ xs)) by set_solver.
Qed.
Lemma walked_step k p f x xs w w1 w' c : heads w !! x = Some c -> p c = true -> x ∉ xs -> becomes w x (f c) w1 -> walked k p f xs w1 w' ->
  walked k p f (x :: xs) w w'.
Proof.
  intros Hx Ep Nx [K1 E1] [K E]. split; [by eapply rds_keeps_trans|]. intros y. rewrite E, E1. destruct (decide (y = x)) as [->|N].
  - rewrite lookup_insert_eq, Hx. cbn. rewrite (bool_decide_eq_false_2 (x ∈ xs)), (bool_decide_eq_true_2 (x ∈ x :: xs)) by set_solver. cbn. by rewrite Ep.
  - rewrite lookup_insert_ne by done. by rewrite (bool_decide_ext (y ∈ x :: xs) (y ∈ xs)) by set_solver.
Qed.

(** [nodup] splits off the first of what is left of a list. *)
Lemma nodup_mid (x : loc) xs1 xs2 : NoDup (xs1 ++ x :: xs2) -> x ∉ xs1 /\ x ∉ xs2.
Proof. intros (_ & D & [N _]%NoDup_cons)%NoDup_app. split; [|done]. intros Hx. apply (D x Hx). set_solver. Qed.

Lemma omap_here {A B} (f g : A -> option B) (l : list A) : (forall x, x ∈ l -> f x = g x) -> omap f l = omap g l.
Proof.
  induction l as [|a l IH]; [done|]. intros E. cbn. rewrite (E a) by set_solver. rewrite IH by set_solver. done.
Qed.

Section keyspace.
Context (node : loc) (ks : bytes -> bool).
Definition keyspace (w : rdstore) : Prop := forall i, node_channel_in_keyspace (nset w) node i = Ret (ks i).
Lemma keyspace_keeps w w' : keeps w w' -> keyspace w -> keyspace w'.
Proof. unfold keyspace. intros K E i. by rewrite (k_nset _ _ _ K). Qed.

Lemma displace_cmd_ok fuel : forall gl w L xs1 xs2,
  rds_inv Whole gl w -> keyspace w -> lists_ok w L -> lists_place (heads w) L -> L (NodeCmd node) = xs1 ++ xs2 -> (length xs2 <= fuel)%nat ->
  exists w', displace_cmd fuel w node (list.head xs2) = Ret w' /\ rds_inv Whole gl w' /\
    walked (NodeCmd node) (fun c => negb (ks (id c))) away_head xs2 w w'.
Proof.
  induction fuel as [|fuel IH]; intros gl w L xs1 xs2 I Ks O P EL Fu; destruct xs2 as [|x xs2]; try (cbn in Fu; lia).
  1,2: exists w; split_and!; [done|done|apply walked_nil].
  cbn [list.head displace_cmd]. assert (x ∈ L (NodeCmd node)) as Hk by (rewrite EL; set_solver).
  destruct (list_here (NodeCmd node) w L x O P Hk) as [[l G] (c & Hx & Pc)].
  pose proof (list_nodup w L (NodeCmd node) O) as ND. rewrite EL in ND. destruct (nodup_mid _ _ _ ND) as [N1 N2].
  rewrite G, bind_Ret, (list_next_eq w L (NodeCmd node) l xs1 x xs2 O) by done. rewrite bind_Ret, (get_head_eq _ _ _ Hx), bind_Ret, Ks, bind_Ret.
  destruct (ks (id c)) eqn:Ek.
  - rewrite bind_Ret. destruct (IH gl w L (xs1 ++ [x]) xs2 I Ks O P) as (w' & -> & I' & Wk); [by rewrite <- app_assoc|cbn in Fu; lia|].
    exists w'. split_and!; try done. eapply walked_skip; try done. by rewrite Ek.
  - destruct (put_away_ok gl w L x c node I O P Hx Pc) as (w1 & L1 & -> & B & I1 & O1 & P1 & ys1 & ys2 & S1 & S2 & Nx). rewrite bind_Ret.
    rewrite EL in S1. destruct (list_split_unique x ys1 ys2 xs1 xs2) as [-> ->]; [done|done|].
    destruct (IH gl w1 L1 xs1 xs2 I1) as (w' & -> & I' & Wk); try done; [eapply keyspace_keeps; [apply B|done]|cbn in Fu; lia|].
    exists w'. split_and!; try done. eapply walked_step; try done. by rewrite Ek.
Qed.

Definition leaving (c : rdstore_channel_head_t) : bool := negb (ks (id c)) && bool_decide (pubsub_status c <> REDIS_PUBSUB_UNSUBSCRIBED).
Definition leaving_id (w : rdstore) (y : loc) : option bytes := c ← heads w !! y; if leaving c then Some (id c) else None.

(** No head that leaves the node waits for an answer, unless little is logged. *)
Definition quiet (w : rdstore) (n : loc) : Prop := forall x c, heads w !! x = Some c -> node_pubsub c = Some n -> may_log cf None c.

Lemma displace_pubsub_ok fuel : forall gl w L xs1 xs2 unsub,
  rds_inv Whole gl w -> keyspace w -> quiet w node -> lists_ok w L -> lists_place (heads w) L -> L (NodePubsub node) = xs1 ++ xs2 -> (length xs2 <= fuel)%nat ->
  exists w', displace_pubsub cf fuel w node (list.head xs2) unsub = Ret (w', unsub ++ omap (leaving_id w) xs2) /\ rds_inv Whole gl w' /\
    walked (NodePubsub node) leaving (unsubscribed_head cf) xs2 w w'.
Proof.
  induction fuel as [|fuel IH]; intros gl w L xs1 xs2 unsub I Ks Qw O P EL Fu; destruct xs2 as [|x xs2]; try (cbn in Fu; lia).
  1,2: exists w; split_and!; [by rewrite app_nil_r|done|apply walked_nil].
  cbn [list.head displace_pubsub]. assert (x ∈ L (NodePubsub node)) as Hk by (rewrite EL; set_solver).
  destruct (list_here (NodePubsub node) w L x O P Hk) as [[l G] (c & Hx & Pc)].
  pose proof (list_nodup w L (NodePubsub node) O) as ND. rewrite EL in ND. destruct (nodup_mid _ _ _ ND) as [N1 N2].
  rewrite G, bind_Ret, (list_next_eq w L (NodePubsub node) l xs1 x xs2 O) by done. rewrite bind_Ret, (get_head_eq _ _ _ Hx), bind_Ret, Ks, bind_Ret.
  assert (leaving_id w x = if leaving c then Some (id c) else None) as Ei by (unfold leaving_id; by rewrite Hx).
  assert (ks (id c) || bool_decide (pubsub_status c = REDIS_PUBSUB_UNSUBSCRIBED) = negb (leaving c)) as ->.
  { unfold leaving. rewrite negb_andb, negb_involutive. f_equal. by destruct (pubsub_status c). }
  cbn [omap list_omap]. rewrite Ei. destruct (leaving c) eqn:Ek; cbn [negb].
  - destruct (unsubscribe_ok gl w L x c node I O P Hx Pc (Qw x c Hx Pc)) as (w1 & L1 & -> & B & I1 & O1 & P1 & ys1 & ys2 & S1 & S2 & Nx). rewrite bind_Ret.
    rewrite EL in S1. destruct (list_split_unique x ys1 ys2 xs1 xs2) as [-> ->]; [done|done|].
    destruct (IH gl w1 L1 xs1 xs2 (unsub ++ [id c]) I1) as (w' & -> & I' & Wk); try done; [eapply keyspace_keeps; [apply B|done]| |cbn in Fu; lia|].
    { intros y d. rewrite (bc_heads _ _ _ _ _ B), lookup_insert_Some. intros [[<- <-]|[N Hy]] Ed; [by destruct (unsubscribed_out node c Pc)|by apply (Qw y d)]. }
    exists w'. split_and!; try done; [|by eapply walked_step]. rewrite <- app_assoc. cbn. do 4 f_equal.
    apply omap_here. intros y Hy. unfold leaving_id. by rewrite (bc_heads _ _ _ _ _ B), lookup_insert_ne by (intros ->; done).
  - destruct (IH gl w L (xs1 ++ [x]) xs2 unsub I Ks Qw O P) as (w' & -> & I' & Wk); [by rewrite <- app_assoc|cbn in Fu; lia|].
    exists w'. split_and!; try done. by eapply walked_skip.
Qed.
End keyspace.

(** ** Parts of the store that steps do not look at *)

(** [g] changes what a step on heads and lists leaves aside. *)
Record aside (g : rdstore -> rdstore) : Prop := {
  as_heads : forall w, heads (g w) = heads w;
  as_links : forall w, links (g w) = links w;
  as_list : forall w k, get_list (g w) k = get_list w k;
  as_nset : forall w, nset (g w) = nset w;
  as_ready : forall w, ns_ready (g w) = ns_ready w;
  as_slaves : forall w, slaves (g w) = slaves w;
  as_inflight : forall w, inflight (g w) = inflight w;
  as_set_heads : forall w x, set_heads (g w) x = g (set_heads w x);
  as_set_list : forall w h k l, set_list (set_links (g w) h) k l = g (set_list (set_links w h) k l);
  as_note : forall w e, note (g w) e = g (note w e);
  as_set_inflight : forall w l, set_inflight (g w) l = g (set_inflight w l);
  as_topology : forall w ns r sl, set_topology (g w) ns r sl = g (set_topology w ns r sl);
}.
Lemma conns_aside C : aside (fun w => set_conns w C).
Proof. split; try done. by intros w h []. Qed.
Lemma onready_aside l : aside (fun w => set_onready w l).
Proof. split; try done. by intros w h []. Qed.

Definition passes (g : rdstore -> rdstore) (f : rdstore -> outcome rdstore) : Prop := forall w, f (g w) = (w' ← f w; Ret (g w')).

Section aside.
Context (g : rdstore -> rdstore) (A : aside g).

Lemma passes_ret : passes g Ret.
Proof. done. Qed.
Lemma passes_bind f h : passes g f -> passes g h -> passes g (fun w => w ← f w; h w).
Proof. intros F Hh w. rewrite F. destruct (f w); cbn; [apply Hh|done..]. Qed.
Lemma passes_head x (f : rdstore_channel_head_t -> rdstore -> outcome rdstore) :
  (forall c, passes g (f c)) -> passes g (fun w => c ← get_head w x; f c w).
Proof. intros F w. unfold get_head. rewrite (as_heads _ A). destruct (heads w !! x); cbn; [apply F|done]. Qed.
Lemma passes_put x c : passes g (fun w => Ret (put_head w x c)).
Proof. intros w. unfold put_head. cbn. by rewrite (as_heads _ A), (as_set_heads _ A). Qed.
Lemma passes_note e : passes g (fun w => Ret (note w e)).
Proof. intros w. cbn. by rewrite (as_note _ A). Qed.
Lemma passes_upd x f : passes g (fun w => upd_head w x f).
Proof. unfold upd_head. apply passes_head. intros c. apply passes_put. Qed.
Lemma passes_if {b : bool} f h : passes g f -> passes g h -> passes g (fun w => if b then f w else h w).
Proof. by destruct b. Qed.
Lemma passes_assert {X} (m : outcome X) f : passes g f -> passes g (fun w => m;; f w).
Proof. intros F w. destruct m; cbn; try done. Qed.
Lemma passes_append k x : passes g (fun w => list_append w k x).
Proof.
  intros w. unfold list_append. rewrite (as_list _ A), (as_links _ A). destruct (get_list w k); [|done].
  destruct (nchan_slist_append _ _ _) as [[h' l']| |]; cbn; try done. by rewrite (as_set_list _ A).
Qed.
Lemma passes_remove k x : passes g (fun w => list_remove w k x).
Proof.
  intros w. unfold list_remove. rewrite (as_list _ A), (as_links _ A). destruct (get_list w k); [|done].
  destruct (nchan_slist_remove _ _ _) as [[h' l']| |]; cbn; try done. by rewrite (as_set_list _ A).
Qed.
Lemma passes_first k (f : ptr -> rdstore -> outcome rdstore) : (forall x, passes g (f x)) -> passes g (fun w => x ← list_first w k; f x w).
Proof. intros F w. unfold list_first. rewrite (as_list _ A). destruct (get_list w k); [apply F|done]. Qed.


Lemma passes_dissociate x : passes g (fun w => nodeset_node_dissociate_chanhead w x).
Proof.
  unfold nodeset_node_dissociate_chanhead. apply passes_head. intros c.
  apply (passes_bind (fun w => match node_cmd c with Some n => list_remove w (NodeCmd n) x | None => Ret w end)); [|by apply passes_upd].
  destruct (node_cmd c); [by apply passes_remove|apply passes_ret].
Qed.
Lemma passes_dissociate_pubsub x : passes g (fun w => nodeset_node_dissociate_pubsub_chanhead w x).
Proof.
  unfold nodeset_node_dissociate_pubsub_chanhead. apply passes_head. intros c. destruct (node_pubsub c) as [n|]; [|apply passes_ret].
  apply (passes_bind (fun w => list_remove w (NodePubsub n) x)); [by apply passes_remove|by apply passes_upd].
Qed.
Lemma passes_put_away x : passes g (fun w => put_away_cmd w x).
Proof.
  unfold put_away_cmd. apply (passes_bind (fun w => nodeset_node_dissociate_chanhead w x)); [apply passes_dissociate|].
  apply (passes_bind (fun w => list_append w DisconnectedCmd x)); [by apply passes_append|].
  apply (passes_bind (fun w => upd_head w x _)); by apply passes_upd.
Qed.
Lemma passes_unsubscribed x : passes g (fun w => redis_chanhead_set_pubsub_status cf w x None REDIS_PUBSUB_UNSUBSCRIBED).
Proof.
  cbn [redis_chanhead_set_pubsub_status]. apply passes_head. intros c0. apply passes_assert.
  apply (passes_bind (fun w => upd_head w x _)); [by apply passes_upd|].
  apply (passes_bind (fun w => nodeset_node_dissociate_pubsub_chanhead w x)); [apply passes_dissociate_pubsub|].
  apply passes_head. intros c.
  apply (passes_bind (fun w => if negb (in_disconnected_pubsub_list c) then
     need_nodeset c;; w ← list_append w DisconnectedPubsub x; upd_head w x (fun c => set_in_pubsub_list c true) else Ret w)).
  - apply passes_if; [|apply passes_ret]. apply passes_assert.
    apply (passes_bind (fun w => list_append w DisconnectedPubsub x)); [by apply passes_append|by apply passes_upd].
  - apply passes_head. intros d. apply passes_assert. apply passes_if; [|apply passes_ret].
    intros w. cbn. unfold put_head. by rewrite (as_heads _ A), (as_set_heads _ A), (as_note _ A).
Qed.
Lemma passes_drop_cmd n fuel : passes g (fun w => drop_cmd fuel w n).
Proof.
  induction fuel as [|fuel IH]; cbn [drop_cmd]; apply passes_first; intros [x|]; try apply passes_ret; [by intros w|].
  apply (passes_bind (fun w => put_away_cmd w x)); [apply passes_put_away|done].
Qed.
Lemma passes_drop_pubsub n fuel : passes g (fun w => drop_pubsub cf fuel w n).
Proof.
  induction fuel as [|fuel IH]; cbn [drop_pubsub]; apply passes_first; intros [x|]; try apply passes_ret; [by intros w|].
  apply (passes_bind (fun w => redis_chanhead_set_pubsub_status cf w x None REDIS_PUBSUB_UNSUBSCRIBED)); [apply passes_unsubscribed|done].
Qed.
Lemma passes_associate n x : passes g (fun w => nodeset_node_associate_chanhead w n x).
Proof.
  unfold nodeset_node_associate_chanhead. apply passes_head. intros c. do 3 apply passes_assert.
  apply (passes_bind (fun w => if bool_decide (node_cmd c <> Some n) then list_append w (NodeCmd n) x else Ret w)); [|by apply passes_upd].
  apply passes_if; [by apply passes_append|apply passes_ret].
Qed.

(** A step that finds a node, and goes on with it. *)
Lemma find_passes x w : nodeset_node_find_by_chanhead (g w) x = ('(w', n) ← nodeset_node_find_by_chanhead w x; Ret (g w', n)).
Proof.
  unfold nodeset_node_find_by_chanhead, get_head. rewrite (as_heads _ A). destruct (heads w !! x) as [c|]; [|done]. cbn.
  destruct (node_cmd c) as [n|]; [done|]. unfold need_nodeset. destruct (has_nodeset c); [|done]. cbn. rewrite (as_nset _ A).
  destruct (nodeset_node_find_by_channel_id _ _) as [[n|]| |]; try done. cbn. rewrite (passes_associate n x). by destruct (nodeset_node_associate_chanhead w n x).
Qed.
Lemma passes_send n s x : passes g (fun w => send_script w n s x).
Proof.
  intros w. unfold send_script. rewrite (as_nset _ A), (as_inflight _ A). destruct (ClusterSlots.get_node (nset w) n); try done. cbn.
  destruct (_ <=? _); [|done]. cbn. by rewrite (as_set_inflight _ A).
Qed.
Lemma passes_register_send x : passes g (fun w => redis_subscriber_register_send w x).
Proof.
  intros w. unfold redis_subscriber_register_send. rewrite (as_ready _ A). destruct (ns_ready w); [|done].
  rewrite (passes_upd x _ w). destruct (upd_head w x _) as [w1| |]; cbn; try done. rewrite find_passes.
  destruct (nodeset_node_find_by_chanhead w1 x) as [[w2 n]| |]; cbn; try done. apply passes_send.
Qed.
Lemma passes_keepalive_send x : passes g (fun w => redisChannelKeepaliveCallback_send w x).
Proof.
  unfold redisChannelKeepaliveCallback_send. apply passes_head. intros c. apply passes_assert. intros w.
  rewrite (as_nset _ A), (as_ready _ A). destruct (nodeset_node_find_by_channel_id _ _) as [n| |]; try done. cbn.
  destruct (ns_ready w); [|done]. destruct n as [n|]; [|done]. unfold put_head. rewrite (as_heads _ A), (as_set_heads _ A). apply passes_send.
Qed.
Lemma passes_retry s x : passes g (fun w => retry_wrapper w s x).
Proof.
  unfold retry_wrapper. apply (passes_bind (fun w => upd_head w x _)); [by apply passes_upd|].
  destruct s; [apply passes_register_send|apply passes_keepalive_send].
Qed.
End aside.

(** ** A connection ends *)

Lemma filter_both {A} (P : A -> bool) (l : list A) : List.filter (fun e => negb (P e)) l ++ List.filter P l ≡ₚ l.
Proof.
  induction l as [|a l IH]; [done|]. cbn. destruct (P a); cbn; [|by rewrite IH]. by rewrite <- Permutation_middle, IH.
Qed.
Lemma filter_perm {A} (P : A -> bool) (l l' : list A) : l ≡ₚ l' -> length (List.filter P l) = length (List.filter P l').
Proof. induction 1; cbn; repeat case_match; cbn; lia. Qed.

Lemma inv_held gl w l l' : rds_inv Whole gl w -> (forall y, held (with_commands w l l') y = held w y) -> rds_inv Whole gl (with_commands w l l').
Proof.
  intros [A1 A2 A3 A4 A5 A6 A7 A10 A8 A9 B1 B2 B3 B4] Hd. split; try done.
  - destruct A1 as (L & O & P). exists L. split; [|done]. by apply (lists_ok_ext w).
  - by destruct A2.
  - intros y c Hy Nh. rewrite Hd. by apply (A10 y).
  - intros y c Hy Nh. destruct (A8 y c Hy Nh). by split.
  - intros y. rewrite Hd. apply A9.
Qed.

(** The heads of the commands that will not be answered are given back; until
    then the commands count. *)
Lemma abort_ok l : forall gl w, rds_inv Whole gl (set_inflight w (inflight w ++ l)) ->
  exists hs, abort_replies w l = Ret (set_heads w hs) /\ rds_inv Whole gl (set_heads w hs) /\
    forall y, hs !! y = (fun c => set_reserved c (held w y)) <$> heads w !! y.
Proof.
  induction l as [|[[n s] x] l IH]; intros gl w I.
  - rewrite app_nil_r in I. assert (set_inflight w (inflight w) = w) as E by by destruct w. rewrite E in I. exists (heads w).
    split; [by destruct w|]. split; [by destruct w|]. intros y. destruct (heads w !! y) as [c|] eqn:Hy; [|done].
    cbn. rewrite <- (ri_reserved _ _ _ _ _ I y c Hy) by done. by destruct c.
  - set (v := set_inflight w (inflight w ++ (n, s, x) :: l)) in *.
    assert (forall y, held v y = held (with_commands v (inflight w ++ l) (onready w)) y + if decide (y = x) then 1 else 0) as Hd.
    { intros y. rewrite (held_reply v (length (inflight w)) n s x y).
      - do 2 f_equal. unfold v, with_commands. cbn. by rewrite delete_middle.
      - cbn. by apply list_lookup_middle. }
    destruct (give_back cf tracked v gl x (inflight w ++ l) (onready w) I Hd) as (c & Hx & _ & I1 & Er). cbn zeta in *.
    set (c1 := set_reserved c (reserved c - 1)) in *. set (w1 := put_head w x c1).
    assert (rds_inv Whole gl (set_inflight w1 (inflight w1 ++ l))) as I2.
    { eapply inv_close; [exact I1|apply lookup_insert_eq| |done].
      pose proof (ri_heads _ _ _ _ _ I x c Hx) as [H1 H2 H3 H4 H5]; [by intros []|]. by split. }
    destruct (IH gl w1 I2) as (hs & E & I' & Eh). exists hs.
    cbn [abort_replies]. unfold script_replied. rewrite (upd_head_eq w x c _ Hx), bind_Ret. rewrite bind_Ret. fold c1. fold w1.
    split; [by rewrite E|]. split; [done|]. intros y. rewrite Eh. cbn. destruct (decide (y = x)) as [->|N].
    + rewrite lookup_insert_eq. change (heads w !! x = Some c) in Hx. by rewrite Hx.
    + by rewrite lookup_insert_ne.
Qed.

(** What the end of the connection of [n] makes of a head. *)
Definition disconnected_head (n : loc) (c : rdstore_channel_head_t) : rdstore_channel_head_t :=
  taken_out (NodePubsub n) (unsubscribed_head cf) (taken_out (NodeCmd n) away_head c).


Lemma disconnected_uses n c m : uses (disconnected_head n c) m -> uses c m /\ m <> n.
Proof.
  unfold disconnected_head, taken_out, unsubscribed_head, away_head, uses. cbn.
  destruct (decide (node_cmd c = Some n)); repeat case_decide; repeat case_match; cbn in *; naive_solver.
Qed.
Lemma disconnected_counts n c : same_counts c (disconnected_head n c).
Proof.
  split; try (unfold disconnected_head, taken_out, unsubscribed_head, away_head; repeat case_decide; repeat case_match; done).
  by intros m []%disconnected_uses.
Qed.

Lemma inv_close_conn gl w n : rds_inv Whole gl w -> (forall y c, heads w !! y = Some c -> node_pubsub c <> Some n) ->
  rds_inv Whole gl (set_conns w (delete n (conns w))).
Proof.
  intros [A1 A2 A3 A4 A5 A6 A7 A10 A8 A9 B1 B2 B3 B4] N. split; try done.
  - destruct A1 as (L & O & P). exists L. split; [|done]. by apply (lists_ok_ext w).
  - by destruct A2.
  - intros y c Hy Nh. destruct (A8 y c Hy Nh) as [H1 H2 H3 H4 H5]. split; try done. revert H5. unfold RedisChannelsFacts.listening.
    destruct (pubsub_status c); try done. intros (m & Em & Ic & M). exists m. split_and!; try done. cbn.
    rewrite lookup_delete_ne; [done|]. intros ->. by apply (N y c).
  - intros m. cbn. destruct (decide (m = n)) as [->|Nm]; [by rewrite lookup_delete_eq|rewrite lookup_delete_ne by done; apply B4].
Qed.

Lemma node_lists gl w n : rds_inv Whole gl w -> is_Some (nodes (nset w) !! n) -> is_Some (get_list w (NodeCmd n)) /\ is_Some (get_list w (NodePubsub n)).
Proof. intros I Hn. apply (node_of_channels cf tracked Whole gl w n I) in Hn as [ch E]. cbn. rewrite E. eauto. Qed.

Lemma drop_cmd_ok gl w n : rds_inv Whole gl w -> is_Some (nodes (nset w) !! n) ->
  exists w', drop_cmd (base.size (heads w)) w n = Ret w' /\ rds_inv Whole gl w' /\ keeps w w' /\ heads w' = taken_out (NodeCmd n) away_head <$> heads w.
Proof.
  intros I Hn. apply (drain_ok (NodeCmd n) put_away_cmd away_head) with (Q := fun _ => True) (loop := fun fuel w => drop_cmd fuel w n); try done.
  - intros c. apply away_out.
  - intros gl' w' L x c I' O P Hx Pc _. by apply put_away_ok.
  - by intros [|fuel] w'.
  - by eapply node_lists.
  - intros L O P. by eapply list_length.
Qed.
Lemma drop_pubsub_ok gl w n : rds_inv Whole gl w -> is_Some (nodes (nset w) !! n) -> quiet w n ->
  exists w', drop_pubsub cf (base.size (heads w)) w n = Ret w' /\ rds_inv Whole gl w' /\ keeps w w' /\
    heads w' = taken_out (NodePubsub n) (unsubscribed_head cf) <$> heads w.
Proof.
  intros I Hn Qw. apply (drain_ok (NodePubsub n) (fun w x => redis_chanhead_set_pubsub_status cf w x None REDIS_PUBSUB_UNSUBSCRIBED)
    (unsubscribed_head cf)) with (Q := may_log cf None) (loop := fun fuel w => drop_pubsub cf fuel w n); try done.
  - intros c. apply unsubscribed_out.
  - intros gl' w' L x c I' O P Hx Pc Ml. by apply unsubscribe_ok.
  - by intros [|fuel] w'.
  - by eapply node_lists.
  - intros L O P. by eapply list_length.
Qed.

Lemma inv_put_node gl w n nd nd' r : rds_inv Whole gl w -> nodes (nset w) !! n = Some nd ->
  slot_range_indexed nd' = slot_range_indexed nd -> slot_range nd' = slot_range nd -> slot_range_n nd' = slot_range_n nd ->
  rds_inv Whole gl (set_topology w (put_node (nset w) n nd') r (slaves w)).
Proof.
  intros I Hn E1 E2 E3. apply inv_topology; [done|..].
  - cbn. rewrite dom_insert_L. apply elem_of_dom_2 in Hn. set_solver.
  - intros m l s Em Hs. cbn. rewrite lookup_insert_is_Some'. right. by eapply ri_slaves.
  - eapply index_ok_put; [apply I|done|done|done].
Qed.

Lemma unset_slots_ok gl w n : rds_inv Whole gl w -> is_Some (nodes (nset w) !! n) ->
  exists ns, unset_slots w n = Ret (set_topology w ns (ns_ready w) (slaves w)) /\
    rds_inv Whole gl (set_topology w ns (ns_ready w) (slaves w)) /\
    (forall m, m <> n -> nodes ns !! m = nodes (nset w) !! m) /\ is_Some (nodes ns !! n).
Proof.
  intros I [nd Hn]. unfold unset_slots, ClusterSlots.get_node. rewrite Hn, bind_Ret. destruct (n_cluster_enabled nd).
  - destruct (unset_ok (nset w) n nd (ri_index _ _ _ _ _ I) Hn) as (ns & -> & Ix & En & _). rewrite bind_Ret.
    exists ns. split_and!; try done; [|by intros m N; rewrite En, lookup_insert_ne|rewrite En, lookup_insert_eq; eauto].
    apply inv_topology; try done.
    + rewrite En, dom_insert_L. apply elem_of_dom_2 in Hn. set_solver.
    + intros m l s Em Hs. rewrite En, lookup_insert_is_Some'. right. by eapply ri_slaves.
  - exists (nset w). assert (set_topology w (nset w) (ns_ready w) (slaves w) = w) as -> by by destruct w. split_and!; eauto.
Qed.

Lemma passes_unset g n : aside g -> passes g (fun w => unset_slots w n).
Proof.
  intros A w. unfold unset_slots. rewrite (as_nset _ A), (as_ready _ A), (as_slaves _ A).
  destruct (ClusterSlots.get_node (nset w) n) as [nd| |]; try done. cbn. destruct (n_cluster_enabled nd); [|done].
  destruct (node_unset_cluster_slots (nset w) n) as [[ns' b]| |]; try done. cbn. by rewrite (as_topology _ A).
Qed.

Definition drop_node (w : rdstore) (n : loc) : outcome rdstore :=
  w ← unset_slots w n; w ← drop_cmd (base.size (heads w)) w n; drop_pubsub cf (base.size (heads w)) w n.

Lemma passes_drop g n : aside g -> passes g (fun w => drop_node w n).
Proof.
  intros A. unfold drop_node. apply (passes_bind g (fun w => unset_slots w n)); [by apply passes_unset|].
  apply (passes_bind g (fun w => drop_cmd (base.size (heads w)) w n)); intros w; rewrite (as_heads _ A);
    [by apply passes_drop_cmd|by apply passes_drop_pubsub].
Qed.

Lemma drop_node_ok gl w n : rds_inv Whole gl w -> is_Some (nodes (nset w) !! n) -> quiet w n ->
  exists w', drop_node w n = Ret w' /\ rds_inv Whole gl w' /\ heads w' = disconnected_head n <$> heads w /\
    conns w' = conns w /\ inflight w' = inflight w /\ onready w' = onready w /\ ns_ready w' = ns_ready w /\
    (forall m, m <> n -> nodes (nset w') !! m = nodes (nset w) !! m).
Proof.
  intros I Hn Qw. pose proof (passes_drop _ n (conns_aside (conns w)) w) as Pw. cbn beta in Pw.
  unfold drop_node. destruct (unset_slots_ok gl w n I Hn) as (ns & E1 & I1 & Nm & Ns). set (w1 := set_topology w ns _ _) in *.
  destruct (drop_cmd_ok gl w1 n I1 Ns) as (w2 & E2 & I2 & K2 & Eh2).
  destruct (drop_pubsub_ok gl w2 n I2) as (w3 & E3 & I3 & K3 & Eh3); [by rewrite (k_nset _ _ _ K2)| |].
  { intros y c. rewrite Eh2, lookup_fmap_Some. intros (d & <- & Hd). change (heads w !! y = Some d) in Hd. unfold taken_out.
    case_decide; rewrite ?away_pubsub; intros Ed; try apply away_quiet; by apply (Qw y d). }
  assert (drop_node w n = Ret w3) as E by (unfold drop_node; by rewrite E1, bind_Ret, E2, bind_Ret).
  assert (set_conns w (conns w) = w) as Ew by by destruct w. rewrite Ew, E, bind_Ret in Pw. injection Pw as Pw.
  fold (drop_node w n). exists w3. split; [done|]. split; [done|]. split; [|split; [by rewrite Pw|]].
  - rewrite Eh3, Eh2, <- map_fmap_compose. done.
  - rewrite (k_inflight _ _ _ K3), (k_inflight _ _ _ K2), (k_onready _ _ _ K3), (k_onready _ _ _ K2), (k_ready _ _ _ K3), (k_ready _ _ _ K2),
      (k_nset _ _ _ K3), (k_nset _ _ _ K2). done.
Qed.

Definition of_node (n : loc) (e : loc * redis_script * loc) : bool := (e.1.1 =? n)%positive.

Lemma disconnect_ok w n st : store_ok w -> is_Some (nodes (nset w) !! n) -> quiet w n ->
  exists w', node_disconnect cf w n st = Ret w' /\ store_ok w' /\ ns_ready w' = ns_ready w /\
    inflight w' = List.filter (fun e => negb (of_node n e)) (inflight w) /\ onready w' = onready w /\ conns w' = delete n (conns w) /\
    forall y, heads w' !! y = (fun c => disconnected_head n (set_reserved c (held w' y))) <$> heads w !! y.
Proof.
  intros S [nd Hn] Qw. pose proof S as [[gl I] C B]. unfold node_disconnect, ClusterSlots.get_node. rewrite Hn, bind_Ret.
  set (w0 := set_topology w (put_node (nset w) n (set_state nd st)) (ns_ready w) (slaves w)).
  assert (rds_inv Whole gl w0) as I0 by by eapply inv_put_node.
  fold (of_node n). set (l := List.filter (fun e => negb (of_node n e)) (inflight w0)). set (un := List.filter (of_node n) (inflight w0)).
  change (List.filter (fun e => negb _) (inflight w0)) with l. change (List.filter _ (inflight w0)) with un.
  assert (rds_inv Whole gl (set_inflight (set_inflight w0 l) (l ++ un))) as I0'.
  { apply (inv_held gl w0 (l ++ un) (onready w0) I0). intros y. unfold held, with_commands. cbn.
    do 2 f_equal. apply filter_perm, filter_both. }
  destruct (abort_ok un gl (set_inflight w0 l) I0') as (hs & -> & I1 & Eh1). rewrite bind_Ret.
  set (w1 := set_heads (set_inflight w0 l) hs) in *. change (conns w1) with (conns w).
  destruct (drop_node_ok gl w1 n I1) as (w2 & E2 & I2 & Eh2 & Ec & Ei & Eo & Er & Nm); [cbn; rewrite lookup_insert_eq; eauto| |].
  { intros y c. change (heads w1 !! y) with (hs !! y). rewrite Eh1. cbn. destruct (heads w !! y) as [d|] eqn:Hy; intros [= <-]. apply (Qw y d Hy). }
  pose proof (passes_drop _ n (conns_aside (delete n (conns w))) w1) as Pw. cbn beta in Pw. rewrite E2, bind_Ret in Pw.
  unfold drop_node in Pw. rewrite Pw. set (w' := set_conns w2 _). exists w'. split; [done|].
  assert (forall y, held w' y = held (set_inflight w0 l) y) as Hd by (intros y; apply held_keeps; [exact Ei|exact Eo]).
  assert (forall y, heads w' !! y = (fun c => disconnected_head n (set_reserved c (held w' y))) <$> heads w !! y) as Eh.
  { intros y. cbn. rewrite Eh2, lookup_fmap. change (heads w1) with hs. rewrite Eh1, Hd. cbn. by destruct (heads w !! y). }
  assert (forall y c, heads w' !! y = Some c -> exists d, heads w !! y = Some d /\ c = disconnected_head n (set_reserved d (held w' y))) as Inv.
  { intros y c. rewrite Eh. destruct (heads w !! y) as [d|]; intros [= <-]. eauto. }
  split; [|done]. split.
  - exists gl. change (rds_inv Whole gl (set_conns w2 (delete n (conns w)))). change (conns w) with (conns w1). rewrite <- Ec.
    apply inv_close_conn; [done|]. intros y c Hy E. destruct (Inv y c Hy) as (d & Hd' & ->).
    destruct (disconnected_uses n (set_reserved d (held w' y)) n) as [_ []]; [by right|done].
  - intros y c (d & Hd' & ->)%Inv. destruct (disconnected_counts n (set_reserved d (held w' y))) as [_ -> -> _]. by apply (C y d).
  - intros R y c m (d & Hd' & ->)%Inv Um. apply disconnected_uses in Um as [Um Nn]. change (ns_ready w2 = true) in R. rewrite Er in R.
    destruct (B R y d m Hd' Um) as (md & Em & L). exists md. split; [|done]. change (nodes (nset w2) !! m = Some md). rewrite Nm by done.
    cbn. by rewrite lookup_insert_ne.
Qed.

(** ** A node is ready *)

Lemma keyspace_state ns n nd s i : nodes ns !! n = Some nd ->
  node_channel_in_keyspace (put_node ns n (set_state nd s)) n i = node_channel_in_keyspace ns n i.
Proof.
  intros Hn. unfold node_channel_in_keyspace, ClusterSlots.get_node. cbn. rewrite lookup_insert_eq, Hn, !bind_Ret. cbn.
  destruct (n_cluster_enabled nd); [|done]. cbn. generalize 0%nat. induction (Z.to_nat (slot_range_n nd)) as [|k IH]; intros j; [done|].
  cbn [in_keyspace_loop]. change (nth_range (set_state nd s) j) with (nth_range nd j). destruct (nth_range nd j) as [r| |]; try done. rewrite !bind_Ret.
  destruct (keyslot_ranges_overlap _ _) as [[]| |]; try done. rewrite !bind_Ret. apply IH.
Qed.

(** What a node that is ready makes of a head. *)
Definition displaced_head (n : loc) (ks : bytes -> bool) (c : rdstore_channel_head_t) : rdstore_channel_head_t :=
  let c := if decide (placed c (NodeCmd n)) then if ks (id c) then c else away_head c else c in
  if decide (placed c (NodePubsub n)) then if leaving ks c then unsubscribed_head cf c else c else c.

Lemma displaced_counts n ks c : same_counts c (displaced_head n ks c).
Proof.
  assert (forall d, same_counts c d -> same_counts c (unsubscribed_head cf d)) as U.
  { intros d [A1 A2 A3 A4]. destruct (unsubscribed_counts cf d) as [B1 B2 B3 B4]. split; try congruence. auto. }
  assert (same_counts c c) as R by done. pose proof (away_counts c) as A.
  unfold displaced_head. cbv zeta. repeat case_decide; repeat case_match; auto.
Qed.

Lemma inv_unsubscribes gl w n ids : rds_inv Whole gl w -> (ids <> [] -> REDIS_MODE_DISTRIBUTED <= storage_mode cf) ->
  rds_inv Whole gl (set_conns w (<[n := default [] (conns w !! n) ++ map UNSUBSCRIBE ids]> (conns w))).
Proof.
  intros I M. eapply inv_ext; [exact I| |done|done|done]. split; try done. cbn. intros m. destruct (decide (m = n)) as [->|N].
  - rewrite lookup_insert_eq. eexists. split; [done|]. destruct ids; [done|intros _; by apply M].
  - rewrite lookup_insert_ne by done. exists []. by rewrite app_nil_r.
Qed.

(** The channels whose heads a ready node stops listening for. *)
Definition dropped_ids (ks : bytes -> bool) (n : loc) (w : rdstore) (ids : list bytes) : Prop :=
  forall i, i ∈ ids <-> exists y c, heads w !! y = Some c /\ id c = i /\ node_pubsub c = Some n /\ leaving ks c = true.

Lemma displace_ok gl w n ks : rds_inv Whole gl w -> keyspace n ks w -> quiet w n -> is_Some (nodes (nset w) !! n) ->
  exists w1 w2 ids, (cur ← list_first w (NodeCmd n); displace_cmd (base.size (heads w)) w n cur) = Ret w1 /\
    (cur ← list_first w1 (NodePubsub n); displace_pubsub cf (base.size (heads w1)) w1 n cur []) = Ret (w2, ids) /\
    rds_inv Whole gl w2 /\ keeps w w2 /\ (forall y, heads w2 !! y = displaced_head n ks <$> heads w !! y) /\ dropped_ids ks n w ids.
Proof.
  intros I Ks Qw Hn. destruct (ri_lists _ _ _ _ _ I) as (L & O & P). destruct (node_lists gl w n I Hn) as [G1 G2].
  destruct (displace_cmd_ok n ks (base.size (heads w)) gl w L [] (L (NodeCmd n)) I Ks O P eq_refl) as (w1 & E1 & I1 & K1 & Eh1); [by eapply list_length|].
  destruct (ri_lists _ _ _ _ _ I1) as (L1 & O1 & P1). assert (is_Some (nodes (nset w1) !! n)) as Hn1 by (by rewrite (k_nset _ _ _ K1)).
  destruct (node_lists gl w1 n I1 Hn1) as [_ G3].
  destruct (displace_pubsub_ok n ks (base.size (heads w1)) gl w1 L1 [] (L1 (NodePubsub n)) [] I1) as (w2 & E2 & I2 & K2 & Eh2); try done;
    [by eapply keyspace_keeps| |by eapply list_length|].
  { intros y c. rewrite Eh1. destruct (heads w !! y) as [d|] eqn:Hy; intros [= <-]. case_match; rewrite ?away_pubsub; intros Ed;
    try apply away_quiet; by apply (Qw y d). }
  exists w1, w2, (omap (leaving_id ks w1) (L1 (NodePubsub n))).
  rewrite (list_first_eq w L) by done. rewrite (list_first_eq w1 L1) by done. rewrite !bind_Ret.
  assert (forall c, id (away_head c) = id c /\ node_pubsub (away_head c) = node_pubsub c /\ pubsub_status (away_head c) = pubsub_status c) as Aw
    by (intros c; unfold away_head; cbn; by case_decide).
  assert (forall y c, heads w1 !! y = Some c -> exists d, heads w !! y = Some d /\ id c = id d /\ node_pubsub c = node_pubsub d /\ pubsub_status c = pubsub_status d /\
     c = if decide (placed d (NodeCmd n)) then if ks (id d) then d else away_head d else d) as H1.
  { intros y c. rewrite Eh1. destruct (heads w !! y) as [d|] eqn:Hy; intros [= <-]. exists d. split; [done|].
    assert (bool_decide (y ∈ L (NodeCmd n)) = bool_decide (placed d (NodeCmd n))) as ->.
    { apply bool_decide_ext. rewrite (P (NodeCmd n) y), Hy. naive_solver. }
    case_decide; destruct (ks (id d)) eqn:Ek; rewrite ?bool_decide_eq_true_2, ?bool_decide_eq_false_2 by done; cbn; try done; by destruct (Aw d) as (-> & -> & ->). }
  split_and!; try done; [by eapply rds_keeps_trans|..].
  - intros y. rewrite Eh2. destruct (heads w1 !! y) as [c|] eqn:Hy.
    + destruct (H1 y c Hy) as (d & Hd & _ & _ & _ & Ec). rewrite Hd. cbn. unfold displaced_head. cbv zeta. rewrite <- Ec. f_equal.
      assert (bool_decide (y ∈ L1 (NodePubsub n)) = bool_decide (placed c (NodePubsub n))) as ->.
      { apply bool_decide_ext. rewrite (P1 (NodePubsub n) y), Hy. naive_solver. }
      unfold bool_decide. repeat case_match; cbn in *; done || congruence.
    + rewrite Eh1 in Hy. by destruct (heads w !! y).
  - intros i. rewrite list_elem_of_omap. split.
    + intros (y & Hy & Ei). apply P1 in Hy as (c & Hc & Pc). unfold leaving_id in Ei. rewrite Hc in Ei. cbn in Ei.
      destruct (leaving ks c) eqn:El; [|done]. injection Ei as <-. destruct (H1 y c Hc) as (d & Hd & E3 & E4 & E5 & _).
      exists y, d. unfold leaving in *. rewrite <- E3, <- E4, <- E5. done.
    + intros (y & d & Hd & <- & Ep & El). destruct (heads w1 !! y) as [c|] eqn:Hc.
      * destruct (H1 y c Hc) as (d' & Hd' & E3 & E4 & E5 & _). assert (d' = d) as -> by congruence. exists y. split.
        -- apply P1. exists c. split; [done|]. cbn. congruence.
        -- unfold leaving_id. rewrite Hc. cbn. unfold leaving in *. by rewrite E3, E5, El.
      * rewrite Eh1, Hd in Hc. done.
Qed.


Lemma passes_displace_cmd g n fuel : aside g -> forall cur, passes g (fun w => displace_cmd fuel w n cur).
Proof.
  intros A. induction fuel as [|fuel IH]; intros [x|] w; try done. cbn [displace_cmd].
  rewrite (as_list _ A), (as_links _ A). unfold get_head. rewrite (as_heads _ A), (as_nset _ A).
  destruct (get_list w (NodeCmd n)) as [l|]; [|done]. rewrite !bind_Ret. destruct (nchan_slist_next (links w) l x) as [next| |]; [|done..]. rewrite !bind_Ret.
  destruct (heads w !! x) as [c|]; [|done]. rewrite !bind_Ret. destruct (node_channel_in_keyspace (nset w) n (id c)) as [inside| |]; [|done..].
  rewrite !bind_Ret. revert w. apply (passes_bind g (fun w => if inside then Ret w else put_away_cmd w x)); [|apply IH].
  apply passes_if; [apply passes_ret|by apply passes_put_away].
Qed.
Lemma passes_displace_pubsub g n fuel : aside g -> forall cur unsub w,
  displace_pubsub cf fuel (g w) n cur unsub = ('(w', u) ← displace_pubsub cf fuel w n cur unsub; Ret (g w', u)).
Proof.
  intros A. induction fuel as [|fuel IH]; intros [x|] unsub w; try done. cbn [displace_pubsub].
  rewrite (as_list _ A), (as_links _ A). unfold get_head. rewrite (as_heads _ A), (as_nset _ A).
  destruct (get_list w (NodePubsub n)) as [l|]; [|done]. rewrite !bind_Ret. destruct (nchan_slist_next (links w) l x) as [next| |]; [|done..]. rewrite !bind_Ret.
  destruct (heads w !! x) as [c|]; [|done]. rewrite !bind_Ret. destruct (node_channel_in_keyspace (nset w) n (id c)) as [inside| |]; [|done..].
  rewrite !bind_Ret. destruct (_ || _); [apply IH|]. rewrite (passes_unsubscribed g A x w).
  destruct (redis_chanhead_set_pubsub_status cf w x None REDIS_PUBSUB_UNSUBSCRIBED) as [w1| |]; [|done..]. rewrite !bind_Ret. apply IH.
Qed.

(** The commands of the connections are not looked at. *)
Lemma displace_conns w w1 w2 n ids :
  (cur ← list_first w (NodeCmd n); displace_cmd (base.size (heads w)) w n cur) = Ret w1 ->
  (cur ← list_first w1 (NodePubsub n); displace_pubsub cf (base.size (heads w1)) w1 n cur []) = Ret (w2, ids) -> conns w2 = conns w.
Proof.
  assert (forall v C, set_conns v C = v -> conns v = C) as Inv by (intros v C <-; done).
  intros E1 E2. apply bind_Ret_inv in E1 as (c1 & _ & E1). apply bind_Ret_inv in E2 as (c2 & _ & E2). apply Inv.
  pose proof (passes_displace_cmd _ n (base.size (heads w)) (conns_aside (conns w)) c1 w) as P1. cbn beta in P1.
  assert (set_conns w (conns w) = w) as Ew by by destruct w. rewrite Ew, E1, bind_Ret in P1. injection P1 as P1.
  pose proof (passes_displace_pubsub _ n (base.size (heads w1)) (conns_aside (conns w)) c2 [] w1) as P2. cbn beta in P2.
  rewrite <- P1, E2, bind_Ret in P2. by injection P2.
Qed.

Lemma make_ready_ok w n nd ks : store_ok w -> nodes (nset w) !! n = Some nd -> keyspace n ks w -> quiet w n ->
  exists w' ids, node_make_ready cf w n = Ret w' /\ store_ok w' /\ ns_ready w' = ns_ready w /\
    nset w' = put_node (nset w) n (set_state nd REDIS_NODE_READY) /\ inflight w' = inflight w /\ onready w' = onready w /\
    (forall y, heads w' !! y = (if n_cluster_enabled nd then displaced_head n ks else fun c => c) <$> heads w !! y) /\
    default [] (conns w' !! n) = default [] (conns w !! n) ++ map UNSUBSCRIBE ids /\
    (if n_cluster_enabled nd then dropped_ids ks n w ids else ids = []).
Proof.
  intros S Hn Ks Qw. pose proof S as [[gl I] C B]. unfold node_make_ready, ClusterSlots.get_node. rewrite Hn, bind_Ret.
  change (n_cluster_enabled (set_state nd REDIS_NODE_READY)) with (n_cluster_enabled nd).
  set (w0 := set_topology w (put_node (nset w) n (set_state nd REDIS_NODE_READY)) (ns_ready w) (slaves w)).
  assert (rds_inv Whole gl w0) as I0 by by eapply inv_put_node.
  assert (forall w', nset w' = nset w0 -> ns_ready w' = ns_ready w ->
    (forall y c, heads w' !! y = Some c -> exists d, heads w !! y = Some d /\ same_counts d c) -> counts_ok w' /\ busy w') as CB.
  { intros w' En Er Hh. split.
    - intros y c (d & Hd & [_ -> -> _])%Hh. by apply (C y d).
    - intros R y c m (d & Hd & Sd)%Hh Um. rewrite Er in R. apply (sc_uses _ _ Sd) in Um. destruct (B R y d m Hd Um) as (md & Em & L).
      unfold ready_node. rewrite En. cbn. destruct (decide (m = n)) as [->|N]; [rewrite lookup_insert_eq; eexists; split; [done|cbn; lia]|].
      rewrite lookup_insert_ne by done. eauto. }
  destruct (n_cluster_enabled nd) eqn:Ec.
  - assert (keyspace n ks w0) as Ks0 by (intros i; cbn; by rewrite keyspace_state).
    destruct (displace_ok gl w0 n ks I0 Ks0 Qw) as (w1 & w2 & ids & E1 & E2 & I2 & K & Eh & Di); [cbn; rewrite lookup_insert_eq; eauto|].
    pose proof (displace_conns _ _ _ _ _ E1 E2) as Ecn.
    apply bind_Ret_inv in E1 as (cur1 & -> & E1). apply bind_Ret_inv in E2 as (cur2 & F2 & E2). rewrite bind_Ret, E1, bind_Ret, F2, bind_Ret, E2, bind_Ret.
    set (w' := set_conns w2 _). exists w', ids. split; [done|].
    assert (ids <> [] -> REDIS_MODE_DISTRIBUTED <= storage_mode cf) as M.
    { destruct ids as [|i ids]; [done|]. intros _. assert (i ∈ i :: ids) as Hi by set_solver. apply Di in Hi as (y & c & Hy & _ & _ & El).
      pose proof (store_head _ _ _ _ _ S Hy) as [_ _ _ _ Hl]. unfold RedisChannelsFacts.listening in Hl. unfold leaving in El.
      apply andb_true_iff in El as [_ El%bool_decide_eq_true]. destruct (pubsub_status c); [|tauto|done]. by destruct Hl as (? & ? & ? & ?). }
    destruct (CB w') as [C' B']; [exact (k_nset _ _ _ K)|exact (k_ready _ _ _ K)| |].
    { intros y c. change (heads w' !! y) with (heads w2 !! y). rewrite Eh. change (heads w0) with (heads w).
      destruct (heads w !! y) as [d|]; intros [= <-]. exists d. split; [done|]. apply displaced_counts. }
    split; [split; [exists gl; by apply inv_unsubscribes|done|done]|].
    split_and!; try done; try apply K. cbn. rewrite lookup_insert_eq. cbn. by rewrite Ecn.
  - exists w0, []. split; [done|]. destruct (CB w0) as [C' B']; [done|done|intros y c Hy; by exists c|].
    split_and!; try done; [by split; [exists gl|..]| |by rewrite app_nil_r].
    intros y. cbn. by destruct (heads w !! y).
Qed.

(** ** A node is added *)

Lemma inv_new_lists gl w n ns : rds_inv Whole gl w -> channels w !! n = None -> dom (nodes ns) = dom (nodes (nset w)) ∪ {[n]} -> index_ok ns ->
  rds_inv Whole gl (set_channels (set_topology w ns (ns_ready w) (delete n (slaves w)))
    (<[n := NC (new_list CMD_LINKS) (new_list PUBSUB_LINKS)]> (channels w)) (all w) (disconnected_cmd w) (disconnected_pubsub w)).
Proof.
  intros [A1 A2 A3 A4 A5 A6 A7 A10 A8 A9 B1 B2 B3 B4] Hn Ed Ix. split; try done.
  - destruct A1 as (L & [R N Al M Z Se] & P). exists L. split; [|done].
    assert (L (NodeCmd n) = []) as L1 by (apply N; cbn; by rewrite Hn). assert (L (NodePubsub n) = []) as L2 by (apply N; cbn; by rewrite Hn).
    set (w' := set_channels _ _ _ _ _).
    assert (forall k, k <> NodeCmd n -> k <> NodePubsub n -> get_list w' k = get_list w k) as G.
    { intros [|m|m| |] N1 N2; try done; cbn; rewrite lookup_insert_ne by congruence; done. }
    split; try done.
    + intros k l Nk Gl. destruct (decide (k = NodeCmd n)) as [->|N1]; [|destruct (decide (k = NodePubsub n)) as [->|N2]].
      * cbn in Gl. rewrite lookup_insert_eq in Gl. injection Gl as <-. split; [done|]. rewrite L1. by apply rep_init.
      * cbn in Gl. rewrite lookup_insert_eq in Gl. injection Gl as <-. split; [done|]. rewrite L2. by apply rep_init.
      * rewrite G in Gl by done. by apply R.
    + intros k Gl. destruct (decide (k = NodeCmd n)) as [->|N1]; [done|destruct (decide (k = NodePubsub n)) as [->|N2]; [done|]].
      rewrite G in Gl by done. by apply N.
  - by destruct A2.
  - intros y c Hy Nh. destruct (A8 y c Hy Nh). by split.
  - cbn. rewrite dom_insert_L, Ed, B1. set_solver.
  - intros m l s Em Hs. cbn in Em. apply lookup_delete_Some in Em as [_ Em]. destruct (B2 m l s Em Hs) as [x Hx].
    apply elem_of_dom_2 in Hx. cbn. apply elem_of_dom. set_solver.
Qed.

Lemma create_node_ok w n : store_ok w -> nodes (nset w) !! n = None -> store_ok (nodeset_node_create w n).
Proof.
  intros S Hn. pose proof S as [[gl I] C B]. assert (channels w !! n = None) as Hc.
  { destruct (channels w !! n) eqn:E; [|done]. assert (is_Some (nodes (nset w) !! n)) as [? ?]; [|congruence].
    apply (node_of_channels cf tracked Whole gl w n I). eauto. }
  split; [|done|].
  - exists gl. assert (rds_inv Whole gl (set_conns w (delete n (conns w)))) as I1.
    { apply inv_close_conn; [done|]. intros y c Hy E. destruct (placed_node cf tracked Whole gl w y c n I Hy) as [? ?]; [by right|congruence]. }
    apply (inv_new_lists gl (set_conns w (delete n (conns w))) n); [done|done|cbn; rewrite dom_insert_L; set_solver|].
    destruct (ri_index _ _ _ _ _ I) as [Hh Hx]. split.
    + eapply holds_ext; [exact Hh|]. intros p r. unfold owned. cbn. destruct (decide (p = n)) as [->|N]; [|by rewrite lookup_insert_ne].
      rewrite lookup_insert_eq, Hn. naive_solver.
    + intros p m. cbn. rewrite lookup_insert_Some. intros [[<- <-]|[N Hp]]; [done|intros Hi; exact (Hx p m Hp Hi)].
  - intros R y c m Hy Um. destruct (B R y c m Hy Um) as (md & Em & L). exists md. split; [|done]. cbn.
    rewrite lookup_insert_ne; [done|]. intros ->. congruence.
Qed.
End runs.
