(* ===== verification/RedisChannelsReady.v ===== *)
(** * When the nodeset of the Redis store is ready

    The heads that were queued for a node get one, and the commands that waited
    are sent; then the runs of the store, whatever happens to its nodes. *)

From S2P Require Import Prelude Nginx DList SList ChanHead RbTree ClusterSlots ClusterSlotsFacts Reaper ReaperFacts RedisChannels RedisChannelsFacts RedisChannelsRuns RedisChannelsNodes.

Section runs.
Context `{NgxRbtree redis_nodeset_slot_range_node_t} (cf : redis_settings) (tracked : Prop).
Context (W : weights_ok cf).
Notation rds_inv := (rds_inv cf tracked).
Notation head_ok := (head_ok cf tracked).
Notation listening := (listening cf tracked).
Notation store_ok := (store_ok cf tracked).
Notation keeps := (keeps cf).
Notation becomes := (becomes cf).

(** ** Queued heads *)

(** The heads that are in the list [k]. *)
Definition in_list (k : chan_list) (hs : gmap loc rdstore_channel_head_t) : gmap loc rdstore_channel_head_t := filter (fun p => placed p.2 k) hs.

Lemma in_list_le k hs : (base.size (in_list k hs) <= base.size hs)%nat.
Proof. unfold in_list. rewrite <- !size_dom. apply subseteq_size, dom_filter_subseteq. Qed.
Lemma in_list_drop k hs x c c' : hs !! x = Some c -> placed c k -> ~ placed c' k ->
  S (base.size (in_list k (<[x := c']> hs))) = base.size (in_list k hs).
Proof.
  intros Hx Pc Nc. unfold in_list. rewrite map_filter_insert_False by done. rewrite map_filter_delete.
  assert (filter (fun p => placed p.2 k) hs !! x = Some c) as Fx by by apply map_lookup_filter_Some.
  rewrite map_size_delete_Some by eauto.
  assert (base.size (filter (fun p : loc * rdstore_channel_head_t => placed p.2 k) hs) <> 0%nat) as Nz.
  { intros E%map_size_empty_inv. by rewrite E, lookup_empty in Fx. }
  lia.
Qed.
Lemma in_list_none k hs x c : base.size (in_list k hs) = 0%nat -> hs !! x = Some c -> ~ placed c k.
Proof.
  intros E%map_size_empty_inv Hx Pc. unfold in_list in E.
  assert (filter (fun p => placed p.2 k) hs !! x = Some c) as Fx by by apply map_lookup_filter_Some.
  by rewrite E, lookup_empty in Fx.
Qed.

(** Taking the last head of a list. *)
Lemma pop_ok gl w k : rds_inv Whole gl w -> k = DisconnectedCmd \/ k = DisconnectedPubsub ->
  (list_pop w k = Ret (w, None) /\ forall x c, heads w !! x = Some c -> ~ placed c k) \/
  (exists x c w1, list_pop w k = Ret (w1, Some x) /\ heads w !! x = Some c /\ placed c k /\ heads w1 = heads w /\
    forall c', (forall k', placed c' k' <-> placed c k' /\ k' <> k) -> same_id c c' -> flags_ok c' ->
      becomes w x c' (put_head w1 x c') /\ rds_inv (Opened x) gl (put_head w1 x c')).
Proof.
  intros I Ek. destruct (ri_lists _ _ _ _ _ I) as (L & O & P). assert (k <> All) as Nk by (by destruct Ek as [-> | ->]).
  destruct (get_list w k) as [l|] eqn:G; [|by destruct Ek as [-> | ->]].
  destruct (lo_rep _ _ O k l Nk G) as [_ R]. pose proof R as (_ & _ & _ & Et & _).
  unfold list_pop, nchan_slist_pop. rewrite G, Et. destruct (last (L k)) as [x|] eqn:El.
  - right. assert (x ∈ L k) as Hk by by apply last_elem. apply P in Hk as (c & Hx & Pc). exists x, c.
    pose proof (inv_open _ _ _ _ x I) as Io.
    destruct (list_remove_ok cf w L k x O Nk) as (w1 & xs1 & xs2 & E & Kp & Eh & EL & Nx & O1); [apply P; eauto|].
    exists w1. pose proof E as E'. unfold list_remove in E'. rewrite G in E'. apply bind_Ret_inv in E' as ([h' l'] & -> & E').
    injection E' as <-. split_and!; try done. intros c' Cp Si Fl.
    assert (becomes w x c' (put_head (set_list (set_links w h') k l') x c')) as B.
    { split; [eapply rds_keeps_trans; [exact Kp|apply keeps_heads]|]. cbn [heads put_head set_heads]. by rewrite Eh. }
    split; [done|]. eapply inv_step; [exact Io|exact Hx|exact B| |done|done|by left].
    eexists. split; [apply lists_heads; [exact O1|rewrite Eh; eauto]|]. cbn [heads put_head set_heads]. rewrite Eh. by eapply lists_place_remove.
  - left. apply last_None in El. split; [by destruct Ek as [-> | ->]; cbn in G; injection G as <-; destruct w|].
    intros x c Hx Pc. assert (x ∈ L k) as Hk by (apply P; eauto). rewrite El in Hk. by apply elem_of_nil in Hk.
Qed.

(** ** Getting a node back *)

Definition all_served (w : rdstore) : Prop := forall x c, heads w !! x = Some c -> serves w (id c).

(** A head that listens, has asked to, or is queued to ask. *)
Definition wants (c : rdstore_channel_head_t) : Prop :=
  pubsub_status c <> REDIS_PUBSUB_UNSUBSCRIBED \/ in_disconnected_pubsub_list c = true.

Record recovered (c c' : rdstore_channel_head_t) : Prop := {
  rc_id : id c' = id c;
  rc_subs : sub_count c' = sub_count c;
  rc_fetching : fetching_message_count c' = fetching_message_count c;
  rc_reserved : reserved c' = reserved c;
  rc_cmd : in_disconnected_cmd_list c = false -> in_disconnected_cmd_list c' = false;
  rc_pubsub : in_disconnected_pubsub_list c = false -> in_disconnected_pubsub_list c' = false;
  rc_wants : REDIS_MODE_DISTRIBUTED <= storage_mode cf -> wants c -> wants c';
}.
Record recovers (w w' : rdstore) : Prop := {
  rs_keeps : keeps w w';
  rs_heads : forall x, match heads w !! x, heads w' !! x with
    | Some c, Some c' => recovered c c'
    | None, None => True
    | _, _ => False
    end;
}.
Lemma recovers_refl w : recovers w w.
Proof. split; [done|]. intros x. by destruct (heads w !! x). Qed.
Lemma recovers_trans w1 w2 w3 : recovers w1 w2 -> recovers w2 w3 -> recovers w1 w3.
Proof.
  intros [K1 H1] [K2 H2]. split; [by eapply rds_keeps_trans|]. intros x. specialize (H1 x). specialize (H2 x).
  destruct (heads w1 !! x), (heads w2 !! x), (heads w3 !! x); try done. destruct H1, H2. split; try congruence; auto.
Qed.
Lemma recovers_step w x c c' w' : heads w !! x = Some c -> becomes w x c' w' -> recovered c c' -> recovers w w'.
Proof.
  intros Hx [K E] R. split; [done|]. intros y. rewrite E. destruct (decide (y = x)) as [->|N].
  - by rewrite lookup_insert_eq, Hx.
  - rewrite lookup_insert_ne by done. by destruct (heads w !! y).
Qed.
Lemma recovers_head w w' x c' : recovers w w' -> heads w' !! x = Some c' -> exists c, heads w !! x = Some c /\ recovered c c'.
Proof. intros [_ R] Hx. specialize (R x). rewrite Hx in R. destruct (heads w !! x); [eauto|done]. Qed.
Lemma recovers_served w w' : recovers w w' -> all_served w -> all_served w'.
Proof.
  intros R A x c' (c & Hx & Rc)%(recovers_head _ _ _ _ R). rewrite (rc_id _ _ Rc). eapply serves_keeps; [apply R|by apply (A x)].
Qed.

(** The status of a head that may be ready again. *)
Lemma update_status_ok w c : head_ok w c -> head_ok w (update_chanhead_status_on_reconnect c).
Proof.
  intros [H1 H2 H3 H4 H5]. unfold update_chanhead_status_on_reconnect. destruct (_ && _) eqn:E; [|by split].
  apply andb_true_iff in E as [_ E%bool_decide_eq_true]. split; try done; cbn; [by right; right|]. rewrite H3, E. done.
Qed.
Lemma update_status_similar c : recovered c (update_chanhead_status_on_reconnect c) /\
  (forall k, placed (update_chanhead_status_on_reconnect c) k <-> placed c k) /\
  (forall n, uses (update_chanhead_status_on_reconnect c) n <-> uses c n) /\
  (flags_ok c -> flags_ok (update_chanhead_status_on_reconnect c)) /\ same_id c (update_chanhead_status_on_reconnect c).
Proof. unfold update_chanhead_status_on_reconnect. destruct (_ && _); split_and!; try done; by intros []. Qed.

(** The end of a round of both loops. *)
Lemma reconnect_close w w2 gl x c c2 :
  store_ok w -> heads w !! x = Some c -> becomes w x c2 w2 -> rds_inv (Opened x) gl w2 -> head_ok w2 c2 -> reserved c2 = reserved c ->
  sub_count c2 = sub_count c -> fetching_message_count c2 = fetching_message_count c ->
  (ns_ready w = true -> forall n, uses c2 n -> ready_node w n) ->
  exists w', upd_head w2 x update_chanhead_status_on_reconnect = Ret w' /\ store_ok w' /\
    becomes w x (update_chanhead_status_on_reconnect c2) w'.
Proof.
  intros S Hx B I Ho Er Es Ef U. pose proof (becomes_head _ _ _ _ _ B) as H2. rewrite (upd_head_eq _ _ _ _ H2).
  destruct (update_status_similar c2) as ([E1 E2 E3 E4 _ _ _] & P & Un & F & Si). destruct (so_counts _ _ _ S x c Hx) as [C1 C2].
  assert (becomes w x (update_chanhead_status_on_reconnect c2) (put_head w2 x (update_chanhead_status_on_reconnect c2))) as B'
    by (eapply becomes_trans; [exact B|apply becomes_put]).
  eexists. split; [done|]. split; [|exact B']. pose proof (bc_keeps _ _ _ _ _ B) as K.
  eapply (store_close cf tracked w _ gl x); [exact S| |apply B'|apply K|by rewrite (k_ready _ _ _ (bc_keeps _ _ _ _ _ B'))|by eapply (head_ok_grows cf tracked w2), update_status_ok; [apply conns_grow_refl|]| | | |].
  - eapply inv_put_head; [exact I|exact H2|exact Si|apply F; exact (inv_flags _ _ _ _ _ _ _ I H2)|exact P|by left].
  - rewrite E4, Er, (store_reserved _ _ _ _ _ S Hx). symmetry. apply held_keeps; apply K.
  - by rewrite E2, Es.
  - by rewrite E3, Ef.
  - rewrite (k_ready _ _ _ (bc_keeps _ _ _ _ _ B')). intros R n Hn%Un. by apply U.
Qed.

Lemma reconnect_cmd_ok fuel : forall w, store_ok w -> ns_ready w = true -> all_served w ->
  (base.size (in_list DisconnectedCmd (heads w)) <= fuel)%nat ->
  exists w', reconnect_cmd fuel w = Ret w' /\ store_ok w' /\ recovers w w' /\
    forall x c, heads w' !! x = Some c -> in_disconnected_cmd_list c = false.
Proof.
  induction fuel as [|fuel IH]; intros w S R A Fu; pose proof S as [[gl I] C B]; cbn [reconnect_cmd];
    (destruct (pop_ok gl w DisconnectedCmd I) as [(-> & None)|(x & c & w1 & -> & Hx & Pc & Eh & Cl)]; [by left|..]); rewrite bind_Ret.
  1,3: exists w; split_and!; [done|done|apply recovers_refl|intros y d Hy; apply not_true_is_false; by apply (None y d)].
  { exfalso. apply (in_list_none DisconnectedCmd (heads w) x c); [lia|done|done]. }
  destruct (inv_flags _ _ _ _ _ _ _ I Hx) as [F1 F2]. pose proof (F1 Pc) as Ecn. pose proof (store_head _ _ _ _ _ S Hx) as Ho.
  rewrite (get_head_eq w1 x c), bind_Ret by by rewrite Eh. rewrite c_assert_bind by by rewrite bool_decide_eq_true_2.
  rewrite (upd_head_eq w1 x c), bind_Ret by by rewrite Eh. set (c1 := set_in_cmd_list c false).
  destruct (Cl c1) as [B1 I1]; [intros k; destruct k; cbn; intuition congruence|done|by split|].
  pose proof (becomes_head _ _ _ _ _ B1) as H1.
  destruct (find_by_chanhead_ok cf tracked (Opened x) gl _ x c1 I1 eq_refl H1) as (w2 & n & -> & B2 & I2 & _ & Cn); [by destruct Ho|done| |].
  { intros _. eapply (serves_keeps w); [apply (bc_keeps _ _ _ _ _ B1)|exact (A x c Hx)]. }
  rewrite bind_Ret. set (c2 := set_node_cmd c1 (Some n)) in *. pose proof (becomes_trans _ _ _ _ _ _ _ B1 B2) as B12.
  assert (ready_node w n) as Rn.
  { destruct Cn as [Cn|[_ Cn]]; [cbn in Cn; congruence|]. unfold ready_node in *. by rewrite (k_nset _ _ _ (bc_keeps _ _ _ _ _ B1)) in Cn. }
  destruct (reconnect_close w w2 gl x c c2 S Hx B12 I2) as (w3 & -> & S3 & B3); try done.
  { apply (head_ok_grows cf tracked w w2) in Ho; [|apply B12]. destruct Ho as [A1 A2 A3 A4 A5]. by split. }
  { intros _ m [[= <-]|Um]; [done|]. apply (B R x c); [done|by right]. }
  rewrite bind_Ret. destruct (update_status_similar c2) as ([E1 E2 E3 E4 E5 E6 E7] & P & _).
  assert (recovers w w3) as R3.
  { eapply recovers_step; [exact Hx|exact B3|]. split; try done. intros _. by apply E5. }
  destruct (IH w3 S3) as (w' & -> & S' & R' & N'); [by rewrite (k_ready _ _ _ (rs_keeps _ _ R3))|by eapply recovers_served| |].
  - rewrite (bc_heads _ _ _ _ _ B3). pose proof (in_list_drop DisconnectedCmd (heads w) x c (update_chanhead_status_on_reconnect c2) Hx Pc) as D.
    rewrite P in D. specialize (D ltac:(done)). lia.
  - exists w'. split_and!; try done. by eapply recovers_trans.
Qed.

(** A head that gets its node to listen on, and asks. *)
Lemma resubscribe_ok gl w x c : rds_inv (Opened x) gl w -> heads w !! x = Some c -> ns_ready w = true -> has_nodeset c = true ->
  status c = INACTIVE \/ status c = NOTREADY \/ status c = READY -> (in_reaper c = true <-> status c = INACTIVE) ->
  pubsub_status c = REDIS_PUBSUB_UNSUBSCRIBED -> node_pubsub c = None -> in_disconnected_pubsub_list c = false -> serves w (id c) ->
  exists w' c', ('(w, _) ← nodeset_node_pubsub_find_by_chanhead cf w x; let w := note w (CatchUp x) in ensure_chanhead_pubsub_subscribed_if_needed cf w x) = Ret w' /\
    becomes w x c' w' /\ rds_inv (Opened x) gl w' /\ head_ok w' c' /\ recovered c c' /\ in_disconnected_pubsub_list c' = false /\ node_cmd c' = node_cmd c /\
    is_Some (node_pubsub c') /\ (forall n, node_pubsub c' = Some n -> ready_node w n) /\
    (REDIS_MODE_DISTRIBUTED <= storage_mode cf -> pubsub_status c' <> REDIS_PUBSUB_UNSUBSCRIBED).
Proof.
  intros I Hx R H1 H2 H3 Ep En Ef Sv. destruct (pubsub_find_ok cf tracked W (Opened x) gl w x c I eq_refl Hx) as (w1 & n & -> & B1 & I1 & _ & Cn); [done..|].
  rewrite bind_Ret. cbv zeta. set (c1 := set_node_pubsub c (Some n)) in *.
  assert (ready_node w n) as Rn by (destruct Cn as [Cn|[_ Cn]]; [congruence|done]).
  assert (becomes w x c1 (note w1 (CatchUp x))) as B2 by (eapply becomes_after; [exact B1|done|done]).
  assert (rds_inv (Opened x) gl (note w1 (CatchUp x))) as I2 by by apply inv_note.
  pose proof (bc_keeps _ _ _ _ _ B2) as K2.
  destruct (ensure_ok cf tracked W (Opened x) gl (note w1 (CatchUp x)) x c1 I2 eq_refl) as (c' & (w2 & E & B & I3) & Cs); [by eapply becomes_head|done| |].
  { intros _. split_and!; [done| |].
    - intros m [= <-]. unfold ready_node. by rewrite (k_nset _ _ _ K2).
    - eapply (serves_keeps w); [apply K2|done]. }
  exists w2, c'. split; [exact E|]. assert (becomes w x c' w2) as B3 by by eapply becomes_trans. split; [done|]. split; [done|].
  destruct Cs as [[-> Cs]|(m & _ & -> & _ & M & Rm & Li)].
  - assert (REDIS_MODE_DISTRIBUTED <= storage_mode cf -> False) as Nm.
    { intros M. destruct Cs as [Cs|Cs]; [done|]. destruct Cs. split; [done|]. by rewrite (k_ready _ _ _ K2). }
    split_and!; try done; [|by intros m [= <-]]. split; try done.
    unfold RedisChannelsFacts.listening. cbn. rewrite Ep. intros _ M. by destruct (Nm M).
  - split_and!; try done.
    + split; try done; [by intros Q; cbn in Q; congruence|by apply Li].
    + split; try done. by left.
    + intros k [= <-]. unfold ready_node in *. by rewrite (k_nset _ _ _ K2) in Rm.
Qed.

Lemma reconnect_pubsub_ok fuel : forall w, store_ok w -> ns_ready w = true -> all_served w ->
  (base.size (in_list DisconnectedPubsub (heads w)) <= fuel)%nat ->
  exists w', reconnect_pubsub cf fuel w = Ret w' /\ store_ok w' /\ recovers w w' /\
    forall x c, heads w' !! x = Some c -> in_disconnected_pubsub_list c = false.
Proof.
  induction fuel as [|fuel IH]; intros w S R A Fu; pose proof S as [[gl I] C B]; cbn [reconnect_pubsub];
    (destruct (pop_ok gl w DisconnectedPubsub I) as [(-> & None)|(x & c & w1 & -> & Hx & Pc & Eh & Cl)]; [by right|..]); rewrite bind_Ret.
  1,3: exists w; split_and!; [done|done|apply recovers_refl|intros y d Hy; apply not_true_is_false; by apply (None y d)].
  { exfalso. apply (in_list_none DisconnectedPubsub (heads w) x c); [lia|done|done]. }
  destruct (inv_flags _ _ _ _ _ _ _ I Hx) as [F1 F2]. pose proof (F2 Pc) as Ecn. pose proof (store_head _ _ _ _ _ S Hx) as Ho.
  rewrite (get_head_eq w1 x c), bind_Ret by by rewrite Eh. rewrite c_assert_bind by by rewrite bool_decide_eq_true_2.
  rewrite (upd_head_eq w1 x c), bind_Ret by by rewrite Eh. set (c1 := set_in_pubsub_list c false).
  destruct (Cl c1) as [B1 I1]; [intros k; destruct k; cbn; intuition congruence|done|by split|].
  pose proof (becomes_head _ _ _ _ _ B1) as H1. pose proof (bc_keeps _ _ _ _ _ B1) as K1. set (w1' := put_head w1 x c1) in *.
  pose proof (ho_queued _ _ _ _ Ho Pc) as Eu.
  destruct (resubscribe_ok gl w1' x c1 I1 H1) as (w3 & c3 & E3 & B3' & I3 & Ho3 & Rc & Ef3 & Nc & _ & Np & Wp);
    [by rewrite (k_ready _ _ _ K1)|apply Ho|apply Ho|apply Ho|done|done|done|eapply (serves_keeps w); [apply K1|exact (A x c Hx)]|].
  pose proof (becomes_trans _ _ _ _ _ _ _ B1 B3') as B3. unfold ready_node in Np. rewrite (k_nset _ _ _ K1) in Np.
  apply bind_Ret_inv in E3 as ([w2 n] & -> & E3). rewrite bind_Ret. cbv zeta in E3. rewrite E3, bind_Ret.
  destruct Rc as [Q1 Q2 Q3 Q4 Q5 Q6 _].
  destruct (reconnect_close w w3 gl x c c3 S Hx B3 I3 Ho3) as (w4 & -> & S4 & B4); try done.
  { intros _ m [Um|Um]; [apply (B R x c); [done|left; by rewrite <- Um, Nc]|by apply Np]. }
  rewrite bind_Ret. destruct (update_status_similar c3) as ([E1 E2 E3' E4 E5 E6 E7] & P & _).
  assert (recovers w w4) as R4.
  { eapply recovers_step; [exact Hx|exact B4|]. split; [by rewrite E1, Q1|by rewrite E2, Q2|by rewrite E3', Q3|by rewrite E4, Q4|by intros Q; apply E5, Q5|by intros _; apply E6|intros M _; apply E7; [done|by left; apply Wp]]. }
  destruct (IH w4 S4) as (w' & -> & S' & R' & N'); [by rewrite (k_ready _ _ _ (rs_keeps _ _ R4))|by eapply recovers_served| |].
  - rewrite (bc_heads _ _ _ _ _ B4). pose proof (in_list_drop DisconnectedPubsub (heads w) x c (update_chanhead_status_on_reconnect c3) Hx Pc) as D.
    rewrite P in D. assert (~ placed c3 DisconnectedPubsub) as Np3 by (cbn; congruence). specialize (D Np3). lia.
  - exists w'. split_and!; try done. by eapply recovers_trans.
Qed.

(** ** Commands that waited *)

Definition no_cmd_queued (w : rdstore) : Prop := forall x c, heads w !! x = Some c -> in_disconnected_cmd_list c = false.
Definition no_pubsub_queued (w : rdstore) : Prop := forall x c, heads w !! x = Some c -> in_disconnected_pubsub_list c = false.

Lemma served_looked_up w i : serves w i -> looked_up w i.
Proof. intros (n & nd & E & _). by eexists. Qed.

(** Each of them holds its head until it is sent. *)
Lemma run_ready_callbacks_ok l : forall w, store_ok (set_onready w l) -> ns_ready w = true -> all_served w -> no_cmd_queued w -> no_pubsub_queued w ->
  exists w', run_ready_callbacks w l = Ret w' /\ store_ok (set_onready w' []) /\ nset w' = nset w /\ ns_ready w' = true /\
    dom (heads w') = dom (heads w) /\ no_cmd_queued w' /\ no_pubsub_queued w' /\
    (forall y c c', heads w !! y = Some c -> heads w' !! y = Some c' -> wants c -> wants c').
Proof.
  induction l as [|[s x] l IH]; intros w S R A Nc Np; [exists w; split_and!; try done; by intros; simplify_eq|]. set (v := set_onready w ((s, x) :: l)) in *.
  assert (forall y, held v y = held (with_commands v (inflight v) l) y + if decide (y = x) then 1 else 0) as Hd by (intros y; by eapply (held_expire v 0%nat s x)).
  destruct (retry_ok cf tracked v l s x S Hd) as (c & Hx & v' & c' & E & S' & Eh & En & Er & Sm & Eq).
  { intros c Hc. split; [|by apply served_looked_up, (A x c)]. intros _. split_and!; [by apply (Nc x c)|by apply (A x c)|].
    intros m Em. apply (so_busy _ _ _ S R x c); [done|by left]. }
  change (set_onready v l) with (set_onready w l) in E. pose proof (passes_retry _ (onready_aside l) s x w) as Pw. cbn beta in Pw.
  rewrite E in Pw. cbn [run_ready_callbacks]. destruct (retry_wrapper w s x) as [w1| |] eqn:E1; [|done..]. rewrite bind_Ret in Pw |- *. injection Pw as ->.
  change (heads (set_onready w1 l)) with (heads w1) in Eh. change (nset (set_onready w1 l)) with (nset w1) in En.
  change (heads v) with (heads w) in *. change (nset v) with (nset w) in *.
  assert (forall y d, heads w1 !! y = Some d -> exists e, heads w !! y = Some e /\ id d = id e /\
    in_disconnected_cmd_list d = in_disconnected_cmd_list e /\ in_disconnected_pubsub_list d = in_disconnected_pubsub_list e) as Inv.
  { intros y d. rewrite Eh, lookup_insert_Some. intros [[<- <-]|[N Hy]]; [exists c; by destruct Sm|by exists d]. }
  destruct (IH w1) as (w' & -> & S2 & En2 & Er2 & Ed & Nc2 & Np2 & Wa); [done| | | | |].
  - change (ns_ready (set_onready w1 l)) with (ns_ready w1) in Er. rewrite Er. exact R.
  - intros y d (e & He & -> & _)%Inv. eapply (serves_keeps w); [done|by apply (A y e)].
  - intros y d (e & He & _ & -> & _)%Inv. by apply (Nc y e).
  - intros y d (e & He & _ & _ & ->)%Inv. by apply (Np y e).
  - exists w'. split_and!; try done; [congruence| |].
    + rewrite Ed, Eh, dom_insert_L. apply elem_of_dom_2 in Hx. set_solver.
    + intros y d d' Hd1 Hd2 Wd. destruct (decide (y = x)) as [->|N].
      * apply (Wa x c' d'); [by rewrite Eh, lookup_insert_eq|done|]. simplify_eq. destruct Sm. unfold wants in *. congruence.
      * apply (Wa y d d'); [by rewrite Eh, lookup_insert_ne|done..].
Qed.

(** ** The nodeset is ready *)

Definition ready_ok (w : rdstore) : Prop := all_served w /\ forall x c n, heads w !! x = Some c -> uses c n -> ready_node w n.

Lemma store_ready w : store_ok w -> ready_ok w -> store_ok (set_topology w (nset w) true (slaves w)).
Proof. intros [[gl I] C _] [_ U]. split; [exists gl; by apply inv_ready|done|]. intros _. exact U. Qed.

Lemma set_ready_ok w : store_ok w -> ready_ok w ->
  exists w', nodeset_set_ready cf w = Ret w' /\ store_ok w' /\ ns_ready w' = true /\ nset w' = nset w /\ dom (heads w') = dom (heads w) /\
    no_cmd_queued w' /\ no_pubsub_queued w' /\ onready w' = [] /\
    (REDIS_MODE_DISTRIBUTED <= storage_mode cf -> forall y c c', heads w !! y = Some c -> heads w' !! y = Some c' -> wants c -> wants c').
Proof.
  intros S Rd. unfold nodeset_set_ready. set (w0 := set_topology w (nset w) true (slaves w)).
  assert (store_ok w0) as S0 by by apply store_ready. assert (all_served w0) as A0 by apply Rd.
  unfold nodeset_reconnect_disconnected_channels. simpl c_assert. rewrite bind_Ret.
  destruct (reconnect_cmd_ok (base.size (heads w0)) w0 S0 eq_refl A0) as (w1 & E1 & S1 & R1 & N1); [apply in_list_le|].
  assert (all_served w1) as A1 by by eapply recovers_served. assert (ns_ready w1 = true) as Y1 by (by rewrite (k_ready _ _ _ (rs_keeps _ _ R1))).
  destruct (reconnect_pubsub_ok (base.size (heads w1)) w1 S1 Y1 A1) as (w2 & E2 & S2 & R2 & N2); [apply in_list_le|].
  assert (no_cmd_queued w2) as N2c.
  { intros x c' (c & Hx & Rc)%(recovers_head _ _ _ _ R2). apply Rc. by apply (N1 x). }
  rewrite E1, bind_Ret, E2, bind_Ret. unfold nodeset_run_on_ready_callbacks.
  assert (forall v v', recovers v v' -> dom (heads v') = dom (heads v)) as D.
  { intros v v' [_ R]. apply set_eq. intros x. rewrite !elem_of_dom. specialize (R x).
    destruct (heads v !! x), (heads v' !! x); try done; split; intros Hs; by destruct Hs. }
  destruct (run_ready_callbacks_ok (onready w2) w2) as (w3 & -> & S3 & En & Er & Ed & Nc & Np & Wa); try done.
  - by destruct w2.
  - by rewrite (k_ready _ _ _ (rs_keeps _ _ R2)).
  - by eapply recovers_served.
  - rewrite bind_Ret. exists (set_onready w3 []). split_and!; try done.
    + cbn. rewrite En, (k_nset _ _ _ (rs_keeps _ _ R2)). apply R1.
    + cbn. by rewrite Ed, (D w1 w2 R2), (D w0 w1 R1).
    + intros M y c c' Hc Hc' Wc. assert (recovers w0 w2) as R by by eapply recovers_trans.
      assert (is_Some (heads w2 !! y)) as [c2 Hc2].
      { apply elem_of_dom. rewrite (D w0 w2 R). apply elem_of_dom. by exists c. }
      apply (Wa y c2 c'); [done..|]. destruct (recovers_head _ _ _ _ R Hc2) as (c0 & Hc0 & Rc). simpl in Hc0. simplify_eq. by apply Rc.
Qed.

(** ** Runs *)

(** What happens to the store: requests of subscribers, answers of Redis, timers
    and what the nodeset does to its nodes.  [ONodes] is a change of roles,
    slots, states or slaves of the nodes, or of the status of the nodeset to
    one that is not ready. *)
Inductive rds_op :=
  | OSubscribe (channel_id : bytes) (new : ptr)
  | OFind (channel_id : bytes) (new : ptr)
  | OLeave (now : Z) (x : loc)
  | OFetch (x : loc)
  | OFetched (x : loc)
  | OScriptReply (i : nat) (retry : bool)
  | OPubsubReply (n : loc)
  | OKeepaliveTimer (x : loc)
  | OTick (now : Z)
  | OExpire (i : nat)
  | OExit
  | OCreateNode (n : loc)
  | ODisconnect (n : loc) (st : Z)
  | OMakeReady (n : loc)
  | OReady
  | ONodes (ns : redis_nodeset_t) (r : bool) (sl : gmap loc (list loc)).

Definition exec (op : rds_op) (w : rdstore) : outcome rdstore :=
  match op with
  | OSubscribe chid new => nchan_store_subscribe_continued cf w chid new
  | OFind chid new => '(w, _) ← nchan_store_get_chanhead cf w chid new; Ret w
  | OLeave now x => spooler_dequeue_handler cf now w x
  | OFetch x => spooler_get_message_start_handler w x
  | OFetched x => spooler_get_message_finish_handler w x
  | OScriptReply i retry => script_reply w i retry
  | OPubsubReply n => pubsub_reply cf w n
  | OKeepaliveTimer x => redis_channel_keepalive_timer_handler w x
  | OTick now => reaper_tick cf (reaping_fuel w) now w
  | OExpire i => nodeset_onready_expire_event w i
  | OExit => Ret (redis_store_prepare_to_exit_worker w)
  | OCreateNode n => Ret (nodeset_node_create w n)
  | ODisconnect n st => node_disconnect cf w n st
  | OMakeReady n => node_make_ready cf w n
  | OReady => nodeset_set_ready cf w
  | ONodes ns r sl => Ret (set_topology w ns r sl)
  end.

(** What the rest of the program is relied on for.  An operation on a channel
    finds its node while the nodeset is ready ([serves]), and does not come to a
    head that is queued for one; a SUBSCRIBE is answered by the node that lists
    the head, if there is one; and a node is not lost, nor the slots of a
    channel by a node, while a SUBSCRIBE is not answered, if errors are logged
    ([quiet]). *)
Definition op_ok (w : rdstore) (op : rds_op) : Prop :=
  match op with
  | OSubscribe chid new => get_ok tracked w chid new /\ forall x c, chanhead_hash w !! chid = Some x -> heads w !! x = Some c -> may_send w c
  | OFind chid new => get_ok tracked w chid new
  | OLeave _ x => exists c, heads w !! x = Some c /\ may_leave w c
  | OFetch x => exists c, heads w !! x = Some c
  | OFetched x => exists c, heads w !! x = Some c /\ 0 < fetching_message_count c
  | OPubsubReply n => answer_ok w n
  | OKeepaliveTimer x => exists c, heads w !! x = Some c /\ looked_up w (id c) /\ (ns_ready w = true -> serves w (id c))
  | OExpire i => forall s x c, onready w !! i = Some (s, x) -> heads w !! x = Some c -> may_retry w c
  | OCreateNode n => nodes (nset w) !! n = None
  | ODisconnect n _ => is_Some (nodes (nset w) !! n) /\ quiet cf w n
  | OMakeReady n => exists nd ks, nodes (nset w) !! n = Some nd /\ keyspace n ks w /\ quiet cf w n
  | OReady => ready_ok w
  | ONodes ns r sl => dom (nodes ns) = dom (nodes (nset w)) /\ (forall m l s, sl !! m = Some l -> s ∈ l -> is_Some (nodes ns !! s)) /\ index_ok ns /\
      (r = true -> ns_ready w = true /\ forall x c n, heads w !! x = Some c -> uses c n -> exists nd, nodes ns !! n = Some nd /\ REDIS_NODE_READY <= n_state nd)
  | OScriptReply _ _ | OTick _ | OExit => True
  end.

Fixpoint exec_all (ops : list rds_op) (w : rdstore) : outcome rdstore :=
  match ops with
  | [] => Ret w
  | op :: ops => w ← exec op w; exec_all ops w
  end.
Fixpoint ops_ok (w : rdstore) (ops : list rds_op) : Prop :=
  match ops with
  | [] => True
  | op :: ops => op_ok w op /\ forall w', exec op w = Ret w' -> ops_ok w' ops
  end.

Lemma acts_store f w x P : acts cf tracked f w x P -> exists w', f = Ret w' /\ store_ok w'.
Proof. intros (w' & c' & E & S & _). eauto. Qed.

Lemma rds_exec_ok op w : store_ok w -> op_ok w op -> exists w', exec op w = Ret w' /\ store_ok w'.
Proof.
  intros S. destruct op as [chid new|chid new|now x|x|x|i retry|n|x|now|i| |n|n st|n| |ns r sl]; cbn [op_ok exec].
  - intros [G M]. destruct (rds_subscribe_ok cf tracked W w chid new S G M) as (x & c0 & _ & A). by eapply acts_store.
  - intros G. destruct (get_chanhead_store cf tracked W w chid new S G) as (w' & x & c0 & c' & -> & _ & S' & _). rewrite bind_Ret. eauto.
  - intros (c & Hx & L). eapply acts_store, rds_leave_ok; done.
  - intros (c & Hx). by eapply acts_store, fetch_start_ok.
  - intros (c & Hx & Hp). by eapply acts_store, fetch_finish_ok.
  - intros _. destruct (inflight w !! i) as [[[n s] x]|] eqn:E.
    + destruct (script_reply_ok cf tracked w i n s x retry S E) as (w' & c & _ & -> & S' & _). eauto.
    + unfold script_reply. rewrite E. eauto.
  - intros A. destruct (pubsub_reply_ok cf tracked w n S A) as (w' & -> & S' & _). eauto.
  - intros (c & Hx & Lk & Sv). by eapply acts_store, keepalive_timer_ok.
  - intros _. destruct (tick_store cf tracked W now w S) as (w' & -> & S' & _). eauto.
  - intros M. destruct (onready w !! i) as [[s x]|] eqn:E.
    + destruct (onready_expire_ok cf tracked w i s x S E) as (c & _ & A); [intros c Hc; exact (M s x c eq_refl Hc)|]. by eapply acts_store.
    + unfold nodeset_onready_expire_event. rewrite E. eauto.
  - intros _. eexists. split; [done|]. by apply exit_ok.
  - intros Hn. eexists. split; [done|]. by apply create_node_ok.
  - intros [Hn Qw]. destruct (disconnect_ok cf tracked W w n st S Hn Qw) as (w' & -> & S' & _). eauto.
  - intros (nd & ks & Hn & Ks & Qw). destruct (make_ready_ok cf tracked W w n nd ks S Hn Ks Qw) as (w' & ids & -> & S' & _). eauto.
  - intros Rd. destruct (set_ready_ok w S Rd) as (w' & -> & S' & _). eauto.
  - intros (Ed & Es & Ix & Rd). eexists. split; [done|]. pose proof S as [[gl I] C B].
    split; [exists gl; by apply inv_topology|done|]. intros R. by apply Rd.
Qed.

Lemma rds_exec_all_ok ops : forall w, store_ok w -> ops_ok w ops -> exists w', exec_all ops w = Ret w' /\ store_ok w'.
Proof.
  induction ops as [|op ops IH]; intros w S O; [by exists w|]. destruct O as [O1 O2].
  destruct (rds_exec_ok op w S O1) as (w1 & E & S1). cbn [exec_all]. rewrite E, bind_Ret. apply IH; [done|by apply O2].
Qed.

(** ** The beginning *)

Lemma new_store_ok ns : index_ok ns -> store_ok (new_store ns).
Proof.
  intros Ix. split; [|by intros x c; cbn; rewrite lookup_empty|by intros R].
  exists []. split; try done.
  - exists (fun _ => []). split.
    + split; try done.
      * intros k l Nk G. assert (exists o, l = new_list o /\ o = links_of k) as (o & -> & ->).
        { destruct k as [|m|m| |]; try done; [| |by injection G as <-; eexists|by injection G as <-; eexists]; cbn in G;
            rewrite lookup_fmap in G; destruct (nodes ns !! m); [|done| |done]; injection G as <-; eexists; done. }
        split; [by destruct k|]. unfold new_list. apply rep_init. by destruct k.
      * intros x o. cbn. rewrite !lookup_empty. split; [by intros []|by intros [[] _]].
      * intros x o [y Hy]. cbn in Hy. by rewrite lookup_empty in Hy.
      * intros k k' x _ Hx. by apply elem_of_nil in Hx.
    + intros k x. split; [by intros Hx%elem_of_nil|]. intros (c & Hx & _). cbn in Hx. by rewrite lookup_empty in Hx.
  - split; try done. split; [constructor|done].
  - intros x. split; [by intros Hx%elem_of_nil|]. intros (_ & c & Hx & _). cbn in Hx. by rewrite lookup_empty in Hx.
  - intros x o. cbn. rewrite !lookup_empty. split; [by intros []|by intros [[] _]].
  - intros i x. cbn. rewrite lookup_empty. split; [done|]. intros (_ & c & Hx & _). by rewrite lookup_empty in Hx.
  - cbn. by rewrite dom_fmap_L.
Qed.

Lemma dseg_unique po no h xs : forall p q ys, dseg po no h p xs None -> dseg po no h q ys None -> list.head xs = list.head ys -> xs = ys.
Proof.
  induction xs as [|x xs IH]; intros p q [|y ys] Sx Sy E; try done. injection E as <-. cbn in Sx, Sy.
  destruct Sx as (_ & N1 & Sx), Sy as (_ & N2 & Sy). f_equal. eapply IH; [exact Sx|exact Sy|].
  rewrite <- !hd_or_None. congruence.
Qed.
Lemma rep_unique h l xs ys : rep h l xs -> rep h l ys -> xs = ys.
Proof. intros (_ & [_ Sx] & Ex & _) (_ & [_ Sy] & Ey & _). eapply dseg_unique; [exact Sx|exact Sy|congruence]. Qed.

(** The list [k] is well formed, and holds [x]. *)
Definition listed (w : rdstore) (k : chan_list) (x : loc) : Prop :=
  exists l xs, get_list w k = Some l /\ rep (links w) l xs /\ x ∈ xs.

Lemma store_listed w k x : store_ok w -> k <> All -> listed w k x <-> exists c, heads w !! x = Some c /\ placed c k.
Proof.
  intros [[gl I] _ _] Nk. destruct (ri_lists _ _ _ _ _ I) as (L & O & P). rewrite <- (P k x). split.
  - intros (l & xs & G & R & Hx). destruct (lo_rep _ _ O k l Nk G) as [_ R']. by rewrite (rep_unique (links w) l (L k) xs).
  - intros Hx. destruct (list_here k w L x O P Hx) as [[l G] _]. destruct (lo_rep _ _ O k l Nk G) as [_ R]. by exists l, (L k).
Qed.

(** ** Theorems *)

Definition listens (w : rdstore) (c : rdstore_channel_head_t) : Prop :=
  match pubsub_status c with
  | REDIS_PUBSUB_SUBSCRIBED => exists n, node_pubsub c = Some n
  | REDIS_PUBSUB_SUBSCRIBING => exists n, node_pubsub c = Some n /\ SUBSCRIBE (id c) ∈ default [] (conns w !! n)
  | REDIS_PUBSUB_UNSUBSCRIBED => False
  end.

Lemma store_listens w x c : store_ok w -> tracked -> REDIS_MODE_DISTRIBUTED <= storage_mode cf -> heads w !! x = Some c ->
  listens w c \/ pubsub_status c = REDIS_PUBSUB_UNSUBSCRIBED /\ in_disconnected_pubsub_list c = true.
Proof.
  intros S T M Hx. pose proof (ho_listening _ _ _ _ (store_head _ _ _ _ _ S Hx)) as Hl. unfold listens. unfold RedisChannelsFacts.listening in Hl.
  destruct (pubsub_status c); [left|left|right]; [destruct Hl as (n & E & I & _); eauto|by destruct Hl|by split; [|apply Hl]].
Qed.

(** Where the heads of a node that is lost are queued. *)
Lemma disconnected_queue n c :
  (in_disconnected_cmd_list (disconnected_head cf n c) = true <-> in_disconnected_cmd_list c = true \/ node_cmd c = Some n) /\
  (in_disconnected_pubsub_list (disconnected_head cf n c) = true <-> in_disconnected_pubsub_list c = true \/ node_pubsub c = Some n).
Proof.
  unfold disconnected_head, taken_out, unsubscribed_head, away_head. cbn.
  split; repeat case_decide; repeat case_match; cbn in *; intuition congruence.
Qed.


(** C14. When the nodeset becomes ready again, every channel of the store having a
    node that is ready, no head stays queued for a node, no command waits any
    more, and every head of a distributed store that listened, had asked to, or
    was queued to ask, listens or has asked to.  (A head that was created before
    the nodeset was ready was neither, and is not asked for:
    [early_head_never_listens].) *)
Theorem ready_again_listens ns ops w : index_ok ns -> ops_ok (new_store ns) ops -> exec_all ops (new_store ns) = Ret w -> ready_ok w ->
  exists w', nodeset_set_ready cf w = Ret w' /\ ns_ready w' = true /\ dom (heads w') = dom (heads w) /\ onready w' = [] /\
    (forall x, ~ listed w' DisconnectedCmd x /\ ~ listed w' DisconnectedPubsub x) /\
    (REDIS_MODE_DISTRIBUTED <= storage_mode cf -> forall x c c', heads w !! x = Some c -> heads w' !! x = Some c' ->
       listens w c \/ listed w DisconnectedPubsub x -> listens w' c').
Proof.
  intros Ix O E Rd. destruct (rds_exec_all_ok ops (new_store ns) (new_store_ok ns Ix) O) as (w1 & E1 & S). assert (w1 = w) as -> by congruence.
  destruct (set_ready_ok w S Rd) as (w' & Es & S' & Er & _ & Ed & Nc & Np & Eo & Wa). exists w'. split_and!; try done.
  - intros x. split; intros (c & Hx & Pc)%store_listed; try done; cbn in Pc; [by rewrite (Nc x c) in Pc|by rewrite (Np x c) in Pc].
  - intros M x c c' Hx Hx' L. assert (wants c) as Wc.
    { destruct L as [L|(d & Hd & Pd)%store_listed]; [|right; simplify_eq; exact Pd|done|done].
      left. intros Q. unfold listens in L. by rewrite Q in L. }
    destruct (Wa M x c c' Hx Hx' Wc) as [Ns|Q]; [|by rewrite (Np x c' Hx') in Q].
    pose proof (ho_listening _ _ _ _ (store_head _ _ _ _ _ S' Hx')) as Hl. unfold listens. unfold RedisChannelsFacts.listening in Hl.
    destruct (pubsub_status c'); [destruct Hl as (n & En & In & _); eauto|by destruct Hl|done].
Qed.

(** C15. When the connection of a node ends, exactly its commands and what its
    pubsub connection had to answer are gone, each head gives back what they
    held, no head uses the node any more, and the heads that did are queued for
    another; nothing else of a head changes but its status. *)
Theorem disconnect_queues_heads ns ops w n st : index_ok ns -> ops_ok (new_store ns) ops -> exec_all ops (new_store ns) = Ret w ->
  is_Some (nodes (nset w) !! n) -> quiet cf w n ->
  exists w', node_disconnect cf w n st = Ret w' /\
    inflight w' = List.filter (fun e => negb (of_node n e)) (inflight w) /\ conns w' = delete n (conns w) /\
    forall x, match heads w !! x, heads w' !! x with
      | Some c, Some c' => id c' = id c /\ sub_count c' = sub_count c /\ reserved c' = held w' x /\ ~ uses c' n /\
          (listed w' DisconnectedCmd x <-> listed w DisconnectedCmd x \/ node_cmd c = Some n) /\
          (listed w' DisconnectedPubsub x <-> listed w DisconnectedPubsub x \/ node_pubsub c = Some n)
      | None, None => True
      | _, _ => False
      end.
Proof.
  intros Ix O E Hn Qw. destruct (rds_exec_all_ok ops (new_store ns) (new_store_ok ns Ix) O) as (w1 & E1 & S). assert (w1 = w) as -> by congruence.
  destruct (disconnect_ok cf tracked W w n st S Hn Qw) as (w' & Ed & S' & _ & Ei & _ & Ec & Eh). exists w'. split_and!; try done.
  intros x. specialize (Eh x). destruct (heads w !! x) as [c|] eqn:Hx; cbn [fmap option_fmap option_map] in Eh; rewrite Eh; [|done].
  rewrite !(store_listed w), !(store_listed w'), Eh, Hx by done.
  set (c1 := set_reserved c (held w' x)). destruct (disconnected_counts cf n c1) as [D1 D2 _ _].
  split_and!.
  - unfold disconnected_head, taken_out, unsubscribed_head, away_head. repeat case_decide; repeat case_match; done.
  - by rewrite D2.
  - by rewrite D1.
  - intros [_ []]%disconnected_uses. done.
  - assert (in_disconnected_cmd_list (disconnected_head cf n c1) = true <-> in_disconnected_cmd_list c = true \/ node_cmd c = Some n) as Q by exact (proj1 (disconnected_queue n c1)).
    cbn [placed]. naive_solver.
  - assert (in_disconnected_pubsub_list (disconnected_head cf n c1) = true <-> in_disconnected_pubsub_list c = true \/ node_pubsub c = Some n) as Q by exact (proj2 (disconnected_queue n c1)).
    cbn [placed]. naive_solver.
Qed.
End runs.

(** ** Runs that are computed *)

Definition settings (lvl : Z) : redis_settings := Settings REDIS_MODE_DISTRIBUTED 1 1 (fun _ => 1) false lvl.
Definition no_nodes : redis_nodeset_t := Nodeset false (Seed Sentinel 0 0) [] ∅ 1%positive.
Definition one_master (st : Z) : redis_nodeset_t :=
  Nodeset false (Seed Sentinel 0 0) [1%positive] {[1%positive := RNode st REDIS_NODE_ROLE_MASTER false None 0 false]} 1%positive.
Definition chan_a : bytes := bytes_of "a".

(** A node, and a subscriber whose channel listens there. *)
Definition asks : list rds_op :=
  [OCreateNode 1%positive; ONodes (one_master 27) false ∅; OMakeReady 1%positive; OReady; OSubscribe chan_a (Some 10%positive)].
Definition listening_run : list rds_op := asks ++ [OPubsubReply 1%positive; OScriptReply 0 false].
(** The node is lost, and comes back. *)
Definition lost_run : list rds_op :=
  listening_run ++ [ODisconnect 1%positive (-1); ONodes (one_master (-1)) false ∅; OMakeReady 1%positive].
(** The subscriber leaves, the head is reaped. *)
Definition whole_run : list rds_op :=
  lost_run ++ [OReady; OPubsubReply 1%positive; OLeave 5 10%positive; OTick 100; OPubsubReply 1%positive].

Lemma settings_ok lvl : weights_ok (settings lvl).
Proof. split; [cbn; lia|]. intros k. cbn. lia. Qed.
Lemma no_nodes_index : index_ok no_nodes.
Proof. apply no_slots_ok. split; [done|]. intros p n. cbn. by rewrite lookup_empty. Qed.
Lemma one_master_index st : index_ok (one_master st).
Proof. apply no_slots_ok. split; [done|]. intros p n. cbn. rewrite lookup_singleton_Some. by intros [_ <-]. Qed.

Lemma ops_cons cf tracked w op ops w' : op_ok cf tracked w op -> exec cf op w = Ret w' -> ops_ok cf tracked w' ops -> ops_ok cf tracked w (op :: ops).
Proof. intros O E O'. split; [done|]. intros w2 E2. by assert (w2 = w') as -> by congruence. Qed.

Lemma in_heads (w : rdstore) x c l : heads w !! x = Some c -> map_to_list (heads w) = l -> (x, c) ∈ l.
Proof. intros Hx <-. by apply elem_of_map_to_list. Qed.

Lemma served_by_master w i : nset w = one_master REDIS_NODE_READY -> serves w i.
Proof. intros E. unfold serves. rewrite E. exists 1%positive, (RNode REDIS_NODE_READY REDIS_NODE_ROLE_MASTER false None 0 false). split_and!; done. Qed.

Lemma answers_subscribe w n chid rest : conns w !! n = Some (SUBSCRIBE chid :: rest) ->
  (forall x c, heads w !! x = Some c -> id c = chid -> node_pubsub c = Some n) -> answer_ok w n.
Proof. unfold answer_ok. by intros ->. Qed.

(** Steps of such a run. *)
Ltac run_step := eapply ops_cons; [|vm_compute; reflexivity|].
(** [Hx] says which head it is. *)
Ltac which_head Hx :=
  eapply in_heads in Hx; [|vm_compute; reflexivity];
  repeat (apply elem_of_cons in Hx as [[= -> ->]|Hx]); [..|by apply elem_of_nil in Hx].

Lemma whole_run_ok tracked : ops_ok (settings NGX_LOG_ERR) tracked (new_store no_nodes) whole_run.
Proof.
  run_step; [done|].
  run_step. { split; [by vm_compute|]. split; [intros m l s; by rewrite lookup_empty|]. split; [apply one_master_index|done]. }
  run_step. { eexists _, (fun _ => true). split; [vm_compute; reflexivity|]. split; [by intros i|]. intros x c Hx. which_head Hx. }
  run_step. { split; [intros x c Hx|intros x c n Hx]; which_head Hx. }
  run_step. { split; [|done]. exists 10%positive. split_and!; try done; [left; vm_compute; lia|intros _; by apply served_by_master]. }
  run_step. { eapply answers_subscribe; [vm_compute; reflexivity|]. intros x c Hx _. by which_head Hx. }
  run_step; [done|].
  run_step. { split; [eexists; vm_compute; reflexivity|]. intros x c Hx. by which_head Hx. }
  run_step. { split; [by vm_compute|]. split; [intros m l s; by rewrite lookup_empty|]. split; [apply one_master_index|done]. }
  run_step. { eexists _, (fun _ => true). split; [vm_compute; reflexivity|]. split; [by intros i|]. intros x c Hx. by which_head Hx. }
  run_step. { split; [intros x c _; by apply served_by_master|]. intros x c n Hx. which_head Hx. by intros [U|U]. }
  run_step. { eapply answers_subscribe; [vm_compute; reflexivity|]. intros x c Hx _. by which_head Hx. }
  run_step. { eexists. split; [vm_compute; reflexivity|]. intros _. split; [by apply served_by_master|done]. }
  run_step; [done|]. run_step; [by vm_compute|]. done.
Qed.

Lemma ops_ok_app cf tracked l1 l2 : forall w, ops_ok cf tracked w (l1 ++ l2) -> ops_ok cf tracked w l1.
Proof. induction l1 as [|op l1 IH]; [done|]. intros w [O1 O2]. split; [done|]. intros w' E. by apply IH, O2. Qed.

Definition run_to (ops : list rds_op) : rdstore :=
  match exec_all (settings NGX_LOG_ERR) ops (new_store no_nodes) with Ret w => w | _ => new_store no_nodes end.

Lemma lost_run_ok tracked : ops_ok (settings NGX_LOG_ERR) tracked (new_store no_nodes) lost_run.
Proof. eapply ops_ok_app. exact (whole_run_ok tracked). Qed.
Lemma listening_run_ok tracked : ops_ok (settings NGX_LOG_ERR) tracked (new_store no_nodes) listening_run.
Proof. eapply ops_ok_app. exact (lost_run_ok tracked). Qed.


Lemma lost_run_ready : ready_ok (run_to lost_run).
Proof.
  split; [intros x c _; apply served_by_master; by vm_compute|]. intros x c n Hx. which_head Hx. by intros [U|U].
Qed.

Lemma ready_again_listens_witness :
  exists w', nodeset_set_ready (settings NGX_LOG_ERR) (run_to lost_run) = Ret w' /\ ~ listed w' DisconnectedPubsub 10.
Proof.
  destruct (ready_again_listens (settings NGX_LOG_ERR) True (settings_ok _) no_nodes lost_run (run_to lost_run) no_nodes_index
    (lost_run_ok _) ltac:(vm_compute; reflexivity) lost_run_ready) as (w' & E & _ & _ & _ & L & _).
  exists w'. split; [exact E|apply L].
Defined.

Lemma disconnect_queues_heads_witness :
  exists w', node_disconnect (settings NGX_LOG_ERR) (run_to listening_run) 1 (-1) = Ret w' /\ conns w' = delete 1%positive (conns (run_to listening_run)).
Proof.
  destruct (disconnect_queues_heads (settings NGX_LOG_ERR) True (settings_ok _) no_nodes listening_run (run_to listening_run) 1%positive (-1) no_nodes_index
    (listening_run_ok _) ltac:(vm_compute; reflexivity) ltac:(eexists; vm_compute; reflexivity)) as (w' & E & _ & Ec & _).
  - intros x c Hx. by which_head Hx.
  - exists w'. by split.
Defined.

(** *** Runs that abort *)

(** A node is lost while a SUBSCRIBE is not answered: the error that is logged
    names a NULL node. *)
Example lost_while_subscribing_aborts :
  exec_all (settings NGX_LOG_ERR) (asks ++ [ODisconnect 1%positive (-1)]) (new_store no_nodes) = Crash.
Proof. vm_compute. reflexivity. Qed.

(** The answer to the UNSUBSCRIBE of a head that was reaped comes to the head
    that has taken its place, and queues it; then its SUBSCRIBE is answered. *)
Definition reaped_and_back : list rds_op := listening_run ++ [OLeave 5 10%positive; OTick 100; OSubscribe chan_a (Some 11%positive)].
Example late_unsubscribe_aborts :
  (exists w, exec_all (settings NGX_LOG_ERR) (reaped_and_back ++ [OPubsubReply 1%positive]) (new_store no_nodes) = Ret w) /\
  exec_all (settings NGX_LOG_ERR) (reaped_and_back ++ [OPubsubReply 1%positive; OPubsubReply 1%positive]) (new_store no_nodes) = Crash.
Proof. split; [eexists; vm_compute; reflexivity|vm_compute; reflexivity]. Qed.

(** A slave is lost while the nodeset stays ready: its heads wait for the next
    check of the nodeset, and a head that was idle is asked for. *)
Definition master_and_slave : redis_nodeset_t :=
  Nodeset false (Seed Sentinel 0 0) [1%positive; 2%positive]
    (list_to_map [(1%positive, RNode REDIS_NODE_READY REDIS_NODE_ROLE_MASTER false None 0 false);
                  (2%positive, RNode REDIS_NODE_READY REDIS_NODE_ROLE_SLAVE false None 0 false)]) 1%positive.
Definition slave_lost : list rds_op :=
  [OCreateNode 1%positive; OCreateNode 2%positive; ONodes master_and_slave false {[1%positive := [2%positive]]}; OReady;
   OSubscribe chan_a (Some 10%positive); OPubsubReply 2%positive; OScriptReply 0 false; ODisconnect 2%positive (-1); OLeave 5 10%positive].
Example slave_loss_aborts :
  (exists w, exec_all (settings NGX_LOG_ERR) slave_lost (new_store no_nodes) = Ret w) /\
  exec_all (settings NGX_LOG_ERR) (slave_lost ++ [OSubscribe chan_a (Some 11%positive)]) (new_store no_nodes) = Crash.
Proof. split; [eexists; vm_compute; reflexivity|vm_compute; reflexivity]. Qed.

(** A head that is created before the nodeset is ready is in no queue, and never
    listens. *)
Definition early_run : list rds_op :=
  [OCreateNode 1%positive; ONodes (one_master 27) false ∅; OSubscribe chan_a (Some 10%positive); OMakeReady 1%positive; OReady;
   OSubscribe chan_a (Some 11%positive)].
Example early_head_never_listens :
  ns_ready (run_to early_run) = true /\ conns (run_to early_run) = ∅ /\
  (fun c => (status c, pubsub_status c, sub_count c, in_disconnected_pubsub_list c)) <$> heads (run_to early_run) !! 10%positive =
    Some (NOTREADY, REDIS_PUBSUB_UNSUBSCRIBED, 2, false).
Proof. vm_compute. done. Qed.
